(* ===== verification/_CoqProject ===== *)
-Q . S2P
Prelude.v
Errno.v
RBTree.v
RBTreeRep.v
RBTreeInsert.v
RBTreeSpec.v
RBTreeRemove.v
RBTreeTheorems.v
Sync.v
DList.v
Pmm.v
PmmSpec.v
PmmTheorems.v
Paging.v
PagingSpec.v
PagingTree.v
PagingOps.v
PagingTheorems.v
Strings.v
StringsSpec.v
StringsTheorems.v
Cpio.v
CpioTheorems.v
Kheap.v
KheapSpec.v
KheapInv.v
KheapOps.v
KheapAlloc.v
KheapFree.v
KheapTheorems.v
Vmm.v
VmmSpec.v
VmmOps.v
VmmUnmap.v
VmmTheorems.v
Vfs.v
Kfile.v
Ramfs.v
VfsDrivers.v
VfsSpec.v
RamfsSpec.v
RamfsOps.v
VfsOps.v
RamfsTheorems.v
VfsTheorems.v
KfileTheorems.v
Kterm.v
KtermSpec.v
KtermFont.v
KtermTheorems.v
FdTable.v
FdTheorems.v
FdFile.v
Irq.v
IrqTheorems.v
Sched.v
SchedSpec.v
SchedTheorems.v
Fpu.v
SList.v
Task.v
TaskSpec.v
TaskArgs.v
TaskStack.v
TaskOps.v
TaskLife.v
TaskTheorems.v
Dev.v
DevTheorems.v
Npf.v
NpfSpec.v
NpfTheorems.v
Log.v
LogTheorems.v
Acpi.v
AcpiTheorems.v
Apic.v
ApicTheorems.v
Extract.v
Smp.v
