(* ===== verification/Prelude.v ===== *)
(** * A model of the lapis kernel

    lapis is a small kernel for x86-64 written in C ([src/kernel/src]). This
    library translates parts of it into functions over explicit states and proves
    what they promise. The order of the files is that of [_CoqProject].

    ** How code is modelled

    A C function becomes a term of [M S A] ([Prelude]): from a state [S] it ends
    in [Done] with a value and a state, in [Fault] when it uses a pointer to no
    object, or in [Hang] when it does not return. A pointer is its address, [NULL]
    is 0, and the objects of a type are a map from addresses to records with the
    fields of the C struct. Integers are [Z]; [u8] .. [u64] and [i32] wrap around
    where the C type does. A loop is [loop fuel body], whose body is the C loop's
    body and says whether to go round again; [wp m Q s] is total correctness, so
    that every theorem stated with it also says that the fuel is enough. The fuel
    of a walk along a structure is the number of objects in memory, that of a
    search the length of the array. Code over a part of the state is lifted with
    [zoom]. A spinlock is taken and released as the code does; taking one that is
    held is [Hang], which is how a lock that is not released shows.

    ** The parts

    - [RBTree], [RBTreeRep], [RBTreeInsert], [RBTreeSpec], [RBTreeRemove],
      [RBTreeTheorems]: [util/rbtree.c], the intrusive red-black trees. A heap of
      nodes represents a functional tree; insertion and removal refine a sorted
      map and keep the colours balanced, searches and traversals agree with the
      sorted list of keys, and a search takes logarithmic time.
    - [Sync]: [util/spinlock.c] and [util/semaphore.c]. Besides the sequential
      code, a step per shared-memory access of any number of CPUs: mutual
      exclusion, the permits of a semaphore, and what goes wrong with saved flags.
    - [DList]: doubly linked intrusive lists, shared by the page allocator and
      the run queues through the class [Links].
    - [Pmm], [PmmSpec], [PmmTheorems]: [mm/page.h], [mm/pfn_db.c], [mm/pmm.c],
      page descriptors and the page allocator. The invariant says that the free
      list is exactly the free pages; allocation is first fit; releasing the last
      reference frees.
    - [Paging], [PagingSpec], [PagingTree], [PagingOps], [PagingTheorems]:
      [mm/paging.c], over the page allocator. The tables of an address space are a
      tree in memory; mapping and unmapping change the processor's translation of
      one page only, and empty tables are given back.
    - [Strings], [StringsSpec], [StringsTheorems]: [util/memory.c], memory blocks
      and C strings over a byte memory.
    - [Cpio], [CpioTheorems]: [fs/initrd/cpio.c], the reader of the
      initial file system: it returns on any input with entries inside of the
      archive, and reads back what is written in the format. [Extract], a later
      file, unpacks the entries through the virtual file system.
    - [Kheap], [KheapSpec], [KheapInv], [KheapOps], [KheapAlloc], [KheapFree],
      [KheapTheorems]: [mm/kheap.c], the slab allocator, over the page allocator
      and the byte memory. It refines a map from the addresses of blocks to their
      sizes; the class [Heap] is what it promises its clients.
    - [Vmm], [VmmSpec], [VmmOps], [VmmUnmap], [VmmTheorems]:
      [mm/vmm.c], over the red-black trees, the page tables and the page
      allocator. An address space is an ordered list of disjoint ranges; lazy
      mapping adds a range at the highest gap, unmapping cuts and removes, a fault
      on a page that is not there fills it in. The heap is a list of answers.
    - [Errno]: the error numbers of [util/errno.h] that the parts return.
    - [Vfs], [VfsDrivers], [VfsSpec], [VfsOps], [VfsTheorems]:
      [fs/vfs/vfs.c]: drivers, mount points, vnodes and operations on paths. What a
      file system implements is the class [VnodeOps]. Paths are resolved by the
      longest mount point; over a RAM file system, lookups and changes by path
      refine an abstract tree and leave no reference behind.
    - [Ramfs], [RamfsSpec], [RamfsOps], [RamfsTheorems]: [fs/ramfs/ramfs.c], an
      instance of [VnodeOps]. The linked nodes refine a map from every directory's
      names to nodes, the operations insertions and deletions in it.
    - [Kfile], [KfileTheorems]: [fs/vfs/kfile.c], open files with an offset: what is
      written through them is read back, down through all the layers.
    - [Kterm], [KtermSpec], [KtermFont], [KtermTheorems]: [kterm/kterm.c],
      [kterm/psf.c] and [kterm/font.h], the terminal. Frame buffer, font and cells
      are memory that no text makes it leave; a character appears at the cursor,
      lines wrap and scroll, escape sequences place the cursor.
    - [FdTable], [FdTheorems]: [sched/fd.c], descriptor tables with
      reference-counted entries; the file system is a parameter (class
      [FileSystem]). A table refines a list of open files. [FdFile]: reading,
      writing and seeking by descriptor, over the open files of [Kfile]; a duplicate
      is the same open file.
    - [Irq], [IrqTheorems]: [arch/interrupts/irq.c], [isr.c] and [apic.c]:
      vectors, descriptors of interrupts and the routing entries of the IOAPICs.
    - [Sched], [SchedSpec], [SchedTheorems]: [sched/sched.c] and
      [sched/waitqueue.c]: run queues by priority, the choice of the next thread,
      boosting, stealing; sleeping and waking in order. [Fpu]: the registers of the
      FPU are saved at a switch and loaded when they are used, so that each thread
      sees its own.
    - [SList]: singly linked lists, and the loop that takes an element out.
    - [Task], [TaskSpec], [TaskArgs], [TaskStack], [TaskOps], [TaskLife],
      [TaskTheorems]: [sched/task.c]: processes and
      threads. The other parts are the class [TaskDeps], and what they promise the
      class [TaskLaws]: the address spaces and descriptor tables there are, each with
      what it was made as a copy of, and the stacks. A fork succeeds or leaves
      nothing behind; orphans go to init; a parent that waits gets the exit code,
      and all that the child had is given back; arguments are copied; what a new
      thread's stack holds is what the switch to it takes.
    - [Dev], [DevTheorems]: [dev/bus.c], [dev/device.c],
      [dev/driver.c] and [dev/pci.c]: lists of devices and drivers, which driver is
      bound to which device, and the enumeration of the PCI bus through its two
      ports, where what a register takes of a word that is written to it is a
      parameter. The call of a driver's [init] and the request of an interrupt are
      recorded as events.
    - [Npf], [NpfSpec], [NpfTheorems]: [log/nanoprintf.h] as
      [log/log.c] configures it. A format is parsed back into the directives it is
      written from; what is put out is what a reference definition says of these;
      a buffer is never left and always ended.
    - [Log], [LogTheorems]: [log/log.c], [log/sink.c] and [log/sinks], over
      nanoprintf, the terminal and a spinlock: the list of sinks, and what a message
      makes each of them write.
    - [Acpi], [AcpiTheorems]: [acpi/uacpi_wrappers.c], what the kernel gives to the
      uACPI library, over the locks, interrupts, page tables, configuration space and
      log of the other parts: bytes of configuration space, handlers of interrupts,
      events, locks, mapped ranges.
    - [Apic], [ApicTheorems]: the rest of [arch/interrupts/apic.c] with [pit.c],
      [idt.c] and [arch/gdt/gdt.c]: the walk over the firmware's table, the mapping of
      the controllers' registers into the page tables, the calibration of the timer,
      gates and the descriptor of the task state. What the library shows of the table,
      the counter of the LAPIC as a function of time and the instants at which
      interrupts come are parameters.
    - [Smp]: [arch/smp.c] and [arch/cpu.c], the current processor and the start of
      the others.

    ** The theorems

    The properties of each part are in its file of theorems (those of [Sync] in
    the file itself), each with a doc comment that numbers it and, where it has
    hypotheses, a witness that applies it to a concrete state. Some theorems show
    a fault of the code: flags that a waiting CPU overwrites, a lock that stays
    held or is taken twice, a thread that is freed while it runs, a range that is
    not cut, an error code that is taken for a count.

    ** Not modelled

    The code that runs between the steps of a function on another CPU is modelled
    for the locks only; the other parts run each function on its own, which the
    locks they take justify. Of the scheduler the switch of registers is the
    change of the current thread; setting up the run queues is not there. Of the address spaces, [vmm_protect],
    [vmm_fork], [vmm_destroy], mappings whose pages are allocated at once and
    copy-on-write faults have definitions but no theorems yet; of the file systems
    this holds of unmounting the root, of [ramfs_node_add], of reading directories
    and of attributes, and links are covered by concrete runs. In the file systems
    C strings are values, so that null paths are not represented, and the heap is a
    list of answers. Of tasks, [proc_create_kernel], [proc_map_user_stack], the
    end of the last thread of a process and the loop of the init process have
    definitions but no theorems; the laws of [TaskLaws] are not derived from the
    models of the parts they speak of. Of nanoprintf what the configuration
    leaves out is not there: floating point, write-back and the alternate form. Of
    [idt.c] the dump of the registers is not there, whose text is all it makes. Of
    unpacking the archive only the buffer of the path has a theorem; what is made in
    the file system is shown by concrete runs. Not modelled: the stub for system
    calls ([arch/syscall.c]); the listing that [fs_list] prints; [main.c], the order
    in which the parts start. *)
From stdpp Require Export base gmap list list_numbers strings fin_maps.
From Stdlib Require Export ZArith Lia.

#[global] Open Scope Z_scope.

(** * Outcomes of a call *)

(** What running a C function can end in: [Done] with a value; [Fault] when
    it dereferences a pointer to no object (undefined behaviour in C); [Hang]
    when it does not return: it spins on a lock that is never released, or a
    loop exceeds its fuel. *)
Inductive outcome (A : Type) : Type :=
  | Done (a : A)
  | Fault
  | Hang.
Arguments Done {A} a.
Arguments Fault {A}.
Arguments Hang {A}.

(** Stateful, fallible code over a state [S]. *)
Definition M (S A : Type) : Type := S → outcome (A * S).

#[global] Instance M_ret S : MRet (M S) := λ A a s, Done (a, s).
#[global] Instance M_bind S : MBind (M S) := λ A B f m s,
  match m s with
  | Done (a, s') => f a s'
  | Fault => Fault
  | Hang => Hang
  end.

Definition fault {S A} : M S A := λ _, Fault.
Definition hang {S A} : M S A := λ _, Hang.
Definition gets {S A} (f : S → A) : M S A := λ s, Done (f s, s).
Definition modify {S} (f : S → S) : M S unit := λ s, Done (tt, f s).

(** Run code over a component [T] of a larger state [S]. *)
Definition zoom {S T A} (get : S → T) (set : T → S → S) (m : M T A) : M S A :=
  λ s, match m (get s) with
       | Done (a, t) => Done (a, set t s)
       | Fault => Fault
       | Hang => Hang
       end.

(** [loop fuel body x]: a C loop whose carried locals are [x]. [body] yields
    [inl x'] to go round again and [inr a] to leave the loop with [a]. *)
Fixpoint loop {S X A} (fuel : nat) (body : X → M S (X + A)) (x : X) : M S A :=
  match fuel with
  | O => hang
  | S fuel' => r ← body x;
               match r with
               | inl x' => loop fuel' body x'
               | inr a => mret a
               end
  end.

(** A counted loop [for (i = lo; n times; i++) body i]. *)
Fixpoint for_n {S} (lo : Z) (n : nat) (body : Z → M S unit) : M S unit :=
  match n with
  | O => mret tt
  | S n' => body lo ;; for_n (lo + 1) n' body
  end.

(** * Total-correctness assertions *)

(** [wp m Q s]: run from [s], [m] returns, and [Q] holds of its value and of
    the state it leaves. A faulting or hanging run satisfies no [wp]. *)
Definition wp {S A} (m : M S A) (Q : A → S → Prop) (s : S) : Prop :=
  match m s with
  | Done (a, s') => Q a s'
  | _ => False
  end.

Section wp_rules.
Context {S : Type}.
Implicit Types s : S.

Lemma wp_ret {A} (a : A) (Q : A → S → Prop) s : Q a s → wp (mret a) Q s.
Proof. done. Qed.

Lemma wp_bind {A B} (m : M S A) (f : A → M S B) (Q : B → S → Prop) s :
  wp m (λ a s', wp (f a) Q s') s → wp (m ≫= f) Q s.
Proof. unfold wp, mbind, M_bind. by destruct (m s) as [[a s']| |]. Qed.

Lemma wp_bind_inv {A B} (m : M S A) (f : A → M S B) (Q : B → S → Prop) s :
  wp (m ≫= f) Q s → wp m (λ a s', wp (f a) Q s') s.
Proof. unfold wp, mbind, M_bind. by destruct (m s) as [[a s']| |]. Qed.

Lemma wp_assoc {A B C} (m : M S A) (f : A → M S B) (g : B → M S C) (Q : C → S → Prop) s :
  wp ((m ≫= f) ≫= g) Q s → wp (m ≫= λ x, f x ≫= g) Q s.
Proof. unfold wp, mbind, M_bind. by destruct (m s) as [[a s']| |]. Qed.

(** A run faults when it reaches a step that does. *)
Lemma fault_bind {A B} (m : M S A) (f : A → M S B) s :
  wp m (λ a s', f a s' = Fault) s → (m ≫= f) s = Fault.
Proof. unfold wp, mbind, M_bind. by destruct (m s) as [[a s']| |]. Qed.

Lemma wp_gets {A} (f : S → A) (Q : A → S → Prop) s : Q (f s) s → wp (gets f) Q s.
Proof. done. Qed.

Lemma wp_modify (f : S → S) (Q : unit → S → Prop) s : Q tt (f s) → wp (modify f) Q s.
Proof. done. Qed.

Lemma wp_mono {A} (m : M S A) (P Q : A → S → Prop) s :
  wp m P s → (∀ a s', P a s' → Q a s') → wp m Q s.
Proof. unfold wp. destruct (m s) as [[a s']| |]; auto. Qed.

Lemma wp_zoom {T A} (get : S → T) (set : T → S → S) (m : M T A)
    (Q : A → S → Prop) s :
  wp m (λ a t, Q a (set t s)) (get s) → wp (zoom get set m) Q s.
Proof. unfold wp, zoom. by destruct (m (get s)) as [[a t]| |]. Qed.

Lemma wp_done {A} (m : M S A) (Q : A → S → Prop) s :
  wp m Q s ↔ ∃ a s', m s = Done (a, s') ∧ Q a s'.
Proof.
  unfold wp. destruct (m s) as [[a s']| |]; split.
  - eauto.
  - intros (a' & s'' & [= <- <-] & ?). done.
  - done.
  - by intros (? & ? & ? & _).
  - done.
  - by intros (? & ? & ? & _).
Qed.

Lemma wp_run {A} (m : M S A) (Q : A → S → Prop) s a s' :
  m s = Done (a, s') → wp m Q s → Q a s'.
Proof. unfold wp. by intros ->. Qed.

(** The loop rule: an invariant indexed by the number of rounds still
    possible. It proves that the loop returns. *)
Lemma wp_loop {X A} (I : nat → X → S → Prop) (body : X → M S (X + A))
    (Q : A → S → Prop) n fuel x s :
  (n < fuel)%nat → I n x s →
  (∀ n x s, I n x s → wp (body x) (λ r s', match r with
     | inl x' => ∃ n', (n' < n)%nat ∧ I n' x' s'
     | inr a => Q a s' end) s) →
  wp (loop fuel body x) Q s.
Proof.
  intros Hf HI Hbody. revert n x s Hf HI.
  induction fuel as [|fuel IH]; intros n x s Hf HI; [lia|]. simpl.
  apply wp_bind. eapply wp_mono; [by apply Hbody|].
  intros [x'|a] s'; simpl; [intros (n' & ? & HI')|done].
  eapply IH; [|done]. lia.
Qed.

(** The counted-loop rule. *)
Lemma wp_for_n (I : Z → S → Prop) lo n (body : Z → M S unit)
    (Q : unit → S → Prop) s :
  I lo s →
  (∀ i s, lo ≤ i < lo + Z.of_nat n → I i s →
     wp (body i) (λ _ s', I (i + 1) s') s) →
  (∀ s', I (lo + Z.of_nat n) s' → Q tt s') →
  wp (for_n lo n body) Q s.
Proof.
  revert lo s. induction n as [|n IH]; intros lo s HI Hb HQ; simpl.
  { apply wp_ret, HQ. by replace (lo + Z.of_nat 0) with lo by lia. }
  apply wp_bind. eapply wp_mono; [apply Hb; [lia|done]|].
  intros [] s' HI'. apply IH; [done| |].
  - intros i s'' Hi. apply Hb. lia.
  - intros s''. replace (lo + 1 + Z.of_nat n) with (lo + Z.of_nat (Datatypes.S n)) by lia.
    apply HQ.
Qed.
End wp_rules.

(** Step through straight-line code: binds, returns, reads and writes of the
    state; [wp_case] splits on the condition of the next [if]. *)
Ltac wp_pure :=
  lazymatch goal with
  | |- wp (mret _) _ _ => apply wp_ret
  | |- wp (_ ≫= _) _ _ => apply wp_bind
  | |- wp (gets _) _ _ => apply wp_gets
  | |- wp (modify _) _ _ => apply wp_modify
  | |- wp (zoom _ _ _) _ _ => apply wp_zoom
  end; cbv beta iota.
Ltac wp_pures := cbv beta iota; repeat wp_pure.
Ltac wp_case :=
  match goal with
  | |- wp (if ?b then _ else _) _ _ => let H := fresh "Hif" in destruct b eqn:H
  | |- wp (match ?x with _ => _ end) _ _ => let H := fresh "Hm" in destruct x eqn:H
  end.

(** * Machine integers *)

(** Unsigned types wrap modulo a power of two; [i32] is the value a 32-bit
    two's-complement [int] holds. *)
Definition u8 (x : Z) : Z := x mod 2 ^ 8.
Definition u16 (x : Z) : Z := x mod 2 ^ 16.
Definition u32 (x : Z) : Z := x mod 2 ^ 32.
Definition u64 (x : Z) : Z := x mod 2 ^ 64.
Definition i32 (x : Z) : Z := (x + 2 ^ 31) mod 2 ^ 32 - 2 ^ 31.

(** [~m] on an [unsigned int] operand and on a [uint64_t] operand. *)
Definition not32 (m : Z) : Z := u32 (Z.lnot m).
Definition not64 (m : Z) : Z := u64 (Z.lnot m).

Lemma u64_id x : 0 ≤ x < 2 ^ 64 → u64 x = x.
Proof. apply Z.mod_small. Qed.
Lemma u32_id x : 0 ≤ x < 2 ^ 32 → u32 x = x.
Proof. apply Z.mod_small. Qed.
Lemma u16_id x : 0 ≤ x < 2 ^ 16 → u16 x = x.
Proof. apply Z.mod_small. Qed.
Lemma u8_id x : 0 ≤ x < 2 ^ 8 → u8 x = x.
Proof. apply Z.mod_small. Qed.
Lemma i32_id x : - 2 ^ 31 ≤ x < 2 ^ 31 → i32 x = x.
Proof. intros. unfold i32. rewrite Z.mod_small; lia. Qed.
Lemma u64_range x : 0 ≤ u64 x < 2 ^ 64.
Proof. apply Z.mod_pos_bound. lia. Qed.
Lemma u32_range x : 0 ≤ u32 x < 2 ^ 32.
Proof. apply Z.mod_pos_bound. lia. Qed.
Lemma u16_range x : 0 ≤ u16 x < 2 ^ 16.
Proof. apply Z.mod_pos_bound. lia. Qed.
Lemma u8_range x : 0 ≤ u8 x < 2 ^ 8.
Proof. apply Z.mod_pos_bound. lia. Qed.

(** [uint]: a value that is in range is not changed by wrapping around. *)
Create HintDb ranges.
#[export] Hint Resolve u64_range u32_range u16_range u8_range : ranges.
Create HintDb uint.
#[export] Hint Rewrite u64_id u32_id u16_id u8_id i32_id using lia : uint.
Ltac uint := autorewrite with uint.

(** ** Flag words *)

(** [f & m] used as a condition. *)
Definition flag (f m : Z) : bool := negb (Z.land f m =? 0).

Lemma flag_lor f g m : flag (Z.lor f g) m = flag f m || flag g m.
Proof.
  unfold flag. rewrite Z.land_lor_distr_l.
  destruct (Z.eqb_spec (Z.land f m) 0) as [E1|N1];
    destruct (Z.eqb_spec (Z.land g m) 0) as [E2|N2]; simpl.
  - by rewrite E1, E2.
  - rewrite E1, Z.lor_0_l. by apply Z.eqb_neq in N2 as ->.
  - rewrite E2, Z.lor_0_r. by apply Z.eqb_neq in N1 as ->.
  - destruct (Z.eqb_spec (Z.lor (Z.land f m) (Z.land g m)) 0) as [E|]; [|done].
    by apply Z.lor_eq_0_iff in E as [? ?].
Qed.

Lemma flag_land f g m : flag (Z.land f g) m = flag f (Z.land g m).
Proof. unfold flag. by rewrite Z.land_assoc. Qed.

Lemma flag_0_r f : flag f 0 = false.
Proof. unfold flag. by rewrite Z.land_0_r. Qed.

Lemma flag_0_l m : flag 0 m = false.
Proof. done. Qed.

Lemma flag_testbit f k : 0 ≤ k → flag f (2 ^ k) = Z.testbit f k.
Proof.
  intros Hk. unfold flag. destruct (Z.testbit f k) eqn:Hb.
  - destruct (Z.eqb_spec (Z.land f (2 ^ k)) 0) as [E|]; [|done].
    assert (Z.testbit (Z.land f (2 ^ k)) k = true) as Hc.
    { by rewrite Z.land_spec, Hb, Z.pow2_bits_true. }
    by rewrite E, Z.testbit_0_l in Hc.
  - replace (Z.land f (2 ^ k)) with 0; [done|].
    symmetry. apply Z.bits_inj'. intros n Hn. rewrite Z.land_spec, Z.testbit_0_l.
    destruct (decide (n = k)) as [->|]; [by rewrite Hb|].
    rewrite Z.pow2_bits_false by done. apply andb_false_r.
Qed.

(** Decide what a chain of [|=] and [&= ~] leaves of a flag, the masks being
    constants. *)
Ltac flag_norm :=
  repeat match goal with
  | |- context [flag ?f ?m] =>
      let v := eval vm_compute in m in
      lazymatch v with Z0 => idtac | Zpos _ => idtac end;
      progress change (flag f m) with (flag f v)
  end.
Ltac flag_simp :=
  rewrite ?flag_lor, ?flag_land; flag_norm;
  repeat match goal with
  | |- context [flag ?f ?m] =>
      let v := eval vm_compute in (flag f m) in
      lazymatch v with true => idtac | false => idtac end;
      change (flag f m) with v
  end;
  rewrite ?flag_0_r, ?orb_false_r, ?orb_true_r.

Lemma land_range a b n : 0 ≤ n → 0 ≤ a → 0 ≤ b < 2 ^ n → 0 ≤ Z.land a b < 2 ^ n.
Proof.
  intros Hn Ha Hb. split; [apply Z.land_nonneg; lia|].
  destruct (decide (Z.land a b = 0)) as [->|Hne]; [lia|].
  apply Z.log2_lt_pow2; [pose proof (proj2 (Z.land_nonneg a b)); lia|].
  eapply Z.le_lt_trans; [apply Z.log2_land; lia|].
  assert (b ≠ 0) by (intros ->; by rewrite Z.land_0_r in Hne).
  assert (Z.log2 b < n) by (apply Z.log2_lt_pow2; lia). lia.
Qed.

Lemma lor_range a b n : 0 ≤ n → 0 ≤ a < 2 ^ n → 0 ≤ b < 2 ^ n → 0 ≤ Z.lor a b < 2 ^ n.
Proof.
  intros Hn Ha Hb. split; [apply Z.lor_nonneg; lia|].
  destruct (decide (Z.lor a b = 0)) as [->|Hne]; [lia|].
  apply Z.log2_lt_pow2; [pose proof (proj2 (Z.lor_nonneg a b)); lia|].
  rewrite Z.log2_lor by lia.
  assert (∀ x, 0 ≤ x < 2 ^ n → x ≠ 0 → Z.log2 x < n) as Hl
    by (intros; apply Z.log2_lt_pow2; lia).
  destruct (decide (a = 0)) as [->|], (decide (b = 0)) as [->|].
  - done.
  - rewrite Z.max_r by (rewrite Z.log2_nonpos by lia; apply Z.log2_nonneg). auto.
  - rewrite Z.max_l by (rewrite (Z.log2_nonpos 0) by lia; apply Z.log2_nonneg). auto.
  - pose proof (Hl a Ha). pose proof (Hl b Hb). lia.
Qed.

(** Rounding down to a multiple of a power of two with a mask. *)
Lemma land_not64 k x : 0 ≤ k ≤ 64 → 0 ≤ x < 2 ^ 64 → Z.land x (not64 (2 ^ k - 1)) = x / 2 ^ k * 2 ^ k.
Proof.
  intros Hk Hx. replace (2 ^ k - 1) with (Z.ones k) by (by rewrite Z.ones_equiv, Z.sub_1_r).
  replace (x / 2 ^ k * 2 ^ k) with (Z.shiftl (Z.shiftr x k) k) by (by rewrite Z.shiftl_mul_pow2, Z.shiftr_div_pow2 by lia).
  apply Z.bits_inj'. intros n Hn. unfold not64, u64. rewrite Z.land_spec, Z.shiftl_spec, Z.testbit_mod_pow2, Z.lnot_spec by lia.
  rewrite Z.testbit_ones_nonneg by lia. destruct (Z.ltb_spec n k).
  - by rewrite (Z.testbit_neg_r _ (n - k)), !andb_false_r by lia.
  - rewrite Z.shiftr_spec by lia. replace (n - k + k) with n by lia. destruct (Z.ltb_spec n 64); [by rewrite andb_true_r|].
    rewrite andb_false_r. symmetry. destruct (decide (x = 0)) as [->|]; [apply Z.testbit_0_l|].
    apply Z.bits_above_log2; [lia|]. assert (Z.log2 x < 64) by (apply Z.log2_lt_pow2; lia). lia.
Qed.

(** * Lists *)

Lemma NoDup_perm {A} (l l' : list A) : l ≡ₚ l' → NoDup l → NoDup l'.
Proof. by intros ->. Qed.

(** An element of a duplicate-free list occurs at one place. *)
Lemma nodup_split {A} (a : A) l1 l2 l1' l2' :
  NoDup (l1 ++ a :: l2) → l1 ++ a :: l2 = l1' ++ a :: l2' → l1 = l1' ∧ l2 = l2'.
Proof.
  revert l1'. induction l1 as [|b l1 IH]; intros [|b' l1'] Hnd Heq; simpl in *;
    [by simplify_eq|injection Heq as -> Heq..].
  - apply NoDup_cons in Hnd as [Hnd _]. rewrite Heq in Hnd. set_solver.
  - apply NoDup_cons in Hnd as [Hnd _]. set_solver.
  - apply NoDup_cons in Hnd as [_ Hnd]. by destruct (IH l1' Hnd Heq) as [-> ->].
Qed.

Lemma alter_const {A} (f : A → A) (x : A) a (m : gmap Z A) :
  m !! a = Some x → alter f a m = <[a := f x]> m.
Proof.
  intros Ha. apply map_eq. intros b. rewrite lookup_alter, lookup_insert.
  case_decide; subst; [by rewrite Ha|done].
Qed.

Lemma alter_twice {A} (f g : A → A) (m : gmap Z A) i : alter f i (alter g i m) = alter (f ∘ g) i m.
Proof.
  apply map_eq. intros j. rewrite !lookup_alter. case_decide; [|done].
  rewrite decide_True by done. by rewrite option_fmap_compose.
Qed.

(** * Loops over a list, and conditionals *)

Fixpoint for_each {S A} (l : list A) (body : A → M S unit) : M S unit :=
  match l with [] => mret tt | a :: l => body a ;; for_each l body end.

(** [if (b) m;] *)
Definition when {S} (b : bool) (m : M S unit) : M S unit := if b then m else mret tt.

Lemma wp_when {S} b (m : M S unit) (Q : unit → S → Prop) s :
  (b = true → wp m Q s) → (b = false → Q tt s) → wp (when b m) Q s.
Proof. intros H1 H2. destruct b; [by apply H1|by apply wp_ret, H2]. Qed.

Lemma wp_for_each {S A} (I : list A → S → Prop) l (body : A → M S unit) (Q : unit → S → Prop) s :
  I [] s →
  (∀ l1 a l2 s, l = l1 ++ a :: l2 → I l1 s → wp (body a) (λ _ s', I (l1 ++ [a]) s') s) →
  (∀ s', I l s' → Q tt s') → wp (for_each l body) Q s.
Proof.
  intros HI Hb HQ.
  assert (∀ l1 l2 s, l = l1 ++ l2 → I l1 s → wp (for_each l2 body) Q s) as H;
    [|by apply (H [])].
  intros l1 l2. revert l1. induction l2 as [|a l2 IH]; intros l1 s' Hl Hs; simpl.
  - apply wp_ret, HQ. by rewrite Hl, app_nil_r.
  - apply wp_bind. eapply wp_mono; [by eapply Hb|]. intros [] s'' Hs''.
    eapply (IH (l1 ++ [a])); [|done]. by rewrite <-app_assoc.
Qed.
