(* ===== verification/Errno.v ===== *)
(** The error codes of [src/kernel/src/util/errno.h] that the modelled code
    returns. *)
From S2P Require Import Prelude.

Definition EOK : Z := 0.
Definition ENOENT : Z := 2.
Definition EBADF : Z := 9.
Definition ECHILD : Z := 10.
Definition ENOMEM : Z := 12.
Definition EFAULT : Z := 14.
Definition EBUSY : Z := 16.
Definition EEXIST : Z := 17.
Definition ENOTDIR : Z := 20.
Definition EISDIR : Z := 21.
Definition EINVAL : Z := 22.
Definition EMFILE : Z := 24.
Definition ENOSYS : Z := 38.
Definition ENOTEMPTY : Z := 39.
Definition ELOOP : Z := 40.
Definition ENOTRECOVERABLE : Z := 131.
