(* ===== verification/RBTree.v ===== *)
(** Intrusive red-black trees: [src/kernel/src/util/rbtree.c].

    The nodes live in a heap of [rb_node_t] records keyed by address; a
    pointer is an address and [NULL] is 0. Every read or write of a node goes
    through [load] and [store], which fault on an address that holds no node. *)
From S2P Require Import Prelude.

(** [rb_color_t] *)
Inductive rb_color_t := RB_BLACK | RB_RED.
#[global] Instance rb_color_eq_dec : EqDecision rb_color_t.
Proof. solve_decision. Defined.

(** [rb_node_t] *)
Record rb_node_t := mkNode {
  rb_parent : Z;
  rb_left : Z;
  rb_right : Z;
  rb_color : rb_color_t;
}.

(** [rb_tree_t]; its comparator is the argument [compare] of the operations
    that call it. *)
Record rb_tree_t := mkTree { rt_root : Z; rt_size : Z }.

(** The memory an operation sees: the nodes and the tree header. *)
Record rb_state := mkRb { rb_heap : gmap Z rb_node_t; rb_tree : rb_tree_t }.

Definition set_parent (p : Z) (n : rb_node_t) : rb_node_t :=
  mkNode p (rb_left n) (rb_right n) (rb_color n).
Definition set_left (l : Z) (n : rb_node_t) : rb_node_t :=
  mkNode (rb_parent n) l (rb_right n) (rb_color n).
Definition set_right (r : Z) (n : rb_node_t) : rb_node_t :=
  mkNode (rb_parent n) (rb_left n) r (rb_color n).
Definition set_color (c : rb_color_t) (n : rb_node_t) : rb_node_t :=
  mkNode (rb_parent n) (rb_left n) (rb_right n) c.

Definition load (a : Z) : M rb_state rb_node_t := λ s,
  match rb_heap s !! a with Some n => Done (n, s) | None => Fault end.
Definition store (a : Z) (f : rb_node_t → rb_node_t) : M rb_state unit := λ s,
  match rb_heap s !! a with
  | Some n => Done (tt, mkRb (<[a := f n]> (rb_heap s)) (rb_tree s))
  | None => Fault
  end.
Definition get_root : M rb_state Z := gets (λ s, rt_root (rb_tree s)).
Definition set_root (a : Z) : M rb_state unit :=
  modify (λ s, mkRb (rb_heap s) (mkTree a (rt_size (rb_tree s)))).
Definition set_size (f : Z → Z) : M rb_state unit :=
  modify (λ s, mkRb (rb_heap s) (mkTree (rt_root (rb_tree s)) (f (rt_size (rb_tree s))))).

(** Rounds allowed to a loop over the nodes of a tree: one more than there are
    nodes in memory, since no loop below visits a node twice. *)
Definition rb_fuel : M rb_state nat := gets (λ s, S (size (rb_heap s))).

(** * The code *)

Definition _rb_node_color (node : Z) : M rb_state rb_color_t :=
  if node =? 0 then mret RB_BLACK else n ← load node; mret (rb_color n).

Definition _is_red (node : Z) : M rb_state bool :=
  if node =? 0 then mret false
  else n ← load node; mret (bool_decide (rb_color n = RB_RED)).

Definition _replace_child (parent old_child new_child : Z) : M rb_state unit :=
  (if parent =? 0 then set_root new_child
   else n ← load parent;
        if rb_left n =? old_child then store parent (set_left new_child)
        else store parent (set_right new_child)) ;;
  if new_child =? 0 then mret tt else store new_child (set_parent parent).

Definition _rotate_left (node : Z) : M rb_state unit :=
  n ← load node;
  let r := rb_right n in
  nr ← load r;
  let rl := rb_left nr in
  store r (set_left node) ;;
  store node (set_right rl) ;;
  (if rl =? 0 then mret tt else store rl (set_parent node)) ;;
  n ← load node;
  store r (set_parent (rb_parent n)) ;;
  n ← load node;
  _replace_child (rb_parent n) node r ;;
  store node (set_parent r).

Definition _rotate_right (node : Z) : M rb_state unit :=
  n ← load node;
  let l := rb_left n in
  nl ← load l;
  let lr := rb_right nl in
  store l (set_right node) ;;
  store node (set_left lr) ;;
  (if lr =? 0 then mret tt else store lr (set_parent node)) ;;
  n ← load node;
  store l (set_parent (rb_parent n)) ;;
  n ← load node;
  _replace_child (rb_parent n) node l ;;
  store node (set_parent l).

(** One round of the [while] of [_insert_fixup]: [inl] is the node the next
    round looks at. *)
Definition insert_fixup_round (node : Z) : M rb_state (Z + unit) :=
  n ← load node;
  let p := rb_parent n in
  red ← _is_red p;
  if negb red then mret (inr tt) else
  np ← load p;
  let g := rb_parent np in
  ng ← load g;
  if p =? rb_left ng then
    let uncle := rb_right ng in
    ured ← _is_red uncle;
    if (ured : bool) then
      store p (set_color RB_BLACK) ;;
      store uncle (set_color RB_BLACK) ;;
      store g (set_color RB_RED) ;;
      mret (inl g)
    else
      node ← (if node =? rb_right np then _rotate_left p ;; mret p else mret node);
      n ← load node;
      store (rb_parent n) (set_color RB_BLACK) ;;
      np ← load (rb_parent n);
      store (rb_parent np) (set_color RB_RED) ;;
      _rotate_right (rb_parent np) ;;
      mret (inl node)
  else
    let uncle := rb_left ng in
    ured ← _is_red uncle;
    if (ured : bool) then
      store p (set_color RB_BLACK) ;;
      store uncle (set_color RB_BLACK) ;;
      store g (set_color RB_RED) ;;
      mret (inl g)
    else
      node ← (if node =? rb_left np then _rotate_right p ;; mret p else mret node);
      n ← load node;
      store (rb_parent n) (set_color RB_BLACK) ;;
      np ← load (rb_parent n);
      store (rb_parent np) (set_color RB_RED) ;;
      _rotate_left (rb_parent np) ;;
      mret (inl node).

Definition _insert_fixup (node : Z) : M rb_state unit :=
  fuel ← rb_fuel;
  loop fuel insert_fixup_round node ;;
  r ← get_root;
  store r (set_color RB_BLACK).

(** The [rb_node_t **link] of [rb_insert]: the pointer cell it names. *)
Inductive rb_link := link_root | link_left (a : Z) | link_right (a : Z).

Definition link_read (l : rb_link) : M rb_state Z :=
  match l with
  | link_root => get_root
  | link_left a => n ← load a; mret (rb_left n)
  | link_right a => n ← load a; mret (rb_right n)
  end.
Definition link_write (l : rb_link) (v : Z) : M rb_state unit :=
  match l with
  | link_root => set_root v
  | link_left a => store a (set_left v)
  | link_right a => store a (set_right v)
  end.

Section with_compare.
Context (compare : Z → Z → Z).

(** The descent of [rb_insert]: [inr None] is the early [return -1]. *)
Definition insert_descend (node : Z) (st : Z * rb_link) :
    M rb_state (Z * rb_link + option (Z * rb_link)) :=
  let '(parent, link) := st in
  cur ← link_read link;
  if cur =? 0 then mret (inr (Some (parent, link))) else
  let cmp := compare node cur in
  if cmp <? 0 then mret (inl (cur, link_left cur))
  else if cmp >? 0 then mret (inl (cur, link_right cur))
  else mret (inr None).

Definition rb_insert (node : Z) : M rb_state Z :=
  fuel ← rb_fuel;
  pos ← loop fuel (insert_descend node) (0, link_root);
  match pos with
  | None => mret (-1)
  | Some (parent, link) =>
      store node (set_parent parent) ;;
      store node (set_left 0) ;;
      store node (set_right 0) ;;
      store node (set_color RB_RED) ;;
      link_write link node ;;
      set_size (λ n, u64 (n + 1)) ;;
      _insert_fixup node ;;
      mret 0
  end.

Definition find_round (key cur : Z) : M rb_state (Z + Z) :=
  if cur =? 0 then mret (inr 0) else
  n ← load cur;
  let cmp := compare key cur in
  if cmp <? 0 then mret (inl (rb_left n))
  else if cmp >? 0 then mret (inl (rb_right n))
  else mret (inr cur).

Definition rb_find (key : Z) : M rb_state Z :=
  fuel ← rb_fuel;
  r ← get_root;
  loop fuel (find_round key) r.

Definition lower_bound_round (key : Z) (st : Z * Z) : M rb_state (Z * Z + Z) :=
  let '(cur, result) := st in
  if cur =? 0 then mret (inr result) else
  n ← load cur;
  let cmp := compare key cur in
  if cmp <? 0 then mret (inl (rb_left n, cur))
  else if cmp >? 0 then mret (inl (rb_right n, result))
  else mret (inr cur).

Definition rb_lower_bound (key : Z) : M rb_state Z :=
  fuel ← rb_fuel;
  r ← get_root;
  loop fuel (lower_bound_round key) (r, 0).

Definition upper_bound_round (key : Z) (st : Z * Z) : M rb_state (Z * Z + Z) :=
  let '(cur, result) := st in
  if cur =? 0 then mret (inr result) else
  n ← load cur;
  let cmp := compare key cur in
  if cmp <? 0 then mret (inl (rb_left n, cur))
  else mret (inl (rb_right n, result)).

Definition rb_upper_bound (key : Z) : M rb_state Z :=
  fuel ← rb_fuel;
  r ← get_root;
  loop fuel (upper_bound_round key) (r, 0).
End with_compare.

Definition _transplant (u v : Z) : M rb_state unit :=
  n ← load u;
  _replace_child (rb_parent n) u v ;;
  n ← load u;
  if v =? 0 then mret tt else store v (set_parent (rb_parent n)).

(** The end of a round of [_remove_fixup], its sibling being black by then:
    the [if] on the colours of the sibling's children, when the node is a left
    child and when it is a right child. *)
Definition remove_fixup_left (parent sibling : Z) : M rb_state (Z * Z + Z) :=
  ns ← load sibling;
  cl ← _rb_node_color (rb_left ns);
  cr ← _rb_node_color (rb_right ns);
  if bool_decide (cl = RB_BLACK) && bool_decide (cr = RB_BLACK) then
    store sibling (set_color RB_RED) ;;
    np ← load parent;
    mret (inl (parent, rb_parent np))
  else
    sibling ← (if bool_decide (cr = RB_BLACK) then
                 store (rb_left ns) (set_color RB_BLACK) ;;
                 store sibling (set_color RB_RED) ;;
                 _rotate_right sibling ;;
                 np ← load parent; mret (rb_right np)
               else mret sibling);
    np ← load parent;
    store sibling (set_color (rb_color np)) ;;
    store parent (set_color RB_BLACK) ;;
    ns ← load sibling;
    (if rb_right ns =? 0 then mret tt else store (rb_right ns) (set_color RB_BLACK)) ;;
    _rotate_left parent ;;
    rt ← get_root;
    mret (inl (rt, parent)).

Definition remove_fixup_right (parent sibling : Z) : M rb_state (Z * Z + Z) :=
  ns ← load sibling;
  cl ← _rb_node_color (rb_left ns);
  cr ← _rb_node_color (rb_right ns);
  if bool_decide (cl = RB_BLACK) && bool_decide (cr = RB_BLACK) then
    store sibling (set_color RB_RED) ;;
    np ← load parent;
    mret (inl (parent, rb_parent np))
  else
    sibling ← (if bool_decide (cl = RB_BLACK) then
                 store (rb_right ns) (set_color RB_BLACK) ;;
                 store sibling (set_color RB_RED) ;;
                 _rotate_left sibling ;;
                 np ← load parent; mret (rb_left np)
               else mret sibling);
    np ← load parent;
    store sibling (set_color (rb_color np)) ;;
    store parent (set_color RB_BLACK) ;;
    ns ← load sibling;
    (if rb_left ns =? 0 then mret tt else store (rb_left ns) (set_color RB_BLACK)) ;;
    _rotate_right parent ;;
    rt ← get_root;
    mret (inl (rt, parent)).

(** One round of the [while] of [_remove_fixup], the carried locals being
    [node] and [parent]; [inr node] leaves the loop. *)
Definition remove_fixup_round (st : Z * Z) : M rb_state (Z * Z + Z) :=
  let '(node, parent) := st in
  blk ← _rb_node_color node;
  rt ← get_root;
  if negb (bool_decide (blk = RB_BLACK) && negb (node =? rt)) then mret (inr node) else
  np ← load parent;
  if node =? rb_left np then
    let sibling := rb_right np in
    sred ← _is_red sibling;
    sibling ← (if (sred : bool) then
                 store sibling (set_color RB_BLACK) ;;
                 store parent (set_color RB_RED) ;;
                 _rotate_left parent ;;
                 np ← load parent; mret (rb_right np)
               else mret sibling);
    remove_fixup_left parent sibling
  else
    let sibling := rb_left np in
    sred ← _is_red sibling;
    sibling ← (if (sred : bool) then
                 store sibling (set_color RB_BLACK) ;;
                 store parent (set_color RB_RED) ;;
                 _rotate_right parent ;;
                 np ← load parent; mret (rb_left np)
               else mret sibling);
    remove_fixup_right parent sibling.

Definition _remove_fixup (node parent : Z) : M rb_state unit :=
  fuel ← rb_fuel;
  node ← loop fuel remove_fixup_round (node, parent);
  if node =? 0 then mret tt else store node (set_color RB_BLACK).

(** [while (y->left != NULL) y = y->left;] *)
Definition leftmost_round (y : Z) : M rb_state (Z + Z) :=
  n ← load y;
  if rb_left n =? 0 then mret (inr y) else mret (inl (rb_left n)).
Definition rightmost_round (y : Z) : M rb_state (Z + Z) :=
  n ← load y;
  if rb_right n =? 0 then mret (inr y) else mret (inl (rb_right n)).

(** The branch of [rb_remove] for a node with two children: its successor [y]
    takes its place. *)
Definition remove_successor (node : Z) (n : rb_node_t) : M rb_state (Z * Z * rb_color_t) :=
  fuel ← rb_fuel;
  y ← loop fuel leftmost_round (rb_right n);
  ny ← load y;
  let y_orig_color := rb_color ny in
  let x := rb_right ny in
  x_parent ←
    (if rb_parent ny =? node then mret y
     else
       _transplant y (rb_right ny) ;;
       n ← load node;
       store y (set_right (rb_right n)) ;;
       ny' ← load y;
       store (rb_right ny') (set_parent y) ;;
       mret (rb_parent ny));
  _transplant node y ;;
  n ← load node;
  store y (set_left (rb_left n)) ;;
  ny' ← load y;
  store (rb_left ny') (set_parent y) ;;
  n ← load node;
  store y (set_color (rb_color n)) ;;
  mret (x, x_parent, y_orig_color).

Definition rb_remove (node : Z) : M rb_state unit :=
  n ← load node;
  '(x, x_parent, y_orig_color) ←
    (if rb_left n =? 0 then
       _transplant node (rb_right n) ;;
       mret (rb_right n, rb_parent n, rb_color n)
     else if rb_right n =? 0 then
       _transplant node (rb_left n) ;;
       mret (rb_left n, rb_parent n, rb_color n)
     else remove_successor node n);
  set_size (λ k, u64 (k - 1)) ;;
  if bool_decide (y_orig_color = RB_BLACK) then _remove_fixup x x_parent else mret tt.

Definition rb_first : M rb_state Z :=
  r ← get_root;
  if r =? 0 then mret 0 else
  fuel ← rb_fuel; loop fuel leftmost_round r.

Definition rb_last : M rb_state Z :=
  r ← get_root;
  if r =? 0 then mret 0 else
  fuel ← rb_fuel; loop fuel rightmost_round r.

(** [while (parent != NULL && node == parent->right) ...] *)
Definition next_up_round (st : Z * Z) : M rb_state (Z * Z + Z) :=
  let '(node, parent) := st in
  if parent =? 0 then mret (inr parent) else
  np ← load parent;
  if node =? rb_right np then mret (inl (parent, rb_parent np)) else mret (inr parent).
Definition prev_up_round (st : Z * Z) : M rb_state (Z * Z + Z) :=
  let '(node, parent) := st in
  if parent =? 0 then mret (inr parent) else
  np ← load parent;
  if node =? rb_left np then mret (inl (parent, rb_parent np)) else mret (inr parent).

Definition rb_next (node : Z) : M rb_state Z :=
  n ← load node;
  fuel ← rb_fuel;
  if rb_right n =? 0 then loop fuel next_up_round (node, rb_parent n)
  else loop fuel leftmost_round (rb_right n).

Definition rb_prev (node : Z) : M rb_state Z :=
  n ← load node;
  fuel ← rb_fuel;
  if rb_left n =? 0 then loop fuel prev_up_round (node, rb_parent n)
  else loop fuel rightmost_round (rb_left n).
