(* ===== verification/RBTreeRep.v ===== *)
(** What the memory of a red-black tree means: the abstract tree a heap
    represents, a zipper focused on the node the code is working at, and the
    specifications of the pointer operations in terms of that zipper. *)
From S2P Require Import Prelude RBTree.

(** * Abstract trees; a node is its address *)

Inductive tree := E | T (c : rb_color_t) (l : tree) (a : Z) (r : tree).

Fixpoint inorder (t : tree) : list Z :=
  match t with E => [] | T _ l a r => inorder l ++ a :: inorder r end.
Fixpoint addrs (t : tree) : list Z :=
  match t with E => [] | T _ l a r => a :: addrs l ++ addrs r end.
Definition rootp (t : tree) : Z := match t with E => 0 | T _ _ a _ => a end.
Definition tcolor (t : tree) : rb_color_t :=
  match t with E => RB_BLACK | T c _ _ _ => c end.

(** [FL c a r]: the hole is the left child of node [a]; [FR c l a]: the right. *)
Inductive frame := FL (c : rb_color_t) (a : Z) (r : tree) | FR (c : rb_color_t) (l : tree) (a : Z).
Abbreviation ctx := (list frame).

Definition plug1 (f : frame) (t : tree) : tree :=
  match f with FL c a r => T c t a r | FR c l a => T c l a t end.
Fixpoint plug (k : ctx) (t : tree) : tree :=
  match k with [] => t | f :: k => plug k (plug1 f t) end.
Definition faddr (f : frame) : Z := match f with FL _ a _ | FR _ _ a => a end.
Definition kpar (k : ctx) : Z := match k with [] => 0 | f :: _ => faddr f end.
Definition faddrs (f : frame) : list Z :=
  match f with FL _ a r => a :: addrs r | FR _ l a => a :: addrs l end.
Fixpoint kaddrs (k : ctx) : list Z :=
  match k with [] => [] | f :: k => faddrs f ++ kaddrs k end.
Fixpoint klefts (k : ctx) : list Z :=
  match k with
  | [] => [] | FL _ _ _ :: k => klefts k | FR _ l a :: k => klefts k ++ inorder l ++ [a]
  end.
Fixpoint krights (k : ctx) : list Z :=
  match k with
  | [] => [] | FL _ a r :: k => a :: inorder r ++ krights k | FR _ _ _ :: k => krights k
  end.

Lemma plug_app k k' t : plug (k ++ k') t = plug k' (plug k t).
Proof. revert t; induction k as [|f k IH]; intros t; simpl; [done|]. by rewrite IH. Qed.

Lemma plug_nonempty k t : t ≠ E → plug k t ≠ E.
Proof. revert t; induction k as [|f k IH]; intros t Ht; simpl; [done|]. apply IH. by destruct f. Qed.
Lemma plug_cons_nonempty f k t : plug (f :: k) t ≠ E.
Proof. apply (plug_nonempty k (plug1 f t)). by destruct f. Qed.

Lemma kaddrs_app k k' : kaddrs (k ++ k') = kaddrs k ++ kaddrs k'.
Proof. induction k as [|f k IH]; simpl; [done|]. by rewrite IH, app_assoc. Qed.

Lemma inorder_plug k t : inorder (plug k t) = klefts k ++ inorder t ++ krights k.
Proof.
  revert t; induction k as [|[c a r|c l a] k IH]; intros t; simpl.
  - by rewrite app_nil_r.
  - rewrite IH. simpl. by rewrite <-!app_assoc.
  - rewrite IH. simpl. by rewrite <-!app_assoc.
Qed.

Lemma inorder_addrs t : inorder t ≡ₚ addrs t.
Proof. induction t as [|c l IHl a r IHr]; simpl; [done|]. rewrite IHl, IHr. by rewrite Permutation_middle. Qed.

Lemma addrs_plug k t : addrs (plug k t) ≡ₚ addrs t ++ kaddrs k.
Proof.
  revert t; induction k as [|[c a r|c l a] k IH]; intros t; simpl.
  - by rewrite app_nil_r.
  - rewrite IH. simpl. rewrite <-!Permutation_middle. solve_Permutation.
  - rewrite IH. simpl. rewrite <-!Permutation_middle. solve_Permutation.
Qed.

(** * Representation *)

(** The nodes of [t] are in [h], with the parent pointer of its root [par]. *)
Fixpoint rep (h : gmap Z rb_node_t) (par : Z) (t : tree) : Prop :=
  match t with
  | E => True
  | T c l a r => a ≠ 0 ∧ h !! a = Some (mkNode par (rootp l) (rootp r) c) ∧
                 rep h a l ∧ rep h a r
  end.

(** The nodes of the context are in [h], the hole holding the pointer [p], and
    [rt] is the root pointer of the whole tree. *)
Fixpoint repk (h : gmap Z rb_node_t) (rt : Z) (k : ctx) (p : Z) : Prop :=
  match k with
  | [] => rt = p
  | FL c a r :: k => a ≠ 0 ∧ h !! a = Some (mkNode (kpar k) p (rootp r) c) ∧
                     rep h a r ∧ repk h rt k a
  | FR c l a :: k => a ≠ 0 ∧ h !! a = Some (mkNode (kpar k) (rootp l) p c) ∧
                     rep h a l ∧ repk h rt k a
  end.

(** What stays the same while the tree is rebalanced: the memory [e_h0]
    outside the footprint [e_foot], the set of nodes in memory, the size
    field, and the in-order sequence of the nodes. *)
Record env := mkEnv {
  e_h0 : gmap Z rb_node_t;
  e_foot : gset Z;
  e_size : Z;
  e_io : list Z;
}.

(** State [s] represents the tree [plug k t], focused on [t]. *)
Record Rep (e : env) (s : rb_state) (k : ctx) (t : tree) : Prop := mkRep {
  Rep_t : rep (rb_heap s) (kpar k) t;
  Rep_k : repk (rb_heap s) (rt_root (rb_tree s)) k (rootp t);
  Rep_nodup : NoDup (addrs t ++ kaddrs k);
  Rep_foot : ∀ b, b ∈ addrs t ++ kaddrs k ↔ b ∈ e_foot e;
  Rep_frame : ∀ b, b ∉ e_foot e → rb_heap s !! b = e_h0 e !! b;
  Rep_dom : dom (rb_heap s) = dom (e_h0 e);
  Rep_size : rt_size (rb_tree s) = e_size e;
  Rep_io : klefts k ++ inorder t ++ krights k = e_io e;
}.

(** ** Framing *)

Lemma rep_frame h h' p t :
  rep h p t → (∀ b, b ∈ addrs t → h' !! b = h !! b) → rep h' p t.
Proof.
  revert p; induction t as [|c l IHl a r IHr]; simpl; intros p; [done|].
  intros (? & ? & ? & ?) Hh. split_and!; [done| | |].
  - rewrite Hh; [done|set_solver].
  - apply IHl; [done|]. intros; apply Hh; set_solver.
  - apply IHr; [done|]. intros; apply Hh; set_solver.
Qed.

Lemma repk_frame h h' rt k p :
  repk h rt k p → (∀ b, b ∈ kaddrs k → h' !! b = h !! b) → repk h' rt k p.
Proof.
  revert p; induction k as [|[c a r|c l a] k IH]; simpl; intros p; [done| |];
    intros (? & ? & ? & ?) Hh; (split_and!; [done| | |]).
  1,4: rewrite Hh; [done|set_solver].
  1,3: eapply rep_frame; [done|]; intros; apply Hh; set_solver.
  all: apply IH; [done|]; intros; apply Hh; set_solver.
Qed.

Lemma rep_insert h b n p t : rep h p t → b ∉ addrs t → rep (<[b := n]> h) p t.
Proof.
  intros H Hb. eapply rep_frame; [done|]. intros b' ?.
  apply lookup_insert_ne. naive_solver.
Qed.
Lemma repk_insert h b n rt k p : repk h rt k p → b ∉ kaddrs k → repk (<[b := n]> h) rt k p.
Proof.
  intros H Hb. eapply repk_frame; [done|]. intros b' ?.
  apply lookup_insert_ne. naive_solver.
Qed.

Lemma rootp_addrs t : rootp t = 0 ∨ rootp t ∈ addrs t.
Proof. destruct t; simpl; [by left|right; set_solver]. Qed.
Lemma rep_rootp h p t : rep h p t → rootp t = 0 → t = E.
Proof. destruct t; simpl; [done|]. by intros (? & _). Qed.
Lemma rep_nonzero h p t : rep h p t → 0 ∉ addrs t.
Proof.
  revert p; induction t as [|c l IHl a r IHr]; simpl; intros p; [set_solver|].
  intros (? & _ & Hl & Hr). apply IHl in Hl. apply IHr in Hr. set_solver.
Qed.
Lemma repk_nonzero h rt k p : repk h rt k p → 0 ∉ kaddrs k.
Proof.
  revert p; induction k as [|[c a r|c l a] k IH]; simpl; intros p; [set_solver| |];
    intros (? & _ & Hr%rep_nonzero & Hk%IH); set_solver.
Qed.
Lemma rep_dom h p t : rep h p t → ∀ b, b ∈ addrs t → is_Some (h !! b).
Proof.
  revert p; induction t as [|c l IHl a r IHr]; simpl; intros p; [set_solver|].
  intros (? & ? & Hl & Hr) b [->|[?|?]%elem_of_app]%elem_of_cons; eauto.
Qed.
Lemma repk_dom h rt k p : repk h rt k p → ∀ b, b ∈ kaddrs k → is_Some (h !! b).
Proof.
  revert p; induction k as [|[c a r|c l a] k IH]; simpl; intros p; [set_solver| |];
    intros (? & ? & Hr & Hk) b; rewrite elem_of_cons, elem_of_app;
    (intros [->|[?|?]]; [by eauto|by eapply rep_dom|by eauto]).
Qed.

Lemma rep_reparent h p p' c l a r n :
  rep h p (T c l a r) → h !! a = Some n → a ∉ addrs l ++ addrs r →
  rep (<[a := set_parent p' n]> h) p' (T c l a r).
Proof.
  simpl. intros (? & Hn & ? & ?) Ha ?. rewrite Hn in Ha. injection Ha as <-.
  split_and!; [done|by rewrite lookup_insert_eq| |]; apply rep_insert; set_solver.
Qed.

(** ** Memory accesses *)

Lemma wp_load Q s a n : rb_heap s !! a = Some n → Q n s → wp (load a) Q s.
Proof. unfold wp, load. by intros ->. Qed.
Lemma wp_store (Q : unit → rb_state → Prop) s a n f :
  rb_heap s !! a = Some n → Q tt (mkRb (<[a := f n]> (rb_heap s)) (rb_tree s)) →
  wp (store a f) Q s.
Proof. unfold wp, store. by intros ->. Qed.

(** ** Moving the focus *)

Lemma Rep_up e s f k t : Rep e s (f :: k) t ↔ Rep e s k (plug1 f t).
Proof.
  split; intros [Ht Hk Hnd Hf Hfr Hd Hs Hio]; destruct f as [c a r|c l a]; simpl in *;
    (constructor; simpl; [tauto|tauto| | |done|done|done|]).
  all: try (rewrite <-Hio; by rewrite <-!app_assoc).
  all: try (intros b; rewrite <-Hf; set_solver).
  all: eapply NoDup_perm; [|exact Hnd]; solve_Permutation.
Qed.

(** The same, one direction and one side at a time. *)
Lemma Rep_zip e s f k t : Rep e s (f :: k) t → Rep e s k (plug1 f t).
Proof. apply Rep_up. Qed.
Lemma Rep_zip_L e s c a r k t : Rep e s (FL c a r :: k) t → Rep e s k (T c t a r).
Proof. apply Rep_up. Qed.
Lemma Rep_zip_R e s c l a k t : Rep e s (FR c l a :: k) t → Rep e s k (T c l a t).
Proof. apply Rep_up. Qed.
Lemma Rep_unzip_L e s c a r k t : Rep e s k (T c t a r) → Rep e s (FL c a r :: k) t.
Proof. exact (proj2 (Rep_up e s (FL c a r) k t)). Qed.
Lemma Rep_unzip_R e s c l a k t : Rep e s k (T c l a t) → Rep e s (FR c l a :: k) t.
Proof. exact (proj2 (Rep_up e s (FR c l a) k t)). Qed.

Lemma Rep_plug e s k k' t : Rep e s (k ++ k') t ↔ Rep e s k' (plug k t).
Proof.
  revert t; induction k as [|f k IH]; intros t; simpl; [done|]. by rewrite Rep_up, IH.
Qed.


(** Break footprint hypotheses and goals into facts about single addresses
    and single subtrees, and solve the atoms. *)
Ltac nodup_atoms H :=
  repeat progress (rewrite ?NoDup_cons, ?NoDup_app, ?not_elem_of_app, ?not_elem_of_cons in H);
  destruct_and? H.
Ltac mem_hyps :=
  repeat match goal with
  | H : _ ∉ _ ++ _ |- _ => rewrite not_elem_of_app in H
  | H : _ ∉ _ :: _ |- _ => rewrite not_elem_of_cons in H
  | H : _ ∧ _ |- _ => destruct H
  end.
Ltac mem_atom :=
  match goal with
  | H : ?x ∈ ?l, H' : ∀ y, y ∈ ?l → _ |- ?x ∉ _ =>
      let D := fresh in pose proof (H' _ H) as D; simpl in D;
      rewrite ?not_elem_of_app, ?not_elem_of_cons in D; destruct_and? D; assumption
  | H : ?x ∈ ?l |- ?x ∉ ?l' =>
      let D := fresh in intros D;
      match goal with H' : ∀ y, y ∈ l' → _ |- _ =>
        specialize (H' _ D); rewrite ?not_elem_of_app, ?not_elem_of_cons in H';
        destruct_and? H'; contradiction end
  | |- _ ≠ _ => congruence
  | |- _ ≠ _ => intros ->; contradiction
  | |- _ ≠ _ => intros <-; contradiction
  end.
Ltac mem :=
  mem_hyps; simpl; repeat progress (rewrite ?not_elem_of_app, ?not_elem_of_cons); split_and?;
  first [assumption | mem_atom].

Lemma Rep_focus e s k c l a r :
  Rep e s k (T c l a r) →
  a ≠ 0 ∧ rb_heap s !! a = Some (mkNode (kpar k) (rootp l) (rootp r) c).
Proof. intros [(? & ? & _) _ _ _ _ _ _ _]. done. Qed.

Lemma wp_set_color e s k c c' l a r (Q : unit → rb_state → Prop) :
  Rep e s k (T c l a r) → (∀ s', Rep e s' k (T c' l a r) → Q tt s') →
  wp (store a (set_color c')) Q s.
Proof.
  intros [Ht Hk Hnd Hf Hfr Hd Hs Hio] HQ. simpl in Ht.
  destruct Ht as (Ha & Hn & Hl & Hr).
  assert (a ∈ e_foot e) by (apply Hf; simpl; set_solver).
  simpl in Hnd. pose proof Hnd as Hnd'. nodup_atoms Hnd'.
  eapply wp_store; [done|]. apply HQ. constructor; simpl; [| |done|done| | |done|done].
  - split_and!; [done|by rewrite lookup_insert_eq| |]; (apply rep_insert; [done|mem]).
  - apply repk_insert; [done|]. mem.
  - intros b ?. rewrite lookup_insert_ne by naive_solver. auto.
  - rewrite dom_insert_lookup_L by eauto. done.
Qed.

(** The pointer to the focus, in its parent or in the tree header, is replaced
    by [new]; nothing else of the context changes. *)
Lemma wp_replace_child s k p new nn (Q : unit → rb_state → Prop) :
  repk (rb_heap s) (rt_root (rb_tree s)) k p →
  p ≠ 0 → p ∉ kaddrs k → new ∉ kaddrs k → NoDup (kaddrs k) →
  (new = 0 ∨ rb_heap s !! new = Some nn) →
  (∀ h rt, repk h rt k new →
     (∀ b, b ∉ kaddrs k → b ≠ new ∨ new = 0 → h !! b = rb_heap s !! b) →
     (new ≠ 0 → h !! new = Some (set_parent (kpar k) nn)) →
     dom h = dom (rb_heap s) →
     Q tt (mkRb h (mkTree rt (rt_size (rb_tree s))))) →
  wp (_replace_child (kpar k) p new) Q s.
Proof.
  destruct s as [h0 [rt0 n0]]. intros Hk Hp Hpk Hnk Hnd Hnew HQ.
  unfold _replace_child; simpl in *.
  (* after the pointer store *)
  assert (∀ h rt, repk h rt k new → (∀ b, b ∉ kaddrs k → h !! b = h0 !! b) →
     dom h = dom h0 →
     wp (if new =? 0 then mret tt else store new (set_parent (kpar k))) Q
        (mkRb h (mkTree rt n0))) as Htail.
  { intros h rt Hk' Hh Hd. destruct (Z.eqb_spec new 0) as [->|Hn0].
    - apply wp_ret, HQ; [done| |done|done]. auto.
    - destruct Hnew as [|Hnew]; [done|].
      assert (h !! new = Some nn) by (by rewrite Hh).
      eapply wp_store; [done|]. apply HQ; simpl.
      + by apply repk_insert.
      + intros b ? [?|?]; [|done]. rewrite lookup_insert_ne by done. auto.
      + intros _. by rewrite lookup_insert_eq.
      + rewrite dom_insert_lookup_L by eauto. done. }
  apply wp_bind. destruct k as [|f k]; simpl in *.
  - apply wp_modify, Htail; auto.
  - assert (faddr f ≠ 0) as Hf0 by (destruct f; naive_solver).
    rewrite (proj2 (Z.eqb_neq _ _) Hf0). apply wp_bind.
    destruct f as [c a r|c l a]; simpl in *; destruct Hk as (_ & Hn & Hr & Hk);
      nodup_atoms Hnd; (eapply wp_load; [done|]); simpl.
    + rewrite Z.eqb_refl. eapply wp_store; [done|]. apply Htail; simpl.
      * split_and!; [done|by rewrite lookup_insert_eq| |].
        -- (apply rep_insert; [done|mem]).
        -- (apply repk_insert; [done|mem]).
      * intros b Hb. rewrite lookup_insert_ne; [done|mem].
      * rewrite dom_insert_lookup_L by eauto. done.
    + assert (rootp l ≠ p) as Hlp by (destruct (rootp_addrs l); [congruence|mem]).
      rewrite (proj2 (Z.eqb_neq _ _) Hlp). eapply wp_store; [done|]. apply Htail; simpl.
      * split_and!; [done|by rewrite lookup_insert_eq| |].
        -- (apply rep_insert; [done|mem]).
        -- (apply repk_insert; [done|mem]).
      * intros b Hb. rewrite lookup_insert_ne; [done|mem].
      * rewrite dom_insert_lookup_L by eauto. done.
Qed.

(** [if (t) t->parent = p'] on the root of a subtree. *)
Lemma wp_reparent s p p' t (Q : unit → rb_state → Prop) :
  rep (rb_heap s) p t → NoDup (addrs t) →
  (∀ h, rep h p' t → (∀ x, x ∉ addrs t → h !! x = rb_heap s !! x) →
     dom h = dom (rb_heap s) → Q tt (mkRb h (rb_tree s))) →
  wp (if rootp t =? 0 then mret tt else store (rootp t) (set_parent p')) Q s.
Proof.
  intros Ht Hnd HQ. destruct t as [|c l a r]; simpl.
  { apply wp_ret. destruct s. by apply HQ. }
  pose proof Ht as (Ha & Hn & _). apply Z.eqb_neq in Ha as ->.
  eapply wp_store; [done|]. simpl in Hnd. apply NoDup_cons in Hnd as [? ?]. apply HQ.
  - by eapply rep_reparent.
  - intros x; simpl. rewrite not_elem_of_cons. intros [? ?]. by rewrite lookup_insert_ne.
  - rewrite dom_insert_lookup_L by eauto. done.
Qed.

(** Solve a lookup in a heap of known updates. *)
Ltac look :=
  simpl; repeat first [ rewrite lookup_insert_eq | rewrite lookup_insert_ne by congruence ];
  first [done | eassumption].
Ltac step_load := wp_pures; eapply wp_load; [solve [look] | simpl].
Ltac step_store := wp_pures; eapply wp_store; [solve [look] | simpl].

(** The last stores of a rotation: [x] takes the place of the focus [a] and
    becomes its parent. *)
Lemma wp_rotate_hook s k a x na nx (Q : unit → rb_state → Prop) :
  repk (rb_heap s) (rt_root (rb_tree s)) k a →
  a ≠ 0 → x ≠ 0 → a ≠ x → a ∉ kaddrs k → x ∉ kaddrs k → NoDup (kaddrs k) →
  rb_heap s !! a = Some na → rb_parent na = kpar k → rb_heap s !! x = Some nx →
  (∀ h rt, repk h rt k x →
     (∀ b, b ∉ kaddrs k → b ≠ x → b ≠ a → h !! b = rb_heap s !! b) →
     h !! x = Some (set_parent (kpar k) nx) → h !! a = Some (set_parent x na) →
     dom h = dom (rb_heap s) → Q tt (mkRb h (mkTree rt (rt_size (rb_tree s))))) →
  wp (n ← load a; store x (set_parent (rb_parent n)) ;;
      n ← load a; _replace_child (rb_parent n) a x ;; store a (set_parent x)) Q s.
Proof.
  destruct s as [h [rt m]]; simpl.
  intros Hk Ha Hx Hax Hak Hxk Hnd Hna Hp Hnx HQ.
  step_load. step_store. step_load. wp_pures. rewrite Hp.
  eapply (wp_replace_child _ k a x (set_parent (kpar k) nx)); simpl;
    [by apply repk_insert|done..|right; look|].
  intros h3 rt3 Hk3 Hh3 Hx3 Hd3. specialize (Hx3 Hx).
  assert (h3 !! a = Some na) by (rewrite Hh3; [look|done|by left]).
  step_store. apply HQ; simpl.
  - by apply repk_insert.
  - intros b ???. rewrite lookup_insert_ne, Hh3, lookup_insert_ne by auto. done.
  - look.
  - look.
  - rewrite dom_insert_lookup_L, Hd3, dom_insert_lookup_L by eauto. done.
Qed.

Lemma wp_rotate_left e s k c l a c' rl b rr (Q : unit → rb_state → Prop) :
  Rep e s k (T c l a (T c' rl b rr)) →
  (∀ s', Rep e s' k (T c' (T c l a rl) b rr) → Q tt s') →
  wp (_rotate_left a) Q s.
Proof.
  intros [Ht Hk Hnd Hf Hfr Hd Hs Hio] HQ. destruct s as [h [rt n]].
  simpl in *. destruct Ht as (Ha & Hna & Hl & Hb & Hnb & Hrl & Hrr).
  assert (NoDup (a :: b :: addrs l ++ addrs rl ++ addrs rr ++ kaddrs k)) as Hnd'.
  { eapply NoDup_perm; [|exact Hnd]. solve_Permutation. }
  nodup_atoms Hnd'.
  unfold _rotate_left. step_load. step_load. step_store. step_store. wp_pures.
  eapply (wp_reparent _ b); [repeat (apply rep_insert; [|mem]); done|done|].
  intros h2 Hrl2 Hh2 Hd2. simpl in *. rewrite !dom_insert_lookup_L in Hd2; [|eauto|eexists; look].
  eapply (wp_rotate_hook _ k); simpl; [|done..| | | |].
  { eapply repk_frame; [done|]. intros x Hx. rewrite Hh2 by mem.
    rewrite !lookup_insert_ne by mem. done. }
  { rewrite Hh2 by mem. look. } { done. } { rewrite Hh2 by mem. look. }
  intros h3 rt3 Hk3 Hh3 Hb3 Ha3 Hd3.
  assert (∀ x, x ≠ a → x ≠ b → x ∉ addrs rl → x ∉ kaddrs k → h3 !! x = h !! x) as Hout.
  { intros x ????. rewrite Hh3, Hh2, !lookup_insert_ne by done. done. }
  apply HQ. constructor; simpl.
  - split_and!; [done|done|done|done| | |].
    + eapply rep_frame; [done|]. intros; apply Hout; mem.
    + eapply rep_frame; [done|]. intros; apply Hh3; mem.
    + eapply rep_frame; [done|]. intros; apply Hout; mem.
  - done.
  - eapply NoDup_perm; [|exact Hnd]. solve_Permutation.
  - intros x. rewrite <-Hf. clear. set_solver.
  - intros x Hx. rewrite <-Hfr by done. rewrite <-Hf in Hx. mem_hyps. apply Hout; mem.
  - congruence.
  - done.
  - rewrite <-Hio. clear. by list_simplifier.
Qed.

Lemma wp_rotate_right e s k c r a c' ll b lr (Q : unit → rb_state → Prop) :
  Rep e s k (T c (T c' ll b lr) a r) →
  (∀ s', Rep e s' k (T c' ll b (T c lr a r)) → Q tt s') →
  wp (_rotate_right a) Q s.
Proof.
  intros [Ht Hk Hnd Hf Hfr Hd Hs Hio] HQ. destruct s as [h [rt n]].
  simpl in *. destruct Ht as (Ha & Hna & (Hb & Hnb & Hll & Hlr) & Hr).
  assert (NoDup (a :: b :: addrs ll ++ addrs lr ++ addrs r ++ kaddrs k)) as Hnd'.
  { eapply NoDup_perm; [|exact Hnd]. solve_Permutation. }
  nodup_atoms Hnd'.
  unfold _rotate_right. step_load. step_load. step_store. step_store. wp_pures.
  eapply (wp_reparent _ b); [repeat (apply rep_insert; [|mem]); done|done|].
  intros h2 Hlr2 Hh2 Hd2. simpl in *. rewrite !dom_insert_lookup_L in Hd2; [|eauto|eexists; look].
  eapply (wp_rotate_hook _ k); simpl; [|done..| | | |].
  { eapply repk_frame; [done|]. intros x Hx. rewrite Hh2 by mem.
    rewrite !lookup_insert_ne by mem. done. }
  { rewrite Hh2 by mem. look. } { done. } { rewrite Hh2 by mem. look. }
  intros h3 rt3 Hk3 Hh3 Hb3 Ha3 Hd3.
  assert (∀ x, x ≠ a → x ≠ b → x ∉ addrs lr → x ∉ kaddrs k → h3 !! x = h !! x) as Hout.
  { intros x ????. rewrite Hh3, Hh2, !lookup_insert_ne by done. done. }
  apply HQ. constructor; simpl.
  - split_and!; [done|done| |done|done| |].
    + eapply rep_frame; [done|]. intros; apply Hout; mem.
    + eapply rep_frame; [done|]. intros; apply Hh3; mem.
    + eapply rep_frame; [done|]. intros; apply Hout; mem.
  - done.
  - eapply NoDup_perm; [|exact Hnd]. solve_Permutation.
  - intros x. rewrite <-Hf. clear. set_solver.
  - intros x Hx. rewrite <-Hfr by done. rewrite <-Hf in Hx. mem_hyps. apply Hout; mem.
  - congruence.
  - done.
  - rewrite <-Hio. clear. by list_simplifier.
Qed.
