(* ===== verification/RBTreeInsert.v ===== *)
(** Balance of the red-black trees, and the correctness of [_insert_fixup] and
    [rb_insert]. *)
From S2P Require Import Prelude RBTree RBTreeRep.

(** * The red-black invariant *)

(** Every path from the root of [t] to a leaf crosses [n] black nodes. *)
Fixpoint bh (t : tree) (n : nat) : Prop :=
  match t with
  | E => n = O
  | T RB_RED l _ r => bh l n ∧ bh r n
  | T RB_BLACK l _ r => match n with O => False | S m => bh l m ∧ bh r m end
  end.

(** No red node has a red child. *)
Fixpoint nrr (t : tree) : Prop :=
  match t with
  | E => True
  | T c l _ r => (c = RB_RED → tcolor l = RB_BLACK ∧ tcolor r = RB_BLACK) ∧ nrr l ∧ nrr r
  end.

Definition red_black (t : tree) : Prop := tcolor t = RB_BLACK ∧ nrr t ∧ ∃ n, bh t n.

(** The same for a context, its hole excepted. *)
Definition fcolor (f : frame) : rb_color_t := match f with FL c _ _ | FR c _ _ => c end.
Definition fsib (f : frame) : tree := match f with FL _ _ r => r | FR _ l _ => l end.
Definition kcolor (k : ctx) : rb_color_t := match k with [] => RB_BLACK | f :: _ => fcolor f end.
Fixpoint kbh (k : ctx) (n : nat) : Prop :=
  match k with
  | [] => True
  | f :: k => bh (fsib f) n ∧ kbh k (match fcolor f with RB_RED => n | RB_BLACK => S n end)
  end.
Fixpoint knrr (k : ctx) : Prop :=
  match k with
  | [] => True
  | f :: k => (fcolor f = RB_RED → tcolor (fsib f) = RB_BLACK ∧ kcolor k = RB_BLACK) ∧
              nrr (fsib f) ∧ knrr k
  end.
Fixpoint kroot (k : ctx) : Prop :=
  match k with
  | [] => True
  | f :: k => match k with [] => fcolor f = RB_BLACK | _ => kroot k end
  end.

Lemma bh_plug k t n : bh t n → kbh k n → ∃ m, bh (plug k t) m.
Proof.
  revert t n; induction k as [|f k IH]; intros t n Ht Hk; simpl; [eauto|].
  destruct Hk as [Hs Hk]. eapply IH; [|exact Hk].
  destruct f as [[] a r|[] l a]; simpl in *; done.
Qed.
Lemma nrr_plug k t :
  nrr t → knrr k → (kcolor k = RB_RED → tcolor t = RB_BLACK) → nrr (plug k t).
Proof.
  revert t; induction k as [|f k IH]; intros t Ht Hk Hc; simpl; [done|].
  simpl in Hk. destruct Hk as (Hf & Hs & Hk). apply IH; [|done|].
  - destruct f; simpl in *; naive_solver.
  - intros HkR. destruct f as [[] a r|[] l a]; simpl in *; try done;
      destruct (Hf eq_refl); congruence.
Qed.
Lemma nrr_unplug k t :
  nrr (plug k t) → nrr t ∧ knrr k ∧ (kcolor k = RB_RED → tcolor t = RB_BLACK).
Proof.
  revert t; induction k as [|f k IH]; intros t H; simpl in *; [done|].
  apply IH in H as (Ht & Hk & Hc).
  destruct f as [[] a r|[] l a]; simpl in *; destruct Ht as (Hr & ? & ?); split_and!;
    try done; try (intros _; split; [apply Hr; done|]; by destruct (kcolor k); [|specialize (Hc eq_refl)]).
  all: intros _; by apply Hr.
Qed.
Lemma bh_unplug k t m : bh (plug k t) m → ∃ n, bh t n ∧ kbh k n.
Proof.
  revert t; induction k as [|f k IH]; intros t H; simpl in *; [eauto|].
  apply IH in H as ([|n] & Ht & Hk); destruct f as [[] a r|[] l a]; simpl in *;
    try done; naive_solver.
Qed.
Lemma kroot_plug k t : tcolor (plug k t) = RB_BLACK → kroot k.
Proof.
  revert t; induction k as [|f k IH]; intros t H; simpl in *; [done|].
  destruct k; simpl in *; [by destruct f|]. eapply IH, H.
Qed.
Lemma tcolor_plug_cons f k t : kroot (f :: k) → tcolor (plug (f :: k) t) = RB_BLACK.
Proof.
  revert f t; induction k as [|g k IH]; intros f t Hk; simpl in *; [by destruct f|].
  by apply (IH g (plug1 f t)).
Qed.

(** * Reads at and around the focus *)

Lemma wp_is_red s h p t (Q : bool → rb_state → Prop) :
  rep h p t → rb_heap s = h → Q (bool_decide (tcolor t = RB_RED)) s →
  wp (_is_red (rootp t)) Q s.
Proof.
  intros Ht <- HQ. unfold _is_red. destruct t as [|c l a r]; simpl in *; [done|].
  destruct Ht as (Ha & Hn & _). apply Z.eqb_neq in Ha as ->.
  apply wp_bind. eapply wp_load; [done|]. done.
Qed.

(** The node of a frame, its hole holding the pointer [p]. *)
Definition fnode (f : frame) (par p : Z) : rb_node_t :=
  match f with
  | FL c _ r => mkNode par p (rootp r) c
  | FR c l _ => mkNode par (rootp l) p c
  end.
Lemma fnode_parent f par p : rb_parent (fnode f par p) = par.
Proof. by destruct f. Qed.

Lemma Rep_parent e s f k t :
  Rep e s (f :: k) t →
  faddr f ≠ 0 ∧
  rb_heap s !! faddr f = Some (fnode f (kpar k) (rootp t)) ∧
  rep (rb_heap s) (faddr f) (fsib f).
Proof. intros [_ Hk _ _ _ _ _ _]. destruct f; simpl in *; tauto. Qed.

Lemma wp_is_red_kpar e s k t (Q : bool → rb_state → Prop) :
  Rep e s k t → Q (bool_decide (kcolor k = RB_RED)) s → wp (_is_red (kpar k)) Q s.
Proof.
  intros HR HQ. unfold _is_red. destruct k as [|f k]; simpl; [done|].
  apply Rep_parent in HR as (Ha & Hn & _). apply Z.eqb_neq in Ha as ->.
  apply wp_bind. eapply wp_load; [done|]. by destruct f.
Qed.

(** The focus is not its sibling. *)
Lemma Rep_sib e s f k t : Rep e s (f :: k) t → rootp t ≠ 0 → rootp (fsib f) ≠ rootp t.
Proof.
  intros [_ _ Hnd _ _ _ _ _] H0 Heq.
  apply NoDup_app in Hnd as (_ & Hd & _). destruct t as [|c l a r]; [done|].
  apply (Hd a); [simpl; set_solver|].
  destruct (rootp_addrs (fsib f)) as [|Hin]; [simpl in *; congruence|].
  destruct f; simpl in *; rewrite Heq in Hin; set_solver.
Qed.

Lemma length_kaddrs k : (length k ≤ length (kaddrs k))%nat.
Proof. induction k as [|f k IH]; simpl; [lia|]. rewrite length_app. destruct f; simpl; lia. Qed.

(** Fuel: the nodes of the context, and [l] more outside the tree, are in
    memory. *)
Lemma Rep_length_out e s k t l :
  Rep e s k t → NoDup l → (∀ b, b ∈ l → b ∈ dom (rb_heap s) ∧ b ∉ e_foot e) →
  (length k + length l < S (size (rb_heap s)))%nat.
Proof.
  intros [_ Hk Hnd Hf _ _ _ _] Hl Hin. apply NoDup_app in Hnd as (_ & _ & Hnd).
  pose proof (length_kaddrs k).
  assert (NoDup (kaddrs k ++ l)) as Hnd'.
  { apply NoDup_app. split_and!; [done| |done]. intros b Hb Hbl.
    destruct (Hin _ Hbl) as [_ Hbf]. apply Hbf, Hf, elem_of_app. by right. }
  assert (size (list_to_set (C := gset Z) (kaddrs k ++ l)) ≤ size (dom (rb_heap s)))%nat as Hsz.
  { apply subseteq_size. intros b Hb. apply elem_of_list_to_set, elem_of_app in Hb as [Hb|Hb].
    - apply elem_of_dom. by eapply repk_dom.
    - by apply Hin. }
  rewrite size_list_to_set, length_app in Hsz by done. rewrite size_dom in Hsz. lia.
Qed.
Lemma Rep_length e s k t : Rep e s k t → (length k < S (size (rb_heap s)))%nat.
Proof.
  intros R. pose proof (Rep_length_out _ _ _ _ [] R (NoDup_nil_2 )) as H. simpl in H.
  rewrite Nat.add_0_r in H. apply H. by intros b ?%elem_of_nil.
Qed.

(** Fuel: the nodes of the focused subtree are in memory. *)
Lemma Rep_fuel e s k t : Rep e s k t → (length (addrs t) < S (size (rb_heap s)))%nat.
Proof.
  intros [Ht _ Hnd _ _ _ _ _]. apply NoDup_app in Hnd as (Hnd & _ & _).
  assert (size (list_to_set (C := gset Z) (addrs t)) ≤ size (dom (rb_heap s)))%nat as Hsz.
  { apply subseteq_size. intros b Hb. apply elem_of_list_to_set in Hb.
    apply elem_of_dom. by eapply rep_dom. }
  rewrite size_list_to_set in Hsz by done. rewrite size_dom in Hsz. lia.
Qed.

(** * [_insert_fixup] *)

(** The tree during the fixup: balanced, with a red node at the focus that may
    have a red parent. *)
Record ins_inv (k : ctx) (t : tree) : Prop := mkIns {
  ii_nrr : nrr t;
  ii_bh : ∃ n, bh t n ∧ kbh k n;
  ii_knrr : knrr k;
  ii_root : kroot k;
}.

(** What a round leaves when it goes round again: a shorter way to the root. *)
Definition ins_next (e : env) (n : nat) (x : Z) (s : rb_state) : Prop :=
  ∃ k l r, (length k < n)%nat ∧ Rep e s k (T RB_RED l x r) ∧ ins_inv k (T RB_RED l x r).

Lemma kroot_cons f g k : kroot (f :: g :: k) → kroot (g :: k).
Proof. done. Qed.

(** A red parent has a parent itself, which is black. *)
Lemma ins_inv_grand f k t :
  ins_inv (f :: k) t → fcolor f = RB_RED →
  ∃ g k', k = g :: k' ∧ fcolor g = RB_BLACK ∧ tcolor (fsib f) = RB_BLACK.
Proof.
  intros [_ _ Hn Hr] Hf. simpl in Hn. destruct Hn as (Hn & _ & _).
  destruct (Hn Hf) as [? Hk]. destruct k as [|g k']; [|by eauto].
  simpl in Hr. congruence.
Qed.

(** A frame with its node recoloured, and with its sibling tree replaced. *)
Definition fset (c : rb_color_t) (f : frame) : frame :=
  match f with FL _ a r => FL c a r | FR _ l a => FR c l a end.
Definition fsetsib (u : tree) (f : frame) : frame :=
  match f with FL c a _ => FL c a u | FR c _ a => FR c u a end.

(** Uncle red: recolour and move up two levels. *)
Lemma ins_inv_recolor f g k t cl a cr :
  ins_inv (f :: g :: k) t → fcolor f = RB_RED → fcolor g = RB_BLACK →
  fsib g = T RB_RED cl a cr →
  ins_inv k (plug1 (fset RB_RED (fsetsib (T RB_BLACK cl a cr) g)) (plug1 (fset RB_BLACK f) t)).
Proof.
  intros [Ht (n & Hb & Hkb) Hkn Hkr] Hf Hg Hsib.
  destruct Hkb as (Hfb & Hgb & Hkb). destruct Hkn as (Hfn & Hfs & Hgn & Hgs & Hkn).
  rewrite Hf in *. rewrite Hg in *. rewrite Hsib in *. simpl in Hgb, Hgs.
  destruct (Hfn eq_refl) as [Hfsc _]. constructor.
  - destruct g, f; simpl in *; naive_solver.
  - exists (S n). destruct g, f; simpl in *; subst; naive_solver.
  - done.
  - destruct k; [done|]. exact Hkr.
Qed.

Lemma wp_recolor e s f g k t cl u cr (Q : Z + unit → rb_state → Prop) :
  Rep e s (f :: g :: k) t → fsib g = T RB_RED cl u cr →
  (∀ s', Rep e s' k (plug1 (fset RB_RED (fsetsib (T RB_BLACK cl u cr) g)) (plug1 (fset RB_BLACK f) t)) →
     Q (inl (faddr g)) s') →
  wp (store (faddr f) (set_color RB_BLACK) ;;
      store u (set_color RB_BLACK) ;;
      store (faddr g) (set_color RB_RED) ;;
      mret (inl (faddr g))) Q s.
Proof.
  intros R Hu HQ. wp_pures. apply Rep_zip in R.
  assert (wp (store (faddr f) (set_color RB_BLACK))
    (λ _ s', Rep e s' (g :: k) (plug1 (fset RB_BLACK f) t)) s) as Hp.
  { destruct f; (eapply wp_set_color; [exact R|done]). }
  eapply wp_mono; [exact Hp|]. clear R Hp. intros [] s1 R1. wp_pures. apply Rep_zip in R1.
  destruct g as [c ga gr|c gl ga]; simpl in *; subst.
  - apply Rep_unzip_R in R1. eapply wp_set_color; [exact R1|]. intros s2 R2%Rep_zip_R.
    wp_pures. eapply wp_set_color; [exact R2|]. intros s3 R3. wp_pures. by apply HQ.
  - apply Rep_unzip_L in R1. eapply wp_set_color; [exact R1|]. intros s2 R2%Rep_zip_L.
    wp_pures. eapply wp_set_color; [exact R2|]. intros s3 R3. wp_pures. by apply HQ.
Qed.

Lemma kroot_black f k : fcolor f = RB_BLACK → (k ≠ [] → kroot k) → kroot (f :: k).
Proof. intros ? H. destruct k; [done|]. by apply H. Qed.

(** Uncle black, and the focus already on the outer side: the rotation at the
    grandparent leaves the red focus below a black node. *)
Lemma wp_insert_tail_L e s k c0 ga u p r yl y yr (Q : Z + unit → rb_state → Prop) :
  Rep e s (FL RB_RED p r :: FL c0 ga u :: k) (T RB_RED yl y yr) →
  (∀ s', Rep e s' (FL RB_BLACK p (T RB_RED r ga u) :: k) (T RB_RED yl y yr) → Q (inl y) s') →
  wp (n ← load y;
      store (rb_parent n) (set_color RB_BLACK) ;;
      np ← load (rb_parent n);
      store (rb_parent np) (set_color RB_RED) ;;
      _rotate_right (rb_parent np) ;;
      mret (inl y)) Q s.
Proof.
  intros R HQ. pose proof (Rep_focus _ _ _ _ _ _ _ R) as [_ Hy].
  wp_pures. eapply wp_load; [done|]; simpl. wp_pures.
  apply Rep_zip_L in R. eapply wp_set_color; [exact R|]. intros s1 R1. wp_pures.
  pose proof (Rep_focus _ _ _ _ _ _ _ R1) as [_ Hp].
  eapply wp_load; [done|]; simpl. wp_pures.
  apply Rep_zip_L in R1. eapply wp_set_color; [exact R1|]. intros s2 R2. wp_pures.
  eapply wp_rotate_right; [exact R2|]. intros s3 R3. wp_pures.
  apply HQ. by apply Rep_unzip_L.
Qed.

Lemma wp_insert_tail_R e s k c0 ga u p l yl y yr (Q : Z + unit → rb_state → Prop) :
  Rep e s (FR RB_RED l p :: FR c0 u ga :: k) (T RB_RED yl y yr) →
  (∀ s', Rep e s' (FR RB_BLACK (T RB_RED u ga l) p :: k) (T RB_RED yl y yr) → Q (inl y) s') →
  wp (n ← load y;
      store (rb_parent n) (set_color RB_BLACK) ;;
      np ← load (rb_parent n);
      store (rb_parent np) (set_color RB_RED) ;;
      _rotate_left (rb_parent np) ;;
      mret (inl y)) Q s.
Proof.
  intros R HQ. pose proof (Rep_focus _ _ _ _ _ _ _ R) as [_ Hy].
  wp_pures. eapply wp_load; [done|]; simpl. wp_pures.
  apply Rep_zip_R in R. eapply wp_set_color; [exact R|]. intros s1 R1. wp_pures.
  pose proof (Rep_focus _ _ _ _ _ _ _ R1) as [_ Hp].
  eapply wp_load; [done|]; simpl. wp_pures.
  apply Rep_zip_R in R1. eapply wp_set_color; [exact R1|]. intros s2 R2. wp_pures.
  eapply wp_rotate_left; [exact R2|]. intros s3 R3. wp_pures.
  apply HQ. by apply Rep_unzip_R.
Qed.

(** Balance after those rotations. *)
Lemma ins_inv_rotate_L k n y sib u p ga :
  nrr y → tcolor y = RB_RED → nrr sib → nrr u → tcolor sib = RB_BLACK → tcolor u = RB_BLACK →
  bh y n → bh sib n → bh u n → kbh k (S n) → knrr k → (k ≠ [] → kroot k) →
  ins_inv (FL RB_BLACK p (T RB_RED sib ga u) :: k) y.
Proof.
  intros. constructor; [done| | |by apply kroot_black]; simpl; [exists n|]; naive_solver.
Qed.
Lemma ins_inv_rotate_R k n y sib u p ga :
  nrr y → tcolor y = RB_RED → nrr sib → nrr u → tcolor sib = RB_BLACK → tcolor u = RB_BLACK →
  bh y n → bh sib n → bh u n → kbh k (S n) → knrr k → (k ≠ [] → kroot k) →
  ins_inv (FR RB_BLACK (T RB_RED u ga sib) p :: k) y.
Proof.
  intros. constructor; [done| | |by apply kroot_black]; simpl; [exists n|]; naive_solver.
Qed.

Lemma kroot_tl f k : kroot (f :: k) → k ≠ [] → kroot k.
Proof. by destruct k. Qed.

(** The facts of the colours around a red focus with a red parent [f] and a
    black uncle [u]. *)
Record blk_uncle (f : frame) (u : tree) (k : ctx) (t : tree) : Prop := mkBlk {
  bu_f : fcolor f = RB_RED;
  bu_sib : nrr (fsib f) ∧ tcolor (fsib f) = RB_BLACK;
  bu_u : nrr u ∧ tcolor u = RB_BLACK;
  bu_t : nrr t;
  bu_bh : ∃ n, bh t n ∧ bh (fsib f) n ∧ bh u n ∧ kbh k (S n);
  bu_k : knrr k ∧ (k ≠ [] → kroot k);
}.

(** Uncle black: at most one rotation at the parent, then one at the
    grandparent. *)
Lemma wp_insert_black_L e s f c0 ga u k l x r par (Q : Z + unit → rb_state → Prop) :
  Rep e s (f :: FL c0 ga u :: k) (T RB_RED l x r) → blk_uncle f u k (T RB_RED l x r) →
  (∀ s' y, ins_next e (length (f :: FL c0 ga u :: k)) y s' → Q (inl y) s') →
  wp (node ← (if x =? rb_right (fnode f par x)
              then _rotate_left (faddr f) ;; mret (faddr f) else mret x);
      n ← load node;
      store (rb_parent n) (set_color RB_BLACK) ;;
      np ← load (rb_parent n);
      store (rb_parent np) (set_color RB_RED) ;;
      _rotate_right (rb_parent np) ;;
      mret (inl node)) Q s.
Proof.
  intros R [Hf [Hsn Hsc] [Hun Huc] Ht (n & Hb & Hsb & Hub & Hkb) [Hkn Hkr]] HQ.
  pose proof (Rep_focus _ _ _ _ _ _ _ R) as [Hx0 _].
  pose proof (Rep_sib _ _ _ _ _ R Hx0) as Hne. simpl in Hne.
  destruct f as [cf p sb|cf sb p]; simpl in *; subst cf; wp_pures.
  - apply Z.eqb_neq in Hne. rewrite Z.eqb_sym, Hne. apply wp_ret.
    eapply wp_insert_tail_L; [exact R|]. intros s' R'. apply HQ. do 3 eexists.
    split_and!; [|exact R'|by apply (ins_inv_rotate_L _ n)]; simpl; lia.
  - rewrite Z.eqb_refl. apply Rep_zip_R in R. wp_pures.
    eapply wp_rotate_left; [exact R|]. intros s1 R1%Rep_unzip_L. apply wp_ret.
    destruct Ht as (Hc & Hln & Hrn), Hb as [Hlb Hrb]. destruct (Hc eq_refl).
    eapply wp_insert_tail_L; [exact R1|]. intros s' R'. apply HQ. do 3 eexists.
    split_and!; [|exact R'|by apply (ins_inv_rotate_L _ n)]; simpl; lia.
Qed.
Lemma wp_insert_black_R e s f c0 ga u k l x r par (Q : Z + unit → rb_state → Prop) :
  Rep e s (f :: FR c0 u ga :: k) (T RB_RED l x r) → blk_uncle f u k (T RB_RED l x r) →
  (∀ s' y, ins_next e (length (f :: FR c0 u ga :: k)) y s' → Q (inl y) s') →
  wp (node ← (if x =? rb_left (fnode f par x)
              then _rotate_right (faddr f) ;; mret (faddr f) else mret x);
      n ← load node;
      store (rb_parent n) (set_color RB_BLACK) ;;
      np ← load (rb_parent n);
      store (rb_parent np) (set_color RB_RED) ;;
      _rotate_left (rb_parent np) ;;
      mret (inl node)) Q s.
Proof.
  intros R [Hf [Hsn Hsc] [Hun Huc] Ht (n & Hb & Hsb & Hub & Hkb) [Hkn Hkr]] HQ.
  pose proof (Rep_focus _ _ _ _ _ _ _ R) as [Hx0 _].
  pose proof (Rep_sib _ _ _ _ _ R Hx0) as Hne. simpl in Hne.
  destruct f as [cf p sb|cf sb p]; simpl in *; subst cf; wp_pures.
  - rewrite Z.eqb_refl. apply Rep_zip_L in R. wp_pures.
    eapply wp_rotate_right; [exact R|]. intros s1 R1%Rep_unzip_R. apply wp_ret.
    destruct Ht as (Hc & Hln & Hrn), Hb as [Hlb Hrb]. destruct (Hc eq_refl).
    eapply wp_insert_tail_R; [exact R1|]. intros s' R'. apply HQ. do 3 eexists.
    split_and!; [|exact R'|by apply (ins_inv_rotate_R _ n)]; simpl; lia.
  - apply Z.eqb_neq in Hne. rewrite Z.eqb_sym, Hne. apply wp_ret.
    eapply wp_insert_tail_R; [exact R|]. intros s' R'. apply HQ. do 3 eexists.
    split_and!; [|exact R'|by apply (ins_inv_rotate_R _ n)]; simpl; lia.
Qed.

(** One round: it leaves the loop with a black parent, or goes round again
    closer to the root. *)
Lemma wp_insert_fixup_round e s k l x r (Q : Z + unit → rb_state → Prop) :
  Rep e s k (T RB_RED l x r) → ins_inv k (T RB_RED l x r) →
  (kcolor k = RB_BLACK → Q (inr tt) s) →
  (∀ s' y, ins_next e (length k) y s' → Q (inl y) s') →
  wp (insert_fixup_round x) Q s.
Proof.
  intros R I Hexit Hnext. unfold insert_fixup_round.
  pose proof (Rep_focus _ _ _ _ _ _ _ R) as [Hx0 Hx].
  wp_pures. eapply wp_load; [exact Hx|]. wp_pures. simpl rb_parent.
  eapply wp_is_red_kpar; [exact R|]. case_bool_decide as Hkc; simpl negb; cbv iota;
    [|by apply wp_ret, Hexit; destruct (kcolor k)].
  destruct k as [|f k]; [done|]. destruct (ins_inv_grand _ _ _ I Hkc) as (g & k' & -> & Hg & Hsc).
  pose proof (Rep_parent _ _ _ _ _ R) as (Hf0 & Hfn & _).
  pose proof (Rep_zip _ _ _ _ _ R) as RP.
  pose proof (Rep_parent _ _ _ _ _ RP) as (Hg0 & Hgn & Hgs).
  assert (rootp (plug1 f (T RB_RED l x r)) = faddr f) as Hpr by (by destruct f).
  pose proof (Rep_sib _ _ _ _ _ RP) as Hsib. rewrite Hpr in *.
  pose proof (Rep_sib _ _ _ _ _ R Hx0) as Hsx. simpl in Hsx.
  wp_pures. eapply wp_load; [exact Hfn|]. wp_pures.
  rewrite fnode_parent. simpl kpar. eapply wp_load; [exact Hgn|]. cbv beta.
  assert (∀ cl u cr s', fsib g = T RB_RED cl u cr →
    Rep e s' k' (plug1 (fset RB_RED (fsetsib (T RB_BLACK cl u cr) g))
                   (plug1 (fset RB_BLACK f) (T RB_RED l x r))) → Q (inl (faddr g)) s') as Hrec.
  { intros cl u cr s' Hu R'. apply Hnext.
    pose proof (ins_inv_recolor _ _ _ _ _ _ _ I Hkc Hg Hu) as I'.
    destruct g; simpl in *; do 3 eexists; (split_and!; [|exact R'|exact I']); simpl; lia. }
  assert (tcolor (fsib g) = RB_BLACK → blk_uncle f (fsib g) k' (T RB_RED l x r)) as Hblk.
  { intros Hu. destruct I as [Ht (n & Hb & Hfb & Hgb & Hkb) (_ & Hfsn & _ & Hgsn & Hkn) Hkr].
    simpl in Hkc. rewrite Hkc in *. rewrite Hg in *.
    apply kroot_cons in Hkr. constructor; [by eauto..|]. split; [done|by eapply kroot_tl]. }
  destruct g as [cg ga u|cg u ga]; simpl in Hg, Hgs, Hsib, Hrec, Hblk |- *; subst cg.
  - rewrite Z.eqb_refl. wp_pures. eapply wp_is_red; [exact Hgs|done|]. case_bool_decide as Hu.
    + destruct u as [|cu cl ua cr]; [done|]. simpl in Hu; subst cu.
      refine (wp_recolor _ _ _ _ _ _ _ _ _ _ R eq_refl _). intros; by eapply Hrec.
    + eapply wp_insert_black_L; [exact R|apply Hblk; by destruct (tcolor u)|done].
  - apply Z.eqb_neq in Hsib; [|done]. rewrite Z.eqb_sym, Hsib.
    wp_pures. eapply wp_is_red; [exact Hgs|done|]. case_bool_decide as Hu.
    + destruct u as [|cu cl ua cr]; [done|]. simpl in Hu; subst cu.
      refine (wp_recolor _ _ _ _ _ _ _ _ _ _ R eq_refl _). intros; by eapply Hrec.
    + eapply wp_insert_black_R; [exact R|apply Hblk; by destruct (tcolor u)|done].
Qed.

(** A tree without red-red edges becomes a red-black tree when its root is
    made black. *)
Lemma red_black_blacken c l a r n :
  nrr (T c l a r) → bh (T c l a r) n → red_black (T RB_BLACK l a r).
Proof.
  intros (_ & Hl & Hr) Hb. split_and!; [done|by split_and!|].
  destruct c, n; simpl in Hb; try done; [by exists (S n)|by exists 1%nat|by exists (S (S n))].
Qed.

Lemma Rep_root e s k t : Rep e s k t → rt_root (rb_tree s) = rootp (plug k t).
Proof.
  intros R. assert (Rep e s [] (plug k t)) as [_ Hk _ _ _ _ _ _].
  { apply Rep_plug. by rewrite app_nil_r. }
  exact Hk.
Qed.

Lemma Rep_whole e s k t : Rep e s k t → Rep e s [] (plug k t).
Proof. intros R. apply Rep_plug. by rewrite app_nil_r. Qed.

(** [_insert_fixup] restores the red-black properties and moves no node of the
    in-order sequence. *)
Lemma wp_insert_fixup e s k l x r (Q : unit → rb_state → Prop) :
  Rep e s k (T RB_RED l x r) → ins_inv k (T RB_RED l x r) →
  (∀ s' t, Rep e s' [] t → red_black t → Q tt s') →
  wp (_insert_fixup x) Q s.
Proof.
  intros R I HQ. unfold _insert_fixup, rb_fuel, get_root. wp_pures.
  eapply (wp_loop (λ n y s, ∃ k l r, length k = n ∧ Rep e s k (T RB_RED l y r) ∧
                              ins_inv k (T RB_RED l y r))); [by eapply Rep_length|by eauto 10|].
  clear dependent k l x r s. intros n x s (k & l & r & <- & R & I).
  eapply wp_insert_fixup_round; [done|done| |].
  - intros Hk. wp_pures. rewrite (Rep_root _ _ _ _ R).
    destruct I as [Hn (n & Hb & Hkb) Hkn _]. destruct (bh_plug _ _ _ Hb Hkb) as [m Hm].
    assert (nrr (plug k (T RB_RED l x r))) as Hn' by (apply nrr_plug; [done|done|congruence]).
    apply Rep_whole in R. destruct (plug k (T RB_RED l x r)) as [|c l' a r'] eqn:Hp.
    { apply (f_equal addrs) in Hp. pose proof (addrs_plug k (T RB_RED l x r)) as Hpp.
      rewrite Hp in Hpp. by apply Permutation_nil_cons in Hpp. }
    eapply wp_set_color; [exact R|]. intros s' R'. eapply HQ; [exact R'|].
    by eapply red_black_blacken.
  - intros s' y (k' & l' & r' & ? & ? & ?). eauto 10.
Qed.
