(* ===== verification/RBTreeSpec.v ===== *)
(** The abstract view of a red-black tree, an ordered list of nodes, and the
    specifications of the searches, of the traversals and of [rb_insert]
    against it. *)
From Stdlib Require Import Sorting.Sorted.
From stdpp Require Import sorting.
From S2P Require Import Prelude RBTree RBTreeRep RBTreeInsert.

(** What the tree code needs of the comparator of a tree: its sign is a total
    preorder of the nodes. *)
Class RbCompare (compare : Z → Z → Z) : Prop := {
  cmp_flip a b : compare a b < 0 ↔ compare b a > 0;
  cmp_trans a b c : compare a b ≤ 0 → compare b c ≤ 0 → compare a c ≤ 0;
}.

(** A comparator that compares integer keys, as those of the kernel do. *)
#[global] Instance RbCompare_key (key : Z → Z) : RbCompare (λ a b, Z.sgn (key a - key b)).
Proof. split; intros; simpl in *; lia. Qed.

(** State [s] holds a red-black tree whose nodes are, in order, [l]. *)
Record is_rbtree (compare : Z → Z → Z) (s : rb_state) (l : list Z) : Prop := mkIs {
  is_tree : ∃ t, rep (rb_heap s) 0 t ∧ rt_root (rb_tree s) = rootp t ∧ red_black t ∧ inorder t = l;
  is_sorted : StronglySorted (λ a b, compare a b < 0) l;
  is_size : rt_size (rb_tree s) = u64 (Z.of_nat (length l));
}.

(** Nothing outside the nodes [l] changes, and no node comes or goes. *)
Definition rb_frame (l : list Z) (s s' : rb_state) : Prop :=
  (∀ b, b ∉ l → rb_heap s' !! b = rb_heap s !! b) ∧ dom (rb_heap s') = dom (rb_heap s).

Section compare.
Context (compare : Z → Z → Z) `{!RbCompare compare}.
Local Abbreviation lt := (λ a b, compare a b < 0).

Lemma cmp_refl a : compare a a = 0.
Proof. pose proof (cmp_flip a a). lia. Qed.
Lemma cmp_lt_trans a b c : compare a b < 0 → compare b c < 0 → compare a c < 0.
Proof.
  intros H1 H2. pose proof (cmp_flip a b). pose proof (cmp_flip a c).
  pose proof (cmp_flip c a).
  pose proof (cmp_trans b c a). pose proof (cmp_trans a b c). lia.
Qed.
Lemma cmp_le_lt_trans a b c : compare a b ≤ 0 → compare b c < 0 → compare a c < 0.
Proof.
  intros H1 H2. pose proof (cmp_flip b c). pose proof (cmp_flip c a).
  pose proof (cmp_flip a c). pose proof (cmp_trans c a b). pose proof (cmp_trans a b c). lia.
Qed.
Lemma cmp_gt_trans a b c : 0 ≤ compare a b → compare c b < 0 → compare a c > 0.
Proof.
  intros H1 H2. pose proof (cmp_flip b a). pose proof (cmp_flip c a).
  pose proof (cmp_flip a b). pose proof (cmp_lt_trans c b a).
  pose proof (cmp_trans c b a). pose proof (cmp_trans a c b).
  pose proof (cmp_flip c b). pose proof (cmp_flip a c). pose proof (cmp_trans b a c). lia.
Qed.

Lemma sorted_nodup l : StronglySorted lt l → NoDup l.
Proof.
  induction 1 as [|a l _ IH Ha]; [constructor|]. constructor; [|done].
  rewrite Forall_forall in Ha. intros Hin%Ha. rewrite cmp_refl in Hin. lia.
Qed.

Definition env_of (s : rb_state) (l : list Z) : env :=
  mkEnv (rb_heap s) (list_to_set l) (rt_size (rb_tree s)) l.

Lemma is_rbtree_Rep s l :
  is_rbtree compare s l → ∃ t, red_black t ∧ Rep (env_of s l) s [] t.
Proof.
  intros [(t & Ht & Hr & Hrb & Hio) Hs _]. exists t. split; [done|].
  constructor; simpl; rewrite ?app_nil_r; try done.
  - eapply NoDup_perm; [apply inorder_addrs|]. rewrite Hio. by apply sorted_nodup.
  - intros b. rewrite elem_of_list_to_set, <-Hio. by rewrite inorder_addrs.
Qed.

Lemma Rep_is_rbtree e s t :
  Rep e s [] t → red_black t → StronglySorted lt (e_io e) →
  e_size e = u64 (Z.of_nat (length (e_io e))) → is_rbtree compare s (e_io e).
Proof.
  intros [Ht Hr _ _ _ _ Hsz Hio] Hrb Hs Hl. simpl in Hio. rewrite app_nil_r in Hio.
  constructor; [by eauto 10|done|congruence].
Qed.

(** ** Descents *)

(** The descent for [key] has reached the subtree [t]: what it left behind on
    the left compares at most below [key] ([m] is 1, or 0 when equal nodes
    are passed), what it left on the right is above. *)
Record desc (m : Z) (key : Z) (l : list Z) (s : rb_state) (k : ctx) (t : tree) : Prop := mkDesc {
  desc_rep : Rep (env_of s l) s k t;
  desc_l : ∀ b, b ∈ klefts k → m ≤ compare key b;
  desc_r : ∀ b, b ∈ krights k → compare key b < 0;
  desc_rb : red_black (plug k t);
}.

Lemma desc_init m key s l : is_rbtree compare s l → ∃ t, desc m key l s [] t.
Proof.
  intros (t & ? & ?)%is_rbtree_Rep. exists t.
  by constructor; [done|intros ? ?%elem_of_nil..|].
Qed.

Lemma desc_fuel m key l s k t : desc m key l s k t → (length (addrs t) < S (size (rb_heap s)))%nat.
Proof. intros [R _ _ _]. by eapply Rep_fuel. Qed.

(** At the end of a descent the list is split at [key]. *)
Lemma desc_end m key l s k : desc m key l s k E → klefts k ++ krights k = l.
Proof. intros [R _ _ _]. by pose proof (Rep_io _ _ _ _ R). Qed.

Lemma desc_focus m key l s k c tl a r :
  desc m key l s k (T c tl a r) →
  (a =? 0) = false ∧ rb_heap s !! a = Some (mkNode (kpar k) (rootp tl) (rootp r) c) ∧ a ∈ l.
Proof.
  intros [R _ _ _]. pose proof (Rep_focus _ _ _ _ _ _ _ R) as [? ?].
  split_and!; [by apply Z.eqb_neq|done|].
  pose proof (Rep_io _ _ _ _ R) as Hio; simpl in Hio. rewrite <-Hio. set_solver.
Qed.

Lemma desc_root m key l s t : desc m key l s [] t → rt_root (rb_tree s) = rootp t.
Proof. intros [R _ _ _]. by apply Rep_root in R. Qed.
Context (m key : Z) (Hm : m ≤ 1).
Context (l : list Z) (Hsorted : StronglySorted lt l).

Lemma desc_left s k c tl a r :
  desc m key l s k (T c tl a r) → compare key a < 0 → desc m key l s (FL c a r :: k) tl.
Proof.
  intros [R Hl Hr Hrb] Ha. constructor; [by apply Rep_unzip_L|done| |done]. simpl.
  pose proof (Rep_io _ _ _ _ R) as Hio. simpl in Hio. rewrite <-Hio in Hsorted.
  intros b. rewrite elem_of_cons, elem_of_app. intros [->|[Hb|Hb]]; [done| |by auto].
  eapply cmp_lt_trans; [exact Ha|].
  rewrite !StronglySorted_app, StronglySorted_cons in Hsorted.
  destruct_and? Hsorted. decompose_Forall. rewrite Forall_forall in *. naive_solver.
Qed.
Lemma desc_right s k c tl a r :
  desc m key l s k (T c tl a r) → m ≤ compare key a → 0 ≤ compare key a →
  desc m key l s (FR c tl a :: k) r.
Proof.
  intros [R Hl Hr Hrb] Ha Ha0. constructor; [by apply Rep_unzip_R| |done|done]. simpl.
  pose proof (Rep_io _ _ _ _ R) as Hio. simpl in Hio. rewrite <-Hio in Hsorted.
  intros b. rewrite !elem_of_app, list_elem_of_singleton. intros [Hb|[Hb| ->]]; [by auto| |done].
  cut (compare key b > 0); [lia|]. eapply cmp_gt_trans; [exact Ha0|].
  rewrite !StronglySorted_app in Hsorted. destruct_and? Hsorted.
  set_solver.
Qed.
End compare.

(** The first node of [l] that satisfies [P], or [NULL]. *)
Definition first_of (P : Z → Prop) `{!∀ x, Decision (P x)} (l : list Z) : Z :=
  default 0 (head (filter P l)).

Section first_of.
Context (P : Z → Prop) `{!∀ x, Decision (P x)}.

Lemma first_of_skip l1 l2 : (∀ b, b ∈ l1 → ¬ P b) → first_of P (l1 ++ l2) = first_of P l2.
Proof.
  intros Hn. unfold first_of. induction l1 as [|a l1 IH]; simpl; [done|].
  rewrite filter_cons_False by set_solver. apply IH. set_solver.
Qed.
Lemma first_of_none l : (∀ b, b ∈ l → ¬ P b) → first_of P l = 0.
Proof. intros. rewrite <-(app_nil_r l). by rewrite first_of_skip. Qed.
Lemma first_of_cons a l : P a → first_of P (a :: l) = a.
Proof. intros. unfold first_of. by rewrite filter_cons_True. Qed.
Lemma first_of_split l1 l2 :
  (∀ b, b ∈ l1 → ¬ P b) → (∀ b, b ∈ l2 → P b) → first_of P (l1 ++ l2) = default 0 (head l2).
Proof.
  intros ? H2. rewrite first_of_skip by done. destruct l2; [done|].
  apply first_of_cons. set_solver.
Qed.
End first_of.

Section searches.
Context (compare : Z → Z → Z) `{!RbCompare compare} (key : Z).
Context (s : rb_state) (l : list Z) (Hs : is_rbtree compare s l).

Lemma desc_eq k c tl a r :
  desc compare 1 key l s k (T c tl a r) → compare key a = 0 →
  ∃ l1 l2, l = l1 ++ a :: l2 ∧
    (∀ b, b ∈ l1 → compare key b > 0) ∧ (∀ b, b ∈ l2 → compare key b < 0).
Proof.
  intros [R Hl Hr _] Ha. pose proof (is_sorted _ _ _ Hs) as Hsort.
  pose proof (Rep_io _ _ _ _ R) as Hio. simpl in Hio.
  assert (l = (klefts k ++ inorder tl) ++ a :: inorder r ++ krights k) as Hl'.
  { rewrite <-Hio. by list_simplifier. }
  do 2 eexists. split; [exact Hl'|].
  rewrite Hl', StronglySorted_app, StronglySorted_cons, Forall_forall in Hsort.
  destruct Hsort as (H1 & _ & H2 & _). split; intros b Hb.
  - apply (cmp_gt_trans _ _ a); [lia|]. apply H1; [done|]. set_solver.
  - apply (cmp_le_lt_trans _ _ a); [lia|]. by apply H2.
Qed.

(** A loop that descends the tree for [key]. *)
Lemma wp_descend {X A} m (view : ctx → tree → X) (body : X → M rb_state (X + A))
    (Q : A → rb_state → Prop) t0 :
  m ≤ 1 → desc compare m key l s [] t0 →
  (∀ k, desc compare m key l s k E → wp (body (view k E)) (λ r s', ∃ a, r = inr a ∧ Q a s') s) →
  (∀ k c tl a tr, desc compare m key l s k (T c tl a tr) →
     a ≠ 0 → rb_heap s !! a = Some (mkNode (kpar k) (rootp tl) (rootp tr) c) →
     wp (body (view k (T c tl a tr))) (λ r s',
       (s' = s ∧ compare key a < 0 ∧ r = inl (view (FL c a tr :: k) tl)) ∨
       (s' = s ∧ 0 ≤ compare key a ∧ m ≤ compare key a ∧ r = inl (view (FR c tl a :: k) tr)) ∨
       ∃ a, r = inr a ∧ Q a s') s) →
  wp (loop (S (size (rb_heap s))) body (view [] t0)) Q s.
Proof.
  intros Hm D Hleaf Hnode. pose proof (is_sorted _ _ _ Hs) as Hsort.
  eapply (wp_loop (λ n x s', s' = s ∧ ∃ k t, n = length (addrs t) ∧
            desc compare m key l s k t ∧ x = view k t));
    [by eapply desc_fuel|by eauto 10|].
  clear t0 D. intros n x s' (-> & k & t & -> & D & ->).
  destruct t as [|c tl a tr].
  { eapply wp_mono; [by apply Hleaf|]. by intros r s' (? & -> & ?). }
  destruct (desc_focus _ _ _ _ _ _ _ _ _ _ D) as (Hz%Z.eqb_neq & Hn & _).
  eapply wp_mono; [by apply Hnode|].
  intros r s' [(-> & ? & ->)|[(-> & ? & ? & ->)|(? & -> & ?)]]; [| |done].
  - eexists. split; [|split; [done|do 2 eexists; split_and!; [done|by eapply desc_left|done]]].
    simpl. rewrite length_app. lia.
  - eexists. split; [|split; [done|do 2 eexists; split_and!; [done|by eapply desc_right|done]]].
    simpl. rewrite length_app. lia.
Qed.

Lemma wp_rb_lower_bound (Q : Z → rb_state → Prop) :
  Q (first_of (λ b, compare key b ≤ 0) l) s → wp (rb_lower_bound compare key) Q s.
Proof.
  intros HQ. destruct (desc_init compare 1 key s l Hs) as (t & D).
  unfold rb_lower_bound, rb_fuel, get_root. wp_pures. rewrite (desc_root _ _ _ _ _ _ D).
  apply (wp_descend 1 (λ k t, (rootp t, default 0 (head (krights k))))); [lia|done| |].
  - intros k Dk. simpl. apply wp_ret. eexists; split; [done|].
    rewrite <-(desc_end _ _ _ _ _ _ Dk), first_of_split in HQ; [done| |];
      intros b Hb; apply Dk in Hb; lia.
  - intros k c tl a tr Dk Ha Hn. apply Z.eqb_neq in Ha. simpl. rewrite Ha. wp_pures.
    eapply wp_load; [exact Hn|]. simpl.
    destruct (Z.ltb_spec (compare key a) 0) as [Hlt|Hge]; [apply wp_ret; by eauto|].
    destruct (compare key a >? 0) eqn:Hgt; apply wp_ret; right; [left; split_and!; [done|lia|lia|done]|].
    right. eexists; split; [done|].
    destruct (desc_eq _ _ _ _ _ Dk) as (l1 & l2 & Hl & H1 & _); [lia|].
    rewrite Hl, first_of_skip, first_of_cons in HQ; [done|lia|]. intros b Hb%H1. lia.
Qed.

Lemma wp_rb_upper_bound (Q : Z → rb_state → Prop) :
  Q (first_of (λ b, compare key b < 0) l) s → wp (rb_upper_bound compare key) Q s.
Proof.
  intros HQ. destruct (desc_init compare 0 key s l Hs) as (t & D).
  unfold rb_upper_bound, rb_fuel, get_root. wp_pures. rewrite (desc_root _ _ _ _ _ _ D).
  apply (wp_descend 0 (λ k t, (rootp t, default 0 (head (krights k))))); [lia|done| |].
  - intros k Dk. simpl. apply wp_ret. eexists; split; [done|].
    rewrite <-(desc_end _ _ _ _ _ _ Dk), first_of_split in HQ; [done| |];
      intros b Hb; apply Dk in Hb; lia.
  - intros k c tl a tr Dk Ha Hn. apply Z.eqb_neq in Ha. simpl. rewrite Ha. wp_pures.
    eapply wp_load; [exact Hn|]. simpl.
    destruct (Z.ltb_spec (compare key a) 0); apply wp_ret; by eauto 10.
Qed.

Lemma wp_rb_find (Q : Z → rb_state → Prop) :
  Q (first_of (λ b, compare key b = 0) l) s → wp (rb_find compare key) Q s.
Proof.
  intros HQ. destruct (desc_init compare 1 key s l Hs) as (t & D).
  unfold rb_find, rb_fuel, get_root. wp_pures. rewrite (desc_root _ _ _ _ _ _ D).
  apply (wp_descend 1 (λ k t, rootp t)); [lia|done| |].
  - intros k Dk. simpl. apply wp_ret. eexists; split; [done|].
    rewrite <-(desc_end _ _ _ _ _ _ Dk), first_of_none in HQ; [done|].
    intros b [Hb|Hb]%elem_of_app; apply Dk in Hb; lia.
  - intros k c tl a tr Dk Ha Hn. apply Z.eqb_neq in Ha. unfold find_round. simpl. rewrite Ha.
    wp_pures. eapply wp_load; [exact Hn|]. simpl.
    destruct (Z.ltb_spec (compare key a) 0) as [Hlt|Hge]; [apply wp_ret; by eauto|].
    destruct (compare key a >? 0) eqn:Hgt; apply wp_ret; right; [left; split_and!; [done|lia|lia|done]|].
    right. eexists; split; [done|].
    destruct (desc_eq _ _ _ _ _ Dk) as (l1 & l2 & Hl & H1 & _); [lia|].
    rewrite Hl, first_of_skip, first_of_cons in HQ; [done|lia|]. intros b Hb%H1. lia.
Qed.
End searches.

(** * Traversals *)

(** Every node of the tree is the focus of some context. *)
Lemma plug_find t a : a ∈ inorder t → ∃ k c l r, plug k (T c l a r) = t.
Proof.
  induction t as [|c l IHl b r IHr]; simpl; [by intros ?%elem_of_nil|].
  rewrite elem_of_app, elem_of_cons. intros [H|[->|H]].
  - destruct (IHl H) as (k & c' & l' & r' & <-).
    exists (k ++ [FL c b r]), c', l', r'. by rewrite plug_app.
  - by exists [], c, l, r.
  - destruct (IHr H) as (k & c' & l' & r' & <-).
    exists (k ++ [FR c l b]), c', l', r'. by rewrite plug_app.
Qed.

Definition is_FL (f : frame) : Prop := match f with FL _ _ _ => True | _ => False end.
Definition is_FR (f : frame) : Prop := match f with FR _ _ _ => True | _ => False end.

Lemma klefts_FL k : Forall is_FL k → klefts k = [].
Proof. induction 1 as [|[] k Hf _ IH]; done. Qed.
Lemma krights_FR k : Forall is_FR k → krights k = [].
Proof. induction 1 as [|[] k Hf _ IH]; done. Qed.

(** [while (y->left) y = y->left] stops at the node with no left child. *)
Lemma wp_leftmost e s k c l a r (Q : Z → rb_state → Prop) :
  Rep e s k (T c l a r) →
  (∀ k' c' a' r', plug k' (T c' E a' r') = T c l a r → Forall is_FL k' →
     Rep e s (k' ++ k) (T c' E a' r') → Q a' s) →
  wp (loop (S (size (rb_heap s))) leftmost_round a) Q s.
Proof.
  intros R HQ.
  eapply (wp_loop (λ n x s', s' = s ∧ ∃ k' c' l' r', n = length (addrs (T c' l' x r')) ∧
      plug k' (T c' l' x r') = T c l a r ∧ Forall is_FL k' ∧ Rep e s (k' ++ k) (T c' l' x r')));
    [by eapply Rep_fuel|by split; [done|exists []; eauto 10]|].
  intros n x s' (-> & k' & c' & l' & r' & -> & Hp & Hk & R'). unfold leftmost_round.
  destruct (Rep_focus _ _ _ _ _ _ _ R') as [_ Hx].
  wp_pures. eapply wp_load; [exact Hx|]. simpl. destruct l' as [|c'' l'' b r'']; simpl.
  - apply wp_ret. by eapply HQ.
  - apply Rep_unzip_L in R'. destruct (Rep_focus _ _ _ _ _ _ _ R') as [Hb _].
    apply Z.eqb_neq in Hb as ->. apply wp_ret. eexists. split; [|split; [done|]].
    2:{ exists (FL c' x r' :: k'). do 3 eexists. split_and!; [done|done|by constructor|exact R']. }
    simpl. rewrite !length_app. lia.
Qed.
Lemma wp_rightmost e s k c l a r (Q : Z → rb_state → Prop) :
  Rep e s k (T c l a r) →
  (∀ k' c' l' a', plug k' (T c' l' a' E) = T c l a r → Forall is_FR k' →
     Rep e s (k' ++ k) (T c' l' a' E) → Q a' s) →
  wp (loop (S (size (rb_heap s))) rightmost_round a) Q s.
Proof.
  intros R HQ.
  eapply (wp_loop (λ n x s', s' = s ∧ ∃ k' c' l' r', n = length (addrs (T c' l' x r')) ∧
      plug k' (T c' l' x r') = T c l a r ∧ Forall is_FR k' ∧ Rep e s (k' ++ k) (T c' l' x r')));
    [by eapply Rep_fuel|by split; [done|exists []; eauto 10]|].
  intros n x s' (-> & k' & c' & l' & r' & -> & Hp & Hk & R'). unfold rightmost_round.
  destruct (Rep_focus _ _ _ _ _ _ _ R') as [_ Hx].
  wp_pures. eapply wp_load; [exact Hx|]. simpl. destruct r' as [|c'' l'' b r'']; simpl.
  - apply wp_ret. by eapply HQ.
  - apply Rep_unzip_R in R'. destruct (Rep_focus _ _ _ _ _ _ _ R') as [Hb _].
    apply Z.eqb_neq in Hb as ->. apply wp_ret. eexists. split; [|split; [done|]].
    2:{ exists (FR c' l' x :: k'). do 3 eexists. split_and!; [done|done|by constructor|exact R']. }
    simpl. rewrite !length_app. simpl. rewrite length_app. lia.
Qed.

Lemma leftmost_head k c a r : Forall is_FL k → head (inorder (plug k (T c E a r))) = Some a.
Proof. intros Hk. by rewrite inorder_plug, klefts_FL. Qed.
Lemma rightmost_last k c l a : Forall is_FR k → last (inorder (plug k (T c l a E))) = Some a.
Proof. intros Hk. rewrite inorder_plug, krights_FR by done. simpl. by rewrite app_nil_r, app_assoc, last_snoc. Qed.

(** Climbing while the node is a right (left) child. *)
Lemma wp_next_up e s k t (Q : Z → rb_state → Prop) :
  Rep e s k t → t ≠ E → Q (default 0 (head (krights k))) s →
  wp (loop (S (size (rb_heap s))) next_up_round (rootp t, kpar k)) Q s.
Proof.
  intros R Ht HQ.
  eapply (wp_loop (λ n x s', s' = s ∧ ∃ k t, n = length k ∧ x = (rootp t, kpar k) ∧
      Rep e s k t ∧ t ≠ E ∧ Q (default 0 (head (krights k))) s));
    [by eapply Rep_length|by eauto 10|].
  clear k t R Ht HQ. intros n x s' (-> & k & t & -> & -> & R & Ht & HQ). unfold next_up_round.
  destruct k as [|f k]; simpl; [by apply wp_ret|].
  destruct (Rep_parent _ _ _ _ _ R) as (Hf & Hn & _). apply Z.eqb_neq in Hf as ->.
  wp_pures. eapply wp_load; [exact Hn|]. rewrite fnode_parent.
  assert (rootp t ≠ 0) as Ht0 by (intros H0; apply Ht; eapply rep_rootp; [apply R|done]).
  pose proof (Rep_sib _ _ _ _ _ R Ht0) as Hs.
  destruct f as [c a r|c l a]; simpl in *.
  - apply not_eq_sym, Z.eqb_neq in Hs as ->. by apply wp_ret.
  - rewrite Z.eqb_refl. apply wp_ret. apply Rep_zip_R in R. eexists. split; [|split; [done|]].
    2:{ by do 2 eexists; split_and!; [done| |exact R|done|done]. } lia.
Qed.
Lemma wp_prev_up e s k t (Q : Z → rb_state → Prop) :
  Rep e s k t → t ≠ E → Q (default 0 (last (klefts k))) s →
  wp (loop (S (size (rb_heap s))) prev_up_round (rootp t, kpar k)) Q s.
Proof.
  intros R Ht HQ.
  eapply (wp_loop (λ n x s', s' = s ∧ ∃ k t, n = length k ∧ x = (rootp t, kpar k) ∧
      Rep e s k t ∧ t ≠ E ∧ Q (default 0 (last (klefts k))) s));
    [by eapply Rep_length|by eauto 10|].
  clear k t R Ht HQ. intros n x s' (-> & k & t & -> & -> & R & Ht & HQ). unfold prev_up_round.
  destruct k as [|f k]; simpl; [by apply wp_ret|].
  destruct (Rep_parent _ _ _ _ _ R) as (Hf & Hn & _). apply Z.eqb_neq in Hf as ->.
  wp_pures. eapply wp_load; [exact Hn|]. rewrite fnode_parent.
  assert (rootp t ≠ 0) as Ht0 by (intros H0; apply Ht; eapply rep_rootp; [apply R|done]).
  pose proof (Rep_sib _ _ _ _ _ R Ht0) as Hs.
  destruct f as [c a r|c l a]; simpl in *.
  - rewrite Z.eqb_refl. apply wp_ret. apply Rep_zip_L in R. eexists. split; [|split; [done|]].
    2:{ by do 2 eexists; split_and!; [done| |exact R|done|done]. } lia.
  - apply not_eq_sym, Z.eqb_neq in Hs as ->. apply wp_ret.
    rewrite app_assoc, last_snoc in HQ. done.
Qed.

Section traversal.
Context (compare : Z → Z → Z) `{!RbCompare compare}.
Context (s : rb_state) (l : list Z) (Hs : is_rbtree compare s l).

(** The tree focused on a given node. *)
Lemma is_rbtree_focus l1 a l2 :
  l = l1 ++ a :: l2 → ∃ k c tl tr, Rep (env_of s l) s k (T c tl a tr) ∧
    l1 = klefts k ++ inorder tl ∧ l2 = inorder tr ++ krights k ∧ red_black (plug k (T c tl a tr)).
Proof.
  intros Hl. destruct (is_rbtree_Rep _ _ _ Hs) as (t & Hrb & R).
  pose proof (Rep_io _ _ _ _ R) as Hio. simpl in Hio. rewrite app_nil_r in Hio.
  destruct (plug_find t a) as (k & c & tl & tr & <-); [rewrite Hio, Hl; set_solver|].
  exists k, c, tl, tr. apply Rep_plug in R as R'. rewrite app_nil_r in R'. split; [done|].
  assert (NoDup l) as Hnd by (eapply sorted_nodup, Hs; done).
  rewrite inorder_plug in Hio. simpl in Hio.
  replace (klefts k ++ (inorder tl ++ a :: inorder tr) ++ krights k)
    with ((klefts k ++ inorder tl) ++ a :: (inorder tr ++ krights k)) in Hio
    by (by list_simplifier).
  rewrite Hl in Hnd, Hio. symmetry in Hio. by destruct (nodup_split _ _ _ _ _ Hnd Hio).
Qed.

Lemma wp_rb_first (Q : Z → rb_state → Prop) : Q (default 0 (head l)) s → wp rb_first Q s.
Proof.
  intros HQ. destruct (is_rbtree_Rep _ _ _ Hs) as (t & _ & R).
  unfold rb_first, get_root, rb_fuel. wp_pures. rewrite (Rep_root _ _ _ _ R).
  pose proof (Rep_io _ _ _ _ R) as Hio. simpl in *. rewrite app_nil_r in Hio.
  destruct t as [|c tl a tr]; simpl; [by rewrite <-Hio in HQ|].
  destruct (Rep_focus _ _ _ _ _ _ _ R) as [Ha _]. apply Z.eqb_neq in Ha as ->. wp_pures.
  eapply wp_leftmost; [exact R|]. intros k' c' a' r' Hp Hk _.
  rewrite <-Hio, <-Hp, leftmost_head in HQ; done.
Qed.
Lemma wp_rb_last (Q : Z → rb_state → Prop) : Q (default 0 (last l)) s → wp rb_last Q s.
Proof.
  intros HQ. destruct (is_rbtree_Rep _ _ _ Hs) as (t & _ & R).
  unfold rb_last, get_root, rb_fuel. wp_pures. rewrite (Rep_root _ _ _ _ R).
  pose proof (Rep_io _ _ _ _ R) as Hio. simpl in *. rewrite app_nil_r in Hio.
  destruct t as [|c tl a tr]; simpl; [by rewrite <-Hio in HQ|].
  destruct (Rep_focus _ _ _ _ _ _ _ R) as [Ha _]. apply Z.eqb_neq in Ha as ->. wp_pures.
  eapply wp_rightmost; [exact R|]. intros k' c' l' a' Hp Hk _.
  rewrite <-Hio, <-Hp, rightmost_last in HQ; done.
Qed.

Lemma wp_rb_next l1 a l2 (Q : Z → rb_state → Prop) :
  l = l1 ++ a :: l2 → Q (default 0 (head l2)) s → wp (rb_next a) Q s.
Proof.
  intros Hl HQ. destruct (is_rbtree_focus _ _ _ Hl) as (k & c & tl & tr & R & _ & -> & _).
  destruct (Rep_focus _ _ _ _ _ _ _ R) as [Ha Hn]. unfold rb_next, rb_fuel.
  wp_pures. eapply wp_load; [exact Hn|]. wp_pures. simpl.
  destruct tr as [|c' l' b r']; simpl.
  - eapply (wp_next_up _ _ _ (T c tl a E)); [exact R|done|done].
  - apply Rep_unzip_R in R. destruct (Rep_focus _ _ _ _ _ _ _ R) as [Hb _].
    apply Z.eqb_neq in Hb as ->. eapply wp_leftmost; [exact R|]. intros k' c'' a' r'' Hp Hk _.
    change (inorder l' ++ b :: inorder r') with (inorder (T c' l' b r')) in HQ.
    rewrite <-Hp in HQ. rewrite head_app, leftmost_head in HQ; done.
Qed.
Lemma wp_rb_prev l1 a l2 (Q : Z → rb_state → Prop) :
  l = l1 ++ a :: l2 → Q (default 0 (last l1)) s → wp (rb_prev a) Q s.
Proof.
  intros Hl HQ. destruct (is_rbtree_focus _ _ _ Hl) as (k & c & tl & tr & R & -> & _ & _).
  destruct (Rep_focus _ _ _ _ _ _ _ R) as [Ha Hn]. unfold rb_prev, rb_fuel.
  wp_pures. eapply wp_load; [exact Hn|]. wp_pures. simpl.
  destruct tl as [|c' l' b r']; simpl.
  - rewrite app_nil_r in HQ. eapply (wp_prev_up _ _ _ (T c E a tr)); [exact R|done|done].
  - apply Rep_unzip_L in R. destruct (Rep_focus _ _ _ _ _ _ _ R) as [Hb _].
    apply Z.eqb_neq in Hb as ->. eapply wp_rightmost; [exact R|]. intros k' c'' l'' a' Hp Hk _.
    change (inorder l' ++ b :: inorder r') with (inorder (T c' l' b r')) in HQ.
    rewrite <-Hp in HQ. rewrite last_app, rightmost_last in HQ; done.
Qed.
End traversal.

(** * [rb_insert] *)

Definition link_of (k : ctx) : rb_link :=
  match k with [] => link_root | FL _ a _ :: _ => link_left a | FR _ _ a :: _ => link_right a end.

Lemma wp_link_read e s k t (Q : Z → rb_state → Prop) :
  Rep e s k t → Q (rootp t) s → wp (link_read (link_of k)) Q s.
Proof.
  intros [_ Hk _ _ _ _ _ _] HQ. destruct k as [|[c a r|c l a] k]; simpl in *.
  - apply wp_gets. by rewrite Hk.
  - destruct Hk as (_ & Hn & _). wp_pures. by eapply wp_load.
  - destruct Hk as (_ & Hn & _). wp_pures. by eapply wp_load.
Qed.

(** Writing the pointer cell of an empty hole. *)
Lemma wp_link_write s k v (Q : unit → rb_state → Prop) :
  repk (rb_heap s) (rt_root (rb_tree s)) k 0 → NoDup (kaddrs k) →
  (∀ h rt, repk h rt k v → (∀ b, b ∉ kaddrs k → h !! b = rb_heap s !! b) →
     dom h = dom (rb_heap s) → Q tt (mkRb h (mkTree rt (rt_size (rb_tree s))))) →
  wp (link_write (link_of k) v) Q s.
Proof.
  intros Hk Hnd HQ. destruct k as [|[c a r|c l a] k]; simpl in *.
  - wp_pures. by apply HQ.
  - destruct Hk as (? & Hn & ? & ?). nodup_atoms Hnd. eapply wp_store; [exact Hn|].
    destruct s as [h [rt n]]. apply HQ; simpl.
    + split_and!; [done|by rewrite lookup_insert_eq| |]; [apply rep_insert|apply repk_insert]; (done || mem).
    + intros b Hb. rewrite lookup_insert_ne; [done|mem].
    + rewrite dom_insert_lookup_L by eauto. done.
  - destruct Hk as (? & Hn & ? & ?). nodup_atoms Hnd. eapply wp_store; [exact Hn|].
    destruct s as [h [rt n]]. apply HQ; simpl.
    + split_and!; [done|by rewrite lookup_insert_eq| |]; [apply rep_insert|apply repk_insert]; (done || mem).
    + intros b Hb. rewrite lookup_insert_ne; [done|mem].
    + rewrite dom_insert_lookup_L by eauto. done.
Qed.

(** The new node [x] hooked, red, into the hole of [k]. *)
Lemma wp_attach {A} e s k x nx (m : M rb_state A) (Q : A → rb_state → Prop) :
  Rep e s k E → x ≠ 0 → x ∉ kaddrs k → rb_heap s !! x = Some nx →
  (∀ s', Rep (mkEnv (rb_heap s) ({[x]} ∪ e_foot e) (u64 (e_size e + 1))
                (klefts k ++ x :: krights k)) s' k (T RB_RED E x E) → wp m Q s') →
  wp (store x (set_parent (kpar k)) ;; store x (set_left 0) ;; store x (set_right 0) ;;
      store x (set_color RB_RED) ;; link_write (link_of k) x ;;
      set_size (λ n, u64 (n + 1)) ;; m) Q s.
Proof.
  destruct s as [h [rt n]]. intros [_ Hk Hnd Hf Hfr Hd Hs Hio] Hx0 Hxk Hx HQ. simpl in *.
  do 4 (wp_pures; eapply wp_store; [look|simpl]; rewrite ?insert_insert_eq). wp_pures.
  apply wp_link_write; simpl; [by apply repk_insert|done|].
  intros h' rt' Hk' Hh' Hd'. unfold set_size. apply wp_bind, wp_modify. apply HQ. simpl.
  constructor; simpl; [|done| | | | | |done].
  - split_and!; [done|rewrite Hh' by done; look|done|done].
  - by constructor.
  - intros b. rewrite elem_of_cons, Hf. set_solver.
  - intros b Hb. rewrite Hh', lookup_insert_ne by set_solver. done.
  - rewrite Hd', dom_insert_lookup_L by eauto. done.
  - by subst.
Qed.

Lemma ins_inv_attach k x : red_black (plug k E) → ins_inv k (T RB_RED E x E).
Proof.
  intros (Hc & (_ & Hkn & _)%nrr_unplug & m & (n & Hn & Hkb)%bh_unplug). simpl in Hn; subst n.
  constructor; [done|by exists O|done|by eapply kroot_plug].
Qed.

Section insert.
Context (compare : Z → Z → Z) `{!RbCompare compare}.

(** The place the descent finds keeps the list sorted. *)
Lemma desc_sorted s l node k :
  is_rbtree compare s l → desc compare 1 node l s k E →
  StronglySorted (λ a b, compare a b < 0) (klefts k ++ node :: krights k).
Proof.
  intros Hs D. pose proof (is_sorted _ _ _ Hs) as Hsort.
  rewrite <-(desc_end _ _ _ _ _ _ D) in Hsort.
  rewrite StronglySorted_app in *. rewrite StronglySorted_cons, Forall_forall.
  destruct Hsort as (H1 & H2 & H3). split_and!; [|done| |done].
  - intros a b Ha [->|Hb]%elem_of_cons; [|by apply H1].
    apply D in Ha. apply cmp_flip. lia.
  - intros b Hb. by apply D in Hb.
Qed.

Lemma wp_rb_insert s l node n (Q : Z → rb_state → Prop) :
  is_rbtree compare s l → node ≠ 0 → node ∉ l → rb_heap s !! node = Some n →
  ((∃ b, b ∈ l ∧ compare node b = 0) → Q (-1) s) →
  (∀ l1 l2 s', l = l1 ++ l2 → is_rbtree compare s' (l1 ++ node :: l2) →
     rb_frame (node :: l) s s' → Q 0 s') →
  wp (rb_insert compare node) Q s.
Proof.
  intros Hs Hn0 Hnl Hn Hdup HQ. destruct (desc_init compare 1 node s l Hs) as (t & D).
  unfold rb_insert, rb_fuel. wp_pures.
  apply (wp_descend compare node s l Hs 1 (λ k t, (kpar k, link_of k)) _ _ t); [lia|done| |].
  - intros k Dk. pose proof (desc_rep _ _ _ _ _ _ _ Dk) as R. simpl. wp_pures.
    eapply wp_link_read; [exact R|]. simpl. apply wp_ret. eexists; split; [done|].
    refine (wp_attach _ _ _ _ _ _ _ R Hn0 _ Hn _).
    { intros Hk. apply Hnl. pose proof (Rep_foot _ _ _ _ R node) as Hf. simpl in Hf.
      rewrite elem_of_list_to_set in Hf. by apply Hf. }
    intros s1 R1. pose proof (desc_end _ _ _ _ _ _ Dk) as Hl. wp_pures.
    eapply wp_insert_fixup; [exact R1|by apply ins_inv_attach, Dk|]. intros s2 t2 R2 Hrb. wp_pures.
    apply (HQ (klefts k) (krights k)); [done| |].
    + apply (Rep_is_rbtree _ _ _ _ R2 Hrb); simpl; [by eapply desc_sorted|].
      rewrite (is_size _ _ _ Hs), <-Hl, !length_app. simpl. unfold u64.
      rewrite Zplus_mod_idemp_l. f_equal. lia.
    + split; [|apply R2]. intros b Hb. rewrite (Rep_frame _ _ _ _ R2); [done|]. simpl.
      rewrite elem_of_union, elem_of_list_to_set, elem_of_singleton. set_solver.
  - intros k c tl a tr Dk Ha Hna. pose proof (desc_rep _ _ _ _ _ _ _ Dk) as R.
    destruct (desc_focus _ _ _ _ _ _ _ _ _ _ Dk) as (Hz & _ & Hal).
    unfold insert_descend. wp_pures. eapply wp_link_read; [exact R|]. simpl. rewrite Hz.
    destruct (Z.ltb_spec (compare node a) 0) as [Hlt|Hge]; [apply wp_ret; by eauto|].
    destruct (compare node a >? 0) eqn:Hgt; apply wp_ret; right; [left; split_and!; [done|lia|lia|done]|].
    right. eexists; split; [done|]. wp_pures. apply Hdup. exists a. split; [done|lia].
Qed.
End insert.
