(* ===== verification/RBTreeRemove.v ===== *)
(** The correctness of [_remove_fixup] and [rb_remove]. *)
From Stdlib Require Import Sorting.Sorted.
From stdpp Require Import sorting.
From S2P Require Import Prelude RBTree RBTreeRep RBTreeInsert RBTreeSpec.

(** * [_remove_fixup] *)

Definition blk (t : tree) : tree :=
  match t with E => E | T _ l a r => T RB_BLACK l a r end.

(** The tree during the fixup: the focus is one black node short of what its
    context expects; it may be red below a red parent, or have a red child,
    when it is red itself. *)
Record del_inv (k : ctx) (x : tree) : Prop := mkDel {
  di_nrr : nrr (blk x);
  di_bh : ∃ n, bh x n ∧ kbh k (S n);
  di_knrr : knrr k;
  di_root : kroot k;
}.

(** What a round leaves when it goes round again: a focus closer to the root
    (or red), or a tree that is fixed, with the root as the next node. *)
Definition del_measure (k : ctx) (x : tree) : nat :=
  length k + match tcolor x with RB_RED => 0 | RB_BLACK => 1 end.
Definition del_next (e : env) (n : nat) (st : Z * Z) (s : rb_state) : Prop :=
  (∃ k x, (del_measure k x < n)%nat ∧ st = (rootp x, kpar k) ∧ Rep e s k x ∧ del_inv k x) ∨
  (∃ t, (0 < n)%nat ∧ st.1 = rootp t ∧ Rep e s [] t ∧ red_black t).

Lemma wp_node_color s p t (Q : rb_color_t → rb_state → Prop) :
  rep (rb_heap s) p t → Q (tcolor t) s → wp (_rb_node_color (rootp t)) Q s.
Proof.
  intros Ht HQ. unfold _rb_node_color. destruct t as [|c l a r]; simpl in *; [done|].
  destruct Ht as (Ha & Hn & _). apply Z.eqb_neq in Ha as ->.
  apply wp_bind. by eapply wp_load.
Qed.

(** The last case: the sibling [d] has a red outer child; one rotation ends
    the fixup. *)
Lemma wp_remove_last_L e s k c p x sl d rl a rr (Q : Z * Z + Z → rb_state → Prop) :
  Rep e s (FL c p (T RB_BLACK sl d (T RB_RED rl a rr)) :: k) x →
  (∀ s', Rep e s' k (T c (T RB_BLACK x p sl) d (T RB_BLACK rl a rr)) →
     Q (inl (rt_root (rb_tree s'), p)) s') →
  wp (np ← load p;
      store d (set_color (rb_color np)) ;;
      store p (set_color RB_BLACK) ;;
      ns ← load d;
      (if rb_right ns =? 0 then mret tt else store (rb_right ns) (set_color RB_BLACK)) ;;
      _rotate_left p ;;
      rt ← get_root;
      mret (inl (rt, p))) Q s.
Proof.
  intros R HQ. apply Rep_zip_L in R. destruct (Rep_focus _ _ _ _ _ _ _ R) as [_ Hp].
  wp_pures. eapply wp_load; [exact Hp|]. simpl. wp_pures. apply Rep_unzip_R in R.
  eapply wp_set_color; [exact R|]. intros s1 R1. wp_pures. apply Rep_zip_R in R1.
  eapply wp_set_color; [exact R1|]. intros s2 R2. wp_pures. apply Rep_unzip_R in R2.
  destruct (Rep_focus _ _ _ _ _ _ _ R2) as [_ Hd].
  eapply wp_load; [exact Hd|]. simpl. wp_pures. apply Rep_unzip_R in R2.
  destruct (Rep_focus _ _ _ _ _ _ _ R2) as [Ha _]. apply Z.eqb_neq in Ha as ->.
  eapply wp_set_color; [exact R2|]. intros s3 R3. wp_pures. apply Rep_zip_R, Rep_zip_R in R3.
  eapply wp_rotate_left; [exact R3|]. intros s4 R4. unfold get_root. wp_pures. by apply HQ.
Qed.
Lemma wp_remove_last_R e s k c p x sr d rl a rr (Q : Z * Z + Z → rb_state → Prop) :
  Rep e s (FR c (T RB_BLACK (T RB_RED rl a rr) d sr) p :: k) x →
  (∀ s', Rep e s' k (T c (T RB_BLACK rl a rr) d (T RB_BLACK sr p x)) →
     Q (inl (rt_root (rb_tree s'), p)) s') →
  wp (np ← load p;
      store d (set_color (rb_color np)) ;;
      store p (set_color RB_BLACK) ;;
      ns ← load d;
      (if rb_left ns =? 0 then mret tt else store (rb_left ns) (set_color RB_BLACK)) ;;
      _rotate_right p ;;
      rt ← get_root;
      mret (inl (rt, p))) Q s.
Proof.
  intros R HQ. apply Rep_zip_R in R. destruct (Rep_focus _ _ _ _ _ _ _ R) as [_ Hp].
  wp_pures. eapply wp_load; [exact Hp|]. simpl. wp_pures. apply Rep_unzip_L in R.
  eapply wp_set_color; [exact R|]. intros s1 R1. wp_pures. apply Rep_zip_L in R1.
  eapply wp_set_color; [exact R1|]. intros s2 R2. wp_pures. apply Rep_unzip_L in R2.
  destruct (Rep_focus _ _ _ _ _ _ _ R2) as [_ Hd].
  eapply wp_load; [exact Hd|]. simpl. wp_pures. apply Rep_unzip_L in R2.
  destruct (Rep_focus _ _ _ _ _ _ _ R2) as [Ha _]. apply Z.eqb_neq in Ha as ->.
  eapply wp_set_color; [exact R2|]. intros s3 R3. wp_pures. apply Rep_zip_L, Rep_zip_L in R3.
  eapply wp_rotate_right; [exact R3|]. intros s4 R4. unfold get_root. wp_pures. by apply HQ.
Qed.

(** Balance after the last case, [f] being the frame of the parent. *)
Lemma red_black_last k f n l d r :
  knrr (f :: k) → kroot (f :: k) → kbh (f :: k) (S n) →
  nrr l → nrr r → tcolor l = RB_BLACK → tcolor r = RB_BLACK → bh l (S n) → bh r (S n) →
  red_black (plug k (T (fcolor f) l d r)).
Proof.
  intros (Hc & _ & Hkn) Hr (_ & Hkb) Hl Hrr Hlc Hrc Hlb Hrb. split_and!.
  - destruct k as [|g k]; [done|]. by apply tcolor_plug_cons.
  - apply nrr_plug; [simpl; tauto|done|]. intros Hk. simpl.
    destruct (fcolor f); [done|]. destruct (Hc eq_refl). congruence.
  - eapply bh_plug; [|exact Hkb]. destruct (fcolor f); done.
Qed.

Lemma blk_black t : tcolor t = RB_BLACK → blk t = t.
Proof. destruct t as [|[]]; simpl; done. Qed.

(** Sibling black with black children: it becomes red, and the parent is short
    of a black node instead. *)
Lemma del_inv_up k f w x wl b wr :
  del_inv (f :: k) x → tcolor x = RB_BLACK → fsib f = T RB_BLACK wl b wr →
  tcolor wl = RB_BLACK → tcolor wr = RB_BLACK →
  w = T RB_RED wl b wr → del_inv k (plug1 (fsetsib w f) x).
Proof.
  intros [Hn (n & Hb & Hsb & Hkb) (Hc & Hsn & Hkn) Hr] Hx Hs Hwl Hwr ->.
  rewrite Hs in *. rewrite blk_black in Hn by done. destruct Hsb, Hsn as (_ & ? & ?). constructor.
  - destruct f; simpl; naive_solver.
  - destruct f as [[]|[]]; simpl in *; [exists (S n)|exists n|exists (S n)|exists n]; naive_solver.
  - done.
  - by destruct k.
Qed.

Section round.
Context (e : env) (m : nat) (Q : Z * Z + Z → rb_state → Prop).
Context (HQ : ∀ st s, del_next e m st s → Q (inl st) s).

Lemma del_done s t p :
  Rep e s [] t → (0 < m)%nat → red_black t → Q (inl (rt_root (rb_tree s), p)) s.
Proof.
  intros R ? Hrb. apply HQ. right. exists t. split_and!; [done| |done|done].
  by rewrite (Rep_root _ _ _ _ R).
Qed.

Lemma wp_remove_fixup_left s k c p wl b wr x :
  Rep e s (FL c p (T RB_BLACK wl b wr) :: k) x →
  del_inv (FL c p (T RB_BLACK wl b wr) :: k) x → tcolor x = RB_BLACK →
  (length k + match c with RB_RED => 0 | RB_BLACK => 1 end < m)%nat →
  wp (remove_fixup_left p b) Q s.
Proof.
  intros R I Hx Hm. unfold remove_fixup_left. pose proof R as Rp.
  apply Rep_zip_L, Rep_unzip_R in R. destruct (Rep_focus _ _ _ _ _ _ _ R) as [Hb0 Hb].
  destruct (Rep_t _ _ _ _ R) as (_ & _ & Hwl & Hwr).
  wp_pures. eapply wp_load; [exact Hb|]. simpl. wp_pures.
  eapply wp_node_color; [exact Hwl|]. wp_pures. eapply wp_node_color; [exact Hwr|].
  pose proof I as [Hn (n & Hxb & Hkb) Hkn Hr].
  pose proof Hkb as [[Hwlb Hwrb] _]. pose proof Hkn as (_ & (_ & Hwln & Hwrn) & _).
  rewrite blk_black in Hn by done.
  destruct (bool_decide (tcolor wr = RB_BLACK)) eqn:Hrc;
    [apply bool_decide_eq_true in Hrc; destruct (bool_decide (tcolor wl = RB_BLACK)) eqn:Hlc|];
    rewrite ?andb_false_r; simpl andb.
  - apply bool_decide_eq_true in Hlc. wp_pures.
    eapply wp_set_color; [exact R|]. intros s1 R1. apply Rep_zip_R in R1.
    destruct (Rep_focus _ _ _ _ _ _ _ R1) as [_ Hp]. wp_pures.
    eapply wp_load; [exact Hp|]. wp_pures. apply HQ. left.
    exists k, (T c x p (T RB_RED wl b wr)). split_and!; [done|done|done|].
    by eapply (del_inv_up _ (FL c p (T RB_BLACK wl b wr))).
  - destruct wl as [|[] wll d wlr]; [done|done|]. simpl rootp. wp_pures.
    destruct Hwln as (Hd & ? & ?), Hwlb. destruct (Hd eq_refl).
    apply Rep_unzip_L in R. eapply wp_set_color; [exact R|]. intros s1 R1. wp_pures.
    apply Rep_zip_L in R1. eapply wp_set_color; [exact R1|]. intros s2 R2. wp_pures.
    eapply wp_rotate_right; [exact R2|]. intros s3 R3. wp_pures. apply Rep_zip_R in R3.
    destruct (Rep_focus _ _ _ _ _ _ _ R3) as [_ Hp]. eapply wp_load; [exact Hp|].
    apply wp_ret. apply Rep_unzip_L in R3. simpl rb_right. simpl rootp.
    eapply wp_remove_last_L; [exact R3|]. intros s4 R4%Rep_whole. eapply del_done; [exact R4|lia|].
    apply (red_black_last _ _ n _ _ _ Hkn Hr Hkb); by simpl; split_and?.
  - destruct wr as [|[] rl a rr]; [done|done|]. apply wp_bind, wp_ret.
    destruct Hwrn as (Hd & ? & ?), Hwrb. destruct (Hd eq_refl).
    eapply wp_remove_last_L; [exact Rp|]. intros s4 R4%Rep_whole. eapply del_done; [exact R4|lia|].
    apply (red_black_last _ _ n _ _ _ Hkn Hr Hkb); by simpl; split_and?.
Qed.

Lemma wp_remove_fixup_right s k c p wl b wr x :
  Rep e s (FR c (T RB_BLACK wl b wr) p :: k) x →
  del_inv (FR c (T RB_BLACK wl b wr) p :: k) x → tcolor x = RB_BLACK →
  (length k + match c with RB_RED => 0 | RB_BLACK => 1 end < m)%nat →
  wp (remove_fixup_right p b) Q s.
Proof.
  intros R I Hx Hm. unfold remove_fixup_right. pose proof R as Rp.
  apply Rep_zip_R, Rep_unzip_L in R. destruct (Rep_focus _ _ _ _ _ _ _ R) as [Hb0 Hb].
  destruct (Rep_t _ _ _ _ R) as (_ & _ & Hwl & Hwr).
  wp_pures. eapply wp_load; [exact Hb|]. simpl. wp_pures.
  eapply wp_node_color; [exact Hwl|]. wp_pures. eapply wp_node_color; [exact Hwr|].
  pose proof I as [Hn (n & Hxb & Hkb) Hkn Hr].
  pose proof Hkb as [[Hwlb Hwrb] _]. pose proof Hkn as (_ & (_ & Hwln & Hwrn) & _).
  rewrite blk_black in Hn by done.
  destruct (bool_decide (tcolor wl = RB_BLACK)) eqn:Hlc;
    [apply bool_decide_eq_true in Hlc; destruct (bool_decide (tcolor wr = RB_BLACK)) eqn:Hrc|]; simpl andb.
  - apply bool_decide_eq_true in Hrc. wp_pures.
    eapply wp_set_color; [exact R|]. intros s1 R1. apply Rep_zip_L in R1.
    destruct (Rep_focus _ _ _ _ _ _ _ R1) as [_ Hp]. wp_pures.
    eapply wp_load; [exact Hp|]. wp_pures. apply HQ. left.
    exists k, (T c (T RB_RED wl b wr) p x). split_and!; [done|done|done|].
    by eapply (del_inv_up _ (FR c (T RB_BLACK wl b wr) p)).
  - destruct wr as [|[] wrl d wrr]; [done|done|]. simpl rootp. wp_pures.
    destruct Hwrn as (Hd & ? & ?), Hwrb. destruct (Hd eq_refl).
    apply Rep_unzip_R in R. eapply wp_set_color; [exact R|]. intros s1 R1. wp_pures.
    apply Rep_zip_R in R1. eapply wp_set_color; [exact R1|]. intros s2 R2. wp_pures.
    eapply wp_rotate_left; [exact R2|]. intros s3 R3. wp_pures. apply Rep_zip_L in R3.
    destruct (Rep_focus _ _ _ _ _ _ _ R3) as [_ Hp]. eapply wp_load; [exact Hp|].
    apply wp_ret. apply Rep_unzip_R in R3. simpl rb_left. simpl rootp.
    eapply wp_remove_last_R; [exact R3|]. intros s4 R4%Rep_whole. eapply del_done; [exact R4|lia|].
    apply (red_black_last _ _ n _ _ _ Hkn Hr Hkb); by simpl; split_and?.
  - destruct wl as [|[] rl a rr]; [done|done|]. apply wp_bind, wp_ret.
    destruct Hwln as (Hd & ? & ?), Hwlb. destruct (Hd eq_refl).
    eapply wp_remove_last_R; [exact Rp|]. intros s4 R4%Rep_whole. eapply del_done; [exact R4|lia|].
    apply (red_black_last _ _ n _ _ _ Hkn Hr Hkb); by simpl; split_and?.
Qed.

(** The balance around a red sibling after the rotation that makes it the
    grandparent. *)
Lemma del_inv_red_L k c p wl b wr x :
  del_inv (FL c p (T RB_RED wl b wr) :: k) x → tcolor x = RB_BLACK →
  c = RB_BLACK ∧ del_inv (FL RB_RED p wl :: FL RB_BLACK b wr :: k) x ∧
  ∃ l' b' r', wl = T RB_BLACK l' b' r'.
Proof.
  intros [Hn (n & Hxb & [Hwlb Hwrb] & Hkb) (Hc & (Hw & Hwln & Hwrn) & Hkn) Hr] Hx.
  destruct (Hw eq_refl) as [Hlc Hrc]. destruct c; [|by destruct (Hc eq_refl)]. split; [done|].
  split; [|destruct wl as [|[]]; simpl in *; [done|by eauto|done]].
  constructor; [done|by exists n|simpl; naive_solver|]. apply (kroot_black (FL RB_BLACK b wr)); [done|exact (kroot_tl _ _ Hr)].
Qed.
Lemma del_inv_red_R k c p wl b wr x :
  del_inv (FR c (T RB_RED wl b wr) p :: k) x → tcolor x = RB_BLACK →
  c = RB_BLACK ∧ del_inv (FR RB_RED wr p :: FR RB_BLACK wl b :: k) x ∧
  ∃ l' b' r', wr = T RB_BLACK l' b' r'.
Proof.
  intros [Hn (n & Hxb & [Hwlb Hwrb] & Hkb) (Hc & (Hw & Hwln & Hwrn) & Hkn) Hr] Hx.
  destruct (Hw eq_refl) as [Hlc Hrc]. destruct c; [|by destruct (Hc eq_refl)]. split; [done|].
  split; [|destruct wr as [|[]]; simpl in *; [done|by eauto|done]].
  constructor; [done|by exists n|simpl; naive_solver|]. apply (kroot_black (FR RB_BLACK wl b)); [done|exact (kroot_tl _ _ Hr)].
Qed.

(** A round, the focus being black and not the root. *)
Lemma wp_remove_round_L s k c p w x :
  Rep e s (FL c p w :: k) x → del_inv (FL c p w :: k) x → tcolor x = RB_BLACK →
  (length k + 1 < m)%nat →
  wp (sred ← _is_red (rootp w);
      sibling ← (if (sred : bool) then
                   store (rootp w) (set_color RB_BLACK) ;;
                   store p (set_color RB_RED) ;;
                   _rotate_left p ;;
                   np ← load p; mret (rb_right np)
                 else mret (rootp w));
      remove_fixup_left p sibling) Q s.
Proof.
  intros R I Hx Hm. destruct (Rep_parent _ _ _ _ _ R) as (_ & _ & Hw). wp_pures.
  eapply wp_is_red; [exact Hw|done|]. wp_pures.
  destruct w as [|[] wl b wr]; simpl.
  - destruct I as [_ (n & _ & Hb & _) _ _]. done.
  - apply wp_ret. eapply wp_remove_fixup_left; [exact R|exact I|done|]. destruct c; lia.
  - destruct (del_inv_red_L _ _ _ _ _ _ _ I Hx) as (-> & I' & l' & b' & r' & ->).
    apply Rep_zip_L, Rep_unzip_R in R. wp_pures. eapply wp_set_color; [exact R|].
    intros s1 R1%Rep_zip_R. wp_pures. eapply wp_set_color; [exact R1|]. intros s2 R2. wp_pures.
    eapply wp_rotate_left; [exact R2|]. intros s3 R3. wp_pures. apply Rep_unzip_L in R3.
    destruct (Rep_focus _ _ _ _ _ _ _ R3) as [_ Hp]. eapply wp_load; [exact Hp|]. apply wp_ret.
    apply Rep_unzip_L in R3. eapply wp_remove_fixup_left; [exact R3|exact I'|done|]. simpl; lia.
Qed.
Lemma wp_remove_round_R s k c p w x :
  Rep e s (FR c w p :: k) x → del_inv (FR c w p :: k) x → tcolor x = RB_BLACK →
  (length k + 1 < m)%nat →
  wp (sred ← _is_red (rootp w);
      sibling ← (if (sred : bool) then
                   store (rootp w) (set_color RB_BLACK) ;;
                   store p (set_color RB_RED) ;;
                   _rotate_right p ;;
                   np ← load p; mret (rb_left np)
                 else mret (rootp w));
      remove_fixup_right p sibling) Q s.
Proof.
  intros R I Hx Hm. destruct (Rep_parent _ _ _ _ _ R) as (_ & _ & Hw). wp_pures.
  eapply wp_is_red; [exact Hw|done|]. wp_pures.
  destruct w as [|[] wl b wr]; simpl.
  - destruct I as [_ (n & _ & Hb & _) _ _]. done.
  - apply wp_ret. eapply wp_remove_fixup_right; [exact R|exact I|done|]. destruct c; lia.
  - destruct (del_inv_red_R _ _ _ _ _ _ _ I Hx) as (-> & I' & l' & b' & r' & ->).
    apply Rep_zip_R, Rep_unzip_L in R. wp_pures. eapply wp_set_color; [exact R|].
    intros s1 R1%Rep_zip_L. wp_pures. eapply wp_set_color; [exact R1|]. intros s2 R2. wp_pures.
    eapply wp_rotate_right; [exact R2|]. intros s3 R3. wp_pures. apply Rep_unzip_R in R3.
    destruct (Rep_focus _ _ _ _ _ _ _ R3) as [_ Hp]. eapply wp_load; [exact Hp|]. apply wp_ret.
    apply Rep_unzip_R in R3. eapply wp_remove_fixup_right; [exact R3|exact I'|done|]. simpl; lia.
Qed.
End round.

(** The focus is the root pointer only at the root: needed for the exit test. *)
Lemma Rep_rootp_root e s f k x :
  Rep e s (f :: k) x → rootp x ≠ rt_root (rb_tree s).
Proof.
  intros R. rewrite (Rep_root _ _ _ _ R). pose proof (Rep_nodup _ _ _ _ R) as Hnd.
  pose proof (Rep_whole _ _ _ _ R) as [Ht _ _ _ _ _ _ _]. simpl in Ht |- *.
  assert (∀ k t, t ≠ E → ∃ y, plug k t ≠ E ∧ rootp (plug k t) = y ∧ (y ∈ kaddrs k ∨ y = rootp t)) as Hy.
  { clear. intros k; induction k as [|g k IH]; intros t Ht; simpl; [by eauto|].
    destruct (IH (plug1 g t)) as (y & ? & ? & [?|?]); [by destruct g|..]; exists y;
      (split_and!; [done|done|]); left; [set_solver|].
    destruct g; simpl in *; set_solver. }
  destruct (Hy k (plug1 f x)) as (y & Hne & Heq & Hin); [by destruct f|].
  intros Hx. rewrite Heq in Hx.
  assert (y ≠ 0) as Hy0. { intros ->. apply Hne. eapply rep_rootp; [exact Ht|done]. }
  destruct (rootp_addrs x) as [|Hxa]; [congruence|].
  apply NoDup_app in Hnd as (_ & Hd & _). apply (Hd _ Hxa). rewrite Hx.
  destruct Hin as [|Hin]; [simpl; set_solver|]. destruct f; simpl in *; set_solver.
Qed.

(** What blackening the focus gives when the loop is left. *)
Lemma del_inv_exit k x :
  del_inv k x → tcolor x = RB_RED ∨ k = [] → red_black (plug k (blk x)).
Proof.
  intros [Hn (n & Hb & Hkb) Hkn Hr] Hx. split_and!.
  - destruct k; [by destruct x|by apply tcolor_plug_cons].
  - apply nrr_plug; [done|done|]. by destruct x.
  - destruct Hx as [Hx| ->].
    + destruct x as [|[] l a r]; [done..|]. by eapply (bh_plug _ _ (S n)).
    + destruct x as [|[] l a r]; simpl in *; [by exists O|by exists n|by exists (S n)].
Qed.

Lemma wp_blacken e s k x (Q : unit → rb_state → Prop) :
  Rep e s k x → (∀ s', Rep e s' k (blk x) → Q tt s') →
  wp (if rootp x =? 0 then mret tt else store (rootp x) (set_color RB_BLACK)) Q s.
Proof.
  intros R HQ. destruct x as [|c l a r]; [by apply wp_ret, HQ|]. simpl rootp.
  destruct (Rep_focus _ _ _ _ _ _ _ R) as [Ha _]. apply Z.eqb_neq in Ha as ->.
  eapply wp_set_color; [exact R|exact HQ].
Qed.

(** A round from a focus that is short of a black node. *)
Lemma wp_remove_fixup_round e s k x (Q : Z * Z + Z → rb_state → Prop) :
  Rep e s k x → del_inv k x →
  (red_black (plug k (blk x)) → Q (inr (rootp x)) s) →
  (∀ st s', del_next e (del_measure k x) st s' → Q (inl st) s') →
  wp (remove_fixup_round (rootp x, kpar k)) Q s.
Proof.
  intros R I Hexit Hnext. unfold remove_fixup_round, get_root. wp_pures.
  eapply wp_node_color; [apply R|]. wp_pures.
  case_bool_decide as Hc; simpl andb.
  2:{ apply wp_ret, Hexit. apply del_inv_exit; [done|]. left. by destruct (tcolor x). }
  destruct k as [|f k].
  { rewrite (Rep_root _ _ _ _ R). simpl. rewrite Z.eqb_refl. apply wp_ret, Hexit, del_inv_exit; auto. }
  pose proof (Rep_rootp_root _ _ _ _ _ R) as Hne. apply Z.eqb_neq in Hne as ->. simpl negb.
  destruct (Rep_parent _ _ _ _ _ R) as (_ & Hn & Hs). simpl kpar. wp_pures.
  eapply wp_load; [exact Hn|].
  assert (length k + 1 < del_measure (f :: k) x)%nat as Hm
    by (unfold del_measure; rewrite Hc; simpl; lia).
  destruct f as [c p w|c w p]; simpl fnode; simpl rb_left; simpl rb_right; simpl faddr.
  - rewrite Z.eqb_refl. by eapply wp_remove_round_L.
  - destruct (Z.eqb_spec (rootp x) (rootp w)) as [Hxw|_]; [exfalso|by eapply wp_remove_round_R].
    destruct (decide (rootp x = 0)) as [Hx0|Hx0].
    + rewrite Hx0 in Hxw. symmetry in Hxw. apply (rep_rootp _ _ _ Hs) in Hxw. simpl in Hxw. subst w.
      destruct I as [_ (n & _ & Hb & _) _ _]. done.
    + by apply (Rep_sib _ _ _ _ _ R Hx0).
Qed.

(** [_remove_fixup] restores the red-black properties. *)
Lemma wp_remove_fixup e s k x (Q : unit → rb_state → Prop) :
  Rep e s k x → del_inv k x → (length k + 1 < S (size (rb_heap s)))%nat →
  (∀ s' t, Rep e s' [] t → red_black t → Q tt s') →
  wp (_remove_fixup (rootp x) (kpar k)) Q s.
Proof.
  intros R I Hf HQ. unfold _remove_fixup, rb_fuel. wp_pures.
  eapply (wp_loop (λ n st s,
      (∃ k x, del_measure k x = n ∧ st = (rootp x, kpar k) ∧ Rep e s k x ∧ del_inv k x) ∨
      (∃ t, n = O ∧ st.1 = rootp t ∧ Rep e s [] t ∧ red_black t)));
    [|by left; eauto 10|].
  { unfold del_measure. destruct (tcolor x); lia. }
  clear dependent k x s. intros n st s [(k & x & <- & -> & R & I)|(t & -> & Ht & R & Hrb)].
  - eapply wp_remove_fixup_round; [exact R|exact I| |].
    + intros Hrb. eapply wp_blacken; [exact R|]. intros s' R'%Rep_whole. by eapply HQ.
    + intros st s' [(k' & x' & ? & -> & ? & ?)|(t & ? & ? & ? & ?)];
        eexists; (split; [eassumption|]); [left|right]; eauto 10.
  - destruct st as [node parent]. simpl in Ht. subst node. unfold remove_fixup_round, get_root. wp_pures.
    eapply wp_node_color; [apply R|]. wp_pures. rewrite (Rep_root _ _ _ _ R). simpl plug.
    rewrite Z.eqb_refl, andb_false_r. simpl negb. wp_pures.
    eapply wp_blacken; [exact R|]. intros s' R'. eapply HQ; [exact R'|].
    by rewrite blk_black by apply Hrb.
Qed.

(** * Unhooking the node *)

(** [_transplant u v]: the tree [v] takes the place of the node [u]. *)
Lemma wp_transplant s k u nu v par (Q : unit → rb_state → Prop) :
  repk (rb_heap s) (rt_root (rb_tree s)) k u → u ≠ 0 → rb_heap s !! u = Some nu →
  rb_parent nu = kpar k → rep (rb_heap s) par v → NoDup (u :: addrs v ++ kaddrs k) →
  (∀ h rt, repk h rt k (rootp v) → rep h (kpar k) v →
     (∀ b, b ∉ addrs v ++ kaddrs k → h !! b = rb_heap s !! b) → dom h = dom (rb_heap s) →
     Q tt (mkRb h (mkTree rt (rt_size (rb_tree s))))) →
  wp (_transplant u (rootp v)) Q s.
Proof.
  destruct s as [h0 [rt0 n0]]. simpl. intros Hk Hu0 Hu Hp Hv Hnd HQ.
  unfold _transplant. wp_pures. eapply wp_load; [exact Hu|]. rewrite Hp. wp_pures.
  destruct v as [|c l a r].
  - simpl in Hnd. nodup_atoms Hnd.
    eapply (wp_replace_child _ k u 0 nu); simpl; [done|done|done| |done|by left|].
    { by eapply repk_nonzero. }
    intros h rt Hk' Hh _ Hd. wp_pures.
    eapply wp_load; [simpl; rewrite Hh; [exact Hu|done|auto]|]. simpl. apply wp_ret, HQ; auto.
  - simpl in Hnd, Hv |- *. destruct Hv as (Ha & Hna & Hl & Hr).
    assert (NoDup (u :: a :: addrs l ++ addrs r ++ kaddrs k)) as Hnd'
      by (eapply NoDup_perm; [|exact Hnd]; solve_Permutation).
    nodup_atoms Hnd'.
    eapply (wp_replace_child _ k u a); simpl; [done|done|done|done|done|by right|].
    intros h rt Hk' Hh Ha' Hd. specialize (Ha' Ha).
    wp_pures. eapply wp_load; [simpl; rewrite Hh; [exact Hu|done|by left]|]. rewrite Hp. simpl.
    apply Z.eqb_neq in Ha as Hz. rewrite Hz. eapply wp_store; [exact Ha'|]. simpl. apply HQ.
    + by apply repk_insert.
    + simpl. split_and!; [done|by rewrite lookup_insert_eq| |];
        (apply rep_insert; [|mem]); (eapply rep_frame; [done|]);
        intros b Hb; (apply Hh; [mem|left; mem]).
    + simpl. intros b Hb. mem_hyps. rewrite lookup_insert_ne by done. auto.
    + rewrite dom_insert_lookup_L by eauto. done.
Qed.

(** Removing a node [a] with at most one child [v]. *)
Lemma wp_detach e s k c l a r v (Q : unit → rb_state → Prop) :
  Rep e s k (T c l a r) → (l = E ∧ v = r) ∨ (r = E ∧ v = l) →
  (∀ s', Rep (mkEnv (rb_heap s') (e_foot e ∖ {[a]}) (e_size e) (klefts k ++ inorder v ++ krights k)) s' k v →
     rb_heap s' !! a = rb_heap s !! a → (∀ b, b ∉ e_foot e → rb_heap s' !! b = rb_heap s !! b) →
     dom (rb_heap s') = dom (rb_heap s) → Q tt s') →
  wp (_transplant a (rootp v)) Q s.
Proof.
  intros [Ht Hk Hnd Hf Hfr Hd Hs Hio] Hv HQ. simpl in *. destruct Ht as (Ha & Hn & Hl & Hr).
  assert (addrs l ++ addrs r = addrs v) as Hav by (destruct Hv as [[-> ->]|[-> ->]]; [done|apply app_nil_r]).
  assert (rep (rb_heap s) a v) by (by destruct Hv as [[-> ->]|[-> ->]]).
  rewrite Hav in *. eapply (wp_transplant _ k); [exact Hk|done|exact Hn|done|done|done|].
  intros h rt Hk' Hv' Hh Hd'. pose proof Hnd as [Hna Hnd']%NoDup_cons. apply HQ; simpl.
  - constructor; simpl; [done|done|done| |done|done|done|done].
    intros b. rewrite elem_of_difference, <-Hf, elem_of_cons, elem_of_singleton.
    split; [|naive_solver]. intros Hb. split; [by right|]. by intros ->.
  - by apply Hh.
  - intros b Hb. apply Hh. intros Hb'. apply Hb, Hf. by right.
  - done.
Qed.

(** The successor [y], unhooked, with the right subtree [R] below it, takes the
    place of the node [a]. *)
Lemma wp_splice {A} s k a y c l R pr py cy (m : M rb_state A) (Q : A → rb_state → Prop) :
  repk (rb_heap s) (rt_root (rb_tree s)) k a → a ≠ 0 → y ≠ 0 → l ≠ E →
  rb_heap s !! a = Some (mkNode (kpar k) (rootp l) pr c) →
  rb_heap s !! y = Some (mkNode py 0 (rootp R) cy) →
  rep (rb_heap s) a l → rep (rb_heap s) y R →
  NoDup (a :: y :: addrs l ++ addrs R ++ kaddrs k) →
  (∀ h rt, rep h (kpar k) (T c l y R) → repk h rt k y →
     (∀ b, b ∉ y :: addrs l ++ addrs R ++ kaddrs k → h !! b = rb_heap s !! b) →
     dom h = dom (rb_heap s) → wp m Q (mkRb h (mkTree rt (rt_size (rb_tree s))))) →
  wp (_transplant a y ;;
      n ← load a;
      store y (set_left (rb_left n)) ;;
      ny' ← load y;
      store (rb_left ny') (set_parent y) ;;
      n ← load a;
      store y (set_color (rb_color n)) ;; m) Q s.
Proof.
  destruct s as [h0 [rt0 n0]]; simpl. intros Hk Ha Hy Hl0 Hna Hny Hl HR Hnd HQ. nodup_atoms Hnd.
  apply wp_bind. eapply (wp_transplant _ k a _ (T cy E y R) py); simpl;
    [exact Hk|done|exact Hna|done|by split_and!| |].
  { rewrite !NoDup_cons, NoDup_app. split_and!; first [done|mem|intros; mem]. }
  intros h rt Hk1 (_ & Hny1 & _ & HR1) Hh1 Hd1.
  assert (h !! a = Some (mkNode (kpar k) (rootp l) pr c)) by (by rewrite Hh1 by mem).
  destruct l as [|cl ll b lr]; [done|]. simpl in *. destruct Hl as (Hb & Hnb & Hll & Hlr).
  match goal with H : NoDup (b :: _) |- _ => nodup_atoms H end.
  assert (∀ x, x ∈ b :: addrs ll ++ addrs lr → x ∉ addrs R ++ kaddrs k ∧ x ≠ a ∧ x ≠ y) as Hx.
  { intros x Hx. split; [by auto|]. split; intros ->; set_solver. }
  destruct (Hx b) as (Hb1 & Hb2 & Hb3); [by left|]. 
  assert (h !! b = Some (mkNode a (rootp ll) (rootp lr) cl)) by (rewrite Hh1; [done|mem]).
  step_load. step_store. step_load. step_store. step_load. step_store. mem_hyps.
  apply HQ; simpl.
  - split_and!; [done|look|done|look| | |].
    + do 3 (apply rep_insert; [|mem]). eapply rep_frame; [exact Hll|]. intros x Hx'.
      destruct (Hx x) as (? & ? & ?); [set_solver|]. apply Hh1. mem.
    + do 3 (apply rep_insert; [|mem]). eapply rep_frame; [exact Hlr|]. intros x Hx'.
      destruct (Hx x) as (? & ? & ?); [set_solver|]. apply Hh1. mem.
    + by do 3 (apply rep_insert; [|mem]).
  - by do 3 (apply repk_insert; [|mem]).
  - intros x Hx'. mem_hyps. rewrite !lookup_insert_ne by done. apply Hh1. mem.
  - rewrite !dom_insert_lookup_L; [done|eexists; look..].
Qed.

(** Balance does not depend on which node sits where. *)
Lemma red_black_rename k c l a b r :
  red_black (plug k (T c l a r)) → red_black (plug k (T c l b r)).
Proof.
  intros (Hc & (Hn & Hk & Hck)%nrr_unplug & m & (n & Hb & Hkb)%bh_unplug). split_and!.
  - destruct k; [done|]. apply tcolor_plug_cons. by eapply kroot_plug.
  - by apply nrr_plug.
  - by eapply bh_plug.
Qed.

(** Balance after a node with at most one child [v] is gone. *)
Lemma remove_balance k c l a r v :
  red_black (plug k (T c l a r)) → (l = E ∧ v = r) ∨ (r = E ∧ v = l) →
  match c with RB_BLACK => del_inv k v | RB_RED => red_black (plug k v) end.
Proof.
  intros (Hc & (Hn & Hk & Hck)%nrr_unplug & m & (n & Hb & Hkb)%bh_unplug) Hv.
  assert (nrr v) as Hvn by (destruct Hn as (_ & ? & ?), Hv as [[-> ->]|[-> ->]]; done).
  pose proof (kroot_plug _ _ Hc) as Hr. destruct c.
  - constructor; [by destruct v; simpl in *; naive_solver| |done|done].
    destruct n as [|n]; [done|]. exists n. split; [|done].
    destruct Hb, Hv as [[-> ->]|[-> ->]]; done.
  - destruct Hn as (Hcc & _). destruct (Hcc eq_refl) as [Hl' Hr'].
    split_and!.
    + destruct k; [done|]. by apply tcolor_plug_cons.
    + apply nrr_plug; [done|done|]. by destruct Hv as [[-> ->]|[-> ->]].
    + eapply (bh_plug _ _ n); [|done]. destruct Hb, Hv as [[-> ->]|[-> ->]]; done.
Qed.

(** The environment of the tree once node [a] is gone from the state [s']. *)
Definition env_less (e : env) (a : Z) (io : list Z) (s' : rb_state) : env :=
  mkEnv (rb_heap s') (e_foot e ∖ {[a]}) (e_size e) io.

(** What unhooking [a] does to the rest of memory. *)
Definition unhook_frame (e : env) (s s' : rb_state) : Prop :=
  (∀ b, b ∉ e_foot e → rb_heap s' !! b = rb_heap s !! b) ∧ dom (rb_heap s') = dom (rb_heap s).

(** The successor being the right child itself. *)
Lemma wp_successor_child {A} e s k c l a cy y yr (m : M rb_state A) (Q : A → rb_state → Prop) :
  Rep e s k (T c l a (T cy E y yr)) → l ≠ E →
  (∀ s', Rep (env_less e a (klefts k ++ inorder l ++ (y :: inorder yr) ++ krights k) s') s' (FR c l y :: k) yr →
     unhook_frame e s s' → wp m Q s') →
  wp (_transplant a y ;;
      n ← load a;
      store y (set_left (rb_left n)) ;;
      ny' ← load y;
      store (rb_left ny') (set_parent y) ;;
      n ← load a;
      store y (set_color (rb_color n)) ;; m) Q s.
Proof.
  destruct s as [h0 [rt0 n0]]. intros [Ht Hk Hnd Hf Hfr Hd Hs Hio] Hl0 HQ. simpl in *.
  destruct Ht as (Ha & Hna & Hl & Hy & Hny & _ & HR).
  assert (NoDup (a :: y :: addrs l ++ addrs yr ++ kaddrs k)) as Hnd'
    by (eapply NoDup_perm; [|exact Hnd]; solve_Permutation).
  eapply (wp_splice _ k a y c l yr); [done..|]. intros h rt Ht' Hk' Hh' Hd'. apply HQ.
  - apply Rep_unzip_R. constructor; simpl; [exact Ht'|done| | |done|done|done|].
    + apply NoDup_cons in Hnd' as [_ Hnd']. eapply NoDup_perm; [|exact Hnd']. solve_Permutation.
    + intros b. rewrite elem_of_difference, <-Hf. nodup_atoms Hnd'. set_solver.
    + by list_simplifier.
  - split; [|done]. intros b Hb. apply Hh'. rewrite <-Hf in Hb. set_solver.
Qed.

(** The successor further down: [R0] is the right subtree without it. *)
Lemma wp_successor_deep {A} e s k c l a R0 y ny v (m : Z → M rb_state A) (Q : A → rb_state → Prop) :
  Rep e s k (T c l a R0) → l ≠ E → R0 ≠ E → y ≠ 0 → y ∉ e_foot e →
  rb_heap s !! y = Some ny → rb_left ny = 0 →
  (∀ s', Rep (mkEnv (rb_heap s') ({[y]} ∪ e_foot e ∖ {[a]}) (e_size e)
                 (klefts k ++ inorder l ++ (y :: inorder R0) ++ krights k)) s' k (T c l y R0) →
     (∀ b, b ∉ {[y]} ∪ e_foot e → rb_heap s' !! b = rb_heap s !! b) →
     dom (rb_heap s') = dom (rb_heap s) → wp (m v) Q s') →
  wp (x ← (n ← load a;
           store y (set_right (rb_right n)) ;;
           ny' ← load y;
           store (rb_right ny') (set_parent y) ;;
           mret v);
      _transplant a y ;;
      n ← load a;
      store y (set_left (rb_left n)) ;;
      ny' ← load y;
      store (rb_left ny') (set_parent y) ;;
      n ← load a;
      store y (set_color (rb_color n)) ;; m x) Q s.
Proof.
  destruct s as [h0 [rt0 n0]], ny as [py ly ry cy]. simpl.
  intros [Ht Hk Hnd Hf Hfr Hd Hs Hio] Hl0 HR0 Hy Hyf Hny -> HQ. simpl in *.
  destruct Ht as (Ha & Hna & Hl & HR). rewrite <-Hf in Hyf.
  assert (NoDup (a :: y :: addrs l ++ addrs R0 ++ kaddrs k)) as Hnd'.
  { assert (NoDup (y :: (a :: addrs l ++ addrs R0) ++ kaddrs k)) as Hn by (by constructor).
    eapply NoDup_perm; [|exact Hn]. solve_Permutation. }
  pose proof Hnd' as Hat. nodup_atoms Hat.
  destruct R0 as [|cb bl b br]; [done|]. pose proof HR as (Hb & Hnb & _).
  assert (b ≠ a ∧ b ≠ y ∧ b ∉ addrs l ∧ b ∉ kaddrs k) as (Hba & Hby & Hbl & Hbk).
  { clear -Hnd'. simpl in Hnd'. nodup_atoms Hnd'. set_solver. }
  simpl in Hna. step_load. step_store. step_load. step_store. apply wp_ret.
  eapply (wp_splice _ k a y c l (T cb bl b br)); simpl rb_heap; simpl rt_root;
    [by do 2 (apply repk_insert; [|mem])|done|done|done|look|look| | |done|].
  { by do 2 (apply rep_insert; [|mem]). }
  { eapply rep_reparent; [apply rep_insert; [exact HR|done]|look|].
    simpl in Hnd'. clear -Hnd'. nodup_atoms Hnd'. set_solver. }
  intros h rt Ht' Hk' Hh' Hd'. apply HQ.
  - constructor; [exact Ht'|exact Hk'| | |done|done|done|].
    + apply NoDup_cons in Hnd' as [_ Hnd']. eapply NoDup_perm; [|exact Hnd']. simpl. solve_Permutation.
    + intros x. simpl in Hf |- *. rewrite elem_of_union, elem_of_difference, <-Hf. clear -Hnd'.
      simpl in Hnd'. nodup_atoms Hnd'. set_solver.
    + simpl. by list_simplifier.
  - intros x [Hx1%not_elem_of_singleton Hx2]%not_elem_of_union. rewrite <-Hf in Hx2.
    simpl in *. mem_hyps. rewrite Hh' by mem. rewrite !lookup_insert_ne by congruence. done.
  - simpl in *. rewrite Hd', !dom_insert_lookup_L; [done|eauto|eexists; look].
Qed.

(** A node with two children: its successor, the leftmost node of the right
    subtree, takes its place. *)
Lemma wp_remove_successor e s k c l a r (Q : Z * Z * rb_color_t → rb_state → Prop) :
  Rep e s k (T c l a r) → l ≠ E → r ≠ E →
  (∀ s' k' cy y yr, r = plug k' (T cy E y yr) →
     Rep (env_less e a (klefts k ++ (inorder l ++ inorder r) ++ krights k) s') s' (k' ++ FR c l y :: k) yr →
     unhook_frame e s s' → Q (rootp yr, kpar (k' ++ FR c l y :: k), cy) s') →
  wp (remove_successor a (mkNode (kpar k) (rootp l) (rootp r) c)) Q s.
Proof.
  intros R Hl Hr HQ. unfold remove_successor, rb_fuel. wp_pures. simpl rb_right.
  destruct r as [|cr rl b rr]; [done|]. simpl rootp.
  pose proof (Rep_unzip_R _ _ _ _ _ _ _ R) as R'. eapply wp_leftmost; [exact R'|].
  intros k' cy y yr Hp HkL Ry. destruct (Rep_focus _ _ _ _ _ _ _ Ry) as [Hy0 Hy]. wp_pures.
  eapply wp_load; [exact Hy|]. simpl rb_color; simpl rb_right; simpl rb_parent. simpl rootp.
  assert (inorder (T cr rl b rr) = y :: inorder (plug k' yr)) as Hio.
  { rewrite <-Hp, !inorder_plug, klefts_FL by done. done. }
  destruct k' as [|f k'].
  - simpl in Hp. injection Hp as <- <- <- <-. simpl kpar. rewrite Z.eqb_refl.
    apply wp_bind, wp_ret.
    refine (wp_successor_child _ _ _ _ _ _ _ _ _ _ _ R Hl _). intros s' Rs Hfr. apply wp_ret.
    apply (HQ s' [] cy y yr); [done| |done]. simpl in Rs |- *. by list_simplifier.
  - assert (kpar ((f :: k') ++ FR c l a :: k) ≠ a) as Hne.
    { simpl. pose proof (Rep_nodup _ _ _ _ Ry) as (_ & _ & Hnd)%NoDup_app. rewrite kaddrs_app in Hnd. simpl in Hnd.
      destruct f; simpl in Hnd |- *; apply NoDup_cons in Hnd as [Hnd _]; intros ->; set_solver. }
    apply Z.eqb_neq in Hne as ->. apply wp_bind, wp_bind.
    eapply wp_detach; [exact Ry|by left|]. intros s1 R1 Hy1 Hfr1 Hd1.
    apply Rep_plug, Rep_zip_R in R1. rewrite Hy in Hy1.
    apply wp_bind_inv.
    assert (y ∈ e_foot e ∧ a ∈ e_foot e ∧ y ≠ a) as (Hyf & Haf & Hya).
    { pose proof (Rep_nodup _ _ _ _ Ry) as Hnd. rewrite <-!(Rep_foot _ _ _ _ Ry), kaddrs_app in *.
      simpl in *. apply NoDup_cons in Hnd as [Hnd _]. clear -Hnd. set_solver. }
    refine (wp_successor_deep _ _ _ _ _ _ _ _ _ _ _ _ R1 Hl _ Hy0 _ Hy1 eq_refl _).
    { apply plug_cons_nonempty. } { simpl. clear. set_solver. }
    intros s' Rs Hfr Hd. apply wp_ret.
    replace (kpar ((f :: k') ++ FR c l a :: k)) with (kpar ((f :: k') ++ FR c l y :: k)) by done.
    apply (HQ s' (f :: k') cy y yr); [done| |].
    + apply Rep_plug, Rep_unzip_R. rewrite Hio. unfold env_less.
      simpl e_foot in Rs. simpl e_size in Rs.
      replace (e_foot e ∖ {[a]}) with ({[y]} ∪ e_foot e ∖ {[y]} ∖ {[a]} : gset Z).
      2:{ apply set_eq. intros x. destruct (decide (x = y)); set_solver. }
      by rewrite <-(assoc_L (++)).
    + split; [|congruence]. intros x Hx. rewrite <-Hfr1 by done. apply Hfr. simpl. set_solver.
Qed.

Lemma env_resize e s k t n :
  Rep e s k t →
  Rep (mkEnv (e_h0 e) (e_foot e) n (e_io e)) (mkRb (rb_heap s) (mkTree (rt_root (rb_tree s)) n)) k t.
Proof. intros []. by constructor. Qed.

Section remove.
Context (compare : Z → Z → Z) `{!RbCompare compare}.

(** The end of [rb_remove], once the node is unhooked. *)
Lemma wp_remove_end s l1 a l2 k x c s1 (Q : unit → rb_state → Prop) :
  is_rbtree compare s (l1 ++ a :: l2) →
  Rep (env_less (env_of s (l1 ++ a :: l2)) a (l1 ++ l2) s1) s1 k x →
  unhook_frame (env_of s (l1 ++ a :: l2)) s s1 →
  match c with RB_BLACK => del_inv k x | RB_RED => red_black (plug k x) end →
  (∀ s', is_rbtree compare s' (l1 ++ l2) → rb_frame (l1 ++ a :: l2) s s' → Q tt s') →
  wp (set_size (λ k, u64 (k - 1)) ;;
      if bool_decide (c = RB_BLACK) then _remove_fixup (rootp x) (kpar k) else mret tt) Q s1.
Proof.
  intros Hs R [Hfr Hd] Hb HQ. unfold set_size. wp_pures.
  apply (env_resize _ _ _ _ (u64 (rt_size (rb_tree s1) - 1))) in R as R2.
  set (s2 := mkRb _ _) in *. simpl in R2.
  assert (∀ s' t, Rep (mkEnv (rb_heap s1) (list_to_set (l1 ++ a :: l2) ∖ {[a]})
      (u64 (rt_size (rb_tree s1) - 1)) (l1 ++ l2)) s' [] t → red_black t → Q tt s') as Hend.
  { intros s' t R' Hrb. apply HQ.
    - pose proof (is_sorted _ _ _ Hs) as Hsort. apply (Rep_is_rbtree _ _ _ _ R' Hrb); simpl.
      + rewrite !StronglySorted_app, StronglySorted_cons in *. set_solver.
      + rewrite (Rep_size _ _ _ _ R). simpl. rewrite (is_size _ _ _ Hs), !length_app. simpl. unfold u64.
        rewrite Zminus_mod_idemp_l. f_equal. lia.
    - split; [|rewrite (Rep_dom _ _ _ _ R'); done].
      intros b Hbn. rewrite (Rep_frame _ _ _ _ R'); simpl.
      + apply Hfr. simpl. by rewrite elem_of_list_to_set.
      + rewrite elem_of_difference, elem_of_list_to_set. by intros [? _]. }
  destruct c; simpl.
  - eapply wp_remove_fixup; [exact R2|exact Hb| |exact Hend]. subst s2; simpl.
    refine (Rep_length_out _ _ _ _ [a] R (NoDup_singleton _) _).
    intros b ->%list_elem_of_singleton. split; [|simpl; set_solver].
    rewrite Hd. apply elem_of_dom. destruct (is_rbtree_focus _ _ _ Hs _ _ _ eq_refl)
      as (k0 & c & tl & tr & R0 & _). destruct (Rep_focus _ _ _ _ _ _ _ R0). by eexists.
  - apply wp_ret. eapply Hend; [by apply Rep_whole|done].
Qed.

Lemma wp_rb_remove s l1 a l2 (Q : unit → rb_state → Prop) :
  is_rbtree compare s (l1 ++ a :: l2) →
  (∀ s', is_rbtree compare s' (l1 ++ l2) → rb_frame (l1 ++ a :: l2) s s' → Q tt s') →
  wp (rb_remove a) Q s.
Proof.
  intros Hs HQ. destruct (is_rbtree_focus _ _ _ Hs _ _ _ eq_refl)
    as (k & c & tl & tr & R & Hl1 & Hl2 & Hrb).
  destruct (Rep_focus _ _ _ _ _ _ _ R) as [Ha Hn].
  unfold rb_remove. wp_pures. eapply wp_load; [exact Hn|]. simpl.
  assert (∀ v, (tl = E ∧ v = tr) ∨ (tr = E ∧ v = tl) →
    wp (_transplant a (rootp v)) (λ _ s', wp
      (set_size (λ k, u64 (k - 1)) ;;
       if bool_decide (c = RB_BLACK) then _remove_fixup (rootp v) (kpar k) else mret tt) Q s') s) as Hone.
  { intros v Hv. eapply wp_detach; [exact R|exact Hv|]. intros s1 R1 _ Hfr Hd.
    eapply (wp_remove_end s l1 a l2 k v); [done| |done|by eapply remove_balance|done].
    unfold env_less. rewrite Hl1, Hl2 in R1 |- *.
    destruct Hv as [[-> ->]|[-> ->]]; simpl in *; rewrite ?app_nil_r, <-?app_assoc in *; exact R1. }
  destruct (Z.eqb_spec (rootp tl) 0) as [Htl|Htl].
  { apply rep_rootp with (h := rb_heap s) (p := a) in Htl; [|apply R]. wp_pures.
    eapply wp_mono; [by apply Hone; left|]. intros [] s' H. wp_pures. exact H. }
  destruct (Z.eqb_spec (rootp tr) 0) as [Htr|Htr].
  { apply rep_rootp with (h := rb_heap s) (p := a) in Htr; [|apply R]. wp_pures.
    eapply wp_mono; [by apply Hone; right|]. intros [] s' H. wp_pures. exact H. }
  wp_pures. eapply wp_remove_successor; [exact R|by intros ->|by intros ->|].
  intros s' k' cy y yr -> R' Hfr.
  eapply (wp_remove_end s l1 a l2 (k' ++ FR c tl y :: k) yr); [done| |done| |done].
  - unfold env_less in *. rewrite Hl1, Hl2 in R' |- *. by rewrite <-!app_assoc in *.
  - eapply (remove_balance _ _ E y yr); [|by left]. rewrite plug_app. simpl.
    by eapply red_black_rename.
Qed.
End remove.
