(* ===== verification/RBTreeTheorems.v ===== *)
(** The contract of the red-black tree operations: each refines an operation on
    the sorted list of the nodes, and keeps the tree balanced. *)
From Stdlib Require Import Sorting.Sorted.
From stdpp Require Import sorting.
From S2P Require Import Prelude RBTree RBTreeRep RBTreeInsert RBTreeSpec RBTreeRemove.

(** * Balance bounds the depth *)

Fixpoint height (t : tree) : nat :=
  match t with E => O | T _ l _ r => S (Nat.max (height l) (height r)) end.

Lemma bh_size t n : bh t n → (2 ^ n ≤ S (length (inorder t)))%nat.
Proof.
  revert n; induction t as [|c l IHl a r IHr]; intros n; simpl; [by intros ->|].
  rewrite length_app. simpl. destruct c; [destruct n; [done|]|]; intros [Hl%IHl Hr%IHr]; simpl in *; lia.
Qed.
Lemma bh_height t n :
  bh t n → nrr t → (height t ≤ 2 * n + match tcolor t with RB_RED => 1 | RB_BLACK => 0 end)%nat.
Proof.
  revert n; induction t as [|c l IHl a r IHr]; intros n; simpl; [lia|].
  intros Hb (Hc & Hl & Hr). destruct c; [destruct n; [done|]|]; destruct Hb as [Hlb Hrb];
    apply IHl in Hlb; [|done| |done]; apply IHr in Hrb; try done.
  - destruct (tcolor l), (tcolor r); lia.
  - destruct (Hc eq_refl) as [Hlc Hrc]. rewrite Hlc, Hrc in *. lia.
Qed.

(** A heap represents one tree at a given root. *)
Lemma rep_unique h p p' t t' : rep h p t → rep h p' t' → rootp t = rootp t' → t = t'.
Proof.
  revert p p' t'; induction t as [|c l IHl a r IHr]; intros p p' t' Ht Ht' Heq.
  - symmetry in Heq. by rewrite (rep_rootp _ _ _ Ht' Heq).
  - destruct t' as [|c' l' a' r']; simpl in Heq, Ht, Ht'; subst; [by destruct Ht|].
    destruct Ht as (_ & Hn & Hl & Hr), Ht' as (_ & Hn' & Hl' & Hr').
    rewrite Hn in Hn'. injection Hn' as ? ? ? ->.
    by rewrite (IHl _ _ _ Hl Hl'), (IHr _ _ _ Hr Hr').
Qed.

(** Enough rounds give the result that fewer give. *)
Lemma loop_more {S X A} (f : X → M S (X + A)) k : ∀ n x s r, (k ≤ n)%nat → loop k f x s = Done r → loop n f x s = Done r.
Proof.
  induction k as [|k IH]; intros n x s r Hn Hk; [done|]. destruct n as [|n]; [lia|]. cbn [loop] in *. unfold mbind, M_bind in *.
  destruct (f x s) as [[[y|a] s1]| |]; try done. by eapply IH; [lia|].
Qed.
Lemma loop_next {St X A} (f : X → M St (X + A)) k x y s s1 : f x s = Done (inl y, s1) → loop (S k) f x s = loop k f y s1.
Proof. intros H. cbn [loop]. unfold mbind, M_bind. by rewrite H. Qed.
Lemma loop_stop {St X A} (f : X → M St (X + A)) k x r s s1 : f x s = Done (inr r, s1) → loop (S k) f x s = Done (r, s1).
Proof. intros H. cbn [loop]. unfold mbind, M_bind. by rewrite H. Qed.
(** A loop that goes down the tree by one node a round, without changing it, ends within
    as many rounds as the tree is high, and one that finds the end. *)
Lemma loop_descends {X} (cur : X → Z) (f : X → M rb_state (X + Z)) s :
  (∀ x, cur x = 0 → ∃ r, f x s = Done (inr r, s)) →
  (∀ x n, cur x ≠ 0 → rb_heap s !! cur x = Some n → ∃ o, f x s = Done (o, s) ∧ ∀ y, o = inl y → cur y = rb_left n ∨ cur y = rb_right n) →
  ∀ t p x, rep (rb_heap s) p t → cur x = rootp t → ∃ r, loop (S (height t)) f x s = Done (r, s).
Proof.
  intros Hend Hstep. induction t as [|c tl IHl a tr IHr]; intros p x Ht Hx.
  - destruct (Hend x Hx) as [r Hr]. exists r. by apply (loop_stop f 0).
  - destruct Ht as (Ha & Hn & Hl & Hr). simpl in Hx. subst a. destruct (Hstep x _ Ha Hn) as ([y|r] & Hf & Hy); [|exists r; by apply (loop_stop f)].
    rewrite (loop_next f (height (T c tl (cur x) tr)) _ _ _ _ Hf). destruct (Hy y eq_refl) as [Hc|Hc].
    + destruct (IHl _ y Hl Hc) as [r Hr']. exists r. eapply loop_more; [|exact Hr']. simpl. lia.
    + destruct (IHr _ y Hr Hc) as [r Hr']. exists r. eapply loop_more; [|exact Hr']. simpl. lia.
Qed.
Lemma loop_within {X} (cur : X → Z) (f : X → M rb_state (X + Z)) s t x n r k :
  (∀ x, cur x = 0 → ∃ r, f x s = Done (inr r, s)) →
  (∀ x n, cur x ≠ 0 → rb_heap s !! cur x = Some n → ∃ o, f x s = Done (o, s) ∧ ∀ y, o = inl y → cur y = rb_left n ∨ cur y = rb_right n) →
  rep (rb_heap s) 0 t → cur x = rootp t → loop n f x s = Done r → (height t < k)%nat → loop k f x s = Done r.
Proof.
  intros H1 H2 Ht Hx Hn Hk. destruct (loop_descends cur f s H1 H2 t 0 x Ht Hx) as [r' Hr']. apply (loop_more f _ (k + n)) in Hn; [|lia].
  pose proof (loop_more f (S (height t)) k _ _ _ ltac:(lia) Hr') as Hk'. pose proof (loop_more f (S (height t)) (k + n) _ _ _ ltac:(lia) Hr') as Hkn. congruence.
Qed.

(** * Theorems *)

Section contract.
Context (compare : Z → Z → Z) `{!RbCompare compare}.
Context (s : rb_state) (l : list Z).

(** C1: [rb_insert] returns, and either reports -1, changing nothing, exactly
    when the tree holds a node equal to the new one, or returns 0 and leaves
    a red-black tree with the node at its place in the order, touching no
    memory but the nodes of the tree and the new node. *)
Theorem rb_insert_refines node n :
  is_rbtree compare s l → node ≠ 0 → node ∉ l → rb_heap s !! node = Some n →
  wp (rb_insert compare node) (λ r s',
    (r = -1 ∧ s' = s ∧ ∃ b, b ∈ l ∧ compare node b = 0) ∨
    (r = 0 ∧ (∀ b, b ∈ l → compare node b ≠ 0) ∧
     ∃ l1 l2, l = l1 ++ l2 ∧ is_rbtree compare s' (l1 ++ node :: l2) ∧
              rb_frame (node :: l) s s')) s.
Proof.
  intros Hs Hn0 Hnl Hn. eapply wp_rb_insert; [done..|by left|].
  intros l1 l2 s' -> Hs' Hfr. right. split_and!; [done| |by eauto 10].
  pose proof (is_sorted _ _ _ Hs') as Hsort.
  rewrite StronglySorted_app, StronglySorted_cons, Forall_forall in Hsort.
  destruct Hsort as (H1 & _ & H2 & _).
  intros b [Hb|Hb]%elem_of_app; [|specialize (H2 _ Hb); lia].
  specialize (H1 b node Hb). rewrite cmp_flip in H1. specialize (H1 ltac:(left)). lia.
Qed.

(** C2: [rb_remove] of a node of the tree returns and leaves a red-black tree
    of the other nodes in the same order, touching no other memory. *)
Theorem rb_remove_refines l1 node l2 :
  is_rbtree compare s l → l = l1 ++ node :: l2 →
  wp (rb_remove node) (λ _ s', is_rbtree compare s' (l1 ++ l2) ∧ rb_frame l s s') s.
Proof. intros Hs ->. eapply wp_rb_remove; [done|done|]. by intros. Qed.

(** The three searches return without changing anything, [rb_find] the
    node equal to the key, [rb_lower_bound] the first node not below it and
    [rb_upper_bound] the first node above it, or [NULL] when there is none. *)
Theorem rb_searches_refine key :
  is_rbtree compare s l →
  rb_find compare key s = Done (first_of (λ b, compare key b = 0) l, s) ∧
  rb_lower_bound compare key s = Done (first_of (λ b, compare key b ≤ 0) l, s) ∧
  rb_upper_bound compare key s = Done (first_of (λ b, compare key b < 0) l, s).
Proof.
  intros Hs. split_and!.
  - destruct (proj1 (wp_done (rb_find compare key)
      (λ r s', r = first_of (λ b, compare key b = 0) l ∧ s' = s) s)) as (r & s' & -> & -> & ->); [|done].
    by apply (wp_rb_find compare key s l).
  - destruct (proj1 (wp_done (rb_lower_bound compare key)
      (λ r s', r = first_of (λ b, compare key b ≤ 0) l ∧ s' = s) s)) as (r & s' & -> & -> & ->); [|done].
    by apply (wp_rb_lower_bound compare key s l).
  - destruct (proj1 (wp_done (rb_upper_bound compare key)
      (λ r s', r = first_of (λ b, compare key b < 0) l ∧ s' = s) s)) as (r & s' & -> & -> & ->); [|done].
    by apply (wp_rb_upper_bound compare key s l).
Qed.

(** The traversals follow the sorted order: [rb_first] and [rb_last] are
    its ends, [rb_next] and [rb_prev] the neighbours of a node, [NULL] past
    the ends. *)
Theorem rb_traversals_refine l1 node l2 :
  is_rbtree compare s l → l = l1 ++ node :: l2 →
  wp rb_first (λ r s', r = default 0 (head l) ∧ s' = s) s ∧
  wp rb_last (λ r s', r = default 0 (last l) ∧ s' = s) s ∧
  wp (rb_next node) (λ r s', r = default 0 (head l2) ∧ s' = s) s ∧
  wp (rb_prev node) (λ r s', r = default 0 (last l1) ∧ s' = s) s.
Proof.
  intros Hs Hl. split_and!.
  - by apply (wp_rb_first compare s l).
  - by apply (wp_rb_last compare s l).
  - by eapply (wp_rb_next compare s l).
  - by eapply (wp_rb_prev compare s l).
Qed.

(** The tree is balanced: no path from the root is longer than twice the
    logarithm of the number of nodes plus one. *)
Lemma rb_height_log t :
  is_rbtree compare s l → rep (rb_heap s) 0 t → rt_root (rb_tree s) = rootp t →
  (height t ≤ 2 * Nat.log2 (S (length l)))%nat.
Proof.
  intros [(t' & Ht' & Hr' & (Hc & Hn & n & Hb) & Hio) Hs _] Ht Hr.
  assert (t = t') as -> by (eapply rep_unique; [exact Ht|exact Ht'|congruence]).
  apply bh_height in Hb as Hh; [|done]. rewrite Hc in Hh. apply bh_size in Hb. rewrite Hio in Hb.
  apply Nat.log2_le_mono in Hb. rewrite Nat.log2_pow2 in Hb by lia. lia.
Qed.

(** C33: the searches take logarithmic time: the loop of [rb_find] has found the node
    equal to the key, that of [rb_lower_bound] the first node not below it and that of
    [rb_upper_bound] the first node above it, or that there is none, after at most
    2 log2 (n + 1) + 1 rounds in a tree of n nodes. *)
Theorem rb_search_rounds key k :
  is_rbtree compare s l → (2 * Nat.log2 (S (length l)) < k)%nat →
  loop k (find_round compare key) (rt_root (rb_tree s)) s = Done (first_of (λ b, compare key b = 0) l, s) ∧
  loop k (lower_bound_round compare key) (rt_root (rb_tree s), 0) s = Done (first_of (λ b, compare key b ≤ 0) l, s) ∧
  loop k (upper_bound_round compare key) (rt_root (rb_tree s), 0) s = Done (first_of (λ b, compare key b < 0) l, s).
Proof.
  intros Hs Hk. destruct (is_tree _ _ _ Hs) as (t & Ht & Hroot & _). pose proof (rb_height_log t Hs Ht Hroot) as Hh.
  destruct (rb_searches_refine key Hs) as (H1 & H2 & H3). split_and!.
  - eapply (loop_within (λ c, c) _ s t); [| |done|done|exact H1|lia].
    + intros x Hx. unfold find_round. rewrite Hx. by eexists.
    + intros x n Hx Hn. unfold find_round, load, mbind, M_bind. rewrite (proj2 (Z.eqb_neq _ _) Hx), Hn. destruct (_ <? 0); [|destruct (_ >? 0)]; eexists; (split; [done|]); intros y [= <-]; eauto.
  - eapply (loop_within fst _ s t); [| |done|done|exact H2|lia].
    + intros [x res] Hx. simpl in Hx. unfold lower_bound_round. rewrite Hx. by eexists.
    + intros [x res] n Hx Hn. simpl in Hx, Hn. unfold lower_bound_round, load, mbind, M_bind. rewrite (proj2 (Z.eqb_neq _ _) Hx), Hn. destruct (_ <? 0); [|destruct (_ >? 0)]; eexists; (split; [done|]); intros y [= <-]; eauto.
  - eapply (loop_within fst _ s t); [| |done|done|exact H3|lia].
    + intros [x res] Hx. simpl in Hx. unfold upper_bound_round. rewrite Hx. by eexists.
    + intros [x res] n Hx Hn. simpl in Hx, Hn. unfold upper_bound_round, load, mbind, M_bind. rewrite (proj2 (Z.eqb_neq _ _) Hx), Hn. destruct (_ <? 0); eexists; (split; [done|]); intros y [= <-]; eauto.
Qed.
End contract.

(** * Witnesses: a tree of two nodes *)

Definition ex_key (a : Z) : Z := a.
Definition ex_cmp (a b : Z) : Z := Z.sgn (ex_key a - ex_key b).
#[local] Instance ex_cmp_ok : RbCompare ex_cmp := RbCompare_key ex_key.
Definition ex_node : rb_node_t := mkNode 0 0 0 RB_BLACK.
Definition ex_state : rb_state :=
  mkRb (<[8 := mkNode 0 0 16 RB_BLACK]> (<[16 := mkNode 8 0 0 RB_RED]> {[24 := ex_node]})) (mkTree 8 2).

Lemma ex_is_rbtree : is_rbtree ex_cmp ex_state [8; 16].
Proof.
  constructor.
  - exists (T RB_BLACK E 8 (T RB_RED E 16 E)). split; [by repeat split|]. split; [done|].
    split; [|done]. split; [done|]. split; [by repeat split|]. by exists 1%nat.
  - repeat constructor.
  - done.
Qed.

Lemma rb_insert_refines_witness :
  wp (rb_insert ex_cmp 24) (λ r s',
      (r = -1 ∧ s' = ex_state ∧ ∃ b, b ∈ [8; 16] ∧ ex_cmp 24 b = 0) ∨
      (r = 0 ∧ (∀ b, b ∈ [8; 16] → ex_cmp 24 b ≠ 0) ∧
       ∃ l1 l2, [8; 16] = l1 ++ l2 ∧ is_rbtree ex_cmp s' (l1 ++ 24 :: l2) ∧
                rb_frame (24 :: [8; 16]) ex_state s')) ex_state.
Proof.
  apply (rb_insert_refines ex_cmp ex_state [8; 16] 24 ex_node ex_is_rbtree); [done|set_solver|reflexivity].
Defined.
Lemma rb_remove_refines_witness :
  wp (rb_remove 8) (λ _ s', is_rbtree ex_cmp s' ([] ++ [16]) ∧ rb_frame [8; 16] ex_state s') ex_state.
Proof. apply (rb_remove_refines ex_cmp ex_state [8; 16] [] 8 [16] ex_is_rbtree). reflexivity. Defined.
Lemma rb_searches_refine_witness :
  rb_find ex_cmp 16 ex_state = Done (16, ex_state) ∧
  rb_lower_bound ex_cmp 9 ex_state = Done (16, ex_state) ∧
  rb_upper_bound ex_cmp 16 ex_state = Done (0, ex_state).
Proof.
  split_and!.
  - apply (rb_searches_refine ex_cmp ex_state [8; 16] 16 ex_is_rbtree).
  - apply (rb_searches_refine ex_cmp ex_state [8; 16] 9 ex_is_rbtree).
  - apply (rb_searches_refine ex_cmp ex_state [8; 16] 16 ex_is_rbtree).
Defined.
Lemma rb_traversals_refine_witness :
  wp (rb_next 8) (λ r s', r = 16 ∧ s' = ex_state) ex_state ∧
  wp (rb_prev 8) (λ r s', r = 0 ∧ s' = ex_state) ex_state.
Proof.
  destruct (rb_traversals_refine ex_cmp ex_state [8; 16] [] 8 [16] ex_is_rbtree eq_refl)
    as (_ & _ & H1 & H2). split; [exact H1|exact H2].
Defined.
Lemma rb_search_rounds_witness :
  loop 3 (find_round ex_cmp 16) 8 ex_state = Done (16, ex_state) ∧ loop 3 (upper_bound_round ex_cmp 8) (8, 0) ex_state = Done (16, ex_state).
Proof.
  split.
  - apply (rb_search_rounds ex_cmp ex_state [8; 16] 16 3 ex_is_rbtree). vm_compute. lia.
  - apply (rb_search_rounds ex_cmp ex_state [8; 16] 8 3 ex_is_rbtree). vm_compute. lia.
Defined.
