(* ===== verification/Sync.v ===== *)
(** Spinlocks and semaphores: [src/kernel/src/util/spinlock.c] and
    [src/kernel/src/util/semaphore.c].

    Each operation is modelled twice: as the function a single CPU runs with
    nobody interfering, which the other components call, and as the sequence
    of its shared-memory accesses in a system of CPUs whose steps interleave.
    The messages the code logs are not modelled. *)
From S2P Require Import Prelude.

(** * Spinlocks *)

(** [spinlock_t]; its name is only printed. *)
Record spinlock_t := mkLock { locked : Z; owner : Z; irq_lock : Z; rflags : Z }.

Definition SPINLOCK_INIT : spinlock_t := mkLock 0 (-1) 0 0.
Definition SPINLOCK_IRQ_INIT : spinlock_t := mkLock 0 (-1) 1 0.

(** The interrupt flag of [rflags]; [_cli] clears it. *)
Definition RFLAGS_IF : Z := 2 ^ 9.
Definition cli (flags : Z) : Z := Z.land flags (not64 RFLAGS_IF).

(** ** Run by one CPU, [me] *)

(** The state: the lock and the flags register of the CPU. A lock that is held
    makes [spinlock_acquire] spin for ever, since nobody else runs. *)
Definition spinlock_acquire (me : Z) : M (spinlock_t * Z) unit :=
  lk ← gets fst;
  (if irq_lock lk =? 0 then mret tt
   else modify (λ '(lk, fl), (mkLock (locked lk) (owner lk) (irq_lock lk) fl, cli fl))) ;;
  lk ← gets fst;
  if locked lk =? 0
  then modify (λ '(lk, fl), (mkLock 1 me (irq_lock lk) (rflags lk), fl))
  else hang.

Definition spinlock_release (me : Z) : M (spinlock_t * Z) unit :=
  modify (λ '(lk, fl), (mkLock 0 (-1) (irq_lock lk) (rflags lk), fl)) ;;
  lk ← gets fst;
  if irq_lock lk =? 0 then mret tt else modify (λ '(lk, _), (lk, rflags lk)).

(** The same for the locks that are not IRQ locks, whose operations leave the
    flags register alone: the form the other components use. *)
Definition lock_acquire (me : Z) : M spinlock_t unit :=
  zoom (λ lk, (lk, 0)) (λ p _, p.1) (spinlock_acquire me).
Definition lock_release (me : Z) : M spinlock_t unit :=
  zoom (λ lk, (lk, 0)) (λ p _, p.1) (spinlock_release me).

(** A lock that is free, and the same lock held by [me]. *)
Definition unlocked : spinlock_t := mkLock 0 (-1) 0 0.
Definition held (me : Z) : spinlock_t := mkLock 1 me 0 0.

Lemma wp_lock_acquire me (Q : unit → spinlock_t → Prop) :
  Q tt (held me) → wp (lock_acquire me) Q unlocked.
Proof. done. Qed.
Lemma wp_lock_release me (Q : unit → spinlock_t → Prop) :
  Q tt unlocked → wp (lock_release me) Q (held me).
Proof. done. Qed.
Lemma lock_acquire_held me me' : lock_acquire me (held me') = Hang.
Proof. done. Qed.

(** ** CPUs interleaving *)

Module Spin.

(** Where a CPU is in the code. [Won] is between its successful
    compare-and-exchange and the store of [owner]; [Leaving] between the two
    stores of the release; [Restoring] before the flags are restored. *)
Inductive pc := Out | Spinning | Won | Inside | Leaving | Restoring.
#[global] Instance pc_eq_dec : EqDecision pc.
Proof. solve_decision. Defined.

Record sys := mkSys { lk : spinlock_t; pcs : Z → pc; flags : Z → Z }.

Definition upd {A} (f : Z → A) (c : Z) (v : A) : Z → A := λ c', if decide (c' = c) then v else f c'.

Definition set_locked (v : Z) (l : spinlock_t) := mkLock v (owner l) (irq_lock l) (rflags l).
Definition set_owner (v : Z) (l : spinlock_t) := mkLock (locked l) v (irq_lock l) (rflags l).
Definition set_rflags (v : Z) (l : spinlock_t) := mkLock (locked l) (owner l) (irq_lock l) v.

(** The next shared-memory access of CPU [c]: the call of the acquire (where
    the flags are saved into the lock), each try of the loop, the store of
    [owner], the call of the release, the atomic store, the restore. *)
Definition step (c : Z) (s : sys) : sys :=
  match pcs s c with
  | Out => if irq_lock (lk s) =? 0 then mkSys (lk s) (upd (pcs s) c Spinning) (flags s)
           else mkSys (set_rflags (flags s c) (lk s)) (upd (pcs s) c Spinning)
                  (upd (flags s) c (cli (flags s c)))
  | Spinning => if locked (lk s) =? 0
                then mkSys (set_locked 1 (lk s)) (upd (pcs s) c Won) (flags s)
                else s
  | Won => mkSys (set_owner c (lk s)) (upd (pcs s) c Inside) (flags s)
  | Inside => mkSys (set_owner (-1) (lk s)) (upd (pcs s) c Leaving) (flags s)
  | Leaving => mkSys (set_locked 0 (lk s)) (upd (pcs s) c Restoring) (flags s)
  | Restoring => if irq_lock (lk s) =? 0 then mkSys (lk s) (upd (pcs s) c Out) (flags s)
                 else mkSys (lk s) (upd (pcs s) c Out) (upd (flags s) c (rflags (lk s)))
  end.

(** Any interleaving of the CPUs from a free lock. *)
Inductive reachable (s0 : sys) : sys → Prop :=
  | reach_init : reachable s0 s0
  | reach_step s c : reachable s0 s → reachable s0 (step c s).

Definition initial (l : spinlock_t) (fl : Z → Z) : sys := mkSys l (λ _, Out) fl.

Definition holds (p : pc) : bool :=
  match p with Won | Inside | Leaving => true | _ => false end.

(** [locked] says exactly whether some CPU holds the lock, and one CPU at most
    does; a CPU inside is the owner. *)
Record inv (s : sys) : Prop := mkInv {
  inv_excl : ∀ c d, holds (pcs s c) = true → holds (pcs s d) = true → c = d;
  inv_free : locked (lk s) = 0 → ∀ c, holds (pcs s c) = false;
  inv_owner : ∀ c, pcs s c = Inside → owner (lk s) = c;
}.

Lemma upd_eq {A} (f : Z → A) c v : upd f c v c = v.
Proof. unfold upd. by rewrite decide_True. Qed.
Lemma upd_ne {A} (f : Z → A) c d v : c ≠ d → upd f c v d = f d.
Proof. intros. unfold upd. by rewrite decide_False by congruence. Qed.


(** A step that changes neither who holds the lock nor [locked]. *)
Lemma inv_same s s' :
  inv s → (∀ d, holds (pcs s' d) = holds (pcs s d)) → locked (lk s') = locked (lk s) →
  (∀ d, pcs s' d = Inside → owner (lk s') = d) → inv s'.
Proof.
  intros [He Hf Ho] Hh Hl Ho'. constructor; [|rewrite Hl|done].
  - intros c d. rewrite !Hh. apply He.
  - intros Hz d. rewrite Hh. by apply Hf.
Qed.

Lemma holds_other s c p q d :
  pcs s c = p → holds q = holds p → holds (upd (pcs s) c q d) = holds (pcs s d).
Proof. intros <- Hq. unfold upd. by case_decide; subst. Qed.

Lemma inside_other s c q d :
  inv s → holds (pcs s c) = true → q ≠ Inside → upd (pcs s) c q d ≠ Inside.
Proof.
  intros [He _ _] Hc Hq. unfold upd. case_decide; [done|]. intros Hd.
  assert (d = c) by (apply He; [by rewrite Hd|done]). done.
Qed.

Lemma spin_inv_step s c : inv s → inv (step c s).
Proof.
  intros I. pose proof I as [He Hf Ho]. unfold step. destruct (pcs s c) eqn:Hpc.
  - assert (∀ l fl, locked l = locked (lk s) → owner l = owner (lk s) →
      inv (mkSys l (upd (pcs s) c Spinning) fl)) as H.
    { intros l fl Hl Hw. eapply inv_same; [done|intros d; by eapply holds_other|done|].
      simpl. rewrite Hw. intros d. unfold upd. case_decide; [done|]. apply Ho. }
    case_match; by apply H.
  - case_match eqn:Hl; [|done]. apply Z.eqb_eq in Hl. constructor; simpl.
    + intros a b. unfold upd. destruct (decide (a = c)), (decide (b = c)); subst; simpl; rewrite ?Hf by done; done.
    + done.
    + intros d. unfold upd. case_decide; [done|]. apply Ho.
  - eapply inv_same; [done|intros d; by eapply holds_other|done|]. simpl.
    intros d. unfold upd. case_decide; [done|]. intros Hd.
    apply He; [by rewrite Hpc|by rewrite Hd].
  - eapply inv_same; [done|intros d; by eapply holds_other|done|]. simpl.
    intros d Hd. exfalso. eapply inside_other in Hd; [done|done|by rewrite Hpc|done].
  - assert (∀ d, holds (upd (pcs s) c Restoring d) = false) as Hn.
    { intros d. unfold upd. case_decide as Hd; [done|]. destruct (holds (pcs s d)) eqn:Hh; [|done].
      exfalso. apply Hd, He; [done|by rewrite Hpc]. }
    constructor; simpl; [intros a b; by rewrite Hn|done|].
    intros d Hd. specialize (Hn d). by rewrite Hd in Hn.
  - assert (∀ l fl, locked l = locked (lk s) → owner l = owner (lk s) →
      inv (mkSys l (upd (pcs s) c Out) fl)) as H.
    { intros l fl Hl Hw. eapply inv_same; [done|intros d; by eapply holds_other|done|].
      simpl. rewrite Hw. intros d. unfold upd. case_decide; [done|]. apply Ho. }
    case_match; by apply H.
Qed.

Lemma inv_initial l fl : inv (initial l fl).
Proof. by constructor. Qed.

Lemma spin_reachable_inv s0 s : inv s0 → reachable s0 s → inv s.
Proof. intros I0. induction 1; [done|]. by apply spin_inv_step. Qed.

(** The steps of one CPU running alone. *)
Fixpoint run (cs : list Z) (s : sys) : sys :=
  match cs with [] => s | c :: cs => run cs (step c s) end.

Lemma reachable_run s0 cs : reachable s0 (run cs s0).
Proof.
  assert (∀ s, reachable s0 s → reachable s0 (run cs s)) as H; [|apply H; constructor].
  induction cs as [|c cs IH]; intros s Hs; simpl; [done|]. apply IH. by constructor.
Qed.

(** C15: whatever the interleaving, no two CPUs hold a spinlock at the same time,
    a CPU inside its critical section is the recorded owner, and a free lock is
    held by nobody. *)
Theorem spinlock_mutual_exclusion l fl s :
  reachable (initial l fl) s →
  (∀ c d, holds (pcs s c) = true → holds (pcs s d) = true → c = d) ∧
  (∀ c, pcs s c = Inside → owner (lk s) = c) ∧
  (locked (lk s) = 0 → ∀ c, holds (pcs s c) = false).
Proof.
  intros H. destruct (spin_reachable_inv _ _ (inv_initial l fl) H). done.
Qed.

Lemma spinlock_mutual_exclusion_witness :
  let s := run [0; 1; 0; 1; 0] (initial SPINLOCK_INIT (λ _, 0)) in
  pcs s 0 = Inside ∧ pcs s 1 = Spinning ∧ owner (lk s) = 0.
Proof.
  split; [reflexivity|]. split; [reflexivity|].
  apply (spinlock_mutual_exclusion SPINLOCK_INIT (λ _, 0) _ (reachable_run _ [0; 1; 0; 1; 0])).
  reflexivity.
Defined.

(** A CPU that runs the acquire, or the release, alone. *)
Lemma run_acquire c l ps fl :
  ps c = Out → locked l = 0 →
  run [c; c; c] (mkSys l ps fl) =
    mkSys (mkLock 1 c (irq_lock l) (if irq_lock l =? 0 then rflags l else fl c))
      (upd (upd (upd ps c Spinning) c Won) c Inside)
      (if irq_lock l =? 0 then fl else upd fl c (cli (fl c))).
Proof.
  intros Hc Hl. destruct l as [ld ow irq rf]; simpl in *; subst.
  unfold step at 3; simpl. rewrite Hc. destruct (irq =? 0);
    (unfold step at 2; simpl; rewrite upd_eq; simpl; unfold step; simpl; by rewrite upd_eq).
Qed.
Lemma run_release c l ps fl :
  ps c = Inside →
  run [c; c; c] (mkSys l ps fl) =
    mkSys (mkLock 0 (-1) (irq_lock l) (rflags l))
      (upd (upd (upd ps c Leaving) c Restoring) c Out)
      (if irq_lock l =? 0 then fl else upd fl c (rflags l)).
Proof.
  intros Hc. destruct l as [ld ow irq rf]; simpl in *.
  unfold step at 3; simpl. rewrite Hc. unfold step at 2; simpl; rewrite upd_eq; simpl.
  unfold step; simpl. rewrite upd_eq. simpl. by destruct (irq =? 0).
Qed.

(** the steps of a CPU that runs the acquire and the release with nobody
    interfering are the functions the other components call: they take a free
    lock, restore it and the flags. *)
Theorem spinlock_sequential l fl c :
  locked l = 0 → owner l = -1 →
  let s := initial l fl in
  let s1 := run [c; c; c] s in
  let s2 := run [c; c; c] s1 in
  spinlock_acquire c (l, fl c) = Done (tt, (lk s1, flags s1 c)) ∧ pcs s1 c = Inside ∧
  spinlock_release c (lk s1, flags s1 c) = Done (tt, (lk s2, flags s2 c)) ∧ pcs s2 c = Out ∧
  locked (lk s2) = 0 ∧ owner (lk s2) = -1 ∧ flags s2 c = fl c.
Proof.
  intros Hl Ho s s1 s2. destruct l as [ld ow irq rf]; simpl in Hl, Ho; subst ld ow.
  assert (s1 = _) as Hs1 by (apply run_acquire; done). clearbody s1. subst s1.
  assert (s2 = _) as Hs2 by (apply run_release; simpl; by rewrite upd_eq). clearbody s2. subst s2.
  unfold spinlock_acquire, spinlock_release, mbind, M_bind, gets, modify, mret, M_ret. simpl.
  destruct (irq =? 0) eqn:Hirq; simpl; rewrite ?Hirq, ?upd_eq; simpl; rewrite ?upd_eq; done.
Qed.

Lemma spinlock_sequential_witness :
  spinlock_acquire 3 (SPINLOCK_IRQ_INIT, 514) =
    Done (tt, (lk (run [3; 3; 3] (initial SPINLOCK_IRQ_INIT (λ _, 514))),
               flags (run [3; 3; 3] (initial SPINLOCK_IRQ_INIT (λ _, 514))) 3)).
Proof. apply (spinlock_sequential SPINLOCK_IRQ_INIT (λ _, 514) 3); reflexivity. Defined.

(** The flags of an IRQ lock are saved before the lock is taken, so a CPU
    that starts to wait overwrites what the holder saved: there is an
    interleaving after which the first CPU, which had interrupts enabled, is
    out of the critical section with interrupts disabled. *)
Theorem spinlock_irq_flags_clobbered :
  let s := run [0; 0; 0; 1; 0; 0; 0]
             (initial SPINLOCK_IRQ_INIT (λ c, if c =? 0 then RFLAGS_IF else 0)) in
  reachable (initial SPINLOCK_IRQ_INIT (λ c, if c =? 0 then RFLAGS_IF else 0)) s ∧
  pcs s 0 = Out ∧ flag (flags s 0) RFLAGS_IF = false.
Proof. split; [apply reachable_run|]. split; reflexivity. Qed.
End Spin.

(** * Semaphores *)

Module Sem.

(** [semaphore_t] is its [int32_t] value. *)
Definition semaphore_init (count : Z) : M Z unit :=
  let count := if count <? 0 then 0 else count in modify (λ _, count).

(** Run by one CPU with nobody interfering: the compare-and-exchange succeeds,
    and waiting for a value that is not positive never ends. *)
Definition semaphore_wait : M Z unit :=
  old ← gets (λ v, v);
  if old <=? 0 then hang else modify (λ _, i32 (old - 1)).
Definition semaphore_signal : M Z unit := modify (λ v, i32 (v + 1)).
Definition semaphore_try_wait : M Z bool :=
  old ← gets (λ v, v);
  if old >? 0 then modify (λ _, i32 (old - 1)) ;; mret true else mret false.

(** CPUs interleaving: [Loaded old] is between the load that saw a positive
    [old] and the compare-and-exchange. The counters record the calls of
    [semaphore_signal] and the waits that got through. *)
Inductive pc := Idle | Loaded (old : Z).
Record sys := mkSys { value : Z; pcs : Z → pc; signals : Z; taken : Z }.

Inductive step : sys → sys → Prop :=
  | step_spin s c : pcs s c = Idle → value s ≤ 0 → step s s
  | step_load s c : pcs s c = Idle → 0 < value s →
      step s (mkSys (value s) (Spin.upd (pcs s) c (Loaded (value s))) (signals s) (taken s))
  | step_cas_ok s c old : pcs s c = Loaded old → value s = old →
      step s (mkSys (i32 (old - 1)) (Spin.upd (pcs s) c Idle) (signals s) (taken s + 1))
  | step_cas_fail s c old : pcs s c = Loaded old → value s ≠ old →
      step s (mkSys (value s) (Spin.upd (pcs s) c Idle) (signals s) (taken s))
  | step_signal s : step s (mkSys (i32 (value s + 1)) (pcs s) (signals s + 1) (taken s)).

Definition initial (count : Z) : sys :=
  mkSys (if count <? 0 then 0 else count) (λ _, Idle) 0 0.

Inductive reachable (s0 : sys) : sys → Prop :=
  | reach_init : reachable s0 s0
  | reach_step s s' : reachable s0 s → step s s' → reachable s0 s'.

Lemma signals_mono s s' : step s s' → signals s ≤ signals s'.
Proof. destruct 1; simpl; lia. Qed.

(** What every step keeps while the signals stay in range of an [int32_t]. *)
Record inv (count : Z) (s : sys) : Prop := mkInv {
  inv_val : value s = count + signals s - taken s;
  inv_nonneg : 0 ≤ value s;
  inv_taken : 0 ≤ taken s;
  inv_pos : ∀ c old, pcs s c = Loaded old → 0 < old;
}.

Lemma sem_inv_step count s s' :
  count + signals s' < 2 ^ 31 → inv count s → step s s' → inv count s'.
Proof.
  intros Hlt [Hv Hn Ht Hp]. destruct 1 as [s c Hc Hle|s c Hc Hpos|s c old Hc Heq|s c old Hc Hne|s];
    simpl in *; constructor; simpl; try done; try lia.
  - intros d o. unfold Spin.upd. case_decide; [intros [= <-]; done|apply Hp].
  - rewrite i32_id; [lia|]. specialize (Hp _ _ Hc). lia.
  - rewrite i32_id; specialize (Hp _ _ Hc); lia.
  - intros d o. unfold Spin.upd. case_decide; [done|apply Hp].
  - intros d o. unfold Spin.upd. case_decide; [done|apply Hp].
  - rewrite i32_id; lia.
  - rewrite i32_id; lia.
Qed.

Lemma sem_reachable_inv count s0 s :
  inv count s0 → count + signals s < 2 ^ 31 → reachable s0 s → inv count s.
Proof.
  intros I0 Hlt. induction 1 as [|s s' _ IH Hst]; [done|].
  eapply sem_inv_step; [done| |done]. apply IH. pose proof (signals_mono _ _ Hst). lia.
Qed.

(** C34: however the CPUs interleave, the value of a semaphore is what it started
    with plus the signals minus the waits that got through, and is never
    negative: no more waits get through than there were permits. *)
Theorem semaphore_permits count s :
  0 ≤ count → reachable (initial count) s → count + signals s < 2 ^ 31 →
  value s = count + signals s - taken s ∧ taken s ≤ count + signals s.
Proof.
  intros Hc Hr Hlt.
  assert (inv count (initial count)) as I0.
  { unfold initial. rewrite (proj2 (Z.ltb_ge _ _)) by done. constructor; simpl; try done; lia. }
  destruct (sem_reachable_inv count _ _ I0 Hlt Hr). lia.
Qed.

Lemma semaphore_permits_witness :
  let s := mkSys (i32 (1 - 1)) (Spin.upd (Spin.upd (λ _, Idle) 0 (Loaded 1)) 0 Idle) 0 1 in
  reachable (initial 1) s ∧ value s = 1 + 0 - 1 ∧ taken s ≤ 1 + 0.
Proof.
  intros s.
  assert (reachable (initial 1) s) as Hr.
  { eapply reach_step; [eapply reach_step; [apply reach_init|]|].
    - apply (step_load (initial 1) 0); [reflexivity|]. simpl. lia.
    - apply (step_cas_ok (mkSys 1 (Spin.upd (λ _, Idle) 0 (Loaded 1)) 0 0) 0 1); reflexivity. }
  split; [exact Hr|]. apply (semaphore_permits 1 s); [lia|exact Hr|]. simpl. lia.
Defined.

(** Run alone, [semaphore_try_wait] takes a permit exactly when there is
    one, where [semaphore_wait] would return, and [semaphore_signal] gives it
    back. *)
Theorem semaphore_sequential v :
  - 2 ^ 31 ≤ v < 2 ^ 31 →
  semaphore_try_wait v = Done (bool_decide (0 < v), if bool_decide (0 < v) then v - 1 else v) ∧
  semaphore_wait v = (if bool_decide (0 < v) then Done (tt, v - 1) else Hang) ∧
  (0 < v → semaphore_signal (v - 1) = Done (tt, v)).
Proof.
  intros Hv. unfold semaphore_try_wait, semaphore_wait, semaphore_signal, mbind, M_bind, gets, modify.
  case_bool_decide as Hp; (split_and!; [| |intros ?]).
  - rewrite (proj2 (Z.gtb_lt _ _)) by lia. simpl. by rewrite i32_id by lia.
  - rewrite (proj2 (Z.leb_gt _ _)) by lia. by rewrite i32_id by lia.
  - replace (v - 1 + 1) with v by lia. by rewrite i32_id by lia.
  - rewrite Z.gtb_ltb, (proj2 (Z.ltb_ge _ _)) by lia. done.
  - rewrite (proj2 (Z.leb_le _ _)) by lia. done.
  - lia.
Qed.
Lemma semaphore_sequential_witness : semaphore_try_wait 3 = Done (true, 2).
Proof. apply (semaphore_sequential 3). lia. Defined.
End Sem.
