(* ===== verification/DList.v ===== *)
(** Doubly linked lists threaded through records of a heap, as the free list of
    pages, the run queues and the wait queues are. A list is given by the two
    pointer fields as partial functions of the address. *)
From S2P Require Import Prelude.

(** [dseg nx pv p l q]: the nodes [l] are linked in this order; the first one's
    [prev] is [p] and the last one's [next] is [q]. *)
Fixpoint dseg (nx pv : Z → option Z) (p : Z) (l : list Z) (q : Z) : Prop :=
  match l with
  | [] => True
  | a :: l => a ≠ 0 ∧ nx a = Some (default q (head l)) ∧ pv a = Some p ∧ dseg nx pv a l q
  end.

(** A whole list: [first] points at its head, and the ends are [NULL]. *)
Definition dlist (nx pv : Z → option Z) (first : Z) (l : list Z) : Prop :=
  first = default 0 (head l) ∧ NoDup l ∧ dseg nx pv 0 l 0.

Section dseg.
Context (nx pv : Z → option Z).

Lemma dseg_frame nx' pv' p l q :
  dseg nx pv p l q → (∀ b, b ∈ l → nx' b = nx b ∧ pv' b = pv b) → dseg nx' pv' p l q.
Proof.
  revert p; induction l as [|a l IH]; intros p; simpl; [done|].
  intros (? & ? & ? & ?) Hf. destruct (Hf a) as [-> ->]; [set_solver|].
  split_and!; [done..|]. apply IH; [done|]. intros; apply Hf; set_solver.
Qed.

Lemma dseg_app p l1 l2 q :
  dseg nx pv p (l1 ++ l2) q ↔
  dseg nx pv p l1 (default q (head l2)) ∧ dseg nx pv (default p (last l1)) l2 q.
Proof.
  revert p; induction l1 as [|a l1 IH]; intros p; simpl; [tauto|].
  rewrite IH. destruct l1; simpl; [tauto|].
  destruct (last (z :: l1)) eqn:Hl; [simpl; tauto|]. by apply last_None in Hl.
Qed.

Lemma dseg_nonzero p l q : dseg nx pv p l q → 0 ∉ l.
Proof.
  revert p; induction l as [|a l IH]; intros p; simpl; [set_solver|].
  intros (? & _ & _ & ?%IH). set_solver.
Qed.

Lemma dseg_mid p l1 a l2 q :
  dseg nx pv p (l1 ++ a :: l2) q →
  a ≠ 0 ∧ nx a = Some (default q (head l2)) ∧ pv a = Some (default p (last l1)).
Proof. rewrite dseg_app. simpl. tauto. Qed.

Lemma dseg_in p l q a : dseg nx pv p l q → a ∈ l → is_Some (nx a) ∧ is_Some (pv a).
Proof.
  intros H (l1 & l2 & ->)%list_elem_of_split.
  apply dseg_mid in H as (_ & -> & ->). eauto.
Qed.
End dseg.

(** Unlinking [a]: the node before it gets its [next], the node after it its
    [prev]. *)
Lemma dseg_remove nx pv nx' pv' p l1 a l2 q :
  dseg nx pv p (l1 ++ a :: l2) q → NoDup (l1 ++ a :: l2) →
  (∀ b, b ∈ l1 ++ l2 → nx' b = if decide (last l1 = Some b) then Some (default q (head l2)) else nx b) →
  (∀ b, b ∈ l1 ++ l2 → pv' b = if decide (head l2 = Some b) then Some (default p (last l1)) else pv b) →
  dseg nx' pv' p (l1 ++ l2) q.
Proof.
  intros H Hnd Hnx Hpv. rewrite dseg_app in H. destruct H as [H1 H2]. simpl in H2.
  apply NoDup_app in Hnd as (Hnd1 & Hd & [Ha Hnd2]%NoDup_cons). apply dseg_app. split.
  - clear H2. destruct (last l1) as [x|] eqn:Hl; [|apply last_None in Hl; by subst].
    apply last_Some in Hl as [l1' ->]. rewrite dseg_app in H1 |- *. simpl in *.
    destruct H1 as (H1 & ? & _ & Hp & _). apply NoDup_app in Hnd1 as (_ & Hx & _).
    split_and!; [|done| | |done].
    + eapply dseg_frame; [exact H1|]. intros b Hb. split.
      * rewrite Hnx by set_solver. rewrite decide_False; [done|]. intros [= ->]. set_solver.
      * rewrite Hpv by set_solver. rewrite decide_False; [done|].
        intros Hh. destruct l2; [done|]. simplify_eq/=. set_solver.
    + rewrite Hnx by set_solver. by rewrite decide_True.
    + rewrite Hpv by set_solver. rewrite decide_False; [done|].
      intros Hh. destruct l2; [done|]. simplify_eq/=. set_solver.
  - clear H1. destruct l2 as [|x l2]; [done|]. destruct H2 as (_ & _ & _ & ? & Hx & _ & H2).
    apply NoDup_cons in Hnd2 as [Hx2 Hnd2]. simpl.
    assert (∀ b, b ∈ x :: l2 → last l1 ≠ Some b) as Hlast.
    { intros b Hb [l1' ->]%last_Some. set_solver. }
    split_and!; [done| | |].
    + rewrite Hnx by set_solver. rewrite decide_False; [done|]. apply Hlast. set_solver.
    + rewrite Hpv by set_solver. by rewrite decide_True.
    + eapply dseg_frame; [exact H2|]. intros b Hb. split.
      * rewrite Hnx by set_solver. rewrite decide_False; [done|]. apply Hlast. set_solver.
      * rewrite Hpv by set_solver. rewrite decide_False; [done|]. intros [= ->]. done.
Qed.

(** Pushing [a] at the front. *)
Lemma dlist_push nx pv nx' pv' first l a :
  dlist nx pv first l → a ∉ l → a ≠ 0 → nx' a = Some first → pv' a = Some 0 →
  (∀ b, b ∈ l → nx' b = nx b ∧ pv' b = if decide (head l = Some b) then Some a else pv b) →
  dlist nx' pv' a (a :: l).
Proof.
  intros (-> & Hnd & H) Ha Ha0 Hna Hpa Hb. split_and!; [done|by constructor|]. simpl.
  split_and!; [done..|]. destruct l as [|x l]; [done|]. simpl in *.
  apply NoDup_cons in Hnd as [Hx _]. destruct H as (? & Hnx & Hpx & H).
  destruct (Hb x) as [-> ->]; [set_solver|]. rewrite decide_True by done.
  split_and!; [done..|]. eapply dseg_frame; [exact H|]. intros b Hb'.
  destruct (Hb b) as [-> ->]; [set_solver|]. rewrite decide_False by (intros [= ->]; done). done.
Qed.

(** Appending [a] at the end. *)
Lemma dseg_snoc nx pv nx' pv' p l a :
  dseg nx pv p l 0 → NoDup l → a ∉ l → a ≠ 0 → nx' a = Some 0 → pv' a = Some (default p (last l)) →
  (∀ b, b ∈ l → pv' b = pv b ∧ nx' b = if decide (last l = Some b) then Some a else nx b) →
  dseg nx' pv' p (l ++ [a]) 0.
Proof.
  intros H Hnd Ha Ha0 Hna Hpa Hb. apply dseg_app. simpl. split; [|done].
  destruct (last l) as [x|] eqn:Hl; [|apply last_None in Hl; by subst].
  apply last_Some in Hl as [l' ->]. rewrite dseg_app in H |- *. simpl in *.
  destruct H as (H & ? & Hnx & Hpx & _). apply NoDup_app in Hnd as (_ & Hx & _). split_and!; [| | | |done].
  - eapply dseg_frame; [exact H|]. intros b Hb'. destruct (Hb b) as [-> ->]; [set_solver|].
    rewrite decide_False; [done|]. intros [= ->]. set_solver.
  - done.
  - destruct (Hb x) as [_ ->]; [set_solver|]. by rewrite decide_True.
  - destruct (Hb x) as [-> _]; [set_solver|]. done.
Qed.

(** * Lists threaded through a map of records *)

(** The link fields of a record type. *)
Class Links (N : Type) := {
  l_next : N → Z;
  l_prev : N → Z;
  l_set_next : Z → N → N;
  l_set_prev : Z → N → N;
  l_next_next v n : l_next (l_set_next v n) = v;
  l_next_prev v n : l_next (l_set_prev v n) = l_next n;
  l_prev_prev v n : l_prev (l_set_prev v n) = v;
  l_prev_next v n : l_prev (l_set_next v n) = l_prev n;
}.

Section linked.
Context {N : Type} `{!Links N}.
Implicit Types (m : gmap Z N) (l : list Z) (a b : Z).

Definition nexts m a : option Z := l_next <$> m !! a.
Definition prevs m a : option Z := l_prev <$> m !! a.
Definition linked m (first : Z) l : Prop := dlist (nexts m) (prevs m) first l.

(** The stores [if (prev) prev->next = next; if (next) next->prev = prev]. *)
Definition unlink_map (prev next : Z) m : gmap Z N :=
  let m := if prev =? 0 then m else alter (l_set_next next) prev m in
  if next =? 0 then m else alter (l_set_prev prev) next m.

(** The stores that put [a] in front of the list at [first]. *)
Definition push_map (a first : Z) m : gmap Z N :=
  let m := alter (l_set_next first) a (alter (l_set_prev 0) a m) in
  if first =? 0 then m else alter (l_set_prev a) first m.

Lemma linked_in m first l a : linked m first l → a ∈ l → ∃ n, m !! a = Some n.
Proof.
  intros (_ & _ & H) Ha. destruct (dseg_in _ _ _ _ _ _ H Ha) as [[? Hx] _].
  unfold nexts in Hx. destruct (m !! a); [eauto|done].
Qed.
Lemma linked_nonzero m first l : linked m first l → 0 ∉ l.
Proof. intros (_ & _ & H). by eapply dseg_nonzero. Qed.

Lemma linked_at m first l1 a l2 n :
  linked m first (l1 ++ a :: l2) → m !! a = Some n →
  l_next n = default 0 (head l2) ∧ l_prev n = default 0 (last l1).
Proof.
  intros (_ & _ & H) Ha. apply dseg_mid in H as (_ & Hn & Hp). unfold nexts in Hn.
  unfold prevs in Hp. rewrite Ha in Hn, Hp. by simplify_eq/=.
Qed.

(** Changes that leave the links of the list alone. *)
Lemma linked_proper m m' first l :
  linked m first l → (∀ b, b ∈ l → nexts m' b = nexts m b ∧ prevs m' b = prevs m b) →
  linked m' first l.
Proof. intros (? & ? & H) Hm. split_and!; [done..|]. by eapply dseg_frame. Qed.
Lemma linked_alter m first l f a :
  linked m first l → a ∉ l ∨ (∀ n, l_next (f n) = l_next n ∧ l_prev (f n) = l_prev n) →
  linked (alter f a m) first l.
Proof.
  intros H Hf. eapply linked_proper; [exact H|]. intros b Hb. unfold nexts, prevs.
  rewrite lookup_alter. case_decide as Hab; [|done]. subst b.
  destruct Hf as [|Hf]; [done|]. destruct (m !! a) as [n|]; simpl; [|done].
  by destruct (Hf n) as [-> ->].
Qed.

Lemma unlink_lookup prev next m b :
  unlink_map prev next m !! b =
    (λ n, let n := if decide (prev ≠ 0 ∧ prev = b) then l_set_next next n else n in
          if decide (next ≠ 0 ∧ next = b) then l_set_prev prev n else n) <$> m !! b.
Proof.
  unfold unlink_map.
  destruct (Z.eqb_spec next 0) as [Hn|Hn], (Z.eqb_spec prev 0) as [Hp|Hp]; rewrite ?lookup_alter;
    repeat case_decide; subst; destruct_and?; try done; try tauto;
    rewrite ?lookup_alter; repeat case_decide; subst; destruct_and?; try tauto;
    by destruct (m !! b) eqn:E; rewrite ?E.
Qed.

Lemma last_in l x : last l = Some x → x ∈ l.
Proof. intros [l' ->]%last_Some. set_solver. Qed.
Lemma head_in l x : head l = Some x → x ∈ l.
Proof. destruct l; intros; simplify_eq/=. set_solver. Qed.

(** [default 0 o] is a pointer to the element [o], or [NULL]. *)
Lemma default_is (l : list Z) (o : option Z) b :
  0 ∉ l → (∀ x, o = Some x → x ∈ l) → (default 0 o ≠ 0 ∧ default 0 o = b) ↔ o = Some b.
Proof.
  intros H0 Ho. destruct o as [x|]; simpl; [|naive_solver].
  specialize (Ho x eq_refl). split; [naive_solver|]. intros [= ->]. split; [|done].
  by intros ->.
Qed.

Lemma linked_unlink m first l1 a l2 :
  linked m first (l1 ++ a :: l2) →
  linked (unlink_map (default 0 (last l1)) (default 0 (head l2)) m)
    (if default 0 (last l1) =? 0 then default 0 (head l2) else first) (l1 ++ l2).
Proof.
  intros (Hf & Hnd & H). pose proof (dseg_nonzero _ _ _ _ _ H) as H0.
  assert (∀ b, (default 0 (last l1) ≠ 0 ∧ default 0 (last l1) = b) ↔ last l1 = Some b) as Hl.
  { intros b. apply (default_is l1); [set_solver|apply last_in]. }
  assert (∀ b, (default 0 (head l2) ≠ 0 ∧ default 0 (head l2) = b) ↔ head l2 = Some b) as Hh.
  { intros b. apply (default_is l2); [set_solver|apply head_in]. }
  assert (∀ b, b ∈ l1 ++ l2 → ∃ n, m !! b = Some n) as Hin.
  { intros b Hb. apply (linked_in m first (l1 ++ a :: l2)); [done|set_solver]. }
  split_and!.
  - destruct l1 as [|x l1]; simpl in *; [done|].
    destruct (last (x :: l1)) as [y|] eqn:Hy; [|by apply last_None in Hy].
    simpl. destruct (Z.eqb_spec y 0) as [->|]; [|done]. apply last_in in Hy. set_solver.
  - eapply NoDup_app. apply NoDup_app in Hnd as (? & ? & ?%NoDup_cons). set_solver.
  - eapply dseg_remove; [exact H|done| |]; intros b Hb; destruct (Hin b Hb) as [n Hn];
      unfold nexts, prevs; rewrite unlink_lookup, Hn; simpl;
      rewrite ?(decide_ext _ _ _ _ (Hl b)), ?(decide_ext _ _ _ _ (Hh b));
      repeat case_decide; rewrite ?l_next_next, ?l_next_prev, ?l_next_next, ?l_prev_prev, ?l_prev_next;
      try done; naive_solver.
Qed.

Lemma push_lookup a first m b :
  a ≠ first →
  push_map a first m !! b =
    (λ n, if decide (b = a) then l_set_next first (l_set_prev 0 n)
          else if decide (first ≠ 0 ∧ first = b) then l_set_prev a n else n) <$> m !! b.
Proof.
  intros Hne. unfold push_map.
  destruct (Z.eqb_spec first 0) as [Hn|Hn]; rewrite ?lookup_alter;
    repeat case_decide; subst; destruct_and?; try done; try tauto;
    rewrite ?lookup_alter; repeat case_decide; subst; destruct_and?; try tauto;
    rewrite ?lookup_alter; repeat case_decide; try done;
    by destruct (m !! b) eqn:E; rewrite ?E.
Qed.

Lemma linked_push m first l a :
  linked m first l → a ∉ l → a ≠ 0 → is_Some (m !! a) → linked (push_map a first m) a (a :: l).
Proof.
  intros H Ha Ha0 [n Hn]. pose proof (linked_nonzero _ _ _ H) as H0.
  pose proof H as (Hf & _ & _).
  assert (∀ b, (first ≠ 0 ∧ first = b) ↔ head l = Some b) as Hh.
  { intros b. rewrite Hf. apply (default_is l); [done|apply head_in]. }
  assert (a ≠ first) as Hne.
  { intros ->. destruct (Hh first) as [Hd _]. apply Ha, head_in, Hd. done. }
  eapply dlist_push; [exact H|done|done|..].
  - unfold nexts. rewrite push_lookup, Hn by done. simpl. rewrite decide_True by done. by rewrite l_next_next.
  - unfold prevs. rewrite push_lookup, Hn by done. simpl. rewrite decide_True by done.
    by rewrite l_prev_next, l_prev_prev.
  - intros b Hb. assert (b ≠ a) by congruence. destruct (linked_in _ _ _ _ H Hb) as [nb Hnb].
    unfold nexts, prevs. rewrite push_lookup, Hnb by done. simpl. rewrite decide_False by done.
    rewrite ?(decide_ext _ _ _ _ (Hh b)). case_decide; by rewrite ?l_next_prev, ?l_prev_prev.
Qed.

(** What the link stores leave: every other field, and every record that is
    not on the list. *)
Lemma unlink_field {X} (g : N → X) prev next m b :
  (∀ v n, g (l_set_next v n) = g n) → (∀ v n, g (l_set_prev v n) = g n) →
  g <$> unlink_map prev next m !! b = g <$> m !! b.
Proof.
  intros H1 H2. rewrite unlink_lookup. destruct (m !! b); simpl; [|done].
  repeat case_decide; by rewrite ?H2, ?H1.
Qed.
Lemma push_field {X} (g : N → X) a first m b :
  (∀ v n, g (l_set_next v n) = g n) → (∀ v n, g (l_set_prev v n) = g n) → a ≠ first →
  g <$> push_map a first m !! b = g <$> m !! b.
Proof.
  intros H1 H2 Hne. rewrite push_lookup by done. destruct (m !! b); simpl; [|done].
  repeat case_decide; by rewrite ?H1, ?H2.
Qed.
Lemma unlink_out prev next m b :
  prev = 0 ∨ prev ≠ b → next = 0 ∨ next ≠ b → unlink_map prev next m !! b = m !! b.
Proof.
  intros. rewrite unlink_lookup. destruct (m !! b); simpl; [|done].
  by rewrite !decide_False by naive_solver.
Qed.
Lemma push_out a first m b :
  a ≠ first → b ≠ a → first = 0 ∨ first ≠ b → push_map a first m !! b = m !! b.
Proof.
  intros. rewrite push_lookup by done. destruct (m !! b); simpl; [|done].
  by rewrite !decide_False by naive_solver.
Qed.
Lemma unlink_dom prev next m : dom (unlink_map prev next m) = dom m.
Proof. unfold unlink_map. by repeat case_match; rewrite ?dom_alter_L. Qed.
Lemma push_dom a first m : dom (push_map a first m) = dom m.
Proof. unfold push_map. by repeat case_match; rewrite ?dom_alter_L. Qed.

(** * Queues: lists with a pointer to both ends *)

Definition queue m (h t : Z) l : Prop := linked m h l ∧ t = default 0 (last l).

(** The stores that put [a] behind the node [t]. *)
Definition append_map (a t : Z) m : gmap Z N :=
  let m := alter (l_set_prev t) a (alter (l_set_next 0) a m) in
  if t =? 0 then m else alter (l_set_next a) t m.

Lemma append_lookup a t m b :
  a ≠ t →
  append_map a t m !! b =
    (λ n, if decide (b = a) then l_set_prev t (l_set_next 0 n)
          else if decide (t ≠ 0 ∧ t = b) then l_set_next a n else n) <$> m !! b.
Proof.
  intros Hne. unfold append_map.
  destruct (Z.eqb_spec t 0) as [Hn|Hn]; rewrite ?lookup_alter;
    repeat case_decide; subst; destruct_and?; try done; try tauto;
    rewrite ?lookup_alter; repeat case_decide; subst; destruct_and?; try tauto;
    rewrite ?lookup_alter; repeat case_decide; try done;
    by destruct (m !! b) eqn:E; rewrite ?E.
Qed.

Lemma queue_last_ne m h t l a : queue m h t l → a ∉ l → a ≠ 0 → a ≠ t.
Proof.
  intros [_ ->] Ha Ha0. destruct (last l) as [x|] eqn:Hl; simpl; [|done].
  intros ->. by apply Ha, last_in.
Qed.

Lemma queue_append m h t l a :
  queue m h t l → a ∉ l → a ≠ 0 → is_Some (m !! a) →
  queue (append_map a t m) (if t =? 0 then a else h) a (l ++ [a]).
Proof.
  intros Hq Ha Ha0 [n Hn]. pose proof (queue_last_ne _ _ _ _ _ Hq Ha Ha0) as Hne.
  destruct Hq as [(Hh & Hnd & Hd) Ht]. pose proof (dseg_nonzero _ _ _ _ _ Hd) as H0.
  assert (∀ b, (t ≠ 0 ∧ t = b) ↔ last l = Some b) as Hl.
  { intros b. rewrite Ht. apply (default_is l); [done|apply last_in]. }
  split; [|by rewrite last_snoc]. split_and!.
  - destruct l as [|x l]; simpl in Ht, Hh |- *; [by rewrite Ht|]. rewrite Hh.
    destruct (Z.eqb_spec t 0) as [Hz|]; [|done]. destruct (last (x :: l)) as [y|] eqn:Hy.
    + exfalso. apply H0. simpl in Ht. rewrite <-Hz, Ht. by apply last_in.
    + by apply last_None in Hy.
  - apply NoDup_app. split_and!; [done| |apply NoDup_singleton]. set_solver.
  - eapply dseg_snoc; [exact Hd|done|done|done|..].
    + unfold nexts. rewrite append_lookup, Hn by done. simpl. rewrite decide_True by done.
      by rewrite l_next_prev, l_next_next.
    + unfold prevs. rewrite append_lookup, Hn by done. simpl. rewrite decide_True by done.
      by rewrite l_prev_prev, Ht.
    + intros b Hb. assert (b ≠ a) by congruence.
      destruct (linked_in m h l b) as [nb Hnb]; [by split|done|].
      unfold nexts, prevs. rewrite append_lookup, Hnb by done. simpl. rewrite decide_False by done.
      rewrite ?(decide_ext _ _ _ _ (Hl b)). case_decide; by rewrite ?l_prev_next, ?l_next_next.
Qed.

Lemma append_out a t m b :
  a ≠ t → b ≠ a → t = 0 ∨ t ≠ b → append_map a t m !! b = m !! b.
Proof.
  intros. rewrite append_lookup by done. destruct (m !! b); simpl; [|done].
  by rewrite !decide_False by naive_solver.
Qed.
Lemma append_field {X} (g : N → X) a t m b :
  (∀ v n, g (l_set_next v n) = g n) → (∀ v n, g (l_set_prev v n) = g n) → a ≠ t →
  g <$> append_map a t m !! b = g <$> m !! b.
Proof.
  intros H1 H2 Hne. rewrite append_lookup by done. destruct (m !! b); simpl; [|done].
  repeat case_decide; by rewrite ?H2, ?H1.
Qed.
Lemma append_dom a t m : dom (append_map a t m) = dom m.
Proof. unfold append_map. by repeat case_match; rewrite ?dom_alter_L. Qed.

(** Removing [a], wherever it is. *)
Lemma queue_unlink m h t l1 a l2 :
  queue m h t (l1 ++ a :: l2) →
  queue (unlink_map (default 0 (last l1)) (default 0 (head l2)) m)
    (if default 0 (last l1) =? 0 then default 0 (head l2) else h)
    (if default 0 (head l2) =? 0 then default 0 (last l1) else t) (l1 ++ l2).
Proof.
  intros [Hl Ht]. pose proof (linked_nonzero _ _ _ Hl) as H0. split; [by eapply linked_unlink|].
  destruct l2 as [|x l2]; simpl; [by rewrite app_nil_r|].
  destruct (Z.eqb_spec x 0) as [->|_]; [set_solver|]. rewrite Ht.
  rewrite !last_app. simpl. by destruct (last (x :: l2)) eqn:E.
Qed.

Lemma queue_frame m m' h t l :
  queue m h t l → (∀ b, b ∈ l → m' !! b = m !! b) → queue m' h t l.
Proof.
  intros [Hl Ht] Hm. split; [|done]. eapply linked_proper; [exact Hl|]. intros b Hb.
  unfold nexts, prevs. by rewrite Hm.
Qed.
Lemma queue_alter m h t l f a :
  queue m h t l → a ∉ l ∨ (∀ n, l_next (f n) = l_next n ∧ l_prev (f n) = l_prev n) →
  queue (alter f a m) h t l.
Proof. intros [Hl Ht] Hf. split; [by apply linked_alter|done]. Qed.
Lemma queue_empty m h t : queue m h t [] ↔ h = 0 ∧ t = 0.
Proof. split; [by intros [(? & _) ?]|]. intros [-> ->]. repeat split. apply NoDup_nil_2. Qed.
End linked.
