(* ===== verification/Pmm.v ===== *)
(** Physical pages: [src/kernel/src/mm/page.h], [src/kernel/src/mm/pfn_db.c]
    (the array of page descriptors) and [src/kernel/src/mm/pmm.c] (the page
    allocator).

    A page descriptor is named by its address; [NULL] is 0. [u2] is the word
    the union of [prev] and [sharecount] occupies, so that what is stored
    through one member is read through the other, as in the code. *)
From S2P Require Import Prelude Sync.

(** * [page.h] *)

Definition PAGE_SIZE : Z := 4096.
Definition PAGE_FREE : Z := 2 ^ 0.
Definition PAGE_ALLOCATED : Z := 2 ^ 1.
Definition PAGE_RESERVED : Z := 2 ^ 2.
Definition PAGE_SHARED : Z := 2 ^ 3.
Definition PAGE_COW : Z := 2 ^ 4.
Definition PAGE_DIRTY : Z := 2 ^ 5.

(** [page_t]; [sizeof_page] is what its alignment attribute makes of it. *)
Record page_t := mkPage { u1_next : Z; u2 : Z; flags : Z; refcount : Z }.
Definition sizeof_page : Z := 64.

Definition PHYS_TO_VIRT (hhdm_offset p : Z) : Z := u64 (p + hhdm_offset).
Definition VIRT_TO_PHYS (hhdm_offset p : Z) : Z := u64 (p - hhdm_offset).

Definition is_page_free (p : page_t) : bool := flag (flags p) PAGE_FREE.
Definition is_page_reserved (p : page_t) : bool := flag (flags p) PAGE_RESERVED.
Definition is_page_shared (p : page_t) : bool := flag (flags p) PAGE_SHARED.
Definition is_page_dirty (p : page_t) : bool := flag (flags p) PAGE_DIRTY.

Definition DIV_ROUND_UP (x y : Z) : Z := u64 (x + (y - 1)) / y.
Definition ALIGN_UP (x y : Z) : Z := u64 (DIV_ROUND_UP x y * y).
Definition ALIGN_DOWN (x y : Z) : Z := x / y * y.

(** * [pfn_db.c] *)

(** The statics of [pfn_db.c] and the memory of the descriptors. *)
Record pfn_db := mkDb { mem_map : Z; max_pfn : Z; pfn_db_phys : Z; pages : gmap Z page_t }.

(** [&mem_map[i]] *)
Definition page_at (d : pfn_db) (i : Z) : Z := mem_map d + sizeof_page * i.

Definition load_page (a : Z) : M pfn_db page_t := λ d,
  match pages d !! a with Some p => Done (p, d) | None => Fault end.
Definition store_page (a : Z) (f : page_t → page_t) : M pfn_db unit := λ d,
  match pages d !! a with
  | Some _ => Done (tt, mkDb (mem_map d) (max_pfn d) (pfn_db_phys d) (alter f a (pages d)))
  | None => Fault
  end.

Definition set_next (v : Z) (p : page_t) : page_t := mkPage v (u2 p) (flags p) (refcount p).
Definition set_u2 (v : Z) (p : page_t) : page_t := mkPage (u1_next p) v (flags p) (refcount p).
Definition set_flags (f : Z → Z) (p : page_t) : page_t :=
  mkPage (u1_next p) (u2 p) (f (flags p)) (refcount p).
Definition set_refcount (f : Z → Z) (p : page_t) : page_t :=
  mkPage (u1_next p) (u2 p) (flags p) (f (refcount p)).

Definition set_max_pfn (v : Z) : M pfn_db unit :=
  modify (λ d, mkDb (mem_map d) v (pfn_db_phys d) (pages d)).
Definition set_phys (v : Z) : M pfn_db unit :=
  modify (λ d, mkDb (mem_map d) (max_pfn d) v (pages d)).
Definition set_mem_map (v : Z) : M pfn_db unit :=
  modify (λ d, mkDb v (max_pfn d) (pfn_db_phys d) (pages d)).

(** [struct limine_memmap_entry], of the boot protocol's header. *)
Record memmap_entry := mkEntry { e_base : Z; e_length : Z; e_type : Z }.

Section pfn_db_init.
Context (LIMINE_MEMMAP_USABLE hhdm_offset : Z).

Definition usable (e : memmap_entry) : bool := e_type e =? LIMINE_MEMMAP_USABLE.

Definition _pfn_db_calc_max_pfn (mmap : list memmap_entry) : M pfn_db unit :=
  set_max_pfn 0 ;;
  for_each mmap (λ e,
    if negb (usable e) then mret tt else
    let end_ := u64 (e_base e + e_length e + PAGE_SIZE - 1) / PAGE_SIZE in
    m ← gets max_pfn;
    when (end_ >? m) (set_max_pfn end_)).

(** The entries come back with the first large enough one shrunk; [hcf] when
    there is none. *)
Fixpoint reserve_loop (size : Z) (mmap : list memmap_entry) : M pfn_db (list memmap_entry) :=
  match mmap with
  | [] => hang
  | e :: rest =>
      if negb (usable e) || (e_length e <? size)
      then rest' ← reserve_loop size rest; mret (e :: rest')
      else set_phys (e_base e) ;;
           mret (mkEntry (u64 (e_base e + size)) (u64 (e_length e - size)) (e_type e) :: rest)
  end.
Definition _pfn_db_reserve (mmap : list memmap_entry) : M pfn_db (list memmap_entry) :=
  m ← gets max_pfn;
  let size := u64 (u64 (m + 1) * sizeof_page) in
  let size := Z.land (u64 (size + PAGE_SIZE - 1)) (not64 (PAGE_SIZE - 1)) in
  reserve_loop size mmap.

(** [mem_map[i]] made reserved, linked to its neighbour. *)
Definition init_reserve (i : Z) : M pfn_db unit :=
  d ← gets (λ d, d);
  store_page (page_at d i) (set_flags (λ _, PAGE_RESERVED)) ;;
  store_page (page_at d i) (set_refcount (λ _, 0)) ;;
  if i <? max_pfn d then store_page (page_at d i) (set_next (page_at d (i + 1)))
  else store_page (page_at d i) (set_next 0).

Definition init_free (pfn : Z) : M pfn_db unit :=
  d ← gets (λ d, d);
  store_page (page_at d pfn)
    (set_flags (λ f, Z.lor (Z.land f (not32 (Z.lor PAGE_RESERVED PAGE_ALLOCATED))) PAGE_FREE)).

Definition pfn_db_init (memmap : list memmap_entry) : M pfn_db unit :=
  _pfn_db_calc_max_pfn memmap ;;
  memmap ← _pfn_db_reserve memmap;
  phys ← gets pfn_db_phys;
  set_mem_map (PHYS_TO_VIRT hhdm_offset phys) ;;
  mm ← gets mem_map;
  if mm =? 0 then hang else
  m ← gets max_pfn;
  for_n 0 (Z.to_nat (m + 1)) init_reserve ;;
  for_each memmap (λ e,
    if negb (usable e) then mret tt else
    let start := e_base e / PAGE_SIZE in
    let end_ := u64 (e_base e + e_length e) / PAGE_SIZE in
    for_n start (Z.to_nat (Z.min end_ (m + 1) - start)) init_free) ;;
  d ← gets (λ d, d);
  store_page (page_at d 0) (set_flags (λ _, PAGE_RESERVED)) ;;
  store_page (page_at d 0) (set_refcount (λ _, 0)).
End pfn_db_init.

Definition pfn_db_pfnaddr (d : pfn_db) (pfn : Z) : Z :=
  if pfn >? max_pfn d then 0 else u64 (pfn * PAGE_SIZE).
Definition pfn_db_getptr (d : pfn_db) (pfn : Z) : Z :=
  if pfn >? max_pfn d then 0 else page_at d pfn.
Definition pfn_db_getpfn (d : pfn_db) (page : Z) : Z :=
  if (page =? 0) || (mem_map d =? 0) then u64 (-1)
  else if (page <? mem_map d) || (page >? page_at d (max_pfn d)) then u64 (-1)
  else (page - mem_map d) / sizeof_page.
Definition pfn_db_page_to_phys (d : pfn_db) (page : Z) : Z :=
  if (page =? 0) || (mem_map d =? 0) then 0
  else if (page <? mem_map d) || (page >? page_at d (max_pfn d)) then 0
  else u64 ((page - mem_map d) / sizeof_page * PAGE_SIZE).
Definition pfn_db_phys_to_page (d : pfn_db) (phys : Z) : Z :=
  let pfn := phys / PAGE_SIZE in
  if pfn >? max_pfn d then 0 else page_at d pfn.

(** * [pmm.c] *)

(** The statics of [pmm.c], beside the descriptors. *)
Record pmm := mkPmm {
  pm_db : pfn_db;
  free_list : Z;
  free_pages : Z;
  total_pages : Z;
  pmm_lock : spinlock_t;
}.

Definition with_db {A} (m : M pfn_db A) : M pmm A :=
  zoom pm_db (λ d s, mkPmm d (free_list s) (free_pages s) (total_pages s) (pmm_lock s)) m.
Definition with_lock (m : M spinlock_t unit) : M pmm unit :=
  zoom pmm_lock (λ l s, mkPmm (pm_db s) (free_list s) (free_pages s) (total_pages s) l) m.
Definition set_free_list (v : Z) : M pmm unit :=
  modify (λ s, mkPmm (pm_db s) v (free_pages s) (total_pages s) (pmm_lock s)).
Definition set_free_pages (f : Z → Z) : M pmm unit :=
  modify (λ s, mkPmm (pm_db s) (free_list s) (f (free_pages s)) (total_pages s) (pmm_lock s)).
Definition set_total_pages (v : Z) : M pmm unit :=
  modify (λ s, mkPmm (pm_db s) (free_list s) (free_pages s) v (pmm_lock s)).
Definition pload (a : Z) : M pmm page_t := with_db (load_page a).
Definition pstore (a : Z) (f : page_t → page_t) : M pmm unit := with_db (store_page a f).

Definition free_list_remove (page : Z) : M pmm unit :=
  p ← pload page;
  let prev := u2 p in
  let next := u1_next p in
  (if negb (prev =? 0) then pstore prev (set_next next) else set_free_list next) ;;
  when (negb (next =? 0)) (pstore next (set_u2 prev)) ;;
  pstore page (set_next 0) ;;
  pstore page (set_u2 0).

Definition free_list_push (page : Z) : M pmm unit :=
  pstore page (set_u2 0) ;;
  fl ← gets free_list;
  pstore page (set_next fl) ;;
  when (negb (fl =? 0)) (pstore fl (set_u2 page)) ;;
  set_free_list page.

(** [if (free_pages > 0) free_pages--;] *)
Definition dec_free_pages : M pmm unit :=
  n ← gets free_pages; when (n >? 0) (set_free_pages (λ n, u64 (n - 1))).

Section pmm.
(** The CPU that runs the code. *)
Context (me : Z).

Definition pmm_acquire : M pmm unit := with_lock (lock_acquire me).
Definition pmm_release : M pmm unit := with_lock (lock_release me).

(** The body of the loop of [pmm_init]. *)
Definition init_page (i : Z) : M pmm unit :=
  d ← gets pm_db;
  let page := page_at d i in
  p ← pload page;
  if is_page_free p then
    pstore page (set_next 0) ;;
    pstore page (set_u2 0) ;;
    free_list_push page ;;
    set_free_pages (λ n, u64 (n + 1))
  else
    pstore page (set_next 0) ;;
    pstore page (set_u2 0).

Definition pmm_init : M pmm unit :=
  db ← gets (λ s, mem_map (pm_db s));
  m ← gets (λ s, max_pfn (pm_db s));
  pmm_acquire ;;
  set_free_list 0 ;;
  set_free_pages (λ _, 0) ;;
  set_total_pages (u64 (m + 1)) ;;
  if db =? 0 then pmm_release else
  for_n 0 (Z.to_nat (m + 1)) init_page ;;
  pmm_release.

(** What both allocation functions do to a page they take off the free list. *)
Definition take_page (page : Z) : M pmm unit :=
  free_list_remove page ;;
  dec_free_pages ;;
  pstore page (set_flags (λ f, Z.land f
    (not32 (Z.lor (Z.lor (Z.lor PAGE_FREE PAGE_RESERVED) PAGE_SHARED) PAGE_COW)))) ;;
  pstore page (set_flags (λ f, Z.lor f PAGE_ALLOCATED)) ;;
  pstore page (set_refcount (λ _, 1)) ;;
  pstore page (set_u2 1).

Definition pmm_alloc_page : M pmm Z :=
  pmm_acquire ;;
  fl ← gets free_list;
  if fl =? 0 then pmm_release ;; mret 0 else
  take_page fl ;;
  pmm_release ;;
  mret fl.

Definition palloc (hhdm_offset : Z) : M pmm Z :=
  page ← pmm_alloc_page;
  if page =? 0 then mret 0 else
  d ← gets pm_db;
  mret (PHYS_TO_VIRT hhdm_offset (pfn_db_page_to_phys d page)).

Definition pmm_page_retain (page : Z) : M pmm unit :=
  if page =? 0 then mret tt else
  pmm_acquire ;;
  p ← pload page;
  when (is_page_free p)
    (free_list_remove page ;;
     dec_free_pages ;;
     pstore page (set_flags (λ f, Z.land f (not32 (Z.lor PAGE_FREE PAGE_RESERVED)))) ;;
     pstore page (set_flags (λ f, Z.lor f PAGE_ALLOCATED))) ;;
  pstore page (set_refcount (λ n, u32 (n + 1))) ;;
  p ← pload page;
  when (refcount p =? 1) (pstore page (set_u2 1)) ;;
  pmm_release.

Definition pmm_page_release (page : Z) : M pmm unit :=
  if page =? 0 then mret tt else
  pmm_acquire ;;
  p ← pload page;
  if refcount p =? 0 then pmm_release else
  pstore page (set_refcount (λ n, u32 (n - 1))) ;;
  p ← pload page;
  if refcount p >? 0 then pmm_release else
  if is_page_reserved p then pmm_release else
  pstore page (set_flags (λ f, Z.land f (not32 (Z.lor (Z.lor PAGE_ALLOCATED PAGE_SHARED) PAGE_COW)))) ;;
  pstore page (set_flags (λ f, Z.lor f PAGE_FREE)) ;;
  pstore page (set_u2 0) ;;
  p ← pload page;
  when (negb (is_page_dirty p))
    (free_list_push page ;; set_free_pages (λ n, u64 (n + 1))) ;;
  pmm_release.

Definition pmm_page_share (page : Z) : M pmm unit :=
  if page =? 0 then mret tt else
  pmm_acquire ;;
  p ← pload page;
  when (negb (is_page_shared p))
    (pstore page (set_flags (λ f, Z.lor f PAGE_SHARED)) ;;
     p ← pload page;
     when (u2 p =? 0) (pstore page (set_u2 1))) ;;
  p ← pload page;
  pstore page (set_u2 (u64 (u2 p + 1))) ;;
  pmm_release.

Definition pmm_page_unshare (page : Z) : M pmm unit :=
  if page =? 0 then mret tt else
  pmm_acquire ;;
  p ← pload page;
  if negb (is_page_shared p) then pmm_release else
  when (u2 p >? 0) (pstore page (set_u2 (u64 (u2 p - 1)))) ;;
  p ← pload page;
  when (u2 p <=? 1) (pstore page (set_flags (λ f, Z.land f (not32 PAGE_SHARED)))) ;;
  pmm_release.

Definition pmm_page_mark_cow (page : Z) : M pmm unit :=
  if page =? 0 then mret tt else
  pmm_acquire ;; pstore page (set_flags (λ f, Z.lor f PAGE_COW)) ;; pmm_release.

Definition pmm_page_clear_cow (page : Z) : M pmm unit :=
  if page =? 0 then mret tt else
  pmm_acquire ;; pstore page (set_flags (λ f, Z.land f (not32 PAGE_COW))) ;; pmm_release.

Definition pmm_free_pages : M pmm Z :=
  pmm_acquire ;; v ← gets free_pages; pmm_release ;; mret v.

Definition pmm_total_pages : M pmm Z := gets total_pages.

(** The inner loop of [pmm_alloc_pages]: the index of the first page of the
    run [i, ...] that is not free, if any. *)
Definition run_round (i count j : Z) : M pmm (Z + option Z) :=
  if j <? count then
    d ← gets pm_db;
    p ← pload (page_at d (i + j));
    if is_page_free p then mret (inl (j + 1)) else mret (inr (Some j))
  else mret (inr None).

(** A round of the outer loop; it leaves with the page found, or [NULL]. *)
Definition alloc_round (count i : Z) : M pmm (Z + Z) :=
  d ← gets pm_db;
  if u64 (i + count - 1) <=? max_pfn d then
    bad ← loop (S (Z.to_nat count)) (run_round i count) 0;
    match bad with
    | Some j => mret (inl (u64 (i + j + 1)))
    | None =>
        for_n 0 (Z.to_nat count) (λ j, take_page (page_at d (i + j))) ;;
        mret (inr (page_at d i))
    end
  else mret (inr 0).

Definition pmm_alloc_pages (count : Z) : M pmm Z :=
  if count =? 0 then mret 0 else
  if count =? 1 then pmm_alloc_page else
  pmm_acquire ;;
  m ← gets (λ s, max_pfn (pm_db s));
  page ← loop (Z.to_nat (m + 2)) (alloc_round count) 0;
  pmm_release ;;
  mret page.

Definition pmm_pages_release (page count : Z) : M pmm unit :=
  for_n 0 (Z.to_nat count) (λ i, pmm_page_release (page + sizeof_page * i)).
End pmm.
