(* ===== verification/PmmSpec.v ===== *)
(** The page allocator keeps its free list and its counter in step with the
    flags of the pages; the specifications of its operations. *)
From S2P Require Import Prelude DList Sync Pmm.

(** * Memory accesses *)

Definition put_pages (pg : gmap Z page_t) (d : pfn_db) : pfn_db :=
  mkDb (mem_map d) (max_pfn d) (pfn_db_phys d) pg.
Definition pm_pages (s : pmm) : gmap Z page_t := pages (pm_db s).
Definition put_pm (pg : gmap Z page_t) (fl n : Z) (s : pmm) : pmm :=
  mkPmm (put_pages pg (pm_db s)) fl n (total_pages s) (pmm_lock s).

Lemma wp_pload Q s a p : pm_pages s !! a = Some p → Q p s → wp (pload a) Q s.
Proof.
  unfold pm_pages. intros Ha HQ. unfold pload, with_db. apply wp_zoom.
  unfold wp, load_page. rewrite Ha. by destruct s.
Qed.
Lemma wp_pstore (Q : unit → pmm → Prop) s a f :
  is_Some (pm_pages s !! a) →
  Q tt (put_pm (alter f a (pm_pages s)) (free_list s) (free_pages s) s) → wp (pstore a f) Q s.
Proof.
  unfold pm_pages. intros [p Ha] HQ. unfold pstore, with_db. apply wp_zoom.
  unfold wp, store_page. rewrite Ha. exact HQ.
Qed.

(** * The links *)

#[global] Instance page_links : Links page_t.
Proof. refine {| l_next := u1_next; l_prev := u2; l_set_next := set_next; l_set_prev := set_u2 |}; done. Defined.

(** What an operation on the links leaves of a page. *)
Definition pstate (p : page_t) : Z * Z := (flags p, refcount p).

(** The descriptors after [free_list_remove] and [free_list_push]. *)
Definition removed (l1 : list Z) (a : Z) (l2 : list Z) (pg : gmap Z page_t) : gmap Z page_t :=
  alter (set_u2 0) a (alter (set_next 0) a
    (unlink_map (default 0 (last l1)) (default 0 (head l2)) pg)).

Lemma removed_self l1 a l2 first pg p :
  linked pg first (l1 ++ a :: l2) → pg !! a = Some p →
  removed l1 a l2 pg !! a = Some (mkPage 0 0 (flags p) (refcount p)).
Proof.
  intros HL Ha. unfold removed. rewrite !lookup_alter_eq.
  pose proof (unlink_field pstate (default 0 (last l1)) (default 0 (head l2)) pg a) as Hf.
  rewrite Ha in Hf. destruct (unlink_map _ _ pg !! a) as [p'|]; simpl in *.
  - specialize (Hf ltac:(done) ltac:(done)). destruct p, p'. unfold pstate in Hf. by simplify_eq/=.
  - by specialize (Hf ltac:(done) ltac:(done)).
Qed.

Lemma removed_state l1 a l2 pg b : pstate <$> removed l1 a l2 pg !! b = pstate <$> pg !! b.
Proof.
  unfold removed. rewrite !lookup_alter. repeat case_decide; subst.
  all: rewrite <-(unlink_field pstate (default 0 (last l1)) (default 0 (head l2)) pg) by done.
  all: by destruct (unlink_map _ _ pg !! _).
Qed.

Lemma removed_out l1 a l2 first pg b :
  linked pg first (l1 ++ a :: l2) → b ∉ l1 ++ a :: l2 → removed l1 a l2 pg !! b = pg !! b.
Proof.
  intros HL Hb. unfold removed. rewrite !lookup_alter_ne by set_solver. apply unlink_out.
  - destruct (last l1) as [x|] eqn:Hl; simpl; [|by left]. apply last_in in Hl. set_solver.
  - destruct (head l2) as [x|] eqn:Hl; simpl; [|by left]. apply head_in in Hl. set_solver.
Qed.

Lemma removed_linked l1 a l2 first pg :
  linked pg first (l1 ++ a :: l2) →
  linked (removed l1 a l2 pg) (if default 0 (last l1) =? 0 then default 0 (head l2) else first) (l1 ++ l2).
Proof.
  intros HL. pose proof HL as (_ & Hnd & _).
  assert (a ∉ l1 ++ l2) by (apply NoDup_app in Hnd as (_ & ? & [? _]%NoDup_cons); set_solver).
  unfold removed. do 2 (apply linked_alter; [|by left]). exact (linked_unlink _ _ _ _ _ HL).
Qed.

Lemma removed_dom l1 a l2 pg : dom (removed l1 a l2 pg) = dom pg.
Proof. unfold removed. by rewrite !dom_alter_L, unlink_dom. Qed.

Lemma wp_free_list_remove s l1 a l2 (Q : unit → pmm → Prop) :
  linked (pm_pages s) (free_list s) (l1 ++ a :: l2) →
  Q tt (put_pm (removed l1 a l2 (pm_pages s))
         (if default 0 (last l1) =? 0 then default 0 (head l2) else free_list s) (free_pages s) s) →
  wp (free_list_remove a) Q s.
Proof.
  intros HL HQ. destruct (linked_in _ _ _ a HL) as [p Ha]; [set_solver|].
  destruct (linked_at _ _ _ _ _ _ HL Ha) as [Hn Hp]. simpl in Hn, Hp.
  pose proof (linked_nonzero _ _ _ HL) as H0.
  unfold free_list_remove. wp_pures. eapply wp_pload; [exact Ha|]. rewrite Hn, Hp. clear Hn Hp.
  set (nxt := default 0 (head l2)) in *. set (prv := default 0 (last l1)) in *.
  assert (prv ≠ 0 → is_Some (pm_pages s !! prv)) as Hprv.
  { intros Hne. subst prv. destruct (last l1) as [x|] eqn:Hl; [|done]. apply last_in in Hl.
    apply (linked_in _ _ _ x HL). set_solver. }
  assert (nxt ≠ 0 → is_Some (pm_pages s !! nxt)) as Hnxt.
  { intros Hne. subst nxt. destruct (head l2) as [x|] eqn:Hl; [|done]. apply head_in in Hl.
    apply (linked_in _ _ _ x HL). set_solver. }
  wp_pures. unfold removed, unlink_map in HQ. fold nxt prv in HQ.
  destruct (Z.eqb_spec prv 0) as [Hp|Hp]; simpl negb; cbv iota.
  - unfold set_free_list. wp_pures.
    destruct (Z.eqb_spec nxt 0) as [Hq|Hq]; simpl negb; unfold when; wp_pures.
    + do 2 (eapply wp_pstore; [rewrite ?lookup_alter_is_Some; unfold pm_pages; simpl;
        rewrite ?lookup_alter_is_Some; by eexists|wp_pures]). by destruct s as [[]].
    + do 3 (eapply wp_pstore; [rewrite ?lookup_alter_is_Some; unfold pm_pages; simpl;
        rewrite ?lookup_alter_is_Some; by eauto|wp_pures]). by destruct s as [[]].
  - eapply wp_pstore; [by auto|]. wp_pures.
    destruct (Z.eqb_spec nxt 0) as [Hq|Hq]; simpl negb; unfold when; wp_pures.
    + do 2 (eapply wp_pstore; [rewrite ?lookup_alter_is_Some; unfold pm_pages; simpl;
        rewrite ?lookup_alter_is_Some; by eauto|wp_pures]). by destruct s as [[]].
    + do 3 (eapply wp_pstore; [rewrite ?lookup_alter_is_Some; unfold pm_pages; simpl;
        rewrite ?lookup_alter_is_Some; by eauto|wp_pures]). by destruct s as [[]].
Qed.

Lemma wp_free_list_push s a (Q : unit → pmm → Prop) :
  is_Some (pm_pages s !! a) → (free_list s ≠ 0 → is_Some (pm_pages s !! free_list s)) →
  Q tt (put_pm (push_map a (free_list s) (pm_pages s)) a (free_pages s) s) →
  wp (free_list_push a) Q s.
Proof.
  intros Ha Hf HQ. unfold free_list_push. wp_pures.
  eapply wp_pstore; [done|]. wp_pures.
  eapply wp_pstore; [unfold pm_pages; simpl; by rewrite lookup_alter_is_Some|]. wp_pures. simpl.
  unfold push_map in HQ. unfold when, set_free_list. destruct (Z.eqb_spec (free_list s) 0); simpl; wp_pures.
  - by destruct s as [[]].
  - eapply wp_pstore; [unfold pm_pages; simpl; rewrite !lookup_alter_is_Some; by auto|]. wp_pures.
    by destruct s as [[]].
Qed.

(** * The invariant *)

(** The array of descriptors: [max_pfn + 1] of them from [mem_map] on. *)
Record db_wf (d : pfn_db) : Prop := mkWf {
  wf_map : 0 < mem_map d;
  wf_max : 0 ≤ max_pfn d;
  wf_top : page_at d (max_pfn d + 1) ≤ 2 ^ 64;
  wf_dom : ∀ a, a ∈ dom (pages d) ↔ ∃ i, 0 ≤ i ≤ max_pfn d ∧ a = page_at d i;
}.

Lemma db_wf_put d pg : db_wf d → dom pg = dom (pages d) → db_wf (put_pages pg d).
Proof. intros [? ? ? Hd] Hpg. constructor; [done..|]. intros b. simpl. rewrite Hpg. apply Hd. Qed.

(** A page is free exactly when it is on the free list, and then nobody
    references it; no page is marked dirty. *)
Definition page_ok (L : list Z) (a : Z) (p : page_t) : Prop :=
  is_page_free p = bool_decide (a ∈ L) ∧ (a ∈ L → refcount p = 0) ∧
  0 ≤ refcount p < 2 ^ 32 ∧ is_page_dirty p = false.

Record pmm_core (s : pmm) (L : list Z) : Prop := mkCore {
  pc_wf : db_wf (pm_db s);
  pc_links : linked (pm_pages s) (free_list s) L;
  pc_pages : ∀ a p, pm_pages s !! a = Some p → page_ok L a p;
  pc_count : free_pages s = Z.of_nat (length L);
}.

(** The state between calls: besides, the lock is free. *)
Definition pmm_inv (s : pmm) (L : list Z) : Prop := pmm_core s L ∧ pmm_lock s = unlocked.

(** What the allocator leaves alone when it works on the pages [P]. *)
Record pmm_frame (P : list Z) (s s' : pmm) : Prop := mkFrame {
  pf_static : mem_map (pm_db s') = mem_map (pm_db s) ∧ max_pfn (pm_db s') = max_pfn (pm_db s) ∧
              pfn_db_phys (pm_db s') = pfn_db_phys (pm_db s) ∧ total_pages s' = total_pages s;
  pf_dom : dom (pm_pages s') = dom (pm_pages s);
  pf_state : ∀ b, b ∉ P → pstate <$> pm_pages s' !! b = pstate <$> pm_pages s !! b;
  pf_used : ∀ b p, b ∉ P → pm_pages s !! b = Some p → is_page_free p = false →
              pm_pages s' !! b = Some p;
}.

Lemma pmm_frame_refl P s : pmm_frame P s s.
Proof. by constructor. Qed.
Lemma pmm_frame_trans P P' s1 s2 s3 :
  pmm_frame P s1 s2 → pmm_frame P' s2 s3 → pmm_frame (P ++ P') s1 s3.
Proof.
  intros [(?&?&?&?) Hd Hs Hu] [(?&?&?&?) Hd' Hs' Hu']. constructor.
  - split_and!; congruence.
  - congruence.
  - intros b Hb. rewrite Hs', Hs by set_solver. done.
  - intros b p Hb Hp Hf. apply Hu'; [set_solver| |done]. apply Hu; [set_solver|done|done].
Qed.
Lemma pmm_frame_mono P P' s1 s2 : pmm_frame P s1 s2 → P ⊆ P' → pmm_frame P' s1 s2.
Proof. intros [? ? Hs Hu] HP. constructor; [done|done| |]; intros; [apply Hs|apply Hu]; set_solver. Qed.

Lemma page_ok_state L a p p' : pstate p = pstate p' → page_ok L a p → page_ok L a p'.
Proof.
  destruct p, p'. unfold pstate, page_ok, is_page_free, is_page_dirty. simpl. by intros [= -> ->].
Qed.

Lemma free_list_bound s L : pmm_core s L → Z.of_nat (length L) ≤ max_pfn (pm_db s) + 1.
Proof.
  intros [[Hm Hx Ht Hd] Hl _ _]. pose proof Hl as (_ & Hnd & _).
  assert (length L ≤ length (page_at (pm_db s) <$> seqZ 0 (max_pfn (pm_db s) + 1)))%nat as Hlen.
  { apply submseteq_length, NoDup_submseteq; [done|]. intros a Ha.
    destruct (linked_in _ _ _ _ Hl Ha) as [p Hp].
    assert (a ∈ dom (pages (pm_db s))) as (i & Hi & ->)%Hd by (by apply elem_of_dom_2 in Hp).
    apply list_elem_of_fmap. exists i. split; [done|]. apply elem_of_seqZ. lia. }
  rewrite length_fmap, length_seqZ in Hlen. lia.
Qed.
Lemma free_pages_small s L : pmm_core s L → 0 ≤ free_pages s < 2 ^ 64.
Proof.
  intros H. pose proof (free_list_bound _ _ H). destruct H as [[Hm Hx Ht _] _ _ ->].
  unfold page_at, sizeof_page in Ht. lia.
Qed.

(** ** Steps shared by the operations *)

Lemma wp_dec_free_pages s (Q : unit → pmm → Prop) :
  0 < free_pages s < 2 ^ 64 →
  Q tt (put_pm (pm_pages s) (free_list s) (free_pages s - 1) s) → wp dec_free_pages Q s.
Proof.
  intros Hn HQ. unfold dec_free_pages. wp_pures. unfold when.
  rewrite (proj2 (Z.gtb_lt _ _)) by lia. unfold set_free_pages. wp_pures.
  rewrite u64_id by lia. by destruct s as [[]].
Qed.

(** Another store to page [a]. *)
Lemma wp_pstore_again s pg fl n a f g (Q : unit → pmm → Prop) :
  is_Some (pg !! a) → Q tt (put_pm (alter (f ∘ g) a pg) fl n s) →
  wp (pstore a f) Q (put_pm (alter g a pg) fl n s).
Proof.
  intros Ha HQ. apply wp_pstore; unfold pm_pages; simpl; [by rewrite lookup_alter_is_Some|].
  by rewrite alter_twice.
Qed.

(** Taking page [a] off the list, its counter following: the common part of
    allocating and retaining. *)
Lemma wp_unfree {A} s l1 a l2 p (m : M pmm A) (Q : A → pmm → Prop) :
  pmm_core s (l1 ++ a :: l2) → pm_pages s !! a = Some p →
  wp m Q (put_pm (alter id a (removed l1 a l2 (pm_pages s)))
          (if default 0 (last l1) =? 0 then default 0 (head l2) else free_list s)
          (free_pages s - 1) s) →
  wp (free_list_remove a ;; dec_free_pages ;; m) Q s.
Proof.
  intros Hc Ha HQ. apply wp_bind. eapply wp_free_list_remove; [apply Hc|]. apply wp_bind.
  apply wp_dec_free_pages; simpl.
  { pose proof (free_pages_small _ _ Hc). rewrite (pc_count _ _ Hc) in *.
    rewrite length_app in *. simpl in *. lia. }
  rewrite alter_id in HQ by done. by destruct s as [[]].
Qed.

(** The core invariant after page [a], no longer free, is off the list. *)
Lemma pmm_core_unfree s l1 a l2 p f :
  pmm_core s (l1 ++ a :: l2) → pm_pages s !! a = Some p →
  is_page_free (f (mkPage 0 0 (flags p) (refcount p))) = false →
  is_page_dirty (f (mkPage 0 0 (flags p) (refcount p))) = false →
  0 ≤ refcount (f (mkPage 0 0 (flags p) (refcount p))) < 2 ^ 32 →
  let s' := put_pm (alter f a (removed l1 a l2 (pm_pages s)))
          (if default 0 (last l1) =? 0 then default 0 (head l2) else free_list s)
          (free_pages s - 1) s in
  pmm_core s' (l1 ++ l2) ∧ pmm_frame [a] s s' ∧
  pm_pages s' !! a = Some (f (mkPage 0 0 (flags p) (refcount p))).
Proof.
  intros Hc Ha Hfr Hdt Hrc s'. pose proof Hc as [Hwf Hl Hp Hn].
  pose proof (removed_self _ _ _ _ _ _ Hl Ha) as Hself.
  assert (a ∉ l1 ++ l2) as Hnin.
  { destruct Hl as (_ & Hnd & _). apply NoDup_app in Hnd as (_ & ? & [? _]%NoDup_cons). set_solver. }
  assert (pm_pages s' !! a = Some (f (mkPage 0 0 (flags p) (refcount p)))) as Ha'.
  { unfold pm_pages; simpl. by rewrite lookup_alter_eq, Hself. }
  assert (dom (pm_pages s') = dom (pm_pages s)) as Hdom.
  { unfold pm_pages; simpl. by rewrite dom_alter_L, removed_dom. }
  assert (∀ b, b ≠ a → pstate <$> pm_pages s' !! b = pstate <$> pm_pages s !! b) as Hst.
  { intros b Hb. unfold pm_pages; simpl. rewrite lookup_alter_ne by done. apply removed_state. }
  split_and!; [constructor| |done].
  - by apply db_wf_put.
  - unfold pm_pages; simpl. apply linked_alter; [|by left]. by apply removed_linked.
  - intros b q Hq. destruct (decide (b = a)) as [->|Hb].
    + rewrite Ha' in Hq. injection Hq as <-. unfold page_ok.
      rewrite bool_decide_eq_false_2 by done. done.
    + specialize (Hst b Hb). rewrite Hq in Hst. destruct (pm_pages s !! b) as [q0|] eqn:Hq0; [|done].
      simpl in Hst. injection Hst as Hst1 Hst2.
      apply (page_ok_state _ _ q0); [unfold pstate; congruence|]. specialize (Hp _ _ Hq0). unfold page_ok in *.
      rewrite !(bool_decide_ext (b ∈ l1 ++ l2) (b ∈ l1 ++ a :: l2)) by set_solver. set_solver.
  - simpl. rewrite Hn, !length_app. simpl. lia.
  - constructor; [done|done| |].
    + intros b Hb. apply Hst. set_solver.
    + intros b q Hb Hq Hfree. specialize (Hp _ _ Hq) as (Hp & _). rewrite Hfree in Hp.
      symmetry in Hp. apply bool_decide_eq_false in Hp. unfold pm_pages; simpl.
      rewrite lookup_alter_ne by set_solver. rewrite (removed_out _ _ _ (free_list s)); done.
Qed.

(** ** Allocation *)

(** The flags [take_page] leaves. *)
Definition alloc_flags (f : Z) : Z :=
  Z.lor (Z.land f (not32 (Z.lor (Z.lor (Z.lor PAGE_FREE PAGE_RESERVED) PAGE_SHARED) PAGE_COW)))
    PAGE_ALLOCATED.

Lemma alloc_flags_free f : flag (alloc_flags f) PAGE_FREE = false.
Proof. unfold alloc_flags. by flag_simp. Qed.
Lemma alloc_flags_dirty f : flag (alloc_flags f) PAGE_DIRTY = flag f PAGE_DIRTY.
Proof. unfold alloc_flags. by flag_simp. Qed.

Lemma wp_take_page s l1 a l2 p (Q : unit → pmm → Prop) :
  pmm_core s (l1 ++ a :: l2) → pm_pages s !! a = Some p →
  (∀ s', pmm_core s' (l1 ++ l2) → pmm_frame [a] s s' → pmm_lock s' = pmm_lock s →
     pm_pages s' !! a = Some (mkPage 0 1 (alloc_flags (flags p)) 1) → Q tt s') →
  wp (take_page a) Q s.
Proof.
  intros Hc Ha HQ. unfold take_page. eapply wp_unfree; [exact Hc|exact Ha|].
  assert (is_Some (removed l1 a l2 (pm_pages s) !! a)) as Hs
    by (eexists; eapply removed_self; [apply Hc|exact Ha]).
  do 4 (wp_pures; apply wp_pstore_again; [done|]).
  destruct (pmm_core_unfree s l1 a l2 p (set_u2 1 ∘ (set_refcount (λ _, 1) ∘ (set_flags (λ f, Z.lor f PAGE_ALLOCATED)
     ∘ (set_flags (λ f, Z.land f (not32 (Z.lor (Z.lor (Z.lor PAGE_FREE PAGE_RESERVED) PAGE_SHARED) PAGE_COW))) ∘ id)))))
    as (H1 & H2 & H3); [done|done| | |simpl; lia|by apply HQ].
  - apply alloc_flags_free.
  - unfold is_page_dirty. simpl. fold (alloc_flags (flags p)). rewrite alloc_flags_dirty.
    by apply (pc_pages _ _ Hc _ _ Ha).
Qed.

(** ** The lock *)

Definition put_lock (l : spinlock_t) (s : pmm) : pmm :=
  mkPmm (pm_db s) (free_list s) (free_pages s) (total_pages s) l.

Lemma pmm_core_lock l s L : pmm_core s L → pmm_core (put_lock l s) L.
Proof. intros []. by constructor. Qed.
Lemma pmm_frame_lock l l' P s s' : pmm_frame P (put_lock l s) s' → pmm_frame P s (put_lock l' s').
Proof. intros []. by constructor. Qed.

Section ops.
Context (me : Z).

Lemma wp_acquire s (Q : unit → pmm → Prop) :
  pmm_lock s = unlocked → Q tt (put_lock (held me) s) → wp (pmm_acquire me) Q s.
Proof.
  intros Hl HQ. unfold pmm_acquire, with_lock. apply wp_zoom. rewrite Hl.
  by apply wp_lock_acquire.
Qed.
Lemma wp_release s (Q : unit → pmm → Prop) :
  pmm_lock s = held me → Q tt (put_lock unlocked s) → wp (pmm_release me) Q s.
Proof.
  intros Hl HQ. unfold pmm_release, with_lock. apply wp_zoom. rewrite Hl.
  by apply wp_lock_release.
Qed.

Lemma wp_pmm_alloc_page s L (Q : Z → pmm → Prop) :
  pmm_inv s L →
  (L = [] → Q 0 s) →
  (∀ a L' p s', L = a :: L' → pmm_inv s' L' → pmm_frame [a] s s' → pm_pages s !! a = Some p →
     pm_pages s' !! a = Some (mkPage 0 1 (alloc_flags (flags p)) 1) → Q a s') →
  wp (pmm_alloc_page me) Q s.
Proof.
  intros [Hc Hl] Hnone Hsome. unfold pmm_alloc_page. wp_pures. apply wp_acquire; [done|]. wp_pures. simpl.
  pose proof (pc_links _ _ Hc) as HL. destruct L as [|a L].
  - destruct HL as (-> & _). simpl. wp_pures. apply wp_release; [done|]. wp_pures.
    replace (put_lock unlocked _) with s by (rewrite <-Hl; by destruct s). by apply Hnone.
  - pose proof (linked_nonzero _ _ _ HL) as H0. destruct (linked_in _ _ _ a HL) as [p Hp]; [set_solver|].
    destruct HL as (-> & _ & _). simpl. rewrite (proj2 (Z.eqb_neq _ _)) by set_solver.
    wp_pures. eapply (wp_take_page _ [] a L); [by apply pmm_core_lock|exact Hp|].
    intros s1 Hc1 Hf1 Hl1 Ha1. wp_pures. apply wp_release; [done|]. wp_pures.
    eapply Hsome; [done|split; [by apply pmm_core_lock|done]|by eapply pmm_frame_lock|exact Hp|exact Ha1].
Qed.

(** ** Releasing *)

Definition free_flags (f : Z) : Z :=
  Z.lor (Z.land f (not32 (Z.lor (Z.lor PAGE_ALLOCATED PAGE_SHARED) PAGE_COW))) PAGE_FREE.
Lemma free_flags_free f : flag (free_flags f) PAGE_FREE = true.
Proof. unfold free_flags. by flag_simp. Qed.
Lemma free_flags_dirty f : flag (free_flags f) PAGE_DIRTY = flag f PAGE_DIRTY.
Proof. unfold free_flags. by flag_simp. Qed.

(** The core invariant after page [a], which has become free, is pushed. *)
Lemma pmm_core_push s L a p f (Q : unit → pmm → Prop) :
  pmm_core s L → pm_pages s !! a = Some p → a ∉ L →
  is_page_free (f p) = true → is_page_dirty (f p) = false → refcount (f p) = 0 →
  (∀ s', pmm_core s' (a :: L) → pmm_frame [a] s s' → pmm_lock s' = pmm_lock s →
     (∃ p', pm_pages s' !! a = Some p' ∧ pstate p' = pstate (f p)) → Q tt s') →
  wp (free_list_push a ;; set_free_pages (λ n, u64 (n + 1))) Q
    (put_pm (alter f a (pm_pages s)) (free_list s) (free_pages s) s).
Proof.
  intros Hc Ha HaL Hfr Hdt Hrc HQ. pose proof Hc as [Hwf HL Hp Hn].
  set (s1 := put_pm _ _ _ s).
  assert (linked (pm_pages s1) (free_list s1) L) as HL1 by (apply linked_alter; [done|by left]).
  assert (pm_pages s1 !! a = Some (f p)) as Ha1 by (unfold pm_pages; simpl; by rewrite lookup_alter_eq, Ha).
  assert (a ∈ dom (pages (pm_db s))) as (i & Hi & Hai)%(wf_dom _ Hwf) by (by apply elem_of_dom_2 in Ha).
  assert (0 < a) as Ha0.
  { destruct Hwf as [? _ _ _]. rewrite Hai. unfold page_at, sizeof_page. lia. }
  assert (a ≠ free_list s) as Hne.
  { destruct HL as (-> & _). destruct L; simpl; [lia|set_solver]. }
  wp_pures. apply wp_free_list_push; [by eexists| |].
  { intros Hf0. destruct HL1 as (Hfl & Hnd & Hseg). rewrite Hfl in *. destruct L as [|b L]; [done|]. simpl.
    apply (linked_in _ (free_list s1) (b :: L) b); [by split_and!|set_solver]. }
  unfold set_free_pages. wp_pures. simpl free_pages.
  pose proof (free_pages_small _ _ Hc) as Hsm. 
  set (s2 := mkPmm _ _ _ _ _).
  assert (dom (pm_pages s2) = dom (pm_pages s)) as Hdom.
  { unfold s2, pm_pages. simpl. rewrite push_dom. unfold pm_pages. simpl. by rewrite dom_alter_L. }
  assert (∀ b, pstate <$> pm_pages s2 !! b = pstate <$> pm_pages s1 !! b) as Hst.
  { intros b. unfold s2. unfold pm_pages at 1. simpl. by rewrite (push_field pstate) by done. }
  assert (∀ b, b ≠ a → pm_pages s1 !! b = pm_pages s !! b) as Hs1.
  { intros b Hb. unfold pm_pages; simpl. by rewrite lookup_alter_ne. }
  assert (∃ p', pm_pages s2 !! a = Some p' ∧ pstate p' = pstate (f p)) as (p' & Hp' & Hps').
  { specialize (Hst a). rewrite Ha1 in Hst. destruct (pm_pages s2 !! a) as [p'|]; [|done].
    exists p'. split; [done|]. simpl in Hst. by apply (inj Some) in Hst. }
  apply HQ; [constructor| |done|by eauto].
  - exact (db_wf_put _ _ Hwf Hdom).
  - unfold s2, pm_pages. simpl. apply linked_push; [exact HL1|done|lia|by eexists].
  - intros b q Hq. destruct (decide (b = a)) as [->|Hb].
    + rewrite Hp' in Hq. injection Hq as <-. apply (page_ok_state _ _ (f p)); [done|].
      unfold page_ok. rewrite bool_decide_eq_true_2 by set_solver. rewrite Hrc. done.
    + specialize (Hst b). rewrite Hs1, Hq in Hst by done.
      destruct (pm_pages s !! b) as [q0|] eqn:Hq0; [|done]. simpl in Hst. injection Hst as Hst1 Hst2.
      apply (page_ok_state _ _ q0); [unfold pstate; congruence|]. specialize (Hp _ _ Hq0). unfold page_ok in *.
      rewrite !(bool_decide_ext (b ∈ a :: L) (b ∈ L)) by set_solver. set_solver.
  - simpl. rewrite u64_id; [rewrite Hn; lia|]. pose proof (free_list_bound _ _ Hc).
    destruct Hwf as [? ? Ht _]. unfold page_at, sizeof_page in Ht. rewrite Hn. lia.
  - constructor; [done|exact Hdom| |].
    + intros b Hb. rewrite Hst, Hs1 by set_solver. done.
    + intros b q Hb Hq Hfree. specialize (Hp _ _ Hq) as (Hp & _). rewrite Hfree in Hp.
      symmetry in Hp. apply bool_decide_eq_false in Hp. unfold s2, pm_pages. simpl.
      rewrite push_out; [|done|set_solver|].
      * rewrite <-Hs1 in Hq by set_solver. exact Hq.
      * destruct HL as (-> & _). destruct L; simpl; [by left|right; set_solver].
Qed.

(** ** Changing a page that is not free *)

Lemma pmm_core_update s L a p f :
  pmm_core s L → pm_pages s !! a = Some p → is_page_free p = false →
  is_page_free (f p) = false → is_page_dirty (f p) = false → 0 ≤ refcount (f p) < 2 ^ 32 →
  let s' := put_pm (alter f a (pm_pages s)) (free_list s) (free_pages s) s in
  pmm_core s' L ∧ pmm_frame [a] s s' ∧ pm_pages s' !! a = Some (f p).
Proof.
  intros Hc Ha Hnf Hfr Hdt Hrc s'. pose proof Hc as [Hwf HL Hp Hn].
  assert (a ∉ L) as HaL.
  { specialize (Hp _ _ Ha) as (Hp & _). rewrite Hnf in Hp. symmetry in Hp.
    by apply bool_decide_eq_false in Hp. }
  assert (dom (pm_pages s') = dom (pm_pages s)) as Hdom by (unfold pm_pages; simpl; apply dom_alter_L).
  assert (∀ b, b ≠ a → pm_pages s' !! b = pm_pages s !! b) as Hs'.
  { intros b Hb. unfold pm_pages; simpl. by rewrite lookup_alter_ne. }
  assert (pm_pages s' !! a = Some (f p)) as Ha' by (unfold pm_pages; simpl; by rewrite lookup_alter_eq, Ha).
  split_and!; [constructor| |done].
  - exact (db_wf_put _ _ Hwf Hdom).
  - apply linked_alter; [done|by left].
  - intros b q Hq. destruct (decide (b = a)) as [->|Hb].
    + rewrite Ha' in Hq. injection Hq as <-. unfold page_ok. rewrite bool_decide_eq_false_2 by done. done.
    + rewrite Hs' in Hq by done. by apply Hp.
  - done.
  - constructor; [done|done| |].
    + intros b Hb. rewrite Hs' by set_solver. done.
    + intros b q Hb Hq _. rewrite Hs' by set_solver. done.
Qed.

Lemma pmm_not_free s L a p :
  pmm_core s L → pm_pages s !! a = Some p → refcount p ≠ 0 → is_page_free p = false.
Proof.
  intros Hc Ha Hr. destruct (pc_pages _ _ Hc _ _ Ha) as (Hf & H0 & _). rewrite Hf.
  apply bool_decide_eq_false_2. intros Hin. auto.
Qed.
Lemma pmm_page_nonzero s L a p : pmm_core s L → pm_pages s !! a = Some p → a ≠ 0.
Proof.
  intros [[Hm _ _ Hd] _ _ _] Ha.
  assert (a ∈ dom (pages (pm_db s))) as (i & Hi & ->)%Hd by (by apply elem_of_dom_2 in Ha).
  unfold page_at, sizeof_page. lia.
Qed.

Lemma wp_pmm_page_release s L a p (Q : unit → pmm → Prop) :
  pmm_inv s L → pm_pages s !! a = Some p →
  (refcount p = 0 → Q tt s) →
  (∀ s', 1 < refcount p ∨ (refcount p = 1 ∧ is_page_reserved p = true) →
     pmm_inv s' L → pmm_frame [a] s s' →
     pm_pages s' !! a = Some (mkPage (u1_next p) (u2 p) (flags p) (refcount p - 1)) → Q tt s') →
  (∀ s' p', refcount p = 1 → is_page_reserved p = false →
     pmm_inv s' (a :: L) → pmm_frame [a] s s' → pm_pages s' !! a = Some p' →
     flags p' = free_flags (flags p) → refcount p' = 0 → Q tt s') →
  wp (pmm_page_release me a) Q s.
Proof.
  intros [Hc Hl] Ha H0 Hdec Hfree. unfold pmm_page_release.
  rewrite (proj2 (Z.eqb_neq _ _)) by (by eapply pmm_page_nonzero).
  wp_pures. apply wp_acquire; [done|]. wp_pures. set (s0 := put_lock _ s).
  eapply wp_pload; [exact Ha|]. destruct (pc_pages _ _ Hc _ _ Ha) as (_ & _ & Hr & Hd).
  destruct (Z.eqb_spec (refcount p) 0) as [Hz|Hz].
  { wp_pures. apply wp_release; [done|]. replace (put_lock unlocked _) with s; [by apply H0|].
    rewrite <-Hl. by destruct s. }
  assert (is_page_free p = false) as Hnf by (by eapply pmm_not_free).
  assert (pmm_core s0 L) as Hc0 by (by apply pmm_core_lock).
  destruct (pmm_core_update s0 L a p (set_refcount (λ n, u32 (n - 1)))) as (Hc1 & Hf1 & Ha1);
    [done|done|done|done|done|apply u32_range|].
  wp_pures. apply wp_pstore; [by eexists|]. wp_pures. eapply wp_pload; [exact Ha1|].
  simpl refcount in *. rewrite u32_id in * by lia.
  unfold set_refcount in Ha1. rewrite u32_id in Ha1 by lia.
  destruct (refcount p - 1 >? 0) eqn:Hgt.
  { wp_pures. apply wp_release; [done|]. apply Hdec; [lia|split; [by apply pmm_core_lock|done]| |exact Ha1].
    by eapply pmm_frame_lock. }
  assert (refcount p = 1) as Hr1 by lia.
  destruct (is_page_reserved (set_refcount (λ n, u32 (n - 1)) p)) eqn:Hres; unfold is_page_reserved in Hres; simpl in Hres.
  { wp_pures. apply wp_release; [done|]. apply Hdec; [by right|split; [by apply pmm_core_lock|done]| |exact Ha1].
    by eapply pmm_frame_lock. }
  assert (a ∉ L) as HaL.
  { destruct (pc_pages _ _ Hc _ _ Ha) as (Hb & _). rewrite Hnf in Hb. symmetry in Hb.
    by apply bool_decide_eq_false in Hb. }
  do 3 (wp_pures; apply wp_pstore_again; [by eexists|]). set (g := set_u2 0 ∘ _).
  wp_pures. eapply wp_pload; [unfold pm_pages; simpl; rewrite lookup_alter_eq; unfold pm_pages, s0; simpl;
    fold (pm_pages s); by rewrite Ha|].
  assert (is_page_dirty (g p) = false) as Hgd.
  { unfold g, is_page_dirty. simpl. fold (free_flags (flags p)). by rewrite free_flags_dirty. }
  rewrite Hgd. simpl negb. unfold when. cbv iota. apply wp_bind.
  eapply (pmm_core_push s0 L a p g); [done|done|done|apply free_flags_free|done|simpl; rewrite u32_id; lia|].
  intros s2 Hc2 Hf2 Hl2 (p' & Hp' & Hps). unfold pstate in Hps. simpl in Hps. injection Hps as Hfl Hrc.
  rewrite u32_id in Hrc by lia.
  wp_pures. apply wp_release; [done|].
  eapply (Hfree _ p'); [done|done|split; [by apply pmm_core_lock|done]|by eapply pmm_frame_lock|exact Hp'|exact Hfl|lia].
Qed.

(** The state as [s], but with [a] not marked dirty: what the invariant speaks
    about when [a] may be. *)
Definition clean (p : page_t) : page_t := set_flags (λ f, Z.ldiff f PAGE_DIRTY) p.
Definition unmarked (a : Z) (s : pmm) : pmm :=
  put_pm (alter clean a (pm_pages s)) (free_list s) (free_pages s) s.

Lemma clean_free p : is_page_free (clean p) = is_page_free p.
Proof.
  unfold is_page_free, PAGE_FREE. rewrite !flag_testbit by lia. change (flags (clean p)) with (Z.ldiff (flags p) (2 ^ 5)).
  by rewrite Z.ldiff_spec, andb_true_r.
Qed.
Lemma clean_dirty p : is_page_dirty (clean p) = false.
Proof. unfold is_page_dirty, PAGE_DIRTY. rewrite flag_testbit by lia. change (flags (clean p)) with (Z.ldiff (flags p) (2 ^ 5)). by rewrite Z.ldiff_spec, andb_false_r. Qed.
Lemma clean_id p : is_page_dirty p = false → clean p = p.
Proof.
  unfold is_page_dirty, PAGE_DIRTY. rewrite flag_testbit by lia. destruct p as [n u f r]. unfold clean, set_flags. cbn [u1_next u2 flags refcount]. intros Hd.
  f_equal. apply Z.bits_inj'. intros k Hk. rewrite Z.ldiff_spec. unfold PAGE_DIRTY. destruct (decide (k = 5)) as [->|Hne].
  - by rewrite Hd.
  - rewrite Z.pow2_bits_false by lia. apply andb_true_r.
Qed.
Lemma unmarked_id a s p : pm_pages s !! a = Some p → is_page_dirty p = false → unmarked a s = s.
Proof.
  intros Ha Hd. unfold unmarked. rewrite alter_id; [by destruct s as [[]]|].
  intros x Hx. rewrite Ha in Hx. injection Hx as <-. by apply clean_id.
Qed.

(** What the invariant of [unmarked a s] says of [s], for an [a] in use, and
    what a change of [a] leaves. *)
Lemma unmarked_used s L a p : pmm_core (unmarked a s) L → pm_pages s !! a = Some p → refcount p ≠ 0 →
  a ≠ 0 ∧ is_page_free p = false ∧ a ∉ L ∧ 0 ≤ refcount p < 2 ^ 32 ∧ linked (pm_pages s) (free_list s) L.
Proof.
  intros Hc Ha Hr. assert (pm_pages (unmarked a s) !! a = Some (clean p)) as Ha'.
  { unfold pm_pages, unmarked. simpl. by rewrite lookup_alter_eq, Ha. }
  destruct (pc_pages _ _ Hc _ _ Ha') as (Hf & Hz & Hrc & _). rewrite clean_free in Hf.
  assert (a ∉ L) as HaL by (intros Hin; by apply Hr, Hz).
  split_and!; [by eapply pmm_page_nonzero| |done|apply Hrc..|].
  - rewrite Hf. by apply bool_decide_eq_false_2.
  - replace (pm_pages s) with (alter (λ _, p) a (pm_pages (unmarked a s))); [apply linked_alter; [apply Hc|by left]|].
    apply map_eq. intros b. rewrite lookup_alter. destruct (decide (a = b)) as [->|Hb]; [by rewrite Ha', Ha|].
    unfold pm_pages, unmarked. simpl. by rewrite lookup_alter_ne.
Qed.
Lemma pmm_frame_at s a f : pmm_frame [a] s (put_pm (alter f a (pm_pages s)) (free_list s) (free_pages s) s).
Proof.
  constructor; [done|unfold pm_pages; simpl; apply dom_alter_L|..]; intros b.
  - intros Hb. unfold pm_pages. simpl. rewrite lookup_alter_ne by set_solver. done.
  - intros x Hb Hx _. unfold pm_pages. simpl. rewrite lookup_alter_ne by set_solver. exact Hx.
Qed.

(** A dirty page is not put back on the list. *)
Definition retired (p : page_t) : page_t := mkPage (u1_next p) 0 (free_flags (flags p)) 0.
Lemma wp_release_dirty s L a p (Q : unit → pmm → Prop) :
  pmm_inv (unmarked a s) L → pm_pages s !! a = Some p → is_page_dirty p = true →
  (refcount p = 0 → Q tt s) →
  (∀ s', 1 < refcount p ∨ (refcount p = 1 ∧ is_page_reserved p = true) →
     pmm_inv (unmarked a s') L → pmm_frame [a] s s' →
     pm_pages s' !! a = Some (mkPage (u1_next p) (u2 p) (flags p) (refcount p - 1)) → Q tt s') →
  (refcount p = 1 → is_page_reserved p = false → Q tt (put_pm (alter retired a (pm_pages s)) (free_list s) (free_pages s) s)) →
  wp (pmm_page_release me a) Q s.
Proof.
  intros [Hc Hl] Ha Hdirty H0 Hdec Hret. unfold pmm_page_release.
  assert (pm_pages (unmarked a s) !! a = Some (clean p)) as Ha'.
  { unfold pm_pages, unmarked. simpl. by rewrite lookup_alter_eq, Ha. }
  rewrite (proj2 (Z.eqb_neq _ _)) by (by eapply pmm_page_nonzero).
  wp_pures. apply wp_acquire; [done|]. wp_pures. set (s0 := put_lock _ s). eapply wp_pload; [exact Ha|].
  destruct (Z.eqb_spec (refcount p) 0) as [Hz|Hz].
  { wp_pures. apply wp_release; [done|]. replace (put_lock unlocked _) with s; [by apply H0|].
    rewrite <-Hl. by destruct s. }
  destruct (unmarked_used _ _ _ _ Hc Ha Hz) as (_ & Hnf & HaL & Hr & HL).
  wp_pures. apply wp_pstore; [by eexists|]. wp_pures.
  eapply wp_pload; [unfold pm_pages; simpl; rewrite lookup_alter_eq; fold (pm_pages s); by rewrite Ha|].
  simpl refcount. rewrite u32_id by lia.
  assert (1 < refcount p ∨ (refcount p = 1 ∧ is_page_reserved p = true) →
    Q tt (put_pm (alter (set_refcount (λ n, u32 (n - 1))) a (pm_pages s)) (free_list s) (free_pages s) s)) as Hdec'.
  { intros Hcase. apply Hdec; [done| |apply pmm_frame_at|].
    - split; [|done]. destruct (pmm_core_update (unmarked a s) L a (clean p) (set_refcount (λ n, u32 (n - 1)))) as (H & _);
        [done|done|by rewrite clean_free|etrans; [exact (clean_free p)|exact Hnf]|exact (clean_dirty p)|apply u32_range|].
      unfold unmarked, put_pm, put_pages, pm_pages in *. simpl in *. rewrite alter_twice in *. exact H.
    - unfold pm_pages. simpl. rewrite lookup_alter_eq. fold (pm_pages s). rewrite Ha. simpl. unfold set_refcount.
      by rewrite u32_id by lia. }
  assert (∀ pg, put_lock unlocked (put_pm pg (free_list s) (free_pages s) s0) = put_pm pg (free_list s) (free_pages s) s) as Hun.
  { intros pg. unfold s0, put_lock, put_pm. simpl. change (pmm_lock (unmarked a s)) with (pmm_lock s) in Hl. by rewrite <-Hl. }
  destruct (refcount p - 1 >? 0) eqn:Hgt.
  { wp_pures. apply wp_release; [done|]. rewrite Hun. apply Hdec'. lia. }
  unfold is_page_reserved at 1. simpl flags. fold (is_page_reserved p). destruct (is_page_reserved p) eqn:Hres.
  { wp_pures. apply wp_release; [done|]. rewrite Hun. apply Hdec'. right. split; [lia|done]. }
  do 3 (wp_pures; apply wp_pstore_again; [by eexists|]). set (g := set_u2 0 ∘ _).
  wp_pures. eapply wp_pload; [unfold pm_pages; simpl; rewrite lookup_alter_eq; unfold pm_pages, s0; simpl;
    fold (pm_pages s); by rewrite Ha|].
  assert (is_page_dirty (g p) = true) as Hgd.
  { unfold g, is_page_dirty. simpl. fold (free_flags (flags p)). by rewrite free_flags_dirty. }
  rewrite Hgd. simpl negb. unfold when. cbv iota. wp_pures. apply wp_release; [done|]. rewrite Hun.
  replace (alter g a (pm_pages s0)) with (alter retired a (pm_pages s)); [apply Hret; [lia|done]|].
  apply map_eq. intros b. rewrite !lookup_alter. destruct (decide (a = b)) as [<-|Hb]; [|done].
  change (pm_pages s0) with (pm_pages s). rewrite Ha. simpl. unfold g, retired, compose, set_u2, set_flags, set_refcount. cbn [u1_next u2 flags refcount]. rewrite u32_id by lia.
  do 2 f_equal. lia.
Qed.

(** ** Retaining *)

Definition retain_flags (f : Z) : Z :=
  Z.lor (Z.land f (not32 (Z.lor PAGE_FREE PAGE_RESERVED))) PAGE_ALLOCATED.
Lemma retain_flags_free f : flag (retain_flags f) PAGE_FREE = false.
Proof. unfold retain_flags. by flag_simp. Qed.
Lemma retain_flags_dirty f : flag (retain_flags f) PAGE_DIRTY = flag f PAGE_DIRTY.
Proof. unfold retain_flags. by flag_simp. Qed.

Lemma wp_pmm_page_retain s L a p (Q : unit → pmm → Prop) :
  pmm_inv s L → pm_pages s !! a = Some p →
  (∀ s' l1 l2, L = l1 ++ a :: l2 → pmm_inv s' (l1 ++ l2) → pmm_frame [a] s s' →
     pm_pages s' !! a = Some (mkPage 0 1 (retain_flags (flags p)) 1) → Q tt s') →
  (∀ s', a ∉ L → pmm_inv s' L → pmm_frame [a] s s' →
     pm_pages s' !! a = Some (mkPage (u1_next p) (if u32 (refcount p + 1) =? 1 then 1 else u2 p)
                                (flags p) (u32 (refcount p + 1))) → Q tt s') →
  wp (pmm_page_retain me a) Q s.
Proof.
  intros [Hc Hl] Ha Hfree Hused. unfold pmm_page_retain.
  rewrite (proj2 (Z.eqb_neq _ _)) by (by eapply pmm_page_nonzero).
  wp_pures. apply wp_acquire; [done|]. wp_pures. set (s0 := put_lock _ s).
  assert (pmm_core s0 L) as Hc0 by (by apply pmm_core_lock).
  eapply wp_pload; [exact Ha|]. destruct (pc_pages _ _ Hc _ _ Ha) as (Hin & Hr0 & Hr & Hd).
  rewrite Hin. case_bool_decide as HaL; unfold when; cbv iota; apply wp_bind.
  - destruct (list_elem_of_split _ _ HaL) as (l1 & l2 & ->).
    assert (is_Some (removed l1 a l2 (pm_pages s0) !! a)) as Hs
      by (eexists; eapply removed_self; [apply Hc0|exact Ha]).
    eapply wp_unfree; [exact Hc0|exact Ha|].
    do 3 (wp_pures; apply wp_pstore_again; [done|]). wp_pures.
    set (g := set_refcount _ ∘ _).
    eapply wp_pload; [unfold pm_pages at 1; simpl; rewrite lookup_alter_eq;
      by erewrite removed_self; [|apply Hc0|exact Ha]|].
    simpl refcount. rewrite Hr0 by done. change (u32 (0 + 1) =? 1) with true. cbv iota.
    wp_pures. apply wp_pstore_again; [done|].
    destruct (pmm_core_unfree s0 l1 a l2 p (set_u2 1 ∘ g)) as (Hc1 & Hf1 & Ha1);
      [done|done|apply retain_flags_free| |simpl; apply u32_range|].
    { unfold is_page_dirty. simpl. fold (retain_flags (flags p)). by rewrite retain_flags_dirty. }
    wp_pures. apply wp_release; [done|].
    eapply Hfree; [done|split; [by apply pmm_core_lock|done]|by eapply pmm_frame_lock|].
    unfold put_lock. unfold pm_pages at 1. simpl. etransitivity; [exact Ha1|]. simpl.
    unfold set_u2, set_refcount. simpl. by rewrite Hr0.
  - wp_pures. apply wp_pstore; [by eexists|]. wp_pures.
    eapply wp_pload; [unfold pm_pages at 1; simpl; rewrite lookup_alter_eq; unfold pm_pages, s0; simpl;
      fold (pm_pages s); by rewrite Ha|]. simpl refcount.
    destruct (u32 (refcount p + 1) =? 1) eqn:H1; wp_pures.
    + apply wp_pstore_again; [by eexists|]. wp_pures. apply wp_release; [done|].
      destruct (pmm_core_update s0 L a p (set_u2 1 ∘ set_refcount (λ n, u32 (n + 1)))) as (Hc1 & Hf1 & Ha1);
        [done|done|done|done|done|apply u32_range|].
      apply Hused; [done|split; [by apply pmm_core_lock|done]|by eapply pmm_frame_lock|exact Ha1].
    + apply wp_release; [done|].
      destruct (pmm_core_update s0 L a p (set_refcount (λ n, u32 (n + 1)))) as (Hc1 & Hf1 & Ha1);
        [done|done|done|done|done|apply u32_range|].
      apply Hused; [done|split; [by apply pmm_core_lock|done]|by eapply pmm_frame_lock|exact Ha1].
Qed.

(** ** Sharing and copy-on-write marks, of pages in use *)

(** What [pmm_page_share] and [pmm_page_unshare] make of a page in use. *)
Definition share_page (p : page_t) : page_t :=
  let p := if is_page_shared p then p
           else let p := set_flags (λ f, Z.lor f PAGE_SHARED) p in if u2 p =? 0 then set_u2 1 p else p in
  set_u2 (u64 (u2 p + 1)) p.
Definition unshare_page (p : page_t) : page_t :=
  if is_page_shared p then
    let p := if u2 p >? 0 then set_u2 (u64 (u2 p - 1)) p else p in
    if u2 p <=? 1 then set_flags (λ f, Z.land f (not32 PAGE_SHARED)) p else p
  else p.

(** Unsharing undoes sharing, whatever happened to the count of references. *)
Lemma unshare_share p g :
  is_page_shared p = false → u2 p = 1 → 0 ≤ flags p < 2 ^ 32 →
  unshare_page (set_refcount g (share_page p)) = set_refcount g p.
Proof.
  intros Hs Hu Hfl. assert (share_page p = mkPage (u1_next p) 2 (Z.lor (flags p) PAGE_SHARED) (refcount p)) as ->.
  { unfold share_page. rewrite Hs. unfold set_u2, set_flags. simpl. by rewrite Hu. }
  unfold unshare_page, is_page_shared. simpl flags. rewrite flag_lor.
  change (flag PAGE_SHARED PAGE_SHARED) with true. rewrite orb_true_r. simpl.
  destruct p as [nx u fl rc]. unfold set_flags, set_u2, set_refcount. simpl in *. subst u. f_equal.
  unfold is_page_shared in Hs; simpl in Hs. unfold PAGE_SHARED in *. rewrite flag_testbit in Hs by lia.
  apply Z.bits_inj'. intros n Hn. rewrite Z.land_spec, Z.lor_spec.
  unfold not32, u32. rewrite Z.testbit_mod_pow2, Z.lnot_spec, Z.pow2_bits_eqb by lia.
  destruct (decide (n < 32)) as [Hlt|Hge].
  - rewrite (proj2 (Z.ltb_lt _ _)) by lia. destruct (Z.eqb_spec 3 n) as [<-|]; simpl.
    + by rewrite andb_false_r.
    + by rewrite orb_false_r, andb_true_r.
  - rewrite (proj2 (Z.ltb_ge _ _)) by lia. rewrite andb_false_l, andb_false_r. symmetry.
    apply Z.bits_above_log2; [lia|]. destruct (decide (fl = 0)) as [->|]; [simpl; lia|].
    assert (Z.log2 fl < 32) by (apply Z.log2_lt_pow2; lia). lia.
Qed.

Lemma wp_pstore_at s a p f (Q : unit → pmm → Prop) :
  pm_pages s !! a = Some p →
  Q tt (put_pm (<[a := f p]> (pm_pages s)) (free_list s) (free_pages s) s) → wp (pstore a f) Q s.
Proof. intros Ha HQ. apply wp_pstore; [by eexists|]. by rewrite (alter_const _ p). Qed.

(** The same once page [a] is known to hold [x]. *)
Lemma wp_pload_known s pg fl n a x (Q : page_t → pmm → Prop) :
  Q x (put_pm (<[a := x]> pg) fl n s) → wp (pload a) Q (put_pm (<[a := x]> pg) fl n s).
Proof. intros. eapply wp_pload; [|done]. unfold pm_pages; simpl. by rewrite lookup_insert_eq. Qed.
Lemma wp_pstore_known s pg fl n a x f (Q : unit → pmm → Prop) :
  Q tt (put_pm (<[a := f x]> pg) fl n s) → wp (pstore a f) Q (put_pm (<[a := x]> pg) fl n s).
Proof.
  intros. eapply (wp_pstore_at _ _ x); unfold pm_pages; simpl; [by rewrite lookup_insert_eq|].
  by rewrite insert_insert_eq.
Qed.

(** An operation that under the lock turns page [a], in use, from [p] into [x]
    and does nothing else. *)
Lemma wp_page_update s L a p x (m : M pmm unit) (Q : unit → pmm → Prop) :
  pmm_inv s L → pm_pages s !! a = Some p → is_page_free p = false →
  is_page_free x = false → is_page_dirty x = is_page_dirty p → refcount x = refcount p →
  (∀ s0 (Q' : unit → pmm → Prop), pm_pages s0 !! a = Some p →
     wp (pmm_release me) Q' (put_pm (<[a := x]> (pm_pages s0)) (free_list s0) (free_pages s0) s0) →
     wp m Q' s0) →
  (∀ s', pmm_inv s' L → pmm_frame [a] s s' → pm_pages s' !! a = Some x → Q tt s') →
  wp (pmm_acquire me ;; m) Q s.
Proof.
  intros [Hc Hl] Ha Hnf Hfr Hdt Hrc Hm HQ. apply wp_bind, wp_acquire; [done|].
  set (s0 := put_lock _ s) in *. assert (pmm_core s0 L) as Hc0 by (by apply pmm_core_lock).
  destruct (pc_pages _ _ Hc _ _ Ha) as (_ & _ & Hr & Hd).
  destruct (pmm_core_update s0 L a p (λ _, x)) as (Hc1 & Hf1 & Ha1); [done|done|done|done|congruence|by rewrite Hrc|].
  rewrite (alter_const _ p) in Hc1, Hf1, Ha1 by done.
  apply Hm; [done|]. apply wp_release; [done|].
  apply HQ; [split; [by apply pmm_core_lock|done]|by eapply pmm_frame_lock|exact Ha1].
Qed.

Ltac page_steps :=
  repeat (wp_pures; first [apply wp_pload_known | apply wp_pstore_known]; cbv beta).

Lemma wp_pmm_page_share s L a p (Q : unit → pmm → Prop) :
  pmm_inv s L → pm_pages s !! a = Some p → is_page_free p = false →
  (∀ s', pmm_inv s' L → pmm_frame [a] s s' → pm_pages s' !! a = Some (share_page p) → Q tt s') →
  wp (pmm_page_share me a) Q s.
Proof.
  intros HI Ha Hnf HQ. unfold pmm_page_share.
  rewrite (proj2 (Z.eqb_neq _ _)) by (eapply pmm_page_nonzero; [apply HI|done]).
  assert (is_page_free (share_page p) = false ∧ is_page_dirty (share_page p) = is_page_dirty p ∧
          refcount (share_page p) = refcount p) as (H1 & H2 & H3).
  { unfold share_page, is_page_free, is_page_dirty in *. simpl.
    destruct (is_page_shared p), (u2 p =? 0); simpl; flag_simp; done. }
  eapply (wp_page_update s L a p (share_page p)); [done..| |done].
  intros s0 Q' Ha0 HQ'. wp_pures. eapply wp_pload; [done|].
  unfold share_page, when in *. destruct (is_page_shared p); simpl negb; cbv iota; wp_pures.
  - eapply wp_pload; [done|]. wp_pures. by eapply wp_pstore_at.
  - simpl in *. eapply wp_pstore_at; [done|]. page_steps. simpl u2.
    destruct (u2 p =? 0); wp_pures; page_steps; done.
Qed.

Lemma wp_pmm_page_unshare s L a p (Q : unit → pmm → Prop) :
  pmm_inv s L → pm_pages s !! a = Some p → is_page_free p = false →
  (∀ s', pmm_inv s' L → pmm_frame [a] s s' → pm_pages s' !! a = Some (unshare_page p) → Q tt s') →
  wp (pmm_page_unshare me a) Q s.
Proof.
  intros HI Ha Hnf HQ. unfold pmm_page_unshare.
  rewrite (proj2 (Z.eqb_neq _ _)) by (eapply pmm_page_nonzero; [apply HI|done]).
  assert (is_page_free (unshare_page p) = false ∧ is_page_dirty (unshare_page p) = is_page_dirty p ∧
          refcount (unshare_page p) = refcount p) as (H1 & H2 & H3).
  { unfold unshare_page, is_page_free, is_page_dirty in *.
    destruct (is_page_shared p), (u2 p >? 0); [| |done|done]; case_match; try done;
      unfold set_flags, set_u2; cbn [flags refcount]; flag_simp; done. }
  eapply (wp_page_update s L a p (unshare_page p)); [done..| |done].
  intros s0 Q' Ha0 HQ'. wp_pures. eapply wp_pload; [done|].
  unfold unshare_page, when in *. destruct (is_page_shared p); simpl negb; cbv iota; wp_pures.
  - destruct (u2 p >? 0); wp_pures; [eapply wp_pstore_at; [done|]; page_steps|eapply wp_pload; [done|]];
      simpl u2 in *; case_match; wp_pures; page_steps; try done.
    + by eapply wp_pstore_at.
    + by rewrite insert_id in HQ' by done; destruct s0 as [[]].
  - by rewrite insert_id in HQ' by done; destruct s0 as [[]].
Qed.

Lemma wp_pmm_cow s L a p (Q : unit → pmm → Prop) (b : bool) :
  pmm_inv s L → pm_pages s !! a = Some p → is_page_free p = false →
  (∀ s', pmm_inv s' L → pmm_frame [a] s s' →
     pm_pages s' !! a = Some (set_flags (λ f, if b then Z.lor f PAGE_COW else Z.land f (not32 PAGE_COW)) p) → Q tt s') →
  wp (if b then pmm_page_mark_cow me a else pmm_page_clear_cow me a) Q s.
Proof.
  intros HI Ha Hnf HQ. unfold pmm_page_mark_cow, pmm_page_clear_cow.
  rewrite (proj2 (Z.eqb_neq _ _)) by (eapply pmm_page_nonzero; [apply HI|done]).
  unfold is_page_free in Hnf. destruct b.
  - eapply wp_page_update; [done..| | | | |done]; unfold is_page_free, is_page_dirty; simpl; try done; try (flag_simp; done).
    intros s0 Q' Ha0 HQ'. wp_pures. by eapply wp_pstore_at.
  - eapply wp_page_update; [done..| | | | |done]; unfold is_page_free, is_page_dirty; simpl; try done; try (flag_simp; done).
    intros s0 Q' Ha0 HQ'. wp_pures. by eapply wp_pstore_at.
Qed.

(** ** Contiguous allocation *)

(** The pages [i .. i + count - 1] are all free. *)
Definition run_free (d : pfn_db) (L : list Z) (i count : Z) : Prop :=
  ∀ j, 0 ≤ j < count → page_at d (i + j) ∈ L.

Lemma pmm_page_at s L i :
  pmm_core s L → 0 ≤ i ≤ max_pfn (pm_db s) → ∃ p, pm_pages s !! page_at (pm_db s) i = Some p.
Proof.
  intros [[_ _ _ Hd] _ _ _] Hi. apply elem_of_dom, Hd. eauto.
Qed.

Lemma wp_run_loop s L i count (Q : option Z → pmm → Prop) :
  pmm_core s L → 0 ≤ i → 0 ≤ count → i + count - 1 ≤ max_pfn (pm_db s) →
  (run_free (pm_db s) L i count → Q None s) →
  (∀ j, 0 ≤ j < count → page_at (pm_db s) (i + j) ∉ L → Q (Some j) s) →
  wp (loop (S (Z.to_nat count)) (run_round i count) 0) Q s.
Proof.
  intros Hc Hi Hcnt Hmax Hall Hbad.
  eapply (wp_loop (λ n j s', s' = s ∧ 0 ≤ j ≤ count ∧ n = Z.to_nat (count - j) ∧
     run_free (pm_db s) L i j)); [|split_and!; [done|lia|lia|done|]|].
  { rewrite Z.sub_0_r. lia. }
  { intros j Hj. lia. }
  intros n j s' (-> & Hj & -> & Hrun). unfold run_round.
  destruct (Z.ltb_spec j count) as [Hlt|Hge]; wp_pures.
  - destruct (pmm_page_at s L (i + j) Hc) as [p Hp]; [lia|]. eapply wp_pload; [exact Hp|].
    destruct (pc_pages _ _ Hc _ _ Hp) as (-> & _). case_bool_decide as Hin; wp_pures.
    + exists (Z.to_nat (count - (j + 1))). split; [lia|]. split_and!; [done|lia|lia|done|].
      intros k Hk. destruct (decide (k = j)) as [->|]; [done|]. apply Hrun. lia.
    + apply Hbad; [lia|done].
  - apply Hall. by replace count with j by lia.
Qed.

(** What allocating the run at [i] does. *)
Record run_taken (i count : Z) (s : pmm) (L : list Z) (s' : pmm) (L' : list Z) : Prop := mkTaken {
  rt_core : pmm_core s' L';
  rt_list : ∀ b, b ∈ L' ↔ b ∈ L ∧ ∀ j, 0 ≤ j < count → b ≠ page_at (pm_db s) (i + j);
  rt_frame : pmm_frame ((λ j, page_at (pm_db s) (i + j)) <$> seqZ 0 count) s s';
  rt_pages : ∀ j p, 0 ≤ j < count → pm_pages s !! page_at (pm_db s) (i + j) = Some p →
    pm_pages s' !! page_at (pm_db s) (i + j) = Some (mkPage 0 1 (alloc_flags (flags p)) 1);
  rt_lock : pmm_lock s' = pmm_lock s;
}.

Lemma page_at_inj d i j : page_at d i = page_at d j → i = j.
Proof. unfold page_at, sizeof_page. lia. Qed.

Lemma wp_take_run s L i count (Q : unit → pmm → Prop) :
  pmm_core s L → 0 ≤ i → 0 ≤ count → i + count - 1 ≤ max_pfn (pm_db s) → run_free (pm_db s) L i count →
  (∀ s' L', run_taken i count s L s' L' → Q tt s') →
  wp (for_n 0 (Z.to_nat count) (λ j, take_page (page_at (pm_db s) (i + j)))) Q s.
Proof.
  intros Hc Hi Hcnt Hmax Hrun HQ.
  apply (wp_for_n (λ j s', ∃ L', run_taken i j s L s' L')).
  - exists L. constructor; [done| |apply pmm_frame_refl|lia|done].
    intros b. split; [|by intros [? _]]. intros ?. split; [done|lia].
  - intros j s1 Hj (L1 & [Hc1 HL1 Hf1 Hp1 Hl1]).
    set (a := page_at (pm_db s) (i + j)).
    assert (a ∈ L1) as Ha1.
    { apply HL1. split; [apply Hrun; lia|]. intros k Hk Heq. apply page_at_inj in Heq. lia. }
    destruct (list_elem_of_split _ _ Ha1) as (l1 & l2 & ->).
    destruct (linked_in _ _ _ a (pc_links _ _ Hc1)) as [p Hp]; [done|].
    eapply wp_take_page; [exact Hc1|exact Hp|]. intros s2 Hc2 Hf2 Hl2 Ha2.
    pose proof (pc_links _ _ Hc1) as (_ & Hnd & _).
    assert (a ∉ l1 ++ l2) as Hna.
    { apply NoDup_app in Hnd as (_ & ? & [? _]%NoDup_cons). set_solver. }
    exists (l1 ++ l2). constructor.
    + done.
    + intros b. split.
      * intros Hb. destruct (proj1 (HL1 b)) as [HbL Hbne]; [set_solver|]. split; [done|].
        intros k Hk. destruct (decide (k = j)) as [->|]; [|apply Hbne; lia].
        fold a. intros ->. done.
      * intros [HbL Hbne]. assert (b ∈ l1 ++ a :: l2) as Hb by (apply HL1; split; [done|intros; apply Hbne; lia]).
        assert (b ≠ a) by (apply Hbne; lia). set_solver.
    + eapply pmm_frame_mono; [by eapply pmm_frame_trans|]. intros b [Hb|Hb]%elem_of_app.
      * apply list_elem_of_fmap in Hb as (k & -> & Hk). apply list_elem_of_fmap.
        exists k. split; [done|]. rewrite elem_of_seqZ in *. lia.
      * apply list_elem_of_singleton in Hb as ->. apply list_elem_of_fmap. exists j.
        split; [done|]. apply elem_of_seqZ. lia.
    + intros k q Hk Hq. destruct (decide (k = j)) as [->|Hkj].
      * assert (pstate p = pstate q) as Hst.
        { assert (page_at (pm_db s) (i + j) ∉ (λ j, page_at (pm_db s) (i + j)) <$> seqZ 0 j) as Hni.
          { rewrite list_elem_of_fmap. intros (k & Heq & Hk'). apply page_at_inj in Heq.
            rewrite elem_of_seqZ in Hk'. lia. }
          pose proof (pf_state _ _ _ Hf1 _ Hni) as Hst. fold a in Hst, Hq. rewrite Hp, Hq in Hst.
          simpl in Hst. by apply (inj Some) in Hst. }
        fold a. rewrite Ha2. unfold pstate in Hst. by injection Hst as -> _.
      * eapply (pf_used _ _ _ Hf2).
        -- rewrite list_elem_of_singleton. intros Heq. apply page_at_inj in Heq. lia.
        -- apply Hp1; [lia|done].
        -- apply alloc_flags_free.
    + congruence.
  - intros s' (L' & Ht). rewrite Z2Nat.id in Ht by lia. rewrite Z.add_0_l in Ht. by eapply HQ.
Qed.

Lemma wp_pmm_alloc_pages s L count (Q : Z → pmm → Prop) :
  pmm_inv s L → 2 ≤ count → max_pfn (pm_db s) + count < 2 ^ 64 →
  ((∀ i, 0 ≤ i → i + count - 1 ≤ max_pfn (pm_db s) → ¬ run_free (pm_db s) L i count) → Q 0 s) →
  (∀ i s' L', 0 ≤ i → i + count - 1 ≤ max_pfn (pm_db s) → run_free (pm_db s) L i count →
     (∀ k, 0 ≤ k < i → ¬ run_free (pm_db s) L k count) →
     run_taken i count s L s' L' → pmm_inv s' L' → Q (page_at (pm_db s) i) s') →
  wp (pmm_alloc_pages me count) Q s.
Proof.
  intros [Hc Hl] Hcnt Hovf Hnone Hsome. unfold pmm_alloc_pages.
  rewrite !(proj2 (Z.eqb_neq _ _)) by lia. wp_pures. apply wp_acquire; [done|]. wp_pures.
  set (s0 := put_lock _ s). assert (pmm_core s0 L) as Hc0 by (by apply pmm_core_lock).
  pose proof (wf_max _ (pc_wf _ _ Hc)) as Hmax.
  change (max_pfn (pm_db s0)) with (max_pfn (pm_db s)).
  eapply (wp_loop (λ n i s', s' = s0 ∧ 0 ≤ i ≤ max_pfn (pm_db s) + 1 ∧ n = Z.to_nat (max_pfn (pm_db s) + 1 - i) ∧
     ∀ k, 0 ≤ k < i → ¬ run_free (pm_db s) L k count)); [|split_and!; [done|lia|lia|done|lia]|].
  { rewrite Z.sub_0_r. lia. }
  intros n i s' (-> & Hi & -> & Hbefore). unfold alloc_round. wp_pures.
  rewrite u64_id by lia. change (pm_db s0) with (pm_db s).
  destruct (Z.leb_spec (i + count - 1) (max_pfn (pm_db s))) as [Hle|Hgt]; wp_pures.
  - eapply wp_run_loop; [exact Hc0|lia|lia|done| |].
    + intros Hrun. wp_pures. eapply (wp_take_run s0 L); [done|lia|lia|done|done|].
      intros s1 L1 Ht. wp_pures. apply wp_release; [apply Ht|]. wp_pures.
      destruct Ht as [H1 H2 H3 H4 H5].
      eapply (Hsome i _ L1); [lia|done|done|done| |split; [by apply pmm_core_lock|done]].
      constructor; [by apply pmm_core_lock|done|by eapply pmm_frame_lock|done|done].
    + intros j Hj Hnot. wp_pures. rewrite u64_id by lia. exists (Z.to_nat (max_pfn (pm_db s) + 1 - (i + j + 1))).
      split; [lia|]. split_and!; [done|lia|lia|done|].
      intros k Hk Hrun. destruct (decide (k < i)); [apply (Hbefore k); [lia|done]|].
      apply Hnot. replace (i + j) with (k + (i + j - k)) by lia. apply Hrun. lia.
  - apply wp_release; [done|]. wp_pures.
    replace (put_lock unlocked s0) with s by (unfold s0; rewrite <-Hl; by destruct s).
    apply Hnone. intros k Hk Hk' Hrun. eapply (Hbefore k); [lia|done].
Qed.

(** ** Initialisation *)

(** The descriptors as the page-frame database hands them over. *)
Definition boot_ok (s : pmm) : Prop :=
  db_wf (pm_db s) ∧ pmm_lock s = unlocked ∧
  ∀ a p, pm_pages s !! a = Some p →
    0 ≤ refcount p < 2 ^ 32 ∧ is_page_dirty p = false ∧ (is_page_free p = true → refcount p = 0).

(** The loop has dealt with the pages below [i]. *)
Record init_inv (s0 : pmm) (i : Z) (s : pmm) (L : list Z) : Prop := mkInit {
  in_db : mem_map (pm_db s) = mem_map (pm_db s0) ∧ max_pfn (pm_db s) = max_pfn (pm_db s0) ∧
          pfn_db_phys (pm_db s) = pfn_db_phys (pm_db s0) ∧ total_pages s = total_pages s0;
  in_dom : dom (pm_pages s) = dom (pm_pages s0);
  in_state : ∀ b, pstate <$> pm_pages s !! b = pstate <$> pm_pages s0 !! b;
  in_links : linked (pm_pages s) (free_list s) L;
  in_list : ∀ b, b ∈ L ↔ ∃ k p, 0 ≤ k < i ∧ b = page_at (pm_db s0) k ∧ pm_pages s0 !! b = Some p ∧ is_page_free p = true;
  in_count : free_pages s = Z.of_nat (length L) ∧ Z.of_nat (length L) ≤ i;
  in_lock : pmm_lock s = pmm_lock s0;
}.

Lemma wp_init_page s0 i s L (Q : unit → pmm → Prop) :
  db_wf (pm_db s0) → 0 ≤ i ≤ max_pfn (pm_db s0) → init_inv s0 i s L →
  (∀ s' L', init_inv s0 (i + 1) s' L' → Q tt s') → wp (init_page i) Q s.
Proof.
  intros Hwf Hi [Hdb Hdom Hst HL Hin [Hn Hle] Hlk] HQ. unfold init_page. wp_pures.
  set (a := page_at (pm_db s) i).
  assert (a = page_at (pm_db s0) i) as Ha by (unfold a, page_at; destruct Hdb as (-> & _); done).
  assert (a ∈ dom (pm_pages s)) as [p Hp]%elem_of_dom by (rewrite Hdom; apply (wf_dom _ Hwf); eauto).
  assert (0 < a) as Ha0 by (rewrite Ha; destruct Hwf as [? _ _ _]; unfold page_at, sizeof_page; lia).
  assert (∃ p0, pm_pages s0 !! a = Some p0 ∧ pstate p = pstate p0) as (p0 & Hp0 & Hps).
  { specialize (Hst a). rewrite Hp in Hst. destruct (pm_pages s0 !! a) as [p0|]; [|done].
    exists p0. split; [done|]. by apply (inj Some) in Hst. }
  assert (is_page_free p = is_page_free p0) as Hfree.
  { unfold pstate in Hps. injection Hps as Hfl _. unfold is_page_free. by rewrite Hfl. }
  assert (a ∉ L) as HaL.
  { intros (k & _ & Hk & Heq & _)%Hin. rewrite Ha in Heq. apply page_at_inj in Heq. lia. }
  eapply wp_pload; [exact Hp|]. rewrite Hfree.
  set (pg1 := alter (set_u2 0 ∘ set_next 0) a (pm_pages s)).
  set (s1 := put_pm pg1 (free_list s) (free_pages s) s).
  assert (linked pg1 (free_list s) L) as HL1 by (apply linked_alter; [done|by left]).
  assert (∀ b, pstate <$> pg1 !! b = pstate <$> pm_pages s !! b) as Hst1.
  { intros b. unfold pg1. rewrite lookup_alter. case_decide; [subst b|done]. by rewrite Hp. }
  assert (dom pg1 = dom (pm_pages s)) as Hdom1 by (apply dom_alter_L).
  assert (∀ b, b ∈ L ∨ (is_page_free p0 = true ∧ b = a) ↔
     ∃ k p, 0 ≤ k < i + 1 ∧ b = page_at (pm_db s0) k ∧ pm_pages s0 !! b = Some p ∧ is_page_free p = true) as Hin'.
  { intros b. rewrite Hin. split.
    - intros [(k & q & Hk & ?)|[? ->]]; [exists k, q; split; [lia|done]|exists i, p0; split_and!; (done || lia)].
    - intros (k & q & Hk & -> & Hq & Hf). destruct (decide (k = i)) as [->|].
      + right. rewrite Ha. split; [|done]. rewrite <-Ha in Hq. congruence.
      + left. exists k, q. split_and!; (done || lia). }
  destruct (is_page_free p0) eqn:Hf0; wp_pures.
  - apply wp_pstore; [by eexists|]. wp_pures. apply wp_pstore_again; [by eexists|]. wp_pures. fold pg1 s1.
    assert (pg1 !! a = Some (set_u2 0 (set_next 0 p))) as Hpa by (unfold pg1; by rewrite lookup_alter_eq, Hp).
    assert (a ≠ free_list s) as Hne.
    { destruct HL1 as (-> & _). destruct L; simpl; [lia|set_solver]. }
    apply wp_free_list_push; [by eexists| |].
    { intros Hf. unfold s1 in *; simpl in *. destruct L as [|b L];
        [destruct HL1 as (Hx & _); simpl in Hx; congruence|].
      destruct (linked_in _ _ _ b HL1) as [? Hb]; [set_solver|]. destruct HL1 as (-> & _). simpl. by eexists. }
    unfold set_free_pages. wp_pures. apply (HQ _ (a :: L)). constructor; simpl.
    + done.
    + unfold pm_pages; simpl. rewrite push_dom. unfold s1, pm_pages; simpl. by rewrite Hdom1.
    + intros b. unfold pm_pages at 1; simpl. rewrite (push_field pstate) by done.
      unfold s1, pm_pages; simpl. by rewrite Hst1.
    + unfold pm_pages; simpl. apply linked_push; [exact HL1|done|lia|by eexists].
    + intros b. rewrite <-Hin', elem_of_cons. naive_solver.
    + rewrite Hn. split; [|lia]. rewrite u64_id; [lia|]. destruct Hwf as [? ? Ht _].
      unfold page_at, sizeof_page in Ht. lia.
    + done.
  - apply wp_pstore; [by eexists|]. wp_pures. apply wp_pstore_again; [by eexists|]. fold pg1 s1.
    apply (HQ _ L). constructor; simpl.
    + done.
    + unfold pm_pages; simpl. by rewrite Hdom1.
    + intros b. unfold pm_pages at 1; simpl. by rewrite Hst1.
    + done.
    + intros b. rewrite <-Hin'. naive_solver.
    + split; [done|lia].
    + done.
Qed.

Lemma wp_pmm_init s (Q : unit → pmm → Prop) :
  boot_ok s →
  (∀ s' L, pmm_inv s' L → pm_db s' = put_pages (pm_pages s') (pm_db s) →
     total_pages s' = max_pfn (pm_db s) + 1 → dom (pm_pages s') = dom (pm_pages s) →
     (∀ b, pstate <$> pm_pages s' !! b = pstate <$> pm_pages s !! b) → Q tt s') →
  wp (pmm_init me) Q s.
Proof.
  intros (Hwf & Hlk & Hpg) HQ. unfold pmm_init. wp_pures. apply wp_acquire; [done|].
  unfold set_free_list, set_free_pages, set_total_pages. wp_pures. simpl.
  pose proof (wf_map _ Hwf). pose proof (wf_max _ Hwf). pose proof (wf_top _ Hwf) as Ht.
  unfold page_at, sizeof_page in Ht.
  rewrite (proj2 (Z.eqb_neq _ _)) by lia. wp_pures. set (s0 := mkPmm _ _ _ _ _).
  apply (wp_for_n (λ i s', ∃ L, init_inv s0 i s' L)).
  - exists []. constructor; try done; [split_and!; (done || apply NoDup_nil_2)|].
    intros b. split; [by intros ?%elem_of_nil|]. intros (k & ? & ? & _). lia.
  - intros i s1 Hi (L & HI). eapply (wp_init_page s0); [done|simpl; lia|exact HI|]. by eauto.
  - intros s1 (L & [(H1 & H2 & H3 & H4) Hdom Hst HL Hin [Hn Hle] Hl1]). apply wp_release; [done|].
    rewrite Z.add_0_l, Z2Nat.id in * by lia.
    assert (pm_db s1 = put_pages (pm_pages s1) (pm_db s)) as Hdb.
    { destruct s1 as [[]]. unfold put_pages, pm_pages. simpl in *. by subst. }
    apply (HQ _ L); [split; [|done]; constructor|done|..].
    + simpl. rewrite Hdb. by apply db_wf_put.
    + done.
    + intros b q Hq. specialize (Hst b). unfold pm_pages in Hq at 1; simpl in Hq.
      fold (pm_pages s1) in Hq. rewrite Hq in Hst.
      destruct (pm_pages s0 !! b) as [q0|] eqn:Hq0; [|done]. apply (inj Some) in Hst.
      apply (page_ok_state _ _ q0); [done|]. destruct (Hpg b q0 Hq0) as (Hr & Hd & Hz).
      assert (b ∈ L ↔ is_page_free q0 = true) as HbL.
      { rewrite Hin. split; [intros (k & p & _ & _ & Hp & Hf); congruence|]. intros Hf.
        assert (b ∈ dom (pages (pm_db s))) as (i & Hi & ->)%(wf_dom _ Hwf) by (by apply elem_of_dom_2 in Hq0).
        exists i, q0. split_and!; (done || lia). }
      unfold page_ok. split_and!; [|intros ?; apply Hz; by apply HbL|lia|lia|done].
      destruct (is_page_free q0); symmetry; [apply bool_decide_eq_true_2|apply bool_decide_eq_false_2];
        rewrite HbL; done.
    + done.
    + simpl. rewrite H4. simpl. rewrite u64_id by lia. done.
    + done.
    + done.
Qed.
End ops.
