(* ===== verification/PmmTheorems.v ===== *)
(** The contract of the page allocator. *)
From S2P Require Import Prelude DList Sync Pmm PmmSpec.

Section contract.
Context (me : Z).

(** C35: [pmm_init] returns, and from descriptors whose free pages are not
    referenced it builds a free list of exactly the free pages, with the
    counters to match, leaving every page's flags and reference count. *)
Theorem pmm_init_establishes s :
  boot_ok s →
  wp (pmm_init me) (λ _ s', ∃ L, pmm_inv s' L ∧ total_pages s' = max_pfn (pm_db s) + 1 ∧
    dom (pm_pages s') = dom (pm_pages s) ∧
    ∀ b, pstate <$> pm_pages s' !! b = pstate <$> pm_pages s !! b) s.
Proof. intros Hb. apply wp_pmm_init; [done|]. intros s' L HI _ Ht Hd Hs. by exists L. Qed.

(** [pmm_alloc_page] returns [NULL], changing nothing, exactly when no page
    is free; otherwise it returns a page that was free, now allocated and
    referenced once, and every other page keeps its flags and its count. *)
Theorem pmm_alloc_page_spec s L :
  pmm_inv s L →
  wp (pmm_alloc_page me) (λ r s',
    (r = 0 ∧ L = [] ∧ s' = s) ∨
    (∃ L' p, L = r :: L' ∧ r ≠ 0 ∧ pmm_inv s' L' ∧ pmm_frame [r] s s' ∧
       pm_pages s !! r = Some p ∧ pm_pages s' !! r = Some (mkPage 0 1 (alloc_flags (flags p)) 1) ∧
       flag (alloc_flags (flags p)) PAGE_ALLOCATED = true ∧ flag (alloc_flags (flags p)) PAGE_FREE = false ∧
       free_pages s' = free_pages s - 1)) s.
Proof.
  intros HI. eapply wp_pmm_alloc_page; [exact HI|by left; auto|].
  intros a L' p s' -> HI' Hf Hp Hp'. right. exists L', p.
  split_and!; [done| |done|done|done|done| |apply alloc_flags_free|].
  - eapply pmm_page_nonzero; [apply HI|exact Hp].
  - unfold alloc_flags. by flag_simp.
  - destruct HI as [[_ _ _ ->] _], HI' as [[_ _ _ ->] _]. simpl. lia.
Qed.

(** C19: [pmm_alloc_pages] of no page returns [NULL] and does nothing. Of one
    page it is [pmm_alloc_page]: [NULL], changing nothing, when no page is free,
    and otherwise the head of the free list, whatever its address. Of more it is
    first fit: it returns [NULL], changing nothing, exactly when no run of that
    many consecutive pages is free, and otherwise the lowest such run, every page
    of it allocated and referenced once and no other page touched. *)
Theorem pmm_alloc_pages_first_fit s L count :
  pmm_inv s L → 0 ≤ count → max_pfn (pm_db s) + count < 2 ^ 64 →
  wp (pmm_alloc_pages me count) (λ r s',
    (count = 0 ∧ r = 0 ∧ s' = s) ∨
    (count = 1 ∧ ((r = 0 ∧ L = [] ∧ s' = s) ∨
       (∃ L' p, L = r :: L' ∧ r ≠ 0 ∧ pmm_inv s' L' ∧ pmm_frame [r] s s' ∧
          pm_pages s !! r = Some p ∧ pm_pages s' !! r = Some (mkPage 0 1 (alloc_flags (flags p)) 1)))) ∨
    (2 ≤ count ∧
     ((r = 0 ∧ s' = s ∧ ∀ i, 0 ≤ i → i + count - 1 ≤ max_pfn (pm_db s) → ¬ run_free (pm_db s) L i count) ∨
      (∃ i L', 0 ≤ i ∧ i + count - 1 ≤ max_pfn (pm_db s) ∧ r = page_at (pm_db s) i ∧
         run_free (pm_db s) L i count ∧ (∀ k, 0 ≤ k < i → ¬ run_free (pm_db s) L k count) ∧
         run_taken i count s L s' L' ∧ pmm_inv s' L')))) s.
Proof.
  intros HI H0 Hov. destruct (decide (count = 0)) as [->|N0]; [unfold pmm_alloc_pages; simpl; wp_pures; by left|].
  destruct (decide (count = 1)) as [->|N1].
  - unfold pmm_alloc_pages. simpl. eapply wp_pmm_alloc_page; [exact HI|by right; left; auto|].
    intros a L' p s' -> HI' Hf Hp Hp'. right. left. split; [done|]. right. exists L', p. split_and!; try done.
    eapply pmm_page_nonzero; [apply HI|exact Hp].
  - eapply wp_pmm_alloc_pages; [exact HI|lia|done|..].
    + intros Hn. right. right. split; [lia|by left].
    + intros i s' L' ??????. right. right. split; [lia|]. right. by exists i, L'.
Qed.

(** C18: [pmm_page_release] does nothing to a page nobody references and drops
    one reference otherwise. When the last one goes and the page is not reserved
    it is marked free and put at the head of the free list, unless it is marked
    dirty: then the list and the count of free pages stay as they are, and the
    page, though marked free, is on no list. The page [a] may be dirty here; all
    else is as the allocator's invariant says. *)
Theorem pmm_page_release_spec s L a p :
  pmm_inv (unmarked a s) L → pm_pages s !! a = Some p →
  wp (pmm_page_release me a) (λ _ s',
    if decide (refcount p = 0) then s' = s
    else pmm_frame [a] s s' ∧
      if decide (refcount p = 1 ∧ is_page_reserved p = false)
      then (∃ p', pm_pages s' !! a = Some p' ∧ flags p' = free_flags (flags p) ∧ refcount p' = 0) ∧
           (if is_page_dirty p
            then free_list s' = free_list s ∧ free_pages s' = free_pages s ∧ a ∉ L ∧
                 linked (pm_pages s') (free_list s') L ∧ pmm_lock s' = unlocked
            else pmm_inv s' (a :: L) ∧ free_pages s' = free_pages s + 1)
      else pmm_inv (unmarked a s') L ∧ (is_page_dirty p = false → pmm_inv s' L) ∧
           pm_pages s' !! a = Some (mkPage (u1_next p) (u2 p) (flags p) (refcount p - 1))) s.
Proof.
  intros HI Ha. destruct (is_page_dirty p) eqn:Hd.
  - eapply wp_release_dirty; [exact HI|exact Ha|exact Hd|..].
    + intros Hz. by rewrite decide_True.
    + intros s' Hc HI' Hf Hp. rewrite decide_False by lia. split; [done|].
      rewrite decide_False; [done|]. destruct Hc as [Hc|[? Hc]]; [lia|rewrite Hc; naive_solver].
    + intros H1 Hr. rewrite decide_False, decide_True by (done || lia). destruct HI as [Hc Hl].
      destruct (unmarked_used _ _ _ _ Hc Ha) as (_ & _ & HaL & _ & HL); [lia|]. split; [apply pmm_frame_at|]. split.
      * exists (retired p). unfold pm_pages. simpl. rewrite lookup_alter_eq. fold (pm_pages s). by rewrite Ha.
      * split_and!; try done. apply linked_alter; [exact HL|by left].
  - pose proof (unmarked_id _ _ _ Ha Hd) as Hid. rewrite Hid in HI. eapply wp_pmm_page_release; [exact HI|exact Ha|..].
    + intros Hz. by rewrite decide_True.
    + intros s' Hc HI' Hf Hp. rewrite decide_False by lia. split; [done|].
      rewrite decide_False; [|destruct Hc as [Hc|[? Hc]]; [lia|rewrite Hc; naive_solver]].
      split; [|done]. by rewrite (unmarked_id _ _ _ Hp Hd).
    + intros s' p' H1 Hr HI' Hf Hp Hfl Hrc. rewrite decide_False by lia. split; [done|].
      rewrite decide_True by done. split; [by exists p'|]. split; [done|].
      destruct HI as [[_ _ _ ->] _], HI' as [[_ _ _ ->] _]. simpl. lia.
Qed.

(** [pmm_page_retain] of a free page allocates that page, wherever it is in
    the free list; of a page in use it adds one reference. *)
Theorem pmm_page_retain_spec s L a p :
  pmm_inv s L → pm_pages s !! a = Some p →
  wp (pmm_page_retain me a) (λ _ s', pmm_frame [a] s s' ∧
    if is_page_free p
    then ∃ l1 l2, L = l1 ++ a :: l2 ∧ pmm_inv s' (l1 ++ l2) ∧
           pm_pages s' !! a = Some (mkPage 0 1 (retain_flags (flags p)) 1)
    else pmm_inv s' L ∧ ∃ p', pm_pages s' !! a = Some p' ∧
           flags p' = flags p ∧ refcount p' = u32 (refcount p + 1)) s.
Proof.
  intros HI Ha. pose proof HI as [Hc _]. destruct (pc_pages _ _ Hc _ _ Ha) as (-> & _).
  eapply wp_pmm_page_retain; [exact HI|exact Ha|..].
  - intros s' l1 l2 -> HI' Hf Hp. split; [done|]. rewrite bool_decide_eq_true_2 by set_solver. eauto 10.
  - intros s' HaL HI' Hf Hp. split; [done|]. rewrite bool_decide_eq_false_2 by done.
    split; [done|]. by eexists.
Qed.

(** Sharing an allocated page and unsharing it gives the page back as it
    was, and both keep the allocator's invariant. *)
Theorem pmm_share_unshare s L a p :
  pmm_inv s L → pm_pages s !! a = Some p → is_page_free p = false → is_page_shared p = false →
  u2 p = 1 → 0 ≤ flags p < 2 ^ 32 →
  wp (pmm_page_share me a ;; pmm_page_unshare me a)
    (λ _ s', pmm_inv s' L ∧ pmm_frame [a] s s' ∧ pm_pages s' !! a = Some p) s.
Proof.
  intros HI Ha Hf Hs Hu Hfl. apply wp_bind.
  eapply wp_pmm_page_share; [exact HI|done|done|]. intros s1 HI1 Hf1 Ha1.
  assert (∀ x, set_refcount (λ n, n) x = x) as Hid by (by intros []).
  pose proof (unshare_share p (λ n, n) Hs Hu Hfl) as Hp2. rewrite !Hid in Hp2.
  eapply wp_pmm_page_unshare; [exact HI1|exact Ha1| |].
  { unfold is_page_free, share_page in *. rewrite Hs. simpl. rewrite Hu. simpl. by rewrite flag_lor, Hf. }
  intros s2 HI2 Hf2 Ha2. rewrite Hp2 in Ha2. split_and!; [done| |done].
  eapply pmm_frame_mono; [by eapply pmm_frame_trans|]. set_solver.
Qed.
End contract.

(** The page-frame database maps physical addresses to descriptors and
    back: every page of memory has a descriptor, whose address and frame number
    lead back to that page, and every descriptor is found from its page. *)
Theorem pfn_db_roundtrip d :
  db_wf d → max_pfn d < 2 ^ 52 →
  (∀ phys, 0 ≤ phys → phys / PAGE_SIZE ≤ max_pfn d →
     pfn_db_page_to_phys d (pfn_db_phys_to_page d phys) = ALIGN_DOWN phys PAGE_SIZE ∧
     pfn_db_getpfn d (pfn_db_phys_to_page d phys) = phys / PAGE_SIZE) ∧
  (∀ i, 0 ≤ i ≤ max_pfn d →
     pfn_db_phys_to_page d (pfn_db_pfnaddr d i) = pfn_db_getptr d i ∧ pfn_db_getptr d i = page_at d i).
Proof.
  intros [Hm Hx Ht _] Hs. unfold ALIGN_DOWN, pfn_db_phys_to_page, pfn_db_page_to_phys, pfn_db_getpfn,
    pfn_db_pfnaddr, pfn_db_getptr, page_at, sizeof_page in *. split.
  - intros phys Hp Hle. assert (0 ≤ phys / PAGE_SIZE) by (apply Z.div_pos; unfold PAGE_SIZE; lia).
    rewrite !Z.gtb_ltb, (proj2 (Z.ltb_ge (max_pfn d) _)) by lia.
    rewrite !(proj2 (Z.eqb_neq _ 0)) by lia. simpl.
    rewrite !(proj2 (Z.ltb_ge _ _)) by lia. simpl.
    replace (mem_map d + 64 * (phys / PAGE_SIZE) - mem_map d) with ((phys / PAGE_SIZE) * 64) by lia.
    rewrite Z.div_mul by lia. split; [|done]. apply u64_id. unfold PAGE_SIZE in *. lia.
  - intros i Hi. rewrite !Z.gtb_ltb, (proj2 (Z.ltb_ge (max_pfn d) i)) by lia.
    rewrite u64_id by (unfold PAGE_SIZE; lia). rewrite Z.div_mul by (unfold PAGE_SIZE; lia).
    rewrite (proj2 (Z.ltb_ge _ _)) by lia. done.
Qed.

(** * Witnesses: four pages, the first reserved *)

Definition ex_db (pg : gmap Z page_t) : pfn_db := mkDb 4096 3 0 pg.
Definition ex_pages : gmap Z page_t :=
  <[4096 := mkPage 0 0 PAGE_RESERVED 0]> (<[4160 := mkPage 0 4224 PAGE_FREE 0]>
  (<[4224 := mkPage 4160 4288 PAGE_FREE 0]> {[4288 := mkPage 4224 0 PAGE_FREE 0]})).
Definition ex_pmm : pmm := mkPmm (ex_db ex_pages) 4288 3 4 unlocked.

(** Go through the entries of a concrete map. *)
Ltac each_entry H :=
  repeat (apply lookup_insert_Some in H as [[<- <-]|[_ H]]; [|]);
  [..|try (apply lookup_singleton_Some in H as [<- <-])].

Lemma ex_wf pg :
  dom pg = dom ex_pages → db_wf (ex_db pg).
Proof.
  intros Hd. constructor; [done..|]. intros a. simpl. rewrite Hd.
  unfold ex_pages. rewrite !dom_insert_L, dom_singleton_L. unfold page_at, sizeof_page; simpl.
  rewrite !elem_of_union, !elem_of_singleton. split.
  - intros [->|[->|[->| ->]]]; [exists 0|exists 1|exists 2|exists 3]; lia.
  - intros (i & Hi & ->). lia.
Qed.

Lemma ex_pmm_inv : pmm_inv ex_pmm [4288; 4224; 4160].
Proof.
  split; [|done]. constructor.
  - by apply ex_wf.
  - split_and!; try done. apply (bool_decide_unpack _). by vm_compute.
  - intros a p Hp. unfold pm_pages, ex_pmm, ex_db, ex_pages in Hp; simpl in Hp.
    each_entry Hp; (split_and!; [by vm_compute|done|simpl; lia|simpl; lia|done]).
  - done.
Qed.

Lemma pmm_init_establishes_witness :
  wp (pmm_init 0) (λ _ s', ∃ L, pmm_inv s' L ∧ total_pages s' = 3 + 1 ∧
    dom (pm_pages s') = dom (pm_pages ex_pmm) ∧
    ∀ b, pstate <$> pm_pages s' !! b = pstate <$> pm_pages ex_pmm !! b) ex_pmm.
Proof.
  apply (pmm_init_establishes 0 ex_pmm). split; [by apply ex_wf|]. split; [reflexivity|].
  intros a p Hp. unfold pm_pages, ex_pmm, ex_db, ex_pages in Hp; simpl in Hp.
  each_entry Hp; (split_and!; [simpl; lia|simpl; lia|reflexivity|reflexivity]).
Defined.
Lemma pmm_alloc_page_spec_witness :
  wp (pmm_alloc_page 0) (λ r s', r ≠ 0 → free_pages s' = 2) ex_pmm.
Proof.
  eapply wp_mono; [apply (pmm_alloc_page_spec 0 ex_pmm [4288; 4224; 4160] ex_pmm_inv)|].
  intros r s' [(-> & ? & _)|(L' & p & _ & _ & _ & _ & _ & _ & _ & _ & ->)] Hr; [done|reflexivity].
Defined.
Lemma pmm_alloc_pages_first_fit_witness :
  wp (pmm_alloc_pages 0 2) (λ r s', r ≠ 0 → ∃ i L', r = page_at (pm_db ex_pmm) i ∧
      run_free (pm_db ex_pmm) [4288; 4224; 4160] i 2 ∧ pmm_inv s' L') ex_pmm ∧
  wp (pmm_alloc_pages 0 1) (λ r s', r ≠ 0 → r = 4288) ex_pmm.
Proof.
  split.
  - eapply wp_mono; [apply (pmm_alloc_pages_first_fit 0 ex_pmm [4288; 4224; 4160] 2 ex_pmm_inv); simpl; lia|].
    intros r s' [[? _]|[[? _]|[_ [[-> _]|(i & L' & _ & _ & Hr & Hf & _ & _ & HI)]]]] Hnz; [lia|lia|done|]. by exists i, L'.
  - eapply wp_mono; [apply (pmm_alloc_pages_first_fit 0 ex_pmm [4288; 4224; 4160] 1 ex_pmm_inv); simpl; lia|].
    intros r s' [[? _]|[[_ [[-> _]|(L' & p & Hr & _)]]|[? _]]] Hnz; [lia|done| |lia]. by injection Hr as <- <-.
Defined.

Definition ex_used : page_t := mkPage 0 1 PAGE_ALLOCATED 1.
Definition ex_pmm1 : pmm :=
  mkPmm (ex_db (<[4096 := mkPage 0 0 PAGE_RESERVED 0]> (<[4160 := ex_used]>
    (<[4224 := mkPage 0 4288 PAGE_FREE 0]> {[4288 := mkPage 4224 0 PAGE_FREE 0]})))) 4288 2 4 unlocked.
Lemma ex_pmm1_inv : pmm_inv ex_pmm1 [4288; 4224].
Proof.
  split; [|done]. constructor.
  - by apply ex_wf.
  - split_and!; try done. apply (bool_decide_unpack _). by vm_compute.
  - intros a p Hp. unfold pm_pages, ex_pmm1, ex_db in Hp; simpl in Hp.
    each_entry Hp; (split_and!; [by vm_compute| |simpl; lia|simpl; lia|done]);
      try done; intros Hin; by apply (bool_decide_pack _) in Hin.
  - done.
Qed.

(** The page in use, marked dirty. *)
Definition ex_dirty : pmm :=
  put_pm (alter (set_flags (λ f, Z.lor f PAGE_DIRTY)) 4160 (pm_pages ex_pmm1)) (free_list ex_pmm1) (free_pages ex_pmm1) ex_pmm1.
Lemma ex_dirty_inv : pmm_inv (unmarked 4160 ex_dirty) [4288; 4224].
Proof.
  replace (unmarked 4160 ex_dirty) with ex_pmm1; [exact ex_pmm1_inv|]. vm_compute. reflexivity.
Qed.

Lemma pmm_page_release_spec_witness :
  wp (pmm_page_release 0 4160) (λ _ s', free_pages s' = 3) ex_pmm1 ∧
  wp (pmm_page_release 0 4160) (λ _ s', free_pages s' = 2 ∧ free_list s' = 4288) ex_dirty.
Proof.
  split.
  - eapply wp_mono; [apply (pmm_page_release_spec 0 ex_pmm1 [4288; 4224] 4160 ex_used)|].
    + rewrite (unmarked_id 4160 ex_pmm1 ex_used) by reflexivity. exact ex_pmm1_inv.
    + reflexivity.
    + intros [] s' H. rewrite decide_False in H by done. destruct H as [_ H].
      rewrite decide_True in H by done. destruct H as (_ & _ & ->). reflexivity.
  - eapply wp_mono; [apply (pmm_page_release_spec 0 ex_dirty [4288; 4224] 4160 (mkPage 0 1 34 1) ex_dirty_inv); reflexivity|].
    intros [] s' H. rewrite decide_False in H by done. destruct H as [_ H].
    rewrite decide_True in H by done. destruct H as (_ & -> & -> & _). split; reflexivity.
Defined.
Lemma pmm_page_retain_spec_witness :
  wp (pmm_page_retain 0 4160) (λ _ s', ∃ p', pm_pages s' !! 4160 = Some p' ∧ refcount p' = 2) ex_pmm1.
Proof.
  eapply wp_mono; [apply (pmm_page_retain_spec 0 ex_pmm1 [4288; 4224] 4160 ex_used ex_pmm1_inv); reflexivity|].
  intros [] s' (_ & _ & p' & Hp & _ & Hr). exists p'. split; [exact Hp|exact Hr].
Defined.
Lemma pmm_share_unshare_witness :
  wp (pmm_page_share 0 4160 ;; pmm_page_unshare 0 4160)
    (λ _ s', pmm_inv s' [4288; 4224] ∧ pmm_frame [4160] ex_pmm1 s' ∧ pm_pages s' !! 4160 = Some ex_used) ex_pmm1.
Proof.
  apply (pmm_share_unshare 0 ex_pmm1 [4288; 4224] 4160 ex_used ex_pmm1_inv); try reflexivity.
  split; vm_compute; congruence.
Defined.
Lemma pfn_db_roundtrip_witness :
  pfn_db_page_to_phys (ex_db ex_pages) (pfn_db_phys_to_page (ex_db ex_pages) 8200) = 8192.
Proof. apply (pfn_db_roundtrip (ex_db ex_pages) (ex_wf ex_pages eq_refl)); [simpl; lia| |]; vm_compute; congruence. Defined.
