(* ===== verification/Paging.v ===== *)
(** Page tables: [src/kernel/src/mm/paging.c] and [paging.h].

    The kernel reaches physical memory through the direct map at [hhdm_offset];
    [mem] is that memory, by the virtual address of each page, as the 512 words
    of a table. Reaching a page that is not there, or an address that is not a
    word's, faults. A page table is named by the physical address of its root,
    as in the code; [NULL] is 0. [invlpg] leaves a trace. *)
From S2P Require Import Prelude Sync Pmm.

(** * [paging.h] *)

Definition PFLAG_PRESENT : Z := 2 ^ 0.
Definition PFLAG_WRITE : Z := 2 ^ 1.
Definition PFLAG_USER : Z := 2 ^ 2.
Definition PFLAG_PWT : Z := 2 ^ 3.
Definition PFLAG_PCD : Z := 2 ^ 4.
Definition PFLAG_HUGE : Z := 2 ^ 7.
Definition PFLAG_NX : Z := 2 ^ 63.
Definition PFLAG_RW : Z := Z.lor PFLAG_PRESENT PFLAG_WRITE.
Definition PFLAG_RO : Z := PFLAG_PRESENT.
Definition PFLAG_MMIO : Z :=
  Z.lor (Z.lor (Z.lor (Z.lor PFLAG_PRESENT PFLAG_WRITE) PFLAG_PCD) PFLAG_PWT) PFLAG_NX.

Definition PAGE_FRAME_MASK : Z := 0x000FFFFFFFFFF000.
Definition PML_IDX_MASK : Z := 0x1ff.
Definition PML_SHIFT_L1 : Z := 12.
Definition PML_SHIFT_L2 : Z := 21.
Definition PML_SHIFT_L3 : Z := 30.
Definition PML_SHIFT_L4 : Z := 39.

(** * State *)

Record mmio_region_t := mkRegion { r_vaddr : Z; r_paddr : Z; r_npages : Z }.

(** The statics of [paging.c], the fields of [kernel_info] it uses, the memory
    and the allocator. The list of MMIO regions is the list in memory order. *)
Record paging := mkPaging {
  p_pmm : pmm;
  mem : gmap Z (list Z);
  paging_lock : spinlock_t;
  mmio_lock : spinlock_t;
  mmio_regions : list mmio_region_t;
  kernel_pt : Z;
  cr3 : Z;
  invlpgs : list Z;
}.

Definition put_pmm (p : pmm) (s : paging) : paging :=
  mkPaging p (mem s) (paging_lock s) (mmio_lock s) (mmio_regions s) (kernel_pt s) (cr3 s) (invlpgs s).
Definition put_mem (m : gmap Z (list Z)) (s : paging) : paging :=
  mkPaging (p_pmm s) m (paging_lock s) (mmio_lock s) (mmio_regions s) (kernel_pt s) (cr3 s) (invlpgs s).
Definition put_paging_lock (l : spinlock_t) (s : paging) : paging :=
  mkPaging (p_pmm s) (mem s) l (mmio_lock s) (mmio_regions s) (kernel_pt s) (cr3 s) (invlpgs s).
Definition put_mmio_lock (l : spinlock_t) (s : paging) : paging :=
  mkPaging (p_pmm s) (mem s) (paging_lock s) l (mmio_regions s) (kernel_pt s) (cr3 s) (invlpgs s).
Definition put_regions (r : list mmio_region_t) (s : paging) : paging :=
  mkPaging (p_pmm s) (mem s) (paging_lock s) (mmio_lock s) r (kernel_pt s) (cr3 s) (invlpgs s).
Definition put_kernel_pt (v : Z) (s : paging) : paging :=
  mkPaging (p_pmm s) (mem s) (paging_lock s) (mmio_lock s) (mmio_regions s) v (cr3 s) (invlpgs s).
Definition put_cr3 (v : Z) (s : paging) : paging :=
  mkPaging (p_pmm s) (mem s) (paging_lock s) (mmio_lock s) (mmio_regions s) (kernel_pt s) v (invlpgs s).
Definition put_invlpgs (v : list Z) (s : paging) : paging :=
  mkPaging (p_pmm s) (mem s) (paging_lock s) (mmio_lock s) (mmio_regions s) (kernel_pt s) (cr3 s) v.

Definition in_pmm {A} (m : M pmm A) : M paging A := zoom p_pmm put_pmm m.
Definition page_db : M paging pfn_db := gets (λ s, pm_db (p_pmm s)).

(** The word at [a], and [*a = v]. *)
Definition load_word (a : Z) : M paging Z := λ s,
  if negb (a mod 8 =? 0) then Fault else
  match mem s !! ALIGN_DOWN a PAGE_SIZE with
  | Some ws => match ws !! Z.to_nat (a mod PAGE_SIZE / 8) with Some w => Done (w, s) | None => Fault end
  | None => Fault
  end.
Definition store_word (a v : Z) : M paging unit := λ s,
  if negb (a mod 8 =? 0) then Fault else
  match mem s !! ALIGN_DOWN a PAGE_SIZE with
  | Some ws => match ws !! Z.to_nat (a mod PAGE_SIZE / 8) with
               | Some _ => Done (tt, put_mem (<[ALIGN_DOWN a PAGE_SIZE := <[Z.to_nat (a mod PAGE_SIZE / 8) := v]> ws]> (mem s)) s)
               | None => Fault end
  | None => Fault
  end.
(** [memset(a, 0, PAGE_SIZE)] of a page. *)
Definition zero_table : list Z := replicate 512 0.
Arguments zero_table : simpl never.
Definition zero_page (a : Z) : M paging unit := λ s,
  match mem s !! a with
  | Some _ => Done (tt, put_mem (<[a := zero_table]> (mem s)) s)
  | None => Fault
  end.
Definition invlpg (v : Z) : M paging unit := modify (λ s, put_invlpgs (v :: invlpgs s) s).

(** * [paging.c] *)

Definition _pml1_index (v : Z) : Z := Z.land (Z.shiftr v PML_SHIFT_L1) PML_IDX_MASK.
Definition _pml2_index (v : Z) : Z := Z.land (Z.shiftr v PML_SHIFT_L2) PML_IDX_MASK.
Definition _pml3_index (v : Z) : Z := Z.land (Z.shiftr v PML_SHIFT_L3) PML_IDX_MASK.
Definition _pml4_index (v : Z) : Z := Z.land (Z.shiftr v PML_SHIFT_L4) PML_IDX_MASK.

Section paging.
(** The CPU that runs the code, and [kernel_info.hhdm_offset]. *)
Context (me hhdm_offset : Z).
Notation P2V := (PHYS_TO_VIRT hhdm_offset).
Notation V2P := (VIRT_TO_PHYS hhdm_offset).

Definition lock_paging : M paging unit := zoom paging_lock put_paging_lock (lock_acquire me).
Definition unlock_paging : M paging unit := zoom paging_lock put_paging_lock (lock_release me).
Definition lock_mmio : M paging unit := zoom mmio_lock put_mmio_lock (lock_acquire me).
Definition unlock_mmio : M paging unit := zoom mmio_lock put_mmio_lock (lock_release me).

Definition _alloc_pte : M paging Z :=
  page ← in_pmm (pmm_alloc_page me);
  if page =? 0 then mret 0 else
  d ← page_db;
  let phys := pfn_db_page_to_phys d page in
  zero_page (P2V phys) ;;
  mret phys.

Definition _free_pte (phys : Z) : M paging unit :=
  d ← page_db;
  let page := pfn_db_phys_to_page d phys in
  if page =? 0 then mret tt else in_pmm (pmm_page_release me page).

Definition _pte_next (table index flags : Z) : M paging Z :=
  entry ← load_word (table + 8 * index);
  if flag entry PFLAG_PRESENT then mret (P2V (Z.land entry PAGE_FRAME_MASK)) else
  if flags =? 0 then mret 0 else
  phys ← _alloc_pte;
  if phys =? 0 then mret 0 else
  store_word (table + 8 * index) (Z.lor phys flags) ;;
  mret (P2V phys).

Definition _leaf_entry (pml4 vaddr flags : Z) : M paging Z :=
  pml3 ← _pte_next pml4 (_pml4_index vaddr) flags;
  if pml3 =? 0 then mret 0 else
  pml2 ← _pte_next pml3 (_pml3_index vaddr) flags;
  if pml2 =? 0 then mret 0 else
  pml1 ← _pte_next pml2 (_pml2_index vaddr) flags;
  if pml1 =? 0 then mret 0 else
  mret (pml1 + 8 * _pml1_index vaddr).

(** Dropping the frame of a leaf entry: the share and the reference it holds. *)
Definition drop_frame (phys : Z) : M paging unit :=
  d ← page_db;
  let page := pfn_db_phys_to_page d phys in
  when (negb (page =? 0)) (in_pmm (pmm_page_unshare me page) ;; in_pmm (pmm_page_release me page)).

Fixpoint _pte_free_level (table : Z) (depth : nat) : M paging unit :=
  match depth with
  | O => hang
  | 1%nat =>
      for_n 0 512 (λ i,
        entry ← load_word (table + 8 * i);
        if negb (flag entry PFLAG_PRESENT) then mret tt else drop_frame (Z.land entry PAGE_FRAME_MASK)) ;;
      _free_pte (V2P table)
  | S depth =>
      for_n 0 512 (λ i,
        entry ← load_word (table + 8 * i);
        if negb (flag entry PFLAG_PRESENT) then mret tt else
        if flag entry PFLAG_HUGE then mret tt else
        _pte_free_level (P2V (Z.land entry PAGE_FRAME_MASK)) depth) ;;
      _free_pte (V2P table)
  end.

(** The round of the loop of [_table_empty]. *)
Definition empty_round (table i : Z) : M paging (Z + bool) :=
  if i <? 512 then
    entry ← load_word (table + 8 * i);
    if flag entry PFLAG_PRESENT then mret (inr false) else mret (inl (i + 1))
  else mret (inr true).
Definition _table_empty (table : Z) : M paging bool := loop 513 (empty_round table) 0.

Definition __u_pte_free_empty (pt vaddr : Z) : M paging unit :=
  let pml4 := P2V pt in
  let i4 := _pml4_index vaddr in
  e4 ← load_word (pml4 + 8 * i4);
  if negb (flag e4 PFLAG_PRESENT) then mret tt else
  let pml3 := P2V (Z.land e4 PAGE_FRAME_MASK) in
  let i3 := _pml3_index vaddr in
  e3 ← load_word (pml3 + 8 * i3);
  if negb (flag e3 PFLAG_PRESENT) then mret tt else
  let pml2 := P2V (Z.land e3 PAGE_FRAME_MASK) in
  let i2 := _pml2_index vaddr in
  e2 ← load_word (pml2 + 8 * i2);
  if negb (flag e2 PFLAG_PRESENT) then mret tt else
  let pml1 := P2V (Z.land e2 PAGE_FRAME_MASK) in
  b1 ← _table_empty pml1;
  if negb b1 then mret tt else
  e2 ← load_word (pml2 + 8 * i2);
  _free_pte (Z.land e2 PAGE_FRAME_MASK) ;;
  store_word (pml2 + 8 * i2) 0 ;;
  b2 ← _table_empty pml2;
  if negb b2 then mret tt else
  e3 ← load_word (pml3 + 8 * i3);
  _free_pte (Z.land e3 PAGE_FRAME_MASK) ;;
  store_word (pml3 + 8 * i3) 0 ;;
  b3 ← _table_empty pml3;
  if negb b3 then mret tt else
  e4 ← load_word (pml4 + 8 * i4);
  _free_pte (Z.land e4 PAGE_FRAME_MASK) ;;
  store_word (pml4 + 8 * i4) 0.

(** The flags of the tables on the way to a leaf with [flags]. *)
Definition table_flags (flags : Z) : Z :=
  let tf := Z.lor PFLAG_PRESENT PFLAG_WRITE in
  if flag flags PFLAG_USER then Z.lor tf PFLAG_USER else tf.
Definition leaf_value (phys flags : Z) : Z :=
  Z.lor (Z.lor phys (Z.land flags (not64 PAGE_FRAME_MASK))) PFLAG_PRESENT.

Definition map_page (pt vaddr page flags : Z) : M paging unit :=
  if page =? 0 then mret tt else
  if pt =? 0 then mret tt else
  lock_paging ;;
  let vaddr := ALIGN_DOWN vaddr PAGE_SIZE in
  d ← page_db;
  let phys := pfn_db_page_to_phys d page in
  let pml4 := P2V pt in
  entry ← _leaf_entry pml4 vaddr (table_flags flags);
  if entry =? 0 then unlock_paging else
  e ← load_word entry;
  when (flag e PFLAG_PRESENT) (drop_frame (Z.land e PAGE_FRAME_MASK)) ;;
  store_word entry (leaf_value phys flags) ;;
  in_pmm (pmm_page_share me page) ;;
  in_pmm (pmm_page_retain me page) ;;
  invlpg vaddr ;;
  unlock_paging.

(** As in the code, the lock stays held when a table cannot be allocated. *)
Definition map_paddr (pt vaddr paddr flags : Z) : M paging unit :=
  if pt =? 0 then mret tt else
  lock_paging ;;
  let vaddr := ALIGN_DOWN vaddr PAGE_SIZE in
  let paddr := ALIGN_DOWN paddr PAGE_SIZE in
  let pml4 := P2V pt in
  entry ← _leaf_entry pml4 vaddr (table_flags flags);
  if entry =? 0 then mret tt else
  e ← load_word entry;
  when (flag e PFLAG_PRESENT) (drop_frame (Z.land e PAGE_FRAME_MASK)) ;;
  store_word entry (leaf_value paddr flags) ;;
  invlpg vaddr ;;
  unlock_paging.

Definition map_paddr_range (pt vaddr paddr pnum flags : Z) : M paging unit :=
  if pt =? 0 then mret tt else
  for_n 0 (Z.to_nat pnum) (λ i,
    map_paddr pt (u64 (vaddr + i * PAGE_SIZE)) (u64 (paddr + i * PAGE_SIZE)) flags).

Definition unmap_page (pt vaddr : Z) : M paging unit :=
  if pt =? 0 then mret tt else
  lock_paging ;;
  let vaddr := ALIGN_DOWN vaddr PAGE_SIZE in
  let pml4 := P2V pt in
  entry ← _leaf_entry pml4 vaddr 0;
  if entry =? 0 then unlock_paging else
  e ← load_word entry;
  if negb (flag e PFLAG_PRESENT) then unlock_paging else
  drop_frame (Z.land e PAGE_FRAME_MASK) ;;
  store_word entry 0 ;;
  invlpg vaddr ;;
  __u_pte_free_empty pt vaddr ;;
  unlock_paging.

Definition get_paddr (pt vaddr : Z) : M paging Z :=
  if pt =? 0 then mret 0 else
  entry ← _leaf_entry (P2V pt) vaddr 0;
  if entry =? 0 then mret 0 else
  e ← load_word entry;
  if negb (flag e PFLAG_PRESENT) then mret 0 else mret (Z.land e PAGE_FRAME_MASK).

Definition get_pflags (pt vaddr : Z) : M paging Z :=
  if pt =? 0 then mret 0 else
  entry ← _leaf_entry (P2V pt) vaddr 0;
  if entry =? 0 then mret 0 else
  e ← load_word entry;
  if negb (flag e PFLAG_PRESENT) then mret 0 else mret (Z.land e (not64 PAGE_FRAME_MASK)).

(** The rounds of the loop of [map_mmio]; [false] when it returns early. *)
Definition mmio_round (pml4 vaddr paddr npages i : Z) : M paging (Z + unit) :=
  if i <? npages then
    let v := u64 (vaddr + i * PAGE_SIZE) in
    let p := u64 (paddr + i * PAGE_SIZE) in
    pte ← _leaf_entry pml4 v (Z.lor PFLAG_PRESENT PFLAG_WRITE);
    if pte =? 0 then mret (inr tt) else
    store_word pte (Z.lor p PFLAG_MMIO) ;;
    invlpg v ;;
    mret (inl (i + 1))
  else mret (inr tt).
Definition map_mmio (pt vaddr paddr npages : Z) : M paging unit :=
  if pt =? 0 then mret tt else
  let vaddr := ALIGN_DOWN vaddr PAGE_SIZE in
  let paddr := ALIGN_DOWN paddr PAGE_SIZE in
  loop (S (Z.to_nat npages)) (mmio_round (P2V pt) vaddr paddr npages) 0.

(** [region] is what [kzalloc] returned. *)
Definition reg_kernel_mmio (region vaddr paddr npages : Z) : M paging unit :=
  lock_mmio ;;
  if region =? 0 then unlock_mmio else
  modify (λ s, put_regions (mkRegion vaddr paddr npages :: mmio_regions s) s) ;;
  unlock_mmio.

(** Copying the upper half of a root table. *)
Definition copy_upper (dst src : Z) : M paging unit :=
  for_n 256 256 (λ i, e ← load_word (src + 8 * i); store_word (dst + 8 * i) e).

Definition pte_alloc : M paging Z :=
  page ← in_pmm (pmm_alloc_page me);
  if page =? 0 then mret 0 else
  d ← page_db;
  let phys := pfn_db_page_to_phys d page in
  let pml4 := P2V phys in
  zero_page pml4 ;;
  k ← gets kernel_pt;
  when (negb (k =? 0)) (copy_upper pml4 (P2V k)) ;;
  lock_mmio ;;
  rs ← gets mmio_regions;
  for_each rs (λ r, map_mmio phys (r_vaddr r) (r_paddr r) (r_npages r)) ;;
  unlock_mmio ;;
  mret phys.

Definition pte_free (pt : Z) : M paging unit :=
  if pt =? 0 then mret tt else
  let pml4 := P2V pt in
  k ← gets kernel_pt;
  if pt =? k then mret tt else
  for_n 0 256 (λ i,
    entry ← load_word (pml4 + 8 * i);
    if negb (flag entry PFLAG_PRESENT) then mret tt else
    if flag entry PFLAG_HUGE then mret tt else
    _pte_free_level (P2V (Z.land entry PAGE_FRAME_MASK)) 3) ;;
  _free_pte pt.

Definition pte_free_empty (pt vaddr : Z) : M paging unit :=
  lock_paging ;; __u_pte_free_empty pt vaddr ;; unlock_paging.

(** ** Set-up *)

(** Where the kernel was loaded, and the sections of the linker script. *)
Context (kaddr_virt kaddr_phys kstack_top KSTACK_SIZE : Z).
Context (limine_requests text rodata data : Z * Z).

(** The loop of [_map_section] and of the stack in [paging_init]. *)
Definition section_round (end_ flags vaddr : Z) : M paging (Z + unit) :=
  if vaddr <? end_ then
    k ← gets kernel_pt;
    map_paddr k vaddr (u64 (vaddr - kaddr_virt + kaddr_phys)) flags ;;
    mret (inl (u64 (vaddr + PAGE_SIZE)))
  else mret (inr tt).
Definition map_range (vaddr end_ flags : Z) : M paging unit :=
  loop (S (Z.to_nat ((end_ - vaddr) / PAGE_SIZE + 1))) (section_round end_ flags) vaddr.
Definition _map_section (sec : Z * Z) (flags : Z) : M paging unit :=
  map_range (ALIGN_DOWN sec.1 PAGE_SIZE) (ALIGN_UP sec.2 PAGE_SIZE) flags.

Definition paging_init : M paging unit :=
  k ← pte_alloc;
  modify (put_kernel_pt k) ;;
  if k =? 0 then mret tt else
  _map_section limine_requests (Z.lor PFLAG_RO PFLAG_NX) ;;
  _map_section text PFLAG_RO ;;
  _map_section rodata (Z.lor PFLAG_RO PFLAG_NX) ;;
  _map_section data (Z.lor PFLAG_RW PFLAG_NX) ;;
  let stack_top := ALIGN_UP kstack_top PAGE_SIZE in
  let stack_start := u64 (stack_top - KSTACK_SIZE) in
  map_range stack_start stack_top PFLAG_RW ;;
  boot_cr3 ← gets cr3;
  copy_upper (P2V k) (P2V boot_cr3) ;;
  modify (put_cr3 k).
End paging.
