(* ===== verification/PagingSpec.v ===== *)
(** What the page tables represent: the arithmetic of entries and indices, the
    tree of tables and the steps that change it. *)
From S2P Require Import Prelude Sync DList Pmm PmmSpec Paging.

(** * Entries *)

Lemma mask_bits n : 0 ≤ n → Z.testbit PAGE_FRAME_MASK n = (12 <=? n) && (n <? 52).
Proof.
  intros Hn. replace PAGE_FRAME_MASK with (Z.shiftl (Z.ones 40) 12) by done.
  rewrite Z.shiftl_spec by done. destruct (Z.leb_spec 12 n); simpl.
  - rewrite Z.testbit_ones_nonneg by lia. destruct (Z.ltb_spec n 52), (Z.ltb_spec (n - 12) 40); lia.
  - by rewrite Z.testbit_neg_r by lia.
Qed.
Lemma not_mask_bits n : 0 ≤ n < 64 → Z.testbit (not64 PAGE_FRAME_MASK) n = negb ((12 <=? n) && (n <? 52)).
Proof.
  intros Hn. unfold not64, u64. rewrite Z.testbit_mod_pow2, Z.lnot_spec, mask_bits by lia.
  by rewrite (proj2 (Z.ltb_lt n 64)) by lia.
Qed.
Lemma small_bits x k n : 0 ≤ x < 2 ^ k → 0 ≤ k ≤ n → Z.testbit x n = false.
Proof.
  intros Hx Hk. destruct (decide (x = 0)) as [->|]; [apply Z.testbit_0_l|].
  apply Z.bits_above_log2; [lia|]. assert (Z.log2 x < k) by (apply Z.log2_lt_pow2; lia). lia.
Qed.
Lemma aligned_bits x n : x mod PAGE_SIZE = 0 → 0 ≤ n < 12 → Z.testbit x n = false.
Proof.
  intros Hx Hn. apply Z.div_exact in Hx; [|done]. change PAGE_SIZE with (2 ^ 12) in Hx. rewrite Hx, Z.mul_comm.
  rewrite Z.mul_pow2_bits by lia. apply Z.testbit_neg_r. lia.
Qed.

Section entries.
Context (p : Z).
Hypothesis Hal : p mod PAGE_SIZE = 0.
Hypothesis Hp : 0 ≤ p < 2 ^ 52.

(** A frame and flags outside of the frame's bits come apart again. *)
Lemma entry_frame f : 0 ≤ f → (∀ n, 12 ≤ n < 52 → Z.testbit f n = false) → Z.land (Z.lor p f) PAGE_FRAME_MASK = p.
Proof.
  intros Hf Hb. apply Z.bits_inj'. intros n Hn. rewrite Z.land_spec, Z.lor_spec, mask_bits by done.
  destruct (Z.leb_spec 12 n), (Z.ltb_spec n 52); simpl.
  - by rewrite Hb, orb_false_r, andb_true_r by lia.
  - rewrite andb_false_r. symmetry. by apply (small_bits _ 52).
  - rewrite andb_false_r. symmetry. by apply aligned_bits.
  - lia.
Qed.
Lemma table_entry_frame f : 0 ≤ f < 2 ^ 12 → Z.land (Z.lor p f) PAGE_FRAME_MASK = p.
Proof. intros Hf. apply entry_frame; [lia|]. intros n Hn. apply (small_bits _ 12); lia. Qed.

Lemma leaf_value_frame f : 0 ≤ f → Z.land (leaf_value p f) PAGE_FRAME_MASK = p.
Proof.
  intros Hf. unfold leaf_value. rewrite <-Z.lor_assoc. apply entry_frame.
  - apply Z.lor_nonneg. split; [|done]. apply Z.land_nonneg. lia.
  - intros n Hn. rewrite Z.lor_spec, Z.land_spec, not_mask_bits by lia.
    rewrite (proj2 (Z.leb_le 12 n)), (proj2 (Z.ltb_lt n 52)) by lia. simpl. rewrite andb_false_r. simpl.
    apply (small_bits _ 1); [done|lia].
Qed.
Lemma leaf_value_flags f : 0 ≤ f < 2 ^ 64 →
  Z.land (leaf_value p f) (not64 PAGE_FRAME_MASK) = Z.lor (Z.land f (not64 PAGE_FRAME_MASK)) PFLAG_PRESENT.
Proof.
  intros Hf. apply Z.bits_inj'. intros n Hn. unfold leaf_value. rewrite !Z.lor_spec, !Z.land_spec, !Z.lor_spec, Z.land_spec.
  assert (Z.testbit p n = true → 12 ≤ n < 52) as Hpn.
  { intros Ht. destruct (decide (n < 12)); [by rewrite aligned_bits in Ht by (try done; lia)|].
    destruct (decide (52 ≤ n)); [by rewrite (small_bits _ 52) in Ht by (try done; lia)|lia]. }
  assert (Z.testbit PFLAG_PRESENT n = true → n = 0) as H1.
  { intros Ht. destruct (decide (n = 0)); [done|]. by rewrite (small_bits _ 1) in Ht by (try done; lia). }
  destruct (decide (n < 64)) as [Hlt|Hge].
  - rewrite !not_mask_bits by lia.
    destruct (Z.leb_spec 12 n), (Z.ltb_spec n 52); simpl; destruct (Z.testbit p n), (Z.testbit f n), (Z.testbit PFLAG_PRESENT n);
      simpl; try done; exfalso; try (specialize (Hpn eq_refl); lia); specialize (H1 eq_refl); lia.
  - assert (Z.testbit (not64 PAGE_FRAME_MASK) n = false) as ->.
    { apply (small_bits _ 64); [apply u64_range|lia]. }
    rewrite (small_bits PFLAG_PRESENT 1) by (try done; lia). by rewrite !andb_false_r.
Qed.
End entries.

Lemma present_bit e : flag e PFLAG_PRESENT = Z.testbit e 0.
Proof. by apply flag_testbit. Qed.
Lemma leaf_value_present p f : flag (leaf_value p f) PFLAG_PRESENT = true.
Proof. unfold leaf_value. rewrite flag_lor. by rewrite orb_true_r. Qed.

(** * Indices *)

Lemma index_eq v k : 0 ≤ k → Z.land (Z.shiftr v k) PML_IDX_MASK = v / 2 ^ k mod 512.
Proof. intros Hk. change PML_IDX_MASK with (Z.ones 9). rewrite Z.land_ones by lia. by rewrite Z.shiftr_div_pow2. Qed.
Lemma index_range v k : 0 ≤ k → 0 ≤ Z.land (Z.shiftr v k) PML_IDX_MASK < 512.
Proof. intros Hk. rewrite index_eq by done. by apply Z.mod_pos_bound. Qed.

Lemma pml_range v : 0 ≤ _pml1_index v < 512 ∧ 0 ≤ _pml2_index v < 512 ∧ 0 ≤ _pml3_index v < 512 ∧ 0 ≤ _pml4_index v < 512.
Proof. split_and!; by apply index_range. Qed.

(** The path to the last table of an address, and the index in it. *)
Definition path (v : Z) : list Z := [_pml4_index v; _pml3_index v; _pml2_index v].

(** Addresses the tables cannot tell apart: the same page, of the 48 bits that
    are translated. *)
Definition same_page (v v' : Z) : Prop := v / PAGE_SIZE mod 2 ^ 36 = v' / PAGE_SIZE mod 2 ^ 36.
Lemma vpn_split x : x mod 2 ^ 36 = x mod 512 + 512 * (x / 512 mod 512) + 512 ^ 2 * (x / 512 ^ 2 mod 512) + 512 ^ 3 * (x / 512 ^ 3 mod 512).
Proof.
  change (2 ^ 36) with (512 * (512 * (512 * 512))). rewrite Z.rem_mul_r by lia.
  rewrite (Z.rem_mul_r (x / 512)) by lia. rewrite (Z.rem_mul_r (x / 512 / 512)) by lia. rewrite !Z.div_div by lia.
  change (512 * 512) with (512 ^ 2). change (512 * 512 * 512) with (512 ^ 3). change (512 ^ 2 * 512) with (512 ^ 3). lia.
Qed.
Lemma index_vpn v : _pml1_index v = v / PAGE_SIZE mod 512 ∧ _pml2_index v = v / PAGE_SIZE / 512 mod 512 ∧
  _pml3_index v = v / PAGE_SIZE / 512 ^ 2 mod 512 ∧ _pml4_index v = v / PAGE_SIZE / 512 ^ 3 mod 512.
Proof.
  unfold _pml1_index, _pml2_index, _pml3_index, _pml4_index, PML_SHIFT_L1, PML_SHIFT_L2, PML_SHIFT_L3, PML_SHIFT_L4.
  rewrite !index_eq by lia. unfold PAGE_SIZE. rewrite !Z.div_div by lia. done.
Qed.
Lemma same_page_path v v' : same_page v v' ↔ path v = path v' ∧ _pml1_index v = _pml1_index v'.
Proof.
  unfold same_page, path. destruct (index_vpn v) as (-> & -> & -> & ->), (index_vpn v') as (-> & -> & -> & ->).
  rewrite !vpn_split. set (x := v / PAGE_SIZE). set (y := v' / PAGE_SIZE).
  pose proof (Z.mod_pos_bound x 512 eq_refl). pose proof (Z.mod_pos_bound y 512 eq_refl).
  pose proof (Z.mod_pos_bound (x / 512) 512 eq_refl). pose proof (Z.mod_pos_bound (y / 512) 512 eq_refl).
  pose proof (Z.mod_pos_bound (x / 512 ^ 2) 512 eq_refl). pose proof (Z.mod_pos_bound (y / 512 ^ 2) 512 eq_refl).
  pose proof (Z.mod_pos_bound (x / 512 ^ 3) 512 eq_refl). pose proof (Z.mod_pos_bound (y / 512 ^ 3) 512 eq_refl).
  split.
  - intros Heq. assert (x mod 512 = y mod 512 ∧ x / 512 mod 512 = y / 512 mod 512 ∧
      x / 512 ^ 2 mod 512 = y / 512 ^ 2 mod 512 ∧ x / 512 ^ 3 mod 512 = y / 512 ^ 3 mod 512) as (-> & -> & -> & ->) by lia.
    done.
  - intros [[= -> -> ->] ->]. done.
Qed.
Lemma align_same v : same_page (ALIGN_DOWN v PAGE_SIZE) v.
Proof. unfold same_page, ALIGN_DOWN. by rewrite Z.div_mul. Qed.

(** * The tree of tables *)

Section tree.
Context (hhdm : Z).
Notation P2V := (PHYS_TO_VIRT hhdm).
Implicit Types (s : paging) (tab : gmap (list Z) Z).

Definition db s : pfn_db := pm_db (p_pmm s).

(** The physical address of a page that has a descriptor (but for page 0, which
    the tables never use), and that descriptor. *)
Definition is_frame s (a : Z) : Prop := a mod PAGE_SIZE = 0 ∧ 0 < a ∧ a / PAGE_SIZE ≤ max_pfn (db s).
Definition page_of s (a : Z) : Z := page_at (db s) (a / PAGE_SIZE).

(** The machine: an allocator that never hands out page 0, and a direct map of
    all frames. *)
Record pg_wf s (L : list Z) : Prop := {
  pw_pmm : pmm_inv (p_pmm s) L;
  pw_zero : page_at (db s) 0 ∉ L;
  pw_hhdm : hhdm mod PAGE_SIZE = 0 ∧ 0 ≤ hhdm ∧ hhdm + PAGE_SIZE * (max_pfn (db s) + 1) ≤ 2 ^ 64 ∧
            max_pfn (db s) < 2 ^ 40;
  pw_mem : ∀ a, is_frame s a → ∃ ws, mem s !! (a + hhdm) = Some ws ∧ length ws = 512%nat;
}.

(** A frame that one table owns. *)
Definition table_ok s (a : Z) : Prop :=
  is_frame s a ∧ ∃ d, pm_pages (p_pmm s) !! page_of s a = Some d ∧ refcount d = 1 ∧ is_page_reserved d = false.

(** [tab] names the tables of the tree at [pt] by the path of indices that leads
    to them. Each owns its frame, no two share one, and below the last level the
    entries that are present are the children. *)
Record pt_rep s (pt : Z) tab : Prop := {
  pr_root : tab !! [] = Some pt;
  pr_ok : ∀ p a, tab !! p = Some a → (length p ≤ 3)%nat ∧ table_ok s a;
  pr_inj : ∀ p q a, tab !! p = Some a → tab !! q = Some a → p = q;
  pr_child : ∀ p a ws i e, tab !! p = Some a → (length p < 3)%nat → mem s !! (a + hhdm) = Some ws →
    0 ≤ i → ws !! Z.to_nat i = Some e →
    tab !! (p ++ [i]) = if flag e PFLAG_PRESENT then Some (Z.land e PAGE_FRAME_MASK) else None;
  pr_idx : ∀ p i, is_Some (tab !! (p ++ [i])) → is_Some (tab !! p) ∧ 0 ≤ i < 512;
}.

(** What the tables say of [v]: the entry at the end of its path, when there is
    one and it is present. *)
Definition present (e : Z) : option Z := if flag e PFLAG_PRESENT then Some e else None.
Definition pleaf s tab (v : Z) : option Z :=
  a ← tab !! path v; ws ← mem s !! (a + hhdm); e ← ws !! Z.to_nat (_pml1_index v); present e.

(** ** Addresses *)

Lemma frame_lt s L a : pg_wf s L → is_frame s a → 0 < a < 2 ^ 52 ∧ a + hhdm + PAGE_SIZE ≤ 2 ^ 64.
Proof.
  intros [_ _ (_ & _ & Hh & Hm) _] (Hal & H0 & Hmx). apply Z.div_exact in Hal; [|done]. unfold PAGE_SIZE in *. lia.
Qed.
Lemma P2V_frame s L a : pg_wf s L → is_frame s a → P2V a = a + hhdm.
Proof.
  intros Hw Hf. pose proof (frame_lt _ _ _ Hw Hf). destruct Hw as [_ _ (_ & ? & _) _].
  unfold PHYS_TO_VIRT. apply u64_id. unfold PAGE_SIZE in *. lia.
Qed.
Lemma V2P_frame s L a : pg_wf s L → is_frame s a → VIRT_TO_PHYS hhdm (a + hhdm) = a.
Proof.
  intros Hw Hf. pose proof (frame_lt _ _ _ Hw Hf). unfold VIRT_TO_PHYS. rewrite u64_id by lia. lia.
Qed.
Lemma phys_to_page_frame s a : is_frame s a → pfn_db_phys_to_page (db s) a = page_of s a.
Proof. intros (_ & _ & H). unfold pfn_db_phys_to_page. rewrite Z.gtb_ltb. by rewrite (proj2 (Z.ltb_ge _ _)). Qed.
Lemma page_to_phys_frame s L a : pg_wf s L → is_frame s a → pfn_db_page_to_phys (db s) (page_of s a) = a.
Proof.
  intros Hw Hf. pose proof (frame_lt _ _ _ Hw Hf). destruct Hw as [[[[Hm _ _ _] _ _ _] _] _ _ _]. destruct Hf as (Hal & H0 & Hmx).
  assert (0 ≤ a / PAGE_SIZE) by (apply Z.div_pos; unfold PAGE_SIZE; lia).
  fold (db s) in Hm. unfold pfn_db_page_to_phys, page_of, page_at, sizeof_page.
  rewrite !(proj2 (Z.eqb_neq _ 0)) by lia. rewrite Z.gtb_ltb, !(proj2 (Z.ltb_ge _ _)) by lia. simpl.
  replace (mem_map (db s) + 64 * (a / PAGE_SIZE) - mem_map (db s)) with (a / PAGE_SIZE * 64) by lia.
  rewrite Z.div_mul by lia. apply Z.div_exact in Hal; [|done]. rewrite u64_id; unfold PAGE_SIZE in *; lia.
Qed.
(** Every free page is a frame. *)
Lemma free_frame s L x : pg_wf s L → x ∈ L → ∃ a, is_frame s a ∧ x = page_of s a.
Proof.
  intros [[[[Hm Hx Ht Hd] Hlk Hp Hn] _] H0 _ _] Hin. destruct (linked_in _ _ _ _ Hlk Hin) as [d Hxd].
  assert (x ∈ dom (pages (pm_db (p_pmm s)))) as (i & Hi & ->)%Hd by (by apply elem_of_dom_2 in Hxd).
  assert (i ≠ 0) by (intros ->; by apply H0 in Hin). exists (i * PAGE_SIZE). unfold is_frame, page_of.
  rewrite Z.mod_mul, Z.div_mul by done. unfold db, PAGE_SIZE. split_and!; try done; lia.
Qed.
Lemma page_of_inj s a b : is_frame s a → is_frame s b → page_of s a = page_of s b → a = b.
Proof.
  intros (Ha & _) (Hb & _) H. apply Z.div_exact in Ha, Hb; [|done..]. unfold page_of, page_at, sizeof_page in H. lia.
Qed.

(** ** Words *)

Lemma word_addr a i : a mod PAGE_SIZE = 0 → 0 ≤ i < 512 →
  (a + 8 * i) mod 8 = 0 ∧ ALIGN_DOWN (a + 8 * i) PAGE_SIZE = a ∧ (a + 8 * i) mod PAGE_SIZE / 8 = i.
Proof.
  intros Ha Hi. apply Z.div_exact in Ha; [|done]. unfold ALIGN_DOWN, PAGE_SIZE in *.
  set (q := a / 4096) in *. rewrite Ha. split_and!.
  - replace (4096 * q + 8 * i) with ((512 * q + i) * 8) by lia. apply Z.mod_mul. lia.
  - replace (4096 * q + 8 * i) with (8 * i + q * 4096) by lia. rewrite Z.div_add, Z.div_small by lia. lia.
  - replace (4096 * q + 8 * i) with (8 * i + q * 4096) by lia. rewrite Z.mod_add, Z.mod_small by lia.
    rewrite Z.mul_comm. by rewrite Z.div_mul.
Qed.
Lemma wp_load_word s a i ws w (Q : Z → paging → Prop) :
  a mod PAGE_SIZE = 0 → 0 ≤ i < 512 → mem s !! a = Some ws → ws !! Z.to_nat i = Some w → Q w s →
  wp (load_word (a + 8 * i)) Q s.
Proof.
  intros Ha Hi Hm Hw HQ. destruct (word_addr a i Ha Hi) as (H1 & H2 & H3). unfold wp, load_word.
  by rewrite H1, H2, H3, Hm, Hw.
Qed.
Lemma wp_store_word s a i ws w v (Q : unit → paging → Prop) :
  a mod PAGE_SIZE = 0 → 0 ≤ i < 512 → mem s !! a = Some ws → ws !! Z.to_nat i = Some w →
  Q tt (put_mem (<[a := <[Z.to_nat i := v]> ws]> (mem s)) s) → wp (store_word (a + 8 * i) v) Q s.
Proof.
  intros Ha Hi Hm Hw HQ. destruct (word_addr a i Ha Hi) as (H1 & H2 & H3). unfold wp, store_word.
  by rewrite H1, H2, H3, Hm, Hw.
Qed.
Lemma virt_aligned s L a : pg_wf s L → is_frame s a → (a + hhdm) mod PAGE_SIZE = 0.
Proof.
  intros [_ _ (Hh & _) _] (Ha & _). by rewrite Zplus_mod, Ha, Hh.
Qed.

(** The words of a table. *)
Lemma table_words s L a : pg_wf s L → is_frame s a →
  ∃ ws, mem s !! (a + hhdm) = Some ws ∧ length ws = 512%nat ∧ ∀ i, 0 ≤ i < 512 → is_Some (ws !! Z.to_nat i).
Proof.
  intros Hw Hf. destruct (pw_mem _ _ Hw a Hf) as (ws & H1 & H2). exists ws. split_and!; [done|done|].
  intros i Hi. apply lookup_lt_is_Some. lia.
Qed.
End tree.
