(* ===== verification/PagingTree.v ===== *)
(** How storing to tables, and taking and giving back frames, changes the tree
    of tables. *)
From S2P Require Import Prelude Sync DList Pmm PmmSpec Paging PagingSpec.

Section changes.
Context (hhdm : Z).
Implicit Types (s : paging) (tab : gmap (list Z) Z).
Notation pg_wf := (pg_wf hhdm).
Notation pt_rep := (pt_rep hhdm).
Notation pleaf := (pleaf hhdm).

(** ** The machine *)

Lemma pg_wf_mem s L a ws ws' :
  pg_wf s L → mem s !! a = Some ws → length ws' = length ws → pg_wf (put_mem (<[a := ws']> (mem s)) s) L.
Proof.
  intros [H1 H2 H3 H4] Ha Hl. split; [done..|]. intros b Hb. destruct (H4 b Hb) as (wb & Hwb & Hlb). simpl.
  destruct (decide (a = b + hhdm)) as [->|]; [|rewrite lookup_insert_ne by done; eauto].
  rewrite lookup_insert_eq. exists ws'. split; [done|]. congruence.
Qed.

Section pmm_change.
Context (s : paging) (p' : pmm) (P : list Z).
Hypothesis Hf : pmm_frame P (p_pmm s) p'.

Lemma frame_db : mem_map (pm_db p') = mem_map (db s) ∧ max_pfn (pm_db p') = max_pfn (db s).
Proof. destruct Hf as [(? & ? & _) _ _ _]. done. Qed.
Lemma is_frame_pmm a : is_frame (put_pmm p' s) a ↔ is_frame s a.
Proof. unfold is_frame. unfold db at 1. simpl. by rewrite (proj2 frame_db). Qed.
Lemma page_of_pmm a : page_of (put_pmm p' s) a = page_of s a.
Proof. unfold page_of, page_at. unfold db at 1. simpl. by rewrite (proj1 frame_db). Qed.

Lemma pg_wf_pmm L L' : pg_wf s L → pmm_inv p' L' → page_at (db s) 0 ∉ L' → pg_wf (put_pmm p' s) L'.
Proof.
  intros [H1 H2 H3 H4] Hi Hz. split; [done|..].
  - unfold page_at, db in *. simpl. destruct Hf as [(-> & _) _ _ _]. done.
  - unfold db. simpl. by rewrite (proj2 frame_db).
  - intros a Ha. by apply H4, is_frame_pmm.
Qed.

(** A table keeps its frame when the allocator works on other pages. *)
Lemma table_ok_pmm L a : pg_wf s L → table_ok s a → page_of s a ∉ P → table_ok (put_pmm p' s) a.
Proof.
  intros Hw [Hfr (d & Hd & Hr & Hv)] Hn. split; [by apply is_frame_pmm|]. exists d. rewrite page_of_pmm. split; [|done].
  apply (pf_used _ _ _ Hf); [done|done|]. destruct (pw_pmm _ _ _ Hw) as [Hc _].
  eapply pmm_not_free; [done|done|lia].
Qed.
Lemma pt_rep_pmm L pt tab :
  pg_wf s L → pt_rep s pt tab → (∀ p a, tab !! p = Some a → page_of s a ∉ P) → pt_rep (put_pmm p' s) pt tab.
Proof.
  intros Hw [R1 R2 R3 R4 R5] Hn. split; [done| |done..]. intros p a Ha. destruct (R2 p a Ha) as [Hl Ho].
  split; [done|]. eapply table_ok_pmm; eauto.
Qed.
End pmm_change.

(** A table's frame is not free. *)
Lemma table_not_free s L a : pg_wf s L → table_ok s a → page_of s a ∉ L.
Proof.
  intros Hw [_ (d & Hd & Hr & _)] Hin. destruct (pw_pmm _ _ _ Hw) as [Hc _].
  destruct (pc_pages _ _ Hc _ _ Hd) as (_ & H & _). specialize (H Hin). lia.
Qed.

(** ** The memory *)

Lemma table_ok_mem s m a : table_ok (put_mem m s) a ↔ table_ok s a.
Proof. done. Qed.

(** Storing to a page that holds no table. *)
Lemma pt_rep_other s pt tab a ws :
  pt_rep s pt tab → (∀ p b, tab !! p = Some b → b + hhdm ≠ a) →
  let s' := put_mem (<[a := ws]> (mem s)) s in
  pt_rep s' pt tab ∧ ∀ v, pleaf s' tab v = pleaf s tab v.
Proof.
  intros [R1 R2 R3 R4 R5] Hn s'. split; [split; [done..| |done]|].
  - intros p b wb i e Hp Hlen Hm. simpl in Hm. rewrite lookup_insert_ne in Hm by (by apply not_eq_sym, (Hn p)). by eapply R4.
  - intros v. unfold PagingSpec.pleaf. destruct (tab !! path v) as [b|] eqn:Hb; simpl; [|done].
    by rewrite lookup_insert_ne by (by apply not_eq_sym, (Hn (path v))).
Qed.

(** The other tables keep their words when one is stored to. *)
Lemma other_table s pt tab p q a b ws :
  pt_rep s pt tab → tab !! p = Some a → tab !! q = Some b → p ≠ q →
  <[a + hhdm := ws]> (mem s) !! (b + hhdm) = mem s !! (b + hhdm).
Proof.
  intros R Ha Hb Hne. apply lookup_insert_ne. intros Heq. assert (a = b) as -> by lia.
  by apply Hne, (pr_inj _ _ _ _ R _ _ b).
Qed.

Section store.
Context (s : paging) (pt : Z) (tab : gmap (list Z) Z) (p : list Z) (a : Z) (ws : list Z) (i : Z).
Hypothesis R : pt_rep s pt tab.
Hypothesis Ha : tab !! p = Some a.
Hypothesis Hws : mem s !! (a + hhdm) = Some ws.
Hypothesis Hlen : length ws = 512%nat.
Hypothesis Hi : 0 ≤ i < 512.
Notation stored e := (put_mem (<[a + hhdm := <[Z.to_nat i := e]> ws]> (mem s)) s).

Lemma ws_at : is_Some (ws !! Z.to_nat i).
Proof. apply lookup_lt_is_Some. lia. Qed.
Lemma stored_other e q b : tab !! q = Some b → p ≠ q → mem (stored e) !! (b + hhdm) = mem s !! (b + hhdm).
Proof. intros Hb Hne. simpl. by eapply other_table. Qed.
Lemma stored_self e : mem (stored e) !! (a + hhdm) = Some (<[Z.to_nat i := e]> ws).
Proof. simpl. by rewrite lookup_insert_eq. Qed.
Lemma stored_word e j : 0 ≤ j < 512 →
  <[Z.to_nat i := e]> ws !! Z.to_nat j = if decide (j = i) then Some e else ws !! Z.to_nat j.
Proof.
  intros Hj. case_decide as Hd; [subst j; rewrite list_lookup_insert_eq by lia; done|].
  apply list_lookup_insert_ne. lia.
Qed.
Lemma word_index {j x} : (<[Z.to_nat i := x]> ws) !! Z.to_nat j ≠ None → 0 ≤ j → j < 512.
Proof.
  intros H Hj. destruct (decide (j < 512)); [done|]. exfalso. apply H. apply lookup_ge_None.
  rewrite length_insert. lia.
Qed.

(** A leaf entry is stored. *)
Lemma pt_rep_leaf e : length p = 3%nat →
  pt_rep (stored e) pt tab ∧
  (∀ v, path v = p → _pml1_index v = i → pleaf (stored e) tab v = present e) ∧
  ∀ v, path v ≠ p ∨ _pml1_index v ≠ i → pleaf (stored e) tab v = pleaf s tab v.
Proof.
  intros H3. pose proof R as [R1 R2 R3 R4 R5]. split_and!; [split; [done..| |done]| |].
  - intros q b wb j e' Hq Hl Hm. rewrite (stored_other e q) in Hm; [by eapply R4|done|]. intros ->. lia.
  - intros v Hp Hv. unfold PagingSpec.pleaf. rewrite Hp, Ha. simpl. rewrite lookup_insert_eq. simpl. rewrite Hv.
    rewrite list_lookup_insert_eq by lia. done.
  - intros v Hv. unfold PagingSpec.pleaf. destruct (tab !! path v) as [b|] eqn:Hb; [|done]. cbn [mbind option_bind].
    destruct (decide (p = path v)) as [->|Hne]; [|by rewrite (stored_other e (path v) b)].
    rewrite Ha in Hb. injection Hb as <-. rewrite stored_self, Hws. cbn [mbind option_bind].
    rewrite stored_word by (apply index_range; done). case_decide; [|done]. naive_solver.
Qed.

(** A new, empty table [n] is hung below [a]. *)
Lemma pt_rep_add e n fl : (length p < 3)%nat → ws !! Z.to_nat i = Some e → flag e PFLAG_PRESENT = false →
  table_ok s n → n < 2 ^ 52 → (∀ q, tab !! q ≠ Some n) → mem s !! (n + hhdm) = Some (zero_table) →
  0 ≤ fl < 2 ^ 12 → flag fl PFLAG_PRESENT = true →
  let s' := stored (Z.lor n fl) in let tab' := <[p ++ [i] := n]> tab in
  pt_rep s' pt tab' ∧ ∀ v, pleaf s' tab' v = pleaf s tab v.
Proof.
  intros Hl He Hnp Hn Hn52 Hfresh Hzero Hfl Hflp s' tab'. subst s'. pose proof R as [R1 R2 R3 R4 R5].
  assert (tab !! (p ++ [i]) = None) as Hnone.
  { by rewrite (R4 p a ws i e), Hnp by (done || lia). }
  assert (∀ j, tab !! ((p ++ [i]) ++ [j]) = None) as Hnone'.
  { intros j. destruct (tab !! ((p ++ [i]) ++ [j])) as [x|] eqn:Hx; [|done]. destruct (R5 (p ++ [i]) j) as [[y Hy] _]; [by rewrite Hx|congruence]. }
  assert (mem (stored (Z.lor n fl)) !! (n + hhdm) = Some (zero_table)) as Hz'.
  { simpl. rewrite lookup_insert_ne; [done|]. intros Heq. apply (Hfresh p). rewrite Ha. f_equal. lia. }
  assert (Z.land (Z.lor n fl) PAGE_FRAME_MASK = n) as Hfrm.
  { destruct Hn as [(Hal & Hpos & _) _]. apply table_entry_frame; [done|lia|done]. }
  split; [split|].
  - unfold tab'. rewrite lookup_insert_ne; [done|]. by destruct p.
  - intros q b Hq. unfold tab' in Hq. apply lookup_insert_Some in Hq as [[<- <-]|[_ Hq]].
    + rewrite length_app. simpl. split; [lia|done].
    + by apply R2.
  - intros q1 q2 b H1 H2. unfold tab' in *. apply lookup_insert_Some in H1 as [[<- <-]|[? H1]], H2 as [[<- H2]|[? H2]];
      [done| | |by eapply R3]; exfalso; [by eapply Hfresh|subst b; by eapply Hfresh].
  - intros q b wb j e' Hq Hlq Hm Hj He'. unfold tab' in Hq. apply lookup_insert_Some in Hq as [[<- <-]|[Hne Hq]].
    + rewrite Hz' in Hm. apply (inj Some) in Hm as <-. apply lookup_replicate in He' as [-> _]. unfold tab'.
      rewrite lookup_insert_ne; [by rewrite Hnone'|]. intros Heq. apply (f_equal length) in Heq. rewrite !length_app in Heq.
      simpl in Heq. lia.
    + destruct (decide (p = q)) as [<-|Hpq].
      * rewrite Ha in Hq. injection Hq as <-. rewrite stored_self in Hm. injection Hm as <-.
        assert (j < 512) as Hj2 by (apply (@word_index j (Z.lor n fl)); [by rewrite He'|done]).
        rewrite stored_word in He' by lia. unfold tab'. case_decide as Hji.
        -- subst j. injection He' as <-. rewrite lookup_insert_eq, flag_lor, Hflp, orb_true_r. by rewrite Hfrm.
        -- rewrite lookup_insert_ne by (by intros [_ [= ->]]%app_inj_2). by eapply R4.
      * rewrite (stored_other _ q b) in Hm by done. unfold tab'. rewrite lookup_insert_ne; [by eapply R4|].
        intros [-> _]%app_inj_tail. done.
  - intros q j [x Hx]. unfold tab' in *. apply lookup_insert_Some in Hx as [[Heq _]|[_ Hx]].
    + apply app_inj_tail in Heq as [-> ->]. split; [|done]. rewrite lookup_insert_is_Some'. right. eauto.
    + destruct (R5 q j) as [Hs ?]; [by rewrite Hx|]. split; [|done]. rewrite lookup_insert_is_Some'. by right.
  - intros v. unfold PagingSpec.pleaf, tab'. destruct (decide (p ++ [i] = path v)) as [Heq|Hne].
    + rewrite <-Heq, lookup_insert_eq, Hnone. cbn [mbind option_bind]. rewrite Hz'. cbn [mbind option_bind].
      unfold zero_table. rewrite lookup_replicate_2; [done|]. destruct (pml_range v). lia.
    + rewrite lookup_insert_ne by done. destruct (tab !! path v) as [b|] eqn:Hb; [|done]. cbn [mbind option_bind].
      rewrite (stored_other _ (path v) b); [done|done|]. intros ->. simpl in Hl. lia.
Qed.

(** An empty table [n] is taken off [a]. *)
Lemma pt_rep_remove n wn : tab !! (p ++ [i]) = Some n → mem s !! (n + hhdm) = Some wn → length wn = 512%nat →
  (∀ j e, wn !! j = Some e → flag e PFLAG_PRESENT = false) →
  let s' := stored 0 in let tab' := delete (p ++ [i]) tab in
  pt_rep s' pt tab' ∧ ∀ v, pleaf s' tab' v = pleaf s tab v.
Proof.
  intros Hn Hwn Hlwn Hemp s' tab'. subst s'. pose proof R as [R1 R2 R3 R4 R5].
  assert (length p < 3)%nat as Hl by (destruct (R2 _ _ Hn) as [H _]; rewrite length_app in H; simpl in H; lia).
  assert (∀ j, tab !! ((p ++ [i]) ++ [j]) = None) as Hnone.
  { intros j. destruct (tab !! ((p ++ [i]) ++ [j])) as [x|] eqn:Hx; [|done]. exfalso. destruct (R5 (p ++ [i]) j) as [_ Hj]; [by rewrite Hx|].
    destruct (R2 _ _ Hx) as [H _]. rewrite length_app in H. simpl in H.
    destruct (lookup_lt_is_Some_2 wn (Z.to_nat j)) as [e He]; [lia|].
    rewrite (R4 (p ++ [i]) n wn j e), (Hemp _ _ He) in Hx by (done || lia). done. }
  split; [split|].
  - unfold tab'. rewrite lookup_delete_ne; [done|]. by destruct p.
  - intros q b Hq. apply lookup_delete_Some in Hq as [_ Hq]. by apply R2.
  - intros q1 q2 b [_ H1]%lookup_delete_Some [_ H2]%lookup_delete_Some. by eapply R3.
  - intros q b wb j e' Hq Hlq Hm Hj He'. apply lookup_delete_Some in Hq as [Hne Hq].
    destruct (decide (p = q)) as [<-|Hpq].
    + rewrite Ha in Hq. injection Hq as <-. rewrite stored_self in Hm. injection Hm as <-.
      assert (j < 512) as Hj2 by (apply (@word_index j 0); [by rewrite He'|done]).
      rewrite stored_word in He' by lia. unfold tab'. case_decide as Hji.
      * subst j. injection He' as <-. by rewrite lookup_delete_eq.
      * rewrite lookup_delete_ne by (by intros [_ [= ->]]%app_inj_2). by eapply R4.
    + rewrite (stored_other _ q b) in Hm by done. unfold tab'. rewrite lookup_delete_ne; [by eapply R4|].
      intros [-> _]%app_inj_tail. done.
  - intros q j [x Hx]. apply lookup_delete_Some in Hx as [Hne Hx]. destruct (R5 q j) as [Hs ?]; [by rewrite Hx|]. split; [|done].
    unfold tab'. rewrite lookup_delete_ne; [done|]. intros <-. by rewrite Hnone in Hx.
  - intros v. unfold PagingSpec.pleaf, tab'. destruct (decide (p ++ [i] = path v)) as [Heq|Hne].
    + rewrite <-Heq, lookup_delete_eq, Hn. cbn [mbind option_bind]. rewrite Hwn. cbn [mbind option_bind].
      destruct (wn !! Z.to_nat (_pml1_index v)) as [e|] eqn:He; [|done]. cbn [mbind option_bind].
      unfold present. by rewrite (Hemp _ _ He).
    + rewrite lookup_delete_ne by done. destruct (tab !! path v) as [b|] eqn:Hb; [|done]. cbn [mbind option_bind].
      rewrite (stored_other _ (path v) b); [done|done|]. intros ->. simpl in Hl. lia.
Qed.
End store.
End changes.
