(* ===== verification/PagingOps.v ===== *)
(** What the functions of [paging.c] do to the tree of tables. *)
From S2P Require Import Prelude Sync DList Pmm PmmSpec Paging PagingSpec PagingTree.

Section ops.
Context (me hhdm : Z).
Implicit Types (s : paging) (tab : gmap (list Z) Z).
Notation P2V := (PHYS_TO_VIRT hhdm).
Notation pg_wf := (pg_wf hhdm).
Notation pt_rep := (pt_rep hhdm).
Notation pleaf := (pleaf hhdm).

(** * Walking down *)

(** A page that the allocator gave out, once it is cleared. *)
Lemma new_frame s L x L' d p :
  pg_wf s L → L = x :: L' → pmm_inv p L' → pmm_frame [x] (p_pmm s) p →
  pm_pages (p_pmm s) !! x = Some d → pm_pages p !! x = Some (mkPage 0 1 (alloc_flags (flags d)) 1) →
  ∃ n, is_frame s n ∧ x = page_of s n ∧ x ≠ 0 ∧ P2V (pfn_db_page_to_phys (pm_db p) x) = n + hhdm ∧
    pfn_db_page_to_phys (pm_db p) x = n ∧ is_Some (mem s !! (n + hhdm)) ∧
    let s' := put_mem (<[n + hhdm := zero_table]> (mem s)) (put_pmm p s) in pg_wf s' L' ∧ table_ok s' n.
Proof.
  intros Hw -> Hi Hf Hd Hd'. destruct (free_frame _ _ _ x Hw) as (n & Hn & ->); [set_solver|]. exists n.
  assert (page_of s n ≠ 0) as Hne by (eapply pmm_page_nonzero; [apply (pw_pmm _ _ _ Hw)|done]).
  assert (pg_wf (put_pmm p s) L') as Hw1.
  { eapply pg_wf_pmm; [done|done|done|]. pose proof (pw_zero _ _ _ Hw). set_solver. }
  assert (is_frame (put_pmm p s) n) as Hn1 by (by eapply is_frame_pmm).
  change (pm_db p) with (db (put_pmm p s)). rewrite <-(page_of_pmm s p _ Hf n) in *.
  rewrite (page_to_phys_frame hhdm _ L' n Hw1 Hn1), (P2V_frame _ _ _ _ Hw1 Hn1).
  destruct (pw_mem _ _ _ Hw1 n Hn1) as (ws & Hws & Hl). split; [done|]. split; [done|]. split; [done|]. split; [done|]. split; [done|]. split; [by eexists|].
  split; [by eapply (pg_wf_mem _ (put_pmm p s))|]. split; [done|].
  exists (mkPage 0 1 (alloc_flags (flags d)) 1). split_and!; [done|done|].
  unfold is_page_reserved, alloc_flags. simpl. by flag_simp.
Qed.

Lemma wp_zero_page s a (Q : unit → paging → Prop) :
  is_Some (mem s !! a) → Q tt (put_mem (<[a := zero_table]> (mem s)) s) → wp (zero_page a) Q s.
Proof. intros [ws Hws] HQ. unfold wp, zero_page. by rewrite Hws. Qed.

Lemma wp_alloc_pte s L (Q : Z → paging → Prop) :
  pg_wf s L → (L = [] → Q 0 s) →
  (∀ n p L', is_frame s n → L = page_of s n :: L' → pmm_frame [page_of s n] (p_pmm s) p →
     let s' := put_mem (<[n + hhdm := zero_table]> (mem s)) (put_pmm p s) in
     pg_wf s' L' → table_ok s' n → Q n s') →
  wp (_alloc_pte me hhdm) Q s.
Proof.
  intros Hw Hnone Hsome. unfold _alloc_pte, in_pmm, page_db. wp_pures.
  eapply wp_pmm_alloc_page; [apply Hw|..].
  - intros ->. wp_pures. simpl. wp_pures. destruct s. by apply Hnone.
  - intros x L' d p HL Hi Hf Hd Hd'.
    destruct (new_frame _ _ _ _ _ _ Hw HL Hi Hf Hd Hd') as (n & Hn & -> & Hne & Hv & Hp & Hm & Hw' & Hok).
    rewrite (proj2 (Z.eqb_neq _ _)) by done. wp_pures. simpl p_pmm. rewrite Hv, Hp.
    eapply wp_zero_page; [done|]. apply wp_ret. by eapply (Hsome n p L').
Qed.

(** It is not one of the tables, which stay what they are. *)
Lemma pt_rep_new s L pt tab n p L' :
  pg_wf s L → pt_rep s pt tab → L = page_of s n :: L' → pmm_frame [page_of s n] (p_pmm s) p →
  let s' := put_mem (<[n + hhdm := zero_table]> (mem s)) (put_pmm p s) in
  pt_rep s' pt tab ∧ (∀ v, pleaf s' tab v = pleaf s tab v) ∧ ∀ q, tab !! q ≠ Some n.
Proof.
  intros Hw R HL Hf.
  assert (∀ q b, tab !! q = Some b → page_of s b ∉ [page_of s n]) as Hfresh.
  { intros q b Hb. apply not_elem_of_cons; split; [|set_solver]. intros Heq.
    apply (table_not_free hhdm s L b Hw); [by eapply pr_ok|]. rewrite HL, Heq. set_solver. }
  assert (∀ q, tab !! q ≠ Some n) as Hn. { intros q Hb. apply (Hfresh _ _ Hb). set_solver. }
  destruct (pt_rep_other hhdm (put_pmm p s) pt tab (n + hhdm) zero_table) as [R1 Hleaf1]; [by eapply pt_rep_pmm| |done].
  intros q b Hb Heq. apply (Hn q). rewrite Hb. f_equal. lia.
Qed.

(** The pages that are free or hold a table: no operation on tables makes one
    more of them or loses one. *)
Definition owned s (L : list Z) tab (x : Z) : Prop := x ∈ L ∨ ∃ q n, tab !! q = Some n ∧ x = page_of s n.
Lemma owned_pmm s p P m L tab x : pmm_frame P (p_pmm s) p → owned (put_mem m (put_pmm p s)) L tab x ↔ owned s L tab x.
Proof.
  intros Hf. unfold owned. assert (∀ n, page_of (put_mem m (put_pmm p s)) n = page_of s n) as Hp by (intros n; apply (page_of_pmm s p _ Hf)).
  by setoid_rewrite Hp.
Qed.
Lemma owned_insert s L tab q n x : tab !! q = None → owned s L (<[q := n]> tab) x ↔ owned s (page_of s n :: L) tab x.
Proof.
  intros Hq. unfold owned. rewrite elem_of_cons. split.
  - intros [Hx|(q' & n' & [[<- <-]|[_ Hn]]%lookup_insert_Some & ->)]; [by left; right|by left; left|by right; eauto].
  - intros [[->|Hx]|(q' & n' & Hn & ->)]; [right|by left|right].
    + exists q, n. by rewrite lookup_insert_eq.
    + exists q', n'. rewrite lookup_insert_ne; [done|congruence].
Qed.
Lemma owned_delete s L tab q n x : tab !! q = Some n → owned s (page_of s n :: L) (delete q tab) x ↔ owned s L tab x.
Proof. intros Hq. rewrite <-owned_insert by apply lookup_delete_eq. by rewrite insert_delete_eq, insert_id. Qed.

(** Some tables were added below [pt]: the translations stay. *)
Record grow s L pt tab (m : gmap Z (list Z)) (p : pmm) L' tab' : Prop := {
  g_wf : pg_wf (put_mem m (put_pmm p s)) L';
  g_rep : pt_rep (put_mem m (put_pmm p s)) pt tab';
  g_sub : tab ⊆ tab';
  g_leaf v : pleaf (put_mem m (put_pmm p s)) tab' v = pleaf s tab v;
  g_free : L' ⊆ L ∧ ∃ P, P ⊆ L ∧ pmm_frame P (p_pmm s) p;
  g_new q n : tab' !! q = Some n → tab !! q = Some n ∨ page_of s n ∈ L;
  g_mem b : (∀ q, tab' !! q ≠ Some b) → m !! (b + hhdm) = mem s !! (b + hhdm);
  g_owned x : owned s L' tab' x ↔ owned s L tab x;
}.
Lemma grow_refl s L pt tab : pg_wf s L → pt_rep s pt tab → grow s L pt tab (mem s) (p_pmm s) L tab.
Proof.
  intros. destruct s. split; try done; [|by left]. split; [done|]. exists []. split; [set_solver|apply pmm_frame_refl].
Qed.
Lemma grow_trans s L pt tab m1 p1 L1 tab1 m2 p2 L2 tab2 :
  grow s L pt tab m1 p1 L1 tab1 → grow (put_mem m1 (put_pmm p1 s)) L1 pt tab1 m2 p2 L2 tab2 →
  grow s L pt tab m2 p2 L2 tab2.
Proof.
  intros [A1 A2 A3 A4 (A5 & P & A6 & A7) A8 A9 A10] [B1 B2 B3 B4 (B5 & P' & B6 & B7) B8 B9 B10]. split; [done|done|by etrans| | | | |].
  - intros v. by rewrite <-A4, <-B4.
  - split; [set_solver|]. exists (P ++ P'). split; [set_solver|]. by eapply pmm_frame_trans.
  - intros q n Hq. destruct (B8 q n Hq) as [H|H]; [by apply A8|]. right. apply A5. rewrite <-(page_of_pmm s p1 _ A7). exact H.
  - intros b Hb. rewrite B9 by done. apply A9. intros q Hq. apply (Hb q). by eapply lookup_weaken.
  - intros x. by rewrite <-A10, <-!(owned_pmm s p1 _ m1 _ _ _ A7), B10.
Qed.

(** The entry of a table, when walking. *)
Lemma entry_at s L pt tab q a i : pg_wf s L → pt_rep s pt tab → tab !! q = Some a → 0 ≤ i < 512 →
  ∃ ws e, mem s !! (a + hhdm) = Some ws ∧ length ws = 512%nat ∧ ws !! Z.to_nat i = Some e ∧ is_frame s a ∧
    (a + hhdm) mod PAGE_SIZE = 0.
Proof.
  intros Hw R Ha Hi. destruct (pr_ok _ _ _ _ R _ _ Ha) as (_ & Hf & _).
  destruct (table_words _ _ _ _ Hw Hf) as (ws & H1 & H2 & H3). destruct (H3 i Hi) as [e He].
  exists ws, e. split_and!; try done. by eapply virt_aligned.
Qed.

Lemma wp_pte_next_look s L pt tab q a i (Q : Z → paging → Prop) :
  pg_wf s L → pt_rep s pt tab → tab !! q = Some a → (length q < 3)%nat → 0 ≤ i < 512 →
  Q (match tab !! (q ++ [i]) with Some n => n + hhdm | None => 0 end) s → wp (_pte_next me hhdm (a + hhdm) i 0) Q s.
Proof.
  intros Hw R Ha Hl Hi HQ. destruct (entry_at _ _ _ _ _ _ _ Hw R Ha Hi) as (ws & e & H1 & H2 & H3 & H4 & H5).
  unfold _pte_next. wp_pures. eapply wp_load_word; [done..|]. cbv beta.
  pose proof (pr_child _ _ _ _ R q a ws i e Ha Hl H1 ltac:(lia) H3) as Hc. rewrite Hc in HQ.
  destruct (flag e PFLAG_PRESENT); [|by wp_pures]. wp_pures.
  destruct (pr_ok _ _ _ _ R _ _ Hc) as (_ & Hf & _). by rewrite (P2V_frame _ _ _ _ Hw Hf).
Qed.

Lemma wp_pte_next s L pt tab q a i fl :
  pg_wf s L → pt_rep s pt tab → tab !! q = Some a → (length q < 3)%nat → 0 ≤ i < 512 →
  0 ≤ fl < 2 ^ 12 → flag fl PFLAG_PRESENT = true →
  wp (_pte_next me hhdm (a + hhdm) i fl) (λ r s', ∃ m p L' tab', s' = put_mem m (put_pmm p s) ∧
    grow s L pt tab m p L' tab' ∧ (r = 0 ∧ L' = [] ∧ tab !! (q ++ [i]) = None ∨ ∃ n, r = n + hhdm ∧ r ≠ 0 ∧ tab' !! (q ++ [i]) = Some n)) s.
Proof.
  intros Hw R Ha Hl Hi Hfl Hflp. destruct (entry_at _ _ _ _ _ _ _ Hw R Ha Hi) as (ws & e & H1 & H2 & H3 & H4 & H5).
  unfold _pte_next. wp_pures. eapply wp_load_word; [done..|]. cbv beta.
  pose proof (pr_child _ _ _ _ R q a ws i e Ha Hl H1 ltac:(lia) H3) as Hc.
  assert (∀ s', is_frame s' a → a + hhdm ≠ 0) as Hnz.
  { intros s' (_ & ? & _). destruct (pw_hhdm _ _ _ Hw) as (_ & ? & _). lia. }
  destruct (flag e PFLAG_PRESENT) eqn:Hpr.
  { wp_pures. exists (mem s), (p_pmm s), L, tab. split; [by destruct s|]. split; [by apply grow_refl|]. right.
    destruct (pr_ok _ _ _ _ R _ _ Hc) as (_ & Hf & _). rewrite (P2V_frame _ _ _ _ Hw Hf). eexists. split_and!; [done| |done].
    destruct Hf as (_ & ? & _). destruct (pw_hhdm _ _ _ Hw) as (_ & ? & _). lia. }
  assert (fl =? 0 = false) as -> by (apply Z.eqb_neq; intros ->; done). wp_pures.
  eapply wp_alloc_pte; [done|..].
  - intros HL. simpl. wp_pures. exists (mem s), (p_pmm s), L, tab. split; [by destruct s|]. split; [by apply grow_refl|]. by left.
  - intros n p L' Hn HL Hf s1 Hw1 Hok. assert (n =? 0 = false) as -> by (destruct Hn as (_ & ? & _); lia). wp_pures.
    destruct (pt_rep_new s L pt tab n p L' Hw R HL Hf) as (R1 & Hleaf1 & Hfresh').
    assert (n ≠ a) as Hna by (intros ->; by apply (Hfresh' q)).
    assert (mem s1 !! (a + hhdm) = Some ws) as Hws1 by (simpl; by rewrite lookup_insert_ne by lia).
    eapply (wp_store_word s1); [done..|]. wp_pures.
    destruct (pt_rep_add hhdm s1 pt tab q a ws i R1 Ha Hws1 H2 Hi e n fl Hl H3 Hpr Hok) as [R2 Hleaf2]; [|done| |done..|].
    { apply (frame_lt hhdm s L n Hw Hn). }
    { simpl. by rewrite lookup_insert_eq. }
    assert (is_frame s1 n) as Hn1 by apply Hok. rewrite (P2V_frame _ _ _ _ Hw1 Hn1).
    eexists _, p, L', _. split; [reflexivity|]. split; [split|].
    + eapply (pg_wf_mem hhdm s1); [exact Hw1|exact Hws1|]. by rewrite length_insert.
    + exact R2.
    + apply insert_subseteq. rewrite Hc. done.
    + intros v. exact (eq_trans (Hleaf2 v) (Hleaf1 v)).
    + split; [set_solver|]. exists [page_of s n]. split; [set_solver|done].
    + intros q' b [[_ <-]|[_ Hb]]%lookup_insert_Some; [right; set_solver|by left].
    + intros b Hb. assert (b ≠ n) by (intros ->; by apply (Hb (q ++ [i])), lookup_insert_eq).
      assert (b ≠ a). { intros ->. apply (Hb q). rewrite lookup_insert_ne; [done|]. intros Hqi.
        apply (f_equal length) in Hqi. rewrite length_app in Hqi. simpl in Hqi. lia. }
      simpl. by rewrite !lookup_insert_ne by lia.
    + intros x. rewrite owned_insert by exact Hc. by rewrite HL.
    + right. exists n. rewrite lookup_insert_eq. split_and!; [done| |done].
      destruct Hn as (_ & ? & _). destruct (pw_hhdm _ _ _ Hw) as (_ & ? & _). lia.
Qed.

Lemma wp_leaf_look s L pt tab v (Q : Z → paging → Prop) :
  pg_wf s L → pt_rep s pt tab →
  Q (match tab !! path v with Some n => n + hhdm + 8 * _pml1_index v | None => 0 end) s →
  wp (_leaf_entry me hhdm (pt + hhdm) v 0) Q s.
Proof.
  intros Hw R HQ. destruct (pml_range v) as (_ & I2 & I3 & I4).
  assert (∀ q n, tab !! q = Some n → n + hhdm =? 0 = false) as Hnz.
  { intros q n Hn. destruct (pr_ok _ _ _ _ R _ _ Hn) as (_ & (_ & ? & _) & _).
    destruct (pw_hhdm _ _ _ Hw) as (_ & ? & _). lia. }
  assert (∀ q i, tab !! q = None → tab !! (q ++ [i]) = None) as Hup.
  { intros q i Hq. destruct (tab !! (q ++ [i])) eqn:Hx; [|done]. destruct (pr_idx _ _ _ _ R q i) as [[? ?] _]; [by rewrite Hx|congruence]. }
  unfold _leaf_entry. wp_pures. eapply wp_pte_next_look; [done|done|apply R|simpl; lia|done|]. cbn [app]. cbv beta.
  destruct (tab !! [_pml4_index v]) as [n3|] eqn:E3.
  2:{ simpl. wp_pures. assert (tab !! path v = None) as Hn by (apply (Hup [_pml4_index v; _pml3_index v]), (Hup [_pml4_index v]), E3).
      by rewrite Hn in HQ. }
  rewrite (Hnz _ _ E3). wp_pures. eapply wp_pte_next_look; [done|done|exact E3|simpl; lia|done|]. cbn [app]. cbv beta.
  destruct (tab !! [_pml4_index v; _pml3_index v]) as [n2|] eqn:E2.
  2:{ simpl. wp_pures. assert (tab !! path v = None) as Hn by (apply (Hup [_pml4_index v; _pml3_index v]), E2).
      by rewrite Hn in HQ. }
  rewrite (Hnz _ _ E2). wp_pures. eapply wp_pte_next_look; [done|done|exact E2|simpl; lia|done|]. cbn [app]. cbv beta.
  fold (path v). destruct (tab !! path v) as [n1|] eqn:E1; [|simpl; by wp_pures]. rewrite (Hnz _ _ E1). by wp_pures.
Qed.

Lemma wp_leaf_entry s L pt tab v fl :
  pg_wf s L → pt_rep s pt tab → 0 ≤ fl < 2 ^ 12 → flag fl PFLAG_PRESENT = true →
  wp (_leaf_entry me hhdm (pt + hhdm) v fl) (λ r s', ∃ m p L' tab', s' = put_mem m (put_pmm p s) ∧
    grow s L pt tab m p L' tab' ∧
    (r = 0 ∧ L' = [] ∧ tab !! path v = None ∨ ∃ n, r = n + hhdm + 8 * _pml1_index v ∧ r ≠ 0 ∧ tab' !! path v = Some n)) s.
Proof.
  intros Hw R Hfl Hfp. destruct (pml_range v) as (I1 & I2 & I3 & I4). unfold _leaf_entry. wp_pures.
  assert (∀ q i, tab !! q = None → tab !! (q ++ [i]) = None) as Hup.
  { intros q i Hq. destruct (tab !! (q ++ [i])) eqn:Hx; [|done]. destruct (pr_idx _ _ _ _ R q i) as [[? ?] _]; [by rewrite Hx|congruence]. }
  eapply wp_mono; [eapply (wp_pte_next s); [done|done|apply R|simpl; lia|done|done|done]|].
  intros r1 s1 (m1 & p1 & L1 & tab1 & -> & G1 & [(-> & HL & HN)|(n3 & -> & Hr1 & E3)]).
  { simpl. wp_pures. exists m1, p1, L1, tab1. split; [done|]. split; [done|]. left. split_and!; [done..|].
    by apply (Hup [_pml4_index v; _pml3_index v]), (Hup [_pml4_index v]). }
  rewrite (proj2 (Z.eqb_neq _ _) Hr1). cbn [app] in E3. wp_pures.
  eapply wp_mono; [eapply (wp_pte_next _ _ pt); [apply G1|apply G1|exact E3|simpl; lia|done|done|done]|].
  intros r2 s2 (m2 & p2 & L2 & tab2 & -> & G2 & [(-> & HL & HN)|(n2 & -> & Hr2 & E2)]).
  { simpl. wp_pures. eexists m2, p2, L2, tab2. split; [done|]. split; [by eapply grow_trans|]. left. split_and!; [done..|].
    apply (Hup [_pml4_index v; _pml3_index v]). eapply lookup_weaken_None; [exact HN|apply G1]. }
  rewrite (proj2 (Z.eqb_neq _ _) Hr2). cbn [app] in E2. wp_pures. pose proof (grow_trans _ _ _ _ _ _ _ _ _ _ _ _ G1 G2) as G12.
  eapply wp_mono; [eapply (wp_pte_next _ _ pt); [apply G2|apply G2|exact E2|simpl; lia|done|done|done]|].
  intros r3 s3 (m3 & p3 & L3 & tab3 & -> & G3 & [(-> & HL & HN)|(n1 & -> & Hr3 & E1)]).
  { simpl. wp_pures. eexists m3, p3, L3, tab3. split; [done|]. split; [by eapply (grow_trans s); [exact G12|]|]. left. split_and!; [done..|].
    eapply lookup_weaken_None; [exact HN|apply G12]. }
  rewrite (proj2 (Z.eqb_neq _ _) Hr3). wp_pures. eexists m3, p3, L3, tab3. split; [done|].
  split; [by eapply (grow_trans s); [exact G12|]|]. right. exists n1. split; [done|]. split; [|done].
  destruct (pr_ok _ _ _ _ (g_rep _ _ _ _ _ _ _ _ G3) _ _ E1) as (_ & (_ & ? & _) & _).
  destruct (pw_hhdm _ _ _ Hw) as (_ & ? & _). lia.
Qed.

(** * Frames *)

Lemma page_zero_ne s f : is_frame s f → page_at (db s) 0 ≠ page_of s f.
Proof.
  intros (Hal & H0 & _) Heq. apply Z.div_exact in Hal; [|done].
  assert (f / PAGE_SIZE = 0) as Hz by (unfold page_of, page_at, sizeof_page in Heq; lia). rewrite Hz in Hal. lia.
Qed.

(** Giving up the share and the reference that a leaf entry holds. *)
Definition dropped (d : page_t) : page_t := set_refcount (λ n, n - 1) (unshare_page d).
Lemma unshare_refcount d : refcount (unshare_page d) = refcount d.
Proof. unfold unshare_page. by repeat case_match. Qed.
Lemma wp_drop_frame s L f d (Q : unit → paging → Prop) :
  pg_wf s L → is_frame s f → pm_pages (p_pmm s) !! page_of s f = Some d → refcount d ≠ 0 →
  (∀ p L', pmm_frame [page_of s f] (p_pmm s) p → pg_wf (put_pmm p s) L' →
     (2 ≤ refcount d → L' = L ∧ pm_pages p !! page_of s f = Some (dropped d)) → Q tt (put_pmm p s)) →
  wp (drop_frame me f) Q s.
Proof.
  intros Hw Hf Hd Hr HQ. unfold drop_frame, page_db, in_pmm, when. wp_pures. fold (db s).
  rewrite (phys_to_page_frame _ _ Hf). pose proof (pw_pmm _ _ _ Hw) as Hi.
  assert (page_of s f ≠ 0) as Hne by (eapply pmm_page_nonzero; [apply Hi|done]).
  rewrite (proj2 (Z.eqb_neq _ _) Hne). simpl. wp_pures.
  assert (is_page_free d = false) as Hnf by (eapply pmm_not_free; [apply Hi|done|done]).
  eapply wp_pmm_page_unshare; [done|done|done|]. intros p1 Hi1 Hf1 Hd1. wp_pures. simpl.
  eapply wp_pmm_page_release; [done|exact Hd1|..]; rewrite ?unshare_refcount; [done|..].
  - intros p2 Hc Hi2 Hf2 Hd2. pose proof (pmm_frame_trans _ _ _ _ _ Hf1 Hf2) as Hf12.
    apply (pmm_frame_mono _ [page_of s f]) in Hf12; [|set_solver].
    change (put_pmm p2 (put_pmm p1 s)) with (put_pmm p2 s). eapply HQ; [done| |].
    + eapply pg_wf_pmm; [done|done|done|apply Hw].
    + intros _. split; [done|]. rewrite Hd2. unfold dropped, set_refcount. by rewrite unshare_refcount.
  - intros p2 d2 H1 _ Hi2 Hf2 _ _ _. pose proof (pmm_frame_trans _ _ _ _ _ Hf1 Hf2) as Hf12.
    apply (pmm_frame_mono _ [page_of s f]) in Hf12; [|set_solver].
    change (put_pmm p2 (put_pmm p1 s)) with (put_pmm p2 s). eapply HQ; [done| |lia].
    eapply pg_wf_pmm; [done|done|done|]. pose proof (pw_zero _ _ _ Hw). pose proof (page_zero_ne _ _ Hf). set_solver.
Qed.

(** A table gives its frame back. *)
Lemma wp_free_pte s L n (Q : unit → paging → Prop) :
  pg_wf s L → table_ok s n →
  (∀ p, pmm_frame [page_of s n] (p_pmm s) p → pg_wf (put_pmm p s) (page_of s n :: L) → Q tt (put_pmm p s)) →
  wp (_free_pte me n) Q s.
Proof.
  intros Hw [Hf (d & Hd & Hr & Hv)] HQ. unfold _free_pte, page_db, in_pmm. wp_pures. fold (db s).
  rewrite (phys_to_page_frame _ _ Hf). pose proof (pw_pmm _ _ _ Hw) as Hi.
  assert (page_of s n ≠ 0) as Hne by (eapply pmm_page_nonzero; [apply Hi|done]).
  rewrite (proj2 (Z.eqb_neq _ _) Hne). wp_pures.
  eapply wp_pmm_page_release; [done|exact Hd|lia|rewrite Hv; lia|].
  intros p d2 _ _ Hi2 Hf2 _ _ _. apply HQ; [done|]. eapply pg_wf_pmm; [done|done|done|].
  pose proof (pw_zero _ _ _ Hw). pose proof (page_zero_ne _ _ Hf). set_solver.
Qed.

(** * Taking empty tables off *)

Definition all_absent (ws : list Z) : Prop := ∀ j e, ws !! j = Some e → flag e PFLAG_PRESENT = false.

Lemma wp_table_empty s a ws (Q : bool → paging → Prop) :
  a mod PAGE_SIZE = 0 → mem s !! a = Some ws → length ws = 512%nat →
  (∀ b : bool, (if b then all_absent ws else ∃ j e, ws !! j = Some e ∧ flag e PFLAG_PRESENT = true) → Q b s) → wp (_table_empty a) Q s.
Proof.
  intros Ha Hm Hl HQ. unfold _table_empty.
  apply (wp_loop (λ n i s', s' = s ∧ 0 ≤ i ∧ Z.of_nat n = 512 - i ∧
    ∀ j e, (j < Z.to_nat i)%nat → ws !! j = Some e → flag e PFLAG_PRESENT = false) _ _ 512 513 0); [lia| |].
  - split_and!; try done. intros j e Hj. simpl in Hj. lia.
  - intros n i s' (-> & Hi & Hn & Hall). unfold empty_round. destruct (Z.ltb_spec i 512) as [Hlt|Hge].
    + destruct (lookup_lt_is_Some_2 ws (Z.to_nat i)) as [e He]; [lia|]. wp_pures.
      eapply wp_load_word; [done|lia|done|done|]. cbv beta. destruct (flag e PFLAG_PRESENT) eqn:Hp; wp_pures.
      * apply HQ. eauto.
      * exists (n - 1)%nat. split; [lia|]. split_and!; [done|lia|lia|]. intros j e' Hj He'.
        destruct (decide (j = Z.to_nat i)) as [->|]; [congruence|]. apply (Hall j); [lia|done].
    + wp_pures. apply HQ. intros j e He. apply (Hall j); [|done]. apply lookup_lt_Some in He. lia.
Qed.

(** A table with an entry that is present. *)
Definition used_table s (n : Z) : Prop :=
  ∃ ws j e, mem s !! (n + hhdm) = Some ws ∧ ws !! j = Some e ∧ flag e PFLAG_PRESENT = true.
(** No table on the way to [v] is empty, but for the root. *)
Definition trim (v : Z) s tab : Prop :=
  ∀ k n, (1 ≤ k ≤ 3)%nat → tab !! take k (path v) = Some n → used_table s n.

(** Tables were taken off, and their frames given back; of those that are left,
    [T] holds. *)
Record shrink (T : paging → gmap (list Z) Z → Prop) s L pt tab (m : gmap Z (list Z)) (p : pmm) : Prop := {
  sh_rep : ∃ L' tab', pg_wf (put_mem m (put_pmm p s)) L' ∧ pt_rep (put_mem m (put_pmm p s)) pt tab' ∧
    tab' ⊆ tab ∧ (∀ v, pleaf (put_mem m (put_pmm p s)) tab' v = pleaf s tab v) ∧
    (∀ x, owned s L' tab' x ↔ owned s L tab x) ∧ T (put_mem m (put_pmm p s)) tab';
  sh_pmm : ∃ P, (∀ x, x ∈ P → ∃ q n, tab !! q = Some n ∧ x = page_of s n) ∧ pmm_frame P (p_pmm s) p;
}.
Lemma shrink_refl T s L pt tab : pg_wf s L → pt_rep s pt tab → T s tab → shrink T s L pt tab (mem s) (p_pmm s).
Proof.
  intros. destruct s. split; [exists L, tab; done|]. exists []. split; [set_solver|apply pmm_frame_refl].
Qed.

Lemma put_swap m p s : put_mem m (put_pmm p s) = put_pmm p (put_mem m s).
Proof. done. Qed.

Lemma wp_free_child s L pt tab q a i n wn (Q : unit → paging → Prop) :
  pg_wf s L → pt_rep s pt tab → tab !! q = Some a → 0 ≤ i < 512 → tab !! (q ++ [i]) = Some n →
  mem s !! (n + hhdm) = Some wn → all_absent wn →
  (∀ m p, let s' := put_mem m (put_pmm p s) in pg_wf s' (page_of s n :: L) → pt_rep s' pt (delete (q ++ [i]) tab) →
     (∀ v, pleaf s' (delete (q ++ [i]) tab) v = pleaf s tab v) → pmm_frame [page_of s n] (p_pmm s) p → Q tt s') →
  wp (e ← load_word (a + hhdm + 8 * i); _free_pte me (Z.land e PAGE_FRAME_MASK) ;; store_word (a + hhdm + 8 * i) 0) Q s.
Proof.
  intros Hw R Ha Hi Hn Hwn Hemp HQ. destruct (entry_at _ _ _ _ _ _ _ Hw R Ha Hi) as (ws & e & H1 & H2 & H3 & H4 & H5).
  assert (length q < 3)%nat as Hl by (destruct (pr_ok _ _ _ _ R _ _ Hn) as [H _]; rewrite length_app in H; simpl in H; lia).
  pose proof (pr_child _ _ _ _ R q a ws i e Ha Hl H1 ltac:(lia) H3) as Hc. rewrite Hn in Hc.
  destruct (flag e PFLAG_PRESENT); [|done]. injection Hc as Hc.
  wp_pures. eapply wp_load_word; [done..|]. wp_pures. rewrite <-Hc.
  destruct (pr_ok _ _ _ _ R _ _ Hn) as [_ Hok]. eapply wp_free_pte; [done|done|]. intros p Hf Hwp. wp_pures.
  eapply (wp_store_word (put_pmm p s)); [done..|].
  destruct (pw_mem _ _ _ Hw n) as (wn' & Hwn' & Hln); [apply Hok|]. rewrite Hwn in Hwn'. apply (inj Some) in Hwn' as <-.
  destruct (pt_rep_remove hhdm s pt tab q a ws i R Ha H1 H2 Hi n wn Hn Hwn Hln Hemp) as [R' Hleaf'].
  apply (HQ (<[a + hhdm := <[Z.to_nat i := 0]> ws]> (mem s)) p).
  - eapply (pg_wf_mem hhdm (put_pmm p s)); [done|exact H1|by rewrite length_insert].
  - rewrite put_swap. eapply (pt_rep_pmm hhdm (put_mem (<[a + hhdm := <[Z.to_nat i := 0]> ws]> (mem s)) s) p); [exact Hf| |exact R'|].
    + eapply pg_wf_mem; [exact Hw|done|by rewrite length_insert].
    + intros q' b [Hne Hb]%lookup_delete_Some Hin. apply list_elem_of_singleton in Hin.
      assert (b = n) as ->.
      { eapply page_of_inj; [|apply Hok|exact Hin]. destruct (pr_ok _ _ _ _ R _ _ Hb) as (_ & H & _). exact H. }
      apply Hne. exact (pr_inj _ _ _ _ R _ _ n Hn Hb).
  - exact Hleaf'.
  - exact Hf.
Qed.

Lemma shrink_step T s L pt tab m1 p1 q1 n1 m2 p2 :
  tab !! q1 = Some n1 → pmm_frame [page_of s n1] (p_pmm s) p1 →
  (∀ v, pleaf (put_mem m1 (put_pmm p1 s)) (delete q1 tab) v = pleaf s tab v) →
  shrink T (put_mem m1 (put_pmm p1 s)) (page_of s n1 :: L) pt (delete q1 tab) m2 p2 → shrink T s L pt tab m2 p2.
Proof.
  intros Hn Hf Hleaf [(L' & tab' & S1 & S2 & S3 & S4 & S5 & S6) (P & HP & HPf)]. split.
  - exists L', tab'. split; [done|]. split; [done|]. split; [etrans; [done|apply delete_subseteq]|]. split; [|split; [|done]].
    + intros v. rewrite <-Hleaf, <-S4. done.
    + intros x. rewrite <-(owned_delete s L tab q1 n1 x Hn), <-!(owned_pmm s p1 _ m1 _ _ _ Hf). apply S5.
  - exists ([page_of s n1] ++ P). split; [|by eapply pmm_frame_trans].
    intros x [->%list_elem_of_singleton|Hx]%elem_of_app; [eauto|].
    destruct (HP x Hx) as (q & n & [_ Hq]%lookup_delete_Some & ->). exists q, n. split; [done|].
    apply (page_of_pmm s p1 _ Hf).
Qed.

(** The entry of [q] that leads to its child [n]. *)
Lemma parent_entry s L pt tab q a i n :
  pg_wf s L → pt_rep s pt tab → tab !! q = Some a → 0 ≤ i < 512 → tab !! (q ++ [i]) = Some n →
  ∃ ws e, mem s !! (a + hhdm) = Some ws ∧ ws !! Z.to_nat i = Some e ∧ flag e PFLAG_PRESENT = true ∧
    P2V (Z.land e PAGE_FRAME_MASK) = n + hhdm ∧ (a + hhdm) mod PAGE_SIZE = 0.
Proof.
  intros Hw R Ha Hi Hn. destruct (entry_at _ _ _ _ _ _ _ Hw R Ha Hi) as (ws & e & H1 & H2 & H3 & H4 & H5).
  destruct (pr_ok _ _ _ _ R _ _ Hn) as [Hl [Hfr _]]. rewrite length_app in Hl. simpl in Hl.
  pose proof (pr_child _ _ _ _ R q a ws i e Ha ltac:(lia) H1 ltac:(lia) H3) as Hc. rewrite Hn in Hc.
  exists ws, e. destruct (flag e PFLAG_PRESENT); [|done]. injection Hc as <-.
  split_and!; try done. by eapply P2V_frame.
Qed.

(** What taking empty tables off leaves: the postcondition of the loops. *)
Definition shrinks T s L pt tab (_ : unit) s' : Prop := ∃ m p, s' = put_mem m (put_pmm p s) ∧ shrink T s L pt tab m p.
Lemma shrinks_refl T s L pt tab : pg_wf s L → pt_rep s pt tab → T s tab → shrinks T s L pt tab tt s.
Proof. intros. exists (mem s), (p_pmm s). split; [by destruct s|]. by eapply shrink_refl. Qed.

(** If the child [n] of [q] is empty it is taken off, and [K] goes on. *)
Lemma wp_free_up T s L pt tab q a i n (K : M paging unit) :
  pg_wf s L → pt_rep s pt tab → tab !! q = Some a → 0 ≤ i < 512 → tab !! (q ++ [i]) = Some n →
  (used_table s n → T s tab) →
  (∀ s' L', pg_wf s' L' → pt_rep s' pt (delete (q ++ [i]) tab) → wp K (shrinks T s' L' pt (delete (q ++ [i]) tab)) s') →
  wp (b ← _table_empty (n + hhdm); if negb b then mret tt else
      e ← load_word (a + hhdm + 8 * i); _free_pte me (Z.land e PAGE_FRAME_MASK) ;; store_word (a + hhdm + 8 * i) 0 ;; K)
    (shrinks T s L pt tab) s.
Proof.
  intros Hw R Ha Hi Hn HT HK. destruct (entry_at _ _ _ _ _ _ 0 Hw R Hn ltac:(lia)) as (wn & _ & H1 & H2 & _ & _ & H5).
  apply wp_bind. eapply wp_table_empty; [done..|]. intros [] Hb; cbn [negb].
  2:{ wp_pures. eapply shrinks_refl; [done..|]. apply HT. destruct Hb as (j & e & ? & ?). by exists wn, j, e. }
  pose proof (wp_free_child s L pt tab q a i n wn (λ _ s', wp K (shrinks T s L pt tab) s') Hw R Ha Hi Hn H1 Hb) as H.
  assert (wp ((e ← load_word (a + hhdm + 8 * i); _free_pte me (Z.land e PAGE_FRAME_MASK) ;;
    store_word (a + hhdm + 8 * i) 0) ;; K) (shrinks T s L pt tab) s) as H'.
  { apply wp_bind. eapply wp_mono; [apply H|by intros []]. intros m p s' Hw' R' Hleaf Hf.
    eapply wp_mono; [by eapply HK|]. intros [] s'' (m2 & p2 & -> & Hsh). exists m2, p2. split; [done|].
    by eapply (shrink_step T s L pt tab m p). }
  apply wp_assoc in H'. eapply wp_mono; [|intros ? ? Hx; exact Hx].
  revert H'. unfold wp, mbind, M_bind. destruct (load_word (a + hhdm + 8 * i) s) as [[e s1]| |]; [|done..].
  by destruct (_free_pte me (Z.land e PAGE_FRAME_MASK) s1) as [[[] s2]| |].
Qed.

(** The same at the root, where nothing follows. *)
Lemma wp_free_last T s L pt tab q a i n :
  pg_wf s L → pt_rep s pt tab → tab !! q = Some a → 0 ≤ i < 512 → tab !! (q ++ [i]) = Some n →
  (used_table s n → T s tab) → (∀ s', pt_rep s' pt (delete (q ++ [i]) tab) → T s' (delete (q ++ [i]) tab)) →
  wp (b ← _table_empty (n + hhdm); if negb b then mret tt else
      e ← load_word (a + hhdm + 8 * i); _free_pte me (Z.land e PAGE_FRAME_MASK) ;; store_word (a + hhdm + 8 * i) 0)
    (shrinks T s L pt tab) s.
Proof.
  intros Hw R Ha Hi Hn HT HT'.
  assert (∀ s' L', pg_wf s' L' → pt_rep s' pt (delete (q ++ [i]) tab) →
    wp (mret tt) (shrinks T s' L' pt (delete (q ++ [i]) tab)) s') as HK by (intros; wp_pures; eapply shrinks_refl; auto).
  pose proof (wp_free_up T s L pt tab q a i n (mret tt) Hw R Ha Hi Hn HT HK) as H. revert H. unfold wp, mbind, M_bind.
  destruct (_table_empty (n + hhdm) s) as [[[] s0]| |]; simpl; try done.
  destruct (load_word (a + hhdm + 8 * i) s0) as [[e s1]| |]; [|done..].
  destruct (_free_pte me (Z.land e PAGE_FRAME_MASK) s1) as [[[] s2]| |]; [|done..].
  by destruct (store_word (a + hhdm + 8 * i) 0 s2) as [[[] s3]| |].
Qed.

Lemma wp_free_empty s L pt tab v :
  pg_wf s L → pt_rep s pt tab → is_Some (tab !! path v) →
  wp (__u_pte_free_empty me hhdm pt v) (shrinks (trim v) s L pt tab) s.
Proof.
  intros Hw R [a1 E1]. destruct (pml_range v) as (_ & I2 & I3 & I4).
  set (q3 := [_pml4_index v]). set (q2 := [_pml4_index v; _pml3_index v]).
  destruct (pr_idx _ _ _ _ R q2 (_pml2_index v)) as [[a2 E2] _]; [by exists a1|].
  destruct (pr_idx _ _ _ _ R q3 (_pml3_index v)) as [[a3 E3] _]; [by exists a2|].
  pose proof (pr_root _ _ _ _ R) as E4.
  destruct (parent_entry s L pt tab [] pt _ a3 Hw R E4 I4 E3) as (w4 & e4 & A1 & A2 & A3 & A4 & A5).
  destruct (parent_entry s L pt tab q3 a3 _ a2 Hw R E3 I3 E2) as (w3 & e3 & B1 & B2 & B3 & B4 & B5).
  destruct (parent_entry s L pt tab q2 a2 _ a1 Hw R E2 I2 E1) as (w2 & e2 & C1 & C2 & C3 & C4 & C5).
  destruct (pr_ok _ _ _ _ R _ _ E4) as (_ & D4 & _).
  unfold __u_pte_free_empty. rewrite (P2V_frame _ _ _ _ Hw D4).
  apply wp_bind. eapply wp_load_word; [done..|]. cbv beta. rewrite A3, A4. cbn [negb]. cbv iota.
  apply wp_bind. eapply wp_load_word; [done..|]. cbv beta. rewrite B3, B4. cbn [negb]. cbv iota.
  apply wp_bind. eapply wp_load_word; [done..|]. cbv beta. rewrite C3, C4. cbn [negb]. cbv iota.
  assert (∀ s' tab', (∀ n, tab' !! path v = Some n → used_table s' n) → (∀ n, tab' !! q2 = Some n → used_table s' n) →
    (∀ n, tab' !! q3 = Some n → used_table s' n) → trim v s' tab') as Htrim.
  { intros s' tab' T1 T2 T3 k n Hk. assert (k = 1 ∨ k = 2 ∨ k = 3)%nat as [->|[->| ->]] by lia; [apply T3|apply T2|apply T1]. }
  set (t1 := delete (q2 ++ [_pml2_index v]) tab). set (t2 := delete (q3 ++ [_pml3_index v]) t1).
  assert (t1 !! q3 = Some a3 ∧ t1 !! q2 = Some a2) as [E3' E2'] by (unfold t1; by rewrite !lookup_delete_ne by done).
  assert (t2 !! q3 = Some a3) as E3'' by (unfold t2; by rewrite lookup_delete_ne by done).
  assert (t1 !! path v = None ∧ t2 !! path v = None ∧ t2 !! q2 = None) as (N1 & N2 & N3).
  { unfold t1, t2. split_and!; [apply lookup_delete_eq|rewrite lookup_delete_ne by done; apply lookup_delete_eq|apply lookup_delete_eq]. }
  eapply (wp_free_up _ s L pt tab q2); [done|done|done|done|done| |].
  { intros Hu. apply Htrim; intros n Hn.
    - by rewrite E1 in Hn; injection Hn as <-.
    - rewrite E2 in Hn; injection Hn as <-. by exists w2, (Z.to_nat (_pml2_index v)), e2.
    - rewrite E3 in Hn; injection Hn as <-. by exists w3, (Z.to_nat (_pml3_index v)), e3. }
  intros s1 L1 Hw1 R1. fold t1 in R1.
  eapply (wp_free_up _ s1 L1 pt t1 q3); [done|done|done|done|done| |].
  { intros Hu. destruct (parent_entry s1 L1 pt t1 q3 a3 _ a2 Hw1 R1 E3' I3 E2') as (w & e & F1 & F2 & F3 & _).
    apply Htrim; intros n Hn; [congruence|by rewrite E2' in Hn; injection Hn as <-|].
    rewrite E3' in Hn; injection Hn as <-. by exists w, (Z.to_nat (_pml3_index v)), e. }
  intros s2 L2 Hw2 R2. fold t2 in R2.
  eapply (wp_free_last _ s2 L2 pt t2 []); [done|done|apply R2|done|done| |].
  - intros Hu. apply Htrim; intros n Hn; [congruence..|]. by rewrite E3'' in Hn; injection Hn as <-.
  - intros s3 R3. apply Htrim; intros n Hn; exfalso; [apply lookup_delete_Some in Hn as [_ Hn]; congruence..|].
    rewrite lookup_delete_eq in Hn. congruence.
Qed.
End ops.
