(* ===== verification/PagingTheorems.v ===== *)
(** What the page tables promise: mapping, unmapping and looking up, as changes
    of what the processor translates. *)
From S2P Require Import Prelude Sync DList Pmm PmmSpec Paging PagingSpec PagingTree PagingOps.

#[global] Instance same_page_dec v v' : Decision (same_page v v') := Z.eq_dec _ _.

Section theorems.
Context (me hhdm : Z).
Implicit Types (s : paging) (tab : gmap (list Z) Z).
Notation P2V := (PHYS_TO_VIRT hhdm).
Notation pg_wf := (pg_wf hhdm).
Notation pt_rep := (pt_rep hhdm).
Notation pleaf := (pleaf hhdm).

(** * The processor's walk *)

(** The table that the entry [i] of the table [a] leads to, the one at the end
    of a path of indices, and the entry that the walk ends in for [v]. *)
Definition child s (a i : Z) : option Z :=
  if 0 <=? i then ws ← mem s !! (a + hhdm); e ← ws !! Z.to_nat i; e ← present e; Some (Z.land e PAGE_FRAME_MASK) else None.
Fixpoint walk s (a : Z) (p : list Z) : option Z :=
  match p with [] => Some a | i :: p => b ← child s a i; walk s b p end.
Definition mmu s (pt v : Z) : option Z :=
  a ← walk s pt (path v); ws ← mem s !! (a + hhdm); e ← ws !! Z.to_nat (_pml1_index v); present e.

(** The state between calls: a well-formed machine and tree, the lock free. *)
Definition pt_inv s L (pt : Z) : Prop := pg_wf s L ∧ paging_lock s = unlocked ∧ ∃ tab, pt_rep s pt tab.
(** The tree at [pt] has a table in the frame [f]. *)
Definition is_table s (pt f : Z) : Prop := ∃ p, (length p ≤ 3)%nat ∧ walk s pt p = Some f.

Lemma child_tab s L pt tab q a i : pg_wf s L → pt_rep s pt tab → tab !! q = Some a → (length q < 3)%nat →
  child s a i = tab !! (q ++ [i]).
Proof.
  intros Hw R Ha Hl. unfold child. destruct (Z.leb_spec 0 i) as [Hi|Hi].
  2:{ destruct (tab !! (q ++ [i])) eqn:Hx; [|done]. destruct (pr_idx _ _ _ _ R q i) as [_ ?]; [by rewrite Hx|lia]. }
  destruct (pr_ok _ _ _ _ R _ _ Ha) as (_ & Hf & _). destruct (table_words _ _ _ _ Hw Hf) as (ws & H1 & H2 & _).
  rewrite H1. simpl. destruct (ws !! Z.to_nat i) as [e|] eqn:He; simpl.
  - rewrite (pr_child _ _ _ _ R q a ws i e Ha Hl H1 Hi He). unfold present. by destruct (flag e PFLAG_PRESENT).
  - destruct (tab !! (q ++ [i])) eqn:Hx; [|done]. destruct (pr_idx _ _ _ _ R q i) as [_ ?]; [by rewrite Hx|].
    apply lookup_ge_None in He. lia.
Qed.
Lemma walk_tab s L pt tab p : ∀ q a, pg_wf s L → pt_rep s pt tab → tab !! q = Some a → (length (q ++ p) ≤ 3)%nat →
  walk s a p = tab !! (q ++ p).
Proof.
  induction p as [|i p IH]; intros q a Hw R Ha Hl; simpl; [by rewrite app_nil_r|].
  rewrite length_app in Hl. simpl in Hl. rewrite (child_tab _ _ _ _ q) by (done || lia).
  replace (q ++ i :: p) with ((q ++ [i]) ++ p) by (by rewrite <-app_assoc).
  destruct (tab !! (q ++ [i])) as [b|] eqn:Hb; simpl.
  - apply IH; [done|done|done|]. rewrite !length_app. simpl. lia.
  - clear IH Hl. symmetry. induction p as [|j p IH] using rev_ind; [by rewrite app_nil_r|].
    destruct (tab !! ((q ++ [i]) ++ p ++ [j])) eqn:Hx; [|done]. rewrite app_assoc in Hx.
    destruct (pr_idx _ _ _ _ R ((q ++ [i]) ++ p) j) as [[? Hy] _]; [by rewrite Hx|]. congruence.
Qed.
Lemma walk_root s L pt tab p : pg_wf s L → pt_rep s pt tab → (length p ≤ 3)%nat → walk s pt p = tab !! p.
Proof. intros Hw R Hl. apply (walk_tab s L pt tab p []); [done|done|apply R|done]. Qed.
Lemma mmu_pleaf s L pt tab v : pg_wf s L → pt_rep s pt tab → mmu s pt v = pleaf s tab v.
Proof.
  intros Hw R. unfold mmu, PagingSpec.pleaf. by rewrite (walk_root _ L pt tab) by done.
Qed.
Lemma is_table_tab s L pt tab f : pg_wf s L → pt_rep s pt tab → is_table s pt f ↔ ∃ q, tab !! q = Some f.
Proof.
  intros Hw R. split.
  - intros (p & Hl & Hp). exists p. by rewrite <-(walk_root s L pt tab).
  - intros (q & Hq). destruct (pr_ok _ _ _ _ R _ _ Hq) as [Hl _]. exists q. split; [done|].
    by rewrite (walk_root s L pt tab).
Qed.

(** * Looking up *)

Lemma wp_locked s (Q : unit → paging → Prop) :
  paging_lock s = unlocked → Q tt (put_paging_lock (held me) s) → wp (lock_paging me) Q s.
Proof. intros Hl HQ. unfold lock_paging. apply wp_zoom. rewrite Hl. by apply wp_lock_acquire. Qed.
Lemma wp_unlocked s (Q : unit → paging → Prop) :
  paging_lock s = held me → Q tt (put_paging_lock unlocked s) → wp (unlock_paging me) Q s.
Proof. intros Hl HQ. unfold unlock_paging. apply wp_zoom. rewrite Hl. by apply wp_lock_release. Qed.

Lemma root_frame s L pt tab : pg_wf s L → pt_rep s pt tab → pt ≠ 0 ∧ P2V pt = pt + hhdm.
Proof.
  intros Hw R. destruct (pr_ok _ _ _ _ R _ _ (pr_root _ _ _ _ R)) as (_ & Hf & _).
  split; [destruct Hf as (_ & ? & _); lia|by eapply P2V_frame].
Qed.

(** What both lookups read. *)
Lemma wp_read s L pt tab v (k : Z → Z) (Q : Z → paging → Prop) :
  pg_wf s L → pt_rep s pt tab → Q (match pleaf s tab v with Some e => k e | None => 0 end) s →
  wp (entry ← _leaf_entry me hhdm (P2V pt) v 0; if entry =? 0 then mret 0 else
      e ← load_word entry; if negb (flag e PFLAG_PRESENT) then mret 0 else mret (k e)) Q s.
Proof.
  intros Hw R HQ. destruct (root_frame _ _ _ _ Hw R) as [_ ->]. apply wp_bind. eapply wp_leaf_look; [done|done|].
  unfold PagingSpec.pleaf in HQ. destruct (tab !! path v) as [n|] eqn:Hn; [|simpl; by wp_pures]. simpl in HQ.
  destruct (pml_range v) as [I1 _]. destruct (entry_at _ _ _ _ _ _ _ _ Hw R Hn I1) as (ws & e & H1 & H2 & H3 & H4 & H5).
  rewrite H1 in HQ. simpl in HQ. rewrite H3 in HQ. simpl in HQ. unfold present in HQ.
  assert (n + hhdm + 8 * _pml1_index v =? 0 = false) as ->.
  { destruct H4 as (_ & ? & _). destruct (pw_hhdm _ _ _ Hw) as (_ & ? & _). lia. }
  wp_pures. eapply wp_load_word; [done..|]. cbv beta. by destruct (flag e PFLAG_PRESENT); simpl; wp_pures.
Qed.
Lemma wp_lookups s L pt v : pt_inv s L pt →
  wp (get_paddr me hhdm pt v) (λ r s', s' = s ∧ r = match mmu s pt v with Some e => Z.land e PAGE_FRAME_MASK | None => 0 end) s ∧
  wp (get_pflags me hhdm pt v) (λ r s', s' = s ∧
    r = match mmu s pt v with Some e => Z.land e (not64 PAGE_FRAME_MASK) | None => 0 end) s.
Proof.
  intros (Hw & _ & tab & R). rewrite (mmu_pleaf _ _ _ _ _ Hw R). destruct (root_frame _ _ _ _ Hw R) as [H0 _].
  unfold get_paddr, get_pflags. rewrite (proj2 (Z.eqb_neq _ _) H0). split; by eapply wp_read.
Qed.

(** * Mapping *)

Lemma pg_wf_same s s' L : p_pmm s' = p_pmm s → mem s' = mem s → pg_wf s L → pg_wf s' L.
Proof.
  intros Hp Hm [H1 H2 H3 H4]. split; unfold is_frame, db in *; rewrite ?Hp, ?Hm; done.
Qed.
Lemma pt_rep_same s s' pt tab : p_pmm s' = p_pmm s → mem s' = mem s → pt_rep s pt tab → pt_rep s' pt tab.
Proof.
  intros Hp Hm [R1 R2 R3 R4 R5]. split; try done; unfold table_ok, is_frame, page_of, db in *; rewrite ?Hp, ?Hm; done.
Qed.
Lemma pleaf_same s s' tab v : mem s' = mem s → pleaf s' tab v = pleaf s tab v.
Proof. intros Hm. unfold PagingSpec.pleaf. by rewrite Hm. Qed.

(** An entry is stored, whatever was there. *)
Lemma wp_store_leaf {A} s L pt tab v n val (K : M paging A) (Q : A → paging → Prop) :
  pg_wf s L → pt_rep s pt tab → tab !! path v = Some n →
  (∀ m, let s' := put_mem m s in pg_wf s' L → pt_rep s' pt tab →
     (∀ v', pleaf s' tab v' = if decide (same_page v v') then present val else pleaf s tab v') →
     (∀ b, b ≠ n → m !! (b + hhdm) = mem s !! (b + hhdm)) → wp K Q s') →
  wp (store_word (n + hhdm + 8 * _pml1_index v) val ;; K) Q s.
Proof.
  intros Hw R Hn HK. destruct (pml_range v) as [I1 _].
  destruct (entry_at _ _ _ _ _ _ _ _ Hw R Hn I1) as (ws & e & H1 & H2 & H3 & H4 & H5).
  apply wp_bind. eapply wp_store_word; [done..|].
  destruct (pt_rep_leaf hhdm s pt tab (path v) n ws _ R Hn H1 H2 I1 val eq_refl) as (R' & Hsame & Hother).
  apply HK; [|done| |by intros; rewrite lookup_insert_ne by lia].
  - eapply pg_wf_mem; [done|done|]. by rewrite length_insert.
  - intros v'. case_decide as Hd; apply same_page_path in Hd || idtac.
    + destruct Hd. by apply Hsame.
    + apply Hother. destruct (decide (path v' = path v)) as [Hp|]; [|by left]. right. intros Hi. apply Hd.
      by apply same_page_path.
Qed.
(** An entry is stored where none was present. *)
Lemma wp_install s L pt tab v n val (K : M paging unit) (Q : unit → paging → Prop) :
  pg_wf s L → pt_rep s pt tab → tab !! path v = Some n → pleaf s tab v = None →
  (∀ m, let s' := put_mem m s in pg_wf s' L → pt_rep s' pt tab →
     (∀ v', pleaf s' tab v' = if decide (same_page v v') then present val else pleaf s tab v') →
     (∀ b, b ≠ n → m !! (b + hhdm) = mem s !! (b + hhdm)) → wp K Q s') →
  let entry := n + hhdm + 8 * _pml1_index v in
  wp (e ← load_word entry; when (flag e PFLAG_PRESENT) (drop_frame me (Z.land e PAGE_FRAME_MASK)) ;;
      store_word entry val ;; K) Q s.
Proof.
  intros Hw R Hn Hnone HK entry. destruct (pml_range v) as [I1 _].
  destruct (entry_at _ _ _ _ _ _ _ _ Hw R Hn I1) as (ws & e & H1 & H2 & H3 & H4 & H5).
  assert (flag e PFLAG_PRESENT = false) as Hnp.
  { unfold PagingSpec.pleaf in Hnone. rewrite Hn in Hnone. simpl in Hnone. rewrite H1 in Hnone. simpl in Hnone.
    rewrite H3 in Hnone. simpl in Hnone. unfold present in Hnone. by destruct (flag e PFLAG_PRESENT). }
  apply wp_bind. eapply wp_load_word; [done..|]. cbv beta. rewrite Hnp. apply wp_bind, wp_ret. by eapply wp_store_leaf.
Qed.

Lemma table_flags_ok fl : 0 ≤ table_flags fl < 2 ^ 12 ∧ flag (table_flags fl) PFLAG_PRESENT = true.
Proof. unfold table_flags. by destruct (flag fl PFLAG_USER). Qed.
Lemma align_range p : 0 ≤ p < 2 ^ 52 → 0 ≤ ALIGN_DOWN p PAGE_SIZE < 2 ^ 52 ∧ ALIGN_DOWN p PAGE_SIZE mod PAGE_SIZE = 0.
Proof.
  intros Hp. unfold ALIGN_DOWN. rewrite Z.mod_mul by done. split; [|done]. unfold PAGE_SIZE.
  pose proof (Z.div_mod p 4096). pose proof (Z.mod_pos_bound p 4096). lia.
Qed.

(** What a translation becomes. *)
Definition mapped s s' (pt v e : Z) : Prop :=
  ∀ v', mmu s' pt v' = if decide (same_page v v') then Some e else mmu s pt v'.

(** Both functions that map, from the walk to the store. *)
Lemma wp_map_at s L pt tab v fl val (K Kfail : M paging unit) (Q : unit → paging → Prop) :
  pg_wf s L → pt_rep s pt tab → pleaf s tab v = None →
  (∀ m p tab', grow hhdm s L pt tab m p [] tab' → tab !! path v = None → wp Kfail Q (put_mem m (put_pmm p s))) →
  (∀ m p L' tab', let s' := put_mem m (put_pmm p s) in pg_wf s' L' → pt_rep s' pt tab' →
     (∀ v', pleaf s' tab' v' = if decide (same_page v v') then present val else pleaf s tab v') →
     (∃ P, P ⊆ L ∧ pmm_frame P (p_pmm s) p) → L' ⊆ L →
     (∀ q n, tab' !! q = Some n → tab !! q = Some n ∨ page_of s n ∈ L) →
     (∀ b, (∀ q, tab' !! q ≠ Some b) → m !! (b + hhdm) = mem s !! (b + hhdm)) →
     (∀ x, owned s L' tab' x ↔ owned s L tab x) → wp K Q s') →
  wp (entry ← _leaf_entry me hhdm (P2V pt) (ALIGN_DOWN v PAGE_SIZE) (table_flags fl);
      if entry =? 0 then Kfail else
      e ← load_word entry; when (flag e PFLAG_PRESENT) (drop_frame me (Z.land e PAGE_FRAME_MASK)) ;;
      store_word entry val ;; K) Q s.
Proof.
  intros Hw R Hnone Hfail HK. destruct (root_frame _ _ _ _ Hw R) as [_ ->]. destruct (table_flags_ok fl) as [Hf1 Hf2].
  apply wp_bind. eapply wp_mono; [by apply (wp_leaf_entry me hhdm s L pt tab)|].
  destruct (proj1 (same_page_path _ _) (align_same v)) as [Hpath Hidx]. rewrite Hpath, Hidx.
  intros r s1 (m & p & L' & tab' & -> & G & [(-> & -> & HN)|(n & -> & Hr & Hn)]); [simpl; by eapply Hfail|].
  rewrite (proj2 (Z.eqb_neq _ _) Hr). destruct G as [G1 G2 G3 G4 [G5 G6] G7 G8 G9].
  eapply wp_install; [done|done|done|by rewrite G4|]. intros m' s' Hw' R' Hleaf Hmem.
  eapply (HK m' p L' tab'); [done|done| |done|done|done| |exact G9]; [intros v'; by rewrite Hleaf, G4|].
  intros b Hb. rewrite Hmem; [by apply G8|]. intros ->. by apply (Hb _ Hn).
Qed.

Lemma no_free p : pmm_inv p [] → free_list p = 0.
Proof. intros [[_ (H & _) _ _] _]. done. Qed.

(** One page of registers is mapped over whatever was there, unless no page is left for
    a table; the code does not tell its caller which. *)
Lemma wp_map_mmio_page s L pt v p : pt_inv s L pt → 0 ≤ v < 2 ^ 64 →
  wp (map_mmio me hhdm pt v p 1) (λ _ s', ∃ L' m q inv, s' = put_invlpgs inv (put_mem m (put_pmm q s)) ∧ pt_inv s' L' pt ∧ L' ⊆ L ∧
    (mapped s s' pt v (Z.lor (u64 (ALIGN_DOWN p PAGE_SIZE)) PFLAG_MMIO) ∨ L' = [] ∧ ∀ v', mmu s' pt v' = mmu s pt v')) s.
Proof.
  intros (Hw & Hl & tab & R) Hv. destruct (root_frame _ _ _ _ Hw R) as [H0 HP]. unfold map_mmio. rewrite (proj2 (Z.eqb_neq _ _) H0), HP. cbv zeta.
  assert (u64 (ALIGN_DOWN v PAGE_SIZE + 0 * PAGE_SIZE) = ALIGN_DOWN v PAGE_SIZE) as Hva.
  { rewrite Z.mul_0_l, Z.add_0_r. apply u64_id. unfold ALIGN_DOWN, PAGE_SIZE. pose proof (Z.div_mod v 4096). pose proof (Z.mod_pos_bound v 4096). lia. }
  destruct (proj1 (same_page_path _ _) (align_same v)) as [Hpath Hidx].
  apply wp_bind. unfold mmio_round at 1. rewrite (proj2 (Z.ltb_lt 0 1)) by lia. cbv zeta. rewrite Hva, Z.mul_0_l, Z.add_0_r. apply wp_bind.
  eapply wp_mono; [by apply (wp_leaf_entry me hhdm s L pt tab)|]. rewrite Hpath, Hidx. intros r s1 (m & q & L' & tab' & -> & G & [(-> & -> & HN)|(n & -> & Hr & Hn)]); destruct G as [G1 G2 G3 G4 [G5 G6] G7 G8 G9].
  - apply wp_ret, wp_ret. exists [], m, q, (invlpgs s). split; [by destruct s|]. split; [|split; [done|right; split; [done|]]]; [split; [done|]; split; [done|]; eauto|].
    intros v'. by rewrite (mmu_pleaf _ _ _ _ _ G1 G2), (mmu_pleaf _ _ _ _ _ Hw R), G4.
  - rewrite (proj2 (Z.eqb_neq _ _) Hr). eapply wp_store_leaf; [done|done|done|]. intros m' s' Hw' R' Hleaf _. apply wp_bind, wp_modify, wp_ret. cbv beta iota.
    apply wp_bind. unfold mmio_round at 1. cbn [Z.ltb Z.add Z.compare Pos.compare Pos.compare_cont]. apply wp_ret, wp_ret.
    match goal with |- ∃ _ _ _ _, ?st = _ ∧ _ => set (s2 := st) end. exists L', m', q, (ALIGN_DOWN v PAGE_SIZE :: invlpgs s).
    assert (pg_wf s2 L' ∧ pt_rep s2 pt tab') as [Hw2 R2] by (split; [by eapply (pg_wf_same s')|by eapply (pt_rep_same s')]).
    split; [by destruct s|]. split; [|split; [done|left]]; [split; [done|]; split; [done|]; eauto|].
    intros v'. rewrite (mmu_pleaf _ _ _ _ _ Hw2 R2), (mmu_pleaf _ _ _ _ _ Hw R), (pleaf_same s' s2), Hleaf, G4 by done.
    case_decide; [|done]. unfold present. by rewrite flag_lor, orb_true_r.
Qed.

Lemma wp_map_paddr s L pt v p fl :
  pt_inv s L pt → mmu s pt v = None →
  wp (map_paddr me hhdm pt v p fl) (λ _ s',
    (∃ L', pt_inv s' L' pt ∧ mapped s s' pt v (leaf_value (ALIGN_DOWN p PAGE_SIZE) fl) ∧
       invlpgs s' = ALIGN_DOWN v PAGE_SIZE :: invlpgs s) ∨
    (paging_lock s' = held me ∧ free_list (p_pmm s') = 0 ∧ ∀ v', mmu s' pt v' = mmu s pt v')) s.
Proof.
  intros (Hw & Hl & tab & R) Hnone. rewrite (mmu_pleaf _ _ _ _ _ Hw R) in Hnone.
  destruct (root_frame _ _ _ _ Hw R) as [H0 _]. unfold map_paddr. rewrite (proj2 (Z.eqb_neq _ _) H0).
  apply wp_bind, wp_locked; [done|]. cbv zeta. set (s0 := put_paging_lock (held me) s).
  assert (pg_wf s0 L ∧ pt_rep s0 pt tab) as [Hw0 R0] by (split; [by eapply (pg_wf_same s)|by eapply (pt_rep_same s)]).
  eapply (wp_map_at s0 L pt tab); [done|done|done|..].
  - intros m p' tab' G _. wp_pures. right. split; [done|]. split; [apply no_free, (g_wf _ _ _ _ _ _ _ _ _ G)|].
    intros v'. rewrite (mmu_pleaf _ _ _ _ _ (g_wf _ _ _ _ _ _ _ _ _ G) (g_rep _ _ _ _ _ _ _ _ _ G)).
    rewrite (g_leaf _ _ _ _ _ _ _ _ _ G). by rewrite (mmu_pleaf _ _ _ _ _ Hw R).
  - intros m p' L' tab' s1 Hw1 R1 Hleaf _ _ _ _ _. unfold invlpg. wp_pures. eapply wp_unlocked; [done|]. left. exists L'.
    match goal with |- pt_inv ?st _ _ ∧ _ => set (s2 := st) end.
    assert (pg_wf s2 L' ∧ pt_rep s2 pt tab') as [Hw2 R2] by (split; [by eapply (pg_wf_same s1)|by eapply (pt_rep_same s1)]).
    split; [|split; [|done]].
    + split; [done|]. split; [done|]. eauto.
    + intros v'. rewrite (mmu_pleaf _ _ _ _ _ Hw2 R2), (mmu_pleaf _ _ _ _ _ Hw R), (pleaf_same s1 s2) by done. rewrite Hleaf.
      unfold present. by rewrite leaf_value_present.
Qed.

(** A page in use keeps its descriptor while tables come from the free pages. *)
Lemma desc_kept s L p P a d :
  pg_wf s L → pm_pages (p_pmm s) !! a = Some d → refcount d ≠ 0 → P ⊆ L → pmm_frame P (p_pmm s) p →
  a ∉ L ∧ pm_pages p !! a = Some d.
Proof.
  intros Hw Hd Hr HP Hf. destruct (pw_pmm _ _ _ Hw) as [Hc _].
  assert (a ∉ L) as Hn.
  { intros Hin. destruct (pc_pages _ _ Hc _ _ Hd) as (_ & H & _). by apply Hr, H. }
  split; [done|]. apply (pf_used _ _ _ Hf); [set_solver|done|]. by eapply pmm_not_free.
Qed.

Lemma put_lock_id s : paging_lock s = unlocked → put_paging_lock unlocked s = s.
Proof. destruct s. simpl. by intros ->. Qed.

(** The page gets a share and a reference. *)
Definition kept (d : page_t) : page_t := set_refcount (λ n, n + 1) (share_page d).
Lemma wp_share_retain s L a d (K : M paging unit) (Q : unit → paging → Prop) :
  pmm_inv (p_pmm s) L → pm_pages (p_pmm s) !! a = Some d → 1 ≤ refcount d < 2 ^ 32 - 1 →
  (∀ p, pmm_inv p L → pmm_frame [a] (p_pmm s) p → pm_pages p !! a = Some (kept d) → wp K Q (put_pmm p s)) →
  wp (in_pmm (pmm_page_share me a) ;; in_pmm (pmm_page_retain me a) ;; K) Q s.
Proof.
  intros Hi Hd Hr HQ. assert (is_page_free d = false) as Hnf by (eapply pmm_not_free; [apply Hi|done|lia]).
  assert (a ∉ L) as Hn.
  { intros Hin. destruct (pc_pages _ _ (proj1 Hi) _ _ Hd) as (_ & H & _). specialize (H Hin). lia. }
  assert (refcount (share_page d) = refcount d) as Hrs by (unfold share_page; by repeat case_match).
  unfold in_pmm. wp_pures. eapply wp_pmm_page_share; [done|done|done|]. intros p1 Hi1 Hf1 Hd1. wp_pures.
  eapply wp_pmm_page_retain; [exact Hi1|exact Hd1|..].
  - intros p2 l1 l2 -> _ _ _. exfalso. apply Hn. set_solver.
  - intros p2 _ Hi2 Hf2 Hd2. apply (HQ p2); [done| |].
    + eapply pmm_frame_mono; [by eapply pmm_frame_trans|]. set_solver.
    + rewrite Hd2, Hrs. unfold kept, set_refcount. rewrite u32_id by lia.
      rewrite (proj2 (Z.eqb_neq _ _)) by lia. by rewrite Hrs.
Qed.

Lemma wp_map_page s L pt tab v f d fl (Q : unit → paging → Prop) :
  pg_wf s L → paging_lock s = unlocked → pt_rep s pt tab → pleaf s tab v = None →
  is_frame s f → pm_pages (p_pmm s) !! page_of s f = Some d → 1 ≤ refcount d < 2 ^ 32 - 1 → (∀ q, tab !! q ≠ Some f) →
  (∀ m p tab', grow hhdm s L pt tab m p [] tab' → tab !! path v = None → Q tt (put_mem m (put_pmm p s))) →
  (∀ s' L' tab' P, pg_wf s' L' → paging_lock s' = unlocked → pt_rep s' pt tab' →
     (∀ v', pleaf s' tab' v' = if decide (same_page v v') then Some (leaf_value f fl) else pleaf s tab v') →
     (∀ q, tab' !! q ≠ Some f) → pm_pages (p_pmm s') !! page_of s f = Some (kept d) →
     pmm_frame P (p_pmm s) (p_pmm s') → invlpgs s' = ALIGN_DOWN v PAGE_SIZE :: invlpgs s →
     (∀ b, (∀ q, tab' !! q ≠ Some b) → mem s' !! (b + hhdm) = mem s !! (b + hhdm)) →
     (∀ x, owned s L' tab' x ↔ owned s L tab x) → Q tt s') →
  wp (map_page me hhdm pt v (page_of s f) fl) Q s.
Proof.
  intros Hw Hl R Hnone Hf Hd Hr Hnt Hfail HQ. destruct (root_frame _ _ _ _ Hw R) as [H0 _].
  assert (page_of s f ≠ 0) as Hpf by (eapply pmm_page_nonzero; [apply (pw_pmm _ _ _ Hw)|done]).
  unfold map_page. rewrite (proj2 (Z.eqb_neq _ _) H0), (proj2 (Z.eqb_neq _ _) Hpf).
  apply wp_bind, wp_locked; [done|]. cbv zeta. apply wp_bind. unfold page_db. apply wp_gets. cbv beta.
  change (pm_db (p_pmm (put_paging_lock (held me) s))) with (db s). rewrite (page_to_phys_frame _ _ _ _ Hw Hf).
  set (s0 := put_paging_lock (held me) s).
  assert (pg_wf s0 L ∧ pt_rep s0 pt tab) as [Hw0 R0] by (split; [by eapply (pg_wf_same s)|by eapply (pt_rep_same s)]).
  eapply (wp_map_at s0 L pt tab); [done|done|done|..].
  - intros m p' tab' G HN. apply wp_unlocked; [done|].
    replace (put_paging_lock unlocked (put_mem m (put_pmm p' s0))) with (put_mem m (put_pmm p' s)).
    2:{ unfold s0. destruct s. simpl in Hl. by subst. }
    apply (Hfail m p' tab'); [|done]. destruct G as [G1 G2 G3 G4 G5 G6 G7 G8].
    split; [by eapply (pg_wf_same (put_mem m (put_pmm p' s0)))|by eapply (pt_rep_same (put_mem m (put_pmm p' s0)))|done..].
  - intros m p L' tab' s1 Hw1 R1 Hleaf (P & HP & Hfr) HL' Hnew Hmem Hown.
    destruct (desc_kept s L p P (page_of s f) d) as [HfL Hd1]; [done|done|lia|done|done|].
    assert (∀ q, tab' !! q ≠ Some f) as Hnt1.
    { intros q Hq. destruct (Hnew q f Hq) as [Hq'|Hin]; [by apply (Hnt q)|by apply HfL]. }
    eapply (wp_share_retain s1 L'); [apply Hw1|exact Hd1|done|]. intros p2 Hi2 Hf2 Hd2. unfold invlpg. wp_pures.
    apply wp_unlocked; [done|]. match goal with |- Q tt ?st => set (s2 := st) end.
    assert (pg_wf (put_pmm p2 s1) L') as Hw2.
    { eapply pg_wf_pmm; [exact Hf2|exact Hw1|exact Hi2|]. apply Hw1. }
    assert (pt_rep (put_pmm p2 s1) pt tab') as R2.
    { eapply pt_rep_pmm; [exact Hf2|exact Hw1|exact R1|]. intros q b Hb. apply not_elem_of_cons. split; [|set_solver].
      intros Heq. apply (Hnt1 q). rewrite Hb. f_equal. apply (page_of_inj s1).
      - by apply (pr_ok _ _ _ _ R1 _ _ Hb).
      - by apply (is_frame_pmm s p P Hfr).
      - rewrite Heq. symmetry. apply (page_of_pmm s p P Hfr). }
    eapply (HQ s2 L' tab' (P ++ [page_of s f])); [by eapply (pg_wf_same (put_pmm p2 s1))|done|by eapply (pt_rep_same (put_pmm p2 s1))| |done|done| |done|done|exact Hown].
    + intros v'. rewrite (pleaf_same s1 s2) by done. rewrite Hleaf. unfold present. by rewrite leaf_value_present.
    + by eapply pmm_frame_trans.
Qed.

(** * Unmapping *)

Lemma pleaf_entry s L pt tab v e : pg_wf s L → pt_rep s pt tab → pleaf s tab v = Some e →
  ∃ n ws, tab !! path v = Some n ∧ mem s !! (n + hhdm) = Some ws ∧ length ws = 512%nat ∧
    ws !! Z.to_nat (_pml1_index v) = Some e ∧ flag e PFLAG_PRESENT = true ∧ (n + hhdm) mod PAGE_SIZE = 0 ∧
    n + hhdm + 8 * _pml1_index v ≠ 0.
Proof.
  intros Hw R Hp. unfold PagingSpec.pleaf in Hp. destruct (tab !! path v) as [n|] eqn:Hn; [|done]. simpl in Hp.
  destruct (pml_range v) as [I1 _]. destruct (entry_at _ _ _ _ _ _ _ _ Hw R Hn I1) as (ws & e' & H1 & H2 & H3 & H4 & H5).
  rewrite H1 in Hp. simpl in Hp. rewrite H3 in Hp. simpl in Hp. unfold present in Hp.
  destruct (flag e' PFLAG_PRESENT) eqn:Hf; [|done]. injection Hp as ->. exists n, ws. split_and!; try done.
  destruct H4 as (_ & ? & _). destruct (pw_hhdm _ _ _ Hw) as (_ & ? & _). lia.
Qed.

Lemma wp_unmap_none s L pt tab v (Q : unit → paging → Prop) :
  pg_wf s L → paging_lock s = unlocked → pt_rep s pt tab → pleaf s tab v = None → Q tt s →
  wp (unmap_page me hhdm pt v) Q s.
Proof.
  intros Hw Hl R Hnone HQ. destruct (root_frame _ _ _ _ Hw R) as [H0 Hv].
  unfold unmap_page. rewrite (proj2 (Z.eqb_neq _ _) H0), Hv. apply wp_bind, wp_locked; [done|]. cbv zeta.
  set (s0 := put_paging_lock (held me) s).
  assert (pg_wf s0 L ∧ pt_rep s0 pt tab) as [Hw0 R0] by (split; [by eapply (pg_wf_same s)|by eapply (pt_rep_same s)]).
  assert (wp (unlock_paging me) Q s0) as Hend by (apply wp_unlocked; [done|]; unfold s0; destruct s; simpl in Hl; by subst).
  apply wp_bind. eapply (wp_leaf_look me hhdm s0 L pt tab); [done|done|].
  destruct (proj1 (same_page_path _ _) (align_same v)) as [-> ->].
  unfold PagingSpec.pleaf in Hnone. destruct (tab !! path v) as [n|] eqn:Hn; [|done]. simpl in Hnone.
  destruct (pml_range v) as [I1 _]. destruct (entry_at _ _ _ _ _ _ _ _ Hw R Hn I1) as (ws & e & H1 & H2 & H3 & H4 & H5).
  rewrite H1 in Hnone. simpl in Hnone. rewrite H3 in Hnone. simpl in Hnone. unfold present in Hnone.
  destruct (Z.eqb_spec (n + hhdm + 8 * _pml1_index v) 0); [done|]. apply wp_bind.
  eapply wp_load_word; [done..|]. cbv beta. by destruct (flag e PFLAG_PRESENT).
Qed.

Lemma wp_unmap s L pt tab v e d (Q : unit → paging → Prop) :
  let f := Z.land e PAGE_FRAME_MASK in
  pg_wf s L → paging_lock s = unlocked → pt_rep s pt tab → pleaf s tab v = Some e →
  is_frame s f → pm_pages (p_pmm s) !! page_of s f = Some d → refcount d ≠ 0 → (∀ q, tab !! q ≠ Some f) →
  (∀ s' L' tab', pg_wf s' L' → paging_lock s' = unlocked → pt_rep s' pt tab' →
     (∀ v', pleaf s' tab' v' = if decide (same_page v v') then None else pleaf s tab v') →
     (2 ≤ refcount d → pm_pages (p_pmm s') !! page_of s f = Some (dropped d) ∧ ∀ x, owned s L' tab' x ↔ owned s L tab x) →
     trim hhdm v s' tab' →
     invlpgs s' = ALIGN_DOWN v PAGE_SIZE :: invlpgs s → Q tt s') →
  wp (unmap_page me hhdm pt v) Q s.
Proof.
  intros f Hw Hl R Hleaf Hf Hd Hr Hnt HQ. destruct (root_frame _ _ _ _ Hw R) as [H0 Hv].
  destruct (pleaf_entry _ _ _ _ _ _ Hw R Hleaf) as (n & ws & E1 & E2 & E3 & E4 & E5 & E6 & E7). destruct (pml_range v) as [I1 _].
  unfold unmap_page. rewrite (proj2 (Z.eqb_neq _ _) H0), Hv. apply wp_bind, wp_locked; [done|]. cbv zeta.
  set (s0 := put_paging_lock (held me) s).
  assert (pg_wf s0 L ∧ pt_rep s0 pt tab) as [Hw0 R0] by (split; [by eapply (pg_wf_same s)|by eapply (pt_rep_same s)]).
  apply wp_bind. eapply (wp_leaf_look me hhdm s0 L pt tab); [done|done|].
  destruct (proj1 (same_page_path _ _) (align_same v)) as [Hpath Hidx]. rewrite Hpath, Hidx, E1.
  rewrite (proj2 (Z.eqb_neq _ _) E7). apply wp_bind. eapply (wp_load_word s0); [done..|]. cbv beta. rewrite E5. cbn [negb]. cbv iota.
  apply wp_bind. eapply (wp_drop_frame me hhdm s0 L f d); [done|done|done|done|]. intros p1 L1 Hf1 Hw1 Hd1.
  assert (pt_rep (put_pmm p1 s0) pt tab) as R1.
  { eapply pt_rep_pmm; [exact Hf1|exact Hw0|exact R0|]. intros q b Hb. apply not_elem_of_cons. split; [|set_solver].
    intros Heq. apply (Hnt q). rewrite Hb. f_equal. eapply (page_of_inj s0); [|done|done]. by apply (pr_ok _ _ _ _ R0 _ _ Hb). }
  apply wp_bind. eapply (wp_store_word (put_pmm p1 s0)); [done..|].
  destruct (pt_rep_leaf hhdm (put_pmm p1 s0) pt tab (path v) n ws _ R1 E1 E2 E3 I1 0 eq_refl) as (R2 & Hsame & Hother).
  assert (pg_wf (put_mem (<[n + hhdm := <[Z.to_nat (_pml1_index v) := 0]> ws]> (mem s)) (put_pmm p1 s0)) L1) as Hw2.
  { eapply (pg_wf_mem hhdm (put_pmm p1 s0)); [done|exact E2|]. by rewrite length_insert. }
  unfold invlpg. wp_pures. match goal with |- wp _ _ ?st => set (s3 := st) end.
  eapply wp_mono; [eapply (wp_free_empty me hhdm s3 L1 pt tab)|].
  { by eapply pg_wf_same; [..|exact Hw2]. }
  { by eapply pt_rep_same; [..|exact R2]. }
  { rewrite Hpath. eauto. }
  intros [] s4 (m4 & p4 & -> & [(L4 & tab4 & S1 & S2 & S3 & S4 & S5 & S6) (P & HP & HPf)]). apply wp_unlocked; [done|].
  match goal with |- Q tt ?st => set (s5 := st) end.
  eapply (HQ s5 L4 tab4); [by eapply pg_wf_same; [..|exact S1]|done|by eapply pt_rep_same; [..|exact S2]| | |unfold trim in *; by rewrite Hpath in S6|done].
  - intros v'. rewrite (pleaf_same (put_mem m4 (put_pmm p4 s3)) s5) by done. rewrite S4. case_decide as Hsp.
    + apply same_page_path in Hsp as [Hp' Hi']. exact (Hsame v' (eq_sym Hp') (eq_sym Hi')).
    + apply Hother. destruct (decide (path v' = path v)) as [Hp|]; [|by left]. right. intros Hi. apply Hsp.
      by apply same_page_path.
  - intros H2. destruct (Hd1 H2) as [-> Hdd]. split.
    2:{ intros x. pose proof (S5 x) as Hx. change (owned s3) with (owned (put_mem (mem s3) (put_pmm p1 s0))) in Hx.
        by rewrite !(owned_pmm s0 p1 _ (mem s3) _ _ _ Hf1) in Hx. }
    apply (pf_used _ _ _ HPf); [|exact Hdd|].
    + intros Hin. destruct (HP _ Hin) as (q & b & Hb & Heq). apply (Hnt q). rewrite Hb. f_equal.
      apply (page_of_inj s); [|done|].
      * by apply (pr_ok _ _ _ _ R _ _ Hb).
      * rewrite Heq. symmetry. apply (page_of_pmm s0 p1 _ Hf1).
    + eapply pmm_not_free; [apply (pw_pmm _ _ _ Hw1)|exact Hdd|].
      unfold dropped, set_refcount. simpl. rewrite unshare_refcount. lia.
Qed.
(** The frames that are free or tables, as the processor finds them. *)
Lemma owned_same s s1 L tab x : (∀ g, page_of s1 g = page_of s g) → owned s1 L tab x ↔ owned s L tab x.
Proof. intros Hp. unfold owned. by setoid_rewrite Hp. Qed.
Lemma owned_frames s s' L pt tab g : is_frame s g → pg_wf s' L → pt_rep s' pt tab →
  (page_of s g ∈ L ∨ is_table s' pt g) ↔ owned s L tab (page_of s g).
Proof.
  intros (Hg & _) Hw R. rewrite (is_table_tab _ _ _ _ _ Hw R). unfold owned. split.
  - intros [H|[q Hq]]; [by left|right; eauto].
  - intros [H|(q & n & Hq & Hn)]; [by left|right]. exists q. rewrite Hq. f_equal.
    destruct (pr_ok _ _ _ _ R _ _ Hq) as (_ & (Hn' & _) & _).
    apply Z.div_exact in Hg, Hn'; [|done..]. unfold page_of, page_at, sizeof_page in Hn. lia.
Qed.
End theorems.

Lemma kept_refcount d : refcount (kept d) = refcount d + 1.
Proof. unfold kept, share_page. destruct (is_page_shared d); simpl; [done|]. by case_match. Qed.
Lemma dropped_kept d : is_page_shared d = false → u2 d = 1 → 0 ≤ flags d < 2 ^ 32 → dropped (kept d) = d.
Proof.
  intros. unfold dropped, kept. rewrite unshare_share by done. destruct d. unfold set_refcount. simpl. f_equal. lia.
Qed.

(** * The properties *)

Section properties.
Context (me hhdm : Z).
Implicit Types (s : paging) (L : list Z).

(** C3: mapping a physical address changes what the processor translates at
    that page and nowhere else: the page leads to the frame with the flags asked
    for, its stale translation is flushed, and the lookups give the frame and
    the flags back. Only when no page is free for a table does it fail; then no
    translation has changed, and the lock is left held. *)
Theorem map_paddr_spec s L pt v p fl :
  pt_inv hhdm s L pt → mmu hhdm s pt v = None → 0 ≤ p < 2 ^ 52 → 0 ≤ fl < 2 ^ 64 →
  wp (map_paddr me hhdm pt v p fl) (λ _ s',
    (∃ L', pt_inv hhdm s' L' pt ∧ mapped hhdm s s' pt v (leaf_value (ALIGN_DOWN p PAGE_SIZE) fl) ∧
       invlpgs s' = ALIGN_DOWN v PAGE_SIZE :: invlpgs s ∧
       wp (get_paddr me hhdm pt v) (λ r _, r = ALIGN_DOWN p PAGE_SIZE) s' ∧
       wp (get_pflags me hhdm pt v) (λ r _, r = Z.lor (Z.land fl (not64 PAGE_FRAME_MASK)) PFLAG_PRESENT) s') ∨
    (paging_lock s' = held me ∧ free_list (p_pmm s') = 0 ∧ ∀ v', mmu hhdm s' pt v' = mmu hhdm s pt v')) s.
Proof.
  intros Hinv Hnone Hp Hfl. eapply wp_mono; [by eapply wp_map_paddr|]. intros [] s' [(L' & Hi & Hm & Hf)|H]; [left|by right].
  exists L'. split_and!; [done|done|done|..]; (destruct (wp_lookups me hhdm s' L' pt v Hi) as [H1 H2]);
    destruct (align_range p Hp) as [Hr Hal].
  - eapply wp_mono; [exact H1|]. intros r ? [_ ->]. rewrite (Hm v), decide_True by done. apply leaf_value_frame; [done|done|lia].
  - eapply wp_mono; [exact H2|]. intros r ? [_ ->]. rewrite (Hm v), decide_True by done. by apply leaf_value_flags.
Qed.

(** C4: mapping a page and unmapping it again gives everything back: every
    address is translated as before, the page has the references and shares it
    had, and every frame that was free or one of the tables still is free or one
    of them, and no other has become so. No table on the way to the address is
    left empty: those that were allocated for the mapping, and those that were
    empty before it, are free again. Only when the pages run out on the way down
    nothing is mapped, and the tables that were added until then stay. *)
Theorem map_unmap_roundtrip s L pt v f d fl :
  pt_inv hhdm s L pt → mmu hhdm s pt v = None → 0 ≤ fl →
  is_frame s f → ¬ is_table hhdm s pt f → pm_pages (p_pmm s) !! page_of s f = Some d →
  1 ≤ refcount d < 2 ^ 32 - 1 → is_page_shared d = false → u2 d = 1 → 0 ≤ flags d < 2 ^ 32 →
  wp (map_page me hhdm pt v (page_of s f) fl ;; unmap_page me hhdm pt v) (λ _ s', ∃ L', pt_inv hhdm s' L' pt ∧
    (∀ v', mmu hhdm s' pt v' = mmu hhdm s pt v') ∧ pm_pages (p_pmm s') !! page_of s f = Some d ∧
    (∀ g, is_frame s g → (page_of s g ∈ L' ∨ is_table hhdm s' pt g) ↔ (page_of s g ∈ L ∨ is_table hhdm s pt g)) ∧
    ((L' = [] ∧ walk hhdm s pt (path v) = None) ∨
     ∀ k a, (1 ≤ k ≤ 3)%nat → walk hhdm s' pt (take k (path v)) = Some a → used_table hhdm s' a)) s.
Proof.
  intros (Hw & Hl & tab & R) Hnone Hfl Hf Hnt Hd Hr Hsh Hu Hfg. rewrite (mmu_pleaf _ _ _ _ _ _ Hw R) in Hnone.
  assert (∀ q, tab !! q ≠ Some f) as Hnt'.
  { intros q Hq. apply Hnt. eapply is_table_tab; eauto. }
  apply wp_bind. eapply (wp_map_page me hhdm s L pt tab v f d); [done..| |].
  - intros m p tab' [G1 G2 G3 G4 (G5 & P & G6 & G7) G8 _ G9] HN.
    eapply wp_unmap_none; [exact G1|exact Hl|exact G2|by rewrite G4|]. exists []. split; [split; [done|]; split; [exact Hl|eauto]|].
    split_and!.
    + intros v'. by rewrite (mmu_pleaf _ _ _ _ _ _ G1 G2), (mmu_pleaf _ _ _ _ _ _ Hw R), G4.
    + apply (desc_kept hhdm s L p P (page_of s f) d); [done|done|lia|done|done].
    + intros g Hg. by rewrite (owned_frames hhdm s _ _ _ _ g Hg G1 G2), G9, <-(owned_frames hhdm s _ _ _ _ g Hg Hw R).
    + left. split; [done|]. by rewrite (walk_root _ _ _ _ _ _ Hw R) by (simpl; lia).
  - intros s1 L1 tab1 P Hw1 Hl1 R1 Hleaf1 Hnt1 Hd1 Hf1 _ _ Hown1.
    assert (Z.land (leaf_value f fl) PAGE_FRAME_MASK = f) as Hfrm.
    { pose proof (frame_lt _ _ _ _ Hw Hf). destruct Hf as (? & ? & _). apply leaf_value_frame; [done|lia|done]. }
    assert (∀ g, page_of s1 g = page_of s g) as Hpg.
    { intros g. destruct Hf1 as [(E1 & E2 & _) _ _ _]. unfold page_of, page_at, db in *. by rewrite E1. }
    assert (is_frame s1 f) as Hfr1.
    { destruct Hf1 as [(E1 & E2 & _) _ _ _]. unfold is_frame, db in *. by rewrite E2. }
    eapply (wp_unmap me hhdm s1 L1 pt tab1 v (leaf_value f fl) (kept d)); rewrite ?Hfrm, ?Hpg; try done.
    { by rewrite Hleaf1, decide_True. }
    { rewrite kept_refcount. lia. }
    intros s2 L2 tab2 Hw2 Hl2 R2 Hleaf2 Hd2 Htr _. destruct Hd2 as [Hd2 Hown2]; [rewrite kept_refcount; lia|].
    exists L2. split; [split; [done|]; split; [done|eauto]|]. split_and!.
    + intros v'. rewrite (mmu_pleaf _ _ _ _ _ _ Hw2 R2), (mmu_pleaf _ _ _ _ _ _ Hw R), Hleaf2, Hleaf1.
      case_decide as Hsp; [|done]. rewrite <-Hnone. apply same_page_path in Hsp as [Hp' Hi'].
      unfold PagingSpec.pleaf. by rewrite Hp', Hi'.
    + by rewrite Hd2, dropped_kept.
    + intros g Hg. rewrite (owned_frames hhdm s _ _ _ _ g Hg Hw2 R2), (owned_frames hhdm s _ _ _ _ g Hg Hw R), <-Hown1.
      rewrite <-!(owned_same s s1) by done. apply Hown2.
    + right. intros k a Hk Ha. apply (Htr k a Hk). by rewrite <-(walk_root _ _ _ _ _ _ Hw2 R2) by (rewrite length_take; lia).
Qed.

(** when no page is left for a table, [map_paddr] returns without
    releasing its lock: the mapping is not made, and no later call returns. *)
Theorem map_paddr_oom_deadlock s pt v p fl :
  pt_inv hhdm s [] pt → walk hhdm s pt (path v) = None →
  ∃ s', map_paddr me hhdm pt v p fl s = Done (tt, s') ∧ (∀ v', mmu hhdm s' pt v' = mmu hhdm s pt v') ∧
    ∀ v' p' fl', map_paddr me hhdm pt v' p' fl' s' = Hang.
Proof.
  intros (Hw & Hl & tab & R) Hnone. rewrite (walk_root _ _ _ _ _ _ Hw R) in Hnone by (simpl; lia).
  destruct (root_frame _ _ _ _ _ Hw R) as [H0 Hv]. apply (proj2 (Z.eqb_neq _ _)) in H0.
  assert (wp (map_paddr me hhdm pt v p fl) (λ _ s', (∀ v', mmu hhdm s' pt v' = mmu hhdm s pt v') ∧
    ∀ v' p' fl', map_paddr me hhdm pt v' p' fl' s' = Hang) s) as H.
  2:{ apply wp_done in H as ([] & s' & ? & ? & ?). eauto. }
  unfold map_paddr at 1. rewrite H0, Hv. apply wp_bind, wp_locked; [done|]. cbv zeta.
  set (s0 := put_paging_lock (held me) s). destruct (table_flags_ok fl) as [Hf1 Hf2].
  assert (pg_wf hhdm s0 [] ∧ pt_rep hhdm s0 pt tab) as [Hw0 R0] by (split; [by eapply (pg_wf_same _ s)|by eapply (pt_rep_same _ s)]).
  apply wp_bind. eapply wp_mono; [by apply (wp_leaf_entry me hhdm s0 [] pt tab)|].
  intros r s1 (m & p1 & L1 & tab1 & -> & G & [[-> _]|(n & _ & _ & Hn)]).
  - simpl. wp_pures. split.
    + intros v'. rewrite (mmu_pleaf _ _ _ _ _ _ (g_wf _ _ _ _ _ _ _ _ _ G) (g_rep _ _ _ _ _ _ _ _ _ G)).
      rewrite (g_leaf _ _ _ _ _ _ _ _ _ G). by rewrite (mmu_pleaf _ _ _ _ _ _ Hw R).
    + intros v' p' fl'. unfold map_paddr. by rewrite H0.
  - exfalso. destruct (proj1 (same_page_path _ _) (align_same v)) as [Hpath _]. rewrite Hpath in Hn.
    destruct (g_new _ _ _ _ _ _ _ _ _ G _ _ Hn) as [H|H]; [congruence|set_solver].
Qed.
End properties.

(** * Witnesses: six frames, the first reserved, the second a table's root, the
    third a page in use *)

(** A root table that is empty. *)
Lemma pt_rep_empty hhdm s pt :
  table_ok s pt → mem s !! (pt + hhdm) = Some zero_table → pt_rep hhdm s pt {[ [] := pt ]}.
Proof.
  intros Hok Hm. split.
  - apply lookup_singleton_eq.
  - intros p a [<- <-]%lookup_singleton_Some. simpl. split; [lia|done].
  - intros p q a [<- _]%lookup_singleton_Some [<- _]%lookup_singleton_Some. done.
  - intros p a ws i e [<- <-]%lookup_singleton_Some _ Hws _ He. rewrite Hm in Hws. apply (inj Some) in Hws as <-.
    apply lookup_replicate in He as [-> _]. simpl. by rewrite lookup_singleton_ne.
  - intros p i [x [Hp _]%lookup_singleton_Some]. by destruct p.
Qed.

Definition ex_hhdm : Z := 2 ^ 32.
Definition ex_in_use : page_t := mkPage 0 1 PAGE_ALLOCATED 1.
Definition ex_frames : gmap Z page_t :=
  <[4096 := mkPage 0 0 PAGE_RESERVED 0]> (<[4160 := ex_in_use]> (<[4224 := ex_in_use]>
  (<[4288 := mkPage 0 4352 PAGE_FREE 0]> (<[4352 := mkPage 4288 4416 PAGE_FREE 0]> {[4416 := mkPage 4352 0 PAGE_FREE 0]})))).
Definition ex_alloc : pmm := mkPmm (mkDb 4096 5 0 ex_frames) 4416 3 6 unlocked.
Definition ex_mem : gmap Z (list Z) :=
  list_to_map ((λ i, (i * PAGE_SIZE + ex_hhdm, zero_table)) <$> [1; 2; 3; 4; 5]).
Definition ex_paging : paging := mkPaging ex_alloc ex_mem unlocked unlocked [] 0 0 [].

Lemma ex_alloc_inv : pmm_inv ex_alloc [4416; 4352; 4288].
Proof.
  split; [|done]. constructor.
  - constructor; [done..|]. intros a. unfold ex_alloc, ex_frames; simpl.
    rewrite !dom_insert_L, dom_singleton_L. unfold page_at, sizeof_page; simpl.
    rewrite !elem_of_union, !elem_of_singleton. split.
    + intros [->|[->|[->|[->|[->| ->]]]]]; [exists 0|exists 1|exists 2|exists 3|exists 4|exists 5]; lia.
    + intros (i & Hi & ->). lia.
  - split_and!; try done. apply (bool_decide_unpack _). by vm_compute.
  - intros a p Hp. unfold pm_pages, ex_alloc, ex_frames in Hp; simpl in Hp.
    repeat (apply lookup_insert_Some in Hp as [[<- <-]|[_ Hp]]; [|]); [..|apply lookup_singleton_Some in Hp as [<- <-]];
      (split_and!; [by vm_compute| |simpl; lia|simpl; lia|done]); try done; intros Hin; by apply (bool_decide_pack _) in Hin.
  - done.
Qed.
Lemma ex_wf_paging : pg_wf ex_hhdm ex_paging [4416; 4352; 4288].
Proof.
  split.
  - exact ex_alloc_inv.
  - apply (bool_decide_unpack _). by vm_compute.
  - vm_compute. done.
  - intros a (Hal & Hp & Hm). apply Z.div_exact in Hal; [|done].
    assert (max_pfn (db ex_paging) = 5) as Hmx by done. rewrite Hmx in Hm.
    assert (a / PAGE_SIZE = 1 ∨ a / PAGE_SIZE = 2 ∨ a / PAGE_SIZE = 3 ∨ a / PAGE_SIZE = 4 ∨ a / PAGE_SIZE = 5) as Hc.
    { unfold PAGE_SIZE in *. lia. }
    exists zero_table. split; [|by vm_compute]. rewrite Hal.
    destruct Hc as [->|[->|[->|[->| ->]]]]; vm_compute; reflexivity.
Qed.
Lemma ex_rep : pt_rep ex_hhdm ex_paging 4096 {[ [] := 4096 ]}.
Proof.
  apply pt_rep_empty.
  - split; [split_and!; vm_compute; done|]. exists ex_in_use. split_and!; vm_compute; reflexivity.
  - vm_compute. reflexivity.
Qed.
Lemma ex_pt_inv : pt_inv ex_hhdm ex_paging [4416; 4352; 4288] 4096.
Proof. split; [exact ex_wf_paging|]. split; [done|]. eexists. exact ex_rep. Qed.
Lemma map_paddr_spec_witness :
  wp (map_paddr 0 ex_hhdm 4096 0x7000 0x12345678 PFLAG_WRITE) (λ _ s', mmu ex_hhdm s' 4096 0x7123 ≠ None ∨ paging_lock s' = held 0) ex_paging.
Proof.
  eapply wp_mono; [apply (map_paddr_spec 0 ex_hhdm ex_paging _ 4096 0x7000 0x12345678 PFLAG_WRITE ex_pt_inv)|].
  - vm_compute. reflexivity.
  - lia.
  - vm_compute. split; [discriminate|reflexivity].
  - intros [] s' [(L' & _ & Hm & _)|[H _]]; [left|by right]. rewrite (Hm 0x7123).
    rewrite decide_True by (vm_compute; reflexivity). discriminate.
Defined.
Lemma map_unmap_roundtrip_witness :
  wp (map_page 0 ex_hhdm 4096 0x7000 4224 PFLAG_WRITE ;; unmap_page 0 ex_hhdm 4096 0x7000)
    (λ _ s', pm_pages (p_pmm s') !! 4224 = Some ex_in_use) ex_paging.
Proof.
  change 4224 with (page_of ex_paging 8192).
  eapply wp_mono; [apply (map_unmap_roundtrip 0 ex_hhdm ex_paging _ 4096 0x7000 8192 ex_in_use PFLAG_WRITE ex_pt_inv)|].
  - vm_compute. reflexivity.
  - vm_compute. discriminate.
  - vm_compute. split_and!; [reflexivity|reflexivity|discriminate].
  - rewrite (is_table_tab _ _ _ _ _ _ ex_wf_paging ex_rep). intros [q Hq]. apply lookup_singleton_Some in Hq as [_ Hq]. discriminate.
  - vm_compute. reflexivity.
  - vm_compute. split; [discriminate|reflexivity].
  - reflexivity.
  - reflexivity.
  - vm_compute. split; [discriminate|reflexivity].
  - intros [] s' (L' & _ & _ & H & _). exact H.
Defined.

(** Two frames only: none is free. *)
Definition ex_full_frames : gmap Z page_t := <[4096 := mkPage 0 0 PAGE_RESERVED 0]> {[4160 := ex_in_use]}.
Definition ex_full : paging :=
  mkPaging (mkPmm (mkDb 4096 1 0 ex_full_frames) 0 0 2 unlocked) {[PAGE_SIZE + ex_hhdm := zero_table]} unlocked unlocked [] 0 0 [].
Lemma ex_full_inv : pt_inv ex_hhdm ex_full [] 4096.
Proof.
  split; [split|split; [done|]].
  - split; [|done]. constructor.
    + constructor; [done..|]. intros a. unfold ex_full, ex_full_frames; simpl. rewrite dom_insert_L, dom_singleton_L.
      unfold page_at, sizeof_page; simpl. rewrite elem_of_union, !elem_of_singleton. split.
      * intros [->| ->]; [exists 0|exists 1]; lia.
      * intros (i & Hi & ->). lia.
    + split_and!; try done. apply NoDup_nil_2.
    + intros a p Hp. unfold pm_pages, ex_full, ex_full_frames in Hp; simpl in Hp.
      apply lookup_insert_Some in Hp as [[<- <-]|[_ Hp]]; [|apply lookup_singleton_Some in Hp as [<- <-]];
        (split_and!; [by vm_compute| |simpl; lia|simpl; lia|done]); intros Hin; by apply elem_of_nil in Hin.
    + done.
  - apply not_elem_of_nil.
  - vm_compute. done.
  - intros a (Hal & Hp & Hm). apply Z.div_exact in Hal; [|done]. change (max_pfn (db ex_full)) with 1 in Hm.
    assert (a / PAGE_SIZE = 1) as Ha by (unfold PAGE_SIZE in *; lia). exists zero_table. rewrite Hal, Ha.
    split; [vm_compute; reflexivity|by vm_compute].
  - eexists. apply pt_rep_empty.
    + split; [split_and!; vm_compute; done|]. exists ex_in_use. split_and!; vm_compute; reflexivity.
    + vm_compute. reflexivity.
Qed.
Lemma map_paddr_oom_deadlock_witness :
  ∃ s', map_paddr 0 ex_hhdm 4096 0x7000 0x1000 0 ex_full = Done (tt, s') ∧ map_paddr 0 ex_hhdm 4096 0x9000 0x1000 0 s' = Hang.
Proof.
  destruct (map_paddr_oom_deadlock 0 ex_hhdm ex_full 4096 0x7000 0x1000 0 ex_full_inv) as (s' & H1 & _ & H2).
  - vm_compute. reflexivity.
  - exists s'. split; [exact H1|apply H2].
Defined.
