(* ===== verification/Strings.v ===== *)
(** Memory blocks and C strings: [src/kernel/src/util/memory.c].

    Memory is a map from addresses to bytes; reading or writing an address that
    is not mapped faults. A [char *] is an address, [NULL] is 0. *)
From S2P Require Import Prelude.

Abbreviation mem := (gmap Z Z).

Definition rd (a : Z) : M mem Z := λ m,
  match m !! a with Some b => Done (b, m) | None => Fault end.
Definition wr (a b : Z) : M mem unit := λ m,
  match m !! a with Some _ => Done (tt, <[a := b]> m) | None => Fault end.

(** Rounds allowed to a loop that advances through memory byte by byte. *)
Definition mem_fuel : M mem nat := gets (λ m, S (size m)).

(** * Blocks *)

Definition memcpy (dest src n : Z) : M mem Z :=
  for_n 0 (Z.to_nat n) (λ i, b ← rd (src + i); wr (dest + i) b) ;; mret dest.

Definition memset (s c n : Z) : M mem Z :=
  for_n 0 (Z.to_nat n) (λ i, wr (s + i) (u8 c)) ;; mret s.

(** [for (i = n; i > 0; i--)] *)
Definition copy_down (dest src n : Z) : M mem unit :=
  for_n 0 (Z.to_nat n) (λ k, let i := n - k in b ← rd (src + (i - 1)); wr (dest + (i - 1)) b).

Definition memmove (dest src n : Z) : M mem Z :=
  (if src >? dest then for_n 0 (Z.to_nat n) (λ i, b ← rd (src + i); wr (dest + i) b)
   else if src <? dest then copy_down dest src n
   else mret tt) ;;
  mret dest.

Definition memcmp_round (s1 s2 n i : Z) : M mem (Z + Z) :=
  if i <? n then
    b1 ← rd (s1 + i);
    b2 ← rd (s2 + i);
    if negb (b1 =? b2) then mret (inr (if b1 <? b2 then -1 else 1)) else mret (inl (i + 1))
  else mret (inr 0).
Definition memcmp (s1 s2 n : Z) : M mem Z :=
  loop (S (Z.to_nat n)) (memcmp_round s1 s2 n) 0.

(** * Strings *)

Definition strcmp_round (st : Z * Z) : M mem (Z * Z + Z) :=
  let '(s1, s2) := st in
  b1 ← rd s1;
  if b1 =? 0 then b2 ← rd s2; mret (inr (b1 - b2)) else
  b2 ← rd s2;
  if b1 =? b2 then mret (inl (s1 + 1, s2 + 1)) else mret (inr (b1 - b2)).
Definition strcmp (s1 s2 : Z) : M mem Z :=
  fuel ← mem_fuel; loop fuel strcmp_round (s1, s2).

Definition strncmp_round (s1 s2 n i : Z) : M mem (Z + Z) :=
  if i <? n then
    b1 ← rd (s1 + i);
    b2 ← rd (s2 + i);
    if negb (b1 =? b2) then mret (inr (b1 - b2))
    else if b1 =? 0 then mret (inr 0) else mret (inl (i + 1))
  else mret (inr 0).
Definition strncmp (s1 s2 n : Z) : M mem Z :=
  fuel ← mem_fuel; loop fuel (strncmp_round s1 s2 n) 0.

Definition strlen_round (str len : Z) : M mem (Z + Z) :=
  b ← rd (str + len); if b =? 0 then mret (inr len) else mret (inl (len + 1)).
Definition strlen (str : Z) : M mem Z :=
  fuel ← mem_fuel; loop fuel (strlen_round str) 0.

(** [while (src[i]) { dest[i] = src[i]; i++; }]: the index it stops at. *)
Definition strcpy_round (dest src i : Z) : M mem (Z + Z) :=
  b ← rd (src + i);
  if b =? 0 then mret (inr i) else wr (dest + i) b ;; mret (inl (i + 1)).
Definition strcpy (dest src : Z) : M mem Z :=
  fuel ← mem_fuel;
  i ← loop fuel (strcpy_round dest src) 0;
  wr (dest + i) 0 ;; mret 0.

Definition strncpy_round (dest src n i : Z) : M mem (Z + Z) :=
  if i <? n then
    b ← rd (src + i);
    if b =? 0 then mret (inr i) else wr (dest + i) b ;; mret (inl (i + 1))
  else mret (inr i).
Definition strncpy (dest src n : Z) : M mem Z :=
  fuel ← mem_fuel;
  i ← loop fuel (strncpy_round dest src n) 0;
  when (i <? n) (wr (dest + i) 0) ;; mret 0.

Definition strcat (dest src : Z) : M mem Z :=
  dest_len ← strlen dest;
  fuel ← mem_fuel;
  i ← loop fuel (strcpy_round (dest + dest_len) src) 0;
  wr (dest + dest_len + i) 0 ;; mret 0.

(** [(char)c] compared with a character: on the bytes. *)
Definition strchr_round (c str : Z) : M mem (Z + Z) :=
  b ← rd str;
  if b =? 0 then mret (inr (if c =? 0 then str else 0))
  else if b =? u8 c then mret (inr str) else mret (inl (str + 1)).
Definition strchr (str c : Z) : M mem Z :=
  fuel ← mem_fuel; loop fuel (strchr_round c) str.

Definition strrchr_round (c : Z) (st : Z * Z) : M mem (Z * Z + Z) :=
  let '(s, last) := st in
  b ← rd s;
  if b =? 0 then mret (inr (if c =? 0 then s else last))
  else mret (inl (s + 1, if b =? u8 c then s else last)).
Definition strrchr (s c : Z) : M mem Z :=
  fuel ← mem_fuel; loop fuel (strrchr_round c) (s, 0).

(** Advance over the characters of [delim], or ([stop]) up to the next one. *)
Definition skip_round (delim : Z) (stop : bool) (next : Z) : M mem (Z + Z) :=
  b ← rd next;
  if b =? 0 then mret (inr next) else
  d ← strchr delim b;
  if bool_decide (negb (d =? 0) = stop) then mret (inr next) else mret (inl (next + 1)).
Definition skip (delim : Z) (stop : bool) (next : Z) : M mem Z :=
  fuel ← mem_fuel; loop fuel (skip_round delim stop) next.

(** The part [strtok] and [strtok_r] have in common, from the position [next]:
    where it stopped and, when there is a token, its start and the position to
    save. *)
Definition tok_from (next delim : Z) : M mem (Z * option (Z * Z)) :=
  next ← skip delim false next;
  b ← rd next;
  if b =? 0 then mret (next, None) else
  let token_start := next in
  next ← skip delim true next;
  b ← rd next;
  if b =? 0 then mret (next, Some (token_start, 0))
  else wr next 0 ;; mret (next, Some (token_start, next + 1)).

(** [strtok_r] returns the token and what [*saveptr] holds afterwards. *)
Definition strtok_r (str delim saveptr : Z) : M mem (Z * Z) :=
  let next := if str =? 0 then saveptr else str in
  if next =? 0 then mret (0, saveptr) else
  '(_, r) ← tok_from next delim;
  match r with
  | None => mret (0, saveptr)
  | Some (token, next) => mret (token, next)
  end.

(** [strtok]: the static [next] it starts from, and leaves. *)
Definition strtok (str delim next : Z) : M mem (Z * Z) :=
  let next := if str =? 0 then next else str in
  if next =? 0 then mret (0, next) else
  '(stop, r) ← tok_from next delim;
  match r with
  | None => mret (0, stop)
  | Some (token, next) => mret (token, next)
  end.

(** * Numbers *)

Definition is_space (b : Z) : bool :=
  (b =? 32) || (b =? 9) || (b =? 10) || (b =? 11) || (b =? 12) || (b =? 13).

Definition space_round (str : Z) : M mem (Z + Z) :=
  b ← rd str; if is_space b then mret (inl (str + 1)) else mret (inr str).

(** The digit a character stands for. *)
Definition digit_of (b : Z) : option Z :=
  if (48 <=? b) && (b <=? 57) then Some (b - 48)
  else if (97 <=? b) && (b <=? 102) then Some (b - 97 + 10)
  else if (65 <=? b) && (b <=? 70) then Some (b - 65 + 10)
  else None.

Definition digit_round (base : Z) (st : Z * Z) : M mem (Z * Z + Z * Z) :=
  let '(str, result) := st in
  b ← rd str;
  if b =? 0 then mret (inr (str, result)) else
  match digit_of b with
  | None => mret (inr (str, result))
  | Some digit =>
      if digit >=? base then mret (inr (str, result))
      else mret (inl (str + 1, u64 (u64 (result * base) + digit)))
  end.

(** [strtoull] returns the number and what [*endptr] is set to. *)
Definition strtoull (str base : Z) : M mem (Z * Z) :=
  fuel ← mem_fuel;
  str ← loop fuel space_round str;
  b0 ← rd str;
  '(str, base) ←
    (if ((base =? 0) || (base =? 16)) && (b0 =? 48) then
       b1 ← rd (str + 1);
       if (b1 =? 120) || (b1 =? 88) then mret (str + 2, 16) else mret (str, base)
     else mret (str, base));
  base ← (if base =? 0 then b ← rd str; mret (if b =? 48 then 8 else 10) else mret base);
  '(str, result) ← loop fuel (digit_round base) (str, 0);
  mret (result, str).
