(* ===== verification/StringsSpec.v ===== *)
(** What the memory and string functions compute. *)
From S2P Require Import Prelude Strings.

(** * Memory accesses *)

Lemma wp_rd Q m a b : m !! a = Some b → Q b m → wp (rd a) Q m.
Proof. unfold wp, rd. by intros ->. Qed.
Lemma wp_wr (Q : unit → mem → Prop) m a b :
  is_Some (m !! a) → Q tt (<[a := b]> m) → wp (wr a b) Q m.
Proof. unfold wp, wr. by intros [? ->]. Qed.

(** The [n] bytes at [a] are mapped. *)
Definition mapped (m : mem) (a n : Z) : Prop := ∀ k, 0 ≤ k < n → is_Some (m !! (a + k)).

(** * Blocks *)

(** [m'] is [m] with the bytes [lo .. hi - 1] of the destination copied. *)
Definition copied (m : mem) (dest src lo hi : Z) (m' : mem) : Prop :=
  ∀ a, m' !! a = if decide (dest + lo ≤ a < dest + hi) then m !! (src + (a - dest)) else m !! a.

Lemma copied_none m dest src k : copied m dest src k k m.
Proof. intros a. rewrite decide_False by lia. done. Qed.

Lemma copied_write m dest src lo hi k b m' :
  copied m dest src lo hi m' → m !! (src + k) = Some b →
  (∀ a, (dest + lo ≤ a < dest + hi ∨ a = dest + k) ↔ dest + Z.min lo k ≤ a < dest + Z.max hi (k + 1)) →
  copied m dest src (Z.min lo k) (Z.max hi (k + 1)) (<[dest + k := b]> m').
Proof.
  intros Hc Hb Hr a. destruct (decide (a = dest + k)) as [->|Ha].
  - rewrite lookup_insert_eq, decide_True by (apply Hr; by right).
    by replace (src + (dest + k - dest)) with (src + k) by lia.
  - rewrite lookup_insert_ne by done. rewrite Hc.
    destruct (decide (dest + lo ≤ a < dest + hi)) as [Hin|Hout].
    + rewrite decide_True; [done|]. apply Hr. by left.
    + rewrite decide_False; [done|]. intros [?|?]%Hr; done.
Qed.

Section copy.
Context (m : mem) (dest src n : Z).
Context (Hs : mapped m src n) (Hd : mapped m dest n).

Lemma wp_copy_up (Q : unit → mem → Prop) :
  dest < src ∨ src + n ≤ dest → 0 ≤ n →
  (∀ m', copied m dest src 0 n m' → Q tt m') →
  wp (for_n 0 (Z.to_nat n) (λ i, b ← rd (src + i); wr (dest + i) b)) Q m.
Proof.
  intros Hov Hn HQ. apply (wp_for_n (λ i m', copied m dest src 0 i m')).
  - apply copied_none.
  - intros i m' Hi Hc. destruct (Hs i) as [b Hb]; [lia|]. destruct (Hd i) as [b' Hb']; [lia|].
    wp_pures. eapply wp_rd; [rewrite Hc, decide_False by lia; exact Hb|].
    apply wp_wr; [rewrite Hc, decide_False by lia; by eexists|].
    assert (copied m dest src (Z.min 0 i) (Z.max i (i + 1)) (<[dest + i:=b]> m')) as H.
    { apply copied_write; [done|done|lia]. }
    by rewrite Z.min_l, Z.max_r in H by lia.
  - intros m'. rewrite Z.add_0_l, Z2Nat.id by lia. apply HQ.
Qed.

Lemma wp_copy_down (Q : unit → mem → Prop) :
  src < dest → 0 ≤ n → (∀ m', copied m dest src 0 n m' → Q tt m') →
  wp (copy_down dest src n) Q m.
Proof.
  intros Hov Hn HQ. unfold copy_down. apply (wp_for_n (λ i m', copied m dest src (n - i) n m')).
  - rewrite Z.sub_0_r. apply copied_none.
  - intros i m' Hi Hc. destruct (Hs (n - i - 1)) as [b Hb]; [lia|].
    destruct (Hd (n - i - 1)) as [b' Hb']; [lia|].
    wp_pures. eapply wp_rd; [rewrite Hc, decide_False by lia; exact Hb|].
    apply wp_wr; [rewrite Hc, decide_False by lia; by eexists|].
    assert (copied m dest src (Z.min (n - i) (n - i - 1)) (Z.max n (n - i - 1 + 1)) (<[dest + (n - i - 1):=b]> m')) as H.
    { apply copied_write; [done|done|lia]. }
    rewrite Z.min_r, Z.max_l in H by lia. by replace (n - (i + 1)) with (n - i - 1) by lia.
  - intros m'. rewrite Z.add_0_l, Z2Nat.id by lia. rewrite Z.sub_diag. apply HQ.
Qed.

Lemma wp_memmove (Q : Z → mem → Prop) :
  0 ≤ n → (∀ m', copied m dest src 0 n m' → Q dest m') → wp (memmove dest src n) Q m.
Proof.
  intros Hn HQ. unfold memmove. wp_pures. rewrite Z.gtb_ltb.
  destruct (Z.ltb_spec dest src); [apply wp_copy_up; auto|].
  destruct (Z.ltb_spec src dest); [apply wp_copy_down; auto|].
  wp_pures. apply HQ. assert (src = dest) as -> by lia. intros a.
  replace (dest + (a - dest)) with a by lia. by destruct (decide _).
Qed.
Lemma wp_memcpy (Q : Z → mem → Prop) :
  0 ≤ n → dest + n ≤ src ∨ src + n ≤ dest →
  (∀ m', copied m dest src 0 n m' → Q dest m') → wp (memcpy dest src n) Q m.
Proof.
  intros Hn Hov HQ. unfold memcpy. wp_pures.
  destruct (decide (n = 0)) as [->|]; [|apply wp_copy_up; auto; lia].
  simpl. wp_pures. apply HQ. apply copied_none.
Qed.
Lemma wp_memset c (Q : Z → mem → Prop) :
  0 ≤ n → (∀ m', (∀ a, m' !! a = if decide (dest ≤ a < dest + n) then Some (u8 c) else m !! a) → Q dest m') →
  wp (memset dest c n) Q m.
Proof.
  intros Hn HQ. unfold memset. wp_pures.
  apply (wp_for_n (λ i m', ∀ a, m' !! a = if decide (dest ≤ a < dest + i) then Some (u8 c) else m !! a)).
  - intros a. rewrite decide_False by lia. done.
  - intros i m' Hi Hc. destruct (Hd i) as [b' Hb']; [lia|].
    apply wp_wr; [rewrite Hc, decide_False by lia; by eexists|]. intros a.
    destruct (decide (a = dest + i)) as [->|Ha].
    + rewrite lookup_insert_eq, decide_True by lia. done.
    + rewrite lookup_insert_ne, Hc by done.
      destruct (decide (dest ≤ a < dest + i)); [rewrite decide_True by lia|rewrite decide_False by lia]; done.
  - intros m'. rewrite Z2Nat.id by lia. wp_pures. apply HQ.
Qed.
End copy.

(** * Strings *)

(** The string at [a] is [l], a list of non-zero bytes. *)
Fixpoint cstr (m : mem) (a : Z) (l : list Z) : Prop :=
  match l with
  | [] => m !! a = Some 0
  | b :: l => b ≠ 0 ∧ m !! a = Some b ∧ cstr m (a + 1) l
  end.

Lemma cstr_lookup m a l b i :
  cstr m a l → l !! i = Some b → m !! (a + Z.of_nat i) = Some b ∧ b ≠ 0.
Proof.
  revert a i; induction l as [|x l IH]; intros a [|i]; simpl; try done.
  - intros (? & ? & _) [= ->]. by rewrite Z.add_0_r.
  - intros (_ & _ & Hl) Hi. apply (IH _ _ Hl) in Hi. by replace (a + Z.of_nat (S i)) with (a + 1 + Z.of_nat i) by lia.
Qed.
Lemma cstr_app m a l l' : cstr m a (l ++ l') → cstr m (a + Z.of_nat (length l)) l'.
Proof.
  revert a; induction l as [|x l IH]; intros a; simpl; [by rewrite Z.add_0_r|].
  intros (_ & _ & Hl). apply IH in Hl. by replace (a + Z.of_nat (S (length l))) with (a + 1 + Z.of_nat (length l)) by lia.
Qed.
Lemma cstr_end m a l : cstr m a l → m !! (a + Z.of_nat (length l)) = Some 0.
Proof. intros H. rewrite <-(app_nil_r l) in H. by apply cstr_app in H. Qed.
Lemma cstr_frame m m' a l :
  cstr m a l → (∀ k, a ≤ k ≤ a + Z.of_nat (length l) → m' !! k = m !! k) → cstr m' a l.
Proof.
  revert a; induction l as [|x l IH]; intros a; simpl.
  - intros H Hm. rewrite Hm by lia. done.
  - intros (? & ? & H) Hm. split_and!; [done|rewrite Hm by lia; done|]. apply IH; [done|].
    intros; apply Hm; lia.
Qed.
Lemma cstr_nonzero m a l : cstr m a l → Forall (λ b, b ≠ 0) l.
Proof. revert a; induction l as [|x l IH]; intros a; simpl; [constructor|]. intros (? & _ & ?%IH). by constructor. Qed.

(** A string fits in memory: fuel for the loops over it. *)
Lemma cstr_fuel m a l : cstr m a l → (length l < size m)%nat.
Proof.
  intros H.
  assert (size (list_to_set (C := gset Z) (seqZ a (Z.of_nat (S (length l))))) ≤ size (dom m))%nat as Hsz.
  { apply subseteq_size. intros k Hk. apply elem_of_list_to_set, elem_of_seqZ in Hk.
    apply elem_of_dom. destruct (decide (k = a + Z.of_nat (length l))) as [->|].
    - rewrite (cstr_end _ _ _ H). by eexists.
    - destruct (lookup_lt_is_Some_2 l (Z.to_nat (k - a))) as [b Hb]; [lia|].
      destruct (cstr_lookup _ _ _ _ _ H Hb) as [Hm _].
      replace (a + Z.of_nat (Z.to_nat (k - a))) with k in Hm by lia. by eexists. }
  rewrite size_list_to_set, length_seqZ, size_dom in Hsz by apply NoDup_seqZ. lia.
Qed.

Lemma wp_strlen m a l (Q : Z → mem → Prop) :
  cstr m a l → Q (Z.of_nat (length l)) m → wp (strlen a) Q m.
Proof.
  intros H HQ. unfold strlen, mem_fuel. wp_pures. pose proof (cstr_fuel _ _ _ H).
  eapply (wp_loop (λ n i m', m' = m ∧ ∃ l1 l2, l = l1 ++ l2 ∧ i = Z.of_nat (length l1) ∧ n = length l2));
    [|by split; [done|]; exists [], l|]; [lia|].
  intros n i m' (-> & l1 & l2 & -> & -> & ->). unfold strlen_round. apply cstr_app in H as H2.
  destruct l2 as [|b l2]; simpl in H2; wp_pures.
  - eapply wp_rd; [exact H2|]. simpl. wp_pures. by rewrite app_nil_r in HQ.
  - destruct H2 as (Hb & H2 & _). eapply wp_rd; [exact H2|]. apply Z.eqb_neq in Hb as ->. wp_pures.
    exists (length l2). simpl. split; [lia|]. split; [done|]. exists (l1 ++ [b]), l2.
    rewrite <-app_assoc, length_app. simpl. split_and!; [done|lia|done].
Qed.

(** ** Comparison *)

(** The difference of the first bytes where two strings differ, the terminator
    included. *)
Fixpoint str_diff (l1 l2 : list Z) : Z :=
  match l1, l2 with
  | [], [] => 0
  | [], b :: _ => 0 - b
  | a :: _, [] => a
  | a :: l1, b :: l2 => if a =? b then str_diff l1 l2 else a - b
  end.

Lemma str_diff_eq l1 l2 :
  Forall (λ b, b ≠ 0) l1 → Forall (λ b, b ≠ 0) l2 → str_diff l1 l2 = 0 ↔ l1 = l2.
Proof.
  revert l2; induction l1 as [|a l1 IH]; intros [|b l2]; simpl; try done.
  - intros _ [Hb _]%Forall_cons. split; [lia|done].
  - intros [Ha _]%Forall_cons _. split; [lia|done].
  - intros [Ha H1]%Forall_cons [Hb H2]%Forall_cons. destruct (Z.eqb_spec a b) as [->|Hne].
    + rewrite IH by done. naive_solver.
    + split; [lia|]. intros [= ? _]. done.
Qed.

Lemma wp_strcmp m s1 s2 l1 l2 (Q : Z → mem → Prop) :
  cstr m s1 l1 → cstr m s2 l2 → Q (str_diff l1 l2) m → wp (strcmp s1 s2) Q m.
Proof.
  intros H1 H2 HQ. unfold strcmp, mem_fuel. wp_pures. pose proof (cstr_fuel _ _ _ H1).
  eapply (wp_loop (λ n st m', m' = m ∧ ∃ p q k1 k2, st = (p, q) ∧ cstr m p k1 ∧ cstr m q k2 ∧
     n = length k1 ∧ str_diff k1 k2 = str_diff l1 l2)); [|by split; [done|]; eauto 10|]; [lia|].
  clear H1 H2. intros n st m' (-> & p & q & k1 & k2 & -> & H1 & H2 & -> & Hd). unfold strcmp_round.
  rewrite <-Hd in HQ. destruct k1 as [|a k1], k2 as [|b k2]; simpl in H1, H2, HQ; wp_pures.
  - eapply wp_rd; [exact H1|]. simpl. wp_pures. eapply wp_rd; [exact H2|]. wp_pures. exact HQ.
  - destruct H2 as (Hb & H2 & _). eapply wp_rd; [exact H1|]. simpl. wp_pures. eapply wp_rd; [exact H2|]. wp_pures. exact HQ.
  - destruct H1 as (Ha & H1 & _). eapply wp_rd; [exact H1|]. apply Z.eqb_neq in Ha as Ha'. rewrite Ha'.
    wp_pures. eapply wp_rd; [exact H2|]. rewrite Ha'. wp_pures. by rewrite Z.sub_0_r.
  - destruct H1 as (Ha & H1 & H1'), H2 as (Hb & H2 & H2'). eapply wp_rd; [exact H1|].
    apply Z.eqb_neq in Ha as Ha'. rewrite Ha'. wp_pures. eapply wp_rd; [exact H2|].
    simpl in Hd. destruct (Z.eqb_spec a b) as [->|]; wp_pures; [|exact HQ].
    exists (length k1). simpl. split; [lia|]. split; [done|]. eauto 10.
Qed.

(** ** Searching a string *)

(** The first position of byte [c] in [l]. *)
Fixpoint str_index (c : Z) (l : list Z) : option nat :=
  match l with
  | [] => None
  | b :: l => if b =? c then Some O else S <$> str_index c l
  end.

Lemma str_index_in c l : is_Some (str_index c l) ↔ c ∈ l.
Proof.
  induction l as [|b l IH]; simpl; [split; [by intros []|by intros ?%elem_of_nil]|].
  destruct (Z.eqb_spec b c) as [->|].
  - split; [intros _; by left|by eauto].
  - rewrite fmap_is_Some, IH, elem_of_cons. naive_solver.
Qed.

Lemma wp_strchr m a l c (Q : Z → mem → Prop) :
  cstr m a l → 0 < c < 256 →
  Q (from_option (λ i, a + Z.of_nat i) 0 (str_index c l)) m → wp (strchr a c) Q m.
Proof.
  intros H Hc HQ. unfold strchr, mem_fuel. wp_pures. pose proof (cstr_fuel _ _ _ H).
  eapply (wp_loop (λ n p m', m' = m ∧ ∃ k, cstr m p k ∧ n = length k ∧
      from_option (λ i, p + Z.of_nat i) 0 (str_index c k) = from_option (λ i, a + Z.of_nat i) 0 (str_index c l)));
    [|by split; [done|]; eauto 10|]; [lia|].
  clear H. intros n p m' (-> & k & H & -> & Heq). unfold strchr_round. rewrite <-Heq in HQ.
  destruct k as [|b k]; simpl in H, HQ; wp_pures.
  - eapply wp_rd; [exact H|]. simpl. rewrite (proj2 (Z.eqb_neq c 0)) by lia. wp_pures. exact HQ.
  - destruct H as (Hb & H & H'). eapply wp_rd; [exact H|]. apply Z.eqb_neq in Hb as ->.
    rewrite u8_id by lia. simpl in Heq. destruct (Z.eqb_spec b c) as [->|]; wp_pures.
    + simpl in HQ. by rewrite ?Z.eqb_refl, Z.add_0_r in HQ.
    + exists (length k). simpl. split; [lia|]. split; [done|]. exists k. split_and!; [done|done|].
      rewrite <-Heq. destruct (str_index c k); simpl; [lia|done].
Qed.

(** ** Tokens *)

Section tokens.
Context (m : mem) (delim : Z) (ds : list Z).
Context (Hds : cstr m delim ds) (Hdelim : delim > 0).

(** A loop of the tokenizer passes the longest prefix [l1] of the string whose
    bytes are all ([stop = false]), or none ([stop = true]), delimiters. *)
Lemma wp_skip a l stop (Q : Z → mem → Prop) :
  cstr m a l → Forall (λ b, 0 < b < 256) l →
  (∀ l1 l2, l = l1 ++ l2 → (∀ b, b ∈ l1 → bool_decide (b ∈ ds) = negb stop) →
     (∀ b, head l2 = Some b → bool_decide (b ∈ ds) = stop) → Q (a + Z.of_nat (length l1)) m) →
  wp (skip delim stop a) Q m.
Proof.
  intros H Hl HQ. unfold skip, mem_fuel. wp_pures. pose proof (cstr_fuel _ _ _ H).
  eapply (wp_loop (λ n p m', m' = m ∧ ∃ l1 l2, l = l1 ++ l2 ∧ p = a + Z.of_nat (length l1) ∧
      n = length l2 ∧ ∀ b, b ∈ l1 → bool_decide (b ∈ ds) = negb stop));
    [|split; [done|]; exists [], l; rewrite Z.add_0_r; split_and!; [done..|by intros ? ?%elem_of_nil]|]; [lia|].
  intros n p m' (-> & l1 & l2 & -> & -> & -> & Hin). unfold skip_round.
  apply cstr_app in H as H2. destruct l2 as [|b l2]; simpl in H2; wp_pures.
  - eapply wp_rd; [exact H2|]. simpl. wp_pures. by eapply (HQ l1 []).
  - destruct H2 as (Hb & H2 & _). eapply wp_rd; [exact H2|]. apply Z.eqb_neq in Hb as Hb'. rewrite Hb'.
    apply Forall_app in Hl as [_ [Hlb _]%Forall_cons]. wp_pures.
    eapply wp_strchr; [exact Hds|done|].
    assert (negb (from_option (λ i, delim + Z.of_nat i) 0 (str_index b ds) =? 0) = bool_decide (b ∈ ds)) as ->.
    { pose proof (str_index_in b ds) as Hi. destruct (str_index b ds) as [i|] eqn:Hx; simpl.
      - rewrite (proj2 (Z.eqb_neq _ _)) by lia. rewrite bool_decide_eq_true_2; [done|]. by apply Hi.
      - rewrite bool_decide_eq_false_2; [done|]. intros Hin'. by apply Hi in Hin' as []. }
    case_bool_decide as Hst; wp_pures.
    + eapply (HQ l1 (b :: l2)); [done|done|]. by intros ? [= <-].
    + exists (length l2). simpl. split; [lia|]. split; [done|]. exists (l1 ++ [b]), l2.
      rewrite <-app_assoc, length_app. simpl. split_and!; [done|lia|done|].
      intros b' [Hb1| ->%list_elem_of_singleton]%elem_of_app; [by apply Hin|].
      destruct (bool_decide (b ∈ ds)), stop; done.
Qed.
End tokens.

(** * Numbers *)

(** The value of a list of digits, most significant first, and the character a
    digit is written with. *)
Definition num_value (base : Z) (ds : list Z) (acc : Z) : Z := fold_left (λ acc d, acc * base + d) ds acc.
Definition digit_char (d : Z) : Z := if d <? 10 then 48 + d else 87 + d.

Lemma digit_char_range d : 0 ≤ d < 16 → 48 ≤ digit_char d ≤ 57 ∨ 97 ≤ digit_char d ≤ 102.
Proof. intros Hd. unfold digit_char. destruct (Z.ltb_spec d 10); lia. Qed.
Lemma digit_of_char d : 0 ≤ d < 16 → digit_of (digit_char d) = Some d.
Proof.
  intros Hd. unfold digit_of, digit_char. destruct (Z.ltb_spec d 10).
  - rewrite (proj2 (Z.leb_le 48 _)), (proj2 (Z.leb_le _ 57)) by lia. simpl. f_equal. lia.
  - rewrite (proj2 (Z.leb_gt _ 57)), andb_false_r by lia. rewrite (proj2 (Z.leb_le 97 _)), (proj2 (Z.leb_le _ 102)) by lia.
    simpl. f_equal. lia.
Qed.
Lemma is_space_digit d : 0 ≤ d < 16 → is_space (digit_char d) = false.
Proof.
  intros Hd. pose proof (digit_char_range d Hd). unfold is_space. rewrite !(proj2 (Z.eqb_neq _ _)) by lia. done.
Qed.

Lemma wp_digits m base a ds acc (Q : Z * Z → mem → Prop) fuel :
  base ≤ 16 → Forall (λ d, 0 ≤ d < base) ds → cstr m a (digit_char <$> ds) → (length ds < fuel)%nat →
  Q (a + Z.of_nat (length ds), u64 (num_value base ds acc)) m →
  wp (loop fuel (digit_round base) (a, u64 acc)) Q m.
Proof.
  intros Hbase Hds. revert a acc fuel. induction Hds as [|d ds Hd _ IH]; intros a acc [|fuel] Hc Hf HQ; simpl in *;
    try lia; wp_pures.
  - eapply wp_rd; [exact Hc|]. simpl. wp_pures. by rewrite Z.add_0_r in HQ.
  - destruct Hc as (Hb & Hrd & Hc). eapply wp_rd; [exact Hrd|]. apply Z.eqb_neq in Hb as ->.
    rewrite digit_of_char by lia. rewrite Z.geb_leb, (proj2 (Z.leb_gt _ _)) by lia. wp_pures.
    replace (u64 (u64 (u64 acc * base) + d)) with (u64 (acc * base + d)).
    + apply IH; [done|lia|]. by replace (a + 1 + Z.of_nat (length ds)) with (a + Z.of_nat (S (length ds))) by lia.
    + unfold u64. rewrite Zmult_mod_idemp_l, Zplus_mod_idemp_l. done.
Qed.

Lemma wp_strtoull m base a ds (Q : Z * Z → mem → Prop) :
  base = 10 ∨ base = 16 → Forall (λ d, 0 ≤ d < base) ds → cstr m a (digit_char <$> ds) →
  Q (u64 (num_value base ds 0), a + Z.of_nat (length ds)) m → wp (strtoull a base) Q m.
Proof.
  intros Hbase Hds Hc HQ. pose proof (cstr_fuel _ _ _ Hc) as Hf. rewrite length_fmap in Hf.
  assert (Forall (λ d, 0 ≤ d < 16) ds) as Hds16 by (eapply Forall_impl; [exact Hds|simpl; lia]).
  assert (∃ b, m !! a = Some b ∧ is_space b = false ∧ (b = 48 → ∃ b', m !! (a + 1) = Some b' ∧ b' ≠ 120 ∧ b' ≠ 88)) as (b & Hb & Hsp & Hx).
  { destruct ds as [|d ds]; simpl in Hc; [by exists 0|]. destruct Hc as (_ & Hc & Hr). exists (digit_char d).
    apply Forall_cons in Hds16 as [Hd Hds16]. split; [done|]. split; [by apply is_space_digit|]. intros _.
    destruct ds as [|d' ds]; simpl in Hr; [by exists 0|]. destruct Hr as (_ & Hr & _). eexists. split; [done|].
    apply Forall_cons in Hds16 as [Hd' _]. pose proof (digit_char_range d' Hd'). lia. }
  unfold strtoull, mem_fuel. wp_pures.
  apply (wp_loop (λ n p m', n = O ∧ p = a ∧ m' = m) _ _ O); [lia|done|].
  intros n p m' (-> & -> & ->). unfold space_round. wp_pures. eapply wp_rd; [exact Hb|]. rewrite Hsp.
  wp_pures. eapply wp_rd; [exact Hb|]. wp_pures.
  assert (base =? 0 = false) as Hb0 by (destruct Hbase; subst; done).
  assert (wp (loop (S (size m)) (digit_round base) (a, 0)) (λ st m', wp (let '(str, result) := st in mret (result, str)) Q m') m) as Hfin.
  { apply (wp_digits m base a ds 0); [destruct Hbase; lia|done|done|lia|]. by wp_pures. }
  destruct (((base =? 0) || (base =? 16)) && (b =? 48)) eqn:Hcond; wp_pures.
  - apply andb_true_iff in Hcond as [_ H48]. apply Z.eqb_eq in H48. destruct (Hx H48) as (b' & Hb' & H1 & H2).
    eapply wp_rd; [done|]. rewrite (proj2 (Z.eqb_neq _ _) H1), (proj2 (Z.eqb_neq _ _) H2). simpl. wp_pures.
    rewrite Hb0. apply wp_ret. cbv beta. apply wp_bind. exact Hfin.
  - rewrite Hb0. apply wp_ret. cbv beta. apply wp_bind. exact Hfin.
Qed.

(** * Bytes in memory *)

Definition bytes_at (m : mem) (a : Z) (l : list Z) : Prop :=
  ∀ i b, l !! i = Some b → m !! (a + Z.of_nat i) = Some b.

Lemma bytes_at_app m a l l' : bytes_at m a (l ++ l') ↔ bytes_at m a l ∧ bytes_at m (a + Z.of_nat (length l)) l'.
Proof.
  split.
  - intros H. split; intros i b Hi.
    + apply H. by apply lookup_app_l_Some.
    + replace (a + Z.of_nat (length l) + Z.of_nat i) with (a + Z.of_nat (length l + i)) by lia. apply H.
      rewrite lookup_app_r by lia. by replace (length l + i - length l)%nat with i by lia.
  - intros [H1 H2] i b [Hi|[Hl Hi]]%lookup_app_Some; [by apply H1|]. specialize (H2 _ _ Hi).
    by replace (a + Z.of_nat (length l) + Z.of_nat (i - length l)) with (a + Z.of_nat i) in H2 by lia.
Qed.
Lemma bytes_at_cstr m a l : Forall (λ b, b ≠ 0) l → bytes_at m a (l ++ [0]) → cstr m a l.
Proof.
  revert a. induction l as [|x l IH]; intros a Hnz H; simpl.
  - specialize (H O 0 eq_refl). by rewrite Z.add_0_r in H.
  - apply Forall_cons in Hnz as [Hx Hnz]. pose proof (H O x eq_refl) as H0. rewrite Z.add_0_r in H0. split_and!; [done|done|].
    apply IH; [done|]. intros i b Hi. replace (a + 1 + Z.of_nat i) with (a + Z.of_nat (S i)) by lia. by apply H.
Qed.
