(* ===== verification/StringsTheorems.v ===== *)
(** The contract of the memory and string functions. *)
From S2P Require Import Prelude Strings StringsSpec.

(** [memmove] copies the source as it was before the call to the
    destination, whichever way the two overlap, and changes no other byte;
    [memcpy] does the same when they do not overlap. *)
Theorem memmove_overlap m dest src n :
  0 ≤ n → mapped m src n → mapped m dest n →
  wp (memmove dest src n) (λ r m', r = dest ∧ copied m dest src 0 n m') m ∧
  (dest + n ≤ src ∨ src + n ≤ dest → memcpy dest src n m = memmove dest src n m).
Proof.
  intros Hn Hs Hd. split; [by apply wp_memmove|]. intros Hov.
  destruct (proj1 (wp_done (memmove dest src n) (λ r m', r = dest ∧ copied m dest src 0 n m') m))
    as (r & m1 & -> & -> & Hc1); [by apply wp_memmove|].
  destruct (proj1 (wp_done (memcpy dest src n) (λ r m', r = dest ∧ copied m dest src 0 n m') m))
    as (r & m2 & -> & -> & Hc2); [by apply wp_memcpy|].
  do 2 f_equal. apply map_eq. intros a. by rewrite Hc1, Hc2.
Qed.

(** [strcmp] returns the difference of the first bytes where the strings
    differ, and so 0 exactly on equal strings; [strlen] counts the bytes before
    the terminator. Neither writes. *)
Theorem strcmp_strlen_spec m s1 s2 l1 l2 :
  cstr m s1 l1 → cstr m s2 l2 →
  strcmp s1 s2 m = Done (str_diff l1 l2, m) ∧ (str_diff l1 l2 = 0 ↔ l1 = l2) ∧
  strlen s1 m = Done (Z.of_nat (length l1), m).
Proof.
  intros H1 H2. split_and!.
  - destruct (proj1 (wp_done (strcmp s1 s2) (λ r m', r = str_diff l1 l2 ∧ m' = m) m))
      as (r & m' & -> & -> & ->); [|done]. by eapply wp_strcmp.
  - apply str_diff_eq; by eapply cstr_nonzero.
  - destruct (proj1 (wp_done (strlen s1) (λ r m', r = Z.of_nat (length l1) ∧ m' = m) m))
      as (r & m' & -> & -> & ->); [|done]. by eapply wp_strlen.
Qed.

Lemma cstr_cut m a l1 d l2 :
  cstr m a (l1 ++ d :: l2) →
  cstr (<[a + Z.of_nat (length l1) := 0]> m) a l1 ∧
  cstr (<[a + Z.of_nat (length l1) := 0]> m) (a + Z.of_nat (length l1) + 1) l2.
Proof.
  intros H. split.
  - revert a H. induction l1 as [|b l1 IH]; intros a H; simpl in *.
    + rewrite Z.add_0_r. by rewrite lookup_insert_eq.
    + destruct H as (? & ? & H). apply IH in H.
      replace (a + Z.of_nat (S (length l1))) with (a + 1 + Z.of_nat (length l1)) by lia.
      split_and!; [done|by rewrite lookup_insert_ne by lia|done].
  - apply cstr_app in H. destruct H as (_ & _ & H). eapply cstr_frame; [exact H|].
    intros k Hk. rewrite lookup_insert_ne by lia. done.
Qed.

Lemma forall_bool_true (ds l : list Z) :
  (∀ b, b ∈ l → bool_decide (b ∈ ds) = true) → ∀ b, b ∈ l → b ∈ ds.
Proof. intros H b Hb. by apply (bool_decide_eq_true_1 _), H. Qed.
Lemma forall_bool_false (ds l : list Z) :
  (∀ b, b ∈ l → bool_decide (b ∈ ds) = false) → ∀ b, b ∈ l → b ∉ ds.
Proof. intros H b Hb. by apply (bool_decide_eq_false_1 _), H. Qed.

(** [strtok_r] skips the delimiters, cuts the next token off with a
    terminator in place of the delimiter after it, and remembers the rest; when
    only delimiters are left it returns [NULL] and changes nothing. *)
Theorem strtok_r_splits m str delim saveptr l ds :
  cstr m str l → Forall (λ b, 0 < b < 256) l → str ≠ 0 →
  cstr m delim ds → delim > 0 →
  wp (strtok_r str delim saveptr) (λ r m',
    (r = (0, saveptr) ∧ m' = m ∧ ∀ b, b ∈ l → b ∈ ds) ∨
    (∃ sk t rest, l = sk ++ t ++ rest ∧ t ≠ [] ∧ (∀ b, b ∈ sk → b ∈ ds) ∧ (∀ b, b ∈ t → b ∉ ds) ∧
       r.1 = str + Z.of_nat (length sk) ∧ cstr m' r.1 t ∧
       ((rest = [] ∧ r.2 = 0 ∧ m' = m) ∨
        ∃ d rest', rest = d :: rest' ∧ d ∈ ds ∧ r.2 = r.1 + Z.of_nat (length t) + 1 ∧ cstr m' r.2 rest' ∧
          m' = <[r.1 + Z.of_nat (length t) := 0]> m))) m.
Proof.
  intros H Hl Hs0 Hds Hd. unfold strtok_r. apply Z.eqb_neq in Hs0 as Hs0'. rewrite !Hs0'.
  unfold tok_from. wp_pures. eapply wp_skip; [done|done|done|done|].
  intros sk l2 -> Hsk' Hh2. pose proof (forall_bool_true ds sk Hsk') as Hsk. apply Forall_app in Hl as [_ Hl2].
  apply cstr_app in H as H2. set (p := str + Z.of_nat (length sk)) in *. wp_pures.
  destruct l2 as [|b l2].
  { eapply wp_rd; [exact H2|]. simpl. wp_pures. left. split_and!; [done|done|]. by rewrite app_nil_r. }
  pose proof H2 as (Hb & Hrd & _). eapply wp_rd; [exact Hrd|]. apply Z.eqb_neq in Hb as ->. wp_pures.
  eapply wp_skip; [done|done|exact H2|done|].
  intros t rest Heq Ht' Hr. pose proof (forall_bool_false ds t Ht') as Ht. specialize (Hh2 b eq_refl).
  assert (t ≠ []) as Htne.
  { intros ->. simpl in Heq. subst rest. specialize (Hr b eq_refl). congruence. }
  rewrite Heq in *. wp_pures. apply cstr_app in H2 as H3. destruct rest as [|d rest].
  - eapply wp_rd; [exact H3|]. simpl. wp_pures. right. exists sk, t, [].
    split_and!; [done|done|done|done|done| |by left]. by rewrite app_nil_r in H2.
  - destruct (cstr_cut _ _ _ _ _ H2) as [Hc1 Hc2]. destruct H3 as (Hd0 & Hrd3 & _).
    eapply wp_rd; [exact Hrd3|]. apply Z.eqb_neq in Hd0 as ->. wp_pures.
    apply wp_wr; [by eexists|]. wp_pures. right. exists sk, t, (d :: rest).
    split_and!; [done|done|done|done|done|exact Hc1|]. right. exists d, rest.
    split_and!; [done| |done|exact Hc2|done]. by apply (bool_decide_eq_true_1 _), Hr.
Qed.

(** [strtoull] in base 10 or 16 reads a string of digits of that base as
    the number they denote, modulo 2^64, and leaves the end pointer after the
    last one. *)
Theorem strtoull_numbers m base a ds :
  base = 10 ∨ base = 16 → Forall (λ d, 0 ≤ d < base) ds → cstr m a (digit_char <$> ds) →
  strtoull a base m = Done ((u64 (num_value base ds 0), a + Z.of_nat (length ds)), m).
Proof.
  intros Hb Hds Hc.
  destruct (proj1 (wp_done (strtoull a base) (λ r m', r = (u64 (num_value base ds 0), a + Z.of_nat (length ds)) ∧ m' = m) m))
    as (r & m' & -> & -> & ->); [|done]. by eapply wp_strtoull.
Qed.

(** * Witnesses: a small memory *)

(** ["a b"] at 100 and [" "] at 200. *)
Definition ex_mem : mem :=
  <[100 := 97]> (<[101 := 32]> (<[102 := 98]> (<[103 := 0]> (<[200 := 32]> {[201 := 0]})))).

Lemma memmove_overlap_witness :
  wp (memmove 101 100 2) (λ r m', r = 101 ∧ copied ex_mem 101 100 0 2 m') ex_mem.
Proof.
  apply (memmove_overlap ex_mem 101 100 2); [lia|..];
    (intros k Hk; assert (k = 0 ∨ k = 1) as [-> | ->] by lia; by eexists).
Defined.
Lemma strcmp_strlen_spec_witness :
  strcmp 100 200 ex_mem = Done (65, ex_mem) ∧ strlen 100 ex_mem = Done (3, ex_mem).
Proof.
  destruct (strcmp_strlen_spec ex_mem 100 200 [97; 32; 98] [32]) as (H1 & _ & H2).
  - repeat split; lia.
  - repeat split; lia.
  - split; [exact H1|exact H2].
Defined.
Lemma strtok_r_splits_witness :
  wp (strtok_r 100 200 0) (λ r m',
    (r = (0, 0) ∧ m' = ex_mem ∧ ∀ b, b ∈ [97; 32; 98] → b ∈ [32]) ∨
    (∃ sk t rest, [97; 32; 98] = sk ++ t ++ rest ∧ t ≠ [] ∧ (∀ b, b ∈ sk → b ∈ [32]) ∧ (∀ b, b ∈ t → b ∉ [32]) ∧
       r.1 = 100 + Z.of_nat (length sk) ∧ cstr m' r.1 t ∧
       ((rest = [] ∧ r.2 = 0 ∧ m' = ex_mem) ∨
        ∃ d rest', rest = d :: rest' ∧ d ∈ [32] ∧ r.2 = r.1 + Z.of_nat (length t) + 1 ∧ cstr m' r.2 rest' ∧
          m' = <[r.1 + Z.of_nat (length t) := 0]> ex_mem))) ex_mem.
Proof.
  apply (strtok_r_splits ex_mem 100 200 0 [97; 32; 98] [32]).
  - repeat split; lia.
  - repeat constructor; lia.
  - lia.
  - repeat split; lia.
  - lia.
Defined.
Lemma strtoull_numbers_witness :
  strtoull 10 16 (<[10 := 52]> (<[11 := 97]> {[12 := 0]})) = Done ((74, 12), <[10 := 52]> (<[11 := 97]> {[12 := 0]})).
Proof.
  apply (strtoull_numbers (<[10 := 52]> (<[11 := 97]> {[12 := 0]})) 16 10 [4; 10]).
  - right. reflexivity.
  - repeat constructor; lia.
  - vm_compute. repeat split; discriminate.
Defined.
