(* ===== verification/Cpio.v ===== *)
(** The reader of the initial file system: [src/kernel/src/fs/initrd/cpio.c].

    The archive and the string literals the code compares with are in memory;
    the addresses of the literals are [lit_070701], [lit_070702] and
    [lit_trailer]. The array of entries is a list; whether the heap gives it
    [n] bytes is [heap_has n]. *)
From S2P Require Import Prelude Strings.

Record cpio_entry_t := mkEntry {
  ino : Z; mode : Z; uid : Z; gid : Z; nlink : Z; mtime : Z; filesize : Z;
  devmajor : Z; devminor : Z; rdevmajor : Z; rdevminor : Z; namesize : Z; check : Z;
  name : Z; data : Z;
}.
Definition sizeof_entry : Z := 128.

Record cpio_archive_t := mkArchive {
  entries : list cpio_entry_t;
  archive_data : Z;
  archive_size : Z;
}.
Definition entry_count (a : cpio_archive_t) : Z := Z.of_nat (length (entries a)).

Record cpio_reader_t := mkReader { pos : Z; end_ : Z }.

Definition align4 (x : Z) : Z := Z.land (u64 (x + 3)) (not64 3).

(** [char temp[9]]: an object of its own. *)
Definition temp : Z := 1.
Definition temp_mem (bs : list Z) : mem := list_to_map (zip (seqZ temp 9) (bs ++ [0])).

(** [memcpy(temp, buf, 8)] *)
Definition read8 (buf : Z) : M mem (list Z) :=
  b0 ← rd buf; b1 ← rd (buf + 1); b2 ← rd (buf + 2); b3 ← rd (buf + 3);
  b4 ← rd (buf + 4); b5 ← rd (buf + 5); b6 ← rd (buf + 6); b7 ← rd (buf + 7);
  mret [b0; b1; b2; b3; b4; b5; b6; b7].
Definition parse_hex (buf : Z) : M mem Z :=
  bs ← read8 buf;
  zoom (λ _, temp_mem bs) (λ _ m, m) (r ← strtoull temp 16; mret r.1).

Section cpio.
Context (lit_070701 lit_070702 lit_trailer : Z).

(** The result, the reader and the entry as the call leaves them. *)
Definition cpio_reader_next (r : cpio_reader_t) (e : cpio_entry_t) : M mem (Z * cpio_reader_t * cpio_entry_t) :=
  if u64 (end_ r - pos r) <? 110 then mret (-1, r, e) else
  c1 ← memcmp (pos r) lit_070701 6;
  bad ← (if negb (c1 =? 0) then c2 ← memcmp (pos r) lit_070702 6; mret (negb (c2 =? 0)) else mret false);
  if (bad : bool) then mret (-1, r, e) else
  let p := pos r + 6 in
  ino ← parse_hex p;
  mode ← parse_hex (p + 8);
  uid ← parse_hex (p + 16);
  gid ← parse_hex (p + 24);
  nlink ← parse_hex (p + 32);
  mtime ← parse_hex (p + 40);
  filesize ← parse_hex (p + 48);
  devmajor ← parse_hex (p + 56);
  devminor ← parse_hex (p + 64);
  rdevmajor ← parse_hex (p + 72);
  rdevminor ← parse_hex (p + 80);
  namesize ← parse_hex (p + 88);
  check ← parse_hex (p + 96);
  let e := mkEntry ino mode uid gid nlink mtime filesize devmajor devminor rdevmajor rdevminor namesize check (name e) (data e) in
  let r := mkReader (p + 104) (end_ r) in
  if u64 (end_ r - pos r) <? namesize then mret (-1, r, e) else
  let filename := pos r in
  let r := mkReader (align4 (u64 (pos r + namesize))) (end_ r) in
  last ← rd (u64 (filename + u64 (namesize - 1)));
  if negb (last =? 0) then mret (-1, r, e) else
  t ← strcmp filename lit_trailer;
  if t =? 0 then mret (1, r, e) else
  let e := mkEntry ino mode uid gid nlink mtime filesize devmajor devminor rdevmajor rdevminor namesize check filename (data e) in
  if u64 (end_ r - pos r) <? filesize then mret (-1, r, e) else
  let e := mkEntry ino mode uid gid nlink mtime filesize devmajor devminor rdevmajor rdevminor namesize check filename (pos r) in
  mret (0, mkReader (align4 (u64 (pos r + filesize))) (end_ r), e).

Definition entry0 : cpio_entry_t := mkEntry 0 0 0 0 0 0 0 0 0 0 0 0 0 0 0.

Context (heap_has : Z → bool).

(** A round of the loop: the reader, the entries so far and their capacity; it
    leaves with the result and the entries. *)
Definition parse_round (st : cpio_reader_t * list cpio_entry_t * Z) :
    M mem (cpio_reader_t * list cpio_entry_t * Z + Z * list cpio_entry_t) :=
  let '(r, es, capacity) := st in
  if negb (pos r <? end_ r) then mret (inr (0, es)) else
  let full := Z.of_nat (length es) =? capacity in
  let capacity := if full then u64 (capacity * 2) else capacity in
  if full && negb (heap_has (u64 (capacity * sizeof_entry))) then mret (inr (-1, es)) else
  '(res, r, e) ← cpio_reader_next r entry0;
  if res =? 1 then mret (inr (0, es)) else
  if res <? 0 then mret (inr (-1, es)) else
  mret (inl (r, es ++ [e], capacity)).

(** [archive] is [NULL] or an object; [None] is an archive left as it was. *)
Definition cpio_archive_parse (archive data size : Z) : M mem (Z * option cpio_archive_t) :=
  if (archive =? 0) || (data =? 0) || (size =? 0) then mret (-1, None) else
  let capacity := 4 in
  if negb (heap_has (capacity * sizeof_entry)) then mret (-1, Some (mkArchive [] data size)) else
  '(res, es) ← loop (S (Z.to_nat size)) parse_round (mkReader data (u64 (data + size)), [], capacity);
  mret (res, Some (mkArchive es data size)).

Definition cpio_archive_free (a : cpio_archive_t) : cpio_archive_t := mkArchive [] 0 0.
End cpio.
