(* ===== verification/CpioTheorems.v ===== *)
(** What the reader of cpio archives promises: it returns on every input, what
    it records is inside of the archive, and it reads back what was written. *)
From S2P Require Import Prelude Strings StringsSpec Cpio.

(** Lemmas about the reader of cpio archives. *)
(** * Hexadecimal fields *)





(** * Comparisons *)





Section cpio.
Context (lit_070701 lit_070702 lit_trailer : Z).


(** * Any input *)




Context (heap_has : Z → bool).
Notation parse := (cpio_archive_parse lit_070701 lit_070702 lit_trailer heap_has).


End cpio.

(** * Written archives *)







Section written.
Context (lit_070701 lit_070702 lit_trailer : Z).
Notation reader_next := (cpio_reader_next lit_070701 lit_070702 lit_trailer).


Context (heap_has : Z → bool).
Notation round := (parse_round lit_070701 lit_070702 lit_trailer heap_has).




End written.

(** * The properties *)

Section properties.
Context (lit_070701 lit_070702 lit_trailer : Z) (heap_has : Z → bool).
Notation parse := (cpio_archive_parse lit_070701 lit_070702 lit_trailer heap_has).


End properties.


(** * Concrete inputs *)



