(* ===== verification/Kheap.v ===== *)
(** The kernel heap: [src/kernel/src/mm/kheap.c], a slab allocator over the page
    allocator.

    The memory of the direct map is [k_mem], byte by byte. The header a slab
    starts with is kept as a record in [slabs], by the address of its page;
    the objects behind it, and the links of the free ones, are in [k_mem].
    [&caches[i]] is named by [i], [NULL] is 0. *)
From S2P Require Import Prelude Sync Pmm Strings.

Definition KHEAP_ALIGN : Z := 16.
Definition SLAB_MAGIC : Z := 0x534C4142.
Definition BIG_CACHE_INDEX : Z := 0xFFFF.

Record slab_t := mkSlab {
  sl_next : Z;
  sl_free_list : Z;
  magic : Z;
  object_size : Z;
  capacity : Z;
  free_count : Z;
  cache_index : Z;
  npages : Z;
}.
Definition sizeof_slab : Z := 32.

Record slab_cache_t := mkCache { c_object_size : Z; c_slabs : Z; slab_count : Z }.

Definition cache_sizes : list Z := [16; 32; 64; 128; 256; 512; 1024; 2048].
Definition CACHE_COUNT : Z := Z.of_nat (length cache_sizes).

Definition set_sl_next v x := mkSlab v (sl_free_list x) (magic x) (object_size x) (capacity x) (free_count x) (cache_index x) (npages x).
Definition set_sl_free_list v x := mkSlab (sl_next x) v (magic x) (object_size x) (capacity x) (free_count x) (cache_index x) (npages x).
Definition set_free_count v x := mkSlab (sl_next x) (sl_free_list x) (magic x) (object_size x) (capacity x) v (cache_index x) (npages x).
Definition set_capacity v x := mkSlab (sl_next x) (sl_free_list x) (magic x) (object_size x) v (free_count x) (cache_index x) (npages x).
Definition set_c_slabs v c := mkCache (c_object_size c) v (slab_count c).
Definition set_slab_count v c := mkCache (c_object_size c) (c_slabs c) v.

(** * State *)

Record kheap := mkHeap {
  k_pmm : pmm;
  k_mem : mem;
  slabs : gmap Z slab_t;
  caches : list slab_cache_t;
  kheap_lock : spinlock_t;
}.
Definition put_pmm p s := mkHeap p (k_mem s) (slabs s) (caches s) (kheap_lock s).
Definition put_mem m s := mkHeap (k_pmm s) m (slabs s) (caches s) (kheap_lock s).
Definition put_slabs v s := mkHeap (k_pmm s) (k_mem s) v (caches s) (kheap_lock s).
Definition put_caches v s := mkHeap (k_pmm s) (k_mem s) (slabs s) v (kheap_lock s).
Definition put_lock v s := mkHeap (k_pmm s) (k_mem s) (slabs s) (caches s) v.

Definition in_pmm {A} (m : M pmm A) : M kheap A := zoom k_pmm put_pmm m.
Definition in_mem {A} (m : M mem A) : M kheap A := zoom k_mem put_mem m.
Definition slab_load (a : Z) : M kheap slab_t := λ s,
  match slabs s !! a with Some x => Done (x, s) | None => Fault end.
Definition slab_store (a : Z) (f : slab_t → slab_t) : M kheap unit := λ s,
  match slabs s !! a with Some x => Done (tt, put_slabs (<[a := f x]> (slabs s)) s) | None => Fault end.
Definition cache_load (i : Z) : M kheap slab_cache_t := λ s,
  match caches s !! Z.to_nat i with Some c => Done (c, s) | None => Fault end.
Definition cache_store (i : Z) (f : slab_cache_t → slab_cache_t) : M kheap unit := λ s,
  match caches s !! Z.to_nat i with
  | Some c => Done (tt, put_caches (<[Z.to_nat i := f c]> (caches s)) s)
  | None => Fault
  end.

(** Rounds allowed to a walk along the slabs of a cache. *)
Definition slab_fuel : M kheap nat := gets (λ s, S (S (size (slabs s)))).

(** A pointer in memory: eight bytes, the lowest first. *)
Fixpoint le_bytes (n : nat) (v : Z) : list Z :=
  match n with O => [] | S n => v mod 256 :: le_bytes n (v / 256) end.
Fixpoint le_value (l : list Z) : Z :=
  match l with [] => 0 | b :: l => b + 256 * le_value l end.
Fixpoint read_bytes (a : Z) (n : nat) : M mem (list Z) :=
  match n with O => mret [] | S n => b ← rd a; l ← read_bytes (a + 1) n; mret (b :: l) end.
Fixpoint write_bytes (a : Z) (l : list Z) : M mem unit :=
  match l with [] => mret tt | b :: l => wr a b ;; write_bytes (a + 1) l end.
(** The pointer at [a], read and written. *)
Definition load_ptr (a : Z) : M mem Z := l ← read_bytes a 8; mret (le_value l).
Definition store_ptr (a v : Z) : M mem unit := write_bytes a (le_bytes 8 v).

(** * Slabs *)

Definition align_up_uintptr (val align : Z) : Z := Z.land (u64 (val + align - 1)) (not64 (align - 1)).
Definition page_base (ptr : Z) : Z := ALIGN_DOWN ptr PAGE_SIZE.

Section kheap.
(** The CPU that runs the code, and [kernel_info.hhdm_offset]. *)
Context (me hhdm_offset : Z).

Definition lock_heap : M kheap unit := zoom kheap_lock put_lock (lock_acquire me).
Definition unlock_heap : M kheap unit := zoom kheap_lock put_lock (lock_release me).

(** The loop of [slab_create] that links the objects. *)
Definition link_object (slab obj_start object_size i : Z) : M kheap unit :=
  let obj := u64 (obj_start + i * object_size) in
  x ← slab_load slab;
  in_mem (store_ptr obj (sl_free_list x)) ;;
  slab_store slab (set_sl_free_list obj).

Definition slab_create (object_size cache_index : Z) : M kheap Z :=
  page ← in_pmm (pmm_alloc_page me);
  if page =? 0 then mret 0 else
  d ← gets (λ s, pm_db (k_pmm s));
  let page_ptr := PHYS_TO_VIRT hhdm_offset (pfn_db_page_to_phys d page) in
  in_mem (memset page_ptr 0 PAGE_SIZE) ;;
  let slab := page_ptr in
  modify (λ s, put_slabs (<[slab := mkSlab 0 0 SLAB_MAGIC object_size 0 0 cache_index 1]> (slabs s)) s) ;;
  let obj_start := align_up_uintptr (u64 (page_ptr + sizeof_slab)) KHEAP_ALIGN in
  let obj_end := u64 (page_ptr + PAGE_SIZE) in
  if obj_start >=? obj_end then in_pmm (pmm_page_release me page) ;; mret 0 else
  let capacity := u16 ((obj_end - obj_start) / object_size) in
  if capacity =? 0 then in_pmm (pmm_page_release me page) ;; mret 0 else
  slab_store slab (set_capacity capacity) ;;
  slab_store slab (set_free_count capacity) ;;
  slab_store slab (set_sl_free_list 0) ;;
  for_n 0 (Z.to_nat capacity) (link_object slab obj_start object_size) ;;
  mret slab.

Definition slab_destroy (slab : Z) : M kheap unit :=
  if slab =? 0 then mret tt else
  d ← gets (λ s, pm_db (k_pmm s));
  let page := pfn_db_phys_to_page d (VIRT_TO_PHYS hhdm_offset slab) in
  if page =? 0 then mret tt else
  x ← slab_load slab;
  if npages x >? 1 then in_pmm (pmm_pages_release me page (npages x))
  else in_pmm (pmm_page_release me page).

(** * Caches *)

Definition cache_round (size i : Z) : M kheap (Z + option Z) :=
  if i <? CACHE_COUNT then
    c ← cache_load i;
    if size <=? c_object_size c then mret (inr (Some i)) else mret (inl (i + 1))
  else mret (inr None).
Definition cache_for_size (size : Z) : M kheap (option Z) :=
  loop (S (length cache_sizes)) (cache_round size) 0.

Definition cache_add_slab (cache slab : Z) : M kheap unit :=
  c ← cache_load cache;
  slab_store slab (set_sl_next (c_slabs c)) ;;
  cache_store cache (set_c_slabs slab) ;;
  cache_store cache (λ c, set_slab_count (u32 (slab_count c + 1)) c).

(** A round of the loop of [cache_remove_slab] at [(prev, cur)]. *)
Definition remove_round (cache slab : Z) (st : Z * Z) : M kheap (Z * Z + unit) :=
  let '(prev, cur) := st in
  if cur =? 0 then mret (inr tt) else
  x ← slab_load cur;
  if cur =? slab then
    (if negb (prev =? 0) then slab_store prev (set_sl_next (sl_next x))
     else cache_store cache (set_c_slabs (sl_next x))) ;;
    slab_store cur (set_sl_next 0) ;;
    cache_store cache (λ c, if slab_count c >? 0 then set_slab_count (u32 (slab_count c - 1)) c else c) ;;
    mret (inr tt)
  else mret (inl (cur, sl_next x)).
Definition cache_remove_slab (cache slab : Z) : M kheap unit :=
  c ← cache_load cache;
  fuel ← slab_fuel;
  loop fuel (remove_round cache slab) (0, c_slabs c).

Definition init_cache (i : Z) : M kheap unit :=
  cache_store i (λ _, mkCache (default 0 (cache_sizes !! Z.to_nat i)) 0 0).
Definition kheap_init : M kheap unit :=
  lock_heap ;;
  for_n 0 (Z.to_nat CACHE_COUNT) init_cache ;;
  unlock_heap.

(** * Allocating and freeing *)

(** The branch of [kmalloc] for an object no cache is for. *)
Definition kmalloc_big (size : Z) : M kheap Z :=
  let total := u64 (sizeof_slab + KHEAP_ALIGN + size) in
  let npages := ALIGN_UP total PAGE_SIZE / PAGE_SIZE in
  page ← in_pmm (pmm_alloc_pages me npages);
  if page =? 0 then unlock_heap ;; mret 0 else
  d ← gets (λ s, pm_db (k_pmm s));
  let page_ptr := PHYS_TO_VIRT hhdm_offset (pfn_db_page_to_phys d page) in
  in_mem (memset page_ptr 0 (u64 (npages * PAGE_SIZE))) ;;
  let slab := page_ptr in
  modify (λ s, put_slabs (<[slab := mkSlab 0 0 SLAB_MAGIC (if size >? 0xFFFF then 0xFFFF else size) 1 0
    BIG_CACHE_INDEX (u32 npages)]> (slabs s)) s) ;;
  let obj_start := align_up_uintptr (u64 (slab + sizeof_slab)) KHEAP_ALIGN in
  unlock_heap ;;
  mret obj_start.

(** [while (slab && !slab->free_list) slab = slab->next;] *)
Definition find_slab_round (slab : Z) : M kheap (Z + Z) :=
  if slab =? 0 then mret (inr 0) else
  x ← slab_load slab;
  if negb (sl_free_list x =? 0) then mret (inr slab) else mret (inl (sl_next x)).

(** The rest of [kmalloc] once a slab is chosen. *)
Definition take_object (cache slab : Z) : M kheap Z :=
  x ← slab_load slab;
  let obj := sl_free_list x in
  if obj <? 0x1000 then unlock_heap ;; mret 0 else
  next ← in_mem (load_ptr obj);
  slab_store slab (set_sl_free_list next) ;;
  when (negb (next =? 0) && (next <? 0x1000)) (slab_store slab (set_sl_free_list 0)) ;;
  slab_store slab (λ x, if free_count x >? 0 then set_free_count (u16 (free_count x - 1)) x else x) ;;
  x ← slab_load slab;
  when (free_count x =? 0) (cache_remove_slab cache slab) ;;
  unlock_heap ;;
  mret obj.

Definition kmalloc (size : Z) : M kheap Z :=
  if size =? 0 then mret 0 else
  let size := ALIGN_UP size KHEAP_ALIGN in
  lock_heap ;;
  cache ← cache_for_size size;
  match cache with
  | None => kmalloc_big size
  | Some cache_index =>
      c ← cache_load cache_index;
      fuel ← slab_fuel;
      slab ← loop fuel find_slab_round (c_slabs c);
      if slab =? 0 then
        slab ← slab_create (c_object_size c) cache_index;
        if slab =? 0 then unlock_heap ;; mret 0 else
        cache_add_slab cache_index slab ;;
        take_object cache_index slab
      else take_object cache_index slab
  end.

Definition kzalloc (size : Z) : M kheap Z :=
  ptr ← kmalloc size;
  if ptr =? 0 then mret 0 else
  in_mem (memset ptr 0 size) ;;
  mret ptr.

Definition kfree (ptr : Z) : M kheap unit :=
  if ptr =? 0 then mret tt else
  let slab := page_base ptr in
  x ← slab_load slab;
  if negb (magic x =? SLAB_MAGIC) then mret tt else
  let slab_end := u64 (slab + u64 (npages x * PAGE_SIZE)) in
  if ptr >=? slab_end then mret tt else
  lock_heap ;;
  x ← slab_load slab;
  if (cache_index x =? BIG_CACHE_INDEX) || (capacity x =? 1) then unlock_heap ;; slab_destroy slab else
  let cache := cache_index x in
  when (free_count x =? 0) (cache_add_slab cache slab) ;;
  x ← slab_load slab;
  in_mem (store_ptr ptr (sl_free_list x)) ;;
  slab_store slab (set_sl_free_list ptr) ;;
  slab_store slab (λ x, if free_count x <? capacity x then set_free_count (u16 (free_count x + 1)) x else x) ;;
  x ← slab_load slab;
  c ← cache_load cache;
  if (free_count x =? capacity x) && (slab_count c >? 1) then
    cache_remove_slab cache slab ;;
    unlock_heap ;;
    slab_destroy slab
  else unlock_heap.

Definition krealloc (ptr new_size : Z) : M kheap Z :=
  if ptr =? 0 then kmalloc new_size else
  if new_size =? 0 then kfree ptr ;; mret 0 else
  let slab := page_base ptr in
  x ← slab_load slab;
  if negb (magic x =? SLAB_MAGIC) then mret 0 else
  let old_size := object_size x in
  if new_size <=? old_size then mret ptr else
  new_ptr ← kmalloc new_size;
  if new_ptr =? 0 then mret 0 else
  in_mem (memcpy new_ptr ptr old_size) ;;
  kfree ptr ;;
  mret new_ptr.
End kheap.
