(* ===== verification/KheapSpec.v ===== *)
(** Lemmas about the kernel heap: pointers in memory, the lists of free objects
    and the lists of slabs. *)
From S2P Require Import Prelude Sync Pmm PmmSpec Strings StringsSpec Kheap.

(** * Pointers in memory *)

Lemma le_value_bytes n v : 0 ≤ v < 256 ^ Z.of_nat n → le_value (le_bytes n v) = v.
Proof.
  revert v. induction n as [|n IH]; intros v Hv; simpl; [simpl in Hv; lia|].
  rewrite Nat2Z.inj_succ, Z.pow_succ_r in Hv by lia. rewrite IH.
  - pose proof (Z.div_mod v 256 ltac:(lia)). lia.
  - split; [apply Z.div_pos; lia|]. apply Z.div_lt_upper_bound; lia.
Qed.
Lemma le_bytes_length n v : length (le_bytes n v) = n.
Proof. revert v. induction n as [|n IH]; intros v; simpl; [done|]. by rewrite IH. Qed.

Lemma wp_read_bytes m a l (Q : list Z → mem → Prop) : bytes_at m a l → Q l m → wp (read_bytes a (length l)) Q m.
Proof.
  revert a Q. induction l as [|b l IH]; intros a Q Hb HQ; simpl; [by apply wp_ret|].
  apply wp_bind. eapply wp_rd; [pose proof (Hb O b eq_refl) as H; by rewrite Z.add_0_r in H|].
  apply wp_bind, IH; [|by wp_pures]. intros i c Hi. replace (a + 1 + Z.of_nat i) with (a + Z.of_nat (S i)) by lia. by apply Hb.
Qed.
(** [m'] is [m] with the [n] bytes at [a] changed. *)
Definition rewritten (m : mem) (a n : Z) (m' : mem) : Prop :=
  (∀ x, x < a ∨ a + n ≤ x → m' !! x = m !! x) ∧ (∀ x, is_Some (m' !! x) ↔ is_Some (m !! x)).
Lemma wp_write_bytes m a l (Q : unit → mem → Prop) : mapped m a (Z.of_nat (length l)) →
  (∀ m', bytes_at m' a l → rewritten m a (Z.of_nat (length l)) m' → Q tt m') → wp (write_bytes a l) Q m.
Proof.
  revert m a. induction l as [|b l IH]; intros m a Hm HQ; simpl.
  { apply wp_ret, HQ; [by intros ? ?|done]. }
  simpl length in *. apply wp_bind, wp_wr.
  { specialize (Hm 0 ltac:(lia)). by rewrite Z.add_0_r in Hm. }
  assert (∀ x, is_Some (<[a := b]> m !! x) ↔ is_Some (m !! x)) as Hd.
  { intros x. destruct (decide (x = a)) as [->|]; [|by rewrite lookup_insert_ne].
    rewrite lookup_insert_eq. split; [|eauto]. intros _. specialize (Hm 0 ltac:(lia)). by rewrite Z.add_0_r in Hm. }
  apply IH.
  - intros k Hk. replace (a + 1 + k) with (a + (k + 1)) by lia. apply Hd, Hm. lia.
  - intros m' Hb [H1 H2]. apply HQ.
    + intros [|i] c Hi; simpl in Hi.
      * simplify_eq. rewrite Z.add_0_r, H1 by lia. by rewrite lookup_insert_eq.
      * replace (a + Z.of_nat (S i)) with (a + 1 + Z.of_nat i) by lia. by apply Hb.
    + split; [intros x Hx; rewrite H1 by lia; by rewrite lookup_insert_ne by lia|]. intros x. by rewrite H2.
Qed.

Definition ptr_at (m : mem) (a v : Z) : Prop := 0 ≤ v < 2 ^ 64 ∧ bytes_at m a (le_bytes 8 v).
Lemma wp_load_ptr m a v (Q : Z → mem → Prop) : ptr_at m a v → Q v m → wp (load_ptr a) Q m.
Proof.
  intros [Hv Hb] HQ. unfold load_ptr. apply wp_bind. change 8%nat with (length (le_bytes 8 v)).
  apply (wp_read_bytes _ _ _ _ Hb), wp_ret. by rewrite le_value_bytes.
Qed.
Lemma wp_store_ptr m a v (Q : unit → mem → Prop) : 0 ≤ v < 2 ^ 64 → mapped m a 8 →
  (∀ m', ptr_at m' a v → rewritten m a 8 m' → Q tt m') → wp (store_ptr a v) Q m.
Proof.
  intros Hv Hm HQ. unfold store_ptr. apply wp_write_bytes; [done|]. intros m' Hb Hr. apply HQ; [by split|done].
Qed.
Lemma ptr_at_frame m m' a v : (∀ x, a ≤ x < a + 8 → m' !! x = m !! x) → ptr_at m a v → ptr_at m' a v.
Proof.
  intros Hm [Hv Hb]. split; [done|]. intros i b Hi. rewrite Hm; [by apply Hb|].
  apply lookup_lt_Some in Hi. rewrite le_bytes_length in Hi. lia.
Qed.

(** * Lists of free objects *)

(** The objects [l], linked from [p] on through their first word. *)
Fixpoint chain (m : mem) (p : Z) (l : list Z) : Prop :=
  match l with
  | [] => p = 0
  | o :: l => p = o ∧ ∃ q, ptr_at m o q ∧ chain m q l
  end.
Lemma free_chain_frame m m' p l : (∀ o x, o ∈ l → o ≤ x < o + 8 → m' !! x = m !! x) → chain m p l → chain m' p l.
Proof.
  revert p. induction l as [|o l IH]; intros p Hm; simpl; [done|]. intros (-> & q & Hq & Hl). split; [done|]. exists q.
  split; [eapply ptr_at_frame; [|done]; intros x Hx; apply (Hm o); [left|done]|].
  apply IH; [|done]. intros o' x Ho. apply Hm. by right.
Qed.

(** * Rounding *)

Lemma align_up16 a : a mod 16 = 0 → 0 ≤ a → a + 15 < 2 ^ 64 → align_up_uintptr a KHEAP_ALIGN = a.
Proof.
  intros Ha H0 Hx. unfold align_up_uintptr, KHEAP_ALIGN. rewrite u64_id by lia. change (16 - 1) with (2 ^ 4 - 1).
  rewrite land_not64 by lia. change (2 ^ 4) with 16. replace (a + 16 - 1) with (15 + a / 16 * 16).
  2:{ pose proof (Z.div_mod a 16 ltac:(lia)). lia. }
  rewrite Z.div_add by lia. change (15 / 16) with 0. pose proof (Z.div_mod a 16 ltac:(lia)). lia.
Qed.
Lemma ALIGN_UP_bounds x y : 0 < y → 0 ≤ x → x + y < 2 ^ 64 →
  x ≤ ALIGN_UP x y < x + y ∧ ALIGN_UP x y mod y = 0.
Proof.
  intros Hy Hx H64. unfold ALIGN_UP, DIV_ROUND_UP. rewrite (u64_id (x + _)) by lia.
  pose proof (Z.div_mod (x + (y - 1)) y ltac:(lia)). pose proof (Z.mod_pos_bound (x + (y - 1)) y Hy).
  rewrite u64_id by lia. rewrite Z.mod_mul by lia. split; [lia|done].
Qed.

(** * Lists of slabs *)

(** The slabs [l], linked from [p] on. *)
Fixpoint slab_chain (sl : gmap Z slab_t) (p : Z) (l : list Z) : Prop :=
  match l with
  | [] => p = 0
  | a :: l => p = a ∧ a ≠ 0 ∧ ∃ x, sl !! a = Some x ∧ slab_chain sl (sl_next x) l
  end.
Lemma slab_chain_frame sl sl' p l :
  (∀ a x, a ∈ l → sl !! a = Some x → ∃ x', sl' !! a = Some x' ∧ sl_next x' = sl_next x) → slab_chain sl p l → slab_chain sl' p l.
Proof.
  revert p. induction l as [|a l IH]; intros p Hs; simpl; [done|]. intros (-> & H0 & x & Hx & Hl).
  destruct (Hs a x) as (x' & Hx' & Hn); [left|done|]. split_and!; [done|done|]. exists x'. rewrite Hn. split; [done|].
  apply IH; [|done]. intros b y Hb. apply Hs. by right.
Qed.
Lemma slab_chain_in sl p l a : slab_chain sl p l → a ∈ l → a ≠ 0 ∧ is_Some (sl !! a).
Proof.
  revert p. induction l as [|b l IH]; intros p; simpl; [by intros _ ?%elem_of_nil|].
  intros (-> & H0 & x & Hx & Hl) [->|Ha]%elem_of_cons; [eauto|by eapply IH].
Qed.
Lemma slab_chain_length sl p l : slab_chain sl p l → NoDup l → (length l ≤ size sl)%nat.
Proof.
  intros Hc Hnd. rewrite <-(size_list_to_set (C := gset Z) l), <-size_dom by done. apply subseteq_size.
  intros a Ha%elem_of_list_to_set. apply elem_of_dom. by apply (slab_chain_in _ _ _ _ Hc).
Qed.
(** Taking [a] out behind [b]. *)
Lemma slab_chain_unlink sl p l1 b a l2 x y : slab_chain sl p (l1 ++ b :: a :: l2) → NoDup (l1 ++ b :: a :: l2) →
  sl !! a = Some x → sl !! b = Some y →
  slab_chain (<[a := set_sl_next 0 x]> (<[b := set_sl_next (sl_next x) y]> sl)) p (l1 ++ b :: l2).
Proof.
  revert p. induction l1 as [|c l1 IH]; intros p Hc Hnd Hx Hy; simpl in *.
  - destruct Hc as (-> & H0 & y0 & Hy0 & _ & Ha0 & x0 & Hx0 & Hl). rewrite Hx in Hx0. apply (inj Some) in Hx0 as <-.
    apply NoDup_cons in Hnd as [Hb [Ha Hnd]%NoDup_cons]. split_and!; [done|done|]. exists (set_sl_next (sl_next x) y).
    rewrite lookup_insert_ne, lookup_insert_eq by set_solver. split; [done|]. simpl.
    eapply slab_chain_frame; [|done]. intros c z Hc Hz. exists z. rewrite !lookup_insert_ne by set_solver. done.
  - destruct Hc as (-> & H0 & z & Hz & Hc). apply NoDup_cons in Hnd as [Hcn Hnd]. split_and!; [done|done|]. exists z.
    rewrite !lookup_insert_ne by set_solver. split; [done|by apply IH].
Qed.

Section state.
Implicit Types (s : kheap) (C : list (list Z)).

Lemma wp_slab_load s a x (Q : slab_t → kheap → Prop) : slabs s !! a = Some x → Q x s → wp (slab_load a) Q s.
Proof. unfold wp, slab_load. by intros ->. Qed.
Lemma wp_slab_store s a x f (Q : unit → kheap → Prop) :
  slabs s !! a = Some x → Q tt (put_slabs (<[a := f x]> (slabs s)) s) → wp (slab_store a f) Q s.
Proof. unfold wp, slab_store. by intros ->. Qed.
Lemma wp_cache_load s i c (Q : slab_cache_t → kheap → Prop) :
  caches s !! i = Some c → Q c s → wp (cache_load (Z.of_nat i)) Q s.
Proof. unfold wp, cache_load. rewrite Nat2Z.id. by intros ->. Qed.
Lemma wp_cache_store s i c f (Q : unit → kheap → Prop) :
  caches s !! i = Some c → Q tt (put_caches (<[i := f c]> (caches s)) s) → wp (cache_store (Z.of_nat i) f) Q s.
Proof. unfold wp, cache_store. rewrite Nat2Z.id. by intros ->. Qed.

(** The caches: [C] gives the slabs of each. *)
Definition size_of (i : nat) : Z := default 0 (cache_sizes !! i).
Record clists s C : Prop := {
  cl_len : length (caches s) = 8%nat ∧ length C = 8%nat;
  cl_rep : ∀ i c l, caches s !! i = Some c → C !! i = Some l →
    c_object_size c = size_of i ∧ slab_chain (slabs s) (c_slabs c) l ∧ NoDup l ∧ slab_count c = Z.of_nat (length l);
  cl_disj : ∀ i j l l' a, C !! i = Some l → C !! j = Some l' → a ∈ l → a ∈ l' → i = j;
}.
(** Only the links of slabs and the caches differ. *)
Definition next_only (sl sl' : gmap Z slab_t) : Prop := ∀ a, set_sl_next 0 <$> sl' !! a = set_sl_next 0 <$> sl !! a.
Definition list_only s s' : Prop :=
  k_pmm s' = k_pmm s ∧ k_mem s' = k_mem s ∧ kheap_lock s' = kheap_lock s ∧ next_only (slabs s) (slabs s').

Lemma next_only_insert sl sl' a x v : next_only sl sl' → sl' !! a = Some x → next_only sl (<[a := set_sl_next v x]> sl').
Proof.
  intros H Hx b. rewrite <-H. destruct (decide (a = b)) as [<-|]; [|by rewrite lookup_insert_ne].
  by rewrite lookup_insert_eq, Hx.
Qed.
Lemma next_only_refl sl : next_only sl sl.
Proof. done. Qed.
Lemma next_only_lookup sl sl' a x : next_only sl sl' → sl !! a = Some x → ∃ v, sl' !! a = Some (set_sl_next v x).
Proof.
  intros H Hx. specialize (H a). rewrite Hx in H. destruct (sl' !! a) as [x'|]; [|done]. exists (sl_next x').
  apply (inj Some) in H. f_equal. destruct x, x'. unfold set_sl_next in *. simpl in *. congruence.
Qed.

Lemma clists_cache s C i l : clists s C → C !! i = Some l →
  ∃ c, caches s !! i = Some c ∧ c_object_size c = size_of i ∧ slab_chain (slabs s) (c_slabs c) l ∧ NoDup l ∧ slab_count c = Z.of_nat (length l).
Proof.
  intros [[H1 H2] Hr _] Hi. destruct (lookup_lt_is_Some_2 (caches s) i) as [c Hc].
  - apply lookup_lt_Some in Hi. lia.
  - exists c. split; [done|by apply Hr].
Qed.
(** Changing one list. *)
Lemma clists_change s s' C i l l' c : clists s C → C !! i = Some l → caches s' = <[i := c]> (caches s) →
  c_object_size c = size_of i → slab_chain (slabs s') (c_slabs c) l' → NoDup l' → slab_count c = Z.of_nat (length l') →
  (∀ j k a x, j ≠ i → C !! j = Some k → a ∈ k → slabs s !! a = Some x → slabs s' !! a = Some x) →
  (∀ a, a ∈ l' → a ∈ l ∨ ∀ j k, C !! j = Some k → a ∉ k) → clists s' (<[i := l']> C).
Proof.
  intros [[H1 H2] Hr Hd] Hi Hcs Hsz Hch Hnd Hcnt Hsl Hin.
  assert (i < length C)%nat as Hlt by (by apply lookup_lt_Some in Hi). split.
  - by rewrite Hcs, !length_insert.
  - intros j c' k Hc' Hk. rewrite Hcs in Hc'. destruct (decide (i = j)) as [<-|Hne].
    + rewrite list_lookup_insert_eq in Hc' by lia. rewrite list_lookup_insert_eq in Hk by lia. by simplify_eq.
    + rewrite list_lookup_insert_ne in Hc' by done. rewrite list_lookup_insert_ne in Hk by done. destruct (Hr j c' k Hc' Hk) as (? & Hk1 & ? & ?). split_and!; [done| |done|done].
      eapply slab_chain_frame; [|done]. intros a x Ha Hx. exists x. split; [by eapply Hsl|done].
  - assert (∀ j k a, C !! j = Some k → i ≠ j → a ∈ l' → a ∉ k) as Hx.
    { intros j k a Hk Hne Ha Hk'. destruct (Hin a Ha) as [Hl|Hn]; [|by eapply Hn]. apply Hne. by eapply Hd. }
    intros j k lj lk a Hj Hk Ha Hb. destruct (decide (i = j)) as [<-|Hj'], (decide (i = k)) as [<-|Hk']; try done.
    + rewrite list_lookup_insert_eq in Hj by lia. rewrite list_lookup_insert_ne in Hk by done. simplify_eq. by destruct (Hx k lk a).
    + rewrite list_lookup_insert_eq in Hk by lia. rewrite list_lookup_insert_ne in Hj by done. simplify_eq. by destruct (Hx j lj a).
    + rewrite list_lookup_insert_ne in Hj by done. rewrite list_lookup_insert_ne in Hk by done. by eapply Hd.
Qed.

Lemma wp_cache_add s C i l a x (Q : unit → kheap → Prop) :
  clists s C → C !! i = Some l → slabs s !! a = Some x → a ≠ 0 → (∀ j k, C !! j = Some k → a ∉ k) →
  Z.of_nat (length l) + 1 < 2 ^ 32 →
  (∀ s', clists s' (<[i := a :: l]> C) → list_only s s' → Q tt s') → wp (cache_add_slab (Z.of_nat i) a) Q s.
Proof.
  intros Hcl Hi Hx H0 Hnot Hlen HQ. destruct (clists_cache _ _ _ _ Hcl Hi) as (c & Hc & Hsz & Hch & Hnd & Hcnt).
  unfold cache_add_slab. apply wp_bind. eapply wp_cache_load; [done|]. apply wp_bind. eapply wp_slab_store; [done|].
  apply wp_bind. eapply wp_cache_store; [exact Hc|].
  assert (i < length (caches s))%nat by (by apply lookup_lt_Some in Hc).
  eapply wp_cache_store; [by apply list_lookup_insert_eq|]. apply HQ.
  - eapply (clists_change s); [done|done|simpl; by rewrite list_insert_insert_eq|done| | |simpl; rewrite Hcnt, u32_id; simpl; lia| |].
    + cbn [slab_chain c_slabs set_c_slabs set_slab_count]. split_and!; [done|done|]. eexists. split; [apply lookup_insert_eq|]. simpl.
      eapply slab_chain_frame; [|exact Hch]. intros b y Hb Hy. exists y. rewrite lookup_insert_ne; [done|]. intros ->. by eapply Hnot.
    + apply NoDup_cons. split; [by eapply Hnot|done].
    + intros j k b y Hne Hk Hb Hy. simpl. rewrite lookup_insert_ne; [done|]. intros ->. by eapply Hnot.
    + intros b [->|Hb]%elem_of_cons; [by right|by left].
  - split_and!; [done..|]. by apply next_only_insert.
Qed.

(** The slabs and the cache once [a], between [l1] and [l2], is taken out. *)
Definition unlinked (sl : gmap Z slab_t) (l1 : list Z) (a : Z) (x : slab_t) : gmap Z slab_t :=
  let sl := match last l1 with Some b => alter (set_sl_next (sl_next x)) b sl | None => sl end in
  <[a := set_sl_next 0 x]> sl.
Lemma unlinked_chain sl p l1 a l2 x : slab_chain sl p (l1 ++ a :: l2) → NoDup (l1 ++ a :: l2) → sl !! a = Some x →
  slab_chain (unlinked sl l1 a x) (if last l1 then p else sl_next x) (l1 ++ l2).
Proof.
  intros Hc Hnd Hx. unfold unlinked. destruct l1 as [|b l1 _] using rev_ind.
  - simpl in *. destruct Hc as (_ & _ & x' & Hx' & Hl). rewrite Hx in Hx'. apply (inj Some) in Hx' as <-.
    apply NoDup_cons in Hnd as [Ha _]. eapply slab_chain_frame; [|done]. intros b y Hb Hy. exists y.
    rewrite lookup_insert_ne by set_solver. done.
  - rewrite last_snoc. rewrite <-app_assoc in Hc, Hnd |- *. simpl in *.
    destruct (slab_chain_in _ _ _ b Hc) as [_ [y Hy]]; [set_solver|].
    rewrite (alter_const _ y) by done. by apply slab_chain_unlink.
Qed.
Lemma unlinked_other sl l1 a x b : b ≠ a → b ∉ l1 → unlinked sl l1 a x !! b = sl !! b.
Proof.
  intros Hb Hl. unfold unlinked. rewrite lookup_insert_ne by done. destruct (last l1) as [c|] eqn:Hc; [|done].
  apply last_Some in Hc as [l' ->]. apply lookup_alter_ne. set_solver.
Qed.
Lemma unlinked_next_only sl l1 a x : a ∉ l1 → sl !! a = Some x → next_only sl (unlinked sl l1 a x).
Proof.
  intros Ha Hx. unfold unlinked. apply next_only_insert.
  - destruct (last l1) as [b|]; [|done]. intros c. rewrite lookup_alter. case_decide as Hc; [subst|done]. by destruct (sl !! c).
  - destruct (last l1) as [b|] eqn:Hb; [|done]. apply last_Some in Hb as [l' ->]. rewrite lookup_alter_ne by set_solver. done.
Qed.

Lemma wp_cache_remove s C i l1 a l2 (Q : unit → kheap → Prop) :
  clists s C → C !! i = Some (l1 ++ a :: l2) → Z.of_nat (length (l1 ++ a :: l2)) < 2 ^ 32 →
  (∀ s', clists s' (<[i := l1 ++ l2]> C) → list_only s s' → Q tt s') → wp (cache_remove_slab (Z.of_nat i) a) Q s.
Proof.
  intros Hcl Hi Hlen HQ. destruct (clists_cache _ _ _ _ Hcl Hi) as (c & Hc & Hsz & Hch & Hnd & Hcnt).
  pose proof (slab_chain_length _ _ _ Hch Hnd) as Hfuel. unfold cache_remove_slab, slab_fuel.
  apply wp_bind. eapply wp_cache_load; [done|]. apply wp_bind, wp_gets.
  eapply (wp_loop (λ n st s', s' = s ∧ ∃ k1 k2, l1 = k1 ++ k2 ∧ n = length k2 ∧ st = (default 0 (last k1), st.2) ∧
     slab_chain (slabs s) st.2 (k2 ++ a :: l2))); [|split; [done|]; by exists [], l1|].
  { rewrite length_app in Hfuel. lia. }
  intros n [prev cur] s' (-> & k1 & k2 & Hk & -> & Hst & Hc2). simpl in Hst, Hc2. apply (f_equal fst) in Hst. simpl in Hst. subst prev.
  unfold remove_round. destruct k2 as [|b k2]; simpl in Hc2; destruct Hc2 as (-> & H0 & x & Hx & Hl); rewrite (proj2 (Z.eqb_neq _ 0)) by done;
    apply wp_bind; (eapply wp_slab_load; [exact Hx|]).
  - rewrite Z.eqb_refl. rewrite app_nil_r in Hk. subst k1.
    assert (a ∉ l1) as Ha by (apply NoDup_app in Hnd as (_ & Hn & _); intros H; apply (Hn _ H); left).
    assert (slab_count c >? 0 = true) as Hpos by (rewrite Hcnt, length_app; simpl; apply Z.gtb_lt; lia).
    assert (i < length (caches s))%nat as Hlt by (by apply lookup_lt_Some in Hc).
    set (c' := mkCache (c_object_size c) (if last l1 then c_slabs c else sl_next x) (slab_count c - 1)).
    assert (Q tt (put_caches (<[i := c']> (caches s)) (put_slabs (unlinked (slabs s) l1 a x) s))) as Hend.
    { apply HQ; [|split_and!; [done..|by apply unlinked_next_only]].
      eapply (clists_change s _ C i _ _ c'); [done|done|done|done|by apply (unlinked_chain _ _ _ _ l2)| | | |].
      - apply NoDup_app in Hnd as (H1 & H2 & [_ H3]%NoDup_cons). apply NoDup_app. split_and!; [done| |done].
        intros y Hy Hy2. apply (H2 y Hy). by right.
      - simpl. rewrite Hcnt, !length_app. simpl. lia.
      - intros j k y z Hne Hk Hy Hz. cbn [slabs put_caches put_slabs]. rewrite unlinked_other; [done|..].
        + intros ->. apply Hne. eapply (cl_disj _ _ Hcl); [exact Hk|exact Hi|done|set_solver].
        + intros Hin. apply Hne. eapply (cl_disj _ _ Hcl); [exact Hk|exact Hi|done|set_solver].
      - intros y Hy. left. set_solver. }
    rewrite Hcnt in Hpos. unfold unlinked, c' in Hend. destruct (last l1) as [b|] eqn:Hb; simpl default.
    + assert (b ∈ l1) as Hbl by (apply last_Some in Hb as [l' ->]; set_solver).
      destruct (slab_chain_in _ _ _ b Hch) as [Hb0 [y Hy]]; [set_solver|]. rewrite (proj2 (Z.eqb_neq _ 0)) by done. simpl negb. cbv iota.
      apply wp_bind. eapply wp_slab_store; [exact Hy|]. apply wp_bind.
      eapply wp_slab_store; [cbn [slabs put_slabs]; rewrite lookup_insert_ne by set_solver; exact Hx|].
      apply wp_bind. eapply wp_cache_store; [exact Hc|]. apply wp_ret. rewrite Hcnt, Hpos.
      rewrite (alter_const _ y) in Hend by done. unfold set_slab_count. rewrite u32_id by lia. by rewrite <-Hcnt.
    + simpl negb. cbv iota. apply wp_bind. eapply wp_cache_store; [exact Hc|]. apply wp_bind. eapply wp_slab_store; [exact Hx|].
      apply wp_bind. eapply wp_cache_store; [by apply list_lookup_insert_eq|]. apply wp_ret. cbn [slab_count set_c_slabs]. rewrite Hcnt, Hpos.
      cbn [caches put_slabs put_caches]. rewrite list_insert_insert_eq. unfold set_slab_count. rewrite u32_id by lia. by rewrite <-Hcnt.
  - rewrite (proj2 (Z.eqb_neq b a)).
    2:{ intros ->. rewrite Hk, <-app_assoc in Hnd. simpl in Hnd. apply NoDup_app in Hnd as (_ & _ & [Hn _]%NoDup_cons). set_solver. }
    apply wp_ret. exists (length k2). simpl. split; [lia|]. split; [done|]. exists (k1 ++ [b]), k2. rewrite <-app_assoc, last_snoc. done.
Qed.

(** The smallest size of object that will do. *)
Definition class_for (size : Z) (r : option Z) : Prop :=
  match r with
  | Some i => 0 ≤ i < 8 ∧ size ≤ size_of (Z.to_nat i) ∧ ∀ j, 0 ≤ j < i → size_of (Z.to_nat j) < size
  | None => 2048 < size
  end.
Lemma wp_cache_for_size s C size (Q : option Z → kheap → Prop) :
  clists s C → (∀ r, class_for size r → Q r s) → wp (cache_for_size size) Q s.
Proof.
  intros Hcl HQ. unfold cache_for_size.
  eapply (wp_loop (λ n i s', s' = s ∧ n = Z.to_nat (8 - i) ∧ 0 ≤ i ≤ 8 ∧ ∀ j, 0 ≤ j < i → size_of (Z.to_nat j) < size));
    [|split_and!; [done|done|lia|lia|intros; lia]|]; [simpl; lia|].
  intros n i s' (-> & -> & Hi & Hj). unfold cache_round. change CACHE_COUNT with 8. destruct (Z.ltb_spec i 8) as [Hlt|Hge].
  - destruct (cl_len _ _ Hcl) as [H1 H2]. destruct (lookup_lt_is_Some_2 (caches s) (Z.to_nat i)) as [c Hc]; [lia|].
    destruct (lookup_lt_is_Some_2 C (Z.to_nat i)) as [l Hl]; [lia|]. destruct (cl_rep _ _ Hcl _ _ _ Hc Hl) as (Hsz & _).
    apply wp_bind. replace i with (Z.of_nat (Z.to_nat i)) at 1 by lia. eapply wp_cache_load; [exact Hc|]. rewrite Hsz.
    destruct (Z.leb_spec size (size_of (Z.to_nat i))); apply wp_ret.
    + apply HQ. simpl. split_and!; [lia|lia|done|done].
    + exists (Z.to_nat (8 - (i + 1))). split; [lia|]. split_and!; [done|done|lia|lia|]. intros j Hj'.
      destruct (decide (j = i)) as [->|]; [done|apply Hj; lia].
  - apply wp_ret, HQ. simpl. apply (Hj 7). lia.
Qed.

(** The search takes the first slab of the list, all of them having a free object. *)
Lemma wp_find s p l (Q : Z → kheap → Prop) fuel : (2 ≤ fuel)%nat → slab_chain (slabs s) p l →
  (∀ a x, a ∈ l → slabs s !! a = Some x → sl_free_list x ≠ 0) →
  (l = [] → Q 0 s) → (∀ a l', l = a :: l' → Q a s) → wp (loop fuel find_slab_round p) Q s.
Proof.
  intros Hf Hc Hfree H0 H1. destruct fuel as [|fuel]; [lia|]. cbn [loop]. apply wp_bind. unfold find_slab_round at 1.
  destruct l as [|a l]; simpl in Hc.
  - subst p. simpl. wp_pures. by apply H0.
  - destruct Hc as (-> & Ha & x & Hx & _). rewrite (proj2 (Z.eqb_neq _ _)) by done. apply wp_bind. eapply wp_slab_load; [done|].
    rewrite (proj2 (Z.eqb_neq _ _)) by (eapply Hfree; [left|done]). simpl negb. wp_pures. by eapply H1.
Qed.
End state.
