(* ===== verification/KheapInv.v ===== *)
(** The invariant of the kernel heap, and the blocks it has handed out. *)
From S2P Require Import Prelude Sync Pmm PmmSpec Strings StringsSpec Kheap KheapSpec.

Lemma size_of_facts i : (i < 8)%nat → 16 ≤ size_of i ≤ 2048 ∧ size_of i mod 16 = 0 ∧
  1 ≤ 4064 / size_of i < 256 ∧ 4064 / size_of i * size_of i ≤ 4064.
Proof. intros Hi. do 8 (destruct i as [|i]; [by vm_compute|]). lia. Qed.

(** * Slabs *)

Section heap.
Context (hhdm : Z).
Implicit Types (s : kheap) (G : gmap Z (list Z)) (C : list (list Z)) (L fl : list Z) (x y : slab_t).

Definition kdb s : pfn_db := pm_db (k_pmm s).
Definition pfn_of (a : Z) : Z := (a - hhdm) / PAGE_SIZE.

(** [n] pages from [i] on that are allocated and referenced once. *)
Definition owned (p : pmm) (i n : Z) : Prop := ∀ j, 0 ≤ j < n →
  ∃ d, pm_pages p !! page_at (pm_db p) (i + j) = Some d ∧ refcount d = 1 ∧ is_page_reserved d = false.

(** The objects behind the header of a slab. *)
Definition is_object (a : Z) x (o : Z) : Prop := ∃ k, 0 ≤ k < capacity x ∧ o = a + sizeof_slab + k * object_size x.

(** A slab of cache [i] whose free objects are [fl], and a slab that is one
    large object. *)
Record small_slab (m : mem) (a : Z) x fl (i : nat) : Prop := {
  ss_index : cache_index x = Z.of_nat i ∧ (i < 8)%nat;
  ss_size : object_size x = size_of i;
  ss_cap : capacity x = 4064 / size_of i;
  ss_pages : npages x = 1;
  ss_count : free_count x = Z.of_nat (length fl);
  ss_chain : chain m (sl_free_list x) fl;
  ss_nodup : NoDup fl;
  ss_objs : ∀ o, o ∈ fl → is_object a x o;
}.
Definition big_slab x fl : Prop :=
  cache_index x = BIG_CACHE_INDEX ∧ capacity x = 1 ∧ fl = [] ∧ 1 ≤ npages x < 2 ^ 32 ∧
  0 ≤ object_size x ≤ npages x * PAGE_SIZE - sizeof_slab.

Record slab_ok s (a : Z) x fl : Prop := {
  so_magic : magic x = SLAB_MAGIC;
  so_frame : hhdm ≤ a ∧ (a - hhdm) mod PAGE_SIZE = 0 ∧ pfn_of a + npages x - 1 ≤ max_pfn (kdb s);
  so_owned : owned (k_pmm s) (pfn_of a) (npages x);
  so_kind : (∃ i, small_slab (k_mem s) a x fl i) ∨ big_slab x fl;
}.

(** * The heap *)

(** [G] gives the free objects of each slab of the heap, [L] the free pages. *)
Record heap_core s L G : Prop := {
  hc_pmm : pmm_inv (k_pmm s) L;
  hc_hhdm : hhdm mod PAGE_SIZE = 0 ∧ PAGE_SIZE ≤ hhdm ∧ hhdm + PAGE_SIZE * (max_pfn (kdb s) + 1) < 2 ^ 64 ∧
            max_pfn (kdb s) < 2 ^ 32 - 2;
  hc_mem : mapped (k_mem s) hhdm (PAGE_SIZE * (max_pfn (kdb s) + 1));
  hc_slabs : ∀ a fl, G !! a = Some fl → ∃ x, slabs s !! a = Some x ∧ slab_ok s a x fl;
  hc_disj : ∀ a b fl fl' x y, G !! a = Some fl → G !! b = Some fl' → slabs s !! a = Some x → slabs s !! b = Some y →
    a ≠ b → a + PAGE_SIZE * npages x ≤ b ∨ b + PAGE_SIZE * npages y ≤ a;
}.
(** The lists of the caches hold the slabs that have a free object. *)
Definition members s G C : Prop := ∀ i l a, C !! i = Some l →
  a ∈ l ↔ ∃ fl x, G !! a = Some fl ∧ slabs s !! a = Some x ∧ cache_index x = Z.of_nat i ∧ fl ≠ [].
Record heap_inv s L G C : Prop := {
  hi_core : heap_core s L G;
  hi_lists : clists s C;
  hi_members : members s G C;
}.

(** * Blocks *)

(** [n] bytes at [p] that were handed out and not given back. *)
Definition block_in (a : Z) fl x (p n : Z) : Prop :=
  if decide (cache_index x = BIG_CACHE_INDEX) then p = a + sizeof_slab ∧ n = npages x * PAGE_SIZE - sizeof_slab
  else is_object a x p ∧ p ∉ fl ∧ n = object_size x.
Definition block (sl : gmap Z slab_t) G (p n : Z) : Prop :=
  ∃ a fl x, G !! a = Some fl ∧ sl !! a = Some x ∧ block_in a fl x p n.

(** What blocks depend on of a slab. *)
Definition static x : Z * Z * Z * Z * Z := (magic x, object_size x, capacity x, npages x, cache_index x).
Lemma static_object a x y o : static x = static y → is_object a x o → is_object a y o.
Proof. unfold static, is_object. intros [= _ -> -> _ _]. done. Qed.
Lemma static_next v x : static (set_sl_next v x) = static x.
Proof. done. Qed.

(** ** Geometry *)

Lemma slab_npages s a x fl : slab_ok s a x fl → 1 ≤ npages x.
Proof. intros [_ _ _ [[i [_ _ _ -> _ _ _ _]]|(_ & _ & _ & H & _)]]; lia. Qed.
Lemma slab_addr s L G a x fl : heap_core s L G → slab_ok s a x fl →
  a = hhdm + PAGE_SIZE * pfn_of a ∧ 0 ≤ pfn_of a ∧ a mod PAGE_SIZE = 0 ∧ PAGE_SIZE ≤ a ∧ a + PAGE_SIZE * npages x < 2 ^ 64 ∧
  a + PAGE_SIZE * npages x ≤ hhdm + PAGE_SIZE * (max_pfn (kdb s) + 1).
Proof.
  intros [_ (Hh & H0 & H64 & _) _ _ _] Hs. pose proof (slab_npages _ _ _ _ Hs) as Hn. destruct Hs as [_ (Ha & Hm & Hp) _ _].
  unfold pfn_of in *. apply Z.div_exact in Hm; [|done]. set (q := (a - hhdm) / PAGE_SIZE) in *. clearbody q.
  assert (a = hhdm + PAGE_SIZE * q) as -> by lia. unfold PAGE_SIZE in *. split_and!; [done|lia| |lia|lia|lia].
  by rewrite Z.mul_comm, Z.mod_add.
Qed.
Lemma object_range m a x fl i o : small_slab m a x fl i → is_object a x o →
  a + sizeof_slab ≤ o ∧ o + object_size x ≤ a + PAGE_SIZE ∧ (o - a) mod 16 = 0.
Proof.
  intros [[_ Hi] Hsz Hcap _ _ _ _ _] (k & Hk & ->). destruct (size_of_facts i Hi) as (H1 & H2 & H3 & H4).
  rewrite Hsz in *. rewrite Hcap in Hk. unfold sizeof_slab, PAGE_SIZE.
  assert ((k + 1) * size_of i ≤ 4064 / size_of i * size_of i) by (apply Z.mul_le_mono_nonneg_r; lia).
  split_and!; [lia|lia|]. apply Z.div_exact in H2; [|done].
  replace (a + 32 + k * size_of i - a) with ((2 + k * (size_of i / 16)) * 16) by lia. apply Z.mod_mul. lia.
Qed.
Lemma object_apart a x o o' : 0 < object_size x → is_object a x o → is_object a x o' → o ≠ o' →
  o + object_size x ≤ o' ∨ o' + object_size x ≤ o.
Proof.
  intros Hsz (k & Hk & ->) (k' & Hk' & ->) Hne. destruct (decide (k = k')) as [->|]; [done|].
  destruct (decide (k < k')); [left|right].
  - assert ((k + 1) * object_size x ≤ k' * object_size x) by (apply Z.mul_le_mono_nonneg_r; lia). lia.
  - assert ((k' + 1) * object_size x ≤ k * object_size x) by (apply Z.mul_le_mono_nonneg_r; lia). lia.
Qed.

Lemma small_not_big m a x fl i : small_slab m a x fl i → cache_index x ≠ BIG_CACHE_INDEX.
Proof. intros [[-> Hi] _ _ _ _ _ _ _]. unfold BIG_CACHE_INDEX. lia. Qed.

(** A block lies inside of its slab, behind the header. *)
Record block_geom (a : Z) x (p n : Z) : Prop := {
  bg_low : a + sizeof_slab ≤ p;
  bg_high : p + n ≤ a + PAGE_SIZE * npages x;
  bg_page : p < a + PAGE_SIZE;
  bg_align : p mod 16 = 0;
  bg_size : 0 < n ∧ object_size x ≤ n;
}.
Lemma block_in_range s a fl x p n : slab_ok s a x fl → a mod PAGE_SIZE = 0 → block_in a fl x p n → block_geom a x p n.
Proof.
  intros Hok Hal Hb. apply Z.div_exact in Hal; [|done]. set (q := a / PAGE_SIZE) in *. clearbody q. unfold block_in in Hb.
  destruct (so_kind _ _ _ _ Hok) as [[i Hs]|Hbig].
  - rewrite decide_False in Hb by (by eapply small_not_big). destruct Hb as (Ho & _ & ->).
    destruct (object_range _ _ _ _ _ _ Hs Ho) as (? & ? & Hm). destruct (size_of_facts i) as (? & _); [by apply (ss_index _ _ _ _ _ Hs)|].
    pose proof (ss_size _ _ _ _ _ Hs) as Hsz. split; rewrite ?(ss_pages _ _ _ _ _ Hs); unfold sizeof_slab, PAGE_SIZE in *; try lia.
    replace p with (p - a + q * 256 * 16) by lia. by rewrite Z.mod_add.
  - destruct Hbig as (Hbi & _ & _ & ? & ?). rewrite decide_True in Hb by done. destruct Hb as (-> & ->).
    split; unfold sizeof_slab, PAGE_SIZE in *; try lia. replace (a + 32) with ((q * 256 + 2) * 16) by lia. by apply Z.mod_mul.
Qed.
Lemma page_base_block a p : a mod PAGE_SIZE = 0 → a ≤ p < a + PAGE_SIZE → page_base p = a.
Proof.
  intros Ha Hp. apply Z.div_exact in Ha; [|done]. unfold page_base, ALIGN_DOWN. unfold PAGE_SIZE in *.
  replace p with (p - a + a / 4096 * 4096) by lia. rewrite Z.div_add, Z.div_small by lia. lia.
Qed.
(** The size the slab of a block records. *)
Definition rec_size (sl : gmap Z slab_t) (p : Z) : option Z := object_size <$> sl !! page_base p.
Lemma block_slab s L G p n : heap_core s L G → block (slabs s) G p n →
  ∃ a fl x, G !! a = Some fl ∧ slabs s !! a = Some x ∧ slab_ok s a x fl ∧ block_in a fl x p n ∧ block_geom a x p n.
Proof.
  intros Hc (a & fl & x & Ha & Hx & Hb). destruct (hc_slabs _ _ _ Hc a fl Ha) as (x' & Hx' & Hok). simplify_eq.
  destruct (slab_addr _ _ _ _ _ _ Hc Hok) as (_ & _ & Hal & _). exists a, fl, x. split_and!; try done. by eapply block_in_range.
Qed.

Lemma block_base s L G p n : heap_core s L G → block (slabs s) G p n → is_Some (G !! page_base p).
Proof.
  intros Hc Hb. destruct (block_slab _ _ _ _ _ Hc Hb) as (a & fl & x & Ha & Hx & Hok & _ & [? ? ? _ _]).
  destruct (slab_addr _ _ _ _ _ _ Hc Hok) as (_ & _ & Hal & _). unfold sizeof_slab in *. rewrite (page_base_block a p) by (try done; lia). eauto.
Qed.

(** * Changing the heap *)

Lemma owned_not_free p L i n j : pmm_inv p L → owned p i n → 0 ≤ j < n → page_at (pm_db p) (i + j) ∉ L.
Proof.
  intros [Hc _] Ho Hj Hin. destruct (Ho j Hj) as (d & Hd & Hr & _). destruct (pc_pages _ _ Hc _ _ Hd) as (_ & H0 & _).
  specialize (H0 Hin). lia.
Qed.
Lemma page_at_frame P p p' i : pmm_frame P p p' → page_at (pm_db p') i = page_at (pm_db p) i.
Proof. intros [(H & _) _ _ _]. unfold page_at. by rewrite H. Qed.
Lemma owned_frame p p' L P i n : pmm_inv p L → pmm_frame P p p' → owned p i n →
  (∀ j, 0 ≤ j < n → page_at (pm_db p) (i + j) ∉ P) → owned p' i n.
Proof.
  intros HI Hf Ho HP j Hj. destruct (Ho j Hj) as (d & Hd & Hr & Hv). exists d. rewrite (page_at_frame _ _ _ _ Hf). split; [|done].
  apply (pf_used _ _ _ Hf); [by apply HP|done|]. pose proof (owned_not_free _ _ _ _ _ HI Ho Hj) as HL.
  destruct HI as [Hc _]. destruct (pc_pages _ _ Hc _ _ Hd) as (-> & _). by apply bool_decide_eq_false.
Qed.

Lemma small_slab_frame m m' a x v fl i : small_slab m a x fl i →
  (∀ z, a ≤ z < a + PAGE_SIZE → m' !! z = m !! z) → small_slab m' a (set_sl_next v x) fl i.
Proof.
  intros Hs Hm. pose proof (λ o, object_range _ _ _ _ _ o Hs) as Hr. destruct Hs as [[H1 Hi] Hsz ? ? ? Hch ? Hobj]. split; try done.
  eapply free_chain_frame; [|exact Hch]. intros o z Ho Hz. destruct (Hr o (Hobj o Ho)) as (? & ? & _). apply Hm.
  destruct (size_of_facts i Hi) as (? & _). rewrite Hsz in *. unfold sizeof_slab in *. lia.
Qed.
Lemma slab_ok_frame s s' a x v fl : slab_ok s a x fl → max_pfn (kdb s') = max_pfn (kdb s) →
  owned (k_pmm s') (pfn_of a) (npages x) → (∀ z, a ≤ z < a + PAGE_SIZE * npages x → k_mem s' !! z = k_mem s !! z) →
  slab_ok s' a (set_sl_next v x) fl.
Proof.
  intros Hok Hmx Ho Hm. pose proof (slab_npages _ _ _ _ Hok) as Hn. destruct Hok as [? Hf _ Hk]. split; [done|by rewrite Hmx|done|].
  destruct Hk as [[i Hs]|Hb]; [left|by right]. exists i. eapply small_slab_frame; [done|]. intros z Hz. apply Hm.
  unfold PAGE_SIZE in *. lia.
Qed.

(** A slab [b] of the heap that a step leaves alone. *)
Definition kept s s' (b : Z) x : Prop :=
  (∃ v, slabs s' !! b = Some (set_sl_next v x)) ∧ owned (k_pmm s') (pfn_of b) (npages x) ∧
  (∀ z, b ≤ z < b + PAGE_SIZE * npages x → k_mem s' !! z = k_mem s !! z).

(** A step that works on the slab [a], and leaves the others alone. *)
Lemma heap_core_step s s' L L' G G' a : heap_core s L G → pmm_inv (k_pmm s') L' → max_pfn (kdb s') = max_pfn (kdb s) →
  (∀ z, is_Some (k_mem s' !! z) ↔ is_Some (k_mem s !! z)) →
  (∀ b fl, b ≠ a → G' !! b = Some fl → G !! b = Some fl) →
  (∀ b fl x, b ≠ a → G !! b = Some fl → slabs s !! b = Some x → kept s s' b x) →
  (∀ fl, G' !! a = Some fl → ∃ x, slabs s' !! a = Some x ∧ slab_ok s' a x fl ∧
     ∀ b fl' y, b ≠ a → G !! b = Some fl' → slabs s !! b = Some y →
       a + PAGE_SIZE * npages x ≤ b ∨ b + PAGE_SIZE * npages y ≤ a) →
  heap_core s' L' G'.
Proof.
  intros [Hp Hh Hm Hsl Hd] Hp' Hmx Hmem HG Hkeep Ha.
  assert (∀ b fl, b ≠ a → G' !! b = Some fl → ∃ x v, G !! b = Some fl ∧ slabs s !! b = Some x ∧
    slabs s' !! b = Some (set_sl_next v x) ∧ slab_ok s' b (set_sl_next v x) fl) as Hb.
  { intros b fl Hne Hb. apply HG in Hb; [|done]. destruct (Hsl b fl Hb) as (x & Hx & Hok).
    destruct (Hkeep b fl x Hne Hb Hx) as ([v Hv] & Ho & Hz). exists x, v. split_and!; try done. by eapply slab_ok_frame. }
  split; [done|by rewrite Hmx| | |].
  - intros k Hk. apply Hmem, Hm. by rewrite <-Hmx.
  - intros b fl Hbfl. destruct (decide (b = a)) as [->|Hne].
    + destruct (Ha fl Hbfl) as (x & Hx & Hok & _). eauto.
    + destruct (Hb b fl Hne Hbfl) as (x & v & _ & _ & Hv & Hok). eauto.
  - intros b c fl fl' x y Hbfl Hcfl Hx Hy Hne. destruct (decide (b = a)) as [->|Hba], (decide (c = a)) as [->|Hca]; [done|..].
    + destruct (Ha fl Hbfl) as (x' & Hx' & _ & Hd'). destruct (Hb c fl' Hca Hcfl) as (y' & v & Hc1 & Hc2 & Hc3 & _).
      simplify_eq. simpl. by eapply Hd'.
    + destruct (Ha fl' Hcfl) as (x' & Hx' & _ & Hd'). destruct (Hb b fl Hba Hbfl) as (y' & v & Hc1 & Hc2 & Hc3 & _).
      simplify_eq. simpl. destruct (Hd' b fl y' Hba Hc1 Hc2); auto.
    + destruct (Hb b fl Hba Hbfl) as (x' & v & Hb1 & Hb2 & Hb3 & _). destruct (Hb c fl' Hca Hcfl) as (y' & v' & Hc1 & Hc2 & Hc3 & _).
      simplify_eq. simpl. by eapply Hd.
Qed.

(** Two slabs do not share a byte. *)
Lemma slab_apart s L G a b fl fl' x y z : heap_core s L G → G !! a = Some fl → G !! b = Some fl' →
  slabs s !! a = Some x → slabs s !! b = Some y → a ≠ b → a ≤ z < a + PAGE_SIZE * npages x → ¬ b ≤ z < b + PAGE_SIZE * npages y.
Proof. intros Hc Ha Hb Hx Hy Hne Hz Hz'. destruct (hc_disj _ _ _ Hc a b fl fl' x y Ha Hb Hx Hy Hne); lia. Qed.

(** Distinct blocks do not share a byte. *)
Lemma blocks_apart s L G p n p' n' : heap_core s L G → block (slabs s) G p n → block (slabs s) G p' n' → p ≠ p' →
  p + n ≤ p' ∨ p' + n' ≤ p.
Proof.
  intros Hc Hp Hp' Hne. destruct (block_slab _ _ _ _ _ Hc Hp) as (a & fl & x & Ha & Hx & Hok & Hb1 & [? ? ? _ _]).
  destruct (block_slab _ _ _ _ _ Hc Hp') as (b & fl' & y & Hb & Hy & Hok' & Hb2 & [? ? ? _ _]).
  destruct (decide (a = b)) as [<-|Hab].
  2:{ destruct (hc_disj _ _ _ Hc a b fl fl' x y Ha Hb Hx Hy Hab); unfold sizeof_slab in *; lia. }
  simplify_eq. unfold block_in in *. case_decide as Hbig; [destruct Hb1, Hb2; lia|]. destruct Hb1 as (Ho & _ & ->), Hb2 as (Ho' & _ & ->).
  destruct (so_kind _ _ _ _ Hok) as [[i Hs]|[? _]]; [|done]. eapply object_apart; [|done..].
  rewrite (ss_size _ _ _ _ _ Hs). destruct (size_of_facts i) as (? & _); [apply (ss_index _ _ _ _ _ Hs)|lia].
Qed.
End heap.
