(* ===== verification/KheapOps.v ===== *)
(** What the steps of the kernel heap do to its slabs and blocks. *)
From S2P Require Import Prelude Sync DList Pmm PmmSpec Strings StringsSpec Kheap KheapSpec KheapInv.

Section ops.
Context (me hhdm : Z).
Notation heap_core := (heap_core hhdm).
Notation heap_inv := (heap_inv hhdm).
Notation slab_ok := (slab_ok hhdm).
Implicit Types (s : kheap) (G : gmap Z (list Z)) (C : list (list Z)) (L fl : list Z) (x y : slab_t).

(** * Blocks *)

Lemma block_in_static a fl x y p n : static x = static y → block_in a fl x p n → block_in a fl y p n.
Proof.
  intros Hst. unfold block_in. pose proof Hst as [= _ Hos _ Hnp ->]. case_decide; [by rewrite Hnp|].
  intros (Ho & ? & ->). split_and!; [by eapply static_object|done|done].
Qed.
(** The blocks of the slab [a], and those of the others. *)
Definition block_here (sl : gmap Z slab_t) G (a p n : Z) : Prop := ∃ fl x, G !! a = Some fl ∧ sl !! a = Some x ∧ block_in a fl x p n.
Definition block_else (sl : gmap Z slab_t) G (a p n : Z) : Prop :=
  ∃ b fl x, b ≠ a ∧ G !! b = Some fl ∧ sl !! b = Some x ∧ block_in b fl x p n.
Lemma block_split sl G a p n : block sl G p n ↔ block_here sl G a p n ∨ block_else sl G a p n.
Proof.
  split.
  - intros (b & fl & x & Hb & Hx & Hi). destruct (decide (b = a)) as [->|]; [left|right]; repeat eexists; eauto.
  - intros [(fl & x & ? & ? & ?)|(b & fl & x & _ & ? & ? & ?)]; repeat eexists; eauto.
Qed.
Definition same_static (sl sl' : gmap Z slab_t) : Prop := ∀ b, static <$> sl' !! b = static <$> sl !! b.
Lemma block_else_same sl sl' G G' a p n :
  (∀ b, b ≠ a → G' !! b = G !! b) → (∀ b, b ≠ a → is_Some (G !! b) → static <$> sl' !! b = static <$> sl !! b) →
  block_else sl' G' a p n ↔ block_else sl G a p n.
Proof.
  intros HG Hsl. split; intros (b & fl & x & Hne & Hb & Hx & Hi).
  - rewrite HG in Hb by done. specialize (Hsl b Hne ltac:(eauto)). rewrite Hx in Hsl.
    destruct (sl !! b) as [y|] eqn:Hy; [|done]. apply (inj Some) in Hsl. exists b, fl, y. split_and!; try done. by eapply block_in_static.
  - specialize (Hsl b Hne ltac:(eauto)). rewrite Hx in Hsl.
    destruct (sl' !! b) as [y|] eqn:Hy; [|done]. apply (inj Some) in Hsl. exists b, fl, y. rewrite HG by done.
    split_and!; try done. by eapply block_in_static.
Qed.
Lemma next_only_static sl sl' : next_only sl sl' → same_static sl sl'.
Proof.
  intros H b. specialize (H b). destruct (sl !! b) as [x|], (sl' !! b) as [y|]; simpl in *; try done.
  apply (inj Some) in H. f_equal. apply (f_equal static) in H. exact H.
Qed.
Lemma same_static_rec sl sl' p : static <$> sl' !! page_base p = static <$> sl !! page_base p → rec_size sl' p = rec_size sl p.
Proof.
  unfold rec_size. destruct (sl !! page_base p) as [x|], (sl' !! page_base p) as [y|]; simpl; try done.
  intros H. apply (inj Some) in H as [= _ -> _ _ _]. done.
Qed.
Lemma same_static_trans sl1 sl2 sl3 : same_static sl1 sl2 → same_static sl2 sl3 → same_static sl1 sl3.
Proof. intros H1 H2 b. by rewrite H2. Qed.

(** * Free objects *)

Definition objects (a : Z) x : list Z := (λ k, a + sizeof_slab + k * object_size x) <$> seqZ 0 (capacity x).
Lemma elem_of_objects a x o : o ∈ objects a x ↔ is_object a x o.
Proof.
  unfold objects, is_object. rewrite list_elem_of_fmap. setoid_rewrite elem_of_seqZ.
  split; intros (k & H1 & H2); exists k; split; try done; lia.
Qed.
Lemma free_sub m a x fl i : small_slab m a x fl i → fl ⊆+ objects a x.
Proof. intros Hs. apply NoDup_submseteq; [apply (ss_nodup _ _ _ _ _ Hs)|]. intros o Ho. by apply elem_of_objects, (ss_objs _ _ _ _ _ Hs). Qed.
Lemma objects_length m a x fl i : small_slab m a x fl i → Z.of_nat (length (objects a x)) = capacity x ∧ capacity x < 256.
Proof.
  intros Hs. unfold objects. rewrite length_fmap, length_seqZ, (ss_cap _ _ _ _ _ Hs).
  destruct (size_of_facts i) as (_ & _ & ? & _); [apply (ss_index _ _ _ _ _ Hs)|]. lia.
Qed.
Lemma free_bound m a x fl i : small_slab m a x fl i → Z.of_nat (length fl) ≤ capacity x < 256.
Proof.
  intros Hs. destruct (objects_length _ _ _ _ _ Hs) as [H1 H2]. pose proof (submseteq_length _ _ (free_sub _ _ _ _ _ Hs)). lia.
Qed.
(** All objects of a slab with as many free objects as it has are free. *)
Lemma free_all m a x fl i o : small_slab m a x fl i → Z.of_nat (length fl) = capacity x → is_object a x o → o ∈ fl.
Proof.
  intros Hs Hl Ho. destruct (objects_length _ _ _ _ _ Hs) as [H1 _].
  assert (fl ≡ₚ objects a x) as -> by (apply submseteq_length_Permutation; [by eapply free_sub|lia]). by apply elem_of_objects.
Qed.

(** * Lists of slabs *)

Lemma heap_core_same s s' L G : heap_core s L G → k_pmm s' = k_pmm s → k_mem s' = k_mem s →
  next_only (slabs s) (slabs s') → heap_core s' L G.
Proof.
  intros Hc Hp Hm Hn. assert (kdb s' = kdb s) as Hdb by (unfold kdb; by rewrite Hp).
  assert (∀ b fl x, G !! b = Some fl → slabs s !! b = Some x → kept hhdm s s' b x) as Hkeep.
  { intros b fl x Hb Hx. destruct (hc_slabs _ _ _ _ Hc b fl Hb) as (x' & Hx' & Hok). simplify_eq. split_and!.
    - by eapply next_only_lookup.
    - rewrite Hp. apply Hok.
    - intros z _. by rewrite Hm. }
  apply (heap_core_step hhdm s s' L L G G 0); [done|rewrite Hp; apply Hc|by rewrite Hdb|by rewrite Hm|done|intros; by eapply Hkeep|].
  intros fl Hfl. destruct (hc_slabs _ _ _ _ Hc 0 fl Hfl) as (x & Hx & Hok). destruct (Hkeep 0 fl x Hfl Hx) as ([v Hv] & Ho & Hz).
  exists (set_sl_next v x). split_and!; [done|by eapply slab_ok_frame; [|rewrite Hdb| |]|].
  intros b fl' y Hne Hb Hy. simpl. by eapply (hc_disj _ _ _ _ Hc).
Qed.
Lemma clists_frame s s' C : clists s C → caches s' = caches s →
  (∀ i l b x, C !! i = Some l → b ∈ l → slabs s !! b = Some x → ∃ y, slabs s' !! b = Some y ∧ sl_next y = sl_next x) → clists s' C.
Proof.
  intros [H1 H2 H3] Hc Hn. split; [by rewrite Hc| |done]. rewrite Hc. intros i c l Hi Hl.
  destruct (H2 i c l Hi Hl) as (? & Hch & ? & ?). split_and!; try done. eapply slab_chain_frame; [|done].
  intros b x Hb Hx. by eapply Hn.
Qed.
(** A cache has no more slabs than there are pages. *)
Lemma cache_list_bound s L G C i l : heap_inv s L G C → C !! i = Some l → Z.of_nat (length l) + 1 < 2 ^ 32.
Proof.
  intros [Hc Hl Hm] Hi. destruct (clists_cache _ _ _ _ Hl Hi) as (c & _ & _ & _ & Hnd & _).
  assert (l ⊆+ (λ k, hhdm + PAGE_SIZE * k) <$> seqZ 0 (max_pfn (kdb s) + 1)) as Hsub.
  { apply NoDup_submseteq; [done|]. intros a Ha. apply (Hm i l a Hi) in Ha as (fl & x & Hfl & Hx & _).
    destruct (hc_slabs _ _ _ _ Hc a fl Hfl) as (x' & Hx' & Hok). simplify_eq.
    destruct (slab_addr _ _ _ _ _ _ _ Hc Hok) as (Ha & ? & _). pose proof (slab_npages _ _ _ _ _ Hok). destruct Hok as [_ (_ & _ & ?) _ _].
    apply list_elem_of_fmap. exists (pfn_of hhdm a). split; [done|]. apply elem_of_seqZ. lia. }
  apply submseteq_length in Hsub. rewrite length_fmap, length_seqZ in Hsub. destruct (hc_hhdm _ _ _ _ Hc) as (_ & _ & _ & ?). lia.
Qed.

(** A step on the slab [a] that leaves the list of cache [i], its own, as [l']. *)
Lemma members_step s s' G G' C a i l l' : clists s C → members s G C → C !! i = Some l →
  (∀ b, b ≠ a → G' !! b = G !! b) → (∀ b, b ≠ a → is_Some (G !! b) → static <$> slabs s' !! b = static <$> slabs s !! b) →
  (∀ b, b ≠ a → b ∈ l' ↔ b ∈ l) →
  (∀ j, (∃ fl x, G' !! a = Some fl ∧ slabs s' !! a = Some x ∧ cache_index x = Z.of_nat j ∧ fl ≠ []) → j = i) →
  (a ∈ l' ↔ ∃ fl x, G' !! a = Some fl ∧ slabs s' !! a = Some x ∧ cache_index x = Z.of_nat i ∧ fl ≠ []) →
  (∀ j k, j ≠ i → C !! j = Some k → a ∉ k) →
  members s' G' (<[i := l']> C).
Proof.
  intros Hl Hm Hi HG Hst Hin Hai Hal Hnot j k b Hk.
  assert (b ≠ a → (∃ fl x, G' !! b = Some fl ∧ slabs s' !! b = Some x ∧ cache_index x = Z.of_nat j ∧ fl ≠ []) ↔
    ∃ fl x, G !! b = Some fl ∧ slabs s !! b = Some x ∧ cache_index x = Z.of_nat j ∧ fl ≠ []) as Hsame.
  { intros Hne. rewrite HG by done. specialize (Hst b Hne). split; intros (fl & x & Hb & Hx & Hci & Hfl); specialize (Hst ltac:(eauto)); rewrite Hx in Hst.
    - destruct (slabs s !! b) as [y|] eqn:Hy; [|done]. apply (inj Some) in Hst as [= _ _ _ _ Heq]. exists fl, y. by rewrite <-Heq.
    - destruct (slabs s' !! b) as [y|] eqn:Hy; [|done]. apply (inj Some) in Hst as [= _ _ _ _ Heq]. exists fl, y. by rewrite Heq. }
  assert (i < length C)%nat by (by apply lookup_lt_Some in Hi). destruct (decide (i = j)) as [<-|Hne].
  - rewrite list_lookup_insert_eq in Hk by done. simplify_eq. destruct (decide (b = a)) as [->|Hb]; [done|].
    rewrite Hsame, Hin by done. by apply Hm.
  - rewrite list_lookup_insert_ne in Hk by done. destruct (decide (b = a)) as [->|Hb].
    + split; [intros Ha; exfalso; by eapply Hnot|]. intros Hx. by destruct Hne; symmetry; apply Hai.
    + rewrite Hsame by done. by apply Hm.
Qed.

(** A slab lost its last free object and left its list, or it has others. *)
Lemma members_pop_last s s' G C a i l1 l2 : clists s C → members s G C → C !! i = Some (l1 ++ a :: l2) →
  same_static (slabs s) (slabs s') → members s' (<[a := []]> G) (<[i := l1 ++ l2]> C).
Proof.
  intros Hl Hm Hi Hst. destruct (clists_cache _ _ _ _ Hl Hi) as (_ & _ & _ & _ & Hnd & _).
  assert (a ∉ l1 ++ l2) by (apply NoDup_app in Hnd as (_ & Hn & [? _]%NoDup_cons); intros [Hx1|?]%elem_of_app; [apply (Hn _ Hx1); left|done]).
  eapply (members_step s _ G _ C a i (l1 ++ a :: l2)); [done|done|done| |by intros b _ _; apply Hst| | | |].
  - intros b Hne. by rewrite lookup_insert_ne.
  - intros b Hne. set_solver.
  - intros j (fl & y & Hfl0 & _ & _ & ?). rewrite lookup_insert_eq in Hfl0. by simplify_eq.
  - split; [done|]. intros (fl & y & Hfl0 & _ & _ & ?). rewrite lookup_insert_eq in Hfl0. by simplify_eq.
  - intros j k Hne Hk Hak. apply Hne. eapply (cl_disj _ _ Hl); [exact Hk|exact Hi|done|set_solver].
Qed.
Lemma members_pop s s' G C a i l x fl : clists s C → members s G C → C !! i = Some l → a ∈ l → slabs s' !! a = Some x →
  cache_index x = Z.of_nat i → fl ≠ [] → same_static (slabs s) (slabs s') → members s' (<[a := fl]> G) C.
Proof.
  intros Hl Hm Hi Hal Hx Hci Hne0 Hst. rewrite <-(list_insert_id C i l Hi).
  eapply (members_step s _ G _ C a i l); [done|done|done| |by intros b _ _; apply Hst|done| | |].
  - intros b Hne. by rewrite lookup_insert_ne.
  - intros j (fl' & y & _ & Hy & Hyj & _). rewrite Hx in Hy. apply (inj Some) in Hy as <-. lia.
  - split; [|done]. intros _. exists fl, x. by rewrite lookup_insert_eq.
  - intros j k Hne Hk Hak. apply Hne. by eapply (cl_disj _ _ Hl).
Qed.

(** * The lock *)

Lemma wp_lock_heap s (Q : unit → kheap → Prop) : kheap_lock s = unlocked → Q tt (put_lock (held me) s) → wp (lock_heap me) Q s.
Proof. intros Hl HQ. unfold lock_heap. apply wp_zoom. rewrite Hl. by apply wp_lock_acquire. Qed.
Lemma wp_unlock_heap s (Q : unit → kheap → Prop) : kheap_lock s = held me → Q tt (put_lock unlocked s) → wp (unlock_heap me) Q s.
Proof. intros Hl HQ. unfold unlock_heap. apply wp_zoom. rewrite Hl. by apply wp_lock_release. Qed.
Lemma heap_inv_lock s l L G C : heap_inv s L G C → heap_inv (put_lock l s) L G C.
Proof.
  intros [Hc Hl Hm]. split; [by eapply heap_core_same| |done].
  eapply clists_frame; [done|done|]. intros i k b x _ _ Hx. by exists x.
Qed.

(** * Taking an object *)

(** The heap once a free object of [a] is taken. *)
Lemma heap_core_pop s L G a o fl x i q : heap_core s L G → G !! a = Some (o :: fl) → slabs s !! a = Some x →
  small_slab (k_mem s) a x (o :: fl) i → chain (k_mem s) q fl →
  heap_core (put_slabs (<[a := set_free_count (Z.of_nat (length fl)) (set_sl_free_list q x)]> (slabs s)) s) L (<[a := fl]> G).
Proof.
  intros Hc Ha Hx Hs Hq. destruct (hc_slabs _ _ _ _ Hc a _ Ha) as (x' & Hx' & Hok). simplify_eq.
  eapply (heap_core_step hhdm s _ L L G _ a); [done|apply Hc|done|done| | |].
  - intros b l Hne. by rewrite lookup_insert_ne.
  - intros b l y Hne Hb Hy. destruct (hc_slabs _ _ _ _ Hc b _ Hb) as (y' & Hy' & Hok'). simplify_eq. split_and!; [|apply Hok'|done].
    exists (sl_next y). cbn [slabs put_slabs]. rewrite lookup_insert_ne by done. rewrite Hy. by destruct y.
  - intros l Hl. rewrite lookup_insert_eq in Hl. simplify_eq. eexists. cbn [slabs put_slabs]. rewrite lookup_insert_eq. split; [done|]. split.
    + destruct Hok as [H1 H2 H3 _]. split; [done|done|done|]. left. exists i. destruct Hs as [? ? ? ? _ _ Hnd Hob]. split; try done.
      * by apply NoDup_cons in Hnd as [_ ?].
      * intros o' Ho'. apply Hob. by right.
    + intros b l' y Hne Hb Hy. simpl. by eapply (hc_disj _ _ _ _ Hc).
Qed.

Lemma wp_take_object s L G C i l a o fl x (Q : Z → kheap → Prop) :
  heap_inv s L G C → kheap_lock s = held me → C !! i = Some l → a ∈ l → G !! a = Some (o :: fl) → slabs s !! a = Some x →
  (∀ s' C', heap_inv s' L (<[a := fl]> G) C' → kheap_lock s' = unlocked → k_mem s' = k_mem s → k_pmm s' = k_pmm s →
     same_static (slabs s) (slabs s') → Q o s') →
  wp (take_object me (Z.of_nat i) a) Q s.
Proof.
  intros HI Hlk Hi Hal Ha Hx HQ. pose proof HI as [Hc Hl Hm]. pose proof (cache_list_bound _ _ _ _ _ _ HI Hi) as Hlen.
  destruct (hc_slabs _ _ _ _ Hc a _ Ha) as (x' & Hx' & Hok). simplify_eq.
  destruct (slab_addr _ _ _ _ _ _ _ Hc Hok) as (_ & _ & _ & Hge & _).
  destruct (so_kind _ _ _ _ _ Hok) as [[j Hs]|(_ & _ & ? & _)]; [|done].
  pose proof (free_bound _ _ _ _ _ Hs) as Hfb. cbn [length] in Hfb.
  assert (j = i) as ->.
  { apply (Hm i l a Hi) in Hal as (? & x' & _ & Hx'' & Hci & _). simplify_eq. destruct (ss_index _ _ _ _ _ Hs). lia. }
  assert (∀ o', o' ∈ o :: fl → 4096 ≤ o') as Hbig.
  { intros o' Ho'. destruct (object_range _ _ _ _ _ o' Hs) as (? & _); [by apply (ss_objs _ _ _ _ _ Hs)|]. unfold sizeof_slab, PAGE_SIZE in *. lia. }
  pose proof (ss_chain _ _ _ _ _ Hs) as Hch. simpl in Hch. destruct Hch as (Hfl & q & Hq & Hch).
  unfold take_object. apply wp_bind. eapply wp_slab_load; [done|]. rewrite Hfl.
  rewrite (proj2 (Z.ltb_ge _ _)) by (apply Hbig; left). apply wp_bind, wp_zoom. eapply wp_load_ptr; [exact Hq|].
  replace (put_mem (k_mem s) s) with s by (by destruct s). apply wp_bind. eapply wp_slab_store; [done|].
  assert (negb (q =? 0) && (q <? 4096) = false) as ->.
  { destruct fl as [|o' fl]; simpl in Hch; [by subst|]. destruct Hch as (-> & _). rewrite (proj2 (Z.ltb_ge o' _)) by (apply Hbig; right; left).
    apply andb_false_r. }
  apply wp_bind, wp_ret, wp_bind. eapply wp_slab_store; [apply lookup_insert_eq|]. apply wp_bind.
  cbn [slabs put_slabs free_count set_sl_free_list]. rewrite insert_insert_eq, (ss_count _ _ _ _ _ Hs). cbn [length].
  rewrite (proj2 (Z.gtb_lt _ 0)) by lia. replace (Z.of_nat (S (length fl)) - 1) with (Z.of_nat (length fl)) by lia. rewrite u16_id by lia.
  eapply wp_slab_load; [apply lookup_insert_eq|]. cbn [free_count set_free_count].
  set (x1 := set_free_count _ _). change (put_slabs _ (put_slabs _ s)) with (put_slabs (<[a := x1]> (slabs s)) s).
  set (s1 := put_slabs _ s). assert (heap_core s1 L (<[a := fl]> G)) as Hc1 by (by eapply heap_core_pop).
  assert (same_static (slabs s) (slabs s1)) as Hst.
  { intros b. cbn [slabs put_slabs s1]. destruct (decide (a = b)) as [<-|]; [by rewrite lookup_insert_eq, Hx|by rewrite lookup_insert_ne]. }
  assert (clists s1 C) as Hl1.
  { eapply clists_frame; [done|done|]. intros k l' b y _ _ Hy. cbn [slabs put_slabs s1].
    destruct (decide (a = b)) as [<-|]; [rewrite lookup_insert_eq; simplify_eq; eauto|rewrite lookup_insert_ne by done; eauto]. }
  apply wp_bind. destruct fl as [|o' fl].
  - change (Z.of_nat (length []) =? 0) with true. unfold when. cbv iota. apply list_elem_of_split in Hal as (l1 & l2 & ->).
    eapply wp_cache_remove; [exact Hl1|exact Hi|lia|]. intros s2 Hl2 (Hp2 & Hm2 & Hk2 & Hn2).
    apply wp_bind, wp_unlock_heap; [by rewrite Hk2|]. apply wp_ret. eapply HQ; [apply heap_inv_lock; split; [|exact Hl2|]|done| |done|].
    + by eapply heap_core_same.
    + eapply (members_pop_last s); [done|done|done|]. eapply same_static_trans; [exact Hst|by apply next_only_static].
    + done.
    + eapply same_static_trans; [exact Hst|by apply next_only_static].
  - apply wp_ret, wp_bind, wp_unlock_heap; [done|]. apply wp_ret. eapply HQ; [apply heap_inv_lock; split; [done|exact Hl1|]|done..].
    eapply (members_pop s s1 G C a i l x1); [done|done|done|done|apply lookup_insert_eq|apply (ss_index _ _ _ _ _ Hs)|done|done].
Qed.

(** * Pages *)

Lemma page_virt d i : 0 < mem_map d → 0 ≤ i ≤ max_pfn d → 0 ≤ hhdm → hhdm + PAGE_SIZE * (max_pfn d + 1) < 2 ^ 64 →
  PHYS_TO_VIRT hhdm (pfn_db_page_to_phys d (page_at d i)) = hhdm + PAGE_SIZE * i.
Proof.
  intros Hm Hi H0 H64. unfold pfn_db_page_to_phys, page_at, sizeof_page, PHYS_TO_VIRT.
  rewrite !(proj2 (Z.eqb_neq _ 0)) by lia. rewrite Z.gtb_ltb, !(proj2 (Z.ltb_ge _ _)) by lia. simpl.
  replace (mem_map d + 64 * i - mem_map d) with (i * 64) by lia. rewrite Z.div_mul by lia.
  unfold PAGE_SIZE in *. rewrite !u64_id by (rewrite ?u64_id; lia). lia.
Qed.
Lemma virt_page s L G i : heap_core s L G → 0 ≤ i ≤ max_pfn (kdb s) →
  pfn_db_phys_to_page (kdb s) (VIRT_TO_PHYS hhdm (hhdm + PAGE_SIZE * i)) = page_at (kdb s) i.
Proof.
  intros Hc Hi. destruct (hc_hhdm _ _ _ _ Hc) as (_ & H0 & H64 & _). unfold pfn_db_phys_to_page, VIRT_TO_PHYS, PAGE_SIZE in *.
  rewrite u64_id by lia. replace (hhdm + 4096 * i - hhdm) with (i * 4096) by lia. rewrite Z.div_mul by lia.
  rewrite Z.gtb_ltb, (proj2 (Z.ltb_ge _ _)) by lia. done.
Qed.
Lemma pfn_of_page i : pfn_of hhdm (hhdm + PAGE_SIZE * i) = i.
Proof. unfold pfn_of. replace (hhdm + PAGE_SIZE * i - hhdm) with (i * PAGE_SIZE) by lia. by apply Z.div_mul. Qed.
Lemma page_mod16 i : hhdm mod PAGE_SIZE = 0 → (hhdm + PAGE_SIZE * i + sizeof_slab) mod 16 = 0.
Proof.
  intros Hh. apply Z.div_exact in Hh; [|done]. unfold PAGE_SIZE, sizeof_slab in *. rewrite Hh.
  replace (4096 * (hhdm / 4096) + 4096 * i + 32) with ((256 * (hhdm / 4096) + 256 * i + 2) * 16) by lia. by apply Z.mod_mul.
Qed.
(** A free page has a number. *)
Lemma free_page s L G pg : heap_core s L G → pg ∈ L → ∃ i, 0 ≤ i ≤ max_pfn (kdb s) ∧ pg = page_at (kdb s) i.
Proof.
  intros Hc Hin. destruct (hc_pmm _ _ _ _ Hc) as [[[Hm Hx Ht Hd] Hlk Hp Hn] _]. destruct (linked_in _ _ _ _ Hlk Hin) as [d Hxd].
  apply Hd. by apply elem_of_dom_2 in Hxd.
Qed.

(** Pages that are free are not a slab's. *)
Lemma fresh_apart s L G i n b fl y : heap_core s L G → (∀ j, 0 ≤ j < n → page_at (kdb s) (i + j) ∈ L) → 1 ≤ n →
  G !! b = Some fl → slabs s !! b = Some y →
  hhdm + PAGE_SIZE * i + PAGE_SIZE * n ≤ b ∨ b + PAGE_SIZE * npages y ≤ hhdm + PAGE_SIZE * i.
Proof.
  intros Hc Hfree Hn Hb Hy. destruct (hc_slabs _ _ _ _ Hc b fl Hb) as (y' & Hy' & Hok). simplify_eq.
  destruct (slab_addr _ _ _ _ _ _ _ Hc Hok) as (Hba & _). pose proof (slab_npages _ _ _ _ _ Hok) as Hn'.
  set (k := pfn_of hhdm b) in *. destruct (decide (i + n ≤ k)) as [|H1]; [left; unfold PAGE_SIZE in *; lia|].
  destruct (decide (k + npages y ≤ i)) as [|H2]; [right; unfold PAGE_SIZE in *; lia|]. exfalso.
  assert (page_at (kdb s) (Z.max i k) ∈ L) as Hin.
  { replace (Z.max i k) with (i + (Z.max i k - i)) by lia. apply Hfree. lia. }
  replace (Z.max i k) with (k + (Z.max i k - k)) in Hin by lia.
  by eapply (owned_not_free _ _ k (npages y) (Z.max i k - k) (hc_pmm _ _ _ _ Hc)); [apply Hok|lia|].
Qed.
Lemma fresh_not_slab s L G i : heap_core s L G → page_at (kdb s) i ∈ L → G !! (hhdm + PAGE_SIZE * i) = None.
Proof.
  intros Hc Hin. destruct (G !! (hhdm + PAGE_SIZE * i)) as [fl|] eqn:Ha; [|done]. exfalso.
  destruct (hc_slabs _ _ _ _ Hc _ _ Ha) as (y & Hy & Hok). pose proof (slab_npages _ _ _ _ _ Hok).
  destruct (fresh_apart s L G i 1 (hhdm + PAGE_SIZE * i) fl y Hc); [|done|done|done|unfold PAGE_SIZE in *; lia..].
  intros j Hj. by replace (i + j) with i by lia.
Qed.

(** * Making a slab *)

(** The objects [0 .. n - 1] of a slab, the last first. *)
Definition objects_rev (a sz : Z) (n : Z) : list Z := reverse ((λ k, a + sizeof_slab + k * sz) <$> seqZ 0 n).
Lemma objects_rev_snoc a sz n : 0 ≤ n → objects_rev a sz (n + 1) = (a + sizeof_slab + n * sz) :: objects_rev a sz n.
Proof.
  intros Hn. unfold objects_rev. rewrite seqZ_app by lia. rewrite fmap_app, reverse_app. rewrite (seqZ_cons (0 + n)), seqZ_nil by lia.
  done.
Qed.
Lemma rewritten_trans m m1 m2 a n b k : rewritten m a n m1 → rewritten m1 b k m2 → a ≤ b → b + k ≤ a + n → rewritten m a n m2.
Proof. intros [H1 H2] [H3 H4] ? ?. split; [intros z Hz; rewrite H3, H1 by lia; done|]. intros z. by rewrite H4, H2. Qed.
Lemma mapped_rewritten m m' a n b k : rewritten m b k m' → mapped m a n → mapped m' a n.
Proof. intros [_ H] Hm j Hj. apply H. by apply Hm. Qed.

Lemma wp_link_objects s a x sz n (Q : unit → kheap → Prop) :
  slabs s !! a = Some x → sl_free_list x = 0 → 0 < a → a + PAGE_SIZE < 2 ^ 64 → 8 ≤ sz → 0 ≤ n → sizeof_slab + n * sz ≤ PAGE_SIZE →
  mapped (k_mem s) a PAGE_SIZE →
  (∀ m p, chain m p (objects_rev a sz n) → rewritten (k_mem s) a PAGE_SIZE m →
     Q tt (put_mem m (put_slabs (<[a := set_sl_free_list p x]> (slabs s)) s))) →
  wp (for_n 0 (Z.to_nat n) (link_object a (a + sizeof_slab) sz)) Q s.
Proof.
  intros Hx H0 Ha H64 Hsz Hn Hfit Hm HQ.
  apply (wp_for_n (λ k s', ∃ m p, 0 ≤ p < 2 ^ 64 ∧ chain m p (objects_rev a sz k) ∧ rewritten (k_mem s) a PAGE_SIZE m ∧
    s' = put_mem m (put_slabs (<[a := set_sl_free_list p x]> (slabs s)) s))).
  - exists (k_mem s), 0. split; [done|]. split; [done|]. split; [done|]. destruct s as [p m sl c lk]. cbn in *.
    unfold put_mem, put_slabs. cbn. f_equal. rewrite insert_id; [done|]. rewrite Hx. f_equal. destruct x. cbn in *. by subst.
  - intros k s' Hk (m & p & Hp & Hch & Hr & ->). unfold link_object. apply wp_bind. eapply wp_slab_load; [apply lookup_insert_eq|].
    assert ((k + 1) * sz ≤ n * sz) by (apply Z.mul_le_mono_nonneg_r; lia). assert (0 ≤ k * sz) by (apply Z.mul_nonneg_nonneg; lia).
    unfold sizeof_slab, PAGE_SIZE in *. rewrite u64_id by lia. apply wp_bind, wp_zoom. cbn [k_mem put_mem put_slabs sl_free_list set_sl_free_list].
    apply wp_store_ptr; [done| |].
    { intros j Hj. destruct Hr as [_ Hr]. apply Hr. replace (a + 32 + k * sz + j) with (a + (32 + k * sz + j)) by lia. apply Hm. lia. }
    intros m' Hpt Hr'. eapply wp_slab_store; [apply lookup_insert_eq|]. exists m', (a + 32 + k * sz). split; [lia|]. split_and!.
    + rewrite objects_rev_snoc by lia. unfold sizeof_slab. split; [done|]. exists p. split; [done|].
      eapply free_chain_frame; [|exact Hch]. intros o z Ho Hz. apply (proj1 Hr'). left.
      unfold objects_rev in Ho. rewrite elem_of_reverse, list_elem_of_fmap in Ho. destruct Ho as (j & -> & Hj%elem_of_seqZ).
      assert ((j + 1) * sz ≤ k * sz) by (apply Z.mul_le_mono_nonneg_r; lia). unfold sizeof_slab in *. lia.
    + eapply rewritten_trans; [exact Hr|exact Hr'|lia|lia].
    + unfold put_mem, put_slabs. cbn. by rewrite insert_insert_eq.
  - intros s' (m & p & _ & Hch & Hr & ->). rewrite Z.add_0_l, Z2Nat.id in Hch by done. by apply HQ.
Qed.

(** A slab that was made: all its objects are free. *)
Record new_slab s (pg : Z) G s' (a : Z) x fl (i : nat) : Prop := {
  ns_addr : ∃ k, 0 ≤ k ≤ max_pfn (kdb s) ∧ pg = page_at (kdb s) k ∧ a = hhdm + PAGE_SIZE * k;
  ns_slabs : slabs s' = <[a := x]> (slabs s);
  ns_rest : caches s' = caches s ∧ kheap_lock s' = kheap_lock s;
  ns_magic : magic x = SLAB_MAGIC;
  ns_small : small_slab (k_mem s') a x fl i;
  ns_full : ∀ o, is_object a x o → o ∈ fl;
  ns_mem : rewritten (k_mem s) a PAGE_SIZE (k_mem s');
}.
Lemma elem_of_objects_rev a sz n o : o ∈ objects_rev a sz n ↔ ∃ k, 0 ≤ k < n ∧ o = a + sizeof_slab + k * sz.
Proof.
  unfold objects_rev. rewrite elem_of_reverse, list_elem_of_fmap. setoid_rewrite elem_of_seqZ.
  split; intros (k & H1 & H2); exists k; split; try done; lia.
Qed.
Lemma new_small m a p (i : nat) : (i < 8)%nat → let n := 4064 / size_of i in chain m p (objects_rev a (size_of i) n) →
  small_slab m a (mkSlab 0 p SLAB_MAGIC (size_of i) n n (Z.of_nat i) 1) (objects_rev a (size_of i) n) i.
Proof.
  intros Hi n Hch. destruct (size_of_facts i Hi) as (Hsz & _ & Hcap & _). fold n in Hcap. split; try done; cbn.
  - unfold objects_rev. rewrite length_reverse, length_fmap, length_seqZ. lia.
  - eapply NoDup_perm; [symmetry; apply reverse_Permutation|]. apply NoDup_fmap_2_strong; [|apply NoDup_seqZ]. intros k k' _ _ Hk. apply (Z.mul_reg_r _ _ (size_of i)); lia.
  - intros o Ho. by apply elem_of_objects_rev in Ho.
Qed.
Lemma wp_memset_page m a n (Q : Z → mem → Prop) : 0 ≤ n → mapped m a n → (∀ m', rewritten m a n m' → Q a m') → wp (memset a 0 n) Q m.
Proof.
  intros Hn Hm HQ. apply wp_memset; [done|done|]. intros m' Hm'. apply HQ. split; intros z.
  - intros Hz. rewrite Hm', decide_False by lia. done.
  - rewrite Hm'. case_decide as Hz; [|done]. split; [|by eauto]. intros _. replace z with (a + (z - a)) by lia. apply Hm. lia.
Qed.

Lemma wp_slab_create s L G (i : nat) (Q : Z → kheap → Prop) : heap_core s L G → (i < 8)%nat →
  (L = [] → Q 0 s) →
  (∀ pg L' s' a x fl, L = pg :: L' → pmm_inv (k_pmm s') L' → pmm_frame [pg] (k_pmm s) (k_pmm s') →
     owned (k_pmm s') (pfn_of hhdm a) 1 → new_slab s pg G s' a x fl i → Q a s') →
  wp (slab_create me hhdm (size_of i) (Z.of_nat i)) Q s.
Proof.
  intros Hc Hi Hnone Hsome. destruct (size_of_facts i Hi) as (Hsz & _ & Hcap & Hfit). unfold slab_create.
  destruct (hc_hhdm _ _ _ _ Hc) as (Hh & H0 & H64 & Hmx).
  apply wp_bind, wp_zoom. eapply (wp_pmm_alloc_page me _ L); [apply Hc| |].
  { intros HL. simpl. apply wp_ret. replace (put_pmm (k_pmm s) s) with s by (by destruct s). auto. }
  intros pg L' d p' HL HI' Hf Hd Hd'. destruct (free_page _ _ _ pg Hc) as (k & Hk & Hpg); [rewrite HL; left|].
  rewrite (proj2 (Z.eqb_neq pg 0)) by (eapply pmm_page_nonzero; [apply Hc|exact Hd]).
  apply wp_bind, wp_gets. cbn [k_pmm put_pmm]. pose proof (pf_static _ _ _ Hf) as (Hmm & Hmp & _).
  assert (0 < mem_map (kdb s)) as Hmap by (apply (hc_pmm _ _ _ _ Hc)). fold (kdb s) in Hmm, Hmp.
  assert (PHYS_TO_VIRT hhdm (pfn_db_page_to_phys (pm_db p') pg) = hhdm + PAGE_SIZE * k) as ->.
  { rewrite Hpg. replace (page_at (kdb s) k) with (page_at (pm_db p') k) by (unfold page_at; by rewrite Hmm).
    apply page_virt; rewrite ?Hmm, ?Hmp; unfold PAGE_SIZE in *; lia. }
  set (a := hhdm + PAGE_SIZE * k) in *. assert (4096 ≤ a ∧ a + 4096 < 2 ^ 64) as [Ha1 Ha2] by (unfold a, PAGE_SIZE in *; lia).
  assert (mapped (k_mem s) a PAGE_SIZE) as Hmap'.
  { intros j Hj. unfold a. rewrite <-Z.add_assoc. apply (hc_mem _ _ _ _ Hc). unfold PAGE_SIZE in *. lia. }
  apply wp_bind, wp_zoom. apply wp_memset_page; [done|done|]. intros m1 Hr1. apply wp_bind, wp_modify.
  rewrite (u64_id (a + sizeof_slab)) by (unfold sizeof_slab; lia). rewrite align_up16.
  2:{ by apply page_mod16. }
  2:{ unfold sizeof_slab; lia. }
  2:{ unfold sizeof_slab; lia. }
  rewrite (u64_id (a + PAGE_SIZE)) by (unfold PAGE_SIZE; lia). rewrite Z.geb_leb, (proj2 (Z.leb_gt _ _)) by (unfold sizeof_slab, PAGE_SIZE; lia).
  replace (a + PAGE_SIZE - (a + sizeof_slab)) with 4064 by (unfold sizeof_slab, PAGE_SIZE; lia). rewrite u16_id by lia.
  rewrite (proj2 (Z.eqb_neq _ 0)) by lia. cbn [slabs put_slabs put_mem put_pmm].
  apply wp_bind. eapply wp_slab_store; [apply lookup_insert_eq|]. apply wp_bind. eapply wp_slab_store; [apply lookup_insert_eq|].
  apply wp_bind. eapply wp_slab_store; [apply lookup_insert_eq|]. cbn [slabs put_slabs put_mem put_pmm]. rewrite !insert_insert_eq.
  unfold set_capacity, set_free_count, set_sl_free_list. cbn. apply wp_bind.
  eapply (wp_link_objects _ a); [apply lookup_insert_eq|done|lia|done|lia|lia|unfold sizeof_slab, PAGE_SIZE; lia|by eapply mapped_rewritten|].
  intros m p Hch Hr. cbn in Hch, Hr |- *. unfold put_mem, put_slabs, put_pmm. cbn. rewrite insert_insert_eq. apply wp_ret.
  eapply (Hsome pg L' _ a); [done|done|done| |].
  - unfold a. rewrite pfn_of_page. intros j Hj. replace (k + j) with k by lia. eexists. cbn. unfold page_at. rewrite Hmm. fold (page_at (kdb s) k).
    rewrite <-Hpg. split; [exact Hd'|]. split; [done|]. unfold is_page_reserved, alloc_flags. cbn. by flag_simp.
  - split; cbn; [by exists k|done|done|done|by apply new_small|intros o Ho; by apply elem_of_objects_rev|].
    eapply rewritten_trans; [exact Hr1|exact Hr|lia|lia].
Qed.
End ops.
