(* ===== verification/KheapAlloc.v ===== *)
(** Allocating and freeing: what the calls of the kernel heap do to its blocks. *)
From S2P Require Import Prelude Sync DList Pmm PmmSpec Strings StringsSpec Kheap KheapSpec KheapInv KheapOps.

Section alloc.
Context (me hhdm : Z).
Notation heap_core := (heap_core hhdm).
Notation heap_inv := (heap_inv hhdm).
Notation slab_ok := (slab_ok hhdm).
Notation kept := (kept hhdm).
Implicit Types (s : kheap) (G : gmap Z (list Z)) (C : list (list Z)) (L fl : list Z) (x y : slab_t).

(** * New slabs *)

(** The slab [a] of [n] pages that were free joins the heap. *)
Lemma heap_core_grow s s' L L' P G a x fl k n : heap_core s L G → pmm_inv (k_pmm s') L' → pmm_frame P (k_pmm s) (k_pmm s') →
  (∀ b, b ∈ P → b ∈ L) → (∀ j, 0 ≤ j < n → page_at (kdb s) (k + j) ∈ L) → 1 ≤ n → a = hhdm + PAGE_SIZE * k →
  slabs s' = <[a := x]> (slabs s) → npages x = n → rewritten (k_mem s) a (PAGE_SIZE * n) (k_mem s') → slab_ok s' a x fl →
  heap_core s' L' (<[a := fl]> G) ∧ G !! a = None ∧ ∀ b fl' y, G !! b = Some fl' → slabs s !! b = Some y → b ≠ a ∧ kept s s' b y.
Proof.
  intros Hc HI' Hf HP Hfree Hn Ha Hsl Hnp Hr Hok.
  assert (G !! a = None) as HGa.
  { rewrite Ha. apply (fresh_not_slab hhdm s L); [done|]. specialize (Hfree 0 ltac:(lia)). by rewrite Z.add_0_r in Hfree. }
  assert (∀ b fl' y, G !! b = Some fl' → slabs s !! b = Some y → b ≠ a ∧ kept s s' b y) as Hkeep.
  { intros b fl' y Hb Hy. assert (b ≠ a) as Hne by congruence. split; [done|].
    destruct (hc_slabs _ _ _ _ Hc b fl' Hb) as (y' & Hy' & Hok'). rewrite Hy in Hy'. apply (inj Some) in Hy' as <-. split_and!.
    - exists (sl_next y). rewrite Hsl, lookup_insert_ne by done. rewrite Hy. by destruct y.
    - eapply owned_frame; [apply Hc|exact Hf|apply Hok'|]. intros j Hj Hin. apply HP in Hin. revert Hin.
      by eapply owned_not_free; [apply Hc|apply Hok'|].
    - intros z Hz. apply (proj1 Hr). destruct (fresh_apart _ _ _ _ k n b fl' y Hc Hfree Hn Hb Hy); lia. }
  split; [|done]. pose proof (pf_static _ _ _ Hf) as (_ & Hmx & _).
  eapply (heap_core_step hhdm s s' L L' G _ a); [done|done|exact Hmx|apply Hr| | |].
  - intros b l Hne. by rewrite lookup_insert_ne.
  - intros b l y Hne Hb Hy. by destruct (Hkeep b l y Hb Hy).
  - intros l Hl. rewrite lookup_insert_eq in Hl. apply (inj Some) in Hl as <-. exists x. rewrite Hsl, lookup_insert_eq. split_and!; [done|done|].
    intros b l' y Hne Hb Hy. destruct (fresh_apart _ _ _ _ k n b l' y Hc Hfree Hn Hb Hy); rewrite Hnp; [left|right]; lia.
Qed.

(** * Blocks of a slab that changes *)

Lemma kept_static s s' b x : kept s s' b x → slabs s !! b = Some x → static <$> slabs s' !! b = static <$> slabs s !! b.
Proof. intros ([v Hv] & _) Hx. by rewrite Hv, Hx. Qed.
Lemma kept_mem s s' L G p n z : heap_core s L G → (∀ b fl y, G !! b = Some fl → slabs s !! b = Some y → kept s s' b y) →
  block (slabs s) G p n → p ≤ z < p + n → k_mem s' !! z = k_mem s !! z.
Proof.
  intros Hc Hk Hb Hz. destruct (block_slab _ _ _ _ _ _ Hc Hb) as (a & fl & x & Ha & Hx & _ & _ & [? ? _ _ _]).
  destruct (Hk a fl x Ha Hx) as (_ & _ & Hm). apply Hm. unfold sizeof_slab in *. lia.
Qed.

(** A free object is no block. *)
Lemma free_not_block s L G a fl x i o n : heap_core s L G → G !! a = Some fl → slabs s !! a = Some x →
  small_slab (k_mem s) a x fl i → o ∈ fl → ¬ block (slabs s) G o n.
Proof.
  intros Hc Ha Hx Hs Ho Hb. destruct (block_slab _ _ _ _ _ _ Hc Hb) as (b & fl' & y & Hb' & Hy & Hok & Hbi & [? ? _ _ [? _]]).
  destruct (object_range _ _ _ _ _ _ Hs (ss_objs _ _ _ _ _ Hs o Ho)) as (? & ? & _).
  pose proof (ss_pages _ _ _ _ _ Hs) as Hnp. pose proof (ss_size _ _ _ _ _ Hs) as Hsz.
  destruct (size_of_facts i) as (? & _); [apply (ss_index _ _ _ _ _ Hs)|].
  destruct (decide (a = b)) as [<-|Hne].
  - simplify_eq. unfold block_in in Hbi. rewrite decide_False in Hbi by (by eapply small_not_big). by destruct Hbi as (_ & ? & _).
  - apply (slab_apart hhdm s L G a b fl fl' x y o Hc Ha Hb' Hx Hy Hne); rewrite ?Hnp; unfold sizeof_slab, PAGE_SIZE in *; lia.
Qed.

Lemma block_pop sl sl' G a o fl x m i p n : G !! a = Some (o :: fl) → sl !! a = Some x → small_slab m a x (o :: fl) i →
  same_static sl sl' → block sl' (<[a := fl]> G) p n ↔ block sl G p n ∨ (p = o ∧ n = object_size x).
Proof.
  intros Ha Hx Hs Hst. rewrite (block_split sl' _ a), (block_split sl _ a).
  rewrite (block_else_same sl sl' G (<[a := fl]> G) a); [|intros b Hne; by rewrite lookup_insert_ne|by intros b _ _; apply Hst].
  pose proof (small_not_big _ _ _ _ _ Hs) as Hnb. pose proof (ss_nodup _ _ _ _ _ Hs) as [Hno _]%NoDup_cons.
  assert (block_here sl' (<[a := fl]> G) a p n ↔ block_here sl G a p n ∨ (p = o ∧ n = object_size x)) as ->; [|tauto].
  pose proof (Hst a) as Hsta. rewrite Hx in Hsta. destruct (sl' !! a) as [x'|] eqn:Hx'; [|done]. apply (inj Some) in Hsta.
  unfold block_here. rewrite lookup_insert_eq, Ha, Hx, Hx'. split.
  - intros (fl' & y & [= <-] & [= <-] & Hb%(block_in_static _ _ _ x)); [|done]. unfold block_in in *. rewrite decide_False in Hb by done.
    destruct Hb as (Ho & Hn & ->). destruct (decide (p = o)) as [->|]; [by right|left]. exists (o :: fl), x. rewrite decide_False by done.
    split_and!; try done. by intros [?|?]%elem_of_cons.
  - intros Hb. exists fl, x'. split_and!; [done|done|]. apply (block_in_static _ _ x); [done|]. unfold block_in. rewrite decide_False by done.
    destruct Hb as [(fl' & y & [= <-] & [= <-] & Hb)|(-> & ->)].
    + unfold block_in in Hb. rewrite decide_False in Hb by done. destruct Hb as (? & Hn & ->). split_and!; [done|set_solver|done].
    + split_and!; [|done|done]. apply (ss_objs _ _ _ _ _ Hs). left.
Qed.
(** A slab comes. *)
Lemma block_join sl sl' G a fl x p n : (∀ b, b ≠ a → is_Some (G !! b) → static <$> sl' !! b = static <$> sl !! b) →
  G !! a = None → sl' !! a = Some x → block sl' (<[a := fl]> G) p n ↔ block sl G p n ∨ block_in a fl x p n.
Proof.
  intros Hst Ha Hx. rewrite (block_split sl' _ a), (block_split sl _ a).
  rewrite (block_else_same sl sl' G (<[a := fl]> G) a); [|intros b Hne; by rewrite lookup_insert_ne|done].
  unfold block_here. rewrite lookup_insert_eq, Ha, Hx. naive_solver.
Qed.
(** A slab goes. *)
Lemma block_leave sl sl' G a fl x p n : (∀ b, b ≠ a → is_Some (G !! b) → static <$> sl' !! b = static <$> sl !! b) →
  G !! a = Some fl → sl !! a = Some x → block sl G p n ↔ block sl' (delete a G) p n ∨ block_in a fl x p n.
Proof.
  intros Hst Ha Hx. rewrite (block_split sl' _ a), (block_split sl _ a).
  rewrite (block_else_same sl sl' G (delete a G) a); [|intros b Hne; by rewrite lookup_delete_ne|done].
  unfold block_here. rewrite lookup_delete_eq, Ha, Hx. naive_solver.
Qed.

(** * Allocating *)

(** [r], of [n] bytes of which [k] are recorded, has become a block; the others
    keep their contents and the sizes recorded. *)
Definition allocated s G s' (r n k : Z) : Prop :=
  kheap_lock s' = unlocked ∧ (∀ m, ¬ block (slabs s) G r m) ∧
  (∀ p m z, block (slabs s) G p m → p ≤ z < p + m → k_mem s' !! z = k_mem s !! z) ∧
  rec_size (slabs s') r = Some k ∧ (∀ p m, block (slabs s) G p m → rec_size (slabs s') p = rec_size (slabs s) p) ∧
  ∃ L' G' C', heap_inv s' L' G' C' ∧ ∀ p m, block (slabs s') G' p m ↔ block (slabs s) G p m ∨ (p = r ∧ m = n).

Lemma wp_take_first s L G C i l a l' (Q : Z → kheap → Prop) : heap_inv s L G C → kheap_lock s = held me → C !! i = Some l → l = a :: l' →
  (∀ r s', r ≠ 0 → allocated s G s' r (size_of i) (size_of i) → k_pmm s' = k_pmm s → Q r s') → wp (take_object me (Z.of_nat i) a) Q s.
Proof.
  intros HI Hlk Hi -> HQ. pose proof HI as [Hc Hl Hm].
  destruct (proj1 (Hm i _ a Hi)) as (fl & x & Ha & Hx & Hci & Hfl); [left|]. destruct fl as [|o fl]; [done|].
  destruct (hc_slabs _ _ _ _ Hc a _ Ha) as (x' & Hx' & Hok). simplify_eq.
  destruct (so_kind _ _ _ _ _ Hok) as [[j Hs]|(_ & _ & ? & _)]; [|done].
  assert (j = i) as -> by (destruct (ss_index _ _ _ _ _ Hs); lia).
  eapply (wp_take_object me hhdm s L G C i _ a o fl x); [done|done|done|left|done|done|]. intros s' C' HI' Hlk' Hm' Hp' Hst.
  destruct (object_range _ _ _ _ _ o Hs) as (? & ? & _); [apply (ss_objs _ _ _ _ _ Hs); left|].
  destruct (slab_addr _ _ _ _ _ _ _ Hc Hok) as (_ & _ & Hal & ? & _). apply HQ; [| |done].
  - unfold sizeof_slab, PAGE_SIZE in *. lia.
  - split; [done|]. split; [intros m; eapply free_not_block; [done|done|done|done|left]|]. split; [intros; by rewrite Hm'|].
    split; [|split; [intros p m _; by apply same_static_rec|]].
    { rewrite (same_static_rec (slabs s)) by done. unfold rec_size. destruct (size_of_facts i) as (? & _); [apply (ss_index _ _ _ _ _ Hs)|].
      rewrite (page_base_block a o), Hx; [simpl; by rewrite (ss_size _ _ _ _ _ Hs)|done|].
      rewrite (ss_size _ _ _ _ _ Hs) in *. unfold sizeof_slab in *. lia. }
    exists L, (<[a := fl]> G), C'. split; [done|]. intros p m. rewrite <-(ss_size _ _ _ _ _ Hs). by eapply block_pop.
Qed.

(** Taking an object of a slab that has just been made. *)
Lemma allocated_trans s G s1 G1 s' r n k : (∀ p m, block (slabs s1) G1 p m ↔ block (slabs s) G p m) →
  (∀ p m z, block (slabs s) G p m → p ≤ z < p + m → k_mem s1 !! z = k_mem s !! z) →
  (∀ p m, block (slabs s) G p m → rec_size (slabs s1) p = rec_size (slabs s) p) →
  allocated s1 G1 s' r n k → allocated s G s' r n k.
Proof.
  intros Hb Hm Hrec (H1 & H2 & H3 & Hr1 & Hr2 & L' & G' & C' & HI & H4).
  split; [done|]. split; [intros m Hx; by apply (H2 m), Hb|]. split; [|split; [done|split]].
  - intros p m z Hx Hz. rewrite (H3 p m) by (by rewrite ?Hb). by eapply Hm.
  - intros p m Hx. rewrite (Hr2 p m) by (by apply Hb). by eapply Hrec.
  - exists L', G', C'. split; [done|]. intros p m. by rewrite H4, Hb.
Qed.

Lemma wp_kmalloc_new s L G C i (Q : Z → kheap → Prop) : heap_inv s L G C → kheap_lock s = held me → C !! i = Some [] → (i < 8)%nat →
  (L = [] → Q 0 (put_lock unlocked s)) →
  (∀ r s', r ≠ 0 → allocated s G s' r (size_of i) (size_of i) → Q r s') →
  wp (slab ← slab_create me hhdm (size_of i) (Z.of_nat i);
      if slab =? 0 then unlock_heap me ;; mret 0 else cache_add_slab (Z.of_nat i) slab ;; take_object me (Z.of_nat i) slab) Q s.
Proof.
  intros HI Hlk Hi Hi8 Hnone Hsome. pose proof HI as [Hc Hl Hm]. apply wp_bind. eapply (wp_slab_create me hhdm s L G i); [done|done| |].
  { intros HL. simpl. apply wp_bind, wp_unlock_heap; [done|]. apply wp_ret. auto. }
  intros pg L' s1 a x fl HL HI1 Hf1 Hown [(k & Hk & Hpg & Ha) Hsl [Hcs Hlk1] Hmg Hsm Hfull Hr].
  destruct (hc_hhdm _ _ _ _ Hc) as (Hh & H0 & H64 & _). pose proof (pf_static _ _ _ Hf1) as (_ & Hmx & _).
  destruct (heap_core_grow s s1 L L' [pg] G a x fl k 1) as (Hc1 & HGa & Hkeep); try done.
  { intros b Hb%list_elem_of_singleton. rewrite HL, Hb. left. }
  { intros j Hj. replace (k + j) with k by lia. rewrite HL, Hpg. left. }
  { apply (ss_pages _ _ _ _ _ Hsm). }
  { split; [done| |by rewrite (ss_pages _ _ _ _ _ Hsm)|left; by exists i]. unfold kdb in *. rewrite Hmx, Ha, pfn_of_page, (ss_pages _ _ _ _ _ Hsm).
    replace (hhdm + PAGE_SIZE * k - hhdm) with (k * PAGE_SIZE) by lia. rewrite Z.mod_mul by done. unfold PAGE_SIZE. lia. }
  assert (a ≠ 0) as Ha0 by (unfold PAGE_SIZE in *; lia). rewrite (proj2 (Z.eqb_neq _ _)) by done.
  assert (∀ j l, C !! j = Some l → a ∉ l) as Hnot.
  { intros j l Hj Hin. apply (Hm j l a Hj) in Hin as (? & ? & ? & _). congruence. }
  assert (∀ b, b ≠ a → is_Some (G !! b) → static <$> slabs s1 !! b = static <$> slabs s !! b) as Hst.
  { intros b Hne _. rewrite Hsl. by rewrite lookup_insert_ne. }
  assert (fl ≠ []) as Hfl.
  { intros ->. destruct (size_of_facts i Hi8) as (_ & _ & ? & _). eapply not_elem_of_nil, Hfull. exists 0. rewrite (ss_cap _ _ _ _ _ Hsm). split; [lia|done]. }
  assert (slabs s1 !! a = Some x) as Hx1 by (rewrite Hsl; apply lookup_insert_eq).
  apply wp_bind. eapply (wp_cache_add s1 C i [] a x); [|done|done|done|done|simpl; lia|].
  { eapply clists_frame; [done|done|]. intros j l b y Hj Hb Hy. exists y. rewrite Hsl, lookup_insert_ne; [done|]. intros ->. by eapply Hnot. }
  intros s2 Hl2 (Hp2 & Hm2 & Hk2 & Hn2). assert (same_static (slabs s1) (slabs s2)) as Hst2 by (by apply next_only_static).
  destruct (next_only_lookup _ _ _ _ Hn2 Hx1) as [v Hx2].
  assert (heap_inv s2 L' (<[a := fl]> G) (<[i := [a]]> C)) as HI2.
  { split; [by eapply heap_core_same|done|]. eapply (members_step s s2 G _ C a i []); [done|done|done| | | | | |].
    - intros b Hne. by rewrite lookup_insert_ne.
    - intros b Hne Hb. rewrite Hst2. by apply Hst.
    - intros b Hne. set_solver.
    - intros j (fl' & y & _ & Hy & Hyj & _). simplify_eq. simpl in Hyj. destruct (ss_index _ _ _ _ _ Hsm). lia.
    - split; [|set_solver]. intros _. exists fl, (set_sl_next v x). rewrite lookup_insert_eq. split_and!; [done|done|apply (ss_index _ _ _ _ _ Hsm)|done].
    - intros j l _ Hj. by eapply Hnot. }
  eapply (wp_take_first s2 L' _ _ i [a] a []); [done|by rewrite Hk2, Hlk1|by apply list_lookup_insert_eq, (lookup_lt_Some _ _ _ Hi)|done|].
  intros r s' Hr0 Hal _. apply Hsome; [done|]. eapply allocated_trans; [| | |exact Hal].
  - intros p m. erewrite block_join; [|intros b Hne Hb; rewrite Hst2; by apply Hst|done|exact Hx2].
    unfold block_in. rewrite decide_False by (simpl; by eapply small_not_big). split; [|by left].
    intros [?|(Ho & Hno & _)]; [done|]. destruct Hno. by apply Hfull.
  - intros p m z Hb Hz. rewrite Hm2. eapply (kept_mem s s1 L G); [done| |done|done]. intros b fl' y Hb' Hy. by apply (Hkeep b fl' y).
  - intros p m Hb. apply same_static_rec. rewrite Hst2. pose proof (block_base _ _ _ _ _ _ Hc Hb) as [fl' HGb]. apply Hst; [|by eauto]. congruence.
Qed.

(** * Large objects *)

(** What [pmm_alloc_pages] gives: [n] consecutive pages that were free. *)
Lemma wp_alloc_run (p : pmm) L n (Q : Z → pmm → Prop) : pmm_inv p L → 1 ≤ n → max_pfn (pm_db p) + n < 2 ^ 64 →
  ((∀ i, 0 ≤ i → i + n - 1 ≤ max_pfn (pm_db p) → ¬ run_free (pm_db p) L i n) → Q 0 p) →
  (∀ i p' L' P, 0 ≤ i → i + n - 1 ≤ max_pfn (pm_db p) → run_free (pm_db p) L i n → pmm_inv p' L' → pmm_frame P p p' →
     (∀ b, b ∈ P → b ∈ L) → owned p' i n → Q (page_at (pm_db p) i) p') →
  wp (pmm_alloc_pages me n) Q p.
Proof.
  intros HI Hn Hov Hnone Hsome. assert (∀ f, is_page_reserved (mkPage 0 1 (alloc_flags f) 1) = false) as Hres.
  { intros f. unfold is_page_reserved, alloc_flags. cbn. by flag_simp. }
  destruct (decide (n = 1)) as [->|].
  - change (pmm_alloc_pages me 1) with (pmm_alloc_page me). eapply wp_pmm_alloc_page; [exact HI| |].
    + intros ->. apply Hnone. intros i _ _ Hf. specialize (Hf 0 ltac:(lia)). by apply elem_of_nil in Hf.
    + intros a L' d p' HL HI' Hf Hd Hd'. destruct HI as [[[Hm Hx Ht Hdom] Hlk Hp Hc] Hl].
      assert (a ∈ dom (pages (pm_db p))) as (i & Hi & ->)%Hdom by (by apply elem_of_dom_2 in Hd).
      eapply Hsome; [| | |exact HI'|exact Hf| |]; try lia.
      * intros j Hj. replace (i + j) with i by lia. rewrite HL. left.
      * intros b ->%list_elem_of_singleton. rewrite HL. left.
      * intros j Hj. replace (i + j) with i by lia. eexists. rewrite (page_at_frame _ _ _ _ Hf). split; [exact Hd'|]. split; [done|apply Hres].
  - eapply wp_pmm_alloc_pages; [exact HI|lia|done|done|]. intros i p' L' Hi Hmx Hfree _ [_ _ Hf Hpg _] HI'.
    eapply Hsome; [done|done|done|exact HI'|exact Hf| |].
    + intros b (j & -> & Hj%elem_of_seqZ)%list_elem_of_fmap. apply Hfree. lia.
    + intros j Hj. destruct (pmm_page_at _ _ (i + j) (proj1 HI)) as [d Hd]; [lia|]. eexists. rewrite (page_at_frame _ _ _ _ Hf).
      split; [by eapply Hpg|]. split; [done|apply Hres].
Qed.

(** The heap with a large object. *)
Lemma allocated_big s s' L L' P G C a x k n : heap_inv s L G C → pmm_inv (k_pmm s') L' → pmm_frame P (k_pmm s) (k_pmm s') →
  (∀ b, b ∈ P → b ∈ L) → (∀ j, 0 ≤ j < n → page_at (kdb s) (k + j) ∈ L) → 1 ≤ n → a = hhdm + PAGE_SIZE * k →
  slabs s' = <[a := x]> (slabs s) → caches s' = caches s → kheap_lock s' = unlocked → npages x = n → cache_index x = BIG_CACHE_INDEX →
  rewritten (k_mem s) a (PAGE_SIZE * n) (k_mem s') → slab_ok s' a x [] →
  allocated s G s' (a + sizeof_slab) (n * PAGE_SIZE - sizeof_slab) (object_size x).
Proof.
  intros HI HI' Hf HP Hfree Hn Ha Hsl Hcs Hlk Hnp Hbig Hr Hok. pose proof HI as [Hc Hl Hm].
  destruct (heap_core_grow s s' L L' P G a x [] k n) as (Hc' & HGa & Hkeep); try done.
  assert (slabs s' !! a = Some x) as Hx by (rewrite Hsl; apply lookup_insert_eq).
  assert (∀ j l, C !! j = Some l → a ∉ l) as Hnot.
  { intros j l Hj Hin. apply (Hm j l a Hj) in Hin as (? & ? & ? & _). congruence. }
  assert (∀ b, b ≠ a → is_Some (G !! b) → static <$> slabs s' !! b = static <$> slabs s !! b) as Hst.
  { intros b Hne _. rewrite Hsl. by rewrite lookup_insert_ne. }
  split; [done|]. split; [|split; [|split; [|split]]].
  - intros m Hb. destruct (block_slab _ _ _ _ _ _ Hc Hb) as (b & fl & y & Hb' & Hy & _ & _ & [? ? _ _ [? _]]).
    unfold sizeof_slab, PAGE_SIZE in *. destruct (fresh_apart _ _ _ _ k n b fl y Hc Hfree Hn Hb' Hy); unfold PAGE_SIZE in *; lia.
  - intros p m z Hb Hz. eapply (kept_mem s s' L G); [done| |done|done]. intros b fl' y Hb' Hy. by apply (Hkeep b fl' y).
  - unfold rec_size. destruct (slab_addr _ _ _ _ _ _ _ Hc' Hok) as (_ & _ & Hal & _).
    rewrite (page_base_block a (a + sizeof_slab)), Hx by (try done; unfold sizeof_slab, PAGE_SIZE; lia). done.
  - intros p m Hb. apply same_static_rec. pose proof (block_base _ _ _ _ _ _ Hc Hb) as [fl' HGb]. apply Hst; [|by eauto]. congruence.
  - exists L', (<[a := []]> G), C. split.
    + split; [done| |].
      * eapply clists_frame; [done|done|]. intros j l b y Hj Hb Hy. exists y. rewrite Hsl, lookup_insert_ne; [done|]. intros ->. by eapply Hnot.
      * destruct (lookup_lt_is_Some_2 C 0) as [l0 H0]; [rewrite (proj2 (cl_len _ _ Hl)); lia|]. rewrite <-(list_insert_id C 0 l0 H0).
        eapply (members_step s s' G _ C a 0%nat l0); [done|done|done| |done|done| | |].
        -- intros b Hne. by rewrite lookup_insert_ne.
        -- intros j (fl & y & Hfl & _ & _ & ?). rewrite lookup_insert_eq in Hfl. by simplify_eq.
        -- split; [intros Hin; by destruct (Hnot 0%nat l0)|]. intros (fl & y & Hfl & _ & _ & ?). rewrite lookup_insert_eq in Hfl. by simplify_eq.
        -- intros j l _ Hj. by eapply Hnot.
    + intros p m. rewrite (block_join (slabs s) (slabs s') G a [] x) by done. unfold block_in. rewrite decide_True by done. by rewrite Hnp.
Qed.

Lemma wp_kmalloc_big s L G C size (Q : Z → kheap → Prop) : heap_inv s L G C → kheap_lock s = held me → 0 < size < 2 ^ 63 →
  let n := (size + 48 + 4095) / 4096 in
  ((∀ i, 0 ≤ i → i + n - 1 ≤ max_pfn (kdb s) → ¬ run_free (kdb s) L i n) → Q 0 (put_lock unlocked s)) →
  (∀ r s' k o, r ≠ 0 → size ≤ k → Z.min size 0xFFFF ≤ o → allocated s G s' r k o → Q r s') →
  wp (kmalloc_big me hhdm size) Q s.
Proof.
  intros HI Hlk Hsz n Hnone Hsome. pose proof HI as [Hc Hl Hm]. destruct (hc_hhdm _ _ _ _ Hc) as (Hh & H0 & H64 & Hmx32).
  unfold kmalloc_big. assert (ALIGN_UP (u64 (sizeof_slab + KHEAP_ALIGN + size)) PAGE_SIZE / PAGE_SIZE = n) as ->.
  { unfold ALIGN_UP, DIV_ROUND_UP, sizeof_slab, KHEAP_ALIGN, PAGE_SIZE. rewrite (u64_id (32 + 16 + size)), (u64_id (_ + _)) by lia.
    replace (32 + 16 + size + (4096 - 1)) with (size + 48 + 4095) by lia. fold n.
    assert (n * 4096 ≤ size + 48 + 4095) by (unfold n; pose proof (Z.div_mod (size + 48 + 4095) 4096 ltac:(lia)); pose proof (Z.mod_pos_bound (size + 48 + 4095) 4096 ltac:(lia)); lia).
    assert (0 ≤ n) by (apply Z.div_pos; lia). rewrite u64_id by lia. by apply Z.div_mul. }
  assert (1 ≤ n ∧ n < 2 ^ 52 ∧ size + 48 ≤ n * 4096) as (Hn1 & Hn2 & Hn3).
  { unfold n. pose proof (Z.div_mod (size + 48 + 4095) 4096 ltac:(lia)). pose proof (Z.mod_pos_bound (size + 48 + 4095) 4096 ltac:(lia)). lia. }
  apply wp_bind, wp_zoom. fold (kdb s) in *. eapply (wp_alloc_run _ L); [apply Hc|done|fold (kdb s); lia| |].
  { intros Hno. simpl. apply wp_bind, wp_unlock_heap; [done|]. apply wp_ret. replace (put_pmm (k_pmm s) s) with s by (by destruct s). by apply Hnone. }
  fold (kdb s). intros k p' L' P Hk Hkmx Hfree HI' Hf HP Hown.
  assert (0 < mem_map (kdb s)) as Hmap by (apply (hc_pmm _ _ _ _ Hc)).
  rewrite (proj2 (Z.eqb_neq _ 0)) by (unfold page_at, sizeof_page; lia).
  apply wp_bind, wp_gets. cbn [k_pmm put_pmm]. pose proof (pf_static _ _ _ Hf) as (Hmm & Hmp & _). fold (kdb s) in Hmm, Hmp.
  assert (PHYS_TO_VIRT hhdm (pfn_db_page_to_phys (pm_db p') (page_at (kdb s) k)) = hhdm + PAGE_SIZE * k) as ->.
  { replace (page_at (kdb s) k) with (page_at (pm_db p') k) by (unfold page_at; by rewrite Hmm).
    apply page_virt; rewrite ?Hmm, ?Hmp; unfold PAGE_SIZE in *; lia. }
  set (a := hhdm + PAGE_SIZE * k) in *. assert (4096 ≤ a ∧ a + 4096 * n < 2 ^ 64) as [Ha1 Ha2] by (unfold a, PAGE_SIZE in *; lia).
  rewrite (u64_id (n * PAGE_SIZE)) by (unfold PAGE_SIZE; lia).
  apply wp_bind, wp_zoom. apply wp_memset_page; [unfold PAGE_SIZE; lia| |].
  { intros j Hj. cbn. unfold a. rewrite <-Z.add_assoc. apply (hc_mem _ _ _ _ Hc). unfold PAGE_SIZE in *. lia. }
  intros m1 Hr1. apply wp_bind, wp_modify. cbn in Hr1. rewrite (u64_id (a + sizeof_slab)) by (unfold sizeof_slab; lia).
  apply wp_bind, wp_unlock_heap; [done|]. apply wp_ret. unfold put_mem, put_slabs, put_pmm, put_lock. cbn.
  rewrite align_up16; [|by apply page_mod16|unfold sizeof_slab; lia|unfold sizeof_slab; lia]. rewrite u32_id by lia.
  set (x := mkSlab _ _ _ _ _ _ _ _). set (s' := mkHeap _ _ _ _ _).
  assert (slab_ok s' a x []) as Hok.
  { split; [done| |cbn; unfold a; by rewrite pfn_of_page|right].
    - unfold kdb. cbn. rewrite Hmp. unfold a. rewrite pfn_of_page. replace (hhdm + PAGE_SIZE * k - hhdm) with (k * PAGE_SIZE) by lia.
      rewrite Z.mod_mul by done. unfold PAGE_SIZE. lia.
    - split; [done|]. split; [done|]. split; [done|]. cbn. unfold sizeof_slab, PAGE_SIZE. destruct (Z.gtb_spec size 65535); lia. }
  apply (Hsome _ _ (n * PAGE_SIZE - sizeof_slab) (object_size x)); [unfold sizeof_slab; lia|unfold sizeof_slab, PAGE_SIZE; lia| |].
  { cbn. destruct (Z.gtb_spec size 65535); lia. }
  eapply (allocated_big s s' L L' P G C a x k n); try done. by rewrite Z.mul_comm in Hr1.
Qed.

Lemma put_lock_back s : kheap_lock s = unlocked → put_lock unlocked (put_lock (held me) s) = s.
Proof. intros H. destruct s. cbn in *. by subst. Qed.
Lemma put_pmm_same s : put_pmm (k_pmm s) s = s.
Proof. by destruct s. Qed.

(** When there is no memory for a request. *)
Definition no_room s L size : Prop :=
  let size := ALIGN_UP size KHEAP_ALIGN in
  if decide (size ≤ 2048) then L = []
  else let n := (size + 48 + 4095) / 4096 in ∀ i, 0 ≤ i → i + n - 1 ≤ max_pfn (kdb s) → ¬ run_free (kdb s) L i n.

Lemma wp_kmalloc s L G C size (Q : Z → kheap → Prop) : heap_inv s L G C → kheap_lock s = unlocked → 0 < size < 2 ^ 62 →
  (no_room s L size → Q 0 s) → (∀ r s' k o, r ≠ 0 → size ≤ k → Z.min size 0xFFFF ≤ o → allocated s G s' r k o → Q r s') → wp (kmalloc me hhdm size) Q s.
Proof.
  intros HI Hlk Hsz Hnone Hsome. unfold kmalloc. rewrite (proj2 (Z.eqb_neq _ _)) by lia.
  destruct (ALIGN_UP_bounds size KHEAP_ALIGN) as [Hb _]; [done|lia|unfold KHEAP_ALIGN; lia|]. unfold no_room in Hnone.
  set (size' := ALIGN_UP size KHEAP_ALIGN) in *. unfold KHEAP_ALIGN in Hb. apply wp_bind, wp_lock_heap; [done|].
  set (s0 := put_lock (held me) s). assert (heap_inv s0 L G C) as HI0 by (by apply heap_inv_lock). pose proof HI0 as [Hc0 Hl0 Hm0].
  apply wp_bind. eapply wp_cache_for_size; [exact Hl0|]. intros [i|] Hcl; simpl in Hcl.
  - destruct Hcl as (Hi & Hle & _). destruct (size_of_facts (Z.to_nat i)) as (Hszi & _); [lia|]. rewrite decide_True in Hnone by lia.
    destruct (lookup_lt_is_Some_2 C (Z.to_nat i)) as [l Hil]; [rewrite (proj2 (cl_len _ _ Hl0)); lia|].
    destruct (clists_cache _ _ _ _ Hl0 Hil) as (c & Hcc & Hcs & Hch & _). rewrite <-(Z2Nat.id i) by lia.
    apply wp_bind. eapply wp_cache_load; [exact Hcc|]. unfold slab_fuel. apply wp_bind, wp_gets. apply wp_bind.
    eapply (wp_find _ _ l); [lia|exact Hch| | |].
    + intros a x Ha Hx. apply (Hm0 _ l a Hil) in Ha as (fl & y & HGa & Hy & _ & Hne). simplify_eq.
      destruct (hc_slabs _ _ _ _ Hc0 a fl HGa) as (x' & Hx' & Hok). simplify_eq.
      destruct (so_kind _ _ _ _ _ Hok) as [[j Hs]|(_ & _ & ? & _)]; [|done]. destruct fl as [|o fl]; [done|].
      destruct (ss_chain _ _ _ _ _ Hs) as (-> & _). destruct (object_range _ _ _ _ _ o Hs) as (? & _); [apply (ss_objs _ _ _ _ _ Hs); left|].
      destruct (slab_addr _ _ _ _ _ _ _ Hc0 Hok) as (_ & _ & _ & ? & _). unfold sizeof_slab, PAGE_SIZE in *. lia.
    + intros ->. change (0 =? 0) with true. cbv iota. rewrite Hcs. eapply (wp_kmalloc_new s0 L G C (Z.to_nat i)); [done|done|done|lia| |].
      * intros HL. unfold s0. rewrite put_lock_back by done. auto.
      * intros r s' Hr Hal. apply (Hsome r s' (size_of (Z.to_nat i)) (size_of (Z.to_nat i))); [done|lia|lia|exact Hal].
    + intros a l' ->. destruct (slab_chain_in _ _ _ a Hch) as [Ha0 _]; [left|]. rewrite (proj2 (Z.eqb_neq _ _)) by done.
      eapply (wp_take_first s0 L G C (Z.to_nat i)); [done|done|done|done|]. intros r s' Hr Hal _.
      apply (Hsome r s' (size_of (Z.to_nat i)) (size_of (Z.to_nat i))); [done|lia|lia|exact Hal].
  - rewrite decide_False in Hnone by lia. eapply (wp_kmalloc_big s0 L G C size'); [done|done|lia| |].
    + intros Hno. unfold s0. rewrite put_lock_back by done. by apply Hnone.
    + intros r s' k o Hr Hk Ho Hal. apply (Hsome r s' k o); [done|lia|lia|exact Hal].
Qed.

(** * Giving pages back *)

Lemma wp_pages_release (p : pmm) L i n (Q : unit → pmm → Prop) : pmm_inv p L → owned p i n → 0 ≤ n → 0 ≤ i → i + n - 1 ≤ max_pfn (pm_db p) →
  (∀ p' L', pmm_inv p' L' → pmm_frame ((λ j, page_at (pm_db p) (i + j)) <$> seqZ 0 n) p p' → Q tt p') →
  wp (pmm_pages_release me (page_at (pm_db p) i) n) Q p.
Proof.
  intros HI Hown Hn Hi Hmx HQ. unfold pmm_pages_release.
  apply (wp_for_n (λ j p', ∃ L', pmm_inv p' L' ∧ pmm_frame ((λ j, page_at (pm_db p) (i + j)) <$> seqZ 0 j) p p')).
  - exists L. split; [done|apply pmm_frame_refl].
  - intros j p' Hj (L' & HI' & Hf). destruct (Hown j ltac:(lia)) as (d & Hd & Hr & Hv).
    assert (page_at (pm_db p) (i + j) ∉ (λ j, page_at (pm_db p) (i + j)) <$> seqZ 0 j) as Hnin.
    { intros (k & Hk & Hk'%elem_of_seqZ)%list_elem_of_fmap. apply page_at_inj in Hk. lia. }
    assert (pm_pages p' !! page_at (pm_db p) (i + j) = Some d) as Hd'.
    { apply (pf_used _ _ _ Hf); [done|done|]. destruct HI as [Hc _]. destruct (pc_pages _ _ Hc _ _ Hd) as (-> & H0 & _).
      apply bool_decide_eq_false. intros Hin. specialize (H0 Hin). lia. }
    replace (page_at (pm_db p) i + sizeof_page * j) with (page_at (pm_db p) (i + j)) by (unfold page_at, sizeof_page; lia).
    assert (∀ p2 L2, pmm_inv p2 L2 → pmm_frame [page_at (pm_db p) (i + j)] p' p2 →
      ∃ L', pmm_inv p2 L' ∧ pmm_frame ((λ j, page_at (pm_db p) (i + j)) <$> seqZ 0 (j + 1)) p p2) as Hend.
    { intros p2 L2 HI2 Hf2. exists L2. split; [done|]. eapply pmm_frame_mono; [by eapply pmm_frame_trans|].
      rewrite seqZ_app by lia. rewrite fmap_app. rewrite (seqZ_cons (0 + j)), (seqZ_nil (Z.succ (0 + j))) by lia. done. }
    eapply wp_pmm_page_release; [exact HI'|exact Hd'| | |].
    + lia.
    + intros p2 [?|[_ ?]]; [lia|congruence].
    + intros p2 d' _ _ HI2 Hf2 _ _ _. by eapply Hend.
  - intros p' (L' & HI' & Hf). eapply HQ; [exact HI'|]. by rewrite Z.add_0_l, Z2Nat.id in Hf by done.
Qed.

Lemma wp_slab_destroy s L G a fl x (Q : unit → kheap → Prop) : heap_core s L G → G !! a = Some fl → slabs s !! a = Some x →
  (∀ p' L', heap_core (put_pmm p' s) L' (delete a G) → Q tt (put_pmm p' s)) → wp (slab_destroy me hhdm a) Q s.
Proof.
  intros Hc Ha Hx HQ. destruct (hc_slabs _ _ _ _ Hc a fl Ha) as (x' & Hx' & Hok). rewrite Hx in Hx'. apply (inj Some) in Hx' as <-.
  destruct (slab_addr _ _ _ _ _ _ _ Hc Hok) as (Haddr & Hk & _ & Hge & _). pose proof (slab_npages _ _ _ _ _ Hok) as Hnp.
  pose proof (so_frame _ _ _ _ _ Hok) as (_ & _ & Hmx). set (k := pfn_of hhdm a) in *.
  unfold slab_destroy. rewrite (proj2 (Z.eqb_neq _ _)) by (unfold PAGE_SIZE in *; lia). apply wp_bind, wp_gets. fold (kdb s).
  assert (pfn_db_phys_to_page (kdb s) (VIRT_TO_PHYS hhdm a) = page_at (kdb s) k) as ->.
  { rewrite Haddr. apply (virt_page _ _ _ _ k Hc). lia. }
  assert (0 < mem_map (kdb s)) as Hmap by (apply (hc_pmm _ _ _ _ Hc)).
  rewrite (proj2 (Z.eqb_neq _ 0)) by (unfold page_at, sizeof_page; lia). apply wp_bind. eapply wp_slab_load; [exact Hx|].
  assert (wp (in_pmm (pmm_pages_release me (page_at (kdb s) k) (npages x))) Q s) as H.
  { apply wp_zoom. eapply wp_pages_release; [apply Hc|apply Hok|lia|done|done|]. intros p' L' HI' Hf. apply (HQ _ L').
    pose proof (pf_static _ _ _ Hf) as (_ & Hmp & _).
    eapply (heap_core_step hhdm s _ L L' G _ a); [done|done|done|done| | |].
    - intros b l Hne Hb. by apply lookup_delete_Some in Hb as [_ ?].
    - intros b l y Hne Hb Hy. destruct (hc_slabs _ _ _ _ Hc b l Hb) as (y' & Hy' & Hok'). rewrite Hy in Hy'. apply (inj Some) in Hy' as <-.
      split_and!; [|cbn|done]; [exists (sl_next y); cbn; rewrite Hy; by destruct y|].
      eapply owned_frame; [apply Hc|exact Hf|apply Hok'|]. intros j Hj (j' & Hj1 & Hj2%elem_of_seqZ)%list_elem_of_fmap.
      apply page_at_inj in Hj1. destruct (slab_addr _ _ _ _ _ _ _ Hc Hok') as (Hbaddr & _).
      destruct (hc_disj _ _ _ _ Hc a b fl l x y Ha Hb Hx Hy ltac:(done)); unfold PAGE_SIZE in *; lia.
    - intros l Hl. by rewrite lookup_delete_eq in Hl. }
  destruct (Z.gtb_spec (npages x) 1); [exact H|]. replace (npages x) with 1 in H by lia.
  assert (pmm_pages_release me (page_at (kdb s) k) 1 = (pmm_page_release me (page_at (kdb s) k) ;; mret tt)) as Heq.
  { unfold pmm_pages_release. simpl. by rewrite Z.mul_0_r, Z.add_0_r. }
  rewrite Heq in H. unfold in_pmm, wp, zoom, mbind, M_bind in *. by destruct (pmm_page_release me (page_at (kdb s) k) (k_pmm s)) as [[[] ?]| |].
Qed.
End alloc.
