(* ===== verification/KheapFree.v ===== *)
(** Freeing: what [kfree] does to the blocks of the kernel heap. *)
From S2P Require Import Prelude Sync DList Pmm PmmSpec Strings StringsSpec Kheap KheapSpec KheapInv KheapOps KheapAlloc.

Section free.
Context (me hhdm : Z).
Notation heap_core := (heap_core hhdm).
Notation heap_inv := (heap_inv hhdm).
Notation slab_ok := (slab_ok hhdm).
Implicit Types (s : kheap) (G : gmap Z (list Z)) (C : list (list Z)) (L fl : list Z) (x y : slab_t).

(** [p] is no block any more; the others keep their contents and recorded sizes. *)
Definition freed s G s' (p : Z) : Prop :=
  kheap_lock s' = unlocked ∧
  (∀ q m z, block (slabs s) G q m → q ≠ p → q ≤ z < q + m → k_mem s' !! z = k_mem s !! z) ∧
  (∀ q m, block (slabs s) G q m → q ≠ p → rec_size (slabs s') q = rec_size (slabs s) q) ∧
  ∃ L' G' C', heap_inv s' L' G' C' ∧ ∀ q m, block (slabs s') G' q m ↔ block (slabs s) G q m ∧ q ≠ p.

Lemma wp_destroy s L G C a fl x (Q : unit → kheap → Prop) : heap_core s L G → clists s C → members s (delete a G) C →
  G !! a = Some fl → slabs s !! a = Some x →
  (∀ p' L', heap_inv (put_pmm p' s) L' (delete a G) C → Q tt (put_pmm p' s)) → wp (slab_destroy me hhdm a) Q s.
Proof.
  intros Hc Hl Hm Ha Hx HQ. eapply wp_slab_destroy; [done|done|done|]. intros p' L' Hc'. apply (HQ p' L'). split; [done| |done].
  eapply clists_frame; [done|done|]. intros i l b y _ _ Hy. by exists y.
Qed.

(** Freeing the one block of a slab that has no other object. *)
Lemma wp_free_whole s L G C a x p n (Q : unit → kheap → Prop) : heap_inv s L G C → kheap_lock s = unlocked → G !! a = Some [] →
  slabs s !! a = Some x → block_in a [] x p n → (∀ q m, block_in a [] x q m → q = p) →
  (∀ s', freed s G s' p → Q tt s') → wp (slab_destroy me hhdm a) Q s.
Proof.
  intros [Hc Hl Hm] Hlk Ha Hx Hp Honly HQ. eapply (wp_destroy s L G C a [] x); [done|done| |done|done|].
  { intros i l b Hi. rewrite (Hm i l b Hi). split; intros (fl & y & Hb & Hr & Hci & Hne); exists fl, y; (split; [|done]).
    - apply lookup_delete_Some. split; [|done]. intros <-. congruence.
    - by apply lookup_delete_Some in Hb as [_ ?]. }
  intros p' L' HI'. apply HQ. split; [done|]. split; [done|]. split; [done|]. exists L', (delete a G), C. split; [done|]. intros q m.
  change (slabs (put_pmm p' s)) with (slabs s). rewrite (block_leave (slabs s) (slabs s) G a [] x) by done. split.
  - intros Hb. split; [by left|]. intros ->. assert (block (slabs s) G p n) as Hpn by (by exists a, [], x).
    destruct Hb as (b & fl & y & Hb & Hy & Hbi). apply lookup_delete_Some in Hb as [Hne Hb].
    assert (block (slabs s) G p m) as Hpm by (by exists b, fl, y).
    destruct (hc_slabs _ _ _ _ Hc a _ Ha) as (x' & Hx' & Hok). destruct (hc_slabs _ _ _ _ Hc b _ Hb) as (y' & Hy' & Hok'). simplify_eq.
    destruct (slab_addr _ _ _ _ _ _ _ Hc Hok) as (_ & _ & Hal & _), (slab_addr _ _ _ _ _ _ _ Hc Hok') as (_ & _ & Hal' & _).
    destruct (block_in_range _ _ _ _ _ _ _ Hok Hal Hp) as [? ? _ _ [? _]], (block_in_range _ _ _ _ _ _ _ Hok' Hal' Hbi) as [? ? _ _ [? _]].
    unfold sizeof_slab in *. eapply (slab_apart hhdm s L G a b [] fl x y p Hc Ha Hb Hx Hy ltac:(done)); lia.
  - intros [[?|Hb] Hne]; [done|]. by apply Honly in Hb.
Qed.

(** * Putting an object back *)

Lemma small_push m m' a x fl i p h : small_slab m a x fl i → is_object a x p → p ∉ fl → sl_free_list x = h → ptr_at m' p h →
  rewritten m p 8 m' →
  small_slab m' a (set_free_count (Z.of_nat (length (p :: fl))) (set_sl_free_list p x)) (p :: fl) i.
Proof.
  intros Hs Hp Hn <- Hpt Hr. pose proof (ss_index _ _ _ _ _ Hs) as [_ Hi]. destruct (size_of_facts i Hi) as (Hsz & _).
  pose proof (ss_size _ _ _ _ _ Hs) as Hos. pose proof (ss_objs _ _ _ _ _ Hs) as Hob.
  destruct Hs as [? ? ? ? _ Hch Hnd _]. split; try done.
  - split; [done|]. exists (sl_free_list x). split; [done|]. eapply free_chain_frame; [|exact Hch]. intros o z Ho Hz. apply (proj1 Hr).
    destruct (object_apart a x o p) as [?|?]; [lia|by apply Hob|done|congruence|lia|lia].
  - by apply NoDup_cons.
  - intros o [->|Ho]%elem_of_cons; [done|by apply Hob].
Qed.

(** The heap once [p] is put back into [a]; [s1] is [s] up to the lists. *)
Lemma heap_core_push s L G a fl x i p h m' : heap_core s L G → G !! a = Some fl → slabs s !! a = Some x →
  small_slab (k_mem s) a x fl i → is_object a x p → p ∉ fl → sl_free_list x = h → ptr_at m' p h → rewritten (k_mem s) p 8 m' →
  heap_core (put_slabs (<[a := set_free_count (Z.of_nat (length (p :: fl))) (set_sl_free_list p x)]> (slabs s)) (put_mem m' s)) L
    (<[a := p :: fl]> G).
Proof.
  intros Hc Ha Hx Hs Hp Hn Hh Hpt Hr. destruct (hc_slabs _ _ _ _ Hc a _ Ha) as (x' & Hx' & Hok). rewrite Hx in Hx'. apply (inj Some) in Hx' as <-.
  pose proof (ss_index _ _ _ _ _ Hs) as [_ Hi]. destruct (size_of_facts i Hi) as (Hsz & _).
  destruct (object_range _ _ _ _ _ _ Hs Hp) as (? & ? & _). pose proof (ss_size _ _ _ _ _ Hs) as Hos.
  eapply (heap_core_step hhdm s _ L L G _ a); [done|apply Hc|done|apply Hr| | |].
  - intros b l Hne. by rewrite lookup_insert_ne.
  - intros b l y Hne Hb Hy. destruct (hc_slabs _ _ _ _ Hc b _ Hb) as (y' & Hy' & Hok'). rewrite Hy in Hy'. apply (inj Some) in Hy' as <-.
    split_and!; [|apply Hok'|].
    + exists (sl_next y). cbn [slabs put_slabs put_mem]. rewrite lookup_insert_ne by done. rewrite Hy. by destruct y.
    + intros z Hz. apply (proj1 Hr). destruct (hc_disj _ _ _ _ Hc a b fl l x y Ha Hb Hx Hy ltac:(done));
        rewrite ?(ss_pages _ _ _ _ _ Hs) in *; unfold sizeof_slab, PAGE_SIZE in *; lia.
  - intros l Hl. rewrite lookup_insert_eq in Hl. apply (inj Some) in Hl as <-. eexists. cbn [slabs put_slabs]. rewrite lookup_insert_eq.
    split; [done|]. split.
    + destruct Hok as [H1 H2 H3 _]. split; [done|done|done|]. left. exists i. by eapply small_push.
    + intros b l' y Hne Hb Hy. simpl. by eapply (hc_disj _ _ _ _ Hc).
Qed.

(** A slab without free objects goes back to its cache first. *)
Lemma wp_readd s L G C i l a fl x (Q : unit → kheap → Prop) : heap_inv s L G C → C !! i = Some l → G !! a = Some fl → slabs s !! a = Some x →
  small_slab (k_mem s) a x fl i →
  (∀ s1 l', list_only s s1 → clists s1 (<[i := l']> C) → a ∈ l' → (∀ b, b ≠ a → b ∈ l' ↔ b ∈ l) → Z.of_nat (length l') < 2 ^ 32 → Q tt s1) →
  wp (when (free_count x =? 0) (cache_add_slab (Z.of_nat i) a)) Q s.
Proof.
  intros HI Hi Ha Hx Hs HQ. pose proof (cache_list_bound _ _ _ _ _ _ _ HI Hi) as Hlen. destruct HI as [Hc Hl Hm].
  rewrite (ss_count _ _ _ _ _ Hs). destruct (hc_slabs _ _ _ _ Hc a _ Ha) as (x' & Hx' & Hok). rewrite Hx in Hx'. apply (inj Some) in Hx' as <-.
  destruct fl as [|o fl]; simpl length.
  - assert (∀ j k, C !! j = Some k → a ∉ k) as Hnot.
    { intros j k Hj Hin. apply (Hm j k a Hj) in Hin as (fl & y & Hfl & _ & _ & ?). by simplify_eq. }
    destruct (slab_addr _ _ _ _ _ _ _ Hc Hok) as (_ & _ & _ & ? & _). change (when _ ?m) with m.
    eapply wp_cache_add; [done|done|done|unfold PAGE_SIZE in *; lia|done|lia|]. intros s1 Hl1 Hlo. eapply HQ; [done|exact Hl1|left| |simpl; lia].
    intros b Hne. set_solver.
  - rewrite (proj2 (Z.eqb_neq _ _)) by lia. apply wp_ret. eapply (HQ s l); [done|by rewrite list_insert_id| |done|lia].
    apply (Hm i l a Hi). exists (o :: fl), x. split_and!; [done|done|apply (ss_index _ _ _ _ _ Hs)|done].
Qed.

(** The blocks once [p] is put back. *)
Lemma block_push s s2 L G a fl x2 i p q m : heap_core s2 L (<[a := p :: fl]> G) → G !! a = Some fl → slabs s2 !! a = Some x2 →
  small_slab (k_mem s2) a x2 (p :: fl) i → same_static (slabs s2) (slabs s) →
  block (slabs s2) (<[a := p :: fl]> G) q m ↔ block (slabs s) G q m ∧ q ≠ p.
Proof.
  intros Hc2 Ha Hx2 Hs2 Hst.
  pose proof (block_pop (slabs s2) (slabs s) (<[a := p :: fl]> G) a p fl x2 _ i q m (lookup_insert_eq _ _ _) Hx2 Hs2 Hst) as Hpop.
  rewrite insert_insert_eq, insert_id in Hpop by done. rewrite Hpop. split.
  - intros Hb. split; [by left|]. intros ->. eapply (free_not_block hhdm s2 L _ a (p :: fl)); [done|apply lookup_insert_eq|done|done|left|done].
  - intros [[?|[? _]] ?]; done.
Qed.

(** The end of [kfree]: an empty slab is given back unless it is the last of its cache. *)
Lemma wp_free_end s0 G0 s L G C i l a fl x p (Q : unit → kheap → Prop) : heap_inv s L G C → kheap_lock s = held me → C !! i = Some l → a ∈ l →
  G !! a = Some fl → slabs s !! a = Some x → small_slab (k_mem s) a x fl i → Z.of_nat (length l) < 2 ^ 32 →
  (∀ q m, block (slabs s) G q m ↔ block (slabs s0) G0 q m ∧ q ≠ p) →
  (∀ q m z, block (slabs s0) G0 q m → q ≠ p → q ≤ z < q + m → k_mem s !! z = k_mem s0 !! z) →
  (∀ q, rec_size (slabs s) q = rec_size (slabs s0) q) →
  (∀ s', freed s0 G0 s' p → Q tt s') →
  wp (x ← slab_load a; c ← cache_load (Z.of_nat i);
      if (free_count x =? capacity x) && (slab_count c >? 1) then
        cache_remove_slab (Z.of_nat i) a ;; unlock_heap me ;; slab_destroy me hhdm a
      else unlock_heap me) Q s.
Proof.
  intros HI Hlk Hi Hal Ha Hx Hs Hlen Hblk Hmem Hrec HQ. pose proof HI as [Hc Hl Hm].
  apply wp_bind. eapply wp_slab_load; [done|]. destruct (clists_cache _ _ _ _ Hl Hi) as (c & Hcc & _ & _ & Hnd & _).
  apply wp_bind. eapply wp_cache_load; [done|]. destruct (Z.eqb_spec (free_count x) (capacity x)) as [Hfull|]; cbn [andb]; [destruct (_ >? 1)|].
  2,3: apply wp_unlock_heap; [done|]; apply HQ; split; [done|]; split; [done|]; split; [done|]; exists L, G, C; split; [by apply heap_inv_lock|done].
  apply list_elem_of_split in Hal as (l1 & l2 & ->). apply wp_bind. eapply (wp_cache_remove s C i l1 a l2); [done|done|done|].
  intros s3 Hl3 (Hp3 & Hm3 & Hk3 & Hn3). apply wp_bind, wp_unlock_heap; [by rewrite Hk3|]. set (s4 := put_lock unlocked s3).
  assert (heap_core s4 L G) as Hc4 by (by eapply (heap_core_same hhdm s)).
  assert (clists s4 (<[i := l1 ++ l2]> C)) as Hl4 by (eapply clists_frame; [exact Hl3|done|]; intros j k b y _ _ Hy; by exists y).
  destruct (next_only_lookup _ _ _ _ Hn3 Hx) as [v Hx4]. pose proof (next_only_static _ _ Hn3) as Hst.
  eapply (wp_destroy s4 L G _ a fl); [done|done| |done|exact Hx4|].
  { eapply (members_step s s4 G _ C a i (l1 ++ a :: l2)); [done|done|done| |by intros b _ _; apply Hst| | | |].
    - intros b Hne. by rewrite lookup_delete_ne.
    - intros b Hne. set_solver.
    - intros j (fl' & y & Hfl & _). by rewrite lookup_delete_eq in Hfl.
    - split; [|intros (fl' & y & Hfl & _); by rewrite lookup_delete_eq in Hfl]. intros Hin. exfalso.
      apply NoDup_app in Hnd as (_ & Hn & [Hn2 _]%NoDup_cons). apply elem_of_app in Hin as [Hin|Hin]; [apply (Hn _ Hin); left|done].
    - intros j k Hne Hk Hak. apply Hne. eapply (cl_disj _ _ Hl); [exact Hk|exact Hi|done|set_solver]. }
  intros p' L' HI'. apply HQ. split; [done|]. split; [cbn; by rewrite Hm3|]. split; [intros q m _ _; rewrite <-Hrec; apply same_static_rec, Hst|]. exists L', (delete a G), (<[i := l1 ++ l2]> C). split; [done|].
  intros q m. rewrite <-Hblk. change (slabs (put_pmm p' s4)) with (slabs s3).
  rewrite (block_leave (slabs s) (slabs s3) G a fl x); [|by intros b _ _; apply Hst|done|done].
  unfold block_in. rewrite decide_False by (by eapply small_not_big). split; [by left|]. intros [?|(Ho & Hno & _)]; [done|].
  destruct Hno. eapply free_all; [done|by rewrite <-(ss_count _ _ _ _ _ Hs)|done].
Qed.

(** The only object of a slab of capacity one. *)
Lemma capacity_one a x o o' : capacity x = 1 → is_object a x o → is_object a x o' → o = o'.
Proof. intros Hc (k & Hk & ->) (k' & Hk' & ->). rewrite Hc in *. by replace k with k' by lia. Qed.

(** [kfree] of an object of a slab of several. *)
Lemma wp_free_object s L G C i a fl x p (Q : unit → kheap → Prop) : heap_inv s L G C → kheap_lock s = held me →
  G !! a = Some fl → slabs s !! a = Some x → small_slab (k_mem s) a x fl i → is_object a x p → p ∉ fl →
  (∀ s', freed s G s' p → Q tt s') →
  wp (when (free_count x =? 0) (cache_add_slab (Z.of_nat i) a) ;;
      x ← slab_load a;
      in_mem (store_ptr p (sl_free_list x)) ;;
      slab_store a (set_sl_free_list p) ;;
      slab_store a (λ x, if free_count x <? capacity x then set_free_count (u16 (free_count x + 1)) x else x) ;;
      x ← slab_load a; c ← cache_load (Z.of_nat i);
      if (free_count x =? capacity x) && (slab_count c >? 1) then
        cache_remove_slab (Z.of_nat i) a ;; unlock_heap me ;; slab_destroy me hhdm a
      else unlock_heap me) Q s.
Proof.
  intros HI Hlk Ha Hx Hs Hp Hn HQ. pose proof HI as [Hc Hl Hm]. pose proof (ss_index _ _ _ _ _ Hs) as [Hci Hi8].
  destruct (lookup_lt_is_Some_2 C i) as [l Hi]; [rewrite (proj2 (cl_len _ _ Hl)); lia|].
  apply wp_bind. eapply (wp_readd s L G C i l a fl x); [done|done|done|done|done|]. intros s1 l' (Hp1 & Hm1 & Hk1 & Hn1) Hl1 Hal Hothers Hlen.
  destruct (next_only_lookup _ _ _ _ Hn1 Hx) as [v Hx1]. set (x1 := set_sl_next v x) in *.
  assert (heap_core s1 L G) as Hc1 by (by eapply (heap_core_same hhdm s)).
  assert (small_slab (k_mem s1) a x1 fl i) as Hs1 by (rewrite Hm1; eapply small_slab_frame; done).
  destruct (object_range _ _ _ _ _ _ Hs Hp) as (? & ? & _). pose proof (ss_size _ _ _ _ _ Hs) as Hos.
  destruct (size_of_facts i Hi8) as (Hsz & _). pose proof (ss_pages _ _ _ _ _ Hs) as Hnp.
  destruct (hc_slabs _ _ _ _ Hc a _ Ha) as (x' & Hx' & Hok). rewrite Hx in Hx'. apply (inj Some) in Hx' as <-.
  destruct (slab_addr _ _ _ _ _ _ _ Hc Hok) as (_ & _ & _ & Hge & H64 & Htop). destruct (hc_hhdm _ _ _ _ Hc) as (_ & Hh0 & _).
  pose proof (so_frame _ _ _ _ _ Hok) as (Hha & _).
  apply wp_bind. eapply wp_slab_load; [exact Hx1|]. apply wp_bind, wp_zoom. apply wp_store_ptr.
  { pose proof (ss_chain _ _ _ _ _ Hs1) as Hch. destruct fl as [|o fl]; [by rewrite Hch|]. destruct Hch as (-> & _).
    destruct (object_range _ _ _ _ _ o Hs1) as (? & Ho2 & _); [apply (ss_objs _ _ _ _ _ Hs1); left|]. cbn in Ho2. unfold sizeof_slab, PAGE_SIZE in *. lia. }
  { intros j Hj. rewrite Hm1. replace (p + j) with (hhdm + (p + j - hhdm)) by lia. apply (hc_mem _ _ _ _ Hc).
    unfold sizeof_slab, PAGE_SIZE in *. lia. }
  intros m' Hpt Hr. apply wp_bind. eapply wp_slab_store; [exact Hx1|]. apply wp_bind. eapply wp_slab_store; [apply lookup_insert_eq|].
  cbn [slabs put_slabs put_mem free_count capacity set_sl_free_list]. rewrite insert_insert_eq.
  pose proof (small_push _ _ _ _ _ _ _ _ Hs1 Hp Hn eq_refl Hpt Hr) as Hs2. destruct (free_bound _ _ _ _ _ Hs2) as [Hfb Hfb']. cbn in Hfb, Hfb'.
  rewrite (ss_count _ _ _ _ _ Hs1). rewrite (proj2 (Z.ltb_lt _ _)) by (cbn in *; lia). rewrite u16_id by (cbn in *; lia).
  replace (Z.of_nat (length fl) + 1) with (Z.of_nat (length (p :: fl))) by (cbn; lia).
  pose proof (heap_core_push _ _ _ _ _ _ _ _ _ _ Hc1 Ha Hx1 Hs1 Hp Hn eq_refl Hpt Hr) as Hc2.
  set (x2 := set_free_count _ _) in *. change (put_slabs _ (put_slabs _ (put_mem m' s1))) with (put_slabs (<[a := x2]> (slabs s1)) (put_mem m' s1)).
  set (s2 := put_slabs _ _) in *. assert (slabs s2 !! a = Some x2) as Hx2 by apply lookup_insert_eq.
  assert (same_static (slabs s2) (slabs s)) as Hst.
  { intros b. cbn [slabs put_slabs s2]. rewrite <-(next_only_static _ _ Hn1 b). destruct (decide (a = b)) as [<-|].
    - by rewrite lookup_insert_eq, Hx1.
    - by rewrite lookup_insert_ne. }
  eapply (wp_free_end s G s2 L (<[a := p :: fl]> G) (<[i := l']> C) i l' a (p :: fl) x2 p); [|by rewrite <-Hlk, <-Hk1| |done|apply lookup_insert_eq|done|done|done| | | |done].
  - split; [done| |].
    + eapply (clists_frame s1); [done|done|]. intros j k b y _ _ Hy. cbn [slabs put_slabs s2]. destruct (decide (a = b)) as [<-|].
      * rewrite lookup_insert_eq. rewrite Hx1 in Hy. apply (inj Some) in Hy as <-. by exists x2.
      * rewrite lookup_insert_ne by done. by exists y.
    + eapply (members_step s s2 G _ C a i l l'); [done|done|done| | |done| | |].
      * intros b Hne. by rewrite lookup_insert_ne.
      * intros b _ _. symmetry. apply Hst.
      * intros j (fl' & y & _ & Hy & Hyj & _). rewrite Hx2 in Hy. apply (inj Some) in Hy as <-. cbn in Hyj. lia.
      * split; [|done]. intros _. exists (p :: fl), x2. by rewrite lookup_insert_eq.
      * intros j k Hne Hk Hak. apply (Hm j k a Hk) in Hak as (fl' & y & _ & Hy & Hyj & _). rewrite Hx in Hy. apply (inj Some) in Hy as <-. lia.
  - by apply list_lookup_insert_eq, (lookup_lt_Some _ _ _ Hi).
  - intros q m. by eapply (block_push s s2 L G a fl x2 i).
  - intros q m z Hb Hne Hz. cbn [k_mem put_slabs put_mem s2]. rewrite (proj1 Hr), Hm1; [done|].
    assert (block (slabs s) G p (object_size x)) as Hbp.
    { exists a, fl, x. split_and!; [done|done|]. unfold block_in. rewrite decide_False by (by eapply small_not_big). done. }
    destruct (blocks_apart _ _ _ _ _ _ _ _ Hc Hb Hbp Hne); lia.
  - intros q. apply same_static_rec. symmetry. apply Hst.
Qed.

Lemma wp_kfree s L G C p n (Q : unit → kheap → Prop) : heap_inv s L G C → kheap_lock s = unlocked → block (slabs s) G p n →
  (∀ s', freed s G s' p → Q tt s') → wp (kfree me hhdm p) Q s.
Proof.
  intros HI Hlk Hb HQ. pose proof HI as [Hc Hl Hm]. destruct (block_slab _ _ _ _ _ _ Hc Hb) as (a & fl & x & Ha & Hx & Hok & Hbi & [? ? ? _ [? _]]).
  destruct (slab_addr _ _ _ _ _ _ _ Hc Hok) as (_ & _ & Hal & Hge & H64 & _). pose proof (slab_npages _ _ _ _ _ Hok) as Hnp.
  unfold sizeof_slab in *. unfold kfree. rewrite (proj2 (Z.eqb_neq p 0)) by (unfold PAGE_SIZE in *; lia).
  rewrite (page_base_block a p) by (try done; lia). apply wp_bind. eapply wp_slab_load; [exact Hx|]. rewrite (so_magic _ _ _ _ _ Hok). simpl negb. cbv iota.
  rewrite (u64_id (npages x * PAGE_SIZE)), (u64_id (a + _)) by (unfold PAGE_SIZE in *; lia).
  rewrite Z.geb_leb, (proj2 (Z.leb_gt _ _)) by lia. apply wp_bind, wp_lock_heap; [done|]. apply wp_bind. eapply wp_slab_load; [exact Hx|].
  assert (fl = [] → (∀ q m, block_in a [] x q m → q = p) →
    wp (unlock_heap me ;; slab_destroy me hhdm a) Q (put_lock (held me) s)) as Hwhole.
  { intros -> Honly. apply wp_bind, wp_unlock_heap; [done|]. rewrite put_lock_back by done. by eapply wp_free_whole. }
  destruct (so_kind _ _ _ _ _ Hok) as [[i Hs]|(Hbig & _ & -> & _)].
  - pose proof (small_not_big _ _ _ _ _ Hs) as Hnb. unfold block_in in Hbi. rewrite decide_False in Hbi by done. destruct Hbi as (Ho & Hno & ->).
    rewrite (proj2 (Z.eqb_neq _ BIG_CACHE_INDEX)) by done. cbn [orb]. destruct (Z.eqb_spec (capacity x) 1) as [H1|H1].
    + apply Hwhole.
      * destruct fl as [|o fl]; [done|]. exfalso. apply Hno. rewrite (capacity_one a x p o); [left|done|done|apply (ss_objs _ _ _ _ _ Hs); left].
      * intros q m. unfold block_in. rewrite decide_False by done. intros (Hq & _). by eapply capacity_one.
    + destruct (ss_index _ _ _ _ _ Hs) as [-> _]. eapply (wp_free_object (put_lock (held me) s) L G C i a fl x p); try done. by apply heap_inv_lock.
  - rewrite Hbig, Z.eqb_refl. cbn [orb]. apply Hwhole; [done|]. intros q m. unfold block_in in *. rewrite decide_True in Hbi by done. rewrite decide_True by done. intros [-> _]. by destruct Hbi.
Qed.
End free.
