(* ===== verification/KheapTheorems.v ===== *)
(** The contract of the kernel heap: the blocks it has handed out are a map from
    addresses to sizes, to which [kmalloc] adds and from which [kfree] removes. *)
From S2P Require Import Prelude Sync DList Pmm PmmSpec Strings StringsSpec Kheap KheapSpec KheapInv KheapOps KheapAlloc KheapFree PmmTheorems.

(** * The interface *)

(** What a heap promises its clients: a state that represents the blocks [B],
    an operation that adds a block of at least the size asked for, or returns
    [NULL], and one that removes a block. Neither touches the other blocks. *)
Definition untouched {S} (mem_of : S → mem) (B : gmap Z Z) (s s' : S) : Prop :=
  ∀ p n z, B !! p = Some n → p ≤ z < p + n → mem_of s' !! z = mem_of s !! z.
Definition separate (B : gmap Z Z) : Prop :=
  ∀ p n p' n', B !! p = Some n → B !! p' = Some n' → p ≠ p' → p + n ≤ p' ∨ p' + n' ≤ p.
Class Heap (S : Type) (malloc : Z → M S Z) (free : Z → M S unit) (mem_of : S → mem) := {
  rep : S → gmap Z Z → Prop;
  max_request : Z;
  rep_blocks s B : rep s B → separate B ∧ ∀ p n, B !! p = Some n → p ≠ 0 ∧ p mod 16 = 0 ∧ 0 < n ∧ mapped (mem_of s) p n;
  malloc_law s B size : rep s B → 0 < size < max_request →
    wp (malloc size) (λ r s', untouched mem_of B s s' ∧
      ((r = 0 ∧ rep s' B) ∨ (B !! r = None ∧ ∃ n, size ≤ n ∧ rep s' (<[r := n]> B)))) s;
  free_law s B p n : rep s B → B !! p = Some n →
    wp (free p) (λ _ s', rep s' (delete p B) ∧ untouched mem_of (delete p B) s s') s;
  free_null s B : rep s B → wp (free 0) (λ _ s', rep s' B ∧ untouched mem_of B s s') s;
}.

(** A client: allocating and freeing leaves the blocks, and what they hold, as
    they were. *)
Lemma heap_alloc_free `{H : Heap St malloc free mem_of} (s : St) B size : rep s B → 0 < size < max_request →
  wp (r ← malloc size; free r) (λ _ s', rep s' B ∧ untouched mem_of B s s') s.
Proof.
  intros Hr Hs. apply wp_bind. eapply wp_mono; [by apply malloc_law|]. intros r s1 (Hu & [(-> & Hr1)|(Hn & n & _ & Hr1)]).
  - eapply wp_mono; [by apply free_null|]. intros _ s2 (Hr2 & Hu2). split; [done|]. intros p m z Hp Hz. rewrite (Hu2 p m) by done. by eapply Hu.
  - eapply wp_mono; [by apply (free_law _ _ r n Hr1), lookup_insert_eq|]. intros _ s2 (Hr2 & Hu2). rewrite delete_insert_id in Hr2, Hu2 by done.
    split; [done|]. intros p m z Hp Hz. rewrite (Hu2 p m) by done. by eapply Hu.
Qed.

(** * The kernel heap *)

Section contract.
Context (me hhdm : Z).

(** The heap between calls: [L] are the free pages, [B] the blocks. *)
Definition heap_rep (s : kheap) (L : list Z) (B : gmap Z Z) : Prop :=
  kheap_lock s = unlocked ∧ ∃ G C, heap_inv hhdm s L G C ∧ ∀ p n, B !! p = Some n ↔ block (slabs s) G p n.

Lemma heap_rep_blocks s L B : heap_rep s L B →
  separate B ∧ ∀ p n, B !! p = Some n → p ≠ 0 ∧ p mod 16 = 0 ∧ 0 < n ∧ mapped (k_mem s) p n.
Proof.
  intros (_ & G & C & [Hc _ _] & HB). split.
  - intros p n p' n' Hp Hp' Hne. apply HB in Hp, Hp'. by eapply blocks_apart.
  - intros p n Hp. apply HB in Hp. destruct (block_slab _ _ _ _ _ _ Hc Hp) as (a & fl & x & Ha & Hx & Hok & _ & [? ? _ ? [? _]]).
    destruct (slab_addr _ _ _ _ _ _ _ Hc Hok) as (Haddr & Hk & _ & Hge & _ & Htop). unfold sizeof_slab, PAGE_SIZE in *.
    split_and!; [lia|done|done|]. intros j Hj. replace (p + j) with (hhdm + (p + j - hhdm)) by lia. apply (hc_mem _ _ _ _ Hc). unfold PAGE_SIZE. lia.
Qed.
(** The blocks [B] keep their contents and the sizes recorded for them. *)
Definition keeps (B : gmap Z Z) (s s' : kheap) : Prop :=
  untouched k_mem B s s' ∧ ∀ p n, B !! p = Some n → rec_size (slabs s') p = rec_size (slabs s) p.
Lemma keeps_trans B B' s1 s2 s3 : B' ⊆ B → keeps B s1 s2 → keeps B' s2 s3 → keeps B' s1 s3.
Proof.
  intros Hsub [H1 H2] [H3 H4]. split.
  - intros p n z Hp Hz. rewrite (H3 p n) by done. eapply H1; [by eapply lookup_weaken|done].
  - intros p n Hp. rewrite (H4 p n) by done. eapply H2. by eapply lookup_weaken.
Qed.

Lemma allocated_rep s B G s' r n k : (∀ p m, B !! p = Some m ↔ block (slabs s) G p m) → allocated hhdm s G s' r n k →
  B !! r = None ∧ (∃ L', heap_rep s' L' (<[r := n]> B)) ∧ keeps B s s' ∧ rec_size (slabs s') r = Some k.
Proof.
  intros HB (Hlk & Hno & Hm & Hk & Hrec & L' & G' & C' & HI & Hbl). assert (B !! r = None) as Hr.
  { destruct (B !! r) as [m|] eqn:Hr; [|done]. apply HB in Hr. by destruct (Hno m). }
  split; [done|]. split; [|split; [|done]].
  - exists L'. split; [done|]. exists G', C'. split; [done|]. intros p m. rewrite Hbl, <-HB. destruct (decide (r = p)) as [<-|Hne].
    + rewrite lookup_insert_eq, Hr. naive_solver.
    + rewrite lookup_insert_ne by done. naive_solver.
  - split; [intros p m z Hp; eapply Hm; by apply HB|intros p m Hp; eapply Hrec; by apply HB].
Qed.
Lemma freed_rep s B G s' p : (∀ q m, B !! q = Some m ↔ block (slabs s) G q m) → freed hhdm s G s' p →
  (∃ L', heap_rep s' L' (delete p B)) ∧ keeps (delete p B) s s'.
Proof.
  intros HB (Hlk & Hm & Hrec & L' & G' & C' & HI & Hbl). split.
  - exists L'. split; [done|]. exists G', C'. split; [done|]. intros q m. rewrite Hbl, lookup_delete_Some, <-HB. naive_solver.
  - split; [intros q m z [Hne Hq]%lookup_delete_Some; apply (Hm q m); [by apply HB|done]|].
    intros q m [Hne Hq]%lookup_delete_Some. apply (Hrec q m); [by apply HB|done].
Qed.

Lemma kmalloc_rep s L B size : heap_rep s L B → 0 < size < 2 ^ 62 →
  wp (kmalloc me hhdm size) (λ r s', keeps B s s' ∧
    ((r = 0 ∧ s' = s ∧ no_room s L size) ∨
     (r ≠ 0 ∧ B !! r = None ∧ ∃ L' n k, size ≤ n ∧ Z.min size 0xFFFF ≤ k ∧ rec_size (slabs s') r = Some k ∧
        heap_rep s' L' (<[r := n]> B)))) s.
Proof.
  intros (Hlk & G & C & HI & HB) Hsz. eapply wp_kmalloc; [exact HI|done|done| |].
  - intros Hno. split; [done|by left].
  - intros r s' k o Hr Hk Ho Hal. destruct (allocated_rep _ _ _ _ _ _ _ HB Hal) as (Hn & [L' HR] & Hu & Hrec). split; [done|]. right. eauto 12.
Qed.
Lemma kfree_rep s L B p n : heap_rep s L B → B !! p = Some n →
  wp (kfree me hhdm p) (λ _ s', (∃ L', heap_rep s' L' (delete p B)) ∧ keeps (delete p B) s s') s.
Proof.
  intros (Hlk & G & C & HI & HB) Hp. eapply (wp_kfree me hhdm s L G C p n); [done|done|by apply HB|]. intros s' Hf. by apply (freed_rep s B G).
Qed.

(** The kernel heap is a heap. *)
#[global] Instance kernel_heap : Heap kheap (kmalloc me hhdm) (kfree me hhdm) k_mem.
Proof.
  refine {| rep := λ s B, ∃ L, heap_rep s L B; max_request := 2 ^ 62 |}.
  - intros s B [L HR]. by eapply heap_rep_blocks.
  - intros s B size [L HR] Hs. eapply wp_mono; [by apply (kmalloc_rep s L B)|].
    intros r s' ([Hu _] & [(-> & -> & _)|(_ & Hn & L' & n & k & Hs' & _ & _ & HR')]); (split; [done|]); [left|right]; eauto 10.
  - intros s B p n [L HR] Hp. eapply wp_mono; [by apply (kfree_rep s L B p n)|]. intros _ s' [HR' [Hu _]]. done.
  - intros s B HR. apply wp_ret. done.
Defined.

(** ** Writing into a block *)

Lemma free_not_in_block s L G p n a fl x i o z : heap_core hhdm s L G → block (slabs s) G p n → G !! a = Some fl → slabs s !! a = Some x →
  small_slab (k_mem s) a x fl i → o ∈ fl → o ≤ z < o + 8 → z < p ∨ p + n ≤ z.
Proof.
  intros Hc Hb Ha Hx Hs Ho Hz. destruct (block_slab _ _ _ _ _ _ Hc Hb) as (b & fl' & y & Hb' & Hy & Hok & Hbi & [? ? _ _ _]).
  pose proof (ss_objs _ _ _ _ _ Hs o Ho) as Hobj. destruct (object_range _ _ _ _ _ _ Hs Hobj) as (? & ? & _).
  pose proof (ss_index _ _ _ _ _ Hs) as [_ Hi]. destruct (size_of_facts i Hi) as (Hsz & _). rewrite (ss_size _ _ _ _ _ Hs) in *.
  destruct (decide (a = b)) as [<-|Hne].
  - rewrite Hx in Hy. apply (inj Some) in Hy as <-. rewrite Ha in Hb'. apply (inj Some) in Hb' as <-.
    unfold block_in in Hbi. rewrite decide_False in Hbi by (by eapply small_not_big). destruct Hbi as (Hp & Hn & ->).
    destruct (object_apart a x o p) as [?|?]; rewrite ?(ss_size _ _ _ _ _ Hs) in *; [lia|done|done|congruence|lia|lia].
  - destruct (hc_disj _ _ _ _ Hc a b fl fl' x y Ha Hb' Hx Hy Hne) as [?|?]; rewrite ?(ss_pages _ _ _ _ _ Hs) in *;
      unfold sizeof_slab, PAGE_SIZE in *; lia.
Qed.
Lemma heap_rep_write s L B p n m' : heap_rep s L B → B !! p = Some n → rewritten (k_mem s) p n m' → heap_rep (put_mem m' s) L B.
Proof.
  intros (Hlk & G & C & [Hc Hl Hm] & HB) Hp Hr. apply HB in Hp. split; [done|]. exists G, C. split; [|done].
  split; [|by eapply clists_frame; [done|done|]; intros i l b y _ _ Hy; exists y|done]. pose proof Hc as [H1 H2 H3 H4 H5].
  split; [done|done| | |done].
  - intros j Hj. apply Hr. by apply H3.
  - intros a fl Ha. destruct (H4 a fl Ha) as (x & Hx & Hok). exists x. split; [done|]. destruct Hok as [? ? ? Hk]. split; [done|done|done|].
    destruct Hk as [[i Hs]|?]; [left|by right]. exists i. pose proof Hs as [? ? ? ? ? Hch ? ?]. split; try done.
    eapply free_chain_frame; [|exact Hch]. intros o z Ho Hz. apply (proj1 Hr). by eapply free_not_in_block.
Qed.
Lemma rewritten_le m a n k m' : rewritten m a k m' → k ≤ n → rewritten m a n m'.
Proof. intros [H1 H2] Hk. split; [|done]. intros x Hx. apply H1. lia. Qed.

(** ** Zeroing and growing *)

Lemma keeps_write B s s' p n m' : separate (<[p := n]> B) → B !! p = None → keeps B s s' → rewritten (k_mem s') p n m' →
  keeps B s (put_mem m' s').
Proof.
  intros Hsep Hp [H1 H2] [Hr _]. split; [|done]. intros q m z Hq Hz. cbn. rewrite Hr; [by eapply H1|].
  assert (p ≠ q) as Hne by congruence. destruct (Hsep p n q m) as [?|?]; [apply lookup_insert_eq|by rewrite lookup_insert_ne|done|lia|lia].
Qed.
Lemma kzalloc_rep s L B size : heap_rep s L B → 0 < size < 2 ^ 62 →
  wp (kzalloc me hhdm size) (λ r s', keeps B s s' ∧
    ((r = 0 ∧ s' = s ∧ no_room s L size) ∨
     (r ≠ 0 ∧ B !! r = None ∧ (∃ L' n, size ≤ n ∧ heap_rep s' L' (<[r := n]> B)) ∧ ∀ j, 0 ≤ j < size → k_mem s' !! (r + j) = Some 0))) s.
Proof.
  intros HR Hsz. unfold kzalloc. apply wp_bind. eapply wp_mono; [by apply (kmalloc_rep s L B)|].
  intros r s' (Hk & [(-> & -> & Hno)|(Hr & HBr & L' & n & k & Hn & _ & _ & HR')]); [by apply wp_ret; auto|].
  rewrite (proj2 (Z.eqb_neq _ _)) by done. destruct (heap_rep_blocks _ _ _ HR') as [Hsep Hbl].
  destruct (Hbl r n (lookup_insert_eq _ _ _)) as (_ & _ & _ & Hmap). apply wp_bind, wp_zoom.
  apply wp_memset; [intros j Hj; apply Hmap; lia|lia|]. intros m' Hm'.
  assert (rewritten (k_mem s') r n m') as Hrw.
  { split; intros z; rewrite Hm'; [intros Hz; by rewrite decide_False by lia|]. case_decide as Hz; [|done]. split; [|by eauto].
    intros _. replace z with (r + (z - r)) by lia. apply Hmap. lia. }
  apply wp_ret. split; [by eapply keeps_write|]. right. split_and!; [done|done| |].
  - exists L', n. split; [done|]. eapply heap_rep_write; [done|apply lookup_insert_eq|done].
  - intros j Hj. cbn. rewrite Hm', decide_True by lia. done.
Qed.

(** The slab of a block. *)
Lemma block_header s L B p n : heap_rep s L B → B !! p = Some n →
  p ≠ 0 ∧ ∃ x, slabs s !! page_base p = Some x ∧ magic x = SLAB_MAGIC ∧ 0 ≤ object_size x ≤ n.
Proof.
  intros HR Hp. destruct (proj2 (heap_rep_blocks _ _ _ HR) p n Hp) as (Hp0 & _). destruct HR as (_ & G & C & [Hc _ _] & HB). apply HB in Hp.
  destruct (block_slab _ _ _ _ _ _ Hc Hp) as (a & fl & x & Ha & Hx & Hok & _ & [? ? ? _ [_ ?]]).
  destruct (slab_addr _ _ _ _ _ _ _ Hc Hok) as (_ & _ & Hal & _). unfold sizeof_slab in *.
  rewrite (page_base_block a p) by (try done; lia). split; [done|]. exists x. split_and!; [done|by apply (so_magic _ _ _ _ _ Hok)| |done].
  destruct (so_kind _ _ _ _ _ Hok) as [[i Hs]|(_ & _ & _ & _ & ?)]; [|lia]. rewrite (ss_size _ _ _ _ _ Hs).
  destruct (size_of_facts i) as (? & _); [apply (ss_index _ _ _ _ _ Hs)|lia].
Qed.

Lemma krealloc_rep s L B p n k new_size : heap_rep s L B → B !! p = Some n → rec_size (slabs s) p = Some k → 0 < new_size < 2 ^ 62 →
  wp (krealloc me hhdm p new_size) (λ r s',
    (r = 0 ∧ s' = s ∧ no_room s L new_size) ∨
    (r = p ∧ s' = s ∧ new_size ≤ n) ∨
    (r ≠ 0 ∧ B !! r = None ∧ keeps (delete p B) s s' ∧ (∀ j, 0 ≤ j < k → k_mem s' !! (r + j) = k_mem s !! (p + j)) ∧
       ∃ L' n', new_size ≤ n' ∧ heap_rep s' L' (<[r := n']> (delete p B)))) s.
Proof.
  intros HR Hp Hk Hsz. destruct (block_header _ _ _ _ _ HR Hp) as (Hp0 & x & Hx & Hmg & Hos). unfold rec_size in Hk. rewrite Hx in Hk. apply (inj Some) in Hk.
  simpl in Hk. subst k. unfold krealloc. rewrite !(proj2 (Z.eqb_neq _ 0)) by (done || lia). apply wp_bind. eapply wp_slab_load; [done|].
  rewrite Hmg. simpl negb. cbv iota. destruct (Z.leb_spec new_size (object_size x)) as [Hle|Hgt].
  { apply wp_ret. right. left. split_and!; [done|done|lia]. }
  apply wp_bind. eapply wp_mono; [by apply (kmalloc_rep s L B)|].
  intros r s1 (Hk & [(-> & -> & Hno)|(Hr & HBr & L1 & n' & k' & Hn' & _ & _ & HR1)]); [by apply wp_ret; auto|].
  rewrite (proj2 (Z.eqb_neq _ 0)) by done. destruct (heap_rep_blocks _ _ _ HR1) as [Hsep Hbl].
  assert (r ≠ p) as Hrp by congruence. assert (<[r := n']> B !! p = Some n) as Hp1 by (by rewrite lookup_insert_ne).
  destruct (Hbl r n' (lookup_insert_eq _ _ _)) as (_ & _ & _ & Hm1), (Hbl p n Hp1) as (_ & _ & _ & Hm2).
  apply wp_bind, wp_zoom. apply wp_memcpy; [intros j Hj; apply Hm2; lia|intros j Hj; apply Hm1; lia|lia| |].
  { destruct (Hsep r n' p n); [apply lookup_insert_eq|done|done|left; lia|right; lia]. }
  intros m' Hcp. set (s2 := put_mem m' s1).
  assert (rewritten (k_mem s1) r n' m') as Hrw.
  { split; intros z; rewrite Hcp; [intros Hz; by rewrite decide_False by lia|]. case_decide as Hz; [|done].
    split; intros _; [replace z with (r + (z - r)) by lia; apply Hm1; lia|apply Hm2; lia]. }
  assert (heap_rep s2 L1 (<[r := n']> B)) as HR2 by (eapply heap_rep_write; [done|apply lookup_insert_eq|done]).
  assert (keeps B s s2) as Hk2 by (by eapply keeps_write).
  apply wp_bind. eapply wp_mono; [by apply (kfree_rep s2 L1 (<[r := n']> B) p n)|]. intros _ s3 ([L3 HR3] & Hk3). apply wp_ret. right. right.
  rewrite delete_insert_ne in HR3, Hk3 by done. split_and!; [done|done| | |by eauto].
  - eapply (keeps_trans B); [apply delete_subseteq|done|]. destruct Hk3 as [H1 H2]. split.
    + intros q m z Hq. apply (H1 q m). rewrite lookup_insert_ne; [done|]. intros <-. apply lookup_delete_Some in Hq as [_ ?]. congruence.
    + intros q m Hq. apply (H2 q m). rewrite lookup_insert_ne; [done|]. intros <-. apply lookup_delete_Some in Hq as [_ ?]. congruence.
  - intros j Hj. rewrite (proj1 Hk3 r n') by (try apply lookup_insert_eq; lia). cbn. rewrite Hcp, decide_True by lia.
    replace (p + (r + j - r)) with (p + j) by lia. apply (proj1 Hk p n); [done|lia].
Qed.

(** ** The start *)

(** What the heap needs of the machine: an allocator of pages, and a direct map
    of all of them. *)
Definition machine_ok (s : kheap) (L : list Z) : Prop :=
  pmm_inv (k_pmm s) L ∧ hhdm mod PAGE_SIZE = 0 ∧ PAGE_SIZE ≤ hhdm ∧
  hhdm + PAGE_SIZE * (max_pfn (kdb s) + 1) < 2 ^ 64 ∧ max_pfn (kdb s) < 2 ^ 32 - 2 ∧
  mapped (k_mem s) hhdm (PAGE_SIZE * (max_pfn (kdb s) + 1)).
Definition fresh_caches : list slab_cache_t := (λ n, mkCache n 0 0) <$> cache_sizes.
Lemma heap_rep_fresh s L : machine_ok s L → kheap_lock s = unlocked → caches s = fresh_caches → heap_rep s L ∅.
Proof.
  intros (HI & H1 & H2 & H3 & H4 & H5) Hlk Hcs. split; [done|]. exists ∅, (replicate 8 []). split; [split|].
  - split; [done|done|done| |]; intros ? ? **; set_solver.
  - split; [by rewrite Hcs| |].
    + intros i c l Hc Hl. apply lookup_replicate in Hl as [-> Hi]. rewrite Hcs in Hc.
      do 8 (destruct i as [|i]; [simpl in Hc; simplify_eq; split_and!; try done; apply NoDup_nil_2|]). lia.
    + intros i j l l' a Hl. apply lookup_replicate in Hl as [-> _]. intros _ Ha. by apply elem_of_nil in Ha.
  - intros i l a Hl. apply lookup_replicate in Hl as [-> _]. split; [by intros ?%elem_of_nil|]. by intros (fl & x & Ha & _).
  - intros p n. split; [done|]. by intros (a & fl & x & Ha & _).
Qed.
Lemma wp_kheap_init s (Q : unit → kheap → Prop) : kheap_lock s = unlocked → length (caches s) = 8%nat →
  Q tt (put_caches fresh_caches s) → wp (kheap_init me) Q s.
Proof.
  intros Hlk Hlen HQ. unfold kheap_init. apply wp_bind, wp_lock_heap; [done|]. apply wp_bind.
  destruct s as [p m sl cs lk]. cbn in Hlk, Hlen. subst lk. do 8 (destruct cs as [|? cs]; [done|]). destruct cs; [|done].
  unfold wp. cbn. exact HQ.
Qed.
End contract.

(** * The properties *)

Section properties.
Context (me hhdm : Z).

(** [kheap_init] starts a heap without blocks. *)
Theorem kheap_init_spec s L : machine_ok hhdm s L → kheap_lock s = unlocked → length (caches s) = 8%nat →
  wp (kheap_init me) (λ _ s', heap_rep hhdm s' L ∅ ∧ k_pmm s' = k_pmm s ∧ k_mem s' = k_mem s) s.
Proof. intros Hm Hlk Hlen. apply wp_kheap_init; [done|done|]. split; [|done]. by apply heap_rep_fresh. Qed.

(** C5: [kmalloc] returns. Either it returns [NULL] and changes nothing, and then
    there is no free page (for a large object: no run of free pages) for the
    request; or it returns a block that was none before, aligned to 16 bytes, at
    least as large as asked for and apart from every other block, recording its
    size up to 65535. The other blocks keep their contents. *)
Theorem kmalloc_spec s L B size : heap_rep hhdm s L B → 0 < size < 2 ^ 62 →
  wp (kmalloc me hhdm size) (λ r s', keeps B s s' ∧
    ((r = 0 ∧ s' = s ∧ no_room s L size) ∨
     (r ≠ 0 ∧ r mod 16 = 0 ∧ B !! r = None ∧ ∃ L' n k, size ≤ n ∧ separate (<[r := n]> B) ∧ heap_rep hhdm s' L' (<[r := n]> B) ∧
        rec_size (slabs s') r = Some k ∧ Z.min size 0xFFFF ≤ k))) s.
Proof.
  intros HR Hsz. eapply wp_mono; [by apply (kmalloc_rep me hhdm s L B)|].
  intros r s' (Hk & [?|(Hr & HB & L' & n & k & Hn & Hmin & Hrec & HR')]); (split; [done|]); [by left|right].
  destruct (heap_rep_blocks _ _ _ _ HR') as [Hsep Hbl]. destruct (Hbl r n (lookup_insert_eq _ _ _)) as (_ & ? & _). eauto 15.
Qed.

(** C6: [kfree] of a block returns; the block is one no more, the other blocks
    and their contents stay. *)
Theorem kfree_spec s L B p n : heap_rep hhdm s L B → B !! p = Some n →
  wp (kfree me hhdm p) (λ _ s', (∃ L', heap_rep hhdm s' L' (delete p B)) ∧ keeps (delete p B) s s') s.
Proof. apply kfree_rep. Qed.

(** [krealloc] of a block returns. It returns [NULL] and changes nothing when
    there is no room, or the same block when it is large enough, or a new block
    of the size asked for, which begins with the recorded size of the old one's
    contents; the old one is freed. *)
Theorem krealloc_spec s L B p n k new_size : heap_rep hhdm s L B → B !! p = Some n → rec_size (slabs s) p = Some k → 0 < new_size < 2 ^ 62 →
  wp (krealloc me hhdm p new_size) (λ r s',
    (r = 0 ∧ s' = s ∧ no_room s L new_size) ∨
    (r = p ∧ s' = s ∧ new_size ≤ n) ∨
    (r ≠ 0 ∧ B !! r = None ∧ keeps (delete p B) s s' ∧ (∀ j, 0 ≤ j < k → k_mem s' !! (r + j) = k_mem s !! (p + j)) ∧
       ∃ L' n', new_size ≤ n' ∧ heap_rep hhdm s' L' (<[r := n']> (delete p B)))) s.
Proof. apply krealloc_rep. Qed.

(** a client that writes inside of its block does not disturb the heap, and
    what it allocates and frees afterwards leaves every other block as it was. *)
Theorem kheap_client_safe s L B p n m' size : heap_rep hhdm s L B → B !! p = Some n → rewritten (k_mem s) p n m' → 0 < size < 2 ^ 62 →
  wp (r ← kmalloc me hhdm size; kfree me hhdm r)
    (λ _ s', (∃ L', heap_rep hhdm s' L' B) ∧ untouched k_mem B (put_mem m' s) s') (put_mem m' s).
Proof.
  intros HR Hp Hrw Hsz. apply (heap_alloc_free (H := kernel_heap me hhdm)); [|done]. exists L. by eapply heap_rep_write.
Qed.
End properties.

(** * Concrete inputs *)

Definition ex_hh : Z := 65536.
Definition zeros (a n : Z) : mem := list_to_map ((λ x, (x, 0)) <$> seqZ a n).
Lemma zeros_mapped a n : mapped (zeros a n) a n.
Proof.
  intros k Hk. unfold zeros. exists 0. apply elem_of_list_to_map_1.
  - rewrite <-list_fmap_compose. simpl. rewrite list_fmap_id. apply NoDup_seqZ.
  - apply list_elem_of_fmap. exists (a + k). split; [done|]. apply elem_of_seqZ. lia.
Qed.
Definition ex_heap : kheap := mkHeap ex_pmm (zeros ex_hh 16384) ∅ fresh_caches unlocked.
#[global] Opaque zeros.
Lemma ex_machine : machine_ok ex_hh ex_heap [4288; 4224; 4160].
Proof.
  split; [exact ex_pmm_inv|]. split; [reflexivity|]. split; [by vm_compute|]. split; [by vm_compute|]. split; [by vm_compute|].
  change (PAGE_SIZE * (max_pfn (kdb ex_heap) + 1)) with 16384. apply zeros_mapped.
Qed.
Lemma ex_heap_rep : heap_rep ex_hh ex_heap [4288; 4224; 4160] ∅.
Proof. apply heap_rep_fresh; [exact ex_machine|done|done]. Qed.
(** A heap with one block. *)
Lemma one_block hhdm s L : heap_rep hhdm s L ∅ → L ≠ [] →
  ∃ s' L' p n k, 40 ≤ n ∧ rec_size (slabs s') p = Some k ∧ heap_rep hhdm s' L' {[p := n]}.
Proof.
  intros HR HL. pose proof (kmalloc_rep 0 hhdm s L ∅ 40 HR ltac:(lia)) as H. apply wp_done in H as (r & s' & _ & _ & H).
  destruct H as [(_ & _ & H)|(_ & _ & L' & n & k & Hn & _ & Hk & HR')]; [|exists s', L', r, n, k; eauto].
  unfold no_room in H. rewrite decide_True in H by (by vm_compute). by destruct HL.
Qed.
Lemma ex_heap_block : ∃ s L p n k, 40 ≤ n ∧ rec_size (slabs s) p = Some k ∧ heap_rep ex_hh s L {[p := n]}.
Proof. apply (one_block ex_hh ex_heap _ ex_heap_rep). discriminate. Qed.

Lemma kheap_init_spec_witness :
  wp (kheap_init 0) (λ _ s', heap_rep ex_hh s' [4288; 4224; 4160] ∅ ∧ k_pmm s' = ex_pmm ∧ k_mem s' = k_mem ex_heap) ex_heap.
Proof. apply (kheap_init_spec 0 ex_hh ex_heap [4288; 4224; 4160] ex_machine); reflexivity. Defined.
Lemma kmalloc_spec_witness : wp (kmalloc 0 ex_hh 40) (λ r s', r ≠ 0 ∧ r mod 16 = 0) ex_heap.
Proof.
  eapply wp_mono; [apply (kmalloc_spec 0 ex_hh ex_heap [4288; 4224; 4160] ∅ 40 ex_heap_rep); lia|].
  intros r s' (_ & [(_ & _ & H)|(Hr & Hm & _)]); [|done]. unfold no_room in H. rewrite decide_True in H by (by vm_compute). discriminate.
Defined.
Lemma kfree_spec_witness : ∃ s p n, wp (kfree 0 ex_hh p) (λ _ s', ∃ L', heap_rep ex_hh s' L' (delete p {[p := n]})) s.
Proof.
  destruct ex_heap_block as (s & L & p & n & k & _ & _ & HR). exists s, p, n.
  eapply wp_mono; [apply (kfree_spec 0 ex_hh s L {[p := n]} p n HR); apply lookup_singleton_eq|]. intros _ s' [H _]. exact H.
Defined.
Lemma krealloc_spec_witness : ∃ s L p n k, wp (krealloc 0 ex_hh p 3000) (λ r s',
    (r = 0 ∧ s' = s ∧ no_room s L 3000) ∨ (r = p ∧ s' = s ∧ 3000 ≤ n) ∨
    (r ≠ 0 ∧ ∀ j, 0 ≤ j < k → k_mem s' !! (r + j) = k_mem s !! (p + j))) s.
Proof.
  destruct ex_heap_block as (s & L & p & n & k & _ & Hk & HR). exists s, L, p, n, k.
  eapply wp_mono; [apply (krealloc_spec 0 ex_hh s L {[p := n]} p n k 3000 HR); [apply lookup_singleton_eq|exact Hk|lia]|].
  intros r s' [?|[?|(? & _ & _ & ? & _)]]; auto.
Defined.
Lemma kheap_client_safe_witness : ∃ s B, wp (r ← kmalloc 0 ex_hh 16; kfree 0 ex_hh r) (λ _ s', ∃ L', heap_rep ex_hh s' L' B) s.
Proof.
  destruct ex_heap_block as (s & L & p & n & k & _ & _ & HR). exists (put_mem (k_mem s) s), {[p := n]}.
  eapply wp_mono; [apply (kheap_client_safe 0 ex_hh s L {[p := n]} p n (k_mem s) 16 HR); [apply lookup_singleton_eq|done|lia]|].
  intros _ s' [H _]. exact H.
Defined.
