(* ===== verification/Vmm.v ===== *)
(** Address spaces: [src/kernel/src/mm/vmm.c] and [vmm.h].

    A [vma_t] is named by the address of its tree node [rbn]; the nodes of all
    trees are in [nodes]. The kernel heap answers each allocation from the list
    [allocs]: an address the model has no object at, or 0 when it fails; an
    object that is freed is taken out of memory. The page tables are those of
    [Paging]; [vmm->pml4] is the physical address of the root. *)
From S2P Require Import Prelude Errno RBTree Sync Pmm Paging.

(** * [vmm.h] *)

Definition VFLAG_PRESENT : Z := 2 ^ 0.
Definition VFLAG_WRITABLE : Z := 2 ^ 1.
Definition VFLAG_USER : Z := 2 ^ 2.
Definition VFLAG_EXECUTABLE : Z := 2 ^ 3.
Definition VFLAG_LAZY : Z := 2 ^ 4.
Definition VFLAG_ALLOCATED : Z := 2 ^ 5.
Definition VFLAG_SHARED : Z := 2 ^ 6.
Definition VFLAG_FIXED : Z := 2 ^ 7.
Definition VFLAG_MMIO : Z := 2 ^ 9.
Definition VMM_FLAG_OWNS_PML4 : Z := 2 ^ 0.

Definition VMM_USER_START : Z := 0x1000.
Definition VMM_MMAP_BASE : Z := 0x700000000000.
Definition VMM_STACK_TOP : Z := 0x7FFFFFFFE000.

(** [paging.h] *)
Definition PF_PRESENT : Z := 2 ^ 0.
Definition PF_WRITE : Z := 2 ^ 1.
Definition PF_USER : Z := 2 ^ 2.
Definition PF_IFETCH : Z := 2 ^ 3.

Record vma_t := mkVma {
  base : Z;
  vsize : Z;
  vflags : Z;
  vnode_backing : Z;
  vnode_offset : Z;
}.
Record vmm_t := mkVmm {
  tree_of : rb_tree_t;
  vmas_count : Z;
  pml4 : Z;
  vm_flags : Z;
  mmap_base : Z;
  stack_top : Z;
  brk : Z;
  brk_base : Z;
}.

Definition set_vsize v x := mkVma (base x) v (vflags x) (vnode_backing x) (vnode_offset x).
Definition set_vflags v x := mkVma (base x) (vsize x) v (vnode_backing x) (vnode_offset x).
Definition set_tree v x := mkVmm v (vmas_count x) (pml4 x) (vm_flags x) (mmap_base x) (stack_top x) (brk x) (brk_base x).
Definition set_vmas_count v x := mkVmm (tree_of x) v (pml4 x) (vm_flags x) (mmap_base x) (stack_top x) (brk x) (brk_base x).
Definition set_mmap_base v x := mkVmm (tree_of x) (vmas_count x) (pml4 x) (vm_flags x) v (stack_top x) (brk x) (brk_base x).
Definition set_brk v x := mkVmm (tree_of x) (vmas_count x) (pml4 x) (vm_flags x) (mmap_base x) (stack_top x) v (brk_base x).
Definition set_marks m st b bb x := mkVmm (tree_of x) (vmas_count x) (pml4 x) (vm_flags x) m st b bb.

(** * State *)

Record vmm_state := mkVs {
  v_paging : paging;
  vmas : gmap Z vma_t;
  nodes : gmap Z rb_node_t;
  vmms : gmap Z vmm_t;
  current_vmm : Z;
  kernel_vmm : Z;
  vmm_lock : spinlock_t;
  allocs : list Z;
}.
Definition put_paging v s := mkVs v (vmas s) (nodes s) (vmms s) (current_vmm s) (kernel_vmm s) (vmm_lock s) (allocs s).
Definition put_vmas v s := mkVs (v_paging s) v (nodes s) (vmms s) (current_vmm s) (kernel_vmm s) (vmm_lock s) (allocs s).
Definition put_nodes v s := mkVs (v_paging s) (vmas s) v (vmms s) (current_vmm s) (kernel_vmm s) (vmm_lock s) (allocs s).
Definition put_vmms v s := mkVs (v_paging s) (vmas s) (nodes s) v (current_vmm s) (kernel_vmm s) (vmm_lock s) (allocs s).
Definition put_current v s := mkVs (v_paging s) (vmas s) (nodes s) (vmms s) v (kernel_vmm s) (vmm_lock s) (allocs s).
Definition put_kernel v s := mkVs (v_paging s) (vmas s) (nodes s) (vmms s) (current_vmm s) v (vmm_lock s) (allocs s).
Definition put_vmm_lock v s := mkVs (v_paging s) (vmas s) (nodes s) (vmms s) (current_vmm s) (kernel_vmm s) v (allocs s).
Definition put_allocs v s := mkVs (v_paging s) (vmas s) (nodes s) (vmms s) (current_vmm s) (kernel_vmm s) (vmm_lock s) v.

Definition in_paging {A} (m : M paging A) : M vmm_state A := zoom v_paging put_paging m.
Definition in_frames {A} (m : M pmm A) : M vmm_state A := in_paging (in_pmm m).
Definition frame_db : M vmm_state pfn_db := in_paging page_db.
Definition vma_load (a : Z) : M vmm_state vma_t := λ s,
  match vmas s !! a with Some x => Done (x, s) | None => Fault end.
Definition vma_store (a : Z) (f : vma_t → vma_t) : M vmm_state unit := λ s,
  match vmas s !! a with Some x => Done (tt, put_vmas (<[a := f x]> (vmas s)) s) | None => Fault end.
Definition vmm_load (v : Z) : M vmm_state vmm_t := λ s,
  match vmms s !! v with Some x => Done (x, s) | None => Fault end.
Definition vmm_store (v : Z) (f : vmm_t → vmm_t) : M vmm_state unit := λ s,
  match vmms s !! v with Some x => Done (tt, put_vmms (<[v := f x]> (vmms s)) s) | None => Fault end.

(** A tree operation on [&vmm->vmas]. *)
Definition in_tree {A} (v : Z) (m : M rb_state A) : M vmm_state A := λ s,
  match vmms s !! v with
  | None => Fault
  | Some x => match m (mkRb (nodes s) (tree_of x)) with
              | Done (a, r) => Done (a, put_vmms (<[v := set_tree (rb_tree r) x]> (vmms s)) (put_nodes (rb_heap r) s))
              | Fault => Fault
              | Hang => Hang
              end
  end.

(** [_vma_cmp]; [key] is the address of a [vma_t] on the stack whose base is
    [addr]. *)
Definition key : Z := -1.
Definition base_of (vm : gmap Z vma_t) (addr a : Z) : Z := if a =? key then addr else from_option base 0 (vm !! a).
Definition _vma_cmp (vm : gmap Z vma_t) (addr a b : Z) : Z := Z.sgn (base_of vm addr a - base_of vm addr b).

Definition kalloc : M vmm_state Z := λ s,
  match allocs s with
  | [] => Done (0, s)
  | a :: rest => Done (a, put_allocs rest s)
  end.
Definition _vma_alloc : M vmm_state Z :=
  a ← kalloc;
  if a =? 0 then mret 0 else
  modify (λ s, put_vmas (<[a := mkVma 0 0 0 0 0]> (vmas s)) (put_nodes (<[a := mkNode 0 0 0 RB_BLACK]> (nodes s)) s)) ;;
  mret a.
Definition _vma_free (a : Z) : M vmm_state unit :=
  vma_load a ;; modify (λ s, put_vmas (delete a (vmas s)) (put_nodes (delete a (nodes s)) s)).

(** Rounds allowed to a loop that goes from range to range. *)
Definition vma_fuel : M vmm_state nat := gets (λ s, (4 + size (vmas s))%nat).

(** * [vmm.c] *)

Definition _vflags_to_pflags (fl : Z) : Z :=
  let p := 0 in
  let p := if flag fl VFLAG_PRESENT then Z.lor p PFLAG_PRESENT else p in
  let p := if flag fl VFLAG_WRITABLE then Z.lor p PFLAG_WRITE else p in
  let p := if flag fl VFLAG_USER then Z.lor p PFLAG_USER else p in
  let p := if negb (flag fl VFLAG_EXECUTABLE) then Z.lor p PFLAG_NX else p in
  if flag fl VFLAG_MMIO then Z.lor p (Z.lor PFLAG_PCD PFLAG_PWT) else p.

(** [v->base <= addr && addr < v->base + v->size] *)
Definition vma_holds (x : vma_t) (addr : Z) : bool := (base x <=? addr) && (addr <? u64 (base x + vsize x)).

Definition _find_vma (v addr : Z) : M vmm_state Z :=
  vm ← gets vmas;
  node ← in_tree v (rb_lower_bound (_vma_cmp vm addr) key);
  if negb (node =? 0) then
    x ← vma_load node;
    if vma_holds x addr then mret node else
    prev ← in_tree v (rb_prev node);
    if negb (prev =? 0) then
      x ← vma_load prev;
      if vma_holds x addr then mret prev else mret 0
    else mret 0
  else
    last ← in_tree v rb_last;
    if negb (last =? 0) then
      x ← vma_load last;
      if vma_holds x addr then mret last else mret 0
    else mret 0.

Definition _find_vma_next (v addr : Z) : M vmm_state Z :=
  vm ← gets vmas;
  in_tree v (rb_lower_bound (_vma_cmp vm addr) key).

(** A round of the search of [_find_free_gap] from [hint]. *)
Definition gap_round (v size hint : Z) : M vmm_state (Z + Z) :=
  if hint <? u64 (VMM_USER_START + size) then mret (inr 0) else
  let candidate := Z.land (u64 (hint - size)) (not64 (PAGE_SIZE - 1)) in
  if candidate <? VMM_USER_START then mret (inr 0) else
  overlap ← _find_vma v candidate;
  overlap ← (if overlap =? 0 then _find_vma v (u64 (candidate + size - 1)) else mret overlap);
  if overlap =? 0 then
    next ← _find_vma_next v candidate;
    if next =? 0 then vmm_store v (set_mmap_base candidate) ;; mret (inr candidate) else
    x ← vma_load next;
    if base x >=? u64 (candidate + size) then vmm_store v (set_mmap_base candidate) ;; mret (inr candidate)
    else mret (inl (base x))
  else x ← vma_load overlap; mret (inl (base x)).
Definition _find_free_gap (v size : Z) : M vmm_state Z :=
  x ← vmm_load v;
  fuel ← vma_fuel;
  loop fuel (gap_round v size) (mmap_base x).

Section vmm.
(** The CPU that runs the code, and [kernel_info.hhdm_offset]. *)
Context (me hhdm_offset : Z).
Notation P2V := (PHYS_TO_VIRT hhdm_offset).
Notation map_page := (map_page me hhdm_offset).
Notation unmap_page := (unmap_page me hhdm_offset).
Notation get_paddr := (get_paddr me hhdm_offset).

Definition lock_vmm : M vmm_state unit := zoom vmm_lock put_vmm_lock (lock_acquire me).
Definition unlock_vmm : M vmm_state unit := zoom vmm_lock put_vmm_lock (lock_release me).

(** The address of page [i] of a range. *)
Definition page_addr (x : vma_t) (i : Z) : Z := u64 (base x + u64 (i * PAGE_SIZE)).

(** A page, cleared, for the page at [vaddr]; false when there is none. *)
Definition map_new_page (v vaddr pflags : Z) : M vmm_state bool :=
  page ← in_frames (pmm_alloc_page me);
  if page =? 0 then mret false else
  d ← frame_db;
  in_paging (zero_page (P2V (pfn_db_page_to_phys d page))) ;;
  x ← vmm_load v;
  in_paging (map_page (pml4 x) vaddr page pflags) ;;
  mret true.

Definition unmap_pages (v : Z) (x : vma_t) (n : Z) : M vmm_state unit :=
  for_n 0 (Z.to_nat n) (λ i, y ← vmm_load v; in_paging (unmap_page (pml4 y) (page_addr x i))).

Definition alloc_pages_round (v : Z) (x : vma_t) (pflags npages i : Z) : M vmm_state (Z + Z) :=
  if i <? npages then
    ok ← map_new_page v (page_addr x i) pflags;
    if (ok : bool) then mret (inl (i + 1)) else unmap_pages v x i ;; mret (inr ENOMEM)
  else mret (inr EOK).
Definition _vma_allocate_pages (v vma : Z) : M vmm_state Z :=
  x ← vma_load vma;
  let pflags := _vflags_to_pflags (vflags x) in
  if negb (vsize x mod PAGE_SIZE =? 0) then mret (-1) else
  let npages := vsize x / PAGE_SIZE in
  r ← loop (S (Z.to_nat npages)) (alloc_pages_round v x pflags npages) 0;
  if negb (r =? EOK) then mret r else
  vma_store vma (λ x, set_vflags (Z.lor (vflags x) VFLAG_ALLOCATED) x) ;;
  mret EOK.

Definition _vma_free_pages (v vma : Z) : M vmm_state unit :=
  x ← vma_load vma;
  if negb (flag (vflags x) VFLAG_ALLOCATED) then mret tt else
  if negb (vsize x mod PAGE_SIZE =? 0) then mret tt else
  unmap_pages v x (vsize x / PAGE_SIZE) ;;
  vma_store vma (λ x, set_vflags (Z.land (vflags x) (not32 VFLAG_ALLOCATED)) x).

Definition _range_overlaps (v b size : Z) : M vmm_state bool :=
  vma ← _find_vma v b;
  if vma =? 0 then mret false else
  x ← vma_load vma;
  mret (base x <? u64 (b + size)).

Definition new_vmm : M vmm_state Z :=
  v ← kalloc;
  if v =? 0 then mret 0 else
  modify (λ s, put_vmms (<[v := mkVmm (mkTree 0 0) 0 0 0 0 0 0 0]> (vmms s)) s) ;; mret v.
Definition free_vmm (v : Z) : M vmm_state unit :=
  vmm_load v ;; modify (λ s, put_vmms (delete v (vmms s)) s).

Definition vmm_create : M vmm_state Z :=
  v ← new_vmm;
  if v =? 0 then mret 0 else
  pt ← in_paging (pte_alloc me hhdm_offset);
  vmm_store v (λ x, mkVmm (mkTree 0 0) (vmas_count x) pt VMM_FLAG_OWNS_PML4 VMM_MMAP_BASE VMM_STACK_TOP (brk x) (brk_base x)) ;;
  if pt =? 0 then free_vmm v ;; mret 0 else
  mret v.

Definition vmm_create_from_pml4 (pt : Z) : M vmm_state Z :=
  v ← new_vmm;
  if v =? 0 then mret 0 else
  vmm_store v (λ x, mkVmm (mkTree 0 0) (vmas_count x) pt (vm_flags x) VMM_MMAP_BASE VMM_STACK_TOP (brk x) (brk_base x)) ;;
  mret v.

Definition vmm_switch (v : Z) : M vmm_state unit :=
  if v =? 0 then mret tt else
  x ← vmm_load v;
  if pml4 x =? 0 then mret tt else
  cur ← gets current_vmm;
  if v =? cur then mret tt else
  modify (put_current v) ;;
  in_paging (modify (put_cr3 (pml4 x))).
Definition vmm_current : M vmm_state Z := gets current_vmm.
Definition vmm_kernel : M vmm_state Z := gets kernel_vmm.
Definition vmm_set_kernel (v : Z) : M vmm_state unit := modify (put_kernel v) ;; modify (put_current v).

(** The body of the loop of [vmm_destroy]. *)
Definition destroy_round (v node : Z) : M vmm_state (Z + unit) :=
  if node =? 0 then mret (inr tt) else
  tmp ← in_tree v (rb_next node);
  _vma_free_pages v node ;;
  in_tree v (rb_remove node) ;;
  _vma_free node ;;
  mret (inl tmp).
Definition vmm_destroy (v : Z) : M vmm_state unit :=
  if v =? 0 then mret tt else
  cur ← gets current_vmm;
  when (v =? cur) (k ← vmm_kernel; vmm_switch k) ;;
  first ← in_tree v rb_first;
  fuel ← vma_fuel;
  loop fuel (destroy_round v) first ;;
  x ← vmm_load v;
  when (flag (vm_flags x) VMM_FLAG_OWNS_PML4) (in_paging (pte_free me hhdm_offset (pml4 x))) ;;
  free_vmm v.

(** The end of [vmm_map]: a range at [b]. *)
Definition map_at (v b size flags : Z) : M vmm_state Z :=
  vma ← _vma_alloc;
  if vma =? 0 then unlock_vmm ;; mret 0 else
  vma_store vma (λ _, mkVma b size flags 0 0) ;;
  ok ← (if negb (flag flags VFLAG_LAZY) then r ← _vma_allocate_pages v vma; mret (r =? EOK) else mret true);
  if negb ok then _vma_free vma ;; unlock_vmm ;; mret 0 else
  vm ← gets vmas;
  r ← in_tree v (rb_insert (_vma_cmp vm 0) vma);
  if negb (r =? 0) then _vma_free_pages v vma ;; _vma_free vma ;; unlock_vmm ;; mret 0 else
  vmm_store v (λ x, set_vmas_count (u64 (vmas_count x + 1)) x) ;;
  unlock_vmm ;;
  mret b.
Definition vmm_map (v b size flags : Z) : M vmm_state Z :=
  if (v =? 0) || (size =? 0) then mret 0 else
  let size := ALIGN_UP size PAGE_SIZE in
  lock_vmm ;;
  if (b =? 0) && negb (flag flags VFLAG_FIXED) then
    b ← _find_free_gap v size;
    if b =? 0 then unlock_vmm ;; mret 0 else map_at v b size flags
  else
    let b := ALIGN_DOWN b PAGE_SIZE in
    over ← (if flag flags VFLAG_FIXED then _range_overlaps v b size else mret false);
    if (over : bool) then unlock_vmm ;; mret 0 else map_at v b size flags.

Definition _vma_split (v vma split_addr : Z) : M vmm_state Z :=
  x ← vma_load vma;
  if (split_addr <=? base x) || (split_addr >=? u64 (base x + vsize x)) then mret 0 else
  new_vma ← _vma_alloc;
  if new_vma =? 0 then mret 0 else
  vma_store new_vma (λ _, mkVma split_addr (u64 (base x + vsize x - split_addr)) (vflags x) 0 0) ;;
  vma_store vma (λ x, set_vsize (u64 (split_addr - base x)) x) ;;
  vm ← gets vmas;
  r ← in_tree v (rb_insert (_vma_cmp vm 0) new_vma);
  if negb (r =? 0) then _vma_free new_vma ;; mret 0 else
  vmm_store v (λ x, set_vmas_count (u64 (vmas_count x + 1)) x) ;;
  mret new_vma.

(** A round of the loop of [vmm_unmap]. *)
Definition unmap_round (v b end_ node : Z) : M vmm_state (Z + unit) :=
  if node =? 0 then mret (inr tt) else
  x ← vma_load node;
  next ← in_tree v (rb_next node);
  if (base x >=? b) && (u64 (base x + vsize x) <=? end_) then
    _vma_free_pages v node ;;
    in_tree v (rb_remove node) ;;
    _vma_free node ;;
    vmm_store v (λ x, set_vmas_count (u64 (vmas_count x - 1)) x) ;;
    mret (inl next)
  else if base x >=? end_ then mret (inr tt) else mret (inl next).
Definition vmm_unmap (v b size : Z) : M vmm_state Z :=
  if (v =? 0) || (size =? 0) then mret (- EINVAL) else
  let b := ALIGN_DOWN b PAGE_SIZE in
  let size := ALIGN_UP size PAGE_SIZE in
  let end_ := u64 (b + size) in
  lock_vmm ;;
  first ← _find_vma v b;
  ok ← (if first =? 0 then mret true else
        x ← vma_load first;
        if base x <? b then r ← _vma_split v first b; mret (negb (r =? 0)) else mret true);
  if negb ok then unlock_vmm ;; mret (- ENOMEM) else
  last ← _find_vma v (u64 (end_ - 1));
  ok ← (if last =? 0 then mret true else
        x ← vma_load last;
        if u64 (base x + vsize x) <? end_ then r ← _vma_split v last end_; mret (negb (r =? 0)) else mret true);
  if negb ok then unlock_vmm ;; mret (- ENOMEM) else
  node ← in_tree v rb_first;
  fuel ← vma_fuel;
  loop fuel (unmap_round v b end_) node ;;
  unlock_vmm ;;
  mret 0.

(** The loop of [vmm_protect] over the pages of a range. *)
Definition protect_pages (v : Z) (x : vma_t) : M vmm_state unit :=
  let pflags := _vflags_to_pflags (vflags x) in
  for_n 0 (Z.to_nat (vsize x / PAGE_SIZE)) (λ i,
    let vaddr := page_addr x i in
    y ← vmm_load v;
    paddr ← in_paging (get_paddr (pml4 y) vaddr);
    if paddr =? 0 then mret tt else
    d ← frame_db;
    let page := pfn_db_phys_to_page d paddr in
    if page =? 0 then mret tt else
    in_paging (unmap_page (pml4 y) vaddr) ;;
    in_paging (map_page (pml4 y) vaddr page pflags)).
Definition PRESERVE : Z := Z.lor (Z.lor VFLAG_ALLOCATED VFLAG_LAZY) VFLAG_PRESENT.

(** A round of [vmm_protect] at [addr]; it leaves with the result. *)
Definition protect_round (v end_ new_flags addr : Z) : M vmm_state (Z + Z) :=
  if negb (addr <? end_) then mret (inr 0) else
  vma ← _find_vma v addr;
  if vma =? 0 then mret (inr (- EINVAL)) else
  x ← vma_load vma;
  split ← (if base x <? addr then
             r ← _vma_split v vma addr;
             if r =? 0 then mret None else vma ← _find_vma v addr; mret (Some vma)
           else mret (Some vma));
  match split with
  | None => mret (inr (- ENOMEM))
  | Some vma =>
      x ← vma_load vma;
      ok ← (if u64 (base x + vsize x) >? end_ then r ← _vma_split v vma end_; mret (negb (r =? 0)) else mret true);
      if negb ok then mret (inr (- ENOMEM)) else
      vma_store vma (λ x, set_vflags (Z.lor (Z.land (vflags x) PRESERVE) (Z.land new_flags (not32 PRESERVE))) x) ;;
      x ← vma_load vma;
      when (flag (vflags x) VFLAG_ALLOCATED) (protect_pages v x) ;;
      x ← vma_load vma;
      mret (inl (u64 (base x + vsize x)))
  end.
Definition vmm_protect (v b size new_flags : Z) : M vmm_state Z :=
  if (v =? 0) || (size =? 0) then mret (- EINVAL) else
  let b := ALIGN_DOWN b PAGE_SIZE in
  let size := ALIGN_UP size PAGE_SIZE in
  lock_vmm ;;
  fuel ← vma_fuel;
  r ← loop fuel (protect_round v (u64 (b + size)) new_flags) b;
  unlock_vmm ;;
  mret r.

(** As in the code, the lock is held over the calls that take it. *)
Definition vmm_brk (v new_brk : Z) : M vmm_state Z :=
  if v =? 0 then mret 0 else
  let new_brk := ALIGN_UP new_brk PAGE_SIZE in
  x ← vmm_load v;
  if new_brk <? brk_base x then mret (brk_base x) else
  lock_vmm ;;
  if new_brk >? brk x then
    got ← vmm_map v (brk x) (u64 (new_brk - brk x)) (Z.lor (Z.lor VFLAG_PRESENT VFLAG_WRITABLE) VFLAG_USER);
    if got =? 0 then mret (brk x) else
    vmm_store v (set_brk new_brk) ;; mret new_brk
  else if new_brk <? brk x then
    r ← vmm_unmap v new_brk (u64 (brk x - new_brk));
    if negb (r =? 0) then mret (brk x) else
    vmm_store v (set_brk new_brk) ;; mret new_brk
  else
    unlock_vmm ;; mret (brk x).

Definition vmm_find (v addr : Z) : M vmm_state Z := if v =? 0 then mret 0 else _find_vma v addr.
Definition vmm_find_next (v addr : Z) : M vmm_state Z := if v =? 0 then mret 0 else _find_vma_next v addr.

Definition access_round (v end_ access addr : Z) : M vmm_state (Z + Z) :=
  if negb (addr <? end_) then mret (inr 1) else
  vma ← _find_vma v addr;
  if vma =? 0 then mret (inr 0) else
  x ← vma_load vma;
  if negb (Z.land (vflags x) access =? access) then mret (inr 0) else
  mret (inl (u64 (base x + vsize x))).
Definition vmm_is_accessible (v b size access : Z) : M vmm_state Z :=
  if (v =? 0) || (size =? 0) then mret 0 else
  let addr := ALIGN_DOWN b PAGE_SIZE in
  let end_ := ALIGN_UP (u64 (b + size)) PAGE_SIZE in
  fuel ← vma_fuel;
  loop fuel (access_round v end_ access) addr.

(** * Faults *)

Definition is_page_cow (p : page_t) : bool := flag (Pmm.flags p) PAGE_COW.
(** [memcpy] of a page. *)
Definition copy_page (dst src : Z) : M paging unit := λ s,
  match mem s !! src with
  | Some ws => match mem s !! dst with Some _ => Done (tt, put_mem (<[dst := ws]> (mem s)) s) | None => Fault end
  | None => Fault
  end.

(** The part of [vmm_pf_handler] for a write to a page that is shared. *)
Definition cow_fault (v fault_page paddr : Z) (x : vma_t) : M vmm_state Z :=
  d ← frame_db;
  let old_page := pfn_db_phys_to_page d paddr in
  if old_page =? 0 then mret (- EFAULT) else
  p ← in_frames (pload old_page);
  if negb (is_page_cow p) then mret (- EFAULT) else
  y ← vmm_load v;
  if u2 p <=? 1 then
    in_frames (pmm_page_clear_cow me old_page) ;;
    in_paging (map_page (pml4 y) fault_page old_page (_vflags_to_pflags (vflags x))) ;;
    mret EOK
  else
  new_page ← in_frames (pmm_alloc_page me);
  if new_page =? 0 then mret (- ENOMEM) else
  d ← frame_db;
  let new_phys := pfn_db_page_to_phys d new_page in
  in_paging (zero_page (P2V new_phys)) ;;
  in_paging (copy_page (P2V new_phys) (P2V paddr)) ;;
  in_frames (pmm_page_unshare me old_page) ;;
  in_frames (pmm_page_release me old_page) ;;
  in_paging (map_page (pml4 y) fault_page new_page (_vflags_to_pflags (vflags x))) ;;
  mret EOK.

Definition vmm_pf_handler (v fault_addr error_code : Z) : M vmm_state Z :=
  if v =? 0 then mret (- EINVAL) else
  let fault_page := ALIGN_DOWN fault_addr PAGE_SIZE in
  vma ← _find_vma v fault_page;
  if vma =? 0 then mret (- EFAULT) else
  x ← vma_load vma;
  let is_write := flag error_code PF_WRITE in
  let is_user := flag error_code PF_USER in
  let is_ifetch := flag error_code PF_IFETCH in
  if is_write && negb (flag (vflags x) VFLAG_WRITABLE) then mret (- EFAULT) else
  if is_user && negb (flag (vflags x) VFLAG_USER) then mret (- EFAULT) else
  if is_ifetch && negb (flag (vflags x) VFLAG_EXECUTABLE) then mret (- EFAULT) else
  y ← vmm_load v;
  paddr ← in_paging (get_paddr (pml4 y) fault_page);
  if paddr =? 0 then
    if negb (flag (vflags x) VFLAG_LAZY) then mret (- EFAULT) else
    ok ← map_new_page v fault_page (_vflags_to_pflags (vflags x));
    mret (if (ok : bool) then EOK else - ENOMEM)
  else if is_write && flag error_code PF_PRESENT then cow_fault v fault_page paddr x
  else mret EFAULT.

(** * Copying an address space *)

(** The two loops of [vmm_fork] over the pages of a range. *)
Definition fork_shared (parent child : Z) (x : vma_t) : M vmm_state unit :=
  for_n 0 (Z.to_nat (vsize x / PAGE_SIZE)) (λ i,
    let vaddr := page_addr x i in
    p ← vmm_load parent;
    paddr ← in_paging (get_paddr (pml4 p) vaddr);
    if paddr =? 0 then mret tt else
    d ← frame_db;
    let page := pfn_db_phys_to_page d paddr in
    if page =? 0 then mret tt else
    in_frames (pmm_page_share me page) ;;
    in_frames (pmm_page_retain me page) ;;
    c ← vmm_load child;
    in_paging (map_page (pml4 c) vaddr page (_vflags_to_pflags (vflags x)))).
Definition fork_private (parent child : Z) (x : vma_t) : M vmm_state unit :=
  let ro_pflags := Z.land (_vflags_to_pflags (vflags x)) (not64 PFLAG_WRITE) in
  for_n 0 (Z.to_nat (vsize x / PAGE_SIZE)) (λ i,
    let vaddr := page_addr x i in
    p ← vmm_load parent;
    paddr ← in_paging (get_paddr (pml4 p) vaddr);
    if paddr =? 0 then mret tt else
    d ← frame_db;
    let page := pfn_db_phys_to_page d paddr in
    if page =? 0 then mret tt else
    in_frames (pmm_page_mark_cow me page) ;;
    in_frames (pmm_page_share me page) ;;
    in_frames (pmm_page_retain me page) ;;
    c ← vmm_load child;
    in_paging (map_page (pml4 c) vaddr page ro_pflags) ;;
    in_paging (map_page (pml4 p) vaddr page ro_pflags)).

(** A range of the parent; false when the heap is exhausted. *)
Definition fork_round (parent child node : Z) : M vmm_state (Z + bool) :=
  if node =? 0 then mret (inr true) else
  x ← vma_load node;
  c ← _vma_alloc;
  if c =? 0 then vmm_destroy child ;; mret (inr false) else
  vma_store c (λ _, x) ;;
  (if flag (vflags x) VFLAG_SHARED then fork_shared parent child x
   else if flag (vflags x) VFLAG_ALLOCATED then fork_private parent child x
   else mret tt) ;;
  vm ← gets vmas;
  in_tree child (rb_insert (_vma_cmp vm 0) c) ;;
  vmm_store child (λ x, set_vmas_count (u64 (vmas_count x + 1)) x) ;;
  next ← in_tree parent (rb_next node);
  mret (inl next).
Definition vmm_fork (parent : Z) : M vmm_state Z :=
  if parent =? 0 then mret 0 else
  child ← vmm_create;
  if child =? 0 then mret 0 else
  lock_vmm ;;
  first ← in_tree parent rb_first;
  fuel ← vma_fuel;
  ok ← loop fuel (fork_round parent child) first;
  if negb ok then unlock_vmm ;; mret 0 else
  p ← vmm_load parent;
  vmm_store child (set_marks (mmap_base p) (stack_top p) (brk p) (brk_base p)) ;;
  unlock_vmm ;;
  mret child.
End vmm.
