(* ===== verification/VmmSpec.v ===== *)
(** The abstract view of an address space, an ordered list of disjoint ranges,
    and the specifications of the searches against it. *)
From Stdlib Require Import Sorting.Sorted.
From stdpp Require Import sorting.
From S2P Require Import Prelude Errno RBTree RBTreeRep RBTreeSpec RBTreeRemove Sync Pmm Paging Vmm.

(** * Trees and comparators *)

#[global] Instance RbCompare_vma vm addr : RbCompare (_vma_cmp vm addr).
Proof. apply (RbCompare_key (base_of vm addr)). Qed.

(** Being a tree depends on the nodes of the tree and on how they compare. *)
Lemma is_rbtree_ext cmp cmp' s s' l :
  is_rbtree cmp s l → (∀ a b, a ∈ l → b ∈ l → cmp a b < 0 → cmp' a b < 0) →
  (∀ a, a ∈ l → rb_heap s' !! a = rb_heap s !! a) → rb_tree s' = rb_tree s →
  is_rbtree cmp' s' l.
Proof.
  intros [(t & Hrep & Hrt & Hrb & Hio) Hso Hsz] Hcmp Hh Ht. constructor.
  - exists t. rewrite Ht. split_and!; [|done..]. eapply rep_frame; [exact Hrep|].
    intros b Hb. apply Hh. rewrite <-Hio. by rewrite inorder_addrs.
  - clear -Hso Hcmp. induction Hso as [|a l Hso IH Ha]; [constructor|]. constructor.
    + apply IH. set_solver.
    + rewrite Forall_forall in *. intros b Hb. apply Hcmp; [set_solver..|]. by apply Ha.
  - by rewrite Ht.
Qed.

(** * Address spaces *)

(** The end of a range, and the addresses it holds. *)
Definition vend (x : vma_t) : Z := base x + vsize x.
Definition inside (x : vma_t) (addr : Z) : Prop := base x ≤ addr < vend x.
#[global] Instance inside_dec x addr : Decision (inside x addr).
Proof. unfold inside. apply _. Defined.

(** A range is not empty and does not wrap around. *)
Definition vma_wf (x : vma_t) : Prop := 0 ≤ base x ∧ 0 < vsize x ∧ vend x < 2 ^ 64.

(** Space [v] consists of the ranges [l], each with the address of its node. *)
Record space (s : vmm_state) (v : Z) (l : list (Z * vma_t)) : Prop := mkSpace {
  sp_tree : ∃ x, vmms s !! v = Some x ∧ is_rbtree (_vma_cmp (vmas s) 0) (mkRb (nodes s) (tree_of x)) l.*1;
  sp_vmas : Forall (λ p, vmas s !! p.1 = Some p.2 ∧ 0 < p.1 ∧ vma_wf p.2) l;
  sp_disjoint : StronglySorted (λ p q, vend p.2 ≤ base q.2) l;
}.

(** The range at [addr], or [NULL]. *)
Definition vma_at (l : list (Z * vma_t)) (addr : Z) : Z :=
  default 0 (fst <$> head (filter (λ p, inside p.2 addr) l)).

(** ** The abstract list *)
Section ranges.
Implicit Types l : list (Z * vma_t).

Lemma vma_at_skip l1 l2 addr : (∀ p, p ∈ l1 → ¬ inside p.2 addr) → vma_at (l1 ++ l2) addr = vma_at l2 addr.
Proof.
  intros Hn. unfold vma_at. induction l1 as [|p l1 IH]; [done|]. simpl.
  rewrite filter_cons_False by set_solver. apply IH. set_solver.
Qed.
Lemma vma_at_none l addr : (∀ p, p ∈ l → ¬ inside p.2 addr) → vma_at l addr = 0.
Proof. intros. rewrite <-(app_nil_r l). by rewrite vma_at_skip. Qed.
Lemma vma_at_cons p l addr : inside p.2 addr → vma_at (p :: l) addr = p.1.
Proof. intros. unfold vma_at. by rewrite filter_cons_True. Qed.

Lemma vma_at_spec l addr :
  (vma_at l addr = 0 ∧ ∀ p, p ∈ l → ¬ inside p.2 addr) ∨
  (∃ p, p ∈ l ∧ inside p.2 addr ∧ vma_at l addr = p.1).
Proof.
  unfold vma_at. destruct (filter _ l) as [|p l'] eqn:Hf; simpl.
  - left. split; [done|]. intros p Hp Hin. assert (p ∈ ([] : list (Z * vma_t))) as H; [|set_solver].
    rewrite <-Hf, list_elem_of_filter. done.
  - right. exists p. assert (p ∈ filter (λ p : Z * vma_t, inside p.2 addr) l) as H by (rewrite Hf; set_solver).
    rewrite list_elem_of_filter in H. naive_solver.
Qed.

(** The ranges below [addr] and those not below. *)
Lemma split_at l addr :
  StronglySorted (λ p q : Z * vma_t, vend p.2 ≤ base q.2) l → Forall (λ p, vma_wf p.2) l →
  ∃ l1 l2, l = l1 ++ l2 ∧ (∀ p, p ∈ l1 → base p.2 < addr) ∧ (∀ p, p ∈ l2 → addr ≤ base p.2).
Proof.
  intros Hso. induction Hso as [|p l Hso IH Hp]; intros Hwf; [exists [], []; split_and!; set_solver|].
  rewrite Forall_cons in Hwf. destruct Hwf as [Hw Hwf]. rewrite Forall_forall in Hp.
  destruct (decide (base p.2 < addr)) as [Hlt|Hge].
  - destruct (IH Hwf) as (l1 & l2 & -> & H1 & H2). exists (p :: l1), l2. split_and!; set_solver.
  - exists [], (p :: l). split_and!; [done|set_solver|].
    intros q [->|Hq]%elem_of_cons; [lia|]. specialize (Hp _ Hq). unfold vma_wf, vend in *. lia.
Qed.
End ranges.

(** ** Reading the tree *)

Lemma wp_vma_load s a x (Q : vma_t → vmm_state → Prop) : vmas s !! a = Some x → Q x s → wp (vma_load a) Q s.
Proof. intros H HQ. unfold wp, vma_load. by rewrite H. Qed.
Lemma wp_vmm_load s v x (Q : vmm_t → vmm_state → Prop) : vmms s !! v = Some x → Q x s → wp (vmm_load v) Q s.
Proof. intros H HQ. unfold wp, vmm_load. by rewrite H. Qed.

(** A tree operation that changes nothing. *)
Lemma wp_in_tree_read {A} s v x (m : M rb_state A) (Q : A → vmm_state → Prop) :
  vmms s !! v = Some x →
  wp m (λ a r, r = mkRb (nodes s) (tree_of x) ∧ Q a s) (mkRb (nodes s) (tree_of x)) →
  wp (in_tree v m) Q s.
Proof.
  intros Hx. unfold wp, in_tree. rewrite Hx. destruct (m _) as [[a r]| |]; [|done..].
  intros [-> HQ]. simpl. replace (set_tree (tree_of x) x) with x by (by destruct x).
  rewrite insert_id by done. by destruct s.
Qed.

Section searches.
Context (s : vmm_state) (v : Z) (l : list (Z * vma_t)) (Hs : space s v l).

Lemma space_elem p : p ∈ l → vmas s !! p.1 = Some p.2 ∧ 0 < p.1 ∧ vma_wf p.2.
Proof. intros Hp. pose proof (sp_vmas _ _ _ Hs) as H. rewrite Forall_forall in H. by apply H. Qed.
Lemma space_wf : Forall (λ p, vma_wf p.2) l.
Proof. eapply Forall_impl; [apply Hs|]. naive_solver. Qed.
Lemma space_base p addr : p ∈ l → base_of (vmas s) addr p.1 = base p.2.
Proof.
  intros Hp. destruct (space_elem p Hp) as (H & ? & _). unfold base_of, key.
  destruct (Z.eqb_spec p.1 (-1)); [lia|]. by rewrite H.
Qed.
Lemma space_tree addr :
  ∃ x, vmms s !! v = Some x ∧ is_rbtree (_vma_cmp (vmas s) addr) (mkRb (nodes s) (tree_of x)) l.*1.
Proof.
  destruct (sp_tree _ _ _ Hs) as (x & Hx & Ht). exists x. split; [done|].
  eapply is_rbtree_ext; [exact Ht| |done..].
  intros a b (p & -> & Hp)%list_elem_of_fmap (q & -> & Hq)%list_elem_of_fmap.
  unfold _vma_cmp. by rewrite !space_base.
Qed.

(** [rb_lower_bound] for an address. *)
Lemma wp_lower_bound l1 l2 addr (Q : Z → vmm_state → Prop) :
  l = l1 ++ l2 → (∀ p, p ∈ l1 → base p.2 < addr) → (∀ p, p ∈ l2 → addr ≤ base p.2) →
  Q (default 0 (head l2.*1)) s → wp (in_tree v (rb_lower_bound (_vma_cmp (vmas s) addr) key)) Q s.
Proof.
  intros Hl H1 H2 HQ. destruct (space_tree addr) as (x & Hx & Ht).
  eapply wp_in_tree_read; [exact Hx|]. eapply wp_rb_lower_bound; [apply _|exact Ht|]. split; [done|].
  rewrite Hl, fmap_app, first_of_split; [done| |];
    intros b (p & -> & Hp)%list_elem_of_fmap; unfold _vma_cmp;
    (rewrite space_base by set_solver); unfold base_of at 1; simpl;
    [apply H1 in Hp|apply H2 in Hp]; lia.
Qed.
Lemma wp_prev l1 p l2 (Q : Z → vmm_state → Prop) :
  l = l1 ++ p :: l2 → Q (default 0 (last l1.*1)) s → wp (in_tree v (rb_prev p.1)) Q s.
Proof.
  intros Hl HQ. destruct (space_tree 0) as (x & Hx & Ht). eapply wp_in_tree_read; [exact Hx|].
  eapply (wp_rb_prev _ _ _ Ht l1.*1 p.1 l2.*1); [by rewrite Hl, fmap_app|done].
Qed.
Lemma wp_next l1 p l2 (Q : Z → vmm_state → Prop) :
  l = l1 ++ p :: l2 → Q (default 0 (head l2.*1)) s → wp (in_tree v (rb_next p.1)) Q s.
Proof.
  intros Hl HQ. destruct (space_tree 0) as (x & Hx & Ht). eapply wp_in_tree_read; [exact Hx|].
  eapply (wp_rb_next _ _ _ Ht l1.*1 p.1 l2.*1); [by rewrite Hl, fmap_app|done].
Qed.
Lemma wp_last (Q : Z → vmm_state → Prop) : Q (default 0 (last l.*1)) s → wp (in_tree v rb_last) Q s.
Proof.
  intros HQ. destruct (space_tree 0) as (x & Hx & Ht). eapply wp_in_tree_read; [exact Hx|].
  by eapply (wp_rb_last _ _ _ Ht).
Qed.
Lemma wp_first (Q : Z → vmm_state → Prop) : Q (default 0 (head l.*1)) s → wp (in_tree v rb_first) Q s.
Proof.
  intros HQ. destruct (space_tree 0) as (x & Hx & Ht). eapply wp_in_tree_read; [exact Hx|].
  by eapply (wp_rb_first _ _ _ Ht).
Qed.

Lemma vma_holds_inside x addr : vma_wf x → vma_holds x addr = bool_decide (inside x addr).
Proof.
  intros (? & ? & Hw). unfold vma_holds, inside, vend in *. rewrite u64_id by lia.
  case_bool_decide; lia.
Qed.

(** The last range that starts below [addr] is the only one that can hold it. *)
Lemma last_below l1 l2 addr :
  l = l1 ++ l2 → (∀ p, p ∈ l1 → base p.2 < addr) → (∀ p, p ∈ l2 → ¬ inside p.2 addr) →
  vma_at l addr = match last l1 with Some p => if decide (inside p.2 addr) then p.1 else 0 | None => 0 end.
Proof.
  intros Hl H1 H2. pose proof (sp_disjoint _ _ _ Hs) as Hso.
  destruct l1 as [|p l1 _] using rev_ind; [rewrite Hl; by apply vma_at_none|]. rewrite last_snoc.
  rewrite Hl, <-app_assoc in Hso |- *. apply StronglySorted_app in Hso as (Hb & _ & _).
  rewrite vma_at_skip.
  - simpl. case_decide; [by apply vma_at_cons|]. apply vma_at_none. set_solver.
  - intros q Hq Hin. specialize (Hb q p Hq ltac:(set_solver)). specialize (H1 p ltac:(set_solver)).
    unfold inside in Hin. lia.
Qed.

(** What the code does with the last range below [addr], which it reached as [a]. *)
Lemma wp_check_below l1 l2 addr a (Q : Z → vmm_state → Prop) :
  l = l1 ++ l2 → (∀ p, p ∈ l1 → base p.2 < addr) → (∀ p, p ∈ l2 → ¬ inside p.2 addr) →
  a = default 0 (last l1.*1) → Q (vma_at l addr) s →
  wp (if negb (a =? 0) then x ← vma_load a; if vma_holds x addr then mret a else mret 0 else mret 0) Q s.
Proof.
  intros Hl H1 H2 -> HQ. erewrite last_below in HQ by done.
  destruct l1 as [|p l1 _] using rev_ind; [done|]. rewrite last_snoc in HQ.
  rewrite fmap_app. change ([p].*1) with [p.1]. rewrite last_snoc. simpl.
  destruct (space_elem p) as (Hp & Hp0 & Hw); [set_solver|].
  destruct (Z.eqb_spec p.1 0) as [|_]; [lia|]. simpl. apply wp_bind. eapply wp_vma_load; [exact Hp|].
  rewrite vma_holds_inside by done. case_bool_decide; case_decide; try done; by apply wp_ret.
Qed.

Lemma wp_find_vma addr (Q : Z → vmm_state → Prop) : Q (vma_at l addr) s → wp (_find_vma v addr) Q s.
Proof.
  intros HQ. destruct (split_at l addr) as (l1 & l2 & Hl & H1 & H2); [apply Hs|apply space_wf|].
  unfold _find_vma. wp_pures. eapply wp_lower_bound; [done..|].
  destruct l2 as [|p l2]; simpl.
  - apply wp_bind. apply wp_last.
    eapply (wp_check_below l1 []); [done|done|set_solver|by rewrite Hl, app_nil_r|done].
  - destruct (space_elem p) as (Hp & Hp0 & Hw); [set_solver|].
    destruct (Z.eqb_spec p.1 0) as [|_]; [lia|]. simpl. apply wp_bind. eapply wp_vma_load; [exact Hp|].
    rewrite vma_holds_inside by done. pose proof (sp_disjoint _ _ _ Hs) as Hso. rewrite Hl in Hso.
    apply StronglySorted_app in Hso as (Hb & _ & Hso). apply StronglySorted_cons in Hso as [Hp2 _].
    rewrite Forall_forall in Hp2. case_bool_decide as Hin.
    + apply wp_ret. rewrite Hl, vma_at_skip, vma_at_cons in HQ; [done|done|].
      intros q Hq Hq'. specialize (Hb q p Hq ltac:(set_solver)). specialize (H2 p ltac:(set_solver)).
      unfold inside in Hin, Hq'. lia.
    + apply wp_bind. eapply wp_prev; [exact Hl|].
      eapply wp_check_below; [exact Hl|done| |done|done].
      intros q [->|Hq]%elem_of_cons; [done|]. specialize (Hp2 _ Hq). specialize (H2 p ltac:(set_solver)).
      destruct Hw as (? & ? & ?). unfold inside, vend in *. lia.
Qed.
End searches.

(** Nothing of the [size] bytes at [t] is in a range. *)
Definition free_at (l : list (Z * vma_t)) (size t : Z) : Prop :=
  ∀ p, p ∈ l → vend p.2 ≤ t ∨ t + size ≤ base p.2.

(** Where a mapping of [size] bytes can go below [top]. *)
Definition is_gap (l : list (Z * vma_t)) (top size t : Z) : Prop :=
  VMM_USER_START ≤ t ∧ t mod PAGE_SIZE = 0 ∧ t + size ≤ top ∧ free_at l size t.

Lemma down_range x : 0 ≤ x → 0 ≤ x / PAGE_SIZE * PAGE_SIZE ≤ x ∧ x < x / PAGE_SIZE * PAGE_SIZE + PAGE_SIZE.
Proof. unfold PAGE_SIZE. Z.to_euclidean_division_equations. lia. Qed.

(** The ranges that start below [addr]. *)
Definition below (l : list (Z * vma_t)) (addr : Z) : nat := length (filter (λ p, base p.2 < addr) l).

Lemma below_mono l a b : a ≤ b → (below l a ≤ below l b)%nat.
Proof.
  unfold below. intros Hab. induction l as [|r k IH]; [done|]. rewrite !filter_cons.
  repeat case_decide; simpl; lia.
Qed.
Lemma below_lt l p addr : p ∈ l → base p.2 < addr → (below l (base p.2) < below l addr)%nat.
Proof.
  intros (l1 & l2 & ->)%list_elem_of_split Hlt.
  pose proof (below_mono l1 (base p.2) addr ltac:(lia)) as H1.
  pose proof (below_mono l2 (base p.2) addr ltac:(lia)) as H2. unfold below in *.
  rewrite !filter_app, (filter_cons_False _ p), (filter_cons_True _ p), !length_app by lia. simpl. lia.
Qed.

Section gap.
Context (s : vmm_state) (v : Z) (l : list (Z * vma_t)) (Hs : space s v l).

Lemma space_nodup : NoDup l.*1.
Proof. destruct (sp_tree _ _ _ Hs) as (x & _ & Ht). eapply sorted_nodup, Ht. apply _. Qed.
Lemma space_length : (length l ≤ size (vmas s))%nat.
Proof.
  rewrite <-size_dom, <-(length_fmap fst), <-(size_list_to_set (C:=gset Z) _ space_nodup).
  apply subseteq_size. intros a Ha. rewrite elem_of_list_to_set in Ha.
  apply list_elem_of_fmap in Ha as (p & -> & Hp). apply elem_of_dom.
  destruct (space_elem _ _ _ Hs p Hp) as [? _]. by eexists.
Qed.
Lemma below_bound addr : (below l addr < 4 + size (vmas s))%nat.
Proof. pose proof space_length. unfold below. pose proof (length_filter (λ p : Z * vma_t, base p.2 < addr) l). lia. Qed.

Lemma wp_find_vma_next l1 l2 addr (Q : Z → vmm_state → Prop) :
  l = l1 ++ l2 → (∀ p, p ∈ l1 → base p.2 < addr) → (∀ p, p ∈ l2 → addr ≤ base p.2) →
  Q (default 0 (head l2.*1)) s → wp (_find_vma_next v addr) Q s.
Proof. intros. unfold _find_vma_next. wp_pures. by eapply wp_lower_bound. Qed.

Context (size : Z) (Hsz : 0 < size) (Hfit : VMM_USER_START + size < 2 ^ 64).

(** A range that overlaps the highest candidate below [hint] leaves no gap
    above its base. *)
Lemma no_gap_above top p c t :
  p ∈ l → base p.2 < c + size → c < vend p.2 → is_gap l top size t → t ≤ c → t + size ≤ base p.2.
Proof. intros Hp H1 H2 (_ & _ & _ & Hf) Ht. destruct (Hf p Hp); lia. Qed.
Lemma gap_candidate top hint t :
  is_gap l top size t → t + size ≤ hint → t ≤ (hint - size) / PAGE_SIZE * PAGE_SIZE.
Proof. intros (_ & Hm & _ & _) Ht. unfold PAGE_SIZE in *. Z.to_euclidean_division_equations. lia. Qed.

(** A round: it ends at the highest gap, or goes on below a range. *)
Lemma wp_gap_round x hint (Q : Z + Z → vmm_state → Prop) :
  vmms s !! v = Some x → 0 ≤ hint ≤ mmap_base x → mmap_base x < 2 ^ 64 →
  (∀ t, is_gap l (mmap_base x) size t → t + size ≤ hint) →
  ((∀ t, ¬ is_gap l (mmap_base x) size t) → Q (inr 0) s) →
  (∀ t, is_gap l (mmap_base x) size t → (∀ t', is_gap l (mmap_base x) size t' → t' ≤ t) →
     Q (inr t) (put_vmms (<[v := set_mmap_base t x]> (vmms s)) s)) →
  (∀ p, p ∈ l → base p.2 < hint → (∀ t, is_gap l (mmap_base x) size t → t + size ≤ base p.2) →
     Q (inl (base p.2)) s) →
  wp (gap_round v size hint) Q s.
Proof.
  intros Hx Hh Htop Hall Hno Hyes Hmore. unfold gap_round. unfold VMM_USER_START in *.
  rewrite u64_id by lia. destruct (Z.ltb_spec hint (0x1000 + size)).
  { apply wp_ret, Hno. intros t Ht. specialize (Hall t Ht). unfold is_gap, VMM_USER_START in Ht. lia. }
  rewrite u64_id by lia. change (PAGE_SIZE - 1) with (2 ^ 12 - 1). rewrite land_not64 by lia.
  change (2 ^ 12) with PAGE_SIZE. set (c := _ / PAGE_SIZE * PAGE_SIZE).
  assert (c ≤ hint - size ∧ c mod PAGE_SIZE = 0) as [Hc Hcm].
  { subst c. split; [by apply down_range; lia|]. apply Z.mod_mul. done. }
  assert (∀ t, is_gap l (mmap_base x) size t → t ≤ c) as Hbest.
  { intros t Ht. eapply gap_candidate; [done|by apply Hall]. }
  destruct (Z.ltb_spec c 0x1000).
  { apply wp_ret, Hno. intros t Ht. specialize (Hbest t Ht). unfold is_gap, VMM_USER_START in Ht. lia. }
  assert (∀ p, p ∈ l → base p.2 < c + size → c < vend p.2 → Q (inl (base p.2)) s) as Hgo.
  { intros p Hp H1 H2. apply Hmore; [done|lia|]. intros t Ht. eapply no_gap_above; eauto. }
  assert (free_at l size c → wp (vmm_store v (set_mmap_base c) ;; mret (inr c)) Q s) as Hdone.
  { intros Hf. apply wp_bind. unfold wp, vmm_store. rewrite Hx. apply Hyes; [|done].
    split_and!; [done|done|lia|done]. }
  apply wp_bind. apply (wp_find_vma _ _ _ Hs).
  destruct (vma_at_spec l c) as [[-> Hn1]|(p & Hp & Hin & ->)].
  2:{ destruct (space_elem _ _ _ Hs p Hp) as (Hp1 & Hp2 & _). destruct (Z.eqb_spec p.1 0); [lia|].
      apply wp_bind, wp_ret. destruct (Z.eqb_spec p.1 0); [lia|].
      apply wp_bind. eapply wp_vma_load; [done|]. apply wp_ret. unfold inside in Hin. apply Hgo; [done|lia..]. }
  simpl. apply wp_bind. rewrite u64_id by lia. apply (wp_find_vma _ _ _ Hs).
  destruct (vma_at_spec l (c + size - 1)) as [[-> Hn2]|(p & Hp & Hin & ->)].
  2:{ destruct (space_elem _ _ _ Hs p Hp) as (Hp1 & Hp2 & _). destruct (Z.eqb_spec p.1 0); [lia|].
      apply wp_bind. eapply wp_vma_load; [done|]. apply wp_ret. unfold inside in Hin. apply Hgo; [done|lia..]. }
  simpl. destruct (split_at l c) as (l1 & l2 & Hl & H1 & H2); [apply Hs|by eapply space_wf|].
  apply wp_bind. eapply wp_find_vma_next; [done..|].
  assert (∀ p, p ∈ l1 → vend p.2 ≤ c) as Hlow.
  { intros p Hp. specialize (H1 p Hp). destruct (decide (vend p.2 ≤ c)); [done|].
    exfalso. apply (Hn1 p); [set_solver|]. unfold inside. lia. }
  destruct l2 as [|p l2].
  { apply Hdone. intros p Hp. left. apply Hlow. rewrite Hl, app_nil_r in Hp. done. }
  destruct (space_elem _ _ _ Hs p) as (Hp1 & Hp2 & Hw); [set_solver|]. simpl.
  destruct (Z.eqb_spec p.1 0); [lia|]. apply wp_bind. eapply wp_vma_load; [done|].
  rewrite u64_id by lia. rewrite Z.geb_leb. destruct (Z.leb_spec (c + size) (base p.2)) as [Hge|Hlt].
  - apply Hdone. intros q Hq. rewrite Hl in Hq. apply elem_of_app in Hq as [Hq|[->|Hq]%elem_of_cons];
      [by left; apply Hlow|by right|right].
    pose proof (sp_disjoint _ _ _ Hs) as Hso. rewrite Hl in Hso.
    apply StronglySorted_app in Hso as (_ & _ & Hso). apply StronglySorted_cons in Hso as [Hso _].
    rewrite Forall_forall in Hso. specialize (Hso q Hq). destruct Hw as (? & ? & ?). unfold vend in *. lia.
  - apply wp_ret. specialize (H2 p ltac:(set_solver)). destruct Hw as (? & ? & ?).
    apply Hgo; [set_solver|lia|]. unfold vend. lia.
Qed.

Lemma wp_find_free_gap x (Q : Z → vmm_state → Prop) :
  vmms s !! v = Some x → 0 ≤ mmap_base x < 2 ^ 64 →
  ((∀ t, ¬ is_gap l (mmap_base x) size t) → Q 0 s) →
  (∀ t, is_gap l (mmap_base x) size t → (∀ t', is_gap l (mmap_base x) size t' → t' ≤ t) →
     Q t (put_vmms (<[v := set_mmap_base t x]> (vmms s)) s)) →
  wp (_find_free_gap v size) Q s.
Proof.
  intros Hx Hm Hno Hyes. unfold _find_free_gap, vma_fuel. apply wp_bind.
  eapply wp_vmm_load; [exact Hx|]. apply wp_bind, wp_gets.
  apply (wp_loop (λ n hint s', s' = s ∧ n = below l hint ∧ 0 ≤ hint ≤ mmap_base x ∧
    ∀ t, is_gap l (mmap_base x) size t → t + size ≤ hint) _ _ (below l (mmap_base x))).
  - apply below_bound.
  - split_and!; [done|done|lia|lia|]. unfold is_gap. lia.
  - intros n hint s' (-> & -> & Hh & Hall). apply (wp_gap_round x); [done|lia|lia|done|done|done|].
    intros p Hp Hlt Hall'. exists (below l (base p.2)). split; [by apply below_lt|].
    destruct (space_elem _ _ _ Hs p Hp) as (_ & _ & ? & _). split_and!; [done|done|lia|lia|done].
Qed.
End gap.

(** * [vmm_is_accessible] *)

(** Every address from [a] to [b] is in a range that grants [access]. *)
Definition accessible (l : list (Z * vma_t)) (access a b : Z) : Prop :=
  ∀ addr, a ≤ addr < b → ∃ p, p ∈ l ∧ inside p.2 addr ∧ Z.land (vflags p.2) access = access.

(** The ranges that end above [addr]. *)
Definition above (l : list (Z * vma_t)) (addr : Z) : nat := length (filter (λ p, addr < vend p.2) l).

Lemma above_mono l a b : a ≤ b → (above l b ≤ above l a)%nat.
Proof.
  unfold above. intros Hab. induction l as [|r k IH]; [done|]. rewrite !filter_cons.
  repeat case_decide; simpl; lia.
Qed.
Lemma above_lt l p addr : p ∈ l → addr < vend p.2 → (above l (vend p.2) < above l addr)%nat.
Proof.
  intros (l1 & l2 & ->)%list_elem_of_split Hlt.
  pose proof (above_mono l1 addr (vend p.2) ltac:(lia)) as H1.
  pose proof (above_mono l2 addr (vend p.2) ltac:(lia)) as H2. unfold above in *.
  rewrite !filter_app, (filter_cons_False _ p), (filter_cons_True _ p), !length_app by lia. simpl. lia.
Qed.

Section access.
Context (s : vmm_state) (v : Z) (l : list (Z * vma_t)) (Hs : space s v l).

(** The ranges of a space are disjoint: an address is in one of them. *)
Lemma space_unique p q addr : p ∈ l → q ∈ l → inside p.2 addr → inside q.2 addr → p = q.
Proof.
  intros Hp Hq Hip Hiq. pose proof (sp_disjoint _ _ _ Hs) as Hso.
  apply list_elem_of_split in Hp as (l1 & l2 & Hl). rewrite Hl in Hso, Hq.
  apply StronglySorted_app in Hso as (Hb & _ & Hso). apply StronglySorted_cons in Hso as [Ha _].
  rewrite Forall_forall in Ha. unfold inside in *.
  apply elem_of_app in Hq as [Hq|[->|Hq]%elem_of_cons]; [|done|].
  - specialize (Hb q p Hq ltac:(set_solver)). lia.
  - specialize (Ha q Hq). lia.
Qed.

Lemma wp_access_loop access a b (Q : Z → vmm_state → Prop) :
  (accessible l access a b → Q 1 s) → (¬ accessible l access a b → Q 0 s) →
  wp (fuel ← vma_fuel; loop fuel (access_round v b access) a) Q s.
Proof.
  intros Hyes Hno. apply wp_bind, wp_gets.
  apply (wp_loop (λ n addr s', s' = s ∧ n = above l addr ∧ a ≤ addr ∧ accessible l access a addr) _ _ (above l a)).
  - pose proof (space_length _ _ _ Hs). unfold above.
    pose proof (length_filter (λ p : Z * vma_t, a < vend p.2) l). lia.
  - split_and!; [done|done|done|]. intros addr ?. lia.
  - intros n addr s' (-> & -> & Ha & Hacc). unfold access_round. destruct (Z.ltb_spec addr b); simpl.
    2:{ apply wp_ret, Hyes. intros c Hc. apply Hacc. lia. }
    apply wp_bind. apply (wp_find_vma _ _ _ Hs).
    destruct (vma_at_spec l addr) as [[-> Hn]|(p & Hp & Hin & ->)].
    { apply wp_ret, Hno. intros Hall. destruct (Hall addr) as (p & Hp & Hi & _); [lia|]. by apply (Hn p). }
    destruct (space_elem _ _ _ Hs p Hp) as (Hp1 & Hp2 & Hw). destruct (Z.eqb_spec p.1 0); [lia|].
    apply wp_bind. eapply wp_vma_load; [done|].
    destruct (Z.eqb_spec (Z.land (vflags p.2) access) access) as [He|Hne]; simpl.
    + apply wp_ret. destruct Hw as (? & ? & ?). unfold inside, vend in Hin. unfold vend in *. rewrite u64_id by lia.
      exists (above l (vend p.2)). split; [apply above_lt; [done|unfold vend; lia]|].
      split_and!; [done|done|lia|]. intros c Hc. destruct (decide (c < addr)); [apply Hacc; lia|].
      exists p. split_and!; [done|unfold inside, vend; lia|done].
    + apply wp_ret, Hno. intros Hall. destruct (Hall addr) as (q & Hq & Hi & Hf); [lia|].
      by rewrite (space_unique p q addr) in Hne.
Qed.
End access.
