(* ===== verification/VmmOps.v ===== *)
(** Adding a range to an address space and taking one out of it. *)
From Stdlib Require Import Sorting.Sorted.
From stdpp Require Import sorting.
From S2P Require Import Prelude Errno RBTree RBTreeRep RBTreeSpec RBTreeRemove Sync Pmm Paging Vmm VmmSpec.

(** * What a space depends on *)

Lemma space_ext s s' v x x' l :
  space s v l → vmms s !! v = Some x → vmms s' !! v = Some x' → tree_of x' = tree_of x →
  (∀ a, a ∈ l.*1 → vmas s' !! a = vmas s !! a ∧ nodes s' !! a = nodes s !! a) → space s' v l.
Proof.
  intros Hs Hx Hx' Ht Hl. destruct (sp_tree _ _ _ Hs) as (y & Hy & Hrb). rewrite Hx in Hy.
  apply (inj Some) in Hy as <-. assert (Forall (λ p, vmas s' !! p.1 = Some p.2 ∧ 0 < p.1 ∧ vma_wf p.2) l) as Hv.
  { rewrite Forall_forall. intros p Hp. destruct (space_elem _ _ _ Hs p Hp) as (? & ? & ?).
    destruct (Hl p.1) as [-> _]; [by apply list_elem_of_fmap_2|]. done. }
  constructor; [|done|apply Hs]. exists x'. split; [done|]. rewrite Ht.
  eapply is_rbtree_ext; [exact Hrb| |by intros a Ha; apply Hl|done].
  intros a b Ha Hb. unfold _vma_cmp, base_of. destruct (Hl a Ha) as [-> _]. by destruct (Hl b Hb) as [-> _].
Qed.

(** [s'] differs from [s] in space [v] and in the nodes [l] alone. *)
Record vmm_frame (v : Z) (l : list Z) (s s' : vmm_state) : Prop := mkFrame {
  fr_vmas : ∀ a, a ∉ l → vmas s' !! a = vmas s !! a;
  fr_nodes : ∀ a, a ∉ l → nodes s' !! a = nodes s !! a;
  fr_vmms : ∀ w, w ≠ v → vmms s' !! w = vmms s !! w;
  fr_paging : v_paging s' = v_paging s;
  fr_current : current_vmm s' = current_vmm s;
  fr_kernel : kernel_vmm s' = kernel_vmm s;
}.

(** The other spaces do not change. *)
Lemma space_other v l s s' w lw :
  vmm_frame v l s s' → space s w lw → w ≠ v → (∀ a, a ∈ lw.*1 → a ∉ l) → space s' w lw.
Proof.
  intros F Hs Hw Hd. destruct (sp_tree _ _ _ Hs) as (x & Hx & _).
  eapply space_ext; [exact Hs|exact Hx|by rewrite (fr_vmms _ _ _ _ F)|done|].
  intros a Ha. split; [apply F|apply F]; by apply Hd.
Qed.
Lemma frame_trans v l s1 s2 s3 : vmm_frame v l s1 s2 → vmm_frame v l s2 s3 → vmm_frame v l s1 s3.
Proof.
  intros [V1 N1 M1 P1 C1 K1] [V2 N2 M2 P2 C2 K2]. constructor; intros;
    [by rewrite V2, V1|by rewrite N2, N1|by rewrite M2, M1|by rewrite P2|by rewrite C2|by rewrite K2].
Qed.
Lemma frame_weaken v l l' s s' : vmm_frame v l s s' → (∀ a, a ∈ l → a ∈ l') → vmm_frame v l' s s'.
Proof. intros [V N ? ? ? ?] Hl. constructor; [intros a Ha; apply V; naive_solver|intros a Ha; apply N; naive_solver|done..]. Qed.

(** * Tree operations *)

Lemma wp_in_tree {A} s v x (m : M rb_state A) (Q : A → vmm_state → Prop) :
  vmms s !! v = Some x →
  wp m (λ a r, Q a (put_vmms (<[v := set_tree (rb_tree r) x]> (vmms s)) (put_nodes (rb_heap r) s))) (mkRb (nodes s) (tree_of x)) →
  wp (in_tree v m) Q s.
Proof. intros Hx. unfold wp, in_tree. rewrite Hx. by destruct (m _) as [[a r]| |]. Qed.

(** A range that overlaps no other starts where no other does. *)
Lemma free_base s v l y p : space s v l → vma_wf y → free_at l (vsize y) (base y) → p ∈ l → base p.2 ≠ base y.
Proof.
  intros Hs (? & ? & ?) Hf Hp. destruct (space_elem _ _ _ Hs p Hp) as (_ & _ & ? & ? & ?).
  destruct (Hf p Hp); unfold vend in *; lia.
Qed.

(** Where the tree puts a range that overlaps no other keeps the list of ranges ordered. *)
Lemma insert_sorted s v l1 l2 a y h tr :
  space s v (l1 ++ l2) → vmas s !! a = Some y → 0 < a → vma_wf y → free_at (l1 ++ l2) (vsize y) (base y) →
  is_rbtree (_vma_cmp (vmas s) 0) (mkRb h tr) (l1.*1 ++ a :: l2.*1) →
  StronglySorted (λ p q : Z * vma_t, vend p.2 ≤ base q.2) (l1 ++ (a, y) :: l2).
Proof.
  intros Hs Hy Ha Hw Hf Hrb. pose proof (sp_disjoint _ _ _ Hs) as Hso.
  pose proof (is_sorted _ _ _ Hrb) as Hb. apply StronglySorted_app in Hb as (Hb1 & _ & Hb2).
  apply StronglySorted_cons in Hb2 as [Hb2 _]. rewrite Forall_forall in Hb2.
  assert (base_of (vmas s) 0 a = base y) as Hby.
  { unfold base_of, key. destruct (Z.eqb_spec a (-1)); [lia|]. by rewrite Hy. }
  apply StronglySorted_app in Hso as (H12 & H1 & H2). apply StronglySorted_app. split_and!; [|done|].
  - intros p q Hp [->|Hq]%elem_of_cons; [|by apply H12]. simpl.
    specialize (Hb1 p.1 a ltac:(by apply list_elem_of_fmap_2) ltac:(set_solver)). unfold _vma_cmp in Hb1.
    rewrite (space_base _ _ _ Hs), Hby in Hb1 by set_solver. destruct (Hf p); [set_solver|done|].
    destruct Hw as (? & ? & ?). lia.
  - apply StronglySorted_cons. split; [|done]. rewrite Forall_forall. intros q Hq. simpl.
    specialize (Hb2 q.1 ltac:(by apply list_elem_of_fmap_2)). unfold _vma_cmp in Hb2.
    rewrite (space_base _ _ _ Hs), Hby in Hb2 by set_solver. destruct (space_elem _ _ _ Hs q) as (_ & _ & ? & ? & ?); [set_solver|].
    destruct (Hf q); [set_solver| |done]. unfold vend in *. lia.
Qed.

Lemma wp_tree_insert s v x l a y (Q : Z → vmm_state → Prop) :
  space s v l → vmms s !! v = Some x → vmas s !! a = Some y → is_Some (nodes s !! a) →
  0 < a → a ∉ l.*1 → vma_wf y → (∀ p, p ∈ l → base p.2 ≠ base y) →
  (∀ l1 l2 tr h, l = l1 ++ l2 →
     let s' := put_vmms (<[v := set_tree tr x]> (vmms s)) (put_nodes h s) in
     (free_at l (vsize y) (base y) → space s' v (l1 ++ (a, y) :: l2)) → vmm_frame v (a :: l.*1) s s' → Q 0 s') →
  wp (in_tree v (rb_insert (_vma_cmp (vmas s) 0) a)) Q s.
Proof.
  intros Hs Hx Hy [n Hn] Ha Hal Hw Hf HQ. destruct (space_tree _ _ _ Hs 0) as (x' & Hx' & Hrb).
  rewrite Hx in Hx'. apply (inj Some) in Hx' as <-. eapply wp_in_tree; [exact Hx|].
  eapply wp_rb_insert; [apply _|exact Hrb|lia|done|exact Hn| |].
  { intros (b & (p & -> & Hp)%list_elem_of_fmap & Hc). exfalso. unfold _vma_cmp in Hc.
    rewrite (space_base _ _ _ Hs) in Hc by done. unfold base_of, key in Hc.
    destruct (Z.eqb_spec a (-1)); [lia|]. rewrite Hy in Hc. simpl in Hc.
    specialize (Hf p Hp). lia. }
  intros k1 k2 [h tr] Hl Hrb' [Hfr _]. apply fmap_app_inv in Hl as (l1 & l2 & -> & -> & Hl).
  subst l. simpl in *. apply (HQ l1 l2); [done| |].
  - intros Hfree. constructor; simpl.
    + eexists. rewrite lookup_insert_eq, fmap_app. by split.
    + pose proof (sp_vmas _ _ _ Hs) as Hv. rewrite Forall_app, Forall_cons in *. naive_solver.
    + by eapply insert_sorted.
  - constructor; simpl; [done| |intros; by rewrite lookup_insert_ne|done..]. intros b Hb. by apply Hfr.
Qed.

(** A list is split by a property in one way. *)
Lemma split_unique {A} (P : A → Prop) l1 l2 k1 k2 :
  l1 ++ l2 = k1 ++ k2 → (∀ x, x ∈ l1 → P x) → (∀ x, x ∈ k1 → P x) →
  (∀ x, x ∈ l2 → ¬ P x) → (∀ x, x ∈ k2 → ¬ P x) → l1 = k1 ∧ l2 = k2.
Proof.
  revert k1. induction l1 as [|x l1 IH]; intros [|y k1] He H1 H2 H3 H4; simpl in *; [done| | |].
  - exfalso. subst l2. apply (H3 y); set_solver.
  - exfalso. subst k2. apply (H4 x); set_solver.
  - injection He as -> He. destruct (IH k1 He) as [-> ->]; [set_solver..|done].
Qed.

(** The ranges around a range of a space. *)
Lemma space_around s v l1 p l2 : space s v (l1 ++ p :: l2) →
  (∀ q, q ∈ l1 → vend q.2 ≤ base p.2) ∧ (∀ q, q ∈ l2 → vend p.2 ≤ base q.2).
Proof.
  intros Hs. pose proof (sp_disjoint _ _ _ Hs) as Hso. rewrite StronglySorted_app, StronglySorted_cons, Forall_forall in Hso.
  destruct Hso as (H1 & _ & H2 & _). split; [|done]. intros q Hq. apply H1; set_solver.
Qed.
(** A range that has a place between two others is put there. *)
Lemma wp_tree_insert_at s v x k1 k2 a y (Q : Z → vmm_state → Prop) :
  space s v (k1 ++ k2) → vmms s !! v = Some x → vmas s !! a = Some y → is_Some (nodes s !! a) →
  0 < a → a ∉ (k1 ++ k2).*1 → vma_wf y → (∀ q, q ∈ k1 → vend q.2 ≤ base y) → (∀ q, q ∈ k2 → vend y ≤ base q.2) →
  (∀ tr h, let s' := put_vmms (<[v := set_tree tr x]> (vmms s)) (put_nodes h s) in
     space s' v (k1 ++ (a, y) :: k2) → vmm_frame v (a :: (k1 ++ k2).*1) s s' → Q 0 s') →
  wp (in_tree v (rb_insert (_vma_cmp (vmas s) 0) a)) Q s.
Proof.
  intros Hs Hx Hy Hn Ha Hal Hw H1 H2 HQ.
  assert (free_at (k1 ++ k2) (vsize y) (base y)) as Hf.
  { intros q [Hq|Hq]%elem_of_app; [left; by apply H1|right; by apply H2]. }
  eapply wp_tree_insert; [done..|by intros; eapply free_base|]. intros l1 l2 tr h Hl s' Hs' Hfr.
  specialize (Hs' Hf). destruct (split_unique (λ q : Z * vma_t, base q.2 < base y) _ _ _ _ Hl) as [-> ->]; [..|by apply HQ].
  - intros q Hq. specialize (H1 q Hq). destruct (space_elem _ _ _ Hs q) as (_ & _ & ? & ? & ?); [set_solver|].
    unfold vend in *. lia.
  - intros q Hq. apply (space_around _ _ _ _ _ Hs') in Hq as Hq'. simpl in Hq'.
    destruct (space_elem _ _ _ Hs' q) as (_ & _ & ? & ? & ?); [set_solver|]. unfold vend in *. lia.
  - intros q Hq. specialize (H2 q Hq). destruct Hw as (? & ? & ?). unfold vend in *. lia.
  - intros q Hq. apply (space_around _ _ _ _ _ Hs') in Hq. simpl in Hq. destruct Hw as (? & ? & ?). unfold vend in *. lia.
Qed.

Lemma wp_tree_remove s v x l1 p l2 (Q : unit → vmm_state → Prop) :
  space s v (l1 ++ p :: l2) → vmms s !! v = Some x →
  (∀ tr h, let s' := put_vmms (<[v := set_tree tr x]> (vmms s)) (put_nodes h s) in
     space s' v (l1 ++ l2) → vmm_frame v (l1 ++ p :: l2).*1 s s' → Q tt s') →
  wp (in_tree v (rb_remove p.1)) Q s.
Proof.
  intros Hs Hx HQ. destruct (space_tree _ _ _ Hs 0) as (x' & Hx' & Hrb).
  rewrite Hx in Hx'. apply (inj Some) in Hx' as <-. eapply wp_in_tree; [exact Hx|].
  rewrite fmap_app in Hrb. eapply wp_rb_remove; [apply _|exact Hrb|]. intros [h tr] Hrb' [Hfr _]. simpl in *.
  apply HQ.
  - constructor; simpl.
    + eexists. rewrite lookup_insert_eq, fmap_app. by split.
    + pose proof (sp_vmas _ _ _ Hs) as Hv. rewrite Forall_app, Forall_cons in Hv. rewrite Forall_app. naive_solver.
    + pose proof (sp_disjoint _ _ _ Hs) as Hv. rewrite StronglySorted_app, StronglySorted_cons in Hv.
      rewrite StronglySorted_app. split_and!; [|naive_solver..]. intros q r Hq Hr. apply Hv; set_solver.
  - constructor; simpl; [done| |intros; by rewrite lookup_insert_ne|done..].
    intros b Hb. apply Hfr. by rewrite fmap_app in Hb.
Qed.

(** * Allocation *)

(** The next answer of the heap, and what the code relies on of it. *)
Definition next_alloc (s : vmm_state) : Z := default 0 (head (allocs s)).
Definition fresh_next (s : vmm_state) : Prop := next_alloc s ≠ 0 → 0 < next_alloc s ∧ vmas s !! next_alloc s = None.

Lemma wp_vmm_kalloc s (Q : Z → vmm_state → Prop) : Q (next_alloc s) (put_allocs (tail (allocs s)) s) → wp kalloc Q s.
Proof.
  intros HQ. unfold wp, kalloc, next_alloc in *. destruct (allocs s) eqn:Ha; simpl in *; [|done].
  destruct s; simpl in *; by subst.
Qed.
Lemma wp_vma_alloc s (Q : Z → vmm_state → Prop) :
  fresh_next s →
  (next_alloc s = 0 → Q 0 (put_allocs (tail (allocs s)) s)) →
  (∀ a, a = next_alloc s → 0 < a → vmas s !! a = None →
     Q a (put_vmas (<[a := mkVma 0 0 0 0 0]> (vmas s)) (put_nodes (<[a := mkNode 0 0 0 RB_BLACK]> (nodes s)) (put_allocs (tail (allocs s)) s)))) →
  wp _vma_alloc Q s.
Proof.
  intros Hf H0 H1. unfold _vma_alloc. apply wp_bind, wp_vmm_kalloc. destruct (Z.eqb_spec (next_alloc s) 0) as [E|Hn].
  - apply wp_ret. by apply H0.
  - wp_pures. by apply H1; [|apply Hf..].
Qed.

(** A node that is not in use is not in a space. *)
Lemma fresh_notin s v l a : space s v l → vmas s !! a = None → a ∉ l.*1.
Proof.
  intros Hs Hn (p & -> & Hp)%list_elem_of_fmap. destruct (space_elem _ _ _ Hs p Hp) as [H _]. by rewrite Hn in H.
Qed.

(** The number of ranges is what the space says. *)
Definition counted (s : vmm_state) (v : Z) (l : list (Z * vma_t)) : Prop :=
  ∃ x, vmms s !! v = Some x ∧ vmas_count x = u64 (Z.of_nat (length l)).

Section ops.
Context (me hhdm_offset : Z).

Lemma wp_vma_store s a x f (Q : unit → vmm_state → Prop) :
  vmas s !! a = Some x → Q tt (put_vmas (<[a := f x]> (vmas s)) s) → wp (vma_store a f) Q s.
Proof. intros H HQ. unfold wp, vma_store. by rewrite H. Qed.
Lemma wp_vmm_store s v x f (Q : unit → vmm_state → Prop) :
  vmms s !! v = Some x → Q tt (put_vmms (<[v := f x]> (vmms s)) s) → wp (vmm_store v f) Q s.
Proof. intros H HQ. unfold wp, vmm_store. by rewrite H. Qed.
Lemma wp_unlock_vmm s (Q : unit → vmm_state → Prop) :
  vmm_lock s = held me → Q tt (put_vmm_lock unlocked s) → wp (unlock_vmm me) Q s.
Proof. intros Hl HQ. unfold unlock_vmm. apply wp_zoom. rewrite Hl. by apply wp_lock_release. Qed.
Lemma wp_lock_vmm s (Q : unit → vmm_state → Prop) :
  vmm_lock s = unlocked → Q tt (put_vmm_lock (held me) s) → wp (lock_vmm me) Q s.
Proof. intros Hl HQ. unfold lock_vmm. apply wp_zoom. rewrite Hl. by apply wp_lock_acquire. Qed.

(** The end of [vmm_map] for a range whose pages come later. *)
Lemma wp_vmm_map_at s v l b n fl (Q : Z → vmm_state → Prop) :
  space s v l → counted s v l → vmm_lock s = held me → fresh_next s →
  vma_wf (mkVma b n fl 0 0) → flag fl VFLAG_LAZY = true → (∀ p, p ∈ l → base p.2 ≠ b) →
  (next_alloc s = 0 → Q 0 (put_vmm_lock unlocked (put_allocs (tail (allocs s)) s))) →
  (∀ a l1 l2 s', a = next_alloc s → 0 < a → l = l1 ++ l2 →
     vmm_lock s' = unlocked → vmm_frame v (a :: l.*1) s s' →
     vmas s' = <[a := mkVma b n fl 0 0]> (vmas s) →
     (free_at l n b → space s' v (l1 ++ (a, mkVma b n fl 0 0) :: l2)) →
     counted s' v (l1 ++ (a, mkVma b n fl 0 0) :: l2) → Q b s') →
  wp (map_at me hhdm_offset v b n fl) Q s.
Proof.
  intros Hs (x & Hx & Hc) Hl Hf Hw Hlazy Hb H0 H1. unfold map_at. apply wp_bind. apply wp_vma_alloc; [done| |].
  { intros Ha. simpl. apply wp_bind, wp_unlock_vmm; [done|]. apply wp_ret. by apply H0. }
  intros a Ha Hpos Hnone. destruct (Z.eqb_spec a 0); [lia|]. set (s1 := put_vmas _ _).
  assert (a ∉ l.*1) as Hal by by eapply fresh_notin.
  apply wp_bind. eapply wp_vma_store; [apply lookup_insert_eq|]. rewrite Hlazy. simpl. rewrite insert_insert_eq.
  set (s2 := put_vmas _ s1). apply wp_bind, wp_ret. simpl. apply wp_bind, wp_gets.
  assert (space s2 v l) as Hs2.
  { eapply (space_ext s); [done|exact Hx|exact Hx|done|]. intros c Hcl. simpl.
    rewrite !lookup_insert_ne by set_solver. done. }
  apply wp_bind. change (_vma_cmp (<[_ := _]> _)) with (_vma_cmp (vmas s2)).
  eapply (wp_tree_insert s2 v x l a (mkVma b n fl 0 0)); [done|done|apply lookup_insert_eq| |done|done|done|done|].
  { simpl. rewrite lookup_insert_eq. by eexists. }
  intros l1 l2 tr h Hll s3 Hs3 Hfr. simpl. apply wp_bind. eapply wp_vmm_store; [apply lookup_insert_eq|].
  apply wp_bind, wp_unlock_vmm; [done|]. apply wp_ret. apply (H1 a l1 l2); [done..| | | |].
  - eapply (frame_trans _ _ _ s2).
    + constructor; simpl; [intros; by rewrite lookup_insert_ne by set_solver..|done|done|done|done].
    + eapply (frame_trans _ _ _ s3); [done|]. constructor; simpl; [done|done| |done..].
      intros w Hwv. by rewrite lookup_insert_ne by done.
  - done.
  - intros Hfree. eapply (space_ext s3); [by apply Hs3|apply lookup_insert_eq|apply lookup_insert_eq|done|done].
  - eexists. split; [apply lookup_insert_eq|]. simpl. rewrite Hc, Hll, !length_app. simpl. unfold u64.
    rewrite Zplus_mod_idemp_l. f_equal. lia.
Qed.
End ops.
