(* ===== verification/VmmUnmap.v ===== *)
(** Cutting a range in two ([_vma_split]) and taking the ranges between two
    addresses out of a space ([vmm_unmap]). *)
From Stdlib Require Import Sorting.Sorted.
From stdpp Require Import sorting.
From S2P Require Import Prelude Errno RBTree RBTreeRep RBTreeSpec RBTreeRemove Sync Pmm Paging Vmm VmmSpec VmmOps.

(** * The reference definitions *)

(** The parts of a range below and from [addr] on. *)
Definition vma_head (addr : Z) (x : vma_t) : vma_t := set_vsize (addr - base x) x.
Definition vma_tail (addr : Z) (x : vma_t) : vma_t := mkVma addr (vend x - addr) (vflags x) 0 0.

(** The range that [addr] is in the middle of is cut there; [a] is the node of
    its second part. *)
Definition cut_range (a addr : Z) (p : Z * vma_t) : list (Z * vma_t) :=
  if decide (base p.2 < addr < vend p.2) then [(p.1, vma_head addr p.2); (a, vma_tail addr p.2)] else [p].
Definition cut (a addr : Z) (l : list (Z * vma_t)) : list (Z * vma_t) := l ≫= cut_range a addr.

(** The ranges that do not lie between [b] and [e]. *)
Definition outside (b e : Z) (p : Z * vma_t) : Prop := ¬ (b ≤ base p.2 ∧ vend p.2 ≤ e).
#[global] Instance outside_dec b e p : Decision (outside b e p).
Proof. unfold outside. apply _. Defined.

Lemma cut_none a addr l : (∀ p, p ∈ l → ¬ (base p.2 < addr < vend p.2)) → cut a addr l = l.
Proof.
  induction l as [|p l IH]; intros H; [done|]. unfold cut in *. rewrite bind_cons, IH by set_solver.
  unfold cut_range. by rewrite decide_False by set_solver.
Qed.
Lemma cut_app a addr l1 l2 : cut a addr (l1 ++ l2) = cut a addr l1 ++ cut a addr l2.
Proof. apply bind_app. Qed.

(** * The state *)

(** A range gets shorter. *)
Lemma space_shrink s v x l1 p l2 y :
  space s v (l1 ++ p :: l2) → vmms s !! v = Some x → base y = base p.2 → vma_wf y → vend y ≤ vend p.2 →
  space (put_vmas (<[p.1 := y]> (vmas s)) s) v (l1 ++ (p.1, y) :: l2).
Proof.
  intros Hs Hx Hb Hw He. pose proof (space_nodup _ _ _ Hs) as Hnd.
  destruct (sp_tree _ _ _ Hs) as (x' & Hx' & Hrb). rewrite fmap_app in Hnd. apply NoDup_app in Hnd as (_ & H12 & Hnd).
  apply NoDup_cons in Hnd as [Hp2 _]. constructor.
  - exists x'. split; [done|]. rewrite fmap_app in *. eapply is_rbtree_ext; [exact Hrb| |done..].
    simpl. assert (∀ c, base_of (<[p.1:=y]> (vmas s)) 0 c = base_of (vmas s) 0 c) as Hsame; [|by intros; unfold _vma_cmp; rewrite !Hsame].
    intros c. unfold base_of. destruct (c =? key); [done|]. destruct (decide (c = p.1)) as [->|]; [|by rewrite lookup_insert_ne].
    rewrite lookup_insert_eq. destruct (space_elem _ _ _ Hs p) as [-> _]; [set_solver|done].
  - rewrite Forall_forall. intros q Hq. simpl. apply elem_of_app in Hq as [Hq|[->|Hq]%elem_of_cons].
    + rewrite lookup_insert_ne; [apply (space_elem _ _ _ Hs); set_solver|].
      intros E. apply (H12 q.1); [by apply list_elem_of_fmap_2|rewrite <-E; set_solver].
    + simpl. rewrite lookup_insert_eq. split_and!; [done| |done]. apply (space_elem _ _ _ Hs); set_solver.
    + rewrite lookup_insert_ne; [apply (space_elem _ _ _ Hs); set_solver|].
      intros E. apply Hp2. rewrite E. by apply list_elem_of_fmap_2.
  - pose proof (sp_disjoint _ _ _ Hs) as Hso. rewrite StronglySorted_app, StronglySorted_cons in *.
    destruct Hso as (H1 & H2 & H3 & H4). rewrite Forall_forall in *. split_and!; [|done| |done].
    + intros q r Hq [->|Hr]%elem_of_cons; [|apply H1; set_solver]. simpl. rewrite Hb. apply H1; set_solver.
    + intros q Hq. simpl. specialize (H3 q Hq). lia.
Qed.

Lemma cut_at s v a addr l1 p l2 :
  space s v (l1 ++ p :: l2) → base p.2 < addr < vend p.2 →
  cut a addr (l1 ++ p :: l2) = l1 ++ (p.1, vma_head addr p.2) :: (a, vma_tail addr p.2) :: l2.
Proof.
  intros Hs Hin. destruct (space_around _ _ _ _ _ Hs) as [H1 H2].
  rewrite cut_app, (cut_none _ _ l1) by (intros q Hq; specialize (H1 q Hq); lia).
  unfold cut at 1. rewrite bind_cons. change (l2 ≫= cut_range a addr) with (cut a addr l2).
  rewrite (cut_none _ _ l2) by (intros q Hq; specialize (H2 q Hq); lia).
  unfold cut_range. by rewrite decide_True.
Qed.

(** * [_vma_split] *)

Lemma wp_vma_split s v l1 p l2 addr (Q : Z → vmm_state → Prop) :
  let l := l1 ++ p :: l2 in
  space s v l → counted s v l → base p.2 < addr < vend p.2 → fresh_next s →
  (next_alloc s = 0 → Q 0 (put_allocs (tail (allocs s)) s)) →
  (∀ a s', a = next_alloc s → 0 < a → space s' v (cut a addr l) → counted s' v (cut a addr l) →
     vmm_frame v (a :: l.*1) s s' → vmm_lock s' = vmm_lock s → Q a s') →
  wp (_vma_split v p.1 addr) Q s.
Proof.
  intros l Hs (x & Hx & Hc) Hin Hf H0 H1. unfold l in *. clear l.
  destruct (space_elem _ _ _ Hs p) as (Hp & Hp0 & Hw); [set_solver|]. pose proof Hw as (Hw1 & Hw2 & Hw3).
  unfold _vma_split. apply wp_bind. eapply wp_vma_load; [exact Hp|]. unfold vend in *. rewrite u64_id by lia.
  destruct (Z.leb_spec addr (base p.2)); [lia|]. rewrite Z.geb_leb.
  destruct (Z.leb_spec (base p.2 + vsize p.2) addr); [lia|]. simpl.
  apply wp_bind, wp_vma_alloc; [done| |]; [intros; by apply wp_ret, H0|]. intros a Ha Hpos Hnone.
  destruct (Z.eqb_spec a 0); [lia|]. apply wp_bind. eapply wp_vma_store; [apply lookup_insert_eq|]. simpl.
  rewrite insert_insert_eq. rewrite (u64_id (_ + _ - _)) by lia.
  assert (a ∉ (l1 ++ p :: l2).*1) as Hal by by eapply fresh_notin.
  assert (a ≠ p.1) as Hap. { intros ->. apply Hal. apply list_elem_of_fmap_2. set_solver. }
  set (y := mkVma addr (base p.2 + vsize p.2 - addr) (vflags p.2) 0 0). set (s1 := put_vmas _ _).
  assert (space s1 v (l1 ++ p :: l2)) as Hs1.
  { eapply (space_ext s); [done|exact Hx|exact Hx|done|]. intros c Hcl. simpl.
    rewrite !lookup_insert_ne by set_solver. done. }
  apply wp_bind. eapply wp_vma_store; [simpl; rewrite lookup_insert_ne by done; exact Hp|].
  rewrite u64_id by lia. change (set_vsize _ p.2) with (vma_head addr p.2).
  change (put_vmas (<[p.1 := _]> _) _) with (put_vmas (<[p.1 := vma_head addr p.2]> (vmas s1)) s1). set (s2 := put_vmas _ s1).
  assert (vma_wf (vma_head addr p.2)) as Hwh by (unfold vma_wf, vend; simpl; lia).
  assert (space s2 v (l1 ++ (p.1, vma_head addr p.2) :: l2)) as Hs2.
  { eapply space_shrink; [exact Hs1|exact Hx|done|done|]. unfold vend. simpl. lia. }
  destruct (space_around _ _ _ _ _ Hs) as [Hlow Hhigh]. unfold vend in *.
  apply wp_bind, wp_gets. apply wp_bind.
  assert ((l1 ++ (p.1, vma_head addr p.2) :: l2).*1 = (l1 ++ p :: l2).*1) as Hkeys by by rewrite !fmap_app.
  rewrite cons_middle, app_assoc in Hkeys, Hs2.
  eapply (wp_tree_insert_at s2 v x _ _ a y); [done|done| | |done|by rewrite Hkeys| | | |].
  { simpl. rewrite lookup_insert_ne, lookup_insert_eq by done. done. }
  { simpl. rewrite lookup_insert_eq. by eexists. }
  { unfold vma_wf, vend. simpl. lia. }
  { intros q Hq. unfold vend. simpl. apply elem_of_app in Hq as [Hq|Hq]; [specialize (Hlow q Hq); lia|].
    apply list_elem_of_singleton in Hq as ->. simpl. lia. }
  { intros q Hq. unfold vend. simpl. specialize (Hhigh q Hq). lia. }
  intros tr h s3 Hs3 Hfr3. simpl. apply wp_bind. eapply wp_vmm_store; [apply lookup_insert_eq|].
  apply wp_ret.
  rewrite <-app_assoc in Hs3. simpl in Hs3. apply H1; [done|done| | | |done].
  - erewrite cut_at by (done || unfold vend; lia).
    eapply (space_ext s3); [exact Hs3|apply lookup_insert_eq|apply lookup_insert_eq|done|done].
  - erewrite cut_at by (done || unfold vend; lia). eexists. split; [apply lookup_insert_eq|]. simpl.
    rewrite Hc, !length_app. simpl. unfold u64. rewrite Zplus_mod_idemp_l. f_equal. lia.
  - eapply (frame_trans _ _ _ s3); [|constructor; simpl; intros; [done|done|by rewrite lookup_insert_ne|done..]].
    eapply (frame_trans _ _ _ s2); [|by rewrite <-Hkeys].
    assert (p.1 ∈ (l1 ++ p :: l2).*1) by (apply list_elem_of_fmap_2; set_solver).
    constructor; simpl; [|intros; by rewrite lookup_insert_ne by set_solver|done..].
    intros c Hcl. rewrite !lookup_insert_ne by set_solver. done.
Qed.

(** * [vmm_unmap] *)

Lemma wp_vma_free s a x (Q : unit → vmm_state → Prop) :
  vmas s !! a = Some x → Q tt (put_vmas (delete a (vmas s)) (put_nodes (delete a (nodes s)) s)) → wp (_vma_free a) Q s.
Proof. intros Ha HQ. unfold _vma_free. apply wp_bind. eapply wp_vma_load; [done|]. by wp_pures. Qed.

Section unmap.
Context (me hhdm_offset : Z).

(** A range that has no pages has none to free. *)
Lemma wp_free_no_pages s v a x (Q : unit → vmm_state → Prop) :
  vmas s !! a = Some x → flag (vflags x) VFLAG_ALLOCATED = false → Q tt s → wp (_vma_free_pages me hhdm_offset v a) Q s.
Proof. intros Ha Hf HQ. unfold _vma_free_pages. apply wp_bind. eapply wp_vma_load; [done|]. rewrite Hf. by apply wp_ret. Qed.

(** Take range [p] out of the space and free it. *)
Lemma wp_drop_range {A} s v k p r (m : M vmm_state A) (Q : A → vmm_state → Prop) :
  space s v (k ++ p :: r) → counted s v (k ++ p :: r) → flag (vflags p.2) VFLAG_ALLOCATED = false →
  (∀ s', space s' v (k ++ r) → counted s' v (k ++ r) → vmm_frame v (k ++ p :: r).*1 s s' →
     vmm_lock s' = vmm_lock s → wp m Q s') →
  wp (_vma_free_pages me hhdm_offset v p.1 ;; in_tree v (rb_remove p.1) ;; _vma_free p.1 ;;
      vmm_store v (λ x, set_vmas_count (u64 (vmas_count x - 1)) x) ;; m) Q s.
Proof.
  intros Hs (x & Hx & Hc) Hfl HQ. destruct (space_elem _ _ _ Hs p) as (Hp & Hp0 & _); [set_solver|].
  pose proof (space_nodup _ _ _ Hs) as Hnd. rewrite fmap_app in Hnd. apply NoDup_app in Hnd as (_ & H12 & Hnd).
  apply NoDup_cons in Hnd as [Hp2 _].
  assert (p.1 ∉ (k ++ r).*1) as Hpk. { rewrite fmap_app. intros [H|H]%elem_of_app; [by apply (H12 _ H); left|done]. }
  assert (p.1 ∈ (k ++ p :: r).*1) by (apply list_elem_of_fmap_2; set_solver).
  apply wp_bind. eapply wp_free_no_pages; [done|done|]. apply wp_bind.
  eapply wp_tree_remove; [exact Hs|exact Hx|]. intros tr h s1 Hs1 Hfr1. apply wp_bind.
  eapply wp_vma_free; [exact Hp|]. apply wp_bind. eapply wp_vmm_store; [apply lookup_insert_eq|]. apply HQ; [| | |done].
  - eapply (space_ext s1); [exact Hs1|apply lookup_insert_eq|apply lookup_insert_eq|done|].
    intros c Hcl. simpl. rewrite !lookup_delete_ne by naive_solver. done.
  - eexists. split; [apply lookup_insert_eq|]. simpl. rewrite Hc, !length_app. simpl. unfold u64.
    rewrite Zminus_mod_idemp_l. f_equal. lia.
  - eapply (frame_trans _ _ _ s1); [done|]. constructor; simpl; intros; [by rewrite lookup_delete_ne by naive_solver..| |done|done|done].
    by rewrite lookup_insert_ne.
Qed.

(** Ranges that start at the end or above stay. *)
Lemma filter_above s v k p r b e :
  space s v (k ++ p :: r) → e ≤ base p.2 → filter (outside b e) (p :: r) = p :: r.
Proof.
  intros Hs He. destruct (space_around _ _ _ _ _ Hs) as [_ Ha].
  assert (∀ q, q ∈ p :: r → outside b e q) as H.
  { intros q Hq. destruct (space_elem _ _ _ Hs q) as (_ & _ & ? & ? & ?); [set_solver|].
    destruct (space_elem _ _ _ Hs p) as (_ & _ & ? & ? & ?); [set_solver|].
    unfold outside, vend in *. apply elem_of_cons in Hq as [->|Hq]; [lia|]. specialize (Ha q Hq). lia. }
  clear -H. induction (p :: r) as [|q l IH]; [done|]. rewrite filter_cons_True by set_solver. f_equal. apply IH. set_solver.
Qed.

(** A round of the loop of [vmm_unmap] at range [p]. *)
Lemma wp_unmap_round s v k p r b e (Q : Z + unit → vmm_state → Prop) :
  space s v (k ++ p :: r) → counted s v (k ++ p :: r) →
  (¬ outside b e p → flag (vflags p.2) VFLAG_ALLOCATED = false) →
  (∀ s', ¬ outside b e p → space s' v (k ++ r) → counted s' v (k ++ r) → vmm_frame v (k ++ p :: r).*1 s s' →
     vmm_lock s' = vmm_lock s → Q (inl (default 0 (head r.*1))) s') →
  (outside b e p → Q (inl (default 0 (head r.*1))) s) → (e ≤ base p.2 → Q (inr tt) s) →
  wp (unmap_round me hhdm_offset v b e p.1) Q s.
Proof.
  intros Hs Hc Hna Hdrop Hkeep Hend. unfold unmap_round.
  destruct (space_elem _ _ _ Hs p) as (Hp & Hp0 & Hw); [set_solver|]. pose proof Hw as (? & ? & ?).
  destruct (Z.eqb_spec p.1 0); [lia|]. apply wp_bind. eapply wp_vma_load; [done|].
  apply wp_bind. eapply wp_next; [exact Hs|done|]. change (base p.2 + vsize p.2) with (vend p.2).
  rewrite u64_id by (unfold vend in *; lia). rewrite !Z.geb_leb.
  destruct (Z.leb_spec b (base p.2)); [destruct (Z.leb_spec (vend p.2) e)|]; simpl.
  1:{ assert (¬ outside b e p) as Ho by (unfold outside; naive_solver).
      eapply wp_drop_range; [exact Hs|exact Hc|by apply Hna|]. intros. by apply wp_ret, Hdrop. }
  all: assert (outside b e p) as Ho by (unfold outside; lia).
  all: destruct (Z.leb_spec e (base p.2)) as [Hge|Hlt]; apply wp_ret; auto.
Qed.

Lemma filter_snoc b e k p : filter (outside b e) (k ++ [p]) = filter (outside b e) k ++ (if decide (outside b e p) then [p] else []).
Proof. rewrite filter_app, filter_cons. by case_decide. Qed.

(** The loop of [vmm_unmap]. *)
Lemma wp_unmap_loop s v l b e (Q : unit → vmm_state → Prop) :
  space s v l → counted s v l → (∀ p, p ∈ l → ¬ outside b e p → flag (vflags p.2) VFLAG_ALLOCATED = false) →
  (∀ s', space s' v (filter (outside b e) l) → counted s' v (filter (outside b e) l) →
     vmm_frame v l.*1 s s' → vmm_lock s' = vmm_lock s → Q tt s') →
  wp (loop (4 + size (vmas s)) (unmap_round me hhdm_offset v b e) (default 0 (head l.*1))) Q s.
Proof.
  intros Hs Hc Hna HQ.
  apply (wp_loop (λ n node s', ∃ k r, l = k ++ r ∧ node = default 0 (head r.*1) ∧ n = length r ∧
    space s' v (filter (outside b e) k ++ r) ∧ counted s' v (filter (outside b e) k ++ r) ∧
    vmm_frame v l.*1 s s' ∧ vmm_lock s' = vmm_lock s) _ _ (length l)).
  - pose proof (space_length _ _ _ Hs). lia.
  - exists [], l. by split_and!.
  - intros n node s' (k & r & Hl & -> & -> & Hs' & Hc' & Hfr & Hlk). destruct r as [|p r].
    { apply wp_ret. rewrite app_nil_r in *. subst k. by apply HQ. }
    change (default 0 (head (p :: r).*1)) with p.1.
    eapply wp_unmap_round; [exact Hs'|exact Hc'|apply Hna; set_solver| | |].
    + intros s2 Ho Hs2 Hc2 Hfr2 Hlk2. exists (length r). split; [simpl; lia|]. exists (k ++ [p]), r.
      rewrite <-app_assoc, filter_snoc, decide_False, app_nil_r by done.
      split_and!; [done|done|done|done|done| |congruence]. eapply frame_trans; [exact Hfr|].
      eapply frame_weaken; [exact Hfr2|]. intros c (q & -> & Hq)%list_elem_of_fmap. apply list_elem_of_fmap_2.
      rewrite Hl. apply elem_of_app in Hq as [[_ Hq]%list_elem_of_filter|]; set_solver.
    + intros Ho. exists (length r). split; [simpl; lia|]. exists (k ++ [p]), r.
      rewrite <-app_assoc, filter_snoc, decide_True, <-app_assoc by done. by split_and!.
    + intros He. apply HQ; [| |done|done]; rewrite Hl, filter_app; erewrite (filter_above _ _ _ p); done.
Qed.

(** The range at the address a cut is made at. *)
Lemma wp_cut_at {A} s v l b (m : bool → M vmm_state A) (Q : A → vmm_state → Prop) :
  space s v l → counted s v l → fresh_next s →
  (next_alloc s = 0 → wp (m false) Q (put_allocs (tail (allocs s)) s)) →
  (∀ s', space s' v (cut (next_alloc s) b l) → counted s' v (cut (next_alloc s) b l) →
     vmm_frame v (next_alloc s :: l.*1) s s' → vmm_lock s' = vmm_lock s → wp (m true) Q s') →
  wp (first ← _find_vma v b;
      ok ← (if first =? 0 then mret true else
            x ← vma_load first;
            if base x <? b then r ← _vma_split v first b; mret (negb (r =? 0)) else mret true);
      m ok) Q s.
Proof.
  intros Hs Hc Hf H0 H1. apply wp_bind. apply (wp_find_vma _ _ _ Hs).
  destruct (vma_at_spec l b) as [[-> Hn]|(p & Hp & Hin & ->)].
  { simpl. apply wp_bind, wp_ret. apply H1; [| |done|done]; rewrite cut_none; try done;
      intros q Hq ?; apply (Hn q Hq); unfold inside; lia. }
  destruct (space_elem _ _ _ Hs p Hp) as (Hp1 & Hp2 & Hw). destruct (Z.eqb_spec p.1 0); [lia|].
  apply wp_bind, wp_bind. eapply wp_vma_load; [done|]. destruct (Z.ltb_spec (base p.2) b) as [Hlt|Hge].
  - unfold inside in Hin. apply list_elem_of_split in Hp as (l1 & l2 & ->). apply wp_bind.
    eapply wp_vma_split; [exact Hs|exact Hc|lia|done| |].
    + intros Ha. apply wp_ret. by apply H0.
    + intros a s' -> Ha Hs' Hc' Hfr Hlk. apply wp_ret. destruct (Z.eqb_spec (next_alloc s) 0); [lia|]. by apply H1.
  - apply wp_ret. apply H1; [| |done|done]; rewrite cut_none; try done.
    all: intros q Hq Hin'; assert (p = q) as -> by (eapply space_unique; [done..|unfold inside in *; lia]);
      unfold inside in *; lia.
Qed.

(** A part of a range has its flags, and its node or the new one. *)
Lemma cut_flags a b l p : p ∈ cut a b l → ∃ q, q ∈ l ∧ vflags p.2 = vflags q.2 ∧ (p.1 = a ∨ p.1 = q.1).
Proof.
  unfold cut. intros (q & Hp & Hq)%list_elem_of_bind. unfold cut_range in Hp. exists q. split; [done|].
  case_decide; [|apply list_elem_of_singleton in Hp as ->; auto].
  apply elem_of_cons in Hp as [->|Hp]; [by auto|]. apply list_elem_of_singleton in Hp as ->. auto.
Qed.

Lemma wp_vmm_unmap s v l b size (Q : Z → vmm_state → Prop) :
  let b0 := ALIGN_DOWN b PAGE_SIZE in
  let e := b0 + ALIGN_UP size PAGE_SIZE in
  let l' := filter (outside b0 e) (cut (next_alloc s) b0 l) in
  space s v l → counted s v l → vmm_lock s = unlocked → fresh_next s → v ≠ 0 → size ≠ 0 → 0 ≤ b → 0 < e < 2 ^ 64 →
  (∀ p, p ∈ l → flag (vflags p.2) VFLAG_ALLOCATED = false) →
  (next_alloc s = 0 → Q (- ENOMEM) (put_allocs (tail (allocs s)) s)) →
  (∀ s', space s' v l' → counted s' v l' → vmm_frame v (next_alloc s :: l.*1) s s' → vmm_lock s' = unlocked → Q 0 s') →
  wp (vmm_unmap me hhdm_offset v b size) Q s.
Proof.
  intros b0 e l' Hs Hc Hl Hf Hv Hsz Hb He Hna H0 H1. unfold vmm_unmap.
  destruct (Z.eqb_spec v 0); [done|]. destruct (Z.eqb_spec size 0); [done|]. simpl.
  fold b0. rewrite (u64_id (b0 + _)) by (fold e; lia). fold e. apply wp_bind, wp_lock_vmm; [done|].
  set (s0 := put_vmm_lock _ s).
  assert (space s0 v l) as Hs0 by (destruct (sp_tree _ _ _ Hs) as (x & Hx & _); eapply (space_ext s); done).
  assert (0 ≤ b0) as Hb0 by (apply down_range; lia).
  eapply (wp_cut_at s0 v l b0); [done|done|done| |].
  { intros Ha. simpl. apply wp_bind, wp_unlock_vmm; [done|]. apply wp_ret.
    specialize (H0 Ha). destruct s; simpl in *. by subst. }
  intros s1 Hs1 Hc1 Hfr1 Hlk1. simpl. apply wp_bind. rewrite u64_id by lia. apply (wp_find_vma _ _ _ Hs1).
  apply wp_bind. eapply (wp_mono _ (λ ok s', ok = true ∧ s' = s1)).
  { destruct (vma_at_spec (cut (next_alloc s0) b0 l) (e - 1)) as [[-> _]|(p & Hp & Hin & ->)]; [done|].
    destruct (space_elem _ _ _ Hs1 p Hp) as (Hp1 & Hp2 & ? & ? & ?). destruct (Z.eqb_spec p.1 0); [lia|].
    apply wp_bind. eapply wp_vma_load; [done|]. unfold inside, vend in *. rewrite u64_id by lia.
    destruct (Z.ltb_spec (base p.2 + vsize p.2) e); [lia|]. by apply wp_ret. }
  intros ok s' [-> ->]. simpl. apply wp_bind. eapply wp_first; [done|]. apply wp_bind, wp_gets. apply wp_bind.
  eapply wp_unmap_loop; [done|done| |].
  { intros p (q & Hq & Hfl & _)%cut_flags _. rewrite Hfl. by apply Hna. }
  intros s2 Hs2 Hc2 Hfr2 Hlk2. apply wp_bind, wp_unlock_vmm; [by rewrite Hlk2, Hlk1|]. apply wp_ret. apply H1; [| | |done].
  - destruct (sp_tree _ _ _ Hs2) as (x & Hx & _). by eapply (space_ext s2).
  - done.
  - eapply (frame_trans _ _ _ s0); [done|]. eapply (frame_trans _ _ _ s1); [done|].
    eapply (frame_trans _ _ _ s2); [|done]. eapply frame_weaken; [exact Hfr2|].
    intros c (p & -> & (q & Hq & _ & [->| ->])%cut_flags)%list_elem_of_fmap; [by left|right; by apply list_elem_of_fmap_2].
Qed.
End unmap.
