(* ===== verification/VmmTheorems.v ===== *)
(** What the address spaces promise. *)
From Stdlib Require Import Sorting.Sorted.
From stdpp Require Import sorting.
From S2P Require Import Prelude Errno RBTree RBTreeRep RBTreeSpec Sync DList Pmm PmmSpec Paging PagingSpec PagingTree PagingOps PagingTheorems Vmm VmmSpec VmmOps VmmUnmap.

(** Page faults ([vmm_pf_handler]): which accesses an address space permits, and
    pages that are filled in when they are first touched. *)
(** What a range permits of the accesses that the error code of a fault tells of. *)
Definition permits (x : vma_t) (code : Z) : bool :=
  (negb (flag code PF_WRITE) || flag (vflags x) VFLAG_WRITABLE) &&
  (negb (flag code PF_USER) || flag (vflags x) VFLAG_USER) &&
  (negb (flag code PF_IFETCH) || flag (vflags x) VFLAG_EXECUTABLE).

Section fault.
Context (me hhdm : Z).

Lemma wp_in_paging {A} s (m : M paging A) (Q : A → vmm_state → Prop) :
  wp m (λ a p, Q a (put_paging p s)) (v_paging s) → wp (in_paging m) Q s.
Proof. apply wp_zoom. Qed.
Lemma put_paging_id s : put_paging (v_paging s) s = s.
Proof. by destruct s. Qed.

(** A cleared page where nothing is mapped: the three ways [map_new_page] ends. *)
Inductive filled (s : paging) (L : list Z) (pt vaddr fl : Z) : bool → paging → Prop :=
  | fill_none : L = [] → filled s L pt vaddr fl false s
  | fill_page f s' L' : page_of s f ∈ L → pt_inv hhdm s' L' pt → mapped hhdm s s' pt vaddr (leaf_value f fl) →
      mem s' !! (f + hhdm) = Some zero_table → filled s L pt vaddr fl true s'
  | fill_lost s' : pt_inv hhdm s' [] pt → (∀ v', mmu hhdm s' pt v' = mmu hhdm s pt v') →
      filled s L pt vaddr fl true s'.

Lemma wp_map_new_page s v x L vaddr fl (Q : bool → vmm_state → Prop) :
  vmms s !! v = Some x → pt_inv hhdm (v_paging s) L (pml4 x) → mmu hhdm (v_paging s) (pml4 x) vaddr = None →
  (∀ r p, filled (v_paging s) L (pml4 x) vaddr fl r p → Q r (put_paging p s)) →
  wp (map_new_page me hhdm v vaddr fl) Q s.
Proof.
  intros Hx (Hw & Hl & tab & R) Hnone HQ. rewrite (mmu_pleaf _ _ _ _ _ _ Hw R) in Hnone. unfold map_new_page, in_frames, in_pmm.
  apply wp_bind, wp_in_paging, wp_zoom. eapply wp_pmm_alloc_page; [apply Hw|..].
  { intros ->. apply wp_ret. apply HQ. destruct (v_paging s) eqn:Hp. simpl. by constructor. }
  intros pg L' d p HL Hi Hf Hd Hd'.
  destruct (new_frame hhdm _ _ _ _ _ _ Hw HL Hi Hf Hd Hd') as (n & Hn & -> & Hne & Hv & Hp & Hm & Hw1 & Hok).
  destruct (pt_rep_new hhdm _ _ _ _ _ _ _ Hw R HL Hf) as (R1 & Hleaf1 & Hnt).
  rewrite (proj2 (Z.eqb_neq _ _) Hne). unfold frame_db, page_db. apply wp_bind, wp_in_paging, wp_gets. cbv beta. simpl p_pmm.
  rewrite Hv. apply wp_bind, wp_in_paging. eapply wp_zero_page; [done|]. apply wp_bind. eapply wp_vmm_load; [exact Hx|].
  apply wp_bind, wp_in_paging. simpl v_paging. set (s1 := put_mem _ _) in *.
  destruct Hok as (Hn1 & d1 & Hd1 & Hr1 & _). rewrite <-(page_of_pmm (v_paging s) p _ Hf n).
  eapply (wp_map_page me hhdm s1 L' (pml4 x) tab vaddr n d1 fl); [exact Hw1|exact Hl|exact R1|by rewrite Hleaf1|exact Hn1|exact Hd1|lia|exact Hnt|..].
  - intros m p2 tab2 G _. apply wp_ret. apply HQ, fill_lost.
    + split; [apply G|]. split; [done|]. exists tab2. apply G.
    + intros v'. rewrite (mmu_pleaf _ _ _ _ _ _ (g_wf _ _ _ _ _ _ _ _ _ G) (g_rep _ _ _ _ _ _ _ _ _ G)).
      by rewrite (mmu_pleaf _ _ _ _ _ _ Hw R), (g_leaf _ _ _ _ _ _ _ _ _ G), Hleaf1.
  - intros s2 L2 tab2 P Hw2 Hl2 R2 Hleaf2 Hnt2 _ _ _ Hmem _. apply wp_ret. apply HQ, (fill_page _ _ _ _ _ n s2 L2).
    + rewrite HL. set_solver.
    + split; [done|]. split; [done|]. eauto.
    + intros v'. rewrite (mmu_pleaf _ _ _ _ _ _ Hw2 R2), (mmu_pleaf _ _ _ _ _ _ Hw R), Hleaf2. by rewrite Hleaf1.
    + rewrite Hmem by done. apply lookup_insert_eq.
Qed.

(** The lookup of the range and the checks of the access. *)
Lemma wp_pf_checks s v l addr code (Q : Z → vmm_state → Prop) :
  let page := ALIGN_DOWN addr PAGE_SIZE in
  space s v l → v ≠ 0 →
  ((∀ p, p ∈ l → inside p.2 page → permits p.2 code = false) → Q (- EFAULT) s) →
  (∀ p, p ∈ l → inside p.2 page → permits p.2 code = true →
     wp (y ← vmm_load v;
         paddr ← in_paging (get_paddr me hhdm (pml4 y) page);
         if paddr =? 0 then
           if negb (flag (vflags p.2) VFLAG_LAZY) then mret (- EFAULT) else
           ok ← map_new_page me hhdm v page (_vflags_to_pflags (vflags p.2));
           mret (if (ok : bool) then EOK else - ENOMEM)
         else if flag code PF_WRITE && flag code PF_PRESENT then cow_fault me hhdm v page paddr p.2
         else mret EFAULT) Q s) →
  wp (vmm_pf_handler me hhdm v addr code) Q s.
Proof.
  intros page Hs Hv Hno Hyes. unfold vmm_pf_handler. rewrite (proj2 (Z.eqb_neq _ _) Hv). fold page.
  apply wp_bind. apply (wp_find_vma _ _ _ Hs).
  destruct (vma_at_spec l page) as [[-> Hn]|(p & Hp & Hin & ->)].
  { simpl. apply wp_ret, Hno. intros p Hp Hin. by destruct (Hn p Hp). }
  destruct (space_elem _ _ _ Hs p Hp) as (Hp1 & Hp2 & _). destruct (Z.eqb_spec p.1 0); [lia|].
  apply wp_bind. eapply wp_vma_load; [done|].
  assert (permits p.2 code = false → Q (- EFAULT) s) as Hno'.
  { intros Hf. apply Hno. intros q Hq Hinq. by rewrite <-(space_unique _ _ _ Hs p q page). }
  specialize (Hyes p Hp Hin). unfold permits in *.
  destruct (flag code PF_WRITE), (flag (vflags p.2) VFLAG_WRITABLE); simpl in *; try (by apply wp_ret, Hno');
    destruct (flag code PF_USER), (flag (vflags p.2) VFLAG_USER); simpl in *; try (by apply wp_ret, Hno');
    destruct (flag code PF_IFETCH), (flag (vflags p.2) VFLAG_EXECUTABLE); simpl in *; try (by apply wp_ret, Hno');
    by apply Hyes.
Qed.
End fault.

Lemma align_up_page n : 0 < n → n + PAGE_SIZE ≤ 2 ^ 64 →
  n ≤ ALIGN_UP n PAGE_SIZE < n + PAGE_SIZE ∧ ALIGN_UP n PAGE_SIZE < 2 ^ 64.
Proof.
  intros H0 Hn. unfold ALIGN_UP, DIV_ROUND_UP. rewrite (u64_id (n + _)) by (unfold PAGE_SIZE in *; lia).
  destruct (down_range (n + (PAGE_SIZE - 1))) as [H1 H2]; [unfold PAGE_SIZE; lia|].
  rewrite u64_id by (unfold PAGE_SIZE in *; lia). lia.
Qed.

(** The first range that starts at [addr] or above. *)
Definition vma_from (l : list (Z * vma_t)) (addr : Z) : Z :=
  default 0 (fst <$> head (filter (λ p, addr ≤ base p.2) l)).
Lemma vma_from_split l1 l2 addr :
  (∀ p, p ∈ l1 → base p.2 < addr) → (∀ p, p ∈ l2 → addr ≤ base p.2) →
  vma_from (l1 ++ l2) addr = default 0 (head l2.*1).
Proof.
  intros H1 H2. unfold vma_from. rewrite filter_app. induction l1 as [|p l1 IH]; simpl.
  - destruct l2 as [|p l2]; [done|]. rewrite filter_cons_True by set_solver. done.
  - rewrite filter_cons_False; [apply IH; set_solver|]. specialize (H1 p ltac:(set_solver)). lia.
Qed.

Section theorems.
Context (me hhdm : Z).

(** C1: looking up an address returns the one range that holds it, or [NULL]
    when none does; [vmm_find_next] returns the lowest range that starts at the
    address or above. Neither changes anything. *)
Theorem vmm_find_spec s v l addr :
  space s v l → v ≠ 0 →
  vmm_find v addr s = Done (vma_at l addr, s) ∧ vmm_find_next v addr s = Done (vma_from l addr, s).
Proof.
  intros Hs Hv. unfold vmm_find, vmm_find_next. rewrite (proj2 (Z.eqb_neq _ _) Hv). split.
  - assert (wp (_find_vma v addr) (λ r s', r = vma_at l addr ∧ s' = s) s) as (r & s' & H & -> & ->)%wp_done; [|done].
    by apply (wp_find_vma _ _ _ Hs).
  - assert (wp (_find_vma_next v addr) (λ r s', r = vma_from l addr ∧ s' = s) s) as (r & s' & H & -> & ->)%wp_done; [|done].
    destruct (split_at l addr) as (l1 & l2 & Hl & H1 & H2); [apply Hs|by eapply space_wf|].
    eapply wp_find_vma_next; [done..|]. split; [|done]. rewrite Hl. symmetry. by apply vma_from_split.
Qed.

(** C11: a lazy mapping with no address asked for goes to the highest gap below
    [mmap_base] that is page-aligned and large enough: the range is added, the
    others stay and none overlaps it. The call returns 0, and the space keeps its
    ranges, only when there is no such gap or the heap is exhausted. The lock is
    free again and the other spaces are not touched. *)
Theorem vmm_map_spec s v x l size fl :
  let n := ALIGN_UP size PAGE_SIZE in
  let a := next_alloc s in
  space s v l → counted s v l → vmms s !! v = Some x → 0 ≤ mmap_base x < 2 ^ 64 →
  vmm_lock s = unlocked → fresh_next s → v ≠ 0 → 0 < size ≤ 2 ^ 64 - 2 * PAGE_SIZE →
  flag fl VFLAG_LAZY = true → flag fl VFLAG_FIXED = false →
  wp (vmm_map me hhdm v 0 size fl) (λ r s', vmm_lock s' = unlocked ∧ vmm_frame v (a :: l.*1) s s' ∧
    ((r = 0 ∧ space s' v l ∧ counted s' v l ∧ ((∀ t, ¬ is_gap l (mmap_base x) n t) ∨ a = 0)) ∨
     (is_gap l (mmap_base x) n r ∧ (∀ t, is_gap l (mmap_base x) n t → t ≤ r) ∧
      ∃ l1 l2, l = l1 ++ l2 ∧ let l' := l1 ++ (a, mkVma r n fl 0 0) :: l2 in space s' v l' ∧ counted s' v l'))) s.
Proof.
  intros n a Hs Hc Hx Hm Hl Hf Hv Hsz Hlazy Hfix. destruct (align_up_page size) as [Hn1 Hn2]; [lia|unfold PAGE_SIZE in *; lia|].
  fold n in Hn1, Hn2. unfold vmm_map. rewrite (proj2 (Z.eqb_neq _ _) Hv), (proj2 (Z.eqb_neq size 0)) by lia. simpl. fold n.
  apply wp_bind, wp_lock_vmm; [done|]. rewrite Hfix. simpl. set (s0 := put_vmm_lock _ s).
  assert (space s0 v l) as Hs0 by (by eapply (space_ext s)). apply wp_bind.
  eapply (wp_find_free_gap s0 v l); [done|lia|unfold VMM_USER_START, PAGE_SIZE in *; lia|exact Hx|done|..].
  { intros Hno. simpl. apply wp_bind, wp_unlock_vmm; [done|]. apply wp_ret. split_and!; [done|done|]. left.
    split_and!; [done| |done|by left]. by eapply (space_ext s). }
  intros t Hgap Hbest. pose proof Hgap as (Ht1 & Ht2 & Ht3 & Ht4). unfold VMM_USER_START in *.
  rewrite (proj2 (Z.eqb_neq t 0)) by lia. set (s1 := put_vmms _ s0).
  assert (space s1 v l) as Hs1 by (eapply (space_ext s); [done|exact Hx|apply lookup_insert_eq|done|done]).
  assert (counted s1 v l) as Hc1.
  { destruct Hc as (x' & Hx' & Hcnt). rewrite Hx in Hx'. apply (inj Some) in Hx' as <-. eexists. split; [apply lookup_insert_eq|done]. }
  assert (vmm_frame v (a :: l.*1) s s1) as Hfr1.
  { constructor; simpl; try done. intros w Hw. by rewrite lookup_insert_ne. }
  assert (vma_wf (mkVma t n fl 0 0)) as Hwf by (unfold vma_wf, vend; simpl; lia).
  eapply (wp_vmm_map_at me hhdm s1 v l t n fl); [done|done|done|done|done|done| | |].
  - intros p Hp. by eapply (free_base _ _ _ (mkVma t n fl 0 0)).
  - intros Ha. split_and!; [done|by eapply frame_trans; [exact Hfr1|]|]. left. split_and!; [done|by eapply (space_ext s1); [|apply lookup_insert_eq|apply lookup_insert_eq|..]|done|by right].
  - intros a' l1 l2 s' -> Hpos Hll Hlk Hfr _ Hs' Hc'. split_and!; [done|by eapply frame_trans|]. right. split; [done|]. split; [done|].
    exists l1, l2. split; [done|]. split; [by apply Hs'|done].
Qed.

(** C12: unmapping an interval, its ends rounded to pages, of ranges that have no
    pages of their own: the range across the lower end is cut there, and then
    the ranges that lie within the interval are removed. A range that reaches
    beyond the upper end is kept whole, also what of it is in the interval: the
    test for cutting there can never succeed. The call fails, with nothing
    changed, only when the heap has no memory for the cut. *)
Theorem vmm_unmap_spec s v l b size :
  let b0 := ALIGN_DOWN b PAGE_SIZE in
  let e := b0 + ALIGN_UP size PAGE_SIZE in
  let a := next_alloc s in
  let l' := filter (outside b0 e) (cut a b0 l) in
  space s v l → counted s v l → vmm_lock s = unlocked → fresh_next s → v ≠ 0 → 0 ≤ b → size ≠ 0 → 0 < e < 2 ^ 64 →
  (∀ p, p ∈ l → flag (vflags p.2) VFLAG_ALLOCATED = false) →
  wp (vmm_unmap me hhdm v b size) (λ r s', vmm_lock s' = unlocked ∧ vmm_frame v (a :: l.*1) s s' ∧
    ((r = - ENOMEM ∧ a = 0 ∧ space s' v l) ∨
     (r = 0 ∧ space s' v l' ∧ counted s' v l' ∧ ∀ p, p ∈ l → b0 ≤ base p.2 → e < vend p.2 → p ∈ l'))) s.
Proof.
  intros b0 e a l' Hs Hc Hl Hf Hv Hb Hsz He Hna. apply wp_vmm_unmap with l; [done..| |].
  - intros Ha. split_and!; [done|done|]. left. split_and!; [done|done|].
    destruct (sp_tree _ _ _ Hs) as (x & Hx & _). by eapply (space_ext s).
  - intros s' Hs' Hc' Hfr Hlk. split_and!; [done|done|]. right. split_and!; [done|done|done|].
    intros p Hp Hlo Hhi. unfold l'. apply list_elem_of_filter. split; [unfold outside; lia|].
    unfold cut. apply list_elem_of_bind. exists p. split; [|done]. unfold cut_range.
    rewrite decide_False by lia. by apply list_elem_of_singleton.
Qed.

(** C14: the check of a user's buffer says yes exactly when every address of the
    pages it is in belongs to a range that grants the access asked for, as long
    as its end does not wrap around. *)
Theorem vmm_is_accessible_spec s v l b size access :
  let acc := accessible l access (ALIGN_DOWN b PAGE_SIZE) (ALIGN_UP (b + size) PAGE_SIZE) in
  space s v l → v ≠ 0 → 0 ≤ b → 0 < size → b + size + PAGE_SIZE ≤ 2 ^ 64 →
  ∃ r, vmm_is_accessible v b size access s = Done (r, s) ∧ (r = 1 ∧ acc ∨ r = 0 ∧ ¬ acc).
Proof.
  intros acc Hs Hv Hb Hsz Hfit.
  assert (wp (vmm_is_accessible v b size access) (λ r s', s' = s ∧ (r = 1 ∧ acc ∨ r = 0 ∧ ¬ acc)) s) as H.
  2:{ apply wp_done in H as (r & s' & H & -> & Hr). eauto. }
  unfold vmm_is_accessible. rewrite (proj2 (Z.eqb_neq _ _) Hv), (proj2 (Z.eqb_neq size 0)) by lia. simpl.
  rewrite (u64_id (b + size)) by (unfold PAGE_SIZE in *; lia). apply (wp_access_loop s v l Hs); intros ?; auto.
Qed.

(** A buffer that ends where the addresses wrap around is accessible in every
    space, whatever is mapped there. *)
Theorem vmm_is_accessible_wraps s v b access :
  v ≠ 0 → 0 < b < 2 ^ 64 → vmm_is_accessible v b (2 ^ 64 - b) access s = Done (1, s).
Proof.
  intros Hv Hb. unfold vmm_is_accessible. rewrite (proj2 (Z.eqb_neq _ _) Hv), (proj2 (Z.eqb_neq (_ - _) 0)) by lia. cbn [orb].
  replace (b + (2 ^ 64 - b)) with (2 ^ 64) by lia. change (ALIGN_UP (u64 (2 ^ 64)) PAGE_SIZE) with 0.
  assert (ALIGN_DOWN b PAGE_SIZE <? 0 = false) as Hge.
  { apply Z.ltb_ge. apply down_range. lia. }
  unfold vma_fuel, gets, mbind, M_bind. cbv beta iota.
  change (4 + size (vmas s))%nat with (S (3 + size (vmas s))). cbn [loop]. unfold mbind, M_bind, access_round.
  by rewrite Hge.
Qed.

(** Moving the break does not return: [vmm_brk] takes the lock of the address
    spaces and calls [vmm_map] or [vmm_unmap], which take it again. *)
Theorem vmm_brk_deadlock s v x new_brk :
  let brk' := ALIGN_UP new_brk PAGE_SIZE in
  v ≠ 0 → vmms s !! v = Some x → vmm_lock s = unlocked → 0 ≤ brk x < 2 ^ 64 →
  brk_base x ≤ brk' → brk' ≠ brk x → vmm_brk me hhdm v new_brk s = Hang.
Proof.
  intros brk' Hv Hx Hl Hb Hbase Hne. unfold vmm_brk. rewrite (proj2 (Z.eqb_neq _ _) Hv). fold brk'.
  pose proof (u64_range (DIV_ROUND_UP new_brk PAGE_SIZE * PAGE_SIZE)) as Hr. change (u64 _) with brk' in Hr.
  unfold mbind, M_bind, vmm_load, lock_vmm, zoom. rewrite Hx. cbv beta iota. destruct (Z.ltb_spec brk' (brk_base x)); [lia|].
  rewrite Hl. change (lock_acquire me unlocked) with (Done (tt, held me)). cbv beta iota. rewrite Z.gtb_ltb.
  assert (∀ m n, 0 ≤ m < 2 ^ 64 → 0 ≤ n < 2 ^ 64 → m < n → u64 (n - m) =? 0 = false) as Hnz.
  { intros m n Hm Hn Hlt. apply Z.eqb_neq. rewrite u64_id by lia. lia. }
  destruct (Z.ltb_spec (brk x) brk').
  - unfold vmm_map. rewrite (proj2 (Z.eqb_neq _ _) Hv), Hnz by lia. done.
  - destruct (Z.ltb_spec brk' (brk x)); [|lia]. unfold vmm_unmap. rewrite (proj2 (Z.eqb_neq _ _) Hv), Hnz by lia. done.
Qed.

(** A mapping at a fixed address succeeds over a range that starts inside of it:
    the test for overlaps looks at the first address only. *)
Theorem vmm_map_fixed_overlap s v l b size fl p :
  let n := ALIGN_UP size PAGE_SIZE in
  let a := next_alloc s in
  space s v l → counted s v l → vmm_lock s = unlocked → fresh_next s → a ≠ 0 → v ≠ 0 →
  b mod PAGE_SIZE = 0 → 0 ≤ b → 0 < size → b + size + PAGE_SIZE ≤ 2 ^ 64 →
  flag fl VFLAG_LAZY = true → flag fl VFLAG_FIXED = true → p ∈ l → (∀ q, q ∈ l → ¬ inside q.2 b) → b < base p.2 < b + n →
  wp (vmm_map me hhdm v b size fl) (λ r s', r = b ∧ vmas s' !! a = Some (mkVma b n fl 0 0) ∧ vmas s' !! p.1 = Some p.2) s.
Proof.
  intros n a Hs Hc Hl Hf Ha Hv Hal Hb Hsz Hfit Hlazy Hfix Hp Hno Hov.
  destruct (align_up_page size) as [Hn1 Hn2]; [lia|lia|]. fold n in Hn1, Hn2.
  unfold vmm_map. rewrite (proj2 (Z.eqb_neq _ _) Hv), (proj2 (Z.eqb_neq size 0)) by lia. cbn [orb]. cbv zeta. fold n.
  assert (ALIGN_DOWN b PAGE_SIZE = b) as ->.
  { unfold ALIGN_DOWN. apply Z.div_exact in Hal; [|done]. lia. }
  apply wp_bind, wp_lock_vmm; [done|]. rewrite Hfix. rewrite andb_false_r. set (s0 := put_vmm_lock _ s).
  assert (space s0 v l) as Hs0 by (destruct (sp_tree _ _ _ Hs) as (x & Hx & _); by eapply (space_ext s)).
  apply wp_bind. unfold _range_overlaps. apply wp_bind, (wp_find_vma _ _ _ Hs0). rewrite (vma_at_none l b Hno).
  apply wp_ret. destruct (space_elem _ _ _ Hs p Hp) as (Hpv & _ & _).
  eapply (wp_vmm_map_at me hhdm s0 v l b n fl); [done|done|done|done|unfold vma_wf, vend; simpl; unfold PAGE_SIZE in *; lia|done| |done|].
  - intros q Hq Heq. apply (Hno q Hq). destruct (space_elem _ _ _ Hs q Hq) as (_ & _ & ? & ? & _). unfold inside, vend. lia.
  - intros a' l1 l2 s' -> Hpos _ _ _ Hvm _ _. rewrite Hvm. split; [done|]. split; [apply lookup_insert_eq|].
    rewrite lookup_insert_ne; [done|]. intros Heq. destruct (Hf Ha) as [_ Hnone]. fold a in Hnone. change (next_alloc s0) with a in Heq.
    by rewrite Heq, Hpv in Hnone.
Qed.

(** C13: a page fault where nothing is mapped. The access must be in a range that
    permits it and whose pages come when they are touched; anything else is
    refused with nothing changed. Then a cleared page is mapped there, with the
    flags of the range, and no other translation changes. When memory runs out,
    the fault fails with nothing changed, or, when it is a table that cannot be
    had, the call returns success although the page is still not mapped. *)
Theorem vmm_pf_unmapped s v x l L addr code :
  let page := ALIGN_DOWN addr PAGE_SIZE in
  space s v l → v ≠ 0 → vmms s !! v = Some x → pt_inv hhdm (v_paging s) L (pml4 x) →
  mmu hhdm (v_paging s) (pml4 x) page = None →
  wp (vmm_pf_handler me hhdm v addr code) (λ r s',
    (r = - EFAULT ∧ s' = s ∧
       ∀ p, p ∈ l → inside p.2 page → permits p.2 code = false ∨ flag (vflags p.2) VFLAG_LAZY = false) ∨
    (∃ p t ok, p ∈ l ∧ inside p.2 page ∧ permits p.2 code = true ∧ flag (vflags p.2) VFLAG_LAZY = true ∧
       filled hhdm (v_paging s) L (pml4 x) page (_vflags_to_pflags (vflags p.2)) ok t ∧ s' = put_paging t s ∧
       r = if ok then EOK else - ENOMEM)) s.
Proof.
  intros page Hs Hv Hx Hpt Hnone. eapply wp_pf_checks; [exact Hs|done| |].
  { intros Hno. left. split_and!; [done|done|]. auto. }
  intros p Hp Hin Hok. apply wp_bind. eapply wp_vmm_load; [exact Hx|]. apply wp_bind, wp_in_paging.
  destruct (wp_lookups me hhdm _ _ _ page Hpt) as [Hget _]. eapply wp_mono; [exact Hget|].
  intros r t [-> ->]. rewrite Hnone, put_paging_id. simpl.
  destruct (flag (vflags p.2) VFLAG_LAZY) eqn:Hlazy; simpl.
  - apply wp_bind. eapply wp_map_new_page; [exact Hx|exact Hpt|exact Hnone|]. intros ok t Hfill. apply wp_ret. right. eauto 12.
  - apply wp_ret. left. split_and!; [done|done|]. intros q Hq Hinq. right. by rewrite <-(space_unique _ _ _ Hs p q page).
Qed.
End theorems.

(** * Witnesses: a space of two lazy ranges over the page tables of [PagingTheorems] *)

Definition ex_lazy : Z := Z.lor (Z.lor VFLAG_PRESENT VFLAG_LAZY) (Z.lor VFLAG_WRITABLE VFLAG_USER).
Definition ex_low : vma_t := mkVma 0x7000 0x2000 ex_lazy 0 0.
Definition ex_high : vma_t := mkVma 0x10000 0x1000 ex_lazy 0 0.
Definition ex_ranges : list (Z * vma_t) := [(8, ex_low); (16, ex_high)].
Definition ex_space_vmm : vmm_t := mkVmm (mkTree 8 2) 2 4096 0 0x11000 0 0x20000 0x20000.
Definition ex_vmm : vmm_state :=
  mkVs ex_paging (<[8 := ex_low]> {[16 := ex_high]})
    (<[8 := mkNode 0 0 16 RB_BLACK]> {[16 := mkNode 8 0 0 RB_RED]}) {[1 := ex_space_vmm]} 1 1 unlocked [24].

Lemma ex_vmm_space : space ex_vmm 1 ex_ranges.
Proof.
  constructor.
  - exists ex_space_vmm. split; [done|]. constructor.
    + exists (T RB_BLACK E 8 (T RB_RED E 16 E)). split; [by repeat split|]. split; [done|].
      split; [|done]. split; [done|]. split; [by repeat split|]. by exists 1%nat.
    + by repeat constructor.
    + done.
  - repeat constructor; done.
  - repeat constructor; vm_compute; congruence.
Qed.
Lemma ex_vmm_counted : counted ex_vmm 1 ex_ranges.
Proof. by exists ex_space_vmm. Qed.
Lemma ex_vmm_fresh : fresh_next ex_vmm.
Proof. intros _. by vm_compute. Qed.

Lemma vmm_find_spec_witness : vmm_find 1 0x8fff ex_vmm = Done (8, ex_vmm) ∧ vmm_find_next 1 0x8fff ex_vmm = Done (16, ex_vmm).
Proof. apply (vmm_find_spec ex_vmm 1 ex_ranges 0x8fff ex_vmm_space). done. Defined.
(** The gap of two pages below the upper range. *)
Lemma vmm_map_spec_witness :
  wp (vmm_map 0 ex_hhdm 1 0 0x1234 ex_lazy) (λ r s', r = 0xe000 ∧ vmm_lock s' = unlocked) ex_vmm.
Proof.
  assert (is_gap ex_ranges 0x11000 0x2000 0xe000) as Hg.
  { split_and!; try (by vm_compute). intros p. repeat (intros [->|Hp]%elem_of_cons; [vm_compute; first [by left|by right]|revert Hp]). by intros ?%elem_of_nil. }
  eapply wp_mono; [apply (vmm_map_spec 0 ex_hhdm ex_vmm 1 ex_space_vmm ex_ranges 0x1234 ex_lazy ex_vmm_space ex_vmm_counted);
    [done|by vm_compute|done|exact ex_vmm_fresh|done|by vm_compute|done|done]|].
  intros r s' (Hl & _ & [(_ & _ & _ & [Hn|Hn])|((_ & _ & Hr & Hfree) & Hbest & _)]); [by destruct (Hn 0xe000)|done|].
  change (ALIGN_UP 0x1234 PAGE_SIZE) with 0x2000 in *. change (mmap_base ex_space_vmm) with 0x11000 in *.
  split; [|done]. specialize (Hbest _ Hg). specialize (Hfree (16, ex_high) ltac:(right; left)).
  change (vend (16, ex_high).2) with 0x11000 in Hfree. change (base (16, ex_high).2) with 0x10000 in Hfree. lia.
Defined.
(** The lower range is cut at its second page, which is removed. *)
Lemma vmm_unmap_spec_witness :
  wp (vmm_unmap 0 ex_hhdm 1 0x8000 0x2000) (λ r s', r = 0 ∧ space s' 1 [(8, mkVma 0x7000 0x1000 ex_lazy 0 0); (16, ex_high)]) ex_vmm.
Proof.
  eapply wp_mono; [apply (vmm_unmap_spec 0 ex_hhdm ex_vmm 1 ex_ranges 0x8000 0x2000 ex_vmm_space ex_vmm_counted);
    [done|exact ex_vmm_fresh|done|done|done|by vm_compute|]|].
  - intros p. repeat (intros [->|Hp]%elem_of_cons; [by vm_compute|revert Hp]). by intros ?%elem_of_nil.
  - intros r s' (_ & _ & [(_ & Ha & _)|(Hr & Hsp & _)]); [by vm_compute in Ha|]. split; [done|exact Hsp].
Defined.
Lemma vmm_is_accessible_spec_witness :
  ∃ r, vmm_is_accessible 1 0x7800 0x1000 VFLAG_WRITABLE ex_vmm = Done (r, ex_vmm) ∧ r = 1.
Proof.
  destruct (vmm_is_accessible_spec ex_vmm 1 ex_ranges 0x7800 0x1000 VFLAG_WRITABLE ex_vmm_space) as (r & H & [[Hr _]|[_ Hn]]).
  - discriminate.
  - vm_compute. discriminate.
  - reflexivity.
  - vm_compute. discriminate.
  - exists r. split; [exact H|exact Hr].
  - destruct Hn. intros addr Ha. exists (8, ex_low). split; [left|]. split; [|vm_compute; reflexivity].
    change (ALIGN_DOWN 0x7800 PAGE_SIZE) with 0x7000 in Ha. change (ALIGN_UP (0x7800 + 0x1000) PAGE_SIZE) with 0x9000 in Ha.
    change (0x7000 ≤ addr < 0x9000). exact Ha.
Defined.
Lemma vmm_is_accessible_wraps_witness :
  vmm_is_accessible 1 (2 ^ 64 - 1) 1 VFLAG_WRITABLE ex_vmm = Done (1, ex_vmm).
Proof. apply (vmm_is_accessible_wraps ex_vmm 1 (2 ^ 64 - 1) VFLAG_WRITABLE); [discriminate|]. split; [reflexivity|]. reflexivity. Defined.
Lemma vmm_brk_deadlock_witness : vmm_brk 0 ex_hhdm 1 0x21000 ex_vmm = Hang.
Proof. apply (vmm_brk_deadlock 0 ex_hhdm ex_vmm 1 ex_space_vmm 0x21000); [discriminate|reflexivity|reflexivity|by vm_compute|by vm_compute|by vm_compute]. Defined.
Lemma vmm_map_fixed_overlap_witness :
  wp (vmm_map 0 ex_hhdm 1 0x6000 0x2000 (Z.lor ex_lazy VFLAG_FIXED)) (λ r s', r = 0x6000) ex_vmm.
Proof.
  eapply wp_mono; [apply (vmm_map_fixed_overlap 0 ex_hhdm ex_vmm 1 ex_ranges 0x6000 0x2000 (Z.lor ex_lazy VFLAG_FIXED) (8, ex_low)
    ex_vmm_space ex_vmm_counted); try done; [left|]|by intros r s' [-> _]].
  intros p. repeat (intros [->|Hp]%elem_of_cons; [by vm_compute; intros []|revert Hp]). by intros ?%elem_of_nil.
Defined.
(** A write to the second page of the lower range. *)
Lemma vmm_pf_unmapped_witness :
  wp (vmm_pf_handler 0 ex_hhdm 1 0x8123 (Z.lor PF_WRITE PF_USER)) (λ r s', r = EOK) ex_vmm.
Proof.
  eapply wp_mono; [apply (vmm_pf_unmapped 0 ex_hhdm ex_vmm 1 ex_space_vmm ex_ranges [4416; 4352; 4288] 0x8123 (Z.lor PF_WRITE PF_USER) ex_vmm_space);
    [done|done|exact ex_pt_inv|vm_compute; reflexivity]|].
  intros r s' [(_ & _ & H)|(p & t & ok & _ & _ & _ & _ & Hf & _ & Hr)].
  - destruct (H (8, ex_low)) as [H'|H']; [left|by vm_compute|by vm_compute in H'|by vm_compute in H'].
  - destruct Hf; [done|exact Hr|exact Hr].
Defined.
