(* ===== verification/Vfs.v ===== *)
(** The virtual file system: [src/kernel/src/fs/vfs/vfs.c] and [vfs.h].

    A vnode, a mounted file system and a driver are named by their addresses. C
    strings that nobody else writes to are values of type [string]; the buffers
    that [strtok] cuts into pieces have addresses, since its static pointer can
    outlive them. The kernel heap answers each allocation from the list [allocs]:
    a fresh address, or 0 when it fails. A table of operations is [None] for the
    null pointer and otherwise the number of the table it was copied from, 0 for
    one that is cleared; what the functions in a table do is the class
    [VnodeOps], which a file system implements over data [D] of its own. *)
From Stdlib Require Import Ascii.
From S2P Require Import Prelude Errno Sync.
#[global] Open Scope string_scope.
#[global] Open Scope list_scope.
#[global] Open Scope Z_scope.

(** * Strings *)

Definition slash : Ascii.ascii := "/"%char.
Definition strlen (s : string) : Z := Z.of_nat (String.length s).
(** [s + n], for [n] up to the length. *)
Fixpoint str_drop (n : nat) (s : string) : option string :=
  match n, s with
  | O, _ => Some s
  | S n, String _ s => str_drop n s
  | S _, EmptyString => None
  end.
(** [*s] *)
Definition str_head (s : string) : option Ascii.ascii :=
  match s with EmptyString => None | String c _ => Some c end.
Definition starts_slash (s : string) : bool :=
  match s with String c _ => Ascii.eqb c slash | EmptyString => false end.

(** [while ( *s == '/') s++] *)
Fixpoint skip_slashes (s : string) : string :=
  match s with
  | String c r => if Ascii.eqb c slash then skip_slashes r else s
  | EmptyString => EmptyString
  end.
(** The text up to the next slash, and what comes after that slash. *)
Fixpoint cut_slash (s : string) : string * option string :=
  match s with
  | EmptyString => (EmptyString, None)
  | String c r => if Ascii.eqb c slash then (EmptyString, Some r)
                  else let '(t, rest) := cut_slash r in (String c t, rest)
  end.

(** * [vfs.h] *)

Definition V_CREATE : Z := 2 ^ 0.
Definition V_DIR : Z := 2 ^ 5.

Inductive vnode_type_t :=
  VNODE_NULL | VNODE_REGULAR | VNODE_DIR | VNODE_BLOCK | VNODE_CHAR | VNODE_LINK | VNODE_PIPE | VNODE_SOCKET | VNODE_BAD.
#[global] Instance vnode_type_eq_dec : EqDecision vnode_type_t.
Proof. solve_decision. Defined.

Record vnode_t := mkVnode {
  path : option string;
  vtype : vnode_type_t;
  node_data : Z;
  uid : Z;
  gid : Z;
  mode : Z;
  ops : option Z;
  vfs_here : Z;
  root_vfs : Z;
  refcount : Z;
  vnode_lock : spinlock_t;
}.
Record vfs_t := mkVfs {
  driver : Z;
  root_vnode : Z;
  vfs_data : Z;
  vfs_ops : option Z;
  vfs_next : Z;
}.
Record vfs_fs_driver_t := mkDriver { drv_id : Z; drv_name : string; drv_mount_fn : Z; drv_next : Z }.
Record dirent_t := mkDirent { d_ino : Z; d_off : Z; d_reclen : Z; d_type : Z; d_name : string }.
Definition sizeof_dirent : Z := 275.
(** The times, which are always 0, are left out. *)
Record stat_t := mkStat {
  st_dev : Z; st_ino : Z; st_nlink : Z; st_mode : Z; st_uid : Z; st_gid : Z; st_rdev : Z; st_size : Z;
  st_blksize : Z; st_blocks : Z;
}.

(** [kfile.h] *)
Record kfile_t := mkKfile { buf_start : Z; fsize : Z; fflags : Z; offset : Z; private_ : Z }.

Definition set_path v x := mkVnode v (vtype x) (node_data x) (uid x) (gid x) (mode x) (ops x) (vfs_here x) (root_vfs x) (refcount x) (vnode_lock x).
Definition set_node_data v x := mkVnode (path x) (vtype x) v (uid x) (gid x) (mode x) (ops x) (vfs_here x) (root_vfs x) (refcount x) (vnode_lock x).
Definition set_ids u g x := mkVnode (path x) (vtype x) (node_data x) u g (mode x) (ops x) (vfs_here x) (root_vfs x) (refcount x) (vnode_lock x).
Definition set_mode v x := mkVnode (path x) (vtype x) (node_data x) (uid x) (gid x) v (ops x) (vfs_here x) (root_vfs x) (refcount x) (vnode_lock x).
Definition set_ops v x := mkVnode (path x) (vtype x) (node_data x) (uid x) (gid x) (mode x) v (vfs_here x) (root_vfs x) (refcount x) (vnode_lock x).
Definition set_vfs_here v x := mkVnode (path x) (vtype x) (node_data x) (uid x) (gid x) (mode x) (ops x) v (root_vfs x) (refcount x) (vnode_lock x).
Definition set_refcount v x := mkVnode (path x) (vtype x) (node_data x) (uid x) (gid x) (mode x) (ops x) (vfs_here x) (root_vfs x) v (vnode_lock x).
Definition set_vnode_lock v x := mkVnode (path x) (vtype x) (node_data x) (uid x) (gid x) (mode x) (ops x) (vfs_here x) (root_vfs x) (refcount x) v.
Definition set_driver v x := mkVfs v (root_vnode x) (vfs_data x) (vfs_ops x) (vfs_next x).
Definition set_root_vnode v x := mkVfs (driver x) v (vfs_data x) (vfs_ops x) (vfs_next x).
Definition set_vfs_ops v x := mkVfs (driver x) (root_vnode x) (vfs_data x) v (vfs_next x).
Definition set_vfs_next v x := mkVfs (driver x) (root_vnode x) (vfs_data x) (vfs_ops x) v.

(** * State *)

Record vfs_state (D : Type) := mkState {
  vnodes : gmap Z vnode_t;
  vfss : gmap Z vfs_t;
  drivers : gmap Z vfs_fs_driver_t;
  files : gmap Z kfile_t;
  vfs_list_head : Z;
  vfs_driver_list_head : Z;
  next_vfs_driver_id : Z;
  vfs_list_lock : spinlock_t;
  vfs_driver_list_lock : spinlock_t;
  (* the buffers of [strdup] that [strtok] works on, and its static pointer: the
     buffer it is in and the text from there on *)
  bufs : gset Z;
  tok_next : option (Z * string);
  allocs : list Z;
  fs : D;
}.
Arguments mkState {D}. Arguments vnodes {D}. Arguments vfss {D}. Arguments drivers {D}. Arguments files {D}.
Arguments vfs_list_head {D}. Arguments vfs_driver_list_head {D}. Arguments next_vfs_driver_id {D}.
Arguments vfs_list_lock {D}. Arguments vfs_driver_list_lock {D}. Arguments bufs {D}. Arguments tok_next {D}.
Arguments allocs {D}. Arguments fs {D}.

Section state.
Context {D : Type}.
Local Abbreviation state := (vfs_state D).

Definition put_vnodes v (s : state) := mkState v (vfss s) (drivers s) (files s) (vfs_list_head s) (vfs_driver_list_head s) (next_vfs_driver_id s) (vfs_list_lock s) (vfs_driver_list_lock s) (bufs s) (tok_next s) (allocs s) (fs s).
Definition put_vfss v (s : state) := mkState (vnodes s) v (drivers s) (files s) (vfs_list_head s) (vfs_driver_list_head s) (next_vfs_driver_id s) (vfs_list_lock s) (vfs_driver_list_lock s) (bufs s) (tok_next s) (allocs s) (fs s).
Definition put_drivers v (s : state) := mkState (vnodes s) (vfss s) v (files s) (vfs_list_head s) (vfs_driver_list_head s) (next_vfs_driver_id s) (vfs_list_lock s) (vfs_driver_list_lock s) (bufs s) (tok_next s) (allocs s) (fs s).
Definition put_files v (s : state) := mkState (vnodes s) (vfss s) (drivers s) v (vfs_list_head s) (vfs_driver_list_head s) (next_vfs_driver_id s) (vfs_list_lock s) (vfs_driver_list_lock s) (bufs s) (tok_next s) (allocs s) (fs s).
Definition put_list_head v (s : state) := mkState (vnodes s) (vfss s) (drivers s) (files s) v (vfs_driver_list_head s) (next_vfs_driver_id s) (vfs_list_lock s) (vfs_driver_list_lock s) (bufs s) (tok_next s) (allocs s) (fs s).
Definition put_driver_head v (s : state) := mkState (vnodes s) (vfss s) (drivers s) (files s) (vfs_list_head s) v (next_vfs_driver_id s) (vfs_list_lock s) (vfs_driver_list_lock s) (bufs s) (tok_next s) (allocs s) (fs s).
Definition put_next_id v (s : state) := mkState (vnodes s) (vfss s) (drivers s) (files s) (vfs_list_head s) (vfs_driver_list_head s) v (vfs_list_lock s) (vfs_driver_list_lock s) (bufs s) (tok_next s) (allocs s) (fs s).
Definition put_list_lock v (s : state) := mkState (vnodes s) (vfss s) (drivers s) (files s) (vfs_list_head s) (vfs_driver_list_head s) (next_vfs_driver_id s) v (vfs_driver_list_lock s) (bufs s) (tok_next s) (allocs s) (fs s).
Definition put_driver_lock v (s : state) := mkState (vnodes s) (vfss s) (drivers s) (files s) (vfs_list_head s) (vfs_driver_list_head s) (next_vfs_driver_id s) (vfs_list_lock s) v (bufs s) (tok_next s) (allocs s) (fs s).
Definition put_bufs v (s : state) := mkState (vnodes s) (vfss s) (drivers s) (files s) (vfs_list_head s) (vfs_driver_list_head s) (next_vfs_driver_id s) (vfs_list_lock s) (vfs_driver_list_lock s) v (tok_next s) (allocs s) (fs s).
Definition put_tok_next v (s : state) := mkState (vnodes s) (vfss s) (drivers s) (files s) (vfs_list_head s) (vfs_driver_list_head s) (next_vfs_driver_id s) (vfs_list_lock s) (vfs_driver_list_lock s) (bufs s) v (allocs s) (fs s).
Definition put_allocs v (s : state) := mkState (vnodes s) (vfss s) (drivers s) (files s) (vfs_list_head s) (vfs_driver_list_head s) (next_vfs_driver_id s) (vfs_list_lock s) (vfs_driver_list_lock s) (bufs s) (tok_next s) v (fs s).
Definition put_fs (v : D) (s : state) := mkState (vnodes s) (vfss s) (drivers s) (files s) (vfs_list_head s) (vfs_driver_list_head s) (next_vfs_driver_id s) (vfs_list_lock s) (vfs_driver_list_lock s) (bufs s) (tok_next s) (allocs s) v.

Definition vn_load (a : Z) : M state vnode_t := λ s,
  match vnodes s !! a with Some x => Done (x, s) | None => Fault end.
Definition vn_store (a : Z) (f : vnode_t → vnode_t) : M state unit := λ s,
  match vnodes s !! a with Some x => Done (tt, put_vnodes (<[a := f x]> (vnodes s)) s) | None => Fault end.
Definition fs_load (a : Z) : M state vfs_t := λ s,
  match vfss s !! a with Some x => Done (x, s) | None => Fault end.
Definition fs_store (a : Z) (f : vfs_t → vfs_t) : M state unit := λ s,
  match vfss s !! a with Some x => Done (tt, put_vfss (<[a := f x]> (vfss s)) s) | None => Fault end.
Definition drv_load (a : Z) : M state vfs_fs_driver_t := λ s,
  match drivers s !! a with Some x => Done (x, s) | None => Fault end.
Definition drv_store (a : Z) (f : vfs_fs_driver_t → vfs_fs_driver_t) : M state unit := λ s,
  match drivers s !! a with Some x => Done (tt, put_drivers (<[a := f x]> (drivers s)) s) | None => Fault end.
Definition file_load (a : Z) : M state kfile_t := λ s,
  match files s !! a with Some x => Done (x, s) | None => Fault end.
Definition file_store (a : Z) (f : kfile_t → kfile_t) : M state unit := λ s,
  match files s !! a with Some x => Done (tt, put_files (<[a := f x]> (files s)) s) | None => Fault end.

Definition kalloc : M state Z := λ s,
  match allocs s with
  | [] => Done (0, s)
  | a :: rest => Done (a, put_allocs rest s)
  end.
(** The string a pointer leads to; the null pointer faults. *)
Definition str_of (p : option string) : M state string := match p with Some s => mret s | None => fault end.
Definition strdup (str : string) : M state (option string) :=
  a ← kalloc; mret (if a =? 0 then None else Some str).
(** A copy for [strtok]: the address of the buffer. *)
Definition strdup_buf (str : string) : M state Z :=
  a ← kalloc;
  if a =? 0 then mret 0 else modify (λ s, put_bufs ({[a]} ∪ bufs s) s) ;; mret a.
Definition free_buf (a : Z) : M state unit := modify (λ s, put_bufs (bufs s ∖ {[a]}) s).

(** [strtok(str, "/")]: [str] is a buffer with its text, or [None] to go on. *)
Definition strtok (str : option (Z * string)) : M state (option string) :=
  match str with Some p => modify (put_tok_next (Some p)) | None => mret tt end ;;
  next ← gets tok_next;
  match next with
  | None => mret None
  | Some (buf, text) =>
      live ← gets (λ s, bool_decide (buf ∈ bufs s));
      if negb live then fault else
      let text := skip_slashes text in
      match text with
      | EmptyString => modify (put_tok_next (Some (buf, EmptyString))) ;; mret None
      | _ => let '(token, rest) := cut_slash text in
             modify (put_tok_next (pair buf <$> rest)) ;; mret (Some token)
      end
  end.
End state.

(** * The operations of a file system *)

(** The functions in the tables of vnodes and of mounted file systems, and the
    [mount] functions of drivers; [None] is a null pointer in the table. An out
    parameter is part of the result: the vnode found or made, the vnode and the
    file of [open], the number of bytes and the buffer read, the number of bytes
    written, the entries of a directory, the target of a link. *)
Class VnodeOps (D : Type) := {
  vop_open : Z → option (Z → Z → Z → M (vfs_state D) (Z * Z * Z));
  vop_close : Z → option (Z → M (vfs_state D) Z);
  vop_read : Z → option (Z → Z → Z → M (vfs_state D) (Z * Z * list Z));
  vop_write : Z → option (Z → list Z → Z → Z → M (vfs_state D) (Z * Z));
  vop_ioctl : Z → option (Z → Z → Z → M (vfs_state D) Z);
  vop_lookup : Z → option (Z → string → M (vfs_state D) (Z * Z));
  vop_readdir : Z → option (Z → Z → M (vfs_state D) (Z * list dirent_t));
  vop_readlink : Z → option (Z → Z → M (vfs_state D) (Z * string));
  vop_mkdir : Z → option (Z → string → Z → M (vfs_state D) Z);
  vop_rmdir : Z → option (Z → string → M (vfs_state D) Z);
  vop_create : Z → option (Z → string → Z → M (vfs_state D) (Z * Z));
  vop_remove : Z → option (Z → string → M (vfs_state D) Z);
  vop_symlink : Z → option (Z → string → string → M (vfs_state D) Z);
  vop_getattr : Z → option (Z → M (vfs_state D) (Z * stat_t));
  vop_setattr : Z → option (Z → stat_t → M (vfs_state D) Z);
  fsop_unmount : Z → option (Z → M (vfs_state D) Z);
  drv_mount : Z → Z → string → M (vfs_state D) (Z * Z);
}.
(** [x->ops && x->ops->op] *)
Definition op_of {A} (table : option Z) (f : Z → option A) : option A := table ≫= f.

(** * [vfs.c] *)

Definition MAX_SYMLINK_DEPTH : Z := 10.

Section vfs.
Context {D : Type} `{!VnodeOps D} (me : Z).
Local Abbreviation state := (vfs_state D).

Definition lock_list : M state unit := zoom vfs_list_lock put_list_lock (lock_acquire me).
Definition unlock_list : M state unit := zoom vfs_list_lock put_list_lock (lock_release me).
Definition lock_drivers : M state unit := zoom vfs_driver_list_lock put_driver_lock (lock_acquire me).
Definition unlock_drivers : M state unit := zoom vfs_driver_list_lock put_driver_lock (lock_release me).
Definition lock_vnode (v : Z) : M state unit :=
  x ← vn_load v; r ← zoom (λ _, vnode_lock x) (λ l s, s) (lock_acquire me ;; gets id); vn_store v (set_vnode_lock r).
Definition unlock_vnode (v : Z) : M state unit :=
  x ← vn_load v; r ← zoom (λ _, vnode_lock x) (λ l s, s) (lock_release me ;; gets id); vn_store v (set_vnode_lock r).

Definition driver_fuel : M state nat := gets (λ s, S (size (drivers s))).
Definition vfs_fuel : M state nat := gets (λ s, S (size (vfss s))).

(** ** Drivers *)

(** The first driver from [iter] on that satisfies [p], with the one before it;
    both 0 at the end of the list. *)
Definition driver_round (p : vfs_fs_driver_t → bool) (it : Z * Z) : M state (Z * Z + Z * Z) :=
  let '(prev, iter) := it in
  if iter =? 0 then mret (inr (prev, 0)) else
  x ← drv_load iter;
  if p x then mret (inr (prev, iter)) else mret (inl (iter, drv_next x)).
Definition find_driver (p : vfs_fs_driver_t → bool) : M state (Z * Z) :=
  head ← gets vfs_driver_list_head;
  fuel ← driver_fuel;
  loop fuel (driver_round p) (0, head).

Definition vfs_register_driver (driver : Z) : M state Z :=
  if driver =? 0 then mret (- EINVAL) else
  x ← drv_load driver;
  if bool_decide (drv_name x = "") || (drv_mount_fn x =? 0) then mret (- EINVAL) else
  lock_drivers ;;
  '(_, found) ← find_driver (λ y, bool_decide (drv_name y = drv_name x));
  if negb (found =? 0) then unlock_drivers ;; mret (- EEXIST) else
  id ← gets next_vfs_driver_id;
  modify (put_next_id (u16 (id + 1))) ;;
  head ← gets vfs_driver_list_head;
  drv_store driver (λ x, mkDriver id (drv_name x) (drv_mount_fn x) head) ;;
  modify (put_driver_head driver) ;;
  unlock_drivers ;;
  mret id.

Definition vfs_unregister_driver (id : Z) : M state Z :=
  lock_drivers ;;
  '(prev, iter) ← find_driver (λ y, drv_id y =? id);
  if iter =? 0 then unlock_drivers ;; mret (- ENOENT) else
  x ← drv_load iter;
  (if prev =? 0 then modify (put_driver_head (drv_next x))
   else drv_store prev (λ y, mkDriver (drv_id y) (drv_name y) (drv_mount_fn y) (drv_next x))) ;;
  unlock_drivers ;;
  mret 0.

Definition vfs_find_driver_by_name (name : string) : M state Z :=
  lock_drivers ;;
  '(_, iter) ← find_driver (λ y, bool_decide (drv_name y = name));
  unlock_drivers ;;
  mret iter.
Definition vfs_find_driver_by_id (id : Z) : M state Z :=
  lock_drivers ;;
  '(_, iter) ← find_driver (λ y, drv_id y =? id);
  unlock_drivers ;;
  mret iter.

(** ** Vnodes *)

Definition vnode_create (root_vfs : Z) (path : string) (type : vnode_type_t) (data : Z) : M state Z :=
  vnode ← kalloc;
  if vnode =? 0 then mret 0 else
  path ← strdup path;
  ops ← kalloc;
  if ops =? 0 then mret 0 else
  modify (λ s, put_vnodes (<[vnode := mkVnode path type data 0 0 0 (Some 0) 0 root_vfs 1 SPINLOCK_INIT]> (vnodes s)) s) ;;
  mret vnode.

Definition vnode_ref (vnode : Z) : M state unit :=
  if vnode =? 0 then mret tt else
  lock_vnode vnode ;;
  vn_store vnode (λ x, set_refcount (u32 (refcount x + 1)) x) ;;
  unlock_vnode vnode.

Definition vnode_unref (vnode : Z) : M state unit :=
  if vnode =? 0 then mret tt else
  lock_vnode vnode ;;
  vn_store vnode (λ x, set_refcount (u32 (refcount x - 1)) x) ;;
  x ← vn_load vnode;
  if refcount x =? 0 then
    unlock_vnode vnode ;;
    modify (λ s, put_vnodes (delete vnode (vnodes s)) s)
  else unlock_vnode vnode.

(** ** Mounted file systems *)

Definition vfs_create_fs (driver fs_data : Z) : M state Z :=
  if driver =? 0 then mret 0 else
  vfs ← kalloc;
  if vfs =? 0 then mret 0 else
  ops ← kalloc;
  if ops =? 0 then mret 0 else
  modify (λ s, put_vfss (<[vfs := mkVfs driver 0 fs_data (Some 0) 0]> (vfss s)) s) ;;
  mret vfs.

Definition append_round (iter : Z) : M state (Z + Z) :=
  x ← fs_load iter; mret (if vfs_next x =? 0 then inr iter else inl (vfs_next x)).
Definition vfs_append (vfs : Z) : M state Z :=
  lock_list ;;
  head ← gets vfs_list_head;
  if head =? 0 then modify (put_list_head vfs) ;; unlock_list ;; mret EOK else
  fuel ← vfs_fuel;
  iter ← loop fuel append_round head;
  fs_store iter (set_vfs_next vfs) ;;
  unlock_list ;;
  mret EOK.

(** Whether the file system at [prefix] is a candidate for [path]. *)
Definition mount_matches (path prefix : string) : bool :=
  if strlen path <? strlen prefix then false
  else if bool_decide (prefix = "/") then starts_slash path
  else String.prefix prefix path &&
       match str_drop (String.length prefix) path with
       | Some EmptyString => true
       | Some rest => starts_slash rest
       | None => false
       end.
Definition resolve_round (path : string) (it : Z * (Z * Z)) : M state (Z * (Z * Z) + Z * Z) :=
  let '(v, (best_match, best_len)) := it in
  if v =? 0 then mret (inr (best_match, best_len)) else
  x ← fs_load v;
  if root_vnode x =? 0 then mret (inl (vfs_next x, (best_match, best_len))) else
  r ← vn_load (root_vnode x);
  match Vfs.path r with
  | None => mret (inl (vfs_next x, (best_match, best_len)))
  | Some prefix =>
      if mount_matches path prefix && (strlen prefix >? best_len)
      then mret (inl (vfs_next x, (v, strlen prefix)))
      else mret (inl (vfs_next x, (best_match, best_len)))
  end.
(** The result, the file system, and the buffer and text of [remaining_path]. *)
Definition vfs_resolve_mount (path : string) : M state (Z * Z * (Z * string)) :=
  lock_list ;;
  head ← gets vfs_list_head;
  fuel ← vfs_fuel;
  '(best_match, best_len) ← loop fuel (resolve_round path) (head, (0, 0));
  unlock_list ;;
  head ← gets vfs_list_head;
  match (if best_match =? 0
         then if bool_decide (path = "/") && negb (head =? 0) then Some (head, 1) else None
         else Some (best_match, best_len)) with
  | None => mret (- ENOENT, 0, (0, ""))
  | Some (best_match, best_len) =>
      match str_drop (Z.to_nat best_len) path with
      | None => fault
      | Some rem =>
          let rem := skip_slashes rem in
          buf ← strdup_buf rem;
          mret (EOK, best_match, (buf, rem))
      end
  end.

(** ** Looking up *)

(** What the recursive call of the lookup does: the path, the depth, and
    whether links are followed. *)
Definition lookup_fn := string → Z → bool → M state (Z * Z).

Definition vfs_follow_symlink (lookup : lookup_fn) (vnode depth : Z) : M state (Z * Z) :=
  if depth >=? MAX_SYMLINK_DEPTH then mret (- ELOOP, 0) else
  x ← vn_load vnode;
  if negb (bool_decide (vtype x = VNODE_LINK)) then mret (EOK, vnode) else
  match op_of (ops x) vop_readlink with
  | None => mret (- EINVAL, 0)
  | Some readlink =>
      '(ret, target) ← readlink vnode 512;
      if negb (ret =? EOK) then mret (ret, 0) else
      '(ret, target_vnode) ← lookup target (depth + 1) false;
      if negb (ret =? EOK) then mret (ret, 0) else
      mret (EOK, target_vnode)
  end.

(** A component of the path, from the vnode [current]; on an error the result. *)
Definition component_round (lookup : lookup_fn) (depth : Z) (follow_symlinks : bool)
    (it : Z * option string) : M state (Z * option string + Z * Z) :=
  let '(current, component) := it in
  match component with
  | None => mret (inr (EOK, current))
  | Some component =>
      x ← vn_load current;
      if negb (bool_decide (vtype x = VNODE_DIR)) then vnode_unref current ;; mret (inr (- ENOTDIR, 0)) else
      match op_of (ops x) vop_lookup with
      | None => vnode_unref current ;; mret (inr (- ENOSYS, 0))
      | Some op =>
          '(ret, next) ← op current component;
          if negb (ret =? EOK) then vnode_unref current ;; mret (inr (ret, 0)) else
          n ← vn_load next;
          next ← (if vfs_here n =? 0 then mret next else
                  vnode_unref next ;;
                  n ← vn_load next;
                  m ← fs_load (vfs_here n);
                  vnode_ref (root_vnode m) ;;
                  mret (root_vnode m));
          '(ret, resolved) ← (if follow_symlinks then vfs_follow_symlink lookup next (depth + 1) else mret (EOK, next));
          if negb (ret =? EOK) then vnode_unref next ;; vnode_unref current ;; mret (inr (ret, 0)) else
          when (negb (resolved =? next)) (vnode_unref next ;; vnode_ref resolved) ;;
          vnode_unref current ;;
          component ← strtok None;
          mret (inl (resolved, component))
      end
  end.

Definition lookup_body (lookup : lookup_fn) (path : string) (depth : Z) (follow_symlinks : bool) : M state (Z * Z) :=
  if depth >=? MAX_SYMLINK_DEPTH then mret (- ELOOP, 0) else
  '(ret, vfs, (rel_path, text)) ← vfs_resolve_mount path;
  if negb (ret =? EOK) then mret (ret, 0) else
  x ← fs_load vfs;
  if (rel_path =? 0) || bool_decide (text = "") then
    free_buf rel_path ;;
    out ← (if root_vnode x =? 0 then mret 0 else
           r ← vn_load (root_vnode x);
           if vfs_here r =? 0 then mret (root_vnode x) else
           m ← fs_load (vfs_here r); mret (root_vnode m));
    vnode_ref out ;;
    mret (EOK, out)
  else
  let current := root_vnode x in
  if current =? 0 then free_buf rel_path ;; mret (- ENOENT, 0) else
  vnode_ref current ;;
  r ← vn_load current;
  current ← (if vfs_here r =? 0 then mret current else
             vnode_unref current ;;
             m ← fs_load (vfs_here r);
             vnode_ref (root_vnode m) ;;
             mret (root_vnode m));
  component ← strtok (Some (rel_path, text));
  res ← loop (S (String.length text)) (component_round lookup depth follow_symlinks) (current, component);
  free_buf rel_path ;;
  mret res.
Fixpoint vfs_lookup_internal (fuel : nat) : lookup_fn :=
  match fuel with
  | O => λ _ _ _, hang
  | S n => lookup_body (vfs_lookup_internal n)
  end.
(** The depth bounds the calls: it grows by two from call to call. *)
Definition lookup_fuel : nat := S (Z.to_nat MAX_SYMLINK_DEPTH).
Definition vfs_lookup (path : string) : M state (Z * Z) := vfs_lookup_internal lookup_fuel path 0 true.

(** The text before and after the last slash. *)
Fixpoint strrchr (s : string) : option (string * string) :=
  match s with
  | EmptyString => None
  | String c r => match strrchr r with
                  | Some (a, b) => Some (String c a, b)
                  | None => if Ascii.eqb c slash then Some ("", r) else None
                  end
  end.
(** The result, the parent and the name in it. *)
Definition vfs_lookup_parent (path : string) : M state (Z * Z * string) :=
  match strrchr path with
  | None => mret (- EINVAL, 0, "")
  | Some (parent_path, name) =>
      copy ← (if bool_decide (parent_path = "") then p ← strdup "/"; mret (Some p) else
              a ← kalloc; mret (if a =? 0 then None else Some (Some parent_path)));
      match copy with
      | None => mret (- ENOMEM, 0, "")
      | Some parent_path =>
      filename ← strdup name;
      match filename with
      | None => mret (- ENOMEM, 0, "")
      | Some filename =>
          parent_path ← str_of parent_path;
          '(ret, parent) ← vfs_lookup parent_path;
          if negb (ret =? EOK) then mret (ret, 0, "") else mret (EOK, parent, filename)
      end
      end
  end.

(** ** Mounting *)

(** Give a file system up that could not be mounted. *)
Definition discard_fs (vfs : Z) : M state unit :=
  x ← fs_load vfs;
  match op_of (vfs_ops x) fsop_unmount with None => mret tt | Some unmount => unmount vfs ;; mret tt end ;;
  x ← fs_load vfs;
  vnode_unref (root_vnode x) ;;
  modify (λ s, put_vfss (delete vfs (vfss s)) s).

Definition vfs_mount (device : Z) (fstype_name path : string) : M state Z :=
  driver ← vfs_find_driver_by_name fstype_name;
  if driver =? 0 then mret 0 else
  d ← drv_load driver;
  '(res, vfs) ← drv_mount (drv_mount_fn d) device path;
  if negb (res =? EOK) || (vfs =? 0) then mret 0 else
  fs_store vfs (set_driver driver) ;;
  x ← fs_load vfs;
  if root_vnode x =? 0 then discard_fs vfs ;; mret 0 else
  if bool_decide (path = "/") then vfs_append vfs ;; mret vfs else
  '(res, mount_point) ← vfs_lookup path;
  if negb (res =? EOK) then
    head ← gets vfs_list_head;
    if head =? 0 then vfs_append vfs ;; mret vfs else discard_fs vfs ;; mret 0
  else
  m ← vn_load mount_point;
  if negb (bool_decide (vtype m = VNODE_DIR)) then vnode_unref mount_point ;; discard_fs vfs ;; mret 0 else
  vn_store mount_point (set_vfs_here vfs) ;;
  vnode_unref mount_point ;;
  vfs_append vfs ;;
  mret vfs.

(** A round of [vfs_unmount] at [current], [prev] the one before it or 0 for
    the head of the list. *)
Definition unmount_round (path : string) (it : Z * Z) : M state (Z * Z + Z) :=
  let '(prev, current) := it in
  if current =? 0 then mret (inr (- ENOENT)) else
  x ← fs_load current;
  here ← (if root_vnode x =? 0 then mret false else
          r ← vn_load (root_vnode x); p ← str_of (Vfs.path r); mret (bool_decide (p = path)));
  if negb here then mret (inl (current, vfs_next x)) else
  when (negb (bool_decide (path = "/")))
    ('(ret, mount_point) ← vfs_lookup path;
     when (ret =? EOK) (vn_store mount_point (set_vfs_here 0) ;; vnode_unref mount_point)) ;;
  match op_of (vfs_ops x) fsop_unmount with None => mret tt | Some unmount => unmount current ;; mret tt end ;;
  x ← fs_load current;
  (if prev =? 0 then modify (put_list_head (vfs_next x)) else fs_store prev (set_vfs_next (vfs_next x))) ;;
  vnode_unref (root_vnode x) ;;
  modify (λ s, put_vfss (delete current (vfss s)) s) ;;
  mret (inr EOK).
Definition vfs_unmount (path : string) : M state Z :=
  lock_list ;;
  head ← gets vfs_list_head;
  fuel ← vfs_fuel;
  ret ← loop fuel (unmount_round path) (0, head);
  unlock_list ;;
  mret ret.

(** ** Operations on paths *)

(** The parent of a path and an operation in it, as [vfs_create], [vfs_mkdir],
    [vfs_rmdir], [vfs_remove] and [vfs_symlink] do. *)
Definition in_parent {A} (path : string) (op : Z → option A) (run : A → Z → string → M state Z) : M state Z :=
  '(ret, parent, name) ← vfs_lookup_parent path;
  if negb (ret =? EOK) then mret ret else
  x ← vn_load parent;
  match op_of (ops x) op with
  | None => vnode_unref parent ;; mret (- ENOSYS)
  | Some f => ret ← run f parent name; vnode_unref parent ;; mret ret
  end.

Definition vfs_create (path : string) (mode : Z) : M state Z :=
  '(ret, parent, fname) ← vfs_lookup_parent path;
  if negb (ret =? EOK) then mret ret else
  x ← vn_load parent;
  match op_of (ops x) vop_create with
  | None => vnode_unref parent ;; mret (- ENOSYS)
  | Some create =>
      '(ret, vnode) ← create parent fname mode;
      vnode_unref parent ;;
      if negb (ret =? EOK) then mret ret else
      vnode_unref vnode ;;
      mret EOK
  end.
Definition vfs_mkdir (path : string) (mode : Z) : M state Z := in_parent path vop_mkdir (λ f parent name, f parent name mode).
Definition vfs_rmdir (path : string) : M state Z := in_parent path vop_rmdir (λ f parent name, f parent name).
Definition vfs_remove (path : string) : M state Z := in_parent path vop_remove (λ f parent name, f parent name).
Definition vfs_symlink (target linkpath : string) : M state Z :=
  in_parent linkpath vop_symlink (λ f parent name, f parent name target).

(** [kfile.c] *)
Definition kfile_create : M state Z :=
  file ← kalloc;
  if file =? 0 then mret 0 else
  modify (λ s, put_files (<[file := mkKfile 0 0 0 0 0]> (files s)) s) ;; mret file.
Definition free_file (file : Z) : M state unit := modify (λ s, put_files (delete file (files s)) s).

(** The result and the file. *)
Definition vfs_open (path : string) (flags : Z) : M state (Z * Z) :=
  '(ret, vnode) ← vfs_lookup path;
  '(ret, vnode) ←
    (if (ret =? - ENOENT) && flag flags V_CREATE then
       '(ret, parent, fname) ← vfs_lookup_parent path;
       if negb (ret =? EOK) then mret (ret, 0) else
       x ← vn_load parent;
       match op_of (ops x) vop_create with
       | None => vnode_unref parent ;; mret (- ENOSYS, 0)
       | Some create => '(ret, vnode) ← create parent fname flags; vnode_unref parent ;; mret (ret, vnode)
       end
     else mret (ret, vnode));
  if negb (ret =? EOK) then mret (ret, 0) else
  if vnode =? 0 then mret (- ENOENT, 0) else
  x ← vn_load vnode;
  match op_of (ops x) vop_open with
  | None => vnode_unref vnode ;; mret (- ENOSYS, 0)
  | Some op =>
      file ← kfile_create;
      if file =? 0 then vnode_unref vnode ;; mret (- ENOMEM, 0) else
      '(ret, vnode, file) ← op vnode flags file;
      if negb (ret =? EOK) then free_file file ;; vnode_unref vnode ;; mret (ret, 0) else
      file_store file (λ f, mkKfile (buf_start f) (fsize f) (fflags f) (offset f) vnode) ;;
      mret (EOK, file)
  end.

(** The operation of a vnode, called without a check. *)
Definition call_op {A} (vnode : Z) (op : Z → option A) : M state A :=
  x ← vn_load vnode; match op_of (ops x) op with Some f => mret f | None => fault end.
(** The result and the buffer. *)
Definition vfs_read (vnode size offset : Z) : M state (Z * list Z) :=
  if vnode =? 0 then mret (- EFAULT, []) else
  f ← call_op vnode vop_read; '(ret, _, out) ← f vnode size offset; mret (ret, out).
Definition vfs_write (vnode : Z) (buf : list Z) (size offset : Z) : M state Z :=
  if vnode =? 0 then mret (- EFAULT) else
  f ← call_op vnode vop_write; '(ret, size) ← f vnode buf size offset;
  if negb (ret =? EOK) then mret ret else mret (i32 size).
Definition vfs_ioctl (vnode request arg : Z) : M state Z :=
  if vnode =? 0 then mret (- EFAULT) else
  f ← call_op vnode vop_ioctl; f vnode request arg.
Definition vfs_close (vnode : Z) : M state Z :=
  if vnode =? 0 then mret (- EFAULT) else
  x ← vn_load vnode;
  match op_of (ops x) vop_close with
  | None => vnode_unref vnode ;; mret (- ENOSYS)
  | Some close => r ← close vnode; vnode_unref vnode ;; mret r
  end.
(** [count] entries at most; the entries read. *)
Definition vfs_readdir (vnode count : Z) : M state (Z * list dirent_t) :=
  if vnode =? 0 then mret (- EINVAL, []) else
  x ← vn_load vnode;
  if negb (bool_decide (vtype x = VNODE_DIR)) then mret (- ENOTDIR, []) else
  match op_of (ops x) vop_readdir with
  | None => mret (- ENOSYS, [])
  | Some readdir => readdir vnode count
  end.

Definition vfs_readlink (path : string) (size : Z) : M state (Z * string) :=
  '(ret, vnode) ← vfs_lookup_internal lookup_fuel path 0 false;
  if negb (ret =? EOK) then mret (ret, "") else
  x ← vn_load vnode;
  if negb (bool_decide (vtype x = VNODE_LINK)) then vnode_unref vnode ;; vn_load vnode ;; mret (- EINVAL, "") else
  match op_of (ops x) vop_readlink with
  | None => vnode_unref vnode ;; mret (- ENOSYS, "")
  | Some readlink => '(ret, buf) ← readlink vnode size; vnode_unref vnode ;; mret (ret, buf)
  end.
Definition vfs_stat (path : string) : M state (Z * stat_t) :=
  let none := mkStat 0 0 0 0 0 0 0 0 0 0 in
  '(ret, vnode) ← vfs_lookup path;
  if negb (ret =? EOK) then mret (ret, none) else
  x ← vn_load vnode;
  match op_of (ops x) vop_getattr with
  | None => vnode_unref vnode ;; mret (- ENOSYS, none)
  | Some getattr => '(ret, st) ← getattr vnode; vnode_unref vnode ;; mret (ret, st)
  end.
Definition vfs_setstat (path : string) (st : stat_t) : M state Z :=
  '(ret, vnode) ← vfs_lookup path;
  if negb (ret =? EOK) then mret ret else
  x ← vn_load vnode;
  match op_of (ops x) vop_setattr with
  | None => vnode_unref vnode ;; mret (- ENOSYS)
  | Some setattr => ret ← setattr vnode st; vnode_unref vnode ;; mret ret
  end.
End vfs.
