(* ===== verification/Kfile.v ===== *)
(** Open files: [src/kernel/src/fs/vfs/kfile.c] and [kfile.h], over the virtual
    file system. The listing that [fs_list] prints is not modelled. *)
From Stdlib Require Import Ascii.
From S2P Require Import Prelude Errno Sync Vfs.

Inductive fseek_t := SEEK_SET | SEEK_CUR | SEEK_END.
Inductive fcntl_cmd_t := F_GETFL | F_SETFL.

Definition O_CREAT : Z := 0x40.
Definition O_APPEND : Z := 0x400.
Definition O_DIRECTORY : Z := 0x10000.
Definition PIPE_READ_END : Z := 2 ^ 20.
Definition PIPE_WRITE_END : Z := 2 ^ 21.

Definition set_fsize v f := mkKfile (buf_start f) v (fflags f) (offset f) (private_ f).
Definition set_fflags v f := mkKfile (buf_start f) (fsize f) v (offset f) (private_ f).
Definition set_offset v f := mkKfile (buf_start f) (fsize f) (fflags f) v (private_ f).

Definition f2vflags (fio_flags : Z) : Z :=
  let vflags := 0 in
  let vflags := if flag fio_flags O_CREAT then Z.lor vflags V_CREATE else vflags in
  if flag fio_flags O_DIRECTORY then Z.lor vflags V_DIR else vflags.

Section kfile.
Context {D : Type} `{!VnodeOps D} (me : Z).
Local Abbreviation state := (vfs_state D).

(** The result and the file. *)
Definition kopen (path : string) (flags mode : Z) : M state (Z * Z) :=
  res ← (if flag flags O_CREAT then vfs_create me path mode else mret EOK);
  if negb (res =? EOK) && negb (res =? - EEXIST) then mret (res, 0) else
  '(ret, f) ← vfs_open me path (f2vflags (Z.land flags (not32 O_CREAT)));
  if negb (ret =? EOK) then mret (ret, 0) else
  file_store f (λ x, set_fflags flags (set_offset 0 x)) ;;
  mret (EOK, f).

(** The [size_t] returned and the buffer read into, [None] when it is not
    touched. *)
Definition kread (file size : Z) : M state (Z * option (list Z)) :=
  if file =? 0 then mret (u64 (- EFAULT), None) else
  f ← file_load file;
  if flag (fflags f) PIPE_READ_END then mret (u64 (- ENOSYS), None) else
  if flag (fflags f) PIPE_WRITE_END then mret (0, None) else
  op ← call_op (private_ f) vop_read;
  '(ret, bytes, out) ← op (private_ f) size (offset f);
  if negb (ret =? EOK) then mret (u64 (- ret), Some out) else
  file_store file (λ f, set_offset (u64 (offset f + bytes)) f) ;;
  mret (bytes, Some out).

Definition kwrite (file : Z) (buf : list Z) (size : Z) : M state Z :=
  if file =? 0 then mret (- EFAULT) else
  f ← file_load file;
  if flag (fflags f) PIPE_WRITE_END then mret (- ENOSYS) else
  if flag (fflags f) PIPE_READ_END then mret 0 else
  let off := if flag (fflags f) O_APPEND then fsize f else offset f in
  ret ← vfs_write (private_ f) buf size off;
  if ret <? 0 then mret ret else
  f ← file_load file;
  when (u64 (offset f + size) >? fsize f) (file_store file (λ f, set_fsize (u64 (offset f + size)) f)) ;;
  file_store file (λ f, set_offset (u64 (offset f + size)) f) ;;
  mret ret.

Definition kclose (file : Z) : M state Z :=
  if file =? 0 then mret (- EFAULT) else
  f ← file_load file;
  if flag (fflags f) PIPE_READ_END then mret 0 else
  if flag (fflags f) PIPE_WRITE_END then mret 0 else
  ret ← vfs_close me (private_ f);
  free_file file ;;
  mret ret.

Definition kseek (file off : Z) (whence : fseek_t) : M state Z :=
  if file =? 0 then mret (u64 (- EFAULT)) else
  file_store file (λ f, match whence with
                        | SEEK_CUR => set_offset (u64 (offset f + off)) f
                        | SEEK_END => set_offset (u64 (fsize f + off)) f
                        | SEEK_SET => set_offset (u64 off) f
                        end) ;;
  f ← file_load file; mret (offset f).

(** [arg] is what the pointer leads to. *)
Definition kfcntl (file : Z) (cmd : fcntl_cmd_t) (arg : Z) : M state Z :=
  f ← file_load file;
  match cmd with
  | F_GETFL => mret (fflags f)
  | F_SETFL => file_store file (λ f, set_fflags (Z.lor (fflags f) (Z.land arg O_APPEND)) f) ;; mret EOK
  end.
End kfile.

(** * Modes as text *)

Definition S_IFMT : Z := 0xf000.
Definition S_IFREG : Z := 0x8000.
Definition S_IFDIR : Z := 0x4000.
Definition S_IFLNK : Z := 0xa000.
Definition S_IFCHR : Z := 0x2000.
Definition S_IFBLK : Z := 0x6000.
Definition S_IFIFO : Z := 0x1000.
Definition S_IFSOCK : Z := 0xc000.

Definition file_type_char (mode : Z) : string :=
  let type := Z.land mode S_IFMT in
  if type =? S_IFREG then "-" else if type =? S_IFDIR then "d" else if type =? S_IFLNK then "l"
  else if type =? S_IFCHR then "c" else if type =? S_IFBLK then "b" else if type =? S_IFIFO then "p"
  else if type =? S_IFSOCK then "s" else "?".
Definition bit_char (mode k : Z) (c : ascii) (r : string) : string := String (if flag mode (2 ^ k) then c else "-"%char) r.
Definition mode_to_string (mode : Z) : string :=
  (file_type_char mode +:+
   bit_char mode 8 "r" (bit_char mode 7 "w" (bit_char mode 6 "x"
   (bit_char mode 5 "r" (bit_char mode 4 "w" (bit_char mode 3 "x"
   (bit_char mode 2 "r" (bit_char mode 1 "w" (bit_char mode 0 "x" "")))))))))%string.
