(* ===== verification/Ramfs.v ===== *)
(** The RAM file system: [src/kernel/src/fs/ramfs/ramfs.c] and [ramfs.h], an
    implementation of the operations of the virtual file system.

    Nodes and file systems are named by their addresses; [data] is the address of
    a block of bytes in [blocks]. Of a block that [krealloc] makes larger, the
    heap keeps what it has recorded as its size, 65535 bytes at most
    ([KheapTheorems.krealloc_spec]); [junk] is what memory holds that is
    allocated and not yet written. Printing ([ramfs_print]) is not modelled. *)
From Stdlib Require Import Ascii.
From S2P Require Import Prelude Errno Sync Vfs Kfile.

Inductive ramfs_ftype_t := RAMFS_FILE | RAMFS_DIRECTORY | RAMFS_SYMLINK.
#[global] Instance ramfs_ftype_eq_dec : EqDecision ramfs_ftype_t.
Proof. solve_decision. Defined.

Record ramfs_node_t := mkRn {
  name : option string;
  type : ramfs_ftype_t;
  rsize : Z;
  data : Z;
  rmode : Z;
  sibling : Z;
  child : Z;
}.
Record ramfs_t := mkRamfs { root_node : Z; ramfs_size : Z }.
Record ramfs_data := mkRd { rnodes : gmap Z ramfs_node_t; ramfss : gmap Z ramfs_t; blocks : gmap Z (list Z) }.

Definition set_name v n := mkRn v (type n) (rsize n) (data n) (rmode n) (sibling n) (child n).
Definition set_rmode v n := mkRn (name n) (type n) (rsize n) (data n) v (sibling n) (child n).
Definition set_contents z d n := mkRn (name n) (type n) z d (rmode n) (sibling n) (child n).
Definition set_dir n := mkRn (name n) RAMFS_DIRECTORY 0 0 (rmode n) (sibling n) (child n).
Definition set_sibling v n := mkRn (name n) (type n) (rsize n) (data n) (rmode n) v (child n).
Definition set_child v n := mkRn (name n) (type n) (rsize n) (data n) (rmode n) (sibling n) v.
Definition put_rnodes v d := mkRd v (ramfss d) (blocks d).
Definition put_ramfss v d := mkRd (rnodes d) v (blocks d).
Definition put_blocks v d := mkRd (rnodes d) (ramfss d) v.

Local Abbreviation state := (vfs_state ramfs_data).

Definition nd_load (a : Z) : M state ramfs_node_t := λ s,
  match rnodes (fs s) !! a with Some x => Done (x, s) | None => Fault end.
Definition nd_store (a : Z) (f : ramfs_node_t → ramfs_node_t) : M state unit := λ s,
  match rnodes (fs s) !! a with
  | Some x => Done (tt, put_fs (put_rnodes (<[a := f x]> (rnodes (fs s))) (fs s)) s)
  | None => Fault
  end.
Definition rf_load (a : Z) : M state ramfs_t := λ s,
  match ramfss (fs s) !! a with Some x => Done (x, s) | None => Fault end.
Definition rf_store (a : Z) (f : ramfs_t → ramfs_t) : M state unit := λ s,
  match ramfss (fs s) !! a with
  | Some x => Done (tt, put_fs (put_ramfss (<[a := f x]> (ramfss (fs s))) (fs s)) s)
  | None => Fault
  end.
Definition set_block (a : Z) (b : list Z) : M state unit := modify (λ s, put_fs (put_blocks (<[a := b]> (blocks (fs s))) (fs s)) s).
Definition free_node (a : Z) : M state unit := modify (λ s, put_fs (put_rnodes (delete a (rnodes (fs s))) (fs s)) s).
Definition free_block (a : Z) : M state unit := modify (λ s, put_fs (put_blocks (delete a (blocks (fs s))) (fs s)) s).
Definition node_fuel : M state nat := gets (λ s, S (size (rnodes (fs s)))).

(** A pointer to the block at [a] plus [off], for [n] bytes: nothing is looked
    at when there are none. *)
Definition block_read (a off n : Z) : M state (list Z) := λ s,
  if n =? 0 then Done ([], s) else
  match blocks (fs s) !! a with
  | Some b => if (0 <=? off) && (off + n <=? Z.of_nat (length b)) then Done (take (Z.to_nat n) (drop (Z.to_nat off) b), s) else Fault
  | None => Fault
  end.
Definition splice (off : nat) (d b : list Z) : list Z := take off b ++ d ++ drop (off + length d) b.
Definition block_write (a off : Z) (d : list Z) : M state unit := λ s,
  if bool_decide (d = []) then Done (tt, s) else
  match blocks (fs s) !! a with
  | Some b => if (0 <=? off) && (off + Z.of_nat (length d) <=? Z.of_nat (length b))
              then set_block a (splice (Z.to_nat off) d b) s else Fault
  | None => Fault
  end.

(** The bytes of a string, with and without the terminator. *)
Definition bytes_of (s : string) : list Z := Z.of_nat ∘ nat_of_ascii <$> String.list_ascii_of_string s.
Fixpoint c_string (b : list Z) : string :=
  match b with
  | [] => ""
  | x :: b => if x =? 0 then "" else String (ascii_of_nat (Z.to_nat x)) (c_string b)
  end.

(** * [ramfs.c] *)

Definition ramfs_create_fs : M state Z :=
  a ← kalloc;
  if a =? 0 then mret 0 else
  modify (λ s, put_fs (put_ramfss (<[a := mkRamfs 0 0]> (ramfss (fs s))) (fs s)) s) ;; mret a.

Definition default_mode (t : ramfs_ftype_t) : Z :=
  match t with
  | RAMFS_DIRECTORY => Z.lor S_IFDIR 0x1ed
  | RAMFS_FILE => Z.lor S_IFREG 0x1a4
  | RAMFS_SYMLINK => Z.lor S_IFLNK 0x1ff
  end.
Definition ramfs_create_node (ftype : ramfs_ftype_t) : M state Z :=
  node ← kalloc;
  if node =? 0 then fault else
  modify (λ s, put_fs (put_rnodes (<[node := mkRn None ftype 0 0 (default_mode ftype) 0 0]> (rnodes (fs s))) (fs s)) s) ;;
  mret node.

(** [strtok_r] on a copy of its own: the components of a path. *)
Fixpoint components_from (fuel : nat) (s : string) : list string :=
  match fuel, skip_slashes s with
  | S fuel, String _ _ as s => let '(t, rest) := cut_slash s in
      t :: match rest with Some r => components_from fuel r | None => [] end
  | _, _ => []
  end.
Definition components (s : string) : list string := components_from (S (String.length s)) s.

(** The search of the children from [n] on. *)
Definition child_round (p : string → ramfs_node_t → bool) (want : string) (n : Z) : M state (Z + Z) :=
  if n =? 0 then mret (inr 0) else
  x ← nd_load n;
  nm ← str_of (name x);
  mret (if bool_decide (nm = want) && p nm x then inr n else inl (sibling x)).
Definition find_child (p : string → ramfs_node_t → bool) (first : Z) (want : string) : M state Z :=
  fuel ← node_fuel; loop fuel (child_round p want) first.
Definition any_type : string → ramfs_node_t → bool := λ _ _, true.

(** The result and the node found. *)
Fixpoint find_components (first : Z) (dirs : list string) : M state (Z * Z) :=
  match dirs with
  | [] => mret (-1, 0)
  | dir :: rest =>
      found ← find_child any_type first dir;
      if found =? 0 then mret (-1, 0) else
      match rest with
      | [] => mret (0, found)
      | _ => x ← nd_load found; find_components (child x) rest
      end
  end.
(** [if (path[0] == '/') path++] *)
Definition skip_slash (path : string) : string :=
  match path with String c r => if Ascii.eqb c slash then r else path | EmptyString => path end.
Definition ramfs_find_node (ramfs : Z) (path : string) : M state (Z * Z) :=
  if ramfs =? 0 then mret (-1, 0) else
  f ← rf_load ramfs;
  if root_node f =? 0 then mret (-1, 0) else
  let path := skip_slash path in
  if bool_decide (path = "") then mret (0, root_node f) else
  name_dup ← strdup path;
  match name_dup with
  (* [strtok_r(NULL, ...)] with no saved pointer finds no component *)
  | None => mret (-1, 0)
  | Some name_dup =>
      r ← nd_load (root_node f);
      find_components (child r) (components name_dup)
  end.

Definition last_round (n : Z) : M state (Z + Z) :=
  x ← nd_load n; mret (if sibling x =? 0 then inr n else inl (sibling x)).
Definition ramfs_append_child (parent child_ : Z) : M state unit :=
  x ← nd_load parent;
  if child x =? 0 then nd_store parent (set_child child_) else
  fuel ← node_fuel;
  last_child ← loop fuel last_round (child x);
  nd_store last_child (set_sibling child_).

Fixpoint add_components (cur_node : Z) (dirs : list string) (out : Z) : M state Z :=
  match dirs with
  | [] => mret out
  | dir :: rest =>
      let rt := match rest with [] => RAMFS_FILE | _ => RAMFS_DIRECTORY end in
      x ← nd_load cur_node;
      found ← find_child (λ _ n, bool_decide (type n = rt)) (child x) dir;
      found ← (if found =? 0 then
                 n ← ramfs_create_node rt;
                 nm ← strdup dir;
                 nd_store n (set_name nm) ;;
                 ramfs_append_child cur_node n ;;
                 mret n
               else mret found);
      match rest with
      | [] => mret found
      | _ => add_components found rest out
      end
  end.
(** The result and the node added or found. *)
Definition ramfs_node_add (ramfs : Z) (path : string) (out : Z) : M state (Z * Z) :=
  if ramfs =? 0 then mret (EFAULT, out) else
  f ← rf_load ramfs;
  if root_node f =? 0 then mret (EFAULT, out) else
  name_dup ← strdup (skip_slash path);
  match name_dup with
  | None => mret (EOK, out)
  | Some name_dup => out ← add_components (root_node f) (components name_dup) out; mret (EOK, out)
  end.

Definition ramfs_find_or_create_node (ramfs : Z) (path : string) (ftype : ramfs_ftype_t) : M state (Z * Z) :=
  '(_, found) ← ramfs_find_node ramfs path;
  if found =? 0 then out ← ramfs_create_node ftype; mret (1, out) else mret (0, found).

(** The bytes in a node and below it; [fuel] bounds the nodes. *)
Fixpoint get_node_size (fuel : nat) (node : Z) : M state Z :=
  match fuel with
  | O => hang
  | S fuel =>
      if node =? 0 then mret EFAULT else
      x ← nd_load node;
      match type x with
      | RAMFS_FILE => mret (rsize x)
      | RAMFS_DIRECTORY =>
          n ← node_fuel;
          loop n (λ '(s, c), if c =? 0 then mret (inr s) else
                             k ← get_node_size fuel c; y ← nd_load c; mret (inl (u64 (s + k), sibling y))) (0, child x)
      | RAMFS_SYMLINK => b ← gets (λ s, blocks (fs s) !! data x);
          match b with Some b => mret (u64 (strlen (c_string b) + 1)) | None => fault end
      end
  end.
Definition ramfs_get_node_size (node : Z) : M state Z := fuel ← node_fuel; get_node_size (S fuel) node.

(** ** Operations on vnodes *)

(** [x->root_vfs->vfs_data] *)
Definition ramfs_of (x : vnode_t) : M state Z := v ← fs_load (root_vfs x); mret (vfs_data v).
(** [path + strlen(root_vfs->root_vnode->path)], without a slash at its start,
    and the two paths. *)
Definition rel_path (x : vnode_t) : M state (string * string * string) :=
  v ← fs_load (root_vfs x);
  r ← vn_load (root_vnode v);
  root ← str_of (path r);
  p ← str_of (path x);
  match str_drop (String.length root) p with
  | None => fault
  | Some rel => mret (skip_slash rel, p, root)
  end.
(** The node of a vnode: the one it remembers, or else the one at its path. *)
Definition node_of (ramfs : Z) (x : vnode_t) : M state Z :=
  if negb (node_data x =? 0) then mret (node_data x) else
  '(rel, _, _) ← rel_path x;
  if bool_decide (rel = "") then f ← rf_load ramfs; mret (root_node f) else
  '(_, n) ← ramfs_find_node ramfs rel; mret n.

Definition ramfs_open (vnode flags file : Z) : M state (Z * Z * Z) :=
  if vnode =? 0 then mret (EFAULT, vnode, file) else
  x ← vn_load vnode;
  ramfs ← ramfs_of x;
  if ramfs =? 0 then mret (EFAULT, vnode, file) else
  node ← (if negb (node_data x =? 0) then mret (node_data x) else
          '(rel, _, _) ← rel_path x; '(_, n) ← ramfs_find_node ramfs rel; mret n);
  '(err, node) ←
    (if negb (node =? 0) then mret (EOK, node) else
     if negb (flag flags V_CREATE) then mret (ENOENT, 0) else
     '(rel, _, _) ← rel_path x;
     '(r, node) ← ramfs_node_add ramfs rel 0;
     if negb (r =? EOK) then mret (ENOTRECOVERABLE, 0) else
     when (flag flags V_DIR) (nd_store node set_dir) ;;
     mret (EOK, node));
  if negb (err =? EOK) then mret (err, vnode, file) else
  n ← nd_load node;
  vn_store vnode (set_node_data node) ;;
  if file =? 0 then mret (EFAULT, vnode, file) else
  file_store file (λ f, if bool_decide (type n = RAMFS_DIRECTORY) then mkKfile 0 0 (fflags f) (offset f) vnode
                        else mkKfile (data n) (rsize n) (fflags f) (offset f) vnode) ;;
  mret (EOK, vnode, file).

(** The bytes that [ramfs_read] settles on: [None] for [-EINVAL]. *)
Definition read_bytes (size bytes off : Z) : option Z :=
  let clamp bytes := if u64 (bytes + off) >? size then u64 (size - off) else bytes in
  if bytes >? size then Some (clamp size) else if off >=? size then None else Some (clamp bytes).
(** The result, the number of bytes and the buffer, which is cleared first. *)
Definition ramfs_read (vn bytes off : Z) : M state (Z * Z * list Z) :=
  if vn =? 0 then mret (- EFAULT, bytes, []) else
  let zero := replicate (Z.to_nat bytes) 0 in
  x ← vn_load vn;
  if node_data x =? 0 then mret (- EFAULT, bytes, zero) else
  n ← nd_load (node_data x);
  match read_bytes (rsize n) bytes off with
  | None => mret (- EINVAL, bytes, zero)
  | Some k => d ← block_read (data n) off k; mret (EOK, k, splice 0 d zero)
  end.

Section junk.
Context (junk : Z → Z).
(** [krealloc]: what the heap has recorded of the block comes along. The block is always
    a new one here; where [kheap.c] keeps the old one, its bytes are the same. *)
Definition krealloc (a size : Z) : M state Z := 
  b ← gets (λ s, if a =? 0 then Some [] else blocks (fs s) !! a);
  match b with
  | None => fault
  | Some b =>
      r ← kalloc;
      if r =? 0 then mret 0 else
      let kept := take (Nat.min (length b) 65535) b in
      free_block a ;;
      set_block r (kept ++ ((λ i, junk (r + Z.of_nat i)) <$> seq (length kept) (Z.to_nat size - length kept))) ;;
      mret r
  end.
Definition ramfs_write (vn : Z) (buf : list Z) (bytes off : Z) : M state (Z * Z) :=
  if vn =? 0 then mret (EFAULT, bytes) else
  x ← vn_load vn;
  let node := node_data x in
  if node =? 0 then mret (EFAULT, bytes) else
  n ← nd_load node;
  (if u64 (bytes + off) >? rsize n then
     let more := u64 (u64 (bytes + off) - rsize n) in
     new_data ← krealloc (data n) (u64 (rsize n + more));
     nd_store node (λ n, set_contents (u64 (rsize n + more)) new_data n)
   else mret tt) ;;
  n ← nd_load node;
  block_write (data n) off (take (Z.to_nat bytes) buf) ;;
  mret (EOK, bytes).
End junk.

Definition ramfs_close (vnode : Z) : M state Z :=
  if vnode =? 0 then mret EFAULT else
  x ← vn_load vnode;
  if node_data x =? 0 then mret EFAULT else
  vn_store vnode (set_node_data 0) ;;
  mret EOK.

Definition ramfs_ioctl (vnode request arg : Z) : M state Z := mret (if vnode =? 0 then EFAULT else ENOSYS).

(** The path of [name] in the directory at [p]: [p[strlen(p) - 1]] is looked at. *)
Definition child_path (p nm : string) : M state string :=
  a ← kalloc;
  if a =? 0 then fault else
  match str_drop (String.length p - 1) p with
  | Some (String c EmptyString) => mret (if Ascii.eqb c slash then p +:+ nm else p +:+ "/" +:+ nm)%string
  | _ => fault
  end.
Definition vtype_of (t : ramfs_ftype_t) : vnode_type_t :=
  match t with RAMFS_DIRECTORY => VNODE_DIR | RAMFS_SYMLINK => VNODE_LINK | RAMFS_FILE => VNODE_REGULAR end.
(** A vnode for node [n] called [nm] in [parent], with the operations of the
    parent. *)
Definition make_vnode (parent : vnode_t) (nm : string) (t : vnode_type_t) (n m : Z) : M state Z :=
  p ← str_of (path parent);
  cp ← child_path p nm;
  v ← vnode_create (root_vfs parent) cp t n;
  vn_store v (set_mode m) ;;
  (match ops parent with Some o => vn_store v (set_ops (Some o)) | None => fault end) ;;
  mret v.

(** The result and the vnode. *)
Definition ramfs_lookup (parent : Z) (nm : string) : M state (Z * Z) :=
  if parent =? 0 then mret (EFAULT, 0) else
  x ← vn_load parent;
  ramfs ← ramfs_of x;
  if ramfs =? 0 then mret (EFAULT, 0) else
  parent_node ← (if negb (node_data x =? 0) then mret (node_data x) else
                 '(rel, p, root) ← rel_path x;
                 if bool_decide (rel = "") || bool_decide (p = root) then f ← rf_load ramfs; mret (root_node f) else
                 '(_, n) ← ramfs_find_node ramfs rel; mret n);
  if parent_node =? 0 then mret (ENOENT, 0) else
  n ← nd_load parent_node;
  if negb (bool_decide (type n = RAMFS_DIRECTORY)) then mret (ENOTDIR, 0) else
  c ← find_child any_type (child n) nm;
  if c =? 0 then mret (ENOENT, 0) else
  y ← nd_load c;
  v ← make_vnode x nm (vtype_of (type y)) c (rmode y);
  mret (EOK, v).

Definition DT_DIR : Z := 4.
Definition DT_REG : Z := 8.
Definition DT_LNK : Z := 10.
Definition dtype_of (t : ramfs_ftype_t) : Z :=
  match t with RAMFS_DIRECTORY => DT_DIR | RAMFS_SYMLINK => DT_LNK | RAMFS_FILE => DT_REG end.
Definition readdir_round (max : Z) (it : Z * list dirent_t) : M state (Z * list dirent_t + list dirent_t) :=
  let '(c, es) := it in
  let idx := Z.of_nat (length es) in
  if (c =? 0) || negb (idx <? max) then mret (inr es) else
  y ← nd_load c;
  nm ← str_of (name y);
  mret (inl (sibling y, es ++ [mkDirent c (idx + 1) sizeof_dirent (dtype_of (type y)) (String.substring 0 255 nm)])).
(** The entries of a directory, [max] at most. *)
Definition ramfs_readdir (vnode max : Z) : M state (Z * list dirent_t) :=
  if vnode =? 0 then mret (EFAULT, []) else
  x ← vn_load vnode;
  if negb (bool_decide (vtype x = VNODE_DIR)) then mret (ENOTDIR, []) else
  ramfs ← ramfs_of x;
  if ramfs =? 0 then mret (EFAULT, []) else
  dir ← node_of ramfs x;
  if dir =? 0 then mret (ENOTDIR, []) else
  n ← nd_load dir;
  if negb (bool_decide (type n = RAMFS_DIRECTORY)) then mret (ENOTDIR, []) else
  fuel ← node_fuel;
  es ← loop fuel (readdir_round max) (child n, []);
  mret (EOK, es).

(** The target of a link, cut to [size - 1] bytes. *)
Definition ramfs_readlink (vnode size : Z) : M state (Z * string) :=
  if vnode =? 0 then mret (EFAULT, "") else
  x ← vn_load vnode;
  if negb (bool_decide (vtype x = VNODE_LINK)) then mret (EINVAL, "") else
  if node_data x =? 0 then mret (EINVAL, "") else
  n ← nd_load (node_data x);
  if negb (bool_decide (type n = RAMFS_SYMLINK)) then mret (EINVAL, "") else
  if data n =? 0 then mret (EINVAL, "") else
  b ← gets (λ s, blocks (fs s) !! data n);
  match b with
  | None => fault
  | Some b => mret (EOK, String.substring 0 (Nat.min (String.length (c_string b)) (Z.to_nat (u64 (size - 1)))) (c_string b))
  end.

(** What [ramfs_mkdir], [ramfs_rmdir], [ramfs_create], [ramfs_remove] and
    [ramfs_symlink] begin with: the directory node of [parent], or the error. *)
Definition dir_of (parent : Z) : M state (Z * Z) :=
  if parent =? 0 then mret (EFAULT, 0) else
  x ← vn_load parent;
  ramfs ← ramfs_of x;
  if ramfs =? 0 then mret (EFAULT, 0) else
  d ← node_of ramfs x;
  if d =? 0 then mret (ENOTDIR, 0) else
  n ← nd_load d;
  if negb (bool_decide (type n = RAMFS_DIRECTORY)) then mret (ENOTDIR, 0) else mret (EOK, d).
(** The node of a new entry [nm] of type [t], filled in by [init], at the end
    of directory [d]. *)
Definition add_entry (d : Z) (nm : string) (t : ramfs_ftype_t) (init : Z → M state unit) : M state Z :=
  n ← ramfs_create_node t;
  nm ← strdup nm;
  nd_store n (set_name nm) ;;
  init n ;;
  ramfs_append_child d n ;;
  mret n.
(** Whether the directory has no entry [nm]. *)
Definition is_new (d : Z) (nm : string) : M state bool :=
  x ← nd_load d; c ← find_child any_type (child x) nm; mret (c =? 0).

Definition ramfs_mkdir (parent : Z) (nm : string) (mode : Z) : M state Z :=
  '(err, d) ← dir_of parent;
  if negb (err =? EOK) then mret err else
  new ← is_new d nm;
  if negb new then mret EEXIST else
  add_entry d nm RAMFS_DIRECTORY (λ n, nd_store n (set_rmode (Z.lor S_IFDIR (Z.land mode 0x1ff)))) ;;
  mret EOK.

Definition ramfs_create (parent : Z) (nm : string) (mode : Z) : M state (Z * Z) :=
  '(err, d) ← dir_of parent;
  if negb (err =? EOK) then mret (err, 0) else
  new ← is_new d nm;
  if negb new then mret (EEXIST, 0) else
  n ← add_entry d nm RAMFS_FILE (λ n, nd_store n (λ x, set_rmode (Z.lor S_IFREG mode) (set_contents 0 0 x)));
  x ← vn_load parent;
  v ← make_vnode x nm VNODE_REGULAR n (Z.lor S_IFREG mode);
  mret (EOK, v).

Definition ramfs_symlink (parent : Z) (nm target : string) : M state Z :=
  '(err, d) ← dir_of parent;
  if negb (err =? EOK) then mret err else
  new ← is_new d nm;
  if negb new then mret EEXIST else
  add_entry d nm RAMFS_SYMLINK (λ n,
    a ← kalloc;
    (if a =? 0 then mret tt else set_block a (bytes_of target ++ [0])) ;;
    nd_store n (set_contents (u64 (strlen target + 1)) a)) ;;
  mret EOK.

(** The search of an entry with the link that leads to it: [None] is the head
    of the children. *)
Definition entry_round (want : string) (it : option Z * Z) : M state (option Z * Z + option Z * Z) :=
  let '(prev, c) := it in
  if c =? 0 then mret (inr (prev, 0)) else
  x ← nd_load c;
  nm ← str_of (name x);
  mret (if bool_decide (nm = want) then inr (prev, c) else inl (Some c, sibling x)).
(** The entry [nm] of the directory is taken out and freed if [check] finds no
    objection. *)
Definition remove_entry (parent : Z) (nm : string) (check : ramfs_node_t → Z) (free_data : bool) : M state Z :=
  '(err, d) ← dir_of parent;
  if negb (err =? EOK) then mret err else
  x ← nd_load d;
  fuel ← node_fuel;
  '(prev, c) ← loop fuel (entry_round nm) (None, child x);
  if c =? 0 then mret ENOENT else
  y ← nd_load c;
  if negb (check y =? EOK) then mret (check y) else
  match prev with None => nd_store d (set_child (sibling y)) | Some p => nd_store p (set_sibling (sibling y)) end ;;
  when (free_data && negb (data y =? 0)) (free_block (data y)) ;;
  free_node c ;;
  mret EOK.
Definition ramfs_rmdir (parent : Z) (nm : string) : M state Z :=
  remove_entry parent nm (λ y, if negb (bool_decide (type y = RAMFS_DIRECTORY)) then ENOTDIR
                               else if negb (child y =? 0) then ENOTEMPTY else EOK) false.
Definition ramfs_remove (parent : Z) (nm : string) : M state Z :=
  remove_entry parent nm (λ y, if bool_decide (type y = RAMFS_DIRECTORY) then EISDIR else EOK) true.

Definition ramfs_getattr (vnode : Z) : M state (Z * stat_t) :=
  let none := mkStat 0 0 0 0 0 0 0 0 0 0 in
  if vnode =? 0 then mret (EFAULT, none) else
  x ← vn_load vnode;
  ramfs ← (if negb (node_data x =? 0) then mret 0 else ramfs_of x);
  node ← node_of ramfs x;
  if node =? 0 then mret (EFAULT, none) else
  n ← nd_load node;
  mret (EOK, mkStat 1 node 1 (rmode n) (uid x) (gid x) 0 (rsize n) 4096 (u64 (rsize n + 4095) / 4096)).
Definition ramfs_setattr (vnode : Z) (st : stat_t) : M state Z :=
  if vnode =? 0 then mret EFAULT else
  x ← vn_load vnode;
  if node_data x =? 0 then mret EFAULT else
  nd_store (node_data x) (set_rmode (st_mode st)) ;;
  vn_store vnode (set_ids (st_uid st) (st_gid st)) ;;
  mret EOK.

(** ** The file system *)

(** [ramfs_vnops], [ramfs_vfsops] and [ramfs_fstype_mount] as numbers; 0 is a
    cleared table and the null pointer. *)
Definition RAMFS_TABLE : Z := 1.
Definition ramfs_vfs_unmount (vfs : Z) : M state Z :=
  if vfs =? 0 then mret EFAULT else
  x ← fs_load vfs;
  (if vfs_data x =? 0 then mret tt else rf_load (vfs_data x) ;; mret tt) ;;
  mret EOK.
Definition ramfs_vfs_root (me vfs : Z) : M state (Z * Z) :=
  if vfs =? 0 then mret (EFAULT, 0) else
  x ← fs_load vfs;
  vnode_ref me (root_vnode x) ;;
  mret (EOK, root_vnode x).
(** The block size, the sizes in blocks and in nodes. *)
Definition ramfs_vfs_statfs (vfs : Z) : M state (Z * option (Z * Z * Z * Z * Z)) :=
  if vfs =? 0 then mret (EFAULT, None) else
  x ← fs_load vfs;
  if vfs_data x =? 0 then mret (EFAULT, None) else
  f ← rf_load (vfs_data x);
  mret (EOK, Some (1, ramfs_size f, 0, 0, 0)).
(** A root directory for a file system that has none. *)
Definition new_root (ramfs : Z) : M state unit :=
  n ← ramfs_create_node RAMFS_DIRECTORY;
  rf_store ramfs (λ f, mkRamfs n (ramfs_size f)) ;;
  nm ← strdup "/";
  nd_store n (set_name nm).
(** [ramfs_fstype] is the address of the driver. *)
Definition ramfs_fstype_mount (ramfs_fstype device : Z) (mount_point : string) : M state (Z * Z) :=
  ramfs ← (if negb (device =? 0) then mret device else
           r ← ramfs_create_fs; new_root r ;; mret r);
  f ← rf_load ramfs;
  when (root_node f =? 0) (new_root ramfs) ;;
  vfs ← vfs_create_fs ramfs_fstype ramfs;
  if vfs =? 0 then mret (ENOMEM, 0) else
  fs_store vfs (set_vfs_ops (Some RAMFS_TABLE)) ;;
  f ← rf_load ramfs;
  root ← vnode_create vfs mount_point VNODE_DIR (root_node f);
  fs_store vfs (set_root_vnode root) ;;
  if root =? 0 then modify (λ s, put_vfss (delete vfs (vfss s)) s) ;; mret (ENOMEM, 0) else
  p ← strdup mount_point;
  vn_store root (set_path p) ;;
  vn_store root (set_ops (Some RAMFS_TABLE)) ;;
  n ← nd_load (root_node f);
  vn_store root (set_mode (rmode n)) ;;
  mret (EOK, vfs).

(** The operations that the tables hold. *)
Definition in_table {A} (f : A) (t : Z) : option A := if t =? RAMFS_TABLE then Some f else None.
#[global] Instance ramfs_ops (junk : Z → Z) (ramfs_fstype : Z) : VnodeOps ramfs_data := {|
  vop_open := in_table ramfs_open; vop_close := in_table ramfs_close; vop_read := in_table ramfs_read;
  vop_write := in_table (ramfs_write junk); vop_ioctl := in_table ramfs_ioctl; vop_lookup := in_table ramfs_lookup;
  vop_readdir := in_table ramfs_readdir; vop_readlink := in_table ramfs_readlink; vop_mkdir := in_table ramfs_mkdir;
  vop_rmdir := in_table ramfs_rmdir; vop_create := in_table ramfs_create; vop_remove := in_table ramfs_remove;
  vop_symlink := in_table ramfs_symlink; vop_getattr := in_table ramfs_getattr; vop_setattr := in_table ramfs_setattr;
  fsop_unmount := in_table ramfs_vfs_unmount; drv_mount := λ _, ramfs_fstype_mount ramfs_fstype;
|}.

Section init.
Context (me : Z) (junk : Z → Z) (ramfs_fstype : Z).
Let fs_ops : VnodeOps ramfs_data := ramfs_ops junk ramfs_fstype.
Definition ramfs_init : M state Z := vfs_register_driver me ramfs_fstype.
Definition ramfs_vfs_init (ramfs : Z) (path : string) : M state Z :=
  vfs ← vfs_mount (VnodeOps0 := fs_ops) me ramfs "ramfs" path;
  mret (if vfs =? 0 then ENOTRECOVERABLE else EOK).
End init.
