(* ===== verification/VfsDrivers.v ===== *)
(** The registry of file-system drivers: a list of drivers with distinct names. *)
From S2P Require Import Prelude Errno Sync Vfs.

Section drivers.
Context {D : Type} `{!VnodeOps D} (me : Z).
Implicit Types (s : vfs_state D) (ds : gmap Z vfs_fs_driver_t).

Fixpoint registered ds (head : Z) (l : list Z) : Prop :=
  match l with
  | [] => head = 0
  | a :: l => head = a ∧ a ≠ 0 ∧ ∃ x, ds !! a = Some x ∧ registered ds (drv_next x) l
  end.
Definition name_of ds (a : Z) : option string := drv_name <$> ds !! a.
Definition id_of ds (a : Z) : option Z := drv_id <$> ds !! a.

Lemma registered_frame ds ds' f l : registered ds f l → (∀ a, a ∈ l → ds' !! a = ds !! a) → registered ds' f l.
Proof.
  revert f. induction l as [|a l IH]; intros f H Hs; [done|]. destruct H as (-> & H0 & x & Hx & H).
  split_and!; [done|done|]. exists x. split; [rewrite Hs; set_solver|]. apply IH; set_solver.
Qed.
Lemma registered_elem ds f l a : registered ds f l → a ∈ l → a ≠ 0 ∧ ∃ x, ds !! a = Some x.
Proof.
  revert f. induction l as [|b l IH]; intros f H Ha; [set_solver|]. destruct H as (-> & H0 & x & Hx & H).
  apply elem_of_cons in Ha as [->|Ha]; [by eauto|by eapply IH].
Qed.
Lemma registered_det ds f l l' : registered ds f l → registered ds f l' → l = l'.
Proof.
  revert f l'. induction l as [|a l IH]; intros f [|a' l'] H H'; simpl in *; [done|naive_solver..|].
  destruct H as (-> & _ & x & Hx & H), H' as (-> & _ & x' & Hx' & H'). simplify_eq. f_equal. by eapply IH.
Qed.
Lemma registered_app ds f l1 l2 : registered ds f (l1 ++ l2) → ∃ g, registered ds g l2.
Proof. revert f. induction l1 as [|a l1 IH]; intros f; simpl; [eauto|]. intros (_ & _ & x & _ & H). by eapply IH. Qed.
Lemma registered_nodup ds f l : registered ds f l → NoDup l.
Proof.
  revert f. induction l as [|a l IH]; intros f H; [constructor|]. constructor.
  - intros (l1 & l2 & ->)%list_elem_of_split. destruct (registered_app ds f (a :: l1) (a :: l2) H) as [g H'].
    assert (f = a) as -> by (by destruct H). assert (g = a) as -> by (by destruct H').
    pose proof (registered_det _ _ _ _ H H') as Heq. apply (f_equal length) in Heq. simpl in Heq. rewrite length_app in Heq. simpl in Heq. lia.
  - destruct H as (_ & _ & x & _ & H). by eapply IH.
Qed.
Lemma registered_length ds f l : registered ds f l → (length l ≤ size ds)%nat.
Proof.
  intros H. rewrite <-size_dom, <-(size_list_to_set (C:=gset Z) _ (registered_nodup _ _ _ H)). apply subseteq_size.
  intros a Ha. rewrite elem_of_list_to_set in Ha. destruct (registered_elem _ _ _ _ H Ha) as (_ & x & ?). apply elem_of_dom. by eexists.
Qed.

Lemma wp_drv_load s a x (Q : vfs_fs_driver_t → vfs_state D → Prop) : drivers s !! a = Some x → Q x s → wp (drv_load a) Q s.
Proof. intros H HQ. unfold wp, drv_load. by rewrite H. Qed.
Lemma wp_drv_store s a x f (Q : unit → vfs_state D → Prop) :
  drivers s !! a = Some x → Q tt (put_drivers (<[a := f x]> (drivers s)) s) → wp (drv_store a f) Q s.
Proof. intros H HQ. unfold wp, drv_store. by rewrite H. Qed.

Lemma wp_find_driver s l p (Q : Z * Z → vfs_state D → Prop) :
  registered (drivers s) (vfs_driver_list_head s) l →
  ((∀ a x, a ∈ l → drivers s !! a = Some x → p x = false) → ∀ prev, Q (prev, 0) s) →
  (∀ l1 c l2 x, l = l1 ++ c :: l2 → (∀ a y, a ∈ l1 → drivers s !! a = Some y → p y = false) → c ≠ 0 → drivers s !! c = Some x →
     p x = true → Q (default 0 (last l1), c) s) →
  wp (find_driver p) Q s.
Proof.
  intros Hr H0 H1. unfold find_driver. apply wp_bind, wp_gets. apply wp_bind, wp_gets. pose proof (registered_length _ _ _ Hr) as Hlen.
  apply (wp_loop (λ n '(prev, f) s', s' = s ∧ ∃ l1 l2, l = l1 ++ l2 ∧ prev = default 0 (last l1) ∧ registered (drivers s) f l2 ∧ n = length l2 ∧
    ∀ a y, a ∈ l1 → drivers s !! a = Some y → p y = false) _ _ (length l)); [lia| |].
  { split; [done|]. exists [], l. split_and!; try done. set_solver. }
  intros n [prev f] s' (-> & l1 & l2 & Hl & -> & Hr2 & -> & Hp). unfold driver_round. destruct l2 as [|a l2]; simpl in Hr2.
  - subst f. apply wp_ret. apply H0. intros b x Hb. apply Hp. by rewrite Hl, app_nil_r in Hb.
  - destruct Hr2 as (-> & Ha0 & x & Hx & Hr2). rewrite (proj2 (Z.eqb_neq _ _) Ha0). apply wp_bind. eapply wp_drv_load; [done|].
    destruct (p x) eqn:Hpx; apply wp_ret; [by eapply H1|]. exists (length l2). split; [simpl; lia|]. split; [done|].
    exists (l1 ++ [a]), l2. rewrite <-app_assoc, last_snoc. split_and!; try done. intros b y [Hb|Hb]%elem_of_app; [by apply Hp|].
    apply list_elem_of_singleton in Hb as ->. by intros [= <-]%(eq_trans (eq_sym Hx)).
Qed.

(** The registry of a state whose lock is free. *)
Definition registry s (l : list Z) : Prop := registered (drivers s) (vfs_driver_list_head s) l ∧ vfs_driver_list_lock s = unlocked.

Lemma wp_locked_drivers {A} s (m : M (vfs_state D) A) (f : A → M (vfs_state D) Z) Q :
  vfs_driver_list_lock s = unlocked → wp (m ≫= f) Q (put_driver_lock (held me) s) → wp (lock_drivers me ;; a ← m; f a) Q s.
Proof. intros Hl H. apply wp_bind, wp_zoom. rewrite Hl. by apply wp_lock_acquire. Qed.
Lemma wp_unlock_drivers s (Q : unit → vfs_state D → Prop) :
  vfs_driver_list_lock s = held me → Q tt (put_driver_lock unlocked s) → wp (unlock_drivers me) Q s.
Proof. intros Hl HQ. apply wp_zoom. rewrite Hl. by apply wp_lock_release. Qed.
Lemma relock s : vfs_driver_list_lock s = unlocked → put_driver_lock unlocked (put_driver_lock (held me) s) = s.
Proof. intros H. destruct s. simpl in *. by subst. Qed.

(** Registering a driver refuses a name that is there, and otherwise puts the
    driver first, with the next number. *)
Theorem vfs_register_driver_spec s l d x :
  registry s l → d ≠ 0 → drivers s !! d = Some x → drv_name x ≠ "" → drv_mount_fn x ≠ 0 → d ∉ l →
  wp (vfs_register_driver me d) (λ ret s',
    if decide (Some (drv_name x) ∈ name_of (drivers s) <$> l) then ret = - EEXIST ∧ s' = s
    else ret = next_vfs_driver_id s ∧ registry s' (d :: l) ∧ next_vfs_driver_id s' = u16 (next_vfs_driver_id s + 1) ∧
         name_of (drivers s') d = Some (drv_name x) ∧ id_of (drivers s') d = Some ret ∧
         ∀ a, a ≠ d → drivers s' !! a = drivers s !! a) s.
Proof.
  intros [Hr Hl] Hd0 Hx Hn Hm Hdl. unfold vfs_register_driver. rewrite (proj2 (Z.eqb_neq _ _) Hd0). apply wp_bind. eapply wp_drv_load; [done|].
  rewrite bool_decide_eq_false_2, (proj2 (Z.eqb_neq _ _) Hm) by done. simpl. apply wp_locked_drivers; [done|].
  apply wp_bind. eapply (wp_find_driver _ l); [done| |].
  - intros Hno prev. assert (Some (drv_name x) ∉ name_of (drivers s) <$> l) as Hnone.
    { intros (a & Ha & Hal)%list_elem_of_fmap. destruct (registered_elem _ _ _ _ Hr Hal) as (_ & y & Hy). unfold name_of in Ha.
        rewrite Hy in Ha. injection Ha as Ha. specialize (Hno a y Hal Hy). by rewrite bool_decide_eq_false, Ha in Hno. }
    simpl. apply wp_bind, wp_gets. apply wp_bind, wp_modify. apply wp_bind, wp_gets. apply wp_bind. eapply wp_drv_store; [done|].
    apply wp_bind, wp_modify. apply wp_bind, wp_unlock_drivers; [done|]. apply wp_ret. rewrite decide_False by done. simpl.
    split_and!; [done| |done|..].
    + split; [|done]. split_and!; [done|done|]. eexists. split; [simpl; by rewrite lookup_insert_eq|]. simpl.
      eapply registered_frame; [done|]. intros a Ha. rewrite lookup_insert_ne; [done|]. by intros ->.
    + unfold name_of. by rewrite lookup_insert_eq.
    + unfold id_of. by rewrite lookup_insert_eq.
    + intros a Ha. by rewrite lookup_insert_ne.
  - intros l1 c l2 y -> _ Hc0 Hy Hp. rewrite (proj2 (Z.eqb_neq _ _) Hc0). simpl. apply wp_bind, wp_unlock_drivers; [done|]. apply wp_ret.
    rewrite decide_True; [by rewrite relock|]. apply list_elem_of_fmap. exists c. apply bool_decide_eq_true in Hp. split; [|set_solver].
    unfold name_of. simpl in Hy. rewrite Hy. simpl. by rewrite Hp.
Qed.

(** A driver is found by its name. *)
Theorem vfs_find_driver_by_name_spec s l nm :
  registry s l → wp (vfs_find_driver_by_name me nm) (λ ret s', s' = s ∧
    if decide (Some nm ∈ name_of (drivers s) <$> l) then ret ∈ l ∧ name_of (drivers s) ret = Some nm else ret = 0) s.
Proof.
  intros [Hr Hl]. unfold vfs_find_driver_by_name. apply wp_locked_drivers; [done|]. apply wp_bind. eapply (wp_find_driver _ l); [done| |].
  - intros Hno prev. apply wp_bind, wp_unlock_drivers; [done|]. apply wp_ret. split; [by apply relock|]. rewrite decide_False; [done|].
    intros (a & Ha & Hal)%list_elem_of_fmap. destruct (registered_elem _ _ _ _ Hr Hal) as (_ & y & Hy). unfold name_of in Ha.
    rewrite Hy in Ha. injection Ha as Ha. specialize (Hno a y Hal Hy). by rewrite bool_decide_eq_false, Ha in Hno.
  - intros l1 c l2 y -> _ Hc0 Hy Hp. apply wp_bind, wp_unlock_drivers; [done|]. apply wp_ret. split; [by apply relock|].
    apply bool_decide_eq_true in Hp. assert (name_of (drivers s) c = Some nm) as Hnm by (unfold name_of; simpl in Hy; rewrite Hy; simpl; by rewrite Hp).
    rewrite decide_True; [set_solver|]. apply list_elem_of_fmap. exists c. split; [done|set_solver].
Qed.
End drivers.
