(* ===== verification/VfsSpec.v ===== *)
(** What the parts of the virtual file system do: strings and [strtok], the
    references of vnodes, the list of mounted file systems. *)
From Stdlib Require Import Ascii.
From S2P Require Import Prelude Errno Sync Vfs Kfile Ramfs.

(** * Paths *)

Lemma cut_slash_length s t r : cut_slash s = (t, Some r) → (String.length r < String.length s)%nat.
Proof.
  revert t r. induction s as [|c s IH]; intros t r; simpl; [done|].
  destruct (Ascii.eqb c slash); [intros [= <- <-]; lia|].
  destruct (cut_slash s) as [t' r'] eqn:Hc. intros [= <- ->]. specialize (IH _ _ eq_refl). lia.
Qed.
Lemma skip_slashes_length s : (String.length (skip_slashes s) ≤ String.length s)%nat.
Proof. induction s as [|c s IH]; simpl; [done|]. destruct (Ascii.eqb c slash); simpl; lia. Qed.
Lemma skip_slashes_idem s : skip_slashes (skip_slashes s) = skip_slashes s.
Proof. induction s as [|c s IH]; [done|]. simpl. destruct (Ascii.eqb c slash) eqn:Hc; [done|]. simpl. by rewrite Hc. Qed.

(** More fuel than the length makes no difference. *)
Lemma components_fuel n m s : (String.length s < n)%nat → (String.length s < m)%nat → components_from n s = components_from m s.
Proof.
  revert m s. induction n as [|n IH]; intros [|m] s Hn Hm; [lia..|]. cbn [components_from].
  pose proof (skip_slashes_length s) as Hl. destruct (skip_slashes s) as [|c s'] eqn:Hs; [done|].
  destruct (cut_slash (String c s')) as [t [r|]] eqn:Hc; [|done]. f_equal.
  pose proof (cut_slash_length _ _ _ Hc). apply IH; lia.
Qed.
(** The components of a path, one at a time. *)
Lemma components_eq s :
  components s = match skip_slashes s with
                 | EmptyString => []
                 | s' => let '(t, rest) := cut_slash s' in t :: match rest with Some r => components r | None => [] end
                 end.
Proof.
  unfold components at 1. cbn [components_from]. pose proof (skip_slashes_length s) as Hl. destruct (skip_slashes s) as [|c s'] eqn:Hs; [done|].
  destruct (cut_slash (String c s')) as [t [r|]] eqn:Hc; [|done]. f_equal.
  pose proof (cut_slash_length _ _ _ Hc). unfold components. apply components_fuel; lia.
Qed.
Lemma components_skip s : components (skip_slashes s) = components s.
Proof. by rewrite !components_eq, skip_slashes_idem. Qed.
Lemma components_length s : (length (components s) ≤ String.length s)%nat.
Proof.
  remember (String.length s) as n eqn:Hn. revert s Hn. induction n as [n IH] using lt_wf_ind. intros s ->.
  rewrite components_eq. pose proof (skip_slashes_length s) as Hl.
  destruct (skip_slashes s) as [|c s'] eqn:Hs; [simpl; lia|].
  destruct (cut_slash (String c s')) as [t [r|]] eqn:Hc; simpl in *; [|lia].
  assert (String.length r < String.length s)%nat.
  { pose proof (cut_slash_length (String c s') t r Hc) as H. simpl in H. lia. }
  specialize (IH (String.length r) ltac:(lia) r eq_refl). lia.
Qed.

(** ** Prefixes *)

Lemma str_drop_app p r : str_drop (String.length p) (p +:+ r)%string = Some r.
Proof. induction p as [|c p IH]; [by destruct r|done]. Qed.
Lemma prefix_app p q : String.prefix p q = true ↔ ∃ r, q = (p +:+ r)%string.
Proof.
  revert q. induction p as [|c p IH]; intros q; simpl.
  - split; [|by destruct q]. intros _. by exists q.
  - destruct q as [|c' q]; [split; [done|by intros [r ?]]|].
    change (String.prefix (String c p) (String c' q)) with (if ascii_dec c c' then String.prefix p q else false).
    destruct (ascii_dec c c') as [->|Hne].
    + rewrite IH. split; intros [r Hr]; exists r; [by rewrite Hr|by injection Hr].
    + split; [done|]. intros [r Hr]. by injection Hr.
Qed.
Lemma str_length_app p r : String.length (p +:+ r)%string = (String.length p + String.length r)%nat.
Proof. induction p as [|c p IH]; simpl; [done|]. by rewrite IH. Qed.
Lemma app_empty (p : string) : (p +:+ "")%string = p.
Proof. induction p as [|c p IH]; [done|]. change (String c (p +:+ "") = String c p)%string. by rewrite IH. Qed.
Lemma starts_slash_eq r : starts_slash r = true ↔ ∃ t, r = String slash t.
Proof.
  destruct r as [|c t]; simpl; [split; [done|by intros [? ?]]|]. rewrite Ascii.eqb_eq. split; [intros ->; eauto|by intros [? [= -> _]]].
Qed.

(** Path [q] is at [p] or below it. *)
Definition under (q p : string) : Prop :=
  if decide (p = "/") then ∃ r, q = String slash r else q = p ∨ ∃ r, q = (p +:+ String slash r)%string.
Lemma mount_matches_under q p : mount_matches q p = true ↔ under q p.
Proof.
  unfold mount_matches, under, strlen. case_decide as Hp.
  - subst p. rewrite bool_decide_eq_true_2 by done. destruct (Z.ltb_spec (Z.of_nat (String.length q)) (Z.of_nat (String.length "/"))).
    + split; [done|]. intros [r ->]. simpl in *. lia.
    + apply starts_slash_eq.
  - rewrite bool_decide_eq_false_2 by done. destruct (Z.ltb_spec (Z.of_nat (String.length q)) (Z.of_nat (String.length p))).
    + split; [done|]. intros [->|[r ->]]; [lia|]. rewrite str_length_app in *. lia.
    + rewrite andb_true_iff, prefix_app. split.
      * intros [[r ->] Hr]. rewrite str_drop_app in Hr. destruct r as [|c r]; [left; apply app_empty|].
        apply starts_slash_eq in Hr as [t [= -> ->]]. eauto.
      * intros [->|[r ->]]; (split; [|]).
        -- exists "". by rewrite app_empty.
        -- rewrite <-(app_empty p) at 2. by rewrite str_drop_app.
        -- eauto.
        -- by rewrite str_drop_app.
Qed.

(** * The static pointer of [strtok] *)

(** The components still to come. *)
Definition tok_rest (next : option (Z * string)) : list string :=
  match next with Some (_, t) => components t | None => [] end.
Definition tok_in (buf : Z) (next : option (Z * string)) : Prop := match next with Some (b, _) => b = buf | None => True end.

Section state.
Context {D : Type} `{!VnodeOps D} (me : Z).
Implicit Types s : vfs_state D.

Lemma wp_strtok s buf text (Q : option string → vfs_state D → Prop) :
  buf ∈ bufs s →
  (∀ next, tok_in buf next → tok_rest next = tail (components text) →
     Q (head (components text)) (put_tok_next next s)) →
  wp (strtok (Some (buf, text))) Q s.
Proof.
  intros Hb HQ. unfold strtok. apply wp_bind, wp_modify. apply wp_bind, wp_gets. simpl. apply wp_bind, wp_gets. simpl.
  rewrite bool_decide_eq_true_2 by done. simpl. rewrite components_eq in HQ.
  destruct (skip_slashes text) as [|c t] eqn:Ht.
  - apply wp_bind, wp_modify, wp_ret. by apply (HQ (Some (buf, ""))).
  - destruct (cut_slash (String c t)) as [tok rest]. apply wp_bind, wp_modify, wp_ret.
    apply (HQ (pair buf <$> rest)); by destruct rest.
Qed.
Lemma wp_strtok_next s buf (Q : option string → vfs_state D → Prop) :
  tok_in buf (tok_next s) → buf ∈ bufs s →
  (∀ next, tok_in buf next → tok_rest next = tail (tok_rest (tok_next s)) →
     Q (head (tok_rest (tok_next s))) (put_tok_next next s)) →
  wp (strtok None) Q s.
Proof.
  intros Hin Hb HQ. unfold strtok. apply wp_bind, wp_ret. apply wp_bind, wp_gets.
  destruct (tok_next s) as [[b text]|] eqn:Hn; simpl in *; [subst b|].
  - assert (wp (strtok (Some (buf, text))) Q s) as H by by apply wp_strtok.
    unfold strtok in H. apply wp_bind_inv in H. unfold wp at 1 in H. simpl in H. apply wp_bind_inv in H.
    unfold wp at 1 in H. simpl in H. destruct s; simpl in *; subst. exact H.
  - apply wp_ret. replace s with (put_tok_next None s); [by apply HQ|]. destruct s; simpl in *. by subst.
Qed.

(** * References *)

Lemma wp_vn_load s a x (Q : vnode_t → vfs_state D → Prop) : vnodes s !! a = Some x → Q x s → wp (vn_load a) Q s.
Proof. intros H HQ. unfold wp, vn_load. by rewrite H. Qed.
Lemma wp_vn_store s a x f (Q : unit → vfs_state D → Prop) :
  vnodes s !! a = Some x → Q tt (put_vnodes (<[a := f x]> (vnodes s)) s) → wp (vn_store a f) Q s.
Proof. intros H HQ. unfold wp, vn_store. by rewrite H. Qed.
Lemma wp_fs_load s a x (Q : vfs_t → vfs_state D → Prop) : vfss s !! a = Some x → Q x s → wp (fs_load a) Q s.
Proof. intros H HQ. unfold wp, fs_load. by rewrite H. Qed.

(** A vnode that nobody holds the lock of, and its count of references. *)
Definition idle (x : vnode_t) : Prop := vnode_lock x = unlocked ∧ 0 < refcount x < 2 ^ 32 - 1.

Lemma wp_lock_vnode s a x (Q : unit → vfs_state D → Prop) :
  vnodes s !! a = Some x → vnode_lock x = unlocked →
  Q tt (put_vnodes (<[a := set_vnode_lock (held me) x]> (vnodes s)) s) → wp (lock_vnode me a) Q s.
Proof.
  intros Ha Hl HQ. unfold lock_vnode. apply wp_bind. eapply wp_vn_load; [done|]. apply wp_bind, wp_zoom. rewrite Hl.
  apply wp_bind, wp_lock_acquire, wp_gets. by eapply wp_vn_store.
Qed.
Lemma wp_unlock_vnode s a x (Q : unit → vfs_state D → Prop) :
  vnodes s !! a = Some x → vnode_lock x = held me →
  Q tt (put_vnodes (<[a := set_vnode_lock unlocked x]> (vnodes s)) s) → wp (unlock_vnode me a) Q s.
Proof.
  intros Ha Hl HQ. unfold unlock_vnode. apply wp_bind. eapply wp_vn_load; [done|]. apply wp_bind, wp_zoom. rewrite Hl.
  apply wp_bind, wp_lock_release, wp_gets. by eapply wp_vn_store.
Qed.

Lemma wp_vnode_ref s a x (Q : unit → vfs_state D → Prop) :
  a ≠ 0 → vnodes s !! a = Some x → idle x →
  Q tt (put_vnodes (<[a := set_refcount (refcount x + 1) x]> (vnodes s)) s) → wp (vnode_ref me a) Q s.
Proof.
  intros H0 Ha [Hl Hr] HQ. unfold vnode_ref. rewrite (proj2 (Z.eqb_neq _ _) H0).
  apply wp_bind. eapply wp_lock_vnode; [done|done|]. apply wp_bind. eapply wp_vn_store; [apply lookup_insert_eq|].
  eapply wp_unlock_vnode; [apply lookup_insert_eq|done|]. simpl. rewrite !insert_insert_eq, u32_id by lia.
  unfold set_refcount, set_vnode_lock in *. simpl. by rewrite Hl in HQ.
Qed.
Lemma wp_vnode_unref s a x (Q : unit → vfs_state D → Prop) :
  a ≠ 0 → vnodes s !! a = Some x → vnode_lock x = unlocked → 0 < refcount x < 2 ^ 32 →
  Q tt (put_vnodes (if refcount x =? 1 then delete a (vnodes s)
                    else <[a := set_refcount (refcount x - 1) x]> (vnodes s)) s) → wp (vnode_unref me a) Q s.
Proof.
  intros H0 Ha Hl Hr HQ. unfold vnode_unref. rewrite (proj2 (Z.eqb_neq _ _) H0).
  apply wp_bind. eapply wp_lock_vnode; [done|done|]. apply wp_bind. eapply wp_vn_store; [apply lookup_insert_eq|].
  apply wp_bind. eapply wp_vn_load; [apply lookup_insert_eq|]. simpl. rewrite u32_id by lia.
  replace (refcount x - 1 =? 0) with (refcount x =? 1) by (destruct (Z.eqb_spec (refcount x) 1), (Z.eqb_spec (refcount x - 1) 0); lia).
  destruct (refcount x =? 1).
  - apply wp_bind. eapply wp_unlock_vnode; [apply lookup_insert_eq|done|]. apply wp_modify. simpl.
    by rewrite !insert_insert_eq, delete_insert_eq.
  - eapply wp_unlock_vnode; [apply lookup_insert_eq|done|]. simpl. rewrite !insert_insert_eq.
    unfold set_refcount, set_vnode_lock in *. simpl. by rewrite Hl in HQ.
Qed.

(** * Mounted file systems *)

(** The list of mounted file systems from [head] on, each with the path of its
    root. *)
Fixpoint mounted s (head : Z) (l : list (Z * string)) : Prop :=
  match l with
  | [] => head = 0
  | (m, p) :: l => head = m ∧ m ≠ 0 ∧ ∃ x r, vfss s !! m = Some x ∧ root_vnode x ≠ 0 ∧ vnodes s !! root_vnode x = Some r ∧
                   path r = Some p ∧ mounted s (vfs_next x) l
  end.

Lemma mounted_elem s head l m p : mounted s head l → (m, p) ∈ l →
  m ≠ 0 ∧ ∃ x r, vfss s !! m = Some x ∧ root_vnode x ≠ 0 ∧ vnodes s !! root_vnode x = Some r ∧ path r = Some p.
Proof.
  revert head. induction l as [|[m' p'] l IH]; intros head Hm Hin; [set_solver|].
  destruct Hm as (-> & H0 & x & r & ? & ? & ? & ? & Hl). apply elem_of_cons in Hin as [[= -> ->]|Hin]; [by eauto 10|by eapply IH].
Qed.
Lemma mounted_det s head l l' : mounted s head l → mounted s head l' → l = l'.
Proof.
  revert head l'. induction l as [|[m p] l IH]; intros head [|[m' p'] l'] H H'; simpl in *; [done|naive_solver..|].
  destruct H as (-> & _ & x & r & Hx & _ & Hr & Hp & Hl), H' as (-> & _ & x' & r' & Hx' & _ & Hr' & Hp' & Hl').
  simplify_eq. f_equal. by eapply IH.
Qed.
Lemma mounted_app s head l1 l2 : mounted s head (l1 ++ l2) → ∃ h, mounted s h l2.
Proof.
  revert head. induction l1 as [|[m p] l1 IH]; intros head; simpl; [eauto|].
  intros (_ & _ & x & r & _ & _ & _ & _ & H). by eapply IH.
Qed.
Lemma mounted_head s h m p l : mounted s h ((m, p) :: l) → h = m.
Proof. by intros [-> _]. Qed.
Lemma mounted_nodup s head l : mounted s head l → NoDup l.*1.
Proof.
  revert head. induction l as [|[m p] l IH]; intros head H; simpl; [constructor|]. constructor.
  - intros ([m' q] & Hm & Hin)%list_elem_of_fmap. simpl in Hm. subst m'. apply list_elem_of_split in Hin as (l1 & l2 & ->).
    destruct (mounted_app s head ((m, p) :: l1) ((m, q) :: l2) H) as [h H']. pose proof (mounted_head _ _ _ _ _ H') as ->.
    pose proof (mounted_head _ _ _ _ _ H) as ->. pose proof (mounted_det _ _ _ _ H H') as Heq.
    apply (f_equal length) in Heq. simpl in Heq. rewrite length_app in Heq. simpl in Heq. lia.
  - destruct H as (_ & _ & x & r & _ & _ & _ & _ & H). by eapply IH.
Qed.
Lemma mounted_length s head l : mounted s head l → (length l ≤ size (vfss s))%nat.
Proof.
  intros H. rewrite <-size_dom, <-(length_fmap fst), <-(size_list_to_set (C:=gset Z) _ (mounted_nodup _ _ _ H)).
  apply subseteq_size. intros a Ha. rewrite elem_of_list_to_set in Ha. apply list_elem_of_fmap in Ha as ([m p] & -> & Hp).
  destruct (mounted_elem _ _ _ _ _ H Hp) as (_ & x & _ & ? & _). apply elem_of_dom. by eexists.
Qed.

(** The mount point that is the longest so far. *)
Definition best (q : string) (l : list (Z * string)) (b n : Z) : Prop :=
  (b = 0 ∧ n = 0 ∧ ∀ m p, (m, p) ∈ l → mount_matches q p = true → p = "") ∨
  (∃ p, (b, p) ∈ l ∧ n = strlen p ∧ 0 < n ∧ mount_matches q p = true ∧
     ∀ m p', (m, p') ∈ l → mount_matches q p' = true → strlen p' ≤ n).

Lemma strlen_zero p : strlen p = 0 → p = "".
Proof. unfold strlen. destruct p; simpl; [done|lia]. Qed.
Lemma best_step q l b n m p :
  best q l b n →
  let r := if mount_matches q p && (strlen p >? n) then (m, strlen p) else (b, n) in best q (l ++ [(m, p)]) r.1 r.2.
Proof.
  intros Hb r. assert (0 ≤ strlen p) by (unfold strlen; lia). subst r.
  assert (∀ m' p', (m', p') ∈ l ++ [(m, p)] → (m', p') ∈ l ∨ (m' = m ∧ p' = p)) as Hin by set_solver.
  destruct (mount_matches q p) eqn:Hm; simpl; [rewrite Z.gtb_ltb; destruct (Z.ltb_spec n (strlen p))|]; simpl.
  - right. exists p. split_and!; [set_solver|done| |done|].
    + destruct Hb as [(_ & -> & _)|(p0 & _ & -> & ? & _)]; lia.
    + intros m' p' [Hl|[-> ->]]%Hin Hm'; [|lia].
      destruct Hb as [(_ & _ & Hb)|(p0 & _ & -> & _ & _ & Hb)]; [|specialize (Hb _ _ Hl Hm'); lia].
      rewrite (Hb _ _ Hl Hm'). done.
  - destruct Hb as [(-> & -> & Hb)|(p0 & H1 & H2 & H3 & H4 & Hb)]; [left|right; exists p0].
    + split_and!; [done|done|]. intros m' p' [Hl|[-> ->]]%Hin Hm'; [by eapply Hb|]. apply strlen_zero. lia.
    + split_and!; [set_solver|done|done|done|]. intros m' p' [Hl|[-> ->]]%Hin Hm'; [by eapply Hb|lia].
  - destruct Hb as [(-> & -> & Hb)|(p0 & H1 & H2 & H3 & H4 & Hb)]; [left|right; exists p0].
    + split_and!; [done|done|]. intros m' p' [Hl|[-> ->]]%Hin Hm'; [by eapply Hb|congruence].
    + split_and!; [set_solver|done|done|done|]. intros m' p' [Hl|[-> ->]]%Hin Hm'; [by eapply Hb|congruence].
Qed.

Lemma wp_resolve_loop s q l (Q : Z * Z → vfs_state D → Prop) :
  mounted s (vfs_list_head s) l → (∀ b n, best q l b n → Q (b, n) s) →
  wp (loop (S (size (vfss s))) (resolve_round q) (vfs_list_head s, (0, 0))) Q s.
Proof.
  intros Hm HQ. pose proof (mounted_length _ _ _ Hm) as Hlen.
  apply (wp_loop (λ n '(v, (b, k)) s', s' = s ∧ ∃ l1 l2, l = l1 ++ l2 ∧ n = length l2 ∧ mounted s v l2 ∧ best q l1 b k) _ _ (length l)).
  - lia.
  - split; [done|]. exists [], l. split_and!; [done|done|done|]. left. split_and!; [done|done|]. set_solver.
  - intros n [v [b k]] s' (-> & l1 & l2 & Hl & -> & Hm2 & Hb). unfold resolve_round.
    destruct l2 as [|[m p] l2]; simpl in Hm2.
    { subst v. simpl. apply wp_ret. apply HQ. by rewrite Hl, app_nil_r. }
    destruct Hm2 as (-> & H0 & x & r & Hx & Hr0 & Hr & Hp & Hm2). rewrite (proj2 (Z.eqb_neq _ _) H0).
    apply wp_bind. eapply wp_fs_load; [done|]. rewrite (proj2 (Z.eqb_neq _ _) Hr0).
    apply wp_bind. eapply wp_vn_load; [done|]. rewrite Hp. pose proof (best_step q l1 b k m p Hb) as Hb'. simpl in Hb'.
    destruct (mount_matches q p && (strlen p >? k)); apply wp_ret; (exists (length l2); split; [simpl; lia|]; split; [done|];
      exists (l1 ++ [(m, p)]), l2; split_and!; [by rewrite Hl, <-app_assoc|done|done|done]).
Qed.
End state.
