(* ===== verification/RamfsSpec.v ===== *)
(** The abstract view of a RAM file system: the entries of each directory, and
    what searching, appending and unlinking do to them. *)
From Stdlib Require Import Ascii.
From S2P Require Import Prelude Errno Sync Vfs Kfile Ramfs VfsSpec.

(** * Chains of siblings *)

Section nodes.
Implicit Types ns : gmap Z ramfs_node_t.

Definition sib ns (a : Z) : option Z := sibling <$> ns !! a.
Definition kid ns (a : Z) : option Z := child <$> ns !! a.
Definition nm_of ns (a : Z) : option string := ns !! a ≫= name.
Definition ty ns (a : Z) : option ramfs_ftype_t := type <$> ns !! a.

Fixpoint chain ns (first : Z) (l : list Z) : Prop :=
  match l with
  | [] => first = 0
  | a :: l => first = a ∧ a ≠ 0 ∧ ∃ n, sib ns a = Some n ∧ chain ns n l
  end.

Lemma sib_chain_frame ns ns' f l : chain ns f l → (∀ a, a ∈ l → sib ns' a = sib ns a) → chain ns' f l.
Proof.
  revert f. induction l as [|a l IH]; intros f H Hs; [done|]. destruct H as (-> & H0 & n & Hn & H).
  split_and!; [done|done|]. exists n. split; [rewrite Hs; set_solver|]. apply IH; set_solver.
Qed.
Lemma chain_det ns f l l' : chain ns f l → chain ns f l' → l = l'.
Proof.
  revert f l'. induction l as [|a l IH]; intros f [|a' l'] H H'; simpl in *; [done|naive_solver..|].
  destruct H as (-> & _ & n & Hn & H), H' as (-> & _ & n' & Hn' & H'). simplify_eq. f_equal. by eapply IH.
Qed.
Lemma chain_app ns f l1 l2 : chain ns f (l1 ++ l2) → ∃ g, chain ns g l2.
Proof. revert f. induction l1 as [|a l1 IH]; intros f; simpl; [eauto|]. intros (_ & _ & n & _ & H). by eapply IH. Qed.
Lemma chain_nodup ns f l : chain ns f l → NoDup l.
Proof.
  revert f. induction l as [|a l IH]; intros f H; [constructor|]. constructor.
  - intros (l1 & l2 & ->)%list_elem_of_split. destruct (chain_app ns f (a :: l1) (a :: l2) H) as [g H'].
    assert (f = a) as -> by (by destruct H). assert (g = a) as -> by (by destruct H').
    pose proof (chain_det _ _ _ _ H H') as Heq. apply (f_equal length) in Heq. simpl in Heq. rewrite length_app in Heq. simpl in Heq. lia.
  - destruct H as (_ & _ & n & _ & H). by eapply IH.
Qed.
Lemma chain_elem ns f l a : chain ns f l → a ∈ l → a ≠ 0 ∧ ∃ x, ns !! a = Some x.
Proof.
  revert f. induction l as [|b l IH]; intros f H Ha; [set_solver|]. destruct H as (-> & H0 & n & Hn & H).
  apply elem_of_cons in Ha as [->|Ha]; [|by eapply IH]. split; [done|]. unfold sib in Hn. destruct (ns !! b); [by eexists|done].
Qed.
Lemma chain_length ns f l : chain ns f l → (length l ≤ size ns)%nat.
Proof.
  intros H. rewrite <-size_dom, <-(size_list_to_set (C:=gset Z) _ (chain_nodup _ _ _ H)). apply subseteq_size.
  intros a Ha. rewrite elem_of_list_to_set in Ha. destruct (chain_elem _ _ _ _ H Ha) as (_ & x & ?). apply elem_of_dom. by eexists.
Qed.

(** The end of a chain is set to lead on. *)
Lemma chain_snoc ns f l a b g :
  chain ns f (l ++ [a]) → (∀ c, c ∈ l → sib g c = sib ns c) → sib g a = Some b → b ≠ 0 → sib g b = Some 0 →
  chain g f (l ++ [a; b]).
Proof.
  revert f. induction l as [|c l IH]; intros f H Hl Ha Hb Hg; simpl in *.
  - destruct H as (-> & H0 & n & _ & _). split_and!; [done|done|]. exists b. split; [done|]. split_and!; [done|done|]. by exists 0.
  - destruct H as (-> & H0 & n & Hn & H). split_and!; [done|done|]. exists n. split; [rewrite Hl; set_solver|].
    apply IH; [done|set_solver|done|done|done].
Qed.
(** What comes after [c] is linked to what comes before it. *)
Lemma chain_unlink ns f l a c l2 g n :
  chain ns f (l ++ a :: c :: l2) → (∀ d, d ∈ l ++ l2 → sib g d = sib ns d) → sib ns c = Some n → sib g a = Some n →
  chain g f (l ++ a :: l2).
Proof.
  revert f. induction l as [|d l IH]; intros f H Hl Hc Ha; simpl in *.
  - destruct H as (-> & H0 & m & _ & -> & Hc0 & n' & Hn' & H). simplify_eq. split_and!; [done|done|]. exists n'. split; [done|].
    eapply sib_chain_frame; [done|]. set_solver.
  - destruct H as (-> & H0 & m & Hm & H). split_and!; [done|done|]. exists m. split; [rewrite Hl; set_solver|].
    apply IH; [done|set_solver|done|done].
Qed.

(** The first entry called [want], or 0. *)
Definition entry ns (l : list Z) (want : string) : Z := default 0 (head (filter (λ a, nm_of ns a = Some want) l)).
Lemma entry_cons ns a l want : entry ns (a :: l) want = if decide (nm_of ns a = Some want) then a else entry ns l want.
Proof. unfold entry. rewrite filter_cons. by case_decide. Qed.
Lemma entry_elem ns l want : entry ns l want ≠ 0 → entry ns l want ∈ l ∧ nm_of ns (entry ns l want) = Some want.
Proof. induction l as [|a l IH]; [done|]. rewrite entry_cons. case_decide; set_solver. Qed.
Lemma entry_none ns f l want : chain ns f l → entry ns l want = 0 → ∀ a, a ∈ l → nm_of ns a ≠ Some want.
Proof.
  revert f. induction l as [|b l IH]; intros f H He a Ha; [set_solver|]. rewrite entry_cons in He.
  destruct H as (_ & H0 & n & _ & H). case_decide; [done|]. apply elem_of_cons in Ha as [->|Ha]; [done|]. by eapply IH.
Qed.

(** * The tree *)

(** [kids] gives the entries of every node in order: names are unique in a
    directory, a node is in one directory at most, and only directories have
    entries. *)
Record tree_wf ns (kids : gmap Z (list Z)) : Prop := {
  tw_dom a : is_Some (kids !! a) ↔ is_Some (ns !! a);
  tw_chain a l n : kids !! a = Some l → kid ns a = Some n → chain ns n l;
  tw_names a l c : kids !! a = Some l → c ∈ l → is_Some (nm_of ns c);
  tw_unique a l c d : kids !! a = Some l → c ∈ l → d ∈ l → nm_of ns c = nm_of ns d → c = d;
  tw_parent a b la lb c : kids !! a = Some la → kids !! b = Some lb → c ∈ la → c ∈ lb → a = b;
  tw_leaf a t : ty ns a = Some t → t ≠ RAMFS_DIRECTORY → kids !! a = Some [];
}.

Lemma tree_kids ns kids a x : tree_wf ns kids → ns !! a = Some x → ∃ l, kids !! a = Some l ∧ chain ns (child x) l.
Proof.
  intros W Ha. destruct (proj2 (tw_dom _ _ W a)) as [l Hl]; [by eexists|]. exists l. split; [done|].
  eapply tw_chain; [done|done|]. unfold kid. by rewrite Ha.
Qed.
Lemma tree_elem ns kids a l c : tree_wf ns kids → kids !! a = Some l → c ∈ l → c ≠ 0 ∧ ∃ x n, ns !! c = Some x ∧ name x = Some n.
Proof.
  intros W Ha Hc. destruct (proj1 (tw_dom _ _ W a)) as [x Hx]; [by eexists|].
  assert (chain ns (child x) l) as Hch by (eapply tw_chain; [done|done|unfold kid; by rewrite Hx]).
  destruct (chain_elem _ _ _ _ Hch Hc) as (H0 & y & Hy). destruct (tw_names _ _ W _ _ _ Ha Hc) as [n Hn].
  split; [done|]. exists y, n. split; [done|]. unfold nm_of in Hn. by rewrite Hy in Hn.
Qed.

Lemma ty_Some ns a : is_Some (ty ns a) ↔ is_Some (ns !! a).
Proof. unfold ty. by rewrite fmap_is_Some. Qed.
Lemma kid_Some ns a : is_Some (kid ns a) ↔ is_Some (ns !! a).
Proof. unfold kid. by rewrite fmap_is_Some. Qed.

(** Name and type are the same. *)
Definition same_node ns ns' (a : Z) : Prop := nm_of ns' a = nm_of ns a ∧ ty ns' a = ty ns a.

(** A new entry at the end of directory [d]. *)
Lemma tree_wf_add ns ns' kids d l n nm :
  tree_wf ns kids → kids !! d = Some l → ns !! n = None → ty ns d = Some RAMFS_DIRECTORY → (∀ a, a ∈ l → nm_of ns a ≠ Some nm) →
  (∀ a, a ≠ n → same_node ns ns' a) → nm_of ns' n = Some nm → kid ns' n = Some 0 →
  (∀ a, a ≠ n → a ≠ d → kid ns' a = kid ns a) → (∀ a, a ≠ n → a ∉ l → sib ns' a = sib ns a) →
  (∀ f, kid ns' d = Some f → chain ns' f (l ++ [n])) →
  tree_wf ns' (<[n := []]> (<[d := l ++ [n]]> kids)).
Proof.
  intros W Hd Hn Hty Hnew Hsame Hnm Hkn Hkid Hsib Hch.
  assert (n ≠ d) as Hnd by (intros ->; unfold ty in Hty; by rewrite Hn in Hty).
  assert (∀ a la, kids !! a = Some la → n ∉ la) as Hfree.
  { intros a la Ha Hin. destruct (tree_elem _ _ _ _ _ W Ha Hin) as (_ & x & _ & Hx & _). by rewrite Hn in Hx. }
  assert (∀ a la, <[n := []]> (<[d := l ++ [n]]> kids) !! a = Some la → (a = n ∧ la = []) ∨ (a = d ∧ la = l ++ [n]) ∨
    (a ≠ n ∧ a ≠ d ∧ kids !! a = Some la)) as Hk.
  { intros a la. rewrite lookup_insert_Some, lookup_insert_Some. naive_solver. }
  assert (∀ a la c, kids !! a = Some la → c ∈ la → nm_of ns' c = nm_of ns c) as Hnms.
  { intros a la c Ha Hc. apply Hsame. intros ->. by apply (Hfree _ _ Ha). }
  constructor.
  - intros a. rewrite lookup_insert_is_Some, lookup_insert_is_Some, (tw_dom _ _ W), <-!ty_Some.
    destruct (decide (a = n)) as [->|Ha].
    { split; [intros _|by left]. apply ty_Some, kid_Some. by rewrite Hkn. }
    destruct (Hsame a Ha) as [_ ->]. destruct (decide (a = d)) as [->|]; [rewrite Hty|]; naive_solver.
  - intros a la f [[-> ->]|[[-> ->]|(? & Had & Ha)]]%Hk Hf; [by rewrite Hkn in Hf; simplify_eq|by apply Hch|].
    rewrite Hkid in Hf by done. eapply sib_chain_frame; [by eapply tw_chain|]. intros c Hc. apply Hsib.
    + intros ->. by apply (Hfree _ _ Ha).
    + intros Hcl. apply Had. by eapply (tw_parent _ _ W).
  - intros a la c [[-> ->]|[[-> ->]|(? & Had & Ha)]]%Hk Hc; [set_solver| |rewrite (Hnms _ _ _ Ha Hc); by eapply tw_names].
    apply elem_of_app in Hc as [Hc| ->%list_elem_of_singleton]; [rewrite (Hnms _ _ _ Hd Hc); by eapply tw_names|by rewrite Hnm].
  - intros a la c e [[-> ->]|[[-> ->]|(? & Had & Ha)]]%Hk Hc He; [set_solver| |].
    2:{ rewrite (Hnms _ _ _ Ha Hc), (Hnms _ _ _ Ha He). by eapply tw_unique. }
    apply elem_of_app in Hc as [Hc|Hc]; [|apply list_elem_of_singleton in Hc as ->];
      (apply elem_of_app in He as [He|He]; [|apply list_elem_of_singleton in He as ->]).
    + rewrite (Hnms _ _ _ Hd Hc), (Hnms _ _ _ Hd He). eapply (tw_unique _ _ W); [exact Hd|exact Hc|exact He].
    + rewrite (Hnms _ _ _ Hd Hc), Hnm. intros Heq. by destruct (Hnew c Hc).
    + rewrite (Hnms _ _ _ Hd He), Hnm. intros Heq. by destruct (Hnew e He).
    + reflexivity.
  - intros a b la lb c [[-> ->]|[[-> ->]|(? & Had & Ha)]]%Hk; [by intros _ ?%not_elem_of_nil| |];
      (intros [[-> ->]|[[-> ->]|(? & Hbd & Hb)]]%Hk Hca Hcb; [by apply not_elem_of_nil in Hcb| |]).
    + reflexivity.
    + apply elem_of_app in Hca as [Hc|Hc]; [eapply (tw_parent _ _ W); [exact Hd|exact Hb|exact Hc|exact Hcb]|].
      apply list_elem_of_singleton in Hc as ->. by destruct (Hfree _ _ Hb).
    + apply elem_of_app in Hcb as [Hc|Hc]; [eapply (tw_parent _ _ W); [exact Ha|exact Hd|exact Hca|exact Hc]|].
      apply list_elem_of_singleton in Hc as ->. by destruct (Hfree _ _ Ha).
    + eapply (tw_parent _ _ W); [exact Ha|exact Hb|exact Hca|exact Hcb].
  - intros a t Ht Hne. destruct (decide (a = n)) as [->|Ha]; [apply lookup_insert_eq|]. rewrite lookup_insert_ne by done.
    destruct (Hsame a Ha) as [_ Hta]. rewrite Hta in Ht. destruct (decide (a = d)) as [->|]; [congruence|].
    rewrite lookup_insert_ne by done. by eapply tw_leaf.
Qed.

(** Entry [c] of directory [d] goes. *)
Lemma tree_wf_remove ns ns' kids d l1 c l2 :
  tree_wf ns kids → kids !! d = Some (l1 ++ c :: l2) → kids !! c = Some [] → c ≠ d →
  ns' !! c = None → (∀ a, a ≠ c → same_node ns ns' a) →
  (∀ a, a ≠ c → a ≠ d → kid ns' a = kid ns a) → (∀ a, a ≠ c → a ∉ l1 → sib ns' a = sib ns a) →
  (∀ f, kid ns' d = Some f → chain ns' f (l1 ++ l2)) →
  tree_wf ns' (delete c (<[d := l1 ++ l2]> kids)).
Proof.
  intros W Hd Hc Hcd Hgone Hsame Hkid Hsib Hch.
  assert (∀ a la, delete c (<[d := l1 ++ l2]> kids) !! a = Some la → a ≠ c ∧ ∃ la', kids !! a = Some la' ∧ la ⊆ la' ∧
    ((a = d ∧ la = l1 ++ l2) ∨ (a ≠ d ∧ la' = la))) as Hk.
  { intros a la. rewrite lookup_delete_Some, lookup_insert_Some. intros [Hac [[<- <-]|[Had Ha]]]; (split; [done|]);
      eexists; split_and!; eauto. intros b. rewrite !elem_of_app, elem_of_cons. naive_solver. }
  assert (∀ a la b, delete c (<[d := l1 ++ l2]> kids) !! a = Some la → b ∈ la → b ≠ c) as Hnc.
  { intros a la b Ha Hb ->. destruct (Hk _ _ Ha) as (Hac & la' & Ha' & Hsub & [[-> ->]|[Had <-]]).
    - destruct (proj1 (tw_dom _ _ W d)) as [x Hx]; [by eexists|].
      assert (NoDup (l1 ++ c :: l2)) as Hnd by (eapply chain_nodup, (tw_chain _ _ W d); [done|unfold kid; by rewrite Hx]).
      apply NoDup_app in Hnd as (_ & H12 & [Hc2 _]%NoDup_cons).
      apply elem_of_app in Hb as [Hb|Hb]; [by apply (H12 c); [|left]|done].
    - apply Had. eapply (tw_parent _ _ W); [done|exact Hd|done|set_solver]. }
  constructor.
  - intros a. destruct (decide (a = c)) as [->|Ha].
    + rewrite lookup_delete_eq, Hgone. done.
    + rewrite lookup_delete_ne by done. rewrite lookup_insert_is_Some, (tw_dom _ _ W), <-!ty_Some.
      destruct (Hsame a Ha) as [_ ->]. rewrite ty_Some. destruct (decide (a = d)) as [->|]; [|naive_solver].
      rewrite <-(tw_dom _ _ W), Hd. naive_solver.
  - intros a la f Ha Hf. destruct (Hk _ _ Ha) as (Hac & la' & Ha' & _ & [[-> ->]|[Had ->]]); [by apply Hch|].
    rewrite Hkid in Hf by done. eapply sib_chain_frame; [by eapply tw_chain|]. intros b Hb. apply Hsib; [by eapply Hnc|].
    intros Hbl. apply Had. eapply (tw_parent _ _ W); [exact Ha'|exact Hd|done|set_solver].
  - intros a la b Ha Hb. destruct (Hk _ _ Ha) as (Hac & la' & Ha' & Hsub & _).
    destruct (Hsame b) as [-> _]; [by eapply Hnc|]. eapply tw_names; [done|done|by apply Hsub].
  - intros a la b e Ha Hb He. destruct (Hk _ _ Ha) as (Hac & la' & Ha' & Hsub & _).
    destruct (Hsame b) as [-> _]; [by eapply Hnc|]. destruct (Hsame e) as [-> _]; [by eapply Hnc|].
    eapply tw_unique; [done|done|by apply Hsub|by apply Hsub].
  - intros a b la lb e Ha Hb Hea Heb. destruct (Hk _ _ Ha) as (_ & la' & Ha' & Hsa & _), (Hk _ _ Hb) as (_ & lb' & Hb' & Hsb & _).
    eapply (tw_parent _ _ W); [done|done|by apply Hsa|by apply Hsb].
  - intros a t Ht Hne. destruct (decide (a = c)) as [->|Ha]; [unfold ty in Ht; by rewrite Hgone in Ht|].
    rewrite lookup_delete_ne by done. destruct (Hsame a Ha) as [_ Hta]. rewrite Hta in Ht.
    pose proof (tw_leaf _ _ W _ _ Ht Hne) as Hl. destruct (decide (a = d)) as [->|]; [|by rewrite lookup_insert_ne].
    rewrite Hd in Hl. by destruct l1.
Qed.
End nodes.
