(* ===== verification/RamfsOps.v ===== *)
(** The RAM file system as a map: every node is a finite map from names to
    nodes, and what the operations on directories do to it. *)
From Stdlib Require Import Ascii.
From S2P Require Import Prelude Errno Sync Vfs Kfile Ramfs VfsSpec RamfsSpec.

Local Abbreviation state := (vfs_state ramfs_data).
Implicit Types (ns : gmap Z ramfs_node_t) (s : state).

(** * Directories as maps *)

Definition dir_map ns (l : list Z) : gmap string Z :=
  foldr (λ c m, match nm_of ns c with Some nm => <[nm := c]> m | None => m end) ∅ l.

Lemma dir_map_entry ns f l nm : chain ns f l → dir_map ns l !! nm = if entry ns l nm =? 0 then None else Some (entry ns l nm).
Proof.
  revert f. induction l as [|c l IH]; intros f H; [done|]. destruct H as (-> & H0 & n & _ & H). rewrite entry_cons.
  cbn [dir_map foldr]. specialize (IH _ H). destruct (nm_of ns c) as [nm'|] eqn:Hn.
  - case_decide; simplify_eq.
    + by rewrite lookup_insert_eq, (proj2 (Z.eqb_neq _ _) H0).
    + rewrite lookup_insert_ne by congruence. done.
  - by case_decide.
Qed.
Lemma dir_map_ext ns ns' l : (∀ c, c ∈ l → nm_of ns' c = nm_of ns c) → dir_map ns' l = dir_map ns l.
Proof. induction l as [|c l IH]; intros H; [done|]. cbn [dir_map foldr]. rewrite (H c) by set_solver. unfold dir_map in IH. by rewrite IH by set_solver. Qed.
Lemma dir_map_none ns l nm : (∀ c, c ∈ l → nm_of ns c ≠ Some nm) → dir_map ns l !! nm = None.
Proof.
  induction l as [|c l IH]; intros H; [done|]. cbn [dir_map foldr]. unfold dir_map in IH. pose proof (H c ltac:(set_solver)).
  destruct (nm_of ns c); [rewrite lookup_insert_ne by congruence|]; apply IH; set_solver.
Qed.
Lemma dir_map_snoc ns l c nm : (∀ c, c ∈ l → nm_of ns c ≠ Some nm) → nm_of ns c = Some nm →
  dir_map ns (l ++ [c]) = <[nm := c]> (dir_map ns l).
Proof.
  intros Hl Hc. induction l as [|e l IH]; cbn [dir_map foldr app]; [by rewrite Hc|]. unfold dir_map in IH.
  rewrite IH by set_solver. pose proof (Hl e ltac:(set_solver)). destruct (nm_of ns e); [|done].
  by rewrite insert_insert_ne by congruence.
Qed.
Lemma dir_map_remove ns l1 c l2 nm : (∀ e, e ∈ l1 ++ l2 → nm_of ns e ≠ Some nm) → nm_of ns c = Some nm →
  dir_map ns (l1 ++ l2) = delete nm (dir_map ns (l1 ++ c :: l2)).
Proof.
  intros Hl Hc. induction l1 as [|e l1 IH]; cbn [dir_map foldr app].
  - rewrite Hc, delete_insert_id; [done|]. by apply dir_map_none.
  - unfold dir_map in IH. rewrite IH by set_solver. pose proof (Hl e ltac:(set_solver)). destruct (nm_of ns e); [|done].
    by rewrite delete_insert_ne by congruence.
Qed.

(** * The abstract file system *)

(** What a node holds beside its links. *)
Record info_t := mkInfo { i_name : option string; i_type : ramfs_ftype_t; i_size : Z; i_data : Z; i_mode : Z }.
Definition info_of (x : ramfs_node_t) : info_t := mkInfo (name x) (type x) (rsize x) (data x) (rmode x).
Definition info s : gmap Z info_t := info_of <$> rnodes (fs s).
(** Every node with its entries by name. *)
Abbreviation tree := (gmap Z (gmap string Z)).
Definition ramfs_rep s (T : tree) : Prop :=
  ∃ kids, tree_wf (rnodes (fs s)) kids ∧ T = dir_map (rnodes (fs s)) <$> kids.

Definition is_dir s (d : Z) : Prop := i_type <$> info s !! d = Some RAMFS_DIRECTORY.
#[global] Instance is_dir_dec s d : Decision (is_dir s d).
Proof. unfold is_dir. apply _. Defined.

Lemma info_lookup s a : info s !! a = info_of <$> rnodes (fs s) !! a.
Proof. apply lookup_fmap. Qed.
Lemma info_nm s a : nm_of (rnodes (fs s)) a = info s !! a ≫= i_name.
Proof. unfold nm_of. rewrite info_lookup. by destruct (rnodes (fs s) !! a). Qed.
Lemma info_ty s a : ty (rnodes (fs s)) a = i_type <$> info s !! a.
Proof. unfold ty. rewrite info_lookup. by destruct (rnodes (fs s) !! a). Qed.

(** [put_rnodes], in the state. *)
Definition with_nodes ns s : state := put_fs (put_rnodes ns (fs s)) s.

(** ** Steps *)

Lemma wp_nd_load s a x (Q : ramfs_node_t → state → Prop) : rnodes (fs s) !! a = Some x → Q x s → wp (nd_load a) Q s.
Proof. intros H HQ. unfold wp, nd_load. by rewrite H. Qed.
Lemma wp_nd_store s a x f (Q : unit → state → Prop) :
  rnodes (fs s) !! a = Some x → Q tt (with_nodes (<[a := f x]> (rnodes (fs s))) s) → wp (nd_store a f) Q s.
Proof. intros H HQ. unfold wp, nd_store. by rewrite H. Qed.
Lemma wp_rf_load s a x (Q : ramfs_t → state → Prop) : ramfss (fs s) !! a = Some x → Q x s → wp (rf_load a) Q s.
Proof. intros H HQ. unfold wp, rf_load. by rewrite H. Qed.
Lemma wp_vfs_kalloc {D} (s : vfs_state D) a r (Q : Z → vfs_state D → Prop) : allocs s = a :: r → Q a (put_allocs r s) → wp kalloc Q s.
Proof. intros H HQ. unfold wp, kalloc. by rewrite H. Qed.
Lemma wp_strdup {D} (s : vfs_state D) a r str (Q : option string → vfs_state D → Prop) :
  allocs s = a :: r → a ≠ 0 → Q (Some str) (put_allocs r s) → wp (strdup str) Q s.
Proof. intros H H0 HQ. apply wp_bind. eapply wp_vfs_kalloc; [done|]. apply wp_ret. by rewrite (proj2 (Z.eqb_neq _ _) H0). Qed.

Lemma wp_find_chain s f l want (Q : Z → state → Prop) :
  chain (rnodes (fs s)) f l → (∀ c, c ∈ l → is_Some (nm_of (rnodes (fs s)) c)) → Q (entry (rnodes (fs s)) l want) s →
  wp (find_child any_type f want) Q s.
Proof.
  intros Hc Hn HQ. unfold find_child. apply wp_bind, wp_gets. pose proof (chain_length _ _ _ Hc) as Hlen.
  set (ns := rnodes (fs s)) in *.
  apply (wp_loop (λ n f' s', s' = s ∧ ∃ l2, chain ns f' l2 ∧ n = length l2 ∧ l2 ⊆ l ∧ entry ns l2 want = entry ns l want) _ _ (length l)); [lia|by split; [|exists l]|].
  intros n f' s' (-> & l2 & Hc2 & -> & Hsub & He). unfold child_round. destruct l2 as [|a l2]; simpl in Hc2.
  { subst f'. apply wp_ret. by rewrite <-He in HQ. }
  destruct Hc2 as (-> & H0 & k & Hk & Hc2). rewrite (proj2 (Z.eqb_neq _ _) H0).
  destruct (Hn a) as [nm Hnm]; [set_solver|]. unfold sib in Hk. destruct (ns !! a) as [x|] eqn:Hx; [|done]. simpl in Hk. simplify_eq.
  apply wp_bind. eapply wp_nd_load; [exact Hx|]. rewrite entry_cons, Hnm in He. unfold nm_of in Hnm. rewrite Hx in Hnm. simpl in Hnm.
  rewrite Hnm. apply wp_bind, wp_ret. unfold any_type. rewrite andb_true_r. destruct (decide (nm = want)) as [->|Hne].
  - rewrite bool_decide_eq_true_2 by done. apply wp_ret. by rewrite decide_True in He by done; subst a.
  - rewrite bool_decide_eq_false_2 by done. apply wp_ret. rewrite decide_False in He by congruence.
    exists (length l2). split; [simpl; lia|]. split; [done|]. exists l2. split_and!; [done|done|set_solver|done].
Qed.

(** The search of a directory is the lookup in its map. *)
Lemma wp_find_child s T d x m want (Q : Z → state → Prop) :
  ramfs_rep s T → rnodes (fs s) !! d = Some x → T !! d = Some m → (m !! want = None → Q 0 s) →
  (∀ c, c ≠ 0 → m !! want = Some c → is_Some (rnodes (fs s) !! c) → Q c s) →
  wp (find_child any_type (child x) want) Q s.
Proof.
  intros (kids & W & ->) Hx Hm H0 H1. destruct (tree_kids _ _ _ _ W Hx) as (l & Hl & Hch). rewrite lookup_fmap, Hl in Hm.
  injection Hm as <-. eapply wp_find_chain; [done|intros c Hc; by eapply (tw_names _ _ W)|].
  pose proof (dir_map_entry _ _ _ want Hch) as He. destruct (Z.eqb_spec (entry (rnodes (fs s)) l want) 0) as [E|E].
  - rewrite E. by apply H0.
  - apply H1; [done|done|]. destruct (entry_elem _ _ _ E) as [Hin _]. destruct (chain_elem _ _ _ _ Hch Hin) as (_ & y & ->). by eexists.
Qed.

Lemma rep_lookup s T d x : ramfs_rep s T → rnodes (fs s) !! d = Some x → is_Some (T !! d).
Proof. intros (kids & W & ->) Hx. destruct (tree_kids _ _ _ _ W Hx) as (l & Hl & _). rewrite lookup_fmap, Hl. by eexists. Qed.

(** ** A new entry *)

Lemma wp_last_child s f l a (Q : Z → state → Prop) :
  chain (rnodes (fs s)) f (l ++ [a]) → Q a s → wp (loop (S (size (rnodes (fs s)))) last_round f) Q s.
Proof.
  intros Hc HQ. pose proof (chain_length _ _ _ Hc) as Hlen.
  apply (wp_loop (λ n f' s', s' = s ∧ ∃ l2, chain (rnodes (fs s)) f' (l2 ++ [a]) ∧ n = length l2) _ _ (length l)).
  - rewrite length_app in Hlen. simpl in Hlen. lia.
  - split; [done|]. by exists l.
  - intros n f' s' (-> & l2 & Hc2 & ->). unfold last_round. destruct l2 as [|b l2]; simpl in Hc2.
    + destruct Hc2 as (-> & _ & k & Hk & ->). unfold sib in Hk. destruct (rnodes (fs s) !! a) as [x|] eqn:Hx; [|done].
      apply wp_bind. eapply wp_nd_load; [done|]. apply wp_ret. simpl in Hk. injection Hk as ->. done.
    + destruct Hc2 as (-> & _ & k & Hk & Hc2). unfold sib in Hk. destruct (rnodes (fs s) !! b) as [x|] eqn:Hx; [|done].
      apply wp_bind. eapply wp_nd_load; [done|]. apply wp_ret. simpl in Hk. injection Hk as ->.
      assert (k ≠ 0) as Hk0 by (destruct l2; simpl in Hc2; destruct Hc2 as (-> & ? & _); done).
      rewrite (proj2 (Z.eqb_neq _ _) Hk0). exists (length l2). split; [simpl; lia|]. split; [done|]. by exists l2.
Qed.

(** Links aside, the nodes are the same. *)
Lemma info_upd ns a x x' : ns !! a = Some x → info_of x' = info_of x → info_of <$> <[a := x']> ns = info_of <$> ns.
Proof. intros Hx Hi. rewrite fmap_insert, Hi. apply insert_id. by rewrite lookup_fmap, Hx. Qed.
Lemma info_same ns ns' a : info_of <$> ns' = info_of <$> ns → same_node ns ns' a.
Proof.
  intros H. apply (f_equal (.!! a)) in H. rewrite !lookup_fmap in H. unfold same_node, nm_of, ty.
  destruct (ns !! a) as [x|], (ns' !! a) as [y|]; try done. simpl in *. injection H as -> -> _ _ _. done.
Qed.

Lemma wp_append_child s d x l n y (Q : unit → state → Prop) :
  rnodes (fs s) !! d = Some x → chain (rnodes (fs s)) (child x) l → rnodes (fs s) !! n = Some y → sibling y = 0 →
  n ∉ l → n ≠ d → n ≠ 0 →
  (∀ ns', info_of <$> ns' = info_of <$> rnodes (fs s) → (∀ a, a ≠ d → kid ns' a = kid (rnodes (fs s)) a) →
     (∀ a, a ∉ l → sib ns' a = sib (rnodes (fs s)) a) → (∀ f, kid ns' d = Some f → chain ns' f (l ++ [n])) →
     Q tt (with_nodes ns' s)) →
  wp (ramfs_append_child d n) Q s.
Proof.
  intros Hx Hc Hy Hs Hnl Hnd Hn0 HQ. unfold ramfs_append_child. apply wp_bind. eapply wp_nd_load; [done|].
  destruct (decide (l = [])) as [->|Hl].
  - simpl in Hc. rewrite Hc. simpl. eapply wp_nd_store; [done|]. apply HQ.
    + by apply (info_upd _ _ x).
    + intros a Ha. unfold kid. by rewrite lookup_insert_ne.
    + intros a _. unfold sib. destruct (decide (a = d)) as [->|]; [rewrite lookup_insert_eq, Hx|rewrite lookup_insert_ne]; done.
    + intros f. unfold kid. rewrite lookup_insert_eq. simpl. intros [= <-]. split_and!; [done|done|]. exists 0. unfold sib.
      rewrite lookup_insert_ne, Hy by done. simpl. by rewrite Hs.
  - destruct (exists_last Hl) as (l' & a & ->).
    assert (child x ≠ 0) as H0 by (destruct l'; destruct Hc as (-> & ? & _); done). rewrite (proj2 (Z.eqb_neq _ _) H0).
    destruct (chain_elem _ _ _ a Hc) as (_ & z & Hz); [set_solver|].
    apply wp_bind, wp_gets, wp_bind. eapply wp_last_child; [done|]. eapply wp_nd_store; [done|]. apply HQ.
    + by apply (info_upd _ _ z).
    + intros b Hb. unfold kid. destruct (decide (b = a)) as [->|]; [rewrite lookup_insert_eq, Hz|rewrite lookup_insert_ne]; done.
    + intros b Hb. unfold sib. rewrite lookup_insert_ne by set_solver. done.
    + intros f Hf. assert (f = child x) as ->.
      { unfold kid in Hf. destruct (decide (a = d)) as [->|]; [rewrite lookup_insert_eq in Hf|rewrite lookup_insert_ne in Hf by done];
          simplify_eq; simpl in Hf; rewrite ?Hx in Hf; simpl in Hf; congruence. }
      rewrite <-app_assoc. simpl. pose proof (chain_nodup _ _ _ Hc) as (_ & Hnd2 & _)%NoDup_app.
      eapply chain_snoc; [done| | |done|].
      * intros c Hcl. unfold sib. rewrite lookup_insert_ne; [done|]. intros ->. by apply (Hnd2 c); [|left].
      * unfold sib. by rewrite lookup_insert_eq.
      * unfold sib. rewrite lookup_insert_ne by set_solver. rewrite Hy. simpl. by rewrite Hs.
Qed.

Lemma wp_create_node s t n r (Q : Z → state → Prop) :
  allocs s = n :: r → n ≠ 0 →
  Q n (with_nodes (<[n := mkRn None t 0 0 (default_mode t) 0 0]> (rnodes (fs s))) (put_allocs r s)) →
  wp (ramfs_create_node t) Q s.
Proof.
  intros Ha H0 HQ. unfold ramfs_create_node. apply wp_bind. eapply wp_vfs_kalloc; [done|]. rewrite (proj2 (Z.eqb_neq _ _) H0).
  by apply wp_bind, wp_modify, wp_ret.
Qed.

(** The map of the tree with a new entry. *)
Lemma rep_add s s3 T d m nm n y kids l :
  tree_wf (rnodes (fs s)) kids → kids !! d = Some l → T = dir_map (rnodes (fs s)) <$> kids → m = dir_map (rnodes (fs s)) l →
  is_dir s d → (∀ a, a ∈ l → nm_of (rnodes (fs s)) a ≠ Some nm) → rnodes (fs s) !! n = None → name y = Some nm → child y = 0 →
  info s3 = info_of <$> <[n := y]> (rnodes (fs s)) →
  (∀ a, a ≠ d → kid (rnodes (fs s3)) a = kid (<[n := y]> (rnodes (fs s))) a) →
  (∀ a, a ∉ l → sib (rnodes (fs s3)) a = sib (<[n := y]> (rnodes (fs s))) a) →
  (∀ f, kid (rnodes (fs s3)) d = Some f → chain (rnodes (fs s3)) f (l ++ [n])) →
  ramfs_rep s3 (<[n := ∅]> (<[d := <[nm := n]> m]> T)).
Proof.
  intros W Hd -> -> Hdir Hnew Hn Hname Hchild Hinfo Hkid Hsib Hch. set (ns := rnodes (fs s)) in *. set (ns3 := rnodes (fs s3)) in *.
  assert (n ≠ d) as Hnd by (intros ->; destruct (proj1 (tw_dom _ _ W d)) as [? Hq]; [by eexists|congruence]).
  assert (∀ a, a ≠ n → same_node ns ns3 a) as Hsame.
  { intros a Ha. destruct (info_same (<[n := y]> ns) ns3 a Hinfo) as [H1 H2]. unfold same_node, nm_of, ty in *.
    by rewrite lookup_insert_ne in H1, H2. }
  assert (nm_of ns3 n = Some nm) as Hnm.
  { destruct (info_same (<[n := y]> ns) ns3 n Hinfo) as [H1 _]. rewrite H1. unfold nm_of. by rewrite lookup_insert_eq. }
  assert (tree_wf ns3 (<[n := []]> (<[d := l ++ [n]]> kids))) as W3.
  { apply (tree_wf_add ns _ _ _ _ _ nm); try done.
    - unfold is_dir in Hdir. by rewrite <-info_ty in Hdir.
    - rewrite Hkid by done. unfold kid. rewrite lookup_insert_eq. simpl. by rewrite Hchild.
    - intros a Ha Had. rewrite Hkid by done. unfold kid. by rewrite lookup_insert_ne.
    - intros a Ha Hal. rewrite Hsib by done. unfold sib. by rewrite lookup_insert_ne. }
  assert (∀ a la, kids !! a = Some la → dir_map ns3 la = dir_map ns la) as Hext.
  { intros a la Ha. apply dir_map_ext. intros c Hc. apply Hsame. intros ->.
    destruct (tree_elem _ _ _ _ _ W Ha Hc) as (_ & z & _ & Hz & _). congruence. }
  eexists. split; [exact W3|]. fold ns3. apply map_eq. intros a. rewrite !lookup_fmap. destruct (decide (a = n)) as [->|].
  { by rewrite !lookup_insert_eq. }
  rewrite !(lookup_insert_ne _ n) by done. destruct (decide (a = d)) as [->|].
  - rewrite !lookup_insert_eq. simpl. f_equal. rewrite (dir_map_snoc _ _ _ nm), (Hext _ _ Hd); [done| |done].
    intros c Hc. destruct (Hsame c) as [-> _]; [|by apply Hnew]. intros ->.
    destruct (tree_elem _ _ _ _ _ W Hd Hc) as (_ & z & _ & Hz & _). congruence.
  - rewrite !lookup_insert_ne, lookup_fmap by done. destruct (kids !! a) as [la|] eqn:Ha; [|done]. simpl. by rewrite (Hext a la).
Qed.

Lemma wp_add_entry s T d m nm t init n a r (Q : Z → state → Prop) :
  ramfs_rep s T → T !! d = Some m → is_dir s d → m !! nm = None → allocs s = n :: a :: r → n ≠ 0 → a ≠ 0 → rnodes (fs s) !! n = None →
  wp (init n) (λ _ s2, ∃ y, rnodes (fs s2) = <[n := y]> (rnodes (fs s)) ∧ name y = Some nm ∧ child y = 0 ∧ sibling y = 0 ∧
       ∀ ns', info (with_nodes ns' s2) = <[n := info_of y]> (info s) →
              ramfs_rep (with_nodes ns' s2) (<[n := ∅]> (<[d := <[nm := n]> m]> T)) → Q n (with_nodes ns' s2))
    (with_nodes (<[n := mkRn (Some nm) t 0 0 (default_mode t) 0 0]> (rnodes (fs s))) (put_allocs r s)) →
  wp (add_entry d nm t init) Q s.
Proof.
  intros (kids & W & HT) Hm Hdir Hnew Ha Hn0 Ha0 Hn Hinit. unfold add_entry.
  apply wp_bind. eapply wp_create_node; [done|done|]. apply wp_bind. eapply wp_strdup; [done|done|].
  apply wp_bind. eapply wp_nd_store; [apply lookup_insert_eq|]. apply wp_bind. simpl. rewrite insert_insert_eq.
  eapply wp_mono; [exact Hinit|]. intros _ s2 (y & Hns & Hnm & Hch & Hsib & HQ).
  assert (is_Some (rnodes (fs s) !! d)) as [x Hx].
  { unfold is_dir in Hdir. rewrite info_lookup in Hdir. destruct (rnodes (fs s) !! d); [by eexists|done]. }
  destruct (tree_kids _ _ _ _ W Hx) as (l & Hl & Hc). assert (m = dir_map (rnodes (fs s)) l) as -> by (by rewrite HT, lookup_fmap, Hl in Hm; injection Hm).
  assert (n ∉ l) as Hnl by (intros Hin; destruct (chain_elem _ _ _ _ Hc Hin) as (_ & z & ?); congruence).
  assert (∀ a, a ∈ l → nm_of (rnodes (fs s)) a ≠ Some nm) as Hnames.
  { eapply entry_none; [done|]. rewrite (dir_map_entry _ _ _ _ Hc) in Hnew. by destruct (Z.eqb_spec (entry (rnodes (fs s)) l nm) 0). }
  assert (n ≠ d) as Hnd by congruence.
  apply wp_bind. eapply (wp_append_child s2 d x l n y); [by rewrite Hns, lookup_insert_ne| |by rewrite Hns, lookup_insert_eq|done|done|done|done|].
  { eapply sib_chain_frame; [done|]. intros b Hb. unfold sib. rewrite Hns, lookup_insert_ne by congruence. done. }
  rewrite Hns. intros ns' Hinfo Hkid Hs Hch'. apply wp_ret. apply HQ.
  - unfold info. simpl. rewrite Hinfo. by rewrite fmap_insert.
  - by eapply (rep_add s _ T d _ nm n y kids l).
Qed.

(** ** An entry less *)

Lemma wp_entry_loop s f l want (Q : option Z * Z → state → Prop) :
  chain (rnodes (fs s)) f l → (∀ c, c ∈ l → is_Some (nm_of (rnodes (fs s)) c)) →
  (entry (rnodes (fs s)) l want = 0 → ∀ p, Q (p, 0) s) →
  (∀ l1 c l2, l = l1 ++ c :: l2 → c ≠ 0 → c = entry (rnodes (fs s)) l want → Q (last l1, c) s) →
  wp (loop (S (size (rnodes (fs s)))) (entry_round want) (None, f)) Q s.
Proof.
  intros Hc Hn H0 H1. pose proof (chain_length _ _ _ Hc) as Hlen. set (ns := rnodes (fs s)) in *.
  apply (wp_loop (λ n '(p, f') s', s' = s ∧ ∃ l1 l2, l = l1 ++ l2 ∧ p = last l1 ∧ chain ns f' l2 ∧ n = length l2 ∧
    entry ns l2 want = entry ns l want) _ _ (length l)); [lia|split; [done|]; by exists [], l|].
  intros n [p f'] s' (-> & l1 & l2 & Hl & -> & Hc2 & -> & He). unfold entry_round. destruct l2 as [|a l2]; simpl in Hc2.
  { subst f'. apply wp_ret. apply H0. by rewrite <-He. }
  destruct Hc2 as (-> & Ha0 & k & Hk & Hc2). rewrite (proj2 (Z.eqb_neq _ _) Ha0).
  destruct (Hn a) as [nm Hnm]; [set_solver|]. unfold sib in Hk. destruct (ns !! a) as [x|] eqn:Hx; [|done]. simpl in Hk. simplify_eq.
  apply wp_bind. eapply wp_nd_load; [exact Hx|]. rewrite entry_cons, Hnm in He. unfold nm_of in Hnm. rewrite Hx in Hnm. simpl in Hnm.
  rewrite Hnm. apply wp_bind, wp_ret. destruct (decide (nm = want)) as [->|Hne].
  - rewrite bool_decide_eq_true_2 by done. apply wp_ret. rewrite decide_True in He by done. by apply (H1 l1 a l2).
  - rewrite bool_decide_eq_false_2 by done. apply wp_ret. rewrite decide_False in He by congruence.
    exists (length l2). split; [simpl; lia|]. split; [done|]. exists (l1 ++ [a]), l2. rewrite <-app_assoc, last_snoc. done.
Qed.

(** The link that leads to [c] skips it. *)
Definition unlink ns (d : Z) (prev : option Z) (n : Z) : gmap Z ramfs_node_t :=
  match prev with None => alter (set_child n) d ns | Some p => alter (set_sibling n) p ns end.
Lemma unlink_chain ns d x l1 c l2 y :
  ns !! d = Some x → chain ns (child x) (l1 ++ c :: l2) → ns !! c = Some y →
  let ns' := unlink ns d (last l1) (sibling y) in
  info_of <$> ns' = info_of <$> ns ∧ (∀ a, a ≠ d → kid ns' a = kid ns a) ∧ (∀ a, a ∉ l1 → sib ns' a = sib ns a) ∧
  ∃ f, kid ns' d = Some f ∧ chain ns' f (l1 ++ l2).
Proof.
  intros Hx Hc Hy. assert (∀ v a, info_of <$> alter (set_child v) a ns = info_of <$> ns ∧ info_of <$> alter (set_sibling v) a ns = info_of <$> ns) as Hi.
  { intros v a. split; apply map_eq; intros b; rewrite !lookup_fmap; (destruct (decide (b = a)) as [->|];
      [rewrite lookup_alter_eq; by destruct (ns !! a)|by rewrite lookup_alter_ne by done]). }
  destruct (decide (l1 = [])) as [->|Hl1]; simpl in *.
  - destruct Hc as (Hcx & Hc0 & n & Hn & Hc). unfold sib in Hn. rewrite Hy in Hn. simpl in Hn. injection Hn as <-.
    split_and!; [apply Hi| | |].
    + intros a Ha. unfold kid. by rewrite lookup_alter_ne.
    + intros a _. unfold sib. destruct (decide (a = d)) as [->|]; [rewrite lookup_alter_eq, Hx|rewrite lookup_alter_ne]; done.
    + exists (sibling y). unfold kid. rewrite lookup_alter_eq, Hx. split; [done|]. eapply sib_chain_frame; [done|].
      intros a _. unfold sib. destruct (decide (a = d)) as [->|]; [rewrite lookup_alter_eq, Hx|rewrite lookup_alter_ne]; done.
  - destruct (exists_last Hl1) as (l0 & a & ->). rewrite last_snoc. simpl.
    destruct (chain_elem _ _ _ a Hc) as (_ & z & Hz); [set_solver|]. pose proof (chain_nodup _ _ _ Hc) as Hnd.
    split_and!; [apply Hi| | |].
    + intros b _. unfold kid. destruct (decide (b = a)) as [->|]; [rewrite lookup_alter_eq, Hz|rewrite lookup_alter_ne]; done.
    + intros b Hb. unfold sib. rewrite lookup_alter_ne by set_solver. done.
    + exists (child x). split.
      { unfold kid. destruct (decide (a = d)) as [->|]; [rewrite lookup_alter_eq, Hx|rewrite lookup_alter_ne, Hx]; done. }
      rewrite <-app_assoc in *. simpl in *. eapply (chain_unlink ns _ l0 a c l2 _ (sibling y)); [done| | |].
      * intros b Hb. unfold sib. rewrite lookup_alter_ne; [done|]. intros ->.
        apply NoDup_app in Hnd as (_ & H12 & [Ha2 _]%NoDup_cons). apply elem_of_app in Hb as [Hb|Hb]; [by apply (H12 b); [|left]|].
        apply Ha2. by right.
      * unfold sib. by rewrite Hy.
      * unfold sib. by rewrite lookup_alter_eq, Hz.
Qed.

(** The map of the tree without entry [c]. *)
Lemma rep_remove s s3 T d m nm c kids l1 l2 ns' :
  tree_wf (rnodes (fs s)) kids → kids !! d = Some (l1 ++ c :: l2) → T = dir_map (rnodes (fs s)) <$> kids →
  m = dir_map (rnodes (fs s)) (l1 ++ c :: l2) → kids !! c = Some [] → nm_of (rnodes (fs s)) c = Some nm →
  info_of <$> ns' = info s → (∀ a, a ≠ d → kid ns' a = kid (rnodes (fs s)) a) → (∀ a, a ∉ l1 → sib ns' a = sib (rnodes (fs s)) a) →
  (∃ f, kid ns' d = Some f ∧ chain ns' f (l1 ++ l2)) → rnodes (fs s3) = delete c ns' →
  ramfs_rep s3 (delete c (<[d := delete nm m]> T)) ∧ info s3 = delete c (info s).
Proof.
  intros W Hd -> -> Hkc Hnm Hinfo Hkid Hsib (f & Hf & Hch) Hs3. set (ns := rnodes (fs s)) in *.
  assert (c ≠ d) as Hcd by (intros ->; rewrite Hkc in Hd; by destruct l1).
  destruct (proj1 (tw_dom _ _ W d)) as [x Hx]; [by eexists|].
  assert (NoDup (l1 ++ c :: l2)) as Hnd by (eapply chain_nodup, (tw_chain _ _ W d); [done|unfold kid; by rewrite Hx]).
  assert (c ∉ l1 ++ l2) as Hcl.
  { apply NoDup_app in Hnd as (_ & H12 & [Hc2 _]%NoDup_cons). intros [Hb|Hb]%elem_of_app; [by apply (H12 c); [|left]|done]. }
  assert (∀ a, a ≠ c → same_node ns (rnodes (fs s3)) a) as Hsame.
  { intros a Ha. destruct (info_same ns ns' a Hinfo) as [H1 H2]. unfold same_node, nm_of, ty in *. rewrite Hs3, lookup_delete_ne by done. done. }
  assert (tree_wf (rnodes (fs s3)) (delete c (<[d := l1 ++ l2]> kids))) as W3.
  { eapply (tree_wf_remove ns); try done.
    - by rewrite Hs3, lookup_delete_eq.
    - intros a Ha Had. rewrite Hs3. unfold kid in *. rewrite lookup_delete_ne by done. by apply Hkid.
    - intros a Ha Hal. rewrite Hs3. unfold sib in *. rewrite lookup_delete_ne by done. by apply Hsib.
    - intros g Hg. assert (g = f) as ->.
      { rewrite Hs3 in Hg. unfold kid in *. rewrite lookup_delete_ne, Hf in Hg by done. congruence. }
      rewrite Hs3. eapply sib_chain_frame; [done|]. intros b Hb. unfold sib. rewrite lookup_delete_ne; [done|]. by intros ->. }
  split.
  - eexists. split; [exact W3|]. apply map_eq. intros a. rewrite !lookup_fmap. destruct (decide (a = c)) as [->|Hac].
    { by rewrite !lookup_delete_eq. }
    rewrite !(lookup_delete_ne _ c) by done. destruct (decide (a = d)) as [->|Had].
    + rewrite !lookup_insert_eq. simpl. f_equal. rewrite <-(dir_map_remove _ _ _ _ nm); [|intros e He Hen|done].
      * symmetry. apply dir_map_ext. intros b Hb. apply Hsame. by intros ->.
      * apply Hcl. replace c with e; [done|]. eapply (tw_unique _ _ W); [exact Hd|set_solver|set_solver|congruence].
    + rewrite !lookup_insert_ne, lookup_fmap by done. destruct (kids !! a) as [la|] eqn:Ha; [|done]. simpl. f_equal. symmetry.
      apply dir_map_ext. intros b Hb. apply Hsame. intros ->. apply Had. eapply (tw_parent _ _ W); [exact Ha|exact Hd|done|set_solver].
  - unfold info. rewrite Hs3, fmap_delete. f_equal. exact Hinfo.
Qed.

(** ** The directory of a vnode *)

Definition dir_vnode s (parent : Z) (x : vnode_t) (d : Z) : Prop :=
  parent ≠ 0 ∧ vnodes s !! parent = Some x ∧ node_data x = d ∧ d ≠ 0 ∧ is_Some (rnodes (fs s) !! d) ∧
  ∃ v, vfss s !! root_vfs x = Some v ∧ vfs_data v ≠ 0.

Lemma wp_node_of ramfs s x (Q : Z → state → Prop) : node_data x ≠ 0 → Q (node_data x) s → wp (node_of ramfs x) Q s.
Proof. intros H HQ. unfold node_of. rewrite (proj2 (Z.eqb_neq _ _) H). by apply wp_ret. Qed.
Lemma is_dir_node s d x : rnodes (fs s) !! d = Some x → is_dir s d ↔ type x = RAMFS_DIRECTORY.
Proof. intros H. unfold is_dir. rewrite info_lookup, H. simpl. split; [by intros [= ->]|by intros ->]. Qed.
Lemma wp_ramfs_of s x v (Q : Z → state → Prop) : vfss s !! root_vfs x = Some v → Q (vfs_data v) s → wp (ramfs_of x) Q s.
Proof. intros H HQ. unfold ramfs_of. apply wp_bind. eapply wp_fs_load; [done|]. by apply wp_ret. Qed.
Lemma wp_dir_of s parent x d (Q : Z * Z → state → Prop) :
  dir_vnode s parent x d → Q (if decide (is_dir s d) then (EOK, d) else (ENOTDIR, 0)) s → wp (dir_of parent) Q s.
Proof.
  intros (H0 & Hx & Hd & Hd0 & [n Hn] & v & Hv & Hv0) HQ. unfold dir_of. rewrite (proj2 (Z.eqb_neq _ _) H0).
  apply wp_bind. eapply wp_vn_load; [done|]. apply wp_bind. eapply wp_ramfs_of; [done|]. rewrite (proj2 (Z.eqb_neq _ _) Hv0).
  apply wp_bind, wp_node_of; [congruence|]. rewrite Hd, (proj2 (Z.eqb_neq _ _) Hd0). apply wp_bind. eapply wp_nd_load; [done|].
  rewrite (bool_decide_ext _ (is_dir s d)) by (by rewrite is_dir_node). case_decide as Hdir.
  - rewrite bool_decide_eq_true_2 by done. by apply wp_ret.
  - rewrite bool_decide_eq_false_2 by done. by apply wp_ret.
Qed.
Lemma wp_is_new s T d x m nm (Q : bool → state → Prop) :
  ramfs_rep s T → rnodes (fs s) !! d = Some x → T !! d = Some m → Q (bool_decide (m !! nm = None)) s → wp (is_new d nm) Q s.
Proof.
  intros HT Hx Hm HQ. unfold is_new. apply wp_bind. eapply wp_nd_load; [done|]. apply wp_bind. eapply wp_find_child; [done|done|done| |].
  - intros Hn. apply wp_ret. by rewrite bool_decide_eq_true_2 in HQ.
  - intros c Hc0 Hc _. apply wp_ret. rewrite (proj2 (Z.eqb_neq _ _) Hc0). rewrite bool_decide_eq_false_2 in HQ by congruence. done.
Qed.

(** ** Vnodes of entries *)

(** The path of [nm] in the directory at [p]. *)
Definition join (p nm : string) : string :=
  match str_drop (String.length p - 1) p with
  | Some (String c _) => if Ascii.eqb c slash then p +:+ nm else p +:+ "/" +:+ nm
  | _ => ""
  end%string.
Lemma str_last p : p ≠ "" → ∃ c, str_drop (String.length p - 1) p = Some (String c "").
Proof.
  induction p as [|c p IH]; intros H; [done|]. destruct p as [|c' p]; [by exists c|].
  destruct IH as [e He]; [done|]. exists e. rewrite <-He. simpl. by rewrite Nat.sub_0_r.
Qed.
Lemma join_nonempty p nm : p ≠ "" → join p nm ≠ "".
Proof. intros H. unfold join. destruct (str_last p H) as [c ->]. by destruct (Ascii.eqb c slash), p. Qed.

(** A new vnode for node [n], an entry of the directory of [parent] at [p]. *)
Definition entry_vnode (parent : vnode_t) (p nm : string) (t : vnode_type_t) (n m : Z) : vnode_t :=
  mkVnode (Some (join p nm)) t n 0 0 m (ops parent) 0 (root_vfs parent) 1 SPINLOCK_INIT.
(** Four answers of the heap: the path, the vnode, its path and its operations. *)
Definition vnode_allocs (al : list Z) (v : Z) (r : list Z) : Prop :=
  ∃ a b c, al = a :: v :: b :: c :: r ∧ a ≠ 0 ∧ v ≠ 0 ∧ b ≠ 0 ∧ c ≠ 0.

Lemma wp_make_vnode s parent p nm t n m v r (Q : Z → state → Prop) :
  path parent = Some p → p ≠ "" → is_Some (ops parent) → vnode_allocs (allocs s) v r →
  Q v (put_vnodes (<[v := entry_vnode parent p nm t n m]> (vnodes s)) (put_allocs r s)) →
  wp (make_vnode parent nm t n m) Q s.
Proof.
  intros Hp Hne [o Ho] (a & b & c & Hal & Ha & Hv & Hb & Hc) HQ. unfold make_vnode. rewrite Hp, Ho. apply wp_bind, wp_ret.
  apply wp_bind. unfold child_path. apply wp_bind. eapply wp_vfs_kalloc; [done|]. rewrite (proj2 (Z.eqb_neq _ _) Ha).
  unfold entry_vnode, join in HQ. destruct (str_last p Hne) as [e He]. rewrite He in HQ |- *. apply wp_ret.
  apply wp_bind. unfold vnode_create. apply wp_bind. eapply wp_vfs_kalloc; [done|]. rewrite (proj2 (Z.eqb_neq _ _) Hv).
  apply wp_bind. eapply wp_strdup; [done|done|]. apply wp_bind. eapply wp_vfs_kalloc; [done|]. rewrite (proj2 (Z.eqb_neq _ _) Hc).
  apply wp_bind, wp_modify, wp_ret. apply wp_bind. eapply wp_vn_store; [apply lookup_insert_eq|].
  apply wp_bind. eapply wp_vn_store; [apply lookup_insert_eq|]. apply wp_ret. simpl. rewrite !insert_insert_eq.
  rewrite Ho in HQ. exact HQ.
Qed.

(** What a vnode on a RAM file system has. *)
Definition ramfs_vnode s (parent : Z) (x : vnode_t) (p : string) (d : Z) : Prop :=
  dir_vnode s parent x d ∧ path x = Some p ∧ p ≠ "" ∧ ops x = Some RAMFS_TABLE.

Lemma wp_ramfs_lookup s T parent x p d m nm v r :
  ramfs_rep s T → ramfs_vnode s parent x p d → T !! d = Some m → vnode_allocs (allocs s) v r →
  wp (ramfs_lookup parent nm) (λ '(ret, vn) s',
    if decide (is_dir s d) then
      match m !! nm with
      | Some c => ∃ i, info s !! c = Some i ∧ ret = EOK ∧ vn = v ∧
          s' = put_vnodes (<[v := entry_vnode x p nm (vtype_of (i_type i)) c (i_mode i)]> (vnodes s)) (put_allocs r s)
      | None => ret = ENOENT ∧ vn = 0 ∧ s' = s
      end
    else ret = ENOTDIR ∧ vn = 0 ∧ s' = s) s.
Proof.
  intros HT ((H0 & Hx & Hd & Hd0 & [y Hy] & w & Hw & Hw0) & Hp & Hpne & Hops) Hm Hal. unfold ramfs_lookup.
  rewrite (proj2 (Z.eqb_neq _ _) H0). apply wp_bind. eapply wp_vn_load; [done|]. apply wp_bind. eapply wp_ramfs_of; [done|].
  rewrite (proj2 (Z.eqb_neq _ _) Hw0). rewrite Hd, (proj2 (Z.eqb_neq _ _) Hd0). apply wp_bind, wp_ret.
  rewrite (proj2 (Z.eqb_neq _ _) Hd0). apply wp_bind. eapply wp_nd_load; [done|].
  rewrite (bool_decide_ext _ (is_dir s d)) by (by rewrite is_dir_node). case_decide as Hdir.
  - rewrite bool_decide_eq_true_2 by done. simpl. apply wp_bind. eapply wp_find_child; [done|done|done| |].
    + intros ->. by apply wp_ret.
    + intros c Hc0 Hc [z Hz]. rewrite Hc, (proj2 (Z.eqb_neq _ _) Hc0). apply wp_bind. eapply wp_nd_load; [done|].
      apply wp_bind. eapply wp_make_vnode; [done|done|by rewrite Hops|done|]. apply wp_ret.
      exists (info_of z). by rewrite info_lookup, Hz.
  - rewrite bool_decide_eq_false_2 by done. by apply wp_ret.
Qed.

(** ** Removing *)

Lemma dir_map_empty ns l : (∀ c, c ∈ l → is_Some (nm_of ns c)) → dir_map ns l = ∅ → l = [].
Proof.
  destruct l as [|c l]; [done|]. intros H He. destruct (H c) as [nm Hn]; [set_solver|]. cbn [dir_map foldr] in He. rewrite Hn in He.
  by apply insert_non_empty in He.
Qed.
(** A node without a child has no entries, and neither has what is no directory. *)
Lemma rep_no_child s T c y : ramfs_rep s T → rnodes (fs s) !! c = Some y → child y = 0 → T !! c = Some ∅.
Proof.
  intros (kids & W & ->) Hy H0. destruct (tree_kids _ _ _ _ W Hy) as (l & Hl & Hc). rewrite lookup_fmap, Hl. simpl.
  destruct l as [|a l]; [done|]. destruct Hc as (Ha & Hb & _). congruence.
Qed.
Lemma rep_leaf s T c y : ramfs_rep s T → rnodes (fs s) !! c = Some y → type y ≠ RAMFS_DIRECTORY → T !! c = Some ∅.
Proof.
  intros (kids & W & ->) Hy Ht. rewrite lookup_fmap, (tw_leaf _ _ W c (type y)); [done| |done]. unfold ty. by rewrite Hy.
Qed.
Lemma rep_no_child_inv s T c y : ramfs_rep s T → rnodes (fs s) !! c = Some y → T !! c = Some ∅ → child y = 0.
Proof.
  intros (kids & W & ->) Hy. destruct (tree_kids _ _ _ _ W Hy) as (l & Hl & Hc). rewrite lookup_fmap, Hl. simpl.
  intros H. apply (inj Some) in H. apply dir_map_empty in H as ->; [done|]. intros e He. by eapply (tw_names _ _ W).
Qed.

Lemma wp_unlink s d x prev n (Q : unit → state → Prop) :
  rnodes (fs s) !! d = Some x → (∀ p, prev = Some p → is_Some (rnodes (fs s) !! p)) →
  Q tt (with_nodes (unlink (rnodes (fs s)) d prev n) s) →
  wp (match prev with None => nd_store d (set_child n) | Some p => nd_store p (set_sibling n) end) Q s.
Proof.
  intros Hx Hp HQ. unfold unlink in HQ. destruct prev as [p|].
  - destruct (Hp p eq_refl) as [y Hy]. eapply wp_nd_store; [done|]. replace (<[p := set_sibling n y]> (rnodes (fs s))) with (alter (set_sibling n) p (rnodes (fs s))); [done|].
    apply map_eq. intros a. destruct (decide (a = p)) as [->|]; [rewrite lookup_alter_eq, lookup_insert_eq, Hy|rewrite lookup_alter_ne, lookup_insert_ne]; done.
  - eapply wp_nd_store; [done|]. replace (<[d := set_child n x]> (rnodes (fs s))) with (alter (set_child n) d (rnodes (fs s))); [done|].
    apply map_eq. intros a. destruct (decide (a = d)) as [->|]; [rewrite lookup_alter_eq, lookup_insert_eq, Hx|rewrite lookup_alter_ne, lookup_insert_ne]; done.
Qed.

Lemma wp_remove_entry s T parent x d m nm check fd :
  ramfs_rep s T → dir_vnode s parent x d → T !! d = Some m →
  (∀ c y, rnodes (fs s) !! c = Some y → check y = EOK → T !! c = Some ∅) →
  wp (remove_entry parent nm check fd) (λ ret s',
    if decide (is_dir s d) then
      match m !! nm with
      | None => ret = ENOENT ∧ s' = s
      | Some c => ∃ y, rnodes (fs s) !! c = Some y ∧
          if check y =? EOK then
            ret = EOK ∧ ramfs_rep s' (delete c (<[d := delete nm m]> T)) ∧ info s' = delete c (info s) ∧ vnodes s' = vnodes s ∧
            blocks (fs s') = if fd && negb (data y =? 0) then delete (data y) (blocks (fs s)) else blocks (fs s)
          else ret = check y ∧ s' = s
      end
    else ret = ENOTDIR ∧ s' = s) s.
Proof.
  intros HT Hv Hm Hcheck. unfold remove_entry. apply wp_bind. eapply wp_dir_of; [done|].
  case_decide as Hdir; [|by apply wp_ret]. destruct Hv as (_ & _ & _ & _ & [z Hz] & _). simpl.
  apply wp_bind. eapply wp_nd_load; [done|]. apply wp_bind, wp_gets, wp_bind.
  destruct HT as (kids & W & HT). destruct (tree_kids _ _ _ _ W Hz) as (l & Hl & Hch).
  assert (m = dir_map (rnodes (fs s)) l) as Hml by (rewrite HT, lookup_fmap, Hl in Hm; by injection Hm).
  pose proof (dir_map_entry _ _ _ nm Hch) as He. rewrite <-Hml in He.
  eapply wp_entry_loop; [done|intros c Hc; by eapply (tw_names _ _ W)| |].
  - intros E p. rewrite E in He. rewrite He. by apply wp_ret.
  - intros l1 c l2 -> Hc0 Hce. rewrite <-Hce, (proj2 (Z.eqb_neq _ _) Hc0) in He. rewrite He, (proj2 (Z.eqb_neq _ _) Hc0).
    destruct (chain_elem _ _ _ c Hch) as (_ & y & Hy); [set_solver|]. apply wp_bind. eapply wp_nd_load; [done|].
    destruct (Z.eqb_spec (check y) EOK) as [Hok|Hok]; simpl.
    2:{ apply wp_ret. exists y. split; [done|]. by rewrite (proj2 (Z.eqb_neq _ _) Hok). }
    destruct (unlink_chain _ _ _ _ _ _ _ Hz Hch Hy) as (Hi & Hk & Hs & Hf).
    apply wp_bind. eapply wp_unlink; [done| |].
    { intros p (l0 & ->)%last_Some. destruct (chain_elem _ _ _ p Hch) as (_ & q & ->); [set_solver|by eexists]. }
    set (s2 := with_nodes _ s). apply wp_bind.
    assert (kids !! c = Some []) as Hkc.
    { pose proof (Hcheck c y Hy Hok) as Hemp. rewrite HT, lookup_fmap in Hemp. destruct (kids !! c) as [lc|] eqn:Hlc; [|done].
      apply (inj Some), dir_map_empty in Hemp as ->; [done|]. intros e He'. by eapply (tw_names _ _ W). }
    assert (nm_of (rnodes (fs s)) c = Some nm) as Hnm.
    { rewrite Hce. apply entry_elem. by rewrite <-Hce. }
    apply wp_when; intros Hfd; [apply wp_modify|]; apply wp_bind, wp_modify, wp_ret; exists y; (split; [done|]);
      destruct (rep_remove s (with_nodes (delete c (unlink (rnodes (fs s)) d (last l1) (sibling y))) s2) T d m nm c kids l1 l2 _ W Hl HT Hml Hkc Hnm Hi Hk Hs Hf eq_refl) as [HR HI];
      rewrite Hok; simpl; rewrite Hfd; done.
Qed.

(** ** Bytes of strings *)

Definition no_nul (t : string) : Prop := Forall (λ c, nat_of_ascii c ≠ 0%nat) (String.list_ascii_of_string t).
#[global] Instance no_nul_dec t : Decision (no_nul t).
Proof. unfold no_nul. apply _. Defined.
Lemma c_string_bytes t b : no_nul t → c_string (bytes_of t ++ 0 :: b) = t.
Proof.
  unfold no_nul, bytes_of. induction t as [|c t IH]; intros H; [done|]. cbn [String.list_ascii_of_string] in *.
  apply Forall_cons in H as [Hc H]. cbn. rewrite (proj2 (Z.eqb_neq _ _)) by lia. rewrite Nat2Z.id, ascii_nat_embedding. f_equal. by apply IH.
Qed.

(** ** Contents of files *)

(** File [vn] is node [n] and holds the bytes [b]. *)
Definition file_at s (vn n : Z) (b : list Z) : Prop :=
  vn ≠ 0 ∧ n ≠ 0 ∧ ∃ x y, vnodes s !! vn = Some x ∧ node_data x = n ∧ rnodes (fs s) !! n = Some y ∧ rsize y = Z.of_nat (length b) ∧
  if data y =? 0 then b = [] else blocks (fs s) !! data y = Some b.

Lemma length_splice off d b : (off + length d ≤ length b)%nat → length (splice off d b) = length b.
Proof. intros H. unfold splice. rewrite !length_app, length_take, length_drop. lia. Qed.
Lemma read_splice off d b : (off + length d ≤ length b)%nat → take (length d) (drop off (splice off d b)) = d.
Proof.
  intros H. unfold splice. rewrite drop_app_length' by (rewrite length_take; lia). by rewrite take_app_length.
Qed.

Section junk.
Context (junk : Z → Z).
(** The block that [krealloc] gives, at address [a]. *)
Definition realloced (a : Z) (b : list Z) (size : nat) : list Z :=
  take 65535 b ++ ((λ i, junk (a + Z.of_nat i)) <$> seq (length (take 65535 b)) (size - length (take 65535 b))).
(** What a file holds after the write: a block from the heap when it grows. *)
Definition written (a : Z) (b d : list Z) (off : nat) : list Z :=
  splice off d (if decide (off + length d ≤ length b)%nat then b else realloced a b (off + length d)).

Lemma length_realloced a b size : (length b ≤ size)%nat → length (realloced a b size) = size.
Proof. intros H. unfold realloced. rewrite length_app, length_fmap, length_seq, length_take. lia. Qed.
Lemma length_written a b d off : length (written a b d off) = Nat.max (length b) (off + length d).
Proof.
  unfold written. case_decide; rewrite length_splice; [lia|done|rewrite length_realloced; lia|rewrite length_realloced; lia].
Qed.
(** A small file written without leaving a gap. *)
Lemma written_small a b d off : (length b ≤ 65535)%nat → (off ≤ length b)%nat → written a b d off = splice off d b.
Proof.
  intros Hb Hoff. unfold written. case_decide; [done|]. unfold realloced, splice. rewrite (take_ge b 65535) by lia.
  rewrite take_app_le by lia. rewrite (drop_ge b) by lia. rewrite drop_ge; [done|]. rewrite length_app, length_fmap, length_seq. lia.
Qed.
Lemma read_written a b d off : take (length d) (drop off (written a b d off)) = d.
Proof. unfold written. case_decide; [by apply read_splice|]. apply read_splice. rewrite length_realloced; lia. Qed.

Lemma take_recorded (b : list Z) : take (Nat.min (length b) 65535) b = take 65535 b.
Proof. rewrite <-take_take. apply take_ge. rewrite length_take. lia. Qed.
Lemma wp_block_write s a off d b (Q : unit → state → Prop) :
  (d ≠ [] → blocks (fs s) !! a = Some b ∧ (off + length d ≤ length b)%nat) →
  Q tt (if decide (d = []) then s else put_fs (put_blocks (<[a := splice off d b]> (blocks (fs s))) (fs s)) s) →
  wp (block_write a (Z.of_nat off) d) Q s.
Proof.
  intros H HQ. unfold wp, block_write. case_decide as Hd; [by rewrite bool_decide_eq_true_2|].
  rewrite bool_decide_eq_false_2 by done. destruct (H Hd) as [-> Hlen]. rewrite (proj2 (Z.leb_le 0 _)) by lia.
  rewrite (proj2 (Z.leb_le _ _)) by lia. simpl. by rewrite Nat2Z.id.
Qed.
Lemma wp_block_read s a off k b (Q : list Z → state → Prop) :
  blocks (fs s) !! a = Some b → (off + k ≤ length b)%nat → Q (take k (drop off b)) s → wp (block_read a (Z.of_nat off) (Z.of_nat k)) Q s.
Proof.
  intros Hb Hlen HQ. unfold wp, block_read. destruct (Z.eqb_spec (Z.of_nat k) 0) as [E|E].
  - replace k with 0%nat in HQ by lia. by rewrite take_0 in HQ.
  - rewrite Hb, (proj2 (Z.leb_le 0 _)), (proj2 (Z.leb_le _ _)) by lia. simpl. by rewrite !Nat2Z.id.
Qed.

Lemma wp_ramfs_write s vn n b d off a r :
  file_at s vn n b → d ≠ [] → Z.of_nat off + Z.of_nat (length d) < 2 ^ 64 → Z.of_nat (length b) < 2 ^ 64 →
  allocs s = a :: r → a ≠ 0 → blocks (fs s) !! a = None →
  wp (ramfs_write junk vn d (Z.of_nat (length d)) (Z.of_nat off)) (λ ret s',
    ret = (EOK, Z.of_nat (length d)) ∧ file_at s' vn n (written a b d off) ∧ vnodes s' = vnodes s ∧
    (∀ c, c ≠ n → rnodes (fs s') !! c = rnodes (fs s) !! c) ∧
    (∀ c y, rnodes (fs s) !! n = Some y → c ≠ data y → c ≠ a → blocks (fs s') !! c = blocks (fs s) !! c) ∧
    (∀ c, kid (rnodes (fs s')) c = kid (rnodes (fs s)) c ∧ sib (rnodes (fs s')) c = sib (rnodes (fs s)) c) ∧ files s' = files s) s.
Proof.
  intros (Hv0 & Hn0 & x & y & Hx & Hxn & Hy & Hsz & Hblk) Hd Hfit Hbfit Hal Ha Hfree. unfold ramfs_write.
  rewrite (proj2 (Z.eqb_neq _ _) Hv0). apply wp_bind. eapply wp_vn_load; [done|]. rewrite Hxn, (proj2 (Z.eqb_neq _ _) Hn0).
  apply wp_bind. eapply wp_nd_load; [done|]. rewrite (u64_id (_ + _)) by lia. rewrite take_ge by lia. apply wp_bind.
  assert (0 < length d)%nat by (destruct d; [done|simpl; lia]). unfold written. rewrite Hsz, Z.gtb_ltb.
  destruct (Z.ltb_spec (Z.of_nat (length b)) (Z.of_nat (length d) + Z.of_nat off)) as [Hg|Hg].
  - rewrite (u64_id (_ - _)), (u64_id (_ + _)) by lia. rewrite decide_False by lia.
    replace (Z.of_nat (length b) + (Z.of_nat (length d) + Z.of_nat off - Z.of_nat (length b))) with (Z.of_nat (off + length d)) by lia.
    apply wp_bind. unfold krealloc. apply wp_bind, wp_gets.
    replace (if data y =? 0 then Some [] else blocks (fs s) !! data y) with (Some b) by (destruct (data y =? 0); by subst).
    apply wp_bind. eapply wp_vfs_kalloc; [done|]. rewrite (proj2 (Z.eqb_neq _ _) Ha).
    rewrite take_recorded, Nat2Z.id. fold (realloced a b (off + length d)).
    apply wp_bind, wp_modify. apply wp_bind, wp_modify, wp_ret. eapply wp_nd_store; [done|].
    apply wp_bind. eapply wp_nd_load; [apply lookup_insert_eq|]. simpl.
    apply wp_bind. eapply (wp_block_write _ _ _ _ (realloced a b (off + length d))).
    { intros _. split; [apply lookup_insert_eq|]. rewrite length_realloced; lia. }
    rewrite decide_False by done. simpl. apply wp_ret. split_and!; [done| |done| | | |done].
    + split_and!; [done|done|]. exists x. eexists. split_and!; [done|done|apply lookup_insert_eq| |].
      * simpl. rewrite length_splice; rewrite length_realloced by lia; [|lia]. rewrite Hsz, u64_id by lia. lia.
      * simpl. rewrite (proj2 (Z.eqb_neq _ _) Ha). by rewrite lookup_insert_eq.
    + intros c Hc. simpl. by rewrite lookup_insert_ne.
    + intros c y' Hy' Hc Hca. simplify_eq. simpl. by rewrite !lookup_insert_ne, lookup_delete_ne.
    + intros c. simpl. unfold kid, sib. destruct (decide (c = n)) as [->|]; [rewrite lookup_insert_eq, Hy|rewrite lookup_insert_ne]; done.
  - rewrite decide_True by lia. apply wp_ret. apply wp_bind. eapply wp_nd_load; [done|].
    assert (data y ≠ 0) as Hdy. { intros E. rewrite E in Hblk. simpl in Hblk. subst b. simpl in Hg. lia. }
    rewrite (proj2 (Z.eqb_neq _ _) Hdy) in Hblk. apply wp_bind. eapply wp_block_write; [intros _; split; [done|lia]|].
    rewrite decide_False by done. apply wp_ret. split_and!; [done| |done|done| |done|done].
    + split_and!; [done|done|]. exists x, y. split_and!; [done|done|done| |].
      * rewrite length_splice by lia. done.
      * rewrite (proj2 (Z.eqb_neq _ _) Hdy). simpl. by rewrite lookup_insert_eq.
    + intros c y' Hy' Hc _. simplify_eq. simpl. by rewrite lookup_insert_ne.
Qed.
End junk.

Lemma wp_ramfs_read s vn n b off bytes :
  file_at s vn n b → Z.of_nat (length b) < 2 ^ 63 → Z.of_nat bytes < 2 ^ 64 → (off ≤ length b)%nat →
  wp (ramfs_read vn (Z.of_nat bytes) (Z.of_nat off)) (λ '(ret, k, out) s', s' = s ∧
    if decide (bytes ≤ length b ∧ off = length b)%nat then ret = - EINVAL ∧ k = Z.of_nat bytes ∧ out = replicate bytes 0
    else let got := Nat.min bytes (length b - off) in
         ret = EOK ∧ k = Z.of_nat got ∧ out = take got (drop off b) ++ replicate (bytes - got) 0) s.
Proof.
  intros (Hv0 & Hn0 & x & y & Hx & Hxn & Hy & Hsz & Hblk) Hfit Hbytes Hoff. unfold ramfs_read.
  rewrite (proj2 (Z.eqb_neq _ _) Hv0). apply wp_bind. eapply wp_vn_load; [done|]. rewrite Hxn, (proj2 (Z.eqb_neq _ _) Hn0).
  apply wp_bind. eapply wp_nd_load; [done|]. set (got := Nat.min bytes (length b - off)).
  assert (read_bytes (rsize y) (Z.of_nat bytes) (Z.of_nat off) =
    if decide (bytes ≤ length b ∧ off = length b)%nat then None else Some (Z.of_nat got)) as ->.
  { unfold read_bytes. rewrite Hsz, !Z.gtb_ltb, Z.geb_leb. destruct (Z.ltb_spec (Z.of_nat (length b)) (Z.of_nat bytes)).
    - rewrite decide_False by lia. rewrite u64_id, u64_id by lia. destruct (Z.ltb_spec (Z.of_nat (length b)) (Z.of_nat (length b) + Z.of_nat off)); f_equal; lia.
    - destruct (Z.leb_spec (Z.of_nat (length b)) (Z.of_nat off)); [by rewrite decide_True by lia|]. rewrite decide_False by lia.
      rewrite u64_id, u64_id by lia. destruct (Z.ltb_spec (Z.of_nat (length b)) (Z.of_nat bytes + Z.of_nat off)); f_equal; lia. }
  rewrite Nat2Z.id. case_decide; [by apply wp_ret|]. apply wp_bind.
  assert (wp (block_read (data y) (Z.of_nat off) (Z.of_nat got)) (λ o s', o = take got (drop off b) ∧ s' = s) s) as Hrd.
  { destruct (Z.eqb_spec (data y) 0) as [E|E]; [|eapply wp_block_read; [done|lia|done]].
    subst b. simpl in *. replace got with 0%nat by lia. unfold wp, block_read. simpl. by destruct off. }
  eapply wp_mono; [exact Hrd|]. intros o s' [-> ->]. apply wp_ret. split_and!; [done..|]. unfold splice. rewrite take_0. simpl.
  by rewrite drop_replicate, length_take, length_drop, (Nat.min_l got) by lia.
Qed.
