(* ===== verification/VfsOps.v ===== *)
(** Looking paths up: the longest mounted prefix, and the walk through a RAM file
    system that is mounted at the root. The end of the file has a
    small one, of which what the theorems assume holds: the file [/a/f] of three
    bytes. *)
From Stdlib Require Import Ascii.
From S2P Require Import Prelude Errno Sync Vfs Kfile Ramfs VfsSpec RamfsSpec RamfsOps.

#[local] Arguments loop : simpl never.

Section any.
Context {D : Type} `{!VnodeOps D} (me : Z).
Implicit Types s : vfs_state D.

Lemma wp_lock_list s (Q : unit → vfs_state D → Prop) :
  vfs_list_lock s = unlocked → Q tt (put_list_lock (held me) s) → wp (lock_list me) Q s.
Proof. intros Hl HQ. apply wp_zoom. rewrite Hl. by apply wp_lock_acquire. Qed.
Lemma wp_unlock_list s (Q : unit → vfs_state D → Prop) :
  vfs_list_lock s = held me → Q tt (put_list_lock unlocked s) → wp (unlock_list me) Q s.
Proof. intros Hl HQ. apply wp_zoom. rewrite Hl. by apply wp_lock_release. Qed.

Lemma mounted_same s s' head l : vfss s' = vfss s → vnodes s' = vnodes s → mounted s head l → mounted s' head l.
Proof.
  intros H1 H2. revert head. induction l as [|[m p] l IH]; intros head; simpl; [done|]. rewrite H1, H2.
  intros (-> & H0 & x & r & ? & ? & ? & ? & Hl). split_and!; [done|done|]. exists x, r. split_and!; try done. by apply IH.
Qed.

(** The mount that [q] is resolved to, and the rest of [q]. *)
Definition resolves (q : string) (head : Z) (l : list (Z * string)) (m : Z) (rest : string) : Prop :=
  (∃ p, (m, p) ∈ l ∧ p ≠ "" ∧ under q p ∧ q = (p +:+ rest)%string ∧ ∀ m' p', (m', p') ∈ l → under q p' → strlen p' ≤ strlen p) ∨
  ((∀ m' p', (m', p') ∈ l → under q p' → p' = "") ∧ q = "/" ∧ head ≠ 0 ∧ m = head ∧ rest = "").

Lemma under_split q p : under q p → ∃ rest, q = (p +:+ rest)%string.
Proof.
  unfold under. case_decide as Hp; [intros [r ->]; exists r; by subst p|]. intros [->|[r ->]]; [exists ""; by rewrite app_empty|by eexists].
Qed.

Lemma wp_vfs_resolve_mount s q l a r (Q : Z * Z * (Z * string) → vfs_state D → Prop) :
  mounted s (vfs_list_head s) l → vfs_list_lock s = unlocked → allocs s = a :: r → a ≠ 0 →
  (∀ m rest, resolves q (vfs_list_head s) l m rest →
     Q (EOK, m, (a, skip_slashes rest)) (put_bufs ({[a]} ∪ bufs s) (put_allocs r s))) →
  ((∀ m' p', (m', p') ∈ l → under q p' → p' = "") → q ≠ "/" ∨ vfs_list_head s = 0 → Q (- ENOENT, 0, (0, "")) s) →
  wp (vfs_resolve_mount me q) Q s.
Proof.
  intros Hm Hlock Hal Ha HQ HN. unfold vfs_resolve_mount. apply wp_bind, wp_lock_list; [done|]. apply wp_bind, wp_gets.
  apply wp_bind, wp_gets. apply wp_bind. change (vfss s) with (vfss (put_list_lock (held me) s)).
  apply (wp_resolve_loop (put_list_lock (held me) s) q l); [by apply (mounted_same s)|].
  intros b n Hb. apply wp_bind, wp_unlock_list; [done|]. apply wp_bind, wp_gets. simpl.
  assert (put_list_lock unlocked (put_list_lock (held me) s) = s) as ->.
  { destruct s; simpl in *. by subst. }
  assert (∀ m' p', (m', p') ∈ l → under q p' → mount_matches q p' = true) as Hmm by (intros; by apply mount_matches_under).
  assert (∀ m rest, resolves q (vfs_list_head s) l m rest → wp (strdup_buf (skip_slashes rest) ≫= λ buf, mret (EOK, m, (buf, skip_slashes rest))) Q s) as Hgo.
  { intros m rest Hr. apply wp_bind. unfold strdup_buf. apply wp_bind. eapply wp_vfs_kalloc; [done|]. rewrite (proj2 (Z.eqb_neq _ _) Ha).
    apply wp_bind, wp_modify, wp_ret, wp_ret. by apply HQ. }
  destruct Hb as [(-> & -> & Hno)|(p & Hin & -> & Hpos & Hmp & Hmax)]; simpl.
  - destruct (decide (q = "/" ∧ vfs_list_head s ≠ 0)) as [[-> Hh]|Hn].
    + rewrite (proj2 (Z.eqb_neq _ _) Hh). simpl. apply (Hgo _ ""). right. split_and!; try done. intros m' p' Hin' Hu. eapply Hno; [done|by eapply Hmm].
    + assert (bool_decide (q = "/") && negb (vfs_list_head s =? 0) = false) as ->.
      { destruct (bool_decide_reflect (q = "/")), (Z.eqb_spec (vfs_list_head s) 0); try done. tauto. }
      apply wp_ret. apply HN; [intros m' p' Hin' Hu; eapply Hno; [done|by eapply Hmm]|].
      destruct (decide (q = "/")), (decide (vfs_list_head s = 0)); tauto.
  - destruct (mounted_elem _ _ _ _ _ Hm Hin) as (Hb0 & _). rewrite (proj2 (Z.eqb_neq _ _) Hb0).
    apply mount_matches_under in Hmp. destruct (under_split _ _ Hmp) as [rest ->].
    unfold strlen. rewrite Nat2Z.id, str_drop_app. apply Hgo. left. exists p. split_and!; try done.
    + intros ->. by vm_compute in Hpos.
    + intros m' p' Hin' Hu. by eapply Hmax, Hmm.
Qed.
End any.

(** * A RAM file system at the root *)

Local Abbreviation state := (vfs_state ramfs_data).
Implicit Types s : state.

(** What a lookup finds: the node, or the error. *)
Fixpoint resolve (I : gmap Z info_t) (T : tree) (d : Z) (dirs : list string) : Z + Z :=
  match dirs with
  | [] => inr d
  | nm :: rest =>
      if decide (i_type <$> I !! d = Some RAMFS_DIRECTORY) then
        match T !! d ≫= (.!! nm) with
        | None => inl ENOENT
        | Some c => resolve I T c rest
        end
      else inl (- ENOTDIR)
  end.

Definition no_links s : Prop := ∀ a i, info s !! a = Some i → i_type i ≠ RAMFS_SYMLINK.

(** The vnode [rv] of node [rn] is the root of the file system [m], the only one
    that is mounted. *)
Definition root_mount s (m rv : Z) (r : vnode_t) (rn : Z) : Prop :=
  ∃ v, vfs_list_head s = m ∧ m ≠ 0 ∧ vfss s !! m = Some v ∧ vfs_next v = 0 ∧ root_vnode v = rv ∧ vfs_data v ≠ 0 ∧
  vfs_list_lock s = unlocked ∧ rv ≠ 0 ∧ vnodes s !! rv = Some r ∧ r = mkVnode (Some "/") VNODE_DIR rn (uid r) (gid r) (mode r) (Some RAMFS_TABLE) 0 m (refcount r) unlocked ∧
  0 < refcount r < 2 ^ 32 - 1 ∧ rn ≠ 0 ∧ is_dir s rn.

(** The answers of the heap are new. *)
Definition heap_ok s (al : list Z) : Prop := NoDup al ∧ ∀ a, a ∈ al → a ≠ 0 ∧ vnodes s !! a = None ∧ a ∉ bufs s.

(** Only the vnodes, the heap and [strtok] differ. *)
Definition mask s : state := put_vnodes ∅ (put_tok_next None (put_allocs [] (put_bufs ∅ s))).
Definition scratch s0 s : Prop := mask s = mask s0.
Lemma scratch_fs s0 s : scratch s0 s → fs s = fs s0.
Proof. intros H. by apply (f_equal fs) in H. Qed.
Lemma scratch_vfss s0 s : scratch s0 s → vfss s = vfss s0.
Proof. intros H. by apply (f_equal vfss) in H. Qed.
Lemma scratch_info s0 s : scratch s0 s → info s = info s0.
Proof. intros H. unfold info. by rewrite (scratch_fs _ _ H). Qed.
Lemma scratch_dir s0 s d : scratch s0 s → is_dir s d ↔ is_dir s0 d.
Proof. intros H. unfold is_dir. by rewrite (scratch_info _ _ H). Qed.
Lemma scratch_rep s0 s T : scratch s0 s → ramfs_rep s0 T → ramfs_rep s T.
Proof. intros H. unfold ramfs_rep. by rewrite (scratch_fs _ _ H). Qed.

(** The vnodes after a reference to [a] is given back. *)
Definition released (V : gmap Z vnode_t) (a : Z) (x : vnode_t) : gmap Z vnode_t :=
  if refcount x =? 1 then delete a V else <[a := set_refcount (refcount x - 1) x]> V.
Lemma released_ne V a x b : b ≠ a → released V a x !! b = V !! b.
Proof. intros H. unfold released. destruct (refcount x =? 1); [by rewrite lookup_delete_ne|by rewrite lookup_insert_ne]. Qed.
Lemma released_insert V a x b y : b ≠ a → released (<[b := y]> V) a x = <[b := y]> (released V a x).
Proof. intros H. unfold released. destruct (refcount x =? 1); [by rewrite delete_insert_ne|by rewrite insert_insert_ne]. Qed.

(** A vnode for node [d] at path [p], referred to once more than in [s0]. *)
Record vnode_at s0 (V : gmap Z vnode_t) (m cur : Z) (x : vnode_t) (p : string) (d : Z) : Prop := {
  va_nz : cur ≠ 0;
  va_get : V !! cur = Some x;
  va_path : path x = Some p;
  va_nonempty : p ≠ "";
  va_type : vtype_of <$> (i_type <$> info s0 !! d) = Some (vtype x);
  va_ops : ops x = Some RAMFS_TABLE;
  va_here : vfs_here x = 0;
  va_root : root_vfs x = m;
  va_node : node_data x = d;
  va_node_nz : d ≠ 0;
  va_lock : vnode_lock x = unlocked;
  va_ref : 0 < refcount x < 2 ^ 32;
  va_back : released V cur x = vnodes s0;
}.

Lemma rep_nz s T d m nm c : ramfs_rep s T → T !! d = Some m → m !! nm = Some c → c ≠ 0 ∧ is_Some (info s !! c).
Proof.
  intros (kids & W & ->) Hm Hc. rewrite lookup_fmap in Hm. destruct (kids !! d) as [l|] eqn:Hl; [|done]. injection Hm as <-.
  destruct (proj1 (tw_dom _ _ W d)) as [x Hx]; [by eexists|].
  assert (chain (rnodes (fs s)) (child x) l) as Hch by (eapply tw_chain; [done|done|unfold kid; by rewrite Hx]).
  rewrite (dir_map_entry _ _ _ _ Hch) in Hc. destruct (Z.eqb_spec (entry (rnodes (fs s)) l nm) 0) as [|E]; [done|]. injection Hc as <-.
  destruct (entry_elem _ _ _ E) as [Hin _]. destruct (chain_elem _ _ _ _ Hch Hin) as (_ & y & Hy). split; [done|].
  rewrite info_lookup, Hy. by eexists.
Qed.

Section ramfs.
Context (me : Z) (junk : Z → Z) (ramfs_fstype : Z).
#[local] Existing Instance ramfs_ops.
Let fs_ops : VnodeOps ramfs_data := ramfs_ops junk ramfs_fstype.
#[local] Existing Instance fs_ops | 0.

Lemma wp_unref_at s0 s m cur x p d (Q : unit → state → Prop) :
  vnode_at s0 (vnodes s) m cur x p d → Q tt (put_vnodes (vnodes s0) s) → wp (vnode_unref me cur) Q s.
Proof.
  intros Hat HQ. eapply wp_vnode_unref; [apply Hat|apply Hat|apply Hat|apply Hat|].
  pose proof (va_back _ _ _ _ _ _ _ Hat) as Hb. unfold released in Hb. by rewrite Hb.
Qed.

(** What the walk keeps: the vnode it is at, the components to do and the heap. *)
Record walking s0 s (m cur : Z) (x : vnode_t) (p : string) (d buf : Z) (todo : list string) : Prop := {
  wk_at : vnode_at s0 (vnodes s) m cur x p d;
  wk_scratch : scratch s0 s;
  wk_buf : buf ∈ bufs s;
  wk_tok : tok_in buf (tok_next s);
  wk_todo : tok_rest (tok_next s) = tail todo;
  wk_heap : heap_ok s0 (allocs s);
  wk_fresh : cur ∉ allocs s;
  wk_enough : (4 * length todo ≤ length (allocs s))%nat;
}.

Lemma walking_ramfs_vnode s0 s m cur x p d buf todo v :
  walking s0 s m cur x p d buf todo → vfss s0 !! m = Some v → vfs_data v ≠ 0 → ramfs_vnode s cur x p d.
Proof.
  intros [Hat Hs _ _ _ _ _ _] Hv Hv0. destruct Hat. split; [|done]. split_and!; try done.
  - rewrite (scratch_fs _ _ Hs). rewrite info_lookup in va_type0. destruct (rnodes (fs s0) !! d); [by eexists|done].
  - exists v. split; [|done]. rewrite (scratch_vfss _ _ Hs). by subst m.
Qed.

Lemma wp_component_round s0 s T m cur x p d buf nm todo v lookup follow :
  ramfs_rep s0 T → no_links s0 → vfss s0 !! m = Some v → vfs_data v ≠ 0 → walking s0 s m cur x p d buf (nm :: todo) →
  wp (component_round me lookup 0 follow (cur, Some nm)) (λ res s', scratch s0 s' ∧ bufs s' = bufs s ∧
    (∃ k, (k ≤ 4)%nat ∧ allocs s' = drop k (allocs s)) ∧
    match res with
    | inr (e, out) => resolve (info s0) T d (nm :: todo) = inl e ∧ out = 0 ∧ vnodes s' = vnodes s0
    | inl (cur', comp) => ∃ x' c, resolve (info s0) T d (nm :: todo) = resolve (info s0) T c todo ∧ comp = head todo ∧
                          walking s0 s' m cur' x' (join p nm) c buf todo
    end) s.
Proof.
  intros HT Hnl Hv Hv0 Hwk. pose proof (walking_ramfs_vnode _ _ _ _ _ _ _ _ _ _ Hwk Hv Hv0) as Hrv.
  destruct Hwk as [Hat Hs Hbuf Htok Htodo [Hnd Hheap] Hfresh Hen]. pose proof Hat as [Hc0 Hx Hp Hpne Hty Hops Hhere Hroot Hnode Hd0 Hlock Href Hback].
  pose proof (scratch_info _ _ Hs) as Hinfo. unfold component_round. apply wp_bind. eapply wp_vn_load; [done|].
  assert (vtype x = VNODE_DIR ↔ is_dir s0 d) as Hdir.
  { unfold is_dir. destruct (i_type <$> info s0 !! d) as [[]|]; simpl in Hty; [injection Hty as <-..|done]; simpl; naive_solver. }
  cbn [resolve]. destruct (decide (is_dir s0 d)) as [Hd|Hd].
  2:{ rewrite bool_decide_eq_false_2 by tauto. simpl. apply wp_bind. eapply wp_unref_at; [done|]. apply wp_ret.
      rewrite decide_False by done. split_and!; [done|done|by exists 0%nat; split; [lia|]|done..]. }
  rewrite bool_decide_eq_true_2 by tauto. rewrite decide_True by done. simpl.
  rewrite Hops. change (op_of (Some RAMFS_TABLE) vop_lookup) with (Some ramfs_lookup). cbv beta iota. apply wp_bind.
  assert (is_Some (T !! d)) as [dm Hdm].
  { destruct Hrv as ((_ & _ & _ & _ & [y Hy] & _) & _). rewrite (scratch_fs _ _ Hs) in Hy. by eapply rep_lookup. }
  assert (∃ a w b c al, allocs s = a :: w :: b :: c :: al) as (a & w & b & c & al & Hal).
  { simpl in Hen. destruct (allocs s) as [|a [|w [|b [|c al]]]]; simpl in Hen; try lia. by eexists _, _, _, _, _. }
  rewrite Hal in *.
  eapply wp_mono; [eapply (wp_ramfs_lookup s T cur x p d dm nm w al)|].
  { by eapply scratch_rep. } { done. } { done. }
  { exists a, b, c. rewrite Hal. split_and!; [done|apply Hheap; set_solver..]. }
  intros [ret next] s1. cbv beta iota. rewrite decide_True by (unfold is_dir; by rewrite Hinfo). rewrite Hdm. simpl.
  destruct (dm !! nm) as [e|] eqn:He.
  2:{ intros (-> & -> & ->). simpl. apply wp_bind. eapply wp_unref_at; [done|]. apply wp_ret.
      split_and!; [done|done|exists 0%nat; split; [lia|done]|done..]. }
  intros (i & Hi & -> & -> & ->). rewrite Hinfo in Hi. simpl.
  destruct (rep_nz _ _ _ _ _ _ HT Hdm He) as [He0 _]. destruct (Hheap w) as (Hw0 & Hwv & _); [set_solver|].
  assert (w ≠ cur) as Hwc by (intros ->; set_solver). set (y := entry_vnode x p nm (vtype_of (i_type i)) e (i_mode i)).
  apply wp_bind. eapply wp_vn_load; [apply lookup_insert_eq|]. simpl. apply wp_bind, wp_ret.
  apply wp_bind. apply (wp_mono _ (λ r s', r = (EOK, w) ∧ s' = put_vnodes (<[w := y]> (vnodes s)) (put_allocs al s))).
  { destruct follow; [|by apply wp_ret]. unfold vfs_follow_symlink. simpl. apply wp_bind. eapply wp_vn_load; [apply lookup_insert_eq|].
    rewrite bool_decide_eq_false_2; [by apply wp_ret|]. simpl. pose proof (Hnl _ _ Hi). by destruct (i_type i). }
  intros _ _ [-> ->]. simpl. rewrite Z.eqb_refl. simpl. apply wp_bind, wp_ret. apply wp_bind.
  eapply wp_vnode_unref; [done|simpl; by rewrite lookup_insert_ne|done|done|]. simpl. fold (released (<[w := y]> (vnodes s)) cur x).
  rewrite released_insert, Hback by done. apply wp_bind. eapply wp_strtok_next; [exact Htok|exact Hbuf|].
  intros next Hin Hrest. simpl in Hrest. rewrite Htodo in Hrest. simpl. rewrite Htodo. apply wp_ret. split_and!; [exact Hs|done|exists 4%nat; split; [lia|done]|].
  exists y, e. split_and!; [done|done|]. constructor; simpl; try done.
  - constructor; simpl; try done.
    + by rewrite lookup_insert_eq.
    + by apply join_nonempty.
    + by rewrite Hi.
    + unfold released. simpl. by rewrite delete_insert_id.
  - split; [by apply NoDup_cons in Hnd as [_ [_ [_ [_ ?]%NoDup_cons]%NoDup_cons]%NoDup_cons]|]. intros q Hq. apply Hheap. set_solver.
  - apply NoDup_cons in Hnd as [_ [Hnw _]%NoDup_cons]. set_solver.
  - simpl in Hen. lia.
Qed.

(** What a lookup of [dirs] from [d], at path [p], leaves behind. *)
Definition looked_up s0 (T : tree) (m d : Z) (p : string) (dirs : list string) (res : Z * Z) (V : gmap Z vnode_t) : Prop :=
  match resolve (info s0) T d dirs with
  | inl e => res = (e, 0) ∧ V = vnodes s0
  | inr c => res.1 = EOK ∧ ∃ x, vnode_at s0 V m res.2 x (foldl join p dirs) c
  end.

Lemma wp_lookup_loop s0 s T m cur x p d buf todo v lookup follow fuel :
  ramfs_rep s0 T → no_links s0 → vfss s0 !! m = Some v → vfs_data v ≠ 0 → walking s0 s m cur x p d buf todo → (length todo < fuel)%nat →
  wp (loop fuel (component_round me lookup 0 follow) (cur, head todo)) (λ res s',
    scratch s0 s' ∧ bufs s' = bufs s ∧ looked_up s0 T m d p todo res (vnodes s') ∧ res.2 ∉ allocs s' ∧
    ∃ k, (k ≤ 4 * length todo)%nat ∧ allocs s' = drop k (allocs s)) s.
Proof.
  intros HT Hnl Hv Hv0 Hwk Hfuel. unfold looked_up.
  apply (wp_loop (λ n '(cur', comp) s', ∃ x' p' d' todo', comp = head todo' ∧ n = length todo' ∧ walking s0 s' m cur' x' p' d' buf todo' ∧
    resolve (info s0) T d' todo' = resolve (info s0) T d todo ∧ foldl join p' todo' = foldl join p todo ∧ bufs s' = bufs s ∧
    ∃ k, (k + 4 * length todo' ≤ 4 * length todo)%nat ∧ allocs s' = drop k (allocs s)) _ _ (length todo)); [done| |].
  { exists x, p, d, todo. split_and!; try done. exists 0%nat. split; [lia|done]. }
  intros n [cur' comp] s' (x' & p' & d' & todo' & -> & -> & Hwk' & Hres & Hpath & Hbufs & k & Hk & Hal). rewrite <-Hres, <-Hpath.
  destruct todo' as [|nm todo'].
  - apply wp_ret. destruct Hwk'. split_and!; [done|done| |done|exists k; split; [simpl in Hk; lia|done]]. split; [done|]. by exists x'.
  - eapply wp_mono; [by eapply wp_component_round|]. intros [[cur'' comp]|[e out]] s'' (Hs & Hb & (k' & Hk' & Hal') & H).
    + destruct H as (x'' & c & Hr & -> & Hwk''). exists (length todo'). split; [simpl; lia|].
      exists x'', (join p' nm), c, todo'. split_and!; try done; [congruence..|].
      exists (k + k')%nat. rewrite Hal', Hal, drop_drop. split; [simpl in Hk; lia|done].
    + destruct H as (-> & -> & ?). split_and!; [done|congruence|done|done| |].
      { rewrite Hal'. destruct (wk_heap _ _ _ _ _ _ _ _ _ Hwk') as [_ Hnz]. intros Hin. destruct (Hnz 0) as [H0 _]; [|done].
        rewrite <-(take_drop k' (allocs s')). set_solver. }
      exists (k + k')%nat. rewrite Hal', Hal, drop_drop. split; [simpl in Hk; lia|done].
Qed.

Lemma heap_ok_drop s al k : heap_ok s al → heap_ok s (drop k al).
Proof.
  intros [Hnd H]. split; [eapply sublist_NoDup; [done|apply sublist_drop]|]. intros a Ha. apply H. rewrite <-(take_drop k al). set_solver.
Qed.

(** The root, with a reference more. *)
Lemma root_at s V m rv r rn :
  root_mount s m rv r rn → V = <[rv := set_refcount (refcount r + 1) r]> (vnodes s) →
  vnode_at s V m rv (set_refcount (refcount r + 1) r) "/" rn.
Proof.
  intros (v & _ & Hm0 & _ & _ & _ & _ & _ & Hrv & Hr & Heq & Href & Hrn & Hdir) HV. rewrite Heq. unfold is_dir in Hdir.
  constructor; simpl; try done; try lia.
  - rewrite HV, Heq. simpl. by rewrite lookup_insert_eq.
  - by rewrite Hdir.
  - unfold released. simpl. rewrite (proj2 (Z.eqb_neq _ _)) by lia. rewrite HV, insert_insert_eq. apply insert_id. rewrite Hr, Heq. simpl.
    unfold set_refcount. simpl. do 2 f_equal. lia.
Qed.

Lemma wp_lookup s T m rv r rn q n follow :
  ramfs_rep s T → no_links s → root_mount s m rv r rn → starts_slash q = true → heap_ok s (allocs s) →
  (1 + 4 * length (components q) ≤ length (allocs s))%nat →
  wp (vfs_lookup_internal me (S n) q 0 follow) (λ res s',
    scratch s s' ∧ bufs s' = bufs s ∧ looked_up s T m rn "/" (components q) res (vnodes s') ∧ res.2 ∉ allocs s' ∧
    ∃ k, (k ≤ 1 + 4 * length (components q))%nat ∧ allocs s' = drop k (allocs s)) s.
Proof.
  intros HT Hnl Hrm Hq Hheap Hen. pose proof Hrm as (v & Hhead & Hm0 & Hv & Hnext & Hrv & Hv0 & Hlock & Hrv0 & Hr & Hreq & Href & Hrn0 & Hdir).
  destruct (allocs s) as [|a al] eqn:Hal; [simpl in Hen; lia|].
  destruct (proj2 Hheap a) as (Ha0 & _ & Hab); [set_solver|].
  apply starts_slash_eq in Hq as [rest0 ->].
  assert (under (String slash rest0) "/") as Hund by (unfold under; rewrite decide_True by done; by eexists).
  cbn [vfs_lookup_internal]. unfold lookup_body. simpl (0 >=? MAX_SYMLINK_DEPTH). apply wp_bind.
  apply (wp_vfs_resolve_mount me s _ [(m, "/")] a al); [|done|done|done| |].
  { rewrite Hhead. split_and!; [done|done|]. exists v, r. rewrite Hrv. split_and!; try done. by rewrite Hreq. }
  2:{ intros H _. by specialize (H m "/" ltac:(set_solver) Hund). }
  intros m' rest [(p & Hin & _ & _ & Hsplit & _)|(H & _)]; [|by specialize (H m "/" ltac:(set_solver) Hund)].
  apply list_elem_of_singleton in Hin as [= -> ->]. change ("/" +:+ rest)%string with (String slash rest) in Hsplit. injection Hsplit as ->.
  assert (components (String slash rest) = components rest) as Hcomp.
  { rewrite <-(components_skip (String slash rest)), <-(components_skip rest). done. }
  rewrite Hcomp in *. rewrite <-(components_skip rest) in *. set (text := skip_slashes rest) in *. simpl.
  apply wp_bind. eapply wp_fs_load; [done|]. rewrite (proj2 (Z.eqb_neq _ _) Ha0). rewrite Hrv. simpl.
  assert (({[a]} ∪ bufs s) ∖ {[a]} = bufs s) as Hbufs by (apply set_eq; set_solver).
  assert (vfs_here r = 0) as Hhere by (by rewrite Hreq).
  assert (idle r) as Hidle by (split; [by rewrite Hreq|done]).
  assert (rv ∉ al) as Hrval.
  { intros Hin'. destruct Hheap as [_ Hheap]. destruct (Hheap rv) as (_ & Hno & _); [set_solver|]. congruence. }
  destruct (bool_decide_reflect (text = "")) as [Htext|Htext].
  - rewrite Htext. apply wp_bind, wp_modify. apply wp_bind. rewrite (proj2 (Z.eqb_neq _ _) Hrv0). apply wp_bind.
    eapply wp_vn_load; [done|]. rewrite Hhere. simpl. apply wp_ret. apply wp_bind. eapply wp_vnode_ref; [done|done|done|].
    apply wp_ret. split_and!; [done|exact Hbufs| |exact Hrval|exists 1%nat; split; [simpl; lia|done]].
    split; [done|]. eexists. by apply root_at.
  - rewrite (proj2 (Z.eqb_neq _ _) Hrv0). apply wp_bind. eapply wp_vnode_ref; [done|done|done|]. apply wp_bind.
    eapply wp_vn_load; [apply lookup_insert_eq|]. simpl. rewrite Hhere. simpl. apply wp_bind, wp_ret. apply wp_bind.
    eapply wp_strtok; [set_solver|]. intros next Hin Hnextq. apply wp_bind.
    eapply wp_mono; [eapply (wp_lookup_loop s _ T m rv _ "/" rn a (components text) v); [done|done|done|done| |]|].
    + constructor; simpl.
      * by apply root_at.
      * done.
      * set_solver.
      * done.
      * done.
      * by apply (heap_ok_drop s (a :: al) 1).
      * exact Hrval.
      * simpl in Hen. lia.
    + pose proof (components_length text). lia.
    + intros res s' (Hs & Hb & Hlk & Hna & k & Hk & Hal'). apply wp_bind, wp_modify, wp_ret. split_and!; [exact Hs| |exact Hlk|exact Hna|].
      * simpl. rewrite Hb. exact Hbufs.
      * exists (S k). split; [lia|]. exact Hal'.
Qed.

(** ** The parent of a path *)

Lemma strrchr_app q a b : strrchr q = Some (a, b) → q = (a +:+ String slash b)%string.
Proof.
  revert a. induction q as [|c q IH]; intros a; [done|]. cbn [strrchr]. destruct (strrchr q) as [[a' b']|].
  - intros [= <- ->]. by rewrite (IH a' eq_refl).
  - destruct (Ascii.eqb_spec c slash) as [->|]; [|done]. by intros [= <- ->].
Qed.
(** The directory that the path before the last slash names. *)
Definition parent_of (pp : string) : string := if bool_decide (pp = "") then "/" else pp.
Lemma parent_slash q a b : strrchr q = Some (a, b) → starts_slash q = true → starts_slash (parent_of a) = true.
Proof.
  intros H%strrchr_app Hq. unfold parent_of. destruct (bool_decide_reflect (a = "")); [done|]. subst q. by destruct a.
Qed.

Lemma vnode_at_same s0 s1 V m cur x p d :
  vnodes s1 = vnodes s0 → fs s1 = fs s0 → vnode_at s1 V m cur x p d → vnode_at s0 V m cur x p d.
Proof. intros HV Hf []. constructor; try done; unfold info in *; by rewrite <-?HV, <-?Hf. Qed.

(** A path in a file system with nothing but files and directories. *)
Record path_env s (T : tree) (m rv : Z) (r : vnode_t) (rn : Z) (q pp nm : string) : Prop := {
  pe_rep : ramfs_rep s T;
  pe_links : no_links s;
  pe_root : root_mount s m rv r rn;
  pe_slash : starts_slash q = true;
  pe_split : strrchr q = Some (pp, nm);
  pe_heap : heap_ok s (allocs s);
}.

Lemma wp_lookup_parent s T m rv r rn q pp nm :
  path_env s T m rv r rn q pp nm → (3 + 4 * length (components (parent_of pp)) ≤ length (allocs s))%nat →
  wp (vfs_lookup_parent me q) (λ '(ret, parent, fname) s',
    scratch s s' ∧ bufs s' = bufs s ∧
    looked_up s T m rn "/" (components (parent_of pp)) (ret, parent) (vnodes s') ∧ (ret = EOK → fname = nm) ∧ parent ∉ allocs s' ∧
    ∃ k, (k ≤ 3 + 4 * length (components (parent_of pp)))%nat ∧ allocs s' = drop k (allocs s)) s.
Proof.
  intros [HT Hnl Hrm Hq Hsp Hheap] Hen. unfold vfs_lookup_parent. rewrite Hsp.
  destruct (allocs s) as [|a [|b al]] eqn:Hal; simpl in Hen; [lia..|].
  destruct (proj2 Hheap a) as (Ha0 & _); [set_solver|]. destruct (proj2 Hheap b) as (Hb0 & _); [set_solver|].
  apply wp_bind. apply (wp_mono _ (λ c s', c = Some (Some (parent_of pp)) ∧ s' = put_allocs (b :: al) s)).
  { unfold parent_of. destruct (bool_decide (pp = "")); apply wp_bind.
    - eapply wp_strdup; [done|done|]. by apply wp_ret.
    - eapply wp_vfs_kalloc; [done|]. rewrite (proj2 (Z.eqb_neq _ _) Ha0). by apply wp_ret. }
  intros _ _ [-> ->]. apply wp_bind. eapply wp_strdup; [done|done|]. apply wp_bind, wp_ret. apply wp_bind.
  eapply wp_mono; [apply (wp_lookup (put_allocs al s) T m rv r rn (parent_of pp) 10 true); try done|].
  - by eapply parent_slash.
  - by apply (heap_ok_drop s (a :: b :: al) 2).
  - simpl. lia.
  - intros [ret parent] s' (Hs & Hb & Hlk & Hna & k & Hk & Hal').
    assert (looked_up s T m rn "/" (components (parent_of pp)) (ret, parent) (vnodes s')) as Hlk'.
    { unfold looked_up in *. change (info (put_allocs al s)) with (info s) in Hlk. destruct (resolve _ _ _ _); [done|].
      destruct Hlk as (? & x & ?). split; [done|]. exists x. by apply (vnode_at_same s (put_allocs al s)). }
    assert (∃ k, (k ≤ 3 + 4 * length (components (parent_of pp)))%nat ∧ allocs s' = drop k (a :: b :: al)) as Hex.
    { exists (S (S k)). split; [lia|done]. }
    destruct (Z.eqb_spec ret EOK) as [->|Hne]; simpl; apply wp_ret; [done|].
    unfold looked_up in *. destruct (resolve _ _ _ _); [|by destruct Hlk' as [? _]]. by destruct Hlk' as [[= -> ->] ?].
Qed.

Lemma resolve_error I T rn l e : resolve I T rn l = inl e → e ≠ EOK.
Proof.
  revert rn. induction l as [|c l IH]; intros rn; simpl; [done|].
  destruct (decide _); [|by intros [= <-]]. destruct (T !! rn ≫= (.!! c)); [apply IH|by intros [= <-]].
Qed.
Lemma vnode_at_ramfs s s' m rv r rn cur x p d :
  root_mount s m rv r rn → scratch s s' → vnode_at s (vnodes s') m cur x p d → ramfs_vnode s' cur x p d.
Proof.
  intros (v & _ & _ & Hv & _ & _ & Hv0 & _) Hs []. split; [|done]. split_and!; try done.
  - rewrite (scratch_fs _ _ Hs). rewrite info_lookup in va_type0. destruct (rnodes (fs s) !! d); [by eexists|done].
  - exists v. split; [|done]. rewrite (scratch_vfss _ _ Hs). by subst m.
Qed.

(** An operation [f] in the directory [d] that a path is in, and the vnode given
    back afterwards. *)
Lemma wp_in_parent {A} s T m rv r rn q pp nm (op : Z → option A) f run (Q : Z → state → Prop) :
  path_env s T m rv r rn q pp nm → op RAMFS_TABLE = Some f → (3 + 4 * length (components (parent_of pp)) ≤ length (allocs s))%nat →
  (∀ e s', resolve (info s) T rn (components (parent_of pp)) = inl e → scratch s s' → vnodes s' = vnodes s → Q e s') →
  (∀ d parent x s', resolve (info s) T rn (components (parent_of pp)) = inr d → scratch s s' →
     ramfs_vnode s' parent x (foldl join "/" (components (parent_of pp))) d →
     (∃ k, (k ≤ 3 + 4 * length (components (parent_of pp)))%nat ∧ allocs s' = drop k (allocs s)) →
     wp (run f parent nm) (λ ret s'', vnodes s'' = vnodes s' ∧ Q ret (put_vnodes (vnodes s) s'')) s') →
  wp (in_parent me q op run) Q s.
Proof.
  intros Henv Hop Hen Herr Hrun. unfold in_parent. apply wp_bind. eapply wp_mono; [by eapply wp_lookup_parent|].
  intros [[ret parent] fname] s' (Hs & Hb & Hlk & Hnm & _ & Hk). unfold looked_up in Hlk. destruct (resolve _ _ _ _) as [e|d] eqn:Hres.
  - destruct Hlk as [[= -> ->] HV].
    rewrite (proj2 (Z.eqb_neq _ _)) by (by eapply resolve_error). simpl. apply wp_ret. by apply Herr.
  - destruct Hlk as (Hret & x & Hat). simpl in Hret, Hat. subst ret. rewrite (Hnm eq_refl). simpl. apply wp_bind. eapply wp_vn_load; [apply Hat|].
    rewrite (va_ops _ _ _ _ _ _ _ Hat). unfold op_of. simpl. rewrite Hop. apply wp_bind. eapply wp_mono; [eapply (Hrun d parent x s')|]; try done.
    + eapply vnode_at_ramfs; [apply Henv|done|done].
    + intros ret s'' [HV HQ]. apply wp_bind. eapply wp_vnode_unref; [apply Hat|rewrite HV; apply Hat|apply Hat|apply Hat|].
      apply wp_ret. pose proof (va_back _ _ _ _ _ _ _ Hat) as Hback. unfold released in Hback. rewrite HV, Hback. exact HQ.
Qed.
End ramfs.

(** * A small file system *)

Definition demo_nodes : gmap Z ramfs_node_t :=
  <[10 := mkRn (Some "/") RAMFS_DIRECTORY 0 0 0x41ed 0 11]>
  (<[11 := mkRn (Some "a") RAMFS_DIRECTORY 0 0 0x41ed 0 12]>
  (<[12 := mkRn (Some "f") RAMFS_FILE 3 20 0x81a4 0 0]> ∅)).
Definition demo_kids : gmap Z (list Z) := <[10 := [11]]> (<[11 := [12]]> (<[12 := []]> ∅)).
Definition demo_tree : tree := <[10 := {["a" := 11]}]> (<[11 := {["f" := 12]}]> (<[12 := ∅]> ∅)).
Definition demo_root : vnode_t := mkVnode (Some "/") VNODE_DIR 10 0 0 0x41ed (Some RAMFS_TABLE) 0 30 1 unlocked.
Definition demo_file : vnode_t := mkVnode (Some "/a/f") VNODE_REGULAR 12 0 0 0x81a4 (Some RAMFS_TABLE) 0 30 1 unlocked.
Definition demo_handle : kfile_t := mkKfile 20 3 0 3 41.
(** Mounted at 30, with its root at 40 and an open file at 60, whose vnode is at
    41; the heap answers from 100 on. *)
Definition demo : vfs_state ramfs_data :=
  mkState (<[40 := demo_root]> (<[41 := demo_file]> ∅)) (<[30 := mkVfs 1000 40 50 (Some RAMFS_TABLE) 0]> ∅)
    (<[1000 := mkDriver 1 "ramfs" 1 0]> ∅) (<[60 := demo_handle]> ∅) 30 1000 2 unlocked unlocked ∅ None
    ((λ i, 100 + Z.of_nat i) <$> seq 0 40)
    (mkRd demo_nodes (<[50 := mkRamfs 10 0]> ∅) (<[20 := [1; 2; 3]]> ∅)).

(** The keys of a map that is written out. *)
Ltac keys H :=
  repeat lazymatch type of H with
  | <[_ := _]> _ !! _ = Some _ => apply lookup_insert_Some in H as [[<- <-]|[? H]]
  | ∅ !! _ = Some _ => by rewrite lookup_empty in H
  end.

Lemma demo_wf : tree_wf demo_nodes demo_kids.
Proof.
  constructor.
  - intros a. rewrite <-!(elem_of_dom (D:=gset Z)). assert (dom demo_kids =@{gset Z} dom demo_nodes) as -> by (vm_compute; reflexivity). done.
  - intros a l n Ha Hn. unfold demo_kids in Ha. keys Ha; apply (inj Some) in Hn; subst n; simpl; split_and?; try done; by exists 0.
  - intros a l c Ha Hc. unfold demo_kids in Ha. keys Ha; rewrite ?list_elem_of_singleton, ?elem_of_nil in Hc; try done; subst c; by eexists.
  - intros a l c d Ha Hc Hd _. unfold demo_kids in Ha. keys Ha; try (by apply not_elem_of_nil in Hc); apply list_elem_of_singleton in Hc as ->, Hd as ->; done.
  - intros a b la lb c Ha Hb Hc Hd. unfold demo_kids in Ha, Hb. keys Ha; try (by apply not_elem_of_nil in Hc); (keys Hb; try (by apply not_elem_of_nil in Hd)); apply list_elem_of_singleton in Hc as ->; by apply list_elem_of_singleton in Hd.
  - intros a t Ht Hne. unfold ty in Ht. destruct (demo_nodes !! a) as [y|] eqn:Ha; [|done]. unfold demo_nodes in Ha. keys Ha; simpl in Ht; by simplify_eq.
Qed.
Lemma demo_rep : ramfs_rep demo demo_tree.
Proof. exists demo_kids. split; [apply demo_wf|]. vm_compute. reflexivity. Qed.
Lemma demo_no_links : no_links demo.
Proof.
  intros a i. rewrite info_lookup. destruct (rnodes (fs demo) !! a) as [y|] eqn:Ha; [|done]. simpl in Ha. unfold demo_nodes in Ha.
  keys Ha; by intros [= <-].
Qed.
Lemma demo_mount : root_mount demo 30 40 demo_root 10.
Proof. eexists. split_and!; try done; by vm_compute. Qed.
Lemma demo_heap : heap_ok demo (allocs demo).
Proof.
  split; [apply NoDup_fmap_2; [|apply NoDup_seq]; intros i j ?; lia|]. intros a (i & -> & _)%list_elem_of_fmap. split_and!; [lia| |set_solver].
  simpl. rewrite !lookup_insert_ne by lia. apply lookup_empty.
Qed.
Lemma demo_new a : a ∈ allocs demo → rnodes (fs demo) !! a = None ∧ blocks (fs demo) !! a = None.
Proof.
  intros (i & -> & _)%list_elem_of_fmap. simpl. unfold demo_nodes. rewrite !lookup_insert_ne by lia. by rewrite !lookup_empty.
Qed.
