(* ===== verification/RamfsTheorems.v ===== *)
(** The RAM file system implements a map from names to nodes: searching a path
    is a walk through the map, making an entry inserts it, removing one deletes
    it, and what is written to a file is what is read back. *)
From Stdlib Require Import Ascii.
From S2P Require Import Prelude Errno Sync Vfs Kfile Ramfs VfsSpec RamfsSpec RamfsOps VfsOps.

Local Abbreviation state := (vfs_state ramfs_data).
Implicit Types s : state.

(** * Searching *)

Fixpoint walk (T : tree) (d : Z) (dirs : list string) : option Z :=
  match dirs with
  | [] => Some d
  | nm :: rest => m ← T !! d; c ← m !! nm; walk T c rest
  end.
(** What [ramfs_find_node] answers. *)
Definition found (T : tree) (root : Z) (p : string) : Z * Z :=
  if bool_decide (skip_slash p = "") then (0, root) else
  match components p with
  | [] => (-1, 0)
  | dirs => match walk T root dirs with Some n => (0, n) | None => (-1, 0) end
  end.

Lemma wp_find_components s T d x dirs (Q : Z * Z → state → Prop) :
  ramfs_rep s T → rnodes (fs s) !! d = Some x → dirs ≠ [] →
  Q (match walk T d dirs with Some n => (0, n) | None => (-1, 0) end) s → wp (find_components (child x) dirs) Q s.
Proof.
  intros HT. revert d x. induction dirs as [|nm dirs IH]; intros d x Hx Hne HQ; [done|]. cbn [find_components walk] in *.
  destruct (rep_lookup _ _ _ _ HT Hx) as [m Hm]. rewrite Hm in HQ. simpl in HQ.
  apply wp_bind. eapply wp_find_child; [done|done|done| |].
  - intros Hn. rewrite Hn in HQ. by apply wp_ret.
  - intros c Hc0 Hc [y Hy]. rewrite Hc in HQ. simpl in HQ. rewrite (proj2 (Z.eqb_neq _ _) Hc0). destruct dirs as [|nm' dirs].
    + by apply wp_ret.
    + apply wp_bind. eapply wp_nd_load; [done|]. by apply (IH c y).
Qed.

Lemma components_skip1 p : components (skip_slash p) = components p.
Proof.
  destruct p as [|c p]; [done|]. unfold skip_slash. destruct (Ascii.eqb c slash) eqn:Hc; [|done].
  rewrite <-(components_skip (String c p)), <-(components_skip p). cbn [skip_slashes]. by rewrite Hc.
Qed.

(** Searching a node by its path walks through the directories: the node is
    found when every component is an entry of the one before, and otherwise -1 is
    returned; a single slash and the empty path are the root. *)
Theorem ramfs_find_node_spec s T ramfs f p a r :
  ramfs_rep s T → ramfs ≠ 0 → ramfss (fs s) !! ramfs = Some f → root_node f ≠ 0 → is_Some (rnodes (fs s) !! root_node f) →
  allocs s = a :: r → a ≠ 0 →
  wp (ramfs_find_node ramfs p) (λ ret s', ret = found T (root_node f) p ∧ fs s' = fs s ∧ vnodes s' = vnodes s) s.
Proof.
  intros HT H0 Hf Hr0 [x Hx] Ha Ha0. unfold ramfs_find_node, found. rewrite (proj2 (Z.eqb_neq _ _) H0).
  apply wp_bind. eapply wp_rf_load; [done|]. rewrite (proj2 (Z.eqb_neq _ _) Hr0). destruct (bool_decide (skip_slash p = "")); [by apply wp_ret|].
  apply wp_bind. eapply wp_strdup; [done|done|]. apply wp_bind. eapply wp_nd_load; [done|]. rewrite components_skip1.
  destruct (components p) as [|c l] eqn:Hc; [by apply wp_ret|].
  eapply (wp_find_components _ T); [done|done|done|]. done.
Qed.

(** * Making entries *)

(** What a new entry does to the tree. *)
Definition with_entry (T : tree) (d : Z) (m : gmap string Z) (nm : string) (n : Z) : tree :=
  <[n := ∅]> (<[d := <[nm := n]> m]> T).
(** Two answers of the heap: the node and its name. *)
Definition two_allocs s (n a : Z) (r : list Z) : Prop := allocs s = n :: a :: r ∧ n ≠ 0 ∧ a ≠ 0 ∧ rnodes (fs s) !! n = None.

(** Making a directory inserts its name, with a fresh empty directory, at the
    end; a name that is taken gives EEXIST and a parent that is no directory
    ENOTDIR, and then nothing changes. *)
Theorem ramfs_mkdir_spec s T parent x d m nm mode n a r :
  ramfs_rep s T → dir_vnode s parent x d → T !! d = Some m → two_allocs s n a r →
  wp (ramfs_mkdir parent nm mode) (λ ret s',
    if decide (is_dir s d) then
      if decide (m !! nm = None) then
        ret = EOK ∧ ramfs_rep s' (with_entry T d m nm n) ∧ vnodes s' = vnodes s ∧
        info s' = <[n := mkInfo (Some nm) RAMFS_DIRECTORY 0 0 (Z.lor S_IFDIR (Z.land mode 0x1ff))]> (info s)
      else ret = EEXIST ∧ s' = s
    else ret = ENOTDIR ∧ s' = s) s.
Proof.
  intros HT Hv Hm (Ha & Hn0 & Ha0 & Hn). unfold ramfs_mkdir. apply wp_bind. eapply wp_dir_of; [done|].
  case_decide as Hdir; [|by apply wp_ret]. destruct Hv as (_ & _ & _ & _ & [y Hy] & _). simpl.
  apply wp_bind. eapply wp_is_new; [done|done|done|]. case_decide as Hnew.
  - rewrite bool_decide_eq_true_2 by done. simpl. apply wp_bind. eapply wp_add_entry; [done|done|done|done|done|done|done|done|].
    eapply wp_nd_store; [apply lookup_insert_eq|]. simpl. rewrite insert_insert_eq. eexists. split; [done|].
    split_and!; [done|done|done|]. intros ns' Hi Hr. apply wp_ret. done.
  - rewrite bool_decide_eq_false_2 by done. by apply wp_ret.
Qed.

(** Creating a file inserts its name with a fresh empty file, and answers with
    a vnode for it, whose path is the path of the directory and the name; a name
    that is taken gives EEXIST and nothing changes. *)
Theorem ramfs_create_spec s T parent x p d m nm mode n a r v r' :
  ramfs_rep s T → ramfs_vnode s parent x p d → T !! d = Some m → two_allocs s n a r → vnode_allocs r v r' →
  wp (ramfs_create parent nm mode) (λ '(ret, vn) s',
    if decide (is_dir s d) then
      if decide (m !! nm = None) then
        ret = EOK ∧ vn = v ∧ ramfs_rep s' (with_entry T d m nm n) ∧
        vnodes s' = <[v := entry_vnode x p nm VNODE_REGULAR n (Z.lor S_IFREG mode)]> (vnodes s) ∧
        info s' = <[n := mkInfo (Some nm) RAMFS_FILE 0 0 (Z.lor S_IFREG mode)]> (info s)
      else ret = EEXIST ∧ vn = 0 ∧ s' = s
    else ret = ENOTDIR ∧ vn = 0 ∧ s' = s) s.
Proof.
  intros HT (Hv & Hp & Hpne & Hops) Hm (Ha & Hn0 & Ha0 & Hn) Hal. unfold ramfs_create. apply wp_bind. eapply wp_dir_of; [done|].
  case_decide as Hdir; [|by apply wp_ret]. destruct Hv as (_ & Hx & _ & _ & [y Hy] & _). simpl.
  apply wp_bind. eapply wp_is_new; [done|done|done|]. case_decide as Hnew.
  - rewrite bool_decide_eq_true_2 by done. simpl. apply wp_bind. eapply wp_add_entry; [done|done|done|done|done|done|done|done|].
    eapply wp_nd_store; [apply lookup_insert_eq|]. simpl. rewrite insert_insert_eq. eexists. split; [done|].
    split_and!; [done|done|done|]. intros ns' Hi Hr. apply wp_bind. eapply wp_vn_load; [exact Hx|].
    apply wp_bind. eapply wp_make_vnode; [done|done|by rewrite Hops|exact Hal|]. apply wp_ret. done.
  - rewrite bool_decide_eq_false_2 by done. by apply wp_ret.
Qed.

(** * Removing entries *)

(** What taking the entry [nm], which is [c], out does to the tree. *)
Definition without_entry (T : tree) (d : Z) (m : gmap string Z) (nm : string) (c : Z) : tree := delete c (<[d := delete nm m]> T).

(** Removing a directory deletes its name and its node when it is empty; it
    gives ENOENT when there is no such entry, ENOTDIR when the entry is no
    directory, ENOTEMPTY when it has entries, and then nothing changes. *)
Theorem ramfs_rmdir_spec s T parent x d m nm :
  ramfs_rep s T → dir_vnode s parent x d → T !! d = Some m → is_dir s d →
  wp (ramfs_rmdir parent nm) (λ ret s',
    match m !! nm with
    | None => ret = ENOENT ∧ s' = s
    | Some c =>
        if decide (is_dir s c) then
          if decide (T !! c = Some ∅) then
            ret = EOK ∧ ramfs_rep s' (without_entry T d m nm c) ∧ info s' = delete c (info s) ∧ vnodes s' = vnodes s
          else ret = ENOTEMPTY ∧ s' = s
        else ret = ENOTDIR ∧ s' = s
    end) s.
Proof.
  intros HT Hv Hm Hdir. eapply wp_mono; [apply (wp_remove_entry s T parent x d m nm); try done|].
  - intros c y Hy. destruct (bool_decide_reflect (type y = RAMFS_DIRECTORY)); simpl; [|done].
    destruct (Z.eqb_spec (child y) 0); simpl; [|done]. intros _. by eapply rep_no_child.
  - intros ret s' H. cbv beta in H. rewrite decide_True in H by done. destruct (m !! nm) as [c|]; [|done]. destruct H as (y & Hy & H).
    destruct (bool_decide_reflect (type y = RAMFS_DIRECTORY)) as [Ht|Ht]; simpl in H.
    2:{ rewrite decide_False by (by rewrite (is_dir_node _ _ _ Hy)). done. }
    rewrite decide_True by (by rewrite (is_dir_node _ _ _ Hy)). destruct (Z.eqb_spec (child y) 0) as [E|E]; simpl in H.
    + rewrite decide_True by (by eapply rep_no_child). naive_solver.
    + rewrite decide_False; [done|]. intros Hq. apply E. by eapply rep_no_child_inv.
Qed.

(** Removing a file or a link deletes its name and its node and frees its
    bytes; a directory gives EISDIR and a missing name ENOENT, and then nothing
    changes. *)
Theorem ramfs_remove_spec s T parent x d m nm :
  ramfs_rep s T → dir_vnode s parent x d → T !! d = Some m → is_dir s d →
  wp (ramfs_remove parent nm) (λ ret s',
    match m !! nm with
    | None => ret = ENOENT ∧ s' = s
    | Some c =>
        if decide (is_dir s c) then ret = EISDIR ∧ s' = s else
        ∃ i, info s !! c = Some i ∧ ret = EOK ∧ ramfs_rep s' (without_entry T d m nm c) ∧ info s' = delete c (info s) ∧
             vnodes s' = vnodes s ∧ blocks (fs s') = if i_data i =? 0 then blocks (fs s) else delete (i_data i) (blocks (fs s))
    end) s.
Proof.
  intros HT Hv Hm Hdir. eapply wp_mono; [apply (wp_remove_entry s T parent x d m nm); try done|].
  - intros c y Hy. destruct (bool_decide_reflect (type y = RAMFS_DIRECTORY)); simpl; [done|]. intros _. by eapply rep_leaf.
  - intros ret s' H. cbv beta in H. rewrite decide_True in H by done. destruct (m !! nm) as [c|]; [|done]. destruct H as (y & Hy & H).
    destruct (bool_decide_reflect (type y = RAMFS_DIRECTORY)) as [Ht|Ht]; simpl in H.
    + rewrite decide_True by (by rewrite (is_dir_node _ _ _ Hy)). done.
    + rewrite decide_False by (by rewrite (is_dir_node _ _ _ Hy)). exists (info_of y). rewrite info_lookup, Hy. simpl.
      destruct H as (-> & ? & ? & ? & Hb). split_and!; try done. rewrite Hb. by destruct (data y =? 0).
Qed.

(** * Files and links *)

Section contents.
Context (junk : Z → Z).

(** Writing to a file of at most 65535 bytes, from within it or from its end,
    puts the bytes there, lengthens the file when they reach past its end and
    leaves the other nodes alone. *)
Theorem ramfs_write_spec s vn n b d off a r :
  file_at s vn n b → d ≠ [] → (length b ≤ 65535)%nat → (off ≤ length b)%nat → Z.of_nat off + Z.of_nat (length d) < 2 ^ 64 →
  allocs s = a :: r → a ≠ 0 → blocks (fs s) !! a = None →
  wp (ramfs_write junk vn d (Z.of_nat (length d)) (Z.of_nat off)) (λ ret s',
    ret = (EOK, Z.of_nat (length d)) ∧ file_at s' vn n (take off b ++ d ++ drop (off + length d) b) ∧
    ∀ c, c ≠ n → rnodes (fs s') !! c = rnodes (fs s) !! c) s.
Proof.
  intros Hf Hd Hb Hoff Hfit Hal Ha Hfree.
  eapply wp_mono; [eapply (wp_ramfs_write junk s vn n b d off a r); try done|].
  { assert (Z.of_nat 65535 < 2 ^ 64) by (vm_compute; reflexivity). lia. }
  intros ret s' (-> & Hf' & _ & Hn & _). split_and!; [done| |done]. by rewrite written_small in Hf'.
Qed.

(** What is written is what is read back from there, also when the file had to
    grow or a gap was left. *)
Theorem ramfs_write_read s vn n b d off a r :
  file_at s vn n b → d ≠ [] → Z.of_nat off + Z.of_nat (length d) < 2 ^ 63 → Z.of_nat (length b) < 2 ^ 63 →
  allocs s = a :: r → a ≠ 0 → blocks (fs s) !! a = None →
  wp (ramfs_write junk vn d (Z.of_nat (length d)) (Z.of_nat off) ;; ramfs_read vn (Z.of_nat (length d)) (Z.of_nat off))
    (λ ret _, ret = (EOK, Z.of_nat (length d), d)) s.
Proof.
  intros Hf Hd Hfit Hb Hal Ha Hfree. apply wp_bind.
  eapply wp_mono; [eapply (wp_ramfs_write junk s vn n b d off a r); try done; lia|].
  intros ret s' (-> & Hf' & _). assert (0 < length d)%nat by (destruct d; [done|simpl; lia]).
  pose proof (length_written junk a b d off) as Hl.
  eapply wp_mono; [apply (wp_ramfs_read s' vn n _ off (length d) Hf'); lia|].
  intros [[ret k] out] s'' [-> H']. rewrite decide_False in H' by lia. destruct H' as (-> & -> & ->).
  rewrite Nat.min_l by lia. rewrite Nat.sub_diag, app_nil_r, read_written. done.
Qed.
End contents.

(** A link that was just made is found under its name and leads to its target,
    cut to what fits in the caller's buffer. *)
Theorem ramfs_symlink_readlink s T parent x p d m nm target n a b r v r' size :
  ramfs_rep s T → ramfs_vnode s parent x p d → T !! d = Some m → is_dir s d → m !! nm = None →
  two_allocs s n a (b :: r) → b ≠ 0 → vnode_allocs r v r' → v ≠ parent → no_nul target → 0 < size < 2 ^ 64 →
  wp (ramfs_symlink parent nm target ;; '(_, l) ← ramfs_lookup parent nm; ramfs_readlink l size) (λ ret _,
    ret = (EOK, String.substring 0 (Nat.min (String.length target) (Z.to_nat (size - 1))) target)) s.
Proof.
  intros HT Hpv Hm Hdir Hnew (Ha & Hn0 & Ha0 & Hn) Hb0 Hal Hvp Hnul Hsize. destruct Hpv as (Hv & Hpath).
  apply wp_bind. unfold ramfs_symlink. apply wp_bind. eapply wp_dir_of; [done|]. rewrite decide_True by done.
  pose proof Hv as (Hp0 & Hx & Hd & Hd0 & [y Hy] & w & Hw). simpl.
  apply wp_bind. eapply wp_is_new; [done|done|done|]. rewrite bool_decide_eq_true_2 by done. simpl.
  apply wp_bind. eapply wp_add_entry; [done|done|done|done|done|done|done|done|].
  apply wp_bind. eapply wp_vfs_kalloc; [done|]. rewrite (proj2 (Z.eqb_neq _ _) Hb0). apply wp_bind, wp_modify.
  eapply wp_nd_store; [apply lookup_insert_eq|]. simpl. rewrite insert_insert_eq. eexists. split; [done|].
  split_and!; [done|done|done|]. intros ns' Hi Hr. set (s1 := with_nodes ns' _) in *. apply wp_ret. apply wp_bind.
  assert (n ≠ d) as Hnd by congruence.
  assert (∀ c, c ≠ n → is_Some (ns' !! c) ↔ is_Some (rnodes (fs s) !! c)) as Hdom.
  { intros c Hc. apply (f_equal (.!! c)) in Hi. rewrite info_lookup, lookup_insert_ne, info_lookup in Hi by done. simpl in Hi.
    rewrite <-(fmap_is_Some info_of (ns' !! c)), <-(fmap_is_Some info_of (_ !! c)). by rewrite Hi. }
  eapply wp_mono; [eapply (wp_ramfs_lookup s1 _ parent x p d (<[nm := n]> m) nm v r')|].
  - exact Hr.
  - split; [|exact Hpath]. split_and!; [done|done|done|done|by apply Hdom; [congruence|eexists]|]. by exists w.
  - by rewrite lookup_insert_ne, lookup_insert_eq.
  - exact Hal.
  - intros [ret vn] s2. rewrite decide_True, lookup_insert_eq.
    2:{ unfold is_dir. rewrite Hi, lookup_insert_ne by done. exact Hdir. }
    intros (i & Hii & -> & -> & ->). rewrite Hi, lookup_insert_eq in Hii. injection Hii as <-.
    assert (∃ z, ns' !! n = Some z ∧ type z = RAMFS_SYMLINK ∧ data z = b) as (z & Hz & Hzt & Hzd).
    { apply (f_equal (.!! n)) in Hi. rewrite info_lookup, lookup_insert_eq in Hi. simpl in Hi. destruct (ns' !! n) as [z|]; [|done].
      exists z. simpl in Hi. by injection Hi as _ -> _ -> _. }
    destruct Hal as (a1 & b1 & c1 & _ & _ & Hv0 & _). unfold ramfs_readlink. rewrite (proj2 (Z.eqb_neq _ _) Hv0).
    apply wp_bind. eapply wp_vn_load; [apply lookup_insert_eq|]. simpl. rewrite (proj2 (Z.eqb_neq _ _) Hn0).
    apply wp_bind. eapply wp_nd_load; [done|]. rewrite Hzt, Hzd. simpl. rewrite (proj2 (Z.eqb_neq _ _) Hb0).
    apply wp_bind, wp_gets. simpl. rewrite lookup_insert_eq. apply wp_ret. rewrite c_string_bytes by done.
    by rewrite u64_id by lia.
Qed.

(** * On the small file system *)

(** [/a/f] is node 12. *)
Lemma ramfs_find_node_spec_witness : found demo_tree 10 "/a/f" = (0, 12) ∧ wp (ramfs_find_node 50 "/a/f") (λ ret _, ret = (0, 12)) demo.
Proof.
  split; [reflexivity|].
  eapply wp_mono; [apply (ramfs_find_node_spec demo demo_tree 50 (mkRamfs 10 0) "/a/f" 100 (tail (allocs demo)) demo_rep);
    [done|reflexivity|done|by eexists|reflexivity|done]|].
  intros ret s' (-> & _). reflexivity.
Defined.
Lemma demo_root_vnode : ramfs_vnode demo 40 demo_root "/" 10.
Proof. split; [|done]. split_and!; try done; by eexists. Qed.
Lemma ramfs_symlink_readlink_witness :
  wp (ramfs_symlink 40 "l" "/a/f" ;; '(_, l) ← ramfs_lookup 40 "l"; ramfs_readlink l 3) (λ ret _, ret = (EOK, "/a")) demo.
Proof.
  eapply wp_mono; [apply (ramfs_symlink_readlink demo demo_tree 40 demo_root "/" 10 {["a" := 11]} "l" "/a/f" 100 101 102
    (drop 3 (allocs demo)) 104 (drop 7 (allocs demo)) 3 demo_rep demo_root_vnode);
    [reflexivity|reflexivity|reflexivity|by split_and!|done|by exists 103, 105, 106|done|by vm_compute; repeat constructor|done]|].
  intros ret s' ->. reflexivity.
Defined.
