(* ===== verification/VfsTheorems.v ===== *)
(** The virtual file system over a RAM file system: paths are resolved by the
    longest mount point and then name by name, operations on paths change the
    tree at that place and leave no reference behind; and where the code does
    not do so. *)
From Stdlib Require Import Ascii.
From S2P Require Import Prelude Errno Sync Vfs Kfile Ramfs VfsSpec RamfsSpec RamfsOps VfsOps RamfsTheorems.

(** * Mount points *)

Section any.
Context {D : Type} `{!VnodeOps D} (me : Z).
Implicit Types s : vfs_state D.

(** A path is resolved to the mounted file system whose mount point is the
    longest one that the path is at or below, and what is left of the path goes
    into a fresh buffer without slashes at its start; a path below no mount
    point gives -ENOENT. *)
Theorem vfs_resolve_mount_spec s q l a r :
  mounted s (vfs_list_head s) l → vfs_list_lock s = unlocked → allocs s = a :: r → a ≠ 0 →
  wp (vfs_resolve_mount me q) (λ '(ret, m, (buf, rem)) s',
    (ret = EOK ∧ buf = a ∧ ∃ rest, rem = skip_slashes rest ∧ resolves q (vfs_list_head s) l m rest) ∨
    (ret = - ENOENT ∧ s' = s ∧ ∀ m' p', (m', p') ∈ l → under q p' → p' = "")) s.
Proof.
  intros Hm Hl Hal Ha. eapply wp_vfs_resolve_mount; [done|done|done|done| |].
  - intros m rest Hr. left. split_and!; [done|done|]. by exists rest.
  - intros H _. by right.
Qed.

Lemma bind_hang {A B} (m : M (vfs_state D) A) (f : A → M (vfs_state D) B) s : m s = Hang → (m ≫= f) s = Hang.
Proof. intros H. unfold mbind, M_bind. by rewrite H. Qed.
Lemma bind_done {A B} (m : M (vfs_state D) A) (f : A → M (vfs_state D) B) s a s' : m s = Done (a, s') → (m ≫= f) s = f a s'.
Proof. intros H. unfold mbind, M_bind. by rewrite H. Qed.

(** A lookup waits for the lock of the list. *)
Lemma lookup_locked s me' q n follow : vfs_list_lock s = held me' → vfs_lookup_internal me (S n) q 0 follow s = Hang.
Proof.
  intros Hl. cbn [vfs_lookup_internal]. unfold lookup_body. simpl (0 >=? MAX_SYMLINK_DEPTH). apply bind_hang.
  unfold vfs_resolve_mount. apply bind_hang. unfold lock_list, zoom. by rewrite Hl.
Qed.

(** [vfs_unmount] never returns for a mount point other than the root: it
    looks the path up while it holds the lock that the lookup takes. *)
Theorem vfs_unmount_hangs s l1 m q l2 :
  mounted s (vfs_list_head s) (l1 ++ (m, q) :: l2) → vfs_list_lock s = unlocked → q ≠ "/" → q ∉ l1.*2 → vfs_unmount me q s = Hang.
Proof.
  intros Hm Hl Hq Hnot. unfold vfs_unmount. rewrite (bind_done _ _ _ tt (put_list_lock (held me) s)).
  2:{ unfold lock_list, zoom. by rewrite Hl. }
  set (s1 := put_list_lock (held me) s). rewrite (bind_done _ _ _ (vfs_list_head s) s1), (bind_done _ _ _ (S (size (vfss s))) s1) by done.
  apply bind_hang. apply (mounted_same s s1) in Hm; [|done..]. pose proof (mounted_length _ _ _ Hm) as Hlen. rewrite length_app in Hlen. simpl in Hlen.
  assert (length l1 < S (size (vfss s)))%nat as Hf by lia. clear Hlen.
  revert Hf Hm. generalize (S (size (vfss s))) as fuel, (vfs_list_head s) as head, 0 as prev. induction l1 as [|[m1 p1] l1 IH]; intros fuel head prev Hf Hm;
    (destruct fuel as [|fuel]; [simpl in Hf; lia|]); destruct Hm as (-> & Hm0 & x & r & Hx & Hr0 & Hr & Hp & Hm); cbn [loop].
  - apply bind_hang. unfold unmount_round. rewrite (proj2 (Z.eqb_neq _ _) Hm0). rewrite (bind_done _ _ _ x s1) by (unfold fs_load; by rewrite Hx).
    rewrite (bind_done _ _ _ true s1).
    2:{ rewrite (proj2 (Z.eqb_neq _ _) Hr0). rewrite (bind_done _ _ _ r s1) by (unfold vn_load; by rewrite Hr). rewrite Hp. simpl.
        unfold mbind, M_bind, mret, M_ret. by rewrite bool_decide_eq_true_2. }
    cbn [negb]. apply bind_hang. rewrite bool_decide_eq_false_2 by done. cbn [negb when]. apply bind_hang. by apply (lookup_locked s1 me).
  - assert (unmount_round me q (prev, m1) s1 = Done (inl (m1, vfs_next x), s1)) as Hround.
    { unfold unmount_round. rewrite (proj2 (Z.eqb_neq _ _) Hm0). rewrite (bind_done _ _ _ x s1) by (unfold fs_load; by rewrite Hx).
      rewrite (bind_done _ _ _ false s1); [done|]. rewrite (proj2 (Z.eqb_neq _ _) Hr0).
      rewrite (bind_done _ _ _ r s1) by (unfold vn_load; by rewrite Hr). rewrite Hp. simpl. unfold mbind, M_bind, mret, M_ret.
      rewrite bool_decide_eq_false_2; [done|]. intros ->. apply Hnot. simpl. by left. }
    rewrite (bind_done _ _ _ _ _ Hround). apply IH; [|simpl in Hf; lia|done]. intros Hin. apply Hnot. simpl. by right.
Qed.
End any.

(** * Paths in a RAM file system *)

Section ramfs.
Context (me : Z) (junk : Z → Z) (ramfs_fstype : Z).
Let fs_ops : VnodeOps ramfs_data := ramfs_ops junk ramfs_fstype.
#[local] Existing Instance fs_ops | 0.
Local Abbreviation state := (vfs_state ramfs_data).
Implicit Types s : state.

(** C8: In a RAM file system mounted at the root and without links, looking up an
    absolute path walks through its components: the vnode it answers with is for
    the node that the walk ends at, with that node's type and the path without
    doubled slashes, and is referred to once more than before; on an error, which
    is -ENOTDIR at a component that is no directory and ENOENT at a missing name,
    no reference and no buffer is left behind. *)
Theorem vfs_lookup_spec s T m rv r rn q :
  ramfs_rep s T → no_links s → root_mount s m rv r rn → starts_slash q = true → heap_ok s (allocs s) →
  (1 + 4 * length (components q) ≤ length (allocs s))%nat →
  wp (vfs_lookup me q) (λ '(ret, out) s', fs s' = fs s ∧ bufs s' = bufs s ∧
    match resolve (info s) T rn (components q) with
    | inl e => ret = e ∧ out = 0 ∧ vnodes s' = vnodes s
    | inr c => ret = EOK ∧ ∃ x, vnode_at s (vnodes s') m out x (foldl join "/" (components q)) c
    end) s.
Proof.
  intros HT Hnl Hrm Hq Hheap Hen. eapply wp_mono; [by eapply (wp_lookup me junk ramfs_fstype s T m rv r rn q 10 true)|].
  intros [ret out] s' (Hs & Hb & Hlk & _). split_and!; [by apply scratch_fs|done|]. unfold looked_up in Hlk.
  destruct (resolve _ _ _ _); [|done]. destruct Hlk as [[= -> ->] ?]. done.
Qed.

(** The answers of the heap are not the addresses of nodes. *)
Definition nodes_fresh s : Prop := ∀ a, a ∈ allocs s → rnodes (fs s) !! a = None.

Lemma alloc_two s s' k : heap_ok s (allocs s) → nodes_fresh s → scratch s s' → allocs s' = drop k (allocs s) → (k + 2 ≤ length (allocs s))%nat →
  ∃ n a r, two_allocs s' n a r.
Proof.
  intros Hheap Hfr Hs Hal Hk. pose proof (heap_ok_drop _ _ k Hheap) as [_ Hok].
  assert (length (drop k (allocs s)) = length (allocs s) - k)%nat as Hl by apply length_drop.
  assert (∀ a, a ∈ drop k (allocs s) → rnodes (fs s) !! a = None) as Hfr'.
  { intros a Ha. apply Hfr. rewrite <-(take_drop k (allocs s)). set_solver. }
  destruct (drop k (allocs s)) as [|n [|a al]] eqn:Hd; simpl in Hl; [lia..|]. exists n, a, al.
  split_and!; [done|apply Hok; set_solver|apply Hok; set_solver|]. rewrite (scratch_fs _ _ Hs). apply Hfr'. set_solver.
Qed.

(** Six more answers: a node and its name, and a vnode that is nobody's. *)
Lemma alloc_six s s' k : heap_ok s (allocs s) → nodes_fresh s → scratch s s' → allocs s' = drop k (allocs s) → (k + 6 ≤ length (allocs s))%nat →
  ∃ n a al v al', two_allocs s' n a al ∧ vnode_allocs al v al' ∧
    v ∈ allocs s' ∧ vnodes s !! v = None.
Proof.
  intros Hheap Hfr Hs Hal Hk. pose proof (heap_ok_drop _ _ k Hheap) as [_ Hok].
  assert (length (drop k (allocs s)) = length (allocs s) - k)%nat as Hl by apply length_drop.
  destruct (alloc_two s s' k) as (n & a & al & Htwo); [done..|lia|]. exists n, a, al. pose proof Htwo as (Hal2 & _). rewrite Hal in Hal2.
  rewrite Hal2 in Hl, Hok. destruct al as [|b [|v [|c [|e al]]]]; simpl in Hl; [lia..|]. exists v, al.
  destruct (Hok v) as (_ & Hv & _); [set_solver|]. split_and!; [done| |rewrite Hal, Hal2; set_solver|done].
  exists b, c, e. split_and!; [done|apply Hok; set_solver..].
Qed.
(** What creating a file in the directory at [pp] answers and leaves. *)
Definition created s (T : tree) (rn : Z) (pp nm : string) (mode ret : Z) s' : Prop :=
  match resolve (info s) T rn (components (parent_of pp)) with
  | inl e => ret = e ∧ fs s' = fs s
  | inr d =>
      if decide (is_dir s d) then ∃ dm, T !! d = Some dm ∧
        if decide (dm !! nm = None) then
          ret = EOK ∧ ∃ n, info s !! n = None ∧ ramfs_rep s' (with_entry T d dm nm n) ∧
          info s' = <[n := mkInfo (Some nm) RAMFS_FILE 0 0 (Z.lor S_IFREG mode)]> (info s)
        else ret = EEXIST ∧ fs s' = fs s
      else ret = ENOTDIR ∧ fs s' = fs s
  end.

(** Creating a file by its path inserts a fresh empty file at that place, or says
    EEXIST when the name is taken, or gives the error of the lookup; no vnode is
    left referred to. *)
Theorem vfs_create_spec s T m rv r rn q pp nm mode :
  path_env s T m rv r rn q pp nm → nodes_fresh s → (9 + 4 * length (components (parent_of pp)) ≤ length (allocs s))%nat →
  wp (vfs_create me q mode) (λ ret s', vnodes s' = vnodes s ∧ created s T rn pp nm mode ret s') s.
Proof.
  intros Henv Hfr Hen. unfold vfs_create, created. apply wp_bind. eapply wp_mono; [apply (wp_lookup_parent me junk ramfs_fstype s T m rv r rn q pp nm); [done|lia]|].
  intros [[ret parent] fname] s' (Hs & _ & Hlk & Hnm & Hna & k & Hk & Hal). unfold looked_up in Hlk. destruct (resolve _ _ _ _) as [e|d] eqn:Hres.
  - destruct Hlk as [[= -> ->] HV]. rewrite (proj2 (Z.eqb_neq _ _)) by (by eapply resolve_error). simpl. apply wp_ret. split; [done|]. split; [done|by apply scratch_fs].
  - destruct Hlk as (Hret & x & Hat). simpl in Hret, Hat. subst ret. rewrite (Hnm eq_refl). simpl. apply wp_bind. eapply wp_vn_load; [apply Hat|].
    rewrite (va_ops _ _ _ _ _ _ _ Hat). change (op_of (Some RAMFS_TABLE) vop_create) with (Some ramfs_create). cbv beta iota. apply wp_bind.
    assert (ramfs_vnode s' parent x (foldl join "/" (components (parent_of pp))) d) as Hpv by (eapply vnode_at_ramfs; [apply Henv|done|done]).
    assert (ramfs_rep s' T) as HT by (eapply scratch_rep; [done|apply Henv]).
    destruct (alloc_six s s' k) as (n & a & al & v & al' & Htwo & Hva & Hvin & Hvn); [apply Henv|done|done|done|lia|].
    assert (v ≠ parent) as Hvp by (by intros ->).
    assert (is_Some (T !! d)) as [dm Hdm] by (destruct Hpv as ((_ & _ & _ & _ & [y Hy] & _) & _); by eapply rep_lookup).
    eapply wp_mono; [by eapply (ramfs_create_spec s' T parent x _ d dm nm mode n a al v al')|].
    intros [ret vn] s'' H. cbv beta iota in H. pose proof (scratch_dir _ _ d Hs) as Hsd. apply wp_bind.
    assert (vnodes s'' = vnodes s' → wp (vnode_unref me parent) (λ _ s3, s3 = put_vnodes (vnodes s) s'') s'') as Hun.
    { intros HV. eapply wp_vnode_unref; [apply Hat|rewrite HV; apply Hat|apply Hat|apply Hat|].
      pose proof (va_back _ _ _ _ _ _ _ Hat) as Hback. unfold released in Hback. by rewrite HV, Hback. }
    destruct (decide (is_dir s d)) as [Hd|Hd].
    2:{ rewrite decide_False in H by tauto. destruct H as (-> & -> & ->). eapply wp_mono; [by apply Hun|]. intros _ s3 ->. apply wp_ret.
        split; [done|]. split; [done|by apply scratch_fs]. }
    rewrite decide_True in H by tauto. destruct (decide (dm !! nm = None)) as [Hn|Hn].
    2:{ destruct H as (-> & -> & ->). eapply wp_mono; [by apply Hun|]. intros _ s3 ->. apply wp_ret. split; [done|].
        exists dm. split; [done|]. rewrite decide_False by done. split; [done|by apply scratch_fs]. }
    destruct H as (-> & -> & HR & HV & HI). rewrite (scratch_info _ _ Hs) in HI.
    eapply wp_vnode_unref; [apply Hat|rewrite HV, lookup_insert_ne by done; apply Hat|apply Hat|apply Hat|].
    fold (released (vnodes s'') parent x). rewrite HV, released_insert, (va_back _ _ _ _ _ _ _ Hat) by done. simpl. apply wp_bind.
    eapply wp_vnode_unref; [by destruct Hva as (? & ? & ? & _ & _ & ? & _)|simpl; by rewrite lookup_insert_eq|done|done|]. simpl. apply wp_ret. rewrite delete_insert_id by done.
    split; [done|]. exists dm. split; [done|]. rewrite decide_True by done. split; [done|]. exists n.
    destruct Htwo as (_ & _ & _ & Hnn). rewrite (scratch_fs _ _ Hs) in Hnn. split_and!; [by rewrite info_lookup, Hnn|done|done].
Qed.

(** C9: Making a directory by its path: when the path before the last slash leads to
    a directory that has no such entry, the tree gets the entry there; otherwise
    the tree is unchanged and the error tells which of the two failed. No
    reference is left behind either way. *)
Theorem vfs_mkdir_spec s T m rv r rn q pp nm mode :
  path_env s T m rv r rn q pp nm → nodes_fresh s → (5 + 4 * length (components (parent_of pp)) ≤ length (allocs s))%nat →
  wp (vfs_mkdir me q mode) (λ ret s', vnodes s' = vnodes s ∧
    match resolve (info s) T rn (components (parent_of pp)) with
    | inl e => ret = e ∧ fs s' = fs s
    | inr d =>
        if decide (is_dir s d) then ∃ dm, T !! d = Some dm ∧
          if decide (dm !! nm = None) then
            ret = EOK ∧ ∃ n, info s !! n = None ∧ ramfs_rep s' (with_entry T d dm nm n) ∧
            info s' = <[n := mkInfo (Some nm) RAMFS_DIRECTORY 0 0 (Z.lor S_IFDIR (Z.land mode 0x1ff))]> (info s)
          else ret = EEXIST ∧ fs s' = fs s
        else ret = ENOTDIR ∧ fs s' = fs s
    end) s.
Proof.
  intros Henv Hfr Hen. eapply (wp_in_parent me junk ramfs_fstype); [exact Henv|done|lia| |].
  - intros e s' -> Hs HV. split; [done|]. split; [done|by apply scratch_fs].
  - intros d parent x s' -> Hs Hpv (k & Hk & Hal). pose proof Hpv as [Hdv _].
    destruct (alloc_two s s' k) as (n & a & al & Htwo); [apply Henv|done|done|done|lia|].
    assert (is_Some (T !! d)) as [dm Hdm].
    { destruct Hdv as (_ & _ & _ & _ & [y Hy] & _). eapply rep_lookup; [|exact Hy]. eapply scratch_rep; [done|apply Henv]. }
    eapply wp_mono; [eapply (ramfs_mkdir_spec s' T parent x d dm nm mode n a al); [|done|done|done]; eapply scratch_rep; [done|apply Henv]|].
    intros ret s'' H. cbv beta in H. pose proof (scratch_dir _ _ d Hs) as Hsd. destruct (decide (is_dir s d)) as [Hd|Hd].
    + rewrite decide_True in H by tauto. destruct (decide (dm !! nm = None)) as [Hn|Hn]; destruct H as [-> H].
      * rewrite (scratch_info _ _ Hs) in H. destruct H as (HR & HV & HI). split; [done|]. split; [done|]. exists dm. split; [done|]. rewrite decide_True by done. split; [done|].
        exists n. destruct Htwo as (_ & _ & _ & Hnn). rewrite (scratch_fs _ _ Hs) in Hnn. split_and!; [by rewrite info_lookup, Hnn|done|done].
      * subst s''. split; [done|]. split; [done|]. exists dm. split; [done|]. rewrite decide_False by done. split; [done|by apply scratch_fs].
    + rewrite decide_False in H by tauto. destruct H as [-> ->]. split; [done|]. split; [done|]. split; [done|by apply scratch_fs].
Qed.

(** C10: Removing a file by its path: when the path before the last slash leads to a
    directory with such an entry that is no directory, the tree loses it and its
    bytes are freed; EISDIR, ENOENT or the error of the lookup otherwise, and then
    the tree is unchanged. *)
Theorem vfs_remove_spec s T m rv r rn q pp nm :
  path_env s T m rv r rn q pp nm → (3 + 4 * length (components (parent_of pp)) ≤ length (allocs s))%nat →
  wp (vfs_remove me q) (λ ret s', vnodes s' = vnodes s ∧
    match resolve (info s) T rn (components (parent_of pp)) with
    | inl e => ret = e ∧ fs s' = fs s
    | inr d =>
        if decide (is_dir s d) then ∃ dm, T !! d = Some dm ∧
          match dm !! nm with
          | None => ret = ENOENT ∧ fs s' = fs s
          | Some c =>
              if decide (is_dir s c) then ret = EISDIR ∧ fs s' = fs s else
              ret = EOK ∧ ramfs_rep s' (without_entry T d dm nm c) ∧ info s' = delete c (info s)
          end
        else ret = ENOTDIR ∧ fs s' = fs s
    end) s.
Proof.
  intros Henv Hen. eapply (wp_in_parent me junk ramfs_fstype); [exact Henv|done|lia| |].
  - intros e s' -> Hs HV. split; [done|]. split; [done|by apply scratch_fs].
  - intros d parent x s' -> Hs Hpv _. pose proof Hpv as [Hdv _].
    assert (ramfs_rep s' T) as HT by (eapply scratch_rep; [done|apply Henv]).
    assert (is_Some (T !! d)) as [dm Hdm] by (destruct Hdv as (_ & _ & _ & _ & [y Hy] & _); by eapply rep_lookup).
    pose proof (scratch_dir _ _ d Hs) as Hsd. destruct (decide (is_dir s d)) as [Hd|Hd].
    + eapply wp_mono; [apply (ramfs_remove_spec s' T parent x d dm nm); tauto|].
      intros ret s'' H. cbv beta in H. destruct (dm !! nm) as [c|] eqn:Hc.
      * pose proof (scratch_dir _ _ c Hs) as Hsc. destruct (decide (is_dir s c)) as [Hcd|Hcd].
        -- rewrite decide_True in H by tauto. destruct H as [-> ->]. split; [done|]. split; [done|]. exists dm. rewrite Hc.
           split; [done|]. rewrite decide_True by done. split; [done|by apply scratch_fs].
        -- rewrite decide_False in H by tauto. destruct H as (i & _ & -> & HR & HI & HV & _). split; [done|]. split; [done|].
           exists dm. rewrite Hc. split; [done|]. rewrite decide_False by done. split_and!; [done|done|].
           by rewrite <-(scratch_info _ _ Hs).
      * destruct H as [-> ->]. split; [done|]. split; [done|]. exists dm. rewrite Hc. split; [done|]. split; [done|by apply scratch_fs].
    + eapply wp_mono; [apply (wp_remove_entry s' T parent x d dm nm); try done|].
      { intros c y Hy. destruct (bool_decide_reflect (type y = RAMFS_DIRECTORY)); simpl; [done|]. intros _. by eapply rep_leaf. }
      intros ret s'' H. cbv beta in H. rewrite decide_False in H by tauto. destruct H as [-> ->]. split; [done|]. split; [done|]. split; [done|by apply scratch_fs].
Qed.

(** Opening a file that exists with O_CREAT fails with EEXIST: [kopen] goes on
    only when the file system says -EEXIST, and the RAM file system says EEXIST. *)
Theorem kopen_creat_exists s T m rv r rn q pp nm mode flags d dm :
  path_env s T m rv r rn q pp nm → nodes_fresh s → (9 + 4 * length (components (parent_of pp)) ≤ length (allocs s))%nat →
  flag flags O_CREAT = true → resolve (info s) T rn (components (parent_of pp)) = inr d → is_dir s d → T !! d = Some dm →
  is_Some (dm !! nm) →
  wp (kopen me q flags mode) (λ '(ret, file) s', ret = EEXIST ∧ file = 0 ∧ fs s' = fs s ∧ vnodes s' = vnodes s) s.
Proof.
  intros Henv Hfr Hen Hfl Hres Hd Hdm [c Hc]. unfold kopen. rewrite Hfl. apply wp_bind.
  eapply wp_mono; [by eapply vfs_create_spec|]. intros ret s' [HV H]. unfold created in H. rewrite Hres, decide_True in H by done.
  destruct H as (dm' & Hdm' & H). rewrite Hdm in Hdm'. injection Hdm' as <-. rewrite decide_False in H by congruence.
  destruct H as [-> Hf]. simpl. by apply wp_ret.
Qed.
End ramfs.

(** * On the small file system *)

Local Abbreviation demo_ops := (ramfs_ops (λ _, 0) 1000).
Lemma demo_path q pp nm : starts_slash q = true → strrchr q = Some (pp, nm) → path_env demo demo_tree 30 40 demo_root 10 q pp nm.
Proof. intros Hq Hs. constructor; [apply demo_rep|apply demo_no_links|apply demo_mount|done|done|apply demo_heap]. Qed.
Lemma demo_fresh : nodes_fresh demo.
Proof. intros a Ha. by apply demo_new. Qed.

Lemma vfs_resolve_mount_spec_witness :
  wp (vfs_resolve_mount 0 "/a//f") (λ '(ret, m, (_, rem)) _, ret = EOK ∧ m = 30) demo.
Proof.
  assert (mounted demo 30 [(30, "/")]) as Hm by (split_and!; [done|done|]; exists (mkVfs 1000 40 50 (Some RAMFS_TABLE) 0), demo_root; done).
  eapply wp_mono; [apply (vfs_resolve_mount_spec 0 demo "/a//f" [(30, "/")] 100 (tail (allocs demo)) Hm); [reflexivity|reflexivity|done]|].
  intros [[ret m] [buf rem]] s' [(-> & _ & rest & _ & [(p & Hin & _)|(_ & ? & _)])|(_ & _ & Hno)].
  - apply list_elem_of_singleton in Hin as [= -> ->]. done.
  - done.
  - assert (under "/a//f" "/") as Hu by (by eexists). by specialize (Hno 30 "/" ltac:(by left) Hu).
Defined.
(** Another file system at [/a]. *)
Definition demo2 : vfs_state ramfs_data :=
  put_vnodes (<[42 := set_path (Some "/a") demo_root]> (vnodes demo))
    (put_vfss (<[30 := mkVfs 1000 40 50 (Some RAMFS_TABLE) 31]> (<[31 := mkVfs 1000 42 50 (Some RAMFS_TABLE) 0]> ∅)) demo).
Lemma vfs_unmount_hangs_witness : @vfs_unmount _ demo_ops 0 "/a" demo2 = Hang.
Proof.
  apply (@vfs_unmount_hangs _ demo_ops 0 demo2 [(30, "/")] 31 "/a" []); [|reflexivity|done|].
  - split_and!; [done|done|]. exists (mkVfs 1000 40 50 (Some RAMFS_TABLE) 31), demo_root. do 4 (split; [done|]). split; [done|]. split; [done|].
    exists (mkVfs 1000 42 50 (Some RAMFS_TABLE) 0), (set_path (Some "/a") demo_root). done.
  - intros H%list_elem_of_singleton. done.
Defined.
Lemma vfs_lookup_spec_witness :
  wp (@vfs_lookup _ demo_ops 0 "//a/f") (λ '(ret, out) s', ret = EOK ∧ path <$> vnodes s' !! out = Some (Some "/a/f")) demo.
Proof.
  eapply wp_mono; [apply (vfs_lookup_spec 0 (λ _, 0) 1000 demo demo_tree 30 40 demo_root 10 "//a/f" demo_rep demo_no_links demo_mount eq_refl demo_heap); vm_compute; lia|].
  intros [ret out] s' (_ & _ & H). change (resolve _ _ _ _) with (inr 12 : Z + Z) in H. destruct H as (-> & x & Hat). split; [done|].
  rewrite (va_get _ _ _ _ _ _ _ Hat). simpl. by rewrite (va_path _ _ _ _ _ _ _ Hat).
Defined.
Lemma vfs_mkdir_spec_witness : wp (@vfs_mkdir _ demo_ops 0 "/a/d" 0x1ff) (λ ret s', ret = EOK ∧ vnodes s' = vnodes demo) demo.
Proof.
  eapply wp_mono; [apply (vfs_mkdir_spec 0 (λ _, 0) 1000 demo demo_tree 30 40 demo_root 10 "/a/d" "/a" "d" 0x1ff); [by apply demo_path|apply demo_fresh|vm_compute; lia]|].
  intros ret s' (HV & H). change (resolve _ _ _ _) with (inr 11 : Z + Z) in H. cbv beta iota in H. rewrite decide_True in H by done.
  destruct H as (dm & Hdm & H). injection Hdm as <-. rewrite decide_True in H by done. by destruct H as [-> _].
Defined.
Lemma vfs_remove_spec_witness : wp (@vfs_remove _ demo_ops 0 "/a/f") (λ ret s', ret = EOK ∧ info s' !! 12 = None) demo.
Proof.
  eapply wp_mono; [apply (vfs_remove_spec 0 (λ _, 0) 1000 demo demo_tree 30 40 demo_root 10 "/a/f" "/a" "f"); [by apply demo_path|vm_compute; lia]|].
  intros ret s' (_ & H). change (resolve _ _ _ _) with (inr 11 : Z + Z) in H. cbv beta iota in H. rewrite decide_True in H by done.
  destruct H as (dm & Hdm & H). assert (dm = {["f" := 12]}) as -> by (apply (inj Some); by rewrite <-Hdm). rewrite lookup_singleton_eq in H.
  rewrite decide_False in H by done. destruct H as (-> & _ & ->). by rewrite lookup_delete_eq.
Defined.
Lemma kopen_creat_exists_witness : wp (@kopen _ demo_ops 0 "/a/f" O_CREAT 0x1a4) (λ '(ret, _) _, ret = EEXIST) demo.
Proof.
  eapply wp_mono; [apply (kopen_creat_exists 0 (λ _, 0) 1000 demo demo_tree 30 40 demo_root 10 "/a/f" "/a" "f" 0x1a4 O_CREAT 11 {["f" := 12]});
    [by apply demo_path|apply demo_fresh|vm_compute; lia|done|done|done|done|by eexists]|].
  intros [ret file] s' (-> & _). done.
Defined.

(** * Where the code falls short *)

(** The result of a run, and what [f] sees of the state it leaves. *)
Definition run_demo {A B} (m : M (vfs_state ramfs_data) A) (f : A → vfs_state ramfs_data → B) : option B :=
  match m demo with Done (a, s) => Some (f a s) | _ => None end.
Definition path_at (v : Z) (s : vfs_state ramfs_data) : option string := vnodes s !! v ≫= path.

(** A link in the middle of a path drops the rest of it: the lookup of the target
    moves the static pointer of [strtok]. With [/l] a link to [/a], looking up
    [/l/f] gives the vnode of [/a], and a reference to it stays behind. *)
Lemma lookup_through_link :
  run_demo (@vfs_symlink _ demo_ops 0 "/a" "/l" ;; @vfs_lookup _ demo_ops 0 "/l/f")
    (λ '(ret, v) s, (ret, path_at v s, refcount <$> vnodes s !! v)) = Some (EOK, Some "/a", Some 2).
Proof. vm_compute. reflexivity. Qed.
(** A link to a link is not followed, and a loop of links is not noticed. *)
Lemma lookup_link_loop :
  run_demo (@vfs_symlink _ demo_ops 0 "/l2" "/l1" ;; @vfs_symlink _ demo_ops 0 "/l1" "/l2" ;; @vfs_lookup _ demo_ops 0 "/l1")
    (λ '(ret, v) s, (ret, vtype <$> vnodes s !! v)) = Some (EOK, Some VNODE_LINK).
Proof. vm_compute. reflexivity. Qed.
(** Reading the target of what is no link looks at the vnode after it is freed. *)
Lemma readlink_use_after_free : @vfs_readlink _ demo_ops 0 "/a/f" 100 demo = Fault.
Proof. vm_compute. reflexivity. Qed.
(** Opening with V_CREATE creates nothing: the RAM file system answers ENOENT and
    the code expects -ENOENT. *)
Lemma open_does_not_create : run_demo (@vfs_open _ demo_ops 0 "/new" V_CREATE) (λ r _, r) = Some (ENOENT, 0).
Proof. vm_compute. reflexivity. Qed.
