(* ===== verification/KfileTheorems.v ===== *)
(** Open files over a RAM file system: what is written through a file is read
    back through it, and what reading at the end and opening for creation do. *)
From Stdlib Require Import Ascii.
From S2P Require Import Prelude Errno Sync Vfs Kfile Ramfs VfsSpec RamfsSpec RamfsOps VfsOps RamfsTheorems.

Section kfile.
Context (me : Z) (junk : Z → Z) (ramfs_fstype : Z).
Let fs_ops : VnodeOps ramfs_data := ramfs_ops junk ramfs_fstype.
#[local] Existing Instance fs_ops | 0.
Local Abbreviation state := (vfs_state ramfs_data).
Implicit Types s : state.

(** File [file] is open on node [n], which holds the bytes [b]; it is no end of a
    pipe and not opened for appending. *)
Definition open_file s (file vn n : Z) (b : list Z) (f : kfile_t) : Prop :=
  file ≠ 0 ∧ files s !! file = Some f ∧ private_ f = vn ∧ file_at s vn n b ∧ ops <$> vnodes s !! vn = Some (Some RAMFS_TABLE) ∧
  flag (fflags f) PIPE_READ_END = false ∧ flag (fflags f) PIPE_WRITE_END = false ∧ flag (fflags f) O_APPEND = false.

Lemma wp_file_load s a f (Q : kfile_t → state → Prop) : files s !! a = Some f → Q f s → wp (file_load a) Q s.
Proof. intros H HQ. unfold wp, file_load. by rewrite H. Qed.
Lemma wp_file_store s a f g (Q : unit → state → Prop) :
  files s !! a = Some f → Q tt (put_files (<[a := g f]> (files s)) s) → wp (file_store a g) Q s.
Proof. intros H HQ. unfold wp, file_store. by rewrite H. Qed.
Lemma wp_call_op {A} s vn (op : Z → option A) g (Q : A → state → Prop) :
  ops <$> vnodes s !! vn = Some (Some RAMFS_TABLE) → op RAMFS_TABLE = Some g → Q g s → wp (call_op vn op) Q s.
Proof.
  intros Ho Hop HQ. unfold call_op. destruct (vnodes s !! vn) as [x|] eqn:Hx; [|done]. apply wp_bind. eapply wp_vn_load; [done|].
  simpl in Ho. injection Ho as ->. simpl. rewrite Hop. by apply wp_ret.
Qed.

Lemma wp_kwrite s file vn n b f d off a r (Q : Z → state → Prop) :
  open_file s file vn n b f → offset f = Z.of_nat off → d ≠ [] → Z.of_nat off + Z.of_nat (length d) < 2 ^ 31 → Z.of_nat (length b) < 2 ^ 63 →
  allocs s = a :: r → a ≠ 0 → blocks (fs s) !! a = None →
  (∀ s' f', open_file s' file vn n (written junk a b d off) f' → offset f' = Z.of_nat (off + length d) → Q (Z.of_nat (length d)) s') →
  wp (kwrite file d (Z.of_nat (length d))) Q s.
Proof.
  intros (Hf0 & Hf & Hvn & Hat & Hops & Hpr & Hpw & Hap) Hoff Hd Hfit Hb Hal Ha Hfree HQ. unfold kwrite. rewrite (proj2 (Z.eqb_neq _ _) Hf0).
  apply wp_bind. eapply wp_file_load; [done|]. rewrite Hpr, Hpw, Hap. apply wp_bind.
  assert (vn ≠ 0) as Hv0 by apply Hat. unfold vfs_write. rewrite Hvn, (proj2 (Z.eqb_neq _ _) Hv0). apply wp_bind.
  eapply wp_call_op; [done|done|]. rewrite Hoff. apply wp_bind.
  eapply wp_mono; [eapply (wp_ramfs_write junk s vn n b d off a r); try done; lia|].
  intros ret s' (-> & Hat' & HV & _ & _ & _ & HF). apply wp_ret. rewrite i32_id by lia. rewrite (proj2 (Z.ltb_ge _ _)) by lia.
  apply wp_bind. eapply wp_file_load; [by rewrite HF|]. rewrite Hoff, u64_id by lia.
  assert (∀ s'' f', s'' = put_files (<[file := f']> (files s')) s' → fflags f' = fflags f → private_ f' = vn →
    offset f' = Z.of_nat (off + length d) → Q (Z.of_nat (length d)) s'') as Hdone.
  { intros s'' f' -> Hfl Hpv Ho. apply (HQ _ f'); [|done]. split_and!; simpl; try done; [by rewrite lookup_insert_eq|by rewrite HV|by rewrite Hfl..]. }
  apply wp_bind, wp_when; intros Hsz.
  - eapply wp_file_store; [by rewrite HF|]. apply wp_bind. eapply wp_file_store; [apply lookup_insert_eq|]. apply wp_ret. simpl.
    rewrite insert_insert_eq. eapply Hdone; [done|done|done|]. simpl. rewrite Hoff, u64_id by lia. lia.
  - apply wp_bind. eapply wp_file_store; [by rewrite HF|]. apply wp_ret. eapply Hdone; [done|done|done|]. simpl. rewrite Hoff, u64_id by lia. lia.
Qed.

Lemma wp_kread s file vn n b f size off (Q : Z * option (list Z) → state → Prop) :
  open_file s file vn n b f → offset f = Z.of_nat off → Z.of_nat (length b) < 2 ^ 63 → Z.of_nat size < 2 ^ 64 → (off ≤ length b)%nat →
  (if decide (size ≤ length b ∧ off = length b)%nat then Q (EINVAL, Some (replicate size 0)) s
   else let got := Nat.min size (length b - off) in
        Q (Z.of_nat got, Some (take got (drop off b) ++ replicate (size - got) 0))
          (put_files (<[file := set_offset (Z.of_nat (off + got)) f]> (files s)) s)) →
  wp (kread file (Z.of_nat size)) Q s.
Proof.
  intros (Hf0 & Hf & Hvn & Hat & Hops & Hpr & Hpw & Hap) Hoff Hb Hsize Hlt HQ. unfold kread. rewrite (proj2 (Z.eqb_neq _ _) Hf0).
  apply wp_bind. eapply wp_file_load; [done|]. rewrite Hpr, Hpw. apply wp_bind. rewrite Hvn. eapply wp_call_op; [done|done|].
  rewrite Hoff. apply wp_bind. eapply wp_mono; [eapply (wp_ramfs_read s vn n b off size); done|].
  intros [[ret k] out] s' [-> H]. case_decide.
  - destruct H as (-> & -> & ->). simpl. apply wp_ret. exact HQ.
  - destruct H as (-> & -> & ->). simpl. apply wp_bind. eapply wp_file_store; [done|]. apply wp_ret. rewrite Hoff, u64_id by lia.
    rewrite <-Nat2Z.inj_add. exact HQ.
Qed.

Lemma wp_kseek_set s file f off (Q : Z → state → Prop) :
  file ≠ 0 → files s !! file = Some f → 0 ≤ off < 2 ^ 64 → Q off (put_files (<[file := set_offset off f]> (files s)) s) →
  wp (kseek file off SEEK_SET) Q s.
Proof.
  intros H0 Hf Hoff HQ. unfold kseek. rewrite (proj2 (Z.eqb_neq _ _) H0). apply wp_bind. eapply wp_file_store; [done|].
  apply wp_bind. eapply wp_file_load; [apply lookup_insert_eq|]. apply wp_ret. simpl. by rewrite u64_id by lia.
Qed.

(** What is written through an open file, whether or not the file has to grow, is
    what is read through it after seeking back to where it was written; both
    report the number of bytes. *)
Theorem kwrite_kread_roundtrip s file vn n b f d off a r :
  open_file s file vn n b f → offset f = Z.of_nat off → d ≠ [] → Z.of_nat off + Z.of_nat (length d) < 2 ^ 31 → Z.of_nat (length b) < 2 ^ 31 →
  allocs s = a :: r → a ≠ 0 → blocks (fs s) !! a = None →
  wp (w ← kwrite file d (Z.of_nat (length d)); kseek file (Z.of_nat off) SEEK_SET ;; g ← kread file (Z.of_nat (length d)); mret (w, g))
    (λ res _, res = (Z.of_nat (length d), (Z.of_nat (length d), Some d))) s.
Proof.
  intros Hopen Hoff Hd Hfit Hb Hal Ha Hfree. apply wp_bind. eapply wp_kwrite; [done|done|done|done|lia|done|done|done|].
  intros s' f' (Hf0 & Hf & Hrest) _. apply wp_bind. eapply wp_kseek_set; [done|done|lia|]. apply wp_bind.
  assert (0 < length d)%nat by (destruct d; [done|simpl; lia]). pose proof (length_written junk a b d off) as Hlen.
  eapply (wp_kread _ file vn n (written junk a b d off) (set_offset (Z.of_nat off) f') (length d) off); [|done|lia|lia|lia|].
  - split_and!; try done; [by simpl; rewrite lookup_insert_eq|apply Hrest..].
  - rewrite decide_False by lia. cbv zeta. rewrite Nat.min_l by lia. rewrite read_written, Nat.sub_diag, app_nil_r. by apply wp_ret.
Qed.

(** Reading at the end of a file, no more bytes than the file has, reports 22
    bytes read: [kread] changes the sign of the error of the file system, which
    is negative already, and the caller takes EINVAL for a count. *)
Theorem kread_at_end s file vn n b f size :
  open_file s file vn n b f → offset f = Z.of_nat (length b) → (size ≤ length b)%nat → Z.of_nat (length b) < 2 ^ 63 →
  kread file (Z.of_nat size) s = Done ((22, Some (replicate size 0)), s).
Proof.
  intros Hopen Hoff Hsize Hb.
  assert (wp (kread file (Z.of_nat size)) (λ r s', r = (22, Some (replicate size 0)) ∧ s' = s) s) as H.
  { eapply wp_kread; [done|done|done|lia|lia|]. by rewrite decide_True by lia. }
  apply wp_done in H as (r & s' & H & -> & ->). exact H.
Qed.

(** ** Opening *)

(** Node [n] is a file that holds the bytes [b]. *)
Definition contents s (n : Z) (b : list Z) : Prop :=
  ∃ y, rnodes (fs s) !! n = Some y ∧ type y = RAMFS_FILE ∧ rsize y = Z.of_nat (length b) ∧
  if data y =? 0 then b = [] else blocks (fs s) !! data y = Some b.

Lemma set_node_data_id x : set_node_data (node_data x) x = x.
Proof. by destruct x. Qed.
Lemma wp_ramfs_open s m vn x p n b flags file f s0 (Q : Z * Z * Z → state → Prop) :
  vnode_at s0 (vnodes s) m vn x p n → (∃ v, vfss s !! m = Some v ∧ vfs_data v ≠ 0) → contents s n b → file ≠ 0 → files s !! file = Some f →
  (∀ buf, Q (EOK, vn, file) (put_files (<[file := mkKfile buf (Z.of_nat (length b)) (fflags f) (offset f) vn]> (files s)) s)) →
  wp (ramfs_open vn flags file) Q s.
Proof.
  intros Hat (v & Hv & Hv0) (y & Hy & Hty & Hsz & _) Hf0 Hf HQ. pose proof Hat as [Hc0 Hx Hp Hpne _ Hops Hhere Hroot Hnode Hn0 _ _ _].
  unfold ramfs_open. rewrite (proj2 (Z.eqb_neq _ _) Hc0). apply wp_bind. eapply wp_vn_load; [done|]. apply wp_bind.
  eapply wp_ramfs_of; [rewrite Hroot; exact Hv|]. rewrite (proj2 (Z.eqb_neq _ _) Hv0), Hnode, (proj2 (Z.eqb_neq _ _) Hn0). simpl.
  apply wp_bind, wp_ret. apply wp_bind. rewrite (proj2 (Z.eqb_neq _ _) Hn0). simpl. apply wp_ret. simpl. apply wp_bind. eapply wp_nd_load; [done|].
  apply wp_bind. eapply wp_vn_store; [done|]. rewrite (proj2 (Z.eqb_neq _ _) Hf0). apply wp_bind. eapply wp_file_store; [done|]. apply wp_ret.
  rewrite <-Hnode, set_node_data_id, (insert_id (vnodes s) vn x Hx). rewrite Hty. simpl. rewrite Hsz.
  replace (put_vnodes (vnodes s) s) with s by (by destruct s). apply HQ.
Qed.

Lemma wp_kopen s T m rv r rn q flags mode c b (Q : Z * Z → state → Prop) :
  ramfs_rep s T → no_links s → root_mount s m rv r rn → starts_slash q = true → heap_ok s (allocs s) →
  (2 + 4 * length (components q) ≤ length (allocs s))%nat → flag flags O_CREAT = false →
  resolve (info s) T rn (components q) = inr c → contents s c b →
  (∀ s' file vn x f, file ≠ 0 → files s' !! file = Some f → private_ f = vn → offset f = 0 → fflags f = flags → fsize f = Z.of_nat (length b) →
     vnode_at s (vnodes s') m vn x (foldl join "/" (components q)) c → fs s' = fs s →
     (∃ k, (k ≤ 2 + 4 * length (components q))%nat ∧ allocs s' = drop k (allocs s)) → Q (EOK, file) s') →
  wp (kopen me q flags mode) Q s.
Proof.
  intros HT Hnl Hrm Hq Hheap Hen Hfl Hres Hc HQ. unfold kopen. rewrite Hfl. apply wp_bind, wp_ret. simpl. apply wp_bind. unfold vfs_open. apply wp_bind.
  eapply wp_mono; [eapply (wp_lookup me junk ramfs_fstype s T m rv r rn q 10 true); try done; lia|].
  intros [ret vn] s1 (Hs & _ & Hlk & Hna & k & Hk & Hal). unfold looked_up in Hlk. rewrite Hres in Hlk. destruct Hlk as (Hret & x & Hat).
  simpl in Hret, Hat, Hna. subst ret. apply wp_bind, wp_ret. simpl. pose proof Hat as [Hvn0 Hx _ _ _ Hops _ _ _ _ _ _ _].
  rewrite (proj2 (Z.eqb_neq _ _) Hvn0). apply wp_bind. eapply wp_vn_load; [done|]. rewrite Hops.
  change (op_of (Some RAMFS_TABLE) (in_table ramfs_open)) with (Some ramfs_open). cbv beta iota. apply wp_bind. unfold kfile_create. apply wp_bind.
  assert (length (drop k (allocs s)) = length (allocs s) - k)%nat as Hlen by apply length_drop.
  pose proof (heap_ok_drop _ _ k Hheap) as [_ Hok]. destruct (drop k (allocs s)) as [|file al] eqn:Hd; simpl in Hlen; [lia|].
  destruct (Hok file) as (Hf0 & _); [set_solver|]. eapply wp_vfs_kalloc; [exact Hal|]. rewrite (proj2 (Z.eqb_neq _ _) Hf0).
  apply wp_bind, wp_modify, wp_ret. rewrite (proj2 (Z.eqb_neq _ _) Hf0). apply wp_bind.
  eapply (wp_ramfs_open _ m vn x _ c b _ file _ s); [exact Hat| | |done|apply lookup_insert_eq|].
  { destruct Hrm as (v & _ & _ & Hv & _ & _ & Hv0 & _). exists v. simpl. by rewrite (scratch_vfss _ _ Hs). }
  { unfold contents in *. simpl. by rewrite (scratch_fs _ _ Hs). }
  intros buf. simpl. apply wp_bind. eapply wp_file_store; [apply lookup_insert_eq|]. apply wp_ret. simpl. apply wp_bind.
  eapply wp_file_store; [simpl; by rewrite lookup_insert_eq|]. apply wp_ret.
  eapply (HQ _ file vn x); [done|simpl; by rewrite lookup_insert_eq|done|done|done|done|exact Hat|exact (scratch_fs _ _ Hs)|].
  exists (S k). split; [lia|]. simpl. replace (S k) with (k + 1)%nat by lia. by rewrite <-drop_drop, Hd.
Qed.

(** C7: The whole way through paths, vnodes, files and nodes: opening a file by an
    absolute path, writing to it, seeking back and reading gives what was
    written, whatever the file held. *)
Theorem kopen_write_read s T m rv r rn q flags mode c b d :
  ramfs_rep s T → no_links s → root_mount s m rv r rn → starts_slash q = true → heap_ok s (allocs s) →
  (3 + 4 * length (components q) ≤ length (allocs s))%nat → (∀ a, a ∈ allocs s → blocks (fs s) !! a = None) →
  flag flags O_CREAT = false → flag flags PIPE_READ_END = false → flag flags PIPE_WRITE_END = false → flag flags O_APPEND = false →
  resolve (info s) T rn (components q) = inr c → contents s c b →
  d ≠ [] → Z.of_nat (length d) < 2 ^ 31 → Z.of_nat (length b) < 2 ^ 31 →
  wp ('(ret, file) ← kopen me q flags mode; w ← kwrite file d (Z.of_nat (length d)); kseek file 0 SEEK_SET ;;
      g ← kread file (Z.of_nat (length d)); mret (ret, w, g))
    (λ res _, res = (EOK, Z.of_nat (length d), (Z.of_nat (length d), Some d))) s.
Proof.
  intros HT Hnl Hrm Hq Hheap Hen Hblk Hfl Hf1 Hf2 Hf3 Hres Hc Hd Hld Hlb. apply wp_bind.
  eapply wp_kopen; [done..|lia|done|done|done|]. intros s' file vn x f Hf0 Hf Hpv Hoff Hff _ Hat Hfs (k & Hk & Hal). cbv beta iota.
  assert (length (drop k (allocs s)) = length (allocs s) - k)%nat as Hlen by apply length_drop.
  pose proof (heap_ok_drop _ _ k Hheap) as [_ Hok]. assert (∀ a, a ∈ drop k (allocs s) → blocks (fs s) !! a = None) as Hblk'.
  { intros a Ha. apply Hblk. rewrite <-(take_drop k (allocs s)). set_solver. }
  destruct (drop k (allocs s)) as [|a al] eqn:Hdr; simpl in Hlen; [lia|]. destruct (Hok a) as (Ha0 & _); [set_solver|].
  assert (open_file s' file vn c b f) as Hopen.
  { destruct Hat as [? Hx _ _ _ Hops _ _ ? ? _ _ _], Hc as (y & Hy & _ & Hsz & Hb). split_and!; try done; [|by rewrite Hx; simpl; rewrite Hops|by rewrite Hff..].
    split_and!; [done|done|]. exists x, y. rewrite Hfs. done. }
  assert (0 < length d)%nat by (destruct d; [done|simpl; lia]).
  apply wp_bind. eapply (wp_kwrite s' file vn c b f d 0 a al); [done|done|done|lia|lia|done|done| |].
  { rewrite Hfs. apply Hblk'. set_solver. }
  intros s2 f2 (_ & Hf' & Hrest) _. apply wp_bind. eapply wp_kseek_set; [done|done|lia|]. apply wp_bind.
  pose proof (length_written junk a b d 0) as Hlw.
  eapply (wp_kread _ file vn c (written junk a b d 0) (set_offset 0 f2) (length d) 0); [|done|lia|lia|lia|].
  - split_and!; try done; [by simpl; rewrite lookup_insert_eq|apply Hrest..].
  - rewrite decide_False by lia. cbv zeta. rewrite Nat.min_l by lia. rewrite read_written, Nat.sub_diag, app_nil_r. by apply wp_ret.
Qed.
End kfile.

(** * On the small file system *)

Lemma demo_open : open_file demo 60 41 12 [1; 2; 3] demo_handle.
Proof. split_and!; try done. split_and!; [done|done|]. eexists _, _. split_and!; [reflexivity|done|reflexivity|done|reflexivity]. Qed.
(** Two bytes at the end of the file. *)
Lemma kwrite_kread_roundtrip_witness :
  wp (w ← @kwrite _ (ramfs_ops (λ _, 0) 1000) 60 [7; 8] 2; kseek 60 3 SEEK_SET ;; g ← @kread _ (ramfs_ops (λ _, 0) 1000) 60 2; mret (w, g))
    (λ res _, res = (2, (2, Some [7; 8]))) demo.
Proof.
  apply (kwrite_kread_roundtrip (λ _, 0) 1000 demo 60 41 12 [1; 2; 3] demo_handle [7; 8] 3 100 (tail (allocs demo)) demo_open); try done; vm_compute; lia.
Defined.
Lemma kread_at_end_witness : @kread _ (ramfs_ops (λ _, 0) 1000) 60 2 demo = Done ((22, Some [0; 0]), demo).
Proof. apply (kread_at_end (λ _, 0) 1000 demo 60 41 12 [1; 2; 3] demo_handle 2 demo_open); [done|simpl; lia|simpl; lia]. Defined.
Lemma kopen_write_read_witness :
  wp ('(ret, file) ← @kopen _ (ramfs_ops (λ _, 0) 1000) 0 "/a/f" 0 0; w ← @kwrite _ (ramfs_ops (λ _, 0) 1000) file [9; 9; 9; 9] 4; kseek file 0 SEEK_SET ;;
      g ← @kread _ (ramfs_ops (λ _, 0) 1000) file 4; mret (ret, w, g))
    (λ res _, res = (EOK, 4, (4, Some [9; 9; 9; 9]))) demo.
Proof.
  apply (kopen_write_read 0 (λ _, 0) 1000 demo demo_tree 30 40 demo_root 10 "/a/f" 0 0 12 [1; 2; 3] [9; 9; 9; 9] demo_rep demo_no_links demo_mount);
    try done; [apply demo_heap|vm_compute; lia|intros a Ha; by apply demo_new|by eexists].
Defined.

(** Appending two bytes twice to the file of three: the second write goes over the
    first, since the size that the open file remembers lags behind. *)
Lemma append_overwrites :
  match (@kopen _ (ramfs_ops (λ _, 0) 1000) 0 "/a/f" O_APPEND 0 ≫= λ '(_, f),
         @kwrite _ (ramfs_ops (λ _, 0) 1000) f [7; 7] 2 ;; @kwrite _ (ramfs_ops (λ _, 0) 1000) f [8; 8] 2) demo with
  | Done (_, s) => rnodes (fs s) !! 12 ≫= (λ y, blocks (fs s) !! data y)
  | _ => None
  end = Some [1; 2; 3; 8; 8].
Proof. vm_compute. reflexivity. Qed.
