(* ===== verification/Kterm.v ===== *)
(** The terminal: [src/kernel/src/kterm/kterm.c] and [psf.c].

    The screen is an array of cells that the terminal draws into the pixels of
    the frame buffer with a bitmap font. The frame buffer and the font are memory:
    a pixel or a glyph byte outside of them is a fault, and so is a cell outside
    of the array. A [char] is its value as an unsigned byte; the comparisons of
    the code are with values below 128. *)
From S2P Require Import Prelude.

Definition FONT_WIDTH : Z := 8.
Definition TERM_ESC_PARAMS_MAX : Z := 16.
Definition MAX_ROWS : Z := 256.
Definition MAX_COLS : Z := 256.
Definition PSF1_MAGIC : Z := 0x0436.
Definition PSF1_MODE512 : Z := 1.
Definition PSF1_MODEHASTAB : Z := 2.

Record terminal_cell_t := mkCell { ch : Z; fg : Z; bg : Z }.
Inductive term_escape_state_t := TERM_ESC_NONE | TERM_ESC_SEEN | TERM_ESC_CSI.
(** [struct limine_framebuffer]: the address is not null or it is. *)
Record limine_framebuffer := mkFb {
  address : bool; width : Z; height : Z; pitch : Z; red_mask_shift : Z; green_mask_shift : Z; blue_mask_shift : Z;
}.
(** [psf1_header_t] and the bytes behind it. *)
Record psf1_font := mkPsf { magic : Z; psf_mode : Z; psf_height : Z; glyphs : list Z }.
(** Red, green and blue. *)
Definition color_t : Type := Z * Z * Z.

Record term_escape_ctx_t := mkEsc {
  state : term_escape_state_t;
  params : list Z;
  param_count : Z;
  current_param_active : bool;
  private_mode : bool;
  bright : bool;
  cursor_visible : bool;
  saved_cursor_x : Z;
  saved_cursor_y : Z;
}.
Definition set_state v e := mkEsc v (params e) (param_count e) (current_param_active e) (private_mode e) (bright e) (cursor_visible e) (saved_cursor_x e) (saved_cursor_y e).
Definition set_params v e := mkEsc (state e) v (param_count e) (current_param_active e) (private_mode e) (bright e) (cursor_visible e) (saved_cursor_x e) (saved_cursor_y e).
Definition set_param_count v e := mkEsc (state e) (params e) v (current_param_active e) (private_mode e) (bright e) (cursor_visible e) (saved_cursor_x e) (saved_cursor_y e).
Definition set_current_param_active v e := mkEsc (state e) (params e) (param_count e) v (private_mode e) (bright e) (cursor_visible e) (saved_cursor_x e) (saved_cursor_y e).
Definition set_private_mode v e := mkEsc (state e) (params e) (param_count e) (current_param_active e) v (bright e) (cursor_visible e) (saved_cursor_x e) (saved_cursor_y e).
Definition set_bright v e := mkEsc (state e) (params e) (param_count e) (current_param_active e) (private_mode e) v (cursor_visible e) (saved_cursor_x e) (saved_cursor_y e).
Definition set_cursor_visible v e := mkEsc (state e) (params e) (param_count e) (current_param_active e) (private_mode e) (bright e) v (saved_cursor_x e) (saved_cursor_y e).
Definition set_saved_cursor_x v e := mkEsc (state e) (params e) (param_count e) (current_param_active e) (private_mode e) (bright e) (cursor_visible e) v (saved_cursor_y e).
Definition set_saved_cursor_y v e := mkEsc (state e) (params e) (param_count e) (current_param_active e) (private_mode e) (bright e) (cursor_visible e) (saved_cursor_x e) v.
(** The static variables of [kterm.c], the font and the pixels. *)
Record term_state := mkTerm {
  char_cursor_x : Z;
  char_cursor_y : Z;
  old_cursor_x : Z;
  old_cursor_y : Z;
  rows : Z;
  cols : Z;
  framebuffer : option limine_framebuffer;
  init : bool;
  bg_color : color_t;
  fg_color : color_t;
  screen_buffer : gmap Z terminal_cell_t;
  scroll_base : Z;
  esc_ctx : term_escape_ctx_t;
  psf : option psf1_font;
  pixels : gmap Z Z;
}.
Definition put_char_cursor_x v s := mkTerm v (char_cursor_y s) (old_cursor_x s) (old_cursor_y s) (rows s) (cols s) (framebuffer s) (init s) (bg_color s) (fg_color s) (screen_buffer s) (scroll_base s) (esc_ctx s) (psf s) (pixels s).
Definition put_char_cursor_y v s := mkTerm (char_cursor_x s) v (old_cursor_x s) (old_cursor_y s) (rows s) (cols s) (framebuffer s) (init s) (bg_color s) (fg_color s) (screen_buffer s) (scroll_base s) (esc_ctx s) (psf s) (pixels s).
Definition put_old_cursor_x v s := mkTerm (char_cursor_x s) (char_cursor_y s) v (old_cursor_y s) (rows s) (cols s) (framebuffer s) (init s) (bg_color s) (fg_color s) (screen_buffer s) (scroll_base s) (esc_ctx s) (psf s) (pixels s).
Definition put_old_cursor_y v s := mkTerm (char_cursor_x s) (char_cursor_y s) (old_cursor_x s) v (rows s) (cols s) (framebuffer s) (init s) (bg_color s) (fg_color s) (screen_buffer s) (scroll_base s) (esc_ctx s) (psf s) (pixels s).
Definition put_rows v s := mkTerm (char_cursor_x s) (char_cursor_y s) (old_cursor_x s) (old_cursor_y s) v (cols s) (framebuffer s) (init s) (bg_color s) (fg_color s) (screen_buffer s) (scroll_base s) (esc_ctx s) (psf s) (pixels s).
Definition put_cols v s := mkTerm (char_cursor_x s) (char_cursor_y s) (old_cursor_x s) (old_cursor_y s) (rows s) v (framebuffer s) (init s) (bg_color s) (fg_color s) (screen_buffer s) (scroll_base s) (esc_ctx s) (psf s) (pixels s).
Definition put_framebuffer v s := mkTerm (char_cursor_x s) (char_cursor_y s) (old_cursor_x s) (old_cursor_y s) (rows s) (cols s) v (init s) (bg_color s) (fg_color s) (screen_buffer s) (scroll_base s) (esc_ctx s) (psf s) (pixels s).
Definition put_init v s := mkTerm (char_cursor_x s) (char_cursor_y s) (old_cursor_x s) (old_cursor_y s) (rows s) (cols s) (framebuffer s) v (bg_color s) (fg_color s) (screen_buffer s) (scroll_base s) (esc_ctx s) (psf s) (pixels s).
Definition put_bg_color v s := mkTerm (char_cursor_x s) (char_cursor_y s) (old_cursor_x s) (old_cursor_y s) (rows s) (cols s) (framebuffer s) (init s) v (fg_color s) (screen_buffer s) (scroll_base s) (esc_ctx s) (psf s) (pixels s).
Definition put_fg_color v s := mkTerm (char_cursor_x s) (char_cursor_y s) (old_cursor_x s) (old_cursor_y s) (rows s) (cols s) (framebuffer s) (init s) (bg_color s) v (screen_buffer s) (scroll_base s) (esc_ctx s) (psf s) (pixels s).
Definition put_screen_buffer v s := mkTerm (char_cursor_x s) (char_cursor_y s) (old_cursor_x s) (old_cursor_y s) (rows s) (cols s) (framebuffer s) (init s) (bg_color s) (fg_color s) v (scroll_base s) (esc_ctx s) (psf s) (pixels s).
Definition put_scroll_base v s := mkTerm (char_cursor_x s) (char_cursor_y s) (old_cursor_x s) (old_cursor_y s) (rows s) (cols s) (framebuffer s) (init s) (bg_color s) (fg_color s) (screen_buffer s) v (esc_ctx s) (psf s) (pixels s).
Definition put_esc_ctx v s := mkTerm (char_cursor_x s) (char_cursor_y s) (old_cursor_x s) (old_cursor_y s) (rows s) (cols s) (framebuffer s) (init s) (bg_color s) (fg_color s) (screen_buffer s) (scroll_base s) v (psf s) (pixels s).
Definition put_psf v s := mkTerm (char_cursor_x s) (char_cursor_y s) (old_cursor_x s) (old_cursor_y s) (rows s) (cols s) (framebuffer s) (init s) (bg_color s) (fg_color s) (screen_buffer s) (scroll_base s) (esc_ctx s) v (pixels s).
Definition put_pixels v s := mkTerm (char_cursor_x s) (char_cursor_y s) (old_cursor_x s) (old_cursor_y s) (rows s) (cols s) (framebuffer s) (init s) (bg_color s) (fg_color s) (screen_buffer s) (scroll_base s) (esc_ctx s) (psf s) v.
Definition esc_store (f : term_escape_ctx_t → term_escape_ctx_t) : M term_state unit :=
  modify (λ s, put_esc_ctx (f (esc_ctx s)) s).
Definition esc {A} (f : term_escape_ctx_t → A) : M term_state A := gets (λ s, f (esc_ctx s)).
(** [*framebuffer] and [*psf] *)
Definition fb : M term_state limine_framebuffer :=
  f ← gets framebuffer; match f with Some f => mret f | None => fault end.
Definition font : M term_state psf1_font := f ← gets psf; match f with Some f => mret f | None => fault end.
(** [screen_buffer[row][col]], whose cells are zero at first. *)
Definition cell_load (row col : Z) : M term_state terminal_cell_t :=
  if (0 <=? row) && (row <? MAX_ROWS) && (0 <=? col) && (col <? MAX_COLS)
  then gets (λ s, default (mkCell 0 0 0) (screen_buffer s !! (row * MAX_COLS + col))) else fault.
Definition cell_store (row col : Z) (c : terminal_cell_t) : M term_state unit :=
  if (0 <=? row) && (row <? MAX_ROWS) && (0 <=? col) && (col <? MAX_COLS)
  then modify (λ s, put_screen_buffer (<[row * MAX_COLS + col := c]> (screen_buffer s)) s) else fault.
Definition pixel_load (i : Z) : M term_state Z := p ← gets (λ s, pixels s !! i); match p with Some p => mret p | None => fault end.
Definition pixel_store (i v : Z) : M term_state unit :=
  p ← gets (λ s, pixels s !! i);
  match p with Some _ => modify (λ s, put_pixels (<[i := v]> (pixels s)) s) | None => fault end.

(** * [psf.c] *)

(** [psf_load] of a buffer with header and glyphs. *)
Definition psf_load (buffer : psf1_font) : M term_state Z :=
  if negb (magic buffer =? PSF1_MAGIC) then mret (-1) else
  if negb (flag (psf_mode buffer) PSF1_MODE512) && negb (flag (psf_mode buffer) PSF1_MODEHASTAB) then mret (-1) else
  modify (put_psf (Some buffer)) ;; mret 0.

Definition compose (f : limine_framebuffer) (c : color_t) : Z :=
  let '(r, g, b) := c in
  Z.lor (Z.lor (u32 (Z.shiftl r (red_mask_shift f))) (u32 (Z.shiftl g (green_mask_shift f)))) (u32 (Z.shiftl b (blue_mask_shift f))).
Definition components (f : limine_framebuffer) (rgb : Z) : color_t :=
  (Z.land (Z.shiftr rgb (red_mask_shift f)) 0xff, Z.land (Z.shiftr rgb (green_mask_shift f)) 0xff,
   Z.land (Z.shiftr rgb (blue_mask_shift f)) 0xff).

Section kterm.
(** [kernel_info.framebuffer] *)
Context (kernel_framebuffer : option limine_framebuffer).
Definition kernel_fb : M term_state limine_framebuffer :=
  match kernel_framebuffer with Some f => mret f | None => fault end.

Definition glyph_byte (p : psf1_font) (i : Z) : M term_state Z :=
  match glyphs p !! Z.to_nat i with Some b => mret b | None => fault end.
Definition psf_putc (c x y : Z) (fgc bgc : color_t) : M term_state unit :=
  p ← font;
  f ← kernel_fb;
  let targ := c * psf_height p in
  let pitch_pixels := u32 (pitch f / 4) in
  for_n 0 (Z.to_nat (psf_height p)) (λ i,
    for_n 0 8 (λ j,
      t ← glyph_byte p (targ + i);
      let color := if Z.testbit t (7 - j) then compose f fgc else compose f bgc in
      pixel_store (u64 (u64 ((y + i) * pitch_pixels) + (x + j))) color)).

(** * [kterm.c] *)

Definition ansi_palette : list Z :=
  [0x000000; 0xAA0000; 0x00AA00; 0xAA5500; 0x0000AA; 0xAA00AA; 0x00AAAA; 0xAAAAAA;
   0x555555; 0xFF5555; 0x55FF55; 0xFFFF55; 0x5555FF; 0xFF55FF; 0x55FFFF; 0xFFFFFF].
Definition default_bg_rgb : Z := 0x000000.
Definition default_fg_rgb : Z := 0xAAAAAA.

Definition cell_fg_rgb : M term_state Z := f ← fb; c ← gets fg_color; mret (compose f c).
Definition cell_bg_rgb : M term_state Z := f ← fb; c ← gets bg_color; mret (compose f c).
Definition palette (i : Z) : M term_state Z :=
  match ansi_palette !! Z.to_nat i with Some c => mret c | None => fault end.
Definition ansi_basic_to_rgb (color : Z) (bright : bool) : M term_state Z :=
  let color := if (color <? 0) || (color >? 7) then 7 else color in
  palette (color + if bright then 8 else 0).
Definition cube_levels : list Z := [0; 95; 135; 175; 215; 255].
Definition ansi_256_to_rgb (idx : Z) : M term_state Z :=
  let idx := if idx <? 0 then 0 else idx in
  if idx <? 16 then palette idx else
  f ← fb;
  if idx <? 232 then
    let cube := idx - 16 in
    match cube_levels !! Z.to_nat (cube / 36), cube_levels !! Z.to_nat ((cube / 6) `mod` 6), cube_levels !! Z.to_nat (cube `mod` 6) with
    | Some r, Some g, Some b => mret (compose f (r, g, b))
    | _, _, _ => fault
    end
  else
    let gray := u8 (8 + (idx - 232) * 10) in mret (compose f (gray, gray, gray)).

Definition no_params : list Z := replicate 16 0.
Definition reset_escape_state : M term_state unit :=
  esc_store (λ e, set_state TERM_ESC_NONE (set_param_count 0 (set_current_param_active false
                    (set_private_mode false (set_params no_params e))))).

Definition use_framebuffer : M term_state (option limine_framebuffer) :=
  f ← gets framebuffer;
  match f with Some f => mret (Some f) | None => modify (put_framebuffer kernel_framebuffer) ;; mret kernel_framebuffer end.
Definition kterm_set_bg (rgb : Z) : M term_state unit :=
  f ← use_framebuffer;
  match f with None => mret tt | Some f => modify (put_bg_color (components f rgb)) end.
Definition kterm_set_fg (rgb : Z) : M term_state unit :=
  f ← use_framebuffer;
  match f with None => mret tt | Some f => modify (put_fg_color (components f rgb)) end.
Definition reset_terminal_attributes : M term_state unit :=
  esc_store (set_bright false) ;;
  kterm_set_fg default_fg_rgb ;;
  kterm_set_bg default_bg_rgb.

Definition draw_char_at (x y c fg_rgb bg_rgb : Z) : M term_state unit :=
  p ← font;
  f ← fb;
  psf_putc c (u32 (u64 (x * FONT_WIDTH))) (u32 (u64 (y * psf_height p))) (components f fg_rgb) (components f bg_rgb).
Definition clear_cell (row col : Z) : M term_state unit :=
  f ← cell_fg_rgb; b ← cell_bg_rgb; cell_store row col (mkCell 32 f b).
(** [cell->ch ? cell->ch : ' '] *)
Definition shown (c : terminal_cell_t) : Z := if ch c =? 0 then 32 else ch c.
(** The row of the array that line [y] of the screen shows. *)
Definition real_row (y : Z) : M term_state Z := base ← gets scroll_base; mret (u64 (base + y) `mod` MAX_ROWS).

Definition render_screen : M term_state unit :=
  n ← gets rows; m ← gets cols;
  for_n 0 (Z.to_nat n) (λ y,
    row ← real_row y;
    for_n 0 (Z.to_nat m) (λ x,
      c ← cell_load row x;
      draw_char_at x y (shown c) (fg c) (bg c))).

Definition kterm_render_cursor (x y : Z) : M term_state unit :=
  i ← gets init;
  fr ← gets framebuffer;
  match fr with
  | None => mret tt
  | Some f =>
  if negb i then mret tt else
  ox ← gets old_cursor_x; oy ← gets old_cursor_y;
  when (negb (ox =? x) || negb (oy =? y))
    (row ← real_row oy; c ← cell_load row ox; draw_char_at ox oy (shown c) (fg c) (bg c)) ;;
  v ← esc cursor_visible;
  when v
    (p ← font;
     let px := u64 (x * FONT_WIDTH) in
     let py := u64 (y * psf_height p) in
     let pitch := u32 (pitch f / 4) in
     for_n 0 (Z.to_nat FONT_WIDTH) (λ i,
       for_n 0 (Z.to_nat (psf_height p)) (λ j,
         let at_ := u64 (u64 (u64 (py + j) * pitch) + u64 (px + i)) in
         color ← pixel_load at_;
         pixel_store at_ (compose f (components f color))))) ;;
  modify (λ s, put_old_cursor_y y (put_old_cursor_x x s))
  end.

Definition kterm_cls : M term_state unit :=
  fr ← gets framebuffer;
  match fr with
  | None => mret tt
  | Some f =>
  if negb (address f) then mret tt else
  bgc ← gets bg_color;
  let pitch := u32 (pitch f / 4) in
  for_n 0 (Z.to_nat (height f)) (λ y,
    let row_base := u32 (y * pitch) in
    for_n 0 (Z.to_nat (width f)) (λ x, pixel_store (row_base + x) (compose f bgc))) ;;
  for_n 0 (Z.to_nat MAX_ROWS) (λ i, for_n 0 (Z.to_nat MAX_COLS) (λ j, clear_cell i j)) ;;
  modify (λ s, put_scroll_base 0 (put_char_cursor_y 0 (put_char_cursor_x 0 s))) ;;
  reset_escape_state ;;
  render_screen ;;
  kterm_render_cursor 0 0
  end.

Definition kterm_init : M term_state unit :=
  modify (put_framebuffer kernel_framebuffer) ;;
  match kernel_framebuffer with
  | None => mret tt
  | Some f =>
  if negb (address f) then mret tt else
  p ← font;
  if psf_height p =? 0 then fault else
  modify (put_rows (height f / psf_height p)) ;;
  modify (put_cols (width f / FONT_WIDTH)) ;;
  reset_terminal_attributes ;;
  kterm_cls ;;
  render_screen ;;
  modify (put_init true)
  end.
(** [if (!init) kterm_init();] *)
Definition ensure_init : M term_state unit := i ← gets init; when (negb i) kterm_init.

Definition scroll_up_by_one : M term_state unit :=
  modify (λ s, put_scroll_base (u64 (scroll_base s + 1) `mod` MAX_ROWS) s) ;;
  base ← gets scroll_base; n ← gets rows;
  let new_line := u64 (u64 (base + n) - 1) `mod` MAX_ROWS in
  for_n 0 (Z.to_nat MAX_COLS) (λ i, clear_cell new_line i) ;;
  render_screen.

(** A coordinate within [n] rows or columns. *)
Definition clamp (x n : Z) : Z := if x >=? n then (if n =? 0 then 0 else n - 1) else x.
Definition render_here : M term_state unit :=
  x ← gets char_cursor_x; y ← gets char_cursor_y; kterm_render_cursor x y.
Definition kterm_move_cursor (x y : Z) : M term_state unit :=
  ensure_init ;;
  m ← gets cols; n ← gets rows;
  modify (λ s, put_char_cursor_y (clamp y n) (put_char_cursor_x (clamp x m) s)) ;;
  render_here.
Definition kterm_save_cursor : M term_state unit :=
  x ← gets char_cursor_x; y ← gets char_cursor_y;
  esc_store (λ e, set_saved_cursor_y y (set_saved_cursor_x x e)).
Definition kterm_restore_cursor : M term_state unit :=
  x ← esc saved_cursor_x; y ← esc saved_cursor_y; kterm_move_cursor x y.

(** [for (x = start; x <= end && x < cols; x++) clear_cell(row, x)] *)
Definition clear_cells (row start end_ : Z) : M term_state unit :=
  m ← gets cols;
  for_n start (Z.to_nat (Z.min (end_ + 1) m - start)) (λ x, clear_cell row x).
Definition last_col : M term_state Z := m ← gets cols; mret (if m =? 0 then 0 else m - 1).
Definition kterm_clear_line (mode : Z) : M term_state unit :=
  ensure_init ;;
  x ← gets char_cursor_x; y ← gets char_cursor_y;
  row ← real_row y;
  e ← last_col;
  clear_cells row (if mode =? 0 then x else 0) (if mode =? 1 then x else e) ;;
  render_screen ;;
  render_here.
Definition kterm_clear_screen (mode : Z) : M term_state unit :=
  ensure_init ;;
  if (mode =? 2) || (mode =? 3) then kterm_cls else
  n ← gets rows;
  cx ← gets char_cursor_x; cy ← gets char_cursor_y;
  for_n 0 (Z.to_nat n) (λ y,
    row ← real_row y;
    e ← last_col;
    if (mode =? 0) && (y <? cy) then mret tt else
    if (mode =? 1) && (y >? cy) then mret tt else
    clear_cells row (if (mode =? 0) && (y =? cy) then cx else 0) (if (mode =? 1) && (y =? cy) then cx else e)) ;;
  render_screen ;;
  render_here.

(** ** Escape sequences *)

(** [esc_ctx.params[i]] *)
Definition param (i : Z) : M term_state Z :=
  l ← esc params; match l !! Z.to_nat i with Some p => mret p | None => fault end.
Definition set_param (i v : Z) : M term_state unit :=
  l ← esc params;
  if (0 <=? i) && (i <? TERM_ESC_PARAMS_MAX) then esc_store (set_params (<[Z.to_nat i := v]> l)) else fault.

(** [if (is_fg) kterm_set_fg(rgb); else kterm_set_bg(rgb);] *)
Definition set_color (is_fg : bool) (rgb : Z) : M term_state unit := if is_fg then kterm_set_fg rgb else kterm_set_bg rgb.
(** A parameter of the [m] command: the index of the next one. *)
Definition sgr_round (i : Z) : M term_state (Z + unit) :=
  n ← esc param_count;
  if negb (i <? n) then mret (inr tt) else
  p ← param i;
  if p =? 0 then reset_terminal_attributes ;; mret (inl (i + 1)) else
  if p =? 1 then esc_store (set_bright true) ;; mret (inl (i + 1)) else
  if p =? 22 then esc_store (set_bright false) ;; mret (inl (i + 1)) else
  if p =? 7 then f ← cell_fg_rgb; b ← cell_bg_rgb; kterm_set_fg b ;; kterm_set_bg f ;; mret (inl (i + 1)) else
  if p =? 27 then reset_terminal_attributes ;; mret (inl (i + 1)) else
  if p =? 39 then kterm_set_fg default_fg_rgb ;; mret (inl (i + 1)) else
  if p =? 49 then kterm_set_bg default_bg_rgb ;; mret (inl (i + 1)) else
  if (p >=? 30) && (p <=? 37) then b ← esc bright; c ← ansi_basic_to_rgb (p - 30) b; kterm_set_fg c ;; mret (inl (i + 1)) else
  if (p >=? 40) && (p <=? 47) then c ← ansi_basic_to_rgb (p - 40) false; kterm_set_bg c ;; mret (inl (i + 1)) else
  if (p >=? 90) && (p <=? 97) then c ← ansi_basic_to_rgb (p - 90) true; kterm_set_fg c ;; mret (inl (i + 1)) else
  if (p >=? 100) && (p <=? 107) then c ← ansi_basic_to_rgb (p - 100) true; kterm_set_bg c ;; mret (inl (i + 1)) else
  if ((p =? 38) || (p =? 48)) && (i + 1 <? n) then
    mode ← param (i + 1);
    if (mode =? 5) && (i + 2 <? n) then
      q ← param (i + 2); c ← ansi_256_to_rgb q; set_color (p =? 38) c ;; mret (inl (i + 3))
    else if (mode =? 2) && (i + 4 <? n) then
      r ← param (i + 2); g ← param (i + 3); b ← param (i + 4);
      f ← fb;
      set_color (p =? 38) (compose f (u8 r, u8 g, u8 b)) ;; mret (inl (i + 5))
    else mret (inl (i + 2))
  else mret (inl (i + 1)).
Definition term_apply_sgr : M term_state unit :=
  n ← esc param_count;
  if n =? 0 then reset_terminal_attributes else
  loop (S (Z.to_nat TERM_ESC_PARAMS_MAX)) sgr_round 0.

(** The letters of the commands. *)
Definition term_execute_csi (cmd : Z) : M term_state unit :=
  n ← esc param_count;
  p0 ← (if n >? 0 then param 0 else mret 0);
  p1 ← (if n >? 1 then param 1 else mret 0);
  let k := if p0 >? 0 then p0 else 1 in
  x ← gets char_cursor_x; y ← gets char_cursor_y;
  if cmd =? 65 (* A *) then kterm_move_cursor x (if y >? k then y - k else 0) else
  if cmd =? 66 (* B *) then kterm_move_cursor x (u64 (y + k)) else
  if cmd =? 67 (* C *) then kterm_move_cursor (u64 (x + k)) y else
  if cmd =? 68 (* D *) then kterm_move_cursor (if x >? k then x - k else 0) y else
  if cmd =? 69 (* E *) then kterm_move_cursor 0 (u64 (y + k)) else
  if cmd =? 70 (* F *) then kterm_move_cursor 0 (if y >? k then y - k else 0) else
  if cmd =? 71 (* G *) then kterm_move_cursor (if p0 >? 0 then p0 - 1 else 0) y else
  if (cmd =? 72 (* H *)) || (cmd =? 102 (* f *))
  then kterm_move_cursor (if p1 >? 0 then p1 - 1 else 0) (if p0 >? 0 then p0 - 1 else 0) else
  if cmd =? 74 (* J *) then kterm_clear_screen p0 else
  if cmd =? 75 (* K *) then kterm_clear_line p0 else
  if cmd =? 109 (* m *) then term_apply_sgr else
  if cmd =? 115 (* s *) then kterm_save_cursor else
  if cmd =? 117 (* u *) then kterm_restore_cursor else
  pm ← esc private_mode;
  if (cmd =? 104 (* h *)) && pm && (p0 =? 25) then esc_store (set_cursor_visible true) ;; render_here else
  if (cmd =? 108 (* l *)) && pm && (p0 =? 25) then esc_store (set_cursor_visible false) ;; render_here else
  mret tt.

(** [esc_ctx.params[esc_ctx.param_count++] = 0] *)
Definition new_param : M term_state unit :=
  n ← esc param_count; esc_store (set_param_count (n + 1)) ;; set_param n 0.
Definition term_handle_escape (c : Z) : M term_state unit :=
  st ← esc state;
  match st with
  | TERM_ESC_SEEN =>
      if c =? 91 (* [ *) then
        esc_store (λ e, set_state TERM_ESC_CSI (set_param_count 0 (set_current_param_active false
                          (set_private_mode false (set_params no_params e)))))
      else reset_escape_state
  | TERM_ESC_CSI =>
      if c =? 63 (* ? *) then esc_store (set_private_mode true) else
      active ← esc current_param_active;
      n ← esc param_count;
      let fresh := negb active && (n <? TERM_ESC_PARAMS_MAX) in
      if (48 <=? c) && (c <=? 57) then
        when fresh (esc_store (set_current_param_active true) ;; new_param) ;;
        n ← esc param_count;
        when (n >? 0) (p ← param (n - 1); set_param (n - 1) (i32 (i32 (p * 10) + (c - 48))))
      else if c =? 59 (* ; *) then
        when fresh new_param ;;
        esc_store (set_current_param_active false)
      else
      when ((0x40 <=? c) && (c <=? 0x7e)) (term_execute_csi c) ;;
      reset_escape_state
  | TERM_ESC_NONE => reset_escape_state
  end.

(** ** Characters *)

(** The end of [term_raw_putc]: the next line, and scrolling. *)
Definition wrap_cursor : M term_state unit :=
  m ← gets cols; n ← gets rows;
  x ← gets char_cursor_x;
  when (x >=? m) (modify (λ s, put_char_cursor_y (u64 (char_cursor_y s + 1)) (put_char_cursor_x 0 s))) ;;
  y ← gets char_cursor_y;
  when (y >=? n) (modify (put_char_cursor_y (u64 (n - 1))) ;; scroll_up_by_one) ;;
  render_here.
Definition put_char (c : Z) : M term_state unit :=
  x ← gets char_cursor_x; y ← gets char_cursor_y;
  if c =? 10 (* \n *) then modify (λ s, put_char_cursor_y (u64 (y + 1)) (put_char_cursor_x 0 s)) else
  if c =? 13 (* \r *) then modify (put_char_cursor_x 0) else
  if c =? 8 (* \b *) then
    when (x >? 0)
      (modify (put_char_cursor_x (x - 1)) ;;
       row ← real_row y;
       clear_cell row (x - 1) ;;
       d ← cell_load row (x - 1);
       draw_char_at (x - 1) y (ch d) (fg d) (bg d))
  else
  row ← real_row y;
  f ← cell_fg_rgb; b ← cell_bg_rgb;
  cell_store row x (mkCell c f b) ;;
  draw_char_at x y c f b ;;
  modify (put_char_cursor_x (u64 (x + 1))).
Definition term_raw_putc (c : Z) : M term_state unit :=
  if c =? 9 (* \t *) then for_n 0 4 (λ _, put_char 32 ;; wrap_cursor) else put_char c ;; wrap_cursor.

Definition kterm_putc (c : Z) : M term_state unit :=
  ensure_init ;;
  st ← esc state;
  match st with
  | TERM_ESC_NONE => if c =? 27 then esc_store (set_state TERM_ESC_SEEN) else term_raw_putc c
  | _ => term_handle_escape c
  end.
Definition kterm_puts (str : list Z) : M term_state unit :=
  ensure_init ;; for_each str kterm_putc.
End kterm.
