(* ===== verification/KtermSpec.v ===== *)
(** The terminal stays in its memory: what drawing and clearing need of the frame
    buffer, the font and the cells, and what they leave. *)
From S2P Require Import Prelude Kterm.

#[local] Arguments for_n : simpl never.
#[local] Arguments Z.mul : simpl never.
#[local] Arguments Z.add : simpl never.

(** A frame buffer whose lines hold its width, and whose size fits the code's
    32-bit indices; a font with 256 glyphs at least; as many columns and rows as
    there are cells. *)
Record screen_ok (f : limine_framebuffer) (p : psf1_font) : Prop := {
  so_address : address f = true;
  so_pitch : 0 ≤ width f ≤ pitch f / 4;
  so_pitch32 : 0 ≤ pitch f / 4 < 2 ^ 32;
  so_size : pitch f / 4 * height f < 2 ^ 32;
  so_height : 0 ≤ height f < 2 ^ 32;
  so_font : 0 < psf_height p < 256;
  so_glyphs : 256 * psf_height p ≤ Z.of_nat (length (glyphs p));
  so_cols : 0 < width f / FONT_WIDTH ≤ MAX_COLS;
  so_rows : 0 < height f / psf_height p ≤ MAX_ROWS;
}.

Definition covered (f : limine_framebuffer) (px : gmap Z Z) : Prop := ∀ i, 0 ≤ i < pitch f / 4 * height f → is_Some (px !! i).
Definition cells_ok (sb : gmap Z terminal_cell_t) : Prop := ∀ i c, sb !! i = Some c → 0 ≤ ch c < 256.
Definition params_ok (e : term_escape_ctx_t) : Prop :=
  length (params e) = 16%nat ∧ 0 ≤ param_count e ≤ 16 ∧ 0 ≤ saved_cursor_x e ∧ 0 ≤ saved_cursor_y e.

(** What the terminal keeps, with frame buffer [f] and font [p]. *)
Record term_inv (f : limine_framebuffer) (p : psf1_font) (s : term_state) : Prop := {
  ti_fb : framebuffer s = Some f;
  ti_psf : psf s = Some p;
  ti_rows : rows s = height f / psf_height p;
  ti_cols : cols s = width f / FONT_WIDTH;
  ti_pixels : covered f (pixels s);
  ti_cells : cells_ok (screen_buffer s);
  ti_x : 0 ≤ char_cursor_x s < width f / FONT_WIDTH;
  ti_y : 0 ≤ char_cursor_y s < height f / psf_height p;
  ti_ox : 0 ≤ old_cursor_x s < width f / FONT_WIDTH;
  ti_oy : 0 ≤ old_cursor_y s < height f / psf_height p;
  ti_scroll : 0 ≤ scroll_base s < MAX_ROWS;
  ti_esc : params_ok (esc_ctx s);
}.

Section terminal.
Context (f : limine_framebuffer) (p : psf1_font) (Hok : screen_ok f p).
Implicit Types s : term_state.
Local Abbreviation kfb := (Some f).

Lemma screen_bounds : width f / 8 * 8 ≤ width f ∧ height f / psf_height p * psf_height p ≤ height f.
Proof.
  destruct Hok. split; [pose proof (Z.mul_div_le (width f) 8); lia|]. pose proof (Z.mul_div_le (height f) (psf_height p)). lia.
Qed.

(** * Drawing *)

(** Only pixels change, and none gets lost. *)
Definition drawn s s' : Prop := ∃ px, s' = put_pixels px s ∧ covered f px.
Lemma drawn_refl s : covered f (pixels s) → drawn s s.
Proof. intros H. exists (pixels s). split; [by destruct s|done]. Qed.
Lemma drawn_trans s s' s'' : drawn s s' → drawn s' s'' → drawn s s''.
Proof. intros (px & -> & _) (px' & -> & H). by exists px'. Qed.
Lemma drawn_covered s s' : drawn s s' → covered f (pixels s').
Proof. by intros (px & -> & H). Qed.

Lemma wp_pixel_store s i v (Q : unit → term_state → Prop) :
  covered f (pixels s) → 0 ≤ i < pitch f / 4 * height f → (∀ s', drawn s s' → Q tt s') → wp (pixel_store i v) Q s.
Proof.
  intros Hc Hi HQ. unfold pixel_store. apply wp_bind, wp_gets. destruct (Hc i Hi) as [q ->]. apply wp_modify, HQ. eexists. split; [done|].
  intros j Hj. destruct (decide (i = j)) as [->|]; [rewrite lookup_insert_eq; by eexists|rewrite lookup_insert_ne by done; by apply Hc].
Qed.
Lemma wp_pixel_load s i (Q : Z → term_state → Prop) :
  covered f (pixels s) → 0 ≤ i < pitch f / 4 * height f → (∀ v, Q v s) → wp (pixel_load i) Q s.
Proof. intros Hc Hi HQ. unfold pixel_load. apply wp_bind, wp_gets. destruct (Hc i Hi) as [q ->]. by apply wp_ret. Qed.

(** A loop that draws. *)
Lemma wp_for_drawn s lo n body (Q : unit → term_state → Prop) :
  covered f (pixels s) →
  (∀ i s', lo ≤ i < lo + Z.of_nat n → drawn s s' → wp (body i) (λ _ s'', drawn s' s'') s') →
  (∀ s', drawn s s' → Q tt s') → wp (for_n lo n body) Q s.
Proof.
  intros Hc Hb HQ. apply (wp_for_n (λ _ s', drawn s s')); [by apply drawn_refl| |done].
  intros i s' Hi Hd. eapply wp_mono; [by apply Hb|]. intros [] s''. by apply drawn_trans.
Qed.

(** The pixel at column [a] of line [b]. *)
Lemma pixel_bounds a b : 0 ≤ a < width f → 0 ≤ b < height f → 0 ≤ b * (pitch f / 4) + a < pitch f / 4 * height f.
Proof. intros Ha Hb. destruct Hok. nia. Qed.

Lemma wp_font s (Q : psf1_font → term_state → Prop) : psf s = Some p → Q p s → wp font Q s.
Proof. intros Hp HQ. unfold font. apply wp_bind, wp_gets. rewrite Hp. by apply wp_ret. Qed.
Lemma wp_fb s (Q : limine_framebuffer → term_state → Prop) : framebuffer s = Some f → Q f s → wp fb Q s.
Proof. intros Hp HQ. unfold fb. apply wp_bind, wp_gets. rewrite Hp. by apply wp_ret. Qed.

Lemma wp_psf_putc s c x y fgc bgc (Q : unit → term_state → Prop) :
  psf s = Some p → covered f (pixels s) → 0 ≤ c < 256 → 0 ≤ x → x + 8 ≤ width f → 0 ≤ y → y + psf_height p ≤ height f →
  (∀ s', drawn s s' → Q tt s') → wp (psf_putc kfb c x y fgc bgc) Q s.
Proof.
  intros Hp Hc Hch Hx Hx' Hy Hy' HQ. unfold psf_putc. apply wp_bind, wp_font; [done|]. apply wp_bind, wp_ret. pose proof Hok as [].
  apply wp_for_drawn; [done| |done]. intros i s' Hi Hd. apply wp_for_drawn; [by eapply drawn_covered| |done].
  intros j s'' Hj Hd'. apply wp_bind. unfold glyph_byte.
  assert (is_Some (glyphs p !! Z.to_nat (c * psf_height p + i))) as [t ->] by (apply lookup_lt_is_Some; nia).
  apply wp_ret. rewrite u32_id by lia. pose proof (pixel_bounds (x + j) (y + i) ltac:(lia) ltac:(lia)) as Hb.
  rewrite (u64_id ((y + i) * _)), u64_id by nia. apply wp_pixel_store; [by eapply drawn_covered|lia|done].
Qed.

Lemma wp_draw_char_at s x y c a b (Q : unit → term_state → Prop) :
  psf s = Some p → framebuffer s = Some f → covered f (pixels s) → 0 ≤ c < 256 → 0 ≤ x < width f / 8 → 0 ≤ y < height f / psf_height p →
  (∀ s', drawn s s' → Q tt s') → wp (draw_char_at kfb x y c a b) Q s.
Proof.
  intros Hp Hf Hc Hch Hx Hy HQ. unfold draw_char_at. apply wp_bind, wp_font; [done|]. apply wp_bind, wp_fb; [done|].
  destruct screen_bounds as [H1 H2]. pose proof Hok as []. unfold FONT_WIDTH in *.
  assert (pitch f / 4 ≤ 2 ^ 32) by lia. assert (0 ≤ y * psf_height p ∧ y * psf_height p + psf_height p ≤ height f) by nia.
  assert (width f < 2 ^ 32) by lia. rewrite (u64_id (x * 8)), (u64_id (y * _)), !u32_id by lia.
  apply wp_psf_putc; try done; lia.
Qed.

(** * What changes *)

(** Pixels, and where the cursor was drawn last. *)
Definition redrawn s s' : Prop := ∃ px ox oy, s' = put_old_cursor_y oy (put_old_cursor_x ox (put_pixels px s)) ∧ covered f px ∧
  0 ≤ ox < width f / FONT_WIDTH ∧ 0 ≤ oy < height f / psf_height p.
(** Cells. *)
Definition wiped s s' : Prop := ∃ sb, s' = put_screen_buffer sb s ∧ cells_ok sb.
Local Abbreviation inv := (term_inv f p).

Lemma redrawn_refl s : inv s → redrawn s s.
Proof. intros []. exists (pixels s), (old_cursor_x s), (old_cursor_y s). split; [by destruct s|done]. Qed.
Lemma redrawn_trans s s' s'' : redrawn s s' → redrawn s' s'' → redrawn s s''.
Proof. intros (? & ? & ? & -> & _) (px & ox & oy & -> & H). by exists px, ox, oy. Qed.
Lemma drawn_redrawn s s' : inv s → drawn s s' → redrawn s s'.
Proof. intros [] (px & -> & H). exists px, (old_cursor_x s), (old_cursor_y s). split; [by destruct s|done]. Qed.
Lemma redrawn_inv s s' : inv s → redrawn s s' → inv s'.
Proof. intros [] (px & ox & oy & -> & Hc & Hx & Hy). by constructor. Qed.
Lemma drawn_inv s s' : inv s → drawn s s' → inv s'.
Proof. intros H Hd. eapply redrawn_inv; [done|]. by apply drawn_redrawn. Qed.
Lemma wiped_refl s : inv s → wiped s s.
Proof. intros []. exists (screen_buffer s). split; [by destruct s|done]. Qed.
Lemma wiped_trans s s' s'' : wiped s s' → wiped s' s'' → wiped s s''.
Proof. intros (? & -> & _) (sb & -> & H). by exists sb. Qed.
Lemma wiped_inv s s' : inv s → wiped s s' → inv s'.
Proof. intros [] (sb & -> & Hc). by constructor. Qed.

(** * Cells *)

Lemma in_screen row col : 0 ≤ row < MAX_ROWS → 0 ≤ col < MAX_COLS →
  (0 <=? row) && (row <? MAX_ROWS) && (0 <=? col) && (col <? MAX_COLS) = true.
Proof. intros Hr Hc. rewrite !(proj2 (Z.leb_le _ _)), !(proj2 (Z.ltb_lt _ _)) by lia. done. Qed.
Definition cell_at s (row col : Z) : terminal_cell_t := default (mkCell 0 0 0) (screen_buffer s !! (row * MAX_COLS + col)).
Lemma wp_cell_load s row col (Q : terminal_cell_t → term_state → Prop) :
  0 ≤ row < MAX_ROWS → 0 ≤ col < MAX_COLS → Q (cell_at s row col) s → wp (cell_load row col) Q s.
Proof. intros Hr Hc HQ. unfold cell_load. rewrite in_screen by done. by apply wp_gets. Qed.
Lemma wp_cell_store s row col c (Q : unit → term_state → Prop) :
  0 ≤ row < MAX_ROWS → 0 ≤ col < MAX_COLS → Q tt (put_screen_buffer (<[row * MAX_COLS + col := c]> (screen_buffer s)) s) →
  wp (cell_store row col c) Q s.
Proof. intros Hr Hc HQ. unfold cell_store. rewrite in_screen by done. by apply wp_modify. Qed.
Lemma cell_at_ok s row col : cells_ok (screen_buffer s) → 0 ≤ ch (cell_at s row col) < 256.
Proof.
  intros H. unfold cell_at. destruct (screen_buffer s !! (row * MAX_COLS + col)) as [c|] eqn:Hc; simpl; [by eapply H|lia].
Qed.
Lemma shown_ok s row col : cells_ok (screen_buffer s) → 0 ≤ shown (cell_at s row col) < 256.
Proof. intros H%(cell_at_ok s row col). unfold shown. destruct (ch (cell_at s row col) =? 0); lia. Qed.

(** A cleared cell. *)
Definition blank s : terminal_cell_t := mkCell 32 (compose f (fg_color s)) (compose f (bg_color s)).
Lemma wp_cell_fg s (Q : Z → term_state → Prop) : framebuffer s = Some f → Q (compose f (fg_color s)) s → wp cell_fg_rgb Q s.
Proof. intros Hf HQ. apply wp_bind, wp_fb; [done|]. apply wp_bind, wp_gets. by apply wp_ret. Qed.
Lemma wp_cell_bg s (Q : Z → term_state → Prop) : framebuffer s = Some f → Q (compose f (bg_color s)) s → wp cell_bg_rgb Q s.
Proof. intros Hf HQ. apply wp_bind, wp_fb; [done|]. apply wp_bind, wp_gets. by apply wp_ret. Qed.
Lemma wp_clear_cell s row col (Q : unit → term_state → Prop) :
  framebuffer s = Some f → 0 ≤ row < MAX_ROWS → 0 ≤ col < MAX_COLS →
  Q tt (put_screen_buffer (<[row * MAX_COLS + col := blank s]> (screen_buffer s)) s) → wp (clear_cell row col) Q s.
Proof.
  intros Hf Hr Hc HQ. unfold clear_cell. apply wp_bind, wp_cell_fg; [done|]. apply wp_bind, wp_cell_bg; [done|]. by apply wp_cell_store.
Qed.
(** The cells from [lo] up to [hi] are cleared. *)
Definition cleared s (lo hi : Z) s' : Prop :=
  ∃ sb, s' = put_screen_buffer sb s ∧ ∀ i, sb !! i = if (lo <=? i) && (i <? hi) then Some (blank s) else screen_buffer s !! i.
Lemma cleared_wiped s lo hi s' : cells_ok (screen_buffer s) → cleared s lo hi s' → wiped s s'.
Proof.
  intros Hc (sb & -> & Hsb). exists sb. split; [done|]. intros i c. rewrite Hsb. destruct ((lo <=? i) && (i <? hi)); [|by apply Hc].
  intros [= <-]. simpl. lia.
Qed.
Lemma wp_clear_range s row lo n (Q : unit → term_state → Prop) :
  framebuffer s = Some f → 0 ≤ row < MAX_ROWS → 0 ≤ lo → lo + Z.of_nat n ≤ MAX_COLS →
  (∀ s', cleared s (row * MAX_COLS + lo) (row * MAX_COLS + lo + Z.of_nat n) s' → Q tt s') →
  wp (for_n lo n (λ x, clear_cell row x)) Q s.
Proof.
  intros Hf Hr Hlo Hn HQ.
  apply (wp_for_n (λ i s', cleared s (row * MAX_COLS + lo) (row * MAX_COLS + i) s')).
  - exists (screen_buffer s). split; [by destruct s|]. intros i.
    destruct (Z.leb_spec (row * MAX_COLS + lo) i), (Z.ltb_spec i (row * MAX_COLS + lo)); simpl; try done; lia.
  - intros i s' Hi (sb & -> & Hsb). apply wp_clear_cell; [done|done|lia|]. eexists. split; [done|]. intros j. simpl.
    destruct (decide (j = row * MAX_COLS + i)) as [->|Hne].
    + rewrite lookup_insert_eq, (proj2 (Z.leb_le _ _)), (proj2 (Z.ltb_lt _ _)) by lia. done.
    + rewrite lookup_insert_ne, Hsb by done. destruct (Z.leb_spec (row * MAX_COLS + lo) j); simpl; [|done].
      destruct (Z.ltb_spec j (row * MAX_COLS + i)), (Z.ltb_spec j (row * MAX_COLS + (i + 1))); try done; lia.
  - intros s' H. apply HQ. by rewrite Z.add_assoc in H.
Qed.

(** * Rendering *)

Lemma wp_real_row s y (Q : Z → term_state → Prop) :
  0 ≤ scroll_base s < MAX_ROWS → 0 ≤ y < 2 ^ 32 → Q ((scroll_base s + y) `mod` MAX_ROWS) s → wp (real_row y) Q s.
Proof. intros Hs Hy HQ. unfold real_row. apply wp_bind, wp_gets, wp_ret. by rewrite u64_id by (unfold MAX_ROWS in *; lia). Qed.
Lemma row_bounds y : 0 ≤ y `mod` MAX_ROWS < MAX_ROWS.
Proof. apply Z.mod_pos_bound. done. Qed.

Lemma wp_render_screen s (Q : unit → term_state → Prop) : inv s → (∀ s', drawn s s' → Q tt s') → wp (render_screen kfb) Q s.
Proof.
  intros Hi HQ. unfold render_screen. apply wp_bind, wp_gets, wp_bind, wp_gets. rewrite (ti_rows _ _ _ Hi), (ti_cols _ _ _ Hi).
  pose proof Hok as []. apply wp_for_drawn; [apply Hi| |done]. intros y s' Hy Hd. pose proof (drawn_inv _ _ Hi Hd) as Hi'.
  apply wp_bind. apply wp_real_row; [apply Hi'|unfold MAX_ROWS in *; lia|]. apply wp_for_drawn; [apply Hi'| |done]. intros x s'' Hx Hd'.
  pose proof (drawn_inv _ _ Hi' Hd') as Hi''. apply wp_bind. apply wp_cell_load; [apply row_bounds|unfold FONT_WIDTH, MAX_COLS in *; lia|].
  apply wp_draw_char_at; try apply Hi''; try done; [apply shown_ok, Hi''|unfold FONT_WIDTH in *; lia|lia].
Qed.

Lemma wp_render_cursor s x y (Q : unit → term_state → Prop) :
  inv s → 0 ≤ x < width f / FONT_WIDTH → 0 ≤ y < height f / psf_height p → (∀ s', redrawn s s' → Q tt s') → wp (kterm_render_cursor kfb x y) Q s.
Proof.
  intros Hi Hx Hy HQ. unfold kterm_render_cursor. apply wp_bind, wp_gets, wp_bind, wp_gets. rewrite (ti_fb _ _ _ Hi).
  destruct (init s); simpl; [|apply wp_ret, HQ; by apply redrawn_refl]. apply wp_bind, wp_gets, wp_bind, wp_gets. apply wp_bind.
  pose proof Hok as []. destruct screen_bounds as [HW HH].
  assert (wp (when (negb (old_cursor_x s =? x) || negb (old_cursor_y s =? y)) (row ← real_row (old_cursor_y s); c ← cell_load row (old_cursor_x s);
    draw_char_at kfb (old_cursor_x s) (old_cursor_y s) (shown c) (fg c) (bg c))) (λ _ s', drawn s s') s) as Hold.
  { apply wp_when; intros _; [|apply drawn_refl, Hi]. pose proof (ti_oy _ _ _ Hi). pose proof (ti_ox _ _ _ Hi). apply wp_bind.
    apply wp_real_row; [apply Hi|unfold MAX_ROWS in *; lia|]. apply wp_bind.
    apply wp_cell_load; [apply row_bounds|unfold FONT_WIDTH, MAX_COLS in *; lia|].
    apply wp_draw_char_at; try apply Hi; try done. apply shown_ok, Hi. }
  eapply wp_mono; [exact Hold|]. intros [] s1 Hd1. pose proof (drawn_inv _ _ Hi Hd1) as Hi1. apply wp_bind, wp_gets, wp_bind.
  assert (∀ s2, drawn s1 s2 → wp (modify (λ s, put_old_cursor_y y (put_old_cursor_x x s))) Q s2) as Hend.
  { intros s2 Hd2. apply wp_modify, HQ. destruct (drawn_trans _ _ _ Hd1 Hd2) as (px & -> & Hc). by exists px, x, y. }
  apply wp_when; intros _; [|by apply Hend, drawn_refl, Hi1].
  apply wp_bind, wp_font; [apply Hi1|]. cbv zeta. apply wp_for_drawn; [apply Hi1| |done]. intros i s2 Hib Hd2.
  apply wp_for_drawn; [by eapply drawn_covered| |done]. intros j s3 Hj Hd3. unfold FONT_WIDTH in *.
  assert (0 ≤ y * psf_height p ∧ y * psf_height p + psf_height p ≤ height f) by nia.
  pose proof (pixel_bounds (x * 8 + i) (y * psf_height p + j) ltac:(lia) ltac:(lia)) as Hb.
  rewrite (u64_id (x * 8)), (u64_id (y * _)), (u64_id (x * 8 + i)), (u64_id (y * psf_height p + j)), u32_id by lia.
  rewrite (u64_id (_ * (pitch f / 4))), (u64_id (_ + (x * 8 + i))) by nia. apply wp_bind.
  apply wp_pixel_load; [by eapply drawn_covered|lia|]. intros v. apply wp_pixel_store; [by eapply drawn_covered|lia|done].
Qed.

(** * Code that keeps the invariant *)

Definition keeps {A} (m : M term_state A) : Prop := ∀ s, inv s → wp m (λ _ s', inv s' ∧ init s' = init s) s.

Lemma keeps_ret {A} (a : A) : keeps (mret a).
Proof. intros s Hs. by apply wp_ret. Qed.
Lemma keeps_bind {A B} (m : M term_state A) (g : A → M term_state B) : keeps m → (∀ a, keeps (g a)) → keeps (m ≫= g).
Proof.
  intros Hm Hg s Hs. apply wp_bind. eapply wp_mono; [by apply Hm|]. intros a s' [Hs' Hi].
  eapply wp_mono; [by apply Hg|]. intros b s'' [Hs'' Hi']. split; [done|congruence].
Qed.
Lemma keeps_gets {A} (g : term_state → A) : keeps (gets g).
Proof. intros s Hs. by apply wp_gets. Qed.
Lemma keeps_when b m : keeps m → keeps (when b m).
Proof. intros Hm. destruct b; [done|apply keeps_ret]. Qed.
Lemma keeps_if {A} (b : bool) (m m' : M term_state A) : keeps m → keeps m' → keeps (if b then m else m').
Proof. by destruct b. Qed.
Lemma keeps_for n lo body : (∀ i, keeps (body i)) → keeps (for_n lo n body).
Proof.
  intros Hb s Hs. apply (wp_for_n (λ _ s', inv s' ∧ init s' = init s)); [done| |done].
  intros i s' _ [Hs' Hi]. eapply wp_mono; [by apply Hb|]. intros [] s'' [? ?]. split; [done|congruence].
Qed.
Lemma keeps_for_each {A} (P : A → Prop) l (body : A → M term_state unit) : Forall P l → (∀ a, P a → keeps (body a)) → keeps (for_each l body).
Proof.
  intros Hl Hb. induction Hl as [|a l Ha Hl IH]; cbn [for_each]; [apply keeps_ret|]. apply keeps_bind; [by apply Hb|]. by intros _.
Qed.

Lemma inv_esc s e : inv s → params_ok e → inv (put_esc_ctx e s).
Proof. intros [] He. by constructor. Qed.
Lemma keeps_esc_store g : (∀ e, params_ok e → params_ok (g e)) → keeps (esc_store g).
Proof. intros Hg s Hs. apply wp_modify. split; [|done]. apply inv_esc; [done|]. apply Hg, Hs. Qed.
Lemma keeps_reset : keeps reset_escape_state.
Proof. apply keeps_esc_store. intros e (_ & _ & Hx & Hy). split_and!; simpl; try done; lia. Qed.
Lemma keeps_fb : keeps fb.
Proof. intros s Hs. apply wp_fb; [apply Hs|done]. Qed.
Lemma keeps_set_fg rgb : keeps (kterm_set_fg kfb rgb).
Proof.
  intros s Hs. unfold kterm_set_fg, use_framebuffer. apply wp_bind, wp_bind, wp_gets. rewrite (ti_fb _ _ _ Hs). apply wp_ret, wp_modify.
  split; [|done]. by destruct Hs.
Qed.
Lemma keeps_set_bg rgb : keeps (kterm_set_bg kfb rgb).
Proof.
  intros s Hs. unfold kterm_set_bg, use_framebuffer. apply wp_bind, wp_bind, wp_gets. rewrite (ti_fb _ _ _ Hs). apply wp_ret, wp_modify.
  split; [|done]. by destruct Hs.
Qed.
Lemma keeps_set_color is_fg rgb : keeps (set_color kfb is_fg rgb).
Proof. destruct is_fg; [apply keeps_set_fg|apply keeps_set_bg]. Qed.
Lemma keeps_reset_attributes : keeps (reset_terminal_attributes kfb).
Proof.
  apply keeps_bind; [by apply keeps_esc_store|intros _]. apply keeps_bind; [apply keeps_set_fg|intros _; apply keeps_set_bg].
Qed.
Lemma keeps_fg : keeps cell_fg_rgb.
Proof. intros s Hs. apply wp_cell_fg; [apply Hs|done]. Qed.
Lemma keeps_bg : keeps cell_bg_rgb.
Proof. intros s Hs. apply wp_cell_bg; [apply Hs|done]. Qed.
Lemma keeps_render_screen : keeps (render_screen kfb).
Proof. intros s Hs. apply wp_render_screen; [done|]. intros s' Hd. split; [by eapply drawn_inv|]. by destruct Hd as (? & -> & _). Qed.
Lemma keeps_render_here : keeps (render_here kfb).
Proof.
  intros s Hs. unfold render_here. apply wp_bind, wp_gets, wp_bind, wp_gets. apply wp_render_cursor; [done|apply Hs|apply Hs|].
  intros s' Hd. split; [by eapply redrawn_inv|]. by destruct Hd as (? & ? & ? & -> & _).
Qed.

Lemma wp_clear_all s (Q : unit → term_state → Prop) :
  inv s → (∀ s', wiped s s' → Q tt s') → wp (for_n 0 (Z.to_nat MAX_ROWS) (λ i, for_n 0 (Z.to_nat MAX_COLS) (λ j, clear_cell i j))) Q s.
Proof.
  intros Hi HQ. apply (wp_for_n (λ _ s', wiped s s')); [by apply wiped_refl| |done]. intros i s' Hib Hw.
  pose proof (wiped_inv _ _ Hi Hw) as Hi'. apply wp_clear_range; [apply Hi'|unfold MAX_ROWS in *; lia|lia|unfold MAX_COLS; lia|].
  intros s'' Hc. eapply wiped_trans; [done|]. eapply cleared_wiped; [apply Hi'|done].
Qed.

(** Clearing the screen puts the cursor at the top left. *)
Lemma wp_kterm_cls s (Q : unit → term_state → Prop) :
  inv s → (∀ s', inv s' → init s' = init s → char_cursor_x s' = 0 → char_cursor_y s' = 0 → Q tt s') → wp (kterm_cls kfb) Q s.
Proof.
  intros Hi HQ. unfold kterm_cls. pose proof Hok as []. apply wp_bind, wp_gets. rewrite (ti_fb _ _ _ Hi), so_address0. cbn [negb].
  apply wp_bind, wp_gets. cbv zeta. apply wp_bind. apply wp_for_drawn; [apply Hi| |].
  { intros y s' Hy Hd. apply wp_for_drawn; [by eapply drawn_covered| |done]. intros x s'' Hx Hd'.
    pose proof (pixel_bounds x y ltac:(lia) ltac:(lia)). rewrite (u32_id (pitch f / 4)), u32_id by nia.
    apply wp_pixel_store; [by eapply drawn_covered|lia|done]. }
  intros s1 Hd1. pose proof (drawn_inv _ _ Hi Hd1) as Hi1. assert (init s1 = init s) as Hin1 by (by destruct Hd1 as (? & -> & _)).
  apply wp_bind. apply wp_clear_all; [done|]. intros s2 Hw. pose proof (wiped_inv _ _ Hi1 Hw) as Hi2.
  assert (init s2 = init s) as Hin2 by (by destruct Hw as (? & -> & _)). apply wp_bind, wp_modify.
  set (s3 := put_scroll_base 0 _). assert (inv s3) as Hi3 by (destruct Hi2; constructor; simpl; try done; unfold MAX_ROWS; lia).
  apply wp_bind, wp_modify. set (s4 := put_esc_ctx _ s3). assert (inv s4) as Hi4.
  { apply inv_esc; [done|]. destruct (ti_esc _ _ _ Hi3) as (_ & _ & ? & ?). split_and!; simpl; try done; lia. }
  apply wp_bind. apply wp_render_screen; [done|]. intros s5 Hd5. pose proof (drawn_inv _ _ Hi4 Hd5) as Hi5.
  apply wp_render_cursor; [done|unfold FONT_WIDTH in *; lia|lia|]. intros s6 Hd6. destruct Hd5 as (? & -> & _).
  pose proof (redrawn_inv _ _ Hi5 Hd6) as Hi6. destruct Hd6 as (? & ? & ? & -> & _). by apply HQ.
Qed.
Lemma keeps_cls : keeps (kterm_cls kfb).
Proof. intros s Hs. apply wp_kterm_cls; [done|]. by intros. Qed.

(** ** The first use *)

(** Before the first use: nothing is set but the font. *)
Definition boot s : Prop :=
  psf s = Some p ∧ init s = false ∧ covered f (pixels s) ∧ screen_buffer s = ∅ ∧ char_cursor_x s = 0 ∧ char_cursor_y s = 0 ∧
  old_cursor_x s = 0 ∧ old_cursor_y s = 0 ∧ scroll_base s = 0 ∧ params_ok (esc_ctx s).
Lemma wp_kterm_init s (Q : unit → term_state → Prop) :
  boot s ∨ inv s → (∀ s', inv s' → init s' = true → Q tt s') → wp (kterm_init kfb) Q s.
Proof.
  intros Hb HQ. unfold kterm_init. apply wp_bind, wp_modify. pose proof Hok as []. rewrite so_address0. cbn [negb]. apply wp_bind.
  apply wp_font; [destruct Hb as [Hb|Hb]; apply Hb|]. rewrite (proj2 (Z.eqb_neq _ _)) by lia. apply wp_bind, wp_modify, wp_bind, wp_modify.
  set (s1 := put_cols _ _). assert (inv s1) as Hi1.
  { destruct Hb as [(? & ? & ? & Hsb & Hx & Hy & Hox & Hoy & Hsc & ?)|Hb]; [|destruct Hb; by constructor].
    constructor; simpl; rewrite ?Hsb, ?Hx, ?Hy, ?Hox, ?Hoy, ?Hsc; try done; unfold MAX_ROWS; lia. }
  apply wp_bind. eapply wp_mono; [by apply keeps_reset_attributes|]. intros [] s2 [Hi2 _]. apply wp_bind.
  eapply wp_mono; [by apply keeps_cls|]. intros [] s3 [Hi3 _]. apply wp_bind. eapply wp_mono; [by apply keeps_render_screen|].
  intros [] s4 [Hi4 _]. apply wp_modify, HQ; [|done]. by destruct Hi4.
Qed.
Lemma wp_ensure_init s (Q : unit → term_state → Prop) : inv s → init s = true → Q tt s → wp (ensure_init kfb) Q s.
Proof. intros Hi Hin HQ. unfold ensure_init. apply wp_bind, wp_gets. rewrite Hin. by apply wp_ret. Qed.

(** The terminal once it is in use. *)
Definition ready s : Prop := inv s ∧ init s = true.

(** * Characters *)

(** The cursor at a place. *)
Definition at_ (x y : Z) s : term_state := put_char_cursor_y y (put_char_cursor_x x s).
Lemma at_x x s : put_char_cursor_x x s = at_ x (char_cursor_y s) s.
Proof. by destruct s. Qed.
Lemma at_id s : at_ (char_cursor_x s) (char_cursor_y s) s = s.
Proof. by destruct s. Qed.
Lemma at_inv x y s : inv s → 0 ≤ x < width f / FONT_WIDTH → 0 ≤ y < height f / psf_height p → inv (at_ x y s).
Proof. intros [] Hx Hy. by constructor. Qed.

(** One line up: the line that comes in at the bottom is cleared. *)
Definition scrolled s s' : Prop :=
  let s1 := put_scroll_base ((scroll_base s + 1) `mod` MAX_ROWS) s in
  let line := (scroll_base s + rows s) `mod` MAX_ROWS in
  cleared s1 (line * MAX_COLS) (line * MAX_COLS + MAX_COLS) s'.
Lemma scrolled_inv s s' : inv s → scrolled s s' → inv s'.
Proof.
  intros Hi Hs. eapply wiped_inv; [|eapply cleared_wiped; [|exact Hs]]; [|apply Hi]. destruct Hi. constructor; simpl; try done. apply row_bounds.
Qed.
Lemma wp_scroll_up s (Q : unit → term_state → Prop) :
  inv s → (∀ s' s'', scrolled s s' → drawn s' s'' → Q tt s'') → wp (scroll_up_by_one kfb) Q s.
Proof.
  intros Hi HQ. unfold scroll_up_by_one. apply wp_bind, wp_modify. pose proof Hok as []. pose proof (ti_scroll _ _ _ Hi). pose proof (ti_rows _ _ _ Hi).
  unfold MAX_ROWS in *. rewrite (u64_id (scroll_base s + 1)) by lia. set (s1 := put_scroll_base _ s).
  apply wp_bind, wp_gets, wp_bind, wp_gets. simpl.
  pose proof (Z.mod_pos_bound (scroll_base s + 1) 256 ltac:(lia)).
  rewrite (u64_id (_ + rows s)), (u64_id (_ - 1)) by lia.
  assert (((scroll_base s + 1) `mod` 256 + rows s - 1) `mod` 256 = (scroll_base s + rows s) `mod` 256) as ->.
  { replace ((scroll_base s + 1) `mod` 256 + rows s - 1) with ((scroll_base s + 1) `mod` 256 + (rows s - 1)) by lia.
    rewrite Zplus_mod_idemp_l. f_equal. lia. }
  apply wp_bind. apply wp_clear_range; [apply Hi|apply row_bounds|lia|unfold MAX_COLS; lia|]. intros s2 Hc.
  assert (scrolled s s2) as Hs by (unfold scrolled, MAX_ROWS; by rewrite Z.add_0_r in Hc).
  apply wp_render_screen; [by eapply scrolled_inv|]. intros s3 Hd. by eapply HQ.
Qed.

Lemma wp_wrap_cursor s x y (Q : unit → term_state → Prop) :
  let xy := if x >=? width f / FONT_WIDTH then (0, y + 1) else (x, y) in
  let n := height f / psf_height p in
  inv s → 0 ≤ x → 0 ≤ y → xy.2 ≤ n →
  (xy.2 < n → ∀ s', redrawn (at_ xy.1 xy.2 s) s' → Q tt s') →
  (xy.2 = n → ∀ s' s'', scrolled (at_ xy.1 (n - 1) s) s' → redrawn s' s'' → Q tt s'') →
  wp (wrap_cursor kfb) Q (at_ x y s).
Proof.
  intros xy n Hi Hx Hy Hn HQ HS. pose proof Hok as []. unfold wrap_cursor. apply wp_bind, wp_gets, wp_bind, wp_gets, wp_bind, wp_gets. simpl.
  rewrite (ti_rows _ _ _ Hi), (ti_cols _ _ _ Hi). fold n. apply wp_bind.
  assert (0 ≤ xy.1 < width f / FONT_WIDTH ∧ 0 ≤ xy.2) as [Hx1 Hy1].
  { unfold xy. rewrite Z.geb_leb. destruct (Z.leb_spec (width f / FONT_WIDTH) x); simpl; lia. }
  assert (wp (when (x >=? width f / FONT_WIDTH) (modify (λ s, put_char_cursor_y (u64 (char_cursor_y s + 1)) (put_char_cursor_x 0 s))))
    (λ _ s', s' = at_ xy.1 xy.2 s) (at_ x y s)) as Hw.
  { apply wp_when; intros Hge; [apply wp_modify|]; unfold xy; rewrite Hge; [|done]. simpl. unfold xy in Hn. rewrite Hge in Hn. simpl in Hn.
    unfold MAX_ROWS in *. by rewrite u64_id by lia. }
  eapply wp_mono; [exact Hw|]. intros [] _ ->. apply wp_bind, wp_gets. simpl. apply wp_bind. rewrite Z.geb_leb. destruct (Z.leb_spec n xy.2) as [Hge|Hlt].
  - apply wp_bind, wp_modify. unfold MAX_ROWS in *. rewrite u64_id by lia. change (put_char_cursor_y (n - 1) (at_ xy.1 xy.2 s)) with (at_ xy.1 (n - 1) s).
    assert (inv (at_ xy.1 (n - 1) s)) as Hi1 by (apply at_inv; [done|done|unfold n in *; lia]).
    apply wp_scroll_up; [done|]. intros s1 s2 Hs1 Hd. pose proof (scrolled_inv _ _ Hi1 Hs1) as Hi2. pose proof (drawn_inv _ _ Hi2 Hd) as Hi3.
    unfold render_here. apply wp_bind, wp_gets, wp_bind, wp_gets. apply wp_render_cursor; [done|apply Hi3|apply Hi3|].
    intros s3 Hd3. eapply (HS ltac:(lia)); [done|]. eapply redrawn_trans; [|done]. by apply drawn_redrawn.
  - apply wp_ret. assert (inv (at_ xy.1 xy.2 s)) as Hi1 by (by apply at_inv). unfold render_here.
    apply wp_bind, wp_gets, wp_bind, wp_gets. apply wp_render_cursor; [done|apply Hi1|apply Hi1|]. by apply HQ.
Qed.

(** The cell under the cursor. *)
Definition here s : Z := (scroll_base s + char_cursor_y s) `mod` MAX_ROWS * MAX_COLS + char_cursor_x s.
Definition write_cell (c : Z) s : term_state :=
  put_screen_buffer (<[here s := mkCell c (compose f (fg_color s)) (compose f (bg_color s))]> (screen_buffer s)) s.
Lemma write_cell_inv c s : inv s → 0 ≤ c < 256 → inv (write_cell c s).
Proof.
  intros [] Hc. constructor; simpl; try done. intros i d. rewrite lookup_insert_Some. intros [[_ <-]|[_ ?]]; [done|by eapply ti_cells0].
Qed.
Definition is_control (c : Z) : bool := (c =? 10) || (c =? 13) || (c =? 8) || (c =? 9).

Lemma wp_put_printable s c (Q : unit → term_state → Prop) :
  inv s → 0 ≤ c < 256 → is_control c = false →
  (∀ s', inv s' → drawn (write_cell c s) s' → Q tt (at_ (char_cursor_x s + 1) (char_cursor_y s) s')) → wp (put_char kfb c) Q s.
Proof.
  intros Hi Hc Hctl HQ. unfold put_char. apply wp_bind, wp_gets, wp_bind, wp_gets. unfold is_control in Hctl.
  apply orb_false_iff in Hctl as [[[-> ->]%orb_false_iff ->]%orb_false_iff _]. pose proof Hok as []. pose proof (ti_x _ _ _ Hi). pose proof (ti_y _ _ _ Hi).
  apply wp_bind. apply wp_real_row; [apply Hi|unfold MAX_ROWS in *; lia|]. apply wp_bind, wp_cell_fg; [apply Hi|].
  apply wp_bind, wp_cell_bg; [apply Hi|]. apply wp_bind. apply wp_cell_store; [apply row_bounds|unfold FONT_WIDTH, MAX_COLS in *; lia|].
  pose proof (write_cell_inv c s Hi Hc) as Hi1. apply wp_bind. apply (wp_draw_char_at (write_cell c s)); try apply Hi1; try done.
  intros s2 Hd. apply wp_modify. unfold MAX_COLS in *. rewrite u64_id by lia. rewrite at_x.
  assert (char_cursor_y s2 = char_cursor_y s) as -> by (by destruct Hd as (? & -> & _)). apply HQ; [by eapply drawn_inv|done].
Qed.

Lemma wp_put_control s c (Q : unit → term_state → Prop) :
  inv s → is_control c = true → c ≠ 9 →
  (∀ s' x y, inv s' → init s' = init s → 0 ≤ x < width f / FONT_WIDTH → 0 ≤ y ≤ height f / psf_height p → Q tt (at_ x y s')) → wp (put_char kfb c) Q s.
Proof.
  intros Hi Hctl H9 HQ. unfold put_char. apply wp_bind, wp_gets, wp_bind, wp_gets. pose proof Hok as []. pose proof (ti_x _ _ _ Hi). pose proof (ti_y _ _ _ Hi).
  unfold is_control in Hctl. destruct (Z.eqb_spec c 10); [|destruct (Z.eqb_spec c 13); [|destruct (Z.eqb_spec c 8); [|by destruct (Z.eqb_spec c 9)]]].
  - apply wp_modify. unfold MAX_ROWS in *. rewrite u64_id by lia. apply HQ; try done; lia.
  - apply wp_modify. rewrite at_x. apply HQ; try done; lia.
  - apply wp_when; intros Hx.
    2:{ rewrite <-(at_id s). apply HQ; try done; lia. }
    apply wp_bind, wp_modify. rewrite at_x. assert (inv (at_ (char_cursor_x s - 1) (char_cursor_y s) s)) as Hi1 by (apply at_inv; [done|lia|lia]).
    apply wp_bind. apply wp_real_row; [apply Hi|unfold MAX_ROWS in *; lia|]. apply wp_bind.
    apply wp_clear_cell; [apply Hi|apply row_bounds|unfold FONT_WIDTH, MAX_COLS in *; lia|]. set (s2 := put_screen_buffer _ _).
    assert (inv s2) as Hi2.
    { destruct Hi1. constructor; simpl; try done. intros i d. rewrite lookup_insert_Some. intros [[_ <-]|[_ ?]]; [simpl; lia|by eapply ti_cells0]. }
    apply wp_bind. apply wp_cell_load; [apply row_bounds|unfold FONT_WIDTH, MAX_COLS in *; lia|].
    apply wp_draw_char_at; try apply Hi2; try (unfold FONT_WIDTH in *; lia); [apply cell_at_ok, Hi2|]. intros s3 Hd.
    pose proof (drawn_inv _ _ Hi2 Hd) as Hi3. rewrite <-(at_id s3). apply HQ; [done|by destruct Hd as (? & -> & _)|apply Hi3|].
    pose proof (ti_y _ _ _ Hi3). lia.
Qed.
End terminal.
