(* ===== verification/KtermFont.v ===== *)
(** The font the kernel comes with: [src/kernel/src/kterm/font.h], and
    [psf_load_defaults] of [psf.c].

    The bytes are those of the array [ttyfont], in four pieces. *)
From S2P Require Import Prelude Kterm KtermSpec.

Definition ttyfont_1 : list Z :=
  [
   54; 4; 2; 16; 0; 0; 0; 0; 60; 66; 153; 165;
   161; 161; 165; 153; 66; 60; 0; 0; 0; 0; 0; 0;
   60; 66; 185; 165; 165; 185; 169; 165; 66; 60; 0; 0;
   12; 48; 0; 0; 65; 65; 34; 34; 20; 8; 8; 8;
   8; 8; 0; 0; 0; 0; 0; 0; 55; 72; 72; 72;
   78; 72; 72; 72; 72; 55; 0; 0; 0; 0; 0; 0;
   8; 8; 28; 28; 62; 62; 28; 28; 8; 8; 0; 0;
   0; 0; 0; 0; 0; 0; 54; 73; 73; 79; 72; 72;
   73; 54; 0; 0; 36; 36; 0; 0; 65; 65; 34; 34;
   20; 8; 8; 8; 8; 8; 0; 0; 0; 0; 0; 0;
   0; 0; 0; 0; 0; 255; 0; 0; 0; 0; 0; 0;
   0; 0; 8; 28; 8; 42; 127; 42; 8; 28; 8; 8;
   8; 8; 0; 0; 0; 8; 28; 8; 42; 127; 42; 8;
   8; 42; 127; 42; 8; 28; 8; 0; 0; 0; 0; 0;
   0; 0; 0; 56; 124; 124; 124; 56; 0; 0; 0; 0;
   0; 0; 0; 0; 0; 0; 0; 0; 0; 0; 0; 0;
   73; 73; 0; 0; 0; 0; 0; 0; 66; 164; 164; 72;
   16; 16; 42; 85; 85; 138; 0; 0; 0; 0; 0; 0;
   241; 91; 85; 81; 81; 0; 0; 0; 0; 0; 0; 0;
   0; 0; 0; 0; 146; 149; 149; 210; 208; 183; 176; 144;
   144; 144; 0; 0; 0; 0; 0; 0; 127; 8; 8; 14;
   56; 14; 56; 8; 8; 8; 0; 0; 0; 0; 0; 0;
   0; 0; 0; 29; 34; 69; 73; 81; 34; 92; 0; 0;
   0; 0; 0; 0; 0; 66; 60; 36; 66; 66; 36; 60;
   66; 0; 0; 0; 0; 0; 0; 0; 8; 8; 8; 8;
   0; 0; 8; 8; 8; 8; 0; 0; 0; 0; 0; 0;
   36; 36; 36; 36; 36; 36; 36; 0; 36; 36; 0; 0;
   0; 0; 0; 0; 63; 122; 122; 122; 58; 10; 10; 10;
   10; 10; 10; 0; 0; 0; 0; 0; 60; 66; 64; 60;
   66; 66; 60; 2; 66; 60; 0; 0; 36; 36; 0; 0;
   0; 0; 0; 0; 0; 0; 0; 0; 0; 0; 0; 0;
   0; 0; 126; 0; 0; 0; 0; 0; 0; 0; 0; 0;
   0; 0; 0; 0; 0; 0; 8; 28; 42; 8; 8; 8;
   8; 8; 8; 8; 8; 8; 8; 8; 8; 8; 8; 8;
   8; 8; 8; 8; 8; 8; 8; 42; 28; 8; 0; 0;
   0; 0; 0; 0; 0; 0; 0; 8; 4; 254; 4; 8;
   0; 0; 0; 0; 0; 0; 0; 0; 0; 0; 0; 16;
   32; 127; 32; 16; 0; 0; 0; 0; 0; 0; 0; 56;
   68; 4; 56; 4; 68; 56; 0; 0; 0; 0; 0; 0;
   0; 4; 8; 16; 0; 0; 0; 0; 0; 0; 0; 0;
   0; 0; 0; 0; 0; 0; 0; 0; 0; 0; 0; 0;
   0; 0; 0; 0; 0; 0; 8; 48; 0; 0; 0; 16;
   48; 80; 16; 16; 16; 124; 0; 0; 0; 0; 0; 0;
   0; 0; 0; 0; 0; 0; 0; 0; 0; 0; 0; 0;
   0; 0; 0; 0; 0; 0; 0; 0; 8; 8; 8; 8;
   8; 8; 8; 0; 8; 8; 0; 0; 0; 0; 34; 34;
   34; 34; 0; 0; 0; 0; 0; 0; 0; 0; 0; 0;
   0; 0; 0; 0; 18; 18; 18; 126; 36; 36; 126; 72;
   72; 72; 0; 0; 0; 0; 0; 0; 8; 62; 73; 72;
   56; 14; 9; 73; 62; 8; 0; 0; 0; 0; 0; 0;
   49; 74; 74; 52; 8; 8; 22; 41; 41; 70; 0; 0;
   0; 0; 0; 0; 28; 34; 34; 20; 24; 41; 69; 66;
   70; 57; 0; 0; 0; 0; 8; 8; 8; 8; 0; 0;
   0; 0; 0; 0; 0; 0; 0; 0; 0; 0; 0; 4;
   8; 8; 16; 16; 16; 16; 16; 16; 8; 8; 4; 0;
   0; 0; 0; 32; 16; 16; 8; 8; 8; 8; 8; 8;
   16; 16; 32; 0; 0; 0; 0; 0; 0; 0; 8; 73;
   42; 28; 42; 73; 8; 0; 0; 0; 0; 0; 0; 0;
   0; 0; 8; 8; 8; 127; 8; 8; 8; 0; 0; 0;
   0; 0; 0; 0; 0; 0; 0; 0; 0; 0; 0; 0;
   24; 8; 8; 16; 0; 0; 0; 0; 0; 0; 0; 0;
   0; 60; 0; 0; 0; 0; 0; 0; 0; 0; 0; 0;
   0; 0; 0; 0; 0; 0; 0; 0; 24; 24; 0; 0;
   0; 0; 0; 0; 2; 2; 4; 8; 8; 16; 16; 32;
   64; 64; 0; 0; 0; 0; 0; 0; 24; 36; 66; 70;
   74; 82; 98; 66; 36; 24; 0; 0; 0; 0; 0; 0;
   8; 24; 40; 8; 8; 8; 8; 8; 8; 62; 0; 0;
   0; 0; 0; 0; 60; 66; 66; 2; 12; 16; 32; 64;
   64; 126; 0; 0; 0; 0; 0; 0; 60; 66; 66; 2;
   28; 2; 2; 66; 66; 60; 0; 0; 0; 0; 0; 0;
   4; 12; 20; 36; 68; 68; 126; 4; 4; 4; 0; 0;
   0; 0; 0; 0; 126; 64; 64; 64; 124; 2; 2; 2;
   66; 60; 0; 0; 0; 0; 0; 0; 28; 32; 64; 64;
   124; 66; 66; 66; 66; 60; 0; 0; 0; 0; 0; 0;
   126; 2; 2; 4; 4; 4; 8; 8; 8; 8; 0; 0;
   0; 0; 0; 0; 60; 66; 66; 66; 60; 66; 66; 66;
   66; 60; 0; 0; 0; 0; 0; 0; 60; 66; 66; 66;
   62; 2; 2; 2; 4; 56; 0; 0; 0; 0; 0; 0;
   0; 0; 24; 24; 0; 0; 0; 24; 24; 0; 0; 0;
   0; 0; 0; 0; 0; 0; 24; 24; 0; 0; 0; 24;
   8; 8; 16; 0; 0; 0; 0; 0; 0; 2; 4; 8;
   16; 32; 16; 8; 4; 2; 0; 0; 0; 0; 0; 0;
   0; 0; 0; 126; 0; 0; 0; 126; 0; 0; 0; 0;
   0; 0; 0; 0; 0; 64; 32; 16; 8; 4; 8; 16;
   32; 64; 0; 0; 0; 0; 0; 0; 60; 66; 66; 2;
   4; 8; 8; 0; 8; 8; 0; 0; 0; 0; 0; 0;
   28; 34; 74; 86; 82; 82; 82; 78; 32; 30; 0; 0;
   0; 0; 0; 0; 24; 36; 36; 66; 66; 126; 66; 66;
   66; 66; 0; 0; 0; 0; 0; 0; 124; 66; 66; 66;
   124; 66; 66; 66; 66; 124; 0; 0; 0; 0; 0; 0;
   60; 66; 66; 64; 64; 64; 64; 66; 66; 60; 0; 0;
   0; 0; 0; 0; 120; 68; 66; 66; 66; 66; 66; 66;
   68; 120; 0; 0; 0; 0; 0; 0; 126; 64; 64; 64;
   124; 64; 64; 64; 64; 126; 0; 0; 0; 0; 0; 0;
   126; 64; 64; 64; 124; 64; 64; 64; 64; 64; 0; 0;
   0; 0; 0; 0; 60; 66; 66; 64; 64; 78; 66; 66;
   70; 58; 0; 0; 0; 0; 0; 0; 66; 66; 66; 66;
   126; 66; 66; 66; 66; 66; 0; 0; 0; 0; 0; 0;
   62; 8; 8; 8; 8; 8; 8; 8; 8; 62; 0; 0;
   0; 0; 0; 0; 31; 4; 4; 4; 4; 4; 4; 68;
   68; 56; 0; 0; 0; 0; 0; 0; 66; 68; 72; 80;
   96; 96; 80; 72; 68; 66; 0; 0; 0; 0; 0; 0;
   64; 64; 64; 64; 64; 64; 64; 64; 64; 126; 0; 0;
   0; 0; 0; 0; 66; 66; 102; 102; 90; 90; 66; 66;
   66; 66; 0; 0; 0; 0; 0; 0; 66; 98; 98; 82;
   82; 74; 74; 70; 70; 66; 0; 0; 0; 0; 0; 0;
   60; 66; 66; 66; 66; 66; 66; 66; 66; 60; 0; 0;
   0; 0; 0; 0; 124; 66; 66; 66; 124; 64; 64; 64;
   64; 64; 0; 0; 0; 0; 0; 0; 60; 66; 66; 66;
   66; 66; 66; 90; 102; 60; 3; 0; 0; 0; 0; 0;
   124; 66; 66; 66; 124; 72; 68; 68; 66; 66; 0; 0;
   0; 0; 0; 0; 60; 66; 66; 64; 48; 12; 2; 66;
   66; 60; 0; 0; 0; 0; 0; 0; 127; 8; 8; 8;
   8; 8; 8; 8; 8; 8; 0; 0; 0; 0; 0; 0;
   66; 66; 66; 66; 66; 66; 66; 66; 66; 60; 0; 0;
   0; 0; 0; 0; 65; 65; 65; 34; 34; 34; 20; 20;
   8; 8; 0; 0; 0; 0; 0; 0; 66; 66; 66; 66;
   90; 90; 102; 102; 66; 66; 0; 0; 0; 0; 0; 0;
   66; 66; 36; 36; 24; 24; 36; 36; 66; 66; 0; 0].
Definition ttyfont_2 : list Z :=
  [
   0; 0; 0; 0; 65; 65; 34; 34; 20; 8; 8; 8;
   8; 8; 0; 0; 0; 0; 0; 0; 126; 2; 2; 4;
   8; 16; 32; 64; 64; 126; 0; 0; 0; 0; 0; 14;
   8; 8; 8; 8; 8; 8; 8; 8; 8; 8; 14; 0;
   0; 0; 0; 0; 64; 64; 32; 16; 16; 8; 8; 4;
   2; 2; 0; 0; 0; 0; 0; 112; 16; 16; 16; 16;
   16; 16; 16; 16; 16; 16; 112; 0; 0; 0; 24; 36;
   66; 0; 0; 0; 0; 0; 0; 0; 0; 0; 0; 0;
   0; 0; 0; 0; 0; 0; 0; 0; 0; 0; 0; 0;
   0; 0; 127; 0; 0; 32; 16; 8; 0; 0; 0; 0;
   0; 0; 0; 0; 0; 0; 0; 0; 0; 0; 0; 0;
   0; 0; 60; 66; 2; 62; 66; 66; 70; 58; 0; 0;
   0; 0; 0; 64; 64; 64; 92; 98; 66; 66; 66; 66;
   98; 92; 0; 0; 0; 0; 0; 0; 0; 0; 60; 66;
   64; 64; 64; 64; 66; 60; 0; 0; 0; 0; 0; 2;
   2; 2; 58; 70; 66; 66; 66; 66; 70; 58; 0; 0;
   0; 0; 0; 0; 0; 0; 60; 66; 66; 126; 64; 64;
   66; 60; 0; 0; 0; 0; 0; 12; 16; 16; 16; 124;
   16; 16; 16; 16; 16; 16; 0; 0; 0; 0; 0; 0;
   0; 2; 58; 68; 68; 68; 56; 32; 60; 66; 66; 60;
   0; 0; 0; 64; 64; 64; 92; 98; 66; 66; 66; 66;
   66; 66; 0; 0; 0; 0; 0; 8; 8; 0; 24; 8;
   8; 8; 8; 8; 8; 62; 0; 0; 0; 0; 0; 4;
   4; 0; 12; 4; 4; 4; 4; 4; 4; 4; 72; 48;
   0; 0; 0; 64; 64; 64; 68; 72; 80; 96; 80; 72;
   68; 66; 0; 0; 0; 0; 0; 24; 8; 8; 8; 8;
   8; 8; 8; 8; 8; 62; 0; 0; 0; 0; 0; 0;
   0; 0; 118; 73; 73; 73; 73; 73; 73; 73; 0; 0;
   0; 0; 0; 0; 0; 0; 92; 98; 66; 66; 66; 66;
   66; 66; 0; 0; 0; 0; 0; 0; 0; 0; 60; 66;
   66; 66; 66; 66; 66; 60; 0; 0; 0; 0; 0; 0;
   0; 0; 92; 98; 66; 66; 66; 66; 98; 92; 64; 64;
   0; 0; 0; 0; 0; 0; 58; 70; 66; 66; 66; 66;
   70; 58; 2; 2; 0; 0; 0; 0; 0; 0; 92; 98;
   66; 64; 64; 64; 64; 64; 0; 0; 0; 0; 0; 0;
   0; 0; 60; 66; 64; 48; 12; 2; 66; 60; 0; 0;
   0; 0; 0; 0; 16; 16; 16; 124; 16; 16; 16; 16;
   16; 12; 0; 0; 0; 0; 0; 0; 0; 0; 66; 66;
   66; 66; 66; 66; 70; 58; 0; 0; 0; 0; 0; 0;
   0; 0; 66; 66; 66; 36; 36; 36; 24; 24; 0; 0;
   0; 0; 0; 0; 0; 0; 65; 73; 73; 73; 73; 73;
   73; 54; 0; 0; 0; 0; 0; 0; 0; 0; 66; 66;
   36; 24; 24; 36; 66; 66; 0; 0; 0; 0; 0; 0;
   0; 0; 66; 66; 66; 66; 66; 38; 26; 2; 2; 60;
   0; 0; 0; 0; 0; 0; 126; 2; 4; 8; 16; 32;
   64; 126; 0; 0; 0; 0; 0; 12; 16; 16; 8; 8;
   16; 32; 16; 8; 8; 16; 16; 12; 0; 0; 8; 8;
   8; 8; 8; 8; 8; 8; 8; 8; 8; 8; 8; 8;
   0; 0; 0; 48; 8; 8; 16; 16; 8; 4; 8; 16;
   16; 8; 8; 48; 0; 0; 0; 49; 73; 70; 0; 0;
   0; 0; 0; 0; 0; 0; 0; 0; 0; 0; 0; 0;
   98; 18; 36; 24; 104; 18; 22; 42; 78; 66; 0; 0;
   0; 0; 0; 0; 60; 66; 66; 64; 64; 64; 64; 66;
   66; 60; 8; 48; 0; 0; 36; 36; 0; 0; 66; 66;
   66; 66; 66; 66; 70; 58; 0; 0; 0; 0; 12; 48;
   0; 0; 60; 66; 66; 126; 64; 64; 66; 60; 0; 0;
   0; 0; 24; 36; 0; 0; 60; 66; 2; 62; 66; 66;
   70; 58; 0; 0; 0; 0; 36; 36; 0; 0; 60; 66;
   2; 62; 66; 66; 70; 58; 0; 0; 0; 0; 48; 12;
   0; 0; 60; 66; 2; 62; 66; 66; 70; 58; 0; 0;
   0; 24; 36; 24; 0; 0; 60; 66; 2; 62; 66; 66;
   70; 58; 0; 0; 0; 0; 0; 0; 0; 0; 60; 66;
   64; 64; 64; 64; 66; 60; 8; 48; 0; 0; 24; 36;
   0; 0; 60; 66; 66; 126; 64; 64; 66; 60; 0; 0;
   0; 0; 36; 36; 0; 0; 60; 66; 66; 126; 64; 64;
   66; 60; 0; 0; 0; 0; 48; 12; 0; 0; 60; 66;
   66; 126; 64; 64; 66; 60; 0; 0; 0; 0; 36; 36;
   0; 0; 24; 8; 8; 8; 8; 8; 8; 62; 0; 0;
   0; 0; 24; 36; 0; 0; 24; 8; 8; 8; 8; 8;
   8; 62; 0; 0; 0; 0; 48; 12; 0; 0; 24; 8;
   8; 8; 8; 8; 8; 62; 0; 0; 36; 36; 0; 0;
   24; 36; 36; 66; 66; 126; 66; 66; 66; 66; 0; 0;
   24; 36; 24; 0; 24; 36; 36; 66; 66; 126; 66; 66;
   66; 66; 0; 0; 12; 48; 0; 0; 126; 64; 64; 64;
   124; 64; 64; 64; 64; 126; 0; 0; 0; 0; 0; 0;
   0; 0; 62; 73; 9; 63; 72; 72; 73; 62; 0; 0;
   0; 0; 0; 0; 31; 40; 72; 72; 127; 72; 72; 72;
   72; 79; 0; 0; 0; 0; 24; 36; 0; 0; 60; 66;
   66; 66; 66; 66; 66; 60; 0; 0; 0; 0; 36; 36;
   0; 0; 60; 66; 66; 66; 66; 66; 66; 60; 0; 0;
   0; 0; 48; 12; 0; 0; 60; 66; 66; 66; 66; 66;
   66; 60; 0; 0; 0; 0; 24; 36; 0; 0; 66; 66;
   66; 66; 66; 66; 70; 58; 0; 0; 0; 0; 48; 12;
   0; 0; 66; 66; 66; 66; 66; 66; 70; 58; 0; 0;
   0; 0; 36; 36; 0; 0; 66; 66; 66; 66; 66; 38;
   26; 2; 2; 60; 36; 36; 0; 0; 60; 66; 66; 66;
   66; 66; 66; 66; 66; 60; 0; 0; 36; 36; 0; 0;
   66; 66; 66; 66; 66; 66; 66; 66; 66; 60; 0; 0;
   0; 0; 0; 0; 8; 8; 62; 73; 72; 72; 73; 62;
   8; 8; 0; 0; 0; 0; 0; 0; 14; 16; 16; 16;
   124; 16; 16; 16; 62; 97; 0; 0; 0; 0; 0; 0;
   65; 34; 20; 8; 127; 8; 127; 8; 8; 8; 0; 0;
   0; 0; 0; 0; 104; 88; 95; 92; 108; 74; 73; 73;
   73; 78; 0; 0; 0; 0; 0; 12; 16; 16; 16; 124;
   16; 16; 16; 16; 16; 16; 96; 0; 0; 0; 12; 48;
   0; 0; 60; 66; 2; 62; 66; 66; 70; 58; 0; 0;
   0; 0; 12; 48; 0; 0; 24; 8; 8; 8; 8; 8;
   8; 62; 0; 0; 0; 0; 12; 48; 0; 0; 60; 66;
   66; 66; 66; 66; 66; 60; 0; 0; 0; 0; 12; 48;
   0; 0; 66; 66; 66; 66; 66; 66; 70; 58; 0; 0;
   0; 0; 50; 76; 0; 0; 92; 98; 66; 66; 66; 66;
   66; 66; 0; 0; 50; 76; 0; 0; 66; 98; 98; 82;
   82; 74; 74; 70; 70; 66; 0; 0; 0; 0; 28; 2;
   30; 34; 30; 0; 62; 0; 0; 0; 0; 0; 0; 0;
   0; 0; 28; 34; 34; 34; 28; 0; 62; 0; 0; 0;
   0; 0; 0; 0; 0; 0; 0; 0; 16; 16; 0; 16;
   16; 32; 64; 66; 66; 60; 0; 0; 48; 12; 0; 0;
   24; 36; 36; 66; 66; 126; 66; 66; 66; 66; 0; 0;
   0; 0; 0; 0; 0; 0; 0; 0; 0; 0; 126; 2;
   2; 2; 0; 0; 0; 0; 0; 0; 34; 98; 36; 40;
   40; 20; 26; 34; 68; 78; 0; 0; 0; 0; 0; 0;
   34; 98; 36; 40; 40; 18; 22; 42; 78; 66; 0; 0;
   0; 0; 0; 0; 8; 8; 0; 8; 8; 8; 8; 8;
   8; 8; 0; 0; 0; 0; 0; 0; 0; 18; 18; 36;
   36; 72; 36; 36; 18; 18; 0; 0; 0; 0; 0; 0;
   0; 72; 72; 36; 36; 18; 36; 36; 72; 72; 0; 0;
   136; 34; 136; 34; 136; 34; 136; 34; 136; 34; 136; 34;
   136; 34; 136; 34; 170; 85; 170; 85; 170; 85; 170; 85;
   170; 85; 170; 85; 170; 85; 170; 85; 12; 48; 0; 0].
Definition ttyfont_3 : list Z :=
  [
   24; 36; 36; 66; 66; 126; 66; 66; 66; 66; 0; 0;
   8; 8; 8; 8; 8; 8; 8; 8; 8; 8; 8; 8;
   8; 8; 8; 8; 8; 8; 8; 8; 8; 8; 8; 248;
   8; 8; 8; 8; 8; 8; 8; 8; 24; 36; 0; 0;
   24; 36; 36; 66; 66; 126; 66; 66; 66; 66; 0; 0;
   50; 76; 0; 0; 24; 36; 36; 66; 66; 126; 66; 66;
   66; 66; 0; 0; 48; 12; 0; 0; 126; 64; 64; 64;
   124; 64; 64; 64; 64; 126; 0; 0; 24; 36; 0; 0;
   126; 64; 64; 64; 124; 64; 64; 64; 64; 126; 0; 0;
   36; 36; 0; 0; 126; 64; 64; 64; 124; 64; 64; 64;
   64; 126; 0; 0; 24; 6; 0; 0; 62; 8; 8; 8;
   8; 8; 8; 8; 8; 62; 0; 0; 12; 48; 0; 0;
   62; 8; 8; 8; 8; 8; 8; 8; 8; 62; 0; 0;
   24; 36; 0; 0; 62; 8; 8; 8; 8; 8; 8; 8;
   8; 62; 0; 0; 36; 36; 0; 0; 62; 8; 8; 8;
   8; 8; 8; 8; 8; 62; 0; 0; 0; 0; 0; 0;
   120; 68; 66; 66; 242; 66; 66; 66; 68; 120; 0; 0;
   0; 0; 0; 0; 0; 0; 0; 248; 8; 8; 8; 8;
   8; 8; 8; 8; 8; 8; 8; 8; 8; 8; 8; 15;
   0; 0; 0; 0; 0; 0; 0; 0; 8; 8; 8; 8;
   8; 8; 8; 255; 0; 0; 0; 0; 0; 0; 0; 0;
   0; 0; 0; 0; 0; 0; 0; 255; 8; 8; 8; 8;
   8; 8; 8; 8; 8; 8; 8; 8; 8; 8; 8; 15;
   8; 8; 8; 8; 8; 8; 8; 8; 0; 0; 0; 0;
   0; 0; 0; 255; 0; 0; 0; 0; 0; 0; 0; 0;
   8; 8; 8; 8; 8; 8; 8; 255; 8; 8; 8; 8;
   8; 8; 8; 8; 48; 12; 0; 0; 60; 66; 66; 66;
   66; 66; 66; 66; 66; 60; 0; 0; 12; 48; 0; 0;
   60; 66; 66; 66; 66; 66; 66; 66; 66; 60; 0; 0;
   24; 36; 0; 0; 60; 66; 66; 66; 66; 66; 66; 66;
   66; 60; 0; 0; 50; 76; 0; 0; 60; 66; 66; 66;
   66; 66; 66; 66; 66; 60; 0; 0; 0; 0; 0; 0;
   0; 0; 0; 66; 36; 24; 36; 66; 0; 0; 0; 0;
   0; 0; 0; 2; 58; 68; 70; 74; 74; 82; 82; 98;
   34; 92; 64; 0; 48; 12; 0; 0; 66; 66; 66; 66;
   66; 66; 66; 66; 66; 60; 0; 0; 12; 48; 0; 0;
   66; 66; 66; 66; 66; 66; 66; 66; 66; 60; 0; 0;
   24; 36; 0; 0; 66; 66; 66; 66; 66; 66; 66; 66;
   66; 60; 0; 0; 0; 0; 0; 64; 64; 120; 68; 66;
   66; 68; 120; 64; 64; 64; 0; 0; 0; 0; 50; 76;
   0; 0; 60; 66; 2; 62; 66; 66; 70; 58; 0; 0;
   0; 0; 50; 12; 20; 34; 2; 62; 66; 66; 66; 66;
   66; 60; 0; 0; 0; 0; 50; 76; 0; 0; 60; 66;
   66; 66; 66; 66; 66; 60; 0; 0; 0; 0; 0; 0;
   0; 2; 60; 70; 74; 74; 82; 82; 98; 60; 64; 0;
   0; 0; 12; 48; 0; 0; 66; 66; 66; 66; 66; 38;
   26; 2; 2; 60; 0; 0; 0; 64; 64; 64; 92; 98;
   66; 66; 66; 66; 98; 92; 64; 64; 66; 66; 60; 0;
   60; 66; 66; 64; 64; 78; 66; 66; 70; 58; 0; 0;
   0; 66; 66; 60; 0; 2; 58; 68; 68; 68; 56; 32;
   60; 66; 66; 60; 8; 8; 0; 0; 62; 8; 8; 8;
   8; 8; 8; 8; 8; 62; 0; 0; 8; 8; 8; 8;
   8; 8; 8; 248; 0; 0; 0; 0; 0; 0; 0; 0;
   0; 0; 0; 0; 0; 0; 0; 15; 8; 8; 8; 8;
   8; 8; 8; 8; 255; 255; 255; 255; 255; 255; 255; 255;
   255; 255; 255; 255; 255; 255; 255; 255; 0; 0; 0; 0;
   0; 0; 24; 8; 8; 8; 8; 8; 8; 62; 0; 0;
   0; 0; 0; 0; 60; 66; 66; 64; 48; 12; 2; 66;
   66; 60; 8; 48; 0; 0; 0; 0; 0; 0; 60; 66;
   64; 48; 12; 2; 66; 60; 8; 48; 36; 24; 0; 0;
   60; 66; 66; 64; 48; 12; 2; 66; 66; 60; 0; 0;
   0; 0; 36; 24; 0; 0; 60; 66; 64; 48; 12; 2;
   66; 60; 0; 0; 0; 0; 0; 0; 56; 68; 68; 72;
   88; 68; 66; 66; 82; 76; 0; 0; 36; 24; 0; 0;
   126; 2; 2; 4; 8; 16; 32; 64; 64; 126; 0; 0;
   0; 0; 0; 0; 0; 0; 126; 36; 36; 36; 36; 36;
   36; 36; 0; 0; 0; 0; 36; 24; 0; 0; 126; 2;
   4; 8; 16; 32; 64; 126; 0; 0; 0; 0; 0; 0;
   24; 36; 0; 0; 0; 0; 0; 0; 0; 0; 0; 0;
   0; 0; 0; 0; 0; 0; 66; 66; 66; 66; 66; 66;
   102; 89; 64; 128; 0; 0; 50; 76; 0; 0; 0; 0;
   0; 0; 0; 0; 0; 0; 0; 0; 0; 0; 8; 16;
   16; 24; 0; 0; 0; 0; 0; 0; 0; 0; 0; 0;
   0; 0; 24; 8; 8; 16; 0; 0; 0; 0; 0; 0;
   0; 0; 0; 0; 0; 0; 0; 0; 0; 0; 0; 0;
   0; 0; 0; 0; 24; 8; 8; 16; 0; 0; 34; 68;
   68; 102; 0; 0; 0; 0; 0; 0; 0; 0; 0; 0;
   0; 0; 0; 0; 0; 0; 0; 54; 73; 73; 54; 0;
   0; 0; 0; 0; 0; 0; 102; 34; 34; 68; 0; 0;
   0; 0; 0; 0; 0; 0; 0; 0; 0; 0; 0; 0;
   0; 0; 0; 0; 0; 0; 0; 0; 102; 34; 34; 68;
   0; 0; 0; 0; 0; 0; 60; 66; 66; 66; 66; 66;
   66; 66; 0; 0; 0; 0; 0; 0; 0; 0; 0; 126;
   0; 126; 0; 126; 0; 0; 0; 0; 0; 0; 0; 0;
   8; 8; 8; 127; 8; 8; 8; 0; 127; 0; 0; 0;
   0; 0; 0; 0; 0; 0; 96; 24; 6; 24; 96; 0;
   126; 0; 0; 0; 0; 0; 0; 0; 0; 0; 6; 24;
   96; 24; 6; 0; 126; 0; 0; 0; 0; 0; 0; 0;
   0; 4; 4; 8; 8; 16; 8; 8; 4; 4; 0; 0;
   0; 0; 0; 0; 0; 32; 32; 16; 16; 8; 16; 16;
   32; 32; 0; 0; 0; 0; 0; 0; 0; 0; 24; 0;
   0; 126; 0; 0; 24; 0; 0; 0; 0; 0; 0; 0;
   0; 0; 0; 50; 76; 0; 50; 76; 0; 0; 0; 0;
   0; 0; 0; 0; 24; 36; 36; 24; 0; 0; 0; 0;
   0; 0; 0; 0; 0; 0; 0; 0; 12; 18; 32; 124;
   32; 124; 32; 32; 18; 12; 0; 0; 0; 0; 0; 0;
   0; 0; 0; 0; 24; 24; 0; 0; 0; 0; 0; 0;
   0; 0; 0; 0; 0; 0; 2; 4; 126; 8; 16; 126;
   32; 64; 0; 0; 0; 0; 0; 0; 0; 88; 100; 68;
   68; 68; 0; 0; 0; 0; 0; 0; 0; 0; 0; 56;
   68; 4; 24; 32; 64; 124; 0; 0; 0; 0; 0; 0;
   0; 0; 0; 0; 0; 0; 0; 127; 127; 127; 127; 127;
   127; 127; 0; 0; 0; 0; 0; 0; 0; 0; 0; 62;
   64; 64; 126; 64; 64; 62; 0; 0; 169; 0; 255; 255;
   174; 0; 255; 255; 221; 0; 255; 255; 82; 1; 255; 255;
   102; 38; 200; 37; 253; 255; 255; 255; 83; 1; 255; 255;
   120; 1; 255; 255; 20; 32; 21; 32; 255; 255; 32; 32;
   255; 255; 33; 32; 255; 255; 34; 32; 207; 37; 255; 255;
   38; 32; 255; 255; 48; 32; 255; 255; 34; 33; 255; 255;
   22; 33; 255; 255; 174; 32; 255; 255; 5; 34; 255; 255;
   164; 0; 255; 255; 166; 0; 255; 255; 60; 32; 255; 255;
   182; 0; 255; 255; 167; 0; 255; 255; 168; 0; 255; 255;
   175; 0; 201; 2; 255; 255; 145; 33; 178; 37; 180; 37;
   255; 255; 147; 33; 188; 37; 190; 37; 255; 255; 146; 33;
   182; 37; 184; 37; 255; 255; 144; 33; 192; 37; 194; 37;
   255; 255; 179; 0; 255; 255; 180; 0; 255; 255; 184; 0;
   255; 255; 185; 0; 255; 255; 32; 0; 160; 0; 0; 32;
   1; 32; 2; 32; 3; 32; 4; 32; 5; 32; 6; 32;
   7; 32; 8; 32; 9; 32; 10; 32; 47; 32; 255; 255].
Definition ttyfont_4 : list Z :=
  [
   33; 0; 255; 255; 34; 0; 255; 255; 35; 0; 255; 255;
   36; 0; 255; 255; 37; 0; 255; 255; 38; 0; 255; 255;
   39; 0; 255; 255; 40; 0; 255; 255; 41; 0; 255; 255;
   42; 0; 155; 34; 255; 255; 43; 0; 149; 34; 255; 255;
   44; 0; 255; 255; 45; 0; 18; 32; 19; 32; 18; 34;
   173; 0; 16; 32; 17; 32; 150; 34; 255; 255; 46; 0;
   153; 34; 16; 38; 255; 255; 47; 0; 152; 34; 113; 37;
   255; 255; 48; 0; 234; 36; 255; 255; 49; 0; 96; 36;
   255; 255; 50; 0; 97; 36; 255; 255; 51; 0; 98; 36;
   255; 255; 52; 0; 99; 36; 255; 255; 53; 0; 100; 36;
   255; 255; 54; 0; 101; 36; 255; 255; 55; 0; 102; 36;
   255; 255; 56; 0; 103; 36; 255; 255; 57; 0; 104; 36;
   255; 255; 58; 0; 255; 255; 59; 0; 255; 255; 60; 0;
   255; 255; 61; 0; 156; 34; 255; 255; 62; 0; 255; 255;
   63; 0; 255; 255; 64; 0; 255; 255; 65; 0; 16; 4;
   145; 3; 182; 36; 255; 255; 66; 0; 18; 4; 146; 3;
   183; 36; 255; 255; 67; 0; 33; 4; 184; 36; 255; 255;
   68; 0; 185; 36; 255; 255; 69; 0; 21; 4; 149; 3;
   186; 36; 255; 255; 70; 0; 187; 36; 255; 255; 71; 0;
   188; 36; 255; 255; 72; 0; 29; 4; 151; 3; 189; 36;
   255; 255; 73; 0; 6; 4; 153; 3; 190; 36; 255; 255;
   74; 0; 8; 4; 191; 36; 255; 255; 75; 0; 26; 4;
   154; 3; 42; 33; 192; 36; 255; 255; 76; 0; 193; 36;
   255; 255; 77; 0; 28; 4; 156; 3; 194; 36; 255; 255;
   78; 0; 157; 3; 195; 36; 255; 255; 79; 0; 30; 4;
   159; 3; 196; 36; 255; 255; 80; 0; 32; 4; 161; 3;
   197; 36; 255; 255; 81; 0; 198; 36; 255; 255; 82; 0;
   199; 36; 255; 255; 83; 0; 5; 4; 200; 36; 255; 255;
   84; 0; 34; 4; 164; 3; 201; 36; 255; 255; 85; 0;
   202; 36; 255; 255; 86; 0; 203; 36; 255; 255; 87; 0;
   204; 36; 255; 255; 88; 0; 37; 4; 167; 3; 205; 36;
   115; 37; 255; 255; 89; 0; 174; 4; 206; 36; 255; 255;
   90; 0; 150; 3; 207; 36; 255; 255; 91; 0; 255; 255;
   92; 0; 114; 37; 255; 255; 93; 0; 255; 255; 94; 0;
   255; 255; 95; 0; 255; 255; 96; 0; 255; 255; 97; 0;
   48; 4; 208; 36; 255; 255; 98; 0; 209; 36; 255; 255;
   99; 0; 65; 4; 210; 36; 255; 255; 100; 0; 211; 36;
   255; 255; 101; 0; 53; 4; 212; 36; 255; 255; 102; 0;
   213; 36; 255; 255; 103; 0; 214; 36; 255; 255; 104; 0;
   215; 36; 255; 255; 105; 0; 86; 4; 216; 36; 255; 255;
   106; 0; 88; 4; 217; 36; 255; 255; 107; 0; 218; 36;
   255; 255; 108; 0; 219; 36; 255; 255; 109; 0; 220; 36;
   255; 255; 110; 0; 221; 36; 255; 255; 111; 0; 62; 4;
   222; 36; 255; 255; 112; 0; 64; 4; 223; 36; 255; 255;
   113; 0; 224; 36; 255; 255; 114; 0; 225; 36; 255; 255;
   115; 0; 85; 4; 115; 0; 226; 36; 255; 255; 116; 0;
   227; 36; 255; 255; 117; 0; 228; 36; 255; 255; 118; 0;
   229; 36; 17; 38; 255; 255; 119; 0; 230; 36; 255; 255;
   120; 0; 69; 4; 231; 36; 18; 38; 23; 39; 24; 39;
   189; 43; 255; 255; 121; 0; 67; 4; 232; 36; 255; 255;
   122; 0; 233; 36; 255; 255; 123; 0; 255; 255; 124; 0;
   255; 255; 125; 0; 255; 255; 126; 0; 255; 255; 190; 0;
   255; 255; 199; 0; 255; 255; 252; 0; 255; 255; 233; 0;
   255; 255; 226; 0; 255; 255; 228; 0; 255; 255; 224; 0;
   255; 255; 229; 0; 255; 255; 231; 0; 255; 255; 234; 0;
   255; 255; 235; 0; 81; 4; 255; 255; 232; 0; 255; 255;
   239; 0; 87; 4; 255; 255; 238; 0; 255; 255; 236; 0;
   255; 255; 196; 0; 255; 255; 197; 0; 43; 33; 255; 255;
   201; 0; 255; 255; 230; 0; 255; 255; 198; 0; 255; 255;
   244; 0; 255; 255; 246; 0; 255; 255; 242; 0; 255; 255;
   251; 0; 255; 255; 249; 0; 255; 255; 255; 0; 255; 255;
   214; 0; 255; 255; 220; 0; 255; 255; 162; 0; 255; 255;
   163; 0; 255; 255; 165; 0; 255; 255; 167; 32; 255; 255;
   146; 1; 255; 255; 225; 0; 255; 255; 237; 0; 255; 255;
   243; 0; 255; 255; 250; 0; 255; 255; 241; 0; 255; 255;
   209; 0; 255; 255; 170; 0; 255; 255; 186; 0; 255; 255;
   191; 0; 255; 255; 192; 0; 255; 255; 172; 0; 255; 255;
   189; 0; 255; 255; 188; 0; 255; 255; 161; 0; 255; 255;
   171; 0; 106; 34; 255; 255; 187; 0; 107; 34; 255; 255;
   145; 37; 255; 255; 146; 37; 255; 255; 193; 0; 255; 255;
   2; 37; 3; 37; 127; 37; 125; 37; 123; 37; 119; 37;
   121; 37; 117; 37; 78; 37; 79; 37; 6; 37; 7; 37;
   10; 37; 11; 37; 81; 37; 255; 255; 36; 37; 43; 37;
   42; 37; 41; 37; 40; 37; 39; 37; 38; 37; 37; 37;
   97; 37; 98; 37; 99; 37; 255; 255; 194; 0; 255; 255;
   195; 0; 255; 255; 200; 0; 255; 255; 202; 0; 255; 255;
   203; 0; 1; 4; 255; 255; 204; 0; 255; 255; 205; 0;
   255; 255; 206; 0; 255; 255; 207; 0; 7; 4; 255; 255;
   208; 0; 16; 1; 255; 255; 16; 37; 19; 37; 18; 37;
   17; 37; 85; 37; 86; 37; 87; 37; 110; 37; 255; 255;
   20; 37; 23; 37; 22; 37; 21; 37; 88; 37; 89; 37;
   90; 37; 112; 37; 255; 255; 52; 37; 59; 37; 58; 37;
   57; 37; 56; 37; 55; 37; 54; 37; 53; 37; 103; 37;
   104; 37; 105; 37; 255; 255; 44; 37; 51; 37; 50; 37;
   49; 37; 48; 37; 47; 37; 46; 37; 45; 37; 100; 37;
   101; 37; 102; 37; 255; 255; 28; 37; 35; 37; 34; 37;
   33; 37; 32; 37; 31; 37; 30; 37; 29; 37; 94; 37;
   95; 37; 96; 37; 255; 255; 0; 37; 1; 37; 126; 37;
   124; 37; 122; 37; 118; 37; 120; 37; 116; 37; 4; 37;
   5; 37; 8; 37; 9; 37; 76; 37; 77; 37; 80; 37;
   255; 255; 60; 37; 75; 37; 74; 37; 73; 37; 72; 37;
   71; 37; 70; 37; 69; 37; 68; 37; 67; 37; 66; 37;
   65; 37; 64; 37; 63; 37; 62; 37; 61; 37; 106; 37;
   107; 37; 108; 37; 255; 255; 210; 0; 255; 255; 211; 0;
   255; 255; 212; 0; 255; 255; 213; 0; 255; 255; 215; 0;
   255; 255; 216; 0; 255; 255; 217; 0; 255; 255; 218; 0;
   255; 255; 219; 0; 255; 255; 222; 0; 255; 255; 227; 0;
   255; 255; 240; 0; 255; 255; 245; 0; 255; 255; 248; 0;
   255; 255; 253; 0; 255; 255; 254; 0; 255; 255; 30; 1;
   255; 255; 31; 1; 255; 255; 48; 1; 255; 255; 24; 37;
   27; 37; 26; 37; 25; 37; 91; 37; 92; 37; 93; 37;
   111; 37; 255; 255; 12; 37; 15; 37; 14; 37; 13; 37;
   82; 37; 83; 37; 84; 37; 109; 37; 255; 255; 136; 37;
   255; 255; 49; 1; 255; 255; 94; 1; 255; 255; 95; 1;
   255; 255; 96; 1; 255; 255; 97; 1; 255; 255; 223; 0;
   255; 255; 125; 1; 255; 255; 192; 3; 255; 255; 126; 1;
   255; 255; 198; 2; 255; 255; 181; 0; 188; 3; 255; 255;
   220; 2; 255; 255; 24; 32; 255; 255; 25; 32; 255; 255;
   26; 32; 255; 255; 28; 32; 255; 255; 30; 34; 255; 255;
   29; 32; 255; 255; 30; 32; 255; 255; 41; 34; 255; 255;
   97; 34; 255; 255; 177; 0; 255; 255; 101; 34; 255; 255;
   100; 34; 255; 255; 57; 32; 255; 255; 58; 32; 255; 255;
   247; 0; 255; 255; 72; 34; 255; 255; 176; 0; 255; 255;
   172; 32; 255; 255; 183; 0; 255; 255; 96; 34; 255; 255;
   127; 32; 255; 255; 178; 0; 255; 255; 160; 37; 174; 37;
   255; 255; 8; 34; 255; 255].
Definition ttyfont : list Z := ttyfont_1 ++ ttyfont_2 ++ ttyfont_3 ++ ttyfont_4.

(** The bytes of a buffer as [psf1_header_t] and what follows it. *)
Definition psf1_of_bytes (b : list Z) : option psf1_font :=
  match b with
  | m0 :: m1 :: mode :: height :: g => Some (mkPsf (m0 + 256 * m1) mode height g)
  | _ => None
  end.
Definition psf_load_defaults : M term_state Z :=
  match psf1_of_bytes ttyfont with Some f => psf_load f | None => fault end.

(** The font of that array. *)
Definition default_font : psf1_font := mkPsf PSF1_MAGIC PSF1_MODEHASTAB 16 (drop 4 ttyfont).
Lemma ttyfont_header : psf1_of_bytes ttyfont = Some default_font.
Proof. vm_compute. reflexivity. Qed.
Lemma default_glyphs : length (glyphs default_font) = 5666%nat.
Proof. vm_compute. reflexivity. Qed.

(** The kernel's font is accepted, and has all the glyphs of a byte. *)
Theorem psf_load_defaults_spec s :
  psf_load_defaults s = Done (0, put_psf (Some default_font) s).
Proof. unfold psf_load_defaults. rewrite ttyfont_header. reflexivity. Qed.
Lemma default_screen_ok f :
  address f = true → 0 < width f / FONT_WIDTH ≤ MAX_COLS → 0 < height f / 16 ≤ MAX_ROWS → 0 ≤ width f ≤ pitch f / 4 →
  pitch f / 4 * height f < 2 ^ 32 → 0 ≤ pitch f / 4 < 2 ^ 32 → 0 ≤ height f < 2 ^ 32 → screen_ok f default_font.
Proof. intros. constructor; try done; rewrite ?default_glyphs; simpl; lia. Qed.
