(* ===== verification/KtermTheorems.v ===== *)
(** No text makes the terminal leave its memory, what a character does to the
    screen, and how escape sequences move the cursor. *)
From S2P Require Import Prelude Kterm KtermSpec KtermFont.

#[local] Arguments for_n : simpl never.
#[local] Arguments Z.mul : simpl never.
#[local] Arguments Z.add : simpl never.

Section terminal.
Context (f : limine_framebuffer) (p : psf1_font) (Hok : screen_ok f p).
Implicit Types s : term_state.
Local Abbreviation kfb := (Some f).
Local Abbreviation inv := (term_inv f p).
Local Abbreviation ready := (ready f p).

(** * Safety *)

Definition safe {A} (m : M term_state A) : Prop := ∀ s, ready s → wp m (λ _ s', ready s') s.
Lemma keeps_safe {A} (m : M term_state A) : keeps f p m → safe m.
Proof. intros Hm s [Hi Hin]. eapply wp_mono; [by apply Hm|]. intros a s' [? ?]. split; [done|congruence]. Qed.
Lemma safe_bind {A B} (m : M term_state A) (g : A → M term_state B) : safe m → (∀ a, safe (g a)) → safe (m ≫= g).
Proof. intros Hm Hg s Hs. apply wp_bind. eapply wp_mono; [by apply Hm|]. intros a s' Hs'. by apply Hg. Qed.
Lemma safe_gets {A B} (g : term_state → A) (h : A → M term_state B) : (∀ s, ready s → wp (h (g s)) (λ _ s', ready s') s) → safe (gets g ≫= h).
Proof. intros H s Hs. apply wp_bind, wp_gets. by apply H. Qed.

Lemma wp_move_cursor s x y (Q : unit → term_state → Prop) :
  ready s → 0 ≤ x → 0 ≤ y →
  (∀ s', redrawn f p (at_ (clamp x (cols s)) (clamp y (rows s)) s) s' → ready s' → Q tt s') → wp (kterm_move_cursor kfb x y) Q s.
Proof.
  intros [Hi Hin] Hx Hy HQ. unfold kterm_move_cursor. apply wp_bind. eapply wp_ensure_init; [done|done|].
  apply wp_bind, wp_gets, wp_bind, wp_gets, wp_bind, wp_modify. pose proof Hok as [].
  assert (inv (at_ (clamp x (cols s)) (clamp y (rows s)) s)) as Hi1.
  { rewrite (ti_cols _ _ _ Hi), (ti_rows _ _ _ Hi). unfold clamp. apply at_inv; [done|..];
      rewrite Z.geb_leb; destruct (Z.leb_spec (width f / FONT_WIDTH) x), (Z.leb_spec (height f / psf_height p) y);
      rewrite ?(proj2 (Z.eqb_neq _ _)) by lia; lia. }
  apply wp_bind, wp_gets, wp_bind, wp_gets. apply (wp_render_cursor f p Hok); [done|apply Hi1|apply Hi1|]. intros s' Hd. apply HQ; [done|].
  split; [by eapply redrawn_inv|]. by destruct Hd as (? & ? & ? & -> & _).
Qed.
Lemma safe_move_cursor x y : 0 ≤ x → 0 ≤ y → safe (kterm_move_cursor kfb x y).
Proof. intros Hx Hy s Hs. by apply wp_move_cursor. Qed.
Lemma safe_ensure_init : safe (ensure_init kfb).
Proof. intros s [Hi Hin]. by eapply wp_ensure_init. Qed.

Lemma safe_save : safe kterm_save_cursor.
Proof.
  intros s [Hi Hin]. apply wp_bind, wp_gets, wp_bind, wp_gets, wp_modify. split; [|done]. apply inv_esc; [done|].
  destruct (ti_esc _ _ _ Hi) as (? & ? & _). split_and!; simpl; try done; try apply Hi; lia.
Qed.
Lemma safe_restore : safe (kterm_restore_cursor kfb).
Proof.
  intros s Hs. apply wp_bind, wp_gets, wp_bind, wp_gets. destruct Hs as [Hi Hin]. destruct (ti_esc _ _ _ Hi) as (_ & _ & ? & ?).
  by apply safe_move_cursor.
Qed.

Lemma wp_clear_cells s row a e (Q : unit → term_state → Prop) :
  inv s → 0 ≤ row < MAX_ROWS → 0 ≤ a → (∀ s', wiped s s' → Q tt s') → wp (clear_cells row a e) Q s.
Proof.
  intros Hi Hr Ha HQ. unfold clear_cells. apply wp_bind, wp_gets. rewrite (ti_cols _ _ _ Hi). pose proof Hok as [].
  destruct (Z.le_gt_cases a (Z.min (e + 1) (width f / FONT_WIDTH))).
  - apply (wp_clear_range f); [apply Hi|done|done|lia|]. intros s' Hc. apply HQ. eapply cleared_wiped; [apply Hi|done].
  - replace (Z.to_nat (Z.min (e + 1) (width f / FONT_WIDTH) - a)) with 0%nat by lia. apply wp_ret, HQ. by eapply wiped_refl.
Qed.
Lemma keeps_clear_cells row a e : 0 ≤ row < MAX_ROWS → 0 ≤ a → keeps f p (clear_cells row a e).
Proof. intros Hr Ha s Hi. apply wp_clear_cells; [done..|]. intros s' Hw. split; [by eapply wiped_inv|]. by destruct Hw as (? & -> & _). Qed.
Lemma safe_clear_line mode : safe (kterm_clear_line kfb mode).
Proof.
  apply safe_bind; [apply safe_ensure_init|intros _]. apply safe_gets. intros s Hs. apply wp_bind, wp_gets. pose proof Hok as [].
  destruct Hs as [Hi Hin]. pose proof (ti_x _ _ _ Hi). pose proof (ti_y _ _ _ Hi). apply wp_bind.
  apply (wp_real_row s); [apply Hi|unfold MAX_ROWS in *; lia|]. apply wp_bind. apply wp_bind, wp_gets, wp_ret. revert s Hi Hin H H0.
  intros s Hi Hin Hx Hy. apply wp_bind. apply wp_clear_cells; [done|apply row_bounds|destruct (mode =? 0); lia|]. intros s1 Hw.
  assert (ready s1) as Hs1 by (split; [by eapply wiped_inv|by destruct Hw as (? & -> & _)]).
  assert (safe (render_screen kfb ;; render_here kfb)) as Hsafe; [|by apply Hsafe].
  apply keeps_safe, keeps_bind; [by apply keeps_render_screen|intros _; by apply keeps_render_here].
Qed.
Lemma safe_clear_screen mode : safe (kterm_clear_screen kfb mode).
Proof.
  apply safe_bind; [apply safe_ensure_init|intros _]. destruct ((mode =? 2) || (mode =? 3)); [apply keeps_safe; by apply keeps_cls|].
  apply safe_gets. intros s [Hi Hin]. apply wp_bind, wp_gets, wp_bind, wp_gets. pose proof Hok as []. rewrite (ti_rows _ _ _ Hi).
  pose proof (ti_x _ _ _ Hi) as Hx. set (n := Z.to_nat (height f / psf_height p)). apply wp_bind.
  apply (wp_for_n (λ _ s', ready s')); [done| |].
  - intros y s' Hy [Hi' Hin']. apply wp_bind. apply (wp_real_row s'); [apply Hi'|unfold n, MAX_ROWS in *; lia|]. apply wp_bind.
    apply wp_bind, wp_gets, wp_ret. destruct ((mode =? 0) && (y <? char_cursor_y s)); [by apply wp_ret|].
    destruct ((mode =? 1) && (y >? char_cursor_y s)); [by apply wp_ret|].
    apply wp_clear_cells; [done|apply row_bounds|destruct (_ && _); lia|]. intros s1 Hw.
    split; [by eapply wiped_inv|by destruct Hw as (? & -> & _)].
  - intros s' Hs'. assert (safe (render_screen kfb ;; render_here kfb)) as Hsafe; [|by apply Hsafe].
    apply keeps_safe, keeps_bind; [by apply keeps_render_screen|intros _; by apply keeps_render_here].
Qed.

(** ** Colours *)

Lemma wp_param s i (Q : Z → term_state → Prop) : inv s → 0 ≤ i < 16 → (∀ v, params (esc_ctx s) !! Z.to_nat i = Some v → Q v s) → wp (param i) Q s.
Proof.
  intros Hi Hb HQ. apply wp_bind, wp_gets. destruct (ti_esc _ _ _ Hi) as (Hl & _).
  assert (is_Some (params (esc_ctx s) !! Z.to_nat i)) as [v Hv] by (apply lookup_lt_is_Some; lia). rewrite Hv. apply wp_ret. by apply HQ.
Qed.

(** Colours and brightness. *)
Definition recolored s s' : Prop := ∃ a b br, s' = put_fg_color a (put_bg_color b (put_esc_ctx (set_bright br (esc_ctx s)) s)).
Lemma recolored_refl s : recolored s s.
Proof. exists (fg_color s), (bg_color s), (bright (esc_ctx s)). by destruct s as [????????????[]??]. Qed.
Lemma recolored_trans s s' s'' : recolored s s' → recolored s' s'' → recolored s s''.
Proof. intros (? & ? & ? & ->) (a & b & br & ->). by exists a, b, br. Qed.
Lemma recolored_inv s s' : inv s → recolored s s' → inv s'.
Proof. intros [] (a & b & br & ->). by constructor. Qed.
Lemma recolored_fb s s' : framebuffer s = Some f → recolored s s' → framebuffer s' = Some f.
Proof. by intros Hf (a & b & br & ->). Qed.

Definition reads {A} (m : M term_state A) : Prop := ∀ s, framebuffer s = Some f → wp m (λ _ s', s' = s) s.
Definition recolors (m : M term_state unit) : Prop := ∀ s, framebuffer s = Some f → wp m (λ _ s', recolored s s') s.
Lemma reads_bind {A} (m : M term_state A) g : reads m → (∀ a, recolors (g a)) → recolors (m ≫= g).
Proof. intros Hm Hg s Hf. apply wp_bind. eapply wp_mono; [by apply Hm|]. intros a s' ->. by apply Hg. Qed.
Lemma recolors_seq m m' : recolors m → recolors m' → recolors (m ;; m').
Proof.
  intros Hm Hm' s Hf. apply wp_bind. eapply wp_mono; [by apply Hm|]. intros [] s' Hr.
  eapply wp_mono; [apply Hm'; by eapply recolored_fb|]. intros [] s''. by apply recolored_trans.
Qed.
Lemma reads_palette i : 0 ≤ i < 16 → reads (palette i).
Proof.
  intros Hi s _. unfold palette. assert (is_Some (ansi_palette !! Z.to_nat i)) as [c ->] by (apply lookup_lt_is_Some; simpl; lia). by apply wp_ret.
Qed.
Lemma reads_basic c b : reads (ansi_basic_to_rgb c b).
Proof.
  unfold ansi_basic_to_rgb. rewrite Z.gtb_ltb. destruct (Z.ltb_spec c 0), (Z.ltb_spec 7 c); simpl; apply reads_palette; destruct b; lia.
Qed.
Lemma reads_256 i : reads (ansi_256_to_rgb i).
Proof.
  unfold ansi_256_to_rgb. set (k := if i <? 0 then 0 else i). assert (0 ≤ k) by (unfold k; destruct (Z.ltb_spec i 0); lia).
  destruct (Z.ltb_spec k 16); [by apply reads_palette|]. intros s Hf. apply wp_bind, (wp_fb f); [done|].
  destruct (Z.ltb_spec k 232); [|by apply wp_ret].
  assert (∀ j, 0 ≤ j < 6 → is_Some (cube_levels !! Z.to_nat j)) as Hl by (intros j Hj; apply lookup_lt_is_Some; simpl; lia).
  destruct (Hl ((k - 16) / 36)) as [r ->]; [Z.to_euclidean_division_equations; lia|].
  destruct (Hl (((k - 16) / 6) `mod` 6)) as [v ->]; [apply Z.mod_pos_bound; lia|].
  destruct (Hl ((k - 16) `mod` 6)) as [b ->]; [apply Z.mod_pos_bound; lia|]. by apply wp_ret.
Qed.
Lemma reads_fg : reads cell_fg_rgb.
Proof. intros s Hf. by apply (wp_cell_fg f). Qed.
Lemma reads_bg : reads cell_bg_rgb.
Proof. intros s Hf. by apply (wp_cell_bg f). Qed.
Lemma reads_fb : reads fb.
Proof. intros s Hf. by apply (wp_fb f). Qed.
Lemma recolors_set_fg rgb : recolors (kterm_set_fg kfb rgb).
Proof.
  intros s Hf. apply wp_bind, wp_bind, wp_gets. rewrite Hf. apply wp_ret, wp_modify.
  exists (components f rgb), (bg_color s), (bright (esc_ctx s)). by destruct s as [????????????[]??].
Qed.
Lemma recolors_set_bg rgb : recolors (kterm_set_bg kfb rgb).
Proof.
  intros s Hf. apply wp_bind, wp_bind, wp_gets. rewrite Hf. apply wp_ret, wp_modify.
  exists (fg_color s), (components f rgb), (bright (esc_ctx s)). by destruct s as [????????????[]??].
Qed.
Lemma recolors_set_color is_fg rgb : recolors (set_color kfb is_fg rgb).
Proof. destruct is_fg; [apply recolors_set_fg|apply recolors_set_bg]. Qed.
Lemma recolors_bright br : recolors (esc_store (set_bright br)).
Proof. intros s _. apply wp_modify. exists (fg_color s), (bg_color s), br. by destruct s as [????????????[]??]. Qed.
Lemma recolors_reset : recolors (reset_terminal_attributes kfb).
Proof. apply recolors_seq; [apply recolors_bright|]. apply recolors_seq; [apply recolors_set_fg|apply recolors_set_bg]. Qed.

Ltac recolor := repeat first
  [ apply recolors_reset | apply recolors_bright | apply recolors_set_fg | apply recolors_set_bg | apply recolors_set_color
  | apply recolors_seq | apply reads_bind; [first [apply reads_basic | apply reads_256 | apply reads_fg | apply reads_bg | apply reads_fb]|intro] ].

(** A parameter of the [m] command, and how far it gets. *)
Definition sgr_post s (i : Z) (r : Z + unit) s' : Prop :=
  recolored s s' ∧ match r with inl j => i < j ∧ i < param_count (esc_ctx s) | inr _ => True end.
Lemma wp_sgr_go s i j m :
  inv s → recolors m → i < j → i < param_count (esc_ctx s) → wp (m ;; mret (inl j)) (sgr_post s i) s.
Proof. intros Hi Hm Hj Hn. apply wp_bind. eapply wp_mono; [apply Hm, Hi|]. intros [] s' Hr. by apply wp_ret. Qed.
Lemma wp_sgr_reads {A} s i (m : M term_state A) g : inv s → reads m → (∀ a, wp (g a) (sgr_post s i) s) → wp (m ≫= g) (sgr_post s i) s.
Proof. intros Hi Hm Hg. apply wp_bind. eapply wp_mono; [apply Hm, Hi|]. by intros a s' ->. Qed.
Lemma wp_sgr_seq s i j m m' : inv s → recolors m → recolors m' → i < j → i < param_count (esc_ctx s) →
  wp (m ;; m' ;; mret (inl j)) (sgr_post s i) s.
Proof.
  intros Hi Hm Hm' Hj Hn. apply wp_bind. eapply wp_mono; [apply Hm, Hi|]. intros [] s' Hr. apply wp_bind.
  eapply wp_mono; [apply Hm'; eapply recolored_fb; [apply Hi|done]|]. intros [] s'' Hr'. apply wp_ret. split; [by eapply recolored_trans|done].
Qed.

Lemma wp_sgr_round s i : inv s → 0 ≤ i → wp (sgr_round kfb i) (sgr_post s i) s.
Proof.
  intros Hi H0. unfold sgr_round. apply wp_bind, wp_gets. set (n := param_count (esc_ctx s)).
  destruct (Z.ltb_spec i n) as [Hn|Hn]; simpl; [|apply wp_ret; split; [apply recolored_refl|done]].
  assert (n ≤ 16) as Hn16 by apply (ti_esc _ _ _ Hi). apply wp_bind, wp_param; [done|lia|]. intros q _.
  repeat match goal with |- wp (if ?b then _ else _) _ _ => destruct b eqn:? end;
    try (apply wp_sgr_go; [done|recolor|lia|done]);
    try (apply wp_ret; split; [apply recolored_refl|lia]).
  - apply wp_sgr_reads; [done|apply reads_fg|intros a]. apply wp_sgr_reads; [done|apply reads_bg|intros b]. apply wp_sgr_seq; [done|recolor|recolor|lia|done].
  - apply wp_bind, wp_gets. apply wp_sgr_reads; [done|apply reads_basic|intros a]. apply wp_sgr_go; [done|recolor|lia|done].
  - apply wp_sgr_reads; [done|apply reads_basic|intros a]. apply wp_sgr_go; [done|recolor|lia|done].
  - apply wp_sgr_reads; [done|apply reads_basic|intros a]. apply wp_sgr_go; [done|recolor|lia|done].
  - apply wp_sgr_reads; [done|apply reads_basic|intros a]. apply wp_sgr_go; [done|recolor|lia|done].
  - assert (i + 1 < n) by lia. apply wp_bind, wp_param; [done|lia|]. intros mode _.
    destruct ((mode =? 5) && (i + 2 <? n)) eqn:?; [|destruct ((mode =? 2) && (i + 4 <? n)) eqn:?].
    + apply wp_bind, wp_param; [done|lia|]. intros v _. apply wp_sgr_reads; [done|apply reads_256|intros a]. apply wp_sgr_go; [done|recolor|lia|done].
    + apply wp_bind, wp_param; [done|lia|]. intros r _. apply wp_bind, wp_param; [done|lia|]. intros g _. apply wp_bind, wp_param; [done|lia|]. intros b _.
      apply wp_sgr_reads; [done|apply reads_fb|intros a]. apply wp_sgr_go; [done|recolor|lia|done].
    + apply wp_ret; split; [apply recolored_refl|lia].
Qed.
Lemma safe_apply_sgr : safe (term_apply_sgr kfb).
Proof.
  intros s [Hi Hin]. unfold term_apply_sgr. apply wp_bind, wp_gets.
  assert (∀ s', recolored s s' → ready s') as Hend.
  { intros s' Hr. split; [by eapply recolored_inv|]. by destruct Hr as (? & ? & ? & ->). }
  destruct (param_count (esc_ctx s) =? 0); [eapply wp_mono; [apply recolors_reset, Hi|]; intros []; apply Hend|].
  apply (wp_loop (λ k i s', 0 ≤ i ∧ recolored s s' ∧ k = Z.to_nat (16 - i)) _ _ 16%nat); [unfold TERM_ESC_PARAMS_MAX; lia|split_and!; [lia|apply recolored_refl|lia]|].
  intros k i s' (Hi0 & Hr & ->). pose proof (recolored_inv _ _ Hi Hr) as Hi'. eapply wp_mono; [by apply wp_sgr_round|].
  intros [j|[]] s'' [Hr' Hj]; [|by apply Hend; eapply recolored_trans].
  destruct (ti_esc _ _ _ Hi') as (_ & ? & _). exists (Z.to_nat (16 - j)). split; [lia|]. split_and!; [lia|by eapply recolored_trans|done].
Qed.

(** ** Escape sequences *)

Lemma safe_visible v : safe (esc_store (set_cursor_visible v) ;; render_here kfb).
Proof. apply keeps_safe, keeps_bind; [by apply keeps_esc_store|intros _; by apply keeps_render_here]. Qed.
Lemma reads_first s k (Q : Z → term_state → Prop) :
  inv s → 0 ≤ k < 16 → (∀ v, Q v s) → wp (if param_count (esc_ctx s) >? k then param k else mret 0) Q s.
Proof. intros Hi Hk HQ. destruct (param_count (esc_ctx s) >? k); [apply wp_param; [done|done|by intros]|by apply wp_ret]. Qed.
Lemma safe_execute_csi cmd : safe (term_execute_csi kfb cmd).
Proof.
  intros s Hs. pose proof Hs as [Hi Hin]. unfold term_execute_csi. apply wp_bind, wp_gets. apply wp_bind, reads_first; [done|lia|]. intros p0.
  apply wp_bind, reads_first; [done|lia|]. intros p1. cbv zeta. set (k := if p0 >? 0 then p0 else 1).
  assert (0 < k) as Hk by (unfold k; destruct (p0 >? 0) eqn:?; lia). apply wp_bind, wp_gets, wp_bind, wp_gets.
  pose proof (ti_x _ _ _ Hi) as Hx. pose proof (ti_y _ _ _ Hi) as Hy. pose proof (u64_range (char_cursor_x s + k)). pose proof (u64_range (char_cursor_y s + k)).
  assert (∀ a b, 0 ≤ a → 0 ≤ (if a >? b then a - b else 0)) as Hsub by (intros a b ?; destruct (a >? b) eqn:?; lia).
  assert (∀ a, 0 ≤ (if a >? 0 then a - 1 else 0)) as Hpred by (intros a; destruct (a >? 0) eqn:?; lia).
  repeat match goal with |- wp (if ?b then _ else _) _ _ => destruct b end;
    try match goal with |- wp (kterm_move_cursor _ _ _) _ _ => apply safe_move_cursor;
      [first [apply Hsub; lia|apply Hpred|lia]|first [apply Hsub; lia|apply Hpred|lia]|exact Hs] end.
  - by apply safe_clear_screen.
  - by apply safe_clear_line.
  - by apply safe_apply_sgr.
  - by apply safe_save.
  - by apply safe_restore.
  - apply wp_bind, wp_gets. destruct ((cmd =? 104) && private_mode (esc_ctx s) && (p0 =? 25)); [by apply safe_visible|].
    destruct ((cmd =? 108) && private_mode (esc_ctx s) && (p0 =? 25)); [by apply safe_visible|]. by apply wp_ret.
Qed.

Lemma wp_set_param s i v (Q : unit → term_state → Prop) :
  0 ≤ i < 16 → Q tt (put_esc_ctx (set_params (<[Z.to_nat i := v]> (params (esc_ctx s))) (esc_ctx s)) s) → wp (set_param i v) Q s.
Proof.
  intros Hi HQ. unfold set_param. apply wp_bind, wp_gets. unfold TERM_ESC_PARAMS_MAX. rewrite (proj2 (Z.leb_le _ _)), (proj2 (Z.ltb_lt _ _)) by lia.
  by apply wp_modify.
Qed.
Lemma safe_new_param s (Q : unit → term_state → Prop) :
  ready s → param_count (esc_ctx s) < 16 → (∀ s', ready s' → 0 < param_count (esc_ctx s') → Q tt s') → wp new_param Q s.
Proof.
  intros [Hi Hin] Hn HQ. destruct (ti_esc _ _ _ Hi) as (Hl & Hc & ? & ?). apply wp_bind, wp_gets, wp_bind, wp_modify.
  apply wp_set_param; [lia|]. apply HQ; [|simpl; lia]. split; [|done]. apply (inv_esc f p s); [done|]. split_and!; simpl; try done; [by rewrite length_insert|lia..].
Qed.
Lemma safe_handle_escape c : safe (term_handle_escape kfb c).
Proof.
  intros s Hs. pose proof Hs as [Hi Hin]. unfold term_handle_escape. apply wp_bind, wp_gets.
  assert (∀ s', ready s' → wp reset_escape_state (λ _ s'', ready s'') s') as Hreset by (apply keeps_safe, keeps_reset).
  assert (∀ g, (∀ e, params_ok e → params_ok (g e)) → ∀ s', ready s' → wp (esc_store g) (λ _ s'', ready s'') s') as Hstore.
  { intros g Hg. apply keeps_safe. by apply keeps_esc_store. }
  destruct (state (esc_ctx s)); [by apply Hreset| |].
  - destruct (c =? 91); [|by apply Hreset]. apply Hstore; [|done]. intros e (_ & _ & ? & ?). split_and!; simpl; try done; lia.
  - destruct (c =? 63); [by apply Hstore|]. apply wp_bind, wp_gets, wp_bind, wp_gets. cbv zeta. destruct (ti_esc _ _ _ Hi) as (Hl & Hc & ? & ?).
    destruct ((48 <=? c) && (c <=? 57)); [|destruct (c =? 59)].
    + apply wp_bind. apply (wp_mono _ (λ _ s', ready s')).
      { apply wp_when; [|done]. intros [_ Hlt%Z.ltb_lt]%andb_true_iff. apply wp_bind, wp_modify. apply safe_new_param; [|done|done].
        split; [|done]. by apply inv_esc. }
      intros [] s1 [Hi1 Hin1]. apply wp_bind, wp_gets. destruct (ti_esc _ _ _ Hi1) as (Hl1 & Hc1 & ? & ?). apply wp_when; [|done].
      intros Hpos. apply wp_bind, wp_param; [done|lia|]. intros v _. apply wp_set_param; [lia|]. split; [|done]. apply inv_esc; [done|].
      split_and!; simpl; try done; [by rewrite length_insert|lia..].
    + apply wp_bind. apply (wp_mono _ (λ _ s', ready s')).
      { apply wp_when; [|done]. intros [_ Hlt%Z.ltb_lt]%andb_true_iff. by apply safe_new_param. }
      intros [] s1 Hs1. by apply Hstore.
    + apply wp_bind. apply (wp_mono _ (λ _ s', ready s')); [|intros [] s1 Hs1; by apply Hreset].
      apply wp_when; [|done]. intros _. by apply safe_execute_csi.
Qed.

(** ** Characters *)

Lemma safe_put_wrap c : 0 ≤ c < 256 → c ≠ 9 → safe (put_char kfb c ;; wrap_cursor kfb).
Proof.
  intros Hc H9 s [Hi Hin]. apply wp_bind. pose proof Hok as []. pose proof (ti_x _ _ _ Hi) as Hx. pose proof (ti_y _ _ _ Hi) as Hy.
  assert (∀ s' x y, inv s' → init s' = init s → 0 ≤ x ≤ width f / FONT_WIDTH → 0 ≤ y ≤ height f / psf_height p →
    (x = width f / FONT_WIDTH → y < height f / psf_height p) → wp (wrap_cursor kfb) (λ _ s'', ready s'') (at_ x y s')) as Hwrap.
  { intros s' x y Hi' Hin' Hxb Hyb Hxy. pose proof (wp_wrap_cursor f p Hok s' x y (λ _ s'', ready s'')) as H. cbv zeta in H.
    assert (∀ a b, inv (at_ a b s') → ∀ s'', redrawn f p (at_ a b s') s'' → ready s'') as Hrd.
    { intros a b Ha s'' Hd. split; [by eapply redrawn_inv|]. destruct Hd as (? & ? & ? & -> & _). simpl. congruence. }
    apply H; [done|lia|lia| | |].
    - rewrite Z.geb_leb. destruct (Z.leb_spec (width f / FONT_WIDTH) x); simpl; lia.
    - intros Hlt s'' Hd. eapply Hrd; [|done]. revert Hlt Hd. rewrite Z.geb_leb.
      destruct (Z.leb_spec (width f / FONT_WIDTH) x); simpl; intros; apply at_inv; try done; lia.
    - intros _ s1 s2 Hs1 Hd. assert (inv s1) as Hi1.
      { eapply scrolled_inv; [|done]. rewrite Z.geb_leb. destruct (Z.leb_spec (width f / FONT_WIDTH) x); simpl; apply at_inv; try done; lia. }
      split; [by eapply redrawn_inv|]. destruct Hd as (? & ? & ? & -> & _), Hs1 as (? & -> & _). simpl. congruence. }
  destruct (is_control c) eqn:Hctl.
  - apply (wp_put_control f p Hok); [done|done|done|]. intros s' x y Hi' Hin' Hxb Hyb. apply Hwrap; try done; lia.
  - apply (wp_put_printable f p Hok); [done|done|done|]. intros s' Hi' Hd. apply Hwrap; try done; [by destruct Hd as (? & -> & _)|lia..].
Qed.
Lemma safe_raw_putc c : 0 ≤ c < 256 → safe (term_raw_putc kfb c).
Proof.
  intros Hc. unfold term_raw_putc. destruct (Z.eqb_spec c 9); [|by apply safe_put_wrap]. intros s Hs.
  apply (wp_for_n (λ _ s', ready s')); [done| |done]. intros i s' _ Hs'. by apply safe_put_wrap.
Qed.
Lemma safe_putc c : 0 ≤ c < 256 → safe (kterm_putc kfb c).
Proof.
  intros Hc. apply safe_bind; [apply safe_ensure_init|intros _]. apply safe_gets. intros s Hs.
  destruct (state (esc_ctx s)); [|by apply safe_handle_escape..]. destruct (c =? 27); [|by apply safe_raw_putc].
  assert (safe (esc_store (set_state TERM_ESC_SEEN))) as H by (by apply keeps_safe, keeps_esc_store). by apply H.
Qed.
Lemma safe_for_each l : Forall (λ c, 0 ≤ c < 256) l → safe (for_each l (kterm_putc kfb)).
Proof.
  intros Hl. induction Hl as [|c l Hc Hl IH]; cbn [for_each]; [intros s Hs; by apply wp_ret|].
  apply safe_bind; [by apply safe_putc|]. by intros _.
Qed.

(** C24: On a screen of at most 256 columns and 256 rows of characters (at least
    one of each), whose frame buffer has less than 2^32 pixels, and with a font of
    all 256 glyphs, whatever bytes are printed, escape sequences and broken ones
    included, the terminal returns without touching anything outside of the frame
    buffer, the font and the cells, and the cursor stays on the screen; from the
    first use on, which sets the terminal up. On a wider screen it does leave the
    cells ([wide_screen_faults]). *)
Theorem kterm_puts_safe s str :
  boot f p s ∨ ready s → Forall (λ c, 0 ≤ c < 256) str → wp (kterm_puts kfb str) (λ _ s', ready s') s.
Proof.
  intros Hs Hstr. apply wp_bind. apply (wp_mono _ (λ _ s', ready s')); [|intros [] s'; by apply safe_for_each].
  destruct Hs as [Hb|Hs]; [|by apply safe_ensure_init]. unfold ensure_init. apply wp_bind, wp_gets. pose proof Hb as (_ & -> & _).
  apply (wp_kterm_init f p Hok); [by left|done].
Qed.

(** * What is on the screen *)

(** The cell at line [r] and column [k] of the screen. *)
Definition vis s (r k : Z) : terminal_cell_t := cell_at s ((scroll_base s + r) `mod` MAX_ROWS) k.
Lemma idx_inj b r k r' k' : 0 ≤ r < MAX_ROWS → 0 ≤ r' < MAX_ROWS → 0 ≤ k < MAX_COLS → 0 ≤ k' < MAX_COLS →
  (b + r) `mod` MAX_ROWS * MAX_COLS + k = (b + r') `mod` MAX_ROWS * MAX_COLS + k' → r = r' ∧ k = k'.
Proof. unfold MAX_ROWS, MAX_COLS. intros. Z.to_euclidean_division_equations. lia. Qed.

(** The screen with character [c] written at the cursor. *)
Definition with_char s (c r k : Z) : terminal_cell_t :=
  if decide (r = char_cursor_y s ∧ k = char_cursor_x s) then mkCell c (compose f (fg_color s)) (compose f (bg_color s)) else vis s r k.
Definition on_screen (r k : Z) : Prop := 0 ≤ r < height f / psf_height p ∧ 0 ≤ k < width f / FONT_WIDTH.

Lemma vis_write s c r k : inv s → on_screen r k → vis (write_cell f c s) r k = with_char s c r k.
Proof.
  intros Hi [Hr Hk]. pose proof Hok as []. pose proof (ti_x _ _ _ Hi). pose proof (ti_y _ _ _ Hi). unfold vis, with_char, cell_at, write_cell, here. simpl.
  case_decide as Hd; [destruct Hd as [-> ->]; by rewrite lookup_insert_eq|].
  rewrite lookup_insert_ne; [done|]. intros Heq. apply Hd. apply idx_inj in Heq as [? ?]; [done|..]; unfold FONT_WIDTH in *; lia.
Qed.
Lemma vis_redrawn s s' r k : redrawn f p s s' → vis s' r k = vis s r k.
Proof. by intros (? & ? & ? & -> & _). Qed.
(** Scrolling: each line shows what was below it, the last one is empty. *)
Lemma vis_scrolled s s' r k : inv s → scrolled f s s' → on_screen r k →
  vis s' r k = if decide (r = rows s - 1) then blank f s else vis s (r + 1) k.
Proof.
  intros Hi (sb & -> & Hsb) [Hr Hk]. pose proof Hok as []. pose proof (ti_rows _ _ _ Hi) as Hrows. unfold vis, cell_at. simpl. rewrite Hsb.
  assert (((scroll_base s + 1) `mod` MAX_ROWS + r) `mod` MAX_ROWS = (scroll_base s + (r + 1)) `mod` MAX_ROWS) as ->.
  { rewrite Zplus_mod_idemp_l. f_equal. lia. }
  set (a := (scroll_base s + (r + 1)) `mod` MAX_ROWS). set (b := (scroll_base s + rows s) `mod` MAX_ROWS).
  pose proof (row_bounds (scroll_base s + (r + 1))) as Ha. pose proof (row_bounds (scroll_base s + rows s)) as Hb. fold a in Ha. fold b in Hb.
  case_decide as Hl.
  - assert (a = b) as -> by (unfold a, b; f_equal; lia). rewrite (proj2 (Z.leb_le _ _)), (proj2 (Z.ltb_lt _ _)) by lia. done.
  - assert (a ≠ b) as Hab. { unfold a, b, MAX_ROWS in *. Z.to_euclidean_division_equations. lia. }
    unfold MAX_COLS in *. destruct (Z.leb_spec (b * 256) (a * 256 + k)), (Z.ltb_spec (a * 256 + k) (b * 256 + 256)); simpl; try done. lia.
Qed.

(** A character that is no control character appears at the cursor in the
    current colours; the cursor goes on to the next column, or to the start of
    the next line, or, on the last line, the screen scrolls by one line. *)
Theorem kterm_putc_printable s c :
  ready s → state (esc_ctx s) = TERM_ESC_NONE → 0 ≤ c < 256 → is_control c = false → c ≠ 27 →
  wp (kterm_putc kfb c) (λ _ s',
    let x := char_cursor_x s in let y := char_cursor_y s in
    if x + 1 <? cols s then char_cursor_x s' = x + 1 ∧ char_cursor_y s' = y ∧ ∀ r k, on_screen r k → vis s' r k = with_char s c r k
    else char_cursor_x s' = 0 ∧
      if y + 1 <? rows s then char_cursor_y s' = y + 1 ∧ ∀ r k, on_screen r k → vis s' r k = with_char s c r k
      else char_cursor_y s' = y ∧ ∀ r k, on_screen r k → vis s' r k = if decide (r = y) then blank f s else with_char s c (r + 1) k) s.
Proof.
  intros [Hi Hin] Hst Hc Hctl H27. unfold kterm_putc. apply wp_bind. eapply wp_ensure_init; [done|done|]. apply wp_bind, wp_gets. rewrite Hst.
  rewrite (proj2 (Z.eqb_neq _ _) H27). unfold term_raw_putc. assert (c ≠ 9) as H9 by (intros ->; done). rewrite (proj2 (Z.eqb_neq _ _) H9).
  apply wp_bind. apply (wp_put_printable f p Hok); [done|done|done|]. intros s1 Hi1 Hd.
  assert (∀ a b r k, on_screen r k → vis (at_ a b s1) r k = with_char s c r k) as Hvis.
  { intros a b r k Hrk. rewrite <-(vis_write _ _ _ _ Hi Hrk). by destruct Hd as (? & -> & _). }
  pose proof Hok as []. pose proof (ti_x _ _ _ Hi). pose proof (ti_y _ _ _ Hi). rewrite (ti_cols _ _ _ Hi), (ti_rows _ _ _ Hi).
  pose proof (wp_wrap_cursor f p Hok s1 (char_cursor_x s + 1) (char_cursor_y s)) as Hw. cbv zeta in Hw. rewrite Z.geb_leb in Hw.
  destruct (Z.ltb_spec (char_cursor_x s + 1) (width f / FONT_WIDTH)), (Z.leb_spec (width f / FONT_WIDTH) (char_cursor_x s + 1)); try lia; simpl in Hw.
  - apply Hw; [done|lia|lia|lia| |lia]. intros _ s2 Hd2. pose proof Hd2 as (? & ? & ? & -> & _). split_and!; [done|done|].
    intros r k Hrk. rewrite (vis_redrawn _ _ _ _ Hd2). by apply Hvis.
  - destruct (Z.ltb_spec (char_cursor_y s + 1) (height f / psf_height p)); apply Hw; try lia; try done.
    + intros _ s2 Hd2. pose proof Hd2 as (? & ? & ? & -> & _). split_and!; [done|done|].
      intros r k Hrk. rewrite (vis_redrawn _ _ _ _ Hd2). by apply Hvis.
    + intros Hlast s2 s3 Hs2 Hd3. assert (inv (at_ 0 (height f / psf_height p - 1) s1)) as Hi2 by (apply at_inv; [done|lia|lia]).
      assert (char_cursor_x s3 = 0 ∧ char_cursor_y s3 = height f / psf_height p - 1) as [-> ->].
      { destruct Hd3 as (? & ? & ? & -> & _), Hs2 as (? & -> & _). done. }
      split_and!; [done|lia|]. intros r k Hrk. rewrite (vis_redrawn _ _ _ _ Hd3), (vis_scrolled _ _ _ _ Hi2 Hs2 Hrk).
      rewrite (ti_rows _ _ _ Hi2). destruct Hrk as [? ?].
      destruct (decide (r = height f / psf_height p - 1)), (decide (r = char_cursor_y s)); try lia; [by destruct Hd as (? & -> & _)|].
      apply Hvis. split; lia.
Qed.

(** * Moving the cursor *)

(** A number and its digits. *)
Definition dec_from (v : Z) (ds : list Z) : Z := foldl (λ a d, a * 10 + d) v ds.
Definition digits (ds : list Z) : list Z := (λ d, 48 + d) <$> ds.
Definition is_digits (ds : list Z) : Prop := ds ≠ [] ∧ Forall (λ d, 0 ≤ d ≤ 9) ds.
Lemma dec_from_le v ds : 0 ≤ v → Forall (λ d, 0 ≤ d ≤ 9) ds → v ≤ dec_from v ds.
Proof.
  intros Hv Hds. revert v Hv. induction Hds as [|d ds Hd _ IH]; intros v Hv; simpl; [lia|]. specialize (IH (v * 10 + d) ltac:(lia)). lia.
Qed.

(** In an escape sequence with parameters [l], of which [n] are there. *)
Definition in_csi s l (n : Z) (active : bool) : Prop :=
  state (esc_ctx s) = TERM_ESC_CSI ∧ params (esc_ctx s) = l ∧ param_count (esc_ctx s) = n ∧ current_param_active (esc_ctx s) = active.
(** Only the escape state differs. *)
Definition escaped s s' : Prop := ∃ e, s' = put_esc_ctx e s ∧ params_ok e.
Lemma escaped_ready s s' : ready s → escaped s s' → ready s'.
Proof. intros [Hi Hin] (e & -> & He). split; [by apply inv_esc|done]. Qed.
Lemma escaped_trans s s' s'' : escaped s s' → escaped s' s'' → escaped s s''.
Proof. intros (? & -> & _) (e & -> & He). by exists e. Qed.

(** A digit more. *)
Lemma wp_digit s l n v d (Q : unit → term_state → Prop) :
  ready s → in_csi s l n true → 0 < n ≤ 16 → l !! Z.to_nat (n - 1) = Some v → 0 ≤ d ≤ 9 → 0 ≤ v → v * 10 + d < 2 ^ 31 →
  (∀ s', escaped s s' → in_csi s' (<[Z.to_nat (n - 1) := v * 10 + d]> l) n true → Q tt s') → wp (kterm_putc kfb (48 + d)) Q s.
Proof.
  intros Hs (Hst & Hl & Hn & Hact) Hn16 Hv Hd Hv0 Hfit HQ. pose proof Hs as [Hi Hin]. unfold kterm_putc. apply wp_bind. eapply wp_ensure_init; [done|done|].
  apply wp_bind, wp_gets. rewrite Hst. unfold term_handle_escape. apply wp_bind, wp_gets. rewrite Hst. rewrite (proj2 (Z.eqb_neq _ _)) by lia.
  apply wp_bind, wp_gets, wp_bind, wp_gets. rewrite Hact. cbn [negb andb]. rewrite (proj2 (Z.leb_le _ _)), (proj2 (Z.leb_le _ _)) by lia. simpl.
  apply wp_bind, wp_ret, wp_bind, wp_gets. rewrite Hn. rewrite Z.gtb_ltb, (proj2 (Z.ltb_lt _ _)) by lia. cbn [when]. apply wp_bind.
  apply wp_param; [done|lia|]. rewrite Hl, Hv. intros v' [= <-]. apply wp_set_param; [lia|]. rewrite (i32_id (_ * 10)), i32_id by lia.
  destruct (ti_esc _ _ _ Hi) as (Hlen & Hc & ? & ?). replace (v * 10 + (48 + d - 48)) with (v * 10 + d) by lia. apply HQ.
  - eexists. split; [done|]. split_and!; simpl; try done; [by rewrite length_insert|lia..].
  - split_and!; simpl; try done. by rewrite Hl.
Qed.
Lemma wp_csi_digits s l n v ds (Q : unit → term_state → Prop) :
  ready s → in_csi s l n true → 0 < n ≤ 16 → l !! Z.to_nat (n - 1) = Some v → Forall (λ d, 0 ≤ d ≤ 9) ds → 0 ≤ v → dec_from v ds < 2 ^ 31 →
  (∀ s', ready s' → escaped s s' → in_csi s' (<[Z.to_nat (n - 1) := dec_from v ds]> l) n true → Q tt s') →
  wp (for_each (digits ds) (kterm_putc kfb)) Q s.
Proof.
  intros Hs Hcsi Hn Hv Hds. revert s l v Hs Hcsi Hv. induction Hds as [|d ds Hd Hds IH]; intros s l v Hs Hcsi Hv Hv0 Hfit HQ; cbn [digits fmap list_fmap for_each].
  - apply wp_ret, HQ; [done| |]. { exists (esc_ctx s). split; [by destruct s|]. apply Hs. } simpl. by rewrite list_insert_id.
  - apply wp_bind. simpl in Hfit. pose proof (dec_from_le (v * 10 + d) ds ltac:(lia) Hds). eapply wp_digit; [done|done|done|done|done|done|lia|].
    intros s1 Hs1 Hcsi1. assert (Z.to_nat (n - 1) < length l)%nat by (by eapply lookup_lt_Some).
    eapply (IH s1 _ (v * 10 + d)); [by eapply escaped_ready|done|by apply list_lookup_insert_eq|lia|done|].
    intros s2 Hr2 Hs2 Hcsi2. rewrite list_insert_insert_eq in Hcsi2. apply HQ; [done|by eapply escaped_trans|done].
Qed.
(** The first digit begins a parameter. *)
Lemma wp_number s l n ds (Q : unit → term_state → Prop) :
  ready s → in_csi s l n false → 0 ≤ n < 16 → is_digits ds → dec_from 0 ds < 2 ^ 31 →
  (∀ s', ready s' → escaped s s' → in_csi s' (<[Z.to_nat n := dec_from 0 ds]> l) (n + 1) true → Q tt s') →
  wp (for_each (digits ds) (kterm_putc kfb)) Q s.
Proof.
  intros Hs (Hst & Hl & Hn & Hact) Hn16 [Hne Hds] Hfit HQ. destruct Hds as [|d ds Hd Hds]; [done|]. cbn [digits fmap list_fmap for_each].
  apply wp_bind. pose proof Hs as [Hi Hin]. destruct (ti_esc _ _ _ Hi) as (Hlen & Hc & ? & ?).
  unfold kterm_putc at 1. apply wp_bind. eapply wp_ensure_init; [done|done|].
  apply wp_bind, wp_gets. rewrite Hst. unfold term_handle_escape. apply wp_bind, wp_gets. rewrite Hst. rewrite (proj2 (Z.eqb_neq _ _)) by lia.
  apply wp_bind, wp_gets, wp_bind, wp_gets. rewrite Hact, Hn. unfold TERM_ESC_PARAMS_MAX. rewrite (proj2 (Z.ltb_lt n 16)) by lia. cbn [negb andb].
  rewrite (proj2 (Z.leb_le _ _)), (proj2 (Z.leb_le _ _)) by lia. cbn [andb when].
  apply wp_bind, wp_bind, wp_modify. apply wp_bind, wp_gets, wp_bind, wp_modify. simpl. rewrite Hn. apply wp_set_param; [lia|]. simpl.
  rewrite Hl in *. apply wp_bind, wp_gets. simpl. rewrite Z.gtb_ltb, (proj2 (Z.ltb_lt _ _)) by lia. cbn [when]. set (s1 := put_esc_ctx _ _).
  assert (escaped s s1) as Hs1 by (eexists; split; [done|]; split_and!; simpl; try done; [by rewrite length_insert|lia..]).
  pose proof (escaped_ready _ _ Hs Hs1) as [Hi1 _]. apply wp_bind, wp_param; [done|lia|]. replace (n + 1 - 1) with n by lia.
  intros v Hv. simpl in Hv. rewrite list_lookup_insert_eq in Hv by lia. injection Hv as <-. apply wp_set_param; [lia|]. simpl.
  rewrite (i32_id (_ * 10)), i32_id by lia. rewrite list_insert_insert_eq. replace (0 * 10 + (48 + d - 48)) with d by lia. set (s2 := put_esc_ctx _ _).
  assert (escaped s s2) as Hs2 by (eexists; split; [done|]; split_and!; simpl; try done; [by rewrite length_insert|lia..]).
  apply (wp_csi_digits s2 (<[Z.to_nat n := d]> l) (n + 1) d ds); [by eapply escaped_ready|by split_and!|lia| |done|lia|done|].
  { replace (n + 1 - 1) with n by lia. apply list_lookup_insert_eq. lia. }
  replace (n + 1 - 1) with n by lia. rewrite list_insert_insert_eq. intros s3 Hr3 Hs3 Hcsi3. apply HQ; [done|exact (escaped_trans _ _ _ Hs2 Hs3)|exact Hcsi3].
Qed.

Lemma wp_for_app {A} (l1 l2 : list A) body (Q : unit → term_state → Prop) s :
  wp (for_each l1 body) (λ _ s', wp (for_each l2 body) Q s') s → wp (for_each (l1 ++ l2) body) Q s.
Proof.
  revert s. induction l1 as [|a l1 IH]; intros s H; cbn [for_each app] in *; [done|]. apply wp_bind. apply wp_bind_inv in H.
  eapply wp_mono; [exact H|]. intros [] s'. apply IH.
Qed.
(** Other characters of a sequence. *)
Lemma wp_semicolon s l n (Q : unit → term_state → Prop) :
  ready s → in_csi s l n true → (∀ s', ready s' → escaped s s' → in_csi s' l n false → Q tt s') → wp (kterm_putc kfb 59) Q s.
Proof.
  intros Hs (Hst & Hl & Hn & Hact) HQ. pose proof Hs as [Hi Hin]. unfold kterm_putc. apply wp_bind. eapply wp_ensure_init; [done|done|].
  apply wp_bind, wp_gets. rewrite Hst. unfold term_handle_escape. apply wp_bind, wp_gets. rewrite Hst. simpl.
  apply wp_bind, wp_gets, wp_bind, wp_gets. rewrite Hact. simpl. apply wp_bind, wp_ret, wp_modify.
  assert (escaped s (put_esc_ctx (set_current_param_active false (esc_ctx s)) s)) as He by (eexists; split; [done|]; apply Hi).
  apply HQ; [by eapply escaped_ready|done|]. by split_and!.
Qed.
Lemma wp_csi_start s (Q : unit → term_state → Prop) :
  ready s → state (esc_ctx s) = TERM_ESC_NONE → (∀ s', ready s' → escaped s s' → in_csi s' no_params 0 false → Q tt s') →
  wp (for_each [27; 91] (kterm_putc kfb)) Q s.
Proof.
  intros Hs Hst HQ. pose proof Hs as [Hi Hin]. cbn [for_each]. apply wp_bind. unfold kterm_putc at 1. apply wp_bind. eapply wp_ensure_init; [done|done|].
  apply wp_bind, wp_gets. rewrite Hst. simpl. apply wp_modify.
  assert (escaped s (put_esc_ctx (set_state TERM_ESC_SEEN (esc_ctx s)) s)) as He by (eexists; split; [done|]; apply Hi).
  set (s1 := put_esc_ctx _ s) in *. pose proof (escaped_ready _ _ Hs He) as Hs1. pose proof Hs1 as [Hi1 Hin1]. apply wp_bind. unfold kterm_putc.
  apply wp_bind. eapply wp_ensure_init; [done|done|]. apply wp_bind, wp_gets. cbn [s1 esc_ctx put_esc_ctx state set_state].
  unfold term_handle_escape. apply wp_bind, wp_gets. cbn [s1 esc_ctx put_esc_ctx state set_state]. simpl. apply wp_modify, wp_ret. set (s2 := put_esc_ctx _ s1).
  assert (escaped s1 s2) as He2.
  { eexists. split; [done|]. destruct (ti_esc _ _ _ Hi1) as (_ & _ & ? & ?). split_and!; simpl; try done; lia. }
  apply HQ; [by eapply escaped_ready|exact (escaped_trans _ _ _ He He2)|by split_and!].
Qed.

(** The sequence ESC [ row ; column H, whose numbers are written in decimal and
    count from one, puts the cursor at that place, or at the edge of the screen
    when the place is beyond it, and the text on the screen stays as it is. *)
Theorem kterm_cursor_position s rs cs :
  ready s → state (esc_ctx s) = TERM_ESC_NONE → is_digits rs → is_digits cs → 1 ≤ dec_from 0 rs < 2 ^ 31 → 1 ≤ dec_from 0 cs < 2 ^ 31 →
  wp (kterm_puts kfb ([27; 91] ++ digits rs ++ [59] ++ digits cs ++ [72])) (λ _ s',
    char_cursor_x s' = Z.min (dec_from 0 cs - 1) (cols s - 1) ∧ char_cursor_y s' = Z.min (dec_from 0 rs - 1) (rows s - 1) ∧
    state (esc_ctx s') = TERM_ESC_NONE ∧ screen_buffer s' = screen_buffer s ∧ scroll_base s' = scroll_base s) s.
Proof.
  intros Hs Hst Hrs Hcs Hr Hc. unfold kterm_puts. apply wp_bind. pose proof Hs as [Hi Hin]. eapply wp_ensure_init; [done|done|].
  apply wp_for_app. apply wp_csi_start; [done|done|]. intros s1 Hs1 He1 H1. apply wp_for_app.
  eapply (wp_number s1 no_params 0 rs); [done|done|lia|done|lia|]. intros s2 Hs2 He2 H2. apply wp_for_app. cbn [for_each]. apply wp_bind.
  eapply wp_semicolon; [done|done|]. intros s3 Hs3 He3 H3. apply wp_ret. apply wp_for_app.
  eapply (wp_number s3 _ 1 cs); [done|done|lia|done|lia|]. intros s4 Hs4 He4 (Hst4 & Hl4 & Hn4 & _). cbn [for_each]. apply wp_bind.
  assert (escaped s s4) as (e & Heq & He) by (exact (escaped_trans _ _ _ (escaped_trans _ _ _ (escaped_trans _ _ _ He1 He2) He3) He4)).
  unfold kterm_putc. apply wp_bind. pose proof Hs4 as [Hi4 Hin4]. eapply wp_ensure_init; [done|done|].
  apply wp_bind, wp_gets. rewrite Hst4. unfold term_handle_escape. apply wp_bind, wp_gets. rewrite Hst4. simpl (72 =? 63).
  apply wp_bind, wp_gets, wp_bind, wp_gets. simpl. apply wp_bind.
  assert (wp (term_execute_csi kfb 72) (λ _ s', redrawn f p (at_ (clamp (dec_from 0 cs - 1) (cols s)) (clamp (dec_from 0 rs - 1) (rows s)) s4) s') s4) as Hcsi.
  { unfold term_execute_csi. apply wp_bind, wp_gets. rewrite Hn4. simpl. apply wp_bind, wp_param; [done|lia|]. rewrite Hl4. intros p0 Hp0.
    apply wp_bind, wp_param; [done|lia|]. rewrite Hl4. intros p1 Hp1. rewrite list_lookup_insert_ne, list_lookup_insert_eq in Hp0 by (simpl; lia).
    rewrite list_lookup_insert_eq in Hp1 by (simpl; lia). injection Hp0 as <-. injection Hp1 as <-.
    apply wp_bind, wp_gets, wp_bind, wp_gets. rewrite !Z.gtb_ltb.
    rewrite (proj2 (Z.ltb_lt 0 (dec_from 0 rs))), (proj2 (Z.ltb_lt 0 (dec_from 0 cs))) by lia.
    apply wp_move_cursor; [done|lia|lia|]. intros s' Hd _. by rewrite Heq in Hd |- *. }
  eapply wp_mono; [exact Hcsi|]. intros [] s5 (px & ox & oy & -> & _). apply wp_modify, wp_ret. simpl.
  assert (∀ v n, 0 < n → clamp v n = Z.min v (n - 1)) as Hclamp.
  { intros v n Hn. unfold clamp. rewrite Z.geb_leb. destruct (Z.leb_spec n v); [rewrite (proj2 (Z.eqb_neq _ _)) by lia|]; lia. }
  pose proof Hok as []. rewrite !Hclamp by (rewrite ?(ti_cols _ _ _ Hi), ?(ti_rows _ _ _ Hi); lia). rewrite Heq. done.
Qed.
End terminal.

(** * The colour of the cursor *)

(** The cursor is drawn in the colour each pixel has already: with the usual
    layout of a pixel nothing of it is seen. *)
Theorem cursor_color_same f c :
  red_mask_shift f = 16 → green_mask_shift f = 8 → blue_mask_shift f = 0 → 0 ≤ c < 2 ^ 24 → compose f (components f c) = c.
Proof.
  intros Hr Hg Hb Hc. unfold compose, components. rewrite Hr, Hg, Hb. change 0xff with (Z.ones 8). rewrite !Z.land_ones by lia.
  rewrite !Z.shiftr_div_pow2, !Z.shiftl_mul_pow2 by lia. pose proof (λ a, Z.mod_pos_bound a (2 ^ 8) ltac:(lia)) as Hm.
  rewrite !u32_id by (split; [pose proof (Hm (c / 2 ^ 16)); pose proof (Hm (c / 2 ^ 8)); pose proof (Hm (c / 2 ^ 0)); lia|];
    pose proof (Hm (c / 2 ^ 16)); pose proof (Hm (c / 2 ^ 8)); pose proof (Hm (c / 2 ^ 0)); lia).
  rewrite <-!Z.shiftl_mul_pow2, <-!Z.shiftr_div_pow2, <-!Z.land_ones by lia. apply Z.bits_inj'. intros n Hn.
  rewrite !Z.lor_spec, !Z.shiftl_spec, !Z.land_spec by done.
  destruct (Z.le_gt_cases 24 n) as [Hbig|Hsmall].
  { rewrite (Z.bits_above_log2 c n), !(Z.testbit_ones_nonneg 8) by first [lia|destruct (Z.eq_dec c 0) as [->|]; [simpl; lia|]; assert (Z.log2 c < 24) by (apply Z.log2_lt_pow2; lia); lia].
    rewrite !(proj2 (Z.ltb_ge _ _)) by lia. by rewrite !andb_false_r. }
  assert (∀ k, 0 ≤ k ≤ n → Z.testbit (Z.shiftr c k) (n - k) = Z.testbit c n) as Hs.
  { intros k Hk. rewrite Z.shiftr_spec by lia. f_equal. lia. }
  destruct (Z.le_gt_cases 16 n); [|destruct (Z.le_gt_cases 8 n)]; rewrite ?(Z.testbit_neg_r _ (n - 16)), ?(Z.testbit_neg_r _ (n - 8)) by lia;
    rewrite ?Hs by lia; rewrite ?Z.testbit_ones_nonneg by lia.
  - rewrite (proj2 (Z.ltb_lt (n - 16) 8)), (proj2 (Z.ltb_ge (n - 8) 8)), (proj2 (Z.ltb_ge (n - 0) 8)) by lia. by rewrite !andb_false_r, andb_true_r, !orb_false_r.
  - rewrite (proj2 (Z.ltb_lt (n - 8) 8)), (proj2 (Z.ltb_ge (n - 0) 8)) by lia. by rewrite !andb_false_r, andb_true_r, orb_false_r.
  - rewrite (proj2 (Z.ltb_lt (n - 0) 8)) by lia. by rewrite andb_true_r.
Qed.

(** * Concrete screens *)

Module TermDemo.
(** Three columns and two lines in the kernel's font. *)
Definition small_fb : limine_framebuffer := mkFb true 24 32 96 16 8 0.
Definition blank_pixels : gmap Z Z := gset_to_gmap 0 (list_to_set (seqZ 0 768)).
Definition esc0 : term_escape_ctx_t := mkEsc TERM_ESC_NONE no_params 0 false false false true 0 0.
Definition at_boot : term_state :=
  mkTerm 0 0 0 0 0 0 None false (0, 0, 0) (255, 255, 255) ∅ 0 esc0 (Some default_font) blank_pixels.
(** The last cell of the screen. *)
Definition at_end : term_state :=
  mkTerm 2 1 2 1 2 3 (Some small_fb) true (0, 0, 0) (170, 170, 170) ∅ 0 esc0 (Some default_font) blank_pixels.
Lemma small_ok : screen_ok small_fb default_font.
Proof. apply default_screen_ok; done. Qed.
Lemma blank_covered : covered small_fb blank_pixels.
Proof.
  intros i Hi. exists 0. unfold blank_pixels. rewrite lookup_gset_to_gmap_Some. split; [|done]. apply elem_of_list_to_set, elem_of_seqZ. exact Hi.
Qed.
Lemma esc0_ok : params_ok esc0.
Proof. split_and!; simpl; try done; lia. Qed.
Lemma boot_ok : boot small_fb default_font at_boot.
Proof. split_and!; try done. apply blank_covered. Qed.
Lemma end_ready : ready small_fb default_font at_end.
Proof. split; [|done]. constructor; try done. apply blank_covered. Qed.
End TermDemo.

Lemma kterm_puts_safe_witness :
  wp (kterm_puts (Some TermDemo.small_fb) [27; 91; 51; 59; 109; 72; 105; 10; 200; 27])
    (λ _ s', ready TermDemo.small_fb default_font s') TermDemo.at_boot.
Proof. apply (kterm_puts_safe _ _ TermDemo.small_ok); [left; apply TermDemo.boot_ok|repeat constructor; lia]. Defined.

Lemma kterm_putc_printable_witness :
  wp (kterm_putc (Some TermDemo.small_fb) 65) (λ _ s', char_cursor_x s' = 0 ∧ char_cursor_y s' = 1 ∧ vis s' 0 2 = mkCell 65 0xAAAAAA 0) TermDemo.at_end.
Proof.
  eapply wp_mono; [apply (kterm_putc_printable _ _ TermDemo.small_ok TermDemo.at_end 65); [apply TermDemo.end_ready|done|lia|done|done]|].
  intros [] s' H. simpl in H. destruct H as (-> & -> & H). split_and!; [done|done|]. rewrite H; [reflexivity|]. split; vm_compute; split; congruence.
Defined.

Lemma kterm_cursor_position_witness :
  wp (kterm_puts (Some TermDemo.small_fb) [27; 91; 48; 50; 59; 57; 57; 72]) (λ _ s', char_cursor_x s' = 2 ∧ char_cursor_y s' = 1) TermDemo.at_end.
Proof.
  eapply wp_mono; [apply (kterm_cursor_position _ _ TermDemo.small_ok TermDemo.at_end [0; 2] [9; 9]);
    [apply TermDemo.end_ready|done|split; [done|repeat constructor; lia]..|done|done]|].
  intros [] s' (-> & -> & _). done.
Defined.

(** The number of columns is that of the frame buffer, whatever the size of the
    array of cells: in the column after the 256th, which a frame buffer of 2056
    pixels a line has, a character is written outside of the array. *)
Theorem wide_screen_faults f s c :
  framebuffer s = Some f → char_cursor_x s = MAX_COLS → is_control c = false → put_char (Some f) c s = Fault.
Proof.
  intros Hf Hx Hc. unfold is_control in Hc. apply orb_false_iff in Hc as [Hc _]. apply orb_false_iff in Hc as [Hc H8].
  apply orb_false_iff in Hc as [H10 H13]. unfold put_char, real_row, cell_fg_rgb, cell_bg_rgb, fb. unfold mbind, M_bind, gets.
  rewrite H10, H13, H8, Hx. unfold mret, M_ret. unfold cell_store. rewrite andb_false_r. cbn. rewrite Hf. cbn. rewrite Hf. reflexivity.
Qed.
