(* ===== verification/FdTable.v ===== *)
(** File descriptors: [src/kernel/src/sched/fd.c].

    Entries and tables are objects named by their address; freeing one takes it
    out of memory, so that a use after it faults. The array of a table is the
    list [entries]; its address plays no role. The kernel heap answers each
    allocation from the list [allocs]: an address the model has no object at,
    or 0 when it fails. The calls to the file system are recorded in [events];
    what the file system answers is the class [FileSystem]. *)
From S2P Require Import Prelude Errno Sync.

Definition FD_TABLE_INITIAL : Z := 16.
Definition FD_TABLE_MAX : Z := 4096.
Definition O_DIRECTORY : Z := 65536.

(** [fd_type_t] *)
Inductive fd_type_t := FD_NONE | FD_FILE | FD_DIR.
#[global] Instance fd_type_eq_dec : EqDecision fd_type_t.
Proof. solve_decision. Defined.

(** [fd_entry_t]; [dir_off], which nothing reads, is left out. *)
Record fd_entry_t := mkFd {
  type : fd_type_t;
  file : Z;
  dir_vnode : Z;
  dir_buf : Z;
  dir_count : Z;
  dir_index : Z;
  fd_flags : Z;
  refcount : Z;
  fd_lock : spinlock_t;
}.

(** [fd_table_t] *)
Record fd_table_t := mkTable {
  lock : spinlock_t;
  entries : list Z;
  capacity : Z;
  t_refcount : Z;
}.

Inductive event := ev_kclose (f : Z) | ev_vnode_unref (v : Z) | ev_kfree (p : Z).

Record fd_state := mkFs {
  ents : gmap Z fd_entry_t;
  tabs : gmap Z fd_table_t;
  allocs : list Z;
  events : list event;
}.

(** * Memory *)

Definition ent_load (e : Z) : M fd_state fd_entry_t := λ s,
  match ents s !! e with Some x => Done (x, s) | None => Fault end.
Definition ent_store (e : Z) (f : fd_entry_t → fd_entry_t) : M fd_state unit := λ s,
  match ents s !! e with
  | Some x => Done (tt, mkFs (<[e := f x]> (ents s)) (tabs s) (allocs s) (events s))
  | None => Fault
  end.
Definition tab_load (t : Z) : M fd_state fd_table_t := λ s,
  match tabs s !! t with Some x => Done (x, s) | None => Fault end.
Definition tab_store (t : Z) (f : fd_table_t → fd_table_t) : M fd_state unit := λ s,
  match tabs s !! t with
  | Some x => Done (tt, mkFs (ents s) (<[t := f x]> (tabs s)) (allocs s) (events s))
  | None => Fault
  end.

(** [table->entries[i]], which faults out of the array. *)
Definition slot_read (t i : Z) : M fd_state Z :=
  tb ← tab_load t;
  match entries tb !! Z.to_nat i with Some e => mret e | None => fault end.
Definition slot_write (t i v : Z) : M fd_state unit :=
  tb ← tab_load t;
  if bool_decide (is_Some (entries tb !! Z.to_nat i))
  then tab_store t (λ tb, mkTable (lock tb) (<[Z.to_nat i := v]> (entries tb)) (capacity tb) (t_refcount tb))
  else fault.

(** The next answer of the allocator. *)
Definition kalloc : M fd_state Z := λ s,
  match allocs s with
  | [] => Done (0, s)
  | a :: rest => Done (a, mkFs (ents s) (tabs s) rest (events s))
  end.
Definition emit (e : event) : M fd_state unit :=
  modify (λ s, mkFs (ents s) (tabs s) (allocs s) (events s ++ [e])).

Definition zero_entry : fd_entry_t := mkFd FD_NONE 0 0 0 0 0 0 0 (mkLock 0 0 0 0).
Definition zero_table : fd_table_t := mkTable (mkLock 0 0 0 0) [] 0 0.

(** [kzalloc] of an entry and of a table, [kfree] of them. *)
Definition new_entry : M fd_state Z :=
  a ← kalloc;
  if a =? 0 then mret 0
  else modify (λ s, mkFs (<[a := zero_entry]> (ents s)) (tabs s) (allocs s) (events s)) ;; mret a.
Definition new_table : M fd_state Z :=
  a ← kalloc;
  if a =? 0 then mret 0
  else modify (λ s, mkFs (ents s) (<[a := zero_table]> (tabs s)) (allocs s) (events s)) ;; mret a.
Definition free_entry (e : Z) : M fd_state unit :=
  ent_load e ;; modify (λ s, mkFs (delete e (ents s)) (tabs s) (allocs s) (events s)).
Definition free_table (t : Z) : M fd_state unit :=
  tab_load t ;; modify (λ s, mkFs (ents s) (delete t (tabs s)) (allocs s) (events s)).

Definition set_refcount (f : Z → Z) (x : fd_entry_t) : fd_entry_t :=
  mkFd (type x) (file x) (dir_vnode x) (dir_buf x) (dir_count x) (dir_index x) (fd_flags x)
    (f (refcount x)) (fd_lock x).
Definition set_fd_lock (l : spinlock_t) (x : fd_entry_t) : fd_entry_t :=
  mkFd (type x) (file x) (dir_vnode x) (dir_buf x) (dir_count x) (dir_index x) (fd_flags x)
    (refcount x) l.
Definition set_lock (l : spinlock_t) (t : fd_table_t) : fd_table_t :=
  mkTable l (entries t) (capacity t) (t_refcount t).
Definition set_t_refcount (f : Z → Z) (t : fd_table_t) : fd_table_t :=
  mkTable (lock t) (entries t) (capacity t) (f (t_refcount t)).
Definition set_entries (l : list Z) (c : Z) (t : fd_table_t) : fd_table_t :=
  mkTable (lock t) l c (t_refcount t).

Section fd.
Context (me : Z).

(** [spinlock_acquire(&entry->lock)] and the like. *)
Definition with_lock_of {A} (get : M fd_state spinlock_t) (put : spinlock_t → M fd_state A)
    (op : M spinlock_t unit) : M fd_state A :=
  l ← get;
  match op l with
  | Done (_, l') => put l'
  | Fault => fault
  | Hang => hang
  end.
Definition ent_lock (e : Z) (op : M spinlock_t unit) : M fd_state unit :=
  with_lock_of (x ← ent_load e; mret (fd_lock x)) (λ l, ent_store e (set_fd_lock l)) op.
Definition tab_lock (t : Z) (op : M spinlock_t unit) : M fd_state unit :=
  with_lock_of (x ← tab_load t; mret (lock x)) (λ l, tab_store t (set_lock l)) op.

(** * The code *)

Definition fdtable_create : M fd_state Z :=
  table ← new_table;
  if table =? 0 then mret 0 else
  arr ← kalloc;
  if arr =? 0 then free_table table ;; mret 0 else
  tab_store table (set_entries (replicate (Z.to_nat FD_TABLE_INITIAL) 0) FD_TABLE_INITIAL) ;;
  tab_store table (set_t_refcount (λ _, 1)) ;;
  tab_store table (set_lock SPINLOCK_INIT) ;;
  mret table.

Definition fdtable_ref (table : Z) : M fd_state unit :=
  if table =? 0 then mret tt else
  tab_lock table (lock_acquire me) ;;
  tab_store table (set_t_refcount (λ n, u32 (n + 1))) ;;
  tab_lock table (lock_release me).

Definition fd_entry_ref (entry : Z) : M fd_state unit :=
  if entry =? 0 then mret tt else
  ent_lock entry (lock_acquire me) ;;
  ent_store entry (set_refcount (λ n, u32 (n + 1))) ;;
  ent_lock entry (lock_release me).

(** What is let go when the last reference is dropped. *)
Definition entry_teardown (entry : Z) : M fd_state unit :=
  x ← ent_load entry;
  (if bool_decide (type x = FD_FILE) && negb (file x =? 0) then emit (ev_kclose (file x))
   else if bool_decide (type x = FD_DIR) then
     when (negb (dir_vnode x =? 0)) (emit (ev_vnode_unref (dir_vnode x))) ;;
     when (negb (dir_buf x =? 0)) (emit (ev_kfree (dir_buf x)))
   else mret tt) ;;
  free_entry entry.

Definition fd_entry_unref (entry : Z) : M fd_state unit :=
  if entry =? 0 then mret tt else
  ent_lock entry (lock_acquire me) ;;
  ent_store entry (set_refcount (λ n, u32 (n - 1))) ;;
  x ← ent_load entry;
  let remaining := refcount x in
  ent_lock entry (lock_release me) ;;
  if remaining >? 0 then mret tt else entry_teardown entry.

Definition fdtable_unref (table : Z) : M fd_state unit :=
  if table =? 0 then mret tt else
  tab_lock table (lock_acquire me) ;;
  tab_store table (set_t_refcount (λ n, u32 (n - 1))) ;;
  tb ← tab_load table;
  let remaining := t_refcount tb in
  tab_lock table (lock_release me) ;;
  if remaining >? 0 then mret tt else
  tb ← tab_load table;
  for_n 0 (Z.to_nat (capacity tb)) (λ i,
    e ← slot_read table i;
    when (negb (e =? 0)) (fd_entry_unref e)) ;;
  free_table table.

Definition fdtable_grow (table min_capacity : Z) : M fd_state Z :=
  if min_capacity >? FD_TABLE_MAX then mret (- EMFILE) else
  tb ← tab_load table;
  let new_capacity := u64 (capacity tb * 2) in
  let new_capacity := if new_capacity <? min_capacity then min_capacity else new_capacity in
  let new_capacity := if new_capacity >? FD_TABLE_MAX then FD_TABLE_MAX else new_capacity in
  arr ← kalloc;
  if arr =? 0 then mret (- ENOMEM) else
  tab_store table (set_entries
    (take (Z.to_nat (capacity tb)) (entries tb) ++ replicate (Z.to_nat (new_capacity - capacity tb)) 0)
    new_capacity) ;;
  mret EOK.

Definition fdtable_install_at (table fd entry : Z) : M fd_state Z :=
  if (table =? 0) || (fd <? 0) || (entry =? 0) then mret (- EINVAL) else
  tab_lock table (lock_acquire me) ;;
  tb ← tab_load table;
  ret ← (if fd >=? capacity tb then fdtable_grow table (fd + 1) else mret EOK);
  if negb (ret =? EOK) then tab_lock table (lock_release me) ;; mret ret else
  e ← slot_read table fd;
  if negb (e =? 0) then tab_lock table (lock_release me) ;; mret (- EBUSY) else
  slot_write table fd entry ;;
  fd_entry_ref entry ;;
  tab_lock table (lock_release me) ;;
  mret fd.

(** The search for a free slot: the index it stops at. *)
Definition free_slot_round (table i : Z) : M fd_state (Z + option Z) :=
  tb ← tab_load table;
  if i <? capacity tb then
    e ← slot_read table i;
    if e =? 0 then mret (inr (Some i)) else mret (inl (i + 1))
  else mret (inr None).

Definition fdtable_install (table entry : Z) : M fd_state Z :=
  if (table =? 0) || (entry =? 0) then mret (- EINVAL) else
  tab_lock table (lock_acquire me) ;;
  tb ← tab_load table;
  slot ← loop (S (Z.to_nat (capacity tb))) (free_slot_round table) 0;
  match slot with
  | Some i =>
      slot_write table i entry ;;
      fd_entry_ref entry ;;
      tab_lock table (lock_release me) ;;
      mret i
  | None =>
      let fd := capacity tb in
      ret ← fdtable_grow table (capacity tb + 1);
      if negb (ret =? EOK) then tab_lock table (lock_release me) ;; mret ret else
      slot_write table fd entry ;;
      fd_entry_ref entry ;;
      tab_lock table (lock_release me) ;;
      mret fd
  end.

Definition fdtable_get (table fd : Z) : M fd_state Z :=
  if (table =? 0) || (fd <? 0) then mret 0 else
  tab_lock table (lock_acquire me) ;;
  tb ← tab_load table;
  entry ← (if fd <? capacity tb then
             e ← slot_read table fd;
             when (negb (e =? 0)) (fd_entry_ref e) ;;
             mret e
           else mret 0);
  tab_lock table (lock_release me) ;;
  mret entry.

Definition fdtable_close (table fd : Z) : M fd_state Z :=
  if (table =? 0) || (fd <? 0) then mret (- EINVAL) else
  tab_lock table (lock_acquire me) ;;
  tb ← tab_load table;
  entry ← (if fd >=? capacity tb then mret 0 else slot_read table fd);
  if entry =? 0 then tab_lock table (lock_release me) ;; mret (- EBADF) else
  slot_write table fd 0 ;;
  tab_lock table (lock_release me) ;;
  fd_entry_unref entry ;;
  mret EOK.

Definition fdtable_dup (table oldfd : Z) : M fd_state Z :=
  entry ← fdtable_get table oldfd;
  if entry =? 0 then mret (- EBADF) else
  newfd ← fdtable_install table entry;
  fd_entry_unref entry ;;
  mret newfd.

Definition fdtable_dup2 (table oldfd newfd : Z) : M fd_state Z :=
  if newfd <? 0 then mret (- EINVAL) else
  entry ← fdtable_get table oldfd;
  if entry =? 0 then mret (- EBADF) else
  if oldfd =? newfd then fd_entry_unref entry ;; mret newfd else
  fdtable_close table newfd ;;
  ret ← fdtable_install_at table newfd entry;
  fd_entry_unref entry ;;
  if ret <? 0 then mret ret else mret newfd.

Definition fdtable_clone (src : Z) : M fd_state Z :=
  if src =? 0 then fdtable_create else
  dst ← new_table;
  if dst =? 0 then mret 0 else
  tab_lock src (lock_acquire me) ;;
  arr ← kalloc;
  if arr =? 0 then tab_lock src (lock_release me) ;; free_table dst ;; mret 0 else
  tb ← tab_load src;
  tab_store dst (set_entries (replicate (Z.to_nat (capacity tb)) 0) (capacity tb)) ;;
  tab_store dst (set_t_refcount (λ _, 1)) ;;
  tab_store dst (set_lock SPINLOCK_INIT) ;;
  for_n 0 (Z.to_nat (capacity tb)) (λ i,
    e ← slot_read src i;
    when (negb (e =? 0)) (slot_write dst i e ;; fd_entry_ref e)) ;;
  tab_lock src (lock_release me) ;;
  mret dst.

(** What the file system answers: [vfs_lookup] (its code and the node),
    whether a node is a directory, [kopen] (its code and the file) and
    [vfs_readdir] (its code and the number of entries read). *)
Class FileSystem := {
  vfs_lookup : Z → Z * Z;
  is_dir : Z → bool;
  kopen : Z → Z → Z → Z * Z;
  vfs_readdir : Z → Z * Z;
}.

Definition fd_open `{FileSystem} (path flags mode : Z) : M fd_state Z :=
  if path =? 0 then mret 0 else
  entry ← new_entry;
  if entry =? 0 then mret 0 else
  ent_store entry (set_fd_lock SPINLOCK_INIT) ;;
  ent_store entry (set_refcount (λ _, 1)) ;;
  ent_store entry (λ x, mkFd (type x) (file x) (dir_vnode x) (dir_buf x) (dir_count x)
    (dir_index x) flags (refcount x) (fd_lock x)) ;;
  if flag flags O_DIRECTORY then
    let '(ret, vnode) := vfs_lookup path in
    if negb (ret =? EOK) then free_entry entry ;; mret 0 else
    if negb (is_dir vnode) then emit (ev_vnode_unref vnode) ;; free_entry entry ;; mret 0 else
    ent_store entry (λ x, mkFd FD_DIR (file x) vnode 0 0 0 (fd_flags x) (refcount x) (fd_lock x)) ;;
    mret entry
  else
    let '(ret, probe) := vfs_lookup path in
    if (ret =? EOK) && is_dir probe then emit (ev_vnode_unref probe) ;; free_entry entry ;; mret 0 else
    when (ret =? EOK) (emit (ev_vnode_unref probe)) ;;
    let '(ret, f) := kopen path flags mode in
    if negb (ret =? EOK) then free_entry entry ;; mret 0 else
    ent_store entry (λ x, mkFd FD_FILE f (dir_vnode x) (dir_buf x) (dir_count x) (dir_index x)
      (fd_flags x) (refcount x) (fd_lock x)) ;;
    mret entry.

(** [fd_readdir]: the index of the entry copied out is the second component. *)
Definition fd_readdir `{FileSystem} (entry out max : Z) : M fd_state (Z * option Z) :=
  if entry =? 0 then mret (- EINVAL, None) else
  x ← ent_load entry;
  if negb (bool_decide (type x = FD_DIR)) || (out =? 0) || (max =? 0) then mret (- EINVAL, None) else
  ent_lock entry (lock_acquire me) ;;
  ok ← (if dir_buf x =? 0 then
          buf ← kalloc;
          if buf =? 0 then mret (- ENOMEM) else
          let '(ret, count) := vfs_readdir (dir_vnode x) in
          if negb (ret =? EOK) then emit (ev_kfree buf) ;; mret ret else
          ent_store entry (λ x, mkFd (type x) (file x) (dir_vnode x) buf count 0 (fd_flags x)
            (refcount x) (fd_lock x)) ;;
          mret EOK
        else mret EOK);
  if negb (ok =? EOK) then ent_lock entry (lock_release me) ;; mret (ok, None) else
  x ← ent_load entry;
  if dir_index x >=? dir_count x then ent_lock entry (lock_release me) ;; mret (0, None) else
  ent_store entry (λ x, mkFd (type x) (file x) (dir_vnode x) (dir_buf x) (dir_count x)
    (u64 (dir_index x + 1)) (fd_flags x) (refcount x) (fd_lock x)) ;;
  ent_lock entry (lock_release me) ;;
  mret (1, Some (dir_index x)).
End fd.
