(* ===== verification/FdTheorems.v ===== *)
(** What the file descriptor tables promise: the properties of
    [sched/fd.c], for every table in a consistent state. *)
From S2P Require Import Prelude Errno Sync FdTable.

(** Reference counting of file descriptors: what each operation on a table does
    to its slots and to the references of the entries. *)
(** * Primitive steps *)

Section steps.
Context (me : Z).
Implicit Types (s : fd_state).

Definition put_ents (es : gmap Z fd_entry_t) s : fd_state := mkFs es (tabs s) (allocs s) (events s).
Definition put_tabs (ts : gmap Z fd_table_t) s : fd_state := mkFs (ents s) ts (allocs s) (events s).

Lemma wp_ent_load Q s e x : ents s !! e = Some x → Q x s → wp (ent_load e) Q s.
Proof. unfold wp, ent_load. by intros ->. Qed.
Lemma wp_ent_store (Q : unit → fd_state → Prop) s e x f :
  ents s !! e = Some x → Q tt (put_ents (<[e := f x]> (ents s)) s) → wp (ent_store e f) Q s.
Proof. unfold wp, ent_store. by intros ->. Qed.
Lemma wp_tab_load Q s t x : tabs s !! t = Some x → Q x s → wp (tab_load t) Q s.
Proof. unfold wp, tab_load. by intros ->. Qed.
Lemma wp_tab_store (Q : unit → fd_state → Prop) s t x f :
  tabs s !! t = Some x → Q tt (put_tabs (<[t := f x]> (tabs s)) s) → wp (tab_store t f) Q s.
Proof. unfold wp, tab_store. by intros ->. Qed.

Lemma wp_slot_read Q s t tb i e :
  tabs s !! t = Some tb → entries tb !! Z.to_nat i = Some e → Q e s → wp (slot_read t i) Q s.
Proof. intros Ht He HQ. unfold slot_read. wp_pures. eapply wp_tab_load; [exact Ht|]. by rewrite He. Qed.
Lemma wp_slot_write (Q : unit → fd_state → Prop) s t tb i v :
  tabs s !! t = Some tb → is_Some (entries tb !! Z.to_nat i) →
  Q tt (put_tabs (<[t := mkTable (lock tb) (<[Z.to_nat i := v]> (entries tb)) (capacity tb) (t_refcount tb)]> (tabs s)) s) →
  wp (slot_write t i v) Q s.
Proof.
  intros Ht He HQ. unfold slot_write. wp_pures. eapply wp_tab_load; [exact Ht|].
  rewrite bool_decide_eq_true_2 by done. by eapply wp_tab_store.
Qed.

Lemma wp_tab_acquire s t tb (Q : unit → fd_state → Prop) :
  tabs s !! t = Some tb → lock tb = unlocked →
  Q tt (put_tabs (<[t := set_lock (held me) tb]> (tabs s)) s) →
  wp (tab_lock t (lock_acquire me)) Q s.
Proof.
  intros Ht Hl HQ. unfold tab_lock, with_lock_of. wp_pures. eapply wp_tab_load; [exact Ht|]. wp_pures.
  rewrite Hl. by eapply wp_tab_store.
Qed.
Lemma wp_tab_release s t tb (Q : unit → fd_state → Prop) :
  tabs s !! t = Some tb → lock tb = held me →
  Q tt (put_tabs (<[t := set_lock unlocked tb]> (tabs s)) s) →
  wp (tab_lock t (lock_release me)) Q s.
Proof.
  intros Ht Hl HQ. unfold tab_lock, with_lock_of. wp_pures. eapply wp_tab_load; [exact Ht|]. wp_pures.
  rewrite Hl. by eapply wp_tab_store.
Qed.

(** ** Entries *)

Lemma wp_fd_entry_ref s e x (Q : unit → fd_state → Prop) :
  ents s !! e = Some x → e ≠ 0 → fd_lock x = unlocked →
  Q tt (put_ents (<[e := set_refcount (λ n, u32 (n + 1)) x]> (ents s)) s) →
  wp (fd_entry_ref me e) Q s.
Proof.
  intros He He0 Hl HQ. unfold fd_entry_ref, ent_lock, with_lock_of. apply Z.eqb_neq in He0 as ->. wp_pures.
  eapply wp_ent_load; [exact He|]. wp_pures. rewrite Hl. simpl.
  eapply wp_ent_store; [exact He|]. wp_pures.
  eapply wp_ent_store; [simpl; by rewrite lookup_insert_eq|]. wp_pures.
  eapply wp_ent_load; [simpl; by rewrite !lookup_insert_eq|]. wp_pures. simpl.
  eapply wp_ent_store; [simpl; by rewrite lookup_insert_eq|]. simpl. rewrite !insert_insert_eq.
  destruct x; simpl in *; subst. exact HQ.
Qed.

(** What dropping the last reference to [x] lets go of. *)
Definition teardown_events (x : fd_entry_t) : list event :=
  if bool_decide (type x = FD_FILE) && negb (file x =? 0) then [ev_kclose (file x)]
  else if bool_decide (type x = FD_DIR) then
    (if dir_vnode x =? 0 then [] else [ev_vnode_unref (dir_vnode x)]) ++
    (if dir_buf x =? 0 then [] else [ev_kfree (dir_buf x)])
  else [].

Lemma wp_entry_teardown s e x (Q : unit → fd_state → Prop) :
  ents s !! e = Some x →
  Q tt (mkFs (delete e (ents s)) (tabs s) (allocs s) (events s ++ teardown_events x)) →
  wp (entry_teardown e) Q s.
Proof.
  intros He HQ. unfold entry_teardown, free_entry, emit, when. wp_pures.
  eapply wp_ent_load; [exact He|]. unfold teardown_events in HQ.
  destruct (bool_decide (type x = FD_FILE) && negb (file x =? 0)); wp_pures.
  { eapply wp_ent_load; [exact He|]. by wp_pures. }
  destruct (bool_decide (type x = FD_DIR)); wp_pures.
  - destruct (dir_vnode x =? 0), (dir_buf x =? 0); simpl negb; wp_pures;
      (eapply wp_ent_load; [exact He|]); wp_pures; simpl; rewrite <-?app_assoc; simpl; rewrite ?app_nil_r in HQ; done.
  - eapply wp_ent_load; [exact He|]. wp_pures. by rewrite app_nil_r in HQ.
Qed.

Lemma wp_fd_entry_unref s e x (Q : unit → fd_state → Prop) :
  ents s !! e = Some x → e ≠ 0 → fd_lock x = unlocked → 0 < refcount x < 2 ^ 32 →
  (1 < refcount x → Q tt (put_ents (<[e := set_refcount (λ n, n - 1) x]> (ents s)) s)) →
  (refcount x = 1 → Q tt (mkFs (delete e (ents s)) (tabs s) (allocs s) (events s ++ teardown_events x))) →
  wp (fd_entry_unref me e) Q s.
Proof.
  intros He He0 Hl Hr HQ1 HQ2. unfold fd_entry_unref, ent_lock, with_lock_of.
  apply Z.eqb_neq in He0 as ->. wp_pures.
  eapply wp_ent_load; [exact He|]. wp_pures. rewrite Hl. simpl.
  eapply wp_ent_store; [exact He|]. wp_pures.
  eapply wp_ent_store; [simpl; by rewrite lookup_insert_eq|]. wp_pures.
  eapply wp_ent_load; [simpl; by rewrite !lookup_insert_eq|]. wp_pures.
  eapply wp_ent_load; [simpl; by rewrite !lookup_insert_eq|]. wp_pures. simpl.
  eapply wp_ent_store; [simpl; by rewrite lookup_insert_eq|]. simpl. rewrite !insert_insert_eq.
  rewrite u32_id by lia. destruct (refcount x - 1 >? 0) eqn:Hgt; wp_pures.
  - replace (set_fd_lock _ _) with (set_refcount (λ n, n - 1) x); [apply HQ1; lia|].
    destruct x; unfold set_refcount, set_fd_lock in *; simpl in *; subst. f_equal. rewrite u32_id by lia. done.
  - eapply wp_entry_teardown; [simpl; by rewrite lookup_insert_eq|]. simpl. rewrite delete_insert_eq.
    apply HQ2. lia.
Qed.
End steps.

(** * The abstract table *)

(** What a table promises: a row of slots [l], a slot being 0 or the entry it
    refers to. *)

Definition cnt (e : Z) (l : list Z) : Z := Z.of_nat (length (filter (λ x, x = e) l)).

(** The capacity [fdtable_grow] picks, and the row it leaves. *)
Definition grow_to (cap min : Z) : Z := Z.min FD_TABLE_MAX (Z.max (cap * 2) min).
Definition widen (l : list Z) (min : Z) : list Z :=
  l ++ replicate (Z.to_nat (grow_to (Z.of_nat (length l)) min) - length l) 0.

(** Growing to hold [min] slots; [ok]: the heap has memory. *)
Definition abs_grow (ok : bool) (l : list Z) (min : Z) : Z * list Z :=
  if FD_TABLE_MAX <? min then (- EMFILE, l)
  else if ok then (EOK, widen l min) else (- ENOMEM, l).

(** Installing [e] takes the lowest free slot. *)
Definition abs_install (ok : bool) (l : list Z) (e : Z) : Z * list Z :=
  match list_find (λ x, x = 0) l with
  | Some (i, _) => (Z.of_nat i, <[i := e]> l)
  | None =>
      let '(ret, l') := abs_grow ok l (Z.of_nat (length l) + 1) in
      if ret =? EOK then (Z.of_nat (length l), <[length l := e]> l') else (ret, l)
  end.

(** Installing [e] at [fd]. *)
Definition abs_install_at (ok : bool) (l : list Z) (fd e : Z) : Z * list Z :=
  let '(ret, l') := if fd <? Z.of_nat (length l) then (EOK, l) else abs_grow ok l (fd + 1) in
  if negb (ret =? EOK) then (ret, l)
  else match l' !! Z.to_nat fd with
       | Some 0 => (fd, <[Z.to_nat fd := e]> l')
       | _ => (- EBUSY, l')
       end.

(** The entry a descriptor refers to, 0 for none. *)
Definition abs_get (l : list Z) (fd : Z) : Z :=
  if fd <? 0 then 0 else default 0 (l !! Z.to_nat fd).

(** References to entries held from elsewhere: one more and one less for [e]. *)
Definition plus1 (ext : Z → Z) (e : Z) : Z → Z := λ e', if e' =? e then ext e' + 1 else ext e'.
Definition minus1 (ext : Z → Z) (e : Z) : Z → Z := λ e', if e' =? e then ext e' - 1 else ext e'.
Definition refs (l : list Z) (ext : Z → Z) (e : Z) : Z := cnt e l + ext e.

(** The entry [e] is in memory with [n] references. *)
Definition live (s : fd_state) (e n : Z) : Prop :=
  ∃ x, ents s !! e = Some x ∧ refcount x = n ∧ fd_lock x = unlocked ∧ n < 2 ^ 32.

(** Table [t] has the slots [l], and [ext e] references to an entry [e] are
    held outside of its slots (by other tables and by callers): every entry
    that is referred to is in memory and its count is exactly the number of
    references to it. *)
Definition fd_rep (s : fd_state) (t : Z) (l : list Z) (ext : Z → Z) : Prop :=
  t ≠ 0 ∧
  (∃ tb, tabs s !! t = Some tb ∧ lock tb = unlocked ∧ entries tb = l ∧
         capacity tb = Z.of_nat (length l) ∧ capacity tb ≤ FD_TABLE_MAX) ∧
  (∀ e, 0 ≤ ext e) ∧
  (∀ e, e ≠ 0 → 0 < refs l ext e → live s e (refs l ext e)).

(** What no operation on table [t] touches: the other tables, the count of
    tables' owners, and of the entries everything but their counts. *)
Record fd_frame (t : Z) (s s' : fd_state) : Prop := {
  frame_tabs t' : t' ≠ t → tabs s' !! t' = tabs s !! t';
  frame_owner : t_refcount <$> tabs s' !! t = t_refcount <$> tabs s !! t;
  frame_ents e x' : ents s' !! e = Some x' →
    ∃ x, ents s !! e = Some x ∧ x' = set_refcount (λ _, refcount x') x;
}.

#[global] Instance fd_frame_refl t : Reflexive (fd_frame t).
Proof. intros s. split; [done..|]. intros e x' ?. exists x'. by destruct x'. Qed.
#[global] Instance fd_frame_trans t : Transitive (fd_frame t).
Proof.
  intros s1 s2 s3 [A1 A2 A3] [B1 B2 B3]. split; intros.
  - by rewrite B1, A1.
  - by rewrite B2, A2.
  - destruct (B3 e x' H) as (x2 & H2 & ->). destruct (A3 e x2 H2) as (x1 & H1 & ->).
    exists x1. by destruct x1.
Qed.

(** ** Counting *)

Lemma cnt_nonneg e l : 0 ≤ cnt e l.
Proof. unfold cnt. lia. Qed.
Lemma cnt_le e l : cnt e l ≤ Z.of_nat (length l).
Proof. unfold cnt. pose proof (length_filter (λ x, x = e) l). lia. Qed.
Lemma cnt_app e l1 l2 : cnt e (l1 ++ l2) = cnt e l1 + cnt e l2.
Proof. unfold cnt. rewrite filter_app, length_app. lia. Qed.
Lemma cnt_zeros e n : e ≠ 0 → cnt e (replicate n 0) = 0.
Proof.
  intros He. induction n as [|n IH]; [done|]. unfold cnt in *. simpl.
  rewrite filter_cons_False by congruence. done.
Qed.
Lemma cnt_cons e x l : cnt e (x :: l) = (if decide (x = e) then 1 else 0) + cnt e l.
Proof. unfold cnt. rewrite filter_cons. case_decide; simpl; lia. Qed.

Lemma cnt_insert e l i x y : l !! i = Some y →
  cnt e (<[i := x]> l) = cnt e l - (if decide (y = e) then 1 else 0) + (if decide (x = e) then 1 else 0).
Proof.
  intros Hl. pose proof (lookup_lt_Some _ _ _ Hl). rewrite <-(take_drop_middle l i y Hl) at 2.
  rewrite insert_take_drop by done. rewrite !cnt_app, !cnt_cons. lia.
Qed.

Lemma cnt_pos_lookup e l i : l !! i = Some e → 0 < cnt e l.
Proof.
  intros Hl. rewrite <-(take_drop_middle l i e Hl), cnt_app, cnt_cons, decide_True by done.
  pose proof (cnt_nonneg e (take i l)). pose proof (cnt_nonneg e (drop (S i) l)). lia.
Qed.

Lemma cnt_widen e l min : e ≠ 0 → cnt e (widen l min) = cnt e l.
Proof. intros. unfold widen. rewrite cnt_app, cnt_zeros by done. lia. Qed.

Lemma length_widen l min : Z.of_nat (length l) ≤ FD_TABLE_MAX → min ≤ FD_TABLE_MAX →
  Z.of_nat (length l) < min →
  Z.of_nat (length (widen l min)) = grow_to (Z.of_nat (length l)) min.
Proof. intros. unfold widen, grow_to, FD_TABLE_MAX in *. rewrite length_app, length_replicate. lia. Qed.

Lemma refs_plus1 l ext e e' : refs l (plus1 ext e) e' = refs l ext e' + (if e' =? e then 1 else 0).
Proof. unfold refs, plus1. destruct (e' =? e); lia. Qed.
Lemma refs_minus1 l ext e e' : refs l (minus1 ext e) e' = refs l ext e' - (if e' =? e then 1 else 0).
Proof. unfold refs, minus1. destruct (e' =? e); lia. Qed.

(** ** Re-establishing the representation *)

(** It is enough to look at the table and at the entries whose number of
    references changed. *)
Lemma fd_rep_step s s' t l ext l' ext' tb' :
  fd_rep s t l ext →
  tabs s' !! t = Some tb' → lock tb' = unlocked → entries tb' = l' →
  capacity tb' = Z.of_nat (length l') → capacity tb' ≤ FD_TABLE_MAX →
  (∀ e, 0 ≤ ext' e) →
  (∀ e, e ≠ 0 → 0 < refs l' ext' e → refs l' ext' e = refs l ext e → ents s' !! e = ents s !! e) →
  (∀ e, e ≠ 0 → 0 < refs l' ext' e → refs l' ext' e ≠ refs l ext e → live s' e (refs l' ext' e)) →
  fd_rep s' t l' ext'.
Proof.
  intros (Ht0 & _ & _ & Hlive) Ht Hl He Hc Hm Hext Hsame Hdiff. split; [done|].
  split; [by exists tb'|]. split; [done|]. intros e He0 Hpos.
  destruct (decide (refs l' ext' e = refs l ext e)) as [Heq|]; [|by apply Hdiff].
  destruct (Hlive e He0) as (x & Hx & ?); [lia|]. exists x. rewrite Hsame by done.
  by rewrite Heq.
Qed.

Lemma refs_ext s t l ext e : fd_rep s t l ext → 0 < ext e → 0 < refs l ext e.
Proof. intros _ H. unfold refs. pose proof (cnt_nonneg e l). lia. Qed.

(** * The operations *)

Definition next_alloc (s : fd_state) : Z := hd 0 (allocs s).
Definition heap_ok (s : fd_state) : bool := negb (next_alloc s =? 0).

Lemma wp_kalloc Q s : Q (next_alloc s) (mkFs (ents s) (tabs s) (tail (allocs s)) (events s)) → wp kalloc Q s.
Proof.
  destruct s as [? ? al ?]. unfold wp, kalloc, next_alloc. simpl. by destruct al.
Qed.

Section ops.
Context (me : Z).
Implicit Types (s : fd_state).

(** The state between acquiring and releasing the lock of [t]: only the
    table's row, now [l1], may differ from the state [s] of the call. *)
Record locked (t : Z) (s : fd_state) (l : list Z) (s1 : fd_state) (l1 : list Z) : Prop := {
  locked_ents : ents s1 = ents s;
  locked_events : events s1 = events s;
  locked_other t' : t' ≠ t → tabs s1 !! t' = tabs s !! t';
  locked_cnt e : e ≠ 0 → cnt e l1 = cnt e l;
  locked_tab : ∃ tb tb1, tabs s !! t = Some tb ∧ tabs s1 !! t = Some tb1 ∧
    lock tb1 = held me ∧ entries tb1 = l1 ∧ capacity tb1 = Z.of_nat (length l1) ∧
    capacity tb1 ≤ FD_TABLE_MAX ∧ t_refcount tb1 = t_refcount tb;
}.

Lemma wp_lock_table s t l ext (Q : unit → fd_state → Prop) :
  fd_rep s t l ext →
  (∀ s1, locked t s l s1 l → allocs s1 = allocs s → Q tt s1) →
  wp (tab_lock t (lock_acquire me)) Q s.
Proof.
  intros (Ht0 & (tb & Ht & Hl & He & Hc & Hm) & _) HQ.
  eapply wp_tab_acquire; [done..|]. apply HQ; [|done].
  split; simpl; [done..| | |].
  - intros t' ?. by rewrite lookup_insert_ne.
  - done.
  - exists tb, (set_lock (held me) tb). by rewrite lookup_insert_eq.
Qed.

Lemma wp_unlock_table s t l ext s1 l1 (Q : unit → fd_state → Prop) :
  fd_rep s t l ext → locked t s l s1 l1 →
  (∀ s', fd_rep s' t l1 ext → fd_frame t s s' → ents s' = ents s → events s' = events s →
         allocs s' = allocs s1 → Q tt s') →
  wp (tab_lock t (lock_release me)) Q s1.
Proof.
  intros Hrep [He Hev Hot Hcnt (tb & tb1 & Ht & Ht1 & Hlk & Hen & Hc & Hm & Hrc)] HQ.
  eapply wp_tab_release; [done..|]. apply HQ; simpl; try done.
  - eapply fd_rep_step; [done|simpl; by rewrite lookup_insert_eq|try done..]; simpl.
    + apply Hrep.
    + intros. by rewrite He.
    + intros e He0 _ Hne. destruct Hne. unfold refs. by rewrite Hcnt.
  - split; simpl.
    + intros t' ?. rewrite lookup_insert_ne by done. by apply Hot.
    + rewrite lookup_insert_eq, Ht. simpl. by rewrite Hrc.
    + rewrite He. apply fd_frame_refl with (x := s) (t := t).
Qed.

Lemma wp_locked_load s t l s1 l1 (Q : fd_table_t → fd_state → Prop) :
  locked t s l s1 l1 →
  (∀ tb, entries tb = l1 → capacity tb = Z.of_nat (length l1) → capacity tb ≤ FD_TABLE_MAX → Q tb s1) →
  wp (tab_load t) Q s1.
Proof.
  intros [_ _ _ _ (tb & tb1 & Ht & Ht1 & Hlk & Hen & Hc & Hm & Hrc)] HQ.
  eapply wp_tab_load; [done|]. by apply HQ.
Qed.

Lemma wp_locked_read s t l s1 l1 i e (Q : Z → fd_state → Prop) :
  locked t s l s1 l1 → l1 !! Z.to_nat i = Some e → Q e s1 → wp (slot_read t i) Q s1.
Proof.
  intros [_ _ _ _ (tb & tb1 & Ht & Ht1 & Hlk & <- & Hc & Hm & Hrc)] Hl HQ. by eapply wp_slot_read.
Qed.

Lemma wp_fdtable_grow s t l s1 l1 min (Q : Z → fd_state → Prop) :
  locked t s l s1 l1 → Z.of_nat (length l1) < min →
  (∀ s2 r l2, abs_grow (heap_ok s1) l1 min = (r, l2) → locked t s l s2 l2 → Q r s2) →
  wp (fdtable_grow t min) Q s1.
Proof.
  intros Hlk Hmin HQ. unfold fdtable_grow. unfold abs_grow in HQ. rewrite Z.gtb_ltb.
  destruct (FD_TABLE_MAX <? min) eqn:Hmax; wp_pures; [by eapply HQ|]. apply Z.ltb_ge in Hmax.
  eapply wp_locked_load; [done|]. intros tb0 He0 Hc0 Hm0. wp_pures. apply wp_kalloc.
  unfold heap_ok in HQ. destruct (next_alloc s1 =? 0) eqn:Ha; simpl in HQ; wp_pures.
  { eapply HQ; [done|]. by destruct Hlk. }
  destruct Hlk as [He Hev Hot Hcnt (tb & tb1 & Ht & Ht1 & Hlk & Hen & Hc & Hm & Hrc)].
  eapply wp_tab_store; [done|]. wp_pures. eapply HQ; [done|].
  rewrite He0, Hc0, Z.gtb_ltb. unfold FD_TABLE_MAX in *.
  assert (Hcap : u64 (Z.of_nat (length l1) * 2) = Z.of_nat (length l1) * 2) by (apply u64_id; lia).
  rewrite Hcap. set (c1 := if _ <? min then min else _). set (c2 := if 4096 <? c1 then 4096 else c1).
  assert (c2 = grow_to (Z.of_nat (length l1)) min) as ->.
  { unfold c2, c1, grow_to, FD_TABLE_MAX. repeat case_match; lia. }
  split; simpl.
  - done.
  - done.
  - intros. rewrite lookup_insert_ne by done. by apply Hot.
  - intros. rewrite cnt_widen by done. by apply Hcnt.
  - eexists tb, _. rewrite lookup_insert_eq. split_and!; try done; simpl.
    + rewrite Nat2Z.id, firstn_all. unfold widen. do 2 f_equal. lia.
    + rewrite length_widen; unfold FD_TABLE_MAX; lia.
    + unfold grow_to, FD_TABLE_MAX. lia.
Qed.

(** Putting [e] in a free slot, taking a reference and letting go of the lock. *)
Lemma wp_place s t l ext s1 l1 i e r (Q : Z → fd_state → Prop) :
  fd_rep s t l ext → locked t s l s1 l1 → l1 !! Z.to_nat i = Some 0 →
  e ≠ 0 → 0 < ext e < 2 ^ 31 →
  (∀ s', fd_rep s' t (<[Z.to_nat i := e]> l1) ext → fd_frame t s s' → events s' = events s → Q r s') →
  wp (slot_write t i e ;; fd_entry_ref me e ;; tab_lock t (lock_release me) ;; mret r) Q s1.
Proof.
  intros Hrep [He Hev Hot Hcnt (tb & tb1 & Ht & Ht1 & Hlk & Hen & Hc & Hm & Hrc)] Hi He0 Hx HQ.
  pose proof Hrep as (_ & _ & Hext & Hlive).
  destruct (Hlive e He0) as (x & Hex & Hrx & Hlx & Hmx); [eapply refs_ext; [done|lia]|].
  wp_pures. eapply wp_slot_write; [done|by rewrite Hen; eauto|]. wp_pures.
  eapply wp_fd_entry_ref; [simpl; by rewrite He|done..|]. wp_pures.
  eapply wp_tab_release; [simpl; by rewrite lookup_insert_eq|done|]. wp_pures. simpl.
  rewrite insert_insert_eq, Hen, He.
  assert (Hb : cnt e l ≤ 4096).
  { pose proof (cnt_le e l1). rewrite <-Hcnt by done. unfold FD_TABLE_MAX in *. lia. }
  pose proof (cnt_nonneg e l).
  assert (Hrr : ∀ e', e' ≠ 0 → refs (<[Z.to_nat i:=e]> l1) ext e' = refs l ext e' + (if decide (e = e') then 1 else 0)).
  { intros e' Hne. unfold refs. rewrite (cnt_insert _ _ _ _ 0) by done.
    rewrite Hcnt by done. repeat case_decide; lia. }
  apply HQ; simpl; try done.
  - eapply fd_rep_step; [done|simpl; by rewrite lookup_insert_eq|try done..]; simpl.
    + by rewrite length_insert.
    + intros e' Hne _ Heq. rewrite Hrr in Heq by done. case_decide; [lia|].
      by rewrite lookup_insert_ne.
    + intros e' Hne Hpos Hd. rewrite Hrr in * by done. case_decide; [subst e'|lia].
      eexists. simpl. rewrite lookup_insert_eq. split; [done|]. simpl.
      rewrite Hrx. unfold refs in *. rewrite u32_id by lia. split_and!; [done|done|lia].
  - split; simpl.
    + intros t' ?. rewrite lookup_insert_ne by done. by apply Hot.
    + rewrite lookup_insert_eq, Ht. simpl. by rewrite Hrc.
    + intros e' x' Hx'. destruct (decide (e = e')) as [<-|].
      * rewrite lookup_insert_eq in Hx'. injection Hx' as <-. exists x. by destruct x.
      * rewrite lookup_insert_ne in Hx' by done. exists x'. by destruct x'.
Qed.

(** Finding the first free slot. *)
Lemma wp_free_slot s t l s1 l1 (Q : option Z → fd_state → Prop) :
  locked t s l s1 l1 →
  Q ((λ p, Z.of_nat (p.1)) <$> list_find (λ x, x = 0) l1) s1 →
  wp (loop (S (length l1)) (free_slot_round t) 0) Q s1.
Proof.
  intros Hlk HQ.
  apply (wp_loop (λ n i s', s' = s1 ∧ 0 ≤ i ≤ Z.of_nat (length l1) ∧ n = (length l1 - Z.to_nat i)%nat ∧
    ∀ j y, (j < Z.to_nat i)%nat → l1 !! j = Some y → y ≠ 0)) with (n := length l1); [lia| |].
  { split_and!; [done|lia|lia|lia|]. intros. lia. }
  intros n i s' (-> & Hi & -> & Hbelow). unfold free_slot_round. wp_pures.
  eapply wp_locked_load; [done|]. intros tb He Hc _. rewrite Hc.
  destruct (i <? Z.of_nat (length l1)) eqn:Hlt; wp_pures.
  - apply Z.ltb_lt in Hlt. destruct (lookup_lt_is_Some_2 l1 (Z.to_nat i)) as [e Hie]; [lia|].
    eapply wp_locked_read; [done..|]. destruct (e =? 0) eqn:Hez; wp_pures.
    + apply Z.eqb_eq in Hez as ->.
      assert (list_find (λ x, x = 0) l1 = Some (Z.to_nat i, 0)) as Hf.
      { apply list_find_Some. split_and!; [done..|]. intros j y Hj ?. by eapply Hbelow. }
      rewrite Hf in HQ. simpl in HQ. by rewrite Z2Nat.id in HQ by lia.
    + apply Z.eqb_neq in Hez. exists (length l1 - Z.to_nat (i + 1))%nat. split; [lia|].
      split_and!; [done|lia..|]. intros j y Hj Hy.
      destruct (decide (j = Z.to_nat i)) as [->|]; [congruence|]. eapply Hbelow; [|done]. lia.
  - apply Z.ltb_ge in Hlt. assert (list_find (λ x, x = 0) l1 = None) as Hf.
    { apply list_find_None, Forall_lookup. intros j y Hy. eapply Hbelow; [|done].
      pose proof (lookup_lt_Some _ _ _ Hy). lia. }
    by rewrite Hf in HQ.
Qed.

(** ** Installing *)

Lemma wp_fdtable_install s t l ext e (Q : Z → fd_state → Prop) :
  fd_rep s t l ext → e ≠ 0 → 0 < ext e < 2 ^ 31 →
  (∀ s' r l', abs_install (heap_ok s) l e = (r, l') →
     fd_rep s' t l' ext → fd_frame t s s' → events s' = events s → Q r s') →
  wp (fdtable_install me t e) Q s.
Proof.
  intros Hrep He Hx HQ. unfold fdtable_install.
  pose proof Hrep as (Ht0 & _). apply Z.eqb_neq in Ht0 as ->. pose proof He as ->%Z.eqb_neq. simpl. wp_pures.
  eapply wp_lock_table; [done|]. intros s1 Hlk Hal. wp_pures.
  eapply wp_locked_load; [done|]. intros tb He1 Hc1 Hm1. rewrite Hc1, Nat2Z.id.
  apply wp_bind. eapply wp_free_slot; [done|]. unfold abs_install in HQ.
  destruct (list_find (λ x, x = 0) l) as [[i y]|] eqn:Hf; simpl.
  - pose proof (proj1 (list_find_Some _ _ _ _) Hf) as (Hi & -> & _).
    eapply wp_place; [done..| | | |]; rewrite ?Nat2Z.id; try done. intros. by eapply HQ.
  - wp_pures. eapply wp_fdtable_grow; [done|lia|]. intros s2 r l2 Hg Hlk2.
    assert (heap_ok s1 = heap_ok s) as Hok by (unfold heap_ok, next_alloc; by rewrite Hal).
    rewrite Hok in Hg. rewrite Hg in HQ. destruct (r =? EOK) eqn:Hr; simpl negb; cbv beta iota.
    + unfold abs_grow in Hg. repeat case_match; simplify_eq; try done.
      apply Z.ltb_ge in H. eapply wp_place; [done..| | | |]; rewrite ?Nat2Z.id; try done.
      * unfold widen. rewrite lookup_app_r, Nat.sub_diag by lia. apply lookup_replicate. split; [done|].
        unfold grow_to, FD_TABLE_MAX in *. lia.
      * intros. by eapply HQ.
    + wp_pures. eapply wp_unlock_table; [done..|]. intros s' Hr' Hfr Hee Hev _. wp_pures.
      unfold abs_grow in Hg. repeat case_match; simplify_eq; by eapply HQ.
Qed.

Lemma wp_fdtable_install_at s t l ext fd e (Q : Z → fd_state → Prop) :
  fd_rep s t l ext → 0 ≤ fd → e ≠ 0 → 0 < ext e < 2 ^ 31 →
  (∀ s' r l', abs_install_at (heap_ok s) l fd e = (r, l') →
     fd_rep s' t l' ext → fd_frame t s s' → events s' = events s → Q r s') →
  wp (fdtable_install_at me t fd e) Q s.
Proof.
  intros Hrep Hfd He Hx HQ. unfold fdtable_install_at.
  pose proof Hrep as (Ht0 & _). apply Z.eqb_neq in Ht0 as ->. pose proof He as ->%Z.eqb_neq.
  assert (fd <? 0 = false) as -> by lia. simpl. wp_pures.
  eapply wp_lock_table; [done|]. intros s1 Hlk Hal. wp_pures.
  eapply wp_locked_load; [done|]. intros tb He1 Hc1 Hm1. wp_pures. rewrite Hc1.
  unfold abs_install_at in HQ. rewrite Z.geb_leb, Z.leb_antisym.
  assert (heap_ok s1 = heap_ok s) as Hok by (unfold heap_ok, next_alloc; by rewrite Hal).
  assert (∀ s2 r l2, (if fd <? Z.of_nat (length l) then (EOK, l) else abs_grow (heap_ok s) l (fd + 1)) = (r, l2) →
    locked t s l s2 l2 → wp (if negb (r =? EOK) then tab_lock t (lock_release me) ;; mret r else
      e' ← slot_read t fd;
      if negb (e' =? 0) then tab_lock t (lock_release me) ;; mret (- EBUSY) else
      slot_write t fd e ;; fd_entry_ref me e ;; tab_lock t (lock_release me) ;; mret fd) Q s2) as Hk.
  { intros s2 r l2 Heq Hlk2. rewrite Heq in HQ. destruct (r =? EOK) eqn:Hr; simpl negb in *; cbv beta iota in *.
    - assert (is_Some (l2 !! Z.to_nat fd)) as [e' He'].
      { clear HQ. destruct (fd <? Z.of_nat (length l)) eqn:Hlt; [simplify_eq; apply lookup_lt_is_Some_2; lia|].
        unfold abs_grow in Heq. repeat case_match; simplify_eq; try done.
        apply Z.ltb_ge in H, Hlt. apply lookup_lt_is_Some_2.
        apply Nat2Z.inj_lt. rewrite length_widen; unfold grow_to, FD_TABLE_MAX in *; lia. }
      rewrite He' in HQ. wp_pures. eapply wp_locked_read; [done..|].
      destruct (e' =? 0) eqn:Hez; simpl negb; cbv beta iota.
      + apply Z.eqb_eq in Hez as ->. eapply wp_place; [done..|]. intros. by eapply HQ.
      + wp_pures. eapply wp_unlock_table; [done..|]. intros s' Hr' Hfr Hee Hev _. wp_pures.
        apply Z.eqb_neq in Hez. eapply HQ; [|done..]. by destruct e'.
    - wp_pures. eapply wp_unlock_table; [done..|]. intros s' Hr' Hfr Hee Hev _. wp_pures.
      eapply HQ; [done| |done..]. unfold abs_grow in Heq. repeat case_match; simplify_eq; done. }
  destruct (fd <? Z.of_nat (length l)) eqn:Hlt; simpl negb; wp_pures; [by eapply Hk|].
  apply Z.ltb_ge in Hlt. eapply wp_fdtable_grow; [done|lia|]. rewrite Hok. intros s2 r l2 Hg Hlk2. by eapply Hk.
Qed.

(** ** Looking up and letting go *)

Lemma abs_get_lookup l fd : abs_get l fd ≠ 0 →
  0 ≤ fd ∧ l !! Z.to_nat fd = Some (abs_get l fd).
Proof.
  unfold abs_get. destruct (fd <? 0) eqn:?; [done|]. destruct (l !! Z.to_nat fd); simpl; [|done].
  split; [lia|done].
Qed.

Lemma abs_get_none l fd : 0 ≤ fd → Z.of_nat (length l) ≤ fd → abs_get l fd = 0.
Proof.
  intros. unfold abs_get. assert (fd <? 0 = false) as -> by lia.
  rewrite lookup_ge_None_2 by lia. done.
Qed.

(** Taking a reference to an entry of the table and letting go of the lock. *)
Lemma wp_take s t l ext s1 e (Q : Z → fd_state → Prop) :
  fd_rep s t l ext → locked t s l s1 l → e ≠ 0 → 0 < cnt e l → 0 ≤ ext e < 2 ^ 31 →
  (∀ s', fd_rep s' t l (plus1 ext e) → fd_frame t s s' → events s' = events s →
     allocs s' = allocs s1 → Q e s') →
  wp (fd_entry_ref me e) (λ _, wp (tab_lock t (lock_release me)) (λ _, Q e)) s1.
Proof.
  intros Hrep Hlk Hez Hc0 Hx HQ. pose proof Hrep as (_ & _ & Hext & Hlive).
  destruct (Hlive e Hez) as (x & Hex & Hrx & Hlx & Hmx); [unfold refs; lia|].
  destruct Hlk as [He Hev Hot Hcnt (tb0 & tb1 & Ht & Ht1 & Hlk & Hen & Hc & Hm & Hrc)].
  eapply wp_fd_entry_ref; [by rewrite He|done..|].
  eapply wp_tab_release; [done..|]. simpl.
  assert (cnt e l ≤ 4096) by (pose proof (cnt_le e l); unfold FD_TABLE_MAX in *; rewrite Hc in Hm; lia).
  apply HQ; simpl.
  - eapply fd_rep_step; [done|simpl; by rewrite lookup_insert_eq|try done..]; simpl.
    + intros e'. specialize (Hext e'). unfold plus1. destruct (e' =? e); lia.
    + intros e' Hne _ Heq. rewrite refs_plus1 in Heq. destruct (Z.eqb_spec e' e); [lia|].
      rewrite lookup_insert_ne by done. by rewrite He.
    + intros e' Hne Hpos Hd. rewrite refs_plus1 in *. destruct (Z.eqb_spec e' e) as [->|]; [|lia].
      eexists. simpl. rewrite lookup_insert_eq. split; [done|]. simpl.
      rewrite Hrx. unfold refs in *. rewrite u32_id by lia. split_and!; [done|done|lia].
  - split; simpl.
    + intros t' ?. rewrite lookup_insert_ne by done. by apply Hot.
    + rewrite lookup_insert_eq, Ht. simpl. by rewrite Hrc.
    + rewrite He. intros e' x' Hx'. destruct (decide (e = e')) as [<-|].
      * rewrite lookup_insert_eq in Hx'. injection Hx' as <-. exists x. by destruct x.
      * rewrite lookup_insert_ne in Hx' by done. exists x'. by destruct x'.
  - done.
  - done.
Qed.

Lemma wp_fdtable_get s t l ext fd (Q : Z → fd_state → Prop) :
  fd_rep s t l ext → (∀ e, ext e < 2 ^ 31) →
  (∀ s', let e := abs_get l fd in
     fd_rep s' t l (if e =? 0 then ext else plus1 ext e) → fd_frame t s s' →
     events s' = events s → heap_ok s' = heap_ok s → Q e s') →
  wp (fdtable_get me t fd) Q s.
Proof.
  intros Hrep Hx HQ. unfold fdtable_get, when. pose proof Hrep as (Ht0 & _). apply Z.eqb_neq in Ht0 as ->. simpl.
  destruct (fd <? 0) eqn:Hfd; wp_pures.
  { specialize (HQ s). unfold abs_get in HQ. rewrite Hfd in HQ. by apply HQ. }
  apply Z.ltb_ge in Hfd.
  eapply wp_lock_table; [done|]. intros s1 Hlk Hal. wp_pures.
  eapply wp_locked_load; [done|]. intros tb He1 Hc1 Hm1. rewrite Hc1.
  destruct (fd <? Z.of_nat (length l)) eqn:Hlt; wp_pures; cycle 1.
  { apply Z.ltb_ge in Hlt. eapply wp_unlock_table; [done..|]. intros s' Hr' Hfr Hee Hev Hal'. wp_pures.
    specialize (HQ s'). rewrite abs_get_none in HQ by lia. apply HQ; try done.
    unfold heap_ok, next_alloc. by rewrite Hal', Hal. }
  apply Z.ltb_lt in Hlt. destruct (lookup_lt_is_Some_2 l (Z.to_nat fd)) as [e Hie]; [lia|].
  assert (abs_get l fd = e) as Hge.
  { unfold abs_get. assert (fd <? 0 = false) as -> by lia. by rewrite Hie. }
  rewrite Hge in HQ. eapply wp_locked_read; [done..|]. destruct (e =? 0) eqn:Hez; simpl negb; wp_pures.
  { apply Z.eqb_eq in Hez as ->. eapply wp_unlock_table; [done..|]. intros s' Hr' Hfr Hee Hev Hal'. wp_pures.
    apply HQ; try done. unfold heap_ok, next_alloc. by rewrite Hal', Hal. }
  apply Z.eqb_neq in Hez. eapply wp_mono with
    (P := λ _, wp (tab_lock t (lock_release me)) (λ _, Q e)); [|intros [] s' H; by wp_pures].
  eapply wp_take; [done..|by eapply cnt_pos_lookup| |].
  { by split; [apply Hrep|]. }
  intros s' ? ? ? Hal'. apply HQ; try done; [by pose proof Hez as ->%Z.eqb_neq|].
  unfold heap_ok, next_alloc. by rewrite Hal', Hal.
Qed.

(** What letting go of a reference to [e] tears down, [n] being the count. *)
Definition torn s (e n : Z) : list event :=
  if n =? 1 then match ents s !! e with Some x => teardown_events x | None => [] end else [].

Lemma wp_fd_drop s t l ext e (Q : unit → fd_state → Prop) :
  fd_rep s t l ext → e ≠ 0 → 0 < ext e →
  (∀ s', fd_rep s' t l (minus1 ext e) → fd_frame t s s' → allocs s' = allocs s →
     events s' = events s ++ torn s e (refs l ext e) →
     (refs l ext e = 1 → ents s' !! e = None) → Q tt s') →
  wp (fd_entry_unref me e) Q s.
Proof.
  intros Hrep He Hx HQ. pose proof Hrep as (Ht0 & (tb & Ht & Hl & Hen & Hc & Hm) & Hext & Hlive).
  assert (0 < refs l ext e) as Hpos by (eapply refs_ext; eauto).
  destruct (Hlive e He Hpos) as (x & Hex & Hrx & Hlx & Hmx). unfold torn in HQ. rewrite Hex in HQ.
  assert (∀ e', 0 ≤ minus1 ext e e') as Hext'.
  { intros e'. specialize (Hext e'). unfold minus1. destruct (Z.eqb_spec e' e); subst; lia. }
  eapply wp_fd_entry_unref; [done..|lia| |]; intros Hr; rewrite Hrx in Hr.
  - apply HQ; simpl; try done.
    + eapply fd_rep_step; [done..| |].
      * intros e' _ _ Heq. rewrite refs_minus1 in Heq. destruct (Z.eqb_spec e' e); [lia|].
        simpl. by rewrite lookup_insert_ne.
      * intros e' _ Hp Hne. rewrite refs_minus1 in Hp, Hne |- *. destruct (Z.eqb_spec e' e) as [Hee|]; [subst e'|lia].
        eexists. simpl. rewrite lookup_insert_eq. split; [done|]. simpl. split_and!; [lia|done|lia].
    + split; simpl; [done..|]. intros e' x' Hx'. destruct (decide (e = e')) as [<-|].
      * rewrite lookup_insert_eq in Hx'. injection Hx' as <-. exists x. by destruct x.
      * rewrite lookup_insert_ne in Hx' by done. exists x'. by destruct x'.
    + assert (refs l ext e =? 1 = false) as -> by lia. by rewrite app_nil_r.
    + lia.
  - apply HQ; simpl; try done.
    + eapply fd_rep_step; [done..| |].
      * intros e' _ _ Heq. rewrite refs_minus1 in Heq. destruct (Z.eqb_spec e' e); [lia|].
        simpl. by rewrite lookup_delete_ne.
      * intros e' _ Hp Hne. rewrite refs_minus1 in Hp, Hne. destruct (Z.eqb_spec e' e) as [Hee|]; [subst e'; lia|lia].
    + split; simpl; [done..|]. intros e' x' Hx'. apply lookup_delete_Some in Hx' as [_ Hx'].
      exists x'. by destruct x'.
    + by rewrite Hr.
    + intros _. by rewrite lookup_delete_eq.
Qed.

Lemma fd_rep_proper s t l ext ext' : (∀ e, ext e = ext' e) → fd_rep s t l ext → fd_rep s t l ext'.
Proof.
  intros Heq (H1 & H2 & H3 & H4). split_and!; [done..| |].
  - intros e. by rewrite <-Heq.
  - intros e He. unfold refs in *. rewrite <-Heq. by apply H4.
Qed.
Lemma minus1_plus1 ext e e' : minus1 (plus1 ext e) e e' = ext e'.
Proof. unfold minus1, plus1. destruct (e' =? e); lia. Qed.

(** Taking an entry out of its slot: its reference passes to the caller. *)
Lemma wp_vacate s t l ext s1 fd e {A} (k : M fd_state A) (Q : A → fd_state → Prop) :
  fd_rep s t l ext → locked t s l s1 l → l !! Z.to_nat fd = Some e → e ≠ 0 →
  (∀ s', fd_rep s' t (<[Z.to_nat fd := 0]> l) (plus1 ext e) → fd_frame t s s' →
     ents s' = ents s → events s' = events s → allocs s' = allocs s1 → wp k Q s') →
  wp (slot_write t fd 0 ;; tab_lock t (lock_release me) ;; k) Q s1.
Proof.
  intros Hrep Hlk Hl He0 HQ. pose proof Hrep as (_ & _ & Hext & _).
  destruct Hlk as [He Hev Hot Hcnt (tb0 & tb1 & Ht & Ht1 & Hlk & Hen & Hc & Hm & Hrc)].
  wp_pures. eapply wp_slot_write; [done|by rewrite Hen; eauto|]. wp_pures.
  eapply wp_tab_release; [simpl; by rewrite lookup_insert_eq|done|]. simpl. rewrite insert_insert_eq, Hen.
  apply HQ; simpl; try done.
  - eapply fd_rep_step; [done|simpl; by rewrite lookup_insert_eq|try done..]; simpl.
    + by rewrite length_insert.
    + intros e'. specialize (Hext e'). unfold plus1. destruct (e' =? e); lia.
    + intros. by rewrite He.
    + intros e' Hne _ Hd. destruct Hd. rewrite refs_plus1. unfold refs.
      rewrite (cnt_insert _ _ _ _ e) by done. rewrite (decide_False (P := 0 = e')) by done.
      case_decide; destruct (Z.eqb_spec e' e); subst; try done; lia.
  - split; simpl.
    + intros t' ?. rewrite lookup_insert_ne by done. by apply Hot.
    + rewrite lookup_insert_eq, Ht. simpl. by rewrite Hrc.
    + rewrite He. apply fd_frame_refl with (x := s) (t := t).
Qed.

Definition abs_close (l : list Z) (fd : Z) : Z * list Z :=
  if fd <? 0 then (- EINVAL, l)
  else if abs_get l fd =? 0 then (- EBADF, l)
  else (EOK, <[Z.to_nat fd := 0]> l).

Lemma wp_fdtable_close s t l ext fd (Q : Z → fd_state → Prop) :
  fd_rep s t l ext →
  (∀ s', let e := abs_get l fd in
     fd_rep s' t (abs_close l fd).2 ext → fd_frame t s s' → allocs s' = allocs s →
     events s' = events s ++ (if e =? 0 then [] else torn s e (refs l ext e)) →
     (e ≠ 0 → refs l ext e = 1 → ents s' !! e = None) →
     Q (abs_close l fd).1 s') →
  wp (fdtable_close me t fd) Q s.
Proof.
  intros Hrep HQ. unfold fdtable_close. unfold abs_close in HQ. pose proof Hrep as (Ht0 & _).
  apply Z.eqb_neq in Ht0 as ->. simpl. destruct (fd <? 0) eqn:Hfd; wp_pures.
  { assert (abs_get l fd = 0) as Hz by (unfold abs_get; by rewrite Hfd).
    rewrite Hz in HQ. simpl in HQ. rewrite app_nil_r in HQ. by apply HQ. }
  apply Z.ltb_ge in Hfd. eapply wp_lock_table; [done|]. intros s1 Hlk Hal. wp_pures.
  eapply wp_locked_load; [done|]. intros tb _ Hc1 _. wp_pures. rewrite Hc1.
  apply wp_mono with (P := λ a s', a = abs_get l fd ∧ s' = s1).
  { destruct (fd >=? Z.of_nat (length l)) eqn:Hge; wp_pures.
    - by rewrite abs_get_none by lia.
    - destruct (lookup_lt_is_Some_2 l (Z.to_nat fd)) as [e Hie]; [lia|].
      eapply wp_locked_read; [done..|]. split; [|done]. unfold abs_get.
      assert (fd <? 0 = false) as -> by lia. by rewrite Hie. }
  intros e s1' [-> ->]. destruct (Z.eqb_spec (abs_get l fd) 0) as [Hz|Hnz].
  { wp_pures. eapply wp_unlock_table; [done..|]. intros s' Hr' Hfr Hee Hev Hal'. wp_pures.
    apply HQ; try done; [congruence|]. by rewrite app_nil_r. }
  destruct (abs_get_lookup _ _ Hnz) as [_ Hie].
  eapply wp_vacate; [done..|]. intros s2 Hr2 Hfr2 Hee2 Hev2 Hal2. wp_pures. simpl in HQ.
  assert (refs (<[Z.to_nat fd:=0]> l) (plus1 ext (abs_get l fd)) (abs_get l fd) = refs l ext (abs_get l fd)) as Hrf.
  { rewrite refs_plus1, Z.eqb_refl. unfold refs. rewrite (cnt_insert _ _ _ _ (abs_get l fd)) by done.
    rewrite decide_True by done. rewrite decide_False by done. lia. }
  eapply wp_fd_drop; [done..| |].
  { unfold plus1. rewrite Z.eqb_refl. pose proof Hrep as (_ & _ & Hext & _). specialize (Hext (abs_get l fd)). lia. }
  rewrite Hrf. intros s3 Hr3 Hfr3 Hal3 Hev3 Hgone. wp_pures. apply HQ; try done.
  - eapply fd_rep_proper; [|exact Hr3]. apply minus1_plus1.
  - by etrans.
  - congruence.
  - rewrite Hev3, Hev2. unfold torn. by rewrite Hee2.
Qed.
End ops.

(** * A concrete table for the witnesses *)

Definition demo_file (f n : Z) : fd_entry_t := mkFd FD_FILE f 0 0 0 0 0 n unlocked.
(** Table 8 has two slots: slot 1 refers to entry 40, and a caller holds a
    reference to 40 and the only one to entry 50. *)
Definition demo_fds_of (f : Z) : fd_state :=
  mkFs {[40 := demo_file f 2; 50 := demo_file 9 1]} {[8 := mkTable unlocked [0; 40] 2 1]} [64; 72] [].
Definition demo_ext (e : Z) : Z := if e =? 40 then 1 else if e =? 50 then 1 else 0.

Definition demo_fds : fd_state := demo_fds_of 7.
Lemma demo_fds_of_rep f : fd_rep (demo_fds_of f) 8 [0; 40] demo_ext.
Proof.
  split; [done|]. split; [eexists; split; [reflexivity|]; done|]. split.
  - intros e. unfold demo_ext. repeat case_match; lia.
  - intros e He Hpos. unfold refs, demo_ext in *. rewrite !cnt_cons in *. change (cnt e []) with 0 in *.
    rewrite (decide_False (P := 0 = e)) in * by done.
    destruct (Z.eqb_spec e 40) as [->|].
    + exists (demo_file f 2). done.
    + rewrite (decide_False (P := 40 = e)) in * by done.
      destruct (Z.eqb_spec e 50) as [->|]; [|simpl in *; lia]. exists (demo_file 9 1). done.
Qed.
Lemma demo_fds_rep : fd_rep demo_fds 8 [0; 40] demo_ext.
Proof. apply demo_fds_of_rep. Qed.

Section theorems.
Context (me : Z).
Implicit Types (s : fd_state).

(** * Installing *)

(** Installing an entry puts it in the lowest free slot, growing the
    table (to twice its size, 4096 at most) when it is full, and takes one
    reference; installing it at a given descriptor takes that slot or fails with
    -EBUSY when it is occupied. Both return a value on every path, report
    -EMFILE and -ENOMEM without a change to the slots, release the table's
    lock, and keep every count equal to the number of references. *)
Theorem fdtable_install_spec s t l ext e fd :
  fd_rep s t l ext → e ≠ 0 → 0 < ext e < 2 ^ 31 → 0 ≤ fd →
  wp (fdtable_install me t e) (λ r s',
    r = (abs_install (heap_ok s) l e).1 ∧ fd_rep s' t (abs_install (heap_ok s) l e).2 ext ∧
    fd_frame t s s' ∧ events s' = events s) s ∧
  wp (fdtable_install_at me t fd e) (λ r s',
    r = (abs_install_at (heap_ok s) l fd e).1 ∧ fd_rep s' t (abs_install_at (heap_ok s) l fd e).2 ext ∧
    fd_frame t s s' ∧ events s' = events s) s.
Proof.
  intros Hrep He Hx Hfd. split.
  - eapply wp_fdtable_install; [done..|]. by intros s' r l' ->.
  - eapply wp_fdtable_install_at; [done..|]. by intros s' r l' ->.
Qed.

(** * Looking up and closing *)

(** looking a descriptor up returns its entry with one more reference, or
    NULL; closing it empties its slot, and tears the entry down, closing its
    file, exactly when that was the last reference. Descriptors that are
    negative, out of range or empty are refused without a change. *)
Theorem fdtable_get_close_spec s t l ext fd :
  fd_rep s t l ext → (∀ e, ext e < 2 ^ 31) →
  let e := abs_get l fd in
  wp (fdtable_get me t fd) (λ r s',
    r = e ∧ fd_rep s' t l (if e =? 0 then ext else plus1 ext e) ∧ fd_frame t s s' ∧
    events s' = events s) s ∧
  wp (fdtable_close me t fd) (λ r s',
    r = (abs_close l fd).1 ∧ fd_rep s' t (abs_close l fd).2 ext ∧ fd_frame t s s' ∧
    events s' = events s ++ (if e =? 0 then [] else torn s e (refs l ext e)) ∧
    (e ≠ 0 → refs l ext e = 1 → ents s' !! e = None)) s.
Proof.
  intros Hrep Hx e. split.
  - eapply wp_fdtable_get; [done..|]. intros s' e' ? ? ? ?. done.
  - eapply wp_fdtable_close; [done..|]. intros s' e' ? ? ? ? ?. done.
Qed.

(** * Duplicating *)

Definition abs_dup2 (ok : bool) (l : list Z) (oldfd newfd : Z) : Z * list Z :=
  if newfd <? 0 then (- EINVAL, l)
  else if abs_get l oldfd =? 0 then (- EBADF, l)
  else if oldfd =? newfd then (newfd, l)
  else abs_install_at ok (abs_close l newfd).2 newfd (abs_get l oldfd).

Lemma close_lookup l fd i : i ≠ Z.to_nat fd → (abs_close l fd).2 !! i = l !! i.
Proof. intros. unfold abs_close. repeat case_match; simpl; [done..|]. by rewrite list_lookup_insert_ne. Qed.

Lemma close_free l fd e : 0 ≤ fd → (abs_close l fd).2 !! Z.to_nat fd = Some e → e = 0.
Proof.
  intros Hfd. unfold abs_close, abs_get. assert (fd <? 0 = false) as -> by lia.
  destruct (l !! Z.to_nat fd) as [y|] eqn:Hy; simpl.
  - destruct (Z.eqb_spec y 0) as [->|]; simpl; [congruence|].
    rewrite list_lookup_insert_eq by (by eapply lookup_lt_Some). congruence.
  - congruence.
Qed.

Lemma widen_lookup l min i e : l !! i = Some e → widen l min !! i = Some e.
Proof. intros. unfold widen. by apply lookup_app_l_Some. Qed.

Lemma install_at_lookup ok l fd e i y : i ≠ Z.to_nat fd → l !! i = Some y →
  (abs_install_at ok l fd e).2 !! i = Some y.
Proof.
  intros Hi Hy. unfold abs_install_at, abs_grow.
  repeat case_match; simplify_eq/=; try (rewrite list_lookup_insert_ne by done); auto using widen_lookup.
Qed.

(** What a failed or a successful installation returns. *)
Lemma install_at_ret ok l fd e r l' : 0 ≤ fd → (∀ y, l !! Z.to_nat fd = Some y → y = 0) →
  abs_install_at ok l fd e = (r, l') →
  (r = fd ∧ l' !! Z.to_nat fd = Some e) ∨ (r < 0 ∧ l' = l).
Proof.
  intros Hfd Hfree. unfold abs_install_at, abs_grow.
  destruct (fd <? Z.of_nat (length l)) eqn:Hlt.
  - apply Z.ltb_lt in Hlt. destruct (lookup_lt_is_Some_2 l (Z.to_nat fd)) as [y Hy]; [lia|].
    rewrite Hy, (Hfree y Hy). simpl. intros [= <- <-]. left. split; [done|].
    rewrite list_lookup_insert_eq; [done|]. lia.
  - apply Z.ltb_ge in Hlt. destruct (FD_TABLE_MAX <? fd + 1) eqn:Hm; simpl; [intros [= <- <-]; by right|].
    destruct ok; simpl; [|intros [= <- <-]; by right]. apply Z.ltb_ge in Hm.
    assert (widen l (fd + 1) !! Z.to_nat fd = Some 0) as Hw.
    { unfold widen. rewrite lookup_app_r by lia. apply lookup_replicate. split; [done|].
      unfold grow_to, FD_TABLE_MAX in *. lia. }
    rewrite Hw. intros [= <- <-]. left. split; [done|].
    rewrite list_lookup_insert_eq; [done|]. by eapply lookup_lt_Some.
Qed.

Lemma wp_fdtable_dup2 s t l ext oldfd newfd :
  fd_rep s t l ext → (∀ e, ext e < 2 ^ 31 - 1) →
  wp (fdtable_dup2 me t oldfd newfd) (λ v s',
    v = (abs_dup2 (heap_ok s) l oldfd newfd).1 ∧
    fd_rep s' t (abs_dup2 (heap_ok s) l oldfd newfd).2 ext ∧ fd_frame t s s') s.
Proof.
  intros Hrep Hx. unfold fdtable_dup2, abs_dup2. destruct (newfd <? 0) eqn:Hnew; [by wp_pures|].
  apply Z.ltb_ge in Hnew. wp_pures. eapply wp_fdtable_get; [done|intros e'; specialize (Hx e'); lia|].
  intros s1 e Hr1 Hf1 _ Hok1. fold e. destruct (Z.eqb_spec e 0) as [He|He]; [by wp_pures|].
  assert (plus1 ext e e = ext e + 1) as Hp by (unfold plus1; by rewrite Z.eqb_refl).
  pose proof Hrep as (_ & _ & Hext & _). specialize (Hext e) as Hxe. specialize (Hx e) as Hxe'.
  destruct (Z.eqb_spec oldfd newfd) as [->|Hne].
  { wp_pures. eapply wp_fd_drop; [done..|lia|]. intros s2 Hr2 Hf2 _ _ _. wp_pures. split; [done|].
    split; [|by etrans]. eapply fd_rep_proper; [|done]. apply minus1_plus1. }
  wp_pures. eapply wp_fdtable_close; [done|]. intros s2 e2 Hr2 Hf2 Hal2 _ _. wp_pures.
  eapply wp_fdtable_install_at; [done..|lia|]. intros s3 r3 l3 Hat3 Hr3 Hf3 _. wp_pures.
  assert (heap_ok s2 = heap_ok s) as Hok by (unfold heap_ok, next_alloc in *; by rewrite Hal2).
  rewrite Hok in Hat3. rewrite Hat3. simpl.
  eapply wp_fd_drop; [done..|lia|]. intros s4 Hr4 Hf4 _ _ _.
  assert (fd_rep s4 t l3 ext ∧ fd_frame t s s4) as [Hr5 Hf5].
  { split; [eapply fd_rep_proper; [|done]; apply minus1_plus1|]. by repeat (etrans; [done|]). }
  destruct (install_at_ret _ _ _ _ _ _ Hnew (λ y, close_free l newfd y Hnew) Hat3) as [[-> _]|[Hneg _]].
  - assert (newfd <? 0 = false) as -> by lia. by wp_pures.
  - assert (r3 <? 0 = true) as -> by lia. by wp_pures.
Qed.

(** Where the duplicate ends up, and that the other slots stay. *)
Lemma dup2_lookup ok l oldfd newfd r l' :
  abs_dup2 ok l oldfd newfd = (r, l') →
  (0 ≤ r → r = newfd ∧ abs_get l' newfd = abs_get l oldfd) ∧
  (∀ i y, i ≠ Z.to_nat newfd → l !! i = Some y → l' !! i = Some y).
Proof.
  unfold abs_dup2. intros Habs. destruct (newfd <? 0) eqn:Hnew; [by simplify_eq|]. apply Z.ltb_ge in Hnew.
  destruct (Z.eqb_spec (abs_get l oldfd) 0) as [|He]; [by simplify_eq|].
  destruct (Z.eqb_spec oldfd newfd) as [->|Hne]; [by simplify_eq|].
  split.
  - destruct (install_at_ret _ _ _ _ _ _ Hnew (λ y, close_free l newfd y Hnew) Habs) as [[-> Hl']|[Hr ->]]; [|lia].
    intros _. split; [done|]. unfold abs_get at 1. assert (newfd <? 0 = false) as -> by lia. by rewrite Hl'.
  - intros i y Hi Hy. change l' with (r, l').2. rewrite <-Habs.
    apply install_at_lookup; [done|]. by rewrite close_lookup.
Qed.

(** C22: [dup2] drops the reference [newfd] held and makes it refer to the entry
    of [oldfd], no other descriptor changing; it leaves no reference behind
    and frees no entry that is still referred to, also when it fails and when
    both descriptors are the same. *)
Theorem fdtable_dup2_spec s t l ext oldfd newfd :
  fd_rep s t l ext → (∀ e, ext e < 2 ^ 31 - 1) →
  let '(r, l') := abs_dup2 (heap_ok s) l oldfd newfd in
  wp (fdtable_dup2 me t oldfd newfd) (λ v s',
    v = r ∧ fd_rep s' t l' ext ∧ fd_frame t s s') s ∧
  (0 ≤ r → r = newfd ∧ abs_get l' newfd = abs_get l oldfd) ∧
  (∀ i y, i ≠ Z.to_nat newfd → l !! i = Some y → l' !! i = Some y).
Proof.
  intros Hrep Hx. pose proof (wp_fdtable_dup2 s t l ext oldfd newfd Hrep Hx) as Hwp.
  destruct (abs_dup2 _ l oldfd newfd) as [r l'] eqn:Habs. split; [done|]. by eapply dup2_lookup.
Qed.

(** * Sharing and letting go of a table *)

(** The body of the loop of [fdtable_clone], the tables being [src] (of slots
    [l]) and [dst] (with the first [i] of them). *)
Definition cloning s src tb dst l (ext : Z → Z) (i : Z) (s' : fd_state) : Prop :=
  tabs s' = <[dst := mkTable unlocked (take (Z.to_nat i) l ++ replicate (length l - Z.to_nat i) 0)
                       (Z.of_nat (length l)) 1]> (<[src := set_lock (held me) tb]> (tabs s)) ∧
  events s' = events s ∧
  (∀ e, e ≠ 0 → 0 < refs l ext e → live s' e (refs l ext e + cnt e (take (Z.to_nat i) l))) ∧
  (∀ e x', ents s' !! e = Some x' → ∃ x, ents s !! e = Some x ∧ x' = set_refcount (λ _, refcount x') x).

Lemma wp_clone_round s src tb dst l ext i s' :
  entries tb = l → src ≠ dst → Z.of_nat (length l) ≤ FD_TABLE_MAX → (∀ e, 0 ≤ ext e < 2 ^ 31) →
  0 ≤ i < Z.of_nat (length l) → cloning s src tb dst l ext i s' →
  wp (e ← slot_read src i; when (negb (e =? 0)) (slot_write dst i e ;; fd_entry_ref me e))
     (λ _, cloning s src tb dst l ext (i + 1)) s'.
Proof.
  intros Hl Hne Hm Hx Hi (Ht & Hev & Hlive & Hfr).
  destruct (lookup_lt_is_Some_2 l (Z.to_nat i)) as [e He]; [lia|].
  assert (Hstep : take (Z.to_nat (i + 1)) l = take (Z.to_nat i) l ++ [e]).
  { replace (Z.to_nat (i + 1)) with (S (Z.to_nat i)) by lia. by apply take_S_r. }
  assert (Hlen : length (take (Z.to_nat i) l) = Z.to_nat i) by (rewrite length_take; lia).
  assert (Hrep : replicate (length l - Z.to_nat i) 0 = 0 :: replicate (length l - Z.to_nat (i + 1)) 0).
  { by replace (length l - Z.to_nat i)%nat with (S (length l - Z.to_nat (i + 1))) by lia. }
  wp_pures. eapply wp_slot_read.
  { rewrite Ht, lookup_insert_ne, lookup_insert_eq by done. done. }
  { simpl. by rewrite Hl. }
  unfold when. destruct (Z.eqb_spec e 0) as [->|Hez]; simpl negb; wp_pures.
  - split_and!; [|done| |done].
    + rewrite Ht, Hstep, Hrep, <-app_assoc. done.
    + intros e He0 Hpos. rewrite Hstep, cnt_app, cnt_cons, decide_False by done.
      change (cnt e []) with 0. rewrite !Z.add_0_r. by apply Hlive.
  - pose proof (cnt_pos_lookup _ _ _ He). destruct (Hx e) as [Hx1 Hx2].
    destruct (Hlive e Hez) as (x & Hex & Hrx & Hlx & Hmx); [unfold refs; lia|].
    eapply wp_slot_write; [rewrite Ht; by rewrite lookup_insert_eq| |].
    { simpl. rewrite lookup_app_r, Hlen, Nat.sub_diag, Hrep by lia. by exists 0. }
    wp_pures. eapply wp_fd_entry_ref; [done..|]. simpl.
    pose proof (cnt_le e l). pose proof (cnt_le e (take (Z.to_nat i) l)). unfold FD_TABLE_MAX in *.
    pose proof (cnt_nonneg e (take (Z.to_nat i) l)). unfold cloning. simpl.
    split_and!; [|done| |].
    + rewrite Ht, insert_insert_eq. do 2 f_equal.
      rewrite insert_app_r_alt, Hlen, Nat.sub_diag, Hrep, Hstep, <-app_assoc by lia. done.
    + intros e' He0 Hpos. rewrite Hstep, cnt_app, cnt_cons. change (cnt e' []) with 0.
      destruct (decide (e = e')) as [<-|Hee].
      * eexists. simpl. rewrite lookup_insert_eq. split; [done|]. simpl. rewrite Hrx. unfold refs in *.
        rewrite length_take in *. rewrite u32_id by lia. split_and!; [lia|done|lia].
      * rewrite !Z.add_0_r. destruct (Hlive e' He0 Hpos) as (x' & ? & ?). exists x'. simpl.
        by rewrite lookup_insert_ne.
    + intros e' x' Hx'. destruct (decide (e = e')) as [<-|].
      * rewrite lookup_insert_eq in Hx'. injection Hx' as <-. destruct (Hfr e x Hex) as (y & Hy & ->).
        exists y. by destruct y.
      * rewrite lookup_insert_ne in Hx' by done. by apply Hfr.
Qed.

(** References held outside of a table once a second table has the same slots. *)
Definition shared (l : list Z) (ext : Z → Z) (e : Z) : Z := ext e + cnt e l.

(** Cloning a table gives either NULL, with nothing changed, or a table of
    its own with the same slots, every entry having gained one reference for
    each descriptor of the new table. *)
Theorem fdtable_clone_spec s src l ext :
  fd_rep s src l ext → (∀ e, ext e < 2 ^ 31) →
  tabs s !! next_alloc s = None →
  wp (fdtable_clone me src) (λ dst s',
    (dst = 0 ∧ ents s' = ents s ∧ tabs s' = tabs s ∧ events s' = events s) ∨
    (dst = next_alloc s ∧ dst ≠ 0 ∧ dst ≠ src ∧
     fd_rep s' dst l (shared l ext) ∧ fd_rep s' src l (shared l ext) ∧
     events s' = events s ∧ (t_refcount <$> tabs s' !! dst) = Some 1 ∧
     ∀ t, t ≠ src → t ≠ dst → tabs s' !! t = tabs s !! t)) s.
Proof.
  intros Hrep Hx Hfresh. pose proof Hrep as (Hs0 & (tb & Ht & Hlk & Hen & Hc & Hm) & Hext & Hlive).
  assert (src ≠ next_alloc s) as Hne by (intros ->; congruence).
  unfold fdtable_clone, new_table, free_table. pose proof Hs0 as ->%Z.eqb_neq. wp_pures. apply wp_kalloc.
  destruct (Z.eqb_spec (next_alloc s) 0) as [Hz|Hnz]; [wp_pures; by left|]. wp_pures.
  apply Z.eqb_neq in Hnz as Hb. rewrite Hb. wp_pures.
  eapply wp_tab_acquire; [simpl; by rewrite lookup_insert_ne|done|]. wp_pures. apply wp_kalloc.
  destruct (next_alloc (put_tabs _ _) =? 0); wp_pures; simpl.
  { eapply wp_tab_release; [simpl; by rewrite lookup_insert_eq|done|]. wp_pures.
    eapply wp_tab_load; [simpl; rewrite !lookup_insert_ne by done; by rewrite lookup_insert_eq|]. wp_pures. left.
    simpl. split_and!; try done. rewrite insert_insert_eq, delete_insert_ne, delete_insert_id by done.
    apply insert_id. rewrite Ht. by destruct tb; simpl in *; subst. }
  eapply wp_tab_load; [simpl; by rewrite lookup_insert_eq|]. wp_pures.
  eapply wp_tab_store; [simpl; rewrite lookup_insert_ne by done; by rewrite lookup_insert_eq|]. wp_pures.
  eapply wp_tab_store; [simpl; by rewrite lookup_insert_eq|]. wp_pures.
  eapply wp_tab_store; [simpl; by rewrite lookup_insert_eq|]. wp_pures. simpl.
  eapply (wp_for_n (cloning s src tb (next_alloc s) l ext)).
  - split_and!; simpl; [|done| |].
    + rewrite !insert_insert_eq, (insert_insert_ne _ src) by done. rewrite insert_insert_eq. simpl.
      rewrite Nat.sub_0_r, Hc, Nat2Z.id. done.
    + intros e He Hpos. change (cnt e []) with 0. rewrite Z.add_0_r. by apply Hlive.
    + intros e x' ?. exists x'. by destruct x'.
  - intros i s1 Hi Hinv. apply wp_clone_round; [done|done|lia| |lia|done].
    intros e. split; [apply Hext|apply Hx].
  - intros s1 (Ht1 & Hev1 & Hlive1 & Hfr1). wp_pures. rewrite Hc, Nat2Z.id in *. rewrite Z.add_0_l, Nat2Z.id in *.
    rewrite firstn_all, Nat.sub_diag in *. simpl in *. rewrite app_nil_r in *.
    eapply wp_tab_release; [rewrite Ht1, lookup_insert_ne, lookup_insert_eq by done; done|done|]. wp_pures. right.
    assert (∀ t s2, ents s2 = ents s1 → t ≠ 0 → (∃ tb', tabs s2 !! t = Some tb' ∧ lock tb' = unlocked ∧
      entries tb' = l ∧ capacity tb' = Z.of_nat (length l)) → fd_rep s2 t l (shared l ext)) as Hmk.
    { intros t s2 He2 Ht0 (tb' & ? & ? & ? & Hc'). split; [done|]. split; [exists tb'; rewrite Hc' in *; naive_solver lia|].
      split; [intros e; unfold shared; specialize (Hext e); pose proof (cnt_nonneg e l); lia|].
      intros e He Hpos. destruct (Hlive1 e He) as (x & Hxx & Hrx & Hlx & Hmx).
      { unfold refs, shared in *. pose proof (cnt_nonneg e l). specialize (Hext e). lia. }
      exists x. rewrite He2. unfold refs, shared in *. split_and!; [done|lia|done|lia]. }
    split_and!; try done; simpl.
    + apply Hmk; [done..|]. simpl. rewrite lookup_insert_ne by done. rewrite Ht1, lookup_insert_eq. eauto.
    + apply Hmk; [done..|]. simpl. rewrite lookup_insert_eq. eexists; split; [done|]. done.
    + rewrite lookup_insert_ne by done. by rewrite Ht1, lookup_insert_eq.
    + intros t ? ?. by rewrite lookup_insert_ne, Ht1, !lookup_insert_ne.
Qed.

(** Halfway through the last [fdtable_unref]: the references of the first [i]
    slots have been dropped. *)
Definition unreffing s t l (ext : Z → Z) (i : Z) (s' : fd_state) : Prop :=
  (∃ tb, tabs s' !! t = Some tb ∧ entries tb = l) ∧ (∀ t', t' ≠ t → tabs s' !! t' = tabs s !! t') ∧
  (∀ e, e ≠ 0 → let n := cnt e (drop (Z.to_nat i) l) + ext e in
     (0 < n → live s' e n) ∧ (0 < cnt e l → n = 0 → ents s' !! e = None)).

Lemma wp_unref_round s t l ext i s' :
  (∀ e, 0 ≤ ext e) → 0 ≤ i < Z.of_nat (length l) → unreffing s t l ext i s' →
  wp (e ← slot_read t i; when (negb (e =? 0)) (fd_entry_unref me e))
     (λ _, unreffing s t l ext (i + 1)) s'.
Proof.
  intros Hext Hi ((tb & Ht & Hl) & Hot & He).
  destruct (lookup_lt_is_Some_2 l (Z.to_nat i)) as [e Hie]; [lia|].
  assert (∀ e', cnt e' (drop (Z.to_nat i) l) = (if decide (e = e') then 1 else 0) + cnt e' (drop (Z.to_nat (i + 1)) l)) as Hd.
  { intros e'. rewrite (drop_S _ _ _ Hie), cnt_cons. by replace (Z.to_nat (i + 1)) with (S (Z.to_nat i)) by lia. }
  wp_pures. eapply wp_slot_read; [done|by rewrite Hl|]. unfold when.
  destruct (Z.eqb_spec e 0) as [->|Hez]; simpl negb; wp_pures.
  - split_and!; [by exists tb|done|]. intros e' He' n. destruct (He e' He') as [H1 H2].
    rewrite Hd, decide_False in H1, H2 by done. done.
  - specialize (Hext e) as Hxe. pose proof (cnt_nonneg e (drop (Z.to_nat (i + 1)) l)) as Hnn.
    destruct (He e Hez) as [H1 _]. rewrite Hd, decide_True in H1 by done.
    destruct H1 as (x & Hx & Hrx & Hlx & Hmx); [lia|].
    assert (∀ es ev, (∀ e', e' ≠ e → es !! e' = ents s' !! e') →
      let n := cnt e (drop (Z.to_nat (i + 1)) l) + ext e in
      (0 < n → live (mkFs es (tabs s') (allocs s') ev) e n) → (n = 0 → es !! e = None) →
      unreffing s t l ext (i + 1) (mkFs es (tabs s') (allocs s') ev)) as Hmk.
    { intros es ev Hes n Hn1 Hn2. split_and!; [by exists tb|done|]. intros e' He' n'.
      destruct (decide (e = e')) as [<-|Hne]; [by split; [|intros _]|].
      destruct (He e' He') as [H1 H2]. rewrite Hd, decide_False in H1, H2 by done. split.
      - intros Hp. destruct (H1 Hp) as (y & ? & ?). exists y. simpl. by rewrite Hes.
      - simpl. rewrite Hes by done. apply H2. }
    eapply wp_fd_entry_unref; [done..|lia| |]; intros Hr; apply Hmk; simpl.
    + intros. by rewrite lookup_insert_ne.
    + intros Hp. eexists. simpl. rewrite lookup_insert_eq. split; [done|]. simpl. split_and!; [lia|done|lia].
    + lia.
    + intros. by rewrite lookup_delete_ne.
    + lia.
    + intros _. by rewrite lookup_delete_eq.
Qed.

(** when the last owner lets go of a table, the table is freed, every
    entry keeps exactly the references held elsewhere, and the entries with
    none left are gone: nothing leaks and nothing is freed early. An owner that
    is not the last only lowers the table's own count. *)
Theorem fdtable_unref_spec s t l ext tb :
  fd_rep s t l ext → tabs s !! t = Some tb → 0 < t_refcount tb < 2 ^ 32 →
  wp (fdtable_unref me t) (λ _ s',
    (∀ t', t' ≠ t → tabs s' !! t' = tabs s !! t') ∧
    if t_refcount tb =? 1 then
      tabs s' !! t = None ∧
      ∀ e, e ≠ 0 → 0 < refs l ext e →
        (0 < ext e → live s' e (ext e)) ∧ (ext e = 0 → ents s' !! e = None)
    else
      tabs s' !! t = Some (set_t_refcount (λ n, n - 1) tb) ∧ ents s' = ents s ∧ events s' = events s) s.
Proof.
  intros (Ht0 & (tb' & Ht' & Hlk & Hen & Hc & Hm) & Hext & Hlive) Ht Hrc.
  rewrite Ht in Ht'. injection Ht' as <-. subst l.
  unfold fdtable_unref. apply Z.eqb_neq in Ht0 as ->. wp_pures.
  eapply wp_tab_acquire; [done..|]. wp_pures.
  eapply wp_tab_store; [simpl; by rewrite lookup_insert_eq|]. wp_pures.
  eapply wp_tab_load; [simpl; by rewrite lookup_insert_eq|]. wp_pures.
  eapply wp_tab_release; [simpl; by rewrite lookup_insert_eq|done|]. simpl. rewrite !insert_insert_eq.
  rewrite u32_id by lia. rewrite Z.gtb_ltb. destruct (Z.eqb_spec (t_refcount tb) 1) as [H1|Hn1].
  - rewrite H1. simpl. wp_pures. eapply wp_tab_load; [simpl; by rewrite lookup_insert_eq|]. wp_pures. simpl.
    eapply (wp_for_n (unreffing s t (entries tb) ext)).
    + split_and!; simpl; [rewrite lookup_insert_eq; eauto| |].
      * intros. by rewrite lookup_insert_ne.
      * intros e He. rewrite drop_0. split; [apply Hlive; done|]. specialize (Hext e). lia.
    + intros i s' Hi. apply wp_unref_round; [done|lia].
    + intros s' ((tb' & Htb' & Hl') & Hot & He). rewrite Hc, Z.add_0_l, !Nat2Z.id, drop_all in He.
      unfold free_table. wp_pures. eapply wp_tab_load; [done|]. wp_pures. simpl. split.
      { intros. rewrite lookup_delete_ne by done. by apply Hot. }
      split; [by rewrite lookup_delete_eq|]. intros e He0 Hpos. destruct (He e He0) as [HA HB].
      unfold refs in Hpos. change (cnt e []) with 0 in *. split; [apply HA|]. intros Hz. apply HB; lia.
  - assert (0 <? t_refcount tb - 1 = true) as -> by lia. wp_pures. simpl. split.
    { intros. by rewrite lookup_insert_ne. }
    rewrite lookup_insert_eq. split_and!; [|done..]. f_equal. destruct tb. unfold set_t_refcount, set_lock in *.
    simpl in *. subst. by rewrite u32_id by lia.
Qed.

(** * Opening *)

(** opening either returns NULL and leaves no entry behind, or returns a
    fresh entry with one reference and the flags it was opened with. The node
    a lookup returned is let go exactly once: at once, or, for a directory
    that was opened, when its entry is torn down. *)
Theorem fd_open_spec `{FileSystem} s path flags mode :
  ents s !! next_alloc s = None →
  let '(ret, vnode) := vfs_lookup path in
  let looked := if ret =? EOK then [ev_vnode_unref vnode] else [] in
  wp (fd_open path flags mode) (λ r s',
    tabs s' = tabs s ∧
    (r = 0 → ents s' = ents s ∧
       events s' = events s ++ (if (path =? 0) || negb (heap_ok s) then [] else looked)) ∧
    (r ≠ 0 → r = next_alloc s ∧ ∃ x, ents s' = <[r := x]> (ents s) ∧
       refcount x = 1 ∧ fd_lock x = unlocked ∧ fd_flags x = flags ∧
       if flag flags O_DIRECTORY then
         ret = EOK ∧ is_dir vnode = true ∧ events s' = events s ∧ type x = FD_DIR ∧
         teardown_events x = (if vnode =? 0 then [] else [ev_vnode_unref vnode])
       else
         type x = FD_FILE ∧ (kopen path flags mode) = (EOK, file x) ∧
         events s' = events s ++ looked)) s.
Proof.
  intros Hfresh. destruct (vfs_lookup path) as [ret vnode] eqn:Hlook.
  assert (∀ x, delete (next_alloc s) (<[next_alloc s := x]> (ents s)) = ents s) as Hdel.
  { intros x. by rewrite delete_insert_id. }
  unfold fd_open, new_entry, free_entry, emit, when, heap_ok. rewrite Hlook.
  destruct (path =? 0); simpl; [wp_pures; by rewrite app_nil_r|]. wp_pures. apply wp_kalloc.
  destruct (Z.eqb_spec (next_alloc s) 0) as [Hz|Hnz]; wp_pures; [by rewrite app_nil_r|].
  pose proof Hnz as ->%Z.eqb_neq. wp_pures.
  do 3 (eapply wp_ent_store; [simpl; by rewrite lookup_insert_eq|]; wp_pures).
  simpl. rewrite !insert_insert_eq.
  destruct (flag flags O_DIRECTORY).
  - destruct (Z.eqb_spec ret EOK) as [->|]; simpl negb; cbv beta iota.
    + destruct (is_dir vnode) eqn:Hdir; simpl negb; wp_pures.
      * eapply wp_ent_store; [simpl; by rewrite lookup_insert_eq|]. wp_pures. simpl.
        rewrite insert_insert_eq. split_and!; [done|congruence|]. intros _. split; [done|].
        eexists; split_and!; try done. unfold teardown_events. simpl. by rewrite app_nil_r.
      * eapply wp_ent_load; [simpl; by rewrite lookup_insert_eq|]. wp_pures. simpl. by rewrite Hdel.
    + wp_pures. eapply wp_ent_load; [simpl; by rewrite lookup_insert_eq|]. wp_pures. simpl.
      by rewrite Hdel, app_nil_r.
  - destruct (Z.eqb_spec ret EOK) as [->|]; simpl; [destruct (is_dir vnode)|]; wp_pures.
    + eapply wp_ent_load; [simpl; by rewrite lookup_insert_eq|]. wp_pures. simpl. by rewrite Hdel.
    + destruct (kopen path flags mode) as [kr f]. destruct (Z.eqb_spec kr EOK) as [->|]; simpl negb; wp_pures.
      * eapply wp_ent_store; [simpl; by rewrite lookup_insert_eq|]. wp_pures. simpl.
        rewrite insert_insert_eq. split_and!; [done|congruence|]. intros _. split; [done|].
        by eexists; split_and!.
      * eapply wp_ent_load; [simpl; by rewrite lookup_insert_eq|]. wp_pures. simpl. by rewrite Hdel.
    + destruct (kopen path flags mode) as [kr f]. destruct (Z.eqb_spec kr EOK) as [->|]; simpl negb; wp_pures.
      * eapply wp_ent_store; [simpl; by rewrite lookup_insert_eq|]. wp_pures. simpl.
        rewrite insert_insert_eq, app_nil_r. split_and!; [done|congruence|]. intros _. split; [done|].
        by eexists; split_and!.
      * eapply wp_ent_load; [simpl; by rewrite lookup_insert_eq|]. wp_pures. simpl. by rewrite Hdel, app_nil_r.
Qed.
End theorems.

(** * Witnesses *)

Lemma demo_ext_small e : demo_ext e < 2 ^ 31 - 1.
Proof. unfold demo_ext. repeat case_match; lia. Qed.
Lemma demo_ext_lt e : demo_ext e < 2 ^ 31.
Proof. unfold demo_ext. repeat case_match; lia. Qed.

Lemma fdtable_install_spec_witness :
  abs_install (heap_ok demo_fds) [0; 40] 50 = (0, [50; 40]) ∧
  abs_install_at (heap_ok demo_fds) [0; 40] 1 50 = (- EBUSY, [0; 40]) ∧
  wp (fdtable_install 3 8 50) (λ r s', r = 0 ∧ fd_rep s' 8 [50; 40] demo_ext) demo_fds.
Proof.
  split; [reflexivity|]. split; [reflexivity|].
  destruct (fdtable_install_spec 3 demo_fds 8 [0; 40] demo_ext 50 1 demo_fds_rep) as [H _];
    [lia|vm_compute; done|lia|].
  eapply wp_mono; [exact H|]. intros r s' (-> & ? & _). split; [reflexivity|assumption].
Defined.

Lemma fdtable_get_close_spec_witness :
  abs_get [0; 40] 1 = 40 ∧ abs_close [0; 40] 1 = (EOK, [0; 0]) ∧
  wp (fdtable_close 3 8 1) (λ r s', r = EOK ∧ fd_rep s' 8 [0; 0] demo_ext ∧ events s' = []) demo_fds.
Proof.
  split; [reflexivity|]. split; [reflexivity|].
  destruct (fdtable_get_close_spec 3 demo_fds 8 [0; 40] demo_ext 1 demo_fds_rep demo_ext_lt) as [_ H].
  eapply wp_mono; [exact H|]. intros r s' (-> & ? & _ & -> & _). split; [reflexivity|]. split; [assumption|reflexivity].
Defined.

Lemma fdtable_dup2_spec_witness :
  abs_dup2 (heap_ok demo_fds) [0; 40] 1 3 = (3, [0; 40; 0; 40]) ∧
  wp (fdtable_dup2 3 8 1 3) (λ v s', v = 3 ∧ fd_rep s' 8 [0; 40; 0; 40] demo_ext) demo_fds.
Proof.
  split; [reflexivity|].
  pose proof (fdtable_dup2_spec 3 demo_fds 8 [0; 40] demo_ext 1 3 demo_fds_rep demo_ext_small) as H.
  change (abs_dup2 (heap_ok demo_fds) [0; 40] 1 3) with (3, [0; 40; 0; 40]) in H. destruct H as [H _].
  eapply wp_mono; [exact H|]. intros v s' (-> & ? & _). by split.
Defined.

Lemma fdtable_clone_spec_witness :
  tabs demo_fds !! next_alloc demo_fds = None ∧
  wp (fdtable_clone 3 8) (λ dst s', dst = 0 ∨ fd_rep s' dst [0; 40] (shared [0; 40] demo_ext)) demo_fds.
Proof.
  split; [reflexivity|].
  eapply wp_mono; [apply (fdtable_clone_spec 3 demo_fds 8 [0; 40] demo_ext demo_fds_rep demo_ext_lt); reflexivity|].
  intros dst s' [(-> & _)|(_ & _ & _ & ? & _)]; [by left|by right].
Defined.

Lemma fdtable_unref_spec_witness :
  wp (fdtable_unref 3 8) (λ _ s', tabs s' !! 8 = None ∧ live s' 40 1) demo_fds.
Proof.
  eapply wp_mono; [apply (fdtable_unref_spec 3 demo_fds 8 [0; 40] demo_ext (mkTable unlocked [0; 40] 2 1) demo_fds_rep);
    [reflexivity|simpl; lia]|].
  intros _ s' (_ & Hgone & He). split; [exact Hgone|]. apply (He 40); [lia|reflexivity|reflexivity].
Defined.

(** A file system in which every path is the plain file 11. *)
Definition demo_fs : FileSystem := {|
  vfs_lookup _ := (EOK, 11); is_dir _ := false; kopen _ _ _ := (EOK, 12); vfs_readdir _ := (EOK, 0) |}.

Lemma fd_open_spec_witness :
  wp (@fd_open demo_fs 1 2 0) (λ r s', r ≠ 0 → ∃ x, ents s' = <[r := x]> (ents demo_fds) ∧ file x = 12) demo_fds.
Proof.
  pose proof (@fd_open_spec demo_fs demo_fds 1 2 0 eq_refl) as Hspec.
  change (@vfs_lookup demo_fs 1) with (EOK, 11) in Hspec. cbv beta iota zeta in Hspec.
  eapply wp_mono; [exact Hspec|].
  intros r s' (_ & _ & H) Hr. destruct (H Hr) as (_ & x & Hx & _ & _ & _ & _ & Hk & _).
  exists x. split; [exact Hx|]. by injection Hk.
Defined.
