(* ===== verification/FdFile.v ===== *)
(** Input and output by descriptor: the operations of [src/kernel/src/sched/fd.c]
    that go on to the open files of [kfile.c], over the descriptor tables of
    [FdTable] and the virtual file system of [Vfs]. *)
From Stdlib Require Import Ascii.
From S2P Require Import Prelude Errno Sync FdTable FdTheorems.
From S2P Require Import Vfs Kfile Ramfs VfsSpec RamfsSpec RamfsOps VfsOps KfileTheorems.

Section fd_file.
Context {D : Type} `{!VnodeOps D}.
(** The tables and entries, and the files. *)
Local Abbreviation state := (fd_state * vfs_state D)%type.

Definition on_fds {A} (m : M fd_state A) : M state A := zoom fst (λ f s, (f, s.2)) m.
Definition on_files {A} (m : M (vfs_state D) A) : M state A := zoom snd (λ v s, (s.1, v)) m.

(** [entry && entry->type == FD_FILE] *)
Definition is_file (entry : Z) : M state bool :=
  if entry =? 0 then mret false else
  x ← on_fds (ent_load entry); mret (bool_decide (FdTable.type x = FD_FILE)).

Definition fd_read (entry size : Z) : M state (Z * option (list Z)) :=
  ok ← is_file entry;
  if negb ok then mret (u64 (- EINVAL), None) else
  x ← on_fds (ent_load entry);
  on_files (kread (file x) size).

Definition fd_write (entry : Z) (buf : list Z) (size : Z) : M state Z :=
  ok ← is_file entry;
  if negb ok then mret (- EINVAL) else
  x ← on_fds (ent_load entry);
  on_files (kwrite (file x) buf size).

Definition fd_seek (entry off : Z) (whence : fseek_t) : M state Z :=
  ok ← is_file entry;
  if negb ok then mret (u64 (- EINVAL)) else
  x ← on_fds (ent_load entry);
  on_files (kseek (file x) off whence).
End fd_file.

Section fd_io.
Context (me : Z) (junk : Z → Z) (ramfs_fstype : Z).
Let fs_ops : VnodeOps ramfs_data := ramfs_ops junk ramfs_fstype.
#[local] Existing Instance fs_ops | 0.
Implicit Types (fds : fd_state) (v : vfs_state ramfs_data).

Lemma wp_on_fds {A} (m : M fd_state A) fds v (Q : A → fd_state * vfs_state ramfs_data → Prop) :
  wp m (λ a f', Q a (f', v)) fds → wp (on_fds m) Q (fds, v).
Proof. exact (wp_zoom fst (λ f s, (f, s.2)) m Q (fds, v)). Qed.
Lemma wp_on_files {A} (m : M (vfs_state ramfs_data) A) fds v (Q : A → fd_state * vfs_state ramfs_data → Prop) :
  wp m (λ a v', Q a (fds, v')) v → wp (on_files m) Q (fds, v).
Proof. exact (wp_zoom snd (λ v s, (s.1, v)) m Q (fds, v)). Qed.

(** Entry [e] is a file, and [a] the file. *)
Definition file_entry fds (e a : Z) : Prop :=
  e ≠ 0 ∧ ∃ x, ents fds !! e = Some x ∧ FdTable.type x = FD_FILE ∧ file x = a.

Lemma wp_file_entry {A} fds v e a (k : fd_entry_t → M (fd_state * vfs_state ramfs_data) A) (z : A) Q :
  file_entry fds e a → (∀ x, file x = a → wp (k x) Q (fds, v)) →
  wp (ok ← is_file e; if negb ok then mret z else x ← on_fds (ent_load e); k x) Q (fds, v).
Proof.
  intros (He & x & Hx & Ht & Ha) Hk. unfold is_file. rewrite (proj2 (Z.eqb_neq _ _) He). apply wp_bind, wp_bind, wp_on_fds.
  eapply wp_ent_load; [exact Hx|]. apply wp_ret. rewrite bool_decide_eq_true_2 by done. simpl. apply wp_bind, wp_on_fds.
  eapply wp_ent_load; [exact Hx|]. by apply Hk.
Qed.

(** The entry that a descriptor refers to is the same file for whoever gets it. *)
Lemma file_entry_frame t fds fds' e a :
  fd_frame t fds fds' → is_Some (ents fds' !! e) → file_entry fds e a → file_entry fds' e a.
Proof.
  intros Hf [x' Hx'] (He & x & Hx & Ht & Ha). split; [done|]. exists x'. split; [done|].
  destruct (frame_ents _ _ _ Hf _ _ Hx') as (y & Hy & ->). rewrite Hx in Hy. injection Hy as <-. done.
Qed.
Lemma rep_entry fds t l ext e : fd_rep fds t l ext → e ≠ 0 → 0 < refs l ext e → is_Some (ents fds !! e).
Proof. intros (_ & _ & _ & H) He Hr. destruct (H e He Hr) as (x & ? & _). eauto. Qed.
Lemma abs_get_refs l ext fd : (∀ e, 0 ≤ ext e) → abs_get l fd ≠ 0 → 0 < refs l ext (abs_get l fd).
Proof.
  intros He Hg. destruct (abs_get_lookup l fd Hg) as [_ Hl]. apply cnt_pos_lookup in Hl. specialize (He (abs_get l fd)). unfold refs. lia.
Qed.

(** A descriptor that is no file is refused: reading and seeking report it as a
    [size_t], writing as an [int]. *)
Theorem fd_io_refused fds v e x buf size off whence :
  e = 0 ∨ (ents fds !! e = Some x ∧ FdTable.type x ≠ FD_FILE) →
  fd_read e size (fds, v) = Done ((2 ^ 64 - 22, None), (fds, v)) ∧ fd_write e buf size (fds, v) = Done (- EINVAL, (fds, v)) ∧
  fd_seek e off whence (fds, v) = Done (2 ^ 64 - 22, (fds, v)).
Proof.
  intros He. assert (is_file e (fds, v) = Done (false, (fds, v))) as H.
  { unfold is_file. destruct (Z.eqb_spec e 0) as [|Hne]; [done|]. destruct He as [?|[Hx Ht]]; [done|].
    unfold on_fds, zoom, mbind, M_bind, ent_load. simpl. rewrite Hx. simpl. by rewrite bool_decide_eq_false_2. }
  unfold fd_read, fd_write, fd_seek, mbind, M_bind. by rewrite H.
Qed.

(** Getting a descriptor yields an entry of the file it was opened for. *)
Lemma wp_get_file fds v t l ext fd a (Q : Z → fd_state * vfs_state ramfs_data → Prop) :
  fd_rep fds t l ext → (∀ e, ext e < 2 ^ 31) → file_entry fds (abs_get l fd) a →
  (∀ fds', fd_rep fds' t l (plus1 ext (abs_get l fd)) → file_entry fds' (abs_get l fd) a → Q (abs_get l fd) (fds', v)) →
  wp (on_fds (fdtable_get me t fd)) Q (fds, v).
Proof.
  intros Hrep Hx Hfe HQ. apply wp_on_fds. eapply wp_fdtable_get; [done..|]. intros fds' e Hrep' Hf _ _. fold e in HQ, Hfe.
  pose proof Hfe as [He _]. rewrite (proj2 (Z.eqb_neq _ _) He) in Hrep'. apply HQ; [done|].
  eapply file_entry_frame; [done| |done]. eapply rep_entry; [done|done|]. apply abs_get_refs; [apply Hrep'|done].
Qed.

(** C23: a duplicated descriptor is the same open file. What is written through
    the old descriptor moves the position of both: after the new one seeks back,
    the old one reads what was written. *)
Theorem fd_shared_offset fds v t l ext old new file vn n b f d off a r :
  fd_rep fds t l ext → (∀ e, ext e < 2 ^ 31 - 1) → file_entry fds (abs_get l old) file →
  0 ≤ (abs_dup2 (FdTheorems.heap_ok fds) l old new).1 →
  open_file v file vn n b f → offset f = Z.of_nat off → d ≠ [] → Z.of_nat off + Z.of_nat (length d) < 2 ^ 31 →
  Z.of_nat (length b) < 2 ^ 31 → allocs v = a :: r → a ≠ 0 → blocks (fs v) !! a = None →
  wp (dup ← on_fds (fdtable_dup2 me t old new);
      e1 ← on_fds (fdtable_get me t old); e2 ← on_fds (fdtable_get me t new);
      w ← fd_write e1 d (Z.of_nat (length d)); o ← fd_seek e2 (Z.of_nat off) SEEK_SET; g ← fd_read e1 (Z.of_nat (length d));
      mret (dup, w, o, g))
    (λ res _, res = (new, Z.of_nat (length d), Z.of_nat off, (Z.of_nat (length d), Some d))) (fds, v).
Proof.
  intros Hrep Hx Hfe Hr Hopen Hoff Hd Hfit Hlb Hal Ha Hfree.
  destruct (abs_dup2 (FdTheorems.heap_ok fds) l old new) as [ret l'] eqn:Habs. simpl in Hr.
  destruct (dup2_lookup _ _ _ _ _ _ Habs) as [Hnew Hkeep]. destruct (Hnew Hr) as [-> Hgn].
  assert (abs_get l' old = abs_get l old) as Hgo.
  { destruct (decide (old = new)) as [->|Hne]; [done|]. destruct (abs_get_lookup l old (proj1 Hfe)) as [H0 Hl].
    unfold abs_get at 1. rewrite (proj2 (Z.ltb_ge _ _) H0).
    rewrite (Hkeep (Z.to_nat old) _ ltac:(lia) Hl). done. }
  set (e := abs_get l old) in *.
  apply wp_bind, wp_on_fds. eapply wp_mono; [by apply (wp_fdtable_dup2 me fds t l ext old new)|]. rewrite Habs. simpl.
  intros dup fds1 (-> & Hrep1 & Hf1).
  assert (file_entry fds1 e file) as Hfe1.
  { eapply file_entry_frame; [done| |done]. eapply rep_entry; [done|apply Hfe|]. rewrite <-Hgo. apply abs_get_refs; [apply Hrep|].
    rewrite Hgo. apply Hfe. }
  apply wp_bind. eapply (wp_get_file fds1 v t l' ext old file); [done|intros y; specialize (Hx y); lia|by rewrite Hgo|].
  rewrite Hgo. intros fds2 Hrep2 Hfe2. apply wp_bind.
  eapply (wp_get_file fds2 v t l' (plus1 ext e) new file); [done| |by rewrite Hgn|].
  { intros y. unfold plus1. specialize (Hx y). case_match; lia. }
  rewrite Hgn. intros fds3 _ Hfe3. apply wp_bind. eapply wp_file_entry; [done|]. intros x ->. apply wp_on_files.
  eapply (wp_kwrite junk ramfs_fstype v file vn n b f d off a r); [done|done|done|done|lia|done|done|done|].
  intros v' f' (Hf0 & Hf & Hrest) _. apply wp_bind. eapply wp_file_entry; [done|]. intros ? ->. apply wp_on_files.
  eapply wp_kseek_set; [done|done|lia|]. apply wp_bind. eapply wp_file_entry; [done|]. intros ? ->. apply wp_on_files.
  assert (0 < length d)%nat by (destruct d; [done|simpl; lia]). pose proof (length_written junk a b d off) as Hlen.
  eapply (wp_kread junk ramfs_fstype _ file vn n (written junk a b d off) (set_offset (Z.of_nat off) f') (length d) off); [|done|lia|lia|lia|].
  - split_and!; try done; [by simpl; rewrite lookup_insert_eq|apply Hrest..].
  - rewrite decide_False by lia. cbv zeta. rewrite Nat.min_l by lia. rewrite read_written, Nat.sub_diag, app_nil_r. by apply wp_ret.
Qed.
End fd_io.

(** Descriptor 1 is the file [/a/f] of the small file system; it is duplicated to
    descriptor 0, and two bytes go to its end. *)
Lemma fd_shared_offset_witness :
  let ops := ramfs_ops (λ _, 0) 1000 in
  wp (dup ← on_fds (fdtable_dup2 3 8 1 0);
      e1 ← on_fds (fdtable_get 3 8 1); e2 ← on_fds (fdtable_get 3 8 0);
      w ← @fd_write _ ops e1 [7; 8] 2; o ← fd_seek e2 3 SEEK_SET; g ← @fd_read _ ops e1 2; mret (dup, w, o, g))
    (λ res _, res = (0, 2, 3, (2, Some [7; 8]))) (demo_fds_of 60, demo).
Proof.
  refine (fd_shared_offset 3 (λ _, 0) 1000 (demo_fds_of 60) demo 8 [0; 40] demo_ext 1 0 60 41 12 [1; 2; 3] demo_handle [7; 8] 3 100 (tail (allocs demo))
    (demo_fds_of_rep 60) demo_ext_small _ _ demo_open eq_refl _ _ _ eq_refl _ eq_refl).
  - split; [done|]. eexists. split; [reflexivity|done].
  - vm_compute. done.
  - done.
  - vm_compute. done.
  - vm_compute. done.
  - done.
Defined.
Lemma fd_io_refused_witness :
  let ops := ramfs_ops (λ _, 0) 1000 in
  @fd_write _ ops 0 [7] 1 (demo_fds_of 60, demo) = Done (- EINVAL, (demo_fds_of 60, demo)).
Proof. intros ops. by destruct (fd_io_refused (λ _, 0) 1000 (demo_fds_of 60) demo 0 zero_entry [7] 1 0 SEEK_SET (or_introl eq_refl)) as (_ & H & _). Defined.
