(* ===== verification/Irq.v ===== *)
(** Interrupt routing: [src/kernel/src/arch/interrupts/irq.c], the per-CPU
    handler table of [isr.c], and the interrupt controllers of [apic.c].

    Function pointers are numbers, 0 being NULL. The register file of an IOAPIC
    (reached through its index and data words) is memory: a read gives what the
    last write left. *)
From S2P Require Import Prelude Sync.

Definition IRQ_VECTOR_MIN : Z := 0x20.
Definition IRQ_VECTOR_MAX : Z := 0xEF.
Definition IOAPIC_REG_VER : Z := 0x01.
Definition IOAPIC_REG_TABLE_BASE : Z := 0x10.
Definition IOAPIC_REDIR_VECTOR_MASK : Z := 0xFF.
Definition IOAPIC_REDIR_POLARITY : Z := 2 ^ 13.
Definition IOAPIC_REDIR_TRIGGER : Z := 2 ^ 15.
Definition IOAPIC_REDIR_MASK : Z := 2 ^ 16.
Definition APIC_LVT_MASKED : Z := 2 ^ 16.
Definition MAX_IOAPICS : nat := 8.
Definition MAX_ISO : nat := 16.

(** * Data *)

(** [irq_domain_t *], other than NULL. *)
Inductive domain_id := IOAPIC | LAPIC.
#[global] Instance domain_id_eq_dec : EqDecision domain_id.
Proof. solve_decision. Defined.

(** [irq_desc_t] *)
Record irq_desc_t := mkDesc {
  irq : Z;
  hwirq : Z;
  vector : Z;
  handler : Z;
  data : Z;
  name : Z;
  domain : option domain_id;
  enabled : bool;
}.
Definition zero_desc : irq_desc_t := mkDesc 0 0 0 0 0 0 None false.

(** [irq_domain_t]: [ops] is set by [irq_init] and then selects the functions
    named after the domain; [hwirq_to_irq] is [None] when NULL. *)
Record irq_domain_t := mkDomain {
  ops : bool;
  max_hwirq : Z;
  hwirq_to_irq : option (list Z);
}.

(** [isr_t], less its unused links. *)
Record isr_t := mkIsr { isr_handler : Z; isr_eoi : Z; id : Z }.
Definition zero_isr : isr_t := mkIsr 0 0 0.

(** [kernel_info.ioapic] *)
Record ioapic_entry := mkIoapic { io_id : Z; gsi_base : Z; phys_addr : Z }.
Record iso_entry := mkIso { source : Z; gsi : Z; iso_flags : Z }.

Record irq_state := mkIrq {
  lk : spinlock_t;
  irq_descs : list irq_desc_t;
  vector_used : list Z;
  ioapic_domain : irq_domain_t;
  lapic_domain : irq_domain_t;
  isrs : list isr_t;                (* isr[256] of the running CPU *)
  ioapics : list ioapic_entry;
  iso_table : list iso_entry;
  regs : gmap (Z * Z) Z;            (* the registers of the IOAPIC at an address *)
  lapic_virt : Z;
  lapic_id : Z;                     (* what LAPIC_REG_ID reads *)
  eois : Z;                         (* writes to LAPIC_REG_EOI so far *)
}.

Definition set_lk v s := mkIrq v (irq_descs s) (vector_used s) (ioapic_domain s) (lapic_domain s) (isrs s)
  (ioapics s) (iso_table s) (regs s) (lapic_virt s) (lapic_id s) (eois s).
Definition set_descs v s := mkIrq (lk s) v (vector_used s) (ioapic_domain s) (lapic_domain s) (isrs s)
  (ioapics s) (iso_table s) (regs s) (lapic_virt s) (lapic_id s) (eois s).
Definition set_used v s := mkIrq (lk s) (irq_descs s) v (ioapic_domain s) (lapic_domain s) (isrs s)
  (ioapics s) (iso_table s) (regs s) (lapic_virt s) (lapic_id s) (eois s).
Definition set_domain (d : domain_id) v s := match d with
  | IOAPIC => mkIrq (lk s) (irq_descs s) (vector_used s) v (lapic_domain s) (isrs s)
      (ioapics s) (iso_table s) (regs s) (lapic_virt s) (lapic_id s) (eois s)
  | LAPIC => mkIrq (lk s) (irq_descs s) (vector_used s) (ioapic_domain s) v (isrs s)
      (ioapics s) (iso_table s) (regs s) (lapic_virt s) (lapic_id s) (eois s)
  end.
Definition get_domain (d : domain_id) s := match d with IOAPIC => ioapic_domain s | LAPIC => lapic_domain s end.
Definition set_isrs v s := mkIrq (lk s) (irq_descs s) (vector_used s) (ioapic_domain s) (lapic_domain s) v
  (ioapics s) (iso_table s) (regs s) (lapic_virt s) (lapic_id s) (eois s).
Definition set_regs v s := mkIrq (lk s) (irq_descs s) (vector_used s) (ioapic_domain s) (lapic_domain s) (isrs s)
  (ioapics s) (iso_table s) v (lapic_virt s) (lapic_id s) (eois s).
Definition set_eois v s := mkIrq (lk s) (irq_descs s) (vector_used s) (ioapic_domain s) (lapic_domain s) (isrs s)
  (ioapics s) (iso_table s) (regs s) (lapic_virt s) (lapic_id s) v.

(** [a[i]] of an array, which faults out of its bounds. *)
Definition arr_read {A} (get : irq_state → list A) (i : Z) : M irq_state A := λ s,
  match get s !! Z.to_nat i with Some x => Done (x, s) | None => Fault end.
Definition arr_write {A} (get : irq_state → list A) (set : list A → irq_state → irq_state) (i : Z) (x : A)
    : M irq_state unit := λ s,
  match get s !! Z.to_nat i with
  | Some _ => Done (tt, set (<[Z.to_nat i := x]> (get s)) s)
  | None => Fault
  end.

Section irq.
(** The running CPU, and what the handler functions do. *)
Context (me : Z) (call : Z → Z → Z → M irq_state unit).

Definition acquire : M irq_state unit := zoom lk set_lk (lock_acquire me).
Definition release : M irq_state unit := zoom lk set_lk (lock_release me).

(** * The handler table of a CPU ([isr.c]) *)

Definition register_interrupt (vec func eoi : Z) : M irq_state unit :=
  arr_write isrs set_isrs vec (mkIsr func eoi (Z.lor (Z.shiftl me 32) vec)).

Definition unregister_interrupt (vec : Z) : M irq_state unit :=
  arr_write isrs set_isrs vec zero_isr.

(** The search of [allocate_interrupt]; it yields the index of the slot. *)
Definition allocate_round (func eoi : Z) (i : Z) : M irq_state (Z + option Z) :=
  if i <? 256 then
    x ← arr_read isrs i;
    if isr_handler x =? 0 then register_interrupt i func eoi ;; mret (inr (Some i))
    else mret (inl (i + 1))
  else mret (inr None).
Definition allocate_interrupt (func eoi : Z) : M irq_state (option Z) :=
  loop 257 (allocate_round func eoi) 0.

(** * The interrupt controllers ([apic.c]) *)

Definition ioapic_write (io : ioapic_entry) (reg val : Z) : M irq_state unit :=
  modify (λ s, set_regs (<[(phys_addr io, u8 reg) := val]> (regs s)) s).
Definition ioapic_read (io : ioapic_entry) (reg : Z) : M irq_state Z :=
  gets (λ s, default 0 (regs s !! (phys_addr io, u8 reg))).

(** The [gsi] and the flags of an ISA source. *)
Fixpoint iso_search (src : Z) (l : list iso_entry) : Z * Z :=
  match l with
  | [] => (src, 0)
  | x :: l => if source x =? src then (gsi x, iso_flags x) else iso_search src l
  end.
Definition apic_lookup_iso (src : Z) : M irq_state (Z * Z) := gets (λ s, iso_search src (iso_table s)).

(** The IOAPIC and the pin of a [gsi]. *)
Fixpoint ioapic_search (g : Z) (l : list ioapic_entry) : M irq_state (option (ioapic_entry * Z)) :=
  match l with
  | [] => mret None
  | io :: l =>
      ver ← ioapic_read io IOAPIC_REG_VER;
      let max_redir := Z.land (Z.shiftr ver 16) 0xFF in
      let base := gsi_base io in
      if (base <=? g) && (g <=? u32 (base + max_redir)) then mret (Some (io, u32 (g - base)))
      else ioapic_search g l
  end.
Definition apic_ioapic_for_gsi (g : Z) : M irq_state (option (ioapic_entry * Z)) :=
  l ← gets ioapics; ioapic_search g l.

Definition apic_get_lapic_id : M irq_state Z :=
  gets (λ s, if lapic_virt s =? 0 then 0 else Z.shiftr (lapic_id s) 24).

Definition apic_eoi : M irq_state unit :=
  v ← gets lapic_virt;
  when (negb (v =? 0)) (modify (λ s, set_eois (eois s + 1) s)).

Definition apic_route_irq (src vec : Z) : M irq_state unit :=
  p ← apic_lookup_iso src;
  let '(g, fl) := p in
  r ← apic_ioapic_for_gsi g;
  match r with
  | None => mret tt
  | Some (io, pin) =>
      let low := Z.land vec IOAPIC_REDIR_VECTOR_MASK in
      let polarity := Z.land fl 0x3 in
      let trigger := Z.land fl 0xC in
      let low := if polarity =? 0x3 then Z.lor low IOAPIC_REDIR_POLARITY else low in
      let low := if trigger =? 0xC then Z.lor low IOAPIC_REDIR_TRIGGER else low in
      lid ← apic_get_lapic_id;
      let high := Z.shiftl (Z.land lid 0xFF) 24 in
      let reg := u8 (IOAPIC_REG_TABLE_BASE + u8 (pin * 2)) in
      ioapic_write io (reg + 1) high ;;
      ioapic_write io reg low
  end.

Definition apic_mask_irq (src : Z) : M irq_state unit :=
  p ← apic_lookup_iso src;
  let '(g, fl) := p in
  r ← apic_ioapic_for_gsi g;
  match r with
  | None => mret tt
  | Some (io, pin) =>
      let reg := u8 (IOAPIC_REG_TABLE_BASE + u8 (pin * 2)) in
      low ← ioapic_read io reg;
      ioapic_write io reg (Z.lor low IOAPIC_REDIR_MASK)
  end.

Definition mask_pin (io : ioapic_entry) (pin : Z) : M irq_state unit :=
  let reg := u8 (IOAPIC_REG_TABLE_BASE + u8 (pin * 2)) in
  ioapic_write io reg (Z.lor APIC_LVT_MASKED 0x20) ;;
  ioapic_write io (reg + 1) 0.

Definition ioapic_mask_all : M irq_state unit :=
  l ← gets ioapics;
  for_each l (λ io,
    ver ← ioapic_read io IOAPIC_REG_VER;
    let max_redir := Z.land (Z.shiftr ver 16) 0xFF in
    for_n 0 (Z.to_nat (max_redir + 1)) (mask_pin io)).

(** * Vectors and domains ([irq.c]) *)

Definition vector_round (v : Z) : M irq_state (Z + option Z) :=
  if v <=? IRQ_VECTOR_MAX then
    u ← arr_read vector_used v;
    if u =? 0 then arr_write vector_used set_used v 1 ;; mret (inr (Some (u8 v)))
    else mret (inl (v + 1))
  else mret (inr None).

(** [vector_alloc]: the vector, or [None] when it returns -1. *)
Definition vector_alloc : M irq_state (option Z) := loop 209 vector_round IRQ_VECTOR_MIN.

Definition vector_free (vec : Z) : M irq_state unit :=
  when ((IRQ_VECTOR_MIN <=? vec) && (vec <=? IRQ_VECTOR_MAX)) (arr_write vector_used set_used vec 0).

(** The two [alloc] functions: the interrupt number is the vector. *)
Definition ioapic_domain_alloc : M irq_state (option (Z * Z)) :=
  v ← vector_alloc; mret (match v with None => None | Some v => Some (v, v) end).
Definition lapic_domain_alloc : M irq_state (option (Z * Z)) :=
  v ← vector_alloc; mret (match v with None => None | Some v => Some (v, v) end).

Definition ioapic_domain_free (vec : Z) : M irq_state unit := vector_free vec.
Definition lapic_domain_free (vec : Z) : M irq_state unit := vector_free vec.

Definition ioapic_domain_enable (hw vec : Z) : M irq_state unit :=
  p ← apic_lookup_iso (u8 hw);
  let '(g, fl) := p in
  r ← apic_ioapic_for_gsi g;
  match r with
  | None => mret tt
  | Some (io, pin) =>
      let low := Z.land vec IOAPIC_REDIR_VECTOR_MASK in
      let polarity := Z.land fl 0x3 in
      let trigger := Z.land fl 0xC in
      let low := if polarity =? 0x3 then Z.lor low IOAPIC_REDIR_POLARITY else low in
      let low := if trigger =? 0xC then Z.lor low IOAPIC_REDIR_TRIGGER else low in
      lid ← apic_get_lapic_id;
      let high := Z.shiftl (Z.land lid 0xFF) 24 in
      let reg := u8 (IOAPIC_REG_TABLE_BASE + u8 (pin * 2)) in
      ioapic_write io (reg + 1) high ;;
      ioapic_write io reg low
  end.

Definition ioapic_domain_disable (hw vec : Z) : M irq_state unit :=
  p ← apic_lookup_iso (u8 hw);
  let '(g, fl) := p in
  r ← apic_ioapic_for_gsi g;
  match r with
  | None => mret tt
  | Some (io, pin) =>
      let reg := u8 (IOAPIC_REG_TABLE_BASE + u8 (pin * 2)) in
      low ← ioapic_read io reg;
      ioapic_write io reg (Z.lor low IOAPIC_REDIR_MASK)
  end.

Definition ioapic_domain_eoi : M irq_state unit := apic_eoi.
Definition lapic_domain_enable (hw vec : Z) : M irq_state unit := mret tt.
Definition lapic_domain_disable (hw vec : Z) : M irq_state unit := mret tt.
Definition lapic_domain_eoi : M irq_state unit := apic_eoi.

(** The calls through [domain->ops]. *)
Definition ops_alloc (d : domain_id) := match d with IOAPIC => ioapic_domain_alloc | LAPIC => lapic_domain_alloc end.
Definition ops_free (d : domain_id) := match d with IOAPIC => ioapic_domain_free | LAPIC => lapic_domain_free end.
Definition ops_enable (d : domain_id) := match d with IOAPIC => ioapic_domain_enable | LAPIC => lapic_domain_enable end.
Definition ops_disable (d : domain_id) := match d with IOAPIC => ioapic_domain_disable | LAPIC => lapic_domain_disable end.
Definition ops_eoi (d : domain_id) := match d with IOAPIC => ioapic_domain_eoi | LAPIC => lapic_domain_eoi end.

(** [desc->domain && desc->domain->ops], the functions of which are never NULL. *)
Definition has_ops (d : irq_desc_t) (s : irq_state) : option domain_id :=
  match domain d with Some x => if ops (get_domain x s) then Some x else None | None => None end.

Definition dispatch_eoi (vec : Z) : M irq_state unit :=
  d ← arr_read irq_descs vec;
  o ← gets (has_ops d);
  match o with Some x => ops_eoi x | None => apic_eoi end.

Definition irq_dispatch (self_id : Z) : M irq_state unit :=
  let vec := u8 (Z.land self_id 0xFF) in
  d ← arr_read irq_descs vec;
  if handler d =? 0 then dispatch_eoi vec
  else call (handler d) (irq d) (data d) ;; dispatch_eoi vec.

(** The address of [irq_dispatch]. *)
Definition irq_dispatch_ptr : Z := 1.

(** [irq_init]; [mem]: whether [kzalloc] returns memory, which the code then
    writes to without a check. *)
Definition irq_init (mem : bool) : M irq_state unit :=
  acquire ;;
  modify (set_descs (replicate 256 zero_desc)) ;;
  modify (set_used (replicate 256 0)) ;;
  for_n 0 (Z.to_nat IRQ_VECTOR_MIN) (λ v, arr_write vector_used set_used v 1) ;;
  for_n (IRQ_VECTOR_MAX + 1) (Z.to_nat (256 - (IRQ_VECTOR_MAX + 1))) (λ v, arr_write vector_used set_used v 1) ;;
  (if mem then modify (set_domain IOAPIC (mkDomain true 256 (Some (replicate 256 0)))) else fault) ;;
  modify (set_domain LAPIC (mkDomain true 1 None)) ;;
  release.

Definition domain_ops (d : domain_id) : M irq_state unit :=
  o ← gets (get_domain d); if ops o then mret tt else fault.

(** [domain->hwirq_to_irq[hwirq] = v], when [hwirq] is in range. *)
Definition map_hwirq (d : domain_id) (hw v : Z) : M irq_state unit :=
  o ← gets (get_domain d);
  if hw <? max_hwirq o then
    match hwirq_to_irq o with
    | Some m =>
        if bool_decide (is_Some (m !! Z.to_nat hw))
        then modify (set_domain d (mkDomain (ops o) (max_hwirq o) (Some (<[Z.to_nat hw := v]> m))))
        else fault
    | None => fault
    end
  else mret tt.

Definition irq_request (hw h dat nm : Z) : M irq_state Z :=
  if h =? 0 then mret (-1) else
  acquire ;;
  domain_ops IOAPIC ;;
  r ← ops_alloc IOAPIC;
  match r with
  | None => release ;; mret (-1)
  | Some (i, vec) =>
      arr_read irq_descs vec ;;
      arr_write irq_descs set_descs vec (mkDesc i hw vec h dat nm (Some IOAPIC) true) ;;
      map_hwirq IOAPIC hw i ;;
      register_interrupt vec irq_dispatch_ptr 0 ;;
      ops_enable IOAPIC hw vec ;;
      release ;;
      mret i
  end.

Definition irq_request_local (h dat nm : Z) : M irq_state Z :=
  if h =? 0 then mret (-1) else
  acquire ;;
  domain_ops LAPIC ;;
  r ← ops_alloc LAPIC;
  match r with
  | None => release ;; mret (-1)
  | Some (i, vec) =>
      arr_read irq_descs vec ;;
      arr_write irq_descs set_descs vec (mkDesc i 0 vec h dat nm (Some LAPIC) true) ;;
      register_interrupt vec irq_dispatch_ptr 0 ;;
      release ;;
      mret i
  end.

Definition irq_free (i : Z) : M irq_state unit :=
  if 256 <=? i then mret tt else
  acquire ;;
  d ← arr_read irq_descs i;
  match domain d with
  | None => release
  | Some x =>
      if handler d =? 0 then release else
      domain_ops x ;;
      ops_disable x (hwirq d) (vector d) ;;
      ops_free x (vector d) ;;
      map_hwirq x (hwirq d) 0 ;;
      unregister_interrupt (vector d) ;;
      arr_write irq_descs set_descs i zero_desc ;;
      release
  end.

Definition set_enabled (b : bool) (d : irq_desc_t) : irq_desc_t :=
  mkDesc (irq d) (hwirq d) (vector d) (handler d) (data d) (name d) (domain d) b.

Definition irq_enable (i : Z) : M irq_state unit :=
  if 256 <=? i then mret tt else
  d ← arr_read irq_descs i;
  o ← gets (has_ops d);
  match o with
  | Some x => ops_enable x (hwirq d) (vector d) ;; arr_write irq_descs set_descs i (set_enabled true d)
  | None => mret tt
  end.

Definition irq_disable (i : Z) : M irq_state unit :=
  if 256 <=? i then mret tt else
  d ← arr_read irq_descs i;
  o ← gets (has_ops d);
  match o with
  | Some x => ops_disable x (hwirq d) (vector d) ;; arr_write irq_descs set_descs i (set_enabled false d)
  | None => mret tt
  end.

(** [irq_get_desc]: the index of the descriptor it points to. *)
Definition irq_get_desc (i : Z) : option Z := if 256 <=? i then None else Some i.
End irq.
