(* ===== verification/IrqTheorems.v ===== *)
(** What the interrupt code promises: vectors are handed out once, freed
    vectors can be handed out again, and lines are routed to their vectors. *)
From S2P Require Import Prelude Sync Irq.

Section irq_proofs.
Context (me : Z).
Implicit Types (s : irq_state).

(** * Steps *)

Lemma wp_arr_read {A} (get : irq_state → list A) i x (Q : A → irq_state → Prop) s :
  get s !! Z.to_nat i = Some x → Q x s → wp (arr_read get i) Q s.
Proof. unfold wp, arr_read. by intros ->. Qed.
Lemma wp_arr_write {A} (get : irq_state → list A) set i x (Q : unit → irq_state → Prop) s :
  (Z.to_nat i < length (get s))%nat → Q tt (set (<[Z.to_nat i := x]> (get s)) s) →
  wp (arr_write get set i x) Q s.
Proof. unfold wp, arr_write. by intros [y ->]%lookup_lt_is_Some_2. Qed.

Lemma wp_irq_acquire (Q : unit → irq_state → Prop) s :
  lk s = unlocked → Q tt (set_lk (held me) s) → wp (acquire me) Q s.
Proof. intros Hl HQ. unfold acquire. wp_pures. rewrite Hl. by apply wp_lock_acquire. Qed.
Lemma wp_irq_release (Q : unit → irq_state → Prop) s :
  lk s = held me → Q tt (set_lk unlocked s) → wp (release me) Q s.
Proof. intros Hl HQ. unfold release. wp_pures. rewrite Hl. by apply wp_lock_release. Qed.

(** * The invariant *)

Definition device_vector (v : Z) : bool := (IRQ_VECTOR_MIN <=? v) && (v <=? IRQ_VECTOR_MAX).

(** Vector [v], its mark [u], descriptor [d] and handler entry [x] agree: a
    vector for devices is free and has no descriptor, or it is taken, its
    descriptor has a handler and a domain and names it, and the CPU's table
    dispatches it. *)
Definition vector_ok (v u : Z) (d : irq_desc_t) (x : isr_t) : Prop :=
  if device_vector v then
    (u = 0 ∧ d = zero_desc) ∨
    (u = 1 ∧ handler d ≠ 0 ∧ irq d = v ∧ vector d = v ∧ is_Some (domain d) ∧
     isr_handler x = irq_dispatch_ptr)
  else u = 1 ∧ d = zero_desc.

Record irq_inv s : Prop := {
  inv_lk : lk s = unlocked;
  inv_isrs : length (isrs s) = 256%nat;
  inv_descs : length (irq_descs s) = 256%nat;
  inv_used : length (vector_used s) = 256%nat;
  inv_ioapic : ops (ioapic_domain s) = true ∧ max_hwirq (ioapic_domain s) = 256 ∧
    ∃ m, hwirq_to_irq (ioapic_domain s) = Some m ∧ length m = 256%nat;
  inv_lapic : lapic_domain s = mkDomain true 1 None;
  inv_vec v u d x : vector_used s !! v = Some u → irq_descs s !! v = Some d → isrs s !! v = Some x →
    vector_ok (Z.of_nat v) u d x;
}.

(** [v] is the lowest free device vector. *)
Definition lowest_free s (v : Z) : Prop :=
  device_vector v = true ∧ vector_used s !! Z.to_nat v = Some 0 ∧
  ∀ w, device_vector w = true → w < v → vector_used s !! Z.to_nat w ≠ Some 0.
Definition no_free s : Prop := ∀ w, device_vector w = true → vector_used s !! Z.to_nat w ≠ Some 0.

(** * Vectors *)

Lemma device_vector_spec v : device_vector v = true ↔ 32 ≤ v ≤ 239.
Proof. unfold device_vector, IRQ_VECTOR_MIN, IRQ_VECTOR_MAX. rewrite andb_true_iff. lia. Qed.

Lemma wp_vector_alloc s (Q : option Z → irq_state → Prop) :
  length (vector_used s) = 256%nat →
  (no_free s → Q None s) →
  (∀ v, lowest_free s v → Q (Some v) (set_used (<[Z.to_nat v := 1]> (vector_used s)) s)) →
  wp vector_alloc Q s.
Proof.
  intros Hlen HQ0 HQ1. unfold vector_alloc.
  apply (wp_loop (λ n v s', s' = s ∧ 32 ≤ v ≤ 240 ∧ n = Z.to_nat (240 - v) ∧
    ∀ w, device_vector w = true → w < v → vector_used s !! Z.to_nat w ≠ Some 0)) with (n := 208%nat); [lia| |].
  { split_and!; [done|done|done|done|]. intros w Hw%device_vector_spec ?. unfold IRQ_VECTOR_MIN in *. lia. }
  intros n v s' (-> & Hv & -> & Hlow). unfold vector_round, IRQ_VECTOR_MAX.
  destruct (v <=? 0xEF) eqn:Hle.
  - apply Z.leb_le in Hle. destruct (lookup_lt_is_Some_2 (vector_used s) (Z.to_nat v)) as [u Hu]; [lia|].
    wp_pures. eapply wp_arr_read; [done|]. destruct (Z.eqb_spec u 0) as [->|Hnz]; wp_pures.
    + apply wp_arr_write; [lia|]. wp_pures. rewrite u8_id by lia. apply HQ1.
      split; [apply device_vector_spec; lia|done].
    + exists (Z.to_nat (240 - (v + 1))). split; [lia|]. split_and!; [done|lia..|].
      intros w Hw Hlt. destruct (decide (w = v)) as [->|]; [congruence|]. apply Hlow; [done|lia].
  - apply Z.leb_gt in Hle. wp_pures. apply HQ0. intros w Hw. apply Hlow; [done|].
    apply device_vector_spec in Hw. lia.
Qed.

(** * Routing *)

(** The IOAPIC whose pins include interrupt [g], and the pin. *)
Definition pins_of s (io : ioapic_entry) : Z :=
  Z.land (Z.shiftr (default 0 (regs s !! (phys_addr io, IOAPIC_REG_VER))) 16) 0xFF.
Fixpoint find_ioapic s (g : Z) (l : list ioapic_entry) : option (ioapic_entry * Z) :=
  match l with
  | [] => None
  | io :: l => if (gsi_base io <=? g) && (g <=? u32 (gsi_base io + pins_of s io))
               then Some (io, u32 (g - gsi_base io)) else find_ioapic s g l
  end.

Lemma wp_ioapic_search g l Q s : Q (find_ioapic s g l) s → wp (ioapic_search g l) Q s.
Proof.
  induction l as [|io l IH]; simpl; intros HQ; [by wp_pures|].
  unfold ioapic_read. wp_pures. fold (pins_of s io). destruct (_ && _); [by wp_pures|by apply IH].
Qed.

(** The line of an ISA source: its IOAPIC, its pin and the MADT flags. *)
Definition line_of s (hw : Z) : option (ioapic_entry * Z * Z) :=
  let '(g, fl) := iso_search (u8 hw) (iso_table s) in
  match find_ioapic s g (ioapics s) with Some (io, pin) => Some (io, pin, fl) | None => None end.

(** The redirection entry of a pin: its two registers. *)
Definition redir_reg (pin : Z) : Z := u8 (IOAPIC_REG_TABLE_BASE + u8 (pin * 2)).
Definition redir_low (vec fl : Z) : Z :=
  let low := Z.land vec 0xFF in
  let low := if Z.land fl 0x3 =? 0x3 then Z.lor low IOAPIC_REDIR_POLARITY else low in
  if Z.land fl 0xC =? 0xC then Z.lor low IOAPIC_REDIR_TRIGGER else low.
Definition redir_high s : Z :=
  Z.shiftl (Z.land (if lapic_virt s =? 0 then 0 else Z.shiftr (lapic_id s) 24) 0xFF) 24.

Definition routed s (hw vec : Z) : gmap (Z * Z) Z :=
  match line_of s hw with
  | Some (io, pin, fl) =>
      <[(phys_addr io, u8 (redir_reg pin)) := redir_low vec fl]>
        (<[(phys_addr io, u8 (redir_reg pin + 1)) := redir_high s]> (regs s))
  | None => regs s
  end.
Definition masked s (hw : Z) : gmap (Z * Z) Z :=
  match line_of s hw with
  | Some (io, pin, _) =>
      <[(phys_addr io, u8 (redir_reg pin)) :=
          Z.lor (default 0 (regs s !! (phys_addr io, u8 (redir_reg pin)))) IOAPIC_REDIR_MASK]> (regs s)
  | None => regs s
  end.

(** Routing reads the controllers and their description, nothing else. *)
Lemma find_ioapic_ext s s' g l : regs s' = regs s → find_ioapic s' g l = find_ioapic s g l.
Proof. intros Hr. induction l as [|io l IH]; simpl; [done|]. unfold pins_of. by rewrite Hr, IH. Qed.
Lemma line_of_ext s s' hw : regs s' = regs s → ioapics s' = ioapics s → iso_table s' = iso_table s →
  line_of s' hw = line_of s hw.
Proof.
  intros H1 H2 H3. unfold line_of. rewrite H2, H3. destruct (iso_search _ _).
  by rewrite (find_ioapic_ext s s').
Qed.
Lemma routed_ext s s' hw v : regs s' = regs s → ioapics s' = ioapics s → iso_table s' = iso_table s →
  lapic_virt s' = lapic_virt s → lapic_id s' = lapic_id s → routed s' hw v = routed s hw v.
Proof. intros H1 H2 H3 H4 H5. unfold routed, redir_high. by rewrite (line_of_ext s s'), H1, H4, H5. Qed.
Lemma masked_ext s s' hw : regs s' = regs s → ioapics s' = ioapics s → iso_table s' = iso_table s →
  masked s' hw = masked s hw.
Proof. intros H1 H2 H3. unfold masked. by rewrite (line_of_ext s s'), H1. Qed.

Lemma set_regs_same s : set_regs (regs s) s = s.
Proof. by destruct s. Qed.

Lemma wp_ioapic_domain_enable hw vec (Q : unit → irq_state → Prop) s :
  Q tt (set_regs (routed s hw vec) s) → wp (ioapic_domain_enable hw vec) Q s.
Proof.
  unfold ioapic_domain_enable, apic_lookup_iso, apic_ioapic_for_gsi, routed, line_of. intros HQ. wp_pures.
  destruct (iso_search (u8 hw) (iso_table s)) as [g fl]. wp_pures. apply wp_ioapic_search.
  destruct (find_ioapic s g (ioapics s)) as [[io pin]|]; [|wp_pures; by rewrite set_regs_same in HQ].
  unfold apic_get_lapic_id, ioapic_write. by wp_pures.
Qed.
Lemma wp_ioapic_domain_disable hw vec (Q : unit → irq_state → Prop) s :
  Q tt (set_regs (masked s hw) s) → wp (ioapic_domain_disable hw vec) Q s.
Proof.
  unfold ioapic_domain_disable, apic_lookup_iso, apic_ioapic_for_gsi, masked, line_of. intros HQ. wp_pures.
  destruct (iso_search (u8 hw) (iso_table s)) as [g fl]. wp_pures. apply wp_ioapic_search.
  destruct (find_ioapic s g (ioapics s)) as [[io pin]|]; [|wp_pures; by rewrite set_regs_same in HQ].
  unfold ioapic_read, ioapic_write. by wp_pures.
Qed.

(** * Keeping the invariant *)

Lemma lowest_free_range s v : lowest_free s v → 32 ≤ v ≤ 239.
Proof. intros (H & _). by apply device_vector_spec. Qed.

(** Changing the entries of one vector. *)
Lemma irq_inv_update s s' v u d x :
  irq_inv s → lk s' = unlocked → (v < 256)%nat →
  vector_used s' = <[v := u]> (vector_used s) → irq_descs s' = <[v := d]> (irq_descs s) →
  isrs s' = <[v := x]> (isrs s) →
  (ops (ioapic_domain s') = true ∧ max_hwirq (ioapic_domain s') = 256 ∧
    ∃ m, hwirq_to_irq (ioapic_domain s') = Some m ∧ length m = 256%nat) →
  lapic_domain s' = lapic_domain s →
  vector_ok (Z.of_nat v) u d x → irq_inv s'.
Proof.
  intros [] Hlk Hv Hu Hd Hx Hio Hla Hok. split; try done.
  - by rewrite Hx, length_insert.
  - by rewrite Hd, length_insert.
  - by rewrite Hu, length_insert.
  - congruence.
  - intros w u' d' x'. rewrite Hu, Hd, Hx. destruct (decide (v = w)) as [<-|].
    + rewrite !list_lookup_insert_eq by lia. intros [= <-] [= <-] [= <-]. done.
    + rewrite !list_lookup_insert_ne by done. apply inv_vec0.
Qed.

Lemma lk_roundtrip s : lk s = unlocked → set_lk unlocked (set_lk (held me) s) = s.
Proof. destruct s; simpl. by intros ->. Qed.
Lemma set_regs_set_lk a b s : set_lk a (set_regs b s) = set_regs b (set_lk a s).
Proof. done. Qed.

(** The entry of the table when [v] has been requested. *)
Definition dispatch_isr (v : Z) : isr_t := mkIsr irq_dispatch_ptr 0 (Z.lor (Z.shiftl me 32) v).

Lemma wp_map_hwirq hw v s (Q : unit → irq_state → Prop) m :
  max_hwirq (ioapic_domain s) = 256 → hwirq_to_irq (ioapic_domain s) = Some m → length m = 256%nat → 0 ≤ hw →
  Q tt (set_domain IOAPIC (mkDomain (ops (ioapic_domain s)) 256 (Some (<[Z.to_nat hw := v]> m))) s) →
  wp (map_hwirq IOAPIC hw v) Q s.
Proof.
  intros Hmax Hm Hlen Hhw HQ. unfold map_hwirq. wp_pures. simpl. rewrite Hm, Hmax.
  destruct (hw <? 256) eqn:Hlt.
  - rewrite bool_decide_eq_true_2 by (apply lookup_lt_is_Some_2; lia). by wp_pures.
  - wp_pures. apply Z.ltb_ge in Hlt. rewrite list_insert_ge in HQ by lia.
    replace s with (set_domain IOAPIC (mkDomain (ops (ioapic_domain s)) 256 (Some m)) s); [done|].
    rewrite <-Hmax, <-Hm. destruct s as [? ? ? [] ? ? ? ? ? ? ? ?]; done.
Qed.

(** What a request leaves behind when it was given vector [r]. *)
Definition requested s s' (r hw h dat nm : Z) (dom : domain_id) : Prop :=
  lowest_free s r ∧
  vector_used s' = <[Z.to_nat r := 1]> (vector_used s) ∧
  irq_descs s' = <[Z.to_nat r := mkDesc r hw r h dat nm (Some dom) true]> (irq_descs s) ∧
  isrs s' = <[Z.to_nat r := dispatch_isr r]> (isrs s) ∧ eois s' = eois s.

(** The state after it: the vector is taken and described, the line leads to it, the
    CPU dispatches it and the controller sends it. *)
Definition put_line (hw v : Z) s : irq_state :=
  set_domain IOAPIC (mkDomain (ops (ioapic_domain s)) (max_hwirq (ioapic_domain s)) ((λ m, <[Z.to_nat hw := v]> m) <$> hwirq_to_irq (ioapic_domain s))) s.
Definition granted s (v hw h dat nm : Z) : irq_state :=
  set_regs (routed s hw v) (set_isrs (<[Z.to_nat v := dispatch_isr v]> (isrs s)) (put_line hw v
    (set_descs (<[Z.to_nat v := mkDesc v hw v h dat nm (Some IOAPIC) true]> (irq_descs s)) (set_used (<[Z.to_nat v := 1]> (vector_used s)) s)))).
Lemma wp_irq_request_run s hw h dat nm (Q : Z → irq_state → Prop) :
  irq_inv s → h ≠ 0 → 0 ≤ hw < 2 ^ 32 → (no_free s → Q (-1) s) → (∀ v, lowest_free s v → Q v (granted s v hw h dat nm)) →
  wp (irq_request me hw h dat nm) Q s.
Proof.
  intros Hinv Hh Hhw H0 H1. pose proof Hinv as [Hlk Hisr Hdesc Hused (Hops & Hmax & m & Hm & Hlm) Hla Hvec].
  unfold irq_request. apply Z.eqb_neq in Hh as Hhb. rewrite Hhb. wp_pures. apply wp_irq_acquire; [done|].
  wp_pures. unfold domain_ops. wp_pures. simpl. rewrite Hops. wp_pures. unfold ioapic_domain_alloc. wp_pures.
  apply wp_vector_alloc; [done| |]; simpl.
  { intros Hno. wp_pures. apply wp_irq_release; [done|]. wp_pures. rewrite lk_roundtrip by done. auto. }
  intros v Hv. pose proof (lowest_free_range _ _ Hv) as Hr. wp_pures.
  destruct (lookup_lt_is_Some_2 (irq_descs s) (Z.to_nat v)) as [d Hd]; [lia|].
  eapply wp_arr_read; [done|]. wp_pures. apply wp_arr_write; [simpl; lia|]. wp_pures.
  eapply wp_map_hwirq; [done..|lia|]. wp_pures. unfold register_interrupt.
  apply wp_arr_write; [simpl; lia|]. wp_pures. apply wp_ioapic_domain_enable. wp_pures.
  apply wp_irq_release; [done|]. wp_pures. specialize (H1 v Hv). unfold granted, put_line in H1. simpl in *. rewrite Hmax, Hm in H1.
  rewrite (routed_ext s) by done. destruct s; simpl in *; subst. exact H1.
Qed.
Lemma granted_inv s v hw h dat nm : irq_inv s → h ≠ 0 → lowest_free s v → irq_inv (granted s v hw h dat nm).
Proof.
  intros Hinv Hh Hv. pose proof (lowest_free_range _ _ Hv) as Hr. pose proof Hinv as [_ _ _ _ (Hops & Hmax & m & Hm & Hlm) _ _].
  eapply (irq_inv_update s _ (Z.to_nat v)); [done|apply Hinv|lia|done|done|done| |done|].
  - simpl. split_and!; [done..|]. rewrite Hm. eexists. split; [done|]. by rewrite length_insert.
  - unfold vector_ok. rewrite Z2Nat.id by lia. rewrite (proj2 (device_vector_spec v)) by lia. right. by eauto 10.
Qed.
Lemma wp_irq_request s hw h dat nm :
  irq_inv s → h ≠ 0 → 0 ≤ hw < 2 ^ 32 →
  wp (irq_request me hw h dat nm) (λ r s', irq_inv s' ∧
    ((r = -1 ∧ no_free s ∧ s' = s) ∨
     (requested s s' r hw h dat nm IOAPIC ∧ regs s' = routed s hw r ∧
      (hw < 256 → ∃ m, hwirq_to_irq (ioapic_domain s') = Some m ∧ m !! Z.to_nat hw = Some r)))) s.
Proof.
  intros Hinv Hh Hhw. apply wp_irq_request_run; [done|done|done|by auto|]. intros v Hv. split; [by apply granted_inv|]. right.
  split; [exact (conj Hv (conj eq_refl (conj eq_refl (conj eq_refl eq_refl))))|]. split; [done|]. intros Hlt.
  pose proof Hinv as [_ _ _ _ (_ & _ & m & Hm & Hlm) _ _]. simpl. rewrite Hm. eexists. split; [done|]. apply list_lookup_insert_eq. lia.
Qed.

Lemma wp_irq_request_local s h dat nm :
  irq_inv s → h ≠ 0 →
  wp (irq_request_local me h dat nm) (λ r s', irq_inv s' ∧
    ((r = -1 ∧ no_free s ∧ s' = s) ∨ (requested s s' r 0 h dat nm LAPIC ∧ regs s' = regs s))) s.
Proof.
  intros Hinv Hh. pose proof Hinv as [Hlk Hisr Hdesc Hused Hio Hla Hvec].
  unfold irq_request_local. apply Z.eqb_neq in Hh as Hhb. rewrite Hhb. wp_pures. apply wp_irq_acquire; [done|].
  wp_pures. unfold domain_ops. wp_pures. simpl. rewrite Hla. simpl. wp_pures. unfold lapic_domain_alloc. wp_pures.
  apply wp_vector_alloc; [done| |]; simpl.
  { intros Hno. wp_pures. apply wp_irq_release; [done|]. wp_pures. rewrite lk_roundtrip by done. auto. }
  intros v Hv. pose proof (lowest_free_range _ _ Hv) as Hr. wp_pures.
  destruct (lookup_lt_is_Some_2 (irq_descs s) (Z.to_nat v)) as [d Hd]; [lia|].
  eapply wp_arr_read; [done|]. wp_pures. apply wp_arr_write; [simpl; lia|]. wp_pures.
  unfold register_interrupt. apply wp_arr_write; [simpl; lia|]. wp_pures.
  apply wp_irq_release; [done|]. wp_pures. simpl. split.
  - eapply (irq_inv_update s _ (Z.to_nat v)); [done|done|lia|done|done|done|done|done|].
    unfold vector_ok. rewrite Z2Nat.id by lia. rewrite (proj2 (device_vector_spec v)) by lia. right. by eauto 10.
  - right. split; [|done]. exact (conj Hv (conj eq_refl (conj eq_refl (conj eq_refl eq_refl)))).
Qed.

(** ** Initialisation *)

(** The loops that reserve a range of vectors. *)
Lemma wp_mark_vectors lo n s (Q : unit → irq_state → Prop) :
  (Z.to_nat lo + n ≤ length (vector_used s))%nat → 0 ≤ lo →
  Q tt (set_used (take (Z.to_nat lo) (vector_used s) ++ replicate n 1 ++
                  drop (Z.to_nat lo + n) (vector_used s)) s) →
  wp (for_n lo n (λ v, arr_write vector_used set_used v 1)) Q s.
Proof.
  revert lo s. induction n as [|n IH]; intros lo s Hlen Hlo HQ; simpl.
  { wp_pures. simpl in HQ. rewrite Nat.add_0_r, take_drop in HQ. by destruct s. }
  wp_pures. apply wp_arr_write; [lia|]. apply IH; simpl; rewrite ?length_insert; [lia|lia|].
  replace (Z.to_nat (lo + 1)) with (S (Z.to_nat lo)) by lia.
  rewrite drop_insert_lt by lia.
  rewrite (take_S_r _ _ 1) by (apply list_lookup_insert_eq; lia).
  rewrite take_insert_ge by lia. rewrite <-app_assoc.
  replace (S (Z.to_nat lo) + n)%nat with (Z.to_nat lo + S n)%nat by lia. exact HQ.
Qed.

Lemma wp_irq_init s :
  lk s = unlocked → length (isrs s) = 256%nat →
  wp (irq_init me true) (λ _ s', irq_inv s' ∧
    (∀ v, device_vector v = true → vector_used s' !! Z.to_nat v = Some 0) ∧
    isrs s' = isrs s ∧ regs s' = regs s ∧ eois s' = eois s) s.
Proof.
  intros Hlk Hisr. unfold irq_init. wp_pures. apply wp_irq_acquire; [done|]. wp_pures.
  apply wp_mark_vectors; [change (length (vector_used _)) with 256%nat; vm_compute; lia|lia|].
  wp_pures. apply wp_mark_vectors.
  { change (length (vector_used _)) with 256%nat. vm_compute. lia. }
  { unfold IRQ_VECTOR_MAX. lia. }
  wp_pures. apply wp_irq_release; [reflexivity|]. match goal with |- irq_inv ?x ∧ _ => set (s' := x) end.
  assert (∀ v : nat, (v < 256)%nat →
    vector_used s' !! v = Some (if device_vector (Z.of_nat v) then 0 else 1)) as Hu.
  { change (vector_used s') with (replicate 32 1 ++ replicate 208 0 ++ replicate 16 1).
    intros v Hv. do 256 (destruct v as [|v]; [reflexivity|]). lia. }
  assert (irq_descs s' = replicate 256 zero_desc) as Hd by reflexivity.
  split_and!; [|intros v Hv|reflexivity..].
  - split; [reflexivity|done|reflexivity..| |reflexivity|].
    + split_and!; [reflexivity..|]. eexists. split; reflexivity.
    + intros v u d x. rewrite Hd. intros Hu' [-> Hv]%lookup_replicate Hx. rewrite (Hu v Hv) in Hu'.
      injection Hu' as <-. unfold vector_ok. destruct (device_vector (Z.of_nat v)); [by left|done].
  - apply device_vector_spec in Hv as Hr. specialize (Hu (Z.to_nat v)).
    rewrite Z2Nat.id, Hv in Hu by lia. apply Hu. lia.
Qed.

(** [irq_init] leaves every device vector free. A request with a handler
    then takes the lowest free device vector, or returns -1 and changes nothing
    when all 208 are taken; it fills that vector's descriptor, has the CPU
    dispatch it and, for a device line, programs the IOAPIC. No other vector,
    descriptor or handler changes, so that two requests never share a vector. *)
Theorem irq_request_spec s s0 hw h dat nm :
  lk s0 = unlocked → length (isrs s0) = 256%nat → irq_inv s → h ≠ 0 → 0 ≤ hw < 2 ^ 32 →
  wp (irq_init me true) (λ _ s', irq_inv s' ∧
    ∀ v, device_vector v = true → vector_used s' !! Z.to_nat v = Some 0) s0 ∧
  wp (irq_request me hw h dat nm) (λ r s', irq_inv s' ∧
    ((r = -1 ∧ no_free s ∧ s' = s) ∨
     (requested s s' r hw h dat nm IOAPIC ∧ regs s' = routed s hw r ∧
      (hw < 256 → ∃ m, hwirq_to_irq (ioapic_domain s') = Some m ∧ m !! Z.to_nat hw = Some r)))) s ∧
  wp (irq_request_local me h dat nm) (λ r s', irq_inv s' ∧
    ((r = -1 ∧ no_free s ∧ s' = s) ∨ (requested s s' r 0 h dat nm LAPIC ∧ regs s' = regs s))) s.
Proof.
  intros. split_and!; [|by apply wp_irq_request|by apply wp_irq_request_local].
  eapply wp_mono; [by apply wp_irq_init|]. intros [] s' (? & ? & _). done.
Qed.

(** * Freeing *)

(** The state after freeing: the vector can be handed out again, the line is masked
    and leads to no vector, and the CPU does not dispatch the vector. *)
Definition given_back s (v hw : Z) : irq_state :=
  set_regs (masked s hw) (set_isrs (<[Z.to_nat v := zero_isr]> (isrs s)) (put_line hw 0
    (set_descs (<[Z.to_nat v := zero_desc]> (irq_descs s)) (set_used (<[Z.to_nat v := 0]> (vector_used s)) s)))).
Lemma wp_irq_free_run s i d (Q : unit → irq_state → Prop) :
  irq_inv s → irq_descs s !! Z.to_nat i = Some d → 0 ≤ i → 0 ≤ hwirq d → domain d ≠ Some LAPIC →
  (handler d = 0 → Q tt s) → (handler d ≠ 0 → device_vector i = true → Q tt (given_back s i (hwirq d))) → wp (irq_free me i) Q s.
Proof.
  intros Hinv Hd Hi Hhw Hdom H0 H1. pose proof Hinv as [Hlk Hisr Hdesc Hused (Hops & Hmax & m & Hm & Hlm) Hla Hvec].
  assert (i < 256) as Hi2 by (apply lookup_lt_Some in Hd; lia).
  destruct (lookup_lt_is_Some_2 (vector_used s) (Z.to_nat i)) as [u Hu]; [lia|].
  destruct (lookup_lt_is_Some_2 (isrs s) (Z.to_nat i)) as [x Hx]; [lia|].
  pose proof (Hvec _ _ _ _ Hu Hd Hx) as Hok. rewrite Z2Nat.id in Hok by lia. unfold vector_ok in Hok.
  unfold irq_free. assert (256 <=? i = false) as -> by lia. wp_pures. apply wp_irq_acquire; [done|]. wp_pures.
  eapply wp_arr_read; [done|].
  assert (handler d = 0 ∧ domain d = None ∨ device_vector i = true ∧ handler d ≠ 0 ∧ vector d = i ∧ domain d = Some IOAPIC)
    as [[Hh Hn]|(Hdv & Hh & Hvi & Hn)].
  { destruct (device_vector i); [|left; by destruct Hok as [_ ->]].
    destruct Hok as [[_ ->]|(_ & ? & _ & ? & [[] Hs] & _)]; [by left|right; done|congruence]. }
  { rewrite Hn. simpl. apply wp_irq_release; [done|]. wp_pures. rewrite lk_roundtrip by done. by apply H0. }
  apply device_vector_spec in Hdv as Hrange. apply Z.eqb_neq in Hh as Hhb. rewrite Hn, Hhb, Hvi.
  unfold domain_ops. wp_pures. simpl. rewrite Hops. wp_pures. apply wp_ioapic_domain_disable. wp_pures.
  unfold ioapic_domain_free, vector_free. apply wp_when; [intros _|unfold device_vector in Hdv; congruence].
  apply wp_arr_write; [simpl; lia|]. wp_pures. eapply wp_map_hwirq; [done..|]. wp_pures.
  unfold unregister_interrupt. apply wp_arr_write; [simpl; lia|]. wp_pures.
  apply wp_arr_write; [simpl; lia|]. wp_pures. apply wp_irq_release; [done|].
  specialize (H1 Hh Hdv). unfold given_back, put_line in H1. simpl in *. rewrite Hmax, Hm in H1.
  rewrite (masked_ext s) by done. destruct s; simpl in *; subst. exact H1.
Qed.
Lemma given_back_inv s v hw : irq_inv s → device_vector v = true → irq_inv (given_back s v hw).
Proof.
  intros Hinv Hdv. apply device_vector_spec in Hdv as Hr. pose proof Hinv as [_ _ _ _ (Hops & Hmax & m & Hm & Hlm) _ _].
  eapply (irq_inv_update s _ (Z.to_nat v)); [done|apply Hinv|lia|done|done|done| |done|].
  - simpl. split_and!; [done..|]. rewrite Hm. eexists. split; [done|]. by rewrite length_insert.
  - unfold vector_ok. rewrite Z2Nat.id by lia. rewrite Hdv. by left.
Qed.
Lemma wp_irq_free s i d :
  irq_inv s → irq_descs s !! Z.to_nat i = Some d → 0 ≤ i → 0 ≤ hwirq d → domain d ≠ Some LAPIC →
  wp (irq_free me i) (λ _ s', irq_inv s' ∧
    if handler d =? 0 then s' = s
    else vector_used s' = <[Z.to_nat i := 0]> (vector_used s) ∧
         irq_descs s' = <[Z.to_nat i := zero_desc]> (irq_descs s) ∧
         isrs s' = <[Z.to_nat i := zero_isr]> (isrs s) ∧
         regs s' = masked s (hwirq d) ∧ eois s' = eois s) s.
Proof.
  intros Hinv Hd Hi Hhw Hdom. eapply wp_irq_free_run; [done|exact Hd|done|done|done|by intros ->|].
  intros Hh Hdv. rewrite (proj2 (Z.eqb_neq _ _) Hh). split; [by apply given_back_inv|done].
Qed.

(** An interrupt of the local APIC domain cannot be freed: its descriptor has
    hwirq 0, which is below [max_hwirq], and the domain has no table. *)
Lemma irq_free_local s i d :
  irq_inv s → irq_descs s !! Z.to_nat i = Some d → 0 ≤ i → hwirq d = 0 → domain d = Some LAPIC →
  irq_free me i s = Fault.
Proof.
  intros [Hlk Hisr Hdesc Hused _ Hla Hvec] Hd Hi Hhw Hdom.
  assert (i < 256) as Hi2 by (apply lookup_lt_Some in Hd; lia).
  destruct (lookup_lt_is_Some_2 (vector_used s) (Z.to_nat i)) as [u Hu]; [lia|].
  destruct (lookup_lt_is_Some_2 (isrs s) (Z.to_nat i)) as [x Hx]; [lia|].
  pose proof (Hvec _ _ _ _ Hu Hd Hx) as Hok. rewrite Z2Nat.id in Hok by lia. unfold vector_ok in Hok.
  destruct (device_vector i) eqn:Hdv; [|destruct Hok as [_ ->]; done].
  destruct Hok as [[_ ->]|(_ & Hh & _ & Hv & _ & _)]; [done|].
  unfold irq_free. assert (256 <=? i = false) as -> by lia.
  unfold acquire, zoom, mbind, M_bind. rewrite Hlk. simpl. unfold arr_read. simpl. rewrite Hd, Hdom.
  apply Z.eqb_neq in Hh as ->. unfold domain_ops, mbind, M_bind, gets, mret, M_ret. simpl. rewrite Hla, Hv. simpl.
  unfold lapic_domain_free, vector_free. fold (device_vector i). rewrite Hdv. unfold when, arr_write. simpl.
  rewrite Hu. unfold map_hwirq, mbind, M_bind, gets. simpl. rewrite Hla, Hhw. done.
Qed.

(** Freeing an interrupt of a device masks its line, forgets its
    descriptor and its handler and makes its vector free again; numbers without
    a descriptor are ignored. For an interrupt that [irq_request_local] gave out
    the call writes through the local domain's NULL table. *)
Theorem irq_free_spec s i d :
  irq_inv s → irq_descs s !! Z.to_nat i = Some d → 0 ≤ i → 0 ≤ hwirq d →
  (domain d ≠ Some LAPIC →
   wp (irq_free me i) (λ _ s', irq_inv s' ∧
    if handler d =? 0 then s' = s
    else vector_used s' = <[Z.to_nat i := 0]> (vector_used s) ∧
         irq_descs s' = <[Z.to_nat i := zero_desc]> (irq_descs s) ∧
         isrs s' = <[Z.to_nat i := zero_isr]> (isrs s) ∧
         regs s' = masked s (hwirq d) ∧ eois s' = eois s) s) ∧
  (domain d = Some LAPIC → hwirq d = 0 → irq_free me i s = Fault).
Proof.
  intros Hinv Hd Hi Hhw. split; [by intros; apply wp_irq_free|]. intros. by eapply irq_free_local.
Qed.

(** * Routing lines *)

Lemma find_ioapic_pin s g l io pin :
  find_ioapic s g l = Some (io, pin) → 0 ≤ g < 2 ^ 32 → (∀ io, io ∈ l → 0 ≤ gsi_base io) →
  io ∈ l ∧ gsi_base io ≤ g ≤ u32 (gsi_base io + pins_of s io) ∧ pin = g - gsi_base io.
Proof.
  intros Hf Hg Hb. induction l as [|x l IH]; simpl in Hf; [done|].
  destruct ((gsi_base x <=? g) && (g <=? u32 (gsi_base x + pins_of s x))) eqn:Hc.
  - injection Hf as <- <-. apply andb_true_iff in Hc as [H1 H2]. specialize (Hb x ltac:(set_solver)).
    rewrite (u32_id (g - gsi_base x)) by lia. split; [set_solver|lia].
  - destruct (IH Hf) as (? & ? & ?); [|set_solver]. intros; apply Hb. set_solver.
Qed.

Lemma redir_reg_small pin : 0 ≤ pin ≤ 119 →
  u8 (redir_reg pin) = 16 + pin * 2 ∧ u8 (redir_reg pin + 1) = 17 + pin * 2.
Proof.
  intros. unfold redir_reg, IOAPIC_REG_TABLE_BASE. rewrite (u8_id (pin * 2)) by lia.
  rewrite (u8_id (16 + pin * 2)) by lia. rewrite !u8_id by lia. lia.
Qed.

Lemma redir_low_spec vec fl : 0 ≤ vec < 256 →
  Z.land (redir_low vec fl) 0xFF = vec ∧ flag (redir_low vec fl) IOAPIC_REDIR_MASK = false ∧
  flag (redir_low vec fl) IOAPIC_REDIR_POLARITY = (Z.land fl 0x3 =? 0x3) ∧
  flag (redir_low vec fl) IOAPIC_REDIR_TRIGGER = (Z.land fl 0xC =? 0xC).
Proof.
  intros Hv. unfold redir_low, IOAPIC_REDIR_MASK, IOAPIC_REDIR_POLARITY, IOAPIC_REDIR_TRIGGER.
  assert (Z.land vec 0xFF = vec) as Hland.
  { change 0xFF with (Z.ones 8). rewrite Z.land_ones by lia. by apply Z.mod_small. }
  rewrite Hland.
  assert (∀ k, 8 ≤ k → flag vec (2 ^ k) = false) as Hhi.
  { intros k Hk. rewrite flag_testbit by lia. apply Z.bits_above_log2; [lia|].
    destruct (decide (vec = 0)) as [->|]; [simpl; lia|]. apply Z.log2_lt_pow2; [lia|].
    eapply Z.lt_le_trans; [apply Hv|]. change 256 with (2 ^ 8). by apply Z.pow_le_mono_r. }
  destruct (Z.land fl 3 =? 3), (Z.land fl 12 =? 12);
    rewrite ?Z.land_lor_distr_l, ?flag_lor, !Hhi by lia; rewrite ?Hland, ?Z.lor_0_r; by split_and!.
Qed.

(** Enabling the line of a device programs its pin of the IOAPIC that
    serves it with the vector, with the polarity and the trigger of the MADT
    override, not masked; disabling it sets the mask bit and keeps the rest.
    No other pin of any IOAPIC changes. *)
Theorem ioapic_routing_spec s hw vec io pin fl :
  line_of s hw = Some (io, pin, fl) → 0 ≤ vec < 256 →
  (∀ x, x ∈ iso_table s → 0 ≤ gsi x < 2 ^ 32) →
  (∀ x, x ∈ ioapics s → 0 ≤ gsi_base x ∧ pins_of s x ≤ 119 ∧ gsi_base x + 119 < 2 ^ 32) →
  let low s' := default 0 (regs s' !! (phys_addr io, 16 + pin * 2)) in
  io ∈ ioapics s ∧ 0 ≤ pin ≤ pins_of s io ∧
  wp (ioapic_domain_enable hw vec) (λ _ s1,
    Z.land (low s1) 0xFF = vec ∧ flag (low s1) IOAPIC_REDIR_MASK = false ∧
    flag (low s1) IOAPIC_REDIR_POLARITY = (Z.land fl 0x3 =? 0x3) ∧
    flag (low s1) IOAPIC_REDIR_TRIGGER = (Z.land fl 0xC =? 0xC) ∧
    ∀ a r, (a = phys_addr io → r ≠ 16 + pin * 2 ∧ r ≠ 17 + pin * 2) → regs s1 !! (a, r) = regs s !! (a, r)) s ∧
  wp (ioapic_domain_disable hw vec) (λ _ s2,
    low s2 = Z.lor (low s) IOAPIC_REDIR_MASK ∧
    ∀ a r, (a = phys_addr io → r ≠ 16 + pin * 2) → regs s2 !! (a, r) = regs s !! (a, r)) s.
Proof.
  intros Hline Hvec Hiso Hio low. pose proof Hline as Hl. unfold line_of in Hl.
  assert (∀ l g f, (∀ x, x ∈ l → 0 ≤ gsi x < 2 ^ 32) → iso_search (u8 hw) l = (g, f) → 0 ≤ g < 2 ^ 32) as Hsrch.
  { intros l. induction l as [|x l IH]; simpl; intros g f Hb.
    - intros [= <- <-]. pose proof (u8_range hw). lia.
    - destruct (source x =? u8 hw); [intros [= <- <-]; apply Hb; set_solver|]. apply IH. set_solver. }
  destruct (iso_search (u8 hw) (iso_table s)) as [g f] eqn:Hs. specialize (Hsrch _ _ _ Hiso Hs).
  destruct (find_ioapic s g (ioapics s)) as [[io' pin']|] eqn:Hf; [|done]. simplify_eq.
  destruct (find_ioapic_pin _ _ _ _ _ Hf Hsrch) as (Hin & Hg & ->); [intros x Hx; apply Hio, Hx|].
  destruct (Hio io Hin) as (Hb & Hp & Hsum).
  assert (0 ≤ pins_of s io).
  { unfold pins_of. apply Z.land_nonneg. lia. }
  rewrite u32_id in Hg by lia. set (pin := g - gsi_base io) in *.
  destruct (redir_reg_small pin) as [Hr1 Hr2]; [lia|].
  split; [done|]. split; [lia|]. split.
  - apply wp_ioapic_domain_enable. unfold routed, low. rewrite Hline, Hr1, Hr2. simpl.
    rewrite lookup_insert_eq. simpl.
    destruct (redir_low_spec vec fl Hvec) as (? & ? & ? & ?). split_and!; [done..|].
    intros a r Har. rewrite !lookup_insert_ne; [done|..]; intros Heq; injection Heq as <- <-; by destruct (Har eq_refl).
  - apply wp_ioapic_domain_disable. unfold masked, low. rewrite Hline, Hr1. simpl.
    rewrite lookup_insert_eq. split; [done|].
    intros a r Har. rewrite lookup_insert_ne; [done|]. intros Heq; injection Heq as <- <-; by destruct (Har eq_refl).
Qed.

(** * Dispatching *)

(** The table entry a request registered leads to the right descriptor: an
    interrupt on its vector calls the handler with its number and its data, and
    then acknowledges exactly once; an interrupt without a handler is
    acknowledged once too. *)
Theorem irq_dispatch_spec (call : Z → Z → Z → M irq_state unit) s v d (P : irq_state → Prop) :
  0 ≤ me → device_vector v = true → irq_descs s !! Z.to_nat v = Some d → lapic_virt s ≠ 0 →
  (∀ s1, P s1 → irq_descs s1 !! Z.to_nat v = Some d ∧ lapic_virt s1 ≠ 0) →
  wp (call (handler d) (irq d) (data d)) (λ _, P) s →
  wp (irq_dispatch call (id (dispatch_isr v))) (λ _ s', ∃ s1,
    (if handler d =? 0 then s1 = s else P s1) ∧ s' = set_eois (eois s1 + 1) s1) s.
Proof.
  intros Hme Hdv Hd Hlv HP Hcall. apply device_vector_spec in Hdv.
  assert (∀ s1, irq_descs s1 !! Z.to_nat v = Some d → lapic_virt s1 ≠ 0 →
    wp (dispatch_eoi v) (λ _ s', s' = set_eois (eois s1 + 1) s1) s1) as Heoi.
  { intros s1 Hd1 Hl1. unfold dispatch_eoi. wp_pures. eapply wp_arr_read; [done|]. wp_pures.
    apply Z.eqb_neq in Hl1.
    destruct (has_ops d s1) as [[]|]; simpl; unfold ioapic_domain_eoi, lapic_domain_eoi, apic_eoi;
      wp_pures; rewrite Hl1; simpl; by wp_pures. }
  assert (u8 (Z.land (id (dispatch_isr v)) 0xFF) = v) as Hid.
  { simpl. rewrite Z.land_lor_distr_l. change 0xFF with (Z.ones 8). rewrite !Z.land_ones by lia.
    rewrite (Z.mod_small v) by lia. replace (Z.shiftl me 32 mod 2 ^ 8) with 0.
    - rewrite Z.lor_0_l. apply u8_id. lia.
    - rewrite Z.shiftl_mul_pow2 by lia. change (2 ^ 32) with (2 ^ 24 * 2 ^ 8).
      rewrite Z.mul_assoc, Z.mod_mul; lia. }
  unfold irq_dispatch. rewrite Hid. wp_pures. eapply wp_arr_read; [done|].
  destruct (handler d =? 0).
  - eapply wp_mono; [by apply Heoi|]. intros [] s' ->. eauto.
  - wp_pures. eapply wp_mono; [done|]. intros [] s1 H1. destruct (HP s1 H1).
    eapply wp_mono; [by apply Heoi|]. intros [] s' ->. eauto.
Qed.
End irq_proofs.

(** * Witnesses *)

(** A machine with one IOAPIC of 24 pins at 0xFEC00000, the timer being routed
    to pin 2, active low and level triggered. *)
Definition demo_off : irq_state :=
  mkIrq unlocked [] [] (mkDomain false 0 None) (mkDomain false 0 None) (replicate 256 zero_isr)
    [mkIoapic 0 0 0xFEC00000] [mkIso 0 2 0xF] {[(0xFEC00000, 1) := 0x170020]} 0xFEE00000 0 0.

(** The machine after [irq_init], after a request for line 0, and after one of
    the local APIC. *)
Definition run_irq {A} (m : M irq_state A) (s : irq_state) : irq_state :=
  match m s with Done (_, s') => s' | _ => s end.
Definition demo_irq : irq_state := run_irq (irq_init 0 true) demo_off.
Definition demo_irq1 : irq_state := run_irq (irq_request 0 0 77 5 6) demo_irq.
Definition demo_irq2 : irq_state := run_irq (irq_request_local 0 78 5 6) demo_irq1.

Lemma run_irq_wp {A} (m : M irq_state A) (Q : A → irq_state → Prop) s :
  wp m Q s → ∃ a, Q a (run_irq m s).
Proof. unfold wp, run_irq. destruct (m s) as [[a s']| |]; [|done..]. eauto. Qed.

Lemma demo_irq_inv : irq_inv demo_irq ∧ irq_inv demo_irq1 ∧ irq_inv demo_irq2.
Proof.
  assert (irq_inv demo_irq) as H0.
  { destruct (run_irq_wp _ _ _ (wp_irq_init 0 demo_off eq_refl eq_refl)) as [_ [H _]]. exact H. }
  assert (irq_inv demo_irq1) as H1.
  { destruct (run_irq_wp _ _ _ (wp_irq_request 0 demo_irq 0 77 5 6 H0 ltac:(lia) ltac:(lia))) as [_ [H _]]. exact H. }
  destruct (run_irq_wp _ _ _ (wp_irq_request_local 0 demo_irq1 78 5 6 H1 ltac:(lia))) as [_ [H _]]. auto.
Qed.

Lemma irq_request_spec_witness :
  irq_inv demo_irq ∧
  wp (irq_request 0 0 77 5 6) (λ r s', irq_inv s' ∧ (r = -1 ∨ lowest_free demo_irq r)) demo_irq.
Proof.
  split; [apply demo_irq_inv|].
  destruct (irq_request_spec 0 demo_irq demo_off 0 77 5 6) as (_ & H & _);
    [reflexivity|reflexivity|apply demo_irq_inv|lia|lia|].
  eapply wp_mono; [exact H|]. intros r s' (Hi & [(Hr & _)|[(Hl & _) _]]);
    (split; [exact Hi|]); [left; exact Hr|right; exact Hl].
Defined.

Lemma irq_free_spec_witness :
  irq_descs demo_irq1 !! 32%nat = Some (mkDesc 32 0 32 77 5 6 (Some IOAPIC) true) ∧
  wp (irq_free 0 32) (λ _ s', vector_used s' !! 32%nat = Some 0) demo_irq1 ∧
  irq_free 0 33 demo_irq2 = Fault.
Proof.
  split; [vm_compute; reflexivity|]. split.
  - destruct (irq_free_spec 0 demo_irq1 32 (mkDesc 32 0 32 77 5 6 (Some IOAPIC) true)) as [H _];
      [apply demo_irq_inv|vm_compute; reflexivity|lia|cbn; lia|].
    eapply wp_mono; [apply H; discriminate|]. intros [] s' (_ & Hs). change (handler _ =? 0) with false in Hs. cbv iota in Hs.
    destruct Hs as (-> & _). vm_compute. reflexivity.
  - destruct (irq_free_spec 0 demo_irq2 33 (mkDesc 33 0 33 78 5 6 (Some LAPIC) true)) as [_ H];
      [apply demo_irq_inv|vm_compute; reflexivity|lia|cbn; lia|]. apply H; reflexivity.
Defined.

Lemma ioapic_routing_spec_witness :
  line_of demo_irq1 0 = Some (mkIoapic 0 0 0xFEC00000, 2, 0xF) ∧
  wp (ioapic_domain_enable 0 32) (λ _ s1,
    Z.land (default 0 (regs s1 !! (0xFEC00000, 20))) 0xFF = 32) demo_irq1.
Proof.
  split; [vm_compute; reflexivity|].
  destruct (ioapic_routing_spec demo_irq1 0 32 (mkIoapic 0 0 0xFEC00000) 2 0xF) as (_ & _ & H & _).
  - vm_compute. reflexivity.
  - lia.
  - assert (iso_table demo_irq1 = [mkIso 0 2 0xF]) as -> by (vm_compute; reflexivity). intros x Hx. apply list_elem_of_singleton in Hx as ->. simpl. lia.
  - assert (ioapics demo_irq1 = [mkIoapic 0 0 0xFEC00000]) as -> by (vm_compute; reflexivity). intros x Hx. apply list_elem_of_singleton in Hx as ->.
    vm_compute. repeat split; discriminate.
  - eapply wp_mono; [exact H|]. intros [] s1 (Hv & _). exact Hv.
Defined.

Lemma irq_dispatch_spec_witness :
  wp (irq_dispatch (λ _ _ _, mret tt) (id (dispatch_isr 0 32))) (λ _ s', eois s' = 1) demo_irq1.
Proof.
  eapply wp_mono; [apply (irq_dispatch_spec 0 (λ _ _ _, mret tt) demo_irq1 32
    (mkDesc 32 0 32 77 5 6 (Some IOAPIC) true) (λ s1, s1 = demo_irq1))|].
  - lia.
  - reflexivity.
  - vm_compute. reflexivity.
  - vm_compute. discriminate.
  - intros s1 ->. split; [vm_compute; reflexivity|vm_compute; discriminate].
  - by apply wp_ret.
  - intros [] s' (s1 & Hs1 & ->). change (handler _ =? 0) with false in Hs1. cbv iota in Hs1. subst s1. vm_compute. reflexivity.
Defined.
