(* ===== verification/Sched.v ===== *)
(** The scheduler: [src/kernel/src/sched/sched.c], and the wait queues of
    [waitqueue.c].

    Threads, run queues and wait queues are objects named by their address (a
    run queue by its index in [runqueues]); a thread that has been freed is no
    object, so that a use after it faults. The wait node a thread embeds is
    named by the thread. [cpu] is the CPU that runs the code; what it does up
    to the switch of stacks is modelled, at which point [cpu]'s current thread
    is the one that runs next. *)
From S2P Require Import Prelude Sync DList.

Definition MAX_CPUS : Z := 256.
Definition PRIORITY_BOOST_INTERVAL_NS : Z := 200 * 1000000.

(** [thread_state_t] *)
Inductive thread_state_t :=
  THREAD_NEW | THREAD_READY | THREAD_RUNNING | THREAD_BLOCKED | THREAD_SLEEPING | THREAD_ZOMBIE | THREAD_DEAD.
#[global] Instance thread_state_eq_dec : EqDecision thread_state_t.
Proof. solve_decision. Defined.

(** [fpu_state_t]; [region] is the image of the registers, of 512 bytes. *)
Record fpu_state_t := mkFpu {
  region : list Z;
  used : bool;
  dirty : bool;
}.

(** [wait_node_t] *)
Record wait_node_t := mkNode {
  next : Z;
  prev : Z;
  thread : Z;
  woken : bool;
}.

(** [thread_t], the fields the scheduler uses; [proc_vmm] is [proc->vmm]. *)
Record thread_t := mkThread {
  state : thread_state_t;
  priority_level : Z;
  time_in_level_ns : Z;
  last_run_tsc : Z;
  total_runtime_ns : Z;
  last_cpu : Z;
  pinned_cpu : Z;
  kstack_base : Z;
  kstack_size : Z;
  proc_vmm : Z;
  fpu : fpu_state_t;
  blocked_on : Z;
  wait_node : wait_node_t;
  exit_code : Z;
  rq_next : Z;
  rq_prev : Z;
  t_lock : spinlock_t;
}.

(** [mlfq_queue_t] *)
Record mlfq_queue_t := mkQueue {
  head : Z;
  tail : Z;
  count : Z;
}.

(** [runqueue_t] *)
Record runqueue_t := mkRq {
  rq_lock : spinlock_t;
  levels : list mlfq_queue_t;
  nr_running : Z;
  idle : Z;
  current : Z;
  last_boost_ns : Z;
  needs_resched : bool;
}.

(** [cpu_t], the fields the scheduler uses; [cpu_rq] is the index of [rq], or
    negative for NULL. *)
Record cpu_t := mkCpu {
  cpu_id : Z;
  cpu_rq : Z;
  idle_thread : Z;
  current_thread : Z;
  zombie_to_reap : Z;
  need_resched : bool;
  rsp0 : Z;
  sysret_kernel_rsp : Z;
}.

(** [waitqueue_t] *)
Record waitqueue_t := mkWq {
  wq_lock : spinlock_t;
  wq_head : Z;
  wq_tail : Z;
}.

(** [flags] is the flags register, [cr3] the address space that is loaded and
    [fpu_regs] the registers of the FPU, as the bytes of their image. *)
Record sched_state := mkSched {
  threads : gmap Z thread_t;
  rqs : gmap Z runqueue_t;
  wqs : gmap Z waitqueue_t;
  nr_cpus : Z;
  cpu : cpu_t;
  flags : Z;
  tsc : Z;
  cr0 : Z;
  cr3 : Z;
  fpu_regs : list Z;
}.

(** ** Field updates *)

Definition set_state (v : thread_state_t) (x : thread_t) : thread_t :=
  mkThread v (priority_level x) (time_in_level_ns x) (last_run_tsc x) (total_runtime_ns x) (last_cpu x) (pinned_cpu x) (kstack_base x) (kstack_size x) (proc_vmm x) (fpu x) (blocked_on x) (wait_node x) (exit_code x) (rq_next x) (rq_prev x) (t_lock x).
Definition set_priority_level (v : Z) (x : thread_t) : thread_t :=
  mkThread (state x) v (time_in_level_ns x) (last_run_tsc x) (total_runtime_ns x) (last_cpu x) (pinned_cpu x) (kstack_base x) (kstack_size x) (proc_vmm x) (fpu x) (blocked_on x) (wait_node x) (exit_code x) (rq_next x) (rq_prev x) (t_lock x).
Definition set_time_in_level_ns (v : Z) (x : thread_t) : thread_t :=
  mkThread (state x) (priority_level x) v (last_run_tsc x) (total_runtime_ns x) (last_cpu x) (pinned_cpu x) (kstack_base x) (kstack_size x) (proc_vmm x) (fpu x) (blocked_on x) (wait_node x) (exit_code x) (rq_next x) (rq_prev x) (t_lock x).
Definition set_last_run_tsc (v : Z) (x : thread_t) : thread_t :=
  mkThread (state x) (priority_level x) (time_in_level_ns x) v (total_runtime_ns x) (last_cpu x) (pinned_cpu x) (kstack_base x) (kstack_size x) (proc_vmm x) (fpu x) (blocked_on x) (wait_node x) (exit_code x) (rq_next x) (rq_prev x) (t_lock x).
Definition set_total_runtime_ns (v : Z) (x : thread_t) : thread_t :=
  mkThread (state x) (priority_level x) (time_in_level_ns x) (last_run_tsc x) v (last_cpu x) (pinned_cpu x) (kstack_base x) (kstack_size x) (proc_vmm x) (fpu x) (blocked_on x) (wait_node x) (exit_code x) (rq_next x) (rq_prev x) (t_lock x).
Definition set_last_cpu (v : Z) (x : thread_t) : thread_t :=
  mkThread (state x) (priority_level x) (time_in_level_ns x) (last_run_tsc x) (total_runtime_ns x) v (pinned_cpu x) (kstack_base x) (kstack_size x) (proc_vmm x) (fpu x) (blocked_on x) (wait_node x) (exit_code x) (rq_next x) (rq_prev x) (t_lock x).
Definition set_pinned_cpu (v : Z) (x : thread_t) : thread_t :=
  mkThread (state x) (priority_level x) (time_in_level_ns x) (last_run_tsc x) (total_runtime_ns x) (last_cpu x) v (kstack_base x) (kstack_size x) (proc_vmm x) (fpu x) (blocked_on x) (wait_node x) (exit_code x) (rq_next x) (rq_prev x) (t_lock x).
Definition set_kstack_base (v : Z) (x : thread_t) : thread_t :=
  mkThread (state x) (priority_level x) (time_in_level_ns x) (last_run_tsc x) (total_runtime_ns x) (last_cpu x) (pinned_cpu x) v (kstack_size x) (proc_vmm x) (fpu x) (blocked_on x) (wait_node x) (exit_code x) (rq_next x) (rq_prev x) (t_lock x).
Definition set_kstack_size (v : Z) (x : thread_t) : thread_t :=
  mkThread (state x) (priority_level x) (time_in_level_ns x) (last_run_tsc x) (total_runtime_ns x) (last_cpu x) (pinned_cpu x) (kstack_base x) v (proc_vmm x) (fpu x) (blocked_on x) (wait_node x) (exit_code x) (rq_next x) (rq_prev x) (t_lock x).
Definition set_proc_vmm (v : Z) (x : thread_t) : thread_t :=
  mkThread (state x) (priority_level x) (time_in_level_ns x) (last_run_tsc x) (total_runtime_ns x) (last_cpu x) (pinned_cpu x) (kstack_base x) (kstack_size x) v (fpu x) (blocked_on x) (wait_node x) (exit_code x) (rq_next x) (rq_prev x) (t_lock x).
Definition set_fpu (v : fpu_state_t) (x : thread_t) : thread_t :=
  mkThread (state x) (priority_level x) (time_in_level_ns x) (last_run_tsc x) (total_runtime_ns x) (last_cpu x) (pinned_cpu x) (kstack_base x) (kstack_size x) (proc_vmm x) v (blocked_on x) (wait_node x) (exit_code x) (rq_next x) (rq_prev x) (t_lock x).
Definition set_blocked_on (v : Z) (x : thread_t) : thread_t :=
  mkThread (state x) (priority_level x) (time_in_level_ns x) (last_run_tsc x) (total_runtime_ns x) (last_cpu x) (pinned_cpu x) (kstack_base x) (kstack_size x) (proc_vmm x) (fpu x) v (wait_node x) (exit_code x) (rq_next x) (rq_prev x) (t_lock x).
Definition set_wait_node (v : wait_node_t) (x : thread_t) : thread_t :=
  mkThread (state x) (priority_level x) (time_in_level_ns x) (last_run_tsc x) (total_runtime_ns x) (last_cpu x) (pinned_cpu x) (kstack_base x) (kstack_size x) (proc_vmm x) (fpu x) (blocked_on x) v (exit_code x) (rq_next x) (rq_prev x) (t_lock x).
Definition set_exit_code (v : Z) (x : thread_t) : thread_t :=
  mkThread (state x) (priority_level x) (time_in_level_ns x) (last_run_tsc x) (total_runtime_ns x) (last_cpu x) (pinned_cpu x) (kstack_base x) (kstack_size x) (proc_vmm x) (fpu x) (blocked_on x) (wait_node x) v (rq_next x) (rq_prev x) (t_lock x).
Definition set_rq_next (v : Z) (x : thread_t) : thread_t :=
  mkThread (state x) (priority_level x) (time_in_level_ns x) (last_run_tsc x) (total_runtime_ns x) (last_cpu x) (pinned_cpu x) (kstack_base x) (kstack_size x) (proc_vmm x) (fpu x) (blocked_on x) (wait_node x) (exit_code x) v (rq_prev x) (t_lock x).
Definition set_rq_prev (v : Z) (x : thread_t) : thread_t :=
  mkThread (state x) (priority_level x) (time_in_level_ns x) (last_run_tsc x) (total_runtime_ns x) (last_cpu x) (pinned_cpu x) (kstack_base x) (kstack_size x) (proc_vmm x) (fpu x) (blocked_on x) (wait_node x) (exit_code x) (rq_next x) v (t_lock x).
Definition set_t_lock (v : spinlock_t) (x : thread_t) : thread_t :=
  mkThread (state x) (priority_level x) (time_in_level_ns x) (last_run_tsc x) (total_runtime_ns x) (last_cpu x) (pinned_cpu x) (kstack_base x) (kstack_size x) (proc_vmm x) (fpu x) (blocked_on x) (wait_node x) (exit_code x) (rq_next x) (rq_prev x) v.
Definition set_head (v : Z) (x : mlfq_queue_t) : mlfq_queue_t :=
  mkQueue v (tail x) (count x).
Definition set_tail (v : Z) (x : mlfq_queue_t) : mlfq_queue_t :=
  mkQueue (head x) v (count x).
Definition set_count (v : Z) (x : mlfq_queue_t) : mlfq_queue_t :=
  mkQueue (head x) (tail x) v.
Definition set_rq_lock (v : spinlock_t) (x : runqueue_t) : runqueue_t :=
  mkRq v (levels x) (nr_running x) (idle x) (current x) (last_boost_ns x) (needs_resched x).
Definition set_levels (v : list mlfq_queue_t) (x : runqueue_t) : runqueue_t :=
  mkRq (rq_lock x) v (nr_running x) (idle x) (current x) (last_boost_ns x) (needs_resched x).
Definition set_nr_running (v : Z) (x : runqueue_t) : runqueue_t :=
  mkRq (rq_lock x) (levels x) v (idle x) (current x) (last_boost_ns x) (needs_resched x).
Definition set_idle (v : Z) (x : runqueue_t) : runqueue_t :=
  mkRq (rq_lock x) (levels x) (nr_running x) v (current x) (last_boost_ns x) (needs_resched x).
Definition set_current (v : Z) (x : runqueue_t) : runqueue_t :=
  mkRq (rq_lock x) (levels x) (nr_running x) (idle x) v (last_boost_ns x) (needs_resched x).
Definition set_last_boost_ns (v : Z) (x : runqueue_t) : runqueue_t :=
  mkRq (rq_lock x) (levels x) (nr_running x) (idle x) (current x) v (needs_resched x).
Definition set_needs_resched (v : bool) (x : runqueue_t) : runqueue_t :=
  mkRq (rq_lock x) (levels x) (nr_running x) (idle x) (current x) (last_boost_ns x) v.
Definition set_cpu_id (v : Z) (x : cpu_t) : cpu_t :=
  mkCpu v (cpu_rq x) (idle_thread x) (current_thread x) (zombie_to_reap x) (need_resched x) (rsp0 x) (sysret_kernel_rsp x).
Definition set_cpu_rq (v : Z) (x : cpu_t) : cpu_t :=
  mkCpu (cpu_id x) v (idle_thread x) (current_thread x) (zombie_to_reap x) (need_resched x) (rsp0 x) (sysret_kernel_rsp x).
Definition set_idle_thread (v : Z) (x : cpu_t) : cpu_t :=
  mkCpu (cpu_id x) (cpu_rq x) v (current_thread x) (zombie_to_reap x) (need_resched x) (rsp0 x) (sysret_kernel_rsp x).
Definition set_current_thread (v : Z) (x : cpu_t) : cpu_t :=
  mkCpu (cpu_id x) (cpu_rq x) (idle_thread x) v (zombie_to_reap x) (need_resched x) (rsp0 x) (sysret_kernel_rsp x).
Definition set_zombie_to_reap (v : Z) (x : cpu_t) : cpu_t :=
  mkCpu (cpu_id x) (cpu_rq x) (idle_thread x) (current_thread x) v (need_resched x) (rsp0 x) (sysret_kernel_rsp x).
Definition set_need_resched (v : bool) (x : cpu_t) : cpu_t :=
  mkCpu (cpu_id x) (cpu_rq x) (idle_thread x) (current_thread x) (zombie_to_reap x) v (rsp0 x) (sysret_kernel_rsp x).
Definition set_rsp0 (v : Z) (x : cpu_t) : cpu_t :=
  mkCpu (cpu_id x) (cpu_rq x) (idle_thread x) (current_thread x) (zombie_to_reap x) (need_resched x) v (sysret_kernel_rsp x).
Definition set_sysret_kernel_rsp (v : Z) (x : cpu_t) : cpu_t :=
  mkCpu (cpu_id x) (cpu_rq x) (idle_thread x) (current_thread x) (zombie_to_reap x) (need_resched x) (rsp0 x) v.
Definition set_wq_lock (v : spinlock_t) (x : waitqueue_t) : waitqueue_t :=
  mkWq v (wq_head x) (wq_tail x).
Definition set_wq_head (v : Z) (x : waitqueue_t) : waitqueue_t :=
  mkWq (wq_lock x) v (wq_tail x).
Definition set_wq_tail (v : Z) (x : waitqueue_t) : waitqueue_t :=
  mkWq (wq_lock x) (wq_head x) v.
Definition set_threads (v : gmap Z thread_t) (x : sched_state) : sched_state :=
  mkSched v (rqs x) (wqs x) (nr_cpus x) (cpu x) (flags x) (tsc x) (cr0 x) (cr3 x) (fpu_regs x).
Definition set_rqs (v : gmap Z runqueue_t) (x : sched_state) : sched_state :=
  mkSched (threads x) v (wqs x) (nr_cpus x) (cpu x) (flags x) (tsc x) (cr0 x) (cr3 x) (fpu_regs x).
Definition set_wqs (v : gmap Z waitqueue_t) (x : sched_state) : sched_state :=
  mkSched (threads x) (rqs x) v (nr_cpus x) (cpu x) (flags x) (tsc x) (cr0 x) (cr3 x) (fpu_regs x).
Definition set_nr_cpus (v : Z) (x : sched_state) : sched_state :=
  mkSched (threads x) (rqs x) (wqs x) v (cpu x) (flags x) (tsc x) (cr0 x) (cr3 x) (fpu_regs x).
Definition set_cpu (v : cpu_t) (x : sched_state) : sched_state :=
  mkSched (threads x) (rqs x) (wqs x) (nr_cpus x) v (flags x) (tsc x) (cr0 x) (cr3 x) (fpu_regs x).
Definition set_flags (v : Z) (x : sched_state) : sched_state :=
  mkSched (threads x) (rqs x) (wqs x) (nr_cpus x) (cpu x) v (tsc x) (cr0 x) (cr3 x) (fpu_regs x).
Definition set_tsc (v : Z) (x : sched_state) : sched_state :=
  mkSched (threads x) (rqs x) (wqs x) (nr_cpus x) (cpu x) (flags x) v (cr0 x) (cr3 x) (fpu_regs x).
Definition set_cr0 (v : Z) (x : sched_state) : sched_state :=
  mkSched (threads x) (rqs x) (wqs x) (nr_cpus x) (cpu x) (flags x) (tsc x) v (cr3 x) (fpu_regs x).
Definition set_cr3 (v : Z) (x : sched_state) : sched_state :=
  mkSched (threads x) (rqs x) (wqs x) (nr_cpus x) (cpu x) (flags x) (tsc x) (cr0 x) v (fpu_regs x).
Definition set_fpu_regs (v : list Z) (x : sched_state) : sched_state :=
  mkSched (threads x) (rqs x) (wqs x) (nr_cpus x) (cpu x) (flags x) (tsc x) (cr0 x) (cr3 x) v.
Definition set_w_next (v : Z) (x : wait_node_t) : wait_node_t :=
  mkNode v (prev x) (thread x) (woken x).
Definition set_w_prev (v : Z) (x : wait_node_t) : wait_node_t :=
  mkNode (next x) v (thread x) (woken x).
Definition set_w_thread (v : Z) (x : wait_node_t) : wait_node_t :=
  mkNode (next x) (prev x) v (woken x).
Definition set_w_woken (v : bool) (x : wait_node_t) : wait_node_t :=
  mkNode (next x) (prev x) (thread x) v.

(** The links of the run queues and of the wait queues. *)
#[global] Program Instance rq_links : Links thread_t := {|
  l_next := rq_next; l_prev := rq_prev; l_set_next := set_rq_next; l_set_prev := set_rq_prev |}.
Solve All Obligations with done.

Definition w_next (t : thread_t) : Z := next (wait_node t).
Definition w_prev (t : thread_t) : Z := prev (wait_node t).
Definition set_wn (f : wait_node_t → wait_node_t) (t : thread_t) : thread_t := set_wait_node (f (wait_node t)) t.

(** * Memory *)

Definition th_load (t : Z) : M sched_state thread_t := λ s,
  match threads s !! t with Some x => Done (x, s) | None => Fault end.
Definition th_store (t : Z) (f : thread_t → thread_t) : M sched_state unit := λ s,
  match threads s !! t with Some _ => Done (tt, set_threads (alter f t (threads s)) s) | None => Fault end.
Definition rq_load (c : Z) : M sched_state runqueue_t := λ s,
  match rqs s !! c with Some x => Done (x, s) | None => Fault end.
Definition rq_store (c : Z) (f : runqueue_t → runqueue_t) : M sched_state unit := λ s,
  match rqs s !! c with Some _ => Done (tt, set_rqs (alter f c (rqs s)) s) | None => Fault end.
Definition wq_load (w : Z) : M sched_state waitqueue_t := λ s,
  match wqs s !! w with Some x => Done (x, s) | None => Fault end.
Definition wq_store (w : Z) (f : waitqueue_t → waitqueue_t) : M sched_state unit := λ s,
  match wqs s !! w with Some _ => Done (tt, set_wqs (alter f w (wqs s)) s) | None => Fault end.

(** [rq->levels[lvl]], which faults out of its bounds. *)
Definition q_load (q : Z * Z) : M sched_state mlfq_queue_t :=
  if q.2 <? 0 then fault else
  r ← rq_load q.1;
  match levels r !! Z.to_nat q.2 with Some x => mret x | None => fault end.
Definition q_store (q : Z * Z) (f : mlfq_queue_t → mlfq_queue_t) : M sched_state unit :=
  q_load q ;; rq_store q.1 (λ r, set_levels (alter f (Z.to_nat q.2) (levels r)) r).

(** [spinlock_acquire(&rq->lock)] and the like. *)
Definition lock_with {A} (get : M sched_state spinlock_t) (put : spinlock_t → M sched_state A)
    (op : M spinlock_t unit) : M sched_state A :=
  l ← get;
  match op l with Done (_, l') => put l' | Fault => fault | Hang => hang end.
Definition rq_locking (c : Z) (op : M spinlock_t unit) : M sched_state unit :=
  lock_with (r ← rq_load c; mret (rq_lock r)) (λ l, rq_store c (set_rq_lock l)) op.
Definition th_locking (t : Z) (op : M spinlock_t unit) : M sched_state unit :=
  lock_with (r ← th_load t; mret (t_lock r)) (λ l, th_store t (set_t_lock l)) op.
Definition wq_locking (w : Z) (op : M spinlock_t unit) : M sched_state unit :=
  lock_with (r ← wq_load w; mret (wq_lock r)) (λ l, wq_store w (set_wq_lock l)) op.

Definition cpu_store (f : cpu_t → cpu_t) : M sched_state unit := modify (λ s, set_cpu (f (cpu s)) s).

(** * The queues of a level *)

Definition mlfq_push (q : Z * Z) (t : Z) : M sched_state unit :=
  th_store t (set_rq_next 0) ;;
  x ← q_load q;
  th_store t (set_rq_prev (tail x)) ;;
  (if negb (tail x =? 0) then th_store (tail x) (set_rq_next t) else q_store q (set_head t)) ;;
  q_store q (set_tail t) ;;
  q_store q (λ x, set_count (u32 (count x + 1)) x).

Definition mlfq_pop (q : Z * Z) : M sched_state Z :=
  x ← q_load q;
  let t := head x in
  if t =? 0 then mret 0 else
  th ← th_load t;
  q_store q (set_head (rq_next th)) ;;
  (if negb (rq_next th =? 0) then th_store (rq_next th) (set_rq_prev 0) else q_store q (set_tail 0)) ;;
  th_store t (set_rq_next 0) ;;
  th_store t (set_rq_prev 0) ;;
  q_store q (λ x, set_count (u32 (count x - 1)) x) ;;
  mret t.

Definition mlfq_remove (q : Z * Z) (t : Z) : M sched_state unit :=
  th ← th_load t;
  (if negb (rq_prev th =? 0) then th_store (rq_prev th) (set_rq_next (rq_next th))
   else x ← q_load q; when (head x =? t) (q_store q (set_head (rq_next th)))) ;;
  th ← th_load t;
  (if negb (rq_next th =? 0) then th_store (rq_next th) (set_rq_prev (rq_prev th))
   else x ← q_load q; when (tail x =? t) (q_store q (set_tail (rq_prev th)))) ;;
  th_store t (set_rq_next 0) ;;
  th_store t (set_rq_prev 0) ;;
  q_store q (λ x, set_count (u32 (count x - 1)) x).

(** * The scheduler *)

Section sched.
(** The frequency of the time stamp counter. *)
Context (tsc_freq : Z).

Definition me : M sched_state Z := gets (λ s, cpu_id (cpu s)).
Definition rq_acquire (c : Z) : M sched_state unit := m ← me; rq_locking c (lock_acquire m).
Definition rq_release (c : Z) : M sched_state unit := m ← me; rq_locking c (lock_release m).
Definition th_acquire (t : Z) : M sched_state unit := m ← me; th_locking t (lock_acquire m).
Definition th_release (t : Z) : M sched_state unit := m ← me; th_locking t (lock_release m).
Definition wq_acquire (w : Z) : M sched_state unit := m ← me; wq_locking w (lock_acquire m).
Definition wq_release (w : Z) : M sched_state unit := m ← me; wq_locking w (lock_release m).

(** [tsc_get_nanoseconds]: the product has 128 bits. *)
Definition sched_now_ns : M sched_state Z := gets (λ s, u64 (tsc s * 1000000000 / tsc_freq)).

(** [None] is NULL. *)
Definition sched_rq_for_cpu (c : Z) : M sched_state (option Z) :=
  n ← gets nr_cpus;
  mret (if (c <? 0) || (n <=? c) then None else Some c).

Definition current_rq : M sched_state Z := gets (λ s, cpu_rq (cpu s)).

Definition sched_set_priority (t level : Z) : M sched_state unit :=
  let level := if level <? 0 then 0 else level in
  let level := if 8 <=? level then 8 - 1 else level in
  th_store t (set_priority_level level) ;;
  th_store t (set_time_in_level_ns 0).

Definition sched_enqueue (t : Z) : M sched_state unit :=
  th ← th_load t;
  m ← me;
  let c := if 0 <=? pinned_cpu th then pinned_cpu th
           else if 0 <=? last_cpu th then last_cpu th else m in
  r ← sched_rq_for_cpu c;
  cur ← current_rq;
  let '(rq, c) := match r with Some rq => (rq, c) | None => (cur, m) end in
  rq_acquire rq ;;
  th_store t (set_state THREAD_READY) ;;
  th_store t (set_last_cpu c) ;;
  th ← th_load t;
  mlfq_push (rq, priority_level th) t ;;
  rq_store rq (λ r, set_nr_running (u32 (nr_running r + 1)) r) ;;
  rq_release rq.

Definition sched_dequeue (t : Z) : M sched_state unit :=
  th ← th_load t;
  r ← sched_rq_for_cpu (last_cpu th);
  match r with
  | None => mret tt
  | Some rq =>
      rq_acquire rq ;;
      mlfq_remove (rq, priority_level th) t ;;
      x ← rq_load rq;
      when (0 <? nr_running x) (rq_store rq (λ r, set_nr_running (nr_running r - 1) r)) ;;
      rq_release rq
  end.

(** The search of [steal_from] from level [lvl] down. *)
Fixpoint steal_level (victim : Z) (lvl : nat) : M sched_state Z :=
  q ← q_load (victim, Z.of_nat lvl);
  if 1 <? count q then
    t ← mlfq_pop (victim, Z.of_nat lvl);
    rq_store victim (λ r, set_nr_running (u32 (nr_running r - 1)) r) ;;
    mret t
  else match lvl with O => mret 0 | S lvl => steal_level victim lvl end.

Definition steal_from (victim : Z) : M sched_state Z :=
  v ← rq_load victim;
  if nr_running v =? 0 then mret 0 else steal_level victim 7.

Definition steal_round (self i : Z) : M sched_state (Z + Z) :=
  n ← gets nr_cpus;
  if n <=? i then mret (inr 0) else
  m ← me;
  if i =? m then mret (inl (i + 1)) else
  v ← rq_load i;
  if nr_running v <=? 1 then mret (inl (i + 1)) else
  let '(first, second) := if i <? self then (i, self) else (self, i) in
  rq_acquire first ;;
  rq_acquire second ;;
  stolen ← steal_from i;
  rq_release second ;;
  rq_release first ;;
  if negb (stolen =? 0) then th_store stolen (set_last_cpu m) ;; mret (inr stolen)
  else mret (inl (i + 1)).

Definition try_steal (self : Z) : M sched_state Z :=
  n ← gets nr_cpus;
  loop (S (Z.to_nat n)) (steal_round self) 0.

Fixpoint pick_level (rq : Z) (lvls : list Z) : M sched_state Z :=
  match lvls with
  | [] => mret 0
  | lvl :: lvls =>
      q ← q_load (rq, lvl);
      if 0 <? count q then mlfq_pop (rq, lvl) else pick_level rq lvls
  end.
Definition mlfq_pick_next (rq : Z) : M sched_state Z := pick_level rq [0; 1; 2; 3; 4; 5; 6; 7].

(** One round of the loop that empties a level into level 0. *)
Definition boost_round (rq lvl : Z) (_ : unit) : M sched_state (unit + unit) :=
  t ← mlfq_pop (rq, lvl);
  if t =? 0 then mret (inr tt) else
  th_store t (set_priority_level 0) ;;
  th_store t (set_time_in_level_ns 0) ;;
  mlfq_push (rq, 0) t ;;
  mret (inl tt).
Definition boost_level (rq lvl : Z) : M sched_state unit :=
  n ← gets (λ s, size (threads s));
  loop (S n) (boost_round rq lvl) tt.

Definition maybe_boost (rq : Z) : M sched_state unit :=
  now ← sched_now_ns;
  x ← rq_load rq;
  if last_boost_ns x =? 0 then rq_store rq (set_last_boost_ns now)
  else if u64 (now - last_boost_ns x) <? PRIORITY_BOOST_INTERVAL_NS then mret tt
  else
    rq_store rq (set_last_boost_ns now) ;;
    for_each [1; 2; 3; 4; 5; 6; 7] (boost_level rq).

(** ** The FPU *)

Definition CR0_TS : Z := Z.shiftl 1 3.
Definition read_cr0 : M sched_state Z := gets cr0.
Definition write_cr0 (v : Z) : M sched_state unit := modify (set_cr0 v).
(** An instruction of the FPU traps when the TS bit is set. *)
Definition cr0_ts (s : sched_state) : bool := Z.testbit (cr0 s) 3.

(** [fxsave] and [fxrstor] leave the last 48 bytes of the region to software. *)
Definition FX_BYTES : nat := 464.
Definition fxsave (t : Z) : M sched_state unit :=
  r ← gets fpu_regs;
  th_store t (λ x, set_fpu (mkFpu (r ++ drop FX_BYTES (region (fpu x))) (used (fpu x)) (dirty (fpu x))) x).
Definition fxrstor (t : Z) : M sched_state unit :=
  x ← th_load t;
  modify (set_fpu_regs (take FX_BYTES (region (fpu x)))).

Definition fpu_save (t : Z) : M sched_state unit :=
  x ← th_load t;
  if negb (dirty (fpu x)) then mret tt
  else
    fxsave t ;;
    th_store t (λ x, set_fpu (mkFpu (region (fpu x)) (used (fpu x)) false) x).

Definition fpu_lazy_disable : M sched_state unit := v ← read_cr0; write_cr0 (Z.lor v CR0_TS).

Definition nm_handler : M sched_state unit :=
  v ← read_cr0;
  write_cr0 (Z.land v (not64 CR0_TS)) ;;
  cur ← gets (λ s, current_thread (cpu s));
  x ← th_load cur;
  (if negb (used (fpu x)) then
     th_store cur (λ x, set_fpu (mkFpu (region (fpu x)) true (dirty (fpu x))) x) ;;
     th_store cur (λ x, set_fpu (mkFpu (replicate 512 0) (used (fpu x)) (dirty (fpu x))) x) ;;
     fxrstor cur
   else fxrstor cur) ;;
  th_store cur (λ x, set_fpu (mkFpu (region (fpu x)) (used (fpu x)) true) x).

Definition switch_address_space (t : Z) : M sched_state unit :=
  x ← th_load t;
  when (negb (proc_vmm x =? 0)) (modify (set_cr3 (proc_vmm x))).

Definition switch_tss (t : Z) : M sched_state unit :=
  x ← th_load t;
  cpu_store (set_rsp0 (u64 (kstack_base x + kstack_size x))).

(** [do_switch], up to the switch of stacks. *)
Definition do_switch (p n : Z) : M sched_state unit :=
  fpu_save p ;;
  fpu_lazy_disable ;;
  cpu_store (set_current_thread n) ;;
  r ← current_rq;
  rq_store r (set_current n) ;;
  th_store n (set_state THREAD_RUNNING) ;;
  now ← gets tsc;
  th_store n (set_last_run_tsc now) ;;
  switch_address_space n ;;
  switch_tss n ;;
  x ← th_load n;
  cpu_store (set_sysret_kernel_rsp (u64 (kstack_base x + kstack_size x))).

(** [thread_free_resources] of [task.c]: the thread is no object any more. *)
Definition thread_free_resources (t : Z) : M sched_state unit :=
  th_load t ;; modify (λ s, set_threads (delete t (threads s)) s).

Definition reap_pending_zombie : M sched_state unit :=
  z ← gets (λ s, zombie_to_reap (cpu s));
  when (negb (z =? 0)) (cpu_store (set_zombie_to_reap 0) ;; thread_free_resources z).

(** [schedule] up to the switch of stacks; it yields the thread that runs next.
    After a switch the flags are restored when the thread resumes. *)
Definition schedule : M sched_state Z :=
  reap_pending_zombie ;;
  rq ← current_rq;
  p ← gets (λ s, current_thread (cpu s));
  fl ← gets flags;
  modify (set_flags (cli fl)) ;;
  rq_acquire rq ;;
  x ← th_load p;
  when (bool_decide (state x = THREAD_RUNNING)) (
    sched_set_priority p (priority_level x) ;;
    x ← th_load p;
    mlfq_push (rq, priority_level x) p ;;
    th_store p (set_state THREAD_READY) ;;
    rq_store rq (λ r, set_nr_running (u32 (nr_running r + 1)) r)) ;;
  maybe_boost rq ;;
  n ← mlfq_pick_next rq;
  rq_store rq (set_needs_resched false) ;;
  n ← (if n =? 0 then rq_release rq ;; n ← try_steal rq; rq_acquire rq ;; mret n else mret n);
  n ← (if n =? 0 then r ← rq_load rq; mret (idle r)
       else rq_store rq (λ r, set_nr_running (u32 (nr_running r - 1)) r) ;; mret n);
  rq_release rq ;;
  if n =? p then modify (set_flags fl) ;; mret n
  else do_switch p n ;; mret n.

Definition level_quantum_ms : list Z := [5; 10; 20; 40; 80; 120; 160; 200].

Definition sched_tick : M sched_state unit :=
  c ← gets cpu;
  let cur := current_thread c in
  if cur =? idle_thread c then cpu_store (set_need_resched true) else
  now ← gets tsc;
  x ← th_load cur;
  let delta_ns := u64 (u64 (now - last_run_tsc x) * 1000000000) / (if tsc_freq =? 0 then 1 else tsc_freq) in
  th_store cur (λ x, set_time_in_level_ns (u64 (time_in_level_ns x + delta_ns)) x) ;;
  th_store cur (λ x, set_total_runtime_ns (u64 (total_runtime_ns x + delta_ns)) x) ;;
  x ← th_load cur;
  if priority_level x <? 0 then fault else
  match level_quantum_ms !! Z.to_nat (priority_level x) with
  | None => fault
  | Some ms =>
      when (ms * 1000000 <=? time_in_level_ns x) (
        th_store cur (set_time_in_level_ns 0) ;;
        when (priority_level x <? 8 - 1) (th_store cur (set_priority_level (priority_level x + 1))) ;;
        cpu_store (set_need_resched true))
  end.

Definition sched_check_resched : M sched_state unit :=
  c ← gets cpu;
  if cpu_rq c <? 0 then mret tt else
  when (need_resched c) (cpu_store (set_need_resched false) ;; schedule ;; mret tt).

Definition sched_mark_blocked (t : Z) : M sched_state unit :=
  th_acquire t ;;
  th_store t (set_state THREAD_BLOCKED) ;;
  th_release t.

Definition sched_wake (t : Z) : M sched_state unit :=
  th_acquire t ;;
  x ← th_load t;
  if bool_decide (state x ≠ THREAD_BLOCKED) && bool_decide (state x ≠ THREAD_SLEEPING) then th_release t else
  th_store t (set_state THREAD_READY) ;;
  th_release t ;;
  sched_enqueue t.

(** [sched_exit_current] up to the switch of stacks. *)
Definition sched_exit_current (self code : Z) : M sched_state Z :=
  th_store self (set_exit_code code) ;;
  fl ← gets flags;
  modify (set_flags (cli fl)) ;;
  th_acquire self ;;
  th_store self (set_state THREAD_ZOMBIE) ;;
  th_release self ;;
  cpu_store (set_zombie_to_reap self) ;;
  schedule.

(** * Wait queues *)

Definition waitqueue_init (w : Z) : M sched_state unit :=
  wq_store w (set_wq_lock SPINLOCK_INIT) ;;
  wq_store w (set_wq_head 0) ;;
  wq_store w (set_wq_tail 0).

Definition wq_link (w n : Z) : M sched_state unit :=
  th_store n (set_wn (set_w_next 0)) ;;
  x ← wq_load w;
  th_store n (set_wn (set_w_prev (wq_tail x))) ;;
  th_store n (set_wn (set_w_woken false)) ;;
  (if negb (wq_tail x =? 0) then th_store (wq_tail x) (set_wn (set_w_next n))
   else wq_store w (set_wq_head n)) ;;
  wq_store w (set_wq_tail n).

Definition wq_unlink (w n : Z) : M sched_state unit :=
  x ← th_load n;
  (if negb (w_prev x =? 0) then th_store (w_prev x) (set_wn (set_w_next (w_next x)))
   else wq_store w (set_wq_head (w_next x))) ;;
  x ← th_load n;
  (if negb (w_next x =? 0) then th_store (w_next x) (set_wn (set_w_prev (w_prev x)))
   else wq_store w (set_wq_tail (w_prev x))) ;;
  th_store n (set_wn (set_w_next 0)) ;;
  th_store n (set_wn (set_w_prev 0)).

(** [waitqueue_wait] up to the call of [schedule], and from its return. *)
Definition waitqueue_block (w : Z) : M sched_state Z :=
  self ← gets (λ s, current_thread (cpu s));
  fl ← gets flags;
  modify (set_flags (cli fl)) ;;
  wq_acquire w ;;
  th_store self (set_wn (set_w_thread self)) ;;
  th_store self (set_wn (set_w_woken false)) ;;
  wq_link w self ;;
  th_store self (set_blocked_on w) ;;
  sched_mark_blocked self ;;
  wq_release w ;;
  mret self.
Definition waitqueue_resume (w self : Z) : M sched_state unit :=
  modify (λ s, set_flags (Z.lor (flags s) RFLAGS_IF) s) ;;
  wq_acquire w ;;
  x ← th_load self;
  when (negb (woken (wait_node x))) (wq_unlink w self) ;;
  th_store self (set_blocked_on 0) ;;
  wq_release w.

Definition waitqueue_wake_one (w : Z) : M sched_state unit :=
  wq_acquire w ;;
  x ← wq_load w;
  let node := wq_head x in
  if node =? 0 then wq_release w else
  wq_unlink w node ;;
  th_store node (set_wn (set_w_woken true)) ;;
  n ← th_load node;
  wq_release w ;;
  sched_wake (thread (wait_node n)).

Definition wake_round (node : Z) : M sched_state (Z + unit) :=
  if node =? 0 then mret (inr tt) else
  x ← th_load node;
  th_store node (set_wn (set_w_woken true)) ;;
  th_store node (set_wn (set_w_next 0)) ;;
  th_store node (set_wn (set_w_prev 0)) ;;
  sched_wake (thread (wait_node x)) ;;
  mret (inl (w_next x)).
Definition waitqueue_wake_all (w : Z) : M sched_state unit :=
  wq_acquire w ;;
  x ← wq_load w;
  wq_store w (set_wq_head 0) ;;
  wq_store w (set_wq_tail 0) ;;
  wq_release w ;;
  n ← gets (λ s, size (threads s));
  loop (S n) wake_round (wq_head x).

Definition waitqueue_has_waiters (w : Z) : M sched_state bool :=
  wq_acquire w ;;
  x ← wq_load w;
  wq_release w ;;
  mret (negb (wq_head x =? 0)).
End sched.
