(* ===== verification/SchedSpec.v ===== *)
(** The run queues as lists: what each operation of the scheduler does to the
    sequences of threads that wait at each level. *)
From S2P Require Import Prelude Sync DList Sched.

(** * Steps *)

Section steps.
Implicit Types (s : sched_state).

Lemma wp_th_load Q s t x : threads s !! t = Some x → Q x s → wp (th_load t) Q s.
Proof. unfold wp, th_load. by intros ->. Qed.
Lemma wp_th_store (Q : unit → sched_state → Prop) s t f :
  is_Some (threads s !! t) → Q tt (set_threads (alter f t (threads s)) s) → wp (th_store t f) Q s.
Proof. unfold wp, th_store. by intros [x ->]. Qed.
Lemma wp_rq_load Q s c r : rqs s !! c = Some r → Q r s → wp (rq_load c) Q s.
Proof. unfold wp, rq_load. by intros ->. Qed.
Lemma wp_rq_store (Q : unit → sched_state → Prop) s c f :
  is_Some (rqs s !! c) → Q tt (set_rqs (alter f c (rqs s)) s) → wp (rq_store c f) Q s.
Proof. unfold wp, rq_store. by intros [x ->]. Qed.
Lemma wp_wq_load Q s w x : wqs s !! w = Some x → Q x s → wp (wq_load w) Q s.
Proof. unfold wp, wq_load. by intros ->. Qed.
Lemma wp_wq_store (Q : unit → sched_state → Prop) s w f :
  is_Some (wqs s !! w) → Q tt (set_wqs (alter f w (wqs s)) s) → wp (wq_store w f) Q s.
Proof. unfold wp, wq_store. by intros [x ->]. Qed.

(** The queue of a CPU and a level. *)
Definition queue_at s (k : Z * Z) : option mlfq_queue_t :=
  if k.2 <? 0 then None else r ← rqs s !! k.1; levels r !! Z.to_nat k.2.
Definition put_queue (k : Z * Z) (f : mlfq_queue_t → mlfq_queue_t) s : sched_state :=
  set_rqs (alter (λ r, set_levels (alter f (Z.to_nat k.2) (levels r)) r) k.1 (rqs s)) s.

Lemma wp_q_load Q s k q : queue_at s k = Some q → Q q s → wp (q_load k) Q s.
Proof.
  unfold queue_at, q_load. destruct (k.2 <? 0); [done|].
  destruct (rqs s !! k.1) as [r|] eqn:Hr; simpl; [|done]. intros Hq HQ. wp_pures.
  eapply wp_rq_load; [done|]. by rewrite Hq.
Qed.
Lemma wp_q_store (Q : unit → sched_state → Prop) s k f :
  is_Some (queue_at s k) → Q tt (put_queue k f s) → wp (q_store k f) Q s.
Proof.
  intros [q Hq] HQ. unfold q_store. wp_pures. eapply wp_q_load; [done|].
  apply wp_rq_store; [|done]. unfold queue_at in Hq. destruct (k.2 <? 0); [done|].
  destruct (rqs s !! k.1); [eauto|done].
Qed.

Lemma queue_at_put k f s k' : queue_at s k ≠ None →
  queue_at (put_queue k f s) k' = if decide (k' = k) then f <$> queue_at s k' else queue_at s k'.
Proof.
  destruct k as [c l], k' as [c' l']. unfold queue_at, put_queue. simpl. intros Hk.
  destruct (l <? 0) eqn:Hl; [done|]. destruct (l' <? 0) eqn:Hl'; [by case_decide|].
  rewrite lookup_alter. destruct (decide (c = c')) as [->|].
  - destruct (rqs s !! c') as [r|]; simpl; [|by case_decide]. rewrite list_lookup_alter.
    destruct (decide (l = l')) as [->|]; [by rewrite !decide_True by done|].
    rewrite decide_False by lia. by rewrite decide_False by congruence.
  - rewrite decide_False by congruence. done.
Qed.
Lemma queue_at_put_eq k f s q : queue_at s k = Some q → queue_at (put_queue k f s) k = Some (f q).
Proof. intros Hq. rewrite queue_at_put by congruence. rewrite decide_True by done. by rewrite Hq. Qed.
Lemma queue_at_threads s m k : queue_at (set_threads m s) k = queue_at s k.
Proof. done. Qed.
Lemma threads_put_queue k f s : threads (put_queue k f s) = threads s.
Proof. done. Qed.
Lemma put_queue_threads k f m s : put_queue k f (set_threads m s) = set_threads m (put_queue k f s).
Proof. done. Qed.
Lemma put_queue_put k f g s : put_queue k f (put_queue k g s) = put_queue k (f ∘ g) s.
Proof.
  unfold put_queue. destruct s; unfold set_rqs; simpl. f_equal. rewrite alter_twice.
  apply alter_ext. intros r _. destruct r; unfold set_levels; simpl. f_equal.
  symmetry. generalize (Z.to_nat k.2). induction levels as [|x l IH]; intros [|n]; simpl; [done..|].
  unfold alter in *. simpl. f_equal. apply IH.
Qed.
Lemma put_queue_const k f s q : queue_at s k = Some q → put_queue k f s = put_queue k (λ _, f q) s.
Proof.
  unfold queue_at, put_queue. destruct (k.2 <? 0); [done|].
  destruct (rqs s !! k.1) as [r|] eqn:Hr; simpl; [|done]. intros Hq. f_equal.
  apply alter_ext. intros r' Hr'. simplify_eq. f_equal. apply list_alter_ext; [|done].
  intros x Hx. congruence.
Qed.
Lemma put_queue_id k s q : queue_at s k = Some q → put_queue k (λ _, q) s = s.
Proof.
  unfold queue_at, put_queue. destruct (k.2 <? 0); [done|].
  destruct (rqs s !! k.1) as [r|] eqn:Hr; simpl; [|done]. intros Hq.
  replace (alter _ k.1 (rqs s)) with (rqs s); [by destruct s|].
  symmetry. apply map_eq. intros c. destruct (decide (k.1 = c)) as [<-|].
  - rewrite lookup_alter_eq, Hr. simpl. f_equal. destruct r; unfold set_levels; simpl in *. f_equal.
    rewrite (list_alter_ext _ (λ x, x) levels levels); [by apply list_alter_id|congruence|done].
  - by rewrite lookup_alter_ne.
Qed.
Lemma put_queue_idf k s q : queue_at s k = Some q → put_queue k (λ q, q) s = s.
Proof. intros Hq. etrans; [by apply (put_queue_const _ _ _ q)|]. by apply put_queue_id. Qed.
Lemma set_threads_twice m m' s : set_threads m (set_threads m' s) = set_threads m s.
Proof. done. Qed.
End steps.

(** * The queues as lists *)

(** The threads that wait at each level of each CPU. *)
Definition q_ok (ths : gmap Z thread_t) (q : mlfq_queue_t) (l : list Z) : Prop :=
  queue ths (head q) (tail q) l ∧ count q = Z.of_nat (length l).

Record qs_rep (s : sched_state) (L : Z * Z → list Z) : Prop := {
  qs_q k q : queue_at s k = Some q → q_ok (threads s) q (L k);
  qs_none k : queue_at s k = None → L k = [];
  qs_disj k k' t : t ∈ L k → t ∈ L k' → k = k';
  qs_size : Z.of_nat (size (threads s)) < 2 ^ 32;
}.

Definition upd_q (L : Z * Z → list Z) (k : Z * Z) (l : list Z) : Z * Z → list Z :=
  λ k', if decide (k' = k) then l else L k'.
Lemma upd_q_eq L k l : upd_q L k l k = l.
Proof. unfold upd_q. by rewrite decide_True. Qed.
Lemma upd_q_ne L k l k' : k' ≠ k → upd_q L k l k' = L k'.
Proof. intros. unfold upd_q. by rewrite decide_False. Qed.

(** What the queue operations leave alone: every field of a thread but the
    links, of a run queue but the levels, and everything else. *)
Definition core (x : thread_t) : thread_t := set_rq_next 0 (set_rq_prev 0 x).
Definition rq_core (r : runqueue_t) : runqueue_t := set_levels [] r.
Definition rest (s : sched_state) : sched_state := set_threads ∅ (set_rqs ∅ s).
Record q_frame (s s' : sched_state) : Prop := {
  fr_th t : core <$> threads s' !! t = core <$> threads s !! t;
  fr_rq c : rq_core <$> rqs s' !! c = rq_core <$> rqs s !! c;
  fr_len c : length <$> (levels <$> rqs s' !! c) = length <$> (levels <$> rqs s !! c);
  fr_rest : rest s' = rest s;
}.
#[global] Instance q_frame_refl : Reflexive q_frame.
Proof. by intros s. Qed.
#[global] Instance q_frame_trans : Transitive q_frame.
Proof.
  intros s1 s2 s3 [A1 A2 A3 A4] [B1 B2 B3 B4]. split; intros.
  - by rewrite B1.
  - by rewrite B2.
  - by rewrite B3.
  - by rewrite B4.
Qed.

Lemma frame_is_thread s s' t : q_frame s s' → is_Some (threads s' !! t) ↔ is_Some (threads s !! t).
Proof.
  intros Hf. pose proof (fr_th _ _ Hf t) as H.
  destruct (threads s' !! t), (threads s !! t); simpl in H; try done; split; eauto.
Qed.

Lemma frame_queue s s' k : q_frame s s' → is_Some (queue_at s' k) ↔ is_Some (queue_at s k).
Proof.
  intros Hf. pose proof (fr_len _ _ Hf k.1) as H. unfold queue_at. destruct (k.2 <? 0); [done|].
  destruct (rqs s' !! k.1) as [r'|], (rqs s !! k.1) as [r|]; simpl in *; try done.
  injection H as H. by rewrite !lookup_lt_is_Some, H.
Qed.

Lemma q_frame_put s k f m : queue_at s k ≠ None →
  (∀ t, core <$> m !! t = core <$> threads s !! t) → q_frame s (put_queue k f (set_threads m s)).
Proof.
  intros Hk Hm. split; simpl; [done| | |done].
  - intros c. rewrite lookup_alter. case_decide; [|done]. subst. by destruct (rqs s !! k.1).
  - intros c. rewrite lookup_alter. case_decide; [|done]. subst. destruct (rqs s !! k.1) as [r|]; [|done].
    simpl. by rewrite length_alter.
Qed.

Lemma rep_length s L k q : qs_rep s L → queue_at s k = Some q →
  (length (L k) ≤ size (threads s))%nat.
Proof.
  intros Hr Hq. destruct (qs_q _ _ Hr k q Hq) as [[Hl _] _]. pose proof Hl as (_ & Hnd & _).
  rewrite <-(size_list_to_set (C := gset Z)) by done. rewrite <-size_dom. apply subseteq_size.
  intros t Ht. apply elem_of_list_to_set in Ht. apply elem_of_dom. by eapply linked_in.
Qed.

(** Re-establishing the representation when one queue changed. *)
Lemma qs_rep_update s s' L k q' l :
  qs_rep s L → queue_at s k ≠ None → q_ok (threads s') q' l → queue_at s' k = Some q' →
  (∀ k', k' ≠ k → queue_at s' k' = queue_at s k') →
  (∀ k' t, k' ≠ k → t ∈ L k' → threads s' !! t = threads s !! t) →
  (∀ k' t, k' ≠ k → t ∈ l → t ∈ L k' → False) →
  size (threads s') = size (threads s) → qs_rep s' (upd_q L k l).
Proof.
  intros [Hq Hn Hd Hs] Hk Hok Hq' Hot Hth Hdis Hsz. split.
  - intros k' q. unfold upd_q. case_decide as Hkk; [subst; by intros; simplify_eq|].
    rewrite Hot by done. intros Hk'. destruct (Hq k' q Hk') as [Hqu Hc]. split; [|done].
    eapply queue_frame; [done|]. intros b Hb. by apply (Hth k').
  - intros k'. unfold upd_q. case_decide as Hkk; [subst; congruence|]. rewrite Hot by done. apply Hn.
  - intros k1 k2 t. unfold upd_q. repeat case_decide; subst; try done; intros ? ?.
    + exfalso. by eapply (Hdis k2).
    + exfalso. by eapply (Hdis k1).
    + by eapply Hd.
  - by rewrite Hsz.
Qed.

Lemma size_same_dom (m m' : gmap Z thread_t) : dom m' = dom m → size m' = size m.
Proof. intros H. by rewrite <-!size_dom, H. Qed.

(** * Pushing, popping and removing *)

Section queues.
Implicit Types (s : sched_state) (L : Z * Z → list Z).

Lemma core_append t tl (m : gmap Z thread_t) b : t ≠ tl → core <$> append_map t tl m !! b = core <$> m !! b.
Proof. intros. by apply append_field. Qed.

Lemma wp_mlfq_push s L k t (Q : unit → sched_state → Prop) :
  qs_rep s L → is_Some (queue_at s k) → is_Some (threads s !! t) → t ≠ 0 → (∀ k', t ∉ L k') →
  (∀ s', qs_rep s' (upd_q L k (L k ++ [t])) → q_frame s s' → Q tt s') →
  wp (mlfq_push k t) Q s.
Proof.
  intros Hrep [q Hq] Ht Ht0 Hnin HQ. pose proof (qs_q _ _ Hrep k q Hq) as [Hqu Hc].
  pose proof (queue_last_ne _ _ _ _ _ Hqu (Hnin k) Ht0) as Htl.
  assert (Hk : queue_at s k ≠ None) by congruence.
  set (m := append_map t (tail q) (threads s)).
  set (q' := mkQueue (if tail q =? 0 then t else head q) t (u32 (count q + 1))).
  assert (HQ' : Q tt (put_queue k (λ _, q') (set_threads m s))).
  { apply HQ; [|by apply q_frame_put; [|intros; apply core_append]].
    assert (Hlen : (length (L k) < size (threads s))%nat).
    { destruct Hqu as [Hl _]. pose proof Hl as (_ & Hnd & _).
      rewrite <-(size_list_to_set (C := gset Z)) by done. rewrite <-size_dom. apply subset_size.
      split; [intros b Hb%elem_of_list_to_set; apply elem_of_dom; by eapply linked_in|].
      intros Hsub. apply (Hnin k). apply (elem_of_list_to_set (C := gset Z)). apply Hsub. by apply elem_of_dom. }
    pose proof (qs_size _ _ Hrep).
    eapply (qs_rep_update s _ L k q'); [done|done| | | | | |].
    - split; simpl; [by apply queue_append|]. rewrite length_app, Hc. simpl. rewrite u32_id; lia.
    - by erewrite queue_at_put_eq.
    - intros k' Hk'. rewrite queue_at_put by done. by rewrite decide_False.
    - intros k' b Hk' Hb. simpl. apply append_out; [done|intros ->; by eapply Hnin|].
      destruct (Z.eq_dec (tail q) 0) as [|Hz]; [by left|right]. intros <-. destruct Hqu as [_ Htail].
      destruct (last (L k)) as [y|] eqn:Hy; [|done]. apply last_in in Hy. simpl in Htail. subst y.
      apply Hk'. by apply (qs_disj _ _ Hrep k' k (tail q)).
    - intros k' b Hk' Hb Hb'. apply elem_of_app in Hb as [Hb|Hb%list_elem_of_singleton].
      + apply Hk'. by eapply (qs_disj _ _ Hrep).
      + subst. by eapply Hnin.
    - apply size_same_dom, append_dom. }
  unfold mlfq_push. wp_pures. apply wp_th_store; [done|]. wp_pures.
  eapply wp_q_load; [done|]. wp_pures. apply wp_th_store; [simpl; by rewrite lookup_alter_is_Some|]. wp_pures.
  rewrite set_threads_twice. unfold m, append_map in HQ'. simpl in HQ' |- *.
  unfold q' in HQ'. destruct (Z.eqb_spec (tail q) 0) as [Hz|Hz]; simpl negb; cbv beta iota.
  - apply wp_q_store; [by rewrite queue_at_threads, Hq|]. wp_pures.
    apply wp_q_store; [rewrite (queue_at_put_eq _ _ _ q); eauto|]. wp_pures.
    apply wp_q_store; [rewrite put_queue_put, (queue_at_put_eq _ _ _ q); eauto|].
    rewrite !put_queue_put. erewrite put_queue_const by done. destruct q. exact HQ'.
  - apply wp_th_store.
    { simpl. rewrite !lookup_alter_is_Some. destruct Hqu as [Hl Htail].
      destruct (last (L k)) as [y|] eqn:Hy; [|done]. apply last_in in Hy. simpl in Htail. subst y.
      destruct (linked_in _ _ _ _ Hl Hy). eauto. }
    rewrite set_threads_twice. wp_pures.
    apply wp_q_store; [by rewrite queue_at_threads, Hq|]. wp_pures.
    apply wp_q_store; [rewrite (queue_at_put_eq _ _ _ q); eauto|].
    rewrite !put_queue_put. erewrite put_queue_const by done. destruct q. exact HQ'.
Qed.

Lemma core_unlink p n (m : gmap Z thread_t) b : core <$> unlink_map p n m !! b = core <$> m !! b.
Proof. by apply unlink_field. Qed.
Lemma core_clear (t b : Z) (m : gmap Z thread_t) :
  core <$> alter (set_rq_prev 0) t (alter (set_rq_next 0) t m) !! b = core <$> m !! b.
Proof.
  destruct (decide (t = b)) as [->|]; [rewrite !lookup_alter_eq; by destruct (m !! b)|].
  by rewrite !lookup_alter_ne.
Qed.

(** Taking [t] out of its queue: what the stores add up to. *)
Definition removed_threads (t p n : Z) (m : gmap Z thread_t) : gmap Z thread_t :=
  alter (set_rq_prev 0) t (alter (set_rq_next 0) t (unlink_map p n m)).
Definition removed_queue (q : mlfq_queue_t) (p n : Z) : mlfq_queue_t :=
  mkQueue (if p =? 0 then n else head q) (if n =? 0 then p else tail q) (u32 (count q - 1)).

Lemma qs_rep_remove s L k q l1 t l2 :
  qs_rep s L → queue_at s k = Some q → L k = l1 ++ t :: l2 →
  let p := default 0 (last l1) in let n := default 0 (hd_error l2) in
  let s' := put_queue k (λ _, removed_queue q p n) (set_threads (removed_threads t p n (threads s)) s) in
  qs_rep s' (upd_q L k (l1 ++ l2)) ∧ q_frame s s' ∧ (∀ k', t ∉ upd_q L k (l1 ++ l2) k').
Proof.
  intros Hrep Hq HL p n s'. pose proof (qs_q _ _ Hrep k q Hq) as [Hqu Hc]. rewrite HL in Hqu, Hc.
  assert (Hk : queue_at s k ≠ None) by congruence.
  pose proof Hqu as [(_ & Hnd & _) _]. assert (Ht : t ∉ l1 ++ l2).
  { apply NoDup_app in Hnd as (_ & Hd & Hn). apply NoDup_cons in Hn as [Hn _]. set_solver. }
  assert (Hnot : ∀ k', t ∉ upd_q L k (l1 ++ l2) k').
  { intros k'. unfold upd_q. case_decide as Hkk; [done|]. intros Hin. apply Hkk.
    apply (qs_disj _ _ Hrep k' k t); [done|]. rewrite HL. set_solver. }
  split_and!; [| |done].
  - pose proof (rep_length _ _ _ _ Hrep Hq) as Hlen. rewrite HL, length_app in Hlen. simpl in Hlen.
    pose proof (qs_size _ _ Hrep).
    assert (∀ o, o = last l1 ∨ o = hd_error l2 → ∀ k' b, k' ≠ k → b ∈ L k' → default 0 o = 0 ∨ default 0 o ≠ b) as Hout.
    { intros o Ho k' b Hk' Hb. destruct o as [y|]; [|by left]. right. simpl. intros ->. apply Hk'.
      apply (qs_disj _ _ Hrep k' k b); [done|]. rewrite HL.
      destruct Ho as [Ho|Ho]; symmetry in Ho; [apply last_in in Ho|apply head_in in Ho]; set_solver. }
    eapply (qs_rep_update s s' L k (removed_queue q p n)); [done|done| | | | | |].
    + split; simpl.
      * apply queue_alter; [|by left]. apply queue_alter; [|by left]. by eapply queue_unlink.
      * rewrite length_app in *. simpl in *. rewrite Hc, u32_id; lia.
    + unfold s'. by erewrite queue_at_put_eq.
    + intros k' Hk'. unfold s'. rewrite queue_at_put by done. by rewrite decide_False.
    + intros k' b Hk' Hb. simpl. unfold removed_threads.
      assert (t ≠ b) as Htb.
      { intros ->. apply Hk'. apply (qs_disj _ _ Hrep k' k b); [done|]. rewrite HL. set_solver. }
      rewrite !lookup_alter_ne by done. apply unlink_out; eapply Hout; eauto.
    + intros k' b Hk' Hb Hb'. apply Hk'. apply (qs_disj _ _ Hrep k' k b); [done|]. rewrite HL. set_solver.
    + apply size_same_dom. simpl. unfold removed_threads. by rewrite !dom_alter_L, unlink_dom.
  - apply q_frame_put; [done|]. intros b. unfold removed_threads. by rewrite core_clear, core_unlink.
Qed.

(** Where the queue's pointers and the thread's links lead. *)
Lemma queue_links s L k q l1 t l2 :
  qs_rep s L → queue_at s k = Some q → L k = l1 ++ t :: l2 →
  ∃ x, threads s !! t = Some x ∧ rq_next x = default 0 (hd_error l2) ∧ rq_prev x = default 0 (last l1) ∧
    t ≠ 0 ∧ (default 0 (last l1) = 0 → head q = t) ∧ (default 0 (hd_error l2) = 0 → tail q = t) ∧
    t ≠ default 0 (last l1) ∧ t ≠ default 0 (hd_error l2) ∧
    (default 0 (last l1) ≠ 0 → is_Some (threads s !! default 0 (last l1))) ∧
    (default 0 (hd_error l2) ≠ 0 → is_Some (threads s !! default 0 (hd_error l2))).
Proof.
  intros Hrep Hq HL. destruct (qs_q _ _ Hrep k q Hq) as [[Hl Htl] _]. rewrite HL in Hl, Htl.
  pose proof (linked_nonzero _ _ _ Hl) as H0. pose proof Hl as (Hh & Hnd & _).
  assert (t ∉ l1 ∧ t ∉ l2) as [Ht1 Ht2].
  { apply NoDup_app in Hnd as (_ & Hd & Hn). apply NoDup_cons in Hn as [Hn _]. set_solver. }
  assert (∀ b, b ∈ l1 ++ t :: l2 → is_Some (threads s !! b)) as Hin.
  { intros b Hb. by eapply linked_in. }
  destruct (Hin t) as [x Hx]; [set_solver|]. destruct (linked_at _ _ _ _ _ _ Hl Hx) as [Hn Hp].
  exists x. split_and!; [done..| | | | | | |].
  - intros ->. set_solver.
  - intros Hz. destruct (last l1) as [y|] eqn:Hy; simpl in Hz.
    + subst y. apply last_in in Hy. set_solver.
    + apply last_None in Hy. by subst l1.
  - intros Hz. destruct l2 as [|y l2]; simpl in Hz; [by rewrite Htl, last_snoc|]. subst y. set_solver.
  - destruct (last l1) eqn:Hy; simpl; [|set_solver]. apply last_in in Hy. set_solver.
  - destruct l2; simpl; set_solver.
  - intros Hz. destruct (last l1) eqn:Hy; [|done]. apply last_in in Hy. apply Hin. set_solver.
  - intros Hz. destruct l2; [done|]. apply Hin. set_solver.
Qed.

Lemma wp_mlfq_pop s L k t l (Q : Z → sched_state → Prop) :
  qs_rep s L → is_Some (queue_at s k) → L k = t :: l →
  (∀ s', qs_rep s' (upd_q L k l) → q_frame s s' → (∀ k', t ∉ upd_q L k l k') → t ≠ 0 → Q t s') →
  wp (mlfq_pop k) Q s.
Proof.
  intros Hrep [q Hq] HL HQ. destruct (queue_links _ _ _ _ [] _ _ Hrep Hq HL)
    as (x & Hx & Hn & Hp & Ht0 & Hhead & _ & _ & Htn & _ & Hns).
  destruct (qs_rep_remove _ _ _ _ [] _ _ Hrep Hq HL) as (Hr' & Hf' & Hnot). simpl in *.
  specialize (HQ _ Hr' Hf' Hnot Ht0). unfold mlfq_pop. wp_pures. eapply wp_q_load; [done|]. wp_pures.
  rewrite (Hhead eq_refl). pose proof Ht0 as ->%Z.eqb_neq. wp_pures.
  eapply wp_th_load; [done|]. wp_pures. apply wp_q_store; [eauto|]. wp_pures. rewrite Hn.
  unfold removed_threads, removed_queue, unlink_map in HQ. simpl in HQ.
  destruct (Z.eqb_spec (default 0 (hd_error l)) 0) as [Hz|Hz]; simpl negb; cbv beta iota.
  - apply wp_q_store; [rewrite (queue_at_put_eq _ _ _ q); eauto|]. rewrite put_queue_put. wp_pures.
    apply wp_th_store; [simpl; eauto|]. wp_pures. apply wp_th_store; [simpl; rewrite lookup_alter_is_Some; eauto|].
    wp_pures. apply wp_q_store; [rewrite !queue_at_threads, (queue_at_put_eq _ _ _ q); eauto|]. wp_pures.
    rewrite !put_queue_threads, !put_queue_put, !set_threads_twice. simpl.
    erewrite put_queue_const by done. destruct q. rewrite Hz in HQ |- *. exact HQ.
  - apply wp_th_store; [simpl; auto|]. wp_pures.
    apply wp_th_store; [simpl; rewrite lookup_alter_is_Some; eauto|]. wp_pures.
    apply wp_th_store; [simpl; rewrite !lookup_alter_is_Some; eauto|]. wp_pures.
    apply wp_q_store; [rewrite !queue_at_threads, (queue_at_put_eq _ _ _ q); eauto|]. wp_pures.
    rewrite !put_queue_threads, !put_queue_put, !set_threads_twice. simpl.
    erewrite put_queue_const by done. destruct q. exact HQ.
Qed.

Lemma wp_mlfq_pop_empty s L k (Q : Z → sched_state → Prop) :
  qs_rep s L → is_Some (queue_at s k) → L k = [] → Q 0 s → wp (mlfq_pop k) Q s.
Proof.
  intros Hrep [q Hq] HL HQ. destruct (qs_q _ _ Hrep k q Hq) as [Hqu _]. rewrite HL in Hqu.
  apply queue_empty in Hqu as [Hh _]. unfold mlfq_pop. wp_pures. eapply wp_q_load; [done|]. wp_pures.
  rewrite Hh. by wp_pures.
Qed.

Lemma wp_mlfq_remove s L k l1 t l2 (Q : unit → sched_state → Prop) :
  qs_rep s L → is_Some (queue_at s k) → L k = l1 ++ t :: l2 →
  (∀ s', qs_rep s' (upd_q L k (l1 ++ l2)) → q_frame s s' → (∀ k', t ∉ upd_q L k (l1 ++ l2) k') → Q tt s') →
  wp (mlfq_remove k t) Q s.
Proof.
  intros Hrep [q Hq] HL HQ. destruct (queue_links _ _ _ _ _ _ _ Hrep Hq HL)
    as (x & Hx & Hn & Hp & Ht0 & Hhead & Htail & Htp & Htn & Hps & Hns).
  destruct (qs_rep_remove _ _ _ _ _ _ _ Hrep Hq HL) as (Hr' & Hf' & Hnot).
  specialize (HQ _ Hr' Hf' Hnot). clear Hr' Hf' Hnot. revert HQ.
  set (p := default 0 (last l1)) in *. set (n := default 0 (hd_error l2)) in *. intros HQ.
  unfold removed_threads, removed_queue, unlink_map in HQ. simpl in HQ.
  unfold mlfq_remove, when. wp_pures. eapply wp_th_load; [done|]. wp_pures. rewrite Hn, Hp.
  set (m1 := if p =? 0 then threads s else alter (set_rq_next n) p (threads s)) in HQ.
  apply wp_mono with (P := λ _ s1, s1 = put_queue k (if p =? 0 then set_head n else λ q, q) (set_threads m1 s)).
  { unfold m1. destruct (Z.eqb_spec p 0) as [Hz|Hz]; simpl negb; wp_pures.
    - eapply wp_q_load; [done|]. rewrite (Hhead Hz), Z.eqb_refl. apply wp_q_store; [eauto|]. by destruct s.
    - apply wp_th_store; [auto|]. symmetry. by apply (put_queue_idf _ _ q). }
  intros [] s1 ->. wp_pures.
  assert (∃ x1, m1 !! t = Some x1 ∧ rq_next x1 = n ∧ rq_prev x1 = p) as (x1 & Hx1 & Hn1 & Hp1).
  { exists x. unfold m1. destruct (p =? 0); [done|]. by rewrite lookup_alter_ne. }
  eapply wp_th_load; [simpl; done|]. wp_pures. rewrite Hn1, Hp1.
  assert (queue_at (put_queue k (if p =? 0 then set_head n else λ q, q) (set_threads m1 s)) k =
    Some ((if p =? 0 then set_head n else λ q, q) q)) as Hq1 by (by erewrite queue_at_put_eq).
  set (q1 := (if p =? 0 then set_head n else λ q, q) q) in *.
  assert (tail q1 = tail q ∧ count q1 = count q ∧ head q1 = if p =? 0 then n else head q) as (Htq & Hcq & Hhq).
  { unfold q1. by destruct (p =? 0). }
  set (m2 := if n =? 0 then m1 else alter (set_rq_prev p) n m1) in HQ.
  apply wp_mono with (P := λ _ s2, s2 = put_queue k (λ _, if n =? 0 then set_tail p q1 else q1) (set_threads m2 s)).
  { unfold m2. destruct (Z.eqb_spec n 0) as [Hz|Hz]; simpl negb; wp_pures.
    - eapply wp_q_load; [done|]. rewrite Htq, (Htail Hz), Z.eqb_refl. apply wp_q_store; [eauto|].
      rewrite put_queue_put.
      by apply (put_queue_const k (set_tail p ∘ (if p =? 0 then set_head n else λ q, q)) (set_threads m1 s) q).
    - apply wp_th_store.
      { simpl. unfold m1. destruct (p =? 0); [auto|]. rewrite lookup_alter_is_Some. auto. }
      etrans; [|by apply (put_queue_const k (if p =? 0 then set_head n else λ q, q) (set_threads (alter (set_rq_prev p) n m1) s) q)].
      done. }
  intros [] s2 ->. wp_pures. apply wp_th_store; [simpl; unfold m2; destruct (n =? 0); rewrite ?lookup_alter_is_Some; eauto|].
  wp_pures. apply wp_th_store; [simpl; unfold m2; rewrite lookup_alter_is_Some; destruct (n =? 0); rewrite ?lookup_alter_is_Some; eauto|].
  wp_pures. apply wp_q_store; [rewrite !queue_at_threads, (queue_at_put_eq _ _ _ q); eauto|].
  rewrite !put_queue_threads, !put_queue_put, !set_threads_twice. simpl.
  replace (_ ∘ _) with (λ _ : mlfq_queue_t, mkQueue (if p =? 0 then n else head q)
    (if n =? 0 then p else tail q) (u32 (count q - 1))); [exact HQ|].
  unfold q1, compose. destruct (p =? 0), (n =? 0); by destruct q.
Qed.
End queues.

(** * The invariant of the scheduler *)

Definition lvls : list Z := [0; 1; 2; 3; 4; 5; 6; 7].
(** The threads that wait on CPU [c], level after level. *)
Definition waiting (L : Z * Z → list Z) (c : Z) (ls : list Z) : list Z := concat (map (λ l, L (c, l)) ls).
Definition all_of (L : Z * Z → list Z) (c : Z) : list Z := waiting L c lvls.

(** The run queues are consistent, the locks of the CPUs in [lkd] being held,
    and [nr_running] counts the waiting threads, up to [d] for CPU [c0]. *)
Record sinv (s : sched_state) (L : Z * Z → list Z) (lkd : list Z) (c0 d : Z) : Prop := {
  si_rep : qs_rep s L;
  si_rq c r : rqs s !! c = Some r →
    rq_lock r = (if decide (c ∈ lkd) then held (cpu_id (cpu s)) else unlocked) ∧
    length (levels r) = 8%nat ∧
    nr_running r = Z.of_nat (length (all_of L c)) + (if decide (c = c0) then d else 0);
  si_cpus c : 0 ≤ c < nr_cpus s → is_Some (rqs s !! c);
  si_me : is_Some (rqs s !! cpu_rq (cpu s)) ∧ cpu_rq (cpu s) = cpu_id (cpu s);
}.
(** A thread that waits is ready, and knows its level and its CPU. *)
Definition th_inv (s : sched_state) (L : Z * Z → list Z) : Prop :=
  ∀ k t x, t ∈ L k → threads s !! t = Some x →
    state x = THREAD_READY ∧ priority_level x = k.2 ∧ last_cpu x = k.1.
Definition sched_inv s L : Prop := sinv s L [] 0 0 ∧ th_inv s L.

(** Up to the links, the threads are those of [m]; nothing but threads and run
    queues changed, and of a run queue neither the idle and current thread nor
    the time of the boost. *)
Definition rq_static (r : runqueue_t) := (idle r, current r, last_boost_ns r).
Record s_frame (m : gmap Z thread_t) (s s' : sched_state) : Prop := {
  sf_th t : core <$> threads s' !! t = core <$> m !! t;
  sf_rq c : rq_static <$> rqs s' !! c = rq_static <$> rqs s !! c;
  sf_rest : rest s' = rest s;
}.

(** The same, less what it says of the run queues. *)
Definition t_frame (m : gmap Z thread_t) (s s' : sched_state) : Prop :=
  (∀ t, core <$> threads s' !! t = core <$> m !! t) ∧ rest s' = rest s.

Section inv.
Implicit Types (s : sched_state) (L : Z * Z → list Z).

(** ** Counting *)

Lemma waiting_elem L c ls t : t ∈ waiting L c ls ↔ ∃ l, l ∈ ls ∧ t ∈ L (c, l).
Proof.
  unfold waiting. rewrite list_elem_of_In, in_concat. setoid_rewrite in_map_iff. split.
  - intros (x & (l & <- & Hl) & Ht). exists l. by rewrite !list_elem_of_In.
  - intros (l & Hl & Ht). rewrite !list_elem_of_In in *. eauto.
Qed.

Lemma waiting_nodup s L c ls : qs_rep s L → NoDup ls → NoDup (waiting L c ls).
Proof.
  intros Hr Hnd. induction Hnd as [|l ls Hl Hnd IH]; [apply NoDup_nil_2|]. unfold waiting in *. simpl.
  apply NoDup_app. split_and!; [| |done].
  - destruct (queue_at s (c, l)) as [q|] eqn:Hq; [|rewrite (qs_none _ _ Hr) by done; apply NoDup_nil_2].
    by destruct (qs_q _ _ Hr _ _ Hq) as [[(_ & ? & _) _] _].
  - intros t Ht Ht'. apply (waiting_elem L c ls) in Ht' as (l' & Hl' & Ht').
    pose proof (qs_disj _ _ Hr _ _ _ Ht Ht'). naive_solver.
Qed.

Lemma waiting_le s L c ls : qs_rep s L → NoDup ls → (length (waiting L c ls) ≤ size (threads s))%nat.
Proof.
  intros Hr Hnd. pose proof (waiting_nodup _ _ c _ Hr Hnd) as Hw.
  rewrite <-(size_list_to_set (C := gset Z)) by done. rewrite <-size_dom. apply subseteq_size.
  intros b Hb%elem_of_list_to_set. apply waiting_elem in Hb as (l & _ & Hb). apply elem_of_dom.
  destruct (queue_at s (c, l)) as [q|] eqn:Hq; [|rewrite (qs_none _ _ Hr) in Hb by done; set_solver].
  destruct (qs_q _ _ Hr _ _ Hq) as [[Hl _] _]. by eapply linked_in.
Qed.

Lemma waiting_upd_out L c c' l l' ls : c' ≠ c ∨ l ∉ ls → waiting (upd_q L (c, l) l') c' ls = waiting L c' ls.
Proof.
  intros H. unfold waiting. f_equal. apply map_ext_in. intros a Ha%list_elem_of_In.
  apply upd_q_ne. intros [= -> ->]. destruct H; done.
Qed.
Lemma waiting_upd L c l l' ls : NoDup ls → l ∈ ls →
  (length (waiting (upd_q L (c, l) l') c ls) + length (L (c, l)) =
   length (waiting L c ls) + length l')%nat.
Proof.
  intros Hnd. induction Hnd as [|a ls Ha Hnd IH]; [set_solver|]. intros Hin.
  unfold waiting in *. simpl. rewrite !length_app. destruct (decide (l = a)) as [->|Hne].
  - rewrite upd_q_eq. pose proof (waiting_upd_out L c c a l' ls (or_intror Ha)) as Heq.
    unfold waiting in Heq. rewrite Heq. lia.
  - rewrite upd_q_ne by congruence. specialize (IH ltac:(set_solver)). lia.
Qed.
Lemma lvls_nodup : NoDup lvls.
Proof. unfold lvls. apply (bool_decide_unpack _). by compute. Qed.
Lemma lvls_elem l : l ∈ lvls ↔ 0 ≤ l < 8.
Proof. unfold lvls. rewrite !elem_of_cons, elem_of_nil. lia. Qed.

(** ** Changes that leave the queues alone *)

Lemma qs_rep_same s s' L :
  qs_rep s L → (∀ k, queue_at s' k = queue_at s k) →
  (∀ t, nexts (threads s') t = nexts (threads s) t ∧ prevs (threads s') t = prevs (threads s) t) →
  size (threads s') = size (threads s) → qs_rep s' L.
Proof.
  intros [Hq Hn Hd Hs] Hk Ht Hsz. split; [| |done|by rewrite Hsz].
  - intros k q. rewrite Hk. intros Hkq. destruct (Hq k q Hkq) as [[Hl Htl] Hc]. split; [|done].
    split; [|done]. eapply linked_proper; [done|]. intros b _. apply Ht.
  - intros k. rewrite Hk. apply Hn.
Qed.

Lemma links_alter f t (m : gmap Z thread_t) b :
  (∀ x, rq_next (f x) = rq_next x ∧ rq_prev (f x) = rq_prev x) →
  nexts (alter f t m) b = nexts m b ∧ prevs (alter f t m) b = prevs m b.
Proof.
  intros Hf. unfold nexts, prevs. destruct (decide (t = b)) as [->|]; [|by rewrite lookup_alter_ne].
  rewrite lookup_alter_eq. destruct (m !! b) as [x|]; [|done]. simpl. by destruct (Hf x) as [-> ->].
Qed.

Lemma sinv_th_store s L lkd c0 d t f :
  sinv s L lkd c0 d → (∀ x, rq_next (f x) = rq_next x ∧ rq_prev (f x) = rq_prev x) →
  sinv (set_threads (alter f t (threads s)) s) L lkd c0 d.
Proof.
  intros [Hr Hq Hc Hm] Hf. split; try done. eapply qs_rep_same; [done|done| |].
  - intros b. by apply links_alter.
  - apply size_same_dom. simpl. by rewrite dom_alter_L.
Qed.

(** Storing to a field of a run queue. *)
Lemma sinv_rq_store s L lkd lkd' c0 d d' c f :
  sinv s L lkd c0 d →
  (∀ r, rqs s !! c = Some r → levels (f r) = levels r ∧
     rq_lock (f r) = (if decide (c ∈ lkd') then held (cpu_id (cpu s)) else unlocked) ∧
     nr_running (f r) = Z.of_nat (length (all_of L c)) + (if decide (c = c0) then d' else 0)) →
  (∀ c', c' ≠ c → (c' ∈ lkd' ↔ c' ∈ lkd)) → (c ≠ c0 → d' = d) →
  sinv (set_rqs (alter f c (rqs s)) s) L lkd' c0 d'.
Proof.
  intros [Hr Hq Hc Hm] Hf Hl Hd.
  assert (∀ c', is_Some (alter f c (rqs s) !! c') ↔ is_Some (rqs s !! c')) as Hsome.
  { intros c'. by rewrite lookup_alter_is_Some. }
  split.
  - eapply qs_rep_same; [done| |done|done]. intros k. unfold queue_at. simpl. destruct (k.2 <? 0); [done|].
    destruct (decide (c = k.1)) as [->|]; [|by rewrite lookup_alter_ne].
    rewrite lookup_alter_eq. destruct (rqs s !! k.1) as [r|] eqn:Hrq; [|done]. simpl.
    by destruct (Hf r eq_refl) as [-> _].
  - intros c' r'. simpl. destruct (decide (c = c')) as [<-|Hne].
    + rewrite lookup_alter_eq. destruct (rqs s !! c) as [r|] eqn:Hrq; [|done]. intros [= <-].
      destruct (Hf r eq_refl) as (H1 & H2 & H3). rewrite H1. destruct (Hq c r Hrq) as (_ & ? & _). done.
    + rewrite lookup_alter_ne by done. intros Hrq. destruct (Hq c' r' Hrq) as (H1 & H2 & H3).
      split_and!; [|done|].
      * rewrite H1. destruct (Hl c'); [done|]. repeat case_decide; naive_solver.
      * rewrite H3. case_decide; [subst c'; by rewrite Hd|done].
  - intros c' Hc'. simpl. rewrite Hsome. by apply Hc.
  - simpl. by rewrite Hsome.
Qed.

Lemma sinv_acquire s L lkd c0 d c (Q : unit → sched_state → Prop) :
  sinv s L lkd c0 d → is_Some (rqs s !! c) → c ∉ lkd →
  (let s' := set_rqs (alter (set_rq_lock (held (cpu_id (cpu s)))) c (rqs s)) s in
   sinv s' L (c :: lkd) c0 d → Q tt s') →
  wp (rq_acquire c) Q s.
Proof.
  intros Hs [r Hr] Hn HQ. unfold rq_acquire, me, rq_locking, lock_with. wp_pures.
  eapply wp_rq_load; [done|]. wp_pures. destruct (si_rq _ _ _ _ _ Hs c r Hr) as (Hlk & Hlen & Hnr).
  rewrite decide_False in Hlk by done. rewrite Hlk. simpl. apply wp_rq_store; [eauto|]. apply HQ.
  eapply sinv_rq_store; [done| | |done].
  - intros r' Hr'. simplify_eq. rewrite decide_True by set_solver. done.
  - set_solver.
Qed.
Lemma sinv_release s L lkd c0 d c (Q : unit → sched_state → Prop) :
  sinv s L (c :: lkd) c0 d → is_Some (rqs s !! c) → c ∉ lkd →
  (let s' := set_rqs (alter (set_rq_lock unlocked) c (rqs s)) s in
   sinv s' L lkd c0 d → Q tt s') →
  wp (rq_release c) Q s.
Proof.
  intros Hs [r Hr] Hn HQ. unfold rq_release, me, rq_locking, lock_with. wp_pures.
  eapply wp_rq_load; [done|]. wp_pures. destruct (si_rq _ _ _ _ _ Hs c r Hr) as (Hlk & Hlen & Hnr).
  rewrite decide_True in Hlk by set_solver. rewrite Hlk. simpl. apply wp_rq_store; [eauto|]. apply HQ.
  eapply sinv_rq_store; [done| | |done].
  - intros r' Hr'. simplify_eq. rewrite decide_False by done. done.
  - set_solver.
Qed.

(** ** Changing a queue *)

Lemma rest_fields s s' : rest s' = rest s →
  cpu s' = cpu s ∧ nr_cpus s' = nr_cpus s ∧ wqs s' = wqs s ∧ flags s' = flags s ∧ tsc s' = tsc s ∧
  cr0 s' = cr0 s ∧ cr3 s' = cr3 s ∧ fpu_regs s' = fpu_regs s.
Proof. destruct s, s'. unfold rest, set_threads, set_rqs. simpl. intros [= -> -> -> -> -> -> -> ->]. done. Qed.

Lemma sinv_frame s s' L L' lkd c0 d d' :
  sinv s L lkd c0 d → q_frame s s' → qs_rep s' L' →
  (∀ c, c ≠ c0 → length (all_of L' c) = length (all_of L c)) →
  Z.of_nat (length (all_of L' c0)) + d' = Z.of_nat (length (all_of L c0)) + d →
  sinv s' L' lkd c0 d'.
Proof.
  intros [Hr Hq Hc Hm] Hf Hr' Hlen Hd. destruct (rest_fields _ _ (fr_rest _ _ Hf)) as (Hcpu & Hn & _).
  assert (∀ c, is_Some (rqs s' !! c) ↔ is_Some (rqs s !! c)) as Hsome.
  { intros c. pose proof (fr_rq _ _ Hf c) as H. destruct (rqs s' !! c), (rqs s !! c); simpl in H; try done; split; eauto. }
  split; [done| |intros c; rewrite Hn, Hsome; apply Hc|rewrite Hcpu, Hsome; done].
  intros c r' Hrq'. pose proof (fr_rq _ _ Hf c) as H1. pose proof (fr_len _ _ Hf c) as H2.
  rewrite Hrq' in H1, H2. destruct (rqs s !! c) as [r|] eqn:Hrq; [|done].
  injection H1 as H1 H4 H5 H6 H7 H8. injection H2 as H2. destruct (Hq c r Hrq) as (Q1 & Q2 & Q3).
  rewrite Hcpu, H1, H2, H4. split_and!; [done..|]. rewrite Q3. destruct (decide (c = c0)) as [->|Hne].
  - lia.
  - by rewrite Hlen.
Qed.

Lemma sinv_queue s L lkd c0 d c l : sinv s L lkd c0 d → is_Some (rqs s !! c) → 0 ≤ l < 8 → is_Some (queue_at s (c, l)).
Proof.
  intros Hs [r Hr] Hl. unfold queue_at. simpl. assert (l <? 0 = false) as -> by lia. rewrite Hr. simpl.
  apply lookup_lt_is_Some. destruct (si_rq _ _ _ _ _ Hs c r Hr) as (_ & -> & _). lia.
Qed.

(** What the queue operations change beside the queue. *)
Lemma q_frame_s s s' : q_frame s s' → s_frame (threads s) s s'.
Proof.
  intros [A B C D]. split; [done| |done]. intros c. specialize (B c).
  destruct (rqs s' !! c), (rqs s !! c); simpl in *; try done. unfold rq_static.
  injection B as ? ? ? ? ?. congruence.
Qed.

Lemma s_frame_trans m s1 s2 s3 : s_frame m s1 s2 → q_frame s2 s3 → s_frame m s1 s3.
Proof.
  intros [A B C] Hf. pose proof (q_frame_s _ _ Hf) as [D E F]. split; [|intros; by rewrite E, B|congruence].
  intros t. by rewrite D, A.
Qed.

(** Pushing leaves the count of running threads one behind. *)
Lemma sinv_push s L lkd c d l t (Q : unit → sched_state → Prop) :
  sinv s L lkd c d → is_Some (rqs s !! c) → 0 ≤ l < 8 → is_Some (threads s !! t) → t ≠ 0 → (∀ k, t ∉ L k) →
  (∀ s', sinv s' (upd_q L (c, l) (L (c, l) ++ [t])) lkd c (d - 1) → q_frame s s' → Q tt s') →
  wp (mlfq_push (c, l) t) Q s.
Proof.
  intros Hs Hc Hl Ht Ht0 Hn HQ. eapply wp_mlfq_push; [apply Hs| |done..|].
  { by eapply sinv_queue. }
  intros s' Hr' Hf. apply HQ; [|done]. eapply sinv_frame; [done..| |].
  - intros c' Hc'. unfold all_of. by rewrite waiting_upd_out by auto.
  - pose proof (waiting_upd L c l (L (c, l) ++ [t]) lvls lvls_nodup (proj2 (lvls_elem l) Hl)) as H.
    unfold all_of. rewrite length_app in H. simpl in H. lia.
Qed.

(** Popping and removing leave it one ahead. *)
Lemma sinv_pop s L lkd c d l t ts (Q : Z → sched_state → Prop) :
  sinv s L lkd c d → is_Some (rqs s !! c) → 0 ≤ l < 8 → L (c, l) = t :: ts →
  (∀ s', sinv s' (upd_q L (c, l) ts) lkd c (d + 1) → q_frame s s' →
     (∀ k', t ∉ upd_q L (c, l) ts k') → t ≠ 0 → Q t s') →
  wp (mlfq_pop (c, l)) Q s.
Proof.
  intros Hs Hc Hl HL HQ. eapply wp_mlfq_pop; [apply Hs|by eapply sinv_queue|done|].
  intros s' Hr' Hf Hn Ht0. apply HQ; try done. eapply sinv_frame; [done..| |].
  - intros c' Hc'. unfold all_of. by rewrite waiting_upd_out by auto.
  - pose proof (waiting_upd L c l ts lvls lvls_nodup (proj2 (lvls_elem l) Hl)) as H.
    unfold all_of. rewrite HL in H. simpl in H. lia.
Qed.
Lemma sinv_remove s L lkd c d l l1 t l2 (Q : unit → sched_state → Prop) :
  sinv s L lkd c d → is_Some (rqs s !! c) → 0 ≤ l < 8 → L (c, l) = l1 ++ t :: l2 →
  (∀ s', sinv s' (upd_q L (c, l) (l1 ++ l2)) lkd c (d + 1) → q_frame s s' →
     (∀ k', t ∉ upd_q L (c, l) (l1 ++ l2) k') → Q tt s') →
  wp (mlfq_remove (c, l) t) Q s.
Proof.
  intros Hs Hc Hl HL HQ. eapply wp_mlfq_remove; [apply Hs|by eapply sinv_queue|done|].
  intros s' Hr' Hf Hn. apply HQ; try done. eapply sinv_frame; [done..| |].
  - intros c' Hc'. unfold all_of. by rewrite waiting_upd_out by auto.
  - pose proof (waiting_upd L c l (l1 ++ l2) lvls lvls_nodup (proj2 (lvls_elem l) Hl)) as H.
    unfold all_of. rewrite HL, !length_app in H. simpl in H. lia.
Qed.

(** [nr_running], brought up to date. *)
Lemma sinv_nr s L lkd c d d' g (Q : unit → sched_state → Prop) :
  sinv s L lkd c d → is_Some (rqs s !! c) →
  (∀ r, nr_running r = Z.of_nat (length (all_of L c)) + d → g (nr_running r) = Z.of_nat (length (all_of L c)) + d') →
  (sinv (set_rqs (alter (λ r, set_nr_running (g (nr_running r)) r) c (rqs s)) s) L lkd c d' →
   Q tt (set_rqs (alter (λ r, set_nr_running (g (nr_running r)) r) c (rqs s)) s)) →
  wp (rq_store c (λ r, set_nr_running (g (nr_running r)) r)) Q s.
Proof.
  intros Hs Hc Hg HQ. apply wp_rq_store; [done|]. apply HQ. eapply sinv_rq_store; [done| |done|done].
  intros r Hr. destruct (si_rq _ _ _ _ _ Hs c r Hr) as (H1 & H2 & H3).
  rewrite (decide_True (P := c = c)) in H3 |- * by done. simpl. split_and!; [done..|]. by apply Hg.
Qed.
Lemma sinv_switch s L lkd c0 c : sinv s L lkd c0 0 → sinv s L lkd c 0.
Proof.
  intros [A B C D]. split; [done| |done|done]. intros c' r Hr. destruct (B c' r Hr) as (? & ? & H3).
  split_and!; [done..|]. rewrite H3. repeat case_decide; lia.
Qed.
Lemma sinv_inc s L lkd c (Q : unit → sched_state → Prop) :
  sinv s L lkd c (0 - 1) → is_Some (rqs s !! c) →
  (let s' := set_rqs (alter (λ r, set_nr_running (u32 (nr_running r + 1)) r) c (rqs s)) s in
   sinv s' L lkd c 0 → Q tt s') →
  wp (rq_store c (λ r, set_nr_running (u32 (nr_running r + 1)) r)) Q s.
Proof.
  intros Hs Hc HQ. apply (sinv_nr s L lkd c (0 - 1) 0 (λ n, u32 (n + 1))); [done|done| |done].
  intros r Hr. pose proof (waiting_le _ _ c _ (si_rep _ _ _ _ _ Hs) lvls_nodup).
  pose proof (qs_size _ _ (si_rep _ _ _ _ _ Hs)). unfold all_of in *. rewrite Hr, u32_id; lia.
Qed.
Lemma sinv_dec s L lkd c (Q : unit → sched_state → Prop) :
  sinv s L lkd c (0 + 1) → is_Some (rqs s !! c) →
  (let s' := set_rqs (alter (λ r, set_nr_running (u32 (nr_running r - 1)) r) c (rqs s)) s in
   sinv s' L lkd c 0 → Q tt s') →
  wp (rq_store c (λ r, set_nr_running (u32 (nr_running r - 1)) r)) Q s.
Proof.
  intros Hs Hc HQ. apply (sinv_nr s L lkd c (0 + 1) 0 (λ n, u32 (n - 1))); [done|done| |done].
  intros r Hr. pose proof (waiting_le _ _ c _ (si_rep _ _ _ _ _ Hs) lvls_nodup).
  pose proof (qs_size _ _ (si_rep _ _ _ _ _ Hs)). unfold all_of in *. rewrite Hr, u32_id; lia.
Qed.

Lemma frame_rq s s' c : q_frame s s' → is_Some (rqs s' !! c) ↔ is_Some (rqs s !! c).
Proof.
  intros Hf. pose proof (fr_rq _ _ Hf c) as H.
  destruct (rqs s' !! c), (rqs s !! c); simpl in H; try done; split; eauto.
Qed.

Lemma sinv_level s L lkd c0 d c l t : sinv s L lkd c0 d → t ∈ L (c, l) → is_Some (rqs s !! c) ∧ 0 ≤ l < 8.
Proof.
  intros Hs Ht. destruct (queue_at s (c, l)) as [q|] eqn:Hq;
    [|rewrite (qs_none _ _ (si_rep _ _ _ _ _ Hs)) in Ht by done; set_solver].
  unfold queue_at in Hq. simpl in Hq. destruct (l <? 0) eqn:Hl; [done|].
  destruct (rqs s !! c) as [r|] eqn:Hr; [|done]. split; [eauto|]. simpl in Hq.
  apply lookup_lt_Some in Hq. destruct (si_rq _ _ _ _ _ Hs c r Hr) as (_ & Hlen & _). lia.
Qed.
Lemma sinv_thread s L lkd c0 d k t : sinv s L lkd c0 d → t ∈ L k → is_Some (threads s !! t) ∧ t ≠ 0.
Proof.
  intros Hs Ht. destruct (queue_at s k) as [q|] eqn:Hq;
    [|rewrite (qs_none _ _ (si_rep _ _ _ _ _ Hs)) in Ht by done; set_solver].
  destruct (qs_q _ _ (si_rep _ _ _ _ _ Hs) k q Hq) as [[Hl _] _]. split; [by eapply linked_in|].
  intros ->. by apply (linked_nonzero _ _ _ Hl).
Qed.
Lemma sinv_ext s L L' lkd c0 d : (∀ k, L k = L' k) → sinv s L lkd c0 d → sinv s L' lkd c0 d.
Proof.
  intros HL [[A1 A2 A3 A4] B C D]. split; [split|..]; try done.
  - intros k q. rewrite <-HL. apply A1.
  - intros k. rewrite <-HL. apply A2.
  - intros k k' t. rewrite <-!HL. apply A3.
  - intros c r Hr. destruct (B c r Hr) as (? & ? & ->). split_and!; [done..|]. unfold all_of, waiting.
    do 4 f_equal. apply map_ext. intros. by rewrite HL.
Qed.

(** * Picking *)

Lemma wp_pick_level s L lkd c ls :
  sinv s L lkd c 0 → is_Some (rqs s !! c) → (∀ l, l ∈ ls → 0 ≤ l < 8) →
  wp (pick_level c ls) (λ r s',
    (r = 0 ∧ s' = s ∧ ∀ l, l ∈ ls → L (c, l) = []) ∨
    (∃ pre l post ts, ls = pre ++ l :: post ∧ (∀ j, j ∈ pre → L (c, j) = []) ∧ L (c, l) = r :: ts ∧ r ≠ 0 ∧
       sinv s' (upd_q L (c, l) ts) lkd c (0 + 1) ∧ q_frame s s' ∧ ∀ k, r ∉ upd_q L (c, l) ts k)) s.
Proof.
  intros Hs Hc. induction ls as [|l ls IH]; intros Hls; simpl; [wp_pures; left; set_solver|].
  assert (0 ≤ l < 8) as Hl by (apply Hls; set_solver).
  destruct (sinv_queue _ _ _ _ _ _ _ Hs Hc Hl) as [q Hq]. wp_pures. eapply wp_q_load; [done|].
  destruct (qs_q _ _ (si_rep _ _ _ _ _ Hs) _ q Hq) as [Hqu Hcount]. rewrite Hcount.
  destruct (L (c, l)) as [|t ts] eqn:HL; simpl length.
  - simpl. eapply wp_mono; [apply IH; set_solver|]. intros r s' [(-> & -> & He)|(pre & l' & post & ts & -> & H)].
    + left. split_and!; [done..|]. intros j [->|Hj]%elem_of_cons; [done|auto].
    + right. destruct H as (H & H'). exists (l :: pre), l', post, ts. split; [done|]. split; [|done].
      intros j [->|Hj]%elem_of_cons; [done|auto].
  - rewrite (proj2 (Z.ltb_lt 0 _)) by lia.
    eapply sinv_pop; [done|done|done|done|]. intros s' Hs' Hf Hn Ht. right.
    exists [], l, ls, ts. split_and!; try done. set_solver.
Qed.
End inv.

(** * The priority boost *)

Section boost.
Context (tsc_freq : Z).
Implicit Types (s : sched_state) (L : Z * Z → list Z).

(** What the boost does to a thread, and to the threads of a list. *)
Definition boost1 : thread_t → thread_t := set_time_in_level_ns 0 ∘ set_priority_level 0.
Definition boost_all (ts : list Z) (m : gmap Z thread_t) : gmap Z thread_t :=
  foldl (λ m t, alter boost1 t m) m ts.

Lemma boost_all_app ts ts' m : boost_all (ts ++ ts') m = boost_all ts' (boost_all ts m).
Proof. apply foldl_app. Qed.
Lemma boost_all_core ts (m m' : gmap Z thread_t) :
  (∀ t, core <$> m !! t = core <$> m' !! t) → ∀ t, core <$> boost_all ts m !! t = core <$> boost_all ts m' !! t.
Proof.
  revert m m'. induction ts as [|a ts IH]; intros m m' Hm; [done|]. simpl. apply IH. intros t.
  destruct (decide (a = t)) as [->|]; [|by rewrite !lookup_alter_ne]. rewrite !lookup_alter_eq.
  specialize (Hm t). destruct (m !! t) as [x|], (m' !! t) as [y|]; simpl in *; try done.
  apply (inj Some) in Hm. f_equal. change (core (boost1 x)) with (boost1 (core x)). by rewrite Hm.
Qed.
Lemma boost_all_lookup ts (m : gmap Z thread_t) t x : boost_all ts m !! t = Some x →
  ∃ y, m !! t = Some y ∧ (x = y ∧ t ∉ ts ∨ t ∈ ts ∧ priority_level x = 0) ∧
    state x = state y ∧ last_cpu x = last_cpu y.
Proof.
  revert m. induction ts as [|a ts IH]; intros m; simpl.
  { intros. exists x. split_and!; [done| |done|done]. left. set_solver. }
  intros (y & Hy & H & Hst & Hlc)%IH. destruct (decide (a = t)) as [->|Hne].
  - rewrite lookup_alter_eq in Hy. destruct (m !! t) as [z|]; [|done]. injection Hy as <-.
    exists z. split_and!; [done| |done|done]. right. split; [set_solver|]. by destruct H as [[-> _]|[_ ?]].
  - rewrite lookup_alter_ne in Hy by done. exists y. split_and!; [done| |done|done]. set_solver.
Qed.

(** The queues after the threads of the levels [ls] have been moved to level 0. *)
Definition boosted L (c : Z) (ls : list Z) : Z * Z → list Z := λ k,
  if decide (k = (c, 0)) then L k ++ waiting L c ls
  else if decide (k.1 = c ∧ k.2 ∈ ls) then [] else L k.

Lemma s_frame_compose m s1 s2 s3 ts :
  s_frame m s1 s2 → s_frame (boost_all ts (threads s2)) s2 s3 → s_frame (boost_all ts m) s1 s3.
Proof.
  intros [A B C] [D E F]. split; [|intros; by rewrite E|congruence].
  intros t. rewrite D. by apply boost_all_core.
Qed.

Lemma wp_boost_loop fuel ts s L lkd c lvl :
  (length ts < fuel)%nat → 0 < lvl < 8 → L (c, lvl) = ts → sinv s L lkd c 0 → is_Some (rqs s !! c) →
  wp (loop fuel (boost_round c lvl) tt) (λ _ s',
    sinv s' (upd_q (upd_q L (c, 0) (L (c, 0) ++ ts)) (c, lvl) []) lkd c 0 ∧ is_Some (rqs s' !! c) ∧
    s_frame (boost_all ts (threads s)) s s') s.
Proof.
  revert ts s L. induction fuel as [|fuel IH]; intros ts s L Hfuel Hlvl HL Hs Hc; [lia|]. simpl.
  apply wp_bind. match goal with |- wp _ ?P _ => set (post := P) end. unfold boost_round. wp_pures.
  destruct ts as [|t ts].
  { eapply wp_mlfq_pop_empty; [apply Hs|by eapply sinv_queue; [done..|lia]|done|]. simpl. wp_pures. unfold post. wp_pures.
    split_and!; [|done|done]. eapply sinv_ext; [|done]. intros k. unfold upd_q.
    repeat case_decide; subst; rewrite ?app_nil_r; done. }
  eapply sinv_pop; [done|done|lia|done|]. intros s1 Hs1 Hf1 Hn1 Ht0. pose proof Ht0 as ->%Z.eqb_neq. wp_pures.
  assert (is_Some (threads s1 !! t)) as Ht1.
  { apply (frame_is_thread _ _ _ Hf1). eapply sinv_thread; [done|]. rewrite HL. set_solver. }
  apply wp_th_store; [done|]. wp_pures. apply wp_th_store; [simpl; by rewrite lookup_alter_is_Some|]. wp_pures.
  rewrite set_threads_twice. simpl. rewrite alter_twice. fold boost1.
  assert (sinv (set_threads (alter boost1 t (threads s1)) s1) (upd_q L (c, lvl) ts) lkd c (0 + 1)) as Hs2.
  { by apply sinv_th_store. }
  apply (frame_rq _ _ _ Hf1) in Hc as Hc1.
  eapply sinv_push; [exact Hs2|done|lia|simpl; by rewrite lookup_alter_is_Some|done|done|].
  intros s3 Hs3 Hf3. wp_pures. unfold post. apply (frame_rq _ _ _ Hf3) in Hc1 as Hc3.
  assert (s_frame (alter boost1 t (threads s)) s s3) as Hfr.
  { eapply s_frame_trans; [|exact Hf3]. pose proof (q_frame_s _ _ Hf1) as [A B C]. split; [|done|done].
    intros b. simpl. apply (boost_all_core [t]). exact A. }
  eapply wp_mono; [eapply (IH ts); [simpl in Hfuel; lia|done| |exact Hs3|done]|].
  { rewrite upd_q_ne by (intros [= ?]; lia). by rewrite upd_q_eq. }
  intros [] s' (Hs' & Hc' & Hf'). split_and!; [|done|].
  - eapply sinv_ext; [|done]. intros k. unfold upd_q. repeat case_decide; simplify_eq; try done; try lia.
    by rewrite <-app_assoc.
  - simpl. by eapply s_frame_compose.
Qed.

Lemma wp_boost_level s L lkd c lvl :
  0 < lvl < 8 → sinv s L lkd c 0 → is_Some (rqs s !! c) →
  wp (boost_level c lvl) (λ _ s',
    sinv s' (upd_q (upd_q L (c, 0) (L (c, 0) ++ L (c, lvl))) (c, lvl) []) lkd c 0 ∧ is_Some (rqs s' !! c) ∧
    s_frame (boost_all (L (c, lvl)) (threads s)) s s') s.
Proof.
  intros Hlvl Hs Hc. unfold boost_level. wp_pures. apply wp_boost_loop; try done.
  assert (0 ≤ lvl < 8) as Hl by lia. destruct (sinv_queue _ _ _ _ _ _ _ Hs Hc Hl) as [q Hq].
  pose proof (rep_length _ _ _ _ (si_rep _ _ _ _ _ Hs) Hq). lia.
Qed.

(** The loop over the levels. *)
Lemma wp_boost_levels s L lkd c :
  sinv s L lkd c 0 → is_Some (rqs s !! c) →
  wp (for_each [1; 2; 3; 4; 5; 6; 7] (boost_level c)) (λ _ s',
    sinv s' (boosted L c [1; 2; 3; 4; 5; 6; 7]) lkd c 0 ∧ is_Some (rqs s' !! c) ∧
    s_frame (boost_all (waiting L c [1; 2; 3; 4; 5; 6; 7]) (threads s)) s s') s.
Proof.
  intros Hs Hc. eapply (wp_for_each (λ ls s', sinv s' (boosted L c ls) lkd c 0 ∧ is_Some (rqs s' !! c) ∧
    s_frame (boost_all (waiting L c ls) (threads s)) s s')); [| |done].
  { split_and!; [|done|done]. eapply sinv_ext; [|done]. intros k. unfold boosted, waiting. simpl.
    repeat case_decide; rewrite ?app_nil_r; try done. set_solver. }
  intros ls lvl ls' s' Hls (Hs' & Hc' & Hf').
  assert (0 < lvl < 8 ∧ lvl ∉ ls ∧ 0 ∉ ls) as (Hlvl & Hn & H0).
  { assert (NoDup [1; 2; 3; 4; 5; 6; 7]) as Hnd by (apply (bool_decide_unpack _); by compute).
    assert (∀ l, l ∈ [1; 2; 3; 4; 5; 6; 7] → 0 < l < 8) as Hr by (intros l; rewrite !elem_of_cons, elem_of_nil; lia).
    rewrite Hls in Hnd, Hr. apply NoDup_app in Hnd as (_ & Hd & _). split; [apply Hr; set_solver|].
    split; [intros Hin; specialize (Hd lvl Hin); set_solver|]. intros Hin. specialize (Hr 0 ltac:(set_solver)). lia. }
  assert (boosted L c ls (c, lvl) = L (c, lvl)) as HLl.
  { unfold boosted. rewrite decide_False by (intros [= ?]; lia). by rewrite decide_False by naive_solver. }
  eapply wp_mono; [by apply wp_boost_level|]. rewrite HLl. intros [] s'' (Hs'' & Hc'' & Hf''). split_and!; [|done|].
  - eapply sinv_ext; [|done]. intros k. unfold boosted, waiting. rewrite map_app, concat_app. simpl. rewrite app_nil_r.
    unfold upd_q. destruct k as [c' l']. simpl. destruct (decide (c' = c)) as [->|Hcc]; cycle 1.
    { rewrite !decide_False by naive_solver. done. }
    destruct (decide (l' = 0)) as [->|Hl0].
    { rewrite !(decide_True (P := (c, 0) = (c, 0))) by done. rewrite decide_False by (intros [= ?]; lia).
      by rewrite app_assoc. }
    rewrite !(decide_False (P := (c, l') = (c, 0))) by (intros [= ?]; lia).
    destruct (decide (l' = lvl)) as [->|Hll].
    { rewrite (decide_True (P := (c, lvl) = (c, lvl))) by done. rewrite decide_True by set_solver. done. }
    rewrite (decide_False (P := (c, l') = (c, lvl))) by (intros [= ?]; done).
    destruct (decide (c = c ∧ l' ∈ ls)); [rewrite decide_True by set_solver|rewrite decide_False by set_solver]; done.
  - unfold waiting. rewrite map_app, concat_app. simpl. rewrite app_nil_r, boost_all_app. by eapply s_frame_compose.
Qed.

(** Whether a boost is due. *)
Definition boost_due s (c : Z) : bool :=
  match rqs s !! c with
  | Some r => negb (last_boost_ns r =? 0) &&
      negb (u64 (u64 (tsc s * 1000000000 / tsc_freq) - last_boost_ns r) <? PRIORITY_BOOST_INTERVAL_NS)
  | None => false
  end.
Definition boost_levels : list Z := [1; 2; 3; 4; 5; 6; 7].

Lemma wp_maybe_boost s L lkd c :
  sinv s L lkd c 0 → is_Some (rqs s !! c) →
  wp (maybe_boost tsc_freq c) (λ _ s',
    sinv s' (if boost_due s c then boosted L c boost_levels else L) lkd c 0 ∧ is_Some (rqs s' !! c) ∧
    t_frame (if boost_due s c then boost_all (waiting L c boost_levels) (threads s) else threads s) s s') s.
Proof.
  intros Hs [r Hr]. unfold maybe_boost, sched_now_ns, boost_due. rewrite Hr. wp_pures. eapply wp_rq_load; [done|].
  assert (∀ v, sinv (set_rqs (alter (set_last_boost_ns v) c (rqs s)) s) L lkd c 0 ∧
    is_Some (rqs (set_rqs (alter (set_last_boost_ns v) c (rqs s)) s) !! c) ∧
    t_frame (threads s) s (set_rqs (alter (set_last_boost_ns v) c (rqs s)) s)) as Hset.
  { intros v. split_and!.
    - eapply sinv_rq_store; [done| |done|done]. intros r' Hr'.
      by destruct (si_rq _ _ _ _ _ Hs c r' Hr') as (? & ? & ?).
    - simpl. rewrite lookup_alter_is_Some. eauto.
    - done. }
  destruct (last_boost_ns r =? 0); simpl.
  { apply wp_rq_store; [eauto|]. apply Hset. }
  destruct (_ <? PRIORITY_BOOST_INTERVAL_NS); simpl; wp_pures; [by split_and!; [|eauto|]|].
  apply wp_rq_store; [eauto|]. destruct (Hset (u64 (tsc s * 1000000000 / tsc_freq))) as (H1 & H2 & H3).
  eapply wp_mono; [by apply wp_boost_levels|]. intros [] s' (? & ? & [A B C]). split_and!; [done..|].
  by split; [|rewrite C].
Qed.
End boost.
