(* ===== verification/SchedTheorems.v ===== *)
(** What the scheduler and the wait queues promise. *)
From S2P Require Import Prelude Sync DList Sched SchedSpec.

Section frames.
Implicit Types (s : sched_state) (L : Z * Z → list Z).

Lemma s_frame_refl s : s_frame (threads s) s s.
Proof. done. Qed.
Lemma s_frame_rq m s s1 c f :
  s_frame m s s1 → (∀ r, rq_static (f r) = rq_static r) → s_frame m s (set_rqs (alter f c (rqs s1)) s1).
Proof.
  intros [A B C] Hf. split; [done| |done]. intros c'. simpl. rewrite <-B.
  destruct (decide (c = c')) as [->|]; [|by rewrite lookup_alter_ne].
  rewrite lookup_alter_eq. destruct (rqs s1 !! c'); simpl; [|done]. by rewrite Hf.
Qed.
Lemma s_frame_th m s s1 t f :
  s_frame m s s1 → (∀ x, core (f x) = core (f (core x))) →
  s_frame (alter f t m) s (set_threads (alter f t (threads s1)) s1).
Proof.
  intros [A B C] Hf. split; [|done|done]. intros t'. simpl. specialize (A t').
  destruct (decide (t = t')) as [->|]; [|by rewrite !lookup_alter_ne].
  rewrite !lookup_alter_eq. destruct (threads s1 !! t') as [x|], (m !! t') as [y|]; simpl in *; try done.
  apply (inj Some) in A. f_equal. by rewrite (Hf x), (Hf y), A.
Qed.
Lemma s_frame_t m s s' : s_frame m s s' → t_frame m s s'.
Proof. by intros [A B C]. Qed.
Lemma t_frame_lookup m s s' t x' : t_frame m s s' → threads s' !! t = Some x' →
  ∃ x, m !! t = Some x ∧ core x' = core x.
Proof.
  intros [Hf _] Hx. pose proof (Hf t) as H. rewrite Hx in H. simpl in H.
  destruct (m !! t) as [x|]; [|done]. apply (inj Some) in H. eauto.
Qed.
Lemma core_fields x y : core x = core y →
  state x = state y ∧ priority_level x = priority_level y ∧ last_cpu x = last_cpu y ∧ t_lock x = t_lock y ∧
  wait_node x = wait_node y ∧ pinned_cpu x = pinned_cpu y ∧ blocked_on x = blocked_on y.
Proof. destruct x, y. unfold core, set_rq_next, set_rq_prev. simpl. intros [=]. by subst. Qed.

(** The threads that wait keep what [th_inv] says of them when their records
    do not change but for the links. *)
Lemma th_inv_frame s s' L L' m :
  th_inv s L → t_frame m s s' →
  (∀ k t x, t ∈ L' k → m !! t = Some x →
     (t ∈ L k ∧ threads s !! t = Some x) ∨ (state x = THREAD_READY ∧ priority_level x = k.2 ∧ last_cpu x = k.1)) →
  th_inv s' L'.
Proof.
  intros Hinv Hf HL k t x' Ht Hx'. destruct (t_frame_lookup _ _ _ _ _ Hf Hx') as (x & Hx & Hc).
  destruct (core_fields _ _ Hc) as (-> & -> & -> & _).
  destruct (HL k t x Ht Hx) as [[Ht' Hx0]|]; [by apply (Hinv k t)|done].
Qed.
End frames.

(** * Enqueueing and dequeueing *)

Section enqueue.
Implicit Types (s : sched_state) (L : Z * Z → list Z).

(** The CPU a thread is queued on. *)
Definition home s (x : thread_t) : Z :=
  let c := if 0 <=? pinned_cpu x then pinned_cpu x
           else if 0 <=? last_cpu x then last_cpu x else cpu_id (cpu s) in
  if (c <? 0) || (nr_cpus s <=? c) then cpu_id (cpu s) else c.

Lemma wp_sched_enqueue s L t x :
  sched_inv s L → threads s !! t = Some x → t ≠ 0 → (∀ k, t ∉ L k) → 0 ≤ priority_level x < 8 →
  let k := (home s x, priority_level x) in
  wp (sched_enqueue t) (λ _ s', sched_inv s' (upd_q L k (L k ++ [t])) ∧
    s_frame (alter (set_last_cpu (home s x) ∘ set_state THREAD_READY) t (threads s)) s s') s.
Proof.
  intros [Hs Hth] Hx Ht0 Hn Hp k. unfold sched_enqueue, me, sched_rq_for_cpu, current_rq. wp_pures.
  eapply wp_th_load; [done|]. wp_pures. set (c := if 0 <=? pinned_cpu x then _ else _).
  assert (is_Some (rqs s !! home s x)) as Hrq.
  { unfold home. fold c. destruct (si_me _ _ _ _ _ Hs) as [Hme Heq].
    destruct ((c <? 0) || (nr_cpus s <=? c)) eqn:Hc; [by rewrite <-Heq|].
    apply orb_false_iff in Hc as [H1 H2]. eapply si_cpus; [done|lia]. }
  assert (match (if (c <? 0) || (nr_cpus s <=? c) then None else Some c) with
          | Some rq => (rq, c) | None => (cpu_rq (cpu s), cpu_id (cpu s)) end = (home s x, home s x)) as ->.
  { unfold home. fold c. destruct (si_me _ _ _ _ _ Hs) as [_ Heq]. rewrite Heq.
    by destruct ((c <? 0) || (nr_cpus s <=? c)). }
  apply (sinv_switch _ _ _ _ (home s x)) in Hs. set (h := home s x) in *. wp_pures.
  eapply sinv_acquire; [done..|set_solver|]. intros s1 Hs1. wp_pures.
  apply wp_th_store; [simpl; eauto|]. wp_pures. apply wp_th_store; [simpl; rewrite lookup_alter_is_Some; eauto|].
  wp_pures. eapply wp_th_load; [simpl; rewrite lookup_alter_eq, lookup_alter_eq, Hx; done|]. simpl.
  rewrite set_threads_twice.
  set (s2 := set_threads (alter (set_last_cpu h) t (alter (set_state THREAD_READY) t (threads s))) s1).
  assert (sinv s2 L [h] h 0) as Hs2.
  { apply (sinv_th_store _ _ _ _ _ t (set_state THREAD_READY)) in Hs1; [|done].
    by apply (sinv_th_store _ _ _ _ _ t (set_last_cpu h)) in Hs1. }
  assert (s_frame (alter (set_last_cpu h) t (alter (set_state THREAD_READY) t (threads s))) s s2) as Hf2.
  { assert (s_frame (threads s) s s1) as Hf1 by (by apply s_frame_rq).
    apply (s_frame_th _ _ _ t (set_state THREAD_READY)) in Hf1; [|done].
    apply (s_frame_th _ _ _ t (set_last_cpu h)) in Hf1; [|done]. exact Hf1. }
  assert (is_Some (rqs s2 !! h)) as Hrq2 by (simpl; by rewrite lookup_alter_is_Some).
  wp_pures. eapply (sinv_push s2 L [h] h); [done|done|done| |done..|].
  { simpl. rewrite !lookup_alter_is_Some. eauto. }
  intros s3 Hs3 Hf3. wp_pures. apply (frame_rq _ _ _ Hf3) in Hrq2 as Hrq3.
  eapply sinv_inc; [done|done|].
  intros s4 Hs4. wp_pures. eapply sinv_release; [done|simpl; by rewrite lookup_alter_is_Some|set_solver|].
  intros s5 Hs5.
  assert (s_frame (alter (set_last_cpu h ∘ set_state THREAD_READY) t (threads s)) s s5) as Hf5.
  { rewrite <-alter_twice. apply s_frame_rq; [|done]. apply s_frame_rq; [|done]. by eapply s_frame_trans. }
  split; [|done]. split; [by apply (sinv_switch _ _ _ h)|].
  eapply th_inv_frame; [done|by apply s_frame_t|]. intros k' t' x' Ht'. destruct (decide (t = t')) as [<-|Hne].
  - rewrite lookup_alter_eq, Hx. intros [= <-]. right. simpl. unfold upd_q in Ht'. case_decide as Hk; [by subst k'|].
    by apply Hn in Ht'.
  - rewrite lookup_alter_ne by done. intros Hx'. left. split; [|done]. unfold upd_q in Ht'.
    case_decide as Hk; [subst k'|done]. set_solver.
Qed.
End enqueue.

(** * Scheduling *)

Section schedule.
Context (tsc_freq : Z).
Implicit Types (s : sched_state) (L : Z * Z → list Z).

Lemma sinv_misc s s' L lkd c0 d :
  sinv s L lkd c0 d → threads s' = threads s → rqs s' = rqs s → nr_cpus s' = nr_cpus s →
  cpu_id (cpu s') = cpu_id (cpu s) → cpu_rq (cpu s') = cpu_rq (cpu s) → sinv s' L lkd c0 d.
Proof.
  intros [[A1 A2 A3 A4] B C D] Ht Hr Hn Hi Hq.
  assert (∀ k, queue_at s' k = queue_at s k) as Hk by (intros k; unfold queue_at; by rewrite Hr).
  split; [split|..]; rewrite ?Ht, ?Hr, ?Hn, ?Hi, ?Hq; try done.
  - intros k q. rewrite Hk. apply A1.
  - intros k. rewrite Hk. apply A2.
Qed.
Lemma th_inv_misc s s' L : th_inv s L → threads s' = threads s → th_inv s' L.
Proof. intros H Ht. unfold th_inv. by rewrite Ht. Qed.
Lemma th_inv_store s L t f :
  th_inv s L → (∀ k, t ∉ L k) ∨ (∀ x, state (f x) = state x ∧ priority_level (f x) = priority_level x ∧
    last_cpu (f x) = last_cpu x) → th_inv (set_threads (alter f t (threads s)) s) L.
Proof.
  intros H Hf k b x Hb. simpl. destruct (decide (t = b)) as [->|]; [|rewrite lookup_alter_ne by done; by apply H].
  rewrite lookup_alter_eq. destruct (threads s !! b) as [y|] eqn:Hy; [|done]. intros [= <-].
  destruct Hf as [Hf|Hf]; [by apply Hf in Hb|]. destruct (Hf y) as (-> & -> & ->). by apply (H k b).
Qed.

(** The thread that was running is put back behind the others of its level. *)
Definition requeued (x : thread_t) : thread_t → thread_t :=
  set_state THREAD_READY ∘ set_time_in_level_ns 0 ∘ set_priority_level (priority_level x).

Lemma wp_requeue s L c p x (Q : unit → sched_state → Prop) :
  sinv s L [c] c 0 → th_inv s L → is_Some (rqs s !! c) → threads s !! p = Some x →
  0 ≤ priority_level x < 8 → p ≠ 0 → (∀ k, p ∉ L k) → last_cpu x = c →
  (let k := (c, priority_level x) in ∀ s',
     sinv s' (upd_q L k (L k ++ [p])) [c] c 0 → th_inv s' (upd_q L k (L k ++ [p])) → is_Some (rqs s' !! c) →
     s_frame (alter (requeued x) p (threads s)) s s' → Q tt s') →
  wp (sched_set_priority p (priority_level x) ;; y ← th_load p; mlfq_push (c, priority_level y) p ;;
      th_store p (set_state THREAD_READY) ;;
      rq_store c (λ r, set_nr_running (u32 (nr_running r + 1)) r)) Q s.
Proof.
  intros Hs Hth Hc Hx Hp Hp0 Hn Hlast HQ. unfold sched_set_priority.
  assert (priority_level x <? 0 = false) as -> by lia. assert (8 <=? priority_level x = false) as -> by lia.
  wp_pures. apply wp_th_store; [eauto|]. wp_pures. apply wp_th_store; [simpl; rewrite lookup_alter_is_Some; eauto|].
  wp_pures. rewrite set_threads_twice. simpl. rewrite alter_twice.
  eapply wp_th_load; [simpl; by rewrite lookup_alter_eq, Hx|]. wp_pures. simpl.
  set (f := set_time_in_level_ns 0 ∘ set_priority_level (priority_level x)).
  assert (sinv (set_threads (alter f p (threads s)) s) L [c] c 0) as Hs1 by (by apply sinv_th_store).
  eapply sinv_push; [exact Hs1|done|done|simpl; rewrite lookup_alter_is_Some; eauto|done|done|].
  intros s2 Hs2 Hf2. wp_pures. apply wp_th_store.
  { apply (frame_is_thread _ _ _ Hf2). simpl. rewrite lookup_alter_is_Some. eauto. }
  wp_pures. apply (frame_rq _ _ _ Hf2) in Hc as Hc2.
  eapply sinv_inc; [by apply sinv_th_store|done|]. intros s4 Hs4.
  assert (s_frame (alter (requeued x) p (threads s)) s s4) as Hfr.
  { apply s_frame_rq; [|done]. replace (alter (requeued x) p (threads s)) with
      (alter (set_state THREAD_READY) p (alter f p (threads s))) by (by rewrite alter_twice).
    apply s_frame_th; [|done]. eapply s_frame_trans; [|exact Hf2]. by apply s_frame_th. }
  apply HQ; [done| |simpl; by rewrite lookup_alter_is_Some|done].
  eapply th_inv_frame; [done|by apply s_frame_t|]. intros k' t' x' Ht'. destruct (decide (p = t')) as [<-|Hne].
  - rewrite lookup_alter_eq, Hx. intros [= <-]. right. unfold upd_q in Ht'. case_decide as Hk; [by subst k'|].
    by apply Hn in Ht'.
  - rewrite lookup_alter_ne by done. intros Hx'. left. split; [|done]. unfold upd_q in Ht'.
    case_decide as Hk; [subst k'|done]. set_solver.
Qed.

(** A thread once its registers are saved. *)
Definition fpu_saved (regs : list Z) (x : thread_t) : thread_t :=
  if dirty (fpu x) then set_fpu (mkFpu (regs ++ drop FX_BYTES (region (fpu x))) (used (fpu x)) false) x else x.
Lemma wp_fpu_save s t x (Q : unit → sched_state → Prop) :
  threads s !! t = Some x → Q tt (set_threads (alter (fpu_saved (fpu_regs s)) t (threads s)) s) → wp (fpu_save t) Q s.
Proof.
  intros Hx HQ. unfold fpu_save, fxsave. wp_pures. eapply wp_th_load; [done|].
  assert (∀ f, (∀ y, threads s !! t = Some y → f y = fpu_saved (fpu_regs s) y) →
    Q tt (set_threads (alter f t (threads s)) s)) as HQ'.
  { intros f Hf. rewrite (alter_ext f (fpu_saved (fpu_regs s))); [done|]. exact Hf. }
  destruct (dirty (fpu x)) eqn:Hd; simpl; wp_pures.
  - apply wp_th_store; [eauto|]. wp_pures. apply wp_th_store; [simpl; rewrite lookup_alter_is_Some; eauto|].
    rewrite set_threads_twice. simpl. rewrite alter_twice. apply HQ'. intros y Hy. simplify_eq. unfold fpu_saved. by rewrite Hd.
  - specialize (HQ' id). rewrite (alter_id id) in HQ' by done. destruct s. apply HQ'. intros y Hy. simplify_eq.
    unfold fpu_saved. by rewrite Hd.
Qed.

(** The bookkeeping of a switch. *)
Lemma wp_do_switch s L p n :
  sinv s L [] 0 0 → th_inv s L → is_Some (threads s !! p) → is_Some (threads s !! n) → (∀ k, n ∉ L k) →
  wp (do_switch p n) (λ _ s', sched_inv s' L ∧ current_thread (cpu s') = n ∧ cr0_ts s' = true ∧
    ∃ y, threads s' !! n = Some y ∧ state y = THREAD_RUNNING ∧
      rsp0 (cpu s') = u64 (kstack_base y + kstack_size y) ∧
      (proc_vmm y ≠ 0 → cr3 s' = proc_vmm y)) s.
Proof.
  intros Hs Hth [xp Hp] Hn Hnot. unfold do_switch, fpu_lazy_disable, read_cr0, write_cr0. wp_pures.
  eapply wp_fpu_save; [done|]. set (m := alter _ p (threads s)).
  assert (∀ x, (rq_next (fpu_saved (fpu_regs s) x) = rq_next x ∧ rq_prev (fpu_saved (fpu_regs s) x) = rq_prev x) ∧
    state (fpu_saved (fpu_regs s) x) = state x ∧ priority_level (fpu_saved (fpu_regs s) x) = priority_level x ∧ last_cpu (fpu_saved (fpu_regs s) x) = last_cpu x) as Hfs.
  { intros x. unfold fpu_saved. by destruct (dirty (fpu x)) eqn:E; simpl; rewrite ?E. }
  assert (sinv (set_threads m s) L [] 0 0 ∧ th_inv (set_threads m s) L ∧ is_Some (m !! n)) as (Hs1 & Hth1 & [y Hy]).
  { unfold m. split_and!.
    - apply sinv_th_store; [done|]. intros x. apply Hfs.
    - apply th_inv_store; [done|]. right. intros x. apply Hfs.
    - by rewrite lookup_alter_is_Some. }
  unfold cpu_store, current_rq, switch_address_space, switch_tss, when, cpu_store. wp_pures.
  apply wp_rq_store; [exact (proj1 (si_me _ _ _ _ _ Hs))|]. wp_pures. apply wp_th_store; [simpl; eauto|]. wp_pures.
  apply wp_th_store; [simpl; rewrite lookup_alter_is_Some; eauto|]. wp_pures.
  eapply wp_th_load; [simpl; by rewrite !lookup_alter_eq, Hy|]. simpl.
  set (s2 := set_threads _ _).
  assert (sinv s2 L [] 0 0 ∧ th_inv s2 L) as [Hs2 Hth2].
  { assert (sinv (set_rqs (alter (set_current n) (cpu_rq (cpu s)) (rqs s)) (set_threads m s)) L [] 0 0) as H.
    { eapply (sinv_rq_store (set_threads m s)); [done| |done|done]. intros r Hr.
      destruct (si_rq _ _ _ _ _ Hs1 _ r Hr) as (? & ? & ?). done. }
    split.
    - apply (sinv_th_store _ _ _ _ _ n (set_state THREAD_RUNNING)) in H; [|done].
      apply (sinv_th_store _ _ _ _ _ n (set_last_run_tsc (tsc s))) in H; [|done].
      by eapply sinv_misc; [exact H|..].
    - apply (th_inv_store _ _ n (set_state THREAD_RUNNING)) in Hth1; [|by left].
      apply (th_inv_store _ _ n (set_last_run_tsc (tsc s))) in Hth1; [|by left].
      by eapply th_inv_misc; [exact Hth1|]. }
  destruct (Z.eqb_spec (proc_vmm y) 0) as [Hz|Hz]; simpl negb; wp_pures;
    (eapply wp_th_load; [simpl; by rewrite !lookup_alter_eq, Hy|]); wp_pures;
    (eapply wp_th_load; [simpl; by rewrite !lookup_alter_eq, Hy|]); wp_pures; simpl;
    (split; [split; [by eapply sinv_misc; [exact Hs2|..]|by eapply th_inv_misc; [exact Hth2|]]|]);
    (split_and!; [done|change (Z.testbit (Z.lor (cr0 s) CR0_TS) 3 = true); by rewrite Z.lor_spec, orb_true_r|]); eexists; (split; [by rewrite !lookup_alter_eq, Hy|done]).
Qed.

(** The queues when the CPU picks: the running thread [p] has joined its level,
    and a boost has been done if it was due. *)
Definition ready_queues s L p (x : thread_t) : Z * Z → list Z :=
  let c := cpu_id (cpu s) in
  let k := (c, priority_level x) in
  let L1 := upd_q L k (L k ++ [p]) in
  if boost_due tsc_freq s c then boosted L1 c boost_levels else L1.

Lemma boosted_elem L c k t : t ∈ boosted L c boost_levels k →
  (t ∈ L k ∧ (k.1 = c → k.2 ∉ boost_levels)) ∨ (k = (c, 0) ∧ t ∈ waiting L c boost_levels).
Proof.
  unfold boosted. case_decide as Hk; [|case_decide as Hk'; [set_solver|naive_solver]].
  subst k. intros [Ht|Ht]%elem_of_app; [left|by right]. split; [done|]. simpl. intros _ H.
  unfold boost_levels in H. rewrite !elem_of_cons, elem_of_nil in H. lia.
Qed.

Lemma th_inv_boosted s s' L c :
  qs_rep s L → th_inv s L → t_frame (boost_all (waiting L c boost_levels) (threads s)) s s' →
  th_inv s' (boosted L c boost_levels).
Proof.
  intros Hr Hth Hf. eapply th_inv_frame; [done|done|]. intros k t x Ht Hx.
  apply boost_all_lookup in Hx as (y & Hy & Hxy & Hst & Hlc).
  apply boosted_elem in Ht as [[Ht Hk]|[-> Ht]].
  - left. split; [done|]. destruct Hxy as [[-> _]|[Hw _]]; [done|].
    apply waiting_elem in Hw as (l & Hl & Hw). pose proof (qs_disj _ _ Hr _ _ _ Ht Hw) as ->.
    by destruct (Hk eq_refl).
  - right. destruct Hxy as [[_ Hno]|[_ Hp]]; [done|]. apply waiting_elem in Ht as (l & _ & Ht).
    destruct (Hth _ _ _ Ht Hy) as (H1 & _ & H3). simpl in *. by rewrite Hst, Hlc.
Qed.

(** Picking, when some level of the CPU has a thread. *)
Lemma pick_first L c pre l post :
  lvls = pre ++ l :: post → (∀ j, j ∈ pre → L (c, j) = []) → 0 ≤ l < 8 ∧ ∀ j, 0 ≤ j < l → L (c, j) = [].
Proof.
  intros Hl Hpre. split; [apply lvls_elem; rewrite Hl; set_solver|]. intros j Hj. apply Hpre.
  assert (l < 8) by (apply lvls_elem; rewrite Hl; set_solver).
  assert (j ∈ lvls) as Hin by (apply lvls_elem; lia).
  unfold lvls in Hl. do 8 (destruct pre as [|? pre]; simplify_eq/=; [rewrite ?elem_of_cons in *; lia|]).
  destruct pre; simplify_eq/=.
Qed.

Lemma ready_queues_elem s L p x : 0 ≤ priority_level x < 8 →
  ∃ l, 0 ≤ l < 8 ∧ p ∈ ready_queues s L p x (cpu_id (cpu s), l).
Proof.
  intros Hp. unfold ready_queues. set (c := cpu_id (cpu s)). set (k := (c, priority_level x)).
  destruct (boost_due tsc_freq s c).
  - exists 0. split; [lia|]. unfold boosted. rewrite decide_True by done.
    assert (p ∈ all_of (upd_q L k (L k ++ [p])) c) as H; [|exact H].
    apply waiting_elem. exists (priority_level x). rewrite lvls_elem. split; [done|]. unfold k. rewrite upd_q_eq. set_solver.
  - exists (priority_level x). split; [done|]. unfold k. rewrite upd_q_eq. set_solver.
Qed.

(** From the choice of [n] to the switch. *)
Lemma wp_schedule_tail s L c p n fl :
  sinv s L [c] c (0 + 1) → th_inv s L → is_Some (rqs s !! c) → n ≠ 0 → (∀ k, n ∉ L k) →
  is_Some (threads s !! p) → is_Some (threads s !! n) → current_thread (cpu s) = p →
  wp (rq_store c (set_needs_resched false) ;;
      n ← (if n =? 0 then rq_release c ;; n ← try_steal c; rq_acquire c ;; mret n else mret n);
      n ← (if n =? 0 then r ← rq_load c; mret (idle r)
           else rq_store c (λ r, set_nr_running (u32 (nr_running r - 1)) r) ;; mret n);
      rq_release c ;;
      if n =? p then modify (set_flags fl) ;; mret n else do_switch p n ;; mret n)
    (λ r s', r = n ∧ sched_inv s' L ∧ current_thread (cpu s') = n ∧
      ∃ y, threads s' !! n = Some y ∧ (n ≠ p → state y = THREAD_RUNNING) ∧
        (n = p → threads s !! n = Some y)) s.
Proof.
  intros Hs Hth Hc Hn0 Hnot Hp Hn Hcur. wp_pures. apply wp_rq_store; [done|]. wp_pures.
  pose proof Hn0 as ->%Z.eqb_neq. wp_pures. pose proof Hn0 as ->%Z.eqb_neq. wp_pures.
  set (s1 := set_rqs (alter (set_needs_resched false) c (rqs s)) s).
  assert (sinv s1 L [c] c (0 + 1)) as Hs1.
  { eapply sinv_rq_store; [done| |done|done]. intros r Hr. by destruct (si_rq _ _ _ _ _ Hs _ r Hr) as (? & ? & ?). }
  eapply sinv_dec; [done|simpl; by rewrite lookup_alter_is_Some|]. intros s2 Hs2. wp_pures.
  eapply sinv_release; [done|simpl; by rewrite !lookup_alter_is_Some|set_solver|]. intros s3 Hs3. wp_pures.
  apply (sinv_switch _ _ _ _ 0) in Hs3. destruct (Z.eqb_spec n p) as [->|Hne]; wp_pures.
  - split; [done|]. split; [split; [by eapply sinv_misc|by eapply th_inv_misc]|]. split; [done|].
    destruct Hn as [y Hy]. exists y. split_and!; done.
  - eapply wp_mono; [apply (wp_do_switch s3 L); [done|by eapply th_inv_misc|done..]|].
    intros [] s4 (? & ? & _ & y & ? & ? & _). wp_pures. split_and!; [done..|]. exists y. naive_solver.
Qed.

Lemma wp_schedule_running s L p x :
  sched_inv s L → zombie_to_reap (cpu s) = 0 → current_thread (cpu s) = p → threads s !! p = Some x →
  state x = THREAD_RUNNING → p ≠ 0 → (∀ k, p ∉ L k) → 0 ≤ priority_level x < 8 → last_cpu x = cpu_id (cpu s) →
  let c := cpu_id (cpu s) in let L' := ready_queues s L p x in
  wp (schedule tsc_freq) (λ n s', ∃ l ts, 0 ≤ l < 8 ∧ L' (c, l) = n :: ts ∧ (∀ j, 0 ≤ j < l → L' (c, j) = []) ∧
    sched_inv s' (upd_q L' (c, l) ts) ∧ (∀ k, n ∉ upd_q L' (c, l) ts k) ∧ current_thread (cpu s') = n ∧
    ∃ y, threads s' !! n = Some y ∧ state y = (if n =? p then THREAD_READY else THREAD_RUNNING)) s.
Proof.
  intros [Hs Hth] Hz Hcur Hx Hrun Hp0 Hn Hp Hlast c L'. destruct (si_me _ _ _ _ _ Hs) as [Hc Hme].
  rewrite Hme in Hc. fold c in Hc, Hme. apply (sinv_switch _ _ _ _ c) in Hs.
  unfold schedule, reap_pending_zombie, current_rq, when. wp_pures. rewrite Hz. simpl. wp_pures. rewrite Hcur, Hme.
  set (s0 := set_flags (cli (flags s)) s).
  assert (sinv s0 L [] c 0) as Hs0 by (by eapply sinv_misc).
  eapply sinv_acquire; [done|done|set_solver|]. intros s1 Hs1. wp_pures. eapply wp_th_load; [done|]. wp_pures.
  rewrite bool_decide_eq_true_2 by done.
  eapply (wp_requeue s1); [done|by eapply th_inv_misc|simpl; by rewrite lookup_alter_is_Some|done..|].
  intros k s2 Hs2 Hth2 Hc2 Hf2. wp_pures.
  assert (boost_due tsc_freq s2 c = boost_due tsc_freq s c) as Hdue.
  { unfold boost_due. destruct (rest_fields _ _ (sf_rest _ _ _ Hf2)) as (_ & _ & _ & _ & -> & _).
    pose proof (sf_rq _ _ _ Hf2 c) as H. simpl in H. rewrite lookup_alter_eq in H.
    destruct (rqs s2 !! c) as [r2|], (rqs s !! c) as [r|]; simpl in H; try done. by injection H as _ _ ->. }
  eapply wp_mono; [by apply wp_maybe_boost|]. rewrite Hdue. intros [] s3 (Hs3 & Hc3 & Hf3). wp_pures.
  assert (sinv s3 L' [c] c 0 ∧ th_inv s3 L') as [Hs3' Hth3].
  { unfold L', ready_queues. fold c k. destruct (boost_due tsc_freq s c); split; [done| |done|].
    - eapply th_inv_boosted; [apply Hs2|done|done].
    - eapply th_inv_frame; [done|done|]. auto. }
  eapply wp_mono; [apply (wp_pick_level _ _ _ _ lvls Hs3' Hc3); intros l; apply lvls_elem|].
  assert (∃ l, 0 ≤ l < 8 ∧ p ∈ L' (c, l)) as (l0 & Hl0 & Hpin) by (by apply ready_queues_elem).
  intros n s4 [(_ & _ & Hall)|(pre & l & post & ts & Hl & Hpre & HLl & Hn0 & Hs4 & Hf4 & Hnot)].
  { rewrite (Hall l0) in Hpin by (by apply lvls_elem). set_solver. }
  cbv beta. apply (frame_rq _ _ _ Hf4) in Hc3 as Hc4.
  destruct (pick_first _ _ _ _ _ Hl Hpre) as [Hlr Hfirst].
  assert (th_inv s4 (upd_q L' (c, l) ts)) as Hth4.
  { eapply th_inv_frame; [exact Hth3|apply s_frame_t, q_frame_s, Hf4|]. intros k' t' x' Ht' Hx'. left. split; [|done].
    unfold upd_q in Ht'. case_decide; [subst k'; rewrite HLl; set_solver|done]. }
  assert (is_Some (threads s4 !! p) ∧ is_Some (threads s4 !! n) ∧ cpu s4 = cpu s) as (Hp4 & Hn4 & Hcpu4).
  { split_and!.
    - apply (frame_is_thread _ _ _ Hf4). by eapply sinv_thread.
    - apply (frame_is_thread _ _ _ Hf4). eapply sinv_thread; [done|]. rewrite HLl. set_solver.
    - destruct (rest_fields _ _ (fr_rest _ _ Hf4)) as (-> & _). destruct Hf3 as [_ Hf3].
      destruct (rest_fields _ _ Hf3) as (-> & _). by destruct (rest_fields _ _ (sf_rest _ _ _ Hf2)) as (-> & _). }
  eapply wp_mono; [eapply (wp_schedule_tail s4); [done..|by rewrite Hcpu4]|].
  intros r s5 (-> & Hinv5 & Hcur5 & y & Hy & Hrun5 & Hsame). exists l, ts.
  do 6 (split; [done|]). exists y. split; [done|]. destruct (Z.eqb_spec n p) as [->|Hne]; [|auto].
  specialize (Hsame eq_refl). pose proof (fr_th _ _ Hf4 p) as Hc'. rewrite Hsame in Hc'.
  destruct (threads s3 !! p) as [y3|] eqn:Hy3; [|done]. apply (inj Some) in Hc'.
  destruct (core_fields _ _ Hc') as (-> & _). by apply (Hth3 (c, l0) p).
Qed.
End schedule.

(** * The properties *)

Section properties.
Context (tsc_freq : Z).
Implicit Types (s : sched_state) (L : Z * Z → list Z).

Lemma wp_sched_dequeue s L c l l1 t l2 :
  sched_inv s L → L (c, l) = l1 ++ t :: l2 → 0 ≤ c < nr_cpus s →
  wp (sched_dequeue t) (λ _ s', sched_inv s' (upd_q L (c, l) (l1 ++ l2)) ∧ s_frame (threads s) s s' ∧
    ∀ k, t ∉ upd_q L (c, l) (l1 ++ l2) k) s.
Proof.
  intros [Hs Hth] HL Hc. assert (t ∈ L (c, l)) as Ht by (rewrite HL; set_solver).
  destruct (sinv_level _ _ _ _ _ _ _ _ Hs Ht) as [Hrq Hl]. destruct (sinv_thread _ _ _ _ _ _ _ Hs Ht) as [[x Hx] _].
  destruct (Hth _ _ _ Ht Hx) as (_ & Hpr & Hlc). simpl in Hpr, Hlc.
  unfold sched_dequeue, sched_rq_for_cpu, when. wp_pures. eapply wp_th_load; [done|]. wp_pures. rewrite Hlc, Hpr.
  assert ((c <? 0) || (nr_cpus s <=? c) = false) as -> by lia. wp_pures. apply (sinv_switch _ _ _ _ c) in Hs.
  eapply sinv_acquire; [done|done|set_solver|]. intros s1 Hs1. wp_pures.
  assert (is_Some (rqs s1 !! c)) as Hrq1 by (simpl; by rewrite lookup_alter_is_Some).
  eapply (sinv_remove s1 L); [done|done|done|done|]. intros s2 Hs2 Hf2 Hnot. wp_pures.
  pose proof (proj2 (frame_rq _ _ c Hf2) Hrq1) as [r2 Hr2]. eapply wp_rq_load; [done|]. wp_pures.
  destruct (si_rq _ _ _ _ _ Hs2 c r2 Hr2) as (_ & _ & Hnr). rewrite decide_True in Hnr by done.
  rewrite (proj2 (Z.ltb_lt 0 _)) by lia.
  eapply (sinv_nr _ _ _ _ (0 + 1) 0 (λ n, n - 1)); [exact Hs2|eauto|intros r ->; lia|]. intros Hs3. wp_pures.
  eapply sinv_release; [done|simpl; rewrite lookup_alter_is_Some; eauto|set_solver|]. intros s4 Hs4.
  assert (s_frame (threads s) s s4) as Hfr.
  { do 2 (apply s_frame_rq; [|done]). eapply s_frame_trans; [|exact Hf2]. by apply s_frame_rq. }
  split; [|done]. split; [by apply (sinv_switch _ _ _ c)|].
  eapply th_inv_frame; [done|by apply s_frame_t|]. intros k' t' x' Ht' Hx'. left. split; [|done].
  unfold upd_q in Ht'. case_decide; [subst k'; rewrite HL; set_solver|done].
Qed.

(** Making a thread ready puts it at the end of the queue of its level on
    the CPU it is pinned to (or last ran on, or else this one), and taking a
    thread off the queues removes it from the middle of its queue as well as
    from the ends. Every queue stays a list without repetition that agrees with
    the counts and the links, no thread is on two, and the locks are free. *)
Theorem sched_queues_spec s L t x c l l1 t' l2 :
  sched_inv s L → threads s !! t = Some x → t ≠ 0 → (∀ k, t ∉ L k) → 0 ≤ priority_level x < 8 →
  L (c, l) = l1 ++ t' :: l2 → 0 ≤ c < nr_cpus s →
  let k := (home s x, priority_level x) in
  wp (sched_enqueue t) (λ _ s', sched_inv s' (upd_q L k (L k ++ [t])) ∧
    s_frame (alter (set_last_cpu (home s x) ∘ set_state THREAD_READY) t (threads s)) s s') s ∧
  wp (sched_dequeue t') (λ _ s', sched_inv s' (upd_q L (c, l) (l1 ++ l2)) ∧ s_frame (threads s) s s' ∧
    ∀ k, t' ∉ upd_q L (c, l) (l1 ++ l2) k) s.
Proof. intros. split; [by apply wp_sched_enqueue|by apply wp_sched_dequeue]. Qed.

(** No thread starves in a low level: when the boost is due, every thread
    that waits on the CPU is moved to level 0, the higher levels first and in
    order within a level, and otherwise nothing moves. *)
Theorem maybe_boost_spec s L c :
  sinv s L [c] c 0 → th_inv s L → is_Some (rqs s !! c) →
  wp (maybe_boost tsc_freq c) (λ _ s',
    if boost_due tsc_freq s c then
      ∃ L', sinv s' L' [c] c 0 ∧ th_inv s' L' ∧ L' (c, 0) = all_of L c ∧
        (∀ l, 0 < l < 8 → L' (c, l) = []) ∧ ∀ k, k.1 ≠ c → L' k = L k
    else sinv s' L [c] c 0 ∧ th_inv s' L) s.
Proof.
  intros Hs Hth Hc. eapply wp_mono; [by apply wp_maybe_boost|]. intros [] s' (Hs' & _ & Hf).
  destruct (boost_due tsc_freq s c).
  - exists (boosted L c boost_levels). split; [done|]. split; [eapply th_inv_boosted; [apply Hs|done|done]|].
    split; [unfold boosted; by rewrite decide_True|]. split.
    + intros l Hl. unfold boosted. rewrite decide_False by (intros [= ?]; lia). rewrite decide_True; [done|].
      split; [done|]. unfold boost_levels. rewrite !elem_of_cons. simpl. lia.
    + intros k Hk. unfold boosted. by rewrite !decide_False by naive_solver.
  - split; [done|]. eapply th_inv_frame; [done|done|]. auto.
Qed.

(** C16: a thread that yields or is preempted joins the end of its level, and
    the CPU goes to the first thread of the highest level that has one; the
    queues stay consistent, the thread that was chosen is on none of them, and
    the CPU's state describes it. (When the chosen thread is the one that
    yielded, it is left marked as ready.) *)
Theorem schedule_spec s L p x :
  sched_inv s L → zombie_to_reap (cpu s) = 0 → current_thread (cpu s) = p → threads s !! p = Some x →
  state x = THREAD_RUNNING → p ≠ 0 → (∀ k, p ∉ L k) → 0 ≤ priority_level x < 8 → last_cpu x = cpu_id (cpu s) →
  let c := cpu_id (cpu s) in let L' := ready_queues tsc_freq s L p x in
  wp (schedule tsc_freq) (λ n s', ∃ l ts, 0 ≤ l < 8 ∧ L' (c, l) = n :: ts ∧ (∀ j, 0 ≤ j < l → L' (c, j) = []) ∧
    sched_inv s' (upd_q L' (c, l) ts) ∧ (∀ k, n ∉ upd_q L' (c, l) ts k) ∧ current_thread (cpu s') = n ∧
    ∃ y, threads s' !! n = Some y ∧ state y = (if n =? p then THREAD_READY else THREAD_RUNNING)) s.
Proof. intros. by apply wp_schedule_running. Qed.

(** A thread that exits is freed while it still runs: [sched_exit_current]
    hands it to [zombie_to_reap], which the call of [schedule] that follows
    frees first, before it reads the state of the current thread. *)
Theorem sched_exit_use_after_free s self code x r :
  threads s !! self = Some x → t_lock x = unlocked → self ≠ 0 → current_thread (cpu s) = self →
  rqs s !! cpu_rq (cpu s) = Some r → rq_lock r = unlocked →
  sched_exit_current tsc_freq self code s = Fault.
Proof.
  intros Hx Hl Hs0 Hcur Hr Hrl. unfold sched_exit_current, cpu_store.
  apply fault_bind, wp_th_store; [eauto|]. apply fault_bind, wp_gets. apply fault_bind, wp_modify.
  apply fault_bind. unfold th_acquire, me, th_locking, lock_with. wp_pures.
  eapply wp_th_load; [simpl; by rewrite lookup_alter_eq, Hx|]. wp_pures. simpl. rewrite Hl. simpl.
  apply wp_th_store; [simpl; rewrite lookup_alter_is_Some; eauto|].
  apply fault_bind, wp_th_store; [simpl; rewrite !lookup_alter_is_Some; eauto|].
  apply fault_bind. unfold th_release, me, th_locking, lock_with. wp_pures.
  eapply wp_th_load; [simpl; by rewrite !lookup_alter_eq, Hx|]. wp_pures. simpl.
  apply wp_th_store; [simpl; rewrite !lookup_alter_is_Some; eauto|].
  apply fault_bind, wp_modify. unfold schedule. apply fault_bind. unfold reap_pending_zombie, when, cpu_store. wp_pures.
  simpl. pose proof Hs0 as ->%Z.eqb_neq. simpl. wp_pures. unfold thread_free_resources. wp_pures.
  eapply wp_th_load; [simpl; by rewrite !lookup_alter_eq, Hx|]. wp_pures.
  apply fault_bind. unfold current_rq. wp_pures. apply fault_bind, wp_gets. apply fault_bind, wp_gets.
  apply fault_bind, wp_modify. apply fault_bind. unfold rq_acquire, me, rq_locking, lock_with. wp_pures.
  eapply wp_rq_load; [simpl; done|]. wp_pures. rewrite Hrl. simpl. apply wp_rq_store; [simpl; eauto|].
  unfold mbind, M_bind, th_load. simpl. by rewrite Hcur, lookup_delete_eq.
Qed.
End properties.

(** * A small machine *)

(** One CPU: thread 100 is its idle thread, 200 runs at level 2 and 300 has just
    been created. *)
Definition demo_thread (st : thread_state_t) (level cpu : Z) : thread_t :=
  mkThread st level 0 0 0 cpu (-1) 4096 8192 0 (mkFpu (replicate 512 0) false false) 0 (mkNode 0 0 0 false) 0 0 0 unlocked.
Definition demo_rqs : gmap Z runqueue_t :=
  {[0 := mkRq unlocked (replicate 8 (mkQueue 0 0 0)) 0 100 200 1 false]}.
Definition demo_sched : sched_state :=
  mkSched {[100 := demo_thread THREAD_RUNNING 0 0; 200 := demo_thread THREAD_RUNNING 2 0;
            300 := demo_thread THREAD_NEW 1 (-1)]}
    demo_rqs {[7 := mkWq unlocked 0 0]} 1 (mkCpu 0 0 100 200 0 false 0 0) 0 0 0 0 (replicate 464 0).

Lemma demo_sched_inv : sched_inv demo_sched (λ _, []).
Proof.
  split.
  - split.
    + split.
      * intros k q Hq. assert (q = mkQueue 0 0 0) as ->; [|split; [by apply queue_empty|done]].
        unfold queue_at in Hq. destruct (k.2 <? 0); [done|].
        change (rqs demo_sched) with demo_rqs in Hq. unfold demo_rqs in Hq.
        destruct (({[0 := mkRq unlocked (replicate 8 (mkQueue 0 0 0)) 0 100 200 1 false]} : gmap Z runqueue_t) !! k.1)
          as [r|] eqn:Hr; [|done]. apply lookup_singleton_Some in Hr as [_ <-]. by apply lookup_replicate in Hq as [-> _].
      * done.
      * intros k k' t Ht. by apply elem_of_nil in Ht.
      * vm_compute. done.
    + intros c r Hr. change (rqs demo_sched) with demo_rqs in Hr. unfold demo_rqs in Hr.
      apply lookup_singleton_Some in Hr as [<- <-]. vm_compute. done.
    + intros c Hc. assert (c = 0) as -> by (simpl in Hc; lia). vm_compute. eauto.
    + split; [vm_compute; eauto|done].
  - intros k t x Ht. by apply elem_of_nil in Ht.
Qed.

Definition run_s {A} (m : M sched_state A) (s : sched_state) : sched_state :=
  match m s with Done (_, s') => s' | _ => s end.

(** a thread that yields when no other thread is ready keeps running but
    is left marked as ready; when it yields again it is not put back on a queue,
    the CPU goes idle, and the thread is ready yet on no queue: it never runs
    again. *)
Theorem schedule_loses_thread :
  ∃ s1 s2, schedule 1 demo_sched = Done (200, s1) ∧ current_thread (cpu s1) = 200 ∧
    schedule 1 s1 = Done (100, s2) ∧ current_thread (cpu s2) = 100 ∧
    (state <$> threads s2 !! 200) = Some THREAD_READY ∧
    (levels <$> rqs s2 !! 0) = Some (replicate 8 (mkQueue 0 0 0)).
Proof.
  exists (run_s (schedule 1) demo_sched), (run_s (schedule 1) (run_s (schedule 1) demo_sched)).
  vm_compute. repeat split.
Qed.

(** * Witnesses *)

(** The machine after thread 300 was made ready. *)
Definition demo_ready : sched_state := run_s (sched_enqueue 300) demo_sched.
Definition demo_L : Z * Z → list Z := upd_q (λ _, []) (0, 1) [300].
Lemma demo_ready_inv : sched_inv demo_ready demo_L.
Proof.
  pose proof (wp_sched_enqueue demo_sched (λ _, []) 300 (demo_thread THREAD_NEW 1 (-1)) demo_sched_inv) as H.
  specialize (H eq_refl ltac:(lia) (λ k, not_elem_of_nil 300) ltac:(simpl; lia)).
  assert (sched_enqueue 300 demo_sched = Done (tt, demo_ready)) as Hrun by (vm_compute; reflexivity).
  apply (wp_run _ _ _ _ _ Hrun) in H. destruct H as [H _]. exact H.
Qed.

Lemma demo_L_out t : t ≠ 300 → ∀ k, t ∉ demo_L k.
Proof. intros Ht k. unfold demo_L, upd_q. case_decide; set_solver. Qed.

Lemma sched_queues_spec_witness :
  wp (sched_enqueue 200) (λ _ s', sched_inv s' (upd_q demo_L (0, 2) [200])) demo_ready ∧
  wp (sched_dequeue 300) (λ _ s', sched_inv s' (upd_q demo_L (0, 1) [])) demo_ready.
Proof.
  destruct (sched_queues_spec demo_ready demo_L 200 (demo_thread THREAD_RUNNING 2 0) 0 1 [] 300 []) as [H1 H2].
  - apply demo_ready_inv.
  - vm_compute. reflexivity.
  - lia.
  - apply demo_L_out. lia.
  - simpl. lia.
  - reflexivity.
  - vm_compute. split; [discriminate|reflexivity].
  - split; [eapply wp_mono; [exact H1|]|eapply wp_mono; [exact H2|]]; intros _ s' [H _]; exact H.
Defined.

(** The same with the lock of the run queue held, and a boost due. *)
Definition demo_due : sched_state :=
  set_tsc 1 (set_rqs (alter (set_rq_lock (held 0)) 0 (rqs demo_ready)) demo_ready).
Lemma maybe_boost_spec_witness :
  boost_due 1 demo_due 0 = true ∧
  wp (maybe_boost 1 0) (λ _ s', ∃ L', sinv s' L' [0] 0 0 ∧ L' (0, 0) = [300]) demo_due.
Proof.
  assert (sinv demo_due demo_L [0] 0 0) as Hs.
  { destruct demo_ready_inv as [Hs _].
    assert (sinv (set_rqs (alter (set_rq_lock (held 0)) 0 (rqs demo_ready)) demo_ready) demo_L [0] 0 0) as H;
      [|by eapply sinv_misc; [exact H|..]].
    eapply sinv_rq_store; [exact Hs| | |done].
    - intros r Hr. destruct (si_rq _ _ _ _ _ Hs _ r Hr) as (_ & ? & ?). rewrite decide_True by set_solver. done.
    - set_solver. }
  split; [vm_compute; reflexivity|].
  pose proof (maybe_boost_spec 1 demo_due demo_L 0 Hs) as H.
  assert (boost_due 1 demo_due 0 = true) as Hd by (vm_compute; reflexivity). rewrite Hd in H.
  eapply wp_mono; [apply H|].
  - eapply th_inv_misc; [apply demo_ready_inv|]. vm_compute. reflexivity.
  - vm_compute. eauto.
  - intros _ s' (L' & H1 & _ & H2 & _). exists L'. split; [exact H1|exact H2].
Defined.

Lemma schedule_spec_witness :
  wp (schedule 1) (λ n s', ∃ L', sched_inv s' L' ∧ current_thread (cpu s') = n) demo_ready.
Proof.
  eapply wp_mono; [apply (schedule_spec 1 demo_ready demo_L 200 (demo_thread THREAD_RUNNING 2 0))|].
  - apply demo_ready_inv.
  - vm_compute. reflexivity.
  - vm_compute. reflexivity.
  - vm_compute. reflexivity.
  - reflexivity.
  - lia.
  - apply demo_L_out. lia.
  - simpl. lia.
  - vm_compute. reflexivity.
  - intros n s' (l & ts & _ & _ & _ & H & _ & Hc & _). eauto.
Defined.

Lemma sched_exit_use_after_free_witness : sched_exit_current 1 200 0 demo_sched = Fault.
Proof.
  apply (sched_exit_use_after_free 1 demo_sched 200 0 (demo_thread THREAD_RUNNING 2 0)
    (mkRq unlocked (replicate 8 (mkQueue 0 0 0)) 0 100 200 1 false)); try (vm_compute; reflexivity). lia.
Defined.

(** What the wait queues promise: waiters are woken in the order in which they
    came, and a woken thread is ready to run. *)
(** The links of the wait nodes. *)
Definition wait_links : Links thread_t.
Proof.
  refine {| l_next := w_next; l_prev := w_prev; l_set_next v := set_wn (set_w_next v);
            l_set_prev v := set_wn (set_w_prev v) |}; done.
Defined.

(** What the scheduler, and what the wait queues, read of a thread. *)
Definition skey (x : thread_t) := (rq_next x, rq_prev x, state x, priority_level x, last_cpu x).
Definition wkey (x : thread_t) :=
  (state x, t_lock x, thread (wait_node x), woken (wait_node x), blocked_on x, priority_level x).

(** The queue [w] has the waiters [l], first come first: each is blocked, and
    its node names it and has not been woken. *)
Definition waiter (s : sched_state) (w t : Z) : Prop :=
  ∃ p, wkey <$> threads s !! t = Some (THREAD_BLOCKED, unlocked, t, false, w, p) ∧ 0 ≤ p < 8.
Definition wqueue (m : gmap Z thread_t) (q : waitqueue_t) (l : list Z) : Prop :=
  queue (Links0 := wait_links) m (wq_head q) (wq_tail q) l.
Definition wq_rep (s : sched_state) (w : Z) (l : list Z) : Prop :=
  (∃ q, wqs s !! w = Some q ∧ wq_lock q = unlocked ∧ wqueue (threads s) q l) ∧
  ∀ t, t ∈ l → waiter s w t.

Section wait.
Implicit Types (s : sched_state) (L : Z * Z → list Z).

(** * Steps *)

Lemma wp_wq_acquire s w q (Q : unit → sched_state → Prop) :
  wqs s !! w = Some q → wq_lock q = unlocked →
  Q tt (set_wqs (alter (set_wq_lock (held (cpu_id (cpu s)))) w (wqs s)) s) → wp (wq_acquire w) Q s.
Proof.
  intros Hq Hl HQ. unfold wq_acquire, me, wq_locking, lock_with. wp_pures. eapply wp_wq_load; [done|].
  wp_pures. rewrite Hl. simpl. apply wp_wq_store; [eauto|done].
Qed.
Lemma wp_wq_release s w q (Q : unit → sched_state → Prop) :
  wqs s !! w = Some q → wq_lock q = held (cpu_id (cpu s)) →
  Q tt (set_wqs (alter (set_wq_lock unlocked) w (wqs s)) s) → wp (wq_release w) Q s.
Proof.
  intros Hq Hl HQ. unfold wq_release, me, wq_locking, lock_with. wp_pures. eapply wp_wq_load; [done|].
  wp_pures. rewrite Hl. simpl. apply wp_wq_store; [eauto|done].
Qed.

(** Storing to wait queues and to wait nodes leaves the scheduler alone. *)
Lemma key_alter {X} (g : thread_t → X) f t (m : gmap Z thread_t) b :
  (∀ x, g (f x) = g x) → g <$> alter f t m !! b = g <$> m !! b.
Proof.
  intros Hf. destruct (decide (t = b)) as [->|]; [|by rewrite lookup_alter_ne].
  rewrite lookup_alter_eq. destruct (m !! b); simpl; [|done]. by rewrite Hf.
Qed.
Lemma key_is_Some {X} (g : thread_t → X) (m m' : gmap Z thread_t) b :
  g <$> m' !! b = g <$> m !! b → is_Some (m !! b) → is_Some (m' !! b).
Proof. intros H [x Hx]. rewrite Hx in H. destruct (m' !! b); [eauto|done]. Qed.

Lemma sched_inv_wait s L s' :
  sched_inv s L → (∀ t, skey <$> threads s' !! t = skey <$> threads s !! t) → rqs s' = rqs s →
  cpu s' = cpu s → nr_cpus s' = nr_cpus s → sched_inv s' L.
Proof.
  intros [[Hr Hq Hc Hm] Hth] Hk Er Ec En. split.
  - split; rewrite ?Er, ?Ec, ?En; [|done..]. eapply qs_rep_same; [done| | |].
    + intros k. unfold queue_at. by rewrite Er.
    + intros t. specialize (Hk t). unfold nexts, prevs.
      destruct (threads s' !! t), (threads s !! t); simpl in *; try done. by injection Hk as -> -> _ _ _.
    + apply size_same_dom, set_eq. intros t. rewrite !elem_of_dom.
      split; (eapply key_is_Some; [|done..]); by rewrite Hk.
  - intros k t x Ht Hx. specialize (Hk t). rewrite Hx in Hk. destruct (threads s !! t) as [y|] eqn:Hy; [|done].
    injection Hk as _ _ -> -> ->. by apply (Hth k t).
Qed.

Lemma sched_inv_out s L t f :
  sched_inv s L → (∀ k, t ∉ L k) → (∀ x, rq_next (f x) = rq_next x ∧ rq_prev (f x) = rq_prev x) →
  sched_inv (set_threads (alter f t (threads s)) s) L.
Proof. intros [Hs Hth] Hout Hf. split; [by apply sinv_th_store|]. apply th_inv_store; [done|by left]. Qed.

(** A blocked thread is on no run queue. *)
Lemma blocked_out s L w t : sched_inv s L → waiter s w t → ∀ k, t ∉ L k.
Proof.
  intros [Hs Hth] (p & Hw & _) k Ht. destruct (sinv_thread _ _ _ _ _ _ _ Hs Ht) as [[x Hx] _].
  destruct (Hth k t x Ht Hx) as [Hst _]. rewrite Hx in Hw. injection Hw as Hst' _ _ _ _ _. congruence.
Qed.

(** Waking a blocked thread. *)
Lemma wp_sched_wake s L t x :
  sched_inv s L → threads s !! t = Some x → state x = THREAD_BLOCKED → t_lock x = unlocked → t ≠ 0 →
  (∀ k, t ∉ L k) → 0 ≤ priority_level x < 8 →
  let k := (home s x, priority_level x) in
  wp (sched_wake t) (λ _ s', sched_inv s' (upd_q L k (L k ++ [t])) ∧
    ∃ m, s_frame m s s' ∧ (∀ b, b ≠ t → m !! b = threads s !! b) ∧
      m !! t = Some (set_last_cpu (home s x) (set_state THREAD_READY x))) s.
Proof.
  intros Hs Hx Hst Hl Ht0 Hn Hp k. unfold sched_wake, th_acquire, th_release, me, th_locking, lock_with.
  wp_pures. eapply wp_th_load; [done|]. wp_pures. rewrite Hl. simpl.
  apply wp_th_store; [eauto|]. wp_pures. eapply wp_th_load; [simpl; by rewrite lookup_alter_eq, Hx|]. wp_pures.
  simpl. rewrite Hst. simpl. wp_pures. apply wp_th_store; [simpl; rewrite lookup_alter_is_Some; eauto|].
  wp_pures. eapply wp_th_load; [simpl; by rewrite !lookup_alter_eq, Hx|]. wp_pures. simpl.
  apply wp_th_store; [simpl; rewrite !lookup_alter_is_Some; eauto|]. wp_pures. rewrite !set_threads_twice. simpl.
  rewrite !alter_twice. match goal with |- context [alter ?g t (threads s)] => set (f := g) end.
  assert (f x = set_state THREAD_READY x) as Hf.
  { destruct x. simpl in Hl. subst. reflexivity. }
  set (s1 := set_threads (alter f t (threads s)) s).
  assert (sched_inv s1 L) as Hs1.
  { by apply sched_inv_out. }
  assert (threads s1 !! t = Some (set_state THREAD_READY x)) as Hx1 by (simpl; by rewrite lookup_alter_eq, Hx, <-Hf).
  eapply wp_mono; [by apply (wp_sched_enqueue s1 L t)|]. intros [] s2 [Hs2 Hf2]. split; [exact Hs2|].
  destruct Hf2 as [A B C]. eexists. split; [split; [exact A|exact B|exact C]|]. split.
  - intros b Hb. rewrite lookup_alter_ne by done. simpl. by rewrite lookup_alter_ne by done.
  - by rewrite lookup_alter_eq, Hx1.
Qed.

(** The node [n] after it was taken off its queue. *)
Definition unlinked (m : gmap Z thread_t) (n p nx : Z) : gmap Z thread_t :=
  alter (set_wn (set_w_prev 0)) n (alter (set_wn (set_w_next 0)) n (unlink_map (Links0 := wait_links) p nx m)).

Lemma wp_wq_unlink_head s w q n l (Q : unit → sched_state → Prop) :
  wqs s !! w = Some q → wqueue (threads s) q (n :: l) →
  (let nx := default 0 (hd_error l) in
   let q' := mkWq (wq_lock q) nx (if nx =? 0 then 0 else wq_tail q) in
   wqueue (unlinked (threads s) n 0 nx) q' l →
   Q tt (set_wqs (<[w := q']> (wqs s)) (set_threads (unlinked (threads s) n 0 nx) s))) →
  wp (wq_unlink w n) Q s.
Proof.
  intros Hq Hqu HQ. pose proof Hqu as [Hl Htl]. pose proof (linked_nonzero _ _ _ Hl) as H0.
  destruct (linked_in _ _ _ n Hl) as [x Hx]; [set_solver|].
  destruct (linked_at _ _ [] _ _ _ Hl Hx) as [Hn Hp]. simpl in Hn, Hp.
  pose proof Hl as (_ & Hnd & _). apply NoDup_cons in Hnd as [Hnl _].
  set (nx := default 0 (hd_error l)) in *.
  assert (n ≠ nx) as Hnn by (unfold nx; destruct l; simpl; set_solver).
  assert (∀ f, alter f w (wqs s) = <[w := f q]> (wqs s)) as Halt by (by intros f; apply alter_const).
  assert (wqueue (unlinked (threads s) n 0 nx) (mkWq (wq_lock q) nx (if nx =? 0 then 0 else wq_tail q)) l) as Hqu'.
  { apply (queue_alter (Links0 := wait_links)); [|by left]. apply (queue_alter (Links0 := wait_links)); [|by left].
    by apply (queue_unlink (Links0 := wait_links) (threads s) (wq_head q) (wq_tail q) [] n l). }
  specialize (HQ Hqu'). unfold unlinked, unlink_map in HQ. simpl in HQ.
  unfold wq_unlink. wp_pures. eapply wp_th_load; [done|]. wp_pures. rewrite Hp. simpl. rewrite Hn.
  apply wp_wq_store; [eauto|]. wp_pures. eapply wp_th_load; [done|]. rewrite Hn, Hp. wp_pures. simpl.
  destruct (Z.eqb_spec nx 0) as [Hz|Hz]; simpl negb; cbv beta iota.
  - apply wp_wq_store; [simpl; rewrite lookup_alter_is_Some; eauto|]. wp_pures.
    apply wp_th_store; [simpl; eauto|]. wp_pures. apply wp_th_store; [simpl; rewrite lookup_alter_is_Some; eauto|].
    simpl. rewrite (alter_twice (set_wq_tail 0) (set_wq_head nx)), Halt. exact HQ.
  - apply wp_th_store.
    { simpl. unfold nx in *. destruct l as [|y l]; [done|]. simpl. apply (linked_in _ _ _ y Hl). set_solver. }
    wp_pures. apply wp_th_store; [simpl; rewrite lookup_alter_is_Some; eauto|]. wp_pures.
    apply wp_th_store; [simpl; rewrite !lookup_alter_is_Some; eauto|]. simpl. rewrite Halt. exact HQ.
Qed.

(** * Waking the first waiter *)

Lemma wq_rep_frame s s' w l :
  (∀ t, t ∈ l → wkey <$> threads s' !! t = wkey <$> threads s !! t) →
  (∀ t, t ∈ l → wait_node <$> threads s' !! t = wait_node <$> threads s !! t) → wqs s' = wqs s →
  wq_rep s w l → wq_rep s' w l.
Proof.
  intros Hk Hw Eq [(q & Hq & Hl & [Hlk Htl]) Hwt]. split.
  - exists q. rewrite Eq. do 2 (split; [done|]). split; [|done]. eapply linked_proper; [exact Hlk|]. intros b Hb.
    specialize (Hw b Hb). unfold nexts, prevs. destruct (threads s' !! b), (threads s !! b); simpl in *; try done.
    injection Hw as Hw. unfold w_next, w_prev. by rewrite Hw.
  - intros t Ht. destruct (Hwt t Ht) as (p & Hp & Hr). exists p. by rewrite Hk.
Qed.

Lemma unlinked_key {X} (g : thread_t → X) (m : gmap Z thread_t) n p nx b :
  (∀ v x, g (set_wn (set_w_next v) x) = g x) → (∀ v x, g (set_wn (set_w_prev v) x) = g x) →
  g <$> unlinked m n p nx !! b = g <$> m !! b.
Proof. intros H1 H2. unfold unlinked. rewrite !key_alter by done. by apply (unlink_field (Links0 := wait_links)). Qed.

Lemma fmap_core_key {X} (g : thread_t → X) (o o' : option thread_t) :
  core <$> o = core <$> o' → (∀ x, g (core x) = g x) → g <$> o = g <$> o'.
Proof.
  intros H Hg. destruct o as [x|], o' as [y|]; simpl in *; try done. apply (inj Some) in H. by rewrite <-(Hg x), <-(Hg y), H.
Qed.

Lemma wp_wake_first s L w n l :
  sched_inv s L → wq_rep s w (n :: l) →
  wp (waitqueue_wake_one w) (λ _ s', ∃ x, threads s !! n = Some x ∧
    let k := (home s x, priority_level x) in sched_inv s' (upd_q L k (L k ++ [n])) ∧ wq_rep s' w l ∧
    (∃ y, threads s' !! n = Some y ∧ state y = THREAD_READY ∧ woken (wait_node y) = true) ∧
    ∀ t, t ≠ n → wkey <$> threads s' !! t = wkey <$> threads s !! t) s.
Proof.
  intros Hs [(q & Hq & Hl & Hqu) Hwt]. pose proof Hqu as [Hlk _]. pose proof (linked_nonzero _ _ _ Hlk) as H0.
  pose proof Hlk as (Hh & Hnd & _). apply NoDup_cons in Hnd as [Hnl Hnd].
  destruct (Hwt n) as (p & Hwk & Hp); [set_solver|]. pose proof (blocked_out _ _ _ _ Hs (Hwt n ltac:(set_solver))) as Hout.
  destruct (threads s !! n) as [x|] eqn:Hx; [|done]. injection Hwk as Hst Htl Hth Hwo Hbo Hpr.
  unfold waitqueue_wake_one. wp_pures. eapply wp_wq_acquire; [done..|]. wp_pures.
  eapply wp_wq_load; [simpl; by rewrite lookup_alter_eq, Hq|]. wp_pures. simpl. rewrite Hh. simpl.
  assert (n =? 0 = false) as -> by (apply Z.eqb_neq; set_solver). wp_pures.
  set (q1 := set_wq_lock (held (cpu_id (cpu s))) q).
  eapply (wp_wq_unlink_head _ w q1 n l); [simpl; by rewrite lookup_alter_eq, Hq|done|].
  intros nx q2 Hqu2. change (wqueue (unlinked (threads s) n 0 nx) q2 l) in Hqu2.
  match goal with |- context [threads (set_wqs ?a s)] => change (threads (set_wqs a s)) with (threads s) end.
  set (m := unlinked (threads s) n 0 nx) in *. wp_pures.
  assert (is_Some (m !! n)) as [x1 Hx1].
  { eapply (key_is_Some skey); [by apply unlinked_key|eauto]. }
  assert (wkey x1 = wkey x) as Hk1.
  { assert (wkey <$> m !! n = wkey <$> threads s !! n) as H by (by apply unlinked_key).
    rewrite Hx1, Hx in H. by apply (inj Some) in H. }
  assert (skey x1 = skey x ∧ pinned_cpu x1 = pinned_cpu x) as [Hk1' Hpin].
  { assert ((λ x, (skey x, pinned_cpu x)) <$> m !! n = (λ x, (skey x, pinned_cpu x)) <$> threads s !! n) as H
      by (by apply unlinked_key). rewrite Hx1, Hx in H.
    apply (inj Some) in H. unfold skey. by injection H as -> -> -> -> -> ->. }
  injection Hk1 as Hst1 Htl1 Hth1 Hwo1 Hbo1 Hpr1. injection Hk1' as _ _ _ _ Hlc1.
  apply wp_th_store; [simpl; eauto|]. wp_pures. eapply wp_th_load; [simpl; by rewrite lookup_alter_eq, Hx1|].
  wp_pures. eapply wp_wq_release; [simpl; by rewrite lookup_insert_eq|done|]. simpl. wp_pures.
  rewrite Hth1, Hth. set (m2 := alter (set_wn (set_w_woken true)) n m).
  match goal with |- wp _ _ ?st => set (s2 := st) end.
  assert (threads s2 !! n = Some (set_wn (set_w_woken true) x1)) as Hx2.
  { change (threads s2) with m2. unfold m2. by rewrite lookup_alter_eq, Hx1. }
  assert (sched_inv s2 L) as Hs2.
  { eapply sched_inv_wait; [exact Hs| |done..]. intros t.
    change (threads s2) with m2. unfold m2. rewrite key_alter by done. by apply unlinked_key. }
  assert (wqs s2 !! w = Some (set_wq_lock unlocked q2)) as Hq2.
  { simpl. by rewrite lookup_alter_eq, lookup_insert_eq. }
  eapply wp_mono; [apply (wp_sched_wake s2 L n _ Hs2 Hx2); simpl; try congruence; set_solver|].
  intros [] s3 (Hs3 & m3 & Hf3 & Hm3 & Hm3n). exists x. split; [done|]. simpl in Hs3, Hm3n.
  assert (∀ t, t ≠ n → core <$> threads s3 !! t = core <$> m2 !! t) as Hrest.
  { intros t Ht. rewrite (sf_th _ _ _ Hf3), Hm3 by done. done. }
  assert (∀ t, t ≠ n → wkey <$> m2 !! t = wkey <$> threads s !! t) as Hm2.
  { intros t Ht. unfold m2. rewrite lookup_alter_ne by done. by apply unlinked_key. }
  split_and!.
  - replace (home s x) with (home s2 (set_wn (set_w_woken true) x1)); [by rewrite <-Hpr1|].
    unfold home. simpl. by rewrite Hpin, Hlc1.
  - destruct (rest_fields _ _ (sf_rest _ _ _ Hf3)) as (_ & _ & Ew & _).
    apply (wq_rep_frame s2); [intros t Ht; apply fmap_core_key; [apply Hrest; congruence|done]..|done|].
    split; [exists (set_wq_lock unlocked q2); split_and!; [done..|]|].
    + apply (queue_alter (Links0 := wait_links)); [exact Hqu2|]. by right.
    + intros t Ht. assert (t ≠ n) as Hne by congruence. destruct (Hwt t) as (p' & Hp' & Hr'); [set_solver|].
      exists p'. split; [|done]. rewrite <-Hp'. by apply Hm2.
  - pose proof (sf_th _ _ _ Hf3 n) as Hy. rewrite Hm3n in Hy. destruct (threads s3 !! n) as [y|]; [|done].
    apply (inj Some) in Hy. destruct (core_fields _ _ Hy) as (Hy1 & _ & _ & _ & Hy2 & _). exists y.
    split_and!; [done|by rewrite Hy1|by rewrite Hy2].
  - intros t Ht. rewrite <-(Hm2 t Ht). apply fmap_core_key; [by apply Hrest|done].
Qed.

(** * Joining a queue *)

(** The node [a] after it was put behind [t]. *)
Lemma wp_wq_link s w q a l (Q : unit → sched_state → Prop) :
  wqs s !! w = Some q → wqueue (threads s) q l → a ∉ l → a ≠ 0 → is_Some (threads s !! a) →
  (∀ m, wqueue m (mkWq (wq_lock q) (if wq_tail q =? 0 then a else wq_head q) a) (l ++ [a]) →
     (∀ b, skey <$> m !! b = skey <$> threads s !! b) →
     (∀ b, wkey <$> m !! b = wkey <$> alter (set_wn (set_w_woken false)) a (threads s) !! b) →
     Q tt (set_wqs (<[w := mkWq (wq_lock q) (if wq_tail q =? 0 then a else wq_head q) a]> (wqs s)) (set_threads m s))) →
  wp (wq_link w a) Q s.
Proof.
  intros Hq Hqu Ha Ha0 Hsome HQ. pose proof (queue_last_ne (Links0 := wait_links) _ _ _ _ _ Hqu Ha Ha0) as Hne.
  unfold wq_link. wp_pures. apply wp_th_store; [done|]. wp_pures. eapply wp_wq_load; [done|]. wp_pures.
  apply wp_th_store; [simpl; by rewrite lookup_alter_is_Some|]. wp_pures.
  apply wp_th_store; [simpl; by rewrite !lookup_alter_is_Some|]. wp_pures. rewrite !set_threads_twice. simpl.
  set (m0 := alter (set_wn (set_w_woken false)) a (threads s)).
  assert (alter (set_wn (set_w_woken false)) a (alter (set_wn (set_w_prev (wq_tail q))) a
    (alter (set_wn (set_w_next 0)) a (threads s))) =
    alter (set_wn (set_w_prev (wq_tail q))) a (alter (set_wn (set_w_next 0)) a m0)) as Hcomm.
  { unfold m0. rewrite !alter_twice. by apply alter_ext. }
  rewrite Hcomm. clear Hcomm.
  assert (wqueue m0 q l) as Hq0 by (apply (queue_alter (Links0 := wait_links)); [done|by left]).
  apply (queue_append (Links0 := wait_links) _ _ _ _ a) in Hq0; [|done|done|unfold m0; by rewrite lookup_alter_is_Some].
  specialize (HQ (append_map (Links0 := wait_links) a (wq_tail q) m0) Hq0).
  assert (∀ f, alter f w (wqs s) = <[w := f q]> (wqs s)) as Halt by (by intros f; apply alter_const).
  assert (∀ b, skey <$> append_map (Links0 := wait_links) a (wq_tail q) m0 !! b = skey <$> threads s !! b) as Hsk.
  { intros b. rewrite (append_field (Links0 := wait_links)) by done. by apply key_alter. }
  specialize (HQ Hsk (λ b, append_field (Links0 := wait_links) wkey a _ _ b (λ _ _, eq_refl) (λ _ _, eq_refl) Hne)).
  unfold append_map in HQ. simpl in HQ.
  destruct (Z.eqb_spec (wq_tail q) 0) as [Ht|Ht]; simpl negb; cbv beta iota.
  - apply wp_wq_store; [simpl; eauto|]. wp_pures. apply wp_wq_store; [simpl; rewrite lookup_alter_is_Some; eauto|].
    simpl. rewrite (alter_twice (set_wq_tail a) (set_wq_head a)), Halt. exact HQ.
  - apply wp_th_store.
    { simpl. rewrite !lookup_alter_is_Some. unfold m0. rewrite lookup_alter_is_Some.
      destruct Hqu as [Hl Hl2]. destruct (last l) as [y|] eqn:Hy; [|by rewrite Hl2 in Ht]. rewrite Hl2. simpl.
      apply (linked_in _ _ _ y Hl). by apply last_in. }
    wp_pures. apply wp_wq_store; [simpl; eauto|]. simpl. rewrite Halt. exact HQ.
Qed.

Lemma wp_sched_mark_blocked s t x (Q : unit → sched_state → Prop) :
  threads s !! t = Some x → t_lock x = unlocked →
  Q tt (set_threads (alter (set_state THREAD_BLOCKED) t (threads s)) s) → wp (sched_mark_blocked t) Q s.
Proof.
  intros Hx Hl HQ. unfold sched_mark_blocked, th_acquire, th_release, me, th_locking, lock_with.
  wp_pures. eapply wp_th_load; [done|]. wp_pures. rewrite Hl. simpl.
  apply wp_th_store; [eauto|]. wp_pures. apply wp_th_store; [simpl; rewrite lookup_alter_is_Some; eauto|].
  wp_pures. eapply wp_th_load; [simpl; by rewrite !lookup_alter_eq, Hx|]. wp_pures. simpl.
  apply wp_th_store; [simpl; rewrite !lookup_alter_is_Some; eauto|]. rewrite !set_threads_twice. simpl.
  rewrite !alter_twice, (alter_const _ _ _ _ Hx). rewrite (alter_const _ _ _ _ Hx) in HQ.
  destruct x. simpl in Hl. subst. exact HQ.
Qed.

Lemma wp_block s L w l p x :
  sched_inv s L → wq_rep s w l → current_thread (cpu s) = p → threads s !! p = Some x →
  state x = THREAD_RUNNING → t_lock x = unlocked → p ≠ 0 → (∀ k, p ∉ L k) → 0 ≤ priority_level x < 8 →
  wp (waitqueue_block w) (λ r s', r = p ∧ sched_inv s' L ∧ wq_rep s' w (l ++ [p]) ∧
    ∀ t, t ≠ p → wkey <$> threads s' !! t = wkey <$> threads s !! t) s.
Proof.
  intros Hs [(q & Hq & Hql & Hqu) Hwt] Hcur Hx Hst Hl Hp0 Hout Hp.
  assert (p ∉ l) as Hpl.
  { intros Hin. destruct (Hwt p Hin) as (pr & Hk & _). rewrite Hx in Hk. injection Hk as Hk _ _ _ _ _. congruence. }
  unfold waitqueue_block. wp_pures. rewrite Hcur. eapply wp_wq_acquire; [done|done|]. wp_pures.
  apply wp_th_store; [simpl; eauto|]. wp_pures. apply wp_th_store; [simpl; rewrite lookup_alter_is_Some; eauto|].
  wp_pures. simpl. rewrite alter_twice. set (f := set_wn (set_w_woken false) ∘ set_wn (set_w_thread p)).
  eapply (wp_wq_link _ w _ p l); [simpl; by rewrite lookup_alter_eq, Hq| |done|done|simpl; rewrite lookup_alter_is_Some; eauto|].
  { apply (queue_alter (Links0 := wait_links)); [exact Hqu|by left]. }
  intros m Hm Hsk Hwk. simpl in Hm, Hsk, Hwk. wp_pures.
  assert (is_Some (m !! p)) as Hmp.
  { eapply (key_is_Some skey); [apply Hsk|]. rewrite lookup_alter_is_Some. eauto. }
  assert (∀ b, b ≠ p → wkey <$> m !! b = wkey <$> threads s !! b) as Hwo.
  { intros b Hb. rewrite Hwk, lookup_alter_ne by done. by rewrite lookup_alter_ne by done. }
  destruct Hmp as [y Hy].
  assert (t_lock y = unlocked ∧ thread (wait_node y) = p ∧ woken (wait_node y) = false ∧
    priority_level y = priority_level x) as (Hy1 & Hy2 & Hy3 & Hy4).
  { specialize (Hwk p). rewrite Hy, lookup_alter_eq, lookup_alter_eq, Hx in Hwk. injection Hwk as _ -> -> -> _ ->. done. }
  apply wp_th_store; [simpl; eauto|]. wp_pures.
  eapply wp_sched_mark_blocked; [simpl; by rewrite lookup_alter_eq, Hy|done|]. wp_pures.
  eapply wp_wq_release; [simpl; by rewrite lookup_insert_eq|done|]. simpl. wp_pures. rewrite alter_twice.
  set (g := set_state THREAD_BLOCKED ∘ set_blocked_on w). split_and!; [done|..].
  - assert (sched_inv (set_threads m s) L) as Hm1.
    { eapply sched_inv_wait; [exact Hs| |done..]. intros b. simpl. rewrite Hsk. by apply key_alter. }
    eapply sched_inv_wait; [apply (sched_inv_out _ _ p g Hm1 Hout); done|done..].
  - split.
    + eexists. split; [simpl; by rewrite lookup_alter_eq, lookup_insert_eq|]. split; [done|].
      apply (queue_alter (Links0 := wait_links)); [exact Hm|]. by right.
    + intros t Ht. destruct (decide (p = t)) as [<-|Hne].
      * exists (priority_level x). simpl. rewrite lookup_alter_eq, Hy. unfold wkey. simpl. by rewrite Hy1, Hy2, Hy3, Hy4.
      * destruct (Hwt t) as (pr & Hk & Hr); [set_solver|]. exists pr. simpl. rewrite lookup_alter_ne by done. by rewrite Hwo.
  - intros t Ht. simpl. rewrite lookup_alter_ne by done. auto.
Qed.
(** * Waking every waiter *)

(** The nodes of [l], each pointing to the next one. *)
Fixpoint chain (m : gmap Z thread_t) (l : list Z) : Prop :=
  match l with [] => True | a :: l' => w_next <$> m !! a = Some (default 0 (hd_error l')) ∧ chain m l' end.
Lemma chain_frame m m' l : (∀ t, t ∈ l → w_next <$> m' !! t = w_next <$> m !! t) → chain m l → chain m' l.
Proof.
  induction l as [|a l IH]; [done|]. intros H [H1 H2]. split; [by rewrite H by set_solver|]. apply IH; [set_solver|done].
Qed.
Lemma dseg_chain m p l : dseg (nexts (Links0 := wait_links) m) (prevs (Links0 := wait_links) m) p l 0 → chain m l.
Proof. revert p. induction l as [|a l IH]; intros p; [done|]. intros (_ & H1 & _ & H2). split; [|by eapply IH]. by destruct l. Qed.

Lemma wp_wake_round s L w n l (Q : Z + unit → sched_state → Prop) :
  sched_inv s L → chain (threads s) (n :: l) → n ∉ l → n ≠ 0 → (∀ t, t ∈ n :: l → waiter s w t) →
  (∀ s' k, sched_inv s' (upd_q L k (L k ++ [n])) → chain (threads s') l → (∀ t, t ∈ l → waiter s' w t) →
     wqs s' = wqs s → Q (inl (default 0 (hd_error l))) s') →
  wp (wake_round n) Q s.
Proof.
  intros Hs [Hc Hch] Hnl Hn0 Hwt HQ. pose proof (blocked_out _ _ _ _ Hs (Hwt n ltac:(set_solver))) as Hout.
  destruct (Hwt n) as (p & Hwk & Hp); [set_solver|].
  destruct (threads s !! n) as [x|] eqn:Hx; [|done]. injection Hwk as Hst Htl Hth Hwo Hbo Hpr. injection Hc as Hnx.
  unfold wake_round. pose proof Hn0 as ->%Z.eqb_neq. wp_pures. eapply wp_th_load; [done|]. wp_pures.
  apply wp_th_store; [eauto|]. wp_pures. apply wp_th_store; [simpl; rewrite lookup_alter_is_Some; eauto|]. wp_pures.
  apply wp_th_store; [simpl; rewrite !lookup_alter_is_Some; eauto|]. wp_pures. rewrite !set_threads_twice. simpl.
  rewrite !alter_twice. match goal with |- context [alter ?g n (threads s)] => set (f := g) end.
  set (s1 := set_threads (alter f n (threads s)) s). rewrite Hth.
  assert (threads s1 !! n = Some (f x)) as Hx1 by (simpl; by rewrite lookup_alter_eq, Hx).
  assert (sched_inv s1 L) as Hs1 by (by apply sched_inv_out).
  eapply wp_mono; [apply (wp_sched_wake s1 L n _ Hs1 Hx1); try done; simpl; congruence|].
  intros [] s2 (Hs2 & m & Hf & Hm & _). wp_pures. rewrite Hnx.
  assert (∀ t, t ∈ l → core <$> threads s2 !! t = core <$> threads s !! t) as Hsame.
  { intros t Ht. assert (n ≠ t) by congruence. rewrite (sf_th _ _ _ Hf), Hm by done. simpl. by rewrite lookup_alter_ne. }
  eapply HQ; [exact Hs2|..].
  - eapply chain_frame; [|exact Hch]. intros t Ht. apply fmap_core_key; [by apply Hsame|done].
  - intros t Ht. destruct (Hwt t) as (p' & Hp' & Hr); [set_solver|]. exists p'. split; [|done]. rewrite <-Hp'.
    apply fmap_core_key; [by apply Hsame|done].
  - by destruct (rest_fields _ _ (sf_rest _ _ _ Hf)) as (_ & _ & -> & _).
Qed.

Lemma wp_wake_loop w l : ∀ fuel s L,
  (length l < fuel)%nat → sched_inv s L → chain (threads s) l → NoDup l → 0 ∉ l → (∀ t, t ∈ l → waiter s w t) →
  wp (loop fuel wake_round (default 0 (hd_error l))) (λ _ s', ∃ L', sched_inv s' L' ∧ wqs s' = wqs s ∧
    (∀ t, t ∈ l → ∃ k, t ∈ L' k) ∧ ∀ k t, t ∈ L k → t ∈ L' k) s.
Proof.
  induction l as [|n l IH]; intros fuel s L Hfu Hs Hch Hnd H0 Hwt; (destruct fuel as [|fuel]; [simpl in Hfu; lia|]).
  - simpl. unfold wake_round. simpl. wp_pures. exists L. set_solver.
  - apply NoDup_cons in Hnd as [Hnl Hnd]. simpl. apply wp_bind.
    eapply wp_wake_round; [done|done|done|set_solver|done|]. intros s1 k Hs1 Hch1 Hwt1 Hw1.
    eapply wp_mono; [apply (IH fuel s1 (upd_q L k (L k ++ [n]))); [simpl in Hfu; lia|done|done|done|set_solver|done]|].
    intros [] s2 (L' & Hs2 & Hw2 & Hall & Hold). exists L'. split; [done|]. split; [congruence|]. split.
    + intros t [->|Ht]%elem_of_cons; [|by apply Hall]. exists k. apply Hold. rewrite upd_q_eq. set_solver.
    + intros k' t Ht. apply Hold. destruct (decide (k' = k)) as [->|]; [rewrite upd_q_eq; set_solver|by rewrite upd_q_ne].
Qed.

Lemma wp_wake_all s L w l :
  sched_inv s L → wq_rep s w l →
  wp (waitqueue_wake_all w) (λ _ s', ∃ L', sched_inv s' L' ∧ wq_rep s' w [] ∧
    (∀ t, t ∈ l → ∃ k, t ∈ L' k) ∧ ∀ k t, t ∈ L k → t ∈ L' k) s.
Proof.
  intros Hs [(q & Hq & Hql & [Hlk Htl]) Hwt]. pose proof (linked_nonzero _ _ _ Hlk) as H0.
  destruct Hlk as (Hh & Hnd & Hd). apply dseg_chain in Hd.
  unfold waitqueue_wake_all. wp_pures. eapply wp_wq_acquire; [done|done|]. wp_pures.
  eapply wp_wq_load; [simpl; by rewrite lookup_alter_eq, Hq|]. wp_pures.
  apply wp_wq_store; [simpl; rewrite lookup_alter_is_Some; eauto|]. wp_pures.
  apply wp_wq_store; [simpl; rewrite !lookup_alter_is_Some; eauto|]. wp_pures.
  eapply wp_wq_release; [simpl; by rewrite !lookup_alter_eq, Hq|done|]. apply wp_bind, wp_gets. simpl wq_head. rewrite Hh.
  match goal with |- wp _ _ ?st => set (s1 := st) end.
  assert (length l ≤ size (threads s))%nat as Hlen.
  { rewrite <-size_dom, <-(size_list_to_set (C := gset Z)) by done. apply subseteq_size. intros t Ht.
    apply elem_of_list_to_set in Ht. destruct (Hwt t Ht) as (p & Hp & _). apply elem_of_dom.
    destruct (threads s !! t); [eauto|done]. }
  eapply wp_mono; [apply (wp_wake_loop w l _ s1 L)|].
  - change (threads s1) with (threads s). lia.
  - by eapply sched_inv_wait; [exact Hs|..].
  - done.
  - done.
  - done.
  - done.
  - intros [] s2 (L' & Hs2 & Hw2 & Hall & Hold). exists L'. split_and!; [done| |done..]. split; [|set_solver].
    eexists. split; [rewrite Hw2; simpl; by rewrite !lookup_alter_eq, Hq|]. split; [done|]. by apply queue_empty.
Qed.
(** * The property *)

Lemma wp_wake_none s L w :
  sched_inv s L → wq_rep s w [] → wp (waitqueue_wake_one w) (λ _ s', sched_inv s' L ∧ wq_rep s' w []) s.
Proof.
  intros Hs [(q & Hq & Hql & [Hh Htl]%queue_empty) _]. unfold waitqueue_wake_one. wp_pures.
  eapply wp_wq_acquire; [done|done|]. wp_pures. eapply wp_wq_load; [simpl; by rewrite lookup_alter_eq, Hq|]. wp_pures.
  simpl. rewrite Hh. simpl. eapply wp_wq_release; [simpl; by rewrite lookup_alter_eq, Hq|done|]. split.
  - by eapply sched_inv_wait; [exact Hs|..].
  - split; [|set_solver]. eexists. split; [simpl; by rewrite !lookup_alter_eq, Hq|]. split; [done|]. by apply queue_empty.
Qed.

(** C20: wait queues are first come, first served and lose no one: a thread
    that waits goes blocked to the end of the queue; waking one takes the thread
    that has waited longest off the queue, marks its node, and puts it ready at
    the end of its level, and does nothing when no one waits; waking all empties
    the queue and leaves every waiter on a run queue, so that each will be
    picked. *)
Theorem waitqueue_spec s L w l :
  sched_inv s L → wq_rep s w l →
  wp (waitqueue_wake_one w) (λ _ s', match l with
    | [] => sched_inv s' L ∧ wq_rep s' w []
    | n :: l' => ∃ x, threads s !! n = Some x ∧
        let k := (home s x, priority_level x) in sched_inv s' (upd_q L k (L k ++ [n])) ∧ wq_rep s' w l' ∧
        (∃ y, threads s' !! n = Some y ∧ state y = THREAD_READY ∧ woken (wait_node y) = true) ∧
        ∀ t, t ≠ n → wkey <$> threads s' !! t = wkey <$> threads s !! t
    end) s ∧
  wp (waitqueue_wake_all w) (λ _ s', ∃ L', sched_inv s' L' ∧ wq_rep s' w [] ∧
    (∀ t, t ∈ l → ∃ k, t ∈ L' k) ∧ ∀ k t, t ∈ L k → t ∈ L' k) s ∧
  ∀ p x, current_thread (cpu s) = p → threads s !! p = Some x → state x = THREAD_RUNNING →
    t_lock x = unlocked → p ≠ 0 → (∀ k, p ∉ L k) → 0 ≤ priority_level x < 8 →
    wp (waitqueue_block w) (λ r s', r = p ∧ sched_inv s' L ∧ wq_rep s' w (l ++ [p]) ∧
      ∀ t, t ≠ p → wkey <$> threads s' !! t = wkey <$> threads s !! t) s.
Proof.
  intros Hs Hw. split_and!; [|by apply wp_wake_all|intros; by eapply wp_block].
  destruct l; [by apply wp_wake_none|by apply wp_wake_first].
Qed.
End wait.

(** Thread 200 of the small machine waits on the queue 7. *)
Definition demo_waiting : sched_state := run_s (waitqueue_block 7) demo_sched.
Lemma demo_wq : wq_rep demo_sched 7 [].
Proof.
  split; [|set_solver]. exists (mkWq unlocked 0 0). split; [vm_compute; reflexivity|]. split; [done|]. by apply queue_empty.
Qed.
Lemma demo_waiting_inv : sched_inv demo_waiting (λ _, []) ∧ wq_rep demo_waiting 7 [200].
Proof.
  pose proof (wp_block demo_sched (λ _, []) 7 [] 200 (demo_thread THREAD_RUNNING 2 0) demo_sched_inv demo_wq) as H.
  specialize (H ltac:(reflexivity) ltac:(vm_compute; reflexivity) ltac:(reflexivity) ltac:(reflexivity) ltac:(lia)
    (λ k, not_elem_of_nil 200) ltac:(simpl; lia)).
  assert (waitqueue_block 7 demo_sched = Done (200, demo_waiting)) as Hrun by (vm_compute; reflexivity).
  apply (wp_run _ _ _ _ _ Hrun) in H. destruct H as (_ & H1 & H2 & _). split; [exact H1|exact H2].
Qed.
Lemma waitqueue_spec_witness :
  wp (waitqueue_wake_one 7) (λ _ s', wq_rep s' 7 []) demo_waiting ∧
  wp (waitqueue_block 7) (λ _ s', wq_rep s' 7 [200]) demo_sched.
Proof.
  split.
  - destruct demo_waiting_inv as [H1 H2]. destruct (waitqueue_spec demo_waiting _ 7 [200] H1 H2) as (H & _).
    eapply wp_mono; [exact H|].
    intros _ s' (x & _ & _ & H' & _). exact H'.
  - destruct (waitqueue_spec demo_sched _ 7 [] demo_sched_inv demo_wq) as (_ & _ & H).
    eapply wp_mono; [apply (H 200 (demo_thread THREAD_RUNNING 2 0))|].
    + reflexivity.
    + vm_compute. reflexivity.
    + reflexivity.
    + reflexivity.
    + lia.
    + intros k. apply not_elem_of_nil.
    + simpl. lia.
    + intros r s' (_ & _ & H' & _). exact H'.
Defined.
