(* ===== verification/Fpu.v ===== *)
(** The FPU under the scheduler. The registers are saved when a thread that used
    them is switched out, and loaded when a thread first uses them: each thread
    sees registers of its own. *)
From S2P Require Import Prelude Sync DList Irq Sched SchedSpec SchedTheorems.

(** An instruction of the FPU that turns the registers [r] into [f r]: it traps
    to [nm_handler] when the TS bit is set. *)
Definition fpu_instr (f : list Z → list Z) : M sched_state unit :=
  ts ← gets cr0_ts;
  when ts nm_handler ;;
  modify (λ s, set_fpu_regs (f (fpu_regs s)) s).

(** The registers as thread [t] sees them. *)
Definition fpu_view (regs : list Z) (x : fpu_state_t) : list Z :=
  if dirty x then regs else if used x then take FX_BYTES (region x) else replicate FX_BYTES 0.
Definition fpu_of (s : sched_state) (t : Z) : option (list Z) :=
  fpu_view (fpu_regs s) ∘ fpu <$> threads s !! t.

(** Only the thread that runs has registers that are not saved, and it has them
    when the TS bit is clear. *)
Record fpu_ok (s : sched_state) : Prop := {
  fo_regs : length (fpu_regs s) = FX_BYTES;
  fo_region t x : threads s !! t = Some x → length (region (fpu x)) = 512%nat;
  fo_dirty t x : threads s !! t = Some x → dirty (fpu x) = true →
    t = current_thread (cpu s) ∧ used (fpu x) = true ∧ cr0_ts s = false;
  fo_clear : cr0_ts s = false → ∃ x, threads s !! current_thread (cpu s) = Some x ∧ dirty (fpu x) = true;
}.

Section instr.
Implicit Types s : sched_state.

(** What the handler leaves of a thread: registers that are in use and are not
    saved. *)
Definition fpu_loaded (x : fpu_state_t) : fpu_state_t :=
  mkFpu (if used x then region x else replicate 512 0) true true.

Lemma cr0_ts_clear v : Z.testbit (Z.land v (not64 CR0_TS)) 3 = false.
Proof. rewrite Z.land_spec. apply andb_false_r. Qed.
Lemma fpu_view_length s x t : fpu_ok s → threads s !! t = Some x → length (fpu_view (fpu_regs s) (fpu x)) = FX_BYTES.
Proof.
  intros Hok Hx. unfold fpu_view. destruct (dirty (fpu x)); [apply Hok|]. destruct (used (fpu x)); [|by rewrite length_replicate].
  rewrite length_take, (fo_region _ Hok _ _ Hx). done.
Qed.
Lemma fpu_clean s t x : fpu_ok s → cr0_ts s = true → threads s !! t = Some x → dirty (fpu x) = false.
Proof.
  intros Hok Hts Hx. destruct (dirty (fpu x)) eqn:Hd; [|done]. destruct (fo_dirty _ Hok _ _ Hx Hd) as (_ & _ & ?). congruence.
Qed.

Lemma nm_handler_run s x :
  cr0_ts s = true → threads s !! current_thread (cpu s) = Some x → dirty (fpu x) = false →
  wp nm_handler (λ _ s', s' = set_cr0 (Z.land (cr0 s) (not64 CR0_TS)) (set_fpu_regs (fpu_view (fpu_regs s) (fpu x))
    (set_threads (<[current_thread (cpu s) := set_fpu (fpu_loaded (fpu x)) x]> (threads s)) s))) s.
Proof.
  intros Hts Hx Hd. unfold nm_handler, read_cr0, write_cr0, fxrstor, fpu_view, fpu_loaded. wp_pures. eapply wp_th_load; [exact Hx|].
  rewrite Hd. destruct (used (fpu x)) eqn:Hu; simpl; wp_pures.
  - eapply wp_th_load; [exact Hx|]. wp_pures. apply wp_th_store; [simpl; eauto|]. simpl.
    rewrite (alter_const _ x) by done. by rewrite Hu.
  - do 2 (apply wp_th_store; [simpl; rewrite ?lookup_alter_is_Some; eauto|]; wp_pures).
    eapply wp_th_load; [simpl; by rewrite !lookup_alter_eq, Hx|]. wp_pures.
    apply wp_th_store; [simpl; rewrite ?lookup_alter_is_Some; eauto|]. simpl. by rewrite !alter_twice, (alter_const _ x).
Qed.

(** The thread that runs comes to own the registers, and [f] is done to them. *)
Lemma fpu_own s x f :
  fpu_ok s → (∀ r, length (f r) = length r) → threads s !! current_thread (cpu s) = Some x → dirty (fpu x) = true →
  let s' := set_fpu_regs (f (fpu_regs s)) s in
  fpu_ok s' ∧ ∀ t, fpu_of s' t = (if decide (t = current_thread (cpu s)) then f <$> fpu_of s t else fpu_of s t).
Proof.
  intros Hok Hf Hx Hd s'. split.
  - destruct Hok as [H1 H2 H3 H4]. split; try done. simpl. by rewrite Hf.
  - intros t. unfold fpu_of. simpl. case_decide as Ht.
    + subst t. rewrite Hx. simpl. unfold fpu_view. by rewrite Hd.
    + destruct (threads s !! t) as [y|] eqn:Hy; simpl; [|done]. unfold fpu_view. destruct (dirty (fpu y)) eqn:Hdy; [|done].
      by destruct (fo_dirty _ Hok _ _ Hy Hdy) as (? & _).
Qed.

Lemma wp_fpu_instr s x f :
  fpu_ok s → (∀ r, length (f r) = length r) → threads s !! current_thread (cpu s) = Some x →
  wp (fpu_instr f) (λ _ s', fpu_ok s' ∧ cpu s' = cpu s ∧
    ∀ t, fpu_of s' t = (if decide (t = current_thread (cpu s)) then f <$> fpu_of s t else fpu_of s t)) s.
Proof.
  intros Hok Hf Hx. unfold fpu_instr, when. wp_pures. destruct (cr0_ts s) eqn:Hts; simpl; wp_pures.
  - pose proof (fpu_clean _ _ _ Hok Hts Hx) as Hd. eapply wp_mono; [by eapply nm_handler_run|]. intros [] s1 ->. wp_pures.
    set (s1 := set_cr0 _ _).
    assert (fpu_ok s1) as Hok1.
    { split.
      - simpl. by eapply fpu_view_length.
      - simpl. intros t y. rewrite lookup_insert_Some. intros [[<- <-]|[_ Hy]]; [|by eapply fo_region].
        simpl. destruct (used (fpu x)); [by eapply fo_region|done].
      - simpl. intros t y. rewrite lookup_insert_Some. intros [[<- <-]|[_ Hy]] Hdy.
        + split_and!; [done..|]. apply cr0_ts_clear.
        + rewrite (fpu_clean _ _ _ Hok Hts Hy) in Hdy. done.
      - intros _. simpl. rewrite lookup_insert_eq. by eexists. }
    assert (∀ t, fpu_of s1 t = fpu_of s t) as Hof.
    { intros t. unfold fpu_of. simpl. destruct (decide (t = current_thread (cpu s))) as [->|Ht].
      - rewrite lookup_insert_eq, Hx. done.
      - rewrite lookup_insert_ne by done. destruct (threads s !! t) as [y|] eqn:Hy; simpl; [|done].
        unfold fpu_view at 1 3. by rewrite (fpu_clean _ _ _ Hok Hts Hy). }
    destruct (fpu_own s1 (set_fpu (fpu_loaded (fpu x)) x) f Hok1 Hf) as [Hok2 Hof2]; [simpl; apply lookup_insert_eq|done|].
    split_and!; [done..|]. intros t. rewrite Hof2, Hof. done.
  - destruct (fo_clear _ Hok Hts) as (y & Hy & Hd). destruct (fpu_own s y f Hok Hf Hy Hd) as [Hok2 Hof2]. done.
Qed.
End instr.

(** * A switch *)

(** What no step of the scheduler changes before the switch itself. *)
Record fpu_same (s s' : sched_state) : Prop := {
  fs_th t : fpu <$> threads s' !! t = fpu <$> threads s !! t;
  fs_regs : fpu_regs s' = fpu_regs s;
  fs_cr0 : cr0 s' = cr0 s;
  fs_cur : current_thread (cpu s') = current_thread (cpu s);
}.
#[global] Instance fpu_same_refl : Reflexive fpu_same.
Proof. by intros s. Qed.
#[global] Instance fpu_same_trans : Transitive fpu_same.
Proof. intros s1 s2 s3 [A B C D] [E F G H]. split; intros; congruence. Qed.

(** Wherever [m] returns, it has left the FPU alone. *)
Definition quiet {A} (m : M sched_state A) : Prop := ∀ s a s', m s = Done (a, s') → fpu_same s s'.

Section quiet.
Implicit Types s : sched_state.

Lemma quiet_ret {A} (a : A) : quiet (mret a).
Proof. by intros s b s' [= _ <-]. Qed.
Lemma quiet_fault {A} : quiet (@fault sched_state A).
Proof. done. Qed.
Lemma quiet_hang {A} : quiet (@hang sched_state A).
Proof. done. Qed.
Lemma quiet_gets {A} (f : sched_state → A) : quiet (gets f).
Proof. by intros s b s' [= _ <-]. Qed.
Lemma quiet_bind {A B} (m : M sched_state A) (k : A → M sched_state B) : quiet m → (∀ a, quiet (k a)) → quiet (m ≫= k).
Proof.
  intros Hm Hk s b s'. unfold mbind, M_bind. destruct (m s) as [[a s1]| |] eqn:Hs; [|done..].
  intros H. etrans; [by eapply Hm|]. by eapply Hk.
Qed.
Lemma quiet_modify f : (∀ s, fpu_same s (f s)) → quiet (modify f).
Proof. intros Hf s b s' [= _ <-]. apply Hf. Qed.
Lemma quiet_th_load t : quiet (th_load t).
Proof. intros s b s'. unfold th_load. destruct (threads s !! t); [|done]. by intros [= _ <-]. Qed.
Lemma quiet_rq_load c : quiet (rq_load c).
Proof. intros s b s'. unfold rq_load. destruct (rqs s !! c); [|done]. by intros [= _ <-]. Qed.
Lemma quiet_rq_store c f : quiet (rq_store c f).
Proof. intros s b s'. unfold rq_store. destruct (rqs s !! c); [|done]. by intros [= _ <-]. Qed.
Lemma quiet_th_store t f : (∀ x, fpu (f x) = fpu x) → quiet (th_store t f).
Proof.
  intros Hf s b s'. unfold th_store. destruct (threads s !! t); [|done]. intros [= _ <-]. split; [|done..].
  intros a. simpl. destruct (decide (t = a)) as [->|]; [|by rewrite lookup_alter_ne].
  rewrite lookup_alter_eq. destruct (threads s !! a); simpl; [|done]. by rewrite Hf.
Qed.
Lemma quiet_cpu_store f : (∀ c, current_thread (f c) = current_thread c) → quiet (cpu_store f).
Proof. intros Hf. apply quiet_modify. intros s. split; try done. apply Hf. Qed.
Lemma quiet_if {A} (b : bool) (m k : M sched_state A) : quiet m → quiet k → quiet (if b then m else k).
Proof. by destruct b. Qed.
Lemma quiet_when (b : bool) m : quiet m → quiet (when b m).
Proof. destruct b; [done|]. intros _. apply quiet_ret. Qed.
Lemma quiet_loop {X A} fuel (body : X → M sched_state (X + A)) : (∀ x, quiet (body x)) → ∀ x, quiet (loop fuel body x).
Proof.
  intros Hb. induction fuel as [|fuel IH]; intros x; simpl; [apply quiet_hang|]. apply quiet_bind; [done|].
  intros [y|a]; [done|apply quiet_ret].
Qed.
Lemma quiet_for_each {X} (l : list X) (body : X → M sched_state unit) : (∀ x, quiet (body x)) → quiet (for_each l body).
Proof. intros Hb. induction l; simpl; [apply quiet_ret|]. by apply quiet_bind. Qed.
Lemma quiet_locking_rq c op : quiet (rq_locking c op).
Proof.
  unfold rq_locking, lock_with. apply quiet_bind; [apply quiet_bind; [apply quiet_rq_load|intros; apply quiet_ret]|].
  intros l. destruct (op l) as [[? ?]| |]; [apply quiet_rq_store|done..].
Qed.
End quiet.

Create HintDb quiet discriminated.
#[export] Hint Constants Opaque : quiet.
#[export] Hint Resolve quiet_ret quiet_fault quiet_hang quiet_gets quiet_th_load quiet_rq_load quiet_rq_store
  quiet_locking_rq : quiet.
(** Goes through a program, down to the operations that are known to be quiet. *)
Ltac quiet_step :=
  match goal with
  | |- quiet (_ ≫= _) => apply quiet_bind; [|intros ?]
  | |- quiet (when _ _) => apply quiet_when
  | |- quiet (let '(_, _) := ?x in _) => destruct x
  | |- quiet (match ?x with _ => _ end) => destruct x
  | |- quiet (th_store _ _) => apply quiet_th_store; done
  | |- quiet (cpu_store _) => apply quiet_cpu_store; done
  | |- quiet (modify _) => apply quiet_modify; done
  | |- quiet (loop _ _ _) => apply quiet_loop; intros ?
  | |- quiet (for_each _ _) => apply quiet_for_each; intros ?
  | |- quiet _ => solve [auto with quiet]
  end.
Ltac quiet_prog := cbv zeta; repeat quiet_step.

Section operations.
Context (tsc_freq : Z).

Lemma quiet_rq_acquire c : quiet (rq_acquire c).
Proof. unfold rq_acquire, me. quiet_prog. Qed.
Lemma quiet_rq_release c : quiet (rq_release c).
Proof. unfold rq_release, me. quiet_prog. Qed.
Lemma quiet_q_load q : quiet (q_load q).
Proof. unfold q_load. quiet_prog. Qed.
#[local] Hint Resolve quiet_q_load quiet_rq_acquire quiet_rq_release : quiet.
Lemma quiet_q_store q f : quiet (q_store q f).
Proof. unfold q_store. quiet_prog. Qed.
#[local] Hint Resolve quiet_q_store : quiet.
Lemma quiet_mlfq_push q t : quiet (mlfq_push q t).
Proof. unfold mlfq_push. quiet_prog. Qed.
Lemma quiet_mlfq_pop q : quiet (mlfq_pop q).
Proof. unfold mlfq_pop. quiet_prog. Qed.
Lemma quiet_set_priority t l : quiet (sched_set_priority t l).
Proof. unfold sched_set_priority. quiet_prog. Qed.
#[local] Hint Resolve quiet_mlfq_push quiet_mlfq_pop quiet_set_priority : quiet.
Lemma quiet_maybe_boost rq : quiet (maybe_boost tsc_freq rq).
Proof. unfold maybe_boost, sched_now_ns, boost_level, boost_round. quiet_prog. Qed.
Lemma quiet_pick_next rq : quiet (mlfq_pick_next rq).
Proof. unfold mlfq_pick_next. generalize [0; 1; 2; 3; 4; 5; 6; 7]. intros l. induction l; simpl; quiet_prog. Qed.
Lemma quiet_steal_from v : quiet (steal_from v).
Proof. unfold steal_from. quiet_prog. generalize 7%nat. intros n. induction n; simpl; quiet_prog. Qed.
#[local] Hint Resolve quiet_steal_from : quiet.
Lemma quiet_try_steal c : quiet (try_steal c).
Proof. unfold try_steal, steal_round, me. quiet_prog. Qed.
#[local] Hint Resolve quiet_maybe_boost quiet_pick_next quiet_try_steal : quiet.

Lemma fpu_same_of s s' t : fpu_same s s' → fpu_of s' t = fpu_of s t.
Proof.
  intros [Ht Hr _ _]. specialize (Ht t). unfold fpu_of. rewrite Hr.
  destruct (threads s' !! t), (threads s !! t); simpl in *; congruence.
Qed.
Lemma fpu_same_thread s s' t x' : fpu_same s s' → threads s' !! t = Some x' → ∃ x, threads s !! t = Some x ∧ fpu x' = fpu x.
Proof.
  intros [Ht _ _ _] Hx. specialize (Ht t). rewrite Hx in Ht. destruct (threads s !! t) as [x|]; simpl in Ht; [|done].
  exists x. split; [done|congruence].
Qed.
#[local] Instance fpu_same_sym : Symmetric fpu_same.
Proof. intros s s' [A B C D]. split; intros; congruence. Qed.
Lemma fpu_same_ok s s' : fpu_same s s' → fpu_ok s → fpu_ok s'.
Proof.
  intros Hs [H1 H2 H3 H4]. destruct (Hs) as [_ Hr Hc Hcur]. split; unfold cr0_ts in *.
  - by rewrite Hr.
  - intros t x Hx. destruct (fpu_same_thread _ _ _ _ Hs Hx) as (y & Hy & ->). by eapply H2.
  - intros t x Hx Hd. destruct (fpu_same_thread _ _ _ _ Hs Hx) as (y & Hy & Hf). rewrite Hf in Hd. rewrite Hf, Hcur, Hc. exact (H3 t y Hy Hd).
  - rewrite Hc, Hcur. intros (x & Hx & Hd)%H4. symmetry in Hs. destruct (fpu_same_thread _ _ _ _ Hs Hx) as (y & Hy & Hf).
    exists y. split; [done|]. by rewrite <-Hf.
Qed.

Lemma quiet_then {A B} (m : M sched_state A) (k : A → M sched_state B) (Q : B → sched_state → Prop) s :
  quiet m → (∀ a s1, m s = Done (a, s1) → fpu_same s s1 → ∀ b s', k a s1 = Done (b, s') → Q b s') →
  ∀ b s', (m ≫= k) s = Done (b, s') → Q b s'.
Proof.
  intros Hm Hk b s'. unfold mbind, M_bind. destruct (m s) as [[a s1]| |] eqn:Hs; [|done..]. apply (Hk a s1); [done|by eapply Hm].
Qed.

(** The registers of the thread that leaves are in its region afterwards. *)
Lemma fpu_saved_ok s p x n :
  fpu_ok s → current_thread (cpu s) = p → threads s !! p = Some x →
  let s1 := set_cpu (set_current_thread n (cpu s)) (set_cr0 (Z.lor (cr0 s) CR0_TS) (set_threads (alter (fpu_saved (fpu_regs s)) p (threads s)) s)) in
  fpu_ok s1 ∧ ∀ t, fpu_of s1 t = fpu_of s t.
Proof.
  intros Hok Hp Hx s1. pose proof (fo_regs _ Hok) as Hl.
  assert (∀ t y, threads s1 !! t = Some y → dirty (fpu y) = false ∧ length (region (fpu y)) = 512%nat ∧
    ∃ z, threads s !! t = Some z ∧ fpu_view (fpu_regs s) (fpu y) = fpu_view (fpu_regs s) (fpu z)) as Hth.
  { intros t y. simpl. destruct (decide (p = t)) as [<-|Hne].
    - rewrite lookup_alter_eq, Hx. intros [= <-]. unfold fpu_saved, fpu_view. pose proof (fo_region _ Hok _ _ Hx) as Hrg.
      destruct (dirty (fpu x)) eqn:Hd; simpl.
      + destruct (fo_dirty _ Hok _ _ Hx Hd) as (_ & -> & _). rewrite length_app, length_drop, Hl, Hrg. split_and!; [done..|].
        exists x. rewrite Hd. by rewrite take_app_length'.
      + split_and!; [done..|]. exists x. by rewrite Hd.
    - rewrite lookup_alter_ne by done. intros Hy. split_and!; [|by eapply fo_region|by exists y].
      destruct (dirty (fpu y)) eqn:Hd; [|done]. destruct (fo_dirty _ Hok _ _ Hy Hd) as (? & _). congruence. }
  split.
  - split; [done| | |].
    + intros t y Hy. by apply (Hth t y).
    + intros t y Hy Hd. destruct (Hth t y Hy) as (? & _). congruence.
    + unfold cr0_ts. simpl. change (Z.testbit (Z.lor (cr0 s) CR0_TS) 3 = false → ∃ y, alter (fpu_saved (fpu_regs s)) p (threads s) !! n = Some y ∧ dirty (fpu y) = true).
      by rewrite Z.lor_spec, orb_true_r.
  - intros t. unfold fpu_of at 1. destruct (threads s1 !! t) as [y|] eqn:Hy; simpl.
    + destruct (Hth t y Hy) as (_ & _ & z & Hz & Hv). unfold fpu_of. rewrite Hz. simpl. by rewrite Hv.
    + unfold fpu_of. simpl in Hy. destruct (decide (p = t)) as [<-|Hne].
      * by rewrite lookup_alter_eq, Hx in Hy.
      * rewrite lookup_alter_ne in Hy by done. by rewrite Hy.
Qed.

Lemma do_switch_fpu s p n s' :
  fpu_ok s → current_thread (cpu s) = p → do_switch p n s = Done (tt, s') →
  fpu_ok s' ∧ current_thread (cpu s') = n ∧ ∀ t, fpu_of s' t = fpu_of s t.
Proof.
  intros Hok Hp Hrun. destruct (threads s !! p) as [x|] eqn:Hx.
  2:{ unfold do_switch, fpu_save, th_load, mbind, M_bind in Hrun. by rewrite Hx in Hrun. }
  destruct (fpu_saved_ok s p x n Hok Hp Hx) as [Hok1 Hof]. set (s1 := set_cpu _ _) in *.
  assert (∃ m, quiet m ∧ m s1 = Done (tt, s')) as (m & Hm & Hrun1).
  { exists (r ← current_rq; rq_store r (set_current n) ;; th_store n (set_state THREAD_RUNNING) ;; now ← gets tsc;
      th_store n (set_last_run_tsc now) ;; switch_address_space n ;; switch_tss n ;; x ← th_load n;
      cpu_store (set_sysret_kernel_rsp (u64 (kstack_base x + kstack_size x)))).
    split; [unfold current_rq, switch_address_space, switch_tss; quiet_prog|].
    revert Hrun. unfold do_switch. unfold mbind at 1, M_bind at 1.
    pose proof (wp_fpu_save s p x (λ _ s0, s0 = set_threads (alter (fpu_saved (fpu_regs s)) p (threads s)) s) Hx eq_refl) as Hsave.
    unfold wp in Hsave. destruct (fpu_save p s) as [[[] s0]| |]; [|done..]. subst s0. done. }
  apply Hm in Hrun1. split_and!.
  - by eapply fpu_same_ok.
  - by rewrite (fs_cur _ _ Hrun1).
  - intros t. by rewrite (fpu_same_of _ _ _ Hrun1).
Qed.

(** [schedule], wherever it returns: every thread sees the registers it saw. *)
Lemma schedule_fpu s n s' :
  fpu_ok s → zombie_to_reap (cpu s) = 0 → schedule tsc_freq s = Done (n, s') →
  fpu_ok s' ∧ current_thread (cpu s') = n ∧ ∀ t, fpu_of s' t = fpu_of s t.
Proof.
  intros Hok Hz. unfold schedule. unfold mbind at 1, M_bind at 1.
  assert (reap_pending_zombie s = Done (tt, s)) as ->.
  { unfold reap_pending_zombie, gets, mbind, M_bind, when. by rewrite Hz. }
  set (Q := λ n s', fpu_ok s' ∧ current_thread (cpu s') = n ∧ ∀ t, fpu_of s' t = fpu_of s t). change (?P → _) with (P → Q n s').
  revert n s'. apply (quiet_then _ _ Q); [unfold current_rq; quiet_prog|]. intros rq s1 _ H1.
  apply (quiet_then _ _ Q); [quiet_prog|]. intros p s2 [= Hp <-] _.
  assert (∀ n s3 k s', fpu_same s1 s3 → (if n =? p then modify (set_flags (flags s1)) ;; mret n else do_switch p n ;; mret n) s3 = Done (k, s') → Q k s') as Hend.
  { intros n s3 k s' H3 Hr. assert (fpu_same s s3) as H by (by etrans). unfold mbind, M_bind in Hr. destruct (Z.eqb_spec n p) as [->|Hne].
    - injection Hr as <- <-.
      assert (fpu_same s3 (set_flags (flags s1) s3)) as Hm by done. assert (fpu_same s (set_flags (flags s1) s3)) as H' by (by etrans).
      split_and!; [by eapply fpu_same_ok| |intros t; by apply fpu_same_of]. simpl. rewrite (fs_cur _ _ H), <-Hp. by rewrite (fs_cur _ _ H1).
    - destruct (do_switch p n s3) as [[[] s4]| |] eqn:Hd; [|done..]. injection Hr as <- <-.
      destruct (do_switch_fpu s3 p n s4) as (Hok4 & Hc4 & Hof); [by eapply fpu_same_ok| |done|].
      + by rewrite (fs_cur _ _ H3).
      + split_and!; [done..|]. intros t. rewrite Hof. by apply fpu_same_of. }
  assert (∀ A (m : M sched_state A) k sa, fpu_same s1 sa → quiet m → (∀ a sb, fpu_same s1 sb → ∀ n s', k a sb = Done (n, s') → Q n s') →
    ∀ n s', (m ≫= k) sa = Done (n, s') → Q n s') as Hnext.
  { intros A m k sa Ha Hm Hk. apply quiet_then; [done|]. intros a sb _ Hb. apply Hk. by etrans. }
  apply (quiet_then _ _ Q); [quiet_prog|]. intros fl s3 [= <- <-] _.
  apply (Hnext _ _ _ s1); [done|quiet_prog|]. intros [] s4 H4.
  do 3 (apply Hnext; [done|quiet_prog|]; clear dependent s4; intros ? s4 H4).
  do 6 (apply Hnext; [done|quiet_prog|]; clear dependent s4; intros ? s4 H4).
  intros n s' Hr. eapply Hend; [exact H4|exact Hr].
Qed.
End operations.

(** * Setting up *)

Section init.
(** [nm_isr] is the address of [nm_handler]. *)
Context (nm_isr : Z).

Definition CR0_EM : Z := Z.shiftl 1 2.
Definition sched_fpu_init : M (sched_state * irq_state) unit :=
  zoom fst (λ x s, (x, s.2)) (v ← read_cr0; write_cr0 (Z.land (Z.lor v CR0_TS) (not64 CR0_EM))) ;;
  m ← gets (λ s, cpu_id (cpu s.1));
  zoom snd (λ i s, (s.1, i)) (register_interrupt m 7 nm_isr 0).

(** Instructions of the FPU trap, to [nm_handler], and are not emulated; the
    threads, none of which has used the FPU, see registers that are zero. *)
Theorem sched_fpu_init_spec s i :
  length (isrs i) = 256%nat → length (fpu_regs s) = FX_BYTES →
  (∀ t x, threads s !! t = Some x → length (region (fpu x)) = 512%nat ∧ dirty (fpu x) = false ∧ used (fpu x) = false) →
  wp sched_fpu_init (λ _ '(s', i'), fpu_ok s' ∧ cr0_ts s' = true ∧ Z.testbit (cr0 s') 2 = false ∧
    isrs i' !! 7%nat = Some (mkIsr nm_isr 0 (Z.lor (Z.shiftl (cpu_id (cpu s)) 32) 7)) ∧
    ∀ t, is_Some (threads s !! t) → fpu_of s' t = Some (replicate FX_BYTES 0)) (s, i).
Proof.
  intros Hi Hr Hth. unfold sched_fpu_init, read_cr0, write_cr0. apply wp_bind, wp_zoom. wp_pures.
  destruct (lookup_lt_is_Some_2 (isrs i) 7) as [y Hy]; [lia|].
  unfold register_interrupt, arr_write, wp. change (Z.to_nat 7) with 7%nat. cbn [fst snd]. rewrite Hy.
  set (v := Z.land _ _). assert (Z.testbit v 3 = true ∧ Z.testbit v 2 = false) as [H3 H2].
  { unfold v. rewrite !Z.land_spec, !Z.lor_spec, orb_true_r. split; [done|apply andb_false_r]. }
  split_and!; [|exact H3|exact H2|simpl; apply list_lookup_insert_eq; lia|].
  - split; [done| | |].
    + intros t x Hx. apply (Hth t x Hx).
    + intros t x Hx Hd. destruct (Hth t x Hx) as (_ & ? & _). congruence.
    + intros Hts. exfalso. change (Z.testbit v 3 = false) in Hts. congruence.
  - intros t [x Hx]. unfold fpu_of. simpl. rewrite Hx. simpl. unfold fpu_view. by destruct (Hth t x Hx) as (_ & -> & ->).
Qed.
End init.

(** * What the threads see *)

Section isolation.
Context (tsc_freq : Z).

(** A run: instructions of the thread that has the processor, and switches. The
    instructions are listed with the thread that executes them. *)
Inductive fpu_run : sched_state → list (Z * (list Z → list Z)) → sched_state → Prop :=
| run_end s : fpu_run s [] s
| run_instr s f s1 l s' :
    (∀ r, length (f r) = length r) → fpu_instr f s = Done (tt, s1) → fpu_run s1 l s' →
    fpu_run s ((current_thread (cpu s), f) :: l) s'
| run_schedule s n s1 l s' :
    zombie_to_reap (cpu s) = 0 → schedule tsc_freq s = Done (n, s1) → fpu_run s1 l s' → fpu_run s l s'.

(** Registers that only [t] uses. *)
Definition replay (t : Z) (l : list (Z * (list Z → list Z))) (r : list Z) : list Z :=
  foldl (λ r e, if e.1 =? t then e.2 r else r) r l.

(** C17: every thread has the registers of the FPU to itself. However the
    instructions of the threads are interleaved with calls of the scheduler,
    thread [t] sees what it would see if no other thread used the FPU. *)
Theorem fpu_isolation s l s' :
  fpu_ok s → fpu_run s l s' → fpu_ok s' ∧ ∀ t, fpu_of s' t = replay t l <$> fpu_of s t.
Proof.
  intros Hok Hrun. induction Hrun as [s|s f s1 l s' Hf Hi Hrun IH|s n s1 l s' Hz Hi Hrun IH].
  - split; [done|]. intros t. by destruct (fpu_of s t).
  - destruct (threads s !! current_thread (cpu s)) as [x|] eqn:Hx.
    + destruct (wp_run _ _ _ _ _ Hi (wp_fpu_instr _ _ _ Hok Hf Hx)) as (Hok1 & _ & Hof). destruct (IH Hok1) as [Hok' Hof'].
      split; [done|]. intros t. rewrite Hof', Hof. unfold replay. simpl. case_decide as Ht.
      * subst t. rewrite Z.eqb_refl. by destruct (fpu_of s _).
      * by rewrite (proj2 (Z.eqb_neq _ _)) by congruence.
    + exfalso. destruct (cr0_ts s) eqn:Hts; [|destruct (fo_clear _ Hok Hts) as (x & ? & _); congruence].
      unfold fpu_instr, nm_handler, when, gets, read_cr0, write_cr0, modify, th_load, mbind, M_bind in Hi. rewrite Hts in Hi. simpl in Hi.
      by rewrite Hx in Hi.
  - destruct (schedule_fpu _ _ _ _ Hok Hz Hi) as (Hok1 & _ & Hof). destruct (IH Hok1) as [Hok' Hof'].
    split; [done|]. intros t. by rewrite Hof', Hof.
Qed.
End isolation.

(** The steps of such a run return: an instruction where the thread is an object,
    and [schedule] where the queues are consistent. *)
Theorem fpu_steps_return tsc_freq s L p x f :
  fpu_ok s → (∀ r, length (f r) = length r) → sched_inv s L → zombie_to_reap (cpu s) = 0 → current_thread (cpu s) = p →
  threads s !! p = Some x → state x = THREAD_RUNNING → p ≠ 0 → (∀ k, p ∉ L k) → 0 ≤ priority_level x < 8 →
  last_cpu x = cpu_id (cpu s) →
  wp (fpu_instr f) (λ _ s', fpu_ok s' ∧ fpu_of s' p = f <$> fpu_of s p) s ∧
  wp (schedule tsc_freq) (λ n s', fpu_ok s' ∧ current_thread (cpu s') = n ∧ ∀ t, fpu_of s' t = fpu_of s t) s.
Proof.
  intros Hok Hf Hinv Hz Hp Hx H1 H2 H3 H4 H5. split.
  - rewrite <-Hp in Hx. eapply wp_mono; [by eapply wp_fpu_instr|]. intros [] s' (? & _ & Hof). split; [done|].
    rewrite Hof, Hp. by rewrite decide_True.
  - destruct (proj1 (wp_done _ _ _) (wp_schedule_running tsc_freq s L p x Hinv Hz Hp Hx H1 H2 H3 H4 H5)) as (n & s' & Hrun & _).
    unfold wp. rewrite Hrun. by eapply schedule_fpu.
Qed.

(** ** Two threads that use the FPU *)

Definition fpu_demo : sched_state :=
  run_s (sched_enqueue 300) (set_threads (alter (set_priority_level 2) 300 (threads demo_sched)) (set_cr0 CR0_TS demo_sched)).
Definition put_first (v : Z) (r : list Z) : list Z := <[0%nat := v]> r.
Definition fpu_demo_end : sched_state :=
  run_s (fpu_instr (put_first 7) ;; schedule 1 ;; fpu_instr (put_first 9) ;; schedule 1) fpu_demo.

Lemma fpu_demo_ok : fpu_ok fpu_demo.
Proof.
  assert (map_Forall (λ _ x, length (region (fpu x)) = 512%nat ∧ dirty (fpu x) = false) (threads fpu_demo)) as H.
  { apply (bool_decide_unpack _). vm_compute. exact I. }
  split.
  - done.
  - intros t x Hx. apply (H t x Hx).
  - intros t x Hx Hd. destruct (H t x Hx) as [_ ?]. congruence.
  - done.
Qed.
Lemma fpu_isolation_witness :
  take 1 <$> fpu_of fpu_demo_end 200 = Some [7] ∧ take 1 <$> fpu_of fpu_demo_end 300 = Some [9].
Proof.
  assert (fpu_run 1 fpu_demo [(200, put_first 7); (300, put_first 9)] fpu_demo_end) as Hrun.
  { change 200 with (current_thread (cpu fpu_demo)).
    eapply run_instr; [intros; apply length_insert|vm_compute; reflexivity|].
    eapply run_schedule; [done|vm_compute; reflexivity|].
    lazymatch goal with |- fpu_run _ ?s _ _ => change 300 with (current_thread (cpu s)) end.
    eapply run_instr; [intros; apply length_insert|vm_compute; reflexivity|].
    eapply run_schedule; [done|vm_compute; reflexivity|].
    lazymatch goal with |- fpu_run _ ?s _ _ => replace fpu_demo_end with s; [apply run_end|vm_compute; reflexivity] end. }
  destruct (fpu_isolation 1 _ _ _ fpu_demo_ok Hrun) as [_ H]. rewrite !H. split; vm_compute; reflexivity.
Defined.

(** A fork copies the state of the FPU as [thread_fork_from_syscall] does: here
    from thread 200, which has used it, to thread 300. The copy says that the
    registers of the child are not saved, and at the first switch away from the
    child, which has not used the FPU, they are overwritten with what is in the
    registers, which is what the parent put there since. *)
Definition fork_fpu (parent child : Z) : M sched_state unit :=
  x ← th_load parent; th_store child (set_fpu (fpu x)).
Definition forked : sched_state := run_s (fpu_instr (put_first 7) ;; fork_fpu 200 300) fpu_demo.
Example fork_breaks_fpu :
  take 1 <$> (region ∘ fpu <$> threads forked !! 300) = Some [0] ∧ ¬ fpu_ok forked ∧
  take 1 <$> (region ∘ fpu <$> threads (run_s (fpu_instr (put_first 9) ;; schedule 1 ;; schedule 1) forked) !! 300) = Some [9].
Proof.
  split; [vm_compute; reflexivity|]. split; [|vm_compute; reflexivity]. intros Hok.
  assert (is_Some (threads forked !! 300)) as [x Hx] by (vm_compute; eauto).
  assert (dirty ∘ fpu <$> threads forked !! 300 = Some true) as Hd by (vm_compute; reflexivity). rewrite Hx in Hd. apply (inj Some) in Hd.
  destruct (fo_dirty _ Hok _ _ Hx Hd) as [H _]. by vm_compute in H.
Qed.
