(* ===== verification/SList.v ===== *)
(** Singly linked lists in memory, and the loop that takes an element out of one
    with a pointer to the pointer to change; the lists of processes, children and
    threads of [src/kernel/src/sched/task.c] are such lists. *)
From S2P Require Import Prelude.

(** * The code *)

(** Where a list begins, and the link of an element. *)
Record slist (S : Type) := mkSlist {
  head_load : M S Z;
  head_store : Z → M S unit;
  next_load : Z → M S Z;
  next_store : Z → Z → M S unit;
}.
Arguments mkSlist {S}. Arguments head_load {S}. Arguments head_store {S}.
Arguments next_load {S}. Arguments next_store {S}.

Section unlink.
Context {S : Type} (o : slist S).
Implicit Types (s : S) (pp : option Z).

(** A pointer to the head, or to the link of an element. *)
Definition pp_load pp : M S Z := match pp with None => head_load o | Some a => next_load o a end.
Definition pp_store pp (v : Z) : M S unit := match pp with None => head_store o v | Some a => next_store o a v end.
Definition unlink_round (x : Z) pp : M S (option Z + unit) :=
  a ← pp_load pp;
  if a =? 0 then mret (inr tt) else
  if a =? x then n ← next_load o x; pp_store pp n ;; mret (inr tt) else
  mret (inl (Some a)).
Definition unlink (fuel : nat) (x : Z) : M S unit := loop fuel (unlink_round x) None.
End unlink.

(** * Chains *)

(** From [h], following the links [nx], the elements are those of the list. *)
Fixpoint chain (nx : Z → option Z) (h : Z) (l : list Z) : Prop :=
  match l with
  | [] => h = 0
  | a :: l' => h = a ∧ a ≠ 0 ∧ ∃ n, nx a = Some n ∧ chain nx n l'
  end.

Section chain.
Implicit Types (nx : Z → option Z) (h : Z) (l : list Z).

Lemma chain_ext nx nx' h l : (∀ a, a ∈ l → nx' a = nx a) → chain nx h l → chain nx' h l.
Proof.
  revert h. induction l as [|a l IH]; intros h Hx; [done|]. intros (-> & Ha & n & Hn & Hc). split_and!; [done|done|].
  exists n. rewrite Hx by set_solver. split; [done|]. apply IH; [|done]. intros b Hb. apply Hx. set_solver.
Qed.
Lemma chain_fun nx h l l' : chain nx h l → chain nx h l' → l = l'.
Proof.
  revert h l'. induction l as [|a l IH]; intros h [|b l'] H H'; [done| | |].
  - simpl in H. destruct H' as (-> & ? & _). done.
  - simpl in H'. destruct H as (-> & ? & _). done.
  - destruct H as (-> & _ & n & Hn & H), H' as (<- & _ & n' & Hn' & H'). simplify_eq. f_equal. by eapply IH.
Qed.
Lemma chain_suffix nx h l1 a l2 : chain nx h (l1 ++ a :: l2) → chain nx a (a :: l2).
Proof.
  revert h. induction l1 as [|b l1 IH]; intros h H; [by destruct H as (-> & H)|]. destruct H as (_ & _ & n & _ & H). by eapply IH.
Qed.
Lemma slist_nodup nx h l : chain nx h l → NoDup l.
Proof.
  revert h. induction l as [|a l IH]; intros h H; constructor.
  - intros (l1 & l2 & Hl)%list_elem_of_split. assert (a :: l = a :: l2) as [=->].
    { apply (chain_fun nx a); [exact (chain_suffix nx h [] a l H)|]. apply (chain_suffix nx h (a :: l1)). by rewrite Hl in H. }
    apply (f_equal length) in Hl. rewrite length_app in Hl. simpl in Hl. lia.
  - destruct H as (_ & _ & n & _ & H). by eapply IH.
Qed.
Lemma chain_is_Some nx h l a : chain nx h l → a ∈ l → is_Some (nx a).
Proof.
  intros H (l1 & l2 & ->)%list_elem_of_split. apply chain_suffix in H as (_ & _ & n & Hn & _). by eexists.
Qed.
Lemma chain_ne0 nx h l a : chain nx h l → a ∈ l → a ≠ 0.
Proof. intros H (l1 & l2 & ->)%list_elem_of_split. by apply chain_suffix in H as (_ & ? & _). Qed.
Lemma chain_head nx h l : chain nx h l → h = default 0 (head l).
Proof. destruct l; [done|]. by intros (-> & _). Qed.
(** The elements are objects of a finite memory. *)
Lemma chain_size {X} (m : gmap Z X) (f : X → Z) h l : chain (λ a, f <$> m !! a) h l → (length l ≤ size m)%nat.
Proof.
  intros H. rewrite <-size_dom. rewrite <-(size_list_to_set (C:=gset Z) l) by (by eapply slist_nodup). apply subseteq_size. intros a Ha%elem_of_list_to_set.
  apply elem_of_dom. destruct (chain_is_Some _ _ _ _ H Ha) as [n Hn]. simpl in Hn. destruct (m !! a); [by eexists|done].
Qed.

(** Taking [x] out. *)
Lemma chain_remove nx nx' h l1 x l2 n :
  chain nx h (l1 ++ x :: l2) → nx x = Some n →
  (∀ a, a ∈ l1 ++ l2 → last l1 = Some a → nx' a = Some n) → (∀ a, a ∈ l1 ++ l2 → last l1 ≠ Some a → nx' a = nx a) →
  chain nx' (match l1 with [] => n | _ => h end) (l1 ++ l2).
Proof.
  intros H Hx. pose proof (slist_nodup _ _ _ H) as Hnd. revert h H Hnd. induction l1 as [|b l1 IH]; intros h H Hnd Hl Ho.
  - simpl in *. destruct H as (_ & _ & n' & Hn' & H). simplify_eq. eapply chain_ext; [|done]. intros a Ha. by apply Ho.
  - destruct H as (-> & Hb & n' & Hn' & H). simpl in Hnd. apply NoDup_cons in Hnd as [Hnb Hnd]. split_and!; [done|done|].
    destruct l1 as [|c l1].
    + exists n. split; [apply Hl; [set_solver|done]|]. simpl in *. destruct H as (_ & _ & n'' & Hn'' & H). simplify_eq.
      eapply chain_ext; [|done]. intros a Ha. apply Ho; [set_solver|]. intros [=->]. set_solver.
    + exists n'. split.
      { rewrite Ho; [done|apply elem_of_cons; by left|]. intros Hlast. change (last (c :: l1) = Some b) in Hlast. apply last_Some_elem_of in Hlast. apply Hnb, elem_of_app. by left. }
      assert (c = n') as -> by (by destruct H as (-> & _)). apply (IH n' H Hnd); intros a Ha Hlast; [apply Hl|apply Ho]; try exact Hlast; apply elem_of_cons; by right.
Qed.
Lemma chain_cons nx h l a : chain nx h l → a ≠ 0 → nx a = Some h → chain nx a (a :: l).
Proof. intros H Ha Hn. split_and!; [done|done|]. by exists h. Qed.

(** The next element of the list. *)
Lemma chain_step nx h l1 a l2 n : chain nx h (l1 ++ a :: l2) → nx a = Some n → chain nx n l2.
Proof. intros H Hn. apply chain_suffix in H as (_ & _ & n' & Hn' & H). by simplify_eq. Qed.
End chain.

(** Where an element is. *)
Lemma split_at_unique {A} (x : A) l1 l2 l1' l2' : x ∉ l1 → x ∉ l1' → l1 ++ x :: l2 = l1' ++ x :: l2' → l1 = l1' ∧ l2 = l2'.
Proof.
  revert l1'. induction l1 as [|a l1 IH]; intros [|b l1'] H1 H2; simpl.
  - by intros [= ->].
  - intros [= -> _]. set_solver.
  - intros [= -> _]. set_solver.
  - intros [= -> Heq]. destruct (IH l1') as [-> ->]; [set_solver|set_solver|done|done].
Qed.
Lemma slist_split_unique nx h l1 x l2 l1' l2' : chain nx h (l1 ++ x :: l2) → x ∉ l1' → l1 ++ x :: l2 = l1' ++ x :: l2' → l1 = l1' ∧ l2 = l2'.
Proof.
  intros Hc Hx Heq. apply (split_at_unique x); [|done|done]. pose proof (slist_nodup _ _ _ Hc) as (_ & Hd & _)%NoDup_app.
  intros Hin. apply (Hd x Hin). by left.
Qed.

(** * The loop *)

Section wp.
Context {S : Type} (o : slist S) (nx : Z → option Z).
Implicit Types s : S.

(** The list that begins at [h] can be read in state [s]. *)
Definition readable s (h : Z) : Prop := head_load o s = Done (h, s) ∧ ∀ a n, nx a = Some n → next_load o a s = Done (n, s).

Lemma unlink_spec s h l x fuel (Q : unit → S → Prop) :
  readable s h → chain nx h l → (length l < fuel)%nat →
  (x ∉ l → Q tt s) →
  (∀ l1 l2 n, l = l1 ++ x :: l2 → x ∉ l1 → nx x = Some n → wp (pp_store o (last l1) n) Q s) → wp (unlink o fuel x) Q s.
Proof.
  intros [Hh Hnx] Hc Hf Hno Hyes.
  apply (wp_loop (λ k pp s', s' = s ∧ ∃ l1 l2, l = l1 ++ l2 ∧ x ∉ l1 ∧ pp = last l1 ∧ k = length l2) _ _ (length l)); [done| |].
  { split; [done|]. exists [], l. split_and!; [done|set_solver|done|done]. }
  intros k pp s' (-> & l1 & l2 & Hl & Hx & -> & ->). unfold unlink_round. apply wp_bind.
  assert (wp (pp_load o (last l1)) (λ a s', s' = s ∧ chain nx a l2 ) s) as Hpp.
  { destruct (last l1) as [p|] eqn:Hlast; unfold wp; simpl.
    - apply last_Some in Hlast as [l1' ->]. rewrite <-app_assoc in Hl. simpl in Hl.
      destruct (chain_is_Some nx h l p Hc) as [n Hn]; [set_solver|]. rewrite (Hnx _ _ Hn). split; [done|].
      rewrite Hl in Hc. by eapply chain_step.
    - apply last_None in Hlast as ->. rewrite Hh. split; [done|]. by rewrite Hl in Hc. }
  eapply wp_mono; [exact Hpp|]. intros a s' [-> Ha]. destruct l2 as [|b l2].
  - simpl in Ha. subst a. simpl. apply wp_ret, Hno. rewrite app_nil_r in Hl. by subst.
  - destruct Ha as (-> & Hb & n & Hn & Ha). rewrite (proj2 (Z.eqb_neq _ _) Hb). destruct (Z.eqb_spec b x) as [->|Hne].
    + apply wp_bind. unfold wp at 1. rewrite (Hnx _ _ Hn). apply wp_bind. eapply wp_mono; [by apply (Hyes l1 l2 n)|].
      intros [] s'' HQ. by apply wp_ret.
    + apply wp_ret. exists (length l2). split; [simpl; lia|]. split; [done|]. exists (l1 ++ [b]), l2.
      split_and!; [by rewrite <-app_assoc|set_solver|by rewrite last_snoc|done].
Qed.
End wp.
