(* ===== verification/Task.v ===== *)
(** Tasks: [src/kernel/src/sched/task.c], processes and threads.

    Processes, threads, strings and arrays of pointers are objects named by their
    address; freeing one takes it out of memory, so that a use after it faults.
    Kernel stacks are 64-bit words. The kernel heap answers each allocation from
    the list [allocs]: an address the model has no object at, or 0 when it fails.
    The other parts of the kernel that this one calls are the class [TaskDeps]
    over a state of their own. *)
From S2P Require Import Prelude Errno Sync SList.

Definition TASK_NAME_MAX : Z := 32.
Definition MAX_AUXV : Z := 32.
Definition PROC_FLAG_USER : Z := 1.
Definition PROC_FLAG_KERNEL : Z := 2.
Definition THREAD_CREATE_USER : Z := 1.
Definition THREAD_CREATE_KERNEL : Z := 2.
Definition PAGE_SIZE : Z := 0x1000.
Definition KSTACK_SIZE : Z := 64 * 0x1000.
Definition VMM_STACK_SIZE : Z := 8 * 1024 * 1024.
Definition VMM_GUARD_SIZE : Z := 0x1000.
Definition USER_STACK_SIZE : Z := VMM_STACK_SIZE.

Inductive thread_state_t := THREAD_NEW | THREAD_READY | THREAD_RUNNING | THREAD_BLOCKED | THREAD_SLEEPING | THREAD_ZOMBIE | THREAD_DEAD.
Inductive proc_state_t := PROC_RUNNING | PROC_ZOMBIE | PROC_DEAD.
#[global] Instance thread_state_eq_dec : EqDecision thread_state_t.
Proof. solve_decision. Defined.
#[global] Instance proc_state_eq_dec : EqDecision proc_state_t.
Proof. solve_decision. Defined.

(** [proc_t]; a queue of waiting threads is named by the address of its process. *)
Record proc_t := mkProc {
  pid : Z;
  name : list Z;
  state : proc_state_t;
  flags : Z;
  vmm : Z;
  parent : Z;
  children : Z;
  sibling_next : Z;
  threads : Z;
  thread_count : Z;
  live_thread_count : Z;
  fdtable : Z;
  argv : Z;
  argc : Z;
  envp : Z;
  envc : Z;
  auxv : list (Z * Z);
  auxv_count : Z;
  exit_code : Z;
  uid : Z;
  gid : Z;
  refcount : Z;
  lock : spinlock_t;
  global_next : Z;
}.
Definition set_pid v x := mkProc v (name x) (state x) (flags x) (vmm x) (parent x) (children x) (sibling_next x) (threads x) (thread_count x) (live_thread_count x) (fdtable x) (argv x) (argc x) (envp x) (envc x) (auxv x) (auxv_count x) (exit_code x) (uid x) (gid x) (refcount x) (lock x) (global_next x).
Definition set_name v x := mkProc (pid x) v (state x) (flags x) (vmm x) (parent x) (children x) (sibling_next x) (threads x) (thread_count x) (live_thread_count x) (fdtable x) (argv x) (argc x) (envp x) (envc x) (auxv x) (auxv_count x) (exit_code x) (uid x) (gid x) (refcount x) (lock x) (global_next x).
Definition set_state v x := mkProc (pid x) (name x) v (flags x) (vmm x) (parent x) (children x) (sibling_next x) (threads x) (thread_count x) (live_thread_count x) (fdtable x) (argv x) (argc x) (envp x) (envc x) (auxv x) (auxv_count x) (exit_code x) (uid x) (gid x) (refcount x) (lock x) (global_next x).
Definition set_flags v x := mkProc (pid x) (name x) (state x) v (vmm x) (parent x) (children x) (sibling_next x) (threads x) (thread_count x) (live_thread_count x) (fdtable x) (argv x) (argc x) (envp x) (envc x) (auxv x) (auxv_count x) (exit_code x) (uid x) (gid x) (refcount x) (lock x) (global_next x).
Definition set_vmm v x := mkProc (pid x) (name x) (state x) (flags x) v (parent x) (children x) (sibling_next x) (threads x) (thread_count x) (live_thread_count x) (fdtable x) (argv x) (argc x) (envp x) (envc x) (auxv x) (auxv_count x) (exit_code x) (uid x) (gid x) (refcount x) (lock x) (global_next x).
Definition set_parent v x := mkProc (pid x) (name x) (state x) (flags x) (vmm x) v (children x) (sibling_next x) (threads x) (thread_count x) (live_thread_count x) (fdtable x) (argv x) (argc x) (envp x) (envc x) (auxv x) (auxv_count x) (exit_code x) (uid x) (gid x) (refcount x) (lock x) (global_next x).
Definition set_children v x := mkProc (pid x) (name x) (state x) (flags x) (vmm x) (parent x) v (sibling_next x) (threads x) (thread_count x) (live_thread_count x) (fdtable x) (argv x) (argc x) (envp x) (envc x) (auxv x) (auxv_count x) (exit_code x) (uid x) (gid x) (refcount x) (lock x) (global_next x).
Definition set_sibling_next v x := mkProc (pid x) (name x) (state x) (flags x) (vmm x) (parent x) (children x) v (threads x) (thread_count x) (live_thread_count x) (fdtable x) (argv x) (argc x) (envp x) (envc x) (auxv x) (auxv_count x) (exit_code x) (uid x) (gid x) (refcount x) (lock x) (global_next x).
Definition set_threads v x := mkProc (pid x) (name x) (state x) (flags x) (vmm x) (parent x) (children x) (sibling_next x) v (thread_count x) (live_thread_count x) (fdtable x) (argv x) (argc x) (envp x) (envc x) (auxv x) (auxv_count x) (exit_code x) (uid x) (gid x) (refcount x) (lock x) (global_next x).
Definition set_thread_count v x := mkProc (pid x) (name x) (state x) (flags x) (vmm x) (parent x) (children x) (sibling_next x) (threads x) v (live_thread_count x) (fdtable x) (argv x) (argc x) (envp x) (envc x) (auxv x) (auxv_count x) (exit_code x) (uid x) (gid x) (refcount x) (lock x) (global_next x).
Definition set_live_thread_count v x := mkProc (pid x) (name x) (state x) (flags x) (vmm x) (parent x) (children x) (sibling_next x) (threads x) (thread_count x) v (fdtable x) (argv x) (argc x) (envp x) (envc x) (auxv x) (auxv_count x) (exit_code x) (uid x) (gid x) (refcount x) (lock x) (global_next x).
Definition set_fdtable v x := mkProc (pid x) (name x) (state x) (flags x) (vmm x) (parent x) (children x) (sibling_next x) (threads x) (thread_count x) (live_thread_count x) v (argv x) (argc x) (envp x) (envc x) (auxv x) (auxv_count x) (exit_code x) (uid x) (gid x) (refcount x) (lock x) (global_next x).
Definition set_argv v x := mkProc (pid x) (name x) (state x) (flags x) (vmm x) (parent x) (children x) (sibling_next x) (threads x) (thread_count x) (live_thread_count x) (fdtable x) v (argc x) (envp x) (envc x) (auxv x) (auxv_count x) (exit_code x) (uid x) (gid x) (refcount x) (lock x) (global_next x).
Definition set_argc v x := mkProc (pid x) (name x) (state x) (flags x) (vmm x) (parent x) (children x) (sibling_next x) (threads x) (thread_count x) (live_thread_count x) (fdtable x) (argv x) v (envp x) (envc x) (auxv x) (auxv_count x) (exit_code x) (uid x) (gid x) (refcount x) (lock x) (global_next x).
Definition set_envp v x := mkProc (pid x) (name x) (state x) (flags x) (vmm x) (parent x) (children x) (sibling_next x) (threads x) (thread_count x) (live_thread_count x) (fdtable x) (argv x) (argc x) v (envc x) (auxv x) (auxv_count x) (exit_code x) (uid x) (gid x) (refcount x) (lock x) (global_next x).
Definition set_envc v x := mkProc (pid x) (name x) (state x) (flags x) (vmm x) (parent x) (children x) (sibling_next x) (threads x) (thread_count x) (live_thread_count x) (fdtable x) (argv x) (argc x) (envp x) v (auxv x) (auxv_count x) (exit_code x) (uid x) (gid x) (refcount x) (lock x) (global_next x).
Definition set_auxv v x := mkProc (pid x) (name x) (state x) (flags x) (vmm x) (parent x) (children x) (sibling_next x) (threads x) (thread_count x) (live_thread_count x) (fdtable x) (argv x) (argc x) (envp x) (envc x) v (auxv_count x) (exit_code x) (uid x) (gid x) (refcount x) (lock x) (global_next x).
Definition set_auxv_count v x := mkProc (pid x) (name x) (state x) (flags x) (vmm x) (parent x) (children x) (sibling_next x) (threads x) (thread_count x) (live_thread_count x) (fdtable x) (argv x) (argc x) (envp x) (envc x) (auxv x) v (exit_code x) (uid x) (gid x) (refcount x) (lock x) (global_next x).
Definition set_exit_code v x := mkProc (pid x) (name x) (state x) (flags x) (vmm x) (parent x) (children x) (sibling_next x) (threads x) (thread_count x) (live_thread_count x) (fdtable x) (argv x) (argc x) (envp x) (envc x) (auxv x) (auxv_count x) v (uid x) (gid x) (refcount x) (lock x) (global_next x).
Definition set_uid v x := mkProc (pid x) (name x) (state x) (flags x) (vmm x) (parent x) (children x) (sibling_next x) (threads x) (thread_count x) (live_thread_count x) (fdtable x) (argv x) (argc x) (envp x) (envc x) (auxv x) (auxv_count x) (exit_code x) v (gid x) (refcount x) (lock x) (global_next x).
Definition set_gid v x := mkProc (pid x) (name x) (state x) (flags x) (vmm x) (parent x) (children x) (sibling_next x) (threads x) (thread_count x) (live_thread_count x) (fdtable x) (argv x) (argc x) (envp x) (envc x) (auxv x) (auxv_count x) (exit_code x) (uid x) v (refcount x) (lock x) (global_next x).
Definition set_refcount v x := mkProc (pid x) (name x) (state x) (flags x) (vmm x) (parent x) (children x) (sibling_next x) (threads x) (thread_count x) (live_thread_count x) (fdtable x) (argv x) (argc x) (envp x) (envc x) (auxv x) (auxv_count x) (exit_code x) (uid x) (gid x) v (lock x) (global_next x).
Definition set_lock v x := mkProc (pid x) (name x) (state x) (flags x) (vmm x) (parent x) (children x) (sibling_next x) (threads x) (thread_count x) (live_thread_count x) (fdtable x) (argv x) (argc x) (envp x) (envc x) (auxv x) (auxv_count x) (exit_code x) (uid x) (gid x) (refcount x) v (global_next x).
Definition set_global_next v x := mkProc (pid x) (name x) (state x) (flags x) (vmm x) (parent x) (children x) (sibling_next x) (threads x) (thread_count x) (live_thread_count x) (fdtable x) (argv x) (argc x) (envp x) (envc x) (auxv x) (auxv_count x) (exit_code x) (uid x) (gid x) (refcount x) (lock x) v.
(** [thread_t], without the fields that only the scheduler uses. *)
Record thread_t := mkThread {
  tid : Z;
  proc : Z;
  t_state : thread_state_t;
  priority_level : Z;
  last_cpu : Z;
  pinned_cpu : Z;
  kstack_base : Z;
  kstack_size : Z;
  kernel_rsp : Z;
  fpu : list Z;
  t_exit_code : Z;
  proc_next : Z;
  t_lock : spinlock_t;
}.
Definition tset_tid v x := mkThread v (proc x) (t_state x) (priority_level x) (last_cpu x) (pinned_cpu x) (kstack_base x) (kstack_size x) (kernel_rsp x) (fpu x) (t_exit_code x) (proc_next x) (t_lock x).
Definition tset_proc v x := mkThread (tid x) v (t_state x) (priority_level x) (last_cpu x) (pinned_cpu x) (kstack_base x) (kstack_size x) (kernel_rsp x) (fpu x) (t_exit_code x) (proc_next x) (t_lock x).
Definition tset_t_state v x := mkThread (tid x) (proc x) v (priority_level x) (last_cpu x) (pinned_cpu x) (kstack_base x) (kstack_size x) (kernel_rsp x) (fpu x) (t_exit_code x) (proc_next x) (t_lock x).
Definition tset_priority_level v x := mkThread (tid x) (proc x) (t_state x) v (last_cpu x) (pinned_cpu x) (kstack_base x) (kstack_size x) (kernel_rsp x) (fpu x) (t_exit_code x) (proc_next x) (t_lock x).
Definition tset_last_cpu v x := mkThread (tid x) (proc x) (t_state x) (priority_level x) v (pinned_cpu x) (kstack_base x) (kstack_size x) (kernel_rsp x) (fpu x) (t_exit_code x) (proc_next x) (t_lock x).
Definition tset_pinned_cpu v x := mkThread (tid x) (proc x) (t_state x) (priority_level x) (last_cpu x) v (kstack_base x) (kstack_size x) (kernel_rsp x) (fpu x) (t_exit_code x) (proc_next x) (t_lock x).
Definition tset_kstack_base v x := mkThread (tid x) (proc x) (t_state x) (priority_level x) (last_cpu x) (pinned_cpu x) v (kstack_size x) (kernel_rsp x) (fpu x) (t_exit_code x) (proc_next x) (t_lock x).
Definition tset_kstack_size v x := mkThread (tid x) (proc x) (t_state x) (priority_level x) (last_cpu x) (pinned_cpu x) (kstack_base x) v (kernel_rsp x) (fpu x) (t_exit_code x) (proc_next x) (t_lock x).
Definition tset_kernel_rsp v x := mkThread (tid x) (proc x) (t_state x) (priority_level x) (last_cpu x) (pinned_cpu x) (kstack_base x) (kstack_size x) v (fpu x) (t_exit_code x) (proc_next x) (t_lock x).
Definition tset_fpu v x := mkThread (tid x) (proc x) (t_state x) (priority_level x) (last_cpu x) (pinned_cpu x) (kstack_base x) (kstack_size x) (kernel_rsp x) v (t_exit_code x) (proc_next x) (t_lock x).
Definition tset_t_exit_code v x := mkThread (tid x) (proc x) (t_state x) (priority_level x) (last_cpu x) (pinned_cpu x) (kstack_base x) (kstack_size x) (kernel_rsp x) (fpu x) v (proc_next x) (t_lock x).
Definition tset_proc_next v x := mkThread (tid x) (proc x) (t_state x) (priority_level x) (last_cpu x) (pinned_cpu x) (kstack_base x) (kstack_size x) (kernel_rsp x) (fpu x) (t_exit_code x) v (t_lock x).
Definition tset_t_lock v x := mkThread (tid x) (proc x) (t_state x) (priority_level x) (last_cpu x) (pinned_cpu x) (kstack_base x) (kstack_size x) (kernel_rsp x) (fpu x) (t_exit_code x) (proc_next x) v.

(** What the code calls: address spaces, descriptor tables, pages and the
    scheduler. *)
Class TaskDeps (E : Type) := {
  vmm_kernel : M E Z;
  vmm_create : M E Z;
  vmm_fork : Z → M E Z;
  vmm_destroy : Z → M E unit;
  vmm_map : Z → Z → Z → Z → M E Z;
  fdtable_create : M E Z;
  fdtable_clone : Z → M E Z;
  fdtable_unref : Z → M E unit;
  pmm_alloc_pages : Z → M E Z;
  pmm_pages_release : Z → Z → M E unit;
  pfn_db_page_to_phys : Z → M E Z;
  pfn_db_phys_to_page : Z → M E Z;
  sched_enqueue : Z → M E unit;
  sched_exit_current : Z → Z → M E unit;
  waitqueue_wake_all : Z → M E unit;
}.

Section state.
Context {E : Type}.
(** The objects and the static variables of [task.c], the thread that runs, and
    the rest of the kernel. *)
Record task_state := mkTask {
  procs : gmap Z proc_t;
  thrs : gmap Z thread_t;
  strs : gmap Z (list Z);
  arrs : gmap Z (list Z);
  words : gmap Z Z;
  proc_list_head : Z;
  proc_list_lock : spinlock_t;
  next_pid : Z;
  next_tid : Z;
  tid_lock : spinlock_t;
  init_proc : Z;
  current_thread : Z;
  allocs : list Z;
  env : E;
}.
Definition put_procs v x := mkTask v (thrs x) (strs x) (arrs x) (words x) (proc_list_head x) (proc_list_lock x) (next_pid x) (next_tid x) (tid_lock x) (init_proc x) (current_thread x) (allocs x) (env x).
Definition put_thrs v x := mkTask (procs x) v (strs x) (arrs x) (words x) (proc_list_head x) (proc_list_lock x) (next_pid x) (next_tid x) (tid_lock x) (init_proc x) (current_thread x) (allocs x) (env x).
Definition put_strs v x := mkTask (procs x) (thrs x) v (arrs x) (words x) (proc_list_head x) (proc_list_lock x) (next_pid x) (next_tid x) (tid_lock x) (init_proc x) (current_thread x) (allocs x) (env x).
Definition put_arrs v x := mkTask (procs x) (thrs x) (strs x) v (words x) (proc_list_head x) (proc_list_lock x) (next_pid x) (next_tid x) (tid_lock x) (init_proc x) (current_thread x) (allocs x) (env x).
Definition put_words v x := mkTask (procs x) (thrs x) (strs x) (arrs x) v (proc_list_head x) (proc_list_lock x) (next_pid x) (next_tid x) (tid_lock x) (init_proc x) (current_thread x) (allocs x) (env x).
Definition put_proc_list_head v x := mkTask (procs x) (thrs x) (strs x) (arrs x) (words x) v (proc_list_lock x) (next_pid x) (next_tid x) (tid_lock x) (init_proc x) (current_thread x) (allocs x) (env x).
Definition put_proc_list_lock v x := mkTask (procs x) (thrs x) (strs x) (arrs x) (words x) (proc_list_head x) v (next_pid x) (next_tid x) (tid_lock x) (init_proc x) (current_thread x) (allocs x) (env x).
Definition put_next_pid v x := mkTask (procs x) (thrs x) (strs x) (arrs x) (words x) (proc_list_head x) (proc_list_lock x) v (next_tid x) (tid_lock x) (init_proc x) (current_thread x) (allocs x) (env x).
Definition put_next_tid v x := mkTask (procs x) (thrs x) (strs x) (arrs x) (words x) (proc_list_head x) (proc_list_lock x) (next_pid x) v (tid_lock x) (init_proc x) (current_thread x) (allocs x) (env x).
Definition put_tid_lock v x := mkTask (procs x) (thrs x) (strs x) (arrs x) (words x) (proc_list_head x) (proc_list_lock x) (next_pid x) (next_tid x) v (init_proc x) (current_thread x) (allocs x) (env x).
Definition put_init_proc v x := mkTask (procs x) (thrs x) (strs x) (arrs x) (words x) (proc_list_head x) (proc_list_lock x) (next_pid x) (next_tid x) (tid_lock x) v (current_thread x) (allocs x) (env x).
Definition put_current_thread v x := mkTask (procs x) (thrs x) (strs x) (arrs x) (words x) (proc_list_head x) (proc_list_lock x) (next_pid x) (next_tid x) (tid_lock x) (init_proc x) v (allocs x) (env x).
Definition put_allocs v x := mkTask (procs x) (thrs x) (strs x) (arrs x) (words x) (proc_list_head x) (proc_list_lock x) (next_pid x) (next_tid x) (tid_lock x) (init_proc x) (current_thread x) v (env x).
Definition put_env v x := mkTask (procs x) (thrs x) (strs x) (arrs x) (words x) (proc_list_head x) (proc_list_lock x) (next_pid x) (next_tid x) (tid_lock x) (init_proc x) (current_thread x) (allocs x) v.
End state.
Arguments task_state E : clear implicits.

Section code.
(** The CPU that runs the code, [kernel_info.hhdm_offset], and the addresses of
    [thread_bootstrap_trampoline], [fork_child_entry] and [thread_user_entry_stub]. *)
Context (me hhdm_offset thread_bootstrap_trampoline fork_child_entry user_stub : Z).
Context `{TaskDeps E}.
Local Abbreviation St := (task_state E).

(** * Memory *)

Definition proc_load (p : Z) : M St proc_t := λ s, match procs s !! p with Some x => Done (x, s) | None => Fault end.
Definition proc_store (p : Z) (f : proc_t → proc_t) : M St unit := λ s,
  match procs s !! p with Some x => Done (tt, put_procs (<[p := f x]> (procs s)) s) | None => Fault end.
Definition thr_load (t : Z) : M St thread_t := λ s, match thrs s !! t with Some x => Done (x, s) | None => Fault end.
Definition thr_store (t : Z) (f : thread_t → thread_t) : M St unit := λ s,
  match thrs s !! t with Some x => Done (tt, put_thrs (<[t := f x]> (thrs s)) s) | None => Fault end.
Definition pget {A} (p : Z) (f : proc_t → A) : M St A := x ← proc_load p; mret (f x).
Definition kalloc : M St Z := λ s,
  match allocs s with [] => Done (0, s) | a :: r => Done (a, put_allocs r s) end.
(** [kfree] of a string, of an array, of a process and of a thread. *)
Definition free_str (p : Z) : M St unit := λ s,
  if p =? 0 then Done (tt, s) else
  match strs s !! p with Some _ => Done (tt, put_strs (delete p (strs s)) s) | None => Fault end.
Definition free_arr (p : Z) : M St unit := λ s,
  match arrs s !! p with Some _ => Done (tt, put_arrs (delete p (arrs s)) s) | None => Fault end.
Definition free_proc (p : Z) : M St unit := proc_load p ;; modify (λ s, put_procs (delete p (procs s)) s).
Definition free_thr (t : Z) : M St unit := thr_load t ;; modify (λ s, put_thrs (delete t (thrs s)) s).
(** [arr[i]] *)
Definition arr_load (a i : Z) : M St Z := λ s,
  match arrs s !! a with Some l => match l !! Z.to_nat i with Some v => Done (v, s) | None => Fault end | None => Fault end.
Definition arr_store (a i v : Z) : M St unit := λ s,
  match arrs s !! a with
  | Some l => match l !! Z.to_nat i with
              | Some _ => Done (tt, put_arrs (<[a := <[Z.to_nat i := v]> l]> (arrs s)) s)
              | None => Fault
              end
  | None => Fault
  end.
Definition str_load (p : Z) : M St (list Z) := λ s, match strs s !! p with Some c => Done (c, s) | None => Fault end.
(** A word of a kernel stack. *)
Definition store_word (a v : Z) : M St unit := λ s,
  match words s !! a with Some _ => Done (tt, put_words (<[a := v]> (words s)) s) | None => Fault end.
Definition deps {A} (m : M E A) : M St A := zoom env put_env m.

(** [spinlock_acquire(&proc->lock)] and the like. *)
Definition plock (p : Z) (op : M spinlock_t unit) : M St unit :=
  x ← proc_load p;
  match op (lock x) with Done (_, l) => proc_store p (set_lock l) | Fault => fault | Hang => hang end.
Definition tlock (t : Z) (op : M spinlock_t unit) : M St unit :=
  x ← thr_load t;
  match op (t_lock x) with Done (_, l) => thr_store t (tset_t_lock l) | Fault => fault | Hang => hang end.
Definition list_lock (op : M spinlock_t unit) : M St unit := zoom proc_list_lock put_proc_list_lock op.
Definition tids_lock (op : M spinlock_t unit) : M St unit := zoom tid_lock put_tid_lock op.

(** The three kinds of lists. *)
Definition proc_fuel : M St nat := gets (λ s, S (size (procs s))).
Definition all_procs : slist St :=
  mkSlist (gets proc_list_head) (λ v, modify (put_proc_list_head v)) (λ p, pget p global_next) (λ p v, proc_store p (set_global_next v)).
Definition children_of (parent : Z) : slist St :=
  mkSlist (pget parent children) (λ v, proc_store parent (set_children v)) (λ p, pget p sibling_next) (λ p v, proc_store p (set_sibling_next v)).
Definition threads_of (proc : Z) : slist St :=
  mkSlist (pget proc threads) (λ v, proc_store proc (set_threads v)) (λ t, x ← thr_load t; mret (proc_next x)) (λ t v, thr_store t (tset_proc_next v)).

(** * Numbers, and the list of processes *)

Definition alloc_pid : M St Z :=
  list_lock (lock_acquire me) ;;
  pid ← gets next_pid;
  modify (put_next_pid (i32 (pid + 1))) ;;
  list_lock (lock_release me) ;;
  mret pid.
Definition alloc_tid : M St Z :=
  tids_lock (lock_acquire me) ;;
  tid ← gets next_tid;
  modify (put_next_tid (i32 (tid + 1))) ;;
  tids_lock (lock_release me) ;;
  mret tid.

Definition proc_list_add (proc : Z) : M St unit :=
  list_lock (lock_acquire me) ;;
  h ← gets proc_list_head;
  proc_store proc (set_global_next h) ;;
  modify (put_proc_list_head proc) ;;
  list_lock (lock_release me).
Definition proc_list_remove (proc : Z) : M St unit :=
  list_lock (lock_acquire me) ;;
  fuel ← proc_fuel;
  unlink all_procs fuel proc ;;
  list_lock (lock_release me).
Definition lookup_round (pid_ p : Z) : M St (Z + Z) :=
  if p =? 0 then mret (inr 0) else
  x ← proc_load p;
  if pid x =? pid_ then mret (inr p) else mret (inl (global_next x)).
Definition proc_lookup (pid_ : Z) : M St Z :=
  list_lock (lock_acquire me) ;;
  h ← gets proc_list_head;
  fuel ← proc_fuel;
  p ← loop fuel (lookup_round pid_) h;
  list_lock (lock_release me) ;;
  mret p.
Definition task_subsystem_init : M St unit := modify (put_proc_list_head 0).

(** * Arguments *)

(** [for (i = 0; i < count; i++) kfree(arr[i]); kfree(arr);] *)
Definition free_strings (arr : Z) (n : nat) : M St unit := for_n 0 n (λ i, p ← arr_load arr i; free_str p).
Definition free_string_array (arr count : Z) : M St unit :=
  if arr =? 0 then mret tt else
  free_strings arr (Z.to_nat count) ;;
  free_arr arr.
Definition dup_round (src dst count i : Z) : M St (Z + Z) :=
  if negb (i <? count) then mret (inr dst) else
  p ← arr_load src i;
  c ← str_load p;
  q ← kalloc;
  arr_store dst i q ;;
  if q =? 0 then
    free_strings dst (Z.to_nat i) ;; free_arr dst ;; mret (inr 0)
  else
  modify (λ s, put_strs (<[q := c]> (strs s)) s) ;;
  mret (inl (i + 1)).
Definition dup_string_array (src count : Z) : M St Z :=
  if (src =? 0) || (count <=? 0) then mret 0 else
  dst ← kalloc;
  if dst =? 0 then mret 0 else
  modify (λ s, put_arrs (<[dst := replicate (Z.to_nat count) 0]> (arrs s)) s) ;;
  loop (S (Z.to_nat count)) (dup_round src dst count) 0.
Definition copy_argv_envp (dst argv_ argc_ envp_ envc_ : Z) : M St Z :=
  new_argv ← dup_string_array argv_ argc_;
  if negb (argv_ =? 0) && (argc_ >? 0) && (new_argv =? 0) then mret (- ENOMEM) else
  new_envp ← dup_string_array envp_ envc_;
  if negb (envp_ =? 0) && (envc_ >? 0) && (new_envp =? 0) then
    free_string_array new_argv argc_ ;; mret (- ENOMEM)
  else
  proc_store dst (λ x, set_envc envc_ (set_envp new_envp (set_argc argc_ (set_argv new_argv x)))) ;;
  mret EOK.
(** The arrays of a process are freed and forgotten. *)
Definition drop_args (proc : Z) : M St unit :=
  x ← proc_load proc; free_string_array (argv x) (argc x) ;;
  x ← proc_load proc; free_string_array (envp x) (envc x) ;;
  proc_store proc (λ x, set_envc 0 (set_argc 0 (set_envp 0 (set_argv 0 x)))).
Definition proc_set_argv (proc argc_ argv_ envc_ envp_ : Z) : M St Z :=
  if proc =? 0 then mret (- EINVAL) else
  drop_args proc ;;
  copy_argv_envp proc argv_ argc_ envp_ envc_.

(** ** The auxiliary vector *)

(** [for (i = 0; i < auxv_count; i++) if (auxv[i].key == key)]: the index, or [None]. *)
Definition auxv_round (proc key i : Z) : M St (Z + option (Z * Z)) :=
  x ← proc_load proc;
  if negb (i <? auxv_count x) then mret (inr None) else
  match auxv x !! Z.to_nat i with
  | Some (k, v) => if k =? key then mret (inr (Some (i, v))) else mret (inl (i + 1))
  | None => fault
  end.
Definition auxv_find (proc key : Z) : M St (option (Z * Z)) := loop (S (Z.to_nat MAX_AUXV)) (auxv_round proc key) 0.
Definition auxv_store (proc i : Z) (e : Z * Z) : M St unit :=
  if (0 <=? i) && (i <? MAX_AUXV) then proc_store proc (λ x, set_auxv (<[Z.to_nat i := e]> (auxv x)) x) else fault.
Definition proc_set_auxv (proc key value : Z) : M St Z :=
  if proc =? 0 then mret (- EINVAL) else
  plock proc (lock_acquire me) ;;
  f ← auxv_find proc key;
  match f with
  | Some (i, _) => auxv_store proc i (key, value) ;; plock proc (lock_release me) ;; mret EOK
  | None =>
      n ← pget proc auxv_count;
      if n >=? MAX_AUXV then plock proc (lock_release me) ;; mret (- ENOMEM) else
      auxv_store proc n (key, value) ;;
      proc_store proc (set_auxv_count (n + 1)) ;;
      plock proc (lock_release me) ;;
      mret EOK
  end.
Definition proc_get_auxv (proc key : Z) : M St Z :=
  if proc =? 0 then mret 0 else
  plock proc (lock_acquire me) ;;
  f ← auxv_find proc key;
  plock proc (lock_release me) ;;
  mret (match f with Some (_, v) => v | None => 0 end).

(** * Life and death of processes *)

Definition proc_ref (proc : Z) : M St unit :=
  if proc =? 0 then mret tt else
  plock proc (lock_acquire me) ;;
  proc_store proc (λ x, set_refcount (u32 (refcount x + 1)) x) ;;
  plock proc (lock_release me).
Definition proc_free (proc : Z) : M St unit :=
  x ← proc_load proc;
  when (negb (fdtable x =? 0)) (deps (fdtable_unref (fdtable x))) ;;
  when (negb (vmm x =? 0) && negb (flag (flags x) PROC_FLAG_KERNEL)) (deps (vmm_destroy (vmm x))) ;;
  free_string_array (argv x) (argc x) ;;
  free_string_array (envp x) (envc x) ;;
  free_proc proc.
Definition proc_unref (proc : Z) : M St unit :=
  if proc =? 0 then mret tt else
  plock proc (lock_acquire me) ;;
  proc_store proc (λ x, set_refcount (u32 (refcount x - 1)) x) ;;
  remaining ← pget proc refcount;
  plock proc (lock_release me) ;;
  when (remaining =? 0) (proc_list_remove proc ;; proc_free proc).

Definition zero_proc : proc_t :=
  mkProc 0 [] PROC_RUNNING 0 0 0 0 0 0 0 0 0 0 0 0 0 (replicate 32 (0, 0)) 0 0 0 0 0 (mkLock 0 0 0 0) 0.
(** [name]: no string, or its bytes. *)
Definition proc_alloc (name_ : option (list Z)) (flags_ : Z) : M St Z :=
  proc ← kalloc;
  if proc =? 0 then mret 0 else
  modify (λ s, put_procs (<[proc := zero_proc]> (procs s)) s) ;;
  pid_ ← alloc_pid;
  proc_store proc (λ x, set_lock SPINLOCK_INIT (set_refcount 1 (set_state PROC_RUNNING (set_flags flags_ (set_pid pid_ x))))) ;;
  match name_ with
  | Some n => proc_store proc (set_name (take (Z.to_nat (TASK_NAME_MAX - 1)) n))
  | None => mret tt
  end ;;
  proc_list_add proc ;;
  mret proc.
Definition proc_create_kernel (name_ : option (list Z)) : M St Z :=
  proc ← proc_alloc name_ PROC_FLAG_KERNEL;
  if proc =? 0 then mret 0 else
  v ← deps vmm_kernel;
  proc_store proc (set_vmm v) ;;
  t ← deps fdtable_create;
  proc_store proc (set_fdtable t) ;;
  if t =? 0 then proc_unref proc ;; mret 0 else
  mret proc.
Definition proc_reset_for_exec (proc : Z) : M St unit :=
  if proc =? 0 then mret tt else
  drop_args proc ;;
  proc_store proc (set_auxv_count 0) ;;
  x ← proc_load proc;
  if thread_count x >? 1 then mret tt else
  when (negb (vmm x =? 0) && negb (flag (flags x) PROC_FLAG_KERNEL)) (deps (vmm_destroy (vmm x))) ;;
  v ← deps vmm_create;
  proc_store proc (set_vmm v).

(** * Threads *)

(** [memset(virt, 0, size)] of a new stack. *)
Definition zero_words (base : Z) (n : nat) (m : gmap Z Z) : gmap Z Z :=
  foldr (λ i, <[base + 8 * Z.of_nat i := 0]>) m (seq 0 n).
Definition kstack_alloc (size_ : Z) : M St Z :=
  pages ← deps (pmm_alloc_pages (size_ / PAGE_SIZE));
  if pages =? 0 then mret 0 else
  phys ← deps (pfn_db_page_to_phys pages);
  let virt := u64 (phys + hhdm_offset) in
  modify (λ s, put_words (zero_words virt (Z.to_nat (size_ / 8)) (words s)) s) ;;
  mret virt.
Definition kstack_free (base size_ : Z) : M St unit :=
  if base =? 0 then mret tt else
  page ← deps (pfn_db_phys_to_page (u64 (base - hhdm_offset)));
  if page =? 0 then mret tt else
  deps (pmm_pages_release page (size_ / PAGE_SIZE)).

(** [sp -= 1; *sp = v] for each [v], and the address of the last one. *)
Fixpoint push (sp : Z) (vs : list Z) : M St Z :=
  match vs with
  | [] => mret sp
  | v :: vs' => store_word (u64 (sp - 8)) v ;; push (u64 (sp - 8)) vs'
  end.
Definition build_bootstrap_frame (stack_top return_addr rbx_val r12_val : Z) : M St Z :=
  push stack_top [return_addr; 0; rbx_val; r12_val; 0; 0; 0; 0x202].

(** The registers after the second half of [context_switch] in [context.asm]:
    [popfq], six [pop]s and [ret] from the new stack. *)
Record switch_regs := mkRegs { rflags : Z; r15 : Z; r14 : Z; r13 : Z; r12 : Z; rbx : Z; rbp : Z; rip : Z; rsp : Z }.
Definition context_switch_in (m : gmap Z Z) (new_rsp : Z) : option switch_regs :=
  let w i := m !! (new_rsp + 8 * i) in
  rflags_ ← w 0; r15_ ← w 1; r14_ ← w 2; r13_ ← w 3; r12_ ← w 4; rbx_ ← w 5; rbp_ ← w 6; rip_ ← w 7;
  Some (mkRegs rflags_ r15_ r14_ r13_ r12_ rbx_ rbp_ rip_ (new_rsp + 64)).

Definition thread_link_to_proc (proc_ thread : Z) : M St unit :=
  plock proc_ (lock_acquire me) ;;
  h ← pget proc_ threads;
  thr_store thread (tset_proc_next h) ;;
  proc_store proc_ (λ x, set_live_thread_count (u32 (live_thread_count x + 1))
    (set_thread_count (u32 (thread_count x + 1)) (set_threads thread x))) ;;
  plock proc_ (lock_release me).

Definition zero_fpu : list Z := replicate 514 0.
Definition zero_thread : thread_t := mkThread 0 0 THREAD_NEW 0 0 0 0 0 0 zero_fpu 0 0 (mkLock 0 0 0 0).
(** A zeroed thread with a stack, or 0. *)
Definition thread_alloc : M St Z :=
  thread ← kalloc;
  if thread =? 0 then mret 0 else
  modify (λ s, put_thrs (<[thread := zero_thread]> (thrs s)) s) ;;
  base ← kstack_alloc KSTACK_SIZE;
  thr_store thread (tset_kstack_base base) ;;
  if base =? 0 then free_thr thread ;; mret 0 else
  thr_store thread (tset_kstack_size KSTACK_SIZE) ;;
  mret thread.
(** The fields that a new thread begins with. *)
Definition thread_setup (thread proc_ prio : Z) : M St unit :=
  tid_ ← alloc_tid;
  thr_store thread (λ x, tset_t_lock SPINLOCK_INIT (tset_pinned_cpu (-1) (tset_last_cpu (-1) (tset_priority_level prio
    (tset_t_state THREAD_NEW (tset_proc proc_ (tset_tid tid_ x))))))).
Definition thread_create (proc_ entry arg : Z) : M St Z :=
  if proc_ =? 0 then mret 0 else
  thread ← thread_alloc;
  if thread =? 0 then mret 0 else
  thread_setup thread proc_ 0 ;;
  x ← thr_load thread;
  let stack_top := Z.land (u64 (kstack_base x + kstack_size x)) (not64 0xF) in
  rsp ← build_bootstrap_frame stack_top thread_bootstrap_trampoline entry arg;
  thr_store thread (tset_kernel_rsp rsp) ;;
  thread_link_to_proc proc_ thread ;;
  mret thread.
Definition thread_create_user (proc_ entry_rip user_stack_top : Z) : M St Z :=
  if proc_ =? 0 then mret 0 else
  x ← proc_load proc_;
  if negb (flag (flags x) PROC_FLAG_USER) then mret 0 else
  boot_args ← kalloc;
  if boot_args =? 0 then mret 0 else
  modify (λ s, put_arrs (<[boot_args := [entry_rip; user_stack_top]]> (arrs s)) s) ;;
  thread ← thread_create proc_ user_stub boot_args;
  if thread =? 0 then free_arr boot_args ;; mret 0 else
  mret thread.
(** [thread_user_entry_stub], whose last call is [usermode_enter] with the two values. *)
Definition thread_user_entry_stub (arg : Z) : M St (Z * Z) :=
  entry_rip ← arr_load arg 0;
  user_stack_top ← arr_load arg 1;
  free_arr arg ;;
  mret (entry_rip, user_stack_top).
Definition proc_map_user_stack (proc_ : Z) : M St Z :=
  v ← pget proc_ vmm;
  base ← deps (vmm_map v 0 USER_STACK_SIZE 0x107);
  if base =? 0 then mret 0 else
  v ← pget proc_ vmm;
  deps (vmm_map v (u64 (base - VMM_GUARD_SIZE)) VMM_GUARD_SIZE 0x80) ;;
  mret (u64 (base + USER_STACK_SIZE)).

(** ** Forking *)

(** [context_t] is 27 words, of which the sixth is [rax]. *)
Definition CONTEXT_WORDS : Z := 27.
Definition CONTEXT_RAX : nat := 5.
Definition store_words (a : Z) (vs : list Z) : M St unit :=
  for_n 0 (length vs) (λ i, match vs !! Z.to_nat i with Some v => store_word (u64 (a + 8 * i)) v | None => mret tt end).
Definition thread_fork_from_syscall (child_proc parent_thread : Z) (parent_ctx : list Z) : M St Z :=
  child ← thread_alloc;
  if child =? 0 then mret 0 else
  pt ← thr_load parent_thread;
  thread_setup child child_proc (priority_level pt) ;;
  thr_store child (tset_fpu (fpu pt)) ;;
  x ← thr_load child;
  let stack_top := u64 (kstack_base x + kstack_size x) in
  let child_ctx := u64 (stack_top - 8 * CONTEXT_WORDS) in
  store_words child_ctx parent_ctx ;;
  store_word (u64 (child_ctx + 8 * Z.of_nat CONTEXT_RAX)) 0 ;;
  rsp ← build_bootstrap_frame child_ctx fork_child_entry child_ctx 0;
  thr_store child (tset_kernel_rsp rsp) ;;
  thread_link_to_proc child_proc child ;;
  mret child.
Definition proc_add_child (parent_ child : Z) : M St unit :=
  plock parent_ (lock_acquire me) ;;
  h ← pget parent_ children;
  proc_store child (set_sibling_next h) ;;
  proc_store parent_ (set_children child) ;;
  plock parent_ (lock_release me).
Definition proc_remove_child (parent_ child : Z) : M St unit :=
  plock parent_ (lock_acquire me) ;;
  fuel ← proc_fuel;
  unlink (children_of parent_) fuel child ;;
  plock parent_ (lock_release me).
(** [parent_ctx]: no context, or its words. *)
Definition proc_fork (parent_ parent_thread : Z) (parent_ctx : option (list Z)) : M St Z :=
  match parent_ctx with
  | None => mret (- EINVAL)
  | Some ctx =>
  if (parent_ =? 0) || (parent_thread =? 0) then mret (- EINVAL) else
  x ← proc_load parent_;
  child ← proc_alloc (Some (name x)) (flags x);
  if child =? 0 then mret (- ENOMEM) else
  x ← proc_load parent_;
  v ← deps (vmm_fork (vmm x));
  proc_store child (set_vmm v) ;;
  if v =? 0 then proc_unref child ;; mret (- ENOMEM) else
  t ← deps (fdtable_clone (fdtable x));
  proc_store child (set_fdtable t) ;;
  if t =? 0 then proc_unref child ;; mret (- ENOMEM) else
  when (negb (argv x =? 0)) (copy_argv_envp child (argv x) (argc x) (envp x) (envc x) ;; mret tt) ;;
  proc_store child (λ c, set_parent parent_ (set_gid (gid x) (set_uid (uid x) (set_auxv_count (auxv_count x) (set_auxv (auxv x) c))))) ;;
  proc_add_child parent_ child ;;
  child_thread ← thread_fork_from_syscall child parent_thread ctx;
  if child_thread =? 0 then proc_remove_child parent_ child ;; proc_unref child ;; mret (- ENOMEM) else
  child_pid ← pget child pid;
  thr_store child_thread (tset_t_state THREAD_READY) ;;
  deps (sched_enqueue child_thread) ;;
  mret child_pid
  end.

(** ** Ending *)

Definition thread_current : M St Z := gets current_thread.
Definition proc_current : M St Z :=
  t ← thread_current; if t =? 0 then mret 0 else x ← thr_load t; mret (proc x).
Definition thread_free_resources (thread : Z) : M St unit :=
  x ← thr_load thread;
  kstack_free (kstack_base x) (kstack_size x) ;;
  free_thr thread.
Definition proc_unlink_thread (proc_ thread : Z) : M St unit :=
  plock proc_ (lock_acquire me) ;;
  fuel ← gets (λ s, S (size (thrs s)));
  unlink (threads_of proc_) fuel thread ;;
  plock proc_ (lock_release me).

Definition orphan_round (child : Z) : M St (Z + unit) :=
  if child =? 0 then mret (inr tt) else
  next ← pget child sibling_next;
  plock child (lock_acquire me) ;;
  init ← gets init_proc;
  proc_store child (set_parent init) ;;
  plock child (lock_release me) ;;
  when (negb (init =? 0)) (proc_add_child init child) ;;
  mret (inl next).
Definition proc_exit (proc_ exit_code_ : Z) : M St unit :=
  plock proc_ (lock_acquire me) ;;
  st ← pget proc_ state;
  if bool_decide (st = PROC_ZOMBIE) || bool_decide (st = PROC_DEAD) then plock proc_ (lock_release me) else
  proc_store proc_ (λ x, set_exit_code exit_code_ (set_state PROC_ZOMBIE x)) ;;
  plock proc_ (lock_release me) ;;
  c ← pget proc_ children;
  fuel ← proc_fuel;
  loop fuel orphan_round c ;;
  proc_store proc_ (set_children 0) ;;
  up ← pget proc_ parent;
  when (negb (up =? 0)) (deps (waitqueue_wake_all up)) ;;
  init ← gets init_proc;
  when (negb (init =? 0)) (deps (waitqueue_wake_all init)).
Definition thread_exit (thread exit_code_ : Z) : M St unit :=
  if thread =? 0 then mret tt else
  x ← thr_load thread;
  let p := proc x in
  cur ← thread_current;
  tlock thread (lock_acquire me) ;;
  thr_store thread (λ x, tset_t_state THREAD_ZOMBIE (tset_t_exit_code exit_code_ x)) ;;
  tlock thread (lock_release me) ;;
  plock p (lock_acquire me) ;;
  n ← pget p live_thread_count;
  when (n >? 0) (proc_store p (set_live_thread_count (n - 1))) ;;
  n ← pget p live_thread_count;
  plock p (lock_release me) ;;
  when (n =? 0) (proc_exit p exit_code_) ;;
  proc_unlink_thread p thread ;;
  if thread =? cur then deps (sched_exit_current thread exit_code_) else thread_free_resources thread.
Definition thread_destroy (thread : Z) : M St unit :=
  if thread =? 0 then mret tt else
  tlock thread (lock_acquire me) ;;
  x ← thr_load thread;
  tlock thread (lock_release me) ;;
  if negb (bool_decide (t_state x = THREAD_ZOMBIE)) && negb (bool_decide (t_state x = THREAD_DEAD)) then mret tt else
  cur ← thread_current;
  if thread =? cur then mret tt else
  thread_free_resources thread.
Definition thread_exit_current : M St unit := t ← thread_current; thread_exit t 0.

(** ** Waiting *)

(** The child that has ended, and the one before it. *)
Definition zombie_round (child_pid : Z) (c : Z * Z) : M St ((Z * Z) + (Z * Z)) :=
  let '(prev, iter) := c in
  if iter =? 0 then mret (inr (prev, 0)) else
  x ← proc_load iter;
  let matches := (child_pid =? -1) || (pid x =? child_pid) in
  if matches && bool_decide (state x = PROC_ZOMBIE) then mret (inr (prev, iter)) else
  mret (inl (iter, sibling_next x)).
Definition match_round (child_pid iter : Z) : M St (Z + bool) :=
  if iter =? 0 then mret (inr false) else
  x ← proc_load iter;
  if (child_pid =? -1) || (pid x =? child_pid) then mret (inr true) else
  mret (inl (sibling_next x)).

(** What [waitqueue_wait] on the queue of a process does: the other threads run
    until one of them wakes this one. *)
Context (waitqueue_wait : Z → M St unit).

(** A round of the outer loop, with the pid and the exit code of a child. *)
Definition wait_round (parent_ child_pid : Z) (_ : unit) : M St (unit + (Z * option Z)) :=
  plock parent_ (lock_acquire me) ;;
  first ← pget parent_ children;
  fuel ← proc_fuel;
  pf ← loop fuel (zombie_round child_pid) (0, first);
  let '(prev, found) := pf in
  has_matching_child ← (if found =? 0 then loop fuel (match_round child_pid) first else mret false);
  if (found =? 0) && negb has_matching_child then plock parent_ (lock_release me) ;; mret (inr (- ECHILD, None)) else
  if negb (found =? 0) then
    next ← pget found sibling_next;
    (if negb (prev =? 0) then proc_store prev (set_sibling_next next) else proc_store parent_ (set_children next)) ;;
    plock parent_ (lock_release me) ;;
    x ← proc_load found;
    proc_store found (set_state PROC_DEAD) ;;
    proc_unref found ;;
    mret (inr (pid x, Some (exit_code x)))
  else
  plock parent_ (lock_release me) ;;
  waitqueue_wait parent_ ;;
  mret (inl tt).
(** [fuel] bounds how often the thread is woken for nothing. *)
Definition proc_wait (fuel : nat) (parent_ child_pid : Z) : M St (Z * option Z) := loop fuel (wait_round parent_ child_pid) tt.

(** A round of [init_proc_thread_fn], which goes on for ever; [yield] is [sched_yield]. *)
Definition init_round (fuel : nat) (yield : M St unit) : M St unit :=
  init ← gets init_proc;
  r ← proc_wait fuel init (-1);
  when (r.1 =? - ECHILD) yield.
Definition task_create_init_proc (init_name : list Z) (init_proc_thread_fn : Z) : M St Z :=
  p ← proc_create_kernel (Some init_name);
  modify (put_init_proc p) ;;
  if p =? 0 then mret 0 else
  t ← thread_create p init_proc_thread_fn 0;
  if t =? 0 then mret 0 else
  thr_store t (tset_t_state THREAD_READY) ;;
  deps (sched_enqueue t) ;;
  mret p.
Definition task_get_init_proc : M St Z := gets init_proc.
End code.
