(* ===== verification/TaskSpec.v ===== *)
(** What the operations of tasks need and leave: the interface to the other parts
    of the kernel, memory, the lists of processes, copies of arguments, and
    kernel stacks. *)
From S2P Require Import Prelude Errno Sync SList Task.

#[local] Arguments loop : simpl never.
#[local] Arguments for_n : simpl never.

(** * What the other parts promise *)

(** What exists: address spaces and descriptor tables, each with what it was made
    from, and kernel stacks (by their first page); and the calls to the scheduler
    and the wait queues so far. *)
Inductive origin := Fresh | CopyOf (a : Z).
Inductive call := Enqueue (t : Z) | WakeAll (p : Z) | ExitCurrent (t c : Z).
Record res := mkRes { spaces : gmap Z origin; tables : gmap Z origin; stacks : gset Z; calls : list call }.
Definition upd_spaces f (r : res) := mkRes (f (spaces r)) (tables r) (stacks r) (calls r).
Definition upd_tables f (r : res) := mkRes (spaces r) (f (tables r)) (stacks r) (calls r).
Definition upd_stacks f (r : res) := mkRes (spaces r) (tables r) (f (stacks r)) (calls r).
Definition add_call c (r : res) := mkRes (spaces r) (tables r) (stacks r) (calls r ++ [c]).

(** An answer is 0 with nothing changed, or something new. *)
Definition created (get : res → gmap Z origin) (upd : (gmap Z origin → gmap Z origin) → res → res) (o : origin) (r : Z) (v v' : res) : Prop :=
  (r = 0 ∧ v' = v) ∨ (r ≠ 0 ∧ get v !! r = None ∧ v' = upd <[r := o]> v).
Definition dropped (upd : (gmap Z origin → gmap Z origin) → res → res) (r : Z) (v v' : res) : Prop := v' = upd (delete r) v.
Definition allotted (r : Z) (v v' : res) : Prop :=
  (r = 0 ∧ v' = v) ∨ (r ≠ 0 ∧ r ∉ stacks v ∧ v' = upd_stacks (λ S, {[r]} ∪ S) v).

(** Address of the stack whose first page is at [phys], and that it fits. *)
Definition stack_at (hhdm_offset phys : Z) : Z := phys + hhdm_offset.
Definition stack_fits (hhdm_offset phys n : Z) : Prop :=
  0 ≤ phys < 2 ^ 64 ∧ 0 < stack_at hhdm_offset phys ∧ stack_at hhdm_offset phys + n * PAGE_SIZE < 2 ^ 64 ∧
  stack_at hhdm_offset phys `mod` PAGE_SIZE = 0.

Class TaskLaws (hhdm_offset : Z) (E : Type) `{TaskDeps E} := {
  env_ok : E → Prop;
  view : E → res;
  phys_of : Z → Z;
  law_vmm_kernel e : env_ok e → wp vmm_kernel (λ _ e', e' = e) e;
  law_vmm_create e : env_ok e → wp vmm_create (λ r e', env_ok e' ∧ created spaces upd_spaces Fresh r (view e) (view e')) e;
  law_vmm_fork e v : env_ok e → v ∈ dom (spaces (view e)) →
    wp (vmm_fork v) (λ r e', env_ok e' ∧ created spaces upd_spaces (CopyOf v) r (view e) (view e')) e;
  law_vmm_destroy e v : env_ok e → v ∈ dom (spaces (view e)) → wp (vmm_destroy v) (λ _ e', env_ok e' ∧ dropped upd_spaces v (view e) (view e')) e;
  law_fdtable_create e : env_ok e → wp fdtable_create (λ r e', env_ok e' ∧ created tables upd_tables Fresh r (view e) (view e')) e;
  law_fdtable_clone e t : env_ok e → t ∈ dom (tables (view e)) →
    wp (fdtable_clone t) (λ r e', env_ok e' ∧ created tables upd_tables (CopyOf t) r (view e) (view e')) e;
  law_fdtable_unref e t : env_ok e → t ∈ dom (tables (view e)) → wp (fdtable_unref t) (λ _ e', env_ok e' ∧ dropped upd_tables t (view e) (view e')) e;
  law_alloc_pages e n : env_ok e → 0 < n →
    wp (pmm_alloc_pages n) (λ r e', env_ok e' ∧ allotted r (view e) (view e') ∧ (r ≠ 0 → stack_fits hhdm_offset (phys_of r) n)) e;
  law_pages_release e r n : env_ok e → r ∈ stacks (view e) → wp (pmm_pages_release r n) (λ _ e', env_ok e' ∧ view e' = upd_stacks (λ S, S ∖ {[r]}) (view e)) e;
  law_page_to_phys e r : env_ok e → r ∈ stacks (view e) → wp (pfn_db_page_to_phys r) (λ v e', e' = e ∧ v = phys_of r) e;
  law_phys_to_page e r : env_ok e → r ∈ stacks (view e) → wp (pfn_db_phys_to_page (phys_of r)) (λ v e', e' = e ∧ v = r) e;
  law_enqueue e t : env_ok e → wp (sched_enqueue t) (λ _ e', env_ok e' ∧ view e' = add_call (Enqueue t) (view e)) e;
  law_exit e t c : env_ok e → wp (sched_exit_current t c) (λ _ e', env_ok e' ∧ view e' = add_call (ExitCurrent t c) (view e)) e;
  law_wake_all e p : env_ok e → wp (waitqueue_wake_all p) (λ _ e', env_ok e' ∧ view e' = add_call (WakeAll p) (view e)) e;
}.

Section spec.
Context (me : Z) `{TaskDeps E}.
Local Abbreviation St := (task_state E).
Implicit Types s : St.

(** * Memory *)

Lemma wp_proc_load s p x (Q : proc_t → St → Prop) : procs s !! p = Some x → Q x s → wp (proc_load p) Q s.
Proof. unfold wp, proc_load. by intros ->. Qed.
Lemma wp_proc_store s p x f (Q : unit → St → Prop) : procs s !! p = Some x → Q tt (put_procs (<[p := f x]> (procs s)) s) → wp (proc_store p f) Q s.
Proof. unfold wp, proc_store. by intros ->. Qed.
Lemma wp_pget {A} s p x (f : proc_t → A) (Q : A → St → Prop) : procs s !! p = Some x → Q (f x) s → wp (pget p f) Q s.
Proof. intros Hp HQ. apply wp_bind. by eapply wp_proc_load. Qed.
Lemma wp_thr_load s t x (Q : thread_t → St → Prop) : thrs s !! t = Some x → Q x s → wp (thr_load t) Q s.
Proof. unfold wp, thr_load. by intros ->. Qed.
Lemma wp_thr_store s t x f (Q : unit → St → Prop) : thrs s !! t = Some x → Q tt (put_thrs (<[t := f x]> (thrs s)) s) → wp (thr_store t f) Q s.
Proof. unfold wp, thr_store. by intros ->. Qed.

(** Locks. *)
Lemma wp_plock_acquire s p x (Q : unit → St → Prop) :
  procs s !! p = Some x → lock x = unlocked → Q tt (put_procs (<[p := set_lock (held me) x]> (procs s)) s) → wp (plock p (lock_acquire me)) Q s.
Proof. intros Hp Hl HQ. apply wp_bind. eapply wp_proc_load; [done|]. rewrite Hl. by eapply wp_proc_store. Qed.
Lemma wp_plock_release s p x (Q : unit → St → Prop) :
  procs s !! p = Some x → lock x = held me → Q tt (put_procs (<[p := set_lock unlocked x]> (procs s)) s) → wp (plock p (lock_release me)) Q s.
Proof. intros Hp Hl HQ. apply wp_bind. eapply wp_proc_load; [done|]. rewrite Hl. by eapply wp_proc_store. Qed.
Lemma wp_tlock_acquire s t x (Q : unit → St → Prop) :
  thrs s !! t = Some x → t_lock x = unlocked → Q tt (put_thrs (<[t := tset_t_lock (held me) x]> (thrs s)) s) → wp (tlock t (lock_acquire me)) Q s.
Proof. intros Hp Hl HQ. apply wp_bind. eapply wp_thr_load; [done|]. rewrite Hl. by eapply wp_thr_store. Qed.
Lemma wp_tlock_release s t x (Q : unit → St → Prop) :
  thrs s !! t = Some x → t_lock x = held me → Q tt (put_thrs (<[t := tset_t_lock unlocked x]> (thrs s)) s) → wp (tlock t (lock_release me)) Q s.
Proof. intros Hp Hl HQ. apply wp_bind. eapply wp_thr_load; [done|]. rewrite Hl. by eapply wp_thr_store. Qed.
Lemma wp_list_acquire s (Q : unit → St → Prop) :
  proc_list_lock s = unlocked → Q tt (put_proc_list_lock (held me) s) → wp (list_lock (lock_acquire me)) Q s.
Proof. intros Hl HQ. apply wp_zoom. rewrite Hl. by apply wp_lock_acquire. Qed.
Lemma wp_list_release s (Q : unit → St → Prop) :
  proc_list_lock s = held me → Q tt (put_proc_list_lock unlocked s) → wp (list_lock (lock_release me)) Q s.
Proof. intros Hl HQ. apply wp_zoom. rewrite Hl. by apply wp_lock_release. Qed.

(** A process, written in its own critical section. *)
Lemma set_lock_unlocked x : lock x = unlocked → set_lock unlocked x = x.
Proof. destruct x; simpl. by intros ->. Qed.
Lemma tset_lock_unlocked x : t_lock x = unlocked → tset_t_lock unlocked x = x.
Proof. destruct x; simpl. by intros ->. Qed.
Lemma put_list_unlocked s : proc_list_lock s = unlocked → put_proc_list_lock unlocked s = s.
Proof. destruct s; simpl. by intros ->. Qed.
Lemma put_procs_id s : put_procs (procs s) s = s.
Proof. by destruct s. Qed.
Lemma put_thrs_id s : put_thrs (thrs s) s = s.
Proof. by destruct s. Qed.

(** * Numbers *)

Lemma wp_alloc_pid s (Q : Z → St → Prop) :
  proc_list_lock s = unlocked → Q (next_pid s) (put_next_pid (i32 (next_pid s + 1)) s) → wp (alloc_pid me) Q s.
Proof.
  intros Hl HQ. apply wp_bind, wp_list_acquire; [done|]. apply wp_bind, wp_gets, wp_bind, wp_modify, wp_bind, wp_list_release; [done|]. apply wp_ret.
  destruct s; simpl in *; subst. done.
Qed.
Lemma wp_alloc_tid s (Q : Z → St → Prop) :
  tid_lock s = unlocked → Q (next_tid s) (put_next_tid (i32 (next_tid s + 1)) s) → wp (alloc_tid me) Q s.
Proof.
  intros Hl HQ. apply wp_bind, wp_zoom. rewrite Hl. apply wp_lock_acquire, wp_bind, wp_gets, wp_bind, wp_modify, wp_bind, wp_zoom. simpl.
  apply wp_lock_release, wp_ret. destruct s; simpl in *; subst. done.
Qed.

(** * The list of processes *)

Definition plinks (m : gmap Z proc_t) (a : Z) : option Z := global_next <$> m !! a.
Definition plist s (l : list Z) : Prop := chain (plinks (procs s)) (proc_list_head s) l.
Lemma plist_fuel s l : plist s l → (length l < S (size (procs s)))%nat.
Proof. intros Hl. apply Nat.lt_succ_r. by eapply chain_size. Qed.
Lemma plist_lookup s l p : plist s l → p ∈ l → ∃ x, procs s !! p = Some x.
Proof. intros Hl Hp. destruct (chain_is_Some _ _ _ _ Hl Hp) as [n Hn]. unfold plinks in Hn. destruct (procs s !! p) as [x|]; [by exists x|done]. Qed.
(** The links do not depend on the other fields, or on processes that are not there. *)
Lemma chain_store m h l p x y : chain (plinks m) h l → m !! p = Some x → global_next y = global_next x → chain (plinks (<[p := y]> m)) h l.
Proof.
  intros Hc Hp Hg. eapply chain_ext; [|done]. intros a _. unfold plinks.
  destruct (decide (p = a)) as [->|]; [rewrite lookup_insert_eq, Hp; simpl; by rewrite Hg|by rewrite lookup_insert_ne].
Qed.
Lemma chain_insert_new m h l p y : chain (plinks m) h l → m !! p = None → chain (plinks (<[p := y]> m)) h l.
Proof.
  intros Hc Hp. eapply chain_ext; [|done]. intros a Ha. unfold plinks. rewrite lookup_insert_ne; [done|]. intros ->.
  destruct (chain_is_Some _ _ _ _ Hc Ha) as [n Hn]. unfold plinks in Hn. by rewrite Hp in Hn.
Qed.
Lemma chain_delete m h l p : chain (plinks m) h l → p ∉ l → chain (plinks (delete p m)) h l.
Proof. intros Hc Hp. eapply chain_ext; [|done]. intros a Ha. unfold plinks. rewrite lookup_delete_ne; [done|]. by intros ->. Qed.

Lemma wp_proc_list_add s p x (Q : unit → St → Prop) :
  proc_list_lock s = unlocked → procs s !! p = Some x →
  Q tt (put_proc_list_head p (put_procs (<[p := set_global_next (proc_list_head s) x]> (procs s)) s)) → wp (proc_list_add me p) Q s.
Proof.
  intros Hl Hp HQ. apply wp_bind, wp_list_acquire; [done|]. apply wp_bind, wp_gets, wp_bind. eapply wp_proc_store; [done|].
  apply wp_bind, wp_modify, wp_list_release; [done|]. destruct s; simpl in *; subst. done.
Qed.

(** The link before [p], which leads to [n] now. *)
Definition relink (l1 : list Z) (n : Z) (m : gmap Z proc_t) : gmap Z proc_t :=
  match last l1 with None => m | Some q => alter (set_global_next n) q m end.
Definition rehead (l1 : list Z) (n h : Z) : Z := match l1 with [] => n | _ => h end.
Lemma wp_proc_list_remove s l1 p l2 x (Q : unit → St → Prop) :
  proc_list_lock s = unlocked → plist s (l1 ++ p :: l2) → procs s !! p = Some x →
  Q tt (put_proc_list_head (rehead l1 (global_next x) (proc_list_head s)) (put_procs (relink l1 (global_next x) (procs s)) s)) →
  wp (proc_list_remove me p) Q s.
Proof.
  intros Hl Hc Hp HQ. apply wp_bind, wp_list_acquire; [done|]. apply wp_bind, wp_gets, wp_bind.
  eapply (unlink_spec all_procs (plinks (procs s)) _ (proc_list_head s) (l1 ++ p :: l2)); [|done|by apply (plist_fuel s)| |].
  - split; [done|]. intros a n Hn. unfold plinks in Hn. simpl. unfold pget, mbind, M_bind, proc_load. simpl.
    destruct (procs s !! a); simpl in *; [by injection Hn as ->|done].
  - intros Hno. set_solver.
  - intros l1' l2' n Heq Hno Hn. unfold plinks in Hn. rewrite Hp in Hn. injection Hn as <-.
    destruct (slist_split_unique _ _ _ _ _ _ _ Hc Hno Heq) as [<- <-].
    unfold relink in HQ. destruct (last l1) as [q|] eqn:Hlast; simpl.
    + assert (∃ y, procs s !! q = Some y) as [y Hy].
      { apply (plist_lookup s (l1 ++ p :: l2)); [done|]. apply last_Some_elem_of in Hlast. set_solver. }
      eapply wp_proc_store; [done|]. apply wp_list_release; [done|]. rewrite (alter_const _ _ _ _ Hy) in HQ.
      destruct l1; [done|]. simpl in HQ. destruct s; simpl in *; subst. done.
    + apply last_None in Hlast as ->. apply wp_modify, wp_list_release; [done|]. destruct s; simpl in *; subst. done.
Qed.
(** The list without [p]. *)
Lemma chain_relinked m h l1 p l2 x : chain (plinks m) h (l1 ++ p :: l2) → m !! p = Some x →
  chain (plinks (relink l1 (global_next x) m)) (rehead l1 (global_next x) h) (l1 ++ l2).
Proof.
  intros Hc Hp. eapply (chain_remove (plinks m)); [exact Hc|unfold plinks; by rewrite Hp| |]; intros a Ha Hlast; unfold plinks, relink.
  - rewrite Hlast, lookup_alter_eq. pose proof Hlast as Hin%last_Some_elem_of.
    destruct (chain_is_Some _ _ _ a Hc) as [n Hn]; [set_solver|]. unfold plinks in Hn. destruct (m !! a); done.
  - destruct (last l1) as [q|]; [|done]. rewrite lookup_alter_ne; [done|]. intros ->. done.
Qed.
Lemma relink_ne l1 n m p : p ∉ l1 → relink l1 n m !! p = m !! p.
Proof.
  intros Hp. unfold relink. destruct (last l1) as [q|] eqn:Hq; [|done]. apply last_Some_elem_of in Hq. rewrite lookup_alter_ne; [done|]. by intros ->.
Qed.

Lemma wp_proc_lookup s l k (Q : Z → St → Prop) :
  proc_list_lock s = unlocked → plist s l →
  (∀ p, list_find (λ p, (pid <$> procs s !! p) = Some k) l = p → Q (match p with Some (_, p) => p | None => 0 end) s) → wp (proc_lookup me k) Q s.
Proof.
  intros Hl Hc HQ. apply wp_bind, wp_list_acquire; [done|]. apply wp_bind, wp_gets, wp_bind, wp_gets, wp_bind. simpl.
  set (s1 := put_proc_list_lock (held me) s). set (r := list_find (λ p, (pid <$> procs s !! p) = Some k) l).
  apply (wp_loop (λ n h s', s' = s1 ∧ ∃ l', chain (plinks (procs s)) h l' ∧ n = length l' ∧
    snd <$> list_find (λ p, (pid <$> procs s !! p) = Some k) l' = snd <$> r) _ _ (length l)); [by apply (plist_fuel s)| |].
  { split; [done|]. by exists l. }
  intros n h s' (-> & l' & Hc' & -> & Hr). unfold lookup_round. destruct l' as [|a l'].
  - simpl in Hc', Hr. subst h. simpl. apply wp_ret, wp_bind, wp_list_release; [done|]. apply wp_ret.
    assert (s = put_proc_list_lock unlocked s1) as <- by (destruct s; simpl in *; by subst).
    specialize (HQ r eq_refl). destruct r as [[? ?]|]; [done|exact HQ].
  - destruct Hc' as (-> & Ha & n & Hn & Hc'). rewrite (proj2 (Z.eqb_neq _ _) Ha). unfold plinks in Hn.
    destruct (procs s !! a) as [x|] eqn:Hx; [|done]. injection Hn as <-. apply wp_bind. eapply wp_proc_load; [done|].
    simpl in Hr. destruct (Z.eqb_spec (pid x) k) as [Hk|Hk].
    + rewrite decide_True in Hr by (rewrite Hx; simpl; by rewrite Hk). apply wp_ret, wp_bind, wp_list_release; [done|]. apply wp_ret.
      assert (s = put_proc_list_lock unlocked s1) as <- by (destruct s; simpl in *; by subst).
      specialize (HQ r eq_refl). destruct r as [[i p]|]; simpl in Hr; [|done]. by injection Hr as <-.
    + rewrite decide_False in Hr by (rewrite Hx; simpl; by intros [= ?]). apply wp_ret. exists (length l'). split; [simpl; lia|]. split; [done|].
      exists l'. split_and!; [done|done|]. rewrite <-Hr. by destruct (list_find _ l') as [[? ?]|].
Qed.

(** * The heap *)

Definition used s : gset Z := dom (procs s) ∪ dom (thrs s) ∪ dom (strs s) ∪ dom (arrs s).
(** What the heap answers with is new. *)
Definition heap_ok s : Prop := NoDup (filter (λ a, a ≠ 0) (allocs s)) ∧ ∀ a, a ∈ allocs s → a ≠ 0 → a ∉ used s.
(** From the answers [l] those before [r] were given, and one of them was a
    refusal, or there are none left. *)
Definition denied (l r : list Z) : Prop := ∃ us, l = us ++ r ∧ (0 ∈ us ∨ r = []).
Lemma denied_suffix l l' r : l' `suffix_of` l → denied l' r → denied l r.
Proof. intros [k ->] (us & -> & Hus). exists (k ++ us). rewrite <-app_assoc. split; [done|]. destruct Hus as [?|?]; [left; set_solver|by right]. Qed.
Lemma denied_is_suffix l r : denied l r → r `suffix_of` l.
Proof. intros (us & -> & _). by exists us. Qed.
(** The next answer, and that the others stay new when the object is there. *)
Lemma wp_task_kalloc s (Q : Z → St → Prop) :
  heap_ok s →
  (∀ r, denied (allocs s) r → heap_ok (put_allocs r s) → Q 0 (put_allocs r s)) →
  (∀ a r, allocs s = a :: r → a ≠ 0 → a ∉ used s → (∀ s', allocs s' = r → used s' ⊆ {[a]} ∪ used s → heap_ok s') → Q a (put_allocs r s)) → wp kalloc Q s.
Proof.
  intros [Hnd Hf] H0 H1. unfold wp, kalloc. destruct (allocs s) as [|a r] eqn:Ha.
  - specialize (H0 []). replace (put_allocs [] s) with s in H0 by (destruct s; simpl in *; by subst). apply H0; [exists []; by auto|]. split; rewrite Ha; [done|set_solver].
  - destruct (decide (a = 0)) as [->|Hne].
    + apply H0; [exists [0]; split; [done|left; set_solver]|]. split; simpl; [exact Hnd|]. intros b Hb. apply Hf. set_solver.
    + rewrite filter_cons_True in Hnd by done. apply NoDup_cons in Hnd as [Hno Hnd]. apply H1; [done|done|apply Hf; [set_solver|done]|].
      intros s' Hal Hu. split; rewrite Hal; [done|]. intros b Hb Hb0 Hin. apply Hu in Hin.
      assert (b ≠ a) by (intros ->; apply Hno, list_elem_of_filter; done). apply (Hf b); [set_solver|done|set_solver].
Qed.
Lemma heap_ok_mono s s' : heap_ok s → allocs s' = allocs s → used s' ⊆ used s → heap_ok s'.
Proof. intros [Hnd Hf] Ha Hu. split; rewrite Ha; [done|]. set_solver. Qed.

(** * New processes *)

(** A process as [proc_alloc] makes it. *)
Definition new_proc (k : Z) (nm : list Z) (fl next : Z) : proc_t :=
  mkProc k nm PROC_RUNNING fl 0 0 0 0 0 0 0 0 0 0 0 0 (replicate 32 (0, 0)) 0 0 0 0 1 unlocked next.
Definition name_of (nm : option (list Z)) : list Z := default [] (take 31 <$> nm).
Lemma wp_proc_alloc s nm fl (Q : Z → St → Prop) :
  proc_list_lock s = unlocked → heap_ok s →
  (∀ r, heap_ok (put_allocs r s) → Q 0 (put_allocs r s)) →
  (∀ c r, allocs s = c :: r → c ≠ 0 → c ∉ used s → (∀ s', allocs s' = r → used s' ⊆ {[c]} ∪ used s → heap_ok s') →
     Q c (put_proc_list_head c (put_next_pid (i32 (next_pid s + 1))
       (put_procs (<[c := new_proc (next_pid s) (name_of nm) fl (proc_list_head s)]> (procs s)) (put_allocs r s))))) →
  wp (proc_alloc me nm fl) Q s.
Proof.
  intros Hl Hh H0 H1. apply wp_bind. apply wp_task_kalloc; [done|by intros; apply wp_ret, H0|]. intros c r Hal Hc Hu Hok. rewrite (proj2 (Z.eqb_neq _ _) Hc).
  specialize (H1 c r Hal Hc Hu Hok). apply wp_bind, wp_modify, wp_bind, wp_alloc_pid; [done|]. apply wp_bind.
  eapply wp_proc_store; [apply lookup_insert_eq|]. apply wp_bind. destruct nm as [n|].
  - eapply wp_proc_store; [apply lookup_insert_eq|]. apply wp_bind. eapply wp_proc_list_add; [done|apply lookup_insert_eq|]. apply wp_ret.
    simpl in *. by rewrite !insert_insert_eq.
  - apply wp_ret, wp_bind. eapply wp_proc_list_add; [done|apply lookup_insert_eq|]. apply wp_ret. simpl in *. by rewrite !insert_insert_eq.
Qed.
End spec.
