(* ===== verification/TaskArgs.v ===== *)
(** Copies of argument strings: what [dup_string_array] allocates is freed by
    [free_string_array], and nothing else. *)
From S2P Require Import Prelude Errno Sync SList Task TaskSpec.

#[local] Arguments loop : simpl never.
#[local] Arguments for_n : simpl never.

(** The array at [a] of the strings [l], with the memory it consists of. *)
Definition strarr (a count : Z) (l : list (list Z)) (ms : gmap Z (list Z)) (ma : gmap Z (list Z)) : Prop :=
  (a = 0 ∧ l = [] ∧ ms = ∅ ∧ ma = ∅) ∨
  (a ≠ 0 ∧ count = Z.of_nat (length l) ∧ ∃ ptrs, ma = {[a := ptrs]} ∧ dom ms = list_to_set ptrs ∧ NoDup ptrs ∧ Forall (λ p, p ≠ 0) ptrs ∧
    Forall2 (λ p c, ms !! p = Some c) ptrs l).

Section args.
Context `{TaskDeps E}.
Local Abbreviation St := (task_state E).
Implicit Types s : St.

Lemma wp_arr_load s a l i v (Q : Z → St → Prop) : arrs s !! a = Some l → l !! Z.to_nat i = Some v → Q v s → wp (arr_load a i) Q s.
Proof. unfold wp, arr_load. by intros -> ->. Qed.
Lemma wp_arr_store s a l i v w (Q : unit → St → Prop) :
  arrs s !! a = Some l → l !! Z.to_nat i = Some w → Q tt (put_arrs (<[a := <[Z.to_nat i := v]> l]> (arrs s)) s) → wp (arr_store a i v) Q s.
Proof. unfold wp, arr_store. by intros -> ->. Qed.
Lemma wp_str_load s p c (Q : list Z → St → Prop) : strs s !! p = Some c → Q c s → wp (str_load p) Q s.
Proof. unfold wp, str_load. by intros ->. Qed.
Lemma wp_free_str s p c (Q : unit → St → Prop) : p ≠ 0 → strs s !! p = Some c → Q tt (put_strs (delete p (strs s)) s) → wp (free_str p) Q s.
Proof. unfold wp, free_str. intros Hp%Z.eqb_neq. rewrite Hp. by intros ->. Qed.
Lemma wp_free_arr s p c (Q : unit → St → Prop) : arrs s !! p = Some c → Q tt (put_arrs (delete p (arrs s)) s) → wp (free_arr p) Q s.
Proof. unfold wp, free_arr. by intros ->. Qed.

(** ** Freeing *)

(** The first [n] pointers of an array, whose strings are the rest of [strs]. *)
Lemma wp_free_strings s a l ptrs n m S (Q : unit → St → Prop) :
  arrs s !! a = Some l → take n l = ptrs → length ptrs = n → NoDup ptrs → Forall (λ p, p ≠ 0) ptrs →
  strs s = m ∪ S → m ##ₘ S → dom m = list_to_set ptrs → Q tt (put_strs S s) → wp (free_strings a n) Q s.
Proof.
  intros Ha Ht Hn Hnd Hne Hs Hdisj Hdom HQ. unfold free_strings.
  apply (wp_for_n (λ i s', ∃ m', s' = put_strs (m' ∪ S) s ∧ m' ##ₘ S ∧ dom m' = list_to_set (drop (Z.to_nat i) ptrs))).
  - exists m. split_and!; [rewrite <-Hs; by destruct s|done|done].
  - intros i s' Hi (m' & -> & Hd & Hm). destruct (lookup_lt_is_Some_2 ptrs (Z.to_nat i)) as [p Hp]; [lia|]. apply wp_bind.
    eapply wp_arr_load; [exact Ha|rewrite <-Ht, lookup_take_lt in Hp by lia; exact Hp|].
    rewrite (drop_S _ _ _ Hp) in Hm. assert (is_Some (m' !! p)) as [c Hc] by (apply elem_of_dom; set_solver).
    assert (S !! p = None) as HSp by (by eapply map_disjoint_Some_l).
    eapply wp_free_str; [|simpl; by apply lookup_union_Some_l|]. { rewrite Forall_lookup in Hne. by eapply Hne. }
    exists (delete p m'). split_and!.
    + simpl. rewrite delete_union, (delete_id S) by done. done.
    + by apply map_disjoint_delete_l.
    + rewrite dom_delete_L, Hm. replace (Z.to_nat (i + 1)) with (Datatypes.S (Z.to_nat i)) by lia. simpl.
      assert (p ∉ drop (Datatypes.S (Z.to_nat i)) ptrs) as Hno.
      { rewrite <-(take_drop_middle _ _ _ Hp) in Hnd. apply NoDup_app in Hnd as (_ & _ & Hnd). by apply NoDup_cons in Hnd as [? _]. }
      apply leibniz_equiv. intros q. rewrite elem_of_difference, elem_of_union, elem_of_singleton, !elem_of_list_to_set.
      split; [intros [[->|?] ?]; done|]. intros Hq. split; [by right|]. by intros ->.
  - intros s' (m' & -> & _ & Hm). rewrite drop_ge in Hm by lia. apply dom_empty_inv_L in Hm as ->. by rewrite map_empty_union.
Qed.
Lemma wp_free_string_array s a n l ms ma S A (Q : unit → St → Prop) :
  strarr a n l ms ma → strs s = ms ∪ S → ms ##ₘ S → arrs s = ma ∪ A → ma ##ₘ A → Q tt (put_arrs A (put_strs S s)) → wp (free_string_array a n) Q s.
Proof.
  intros [(-> & -> & -> & ->)|(Ha & -> & ptrs & -> & Hdom & Hnd & Hne & Hl)] Hs Hds Har Hda HQ; unfold free_string_array.
  - simpl. apply wp_ret. rewrite map_empty_union in Hs, Har. destruct s; simpl in *; by subst.
  - rewrite (proj2 (Z.eqb_neq _ _) Ha). apply wp_bind. pose proof (Forall2_length _ _ _ Hl) as Hlen. rewrite Nat2Z.id, <-Hlen.
    assert (A !! a = None) as HAa by (eapply map_disjoint_Some_l; [done|apply lookup_singleton_eq]).
    eapply (wp_free_strings _ a ptrs ptrs); try done.
    + rewrite Har. apply lookup_union_Some_l, lookup_singleton_eq.
    + by apply take_ge.
    + eapply wp_free_arr; [simpl; rewrite Har; apply lookup_union_Some_l, lookup_singleton_eq|]. simpl. rewrite Har.
      rewrite delete_union, delete_singleton_eq, (delete_id A), map_empty_union by done. exact HQ.
Qed.

(** ** Copying *)

(** An array that can be read, with its strings. *)
Definition readable_args s (a count : Z) (l : list (list Z)) : Prop :=
  a ≠ 0 → 0 < count → count = Z.of_nat (length l) ∧ ∃ ptrs, arrs s !! a = Some ptrs ∧ Forall2 (λ p c, strs s !! p = Some c) ptrs l.
(** The strings that a copy of [count] has: none when there is nothing to copy. *)
Definition copied (a count : Z) (l : list (list Z)) : list (list Z) := if (a =? 0) || (count <=? 0) then [] else l.

(** More objects in [strs] and [arrs]. *)
Definition grown s (ms ma : gmap Z (list Z)) r : St := put_strs (ms ∪ strs s) (put_arrs (ma ∪ arrs s) (put_allocs r s)).
Lemma used_grown s ms ma r : used (grown s ms ma r) = used s ∪ dom ms ∪ dom ma.
Proof. unfold used. simpl. rewrite !dom_union_L. set_solver. Qed.

(** A state in the middle of the loop: [qs] are copies of the first strings. *)
Definition copying s (dst : Z) (l : list (list Z)) (i : Z) s' : Prop := ∃ qs m r,
  s' = grown s m {[dst := qs ++ replicate (length l - length qs) 0]} r ∧ dst ∉ used s ∧ i = Z.of_nat (length qs) ∧ (length qs ≤ length l)%nat ∧
  dom m = list_to_set qs ∧ NoDup qs ∧ Forall (λ p, p ≠ 0) qs ∧ Forall2 (λ p c, m !! p = Some c) qs (take (length qs) l) ∧ m ##ₘ strs s ∧ heap_ok s' ∧ r `suffix_of` allocs s.
Lemma insert_grown s m dst (l l' : list Z) r : put_arrs (<[dst := l']> ({[dst := l]} ∪ arrs s)) (grown s m {[dst := l]} r) = grown s m {[dst := l']} r.
Proof. unfold grown. destruct s; simpl. by rewrite insert_union_singleton_l, map_union_assoc, <-insert_union_singleton_l, insert_singleton_eq. Qed.

Definition dup_post s l (r : Z + Z) s' (dst i : Z) : Prop :=
  match r with
  | inl j => j = i + 1 ∧ copying s dst l j s'
  | inr q => (q = 0 ∧ ∃ r, s' = put_allocs r s ∧ heap_ok s' ∧ denied (allocs s) r) ∨ (q = dst ∧ copying s dst l i s' ∧ i = Z.of_nat (length l))
  end.
Lemma wp_dup_round s src dst ptrs l i s' :
  arrs s !! src = Some ptrs → Forall2 (λ p c, strs s !! p = Some c) ptrs l → dst ≠ 0 → copying s dst l i s' →
  wp (dup_round src dst (Z.of_nat (length l)) i) (λ r s'', dup_post s l r s'' dst i) s'.
Proof.
  intros Hsrc Hl Hdst Hcop. pose proof Hcop as (qs & m & r & -> & Hfr & Hi & Hlen & Hdom & Hnd & Hne & Hqs & Hd & Hok & Hsuf). unfold dup_round.
  destruct (Z.ltb_spec i (Z.of_nat (length l))) as [Hlt|Hge]; simpl; [|apply wp_ret; right; split_and!; [done|done|lia]].
  assert (length ptrs = length l) as Hpl by (by eapply Forall2_length).
  destruct (lookup_lt_is_Some_2 ptrs (length qs)) as [p Hp]; [lia|]. destruct (Forall2_lookup_l _ _ _ _ _ Hl Hp) as (c & Hc & Hpc).
  assert (dst ≠ src) as Hds. { intros ->. apply Hfr. unfold used. apply elem_of_union_r, elem_of_dom. by eexists. }
  apply wp_bind. eapply wp_arr_load; [simpl; rewrite lookup_union_r; [done|by apply lookup_singleton_ne]|rewrite Hi, Nat2Z.id; exact Hp|].
  apply wp_bind. eapply wp_str_load; [simpl; rewrite lookup_union_r; [done|]; by eapply map_disjoint_Some_r|].
  set (row := qs ++ replicate (length l - length qs) 0) in *. set (s1 := grown s m {[dst := row]} r) in *. apply wp_bind.
  assert (row !! length qs = Some 0) as Hrow.
  { unfold row. rewrite lookup_app_r, Nat.sub_diag by lia. apply lookup_replicate. split; [done|lia]. }
  assert (∀ s2 q (Q : unit → St → Prop), arrs s2 = {[dst := row]} ∪ arrs s →
    Q tt (put_arrs (<[dst := <[length qs := q]> row]> ({[dst := row]} ∪ arrs s)) s2) → wp (arr_store dst i q) Q s2) as Hstore.
  { intros s2 q Q Ha HQ. eapply wp_arr_store; [rewrite Ha; apply lookup_union_Some_l, lookup_singleton_eq|by rewrite Hi, Nat2Z.id|].
    rewrite Ha, Hi, Nat2Z.id. exact HQ. }
  apply wp_task_kalloc; [done| |].
  - intros r' Hden Hok'. apply wp_bind, Hstore; [done|]. simpl. apply wp_bind. change (put_allocs r' s1) with (grown s m {[dst := row]} r'). rewrite insert_grown.
    eapply (wp_free_strings _ dst _ qs (Z.to_nat i) m (strs s)); simpl; try done.
    + apply lookup_union_Some_l, lookup_singleton_eq.
    + rewrite Hi, Nat2Z.id. unfold row. rewrite insert_app_r_alt, Nat.sub_diag by lia. apply take_app_length.
    + lia.
    + apply wp_bind. eapply wp_free_arr; [apply lookup_union_Some_l, lookup_singleton_eq|]. apply wp_ret. left. split; [done|]. exists r'.
      assert (arrs s !! dst = None) as Hno. { apply not_elem_of_dom. intros Hin. apply Hfr. unfold used. by apply elem_of_union_r. }
      simpl. rewrite delete_union, delete_singleton_eq, (delete_id (arrs s)), map_empty_union by done.
      split_and!; [by destruct s| |by eapply denied_suffix]. eapply (heap_ok_mono _ _ Hok'); [done|]. unfold used, s1. simpl. rewrite !dom_union_L. set_solver.
  - intros q r' Hal Hq Hfq Hok'. apply wp_bind, Hstore; [done|]. rewrite (proj2 (Z.eqb_neq _ _) Hq). apply wp_bind, wp_modify, wp_ret. split; [done|].
    assert (used s1 = used s ∪ dom m ∪ {[dst]}) as Hus by (unfold s1; rewrite used_grown, dom_singleton_L; done).
    assert (q ∉ qs) as Hqq. { intros Hin. apply Hfq. rewrite Hus, Hdom. set_solver. }
    assert (m !! q = None) as Hmq by (apply not_elem_of_dom; rewrite Hdom, elem_of_list_to_set; done).
    change (put_allocs r' s1) with (grown s m {[dst := row]} r'). rewrite insert_grown.
    exists (qs ++ [q]), (<[q := c]> m), r'. assert (length (qs ++ [q]) = S (length qs)) as Hlq by (rewrite length_app; simpl; lia). rewrite Hlq.
    assert (grown s m {[dst := <[length qs := q]> row]} r' = grown s m {[dst := (qs ++ [q]) ++ replicate (length l - S (length qs)) 0]} r') as ->.
    { f_equal. f_equal. unfold row. rewrite insert_app_r_alt, Nat.sub_diag by lia. replace (length l - length qs)%nat with (S (length l - S (length qs))) by lia.
      simpl. by rewrite <-app_assoc. }
    assert (strs s !! q = None) as Hsq. { apply not_elem_of_dom. intros Hin. apply Hfq. rewrite Hus. unfold used. set_solver. }
    split_and!; [|done|lia|lia| | | | | | |].
    + unfold grown. simpl. by rewrite insert_union_l.
    + rewrite dom_insert_L, Hdom, list_to_set_app_L. set_solver.
    + apply NoDup_app. split_and!; [done|set_solver|apply NoDup_singleton].
    + apply Forall_app. split; [done|]. by constructor.
    + rewrite (take_S_r _ _ _ Hc). apply Forall2_app.
      * eapply Forall2_impl; [exact Hqs|]. intros p' c' Hp'. simpl in Hp'. rewrite lookup_insert_ne; [done|]. congruence.
      * constructor; [apply lookup_insert_eq|constructor].
    + by apply map_disjoint_insert_l_2.
    + apply Hok'; [done|]. rewrite Hus. unfold used. simpl. rewrite !dom_insert_L, !dom_union_L, dom_singleton_L. set_solver.
    + etrans; [|exact Hsuf]. change (allocs s1) with r in Hal. rewrite Hal. by apply suffix_cons_r.
Qed.

Definition nothing (a count : Z) : bool := (a =? 0) || (count <=? 0).
Lemma wp_dup_string_array s src count l (Q : Z → St → Prop) :
  heap_ok s → readable_args s src count l →
  (∀ r, nothing src count = false → denied (allocs s) r → heap_ok (put_allocs r s) → Q 0 (put_allocs r s)) →
  (∀ q ms ma r, strarr q count (copied src count l) ms ma → (q =? 0) = nothing src count → ms ##ₘ strs s → ma ##ₘ arrs s → r `suffix_of` allocs s →
     heap_ok (grown s ms ma r) → Q q (grown s ms ma r)) → wp (dup_string_array src count) Q s.
Proof.
  intros Hok Hread H0 H1. unfold dup_string_array. fold (nothing src count). unfold copied in H1. fold (nothing src count) in H1.
  destruct (nothing src count) eqn:Hn.
  { apply wp_ret. specialize (H1 0 ∅ ∅ (allocs s)). unfold grown in H1. rewrite !map_empty_union in H1.
    replace (put_strs _ _) with s in H1 by (by destruct s). apply H1; try done; [by left|apply map_disjoint_empty_l..]. }
  apply orb_false_iff in Hn as [Hs Hc]. destruct Hread as (-> & ptrs & Hsrc & Hl); [lia|lia|]. apply wp_bind. apply wp_task_kalloc; [done|by intros; apply wp_ret, H0|].
  intros dst r Hal Hdst Hfr Hok'. rewrite (proj2 (Z.eqb_neq _ _) Hdst). apply wp_bind, wp_modify. rewrite Nat2Z.id.
  assert (arrs s !! dst = None) as Hna. { apply not_elem_of_dom. intros Hin. apply Hfr. unfold used. by apply elem_of_union_r. }
  apply (wp_loop (λ n i s', copying s dst l i s' ∧ n = Z.to_nat (Z.of_nat (length l) - i)) _ _ (length l)); [lia| |].
  { split; [|lia]. exists [], ∅, r. assert (put_arrs (<[dst:=replicate (length l) 0]> (arrs s)) (put_allocs r s) =
      grown s ∅ {[dst := [] ++ replicate (length l - length (@nil Z)) 0]} r) as Heq.
    { unfold grown. simpl. rewrite map_empty_union, Nat.sub_0_r, insert_union_singleton_l. by destruct s. }
    rewrite <-Heq. simpl. split_and!; try done; try lia; try apply NoDup_nil_2; try apply map_disjoint_empty_l.
    - apply Hok'; [done|]. unfold used. simpl. rewrite dom_insert_L. set_solver.
    - rewrite Hal. by apply suffix_cons_r. }
  intros n i s' [Hcop ->]. eapply wp_mono; [by eapply wp_dup_round|]. intros [j|q] s''.
  - intros [-> Hcop']. exists (Z.to_nat (Z.of_nat (length l) - (i + 1))). split; [|done].
    destruct Hcop' as (qs & ? & ? & _ & _ & ? & ? & _). lia.
  - intros [(-> & r' & -> & Hok2 & Hden)|(-> & Hcop' & ->)]; [by apply H0|].
    destruct Hcop' as (qs & m & r' & -> & Hfd & Hi & _ & Hdom & Hnd & Hne & Hqs & Hd & Hok2 & Hsuf).
    assert (length qs = length l) as Hlen by lia. rewrite Hlen, Nat.sub_diag in *. simpl in *. rewrite app_nil_r in *.
    apply H1; [|by apply Z.eqb_neq|done| |done|done].
    + right. split_and!; [done|done|]. exists qs. split_and!; try done. by rewrite take_ge in Hqs by lia.
    + apply map_disjoint_singleton_l_2. done.
Qed.

(** The arrays of a process are its own: [S] and [A] are the others. *)
Definition owns_args s (x : proc_t) (la le : list (list Z)) (S A : gmap Z (list Z)) : Prop := ∃ ms1 ma1 ms2 ma2,
  strarr (argv x) (argc x) la ms1 ma1 ∧ strarr (envp x) (envc x) le ms2 ma2 ∧
  strs s = ms1 ∪ (ms2 ∪ S) ∧ ms1 ##ₘ ms2 ∪ S ∧ ms2 ##ₘ S ∧ arrs s = ma1 ∪ (ma2 ∪ A) ∧ ma1 ##ₘ ma2 ∪ A ∧ ma2 ##ₘ A.
Lemma owns_none s x : argv x = 0 → envp x = 0 → owns_args s x [] [] (strs s) (arrs s).
Proof.
  intros Ha He. exists ∅, ∅, ∅, ∅. rewrite Ha, He, !map_empty_union. split_and!; try done; try apply map_disjoint_empty_l; left; done.
Qed.
Lemma owns_args_sub s x la le S A : owns_args s x la le S A → dom S ⊆ dom (strs s) ∧ dom A ⊆ dom (arrs s).
Proof. intros (? & ? & ? & ? & _ & _ & -> & _ & _ & -> & _). rewrite !dom_union_L. set_solver. Qed.
Lemma wp_free_args s x la le S A (Q : unit → St → Prop) :
  owns_args s x la le S A → Q tt (put_arrs A (put_strs S s)) →
  wp (free_string_array (argv x) (argc x) ;; free_string_array (envp x) (envc x)) Q s.
Proof.
  intros (ms1 & ma1 & ms2 & ma2 & H1 & H2 & Hs & Hd1 & Hd2 & Ha & Hd3 & Hd4) HQ. apply wp_bind.
  eapply wp_free_string_array; [exact H1|exact Hs|done|exact Ha|done|]. eapply wp_free_string_array; [exact H2|done|done|done|done|].
  by destruct s.
Qed.

Lemma readable_grown s ms ma r a count l : readable_args s a count l → ms ##ₘ strs s → ma ##ₘ arrs s → readable_args (grown s ms ma r) a count l.
Proof.
  intros Hr Hms Hma Ha Hc. destruct (Hr Ha Hc) as (-> & ptrs & Hp & Hl). split; [done|]. exists ptrs. split.
  - simpl. rewrite lookup_union_r; [done|]. by eapply map_disjoint_Some_r.
  - eapply Forall2_impl; [exact Hl|]. intros p c Hpc. simpl in *. rewrite lookup_union_r; [done|]. exact (map_disjoint_Some_r _ _ _ _ Hms Hpc).
Qed.

(** The fields that [copy_argv_envp] writes. *)
Definition with_args (x : proc_t) (a n e m : Z) : proc_t := set_envc m (set_envp e (set_argc n (set_argv a x))).
Lemma wp_copy_argv_envp s dst x a n e m la le (Q : Z → St → Prop) :
  heap_ok s → procs s !! dst = Some x → readable_args s a n la → readable_args s e m le →
  (∀ r, denied (allocs s) r → heap_ok (put_allocs r s) → Q (- ENOMEM) (put_allocs r s)) →
  (∀ a' e' ms ma r, let s' := put_procs (<[dst := with_args x a' n e' m]> (procs s)) (grown s ms ma r) in
     owns_args s' (with_args x a' n e' m) (copied a n la) (copied e m le) (strs s) (arrs s) → heap_ok s' → Q EOK s') →
  wp (copy_argv_envp dst a n e m) Q s.
Proof.
  intros Hok Hx Hra Hre H0 H1. unfold copy_argv_envp. assert (∀ a' n', negb (a' =? 0) && (n' >? 0) = negb (nothing a' n')) as Hneg.
  { intros a' n'. unfold nothing. rewrite negb_orb. f_equal. rewrite Z.gtb_ltb. destruct (Z.ltb_spec 0 n'), (Z.leb_spec n' 0); try done; lia. }
  apply wp_bind. apply (wp_dup_string_array _ _ _ la); [done|done| |].
  { intros r Hn Hden Hok'. rewrite Hneg, Hn. simpl. by apply wp_ret, H0. }
  intros a' ms1 ma1 r1 Hsa Ha0 Hd1 Hd2 Hsuf1 Hok1. rewrite Hneg, Ha0, andb_negb_l. apply wp_bind.
  apply (wp_dup_string_array _ _ _ le); [done|by apply readable_grown| |].
  - intros r Hn Hden Hok'. rewrite Hneg, Hn. simpl. apply wp_bind. eapply wp_free_string_array; [exact Hsa|done|done|done|done|]. apply wp_ret.
    replace (put_arrs _ _) with (put_allocs r s) by (by destruct s). apply H0; [by eapply denied_suffix|]. eapply (heap_ok_mono _ _ Hok'); [done|].
    unfold used. simpl. rewrite !dom_union_L. set_solver.
  - intros e' ms2 ma2 r Hse He0 Hd3 Hd4 _ Hok2. rewrite Hneg, He0, andb_negb_l. apply wp_bind. eapply wp_proc_store; [done|]. apply wp_ret.
    assert (grown (grown s ms1 ma1 r1) ms2 ma2 r = grown s (ms2 ∪ ms1) (ma2 ∪ ma1) r) as ->.
    { unfold grown. simpl. by rewrite !map_union_assoc. }
    simpl in Hd3, Hd4. apply map_disjoint_union_r in Hd3 as [Hd3 Hd3'], Hd4 as [Hd4 Hd4'].
    apply (H1 a' e').
    + exists ms1, ma1, ms2, ma2. simpl. split_and!; try done; try (by apply map_disjoint_union_r).
      * rewrite (map_union_comm ms2 ms1) by done. by rewrite map_union_assoc.
      * rewrite (map_union_comm ma2 ma1) by done. by rewrite map_union_assoc.
    + eapply (heap_ok_mono _ _ Hok2); [done|]. unfold used. simpl. rewrite !dom_union_L, dom_insert_L.
      assert (dst ∈ dom (procs s)) by (apply elem_of_dom; by eexists). set_solver.
Qed.

Lemma wp_drop_args s p x la le S A (Q : unit → St → Prop) :
  procs s !! p = Some x → owns_args s x la le S A →
  Q tt (put_procs (<[p := with_args x 0 0 0 0]> (procs s)) (put_arrs A (put_strs S s))) → wp (drop_args p) Q s.
Proof.
  intros Hx (ms1 & ma1 & ms2 & ma2 & H1 & H2 & Hs & Hd1 & Hd2 & Ha & Hd3 & Hd4) HQ. apply wp_bind. eapply wp_proc_load; [done|]. apply wp_bind.
  eapply wp_free_string_array; [exact H1|exact Hs|done|exact Ha|done|]. apply wp_bind. eapply wp_proc_load; [done|]. apply wp_bind.
  eapply wp_free_string_array; [exact H2|done|done|done|done|]. eapply wp_proc_store; [done|]. by destruct s.
Qed.
End args.
