(* ===== verification/TaskStack.v ===== *)
(** Kernel stacks and new threads: what is on the stack of a new thread, and what
    is given back when there is no memory for it. *)
From S2P Require Import Prelude Errno Sync SList Task TaskSpec.

#[local] Arguments loop : simpl never.
#[local] Arguments for_n : simpl never.
#[local] Arguments Z.mul : simpl never.
#[local] Arguments Z.add : simpl never.
#[local] Arguments Z.sub : simpl never.

(** * Words *)

(** The words [vs] are in memory from [a] on. *)
Definition holds (m : gmap Z Z) (a : Z) (vs : list Z) : Prop := ∀ i v, vs !! i = Some v → m !! (a + 8 * Z.of_nat i) = Some v.
Definition mapped (m : gmap Z Z) (a n : Z) : Prop := ∀ i, 0 ≤ i < n → is_Some (m !! (a + 8 * i)).
(** Only words from [lo] up to [hi] change, and none gets lost. *)
Definition changed (m m' : gmap Z Z) (lo hi : Z) : Prop :=
  (∀ a, a < lo ∨ hi ≤ a → m' !! a = m !! a) ∧ ∀ a, is_Some (m !! a) → is_Some (m' !! a).
Lemma changed_refl m lo hi : changed m m lo hi.
Proof. done. Qed.
Lemma changed_trans m m' m'' lo hi : changed m m' lo hi → changed m' m'' lo hi → changed m m'' lo hi.
Proof. intros [H1 H2] [H3 H4]. split; [intros a Ha; by rewrite H3, H1|auto]. Qed.
Lemma changed_mono m m' lo hi lo' hi' : changed m m' lo hi → lo' ≤ lo → hi ≤ hi' → changed m m' lo' hi'.
Proof. intros [H1 H2] Hl Hh. split; [|done]. intros a Ha. apply H1. lia. Qed.
Lemma changed_insert m a v w lo hi : m !! a = Some w → lo ≤ a < hi → changed m (<[a := v]> m) lo hi.
Proof.
  intros Ha Hb. split; [intros b Hb'; apply lookup_insert_ne; lia|]. intros b Hb'.
  destruct (decide (a = b)) as [->|]; [rewrite lookup_insert_eq; by eexists|by rewrite lookup_insert_ne].
Qed.
Lemma changed_mapped m m' lo hi a n : changed m m' lo hi → mapped m a n → mapped m' a n.
Proof. intros [_ H] Hm i Hi. by apply H, Hm. Qed.
Lemma changed_holds m m' lo hi a vs : changed m m' lo hi → a + 8 * Z.of_nat (length vs) ≤ lo ∨ hi ≤ a → holds m a vs → holds m' a vs.
Proof. intros [H _] Ha Hm i v Hv. pose proof (lookup_lt_Some _ _ _ Hv). rewrite H by lia. by apply Hm. Qed.

Lemma zero_words_mapped base n m : mapped (zero_words base n m) base (Z.of_nat n).
Proof.
  intros i Hi. unfold zero_words. assert (∀ l, Z.to_nat i ∈ l → is_Some (foldr (λ j, <[base + 8 * Z.of_nat j := 0]>) m l !! (base + 8 * i))) as Hall.
  { induction l as [|j l IH]; intros Hin; [by apply elem_of_nil in Hin|]. simpl. destruct (decide (base + 8 * Z.of_nat j = base + 8 * i)) as [->|Hne];
      [rewrite lookup_insert_eq; by eexists|]. rewrite lookup_insert_ne by done. apply IH. apply elem_of_cons in Hin as [Hin|Hin]; [lia|done]. }
  apply Hall, elem_of_seq. lia.
Qed.
Lemma zero_words_changed base n m : changed m (zero_words base n m) base (base + 8 * Z.of_nat n).
Proof.
  unfold zero_words. assert (∀ l, Forall (λ j, (j < n)%nat) l → changed m (foldr (λ j, <[base + 8 * Z.of_nat j := 0]>) m l) base (base + 8 * Z.of_nat n)) as Hall.
  { induction 1 as [|j l Hj _ [IH1 IH2]]; [done|]. simpl. split.
    - intros a Ha. rewrite lookup_insert_ne by lia. by apply IH1.
    - intros a Ha. destruct (decide (base + 8 * Z.of_nat j = a)) as [->|]; [rewrite lookup_insert_eq; by eexists|]. rewrite lookup_insert_ne by done. by apply IH2. }
  apply Hall, Forall_forall. intros j Hj%elem_of_seq. lia.
Qed.

Section stack.
Context (me hhdm_offset thread_bootstrap_trampoline fork_child_entry user_stub : Z).
Context `{TaskLaws hhdm_offset E}.
Local Abbreviation St := (task_state E).
Implicit Types s : St.

Lemma wp_stack_store s a v w (Q : unit → St → Prop) : words s !! a = Some w → Q tt (put_words (<[a := v]> (words s)) s) → wp (store_word a v) Q s.
Proof. unfold wp, store_word. by intros ->. Qed.

Lemma wp_push s sp vs (Q : Z → St → Prop) :
  mapped (words s) (sp - 8 * Z.of_nat (length vs)) (Z.of_nat (length vs)) → 8 * Z.of_nat (length vs) ≤ sp < 2 ^ 64 →
  (∀ m', holds m' (sp - 8 * Z.of_nat (length vs)) (reverse vs) → changed (words s) m' (sp - 8 * Z.of_nat (length vs)) sp →
     Q (sp - 8 * Z.of_nat (length vs)) (put_words m' s)) → wp (push sp vs) Q s.
Proof.
  revert s sp. induction vs as [|v vs IH]; intros s sp Hm Hb HQ.
  - simpl. apply wp_ret. specialize (HQ (words s)). simpl in HQ. replace (sp - 8 * Z.of_nat 0) with sp in HQ by lia.
    replace (put_words (words s) s) with s in HQ by (by destruct s). apply HQ; [by intros i w Hw|apply changed_refl].
  - cbn [push length] in *. set (n := Z.of_nat (length vs)) in *. replace (Z.of_nat (S (length vs))) with (n + 1) in * by lia.
    rewrite u64_id by lia. apply wp_bind. destruct (Hm n) as [w Hw]; [lia|]. replace (sp - 8 * (n + 1) + 8 * n) with (sp - 8) in Hw by lia.
    eapply wp_stack_store; [done|]. assert (changed (words s) (<[sp - 8 := v]> (words s)) (sp - 8) sp) as Hc by (eapply changed_insert; [done|lia]).
    apply IH; fold n; replace (sp - 8 - 8 * n) with (sp - 8 * (n + 1)) by lia.
    + intros i Hi. eapply changed_mapped; [exact Hc|exact Hm|lia].
    + lia.
    + intros m' Hh Hc'. simpl in *. specialize (HQ m'). apply HQ.
      * intros i u. rewrite reverse_cons. intros [Hu|[Hu Hi]]%lookup_app_Some; [by apply Hh|].
        rewrite length_reverse in *. destruct (i - length vs)%nat eqn:Hz; [|done]. simpl in Hi. injection Hi as <-.
        destruct Hc' as [Hc' _]. rewrite Hc' by lia. replace (sp - 8 * (n + 1) + 8 * Z.of_nat i) with (sp - 8) by lia. apply lookup_insert_eq.
      * eapply changed_trans; [eapply changed_mono; [exact Hc|lia|lia]|eapply changed_mono; [exact Hc'|lia|lia]].
Qed.

Lemma wp_store_words s a vs (Q : unit → St → Prop) :
  mapped (words s) a (Z.of_nat (length vs)) → 0 ≤ a → a + 8 * Z.of_nat (length vs) ≤ 2 ^ 64 →
  (∀ m', holds m' a vs → changed (words s) m' a (a + 8 * Z.of_nat (length vs)) → Q tt (put_words m' s)) → wp (store_words a vs) Q s.
Proof.
  intros Hm Ha Hb HQ. unfold store_words. set (n := Z.of_nat (length vs)) in *.
  apply (wp_for_n (λ i s', ∃ m', s' = put_words m' s ∧ holds m' a (take (Z.to_nat i) vs) ∧ changed (words s) m' a (a + 8 * n))).
  - exists (words s). split_and!; [by destruct s|by intros i v Hv|apply changed_refl].
  - intros i s' Hi (m' & -> & Hh & Hc). destruct (lookup_lt_is_Some_2 vs (Z.to_nat i)) as [v Hv]; [lia|]. rewrite Hv, u64_id by lia.
    destruct (changed_mapped _ _ _ _ _ _ Hc Hm i) as [w Hw]; [lia|]. eapply wp_stack_store; [exact Hw|]. simpl.
    exists (<[a + 8 * i := v]> m'). split_and!; [done| |eapply changed_trans; [exact Hc|]; eapply changed_insert; [done|lia]].
    intros j u Hu. replace (Z.to_nat (i + 1)) with (S (Z.to_nat i)) in Hu by lia. rewrite (take_S_r _ _ _ Hv) in Hu.
    apply lookup_app_Some in Hu as [Hu|[Hj Hu]].
    + pose proof (lookup_lt_Some _ _ _ Hu) as Hlt. rewrite length_take in Hlt. rewrite lookup_insert_ne by lia. by apply Hh.
    + rewrite length_take in *. destruct (j - _)%nat eqn:Hz; [|done]. simpl in Hu. injection Hu as <-. replace (Z.of_nat j) with i by lia. apply lookup_insert_eq.
  - intros s' (m' & -> & Hh & Hc). apply HQ; [|done]. rewrite take_ge in Hh by lia. done.
Qed.

(** What the stack of a new thread begins with, from its stack pointer up. *)
Definition frame (return_addr rbx_val r12_val : Z) : list Z := [0x202; 0; 0; 0; r12_val; rbx_val; 0; return_addr].
Lemma wp_bootstrap s top ret b r (Q : Z → St → Prop) :
  mapped (words s) (top - 64) 8 → 64 ≤ top < 2 ^ 64 →
  (∀ m', holds m' (top - 64) (frame ret b r) → changed (words s) m' (top - 64) top → Q (top - 64) (put_words m' s)) →
  wp (build_bootstrap_frame top ret b r) Q s.
Proof. intros Hm Hb HQ. by apply wp_push. Qed.
(** Switching to such a stack. *)
Lemma switch_frame m a ret b r : holds m a (frame ret b r) → context_switch_in m a = Some (mkRegs 0x202 0 0 0 r b 0 ret (a + 64)).
Proof.
  intros Hh. unfold context_switch_in. cbv zeta.
  rewrite (Hh 0%nat _ eq_refl : m !! (a + 8 * 0) = _), (Hh 1%nat _ eq_refl : m !! (a + 8 * 1) = _), (Hh 2%nat _ eq_refl : m !! (a + 8 * 2) = _),
    (Hh 3%nat _ eq_refl : m !! (a + 8 * 3) = _), (Hh 4%nat _ eq_refl : m !! (a + 8 * 4) = _), (Hh 5%nat _ eq_refl : m !! (a + 8 * 5) = _),
    (Hh 6%nat _ eq_refl : m !! (a + 8 * 6) = _), (Hh 7%nat _ eq_refl : m !! (a + 8 * 7) = _). done.
Qed.

(** * Allocation *)

(** Only the environment differs, and it is as it was. *)
Definition base_of (pg : Z) : Z := stack_at hhdm_offset (phys_of pg).
Lemma wp_kstack_alloc s (Q : Z → St → Prop) :
  env_ok (env s) →
  (∀ e', env_ok e' → view e' = view (env s) → Q 0 (put_env e' s)) →
  (∀ pg e' m', env_ok e' → pg ∉ stacks (view (env s)) → view e' = upd_stacks (λ S, {[pg]} ∪ S) (view (env s)) →
     stack_fits hhdm_offset (phys_of pg) 64 → mapped m' (base_of pg) 32768 → changed (words s) m' (base_of pg) (base_of pg + KSTACK_SIZE) →
     Q (base_of pg) (put_words m' (put_env e' s))) →
  wp (kstack_alloc hhdm_offset KSTACK_SIZE) Q s.
Proof.
  intros Hok H0' H1'. apply wp_bind, wp_zoom. eapply wp_mono; [apply law_alloc_pages; [done|vm_compute; done]|].
  intros pg e1 (Hok1 & Hcr & Hfit). destruct Hcr as [[-> Hv]|(Hpg & Hnew & Hv)]; [by apply wp_ret, H0'|]. specialize (Hfit Hpg). change (KSTACK_SIZE / PAGE_SIZE) with 64 in Hfit.
  rewrite (proj2 (Z.eqb_neq _ _) Hpg). apply wp_bind, wp_zoom. eapply wp_mono; [apply law_page_to_phys; [done|]|].
  { simpl. rewrite Hv. simpl. set_solver. }
  intros v e2 [-> ->]. apply wp_bind, wp_modify, wp_ret. pose proof Hfit as (Hp & Hpos & Htop & Hal). unfold stack_at in Hp, Hpos, Htop.
  rewrite u64_id by (unfold PAGE_SIZE in *; lia). fold (stack_at hhdm_offset (phys_of pg)). fold (base_of pg).
  assert (∃ n, n = Z.to_nat (KSTACK_SIZE / 8) ∧ Z.of_nat n = 32768) as (n & Hn & Hz) by (eexists; split; [reflexivity|by rewrite Z2Nat.id]).
  rewrite <-Hn. apply (H1' pg e1); [exact Hok1|exact Hnew|exact Hv|exact Hfit| |].
  - rewrite <-Hz. apply zero_words_mapped.
  - replace KSTACK_SIZE with (8 * Z.of_nat n) by (rewrite Hz; reflexivity). apply zero_words_changed.
Qed.
Lemma base_ne0 pg : stack_fits hhdm_offset (phys_of pg) 64 → base_of pg ≠ 0.
Proof. intros (_ & ? & _). unfold base_of. lia. Qed.
Lemma wp_kstack_free s pg (Q : unit → St → Prop) :
  env_ok (env s) → pg ∈ stacks (view (env s)) → pg ≠ 0 → stack_fits hhdm_offset (phys_of pg) 64 →
  (∀ e', env_ok e' → view e' = upd_stacks (λ S, S ∖ {[pg]}) (view (env s)) → Q tt (put_env e' s)) →
  wp (kstack_free hhdm_offset (base_of pg) KSTACK_SIZE) Q s.
Proof.
  intros Hok Hin Hpg Hfit HQ. unfold kstack_free. rewrite (proj2 (Z.eqb_neq _ _)) by (by apply base_ne0). apply wp_bind, wp_zoom.
  replace (u64 (base_of pg - hhdm_offset)) with (phys_of pg) by (destruct Hfit as (? & _); unfold base_of, stack_at; rewrite u64_id; lia).
  eapply wp_mono; [by apply law_phys_to_page|]. intros v e' [-> ->]. rewrite (proj2 (Z.eqb_neq _ _) Hpg). apply wp_zoom.
  eapply wp_mono; [by apply law_pages_release|]. intros [] e1 [Hok1 Hv]. replace (put_env e1 _) with (put_env e1 s) by (by destruct s). by apply HQ.
Qed.

Definition stacked (base : Z) : thread_t := tset_kstack_size KSTACK_SIZE (tset_kstack_base base zero_thread).
Lemma wp_thread_alloc s (Q : Z → St → Prop) :
  env_ok (env s) → heap_ok s →
  (∀ e' r, env_ok e' → view e' = view (env s) → heap_ok (put_allocs r s) → Q 0 (put_env e' (put_allocs r s))) →
  (∀ t pg e' m' r, allocs s = t :: r → t ≠ 0 → t ∉ used s → (∀ s', allocs s' = r → used s' ⊆ {[t]} ∪ used s → heap_ok s') →
     env_ok e' → pg ∉ stacks (view (env s)) → view e' = upd_stacks (λ S, {[pg]} ∪ S) (view (env s)) →
     stack_fits hhdm_offset (phys_of pg) 64 → mapped m' (base_of pg) 32768 → changed (words s) m' (base_of pg) (base_of pg + KSTACK_SIZE) →
     Q t (put_thrs (<[t := stacked (base_of pg)]> (thrs s)) (put_words m' (put_env e' (put_allocs r s))))) →
  wp (thread_alloc hhdm_offset) Q s.
Proof.
  intros Hok Hh H0' H1'. apply wp_bind. apply wp_task_kalloc; [done| |].
  { intros r _ Hr. apply wp_ret. specialize (H0' (env s) r Hok eq_refl Hr). by destruct s. }
  intros t r Hal Ht Hfr Hr. rewrite (proj2 (Z.eqb_neq _ _) Ht). apply wp_bind, wp_modify, wp_bind. apply wp_kstack_alloc; [done| |].
  - intros e' He Hv. apply wp_bind. eapply wp_thr_store; [apply lookup_insert_eq|]. apply wp_bind, wp_bind.
    eapply wp_thr_load; [apply lookup_insert_eq|]. apply wp_modify, wp_ret. simpl. rewrite insert_insert_eq, delete_insert_eq.
    assert (thrs s !! t = None) as Hnone. { apply not_elem_of_dom. intros Hin. apply Hfr. unfold used. set_solver. }
    rewrite delete_id by done. specialize (H0' e' r He Hv). replace (put_thrs _ _) with (put_env e' (put_allocs r s)) by (by destruct s).
    apply H0'. apply Hr; [done|]. unfold used. simpl. set_solver.
  - intros pg e' m' He Hpg Hv Hfit Hm Hc. apply wp_bind. eapply wp_thr_store; [apply lookup_insert_eq|].
    rewrite (proj2 (Z.eqb_neq _ _)) by (by apply base_ne0). apply wp_bind. eapply wp_thr_store; [apply lookup_insert_eq|]. apply wp_ret.
    simpl. rewrite !insert_insert_eq. exact (H1' t pg e' m' r Hal Ht Hfr Hr He Hpg Hv Hfit Hm Hc).
Qed.

(** * New threads *)

Definition linked (t : Z) (x : proc_t) : proc_t :=
  set_live_thread_count (u32 (live_thread_count x + 1)) (set_thread_count (u32 (thread_count x + 1)) (set_threads t x)).
Lemma wp_thread_link s p x t y (Q : unit → St → Prop) :
  procs s !! p = Some x → lock x = unlocked → thrs s !! t = Some y →
  Q tt (put_procs (<[p := linked t x]> (procs s)) (put_thrs (<[t := tset_proc_next (threads x) y]> (thrs s)) s)) →
  wp (thread_link_to_proc me p t) Q s.
Proof.
  intros Hp Hl Ht HQ. apply wp_bind. eapply wp_plock_acquire; [done|done|]. apply wp_bind. eapply wp_pget; [apply lookup_insert_eq|].
  apply wp_bind. eapply wp_thr_store; [done|]. apply wp_bind. eapply wp_proc_store; [apply lookup_insert_eq|].
  eapply wp_plock_release; [apply lookup_insert_eq|done|]. simpl. rewrite !insert_insert_eq. destruct x; simpl in *; by subst.
Qed.

(** A thread as it begins. *)
Definition new_thread (tid_ p prio base sp : Z) (fp : list Z) (next : Z) : thread_t :=
  mkThread tid_ p THREAD_NEW prio (-1) (-1) base KSTACK_SIZE sp fp 0 next unlocked.
(** Thread [t] with the stack at page [pg] is new in process [p]. *)
Definition made s s' (p : Z) (x : proc_t) (t pg prio sp : Z) (fp : list Z) : Prop :=
  t ≠ 0 ∧ t ∉ used s ∧ pg ∉ stacks (view (env s)) ∧ stack_fits hhdm_offset (phys_of pg) 64 ∧ heap_ok s' ∧
  ∃ e' m' r, s' = put_thrs (<[t := new_thread (next_tid s) p prio (base_of pg) sp fp (threads x)]> (thrs s))
                   (put_procs (<[p := linked t x]> (procs s)) (put_next_tid (i32 (next_tid s + 1)) (put_words m' (put_env e' (put_allocs r s))))) ∧
    env_ok e' ∧ view e' = upd_stacks (λ S, {[pg]} ∪ S) (view (env s)) ∧ changed (words s) m' (base_of pg) (base_of pg + KSTACK_SIZE) ∧ allocs s = t :: r.
(** No thread, and what was there is there. *)
Definition not_made s s' : Prop := ∃ e' r, s' = put_env e' (put_allocs r s) ∧ env_ok e' ∧ view e' = view (env s) ∧ heap_ok (put_allocs r s).

Lemma wp_thread_setup s t y p prio (Q : unit → St → Prop) :
  tid_lock s = unlocked → thrs s !! t = Some y →
  Q tt (put_thrs (<[t := tset_t_lock SPINLOCK_INIT (tset_pinned_cpu (-1) (tset_last_cpu (-1) (tset_priority_level prio
    (tset_t_state THREAD_NEW (tset_proc p (tset_tid (next_tid s) y))))))]> (thrs s)) (put_next_tid (i32 (next_tid s + 1)) s)) →
  wp (thread_setup me t p prio) Q s.
Proof. intros Hl Ht HQ. apply wp_bind, wp_alloc_tid; [done|]. by eapply wp_thr_store. Qed.
Lemma stack_top_aligned pg : stack_fits hhdm_offset (phys_of pg) 64 → Z.land (u64 (base_of pg + KSTACK_SIZE)) (not64 0xF) = base_of pg + KSTACK_SIZE.
Proof.
  intros (? & ? & ? & Hal). fold (base_of pg) in *. unfold PAGE_SIZE, KSTACK_SIZE in *. rewrite u64_id by lia. change 15 with (2 ^ 4 - 1). rewrite land_not64 by lia.
  Z.to_euclidean_division_equations. lia.
Qed.
Lemma heap_ok_made s p x t r s' : procs s !! p = Some x → (∀ s', allocs s' = r → used s' ⊆ {[t]} ∪ used s → heap_ok s') →
  allocs s' = r → dom (procs s') = dom (<[p := x]> (procs s)) → dom (thrs s') = dom (<[t := zero_thread]> (thrs s)) → strs s' = strs s → arrs s' = arrs s → heap_ok s'.
Proof.
  intros Hp Hr Ha Hd Ht Hs Hrr. apply Hr; [done|]. unfold used. rewrite Hd, Ht, Hs, Hrr, !dom_insert_L.
  assert (p ∈ dom (procs s)) by (apply elem_of_dom; by eexists). set_solver.
Qed.

Lemma wp_thread_create s p x entry arg (Q : Z → St → Prop) :
  env_ok (env s) → heap_ok s → tid_lock s = unlocked → p ≠ 0 → procs s !! p = Some x → lock x = unlocked →
  (∀ s', not_made s s' → Q 0 s') →
  (∀ t pg s', let sp := base_of pg + KSTACK_SIZE - 64 in
     made s s' p x t pg 0 sp zero_fpu → holds (words s') sp (frame thread_bootstrap_trampoline entry arg) → Q t s') →
  wp (thread_create me hhdm_offset thread_bootstrap_trampoline p entry arg) Q s.
Proof.
  intros Hok Hh Htl Hp0 Hp Hl H0' H1'. unfold thread_create. rewrite (proj2 (Z.eqb_neq _ _) Hp0). apply wp_bind. apply wp_thread_alloc; [done|done| |].
  { intros e' r He Hv Hr. simpl. apply wp_ret, H0'. by exists e', r. }
  intros t pg e' m' r Hal Ht Hfr Hr He Hpg Hv Hfit Hm Hc. rewrite (proj2 (Z.eqb_neq _ _) Ht). apply wp_bind.
  eapply wp_thread_setup; [done|apply lookup_insert_eq|]. apply wp_bind. eapply wp_thr_load; [apply lookup_insert_eq|].
  cbn [kstack_base kstack_size stacked tset_kstack_size tset_kstack_base tset_t_lock tset_pinned_cpu tset_last_cpu tset_priority_level tset_t_state tset_proc tset_tid].
  rewrite (stack_top_aligned pg Hfit). pose proof Hfit as (? & Hpos & Htop & _). fold (base_of pg) in Hpos, Htop. apply wp_bind.
  assert (KSTACK_SIZE = 262144) as HK by reflexivity. unfold PAGE_SIZE in Htop.
  apply wp_bootstrap; [|lia|].
  { intros i Hi. replace (base_of pg + KSTACK_SIZE - 64 + 8 * i) with (base_of pg + 8 * (32760 + i)) by lia. apply Hm. lia. }
  intros m2 Hf Hc2. apply wp_bind. eapply wp_thr_store; [apply lookup_insert_eq|]. apply wp_bind. eapply wp_thread_link; [exact Hp|done|apply lookup_insert_eq|].
  apply wp_ret. apply (H1' t pg); [|exact Hf]. split_and!; try done.
  - apply (heap_ok_made s p x t r); simpl; try done; by rewrite ?insert_insert_eq, !dom_insert_L.
  - exists e', m2, r. simpl. rewrite !insert_insert_eq. split_and!; [reflexivity|done|done| |done].
    eapply changed_trans; [exact Hc|]. eapply changed_mono; [exact Hc2|lia|lia].
Qed.

(** The context of a forked thread. *)
Definition ctx_of (pg : Z) : Z := base_of pg + KSTACK_SIZE - 8 * CONTEXT_WORDS.
Lemma wp_thread_fork s p x th y ctx (Q : Z → St → Prop) :
  env_ok (env s) → heap_ok s → tid_lock s = unlocked → procs s !! p = Some x → lock x = unlocked → thrs s !! th = Some y →
  Z.of_nat (length ctx) = CONTEXT_WORDS →
  (∀ s', not_made s s' → Q 0 s') →
  (∀ t pg s', made s s' p x t pg (priority_level y) (ctx_of pg - 64) (fpu y) →
     holds (words s') (ctx_of pg - 64) (frame fork_child_entry (ctx_of pg) 0 ++ <[CONTEXT_RAX := 0]> ctx) → Q t s') →
  wp (thread_fork_from_syscall me hhdm_offset fork_child_entry p th ctx) Q s.
Proof.
  intros Hok Hh Htl Hp Hl Hth Hctx H0' H1'. apply wp_bind. apply wp_thread_alloc; [done|done| |].
  { intros e' r He Hv Hr. simpl. apply wp_ret, H0'. by exists e', r. }
  intros t pg e' m' r Hal Ht Hfr Hr He Hpg Hv Hfit Hm Hc. rewrite (proj2 (Z.eqb_neq _ _) Ht).
  assert (t ≠ th) as Hne. { intros ->. apply Hfr. unfold used. assert (th ∈ dom (thrs s)) by (apply elem_of_dom; by eexists). set_solver. }
  apply wp_bind. eapply wp_thr_load; [simpl; rewrite lookup_insert_ne by done; exact Hth|]. apply wp_bind.
  eapply wp_thread_setup; [done|apply lookup_insert_eq|]. apply wp_bind. eapply wp_thr_store; [apply lookup_insert_eq|].
  apply wp_bind. eapply wp_thr_load; [apply lookup_insert_eq|].
  cbn [kstack_base kstack_size stacked tset_kstack_size tset_kstack_base tset_t_lock tset_pinned_cpu tset_last_cpu tset_priority_level tset_t_state tset_proc tset_tid tset_fpu].
  pose proof Hfit as (? & Hpos & Htop & _). fold (base_of pg) in Hpos, Htop. assert (KSTACK_SIZE = 262144) as HK by reflexivity. unfold PAGE_SIZE in Htop.
  assert (CONTEXT_WORDS = 27) as HW by reflexivity.
  rewrite (u64_id (base_of pg + KSTACK_SIZE)), (u64_id (_ - 8 * CONTEXT_WORDS)) by lia. fold (ctx_of pg).
  assert (∀ k n, 0 ≤ k → k + n ≤ 32768 → mapped m' (base_of pg + 8 * k) n) as Hmap.
  { intros k n Hk Hn i Hi. replace (base_of pg + 8 * k + 8 * i) with (base_of pg + 8 * (k + i)) by lia. apply Hm. lia. }
  apply wp_bind. apply wp_store_words; [|unfold ctx_of; lia|unfold ctx_of; lia|].
  { rewrite Hctx. replace (ctx_of pg) with (base_of pg + 8 * 32741) by (unfold ctx_of; lia). apply Hmap; lia. }
  intros m1 Hh1 Hc1. apply wp_bind. simpl in Hc1. rewrite u64_id by (unfold ctx_of, CONTEXT_RAX; lia).
  destruct (lookup_lt_is_Some_2 ctx CONTEXT_RAX) as [a Ha]; [unfold CONTEXT_RAX; lia|]. eapply wp_stack_store; [exact (Hh1 _ _ Ha)|]. apply wp_bind.
  set (m2 := <[ctx_of pg + 8 * Z.of_nat CONTEXT_RAX := 0]> m1).
  assert (changed m1 m2 (ctx_of pg) (ctx_of pg + 8 * CONTEXT_WORDS)) as Hc2 by (eapply changed_insert; [exact (Hh1 _ _ Ha)|unfold CONTEXT_RAX; lia]).
  assert (holds m2 (ctx_of pg) (<[CONTEXT_RAX := 0]> ctx)) as Hh2.
  { intros i v. destruct (decide (i = CONTEXT_RAX)) as [->|Hi].
    - rewrite list_lookup_insert_eq by (unfold CONTEXT_RAX; lia). intros [= <-]. apply lookup_insert_eq.
    - rewrite list_lookup_insert_ne by done. intros Hv'. unfold m2. rewrite lookup_insert_ne by lia. by apply Hh1. }
  apply wp_bootstrap; [|unfold ctx_of; lia|].
  { eapply changed_mapped; [exact Hc2|]. eapply changed_mapped; [exact Hc1|]. replace (ctx_of pg - 64) with (base_of pg + 8 * 32733) by (unfold ctx_of; lia). apply Hmap; lia. }
  intros m3 Hf Hc3. apply wp_bind. eapply wp_thr_store; [apply lookup_insert_eq|]. apply wp_bind. eapply wp_thread_link; [exact Hp|done|apply lookup_insert_eq|].
  apply wp_ret. apply (H1' t pg).
  - split_and!; try done.
    + apply (heap_ok_made s p x t r); simpl; try done; by rewrite ?insert_insert_eq, !dom_insert_L.
    + exists e', m3, r. simpl. rewrite !insert_insert_eq. split_and!; [reflexivity|done|done| |done]. simpl in Hc3.
      eapply changed_trans; [exact Hc|]. eapply changed_trans; [eapply changed_mono; [exact Hc1|unfold ctx_of; lia..]|].
      eapply changed_trans; [eapply changed_mono; [exact Hc2|unfold ctx_of; lia..]|]. eapply changed_mono; [exact Hc3|unfold ctx_of; lia..].
  - intros i v [Hv'|[Hi Hv']]%lookup_app_Some; [by apply Hf|]. simpl in Hi, Hv'. simpl in Hc3. destruct Hc3 as [Hc3 _].
    replace (ctx_of pg - 64 + 8 * Z.of_nat i) with (ctx_of pg + 8 * Z.of_nat (i - 8)) by lia. rewrite Hc3 by lia. by apply Hh2.
Qed.
End stack.
