(* ===== verification/TaskOps.v ===== *)
(** Reference counts, children, forking: what the operations on processes change,
    and that a fork that fails changes nothing. *)
From S2P Require Import Prelude Errno Sync SList Task TaskSpec TaskArgs TaskStack.

#[local] Arguments loop : simpl never.
#[local] Arguments for_n : simpl never.
#[local] Arguments Z.mul : simpl never.
#[local] Arguments Z.add : simpl never.
#[local] Arguments Z.sub : simpl never.

(** What a process holds of the other parts, and what is left without it. *)
Definition own_space (x : proc_t) : bool := negb (vmm x =? 0) && negb (flag (flags x) PROC_FLAG_KERNEL).
Definition released (x : proc_t) (v : res) : res :=
  let v := if fdtable x =? 0 then v else upd_tables (delete (fdtable x)) v in
  if own_space x then upd_spaces (delete (vmm x)) v else v.

Section ops.
Context (me hhdm_offset fork_child_entry : Z).
Context `{TaskLaws hhdm_offset E}.
Local Abbreviation St := (task_state E).
Implicit Types s : St.

Definition holds_res (x : proc_t) (v : res) : Prop := (fdtable x ≠ 0 → fdtable x ∈ dom (tables v)) ∧ (own_space x = true → vmm x ∈ dom (spaces v)).

(** * References *)

Lemma wp_proc_free s p x la le S A (Q : unit → St → Prop) :
  procs s !! p = Some x → owns_args s x la le S A → env_ok (env s) → holds_res x (view (env s)) →
  (∀ e', env_ok e' → view e' = released x (view (env s)) → Q tt (put_procs (delete p (procs s)) (put_arrs A (put_strs S (put_env e' s))))) →
  wp (proc_free p) Q s.
Proof.
  intros Hp Hargs Hok [Ht Hv] HQ. apply wp_bind. eapply wp_proc_load; [done|]. apply wp_bind.
  assert (wp (when (negb (fdtable x =? 0)) (deps (fdtable_unref (fdtable x)))) (λ _ s', ∃ e', s' = put_env e' s ∧ env_ok e' ∧
    view e' = if fdtable x =? 0 then view (env s) else upd_tables (delete (fdtable x)) (view (env s))) s) as H1.
  { destruct (Z.eqb_spec (fdtable x) 0) as [Hb|Hb]; cbn [negb when].
    2: { apply wp_zoom. eapply wp_mono; [apply law_fdtable_unref; [done|by apply Ht]|]. intros [] e' [He Hve]. by exists e'. }
    exists (env s). split_and!; [by destruct s|done|done]. }
  eapply wp_mono; [exact H1|]. intros [] s1 (e1 & -> & He1 & Hv1). apply wp_bind. fold (own_space x).
  assert (wp (when (own_space x) (deps (vmm_destroy (vmm x)))) (λ _ s', ∃ e', s' = put_env e' s ∧ env_ok e' ∧ view e' = released x (view (env s))) (put_env e1 s)) as H2.
  { unfold released. rewrite <-Hv1. apply wp_when; intros Hb; rewrite Hb in *.
    - apply wp_zoom. eapply wp_mono; [apply law_vmm_destroy; [done|]|].
      + simpl. rewrite Hv1. destruct (fdtable x =? 0); by apply Hv.
      + intros [] e' [He Hve]. exists e'. split_and!; [by destruct s|done|done].
    - by exists e1. }
  eapply wp_mono; [exact H2|]. intros [] s2 (e2 & -> & He2 & Hv2).
  change (wp (free_string_array (argv x) (argc x) ;; (free_string_array (envp x) (envc x) ;; free_proc p)) Q (put_env e2 s)).
  apply wp_assoc. apply wp_bind. eapply (wp_free_args _ x la le S A); [exact Hargs|]. apply wp_bind. eapply wp_proc_load; [done|]. apply wp_modify.
  by apply HQ.
Qed.

(** The reference count is one less. *)
Definition unrefed (x : proc_t) : proc_t := set_refcount (u32 (refcount x - 1)) x.
Lemma wp_proc_unref s p x (Q : unit → St → Prop) :
  p ≠ 0 → procs s !! p = Some x → lock x = unlocked →
  wp (when (refcount (unrefed x) =? 0) (proc_list_remove me p ;; proc_free p)) Q (put_procs (<[p := unrefed x]> (procs s)) s) →
  wp (proc_unref me p) Q s.
Proof.
  intros Hp0 Hp Hl HQ. unfold proc_unref. rewrite (proj2 (Z.eqb_neq _ _) Hp0). apply wp_bind. eapply wp_plock_acquire; [done|done|].
  apply wp_bind. eapply wp_proc_store; [apply lookup_insert_eq|]. apply wp_bind. eapply wp_pget; [apply lookup_insert_eq|].
  apply wp_bind. eapply wp_plock_release; [apply lookup_insert_eq|done|]. simpl. rewrite !insert_insert_eq.
  replace (set_lock unlocked _) with (unrefed x) by (destruct x; simpl in *; by subst). exact HQ.
Qed.
Lemma wp_proc_unref_last s p x l1 l2 la le S A (Q : unit → St → Prop) :
  p ≠ 0 → procs s !! p = Some x → lock x = unlocked → refcount x = 1 → proc_list_lock s = unlocked → plist s (l1 ++ p :: l2) →
  owns_args s x la le S A → env_ok (env s) → holds_res x (view (env s)) →
  (∀ e', env_ok e' → view e' = released x (view (env s)) →
     Q tt (put_procs (delete p (relink l1 (global_next x) (procs s))) (put_proc_list_head (rehead l1 (global_next x) (proc_list_head s))
       (put_arrs A (put_strs S (put_env e' s)))))) →
  wp (proc_unref me p) Q s.
Proof.
  intros Hp0 Hp Hl Hr Hll Hpl Hargs Hok Hres HQ. eapply wp_proc_unref; [done|done|done|]. unfold unrefed at 1. simpl. rewrite Hr. simpl.
  assert (p ∉ l1) as Hno. { pose proof (slist_nodup _ _ _ Hpl) as (_ & Hd & _)%NoDup_app. intros Hin. apply (Hd p Hin). by left. }
  apply wp_bind. eapply (wp_proc_list_remove me _ l1 p l2 (unrefed x)); [done| |apply lookup_insert_eq|].
  { unfold plist. simpl. eapply chain_store; [exact Hpl|done|done]. }
  simpl. eapply (wp_proc_free _ p (unrefed x) la le S A); simpl; try done.
  - rewrite relink_ne by done. apply lookup_insert_eq.
  - intros e' He Hv. specialize (HQ e' He Hv). replace (delete p (relink l1 (global_next x) (<[p := unrefed x]> (procs s)))) with
      (delete p (relink l1 (global_next x) (procs s))); [by destruct s|]. apply map_eq. intros q.
    destruct (decide (p = q)) as [->|Hne]; [by rewrite !lookup_delete_eq|]. rewrite !lookup_delete_ne by done.
    unfold relink. destruct (last l1) as [b|] eqn:Hb; [|by rewrite lookup_insert_ne].
    apply last_Some_elem_of in Hb. destruct (decide (b = q)) as [->|]; [by rewrite !lookup_alter_eq, lookup_insert_ne|].
    by rewrite !lookup_alter_ne, lookup_insert_ne.
Qed.

(** * Children *)

Definition clinks (m : gmap Z proc_t) (a : Z) : option Z := sibling_next <$> m !! a.
(** The children of a process whose first one is [h]. *)
Definition siblings s (h : Z) (l : list Z) : Prop := chain (clinks (procs s)) h l.

Lemma wp_proc_add_child s p x c y (Q : unit → St → Prop) :
  p ≠ c → procs s !! p = Some x → lock x = unlocked → procs s !! c = Some y →
  Q tt (put_procs (<[p := set_children c x]> (<[c := set_sibling_next (children x) y]> (procs s))) s) → wp (proc_add_child me p c) Q s.
Proof.
  intros Hne Hp Hl Hc HQ. apply wp_bind. eapply wp_plock_acquire; [done|done|]. apply wp_bind. eapply wp_pget; [apply lookup_insert_eq|].
  apply wp_bind. eapply wp_proc_store; [simpl; rewrite lookup_insert_ne by done; exact Hc|]. apply wp_bind.
  eapply wp_proc_store; [simpl; rewrite lookup_insert_ne by done; apply lookup_insert_eq|]. eapply wp_plock_release; [apply lookup_insert_eq|done|].
  simpl. rewrite insert_insert_eq. rewrite (insert_insert_ne _ c p) by done. rewrite insert_insert_eq. destruct x; simpl in *; by subst.
Qed.
(** The first child is taken out again. *)
Lemma wp_proc_remove_first s p x c y (Q : unit → St → Prop) :
  p ≠ c → c ≠ 0 → procs s !! p = Some x → lock x = unlocked → children x = c → procs s !! c = Some y →
  Q tt (put_procs (<[p := set_children (sibling_next y) x]> (procs s)) s) → wp (proc_remove_child me p c) Q s.
Proof.
  intros Hne Hc0 Hp Hl Hch Hc HQ. apply wp_bind. eapply wp_plock_acquire; [done|done|]. apply wp_bind, wp_gets, wp_bind.
  unfold unlink. change (loop (S ?n) ?b ?z) with (r ← b z; match r with inl x' => loop n b x' | inr a => mret a end).
  apply wp_bind. unfold unlink_round. apply wp_bind. simpl. eapply wp_pget; [apply lookup_insert_eq|]. simpl. rewrite Hch.
  rewrite (proj2 (Z.eqb_neq _ _) Hc0), Z.eqb_refl. apply wp_bind. eapply wp_pget; [simpl; rewrite lookup_insert_ne by done; exact Hc|].
  apply wp_bind. eapply wp_proc_store; [apply lookup_insert_eq|]. apply wp_ret, wp_ret. eapply wp_plock_release; [apply lookup_insert_eq|done|].
  simpl. rewrite !insert_insert_eq. destruct x; simpl in *; by subst.
Qed.

(** * Forking *)

(** Nothing but the numbers given out and the answers of the heap. *)
Definition unchanged s s' : Prop := ∃ e' r k, s' = put_env e' (put_allocs r (put_next_pid k s)) ∧ env_ok e' ∧ view e' = view (env s).

(** The state with a child [c] that is about to be given back. *)
Definition with_child s (c : Z) (y : proc_t) e ms ma r k : St :=
  put_proc_list_head c (put_next_pid k (put_procs (<[c := y]> (procs s)) (put_env e (grown s ms ma r)))).
Lemma wp_fork_undo s c y e ms ma r k la le l (Q : Z → St → Prop) :
  c ≠ 0 → c ∉ used s → proc_list_lock s = unlocked → plist s l →
  lock y = unlocked → refcount y = 1 → global_next y = proc_list_head s →
  owns_args (with_child s c y e ms ma r k) y la le (strs s) (arrs s) → env_ok e → holds_res y (view e) → released y (view e) = view (env s) →
  (∀ s', unchanged s s' → Q (- ENOMEM) s') → wp (proc_unref me c ;; mret (- ENOMEM)) Q (with_child s c y e ms ma r k).
Proof.
  intros Hc0 Hfr Hll Hpl Hl Hr Hg Hargs Hok Hres Hrel HQ. apply wp_bind.
  assert (procs s !! c = None) as Hnone. { apply not_elem_of_dom. intros Hin. apply Hfr. unfold used. set_solver. }
  eapply (wp_proc_unref_last _ c y [] l la le); try done; [apply lookup_insert_eq| |].
  { unfold plist. simpl. apply (chain_cons _ (proc_list_head s)); [by apply chain_insert_new|done|]. unfold plinks. rewrite lookup_insert_eq. simpl. by rewrite Hg. }
  intros e' He Hv. apply wp_ret, HQ. exists e', r, k. split_and!; [|done|by rewrite Hv]. simpl. unfold relink. simpl.
  rewrite delete_insert_eq, delete_id, Hg by done. by destruct s.
Qed.
Lemma released_new (x : proc_t) v o o' : spaces v !! vmm x = None → tables v !! fdtable x = None → own_space x = true → fdtable x ≠ 0 →
  released x (upd_tables <[fdtable x := o']> (upd_spaces <[vmm x := o]> v)) = v.
Proof.
  intros Hv Ht Ho Hf. unfold released. rewrite Ho, (proj2 (Z.eqb_neq _ _) Hf). destruct v as [S T K C]. unfold upd_tables, upd_spaces. simpl in *.
  by rewrite !delete_insert_id.
Qed.
Lemma released_space (x : proc_t) v o : spaces v !! vmm x = None → own_space x = true → fdtable x = 0 → released x (upd_spaces <[vmm x := o]> v) = v.
Proof. intros Hv Ho Hf. unfold released. rewrite Ho, Hf. destruct v as [S T K C]. unfold upd_spaces. simpl in *. by rewrite delete_insert_id. Qed.

(** The child of [x]. *)
Definition child_of (x : proc_t) (p k v t a n e m th next : Z) : proc_t :=
  mkProc k (take 31 (name x)) PROC_RUNNING (flags x) v p 0 (children x) th (if th =? 0 then 0 else 1) (if th =? 0 then 0 else 1) t a n e m
    (auxv x) (auxv_count x) 0 (uid x) (gid x) 1 unlocked next.
(** The arguments of the child: copies of those of [x]; or none, which can be only
    when [x] has none or memory was [short]. *)
Definition child_args (short : Prop) (x : proc_t) (la le la' le' : list (list Z)) (a n e m : Z) : Prop :=
  (argv x ≠ 0 ∧ la' = copied (argv x) (argc x) la ∧ le' = copied (envp x) (envc x) le ∧ n = argc x ∧ m = envc x) ∨
  ((argv x = 0 ∨ short) ∧ la' = [] ∧ le' = [] ∧ a = 0 ∧ e = 0 ∧ n = 0 ∧ m = 0).
(** Between the states the heap has refused a request. *)
Definition refused s s' : Prop := ∃ us, allocs s = us ++ allocs s' ∧ 0 ∈ us.
(** A process more: [x] has the child [c] with one thread [t], which is ready to
    run from the context of its parent. *)
Definition forked s s' (p : Z) (x : proc_t) (y : thread_t) (ctx : list Z) (la le : list (list Z)) : Prop :=
  ∃ c t pg v tb a n e m la' le', let cx := child_of x p (next_pid s) v tb a n e m t (proc_list_head s) in
    c ≠ 0 ∧ c ∉ used s ∧ t ≠ 0 ∧ t ∉ used s ∧ spaces (view (env s)) !! v = None ∧ tables (view (env s)) !! tb = None ∧ pg ∉ stacks (view (env s)) ∧
    procs s' = <[c := cx]> (<[p := set_children c x]> (procs s)) ∧ proc_list_head s' = c ∧ next_pid s' = i32 (next_pid s + 1) ∧
    thrs s' = <[t := tset_t_state THREAD_READY (new_thread (next_tid s) c (priority_level y) (base_of hhdm_offset pg) (ctx_of hhdm_offset pg - 64) (fpu y) 0)]> (thrs s) ∧
    next_tid s' = i32 (next_tid s + 1) ∧ child_args (refused s s') x la le la' le' a n e m ∧ owns_args s' cx la' le' (strs s) (arrs s) ∧
    env_ok (env s') ∧ view (env s') = add_call (Enqueue t) (upd_stacks (λ S, {[pg]} ∪ S) (upd_tables <[tb := CopyOf (fdtable x)]> (upd_spaces <[v := CopyOf (vmm x)]> (view (env s))))) ∧
    holds (words s') (ctx_of hhdm_offset pg - 64) (frame fork_child_entry (ctx_of hhdm_offset pg) 0 ++ <[CONTEXT_RAX := 0]> ctx).

Definition fork_post s (p : Z) x y ctx la le (r : Z) s' : Prop :=
  (r = - ENOMEM ∧ unchanged s s') ∨ (r = next_pid s ∧ forked s s' p x y ctx la le).

(** The last part of [proc_fork], from a child with address space, descriptors
    and arguments on. *)
Definition fork_rest (parent_ parent_thread child : Z) (ctx : list Z) (x : proc_t) : M St Z :=
  proc_store child (λ c, set_parent parent_ (set_gid (gid x) (set_uid (uid x) (set_auxv_count (auxv_count x) (set_auxv (auxv x) c))))) ;;
  proc_add_child me parent_ child ;;
  child_thread ← thread_fork_from_syscall me hhdm_offset fork_child_entry child parent_thread ctx;
  if child_thread =? 0 then proc_remove_child me parent_ child ;; proc_unref me child ;; mret (- ENOMEM) else
  child_pid ← pget child pid;
  thr_store child_thread (tset_t_state THREAD_READY) ;;
  deps (sched_enqueue child_thread) ;;
  mret child_pid.
Lemma wp_fork_rest s p x th y ctx la le l c v tb a n e m la' le' e2 ms ma r :
  let np := with_args (set_fdtable tb (set_vmm v (new_proc (next_pid s) (take 31 (name x)) (flags x) (proc_list_head s)))) a n e m in
  let s2 := with_child s c np e2 ms ma r (i32 (next_pid s + 1)) in
  c ≠ 0 → c ∉ used s → proc_list_lock s = unlocked → tid_lock s = unlocked → plist s l → procs s !! p = Some x → lock x = unlocked →
  thrs s !! th = Some y → Z.of_nat (length ctx) = CONTEXT_WORDS → flag (flags x) PROC_FLAG_KERNEL = false →
  v ≠ 0 → spaces (view (env s)) !! v = None → tb ≠ 0 → tables (view (env s)) !! tb = None → env_ok e2 →
  view e2 = upd_tables <[tb := CopyOf (fdtable x)]> (upd_spaces <[v := CopyOf (vmm x)]> (view (env s))) →
  child_args (denied (allocs s) r) x la le la' le' a n e m → owns_args s2 np la' le' (strs s) (arrs s) → heap_ok s2 →
  wp (fork_rest p th c ctx x) (fork_post s p x y ctx la le) s2.
Proof.
  intros np s2 Hc0 Hfr Hll Htl Hpl Hp Hlx Hth Hctx Hk Hv0 Hv Ht0 Ht He2 Hview Hca Hargs Hheap.
  assert (procs s !! c = None) as Hnone. { apply not_elem_of_dom. intros Hin. apply Hfr. unfold used. set_solver. }
  assert (p ≠ c) as Hpc by (intros ->; congruence).
  set (y1 := child_of x p (next_pid s) v tb a n e m 0 (proc_list_head s)).
  apply wp_bind. eapply wp_proc_store; [apply lookup_insert_eq|]. apply wp_bind.
  eapply (wp_proc_add_child _ p x c); [done|simpl; rewrite !lookup_insert_ne by done; exact Hp|done|apply lookup_insert_eq|].
  simpl. rewrite !insert_insert_eq. fold y1. set (s3 := put_procs _ _).
  change (set_sibling_next _ _) with y1 in s3. apply wp_bind.
  assert (own_space y1 = true) as Hown by (unfold own_space; simpl; rewrite Hk, (proj2 (Z.eqb_neq _ _) Hv0); done).
  assert (procs s3 !! c = Some y1) as Hc3 by (simpl; rewrite lookup_insert_ne by done; apply lookup_insert_eq).
  assert (heap_ok s3) as Hheap3.
  { eapply (heap_ok_mono _ _ Hheap); [done|]. unfold used. simpl. rewrite !dom_insert_L. assert (p ∈ dom (procs s)) by (apply elem_of_dom; by eexists). set_solver. }
  eapply (wp_thread_fork _ _ _ s3 c y1 th y ctx); [done|done|done|exact Hc3|done|done|done| |].
  - intros s4 (e' & r' & -> & He' & Hv' & _). change (view (env s3)) with (view e2) in Hv'. simpl. apply wp_bind.
    eapply (wp_proc_remove_first _ p (set_children c x) c y1); [done|done|apply lookup_insert_eq|done|done|simpl; rewrite lookup_insert_ne by done; apply lookup_insert_eq|].
    simpl. rewrite insert_insert_eq. replace (set_children (children x) (set_children c x)) with x by (by destruct x).
    rewrite (insert_insert_ne _ p c) by done. rewrite (insert_id (procs s) p x) by done.
    change (put_procs _ _) with (with_child s c y1 e' ms ma r' (i32 (next_pid s + 1))).
    eapply wp_fork_undo; try done.
    + split; intros _; rewrite Hv', Hview; simpl; rewrite dom_insert_L; set_solver.
    + rewrite Hv', Hview. by apply released_new.
    + intros s5 H5. by left.
  - intros t pg s4 (Ht4 & Hfr4 & Hpg & Hfit & Hheap4 & e' & m' & r' & -> & He' & Hv' & _ & Hal) Hstack. rewrite (proj2 (Z.eqb_neq _ _) Ht4).
    apply wp_bind. eapply wp_pget; [apply lookup_insert_eq|]. apply wp_bind. eapply wp_thr_store; [apply lookup_insert_eq|].
    apply wp_bind, wp_zoom. eapply wp_mono; [by apply law_enqueue|]. intros [] e5 [He5 Hv5]. apply wp_ret. right. split; [done|].
    exists c, t, pg, v, tb, a, n, e, m, la', le'. cbv zeta. simpl in Hv', Hpg, Hv5. rewrite Hview in Hv'. rewrite Hv' in Hv5.
    assert (t ∉ used s) as Hft. { intros Hin. apply Hfr4. unfold used in *. simpl. rewrite !dom_insert_L, !dom_union_L. set_solver. }
    rewrite Hview in Hpg. simpl in Hpg. change (allocs s3) with r in Hal. split_and!; try done.
    + simpl. rewrite insert_insert_eq || idtac. rewrite (insert_insert_ne _ c p) by done. rewrite insert_insert_eq.
      rewrite (insert_insert_ne _ p c) by done. f_equal. unfold linked, y1, child_of. simpl. by rewrite (proj2 (Z.eqb_neq _ _) Ht4).
    + simpl. by rewrite insert_insert_eq.
    + destruct Hca as [Hca|([Ha0|Hden] & Hca)]; [by left|right; by split; [left|]|]. right. split; [right|done].
      destruct Hden as (us & Hus & [H0'|Hnil]); [|congruence]. exists (us ++ [t]). rewrite Hus, Hal. simpl. rewrite <-app_assoc. split; [done|set_solver].
Qed.
End ops.
