(* ===== verification/TaskLife.v ===== *)
(** Threads, and the end of processes: orphans go to the init process, and a parent that waits
    takes its first child that has ended. *)
From S2P Require Import Prelude Errno Sync SList Task TaskSpec TaskArgs TaskStack TaskOps.

#[local] Arguments loop : simpl never.
#[local] Arguments for_n : simpl never.
#[local] Arguments Z.mul : simpl never.
#[local] Arguments Z.add : simpl never.
#[local] Arguments Z.sub : simpl never.

Section life.
Context (me hhdm_offset : Z).
Context `{TaskLaws hhdm_offset E}.
Local Abbreviation St := (task_state E).
Implicit Types s : St.

Lemma clinks_insert m p y h l : chain (clinks m) h l → (∀ x, p ∈ l → m !! p = Some x → sibling_next y = sibling_next x) → chain (clinks (<[p := y]> m)) h l.
Proof.
  intros Hc Hy. eapply chain_ext; [|exact Hc]. intros a Ha. unfold clinks. destruct (decide (p = a)) as [->|]; [|by rewrite lookup_insert_ne].
  rewrite lookup_insert_eq. destruct (chain_is_Some _ _ _ _ Hc Ha) as [n Hn]. unfold clinks in Hn. destruct (m !! a) as [x|] eqn:Hx; [|done].
  simpl. by rewrite (Hy x).
Qed.
Lemma clinks_lookup m h l a : chain (clinks m) h l → a ∈ l → ∃ y, m !! a = Some y ∧ clinks m a = Some (sibling_next y).
Proof.
  intros Hc Ha. destruct (chain_is_Some _ _ _ _ Hc Ha) as [n Hn]. unfold clinks in *. destruct (m !! a) as [y|]; [by exists y|done].
Qed.

(** * Orphans *)

(** Process [i] has taken over the children [l1]. *)
Definition adopted (i : Z) (xi : proc_t) (li l1 : list Z) (m0 m : gmap Z proc_t) : Prop := ∃ h,
  m !! i = Some (set_children h xi) ∧ chain (clinks m) h (reverse l1 ++ li) ∧
  (∀ c, c ∈ l1 → ∃ y n, m0 !! c = Some y ∧ m !! c = Some (set_sibling_next n (set_parent i y))) ∧
  (∀ q, q ∉ l1 → q ≠ i → m !! q = m0 !! q).

Lemma wp_orphan_round s i xi li l1 b l2 m :
  init_proc s = i → i ≠ 0 → i ∉ l1 ++ b :: l2 → NoDup (l1 ++ b :: l2) → (∀ c, c ∈ l1 ++ b :: l2 → c ∉ li) → lock xi = unlocked → (∀ y, procs s !! b = Some y → lock y = unlocked) →
  adopted i xi li l1 (procs s) m → chain (clinks m) b (b :: l2) →
  wp (orphan_round me b) (λ r s', ∃ c m', r = inl c ∧ s' = put_procs m' s ∧ adopted i xi li (l1 ++ [b]) (procs s) m' ∧ chain (clinks m') c l2) (put_procs m s).
Proof.
  intros Hi Hi0 Hil Hnd Hdis Hlx Hlb (h & Hmi & Hch & Hl1 & Hrest) (_ & Hb0 & n & Hn & Hc2). unfold orphan_round.
  rewrite (proj2 (Z.eqb_neq _ _) Hb0). apply NoDup_app in Hnd as (Hnd1 & Hd12 & Hnd2). apply NoDup_cons in Hnd2 as [Hb2 Hnd2].
  assert (b ∉ l1) as Hb1 by (intros Hin; apply (Hd12 b Hin); by left). assert (i ≠ b) as Hib by set_solver.
  unfold clinks in Hn. destruct (m !! b) as [y|] eqn:Hy; [|done]. injection Hn as <-.
  assert (procs s !! b = Some y) as Hys by (by rewrite <-(Hrest b Hb1)). apply wp_bind. eapply wp_pget; [exact Hy|].
  apply wp_bind. eapply wp_plock_acquire; [exact Hy|by apply Hlb|]. apply wp_bind, wp_gets, wp_bind. eapply wp_proc_store; [apply lookup_insert_eq|].
  apply wp_bind. eapply wp_plock_release; [apply lookup_insert_eq|done|]. simpl. rewrite !insert_insert_eq, Hi, (proj2 (Z.eqb_neq _ _) Hi0). cbn [negb when].
  replace (set_lock unlocked _) with (set_parent i y) by (specialize (Hlb y Hys); destruct y; simpl in *; by subst).
  apply wp_bind. eapply wp_proc_add_child; [exact Hib|simpl; rewrite lookup_insert_ne by done; exact Hmi|done|apply lookup_insert_eq|].
  apply wp_ret. simpl. rewrite insert_insert_eq. set (yb := set_sibling_next h (set_parent i y)). set (xi' := set_children b _).
  exists (sibling_next y), (<[i := xi']> (<[b := yb]> m)). split_and!; [done|done| |].
  - exists b. split_and!.
    + by rewrite lookup_insert_eq.
    + rewrite reverse_app. simpl. split_and!; [done|done|]. exists h. split; [unfold clinks; rewrite lookup_insert_ne, lookup_insert_eq by done; done|].
      apply clinks_insert; [apply clinks_insert; [exact Hch|]|].
      * intros x' Hin. apply elem_of_app in Hin as [Hin|Hin]; [rewrite elem_of_reverse in Hin; by destruct (Hb1 Hin)|]. exfalso. apply (Hdis b); [set_solver|done].
      * intros x' _. rewrite lookup_insert_ne by done. rewrite Hmi. by intros [= <-].
    + intros c [Hc|Hc%list_elem_of_singleton]%elem_of_app.
      * destruct (Hl1 c Hc) as (y' & n' & H1 & H2). exists y', n'. split; [done|]. rewrite !lookup_insert_ne by set_solver. done.
      * subst c. exists y, h. split; [done|]. by rewrite lookup_insert_ne, lookup_insert_eq.
    + intros q Hq Hqi. rewrite !lookup_insert_ne by set_solver. apply Hrest; set_solver.
  - apply clinks_insert; [apply clinks_insert; [exact Hc2|]|].
    + intros x' Hin. done.
    + intros x' _. rewrite lookup_insert_ne by done. rewrite Hmi. by intros [= <-].
Qed.

Lemma wp_orphans s i xi hi li h l (Q : unit → St → Prop) :
  init_proc s = i → i ≠ 0 → procs s !! i = Some xi → lock xi = unlocked → children xi = hi → siblings s hi li → siblings s h l →
  i ∉ l → (∀ c, c ∈ l → c ∉ li) → (∀ c y, c ∈ l → procs s !! c = Some y → lock y = unlocked) →
  (∀ m, adopted i xi li l (procs s) m → Q tt (put_procs m s)) → wp (loop (S (size (procs s))) (orphan_round me) h) Q s.
Proof.
  intros Hi Hi0 Hxi Hlx Hhi Hli Hl Hil Hdis Hlocks HQ.
  apply (wp_loop (λ k c s', ∃ l1 l2 m, l = l1 ++ l2 ∧ k = length l2 ∧ s' = put_procs m s ∧ adopted i xi li l1 (procs s) m ∧ chain (clinks m) c l2) _ _ (length l)).
  - apply Nat.lt_succ_r. by eapply (chain_size (procs s) sibling_next).
  - exists [], l, (procs s). split_and!; [done|done|by destruct s| |exact Hl]. exists hi. split_and!; [|exact Hli|set_solver|done].
    rewrite Hxi. f_equal. subst hi. by destruct xi.
  - intros k c s' (l1 & l2 & m & -> & -> & -> & Had & Hc). destruct l2 as [|b l2].
    + simpl in Hc. subst c. apply wp_ret. apply HQ. rewrite app_nil_r. exact Had.
    + pose proof Hc as (-> & _). eapply wp_mono; [eapply (wp_orphan_round s i xi li l1 b l2 m); try done|].
      * by eapply slist_nodup.
      * intros y. apply Hlocks. set_solver.
      * intros r s' (c & m' & -> & -> & Had' & Hc'). exists (length l2). split; [simpl; lia|]. exists (l1 ++ [b]), l2, m'. by rewrite <-app_assoc.
Qed.

(** * Ending *)

Definition exited (code : Z) (x : proc_t) : proc_t := set_exit_code code (set_state PROC_ZOMBIE x).
(** The first half: the process is a zombie. *)
Lemma wp_proc_exit s p x code h (Q : unit → St → Prop) :
  procs s !! p = Some x → lock x = unlocked → state x = PROC_RUNNING → children x = h →
  wp (loop (S (size (procs s))) (orphan_round me) h) (λ _ s1,
    wp (proc_store p (set_children 0) ;; up ← pget p parent; when (negb (up =? 0)) (deps (waitqueue_wake_all up)) ;;
        init ← gets init_proc; when (negb (init =? 0)) (deps (waitqueue_wake_all init))) Q s1) (put_procs (<[p := exited code x]> (procs s)) s) →
  wp (proc_exit me p code) Q s.
Proof.
  intros Hp Hl Hst Hh HQ. apply wp_bind. eapply wp_plock_acquire; [done|done|]. apply wp_bind. eapply wp_pget; [apply lookup_insert_eq|].
  simpl. rewrite Hst. rewrite !bool_decide_eq_false_2 by done. cbn [orb]. apply wp_bind. eapply wp_proc_store; [apply lookup_insert_eq|].
  apply wp_bind. eapply wp_plock_release; [apply lookup_insert_eq|done|]. simpl. rewrite !insert_insert_eq.
  replace (set_lock unlocked _) with (exited code x) by (destruct x; simpl in *; by subst).
  apply wp_bind. eapply wp_pget; [apply lookup_insert_eq|]. apply wp_bind, wp_gets. apply wp_bind. simpl. rewrite Hh.
  replace (size (<[p:=exited code x]> (procs s))) with (size (procs s)); [exact HQ|].
  rewrite map_size_insert, Hp. done.
Qed.
(** Waking up a queue. *)
Definition woken (q : Z) (v : res) : res := if q =? 0 then v else add_call (WakeAll q) v.
Lemma wp_wake s q (Q : unit → St → Prop) :
  env_ok (env s) → (∀ e', env_ok e' → view e' = woken q (view (env s)) → Q tt (put_env e' s)) → wp (when (negb (q =? 0)) (deps (waitqueue_wake_all q))) Q s.
Proof.
  intros Hok HQ. unfold woken in HQ. destruct (q =? 0); cbn [negb when].
  - apply wp_ret. specialize (HQ (env s) Hok eq_refl). by destruct s.
  - apply wp_zoom. eapply wp_mono; [by apply law_wake_all|]. intros [] e' [He Hv]. by apply HQ.
Qed.

(** * Waiting *)

Definition matching (k : Z) (y : proc_t) : bool := (k =? -1) || (pid y =? k).
Definition reapable (k : Z) (m : gmap Z proc_t) (c : Z) : Prop := ∃ y, m !! c = Some y ∧ matching k y = true ∧ state y = PROC_ZOMBIE.
#[global] Instance reapable_dec k m c : Decision (reapable k m c).
Proof.
  destruct (m !! c) as [y|] eqn:Hy; [|right; by intros (? & ? & _); congruence].
  destruct (matching k y) eqn:Hm; [|right; by intros (? & ? & ? & _); congruence].
  destruct (decide (state y = PROC_ZOMBIE)) as [Hs|Hs]; [left; by exists y|right; intros (? & ? & _ & ?); congruence].
Defined.

Lemma wp_find_zombie s k h l (Q : Z * Z → St → Prop) :
  siblings s h l →
  (Forall (λ c, ¬ reapable k (procs s) c) l → ∀ prev, Q (prev, 0) s) →
  (∀ l1 z l2, l = l1 ++ z :: l2 → Forall (λ c, ¬ reapable k (procs s) c) l1 → reapable k (procs s) z → Q (default 0 (last l1), z) s) →
  wp (loop (S (size (procs s))) (zombie_round k) (0, h)) Q s.
Proof.
  intros Hl H0' H1'.
  apply (wp_loop (λ n c s', s' = s ∧ ∃ l1 l2, l = l1 ++ l2 ∧ n = length l2 ∧ Forall (λ c, ¬ reapable k (procs s) c) l1 ∧
    c.1 = default 0 (last l1) ∧ chain (clinks (procs s)) c.2 l2) _ _ (length l)).
  - apply Nat.lt_succ_r. by eapply (chain_size (procs s) sibling_next).
  - split; [done|]. exists [], l. by split_and!.
  - intros n [prev c] s' (-> & l1 & l2 & -> & -> & Hno & Hprev & Hc). simpl in *. subst prev. destruct l2 as [|b l2].
    + simpl in Hc. subst c. apply wp_ret, H0'. by rewrite app_nil_r.
    + destruct Hc as (-> & Hb & n & Hn & Hc). rewrite (proj2 (Z.eqb_neq _ _) Hb). unfold clinks in Hn. destruct (procs s !! b) as [y|] eqn:Hy; [|done].
      injection Hn as <-. apply wp_bind. eapply wp_proc_load; [done|]. fold (matching k y). destruct (matching k y && bool_decide (state y = PROC_ZOMBIE)) eqn:Hr.
      * apply andb_true_iff in Hr as [Hm Hz%bool_decide_eq_true]. apply wp_ret. eapply H1'; [done|done|by exists y].
      * apply wp_ret. exists (length l2). split; [simpl; lia|]. split; [done|]. exists (l1 ++ [b]), l2. rewrite <-app_assoc, last_snoc. split_and!; try done.
        apply Forall_app. split; [done|]. constructor; [|done]. intros (y' & Hy' & Hm & Hz). rewrite Hy in Hy'. injection Hy' as <-.
        rewrite Hm, bool_decide_eq_true_2 in Hr by done. done.
Qed.
Lemma wp_find_match s k h l (Q : bool → St → Prop) :
  siblings s h l → (∀ b, (b = true ↔ ∃ c y, c ∈ l ∧ procs s !! c = Some y ∧ matching k y = true) → Q b s) →
  wp (loop (S (size (procs s))) (match_round k) h) Q s.
Proof.
  intros Hl HQ.
  apply (wp_loop (λ n c s', s' = s ∧ ∃ l1 l2, l = l1 ++ l2 ∧ n = length l2 ∧ Forall (λ c, ∀ y, procs s !! c = Some y → matching k y = false) l1 ∧
    chain (clinks (procs s)) c l2) _ _ (length l)).
  - apply Nat.lt_succ_r. by eapply (chain_size (procs s) sibling_next).
  - split; [done|]. exists [], l. by split_and!.
  - intros n c s' (-> & l1 & l2 & -> & -> & Hno & Hc). destruct l2 as [|b l2].
    + simpl in Hc. subst c. apply wp_ret, HQ. split; [done|]. intros (c & y & Hin & Hy & Hm). rewrite app_nil_r in Hin.
      rewrite Forall_forall in Hno. rewrite (Hno c Hin y Hy) in Hm. done.
    + destruct Hc as (-> & Hb & n & Hn & Hc). unfold match_round. rewrite (proj2 (Z.eqb_neq _ _) Hb). unfold clinks in Hn.
      destruct (procs s !! b) as [y|] eqn:Hy; [|done]. injection Hn as <-. apply wp_bind. eapply wp_proc_load; [done|]. fold (matching k y).
      destruct (matching k y) eqn:Hm; apply wp_ret.
      * apply HQ. split; [|done]. intros _. exists b, y. split_and!; [set_solver|done|done].
      * exists (length l2). split; [simpl; lia|]. split; [done|]. exists (l1 ++ [b]), l2. rewrite <-app_assoc. split_and!; try done.
        apply Forall_app. split; [done|]. constructor; [|done]. intros y'. rewrite Hy. by intros [= <-].
Qed.

(** The child [z] of [p] is taken out of the list of children. *)
Definition orphaned (p : Z) (x : proc_t) (l1 l2 : list Z) (z : Z) (m m' : gmap Z proc_t) : Prop :=
  (∃ h, m' !! p = Some (set_children h x) ∧ chain (clinks m') h (l1 ++ l2)) ∧ m' !! z = m !! z ∧ (∀ a, plinks m' a = plinks m a) ∧ dom m' = dom m.
Lemma wp_take_child s p x l1 z l2 y (Q : unit → St → Prop) :
  procs s !! p = Some x → procs s !! z = Some y → p ∉ l1 ++ z :: l2 → siblings s (children x) (l1 ++ z :: l2) →
  (∀ m, orphaned p x l1 l2 z (procs s) m → Q tt (put_procs m s)) →
  wp (if negb (default 0 (last l1) =? 0) then proc_store (default 0 (last l1)) (set_sibling_next (sibling_next y)) else proc_store p (set_children (sibling_next y))) Q s.
Proof.
  intros Hp Hz Hpl Hc HQ. assert (clinks (procs s) z = Some (sibling_next y)) as Hnz by (unfold clinks; by rewrite Hz).
  pose proof (slist_nodup _ _ _ Hc) as (Hnd1 & Hd & Hnd2)%NoDup_app. assert (z ∉ l1) as Hz1 by (intros Hin; apply (Hd z Hin); by left).
  assert (p ≠ z) as Hpz by set_solver. assert (∀ m' q v, procs s !! q = Some v → (∃ w, m' = <[q := w]> (procs s) ∧ global_next w = global_next v) →
    (∀ a, plinks m' a = plinks (procs s) a) ∧ dom m' = dom (procs s)) as Hsame.
  { intros m' q v Hq (w & -> & Hw). split; [|apply dom_insert_lookup_L; by eexists]. intros a. unfold plinks.
    destruct (decide (q = a)) as [->|]; [rewrite lookup_insert_eq, Hq; simpl; by rewrite Hw|by rewrite lookup_insert_ne]. }
  destruct (last l1) as [q|] eqn:Hlast; simpl.
  - pose proof Hlast as Hq%last_Some_elem_of. assert (q ≠ 0) as Hq0 by (eapply chain_ne0; [exact Hc|set_solver]).
    rewrite (proj2 (Z.eqb_neq _ _) Hq0). simpl. destruct (clinks_lookup _ _ _ q Hc) as (w & Hw & Hwn); [set_solver|].
    eapply wp_proc_store; [exact Hw|]. apply HQ. assert (q ≠ p) by set_solver. assert (q ≠ z) by set_solver. split_and!.
    + exists (children x). rewrite lookup_insert_ne by done. rewrite Hp. split; [f_equal; by destruct x|].
      pose proof (chain_remove (clinks (procs s)) (clinks (<[q:=set_sibling_next (sibling_next y) w]> (procs s))) (children x) l1 z l2 (sibling_next y) Hc Hnz) as Hr.
      destruct l1 as [|b l1]; [done|]. apply Hr; intros a Ha Hla; rewrite Hlast in Hla; unfold clinks.
      * injection Hla as <-. by rewrite lookup_insert_eq.
      * rewrite lookup_insert_ne; [done|]. intros ->. done.
    + by rewrite lookup_insert_ne.
    + eapply Hsame; [exact Hw|]. by eexists.
    + eapply Hsame; [exact Hw|]. by eexists.
  - apply last_None in Hlast as ->. simpl in *. eapply wp_proc_store; [exact Hp|]. apply HQ. split_and!.
    + exists (sibling_next y). rewrite lookup_insert_eq. split; [done|]. apply clinks_insert; [|intros x' Hin; set_solver].
      exact (chain_step _ _ [] _ _ _ Hc Hnz).
    + by rewrite lookup_insert_ne.
    + eapply Hsame; [exact Hp|]. by eexists.
    + eapply Hsame; [exact Hp|]. by eexists.
Qed.

Lemma first_unique {A} (P : A → Prop) l1 z l2 l1' z' l2' :
  l1 ++ z :: l2 = l1' ++ z' :: l2' → Forall (λ c, ¬ P c) l1 → P z → Forall (λ c, ¬ P c) l1' → P z' → l1 = l1' ∧ z = z' ∧ l2 = l2'.
Proof.
  revert l1'. induction l1 as [|a l1 IH]; intros [|b l1'] Heq H1' Hz H2 Hz'; simplify_eq/=; [done|by inversion H2|by inversion H1'|].
  inversion H1'; inversion H2; subst. destruct (IH l1') as (-> & -> & ->); done.
Qed.

(** The state in which a parent looks at its children. *)
Lemma locked_siblings s p x h l : procs s !! p = Some x → siblings s h l → siblings (put_procs (<[p := set_lock (held me) x]> (procs s)) s) h l.
Proof. intros Hp Hl. apply clinks_insert; [exact Hl|]. intros x' _. rewrite Hp. by intros [= <-]. Qed.
Lemma locked_reapable k m p x c : m !! p = Some x → reapable k (<[p := set_lock (held me) x]> m) c ↔ reapable k m c.
Proof.
  intros Hp. unfold reapable. destruct (decide (p = c)) as [<-|]; [|by rewrite lookup_insert_ne]. rewrite lookup_insert_eq, Hp.
  split; intros (y & [= <-] & Hm & Hs); eauto.
Qed.

(** A round that finds a child, none to wait for, or one to wait for. *)
Section round.
Context (waitqueue_wait : Z → M St unit).
Lemma wp_wait_reap s p x k l1 z l2 y g1 g2 la le S A (Q : unit + (Z * option Z) → St → Prop) :
  procs s !! p = Some x → lock x = unlocked → siblings s (children x) (l1 ++ z :: l2) → p ∉ l1 ++ z :: l2 →
  Forall (λ c, ¬ reapable k (procs s) c) l1 → matching k y = true → state y = PROC_ZOMBIE →
  procs s !! z = Some y → lock y = unlocked → refcount y = 1 → proc_list_lock s = unlocked → plist s (g1 ++ z :: g2) →
  owns_args s y la le S A → env_ok (env s) → holds_res y (view (env s)) →
  (∀ m e', orphaned p x l1 l2 z (procs s) m → env_ok e' → view e' = released y (view (env s)) →
     Q (inr (pid y, Some (exit_code y))) (put_procs (delete z (relink g1 (global_next y) m)) (put_proc_list_head (rehead g1 (global_next y) (proc_list_head s))
       (put_arrs A (put_strs S (put_env e' s)))))) →
  wp (wait_round me waitqueue_wait p k tt) Q s.
Proof.
  intros Hp Hlx Hsib Hpl Hno Hm Hst Hz Hly Hr Hll Hpls Hargs Hok Hres HQ. assert (p ≠ z) as Hpz by set_solver.
  assert (reapable k (procs s) z) as Hrz by (by exists y). apply wp_bind. eapply wp_plock_acquire; [done|done|].
  set (s1 := put_procs _ s). assert (siblings s1 (children x) (l1 ++ z :: l2)) as Hsib1 by (by apply locked_siblings).
  apply wp_bind. eapply wp_pget; [apply lookup_insert_eq|]. apply wp_bind, wp_gets, wp_bind. simpl (children _).
  apply (wp_find_zombie s1 k _ _ _ Hsib1).
  { intros Hall. exfalso. rewrite Forall_app, Forall_cons in Hall. destruct Hall as (_ & Hall & _). apply Hall. by apply locked_reapable. }
  intros l1' z' l2' Heq Hno' Hr'. apply (first_unique (reapable k (procs s))) in Heq as (<- & <- & <-); [|done|done| |by apply locked_reapable in Hr'].
  2: { eapply Forall_impl; [exact Hno'|]. intros c Hc Hc'. apply Hc. by apply locked_reapable. }
  assert (z ≠ 0) as Hz0 by (eapply chain_ne0; [exact Hsib|set_solver]). rewrite (proj2 (Z.eqb_neq _ _) Hz0). apply wp_bind, wp_ret. cbn [andb negb].
  apply wp_bind. eapply wp_pget; [simpl; rewrite lookup_insert_ne by done; exact Hz|]. apply wp_bind.
  eapply (wp_take_child s1 p (set_lock (held me) x) l1 z l2 y); [apply lookup_insert_eq|simpl; rewrite lookup_insert_ne by done; exact Hz|done|exact Hsib1|].
  intros m ((h & Hmp & Hmc) & Hmz & Hml & Hmd). simpl in Hmz. rewrite lookup_insert_ne in Hmz by done. rewrite Hz in Hmz.
  apply wp_bind. eapply wp_plock_release; [exact Hmp|done|]. simpl. set (m2 := <[p := set_lock unlocked _]> m).
  assert (orphaned p x l1 l2 z (procs s) m2) as Hor.
  { split_and!.
    - exists h. unfold m2. rewrite lookup_insert_eq. split; [destruct x; simpl in *; by subst|]. apply clinks_insert; [exact Hmc|]. intros x' _. rewrite Hmp. by intros [= <-].
    - unfold m2. by rewrite lookup_insert_ne, Hmz, Hz.
    - intros a. transitivity (plinks m a).
      + unfold m2, plinks. destruct (decide (p = a)) as [->|]; [by rewrite lookup_insert_eq, Hmp|by rewrite lookup_insert_ne].
      + rewrite Hml. unfold s1, plinks. simpl. destruct (decide (p = a)) as [->|]; [by rewrite lookup_insert_eq, Hp|by rewrite lookup_insert_ne].
    - unfold m2. rewrite dom_insert_L, Hmd. simpl. rewrite dom_insert_L. assert (p ∈ dom (procs s)) by (apply elem_of_dom; by eexists). set_solver. }
  clearbody m2. apply wp_bind. pose proof Hor as (_ & Hz2 & Hpl2 & _). rewrite Hz in Hz2. eapply wp_proc_load; [exact Hz2|].
  apply wp_bind. eapply wp_proc_store; [exact Hz2|]. apply wp_bind.
  eapply (wp_proc_unref_last me _ _ z (set_state PROC_DEAD y) g1 g2 la le S A); try done.
  - apply lookup_insert_eq.
  - unfold plist. simpl. eapply chain_store; [|exact Hz2|done]. eapply chain_ext; [|exact Hpls]. intros a _. by rewrite Hpl2.
  - intros e' He Hv. apply wp_ret. simpl. assert (z ∉ g1) as Hzg. { pose proof (slist_nodup _ _ _ Hpls) as (_ & Hd & _)%NoDup_app. intros Hin. apply (Hd z Hin). by left. }
    specialize (HQ m2 e' Hor He Hv). replace (delete z (relink g1 (global_next y) (<[z:=set_state PROC_DEAD y]> m2))) with (delete z (relink g1 (global_next y) m2)); [exact HQ|].
    apply map_eq. intros q. destruct (decide (z = q)) as [->|Hne]; [by rewrite !lookup_delete_eq|]. rewrite !lookup_delete_ne by done.
    unfold relink. destruct (last g1) as [b|] eqn:Hb; [|by rewrite lookup_insert_ne]. destruct (decide (b = q)) as [->|]; [by rewrite !lookup_alter_eq, lookup_insert_ne|].
    by rewrite !lookup_alter_ne, lookup_insert_ne.
Qed.

Lemma wp_wait_none s p x k l (Q : unit + (Z * option Z) → St → Prop) :
  procs s !! p = Some x → lock x = unlocked → siblings s (children x) l → Forall (λ c, ¬ reapable k (procs s) c) l →
  ((∀ c y, c ∈ l → procs s !! c = Some y → matching k y = false) → Q (inr (- ECHILD, None)) s) →
  ((∃ c y, c ∈ l ∧ procs s !! c = Some y ∧ matching k y = true) → wp (waitqueue_wait p) (λ _ s', Q (inl tt) s') s) →
  wp (wait_round me waitqueue_wait p k tt) Q s.
Proof.
  intros Hp Hlx Hsib Hno H0' H1'. apply wp_bind. eapply wp_plock_acquire; [done|done|]. set (s1 := put_procs _ s).
  assert (siblings s1 (children x) l) as Hsib1 by (by apply locked_siblings). apply wp_bind. eapply wp_pget; [apply lookup_insert_eq|].
  apply wp_bind, wp_gets, wp_bind. simpl (children _).
  assert (∀ (Q' : unit → St → Prop), Q' tt s → wp (plock p (lock_release me)) Q' s1) as Hrel.
  { intros Q' HQ'. eapply wp_plock_release; [apply lookup_insert_eq|done|]. simpl. rewrite insert_insert_eq.
    replace (set_lock unlocked _) with x by (destruct x; simpl in *; by subst). rewrite insert_id by done. by destruct s. }
  apply (wp_find_zombie s1 k _ _ _ Hsib1).
  2: { intros l1 z l2 -> _ Hz. exfalso. rewrite Forall_app, Forall_cons in Hno. destruct Hno as (_ & Hz' & _). apply Hz'. by apply locked_reapable in Hz. }
  intros _ prev. simpl. apply wp_bind. apply (wp_find_match s1 k _ _ _ Hsib1). intros b Hb.
  assert (b = true ↔ ∃ c y, c ∈ l ∧ procs s !! c = Some y ∧ matching k y = true) as Hb'.
  { rewrite Hb. split; intros (c & y & Hin & Hy & Hm); destruct (decide (p = c)) as [<-|].
    - simpl in Hy. rewrite lookup_insert_eq in Hy. injection Hy as <-. by exists p, x.
    - simpl in Hy. rewrite lookup_insert_ne in Hy by done. by exists c, y.
    - rewrite Hp in Hy. injection Hy as <-. exists p, (set_lock (held me) x). simpl. by rewrite lookup_insert_eq.
    - exists c, y. simpl. by rewrite lookup_insert_ne. }
  destruct b; cbn [negb andb].
  - apply wp_bind, Hrel, wp_bind. eapply wp_mono; [by apply H1', Hb'|]. intros [] s'. by apply wp_ret.
  - apply wp_bind, Hrel, wp_ret, H0'. intros c y Hin Hy. destruct (matching k y) eqn:Hm; [|done]. assert (false = true) by (apply Hb'; by exists c, y). done.
Qed.
End round.
End life.

(** * Creating a thread, and its end *)

Section threads.
Context (me hhdm_offset thread_bootstrap_trampoline : Z).
Context `{TaskLaws hhdm_offset E}.
Local Abbreviation St := (task_state E).
Implicit Types s : St.

Definition tlinks (m : gmap Z thread_t) (a : Z) : option Z := proc_next <$> m !! a.
(** The threads of a process whose first one is [h]. *)
Definition threads_are s (h : Z) (l : list Z) : Prop := chain (tlinks (thrs s)) h l.

(** Thread [t] is out of the list of its process. *)
Definition unlinked (x : proc_t) (l1 l2 : list Z) (t : Z) (y : thread_t) (m m' : gmap Z thread_t) (h : Z) : Prop :=
  chain (tlinks m') h (l1 ++ l2) ∧ m' !! t = Some y ∧ dom m' = dom m ∧ ∀ a, last l1 ≠ Some a → m' !! a = m !! a.
Lemma wp_unlink_thread s p x t y l1 l2 (Q : unit → St → Prop) :
  procs s !! p = Some x → lock x = unlocked → thrs s !! t = Some y → threads_are s (threads x) (l1 ++ t :: l2) →
  (∀ m h, unlinked x l1 l2 t y (thrs s) m h → Q tt (put_thrs m (put_procs (<[p := set_threads h x]> (procs s)) s))) →
  wp (proc_unlink_thread me p t) Q s.
Proof.
  intros Hp Hl Ht Hc HQ. apply wp_bind. eapply wp_plock_acquire; [done|done|]. apply wp_bind, wp_gets, wp_bind. set (s1 := put_procs _ s).
  assert (t ∉ l1) as Hnt. { pose proof (slist_nodup _ _ _ Hc) as (_ & Hd & _)%NoDup_app. intros Hin. apply (Hd t Hin). by left. }
  eapply (unlink_spec (threads_of p) (tlinks (thrs s)) _ (threads x) (l1 ++ t :: l2)); [|exact Hc| | |].
  - split; [unfold s1; simpl; unfold pget, proc_load, mbind, M_bind; simpl; by rewrite lookup_insert_eq|].
    intros a n Hn. unfold tlinks in Hn. simpl. unfold thr_load, mbind, M_bind. simpl. destruct (thrs s !! a); simpl in *; [by injection Hn as ->|done].
  - apply Nat.lt_succ_r. by eapply (chain_size (thrs s) proc_next).
  - intros Hno. set_solver.
  - intros l1' l2' n Heq Hno Hn. destruct (slist_split_unique _ _ _ _ _ _ _ Hc Hno Heq) as [<- <-].
    assert (∀ m h s', unlinked x l1 l2 t y (thrs s) m h → s' = put_thrs m (put_procs (<[p := set_threads h (set_lock (held me) x)]> (procs s)) s) →
      wp (plock p (lock_release me)) Q s') as Hend.
    { intros m h s' Hu ->. eapply wp_plock_release; [apply lookup_insert_eq|done|]. simpl. rewrite insert_insert_eq.
      replace (set_lock unlocked _) with (set_threads h x) by (destruct x; simpl in *; by subst). by apply HQ. }
    destruct (last l1) as [q|] eqn:Hlast; simpl.
    + pose proof Hlast as Hq%last_Some_elem_of. destruct (chain_is_Some _ _ _ q Hc) as [nq Hnq]; [set_solver|]. unfold tlinks in Hnq.
      destruct (thrs s !! q) as [w|] eqn:Hw; [|done]. eapply wp_thr_store; [exact Hw|]. eapply (Hend (<[q := tset_proc_next n w]> (thrs s)) (threads x)).
      * split_and!; [| |apply dom_insert_lookup_L; by eexists|].
        -- pose proof (chain_remove (tlinks (thrs s)) (tlinks (<[q:=tset_proc_next n w]> (thrs s))) (threads x) l1 t l2 n Hc Hn) as Hr.
           destruct l1 as [|b l1]; [done|]. apply Hr; intros a Ha Hla; rewrite Hlast in Hla; unfold tlinks.
           ++ injection Hla as <-. by rewrite lookup_insert_eq.
           ++ rewrite lookup_insert_ne; [done|]. by intros ->.
        -- rewrite lookup_insert_ne; [done|]. intros ->. done.
        -- intros a Ha. rewrite lookup_insert_ne; [done|]. congruence.
      * unfold s1. simpl. replace (set_threads (threads x) _) with (set_lock (held me) x) by (by destruct x). done.
    + apply last_None in Hlast as ->. eapply wp_proc_store; [apply lookup_insert_eq|]. apply (Hend (thrs s) n).
      * split_and!; [|done|done|done]. exact (chain_step _ _ [] _ _ _ Hc Hn).
      * unfold s1. simpl. rewrite insert_insert_eq. by destruct s.
Qed.

(** A thread that another one ends, and that is not the last one of its process. *)
Lemma wp_thread_exit_other s p x t y l1 l2 pg code (Q : unit → St → Prop) :
  t ≠ 0 → t ≠ current_thread s → thrs s !! t = Some y → t_lock y = unlocked → proc y = p →
  procs s !! p = Some x → lock x = unlocked → 2 ≤ live_thread_count x → threads_are s (threads x) (l1 ++ t :: l2) →
  kstack_base y = base_of hhdm_offset pg → kstack_size y = KSTACK_SIZE → pg ≠ 0 → pg ∈ stacks (view (env s)) → stack_fits hhdm_offset (phys_of pg) 64 → env_ok (env s) →
  (∀ m h e', chain (tlinks m) h (l1 ++ l2) → dom m = dom (thrs s) ∖ {[t]} → env_ok e' → view e' = upd_stacks (λ S, S ∖ {[pg]}) (view (env s)) →
     Q tt (put_thrs m (put_procs (<[p := set_threads h (set_live_thread_count (live_thread_count x - 1) x)]> (procs s)) (put_env e' s)))) →
  wp (thread_exit me hhdm_offset t code) Q s.
Proof.
  intros Ht0 Htc Ht Hlt Hpy Hp Hl Hlive Hc Hbase Hsize Hpg Hin Hfit Hok HQ. unfold thread_exit. rewrite (proj2 (Z.eqb_neq _ _) Ht0).
  apply wp_bind. eapply wp_thr_load; [done|]. apply wp_bind, wp_gets. apply wp_bind. eapply wp_tlock_acquire; [done|done|]. apply wp_bind.
  eapply wp_thr_store; [apply lookup_insert_eq|]. apply wp_bind. eapply wp_tlock_release; [apply lookup_insert_eq|done|]. simpl. rewrite !insert_insert_eq, Hpy.
  set (y' := tset_t_lock unlocked _). set (m0 := <[t := y']> (thrs s)).
  apply wp_bind. eapply wp_plock_acquire; [exact Hp|done|]. apply wp_bind. eapply wp_pget; [apply lookup_insert_eq|]. simpl. rewrite Z.gtb_ltb, (proj2 (Z.ltb_lt _ _)) by lia.
  cbn [when]. apply wp_bind. eapply wp_proc_store; [apply lookup_insert_eq|]. apply wp_bind. eapply wp_pget; [apply lookup_insert_eq|].
  apply wp_bind. eapply wp_plock_release; [apply lookup_insert_eq|done|]. simpl. rewrite !insert_insert_eq. rewrite (proj2 (Z.eqb_neq (live_thread_count x - 1) 0)) by lia. cbn [when].
  apply wp_bind, wp_ret. apply wp_bind. replace (set_lock unlocked _) with (set_live_thread_count (live_thread_count x - 1) x) by (destruct x; simpl in *; by subst).
  set (x' := set_live_thread_count (live_thread_count x - 1) x).
  eapply (wp_unlink_thread _ p x' t y' l1 l2); [apply lookup_insert_eq|done|apply lookup_insert_eq| |].
  { eapply chain_ext; [|exact Hc]. intros a _. unfold tlinks. simpl. unfold m0. destruct (decide (t = a)) as [->|]; [by rewrite lookup_insert_eq, Ht|by rewrite lookup_insert_ne]. }
  intros m h (Hcm & Hmt & Hmd & _). rewrite (proj2 (Z.eqb_neq _ _) Htc). simpl. rewrite insert_insert_eq. apply wp_bind. eapply wp_thr_load; [exact Hmt|].
  assert (kstack_base y' = base_of hhdm_offset pg ∧ kstack_size y' = KSTACK_SIZE) as [-> ->] by done. apply wp_bind.
  eapply wp_kstack_free; [done|exact Hin|done|done|]. intros e' He Hv. apply wp_bind. eapply wp_thr_load; [exact Hmt|]. apply wp_modify.
  assert (t ∉ l1 ++ l2) as Hno.
  { pose proof (slist_nodup _ _ _ Hc) as (_ & Hd & Hnd)%NoDup_app. apply NoDup_cons in Hnd as [? _]. intros [Hi|Hi]%elem_of_app; [|done]. apply (Hd t Hi). by left. }
  apply (HQ (delete t m) h e'); [| |done|done].
  - eapply chain_ext; [|exact Hcm]. intros a Ha. unfold tlinks. rewrite lookup_delete_ne; [done|]. by intros ->.
  - rewrite dom_delete_L, Hmd. simpl. unfold m0. rewrite dom_insert_L. assert (t ∈ dom (thrs s)) by (apply elem_of_dom; by eexists). set_solver.
Qed.
End threads.
