(* ===== verification/TaskTheorems.v ===== *)
(** Processes and threads: forking, ending and waiting, the list of processes,
    arguments and the auxiliary vector. *)
From S2P Require Import Prelude Errno Sync SList Task TaskSpec TaskArgs TaskStack TaskOps TaskLife.

(** An environment for tasks that keeps what it has given out as sets, and a small
    system in it: the init process with a child that has a child and two threads. *)
Module TaskDemo.
Definition hhdm : Z := 2 ^ 47.
(** What there is, and what the next requests are answered with. *)
Record denv := mkDenv { d_view : res; d_next : list Z }.
Definition answer (has : res → Z → bool) (upd : Z → res → res) : M denv Z := λ e,
  match d_next e with
  | [] => Done (0, e)
  | a :: r => if (a =? 0) || has (d_view e) a then Done (0, mkDenv (d_view e) r) else Done (a, mkDenv (upd a (d_view e)) r)
  end.
Definition in_map (get : res → gmap Z origin) (v : res) (a : Z) : bool := bool_decide (is_Some (get v !! a)).
Definition new_space (o : origin) : M denv Z := answer (in_map spaces) (λ a, upd_spaces <[a := o]>).
Definition new_table (o : origin) : M denv Z := answer (in_map tables) (λ a, upd_tables <[a := o]>).
Definition change (f : res → res) : M denv unit := modify (λ e, mkDenv (f (d_view e)) (d_next e)).
Definition note (c : call) : M denv unit := modify (λ e, mkDenv (add_call c (d_view e)) (d_next e)).
Definition fits (n a : Z) : bool :=
  (0 <=? a * 4096) && (a * 4096 <? 2 ^ 64) && (0 <? stack_at hhdm (a * 4096)) && (stack_at hhdm (a * 4096) + n * PAGE_SIZE <? 2 ^ 64) &&
  (stack_at hhdm (a * 4096) `mod` PAGE_SIZE =? 0).

#[global] Instance demo_deps : TaskDeps denv := {|
  vmm_kernel := mret 1;
  vmm_create := new_space Fresh;
  vmm_fork v := new_space (CopyOf v);
  vmm_destroy v := change (upd_spaces (delete v));
  vmm_map _ _ _ _ := mret 0;
  fdtable_create := new_table Fresh;
  fdtable_clone t := new_table (CopyOf t);
  fdtable_unref t := change (upd_tables (delete t));
  pmm_alloc_pages n := answer (λ v a, bool_decide (a ∈ stacks v) || negb (fits n a)) (λ a, upd_stacks (λ S, {[a]} ∪ S));
  pmm_pages_release a _ := change (upd_stacks (λ S, S ∖ {[a]}));
  pfn_db_page_to_phys a := mret (a * 4096);
  pfn_db_phys_to_page v := mret (v / 4096);
  sched_enqueue t := note (Enqueue t);
  sched_exit_current t c := note (ExitCurrent t c);
  waitqueue_wake_all p := note (WakeAll p);
|}.

Lemma answer_law has upd e :
  wp (answer has upd) (λ r e', (r = 0 ∧ d_view e' = d_view e) ∨ (r ≠ 0 ∧ has (d_view e) r = false ∧ d_view e' = upd r (d_view e))) e.
Proof.
  unfold wp, answer. destruct (d_next e) as [|a r]; [by left|]. destruct (a =? 0) eqn:Ha; simpl; [by left|].
  destruct (has (d_view e) a) eqn:Hh; simpl; [by left|]. right. split_and!; [lia|done|done].
Qed.
Lemma in_map_law get upd o e :
  wp (answer (in_map get) (λ a, upd <[a := o]>)) (λ r e', True ∧ created get upd o r (d_view e) (d_view e')) e.
Proof.
  eapply wp_mono; [apply answer_law|]. intros r e' [H|(Hr & Hh & Hv)]; (split; [done|]); [by left|right].
  apply bool_decide_eq_false in Hh. split_and!; [done|by apply eq_None_not_Some|done].
Qed.
#[global] Program Instance demo_laws : TaskLaws hhdm denv := {| env_ok _ := True; view := d_view; phys_of a := a * 4096 |}.
Next Obligation. done. Qed.
Next Obligation. intros. apply in_map_law. Qed.
Next Obligation. intros. apply in_map_law. Qed.
Next Obligation. done. Qed.
Next Obligation. intros. apply in_map_law. Qed.
Next Obligation. intros. apply in_map_law. Qed.
Next Obligation. done. Qed.
Next Obligation.
  intros e n _ Hn. eapply wp_mono; [apply answer_law|]. intros r e' [[-> Hv]|(Hr & Hh & Hv)]; [split_and!; [done|by left|done]|].
  apply orb_false_iff in Hh as [Hin%bool_decide_eq_false Hg%negb_false_iff]. split_and!; [done|by right|]. intros _.
  unfold fits in Hg. rewrite !andb_true_iff in Hg. unfold stack_fits. lia.
Qed.
Next Obligation. done. Qed.
Next Obligation. done. Qed.
Next Obligation. intros e r _ _. split; [done|]. apply Z.div_mul. done. Qed.
Next Obligation. done. Qed.
Next Obligation. done. Qed.
Next Obligation. done. Qed.

(** ** A small system *)

Definition noaux : list (Z * Z) := replicate 32 (0, 0).
Definition p_init : proc_t := mkProc 1 [105] PROC_RUNNING 2 1 0 2000 0 0 0 0 11 0 0 0 0 noaux 0 0 0 0 1 unlocked 0.
Definition p_mid : proc_t := mkProc 2 [109] PROC_RUNNING 1 22 1000 3000 0 5000 2 2 12 7000 1 0 0 ((6, 4096) :: replicate 31 (0, 0)) 1 0 5 6 1 unlocked 1000.
Definition p_kid : proc_t := mkProc 3 [107] PROC_RUNNING 1 23 2000 0 0 0 0 0 13 0 0 0 0 noaux 0 0 5 6 1 unlocked 2000.
Definition base : Z := stack_at hhdm (16 * 4096).
Definition t1 : thread_t := mkThread 1 2000 THREAD_RUNNING 0 0 (-1) 0 0 0 zero_fpu 0 5100 unlocked.
Definition t2 : thread_t := mkThread 2 2000 THREAD_READY 0 0 (-1) base KSTACK_SIZE 0 zero_fpu 0 0 unlocked.
Definition sys : task_state denv :=
  mkTask {[1000 := p_init; 2000 := p_mid; 3000 := p_kid]} {[5000 := t1; 5100 := t2]} {[7100 := [97; 98]]} {[7000 := [7100]]} ∅ 3000 unlocked 4 3 unlocked
    1000 5000 [8000; 8100; 8200; 8300; 8400] (mkDenv (mkRes {[22 := Fresh; 23 := CopyOf 22]} {[11 := Fresh; 12 := Fresh; 13 := CopyOf 12]} {[16]} []) [24; 14; 32]).

Lemma sys_heap : heap_ok sys.
Proof. split; [apply (bool_decide_unpack _); vm_compute; exact I|]. intros a Ha _. apply (bool_decide_unpack _). simpl in Ha. repeat (apply elem_of_cons in Ha as [->|Ha]; [vm_compute; exact I|]). by apply elem_of_nil in Ha. Qed.
Lemma sys_list : plist sys ([] ++ 3000 :: [2000; 1000]).
Proof. repeat (split; [reflexivity|]; split; [done|]; eexists; split; [reflexivity|]). done. Qed.
Lemma kid_of_mid : siblings sys (children p_mid) ([] ++ 3000 :: []).
Proof. split; [reflexivity|]; split; [done|]; eexists; split; [reflexivity|]. done. Qed.
Lemma mid_args : owns_args sys p_mid [[97; 98]] [] ∅ ∅.
Proof.
  exists {[7100 := [97; 98]]}, {[7000 := [7100]]}, ∅, ∅. rewrite !map_empty_union, !map_union_empty.
  split_and!; try apply map_disjoint_empty_l; try apply map_disjoint_empty_r; try reflexivity; [right|by left].
  split_and!; [done|done|]. exists [7100]. split_and!; [done|set_solver|apply NoDup_singleton|by repeat constructor|]. repeat constructor.
Qed.
(** The same system with an array that belongs to no process. *)
Definition sys_more : task_state denv := put_strs {[7100 := [97; 98]; 7300 := [99]]} (put_arrs {[7000 := [7100]; 7200 := [7300]]} sys).
Lemma more_heap : heap_ok sys_more.
Proof. split; [apply (bool_decide_unpack _); vm_compute; exact I|]. intros a Ha _. apply (bool_decide_unpack _). simpl in Ha. repeat (apply elem_of_cons in Ha as [->|Ha]; [vm_compute; exact I|]). by apply elem_of_nil in Ha. Qed.
Lemma more_args : owns_args sys_more p_mid [[97; 98]] [] {[7300 := [99]]} {[7200 := [7300]]}.
Proof.
  exists {[7100 := [97; 98]]}, {[7000 := [7100]]}, ∅, ∅. rewrite !map_empty_union.
  split_and!; try apply map_disjoint_empty_l; try reflexivity; [right|by left|by apply map_disjoint_singleton_l_2..].
  split_and!; [done|done|]. exists [7100]. split_and!; [done|set_solver|apply NoDup_singleton|by repeat constructor|]. repeat constructor.
Qed.
End TaskDemo.

#[local] Arguments loop : simpl never.
#[local] Arguments for_n : simpl never.
#[local] Arguments Z.mul : simpl never.
#[local] Arguments Z.add : simpl never.
#[local] Arguments Z.sub : simpl never.

Section theorems.
Context (me hhdm_offset thread_bootstrap_trampoline fork_child_entry user_stub : Z).
Context `{TaskLaws hhdm_offset E}.
Local Abbreviation St := (task_state E).
Implicit Types s : St.

(** * Forking *)

(** Locks are free and the heap gives new memory. *)
Definition calm s : Prop := proc_list_lock s = unlocked ∧ tid_lock s = unlocked ∧ heap_ok s ∧ env_ok (env s).



(** * Ending *)

(** C27: A process that ends is a zombie with its exit code and without children;
    its children belong to the init process, before the ones it had, and the
    parent and the init process are woken; no other process changes. *)
Theorem proc_exit_spec s p x code l i xi li :
  procs s !! p = Some x → lock x = unlocked → state x = PROC_RUNNING → siblings s (children x) l →
  init_proc s = i → i ≠ 0 → i ≠ p → procs s !! i = Some xi → lock xi = unlocked → siblings s (children xi) li →
  i ∉ l → p ∉ l → (∀ c, c ∈ l → c ∉ li) → (∀ c y, c ∈ l → procs s !! c = Some y → lock y = unlocked) → env_ok (env s) →
  wp (proc_exit me p code) (λ _ s', ∃ h,
    procs s' !! p = Some (set_children 0 (exited code x)) ∧
    procs s' !! i = Some (set_children h xi) ∧ siblings s' h (reverse l ++ li) ∧
    (∀ c, c ∈ l → ∃ y n, procs s !! c = Some y ∧ procs s' !! c = Some (set_sibling_next n (set_parent i y))) ∧
    (∀ q, q ∉ l → q ≠ i → q ≠ p → procs s' !! q = procs s !! q) ∧
    view (env s') = add_call (WakeAll i) (woken (parent x) (view (env s)))) s.
Proof.
  intros Hp Hl Hst Hsib Hi Hi0 Hip Hxi Hlxi Hli Hil Hpl Hdis Hlocks Hok. eapply wp_proc_exit; [done|done|done|done|].
  set (s1 := put_procs _ s). assert (size (procs s) = size (procs s1)) as -> by (simpl; rewrite map_size_insert, Hp; done).
  assert (∀ h l', siblings s h l' → siblings s1 h l') as Hsib1.
  { intros h l' Hl'. apply clinks_insert; [exact Hl'|]. intros x' _. rewrite Hp. by intros [= <-]. }
  eapply (wp_orphans _ s1 i xi (children xi) li (children x) l); try done; try (by apply Hsib1).
  - simpl. by rewrite lookup_insert_ne.
  - intros c y Hc. simpl. rewrite lookup_insert_ne by set_solver. by apply Hlocks.
  - intros m (h & Hmi & Hch & Hm1 & Hm2). assert (m !! p = Some (exited code x)) as Hmp by (rewrite Hm2 by done; apply lookup_insert_eq).
    apply wp_bind. eapply wp_proc_store; [exact Hmp|]. apply wp_bind. eapply wp_pget; [apply lookup_insert_eq|]. apply wp_bind. simpl (parent _).
    apply (wp_wake hhdm_offset); [done|]. intros e1 He1 Hv1. apply wp_bind, wp_gets. simpl (init_proc _). rewrite Hi.
    apply (wp_wake hhdm_offset); [done|]. intros e2 He2 Hv2. exists h. simpl. split_and!.
    + apply lookup_insert_eq.
    + by rewrite lookup_insert_ne.
    + apply clinks_insert; [exact Hch|]. intros x' _. rewrite Hmp. by intros [= <-].
    + intros c Hc. destruct (Hm1 c Hc) as (y & n & Hy & Hy'). simpl in Hy. rewrite lookup_insert_ne in Hy by set_solver. exists y, n.
      split; [done|]. rewrite lookup_insert_ne by set_solver. done.
    + intros q Hq Hqi Hqp. rewrite lookup_insert_ne by done. rewrite Hm2 by done. simpl. by rewrite lookup_insert_ne.
    + rewrite Hv2. simpl. rewrite Hv1. simpl. unfold woken at 1. by rewrite (proj2 (Z.eqb_neq _ _) Hi0).
Qed.
(** A process that has ended does not end again. *)
Theorem proc_exit_twice s p x code :
  procs s !! p = Some x → lock x = unlocked → state x ≠ PROC_RUNNING → wp (proc_exit me p code) (λ _ s', s' = s) s.
Proof.
  intros Hp Hl Hst. apply wp_bind. eapply wp_plock_acquire; [done|done|]. apply wp_bind. eapply wp_pget; [apply lookup_insert_eq|]. simpl.
  assert (bool_decide (state x = PROC_ZOMBIE) || bool_decide (state x = PROC_DEAD) = true) as -> by (by destruct (state x)).
  eapply wp_plock_release; [apply lookup_insert_eq|done|]. simpl. rewrite insert_insert_eq.
  replace (set_lock unlocked _) with x by (destruct x; simpl in *; by subst). rewrite insert_id by done. by destruct s.
Qed.

(** * Waiting *)

(** A child [y] at [z] that has ended and to which nothing else refers. *)
Definition ended s (z : Z) (y : proc_t) (g1 g2 : list Z) (la le : list (list Z)) (S A : gmap Z (list Z)) : Prop :=
  procs s !! z = Some y ∧ lock y = unlocked ∧ refcount y = 1 ∧ plist s (g1 ++ z :: g2) ∧ owns_args s y la le S A ∧ holds_res y (view (env s)).
(** What is left without it. *)
Definition reaped s (p : Z) (x : proc_t) (l1 l2 : list Z) (z : Z) (y : proc_t) (g1 g2 : list Z) (S A : gmap Z (list Z)) s' : Prop :=
  procs s' !! z = None ∧ plist s' (g1 ++ g2) ∧ (∃ h x', procs s' !! p = Some x' ∧ children x' = h ∧ siblings s' h (l1 ++ l2)) ∧
  dom (procs s') = dom (procs s) ∖ {[z]} ∧ strs s' = S ∧ arrs s' = A ∧ view (env s') = released y (view (env s)).
Lemma reaped_intro s p x l1 z l2 y g1 g2 la le S A m e' :
  p ∉ l1 ++ z :: l2 → NoDup (l1 ++ z :: l2) → ended s z y g1 g2 la le S A → orphaned p x l1 l2 z (procs s) m → view e' = released y (view (env s)) →
  reaped s p x l1 l2 z y g1 g2 S A (put_procs (delete z (relink g1 (global_next y) m)) (put_proc_list_head (rehead g1 (global_next y) (proc_list_head s))
    (put_arrs A (put_strs S (put_env e' s))))).
Proof.
  intros Hpl Hnd (Hz & _ & _ & Hpls & _) ((h & Hmp & Hmc) & Hmz & Hml & Hmd) Hv.
  pose proof (slist_nodup _ _ _ Hpls) as Hndg. apply NoDup_app in Hndg as (_ & Hdg & Hndg). apply NoDup_cons in Hndg as [Hzg2 _].
  assert (z ∉ g1) as Hzg1 by (intros Hin; apply (Hdg z Hin); by left). apply NoDup_app in Hnd as (_ & Hd & Hnd). apply NoDup_cons in Hnd as [Hz2 _].
  assert (z ∉ l1) as Hz1 by (intros Hin; apply (Hd z Hin); by left). assert (p ≠ z) as Hpz by set_solver.
  assert (chain (plinks m) (proc_list_head s) (g1 ++ z :: g2)) as Hpm by (eapply chain_ext; [|exact Hpls]; intros a _; apply Hml).
  set (m' := relink g1 (global_next y) m). assert (∀ q, (children <$> m' !! q) = (children <$> m !! q) ∧ clinks m' q = clinks m q ∧ (is_Some (m' !! q) ↔ is_Some (m !! q))) as Hm'.
  { intros q. unfold m', relink, clinks. destruct (last g1) as [b|]; [|done]. destruct (decide (b = q)) as [->|]; [|by rewrite lookup_alter_ne].
    rewrite lookup_alter_eq. destruct (m !! q); simpl; split_and!; try done; split; intros [? ?]; eauto. }
  split_and!; simpl; try done.
  - apply lookup_delete_eq.
  - apply chain_delete; [apply (chain_relinked m _ g1 z g2 y); [exact Hpm|by rewrite Hmz]|]. set_solver.
  - destruct (Hm' p) as (Hc & _ & _). rewrite Hmp in Hc. simpl in Hc. destruct (m' !! p) as [x'|] eqn:Hx'; [|done]. injection Hc as Hc. exists h, x'.
    split_and!; [by rewrite lookup_delete_ne|done|]. eapply chain_ext; [|exact Hmc]. intros a Ha. simpl. unfold clinks.
    rewrite lookup_delete_ne by set_solver. apply Hm'.
  - rewrite dom_delete_L. f_equal. rewrite <-Hmd. apply leibniz_equiv. intros q. rewrite !elem_of_dom. apply Hm'.
Qed.

Section waiting.
(** What the others do while the thread waits. *)
Context (waitqueue_wait : Z → M St unit).

(** When a child that is waited for has ended, the parent gets its number and its
    exit code at once, of the first one in its list; that process is in no list
    and its memory, address space and descriptors are given back, once. *)
Theorem proc_wait_reaps s p x k l1 z l2 y g1 g2 la le S A fuel :
  procs s !! p = Some x → lock x = unlocked → siblings s (children x) (l1 ++ z :: l2) → p ∉ l1 ++ z :: l2 →
  Forall (λ c, ¬ reapable k (procs s) c) l1 → matching k y = true → state y = PROC_ZOMBIE → ended s z y g1 g2 la le S A →
  proc_list_lock s = unlocked → env_ok (env s) →
  wp (proc_wait me waitqueue_wait (Datatypes.S fuel) p k) (λ r s', r = (pid y, Some (exit_code y)) ∧ reaped s p x l1 l2 z y g1 g2 S A s') s.
Proof.
  intros Hp Hlx Hsib Hpl Hno Hm Hst Hend Hll Hok. pose proof Hend as (Hz & Hly & Hr & Hpls & Hargs & Hres). unfold proc_wait. apply wp_bind.
  eapply (wp_wait_reap _ _ _ s p x k l1 z l2 y g1 g2); try done. intros m e' Hor He Hv. apply wp_ret. split; [done|].
  eapply reaped_intro; [done|by eapply slist_nodup|exact Hend|exact Hor|exact Hv].
Qed.
(** Without a child to wait for there is an error. *)
Theorem proc_wait_echild s p x k l fuel :
  procs s !! p = Some x → lock x = unlocked → siblings s (children x) l → (∀ c y, c ∈ l → procs s !! c = Some y → matching k y = false) →
  wp (proc_wait me waitqueue_wait (S fuel) p k) (λ r s', r = (- ECHILD, None) ∧ s' = s) s.
Proof.
  intros Hp Hlx Hsib Hno. apply wp_bind. eapply (wp_wait_none _ _ _ _ x _ l); [done|done|done| |by intros _; apply wp_ret|].
  - apply Forall_forall. intros c Hc (y & Hy & Hm & _). by rewrite (Hno c y) in Hm.
  - intros (c & y & Hc & Hy & Hm). by rewrite (Hno c y) in Hm.
Qed.
(** While none of them has ended, the parent sleeps, and looks again. *)
Lemma proc_wait_sleeps s p x k l c y fuel Q :
  procs s !! p = Some x → lock x = unlocked → siblings s (children x) l → Forall (λ c, ¬ reapable k (procs s) c) l →
  c ∈ l → procs s !! c = Some y → matching k y = true →
  wp (waitqueue_wait p) (λ _ s', wp (proc_wait me waitqueue_wait fuel p k) Q s') s → wp (proc_wait me waitqueue_wait (S fuel) p k) Q s.
Proof.
  intros Hp Hlx Hsib Hno Hc Hy Hm HQ. apply wp_bind. eapply (wp_wait_none _ _ _ _ x _ l); [done|done|done|done| |done].
  intros Hall. by rewrite (Hall c y) in Hm.
Qed.
End waiting.

(** C26: The exit code that a child without children of its own ends with while its
    parent waits is what the parent gets, and then the child is gone with all it
    had: it is in neither the list of processes nor among the children of the
    parent, its strings are freed, and its descriptor table and address space are
    given back; the queues of the parent and of the init process were woken. *)
Theorem exit_wait s p x k l1 c l2 y g1 g2 la le S A code fuel :
  procs s !! p = Some x → lock x = unlocked → siblings s (children x) (l1 ++ c :: l2) → p ∉ l1 ++ c :: l2 →
  Forall (λ q, ¬ reapable k (procs s) q) (l1 ++ c :: l2) → matching k y = true → state y = PROC_RUNNING → children y = 0 → ended s c y g1 g2 la le S A →
  proc_list_lock s = unlocked → env_ok (env s) →
  wp (proc_wait me (λ _, proc_exit me c code) (Datatypes.S (Datatypes.S fuel)) p k) (λ r s',
    r = (pid y, Some code) ∧ procs s' !! c = None ∧ plist s' (g1 ++ g2) ∧ dom (procs s') = dom (procs s) ∖ {[c]} ∧ strs s' = S ∧ arrs s' = A ∧
    (∃ x', procs s' !! p = Some x' ∧ siblings s' (children x') (l1 ++ l2)) ∧
    view (env s') = released y (woken (init_proc s) (woken (parent y) (view (env s))))) s.
Proof.
  intros Hp Hlx Hsib Hpl Hno Hm Hst Hch Hend Hll Hok. pose proof Hend as (Hc & Hlc & Hr & Hpls & Hargs & Hres). assert (p ≠ c) as Hpc by set_solver.
  eapply proc_wait_sleeps; try done; [set_solver|]. eapply wp_proc_exit; [done|done|done|done|].
  change (loop (Datatypes.S ?n) ?b ?z) with (r ← b z; match r with inl x' => loop n b x' | inr a => mret a end). apply wp_bind. simpl. apply wp_ret, wp_ret.
  apply wp_bind. eapply wp_proc_store; [apply lookup_insert_eq|]. apply wp_bind. eapply wp_pget; [apply lookup_insert_eq|]. apply wp_bind.
  apply (wp_wake hhdm_offset); [done|]. intros e1 He1 Hv1. apply wp_bind, wp_gets. apply (wp_wake hhdm_offset); [done|]. intros e2 He2 Hv2. simpl. rewrite insert_insert_eq.
  replace (set_children 0 (exited code y)) with (exited code y) by (destruct y; simpl in *; by subst).
  set (s1 := put_env e2 _).
  assert (∀ q, q ≠ c → procs s1 !! q = procs s !! q) as Hs1 by (intros q Hq; simpl; by rewrite lookup_insert_ne).
  assert (siblings s1 (children x) (l1 ++ c :: l2)) as Hsib1. { apply clinks_insert; [exact Hsib|]. intros x' _. rewrite Hc. by intros [= <-]. }
  assert (c ∉ l1) as Hc1. { pose proof (slist_nodup _ _ _ Hsib) as (_ & Hd & _)%NoDup_app. intros Hin. apply (Hd c Hin). by left. }
  assert (holds_res (exited code y) (view e2)) as Hres2.
  { destruct Hres as [Hr1 Hr2]. rewrite Hv2. simpl. rewrite Hv1. simpl. split; intros Hx; unfold woken.
    - destruct (init_proc s =? 0), (parent y =? 0); simpl; by apply Hr1.
    - destruct (init_proc s =? 0), (parent y =? 0); simpl; by apply Hr2. }
  eapply wp_mono; [eapply (proc_wait_reaps (λ _, proc_exit me c code) s1 p x k l1 c l2 (exited code y) g1 g2 la le S A); try done|].
  - by rewrite Hs1.
  - apply Forall_app in Hno as [Hno _]. rewrite Forall_forall in Hno |- *. intros q Hq (w & Hw & Hr').
    rewrite Hs1 in Hw by (intros ->; done). apply (Hno q Hq). by exists w.
  - split_and!; try done; [apply lookup_insert_eq|]. unfold plist. simpl. by eapply chain_store.
  - intros r s' (-> & Hn & Hpl' & (h & x' & Hx' & <- & Hsx) & Hd & HS & HA & Hv). split_and!; try done.
    + rewrite Hd. simpl. f_equal. apply dom_insert_lookup_L. by eexists.
    + by exists x'.
    + rewrite Hv. change (view (env s1)) with (view e2). rewrite Hv2. simpl. by rewrite Hv1.
Qed.

(** * The auxiliary vector *)

Definition auxv_ok (x : proc_t) : Prop := length (auxv x) = 32%nat ∧ 0 ≤ auxv_count x ≤ 32.
(** The entries that are in use, and the value of a key: 0 without one. *)
Definition aux (x : proc_t) : list (Z * Z) := take (Z.to_nat (auxv_count x)) (auxv x).
Definition aux_entry (key : Z) (l : list (Z * Z)) : option (nat * (Z * Z)) := list_find (λ e, e.1 = key) l.
Definition aux_get (key : Z) (l : list (Z * Z)) : Z := match aux_entry key l with Some (_, (_, v)) => v | None => 0 end.

Lemma wp_auxv_find s p x key (Q : option (Z * Z) → St → Prop) :
  procs s !! p = Some x → auxv_ok x → Q ((λ e, (Z.of_nat e.1, e.2.2)) <$> aux_entry key (aux x)) s → wp (auxv_find p key) Q s.
Proof.
  intros Hp [Hlen Hcnt] HQ. unfold auxv_find. set (n := Z.to_nat (auxv_count x)). assert (length (aux x) = n) as Hn by (unfold aux; rewrite length_take; lia).
  apply (wp_loop (λ k i s', s' = s ∧ 0 ≤ i ≤ auxv_count x ∧ k = Z.to_nat (auxv_count x - i) ∧ ∀ j e, aux x !! j = Some e → (j < Z.to_nat i)%nat → e.1 ≠ key) _ _ n).
  - unfold n, MAX_AUXV. lia.
  - split_and!; [done|lia|lia|unfold n; lia|]. intros j e _ Hj. lia.
  - intros k i s' (-> & Hi & -> & Hno). unfold auxv_round. apply wp_bind. eapply wp_proc_load; [done|]. destruct (Z.ltb_spec i (auxv_count x)) as [Hlt|Hge]; simpl.
    + destruct (lookup_lt_is_Some_2 (aux x) (Z.to_nat i)) as [[k' v] He]; [lia|]. pose proof He as He'. unfold aux in He'. rewrite lookup_take_lt in He' by lia. rewrite He'.
      destruct (Z.eqb_spec k' key) as [->|Hk]; apply wp_ret.
      * assert (aux_entry key (aux x) = Some (Z.to_nat i, (key, v))) as Hf by (apply list_find_Some; split_and!; [done|done|]; intros j e Hj Hlt'; by eapply Hno).
        rewrite Hf in HQ. simpl in HQ. rewrite Z2Nat.id in HQ by lia. exact HQ.
      * exists (Z.to_nat (auxv_count x - (i + 1))). split; [lia|]. split_and!; [done|lia|lia|done|]. intros j e Hj Hlt'.
        destruct (decide (j = Z.to_nat i)) as [->|]; [by rewrite He in Hj; injection Hj as <-|]. eapply Hno; [done|lia].
    + apply wp_ret. assert (aux_entry key (aux x) = None) as Hf; [|by rewrite Hf in HQ].
      apply list_find_None, Forall_lookup. intros j e Hj. eapply Hno; [done|]. apply lookup_lt_Some in Hj. lia.
Qed.

(** A process that only [set_auxv] and the like change. *)
Definition with_aux (x : proc_t) (l : list (Z * Z)) (n : Z) : proc_t := set_auxv_count n (set_auxv l x).
Lemma wp_auxv_store s p x i e (Q : unit → St → Prop) :
  procs s !! p = Some x → 0 ≤ i < 32 → Q tt (put_procs (<[p := with_aux x (<[Z.to_nat i := e]> (auxv x)) (auxv_count x)]> (procs s)) s) → wp (auxv_store p i e) Q s.
Proof.
  intros Hp Hi HQ. unfold auxv_store. rewrite (proj2 (Z.leb_le _ _)), (proj2 (Z.ltb_lt _ _)) by (unfold MAX_AUXV; lia). cbn [andb].
  eapply wp_proc_store; [done|]. by destruct x.
Qed.
Definition full key (x : proc_t) : bool := match aux_entry key (aux x) with Some _ => false | None => auxv_count x =? 32 end.
(** The vector after setting a key. *)
Definition aux_set (key value : Z) (x : proc_t) : proc_t :=
  match aux_entry key (aux x) with
  | Some (i, _) => with_aux x (<[i := (key, value)]> (auxv x)) (auxv_count x)
  | None => with_aux x (<[Z.to_nat (auxv_count x) := (key, value)]> (auxv x)) (auxv_count x + 1)
  end.
Lemma aux_set_ok key value x : auxv_ok x → full key x = false → auxv_ok (aux_set key value x).
Proof.
  intros [Hl Hc] Hf. unfold full in Hf. unfold aux_set. destruct (aux_entry key (aux x)) as [[i e]|] eqn:He; split; simpl; rewrite ?length_insert; lia.
Qed.
Lemma aux_get_set key key' value x : auxv_ok x → full key x = false →
  aux_get key' (aux (aux_set key value x)) = if decide (key' = key) then value else aux_get key' (aux x).
Proof.
  intros [Hl Hc] Hf. unfold full in Hf. unfold aux_set, aux_get. destruct (aux_entry key (aux x)) as [[i e]|] eqn:He.
  - apply list_find_Some in He as (Hi & Hk & Hno). simpl in Hk. assert (i < Z.to_nat (auxv_count x))%nat as Hlt by (apply lookup_lt_Some in Hi; unfold aux in Hi; rewrite length_take in Hi; lia).
    assert (aux (with_aux x (<[i := (key, value)]> (auxv x)) (auxv_count x)) = <[i := (key, value)]> (aux x)) as ->.
    { unfold aux. simpl. rewrite take_insert_lt by done. done. }
    assert (i < length (aux x))%nat as Hlt' by (by eapply lookup_lt_Some). case_decide as Hd.
    + subst key'. assert (aux_entry key (<[i := (key, value)]> (aux x)) = Some (i, (key, value))) as ->; [|done].
      apply list_find_Some. split_and!; [by apply list_lookup_insert_eq|done|]. intros j e' Hj Hji. rewrite list_lookup_insert_ne in Hj by lia. by eapply Hno.
    + assert (aux_entry key' (<[i := (key, value)]> (aux x)) = aux_entry key' (aux x)) as ->; [|done]. apply option_eq. intros [j e']. unfold aux_entry. rewrite !list_find_Some.
      assert (∀ j w, <[i := (key, value)]> (aux x) !! j = Some w → w.1 = key' → aux x !! j = Some w) as Hto.
      { intros j' w Hw Hk'. destruct (decide (i = j')) as [->|]; [rewrite list_lookup_insert_eq in Hw by done; injection Hw as <-; done|by rewrite list_lookup_insert_ne in Hw]. }
      assert (∀ j w, aux x !! j = Some w → w.1 = key' → <[i := (key, value)]> (aux x) !! j = Some w) as Hfrom.
      { intros j' w Hw Hk'. destruct (decide (i = j')) as [->|]; [simplify_eq; congruence|by rewrite list_lookup_insert_ne]. }
      split; intros (H1 & H2 & H3); (split_and!; [by auto|done|]); intros j' w Hw Hlt2 Hk'.
      * exact (H3 j' w (Hfrom j' w Hw Hk') Hlt2 Hk').
      * exact (H3 j' w (Hto j' w Hw Hk') Hlt2 Hk').
  - assert (auxv_count x < 32) by lia. assert (aux (with_aux x (<[Z.to_nat (auxv_count x) := (key, value)]> (auxv x)) (auxv_count x + 1)) = aux x ++ [(key, value)]) as ->.
    { unfold aux. simpl. replace (Z.to_nat (auxv_count x + 1)) with (S (Z.to_nat (auxv_count x))) by lia.
      erewrite take_S_r by (apply list_lookup_insert_eq; lia). by rewrite take_insert_ge by lia. }
    unfold aux_entry in *. case_decide as Hd.
    + subst key'. rewrite list_find_app_r by done. simpl. by rewrite decide_True.
    + destruct (list_find (λ e, e.1 = key') (aux x)) as [[j e']|] eqn:Hj; [by erewrite list_find_app_l|]. rewrite list_find_app_r by done. simpl. by rewrite decide_False.
Qed.

Lemma wp_proc_get_auxv s p x key (Q : Z → St → Prop) :
  p ≠ 0 → procs s !! p = Some x → lock x = unlocked → auxv_ok x → Q (aux_get key (aux x)) s → wp (proc_get_auxv me p key) Q s.
Proof.
  intros Hp0 Hp Hl Hok HQ. unfold proc_get_auxv. rewrite (proj2 (Z.eqb_neq _ _) Hp0). apply wp_bind. eapply wp_plock_acquire; [done|done|].
  apply wp_bind. eapply wp_auxv_find; [apply lookup_insert_eq|done|]. apply wp_bind. eapply wp_plock_release; [apply lookup_insert_eq|done|]. apply wp_ret.
  simpl. rewrite insert_insert_eq. replace (set_lock unlocked _) with x by (destruct x; simpl in *; by subst). rewrite insert_id by done.
  change (aux (set_lock (held me) x)) with (aux x). unfold aux_get in HQ. replace (put_procs _ _) with s by (by destruct s).
  destruct (aux_entry key (aux x)) as [[i [k v]]|]; exact HQ.
Qed.
Lemma wp_proc_set_auxv s p x key value (Q : Z → St → Prop) :
  p ≠ 0 → procs s !! p = Some x → lock x = unlocked → auxv_ok x →
  (full key x = true → Q (- ENOMEM) s) →
  (full key x = false → Q EOK (put_procs (<[p := aux_set key value x]> (procs s)) s)) → wp (proc_set_auxv me p key value) Q s.
Proof.
  intros Hp0 Hp Hl Hok Hfull Hset. unfold proc_set_auxv. rewrite (proj2 (Z.eqb_neq _ _) Hp0). apply wp_bind. eapply wp_plock_acquire; [done|done|].
  apply wp_bind. eapply wp_auxv_find; [apply lookup_insert_eq|done|]. change (aux (set_lock (held me) x)) with (aux x).
  unfold full, aux_set in *. pose proof Hok as [Hlen Hc]. destruct (aux_entry key (aux x)) as [[i e]|] eqn:He; simpl.
  - apply list_find_Some in He as (Hi & _). apply lookup_lt_Some in Hi. unfold aux in Hi. rewrite length_take in Hi.
    apply wp_bind. eapply wp_auxv_store; [apply lookup_insert_eq|lia|]. apply wp_bind. eapply wp_plock_release; [apply lookup_insert_eq|done|]. apply wp_ret.
    specialize (Hset eq_refl). simpl. rewrite !insert_insert_eq, Nat2Z.id. destruct x; simpl in *; by subst.
  - apply wp_bind. eapply wp_pget; [apply lookup_insert_eq|]. simpl. unfold MAX_AUXV. rewrite Z.geb_leb. destruct (Z.leb_spec 32 (auxv_count x)).
    + apply wp_bind. eapply wp_plock_release; [apply lookup_insert_eq|done|]. apply wp_ret. simpl. rewrite insert_insert_eq.
      replace (set_lock unlocked _) with x by (destruct x; simpl in *; by subst). rewrite insert_id by done. replace (put_procs _ _) with s by (by destruct s).
      apply Hfull. lia.
    + apply wp_bind. eapply wp_auxv_store; [apply lookup_insert_eq|lia|]. apply wp_bind. eapply wp_proc_store; [apply lookup_insert_eq|]. apply wp_bind.
      eapply wp_plock_release; [apply lookup_insert_eq|done|]. apply wp_ret. specialize (Hset ltac:(lia)). simpl. rewrite !insert_insert_eq.
      destruct x; simpl in *; by subst.
Qed.

(** Setting an entry of the auxiliary vector and then reading any key gives the new
    value for that key and the old one for the others; when the vector is full
    and has no such key, the call reports ENOMEM and changes nothing. *)
Theorem proc_auxv_roundtrip s p x key key' value :
  p ≠ 0 → procs s !! p = Some x → lock x = unlocked → auxv_ok x →
  wp (r ← proc_set_auxv me p key value; v ← proc_get_auxv me p key'; mret (r, v)) (λ rv s',
    if full key x then rv = (- ENOMEM, aux_get key' (aux x)) ∧ s' = s
    else rv = (EOK, if decide (key' = key) then value else aux_get key' (aux x)) ∧
         ∃ x', auxv_ok x' ∧ s' = put_procs (<[p := x']> (procs s)) s) s.
Proof.
  intros Hp0 Hp Hl Hok. apply wp_bind. eapply wp_proc_set_auxv; [done|done|done|done| |]; intros Hf; rewrite Hf; apply wp_bind.
  - eapply wp_proc_get_auxv; [done|done|done|done|]. by apply wp_ret.
  - assert (lock (aux_set key value x) = unlocked) by (unfold aux_set; by destruct (aux_entry key (aux x)) as [[? ?]|]).
    eapply wp_proc_get_auxv; [done|apply lookup_insert_eq|done|by apply aux_set_ok|]. apply wp_ret. rewrite aux_get_set by done. split; [done|].
    eexists. split; [|done]. by apply aux_set_ok.
Qed.

(** * Arguments *)

(** Setting the arguments of a process frees the strings it had; then it has
    copies of the strings given, or, when there is no memory, no arguments, and
    the strings of all others are untouched, with nothing left over. *)
Theorem proc_set_argv_spec s p x la le S A a n e m la' le' :
  heap_ok s → p ≠ 0 → procs s !! p = Some x → owns_args s x la le S A →
  readable_args (put_arrs A (put_strs S s)) a n la' → readable_args (put_arrs A (put_strs S s)) e m le' →
  wp (proc_set_argv p n a m e) (λ r s', ∃ x', procs s' = <[p := x']> (procs s) ∧
    ((r = - ENOMEM ∧ x' = with_args x 0 0 0 0 ∧ strs s' = S ∧ arrs s' = A) ∨
     (r = EOK ∧ argc x' = n ∧ envc x' = m ∧ owns_args s' x' (copied a n la') (copied e m le') S A))) s.
Proof.
  intros Hh Hp0 Hp Hargs Hra Hre. unfold proc_set_argv. rewrite (proj2 (Z.eqb_neq _ _) Hp0). apply wp_bind. eapply wp_drop_args; [done|exact Hargs|].
  assert (p ∈ dom (procs s)) as Hin by (apply elem_of_dom; by eexists). destruct (owns_args_sub _ _ _ _ _ _ Hargs) as [HS HA].
  eapply (wp_copy_argv_envp _ p (with_args x 0 0 0 0) a n e m la' le'); [|apply lookup_insert_eq|exact Hra|exact Hre| |].
  - eapply (heap_ok_mono _ _ Hh); [done|]. unfold used. simpl. rewrite dom_insert_L. set_solver.
  - intros r _. exists (with_args x 0 0 0 0). split; [done|]. by left.
  - intros a' e' ms ma r s' Ho _. exists (with_args x a' n e' m). split; [simpl; by rewrite insert_insert_eq|]. right. split_and!; [done|done|done|exact Ho].
Qed.

(** * Threads *)

(** A new thread of a process gets the next number and a kernel stack of its own;
    switching to it enters the trampoline with interrupts on, the function in rbx
    and its argument in r12. Without memory for it nothing is left behind. *)
Theorem thread_create_spec s p x entry arg :
  calm s → p ≠ 0 → procs s !! p = Some x → lock x = unlocked →
  wp (thread_create me hhdm_offset thread_bootstrap_trampoline p entry arg) (λ t s',
    (t = 0 ∧ not_made hhdm_offset s s') ∨
    ∃ pg sp, made hhdm_offset s s' p x t pg 0 sp zero_fpu ∧
      context_switch_in (words s') sp = Some (mkRegs 0x202 0 0 0 arg entry 0 thread_bootstrap_trampoline (sp + 64))) s.
Proof.
  intros (_ & Htl & Hh & Hok) Hp0 Hp Hl. eapply wp_thread_create; try done; [by left|]. intros t pg s' sp Hm Hf. right. exists pg, sp. split; [exact Hm|].
  by apply switch_frame.
Qed.

(** The number of threads of a process counts those that have ended: after its
    second thread has ended it is refused another program, which leaves it with
    the address space it had and without arguments. *)
Theorem exec_after_thread_exit s p x t y l1 l2 pg code la le S A :
  t ≠ 0 → t ≠ current_thread s → thrs s !! t = Some y → t_lock y = unlocked → proc y = p →
  p ≠ 0 → procs s !! p = Some x → lock x = unlocked → live_thread_count x = 2 → thread_count x = 2 → threads_are s (threads x) (l1 ++ t :: l2) →
  kstack_base y = base_of hhdm_offset pg → kstack_size y = KSTACK_SIZE → pg ≠ 0 → pg ∈ stacks (view (env s)) → stack_fits hhdm_offset (phys_of pg) 64 → env_ok (env s) →
  owns_args s x la le S A →
  wp (thread_exit me hhdm_offset t code ;; proc_reset_for_exec p) (λ _ s', ∃ x', procs s' !! p = Some x' ∧
    live_thread_count x' = 1 ∧ thread_count x' = 2 ∧ vmm x' = vmm x ∧ argv x' = 0 ∧ spaces (view (env s')) = spaces (view (env s))) s.
Proof.
  intros Ht0 Htc Ht Hlt Hpy Hp0 Hp Hl Hlive Hcnt Hc Hbase Hsize Hpg Hin Hfit Hok Hargs. apply wp_bind.
  eapply wp_thread_exit_other; try done; [lia|]. intros m h e' Hcm Hmd He Hv. unfold proc_reset_for_exec. rewrite (proj2 (Z.eqb_neq _ _) Hp0). apply wp_bind.
  eapply wp_drop_args; [apply lookup_insert_eq|exact Hargs|]. apply wp_bind. eapply wp_proc_store; [apply lookup_insert_eq|]. apply wp_bind.
  eapply wp_proc_load; [apply lookup_insert_eq|]. simpl. rewrite Hcnt. simpl. apply wp_ret. eexists. split; [apply lookup_insert_eq|]. simpl. rewrite Hlive, Hv. done.
Qed.

(** * References and the list of processes *)

(** Giving the last reference back takes the process out of the list and frees
    all it has; any other one only counts. *)
Theorem proc_unref_spec s p x l1 l2 la le S A :
  p ≠ 0 → procs s !! p = Some x → lock x = unlocked → 0 < refcount x < 2 ^ 32 → proc_list_lock s = unlocked → plist s (l1 ++ p :: l2) →
  owns_args s x la le S A → env_ok (env s) → holds_res x (view (env s)) →
  wp (proc_unref me p) (λ _ s',
    if refcount x =? 1 then procs s' !! p = None ∧ plist s' (l1 ++ l2) ∧ strs s' = S ∧ arrs s' = A ∧ view (env s') = released x (view (env s))
    else s' = put_procs (<[p := set_refcount (refcount x - 1) x]> (procs s)) s) s.
Proof.
  intros Hp0 Hp Hl Hr Hll Hpl Hargs Hok Hres. destruct (Z.eqb_spec (refcount x) 1) as [H1'|Hne].
  - eapply wp_proc_unref_last; try done. intros e' He Hv. simpl. split_and!; try done; [apply lookup_delete_eq|].
    apply chain_delete; [by apply (chain_relinked (procs s) _ l1 p l2 x)|]. pose proof (slist_nodup _ _ _ Hpl) as (_ & Hd & Hnd)%NoDup_app.
    apply NoDup_cons in Hnd as [? _]. intros [Hi|Hi]%elem_of_app; [|done]. apply (Hd p Hi). by left.
  - eapply wp_proc_unref; [done|done|done|]. unfold unrefed. simpl. rewrite u32_id by lia. rewrite (proj2 (Z.eqb_neq _ _)) by lia. done.
Qed.
(** A process is found by its number: the first one in the list. *)
Theorem proc_lookup_spec s l k :
  proc_list_lock s = unlocked → plist s l →
  wp (proc_lookup me k) (λ r s', s' = s ∧ r = match list_find (λ p, (pid <$> procs s !! p) = Some k) l with Some (_, p) => p | None => 0 end) s.
Proof. intros Hl Hpl. eapply wp_proc_lookup; [done|exact Hpl|]. by intros ? <-. Qed.
End theorems.

(** * Concrete runs *)

Import TaskDemo.

Lemma proc_exit_spec_witness :
  wp (proc_exit 0 2000 3) (λ _ s', ∃ h, procs s' !! 2000 = Some (set_children 0 (exited 3 p_mid)) ∧ siblings s' h [3000; 2000] ∧
    view (env s') = add_call (WakeAll 1000) (add_call (WakeAll 1000) (view (env sys)))) sys.
Proof.
  eapply wp_mono; [apply (proc_exit_spec 0 hhdm sys 2000 p_mid 3 [3000] 1000 p_init [2000])|].
  all: try done; try exact kid_of_mid; try reflexivity; try set_solver.
  - split; [reflexivity|]. split; [done|]. eexists. split; [reflexivity|]. done.
  - intros c y Hc%list_elem_of_singleton. subst c. by intros [= <-].
Defined.

Lemma kid_ended : ended hhdm sys 3000 p_kid [] [2000; 1000] [] [] (strs sys) (arrs sys).
Proof. split_and!; [reflexivity|done|done|exact sys_list|by apply owns_none|]. split; intros _; simpl; set_solver. Qed.
Lemma exit_wait_witness :
  wp (proc_wait 0 (λ _, proc_exit 0 3000 9) 2 2000 3) (λ r s', r = (3, Some 9) ∧ procs s' !! 3000 = None ∧
    spaces (view (env s')) = {[22 := Fresh]} ∧ tables (view (env s')) = {[11 := Fresh; 12 := Fresh]}) sys.
Proof.
  eapply wp_mono; [apply (exit_wait 0 hhdm sys 2000 p_mid 3 [] 3000 [] p_kid [] [2000; 1000] [] [] (strs sys) (arrs sys) 9 0)|].
  all: try done; try exact kid_of_mid; try exact kid_ended; try set_solver.
  - constructor; [|done]. intros (y & Hy & _ & Hs). injection Hy as <-. done.
  - intros r s' (-> & Hn & _ & _ & _ & _ & _ & Hv). rewrite Hv. split_and!; [done|done|vm_compute; reflexivity..].
Defined.

Lemma proc_auxv_roundtrip_witness :
  wp (r ← proc_set_auxv 0 2000 6 8192; v ← proc_get_auxv 0 2000 6; mret (r, v)) (λ rv _, rv = (EOK, 8192)) sys.
Proof.
  eapply wp_mono; [apply (proc_auxv_roundtrip 0 sys 2000 p_mid 6 6 8192); [done|reflexivity|done|split; [done|simpl; lia]]|].
  intros rv s' H. simpl in H. by destruct H as [-> _].
Defined.

Lemma proc_set_argv_spec_witness :
  wp (proc_set_argv 2000 1 7200 0 0) (λ r s', r = - ENOMEM ∨ ∃ x', procs s' !! 2000 = Some x' ∧ owns_args s' x' [[99]] [] {[7300 := [99]]} {[7200 := [7300]]}) sys_more.
Proof.
  eapply wp_mono; [apply (proc_set_argv_spec sys_more 2000 p_mid [[97; 98]] [] {[7300 := [99]]} {[7200 := [7300]]} 7200 1 0 0 [[99]] []);
    [exact more_heap|done|reflexivity|exact more_args| |by intros []]|].
  - intros _ _. split; [done|]. exists [7300]. split; [reflexivity|]. repeat constructor.
  - intros r s' (x' & Hp & [(-> & _)|(_ & _ & _ & Ho)]); [by left|]. right. exists x'. rewrite Hp. split; [reflexivity|exact Ho].
Defined.

Lemma thread_create_spec_witness :
  wp (thread_create 0 hhdm 77 2000 55 66) (λ t s', t = 0 ∨ ∃ sp, context_switch_in (words s') sp = Some (mkRegs 0x202 0 0 0 66 55 0 77 (sp + 64))) sys.
Proof.
  eapply wp_mono; [apply (thread_create_spec 0 hhdm 77 sys 2000 p_mid 55 66); [split_and!; [done|done|apply sys_heap|done]|done|reflexivity|done]|].
  intros t s' [[-> _]|(pg & sp & _ & Hsw)]; [by left|]. right. by exists sp.
Defined.
