(* ===== verification/Dev.v ===== *)
(** Devices, drivers and buses: [src/kernel/src/dev/device.c], [driver.c], [bus.c]
    and [pci.c].

    Objects are named by their address. The kernel heap answers each allocation
    from the list [allocs]: an address the model has no object at, or 0 when it
    fails. The call of a driver's [init] and the requests for interrupts are
    recorded in [events]; the answers to the requests are the list [irq_answers].
    Configuration space is what the two PCI ports show: the word at an address, or
    all ones where there is no function. What a register becomes of a write is up to
    the device ([takes], of the address, its old value and what is written): bits may
    be read-only or cleared by writing 1; a write where there is no register is lost.
    Messages are left out. *)
From S2P Require Import Prelude.

Definition PCI_CONFIG_ADDRESS : Z := 0xCF8.
Definition PCI_CONFIG_DATA : Z := 0xCFC.
Definition PCI_INVALID_VENDOR : Z := 0xFFFF.

(** [device_id_t] *)
Record device_id_t := mkId {
  i_vendor : Z;
  i_device : Z;
  i_class : Z;
  i_subclass : Z;
  i_prog_if : Z;
}.
(** [device_irq_t] *)
Record device_irq_t := mkIrqNode {
  irq : Z;
  hwirq : Z;
  allocated : bool;
  shared : bool;
  irq_next : Z;
}.
Definition iset_irq v x := mkIrqNode v (hwirq x) (allocated x) (shared x) (irq_next x).
Definition iset_hwirq v x := mkIrqNode (irq x) v (allocated x) (shared x) (irq_next x).
Definition iset_allocated v x := mkIrqNode (irq x) (hwirq x) v (shared x) (irq_next x).
Definition iset_shared v x := mkIrqNode (irq x) (hwirq x) (allocated x) v (irq_next x).
Definition iset_irq_next v x := mkIrqNode (irq x) (hwirq x) (allocated x) (shared x) v.
(** [device_t]; [state], which nothing uses, is left out. *)
Record device_t := mkDev {
  name : list Z;
  next : Z;
  parent : Z;
  children : Z;
  next_sibling : Z;
  bus : Z;
  driver : Z;
  data : Z;
  vendor_id : Z;
  device_id : Z;
  class : Z;
  subclass : Z;
  prog_if : Z;
  irqs : Z;
}.
Definition dset_name v x := mkDev v (next x) (parent x) (children x) (next_sibling x) (bus x) (driver x) (data x) (vendor_id x) (device_id x) (class x) (subclass x) (prog_if x) (irqs x).
Definition dset_next v x := mkDev (name x) v (parent x) (children x) (next_sibling x) (bus x) (driver x) (data x) (vendor_id x) (device_id x) (class x) (subclass x) (prog_if x) (irqs x).
Definition dset_parent v x := mkDev (name x) (next x) v (children x) (next_sibling x) (bus x) (driver x) (data x) (vendor_id x) (device_id x) (class x) (subclass x) (prog_if x) (irqs x).
Definition dset_children v x := mkDev (name x) (next x) (parent x) v (next_sibling x) (bus x) (driver x) (data x) (vendor_id x) (device_id x) (class x) (subclass x) (prog_if x) (irqs x).
Definition dset_next_sibling v x := mkDev (name x) (next x) (parent x) (children x) v (bus x) (driver x) (data x) (vendor_id x) (device_id x) (class x) (subclass x) (prog_if x) (irqs x).
Definition dset_bus v x := mkDev (name x) (next x) (parent x) (children x) (next_sibling x) v (driver x) (data x) (vendor_id x) (device_id x) (class x) (subclass x) (prog_if x) (irqs x).
Definition dset_driver v x := mkDev (name x) (next x) (parent x) (children x) (next_sibling x) (bus x) v (data x) (vendor_id x) (device_id x) (class x) (subclass x) (prog_if x) (irqs x).
Definition dset_data v x := mkDev (name x) (next x) (parent x) (children x) (next_sibling x) (bus x) (driver x) v (vendor_id x) (device_id x) (class x) (subclass x) (prog_if x) (irqs x).
Definition dset_vendor_id v x := mkDev (name x) (next x) (parent x) (children x) (next_sibling x) (bus x) (driver x) (data x) v (device_id x) (class x) (subclass x) (prog_if x) (irqs x).
Definition dset_device_id v x := mkDev (name x) (next x) (parent x) (children x) (next_sibling x) (bus x) (driver x) (data x) (vendor_id x) v (class x) (subclass x) (prog_if x) (irqs x).
Definition dset_class v x := mkDev (name x) (next x) (parent x) (children x) (next_sibling x) (bus x) (driver x) (data x) (vendor_id x) (device_id x) v (subclass x) (prog_if x) (irqs x).
Definition dset_subclass v x := mkDev (name x) (next x) (parent x) (children x) (next_sibling x) (bus x) (driver x) (data x) (vendor_id x) (device_id x) (class x) v (prog_if x) (irqs x).
Definition dset_prog_if v x := mkDev (name x) (next x) (parent x) (children x) (next_sibling x) (bus x) (driver x) (data x) (vendor_id x) (device_id x) (class x) (subclass x) v (irqs x).
Definition dset_irqs v x := mkDev (name x) (next x) (parent x) (children x) (next_sibling x) (bus x) (driver x) (data x) (vendor_id x) (device_id x) (class x) (subclass x) (prog_if x) v.
(** [driver_t]: [init] is there or not; [remove] is never called. *)
Record driver_t := mkDrv {
  drv_name : list Z;
  id_table : list device_id_t;
  id_count : Z;
  has_init : bool;
  irq_handler : Z;
  drv_next : Z;
}.
Definition rset_drv_name v x := mkDrv v (id_table x) (id_count x) (has_init x) (irq_handler x) (drv_next x).
Definition rset_id_table v x := mkDrv (drv_name x) v (id_count x) (has_init x) (irq_handler x) (drv_next x).
Definition rset_id_count v x := mkDrv (drv_name x) (id_table x) v (has_init x) (irq_handler x) (drv_next x).
Definition rset_has_init v x := mkDrv (drv_name x) (id_table x) (id_count x) v (irq_handler x) (drv_next x).
Definition rset_irq_handler v x := mkDrv (drv_name x) (id_table x) (id_count x) (has_init x) v (drv_next x).
Definition rset_drv_next v x := mkDrv (drv_name x) (id_table x) (id_count x) (has_init x) (irq_handler x) v.
(** [bus_t]: the addresses of its functions, 0 when there is none; [match] is never
    called. *)
Record bus_t := mkBus {
  bus_name : list Z;
  enumerate : Z;
  bus_init : Z;
  bus_data : Z;
  bus_next : Z;
}.
Definition bset_bus_name v x := mkBus v (enumerate x) (bus_init x) (bus_data x) (bus_next x).
Definition bset_enumerate v x := mkBus (bus_name x) v (bus_init x) (bus_data x) (bus_next x).
Definition bset_bus_init v x := mkBus (bus_name x) (enumerate x) v (bus_data x) (bus_next x).
Definition bset_bus_data v x := mkBus (bus_name x) (enumerate x) (bus_init x) v (bus_next x).
Definition bset_bus_next v x := mkBus (bus_name x) (enumerate x) (bus_init x) (bus_data x) v.
(** [pci_device_t] *)
Record pci_device_t := mkPdev {
  p_bus : Z;
  p_slot : Z;
  p_func : Z;
  p_vendor_id : Z;
  p_device_id : Z;
  class_code : Z;
  p_subclass : Z;
  p_prog_if : Z;
  header_type : Z;
  irq_line : Z;
  bar : list Z;
  bar_addr : list Z;
  bar_is_io : list bool;
  p_dev : Z;
}.
Definition pset_p_bus v x := mkPdev v (p_slot x) (p_func x) (p_vendor_id x) (p_device_id x) (class_code x) (p_subclass x) (p_prog_if x) (header_type x) (irq_line x) (bar x) (bar_addr x) (bar_is_io x) (p_dev x).
Definition pset_p_slot v x := mkPdev (p_bus x) v (p_func x) (p_vendor_id x) (p_device_id x) (class_code x) (p_subclass x) (p_prog_if x) (header_type x) (irq_line x) (bar x) (bar_addr x) (bar_is_io x) (p_dev x).
Definition pset_p_func v x := mkPdev (p_bus x) (p_slot x) v (p_vendor_id x) (p_device_id x) (class_code x) (p_subclass x) (p_prog_if x) (header_type x) (irq_line x) (bar x) (bar_addr x) (bar_is_io x) (p_dev x).
Definition pset_p_vendor_id v x := mkPdev (p_bus x) (p_slot x) (p_func x) v (p_device_id x) (class_code x) (p_subclass x) (p_prog_if x) (header_type x) (irq_line x) (bar x) (bar_addr x) (bar_is_io x) (p_dev x).
Definition pset_p_device_id v x := mkPdev (p_bus x) (p_slot x) (p_func x) (p_vendor_id x) v (class_code x) (p_subclass x) (p_prog_if x) (header_type x) (irq_line x) (bar x) (bar_addr x) (bar_is_io x) (p_dev x).
Definition pset_class_code v x := mkPdev (p_bus x) (p_slot x) (p_func x) (p_vendor_id x) (p_device_id x) v (p_subclass x) (p_prog_if x) (header_type x) (irq_line x) (bar x) (bar_addr x) (bar_is_io x) (p_dev x).
Definition pset_p_subclass v x := mkPdev (p_bus x) (p_slot x) (p_func x) (p_vendor_id x) (p_device_id x) (class_code x) v (p_prog_if x) (header_type x) (irq_line x) (bar x) (bar_addr x) (bar_is_io x) (p_dev x).
Definition pset_p_prog_if v x := mkPdev (p_bus x) (p_slot x) (p_func x) (p_vendor_id x) (p_device_id x) (class_code x) (p_subclass x) v (header_type x) (irq_line x) (bar x) (bar_addr x) (bar_is_io x) (p_dev x).
Definition pset_header_type v x := mkPdev (p_bus x) (p_slot x) (p_func x) (p_vendor_id x) (p_device_id x) (class_code x) (p_subclass x) (p_prog_if x) v (irq_line x) (bar x) (bar_addr x) (bar_is_io x) (p_dev x).
Definition pset_irq_line v x := mkPdev (p_bus x) (p_slot x) (p_func x) (p_vendor_id x) (p_device_id x) (class_code x) (p_subclass x) (p_prog_if x) (header_type x) v (bar x) (bar_addr x) (bar_is_io x) (p_dev x).
Definition pset_bar v x := mkPdev (p_bus x) (p_slot x) (p_func x) (p_vendor_id x) (p_device_id x) (class_code x) (p_subclass x) (p_prog_if x) (header_type x) (irq_line x) v (bar_addr x) (bar_is_io x) (p_dev x).
Definition pset_bar_addr v x := mkPdev (p_bus x) (p_slot x) (p_func x) (p_vendor_id x) (p_device_id x) (class_code x) (p_subclass x) (p_prog_if x) (header_type x) (irq_line x) (bar x) v (bar_is_io x) (p_dev x).
Definition pset_bar_is_io v x := mkPdev (p_bus x) (p_slot x) (p_func x) (p_vendor_id x) (p_device_id x) (class_code x) (p_subclass x) (p_prog_if x) (header_type x) (irq_line x) (bar x) (bar_addr x) v (p_dev x).
Definition pset_p_dev v x := mkPdev (p_bus x) (p_slot x) (p_func x) (p_vendor_id x) (p_device_id x) (class_code x) (p_subclass x) (p_prog_if x) (header_type x) (irq_line x) (bar x) (bar_addr x) (bar_is_io x) v.
(** Calls of other code. *)
Inductive event := ev_init (drv dev : Z) | ev_irq_request (hwirq handler dev : Z).

(** The objects, the heads of the lists and the PCI ports. *)
Record dev_state := mkDs {
  devs : gmap Z device_t;
  irqns : gmap Z device_irq_t;
  drvs : gmap Z driver_t;
  buses : gmap Z bus_t;
  pdevs : gmap Z pci_device_t;
  bus_list : Z;
  driver_list : Z;
  global_device_list : Z;
  allocs : list Z;
  irq_answers : list Z;
  events : list event;
  config_address : Z;
  config : gmap Z Z;
  takes : Z → Z → Z → Z;
}.
Definition put_devs v x := mkDs v (irqns x) (drvs x) (buses x) (pdevs x) (bus_list x) (driver_list x) (global_device_list x) (allocs x) (irq_answers x) (events x) (config_address x) (config x) (takes x).
Definition put_irqns v x := mkDs (devs x) v (drvs x) (buses x) (pdevs x) (bus_list x) (driver_list x) (global_device_list x) (allocs x) (irq_answers x) (events x) (config_address x) (config x) (takes x).
Definition put_drvs v x := mkDs (devs x) (irqns x) v (buses x) (pdevs x) (bus_list x) (driver_list x) (global_device_list x) (allocs x) (irq_answers x) (events x) (config_address x) (config x) (takes x).
Definition put_buses v x := mkDs (devs x) (irqns x) (drvs x) v (pdevs x) (bus_list x) (driver_list x) (global_device_list x) (allocs x) (irq_answers x) (events x) (config_address x) (config x) (takes x).
Definition put_pdevs v x := mkDs (devs x) (irqns x) (drvs x) (buses x) v (bus_list x) (driver_list x) (global_device_list x) (allocs x) (irq_answers x) (events x) (config_address x) (config x) (takes x).
Definition put_bus_list v x := mkDs (devs x) (irqns x) (drvs x) (buses x) (pdevs x) v (driver_list x) (global_device_list x) (allocs x) (irq_answers x) (events x) (config_address x) (config x) (takes x).
Definition put_driver_list v x := mkDs (devs x) (irqns x) (drvs x) (buses x) (pdevs x) (bus_list x) v (global_device_list x) (allocs x) (irq_answers x) (events x) (config_address x) (config x) (takes x).
Definition put_global_device_list v x := mkDs (devs x) (irqns x) (drvs x) (buses x) (pdevs x) (bus_list x) (driver_list x) v (allocs x) (irq_answers x) (events x) (config_address x) (config x) (takes x).
Definition put_allocs v x := mkDs (devs x) (irqns x) (drvs x) (buses x) (pdevs x) (bus_list x) (driver_list x) (global_device_list x) v (irq_answers x) (events x) (config_address x) (config x) (takes x).
Definition put_irq_answers v x := mkDs (devs x) (irqns x) (drvs x) (buses x) (pdevs x) (bus_list x) (driver_list x) (global_device_list x) (allocs x) v (events x) (config_address x) (config x) (takes x).
Definition put_events v x := mkDs (devs x) (irqns x) (drvs x) (buses x) (pdevs x) (bus_list x) (driver_list x) (global_device_list x) (allocs x) (irq_answers x) v (config_address x) (config x) (takes x).
Definition put_config_address v x := mkDs (devs x) (irqns x) (drvs x) (buses x) (pdevs x) (bus_list x) (driver_list x) (global_device_list x) (allocs x) (irq_answers x) (events x) v (config x) (takes x).
Definition put_config v x := mkDs (devs x) (irqns x) (drvs x) (buses x) (pdevs x) (bus_list x) (driver_list x) (global_device_list x) (allocs x) (irq_answers x) (events x) (config_address x) v (takes x).

Local Abbreviation St := dev_state.

(** * Memory *)

Definition dev_load (d : Z) : M St device_t := λ s, match devs s !! d with Some x => Done (x, s) | None => Fault end.
Definition dev_store (d : Z) (f : device_t → device_t) : M St unit := λ s,
  match devs s !! d with Some x => Done (tt, put_devs (<[d := f x]> (devs s)) s) | None => Fault end.
Definition irq_load (i : Z) : M St device_irq_t := λ s, match irqns s !! i with Some x => Done (x, s) | None => Fault end.
Definition irq_store (i : Z) (f : device_irq_t → device_irq_t) : M St unit := λ s,
  match irqns s !! i with Some x => Done (tt, put_irqns (<[i := f x]> (irqns s)) s) | None => Fault end.
Definition drv_load (d : Z) : M St driver_t := λ s, match drvs s !! d with Some x => Done (x, s) | None => Fault end.
Definition drv_store (d : Z) (f : driver_t → driver_t) : M St unit := λ s,
  match drvs s !! d with Some x => Done (tt, put_drvs (<[d := f x]> (drvs s)) s) | None => Fault end.
Definition bus_load (b : Z) : M St bus_t := λ s, match buses s !! b with Some x => Done (x, s) | None => Fault end.
Definition bus_store (b : Z) (f : bus_t → bus_t) : M St unit := λ s,
  match buses s !! b with Some x => Done (tt, put_buses (<[b := f x]> (buses s)) s) | None => Fault end.
Definition pdev_load (p : Z) : M St pci_device_t := λ s, match pdevs s !! p with Some x => Done (x, s) | None => Fault end.
Definition pdev_store (p : Z) (f : pci_device_t → pci_device_t) : M St unit := λ s,
  match pdevs s !! p with Some x => Done (tt, put_pdevs (<[p := f x]> (pdevs s)) s) | None => Fault end.
Definition kalloc : M St Z := λ s,
  match allocs s with [] => Done (0, s) | a :: r => Done (a, put_allocs r s) end.
Definition emit (e : event) : M St unit := modify (λ s, put_events (events s ++ [e]) s).
(** [irq_request(hwirq, handler, dev, name)] *)
Definition irq_request (hwirq_ handler dev : Z) : M St Z :=
  emit (ev_irq_request hwirq_ handler dev) ;;
  a ← gets irq_answers;
  match a with
  | [] => mret (-1)
  | r :: l => modify (put_irq_answers l) ;; mret r
  end.

(** * [device.c] *)

Definition zero_dev : device_t := mkDev [] 0 0 0 0 0 0 0 0 0 0 0 0 0.
Definition device_create (name_ : list Z) : M St Z :=
  dev ← kalloc;
  if dev =? 0 then mret 0 else
  modify (λ s, put_devs (<[dev := zero_dev]> (devs s)) s) ;;
  dev_store dev (dset_name name_) ;;
  mret dev.
Definition device_add_child (parent_ child : Z) : M St unit :=
  if (parent_ =? 0) || (child =? 0) then mret tt else
  dev_store child (dset_parent parent_) ;;
  p ← dev_load parent_;
  dev_store child (dset_next_sibling (children p)) ;;
  dev_store parent_ (dset_children child).
Definition device_add_irq (dev hwirq_ : Z) : M St unit :=
  if dev =? 0 then mret tt else
  i ← kalloc;
  if i =? 0 then mret tt else
  x ← dev_load dev;
  modify (λ s, put_irqns (<[i := mkIrqNode 0 hwirq_ false false (irqs x)]> (irqns s)) s) ;;
  dev_store dev (dset_irqs i).

(** * [driver.c] *)

Definition match_device (dev : device_t) (id : device_id_t) : bool :=
  if negb (i_class id =? 0) && negb (i_class id =? class dev) then false else
  if negb (i_subclass id =? 0) && negb (i_subclass id =? subclass dev) then false else
  if negb (i_prog_if id =? 0) && negb (i_prog_if id =? prog_if dev) then false else
  if negb (i_vendor id =? 0) && negb (i_vendor id =? vendor_id dev) then false else
  if negb (i_device id =? 0) && negb (i_device id =? device_id dev) then false else
  true.

(** [for (i = 0; i < id_count; i++) if (match_device(dev, &id_table[i]))] *)
Definition id_round (dev drv i : Z) : M St (Z + bool) :=
  y ← drv_load drv;
  if negb (i <? id_count y) then mret (inr false) else
  match id_table y !! Z.to_nat i with
  | None => fault
  | Some id =>
      x ← dev_load dev;
      if match_device x id then mret (inr true) else mret (inl (i + 1))
  end.
(** An interrupt of the device. *)
Definition request_round (dev handler i : Z) : M St (Z + unit) :=
  if i =? 0 then mret (inr tt) else
  x ← irq_load i;
  if allocated x then mret (inl (irq_next x)) else
  r ← irq_request (hwirq x) handler dev;
  when (r >=? 0) (irq_store i (λ x, iset_allocated true (iset_irq (u32 r) x))) ;;
  mret (inl (irq_next x)).
Definition bind_driver (dev drv : Z) : M St unit :=
  dev_store dev (dset_driver drv) ;;
  y ← drv_load drv;
  when (has_init y) (emit (ev_init drv dev)) ;;
  x ← dev_load dev;
  when (negb (irq_handler y =? 0) && negb (irqs x =? 0))
    (fuel ← gets (λ s, S (size (irqns s)));
     loop fuel (request_round dev (irq_handler y)) (irqs x)).
Definition driver_round (dev drv : Z) : M St (Z + unit) :=
  if drv =? 0 then mret (inr tt) else
  y ← drv_load drv;
  found ← loop (S (Z.to_nat (id_count y))) (id_round dev drv) 0;
  if (found : bool) then bind_driver dev drv ;; mret (inr tt) else
  mret (inl (drv_next y)).
Definition driver_try_bind (dev : Z) : M St unit :=
  x ← dev_load dev;
  if negb (driver x =? 0) then mret tt else
  d ← gets driver_list;
  fuel ← gets (λ s, S (size (drvs s)));
  loop fuel (driver_round dev) d.
Definition rebind_round (dev : Z) : M St (Z + unit) :=
  if dev =? 0 then mret (inr tt) else
  driver_try_bind dev ;;
  x ← dev_load dev;
  mret (inl (next x)).
Definition driver_register (drv : Z) : M St unit :=
  h ← gets driver_list;
  drv_store drv (rset_drv_next h) ;;
  modify (put_driver_list drv) ;;
  d ← gets global_device_list;
  fuel ← gets (λ s, S (size (devs s)));
  loop fuel rebind_round d.

(** * [bus.c] *)

Definition bus_device_add (dev : Z) : M St unit :=
  h ← gets global_device_list;
  dev_store dev (dset_next h) ;;
  modify (put_global_device_list dev) ;;
  driver_try_bind dev.
Definition bus_find_round (name_ : list Z) (b : Z) : M St (Z + Z) :=
  if b =? 0 then mret (inr 0) else
  x ← bus_load b;
  if bool_decide (bus_name x = name_) then mret (inr b) else mret (inl (bus_next x)).
Definition bus_find (name_ : list Z) : M St Z :=
  b ← gets bus_list;
  fuel ← gets (λ s, S (size (buses s)));
  loop fuel (bus_find_round name_) b.
(** [call] runs the function of a bus at an address. *)
Definition bus_register (call : Z → Z → M St unit) (bus_ : Z) : M St unit :=
  h ← gets bus_list;
  bus_store bus_ (bset_bus_next h) ;;
  modify (put_bus_list bus_) ;;
  x ← bus_load bus_;
  when (negb (bus_init x =? 0)) (call (bus_init x) bus_) ;;
  x ← bus_load bus_;
  when (negb (enumerate x =? 0)) (call (enumerate x) bus_).

(** * [pci.c] *)

(** [_outd(PCI_CONFIG_ADDRESS, a)], [_ind(PCI_CONFIG_DATA)] and [_outd(PCI_CONFIG_DATA, v)] *)
Definition out_address (a : Z) : M St unit := modify (put_config_address a).
Definition in_data : M St Z := gets (λ s, default 0xFFFFFFFF (config s !! config_address s)).
Definition out_data (v : Z) : M St unit := modify (λ s,
  put_config (alter (λ w, u32 (takes s (config_address s) w v)) (config_address s) (config s)) s).

Definition config_addr (b s f offset : Z) : Z :=
  Z.lor (Z.lor (Z.lor (Z.lor (2 ^ 31) (u32 (Z.shiftl b 16))) (u32 (Z.shiftl s 11))) (u32 (Z.shiftl f 8))) (Z.land offset 0xFC).
Definition pci_write_config (b s f offset val : Z) : M St unit := out_address (config_addr b s f offset) ;; out_data val.
Definition pci_read_config (b s f offset : Z) : M St Z := out_address (config_addr b s f offset) ;; in_data.
Definition pci_vendor (b s f : Z) : M St Z := v ← pci_read_config b s f 0x00; mret (u16 v).
Definition pci_device (b s f : Z) : M St Z := v ← pci_read_config b s f 0x00; mret (u16 (Z.shiftr v 16)).
Definition pci_class (b s f : Z) : M St Z := v ← pci_read_config b s f 0x08; mret (u8 (Z.shiftr v 24)).
Definition pci_subclass (b s f : Z) : M St Z := v ← pci_read_config b s f 0x08; mret (u8 (Z.shiftr v 16)).
Definition pci_progif (b s f : Z) : M St Z := v ← pci_read_config b s f 0x08; mret (u8 (Z.shiftr v 8)).
Definition pci_header_type (b s f : Z) : M St Z := v ← pci_read_config b s f 0x0C; mret (Z.land (Z.shiftr v 16) 0xFF).

Definition bar_round (pdev i : Z) : M St unit :=
  x ← pdev_load pdev;
  v ← pci_read_config (p_bus x) (p_slot x) (p_func x) (u8 (0x10 + i * 4));
  pdev_store pdev (λ x, pset_bar (<[Z.to_nat i := v]> (bar x)) x) ;;
  if v =? 0 then mret tt else
  if flag v 1 then
    pdev_store pdev (λ x, pset_bar_addr (<[Z.to_nat i := Z.land v (not32 3)]> (bar_addr x)) (pset_bar_is_io (<[Z.to_nat i := true]> (bar_is_io x)) x))
  else
    pdev_store pdev (λ x, pset_bar_addr (<[Z.to_nat i := Z.land v (not32 15)]> (bar_addr x)) (pset_bar_is_io (<[Z.to_nat i := false]> (bar_is_io x)) x)).
Definition pci_read_bars (pdev : Z) : M St unit := for_n 0 6 (bar_round pdev).

(** The digits of "pci:%02x:%02x.%d". *)
Definition hex_digit (d : Z) : Z := if d <? 10 then 48 + d else 87 + d.
Definition pci_name (b s f : Z) : list Z :=
  [112; 99; 105; 58; hex_digit (b / 16); hex_digit (b `mod` 16); 58; hex_digit (s / 16); hex_digit (s `mod` 16); 46; 48 + f].
Definition zero_pdev : pci_device_t := mkPdev 0 0 0 0 0 0 0 0 0 0 (replicate 6 0) (replicate 6 0) (replicate 6 false) 0.
(** The record of a function is filled in. *)
Definition pci_fill (pdev vendor b s f : Z) : M St Z :=
  pdev_store pdev (λ x, pset_p_vendor_id vendor (pset_p_func f (pset_p_slot s (pset_p_bus b x)))) ;;
  v ← pci_device b s f; pdev_store pdev (pset_p_device_id v) ;;
  v ← pci_class b s f; pdev_store pdev (pset_class_code v) ;;
  v ← pci_subclass b s f; pdev_store pdev (pset_p_subclass v) ;;
  v ← pci_progif b s f; pdev_store pdev (pset_p_prog_if v) ;;
  v ← pci_header_type b s f; pdev_store pdev (pset_header_type v) ;;
  v ← pci_read_config b s f 0x3C;
  pdev_store pdev (pset_irq_line (u8 v)) ;;
  pci_read_bars pdev ;;
  mret (u8 v).
(** A null [pdev] or [dev] is used: that is a fault. A null [name] is not written to
    by [npf_snprintf] and printed as an empty string. *)
Definition pci_create_device (b s f : Z) : M St unit :=
  vendor ← pci_vendor b s f;
  if vendor =? PCI_INVALID_VENDOR then mret tt else
  pdev ← kalloc;
  if pdev =? 0 then fault else
  modify (λ s, put_pdevs (<[pdev := zero_pdev]> (pdevs s)) s) ;;
  line ← pci_fill pdev vendor b s f;
  nm ← kalloc;
  dev ← device_create (if nm =? 0 then [] else pci_name b s f);
  x ← pdev_load pdev;
  dev_store dev (λ d, dset_prog_if (p_prog_if x) (dset_subclass (p_subclass x) (dset_class (class_code x) (dset_device_id (p_device_id x) (dset_vendor_id (p_vendor_id x) d))))) ;;
  when (negb (line =? 0xFF) && negb (line =? 0x00)) (device_add_irq dev line) ;;
  dev_store dev (dset_data pdev) ;;
  pdev_store pdev (pset_p_dev dev) ;;
  bus_device_add dev.
Definition pci_scan_function (b s f : Z) : M St unit := pci_create_device b s f.
Definition pci_scan_slot (b s : Z) : M St unit :=
  vendor ← pci_vendor b s 0;
  if vendor =? PCI_INVALID_VENDOR then mret tt else
  header ← pci_header_type b s 0;
  let multifunction := flag header 0x80 in
  for_n 0 8 (λ f,
    when ((f =? 0) || multifunction)
      (v ← pci_vendor b s f;
       when (negb (v =? PCI_INVALID_VENDOR)) (pci_scan_function b s f))).
Definition pci_scan_bus (busn : Z) : M St unit := for_n 0 32 (λ s, pci_scan_slot busn s).
Definition pci_enumerate : M St unit := for_n 0 256 (λ b, pci_scan_bus (u8 b)).
Definition pci_get (dev : Z) : M St Z := if dev =? 0 then mret 0 else x ← dev_load dev; mret (data x).
(** The address of [pci_enumerate] is an argument. *)
Definition pci_init (pci_enumerate_addr bus_ : Z) : M St unit :=
  bus_store bus_ (λ x, bset_bus_data 0 (bset_bus_name [112; 99; 105] (bset_enumerate pci_enumerate_addr x))) ;;
  pci_enumerate.
