(* ===== verification/DevTheorems.v ===== *)
(** Devices are bound to the first driver that matches them, whichever of the two
    comes first. *)
From S2P Require Import Prelude SList Dev.

#[local] Arguments loop : simpl never.
#[local] Arguments for_n : simpl never.

Implicit Types s : dev_state.

(** * Memory *)

Lemma wp_dev_load s d x (Q : device_t → dev_state → Prop) : devs s !! d = Some x → Q x s → wp (dev_load d) Q s.
Proof. unfold wp, dev_load. by intros ->. Qed.
Lemma wp_dev_store s d x f (Q : unit → dev_state → Prop) : devs s !! d = Some x → Q tt (put_devs (<[d := f x]> (devs s)) s) → wp (dev_store d f) Q s.
Proof. unfold wp, dev_store. by intros ->. Qed.
Lemma wp_driver_load s d x (Q : driver_t → dev_state → Prop) : drvs s !! d = Some x → Q x s → wp (drv_load d) Q s.
Proof. unfold wp, drv_load. by intros ->. Qed.
Lemma wp_driver_store s d x f (Q : unit → dev_state → Prop) : drvs s !! d = Some x → Q tt (put_drvs (<[d := f x]> (drvs s)) s) → wp (drv_store d f) Q s.
Proof. unfold wp, drv_store. by intros ->. Qed.
Lemma wp_irqn_load s d x (Q : device_irq_t → dev_state → Prop) : irqns s !! d = Some x → Q x s → wp (irq_load d) Q s.
Proof. unfold wp, irq_load. by intros ->. Qed.
Lemma wp_irqn_store s d x f (Q : unit → dev_state → Prop) : irqns s !! d = Some x → Q tt (put_irqns (<[d := f x]> (irqns s)) s) → wp (irq_store d f) Q s.
Proof. unfold wp, irq_store. by intros ->. Qed.

(** * Lists *)

Definition ilinks s (i : Z) : option Z := irq_next <$> irqns s !! i.
Definition drv_links s (d : Z) : option Z := drv_next <$> drvs s !! d.
Definition dev_links s (d : Z) : option Z := next <$> devs s !! d.
(** The drivers and the devices that are registered. *)
Definition drivers_are s (l : list Z) : Prop := chain (drv_links s) (driver_list s) l.
Definition devices_are s (l : list Z) : Prop := chain (dev_links s) (global_device_list s) l.

(** * Interrupts *)

(** The interrupts [l] of device [dev] are requested one by one, those that it has
    already excepted. *)
Fixpoint requests (dev handler : Z) (l : list Z) s : dev_state :=
  match l with
  | [] => s
  | i :: l =>
      match irqns s !! i with
      | None => s
      | Some x =>
          if allocated x then requests dev handler l s else
          let r := default (-1) (head (irq_answers s)) in
          let s1 := put_irq_answers (tail (irq_answers s)) (put_events (events s ++ [ev_irq_request (hwirq x) handler dev]) s) in
          requests dev handler l (if r >=? 0 then put_irqns (<[i := iset_allocated true (iset_irq (u32 r) x)]> (irqns s)) s1 else s1)
      end
  end.
(** Nothing else changes. *)
Definition only_irqs s s' : Prop :=
  devs s' = devs s ∧ drvs s' = drvs s ∧ buses s' = buses s ∧ pdevs s' = pdevs s ∧ bus_list s' = bus_list s ∧ driver_list s' = driver_list s ∧
  global_device_list s' = global_device_list s ∧ allocs s' = allocs s ∧ config s' = config s ∧ (∀ i, ilinks s' i = ilinks s i) ∧
  (∀ i, (hwirq <$> irqns s' !! i) = (hwirq <$> irqns s !! i)).
Lemma only_irqs_refl s : only_irqs s s.
Proof. by split_and!. Qed.
Lemma only_irqs_trans s s' s'' : only_irqs s s' → only_irqs s' s'' → only_irqs s s''.
Proof.
  intros (? & ? & ? & ? & ? & ? & ? & ? & ? & ? & ?) (? & ? & ? & ? & ? & ? & ? & ? & ? & ? & ?). split_and!; congruence.
Qed.
Lemma requests_only dev h l s : only_irqs s (requests dev h l s).
Proof.
  revert s. induction l as [|i l IH]; intros s; simpl; [apply only_irqs_refl|]. destruct (irqns s !! i) as [x|] eqn:Hx; [|apply only_irqs_refl].
  destruct (allocated x); [apply IH|]. eapply only_irqs_trans; [|apply IH]. destruct (_ >=? 0); [|by split_and!]. split_and!; try done; simpl.
  all: intros j; unfold ilinks; simpl; destruct (decide (i = j)) as [->|]; [by rewrite lookup_insert_eq, Hx|by rewrite lookup_insert_ne].
Qed.
Lemma chain_irqs s s' h l : only_irqs s s' → chain (ilinks s) h l → chain (ilinks s') h l.
Proof. intros (_ & _ & _ & _ & _ & _ & _ & _ & _ & Hi & _) Hc. eapply chain_ext; [|done]. intros a _. apply Hi. Qed.

Lemma wp_requests s dev handler h l fuel (Q : unit → dev_state → Prop) :
  chain (ilinks s) h l → (length l < fuel)%nat → Q tt (requests dev handler l s) → wp (loop fuel (request_round dev handler) h) Q s.
Proof.
  intros Hc Hf HQ. set (res := requests dev handler l s) in *.
  apply (wp_loop (λ n i s', ∃ l', n = length l' ∧ chain (ilinks s') i l' ∧ requests dev handler l' s' = res) _ _ (length l)); [done|by exists l|].
  intros n i s' (l' & -> & Hc' & Hres). unfold request_round. destruct l' as [|a l'].
  - simpl in Hc'. subst i. simpl in *. subst s'. by apply wp_ret.
  - destruct Hc' as (-> & Ha & m & Hm & Hc'). rewrite (proj2 (Z.eqb_neq _ _) Ha). unfold ilinks in Hm. simpl in Hres. destruct (irqns s' !! a) as [x|] eqn:Hx; [|done].
    injection Hm as <-. apply wp_bind. eapply wp_irqn_load; [done|]. destruct (allocated x).
    { apply wp_ret. exists (length l'). split; [simpl; lia|]. by exists l'. }
    apply wp_bind. unfold irq_request. apply wp_bind, wp_modify, wp_bind, wp_gets. simpl.
    set (s1 := put_events _ s'). set (r := default (-1) (head (irq_answers s'))) in *. set (s2 := put_irq_answers (tail (irq_answers s')) s1) in *.
    assert (∀ (Q' : Z → dev_state → Prop), Q' r s2 → wp (match irq_answers s' with [] => mret (-1) | r :: l => modify (put_irq_answers l) ;; mret r end) Q' s1) as Hans.
    { intros Q' HQ'. destruct (irq_answers s') as [|r' q] eqn:Hq; [apply wp_ret|by apply wp_bind, wp_modify, wp_ret]. unfold r, s2 in HQ'. simpl in HQ'.
      by replace (put_irq_answers [] s1) with s1 in HQ' by (unfold s1; destruct s'; simpl in *; by subst). }
    apply Hans. apply wp_bind. apply (wp_mono _ (λ _ s3, s3 = if r >=? 0 then put_irqns (<[a := iset_allocated true (iset_irq (u32 r) x)]> (irqns s')) s2 else s2)).
    { destruct (r >=? 0); cbn [when]; [|by apply wp_ret]. by eapply wp_irqn_store. }
    intros [] s3 ->. apply wp_ret. exists (length l'). split; [simpl; lia|]. exists l'. split_and!; [done| |done].
    eapply chain_ext; [|exact Hc']. intros b _. unfold ilinks. destruct (r >=? 0); [|done]. simpl.
    destruct (decide (a = b)) as [->|]; [by rewrite lookup_insert_eq, Hx|by rewrite lookup_insert_ne].
Qed.

(** * Binding *)

Definition ids (y : driver_t) : list device_id_t := take (Z.to_nat (id_count y)) (id_table y).
(** A driver is for a device when one of its entries is. *)
Definition matches (x : device_t) (y : driver_t) : bool := existsb (match_device x) (ids y).
Definition driver_ok (y : driver_t) : Prop := 0 ≤ id_count y ≤ Z.of_nat (length (id_table y)).

Lemma wp_ids s dev drv x y (Q : bool → dev_state → Prop) :
  devs s !! dev = Some x → drvs s !! drv = Some y → driver_ok y → Q (matches x y) s → wp (loop (S (Z.to_nat (id_count y))) (id_round dev drv) 0) Q s.
Proof.
  intros Hx Hy Hok HQ.
  apply (wp_loop (λ n i s', s' = s ∧ 0 ≤ i ≤ id_count y ∧ n = Z.to_nat (id_count y - i) ∧ existsb (match_device x) (drop (Z.to_nat i) (ids y)) = matches x y) _ _ (Z.to_nat (id_count y))).
  - lia.
  - split_and!; [done|lia|unfold driver_ok in Hok; lia|lia|done].
  - intros n i s' (-> & Hi & -> & Hm). unfold id_round. apply wp_bind. eapply wp_driver_load; [done|]. unfold driver_ok in Hok.
    assert (length (ids y) = Z.to_nat (id_count y)) as Hlen by (unfold ids; rewrite length_take; lia).
    destruct (Z.ltb_spec i (id_count y)) as [Hlt|Hge]; simpl.
    + destruct (lookup_lt_is_Some_2 (ids y) (Z.to_nat i)) as [id Hid]; [lia|]. rewrite (drop_S _ _ _ Hid) in Hm. simpl in Hm.
      unfold ids in Hid. rewrite lookup_take_lt in Hid by lia. rewrite Hid. apply wp_bind. eapply wp_dev_load; [done|].
      destruct (match_device x id); simpl in Hm; apply wp_ret; [by rewrite Hm|]. exists (Z.to_nat (id_count y - (i + 1))). split; [lia|].
      split_and!; [done|lia|lia|done|]. by replace (Z.to_nat (i + 1)) with (S (Z.to_nat i)) by lia.
    + apply wp_ret. rewrite drop_ge in Hm by lia. simpl in Hm. by rewrite Hm.
Qed.

(** The first driver of the list that is for [x]. *)
Definition first_match s (x : device_t) (ld : list Z) : option (nat * Z) :=
  list_find (λ d, (matches x <$> drvs s !! d) = Some true) ld.
(** The device is the driver's. *)
Definition bound (dev : Z) (x : device_t) (drv : Z) (y : driver_t) (li : list Z) s : dev_state :=
  let s1 := put_devs (<[dev := dset_driver drv x]> (devs s)) s in
  let s2 := if has_init y then put_events (events s ++ [ev_init drv dev]) s1 else s1 in
  if irq_handler y =? 0 then s2 else requests dev (irq_handler y) li s2.
Lemma wp_bind_driver s dev x drv y li (Q : unit → dev_state → Prop) :
  devs s !! dev = Some x → drvs s !! drv = Some y → chain (ilinks s) (irqs x) li → Q tt (bound dev x drv y li s) → wp (bind_driver dev drv) Q s.
Proof.
  intros Hx Hy Hli HQ. apply wp_bind. eapply wp_dev_store; [done|]. apply wp_bind. eapply wp_driver_load; [done|]. apply wp_bind.
  set (s1 := put_devs _ s). apply (wp_mono _ (λ _ s', s' = if has_init y then put_events (events s ++ [ev_init drv dev]) s1 else s1)).
  { destruct (has_init y); [by apply wp_modify|by apply wp_ret]. }
  unfold bound in HQ. fold s1 in HQ. set (s2 := if has_init y then _ else s1) in *. intros [] s' ->. apply wp_bind.
  assert (devs s2 = devs s1 ∧ irqns s2 = irqns s1) as [Hd Hi] by (unfold s2; by destruct (has_init y)).
  eapply wp_dev_load; [rewrite Hd; apply lookup_insert_eq|]. simpl. destruct (irq_handler y =? 0); simpl; [by apply wp_ret|].
  destruct (Z.eqb_spec (irqs x) 0) as [H0|H0]; simpl.
  - apply wp_ret. rewrite H0 in Hli. destruct li as [|a li]; [done|]. by destruct Hli as (<- & ? & _).
  - apply wp_bind, wp_gets. assert (chain (ilinks s2) (irqs x) li) as Hc2 by (eapply chain_ext; [|exact Hli]; intros a _; unfold ilinks; by rewrite Hi).
    eapply wp_requests; [done| |done]. apply Nat.lt_succ_r. by eapply (chain_size (irqns s2) irq_next).
Qed.

Definition try_bound (dev : Z) (x : device_t) (li ld : list Z) s : dev_state :=
  if driver x =? 0 then
    match first_match s x ld with
    | Some (_, drv) => match drvs s !! drv with Some y => bound dev x drv y li s | None => s end
    | None => s
    end
  else s.
Lemma wp_driver_try_bind s dev x li ld (Q : unit → dev_state → Prop) :
  devs s !! dev = Some x → chain (ilinks s) (irqs x) li → drivers_are s ld → (∀ d y, d ∈ ld → drvs s !! d = Some y → driver_ok y) →
  Q tt (try_bound dev x li ld s) → wp (driver_try_bind dev) Q s.
Proof.
  intros Hx Hli Hld Hok HQ. apply wp_bind. eapply wp_dev_load; [done|]. unfold try_bound in HQ. destruct (driver x =? 0); simpl; [|by apply wp_ret].
  apply wp_bind, wp_gets, wp_bind, wp_gets. set (res := match first_match s x ld with Some _ => _ | None => _ end) in HQ.
  apply (wp_loop (λ n d s', s' = s ∧ ∃ l1 l2, ld = l1 ++ l2 ∧ n = length l2 ∧ chain (drv_links s) d l2 ∧
    match first_match s x l2 with Some (_, drv) => match drvs s !! drv with Some y => bound dev x drv y li s | None => s end | None => s end = res) _ _ (length ld)).
  - apply Nat.lt_succ_r. by eapply (chain_size (drvs s) drv_next).
  - split; [done|]. by exists [], ld.
  - intros n d s' (-> & l1 & l2 & -> & -> & Hc & Hres). unfold driver_round. destruct l2 as [|a l2].
    + simpl in Hc. subst d. simpl. apply wp_ret. simpl in Hres. by rewrite <-Hres in HQ.
    + destruct Hc as (-> & Ha & m & Hm & Hc). rewrite (proj2 (Z.eqb_neq _ _) Ha). unfold drv_links in Hm. destruct (drvs s !! a) as [y|] eqn:Hy; [|done]. injection Hm as <-.
      apply wp_bind. eapply wp_driver_load; [done|]. apply wp_bind. eapply wp_ids; [done|done|eapply Hok; [|done]; set_solver|].
      unfold first_match in Hres. simpl in Hres. destruct (matches x y) eqn:Hmt.
      * rewrite decide_True, Hy in Hres by (rewrite Hy; simpl; by rewrite Hmt). apply wp_bind. eapply wp_bind_driver; [done|done|done|]. apply wp_ret. by rewrite Hres.
      * rewrite decide_False in Hres by (rewrite Hy; simpl; by rewrite Hmt). apply wp_ret. exists (length l2). split; [simpl; lia|]. split; [done|].
        exists (l1 ++ [a]), l2. rewrite <-app_assoc. split_and!; [done|done|done|]. rewrite <-Hres. unfold first_match.
        by destruct (list_find _ l2) as [[? ?]|].
Qed.

(** The driver a device has after an attempt to bind it. *)
Definition driver_of s (x : device_t) (ld : list Z) : Z :=
  if driver x =? 0 then match first_match s x ld with Some (_, drv) => drv | None => 0 end else driver x.
(** The calls of [init] among the events. *)
Definition inits (l : list event) : list (Z * Z) := omap (λ e, match e with ev_init drv dev => Some (drv, dev) | _ => None end) l.
Definition new_inits s (ld : list Z) (dev : Z) : list (Z * Z) :=
  match devs s !! dev with
  | Some x =>
      if driver x =? 0 then
        match first_match s x ld with
        | Some (_, drv) => match drvs s !! drv with Some y => if has_init y then [(drv, dev)] else [] | None => [] end
        | None => []
        end
      else []
  | None => []
  end.
(** What binding leaves as it is. *)
Record bind_frame s s' : Prop := {
  bf_drvs : drvs s' = drvs s;
  bf_driver_list : driver_list s' = driver_list s;
  bf_global : global_device_list s' = global_device_list s;
  bf_allocs : allocs s' = allocs s;
  bf_pdevs : pdevs s' = pdevs s;
  bf_config : config s' = config s;
  bf_links : ∀ i, ilinks s' i = ilinks s i;
  bf_hwirq : ∀ i, (hwirq <$> irqns s' !! i) = (hwirq <$> irqns s !! i);
}.
Lemma bind_frame_refl s : bind_frame s s.
Proof. by split. Qed.
Lemma bind_frame_trans s s' s'' : bind_frame s s' → bind_frame s' s'' → bind_frame s s''.
Proof. intros [] []. split; congruence. Qed.
Lemma only_irqs_frame s s' : only_irqs s s' → bind_frame s s' ∧ devs s' = devs s.
Proof. intros (? & ? & ? & ? & ? & ? & ? & ? & ? & ? & ?). split; [by split|done]. Qed.
Lemma inits_app l l' : inits (l ++ l') = inits l ++ inits l'.
Proof. apply omap_app. Qed.
Lemma requests_inits dev h l s : inits (events (requests dev h l s)) = inits (events s).
Proof.
  revert s. induction l as [|i l IH]; intros s; simpl; [done|]. destruct (irqns s !! i) as [x|]; [|done]. destruct (allocated x); [apply IH|].
  rewrite IH. destruct (_ >=? 0); simpl; by rewrite inits_app, app_nil_r.
Qed.
Lemma dset_driver_id x : dset_driver (driver x) x = x.
Proof. by destruct x. Qed.

Lemma first_match_Some s x ld i drv : first_match s x ld = Some (i, drv) → drv ∈ ld ∧ ∃ y, drvs s !! drv = Some y ∧ matches x y = true.
Proof.
  intros (Hi & Hm & _)%list_find_Some. split; [by eapply list_elem_of_lookup_2|]. destruct (drvs s !! drv) as [y|]; [|done]. exists y. split; [done|]. by injection Hm.
Qed.
Lemma first_match_None s x ld : first_match s x ld = None ↔ ∀ a y, a ∈ ld → drvs s !! a = Some y → matches x y = false.
Proof.
  unfold first_match. rewrite list_find_None, Forall_forall. split.
  - intros H a y Ha Hy. specialize (H a Ha). rewrite Hy in H. simpl in H. destruct (matches x y); [|done]. by destruct H.
  - intros H a Ha Hm. destruct (drvs s !! a) as [y|] eqn:Hy; [|done]. injection Hm as Hm. rewrite (H a y Ha Hy) in Hm. done.
Qed.
Lemma try_bound_spec s dev x li ld : devs s !! dev = Some x →
  bind_frame s (try_bound dev x li ld s) ∧ devs (try_bound dev x li ld s) = <[dev := dset_driver (driver_of s x ld) x]> (devs s) ∧
  inits (events (try_bound dev x li ld s)) = inits (events s) ++ new_inits s ld dev.
Proof.
  intros Hx. unfold try_bound, new_inits, driver_of. rewrite Hx. destruct (Z.eqb_spec (driver x) 0) as [H0|H0].
  2:{ rewrite dset_driver_id, insert_id, app_nil_r by done. by split_and!; [apply bind_frame_refl|..]. }
  destruct (first_match s x ld) as [[i drv]|] eqn:Hfm.
  - apply first_match_Some in Hfm as (_ & y & Hy & _). rewrite Hy. unfold bound. set (s1 := put_devs _ s). set (s2 := if has_init y then _ else s1).
    assert (bind_frame s s2 ∧ devs s2 = devs s1 ∧ inits (events s2) = inits (events s) ++ if has_init y then [(drv, dev)] else []) as (Hf & Hd & He).
    { unfold s2. destruct (has_init y); simpl; [rewrite inits_app|rewrite app_nil_r]; by split_and!. }
    destruct (irq_handler y =? 0); [by split_and!|]. destruct (only_irqs_frame _ _ (requests_only dev (irq_handler y) li s2)) as [Hf' Hd'].
    rewrite requests_inits, Hd', Hd. by split_and!; [eapply bind_frame_trans|..].
  - rewrite <-H0, dset_driver_id, insert_id, app_nil_r by done. by split_and!; [apply bind_frame_refl|..].
Qed.

(** * The lists of drivers and devices *)

(** The drivers [ld] and the devices [lv] are registered. Whatever the order they
    came in, a device has a driver that is for it as soon as there is one. *)
Record dev_inv s (ld lv : list Z) : Prop := {
  di_drivers : drivers_are s ld;
  di_devices : devices_are s lv;
  di_tables : ∀ a y, a ∈ ld → drvs s !! a = Some y → driver_ok y;
  di_irqs : ∀ d x, d ∈ lv → devs s !! d = Some x → ∃ li, chain (ilinks s) (irqs x) li;
  di_bound : ∀ d x, d ∈ lv → devs s !! d = Some x → driver x ≠ 0 → driver x ∈ ld ∧ ∃ y, drvs s !! driver x = Some y ∧ matches x y = true;
  di_complete : ∀ d x, d ∈ lv → devs s !! d = Some x → driver x = 0 → ∀ a y, a ∈ ld → drvs s !! a = Some y → matches x y = false;
}.

Lemma drivers_frame s s' ld : bind_frame s s' → drivers_are s ld → drivers_are s' ld.
Proof. intros [] Hd. unfold drivers_are. rewrite bf_driver_list0. eapply chain_ext; [|exact Hd]. intros a _. unfold drv_links. by rewrite bf_drvs0. Qed.
Lemma first_match_frame s s' x ld : drvs s' = drvs s → first_match s' x ld = first_match s x ld.
Proof. unfold first_match. by intros ->. Qed.
Lemma chain_links s s' h l : (∀ i, ilinks s' i = ilinks s i) → chain (ilinks s) h l → chain (ilinks s') h l.
Proof. intros H. apply chain_ext. intros a _. apply H. Qed.

(** What [driver_register] and [bus_device_add] leave after the loop. *)
Definition retried s (ld lv : list Z) s' : Prop :=
  bind_frame s s' ∧ (∀ d, devs s' !! d = (λ x, if decide (d ∈ lv) then dset_driver (driver_of s x ld) x else x) <$> devs s !! d) ∧
  inits (events s') = inits (events s) ++ lv ≫= new_inits s ld.
Lemma retried_step s l1 a ld s' x li :
  retried s ld l1 s' → a ∉ l1 → devs s !! a = Some x → retried s ld (l1 ++ [a]) (try_bound a x li ld s').
Proof.
  intros (Hf & Hd & He) Ha Hx. assert (devs s' !! a = Some x) as Hx' by (rewrite Hd, Hx; simpl; by rewrite decide_False).
  destruct (try_bound_spec s' a x li ld Hx') as (Hf' & Hd' & He'). assert (drvs s' = drvs s) as Hdr by apply Hf.
  assert (∀ x, first_match s' x ld = first_match s x ld) as Hfm by (intros; by apply first_match_frame). split_and!.
  - by eapply bind_frame_trans.
  - intros d. rewrite Hd'. destruct (decide (a = d)) as [->|Hne].
    + rewrite lookup_insert_eq, Hx. simpl. rewrite decide_True by set_solver. unfold driver_of. by rewrite Hfm.
    + rewrite lookup_insert_ne, Hd by done. destruct (devs s !! d) as [x'|]; [|done]. simpl. f_equal.
      destruct (decide (d ∈ l1)); [rewrite decide_True by set_solver|rewrite decide_False by set_solver]; done.
  - rewrite He', He, bind_app. simpl. rewrite app_nil_r, <-app_assoc. do 2 f_equal. unfold new_inits. rewrite Hx, Hx', Hfm, Hdr. done.
Qed.
Lemma wp_rebind s ld lv fuel (Q : unit → dev_state → Prop) :
  drivers_are s ld → devices_are s lv → (∀ a y, a ∈ ld → drvs s !! a = Some y → driver_ok y) →
  (∀ d x, d ∈ lv → devs s !! d = Some x → ∃ li, chain (ilinks s) (irqs x) li) → (length lv < fuel)%nat →
  (∀ s', retried s ld lv s' → Q tt s') → wp (loop fuel rebind_round (global_device_list s)) Q s.
Proof.
  intros Hld Hlv Hok Hli Hf HQ. pose proof (slist_nodup _ _ _ Hlv) as Hnd.
  apply (wp_loop (λ n d s', ∃ l1 l2, lv = l1 ++ l2 ∧ n = length l2 ∧ chain (dev_links s) d l2 ∧ retried s ld l1 s') _ _ (length lv)); [done| |].
  { exists [], lv. split_and!; [done|done|done|]. split_and!; [apply bind_frame_refl| |by rewrite app_nil_r]. intros d. by destruct (devs s !! d). }
  intros n d s' (l1 & l2 & -> & -> & Hc & Hr). unfold rebind_round. destruct l2 as [|a l2].
  - simpl in Hc. subst d. simpl. apply wp_ret, HQ. by rewrite app_nil_r.
  - destruct Hc as (-> & Ha & m & Hm & Hc). rewrite (proj2 (Z.eqb_neq _ _) Ha). apply NoDup_app in Hnd as (_ & Hdis & _).
    unfold dev_links in Hm. destruct (devs s !! a) as [x|] eqn:Hx; [|done]. injection Hm as <-. assert (a ∉ l1) as Hal by (intros Hin; apply (Hdis _ Hin); by left).
    destruct (Hli a x) as [li Hli']; [set_solver|done|]. destruct (Hr) as (Hfr & Hd & _).
    assert (devs s' !! a = Some x) as Hx' by (rewrite Hd, Hx; simpl; by rewrite decide_False).
    apply wp_bind. eapply (wp_driver_try_bind _ _ _ li ld); [done| | |by rewrite (bf_drvs _ _ Hfr)|].
    { eapply chain_links; [apply Hfr|done]. } { by eapply drivers_frame. }
    pose proof (retried_step _ _ _ _ _ _ li Hr Hal Hx) as Hr'. destruct (Hr') as (_ & Hd' & _).
    apply wp_bind. eapply wp_dev_load; [rewrite Hd', Hx; reflexivity|]. apply wp_ret. exists (length l2). split; [simpl; lia|].
    exists (l1 ++ [a]), l2. rewrite <-app_assoc. split_and!; [done|done| |done]. rewrite decide_True by set_solver. done.
Qed.

Lemma matches_dset_driver v x y : matches (dset_driver v x) y = matches x y.
Proof. done. Qed.
(** The attempts restore the invariant. *)
Lemma retried_inv s ld lv s' :
  drivers_are s ld → devices_are s lv → (∀ a y, a ∈ ld → drvs s !! a = Some y → driver_ok y) →
  (∀ d x, d ∈ lv → devs s !! d = Some x → ∃ li, chain (ilinks s) (irqs x) li) → Forall (λ a, a ≠ 0) ld →
  (∀ d x, d ∈ lv → devs s !! d = Some x → driver x ≠ 0 → driver x ∈ ld ∧ ∃ y, drvs s !! driver x = Some y ∧ matches x y = true) →
  retried s ld lv s' → dev_inv s' ld lv.
Proof.
  intros Hld Hlv Hok Hli H0 Hb (Hf & Hd & _). pose proof (bf_drvs _ _ Hf) as Hdr.
  assert (∀ d x', d ∈ lv → devs s' !! d = Some x' → ∃ x, devs s !! d = Some x ∧ x' = dset_driver (driver_of s x ld) x) as Hinv.
  { intros d x' Hin Hx'. rewrite Hd in Hx'. destruct (devs s !! d) as [x|]; [|done]. simpl in Hx'. rewrite decide_True in Hx' by done. exists x. by simplify_eq. }
  split.
  - by eapply drivers_frame.
  - unfold devices_are. rewrite (bf_global _ _ Hf). eapply chain_ext; [|exact Hlv]. intros d _. unfold dev_links. rewrite Hd. destruct (devs s !! d); [|done]. simpl.
    by destruct (decide _).
  - by rewrite Hdr.
  - intros d x' Hin Hx'. destruct (Hinv _ _ Hin Hx') as (x & Hx & ->). destruct (Hli _ _ Hin Hx) as [li Hc]. exists li. eapply chain_links; [apply Hf|done].
  - intros d x' Hin Hx' Hne. destruct (Hinv _ _ Hin Hx') as (x & Hx & ->). rewrite Hdr. simpl in *. revert Hne. unfold driver_of. destruct (Z.eqb_spec (driver x) 0) as [Hz|Hz].
    + destruct (first_match s x ld) as [[i drv]|] eqn:Hfm; [|done]. intros _. by apply first_match_Some in Hfm.
    + intros _. exact (Hb _ _ Hin Hx Hz).
  - intros d x' Hin Hx' He. destruct (Hinv _ _ Hin Hx') as (x & Hx & ->). rewrite Hdr. simpl in *. revert He. unfold driver_of. destruct (Z.eqb_spec (driver x) 0) as [Hz|Hz]; [|done].
    destruct (first_match s x ld) as [[i drv]|] eqn:Hfm; [|intros _; by apply first_match_None]. intros ->. apply first_match_Some in Hfm as (Hin0 & _).
    rewrite Forall_forall in H0. by specialize (H0 _ Hin0).
Qed.

(** Registering a driver does not change what the others are for. *)
Lemma matches_linked (m : gmap Z driver_t) drv y h a : m !! drv = Some y → ∀ x, (matches x <$> <[drv := rset_drv_next h y]> m !! a) = (matches x <$> m !! a).
Proof.
  intros Hy x. destruct (decide (drv = a)) as [->|]; [by rewrite lookup_insert_eq, Hy|by rewrite lookup_insert_ne].
Qed.
Lemma first_match_ext s s' x ld : (∀ a, a ∈ ld → (matches x <$> drvs s' !! a) = (matches x <$> drvs s !! a)) → first_match s' x ld = first_match s x ld.
Proof.
  unfold first_match. induction ld as [|a ld IH]; intros H; [done|]. simpl. rewrite IH by (intros; apply H; set_solver).
  destruct (decide ((matches x <$> drvs s' !! a) = Some true)) as [E|E]; rewrite H in E by set_solver.
  - by rewrite decide_True.
  - by rewrite decide_False.
Qed.
Lemma bind_cons {A B} (f : A → list B) a l : (a :: l) ≫= f = f a ++ (l ≫= f).
Proof. done. Qed.
Lemma driver_of_idle s ld lv d x : dev_inv s ld lv → d ∈ lv → devs s !! d = Some x → driver_of s x ld = driver x.
Proof.
  intros Hinv Hd Hx. unfold driver_of. destruct (Z.eqb_spec (driver x) 0) as [H0|]; [|done].
  by rewrite (proj2 (first_match_None s x ld) (di_complete _ _ _ Hinv _ _ Hd Hx H0)).
Qed.
Lemma drivers_ne0 s ld : drivers_are s ld → Forall (λ a, a ≠ 0) ld.
Proof. intros H. apply Forall_forall. intros a Ha. by eapply chain_ne0. Qed.

#[local] Arguments first_match : simpl never.
(** The state in which [driver_register] goes through the devices. *)
Definition driver_linked s drv y : dev_state := put_driver_list drv (put_drvs (<[drv := rset_drv_next (driver_list s) y]> (drvs s)) s).
Lemma driver_linked_are s drv y ld : drivers_are s ld → drv ∉ ld → drv ≠ 0 → drivers_are (driver_linked s drv y) (drv :: ld).
Proof.
  intros Hld Hn H0. eapply (chain_cons _ (driver_list s)); [|done|unfold drv_links; simpl; by rewrite lookup_insert_eq].
  eapply chain_ext; [|exact Hld]. intros a Ha. unfold drv_links. simpl. rewrite lookup_insert_ne; [done|]. by intros ->.
Qed.
Lemma driver_linked_match s drv y ld lv d x :
  dev_inv s ld lv → drv ∉ ld → drvs s !! drv = Some y → d ∈ lv → devs s !! d = Some x → driver x = 0 →
  first_match (driver_linked s drv y) x (drv :: ld) = if matches x y then Some (0%nat, drv) else None.
Proof.
  intros Hinv Hn Hy Hd Hx H0. unfold first_match. simpl. rewrite lookup_insert_eq. simpl. change (matches x (rset_drv_next _ y)) with (matches x y).
  destruct (matches x y); [by rewrite decide_True|]. rewrite decide_False by done.
  change (list_find _ ld) with (first_match (driver_linked s drv y) x ld). rewrite (first_match_ext s) by (intros; by apply matches_linked).
  by rewrite (proj2 (first_match_None s x ld) (di_complete _ _ _ Hinv _ _ Hd Hx H0)).
Qed.

(** C29: registering a driver gives it every device that has none and that one of its
    entries is for, and no other device changes hands; its [init] is called for
    exactly those, in the order of the list, and the lists stay well formed, with no
    device left without a driver that is for it. *)
Theorem driver_register_spec s ld lv drv y :
  dev_inv s ld lv → drv ∉ ld → drv ≠ 0 → drvs s !! drv = Some y → driver_ok y →
  wp (driver_register drv) (λ _ s',
    dev_inv s' (drv :: ld) lv ∧
    (∀ d x, d ∈ lv → devs s !! d = Some x → devs s' !! d = Some (dset_driver (if (driver x =? 0) && matches x y then drv else driver x) x)) ∧
    (∀ d, d ∉ lv → devs s' !! d = devs s !! d) ∧
    inits (events s') = inits (events s) ++
      if has_init y then (λ d, (drv, d)) <$> filter (λ d, ((λ x, (driver x =? 0) && matches x y) <$> devs s !! d) = Some true) lv else []) s.
Proof.
  intros Hinv Hn H0 Hy Hok. pose proof Hinv as [Hld Hlv Htab Hli Hb Hcm]. apply wp_bind, wp_gets, wp_bind. eapply wp_driver_store; [done|]. apply wp_bind, wp_modify.
  apply wp_bind, wp_gets, wp_bind, wp_gets. set (s1 := put_driver_list drv _). assert (s1 = driver_linked s drv y) as Hs1 by done. clearbody s1. rewrite Hs1. clear s1 Hs1.
  pose proof (driver_linked_are s drv y ld Hld Hn H0) as Hld1.
  assert (∀ a y', a ∈ drv :: ld → drvs (driver_linked s drv y) !! a = Some y' → driver_ok y') as Htab1.
  { intros a y' Ha. simpl. destruct (decide (drv = a)) as [->|]; [rewrite lookup_insert_eq; by intros [= <-]|rewrite lookup_insert_ne by done]. apply Htab. set_solver. }
  apply (wp_rebind (driver_linked s drv y) (drv :: ld) lv); [done|exact Hlv|done|exact Hli| |].
  { apply Nat.lt_succ_r. by eapply (chain_size (devs s) next). }
  intros s' Hr. destruct (Hr) as (Hf & Hd & He).
  assert (∀ d x, d ∈ lv → devs s !! d = Some x → driver_of (driver_linked s drv y) x (drv :: ld) = if (driver x =? 0) && matches x y then drv else driver x) as Hof.
  { intros d x Hin Hx. unfold driver_of. destruct (Z.eqb_spec (driver x) 0) as [Hz|Hz]; [|done]. rewrite (driver_linked_match _ _ _ _ lv d) by done. simpl. by destruct (matches x y). }
  split_and!.
  - eapply retried_inv; [exact Hld1|exact Hlv|exact Htab1|exact Hli|by eapply drivers_ne0| |exact Hr]. intros d x Hin Hx Hne.
    destruct (Hb d x Hin Hx Hne) as (Hin' & y' & Hy' & Hm). split; [set_solver|]. simpl. rewrite lookup_insert_ne by congruence. by exists y'.
  - intros d x Hin Hx. rewrite Hd. simpl. rewrite Hx. simpl. by rewrite decide_True, (Hof d).
  - intros d Hin. rewrite Hd. simpl. destruct (devs s !! d); [|done]. simpl. by rewrite decide_False.
  - rewrite He. change (events (driver_linked s drv y)) with (events s). f_equal. clear -Hinv Hn Hy Hlv. assert (∀ d, d ∈ lv → is_Some (devs s !! d)) as Hsome.
    { intros d Hd. destruct (chain_is_Some _ _ _ _ Hlv Hd) as [n Hn']. unfold dev_links in Hn'. destruct (devs s !! d); [by eexists|done]. }
    assert (∀ d, d ∈ lv → new_inits (driver_linked s drv y) (drv :: ld) d = if has_init y then if decide (((λ x, (driver x =? 0) && matches x y) <$> devs s !! d) = Some true) then [(drv, d)] else [] else []) as Hnew.
    { intros d Hd. destruct (Hsome d Hd) as [x Hx]. unfold new_inits. change (devs (driver_linked s drv y)) with (devs s). rewrite Hx. simpl.
      destruct (Z.eqb_spec (driver x) 0) as [Hz|Hz]; simpl; [|by destruct (has_init y)]. rewrite (driver_linked_match _ _ _ _ lv d) by done.
      destruct (matches x y); [|by destruct (has_init y)]. rewrite lookup_insert_eq. done. }
    clear -Hnew. induction lv as [|d lv IH]; [by destruct (has_init y)|]. rewrite bind_cons, IH by (intros; apply Hnew; set_solver). rewrite Hnew by set_solver.
    destruct (has_init y); [|done]. rewrite filter_cons. by destruct (decide _).
Qed.

Lemma wp_bus_device_add s ld lv dev x li (Q : unit → dev_state → Prop) :
  dev_inv s ld lv → dev ∉ lv → dev ≠ 0 → devs s !! dev = Some x → driver x = 0 → chain (ilinks s) (irqs x) li →
  (∀ s', bind_frame (put_global_device_list dev s) s' → dev_inv s' ld (dev :: lv) →
    devs s' = <[dev := dset_driver (match first_match s x ld with Some (_, drv) => drv | None => 0 end) (dset_next (global_device_list s) x)]> (devs s) →
    inits (events s') = inits (events s) ++ new_inits s ld dev → Q tt s') →
  wp (bus_device_add dev) Q s.
Proof.
  intros Hinv Hn H0 Hx Hz Hli HQ. pose proof Hinv as [Hld Hlv Htab Hlis Hb Hcm]. apply wp_bind, wp_gets, wp_bind. eapply wp_dev_store; [done|]. apply wp_bind, wp_modify.
  set (x1 := dset_next (global_device_list s) x). set (s1 := put_global_device_list dev _).
  assert (devs s1 !! dev = Some x1) as Hx1 by apply lookup_insert_eq. assert (∀ d, d ∈ lv → devs s1 !! d = devs s !! d) as Hother.
  { intros d Hd. simpl. apply lookup_insert_ne. by intros ->. }
  eapply (wp_driver_try_bind _ _ x1 li ld); [done|exact Hli|exact Hld|exact Htab|]. destruct (try_bound_spec s1 dev x1 li ld Hx1) as (Hf & Hd & He).
  assert (first_match s1 x1 ld = first_match s x ld) as Hfm by reflexivity. unfold driver_of in Hd. simpl in Hd. rewrite Hz, Hfm, insert_insert_eq in Hd. simpl in Hd.
  assert (devices_are s1 (dev :: lv)) as Hlv1.
  { eapply (chain_cons _ (global_device_list s)); [|done|unfold dev_links; by rewrite Hx1]. eapply chain_ext; [|exact Hlv]. intros d Hdl. unfold dev_links. by rewrite Hother. }
  apply HQ; [by destruct Hf; split| |exact Hd|rewrite He; unfold new_inits; rewrite Hx, Hx1, Hfm; done].
  eapply (retried_inv s1); [exact Hld|exact Hlv1|exact Htab| |by eapply drivers_ne0| |].
  - intros d x' [->|Hin]%elem_of_cons Hx'; [|rewrite Hother in Hx' by done; by eapply Hlis]. rewrite Hx1 in Hx'. injection Hx' as <-. by exists li.
  - intros d x' [->|Hin]%elem_of_cons Hx' Hne; [|rewrite Hother in Hx' by done; by eapply Hb]. rewrite Hx1 in Hx'. injection Hx' as <-. done.
  - split_and!; [done| |].
    + intros d. rewrite Hd. destruct (decide (dev = d)) as [<-|Hne].
      * rewrite lookup_insert_eq, Hx1. simpl. rewrite decide_True by set_solver. unfold driver_of. simpl. by rewrite Hz, Hfm.
      * rewrite lookup_insert_ne by done. simpl. rewrite lookup_insert_ne by done. destruct (devs s !! d) as [x'|] eqn:Hx'; [|done]. simpl. f_equal.
        destruct (decide (d ∈ dev :: lv)) as [[->|Hin]%elem_of_cons|]; [done| |done]. 
        assert (driver_of s1 x' ld = driver x') as ->; [|by rewrite dset_driver_id]. exact (driver_of_idle _ _ _ _ _ Hinv Hin Hx').
    + rewrite He. f_equal. rewrite bind_cons. assert (lv ≫= new_inits s1 ld = []) as ->; [|by rewrite app_nil_r].
      assert (∀ d, d ∈ lv → new_inits s1 ld d = []) as Hno.
      { intros d Hin. unfold new_inits. rewrite Hother by done. destruct (devs s !! d) as [x'|] eqn:Hx'; [|done]. destruct (Z.eqb_spec (driver x') 0) as [Hz'|]; [|done].
        rewrite (first_match_frame s s1) by done. by rewrite (proj2 (first_match_None s x' ld) (Hcm _ _ Hin Hx' Hz')). }
      clear -Hno. induction lv as [|d lv IH]; [done|]. rewrite bind_cons, Hno by set_solver. apply IH. intros; apply Hno; set_solver.
Qed.

(** A device that is added gets the driver registered last of those that are for
    it, its [init] is called once, and no other device changes. *)
Theorem bus_device_add_spec s ld lv dev x li :
  dev_inv s ld lv → dev ∉ lv → dev ≠ 0 → devs s !! dev = Some x → driver x = 0 → chain (ilinks s) (irqs x) li →
  wp (bus_device_add dev) (λ _ s',
    dev_inv s' ld (dev :: lv) ∧
    devs s' = <[dev := dset_driver (match first_match s x ld with Some (_, drv) => drv | None => 0 end) (dset_next (global_device_list s) x)]> (devs s) ∧
    inits (events s') = inits (events s) ++ new_inits s ld dev) s.
Proof. intros. by eapply wp_bus_device_add. Qed.

(** A network card with an interrupt and a disk controller; a driver for any card of
    class 2, and one for one vendor's. *)
Module DevDemo.
Definition card : device_t := mkDev [110] 2 0 0 0 0 0 0 0x8086 0x100e 2 0 0 7.
Definition disk : device_t := mkDev [100] 0 0 0 0 0 0 0 0x8086 0x7010 1 1 0x80 0.
Definition any_net : driver_t := mkDrv [97] [mkId 0 0 2 0 0] 1 true 900 0.
Definition intel_net : driver_t := mkDrv [98] [mkId 0x10ec 0 0 0 0; mkId 0x8086 0x100e 0 0 0] 2 false 0 0.
(** Both devices are registered, no driver is. *)
Definition s0 : dev_state :=
  mkDs {[1 := card; 2 := disk]} {[7 := mkIrqNode 0 11 false false 0]} {[50 := any_net; 51 := intel_net]} ∅ ∅ 0 0 1 [] [40] [] 0 ∅ (λ _ _ v, v).
Example after : match driver_register 50 s0 with Done (_, s) => (driver <$> devs s !! 1, driver <$> devs s !! 2, irqns s !! 7, events s) | _ => (None, None, None, []) end =
  (Some 50, Some 0, Some (mkIrqNode 40 11 true false 0), [ev_init 50 1; ev_irq_request 11 900 1]).
Proof. vm_compute. reflexivity. Qed.

Lemma s0_inv : dev_inv s0 [] [1; 2].
Proof.
  split.
  - done.
  - split_and!; [done|done|]. exists 2. split; [done|]. split_and!; [done|done|]. by exists 0.
  - set_solver.
  - intros d x [->| ->%list_elem_of_singleton]%elem_of_cons Hx; vm_compute in Hx; injection Hx as <-.
    + exists [7]. split_and!; [done|done|]. by exists 0.
    + by exists [].
  - intros d x [->| ->%list_elem_of_singleton]%elem_of_cons Hx Hd; vm_compute in Hx; injection Hx as <-; done.
  - set_solver.
Qed.
(** The card alone, the driver being there already. *)
Definition s1 : dev_state := put_global_device_list 0 (put_driver_list 50 s0).
Lemma s1_inv : dev_inv s1 [50] [].
Proof.
  split; [|done| |set_solver..].
  - split_and!; [done|done|]. by exists 0.
  - intros a y ->%list_elem_of_singleton Hy. vm_compute in Hy. injection Hy as <-. done.
Qed.
End DevDemo.

Theorem driver_register_spec_witness :
  wp (driver_register 50) (λ _ s',
    dev_inv s' [50] [1; 2] ∧
    (∀ d x, d ∈ [1; 2] → devs DevDemo.s0 !! d = Some x → devs s' !! d = Some (dset_driver (if (driver x =? 0) && matches x DevDemo.any_net then 50 else driver x) x)) ∧
    (∀ d, d ∉ [1; 2] → devs s' !! d = devs DevDemo.s0 !! d) ∧
    inits (events s') = inits (events DevDemo.s0) ++
      if has_init DevDemo.any_net then (λ d, (50, d)) <$> filter (λ d, ((λ x, (driver x =? 0) && matches x DevDemo.any_net) <$> devs DevDemo.s0 !! d) = Some true) [1; 2] else []) DevDemo.s0.
Proof.
  apply (driver_register_spec DevDemo.s0 [] [1; 2] 50 DevDemo.any_net); [exact DevDemo.s0_inv|set_solver|done|done|done].
Defined.
Theorem bus_device_add_spec_witness :
  wp (bus_device_add 1) (λ _ s',
    dev_inv s' [50] [1] ∧
    devs s' = <[1 := dset_driver (match first_match DevDemo.s1 DevDemo.card [50] with Some (_, drv) => drv | None => 0 end) (dset_next 0 DevDemo.card)]> (devs DevDemo.s1) ∧
    inits (events s') = inits (events DevDemo.s1) ++ new_inits DevDemo.s1 [50] 1) DevDemo.s1.
Proof.
  apply (bus_device_add_spec DevDemo.s1 [50] [] 1 DevDemo.card [7]); [exact DevDemo.s1_inv|set_solver|done|done|done|].
  split_and!; [done|done|]. exists 0. split; done.
Defined.

(** The enumeration of PCI makes a device of every function that configuration space
    shows, with what it says of it, and gives it to a driver. *)

Implicit Types b sl f : Z.

(** * Configuration space *)

Lemma land_shifted a n k : 0 ≤ n → 0 ≤ k < 2 ^ n → Z.land (Z.shiftl a n) k = 0.
Proof.
  intros Hn Hk. destruct (decide (k = 0)) as [->|]; [apply Z.land_0_r|]. apply Z.bits_inj'. intros i Hi. rewrite Z.land_spec, Z.shiftl_spec, Z.bits_0 by lia.
  destruct (Z.lt_ge_cases i n); [by rewrite (Z.testbit_neg_r a) by lia|]. rewrite (Z.bits_above_log2 k); [by rewrite andb_false_r|lia|].
  apply Z.log2_lt_pow2; [lia|]. eapply Z.lt_le_trans; [apply Hk|]. by apply Z.pow_le_mono_r.
Qed.
Lemma land_register o : 0 ≤ o < 256 → 0 ≤ Z.land o 0xFC < 256.
Proof.
  intros Ho. split; [apply Z.land_nonneg; lia|]. change 0xFC with (Z.land 0xFC (Z.ones 8)). rewrite Z.land_assoc, Z.land_ones by lia. apply Z.mod_pos_bound; lia.
Qed.
(** The parts of an address do not overlap. *)
Lemma config_addr_value b sl f off : 0 ≤ b < 256 → 0 ≤ sl < 32 → 0 ≤ f < 8 → 0 ≤ off < 256 →
  config_addr b sl f off = 2 ^ 31 + b * 2 ^ 16 + sl * 2 ^ 11 + f * 2 ^ 8 + Z.land off 0xFC.
Proof.
  intros Hb Hs Hf Ho. unfold config_addr, u32. rewrite !Z.shiftl_mul_pow2 by lia. rewrite !Z.mod_small by lia.
  pose proof (land_register off Ho) as Hl.
  assert (∀ a n k, 0 ≤ n → 0 ≤ k < 2 ^ n → Z.lor (a * 2 ^ n) k = a * 2 ^ n + k) as Hlor.
  { intros a n k Hn Hk. rewrite Z.add_nocarry_lxor, Z.lxor_lor; rewrite <-?Z.shiftl_mul_pow2 by lia; by try apply land_shifted. }
  replace (2 ^ 31) with (2 ^ 15 * 2 ^ 16) by lia. rewrite <-!Z.lor_assoc.
  rewrite (Hlor f 8) by lia. rewrite (Hlor sl 11) by lia. rewrite (Hlor b 16) by lia.
  replace (2 ^ 15 * 2 ^ 16) with (1 * 2 ^ 31) by lia. rewrite (Hlor 1 31) by lia. lia.
Qed.
(** C99: the address port's value names one function and register: no two functions
    share one. *)
Theorem config_addr_inj b sl f off b' sl' f' off' :
  0 ≤ b < 256 → 0 ≤ sl < 32 → 0 ≤ f < 8 → 0 ≤ off < 256 → 0 ≤ b' < 256 → 0 ≤ sl' < 32 → 0 ≤ f' < 8 → 0 ≤ off' < 256 →
  config_addr b sl f off = config_addr b' sl' f' off' → b = b' ∧ sl = sl' ∧ f = f' ∧ Z.land off 0xFC = Z.land off' 0xFC.
Proof.
  intros. pose proof (land_register off). pose proof (land_register off'). rewrite !config_addr_value in * by lia. lia.
Qed.

Definition cfg s b sl f off : Z := default 0xFFFFFFFF (config s !! config_addr b sl f off).
Definition cfg_vendor s b sl f : Z := u16 (cfg s b sl f 0).
Definition cfg_header s b sl f : Z := Z.land (Z.shiftr (cfg s b sl f 0x0C) 16) 0xFF.
Definition cfg_line s b sl f : Z := u8 (cfg s b sl f 0x3C).
Definition has_line s b sl f : bool := negb (cfg_line s b sl f =? 0xFF) && negb (cfg_line s b sl f =? 0).
(** A base address register's value, address and kind. *)
Definition cfg_bar s b sl f i : Z := cfg s b sl f (0x10 + i * 4).
Definition bar_address (v : Z) : Z := if v =? 0 then 0 else if flag v 1 then Z.land v (not32 3) else Z.land v (not32 15).
Definition bar_io (v : Z) : bool := negb (v =? 0) && flag v 1.
(** What configuration space says of a function. *)
Definition pdev_of s b sl f : pci_device_t :=
  let bars := cfg_bar s b sl f <$> [0; 1; 2; 3; 4; 5] in
  mkPdev b sl f (cfg_vendor s b sl f) (u16 (Z.shiftr (cfg s b sl f 0) 16))
    (u8 (Z.shiftr (cfg s b sl f 8) 24)) (u8 (Z.shiftr (cfg s b sl f 8) 16)) (u8 (Z.shiftr (cfg s b sl f 8) 8))
    (cfg_header s b sl f) (cfg_line s b sl f) bars (bar_address <$> bars) (bar_io <$> bars) 0.
Definition dev_of (p : Z) (x : pci_device_t) (nm : list Z) (i : Z) : device_t :=
  mkDev nm 0 0 0 0 0 0 p (p_vendor_id x) (p_device_id x) (class_code x) (p_subclass x) (p_prog_if x) i.

(** The state while the record [x] at [p] is filled in. *)
Definition filling s (p : Z) (x : pci_device_t) (al : list Z) (a : Z) : dev_state :=
  put_config_address a (put_allocs al (put_pdevs (<[p := x]> (pdevs s)) s)).
Lemma wp_fill s p x al a g (Q : unit → dev_state → Prop) : Q tt (filling s p (g x) al a) → wp (pdev_store p g) Q (filling s p x al a).
Proof.
  intros HQ. unfold wp, pdev_store. simpl. rewrite lookup_insert_eq. unfold filling in *. simpl. unfold put_pdevs at 1. simpl. rewrite insert_insert_eq. exact HQ.
Qed.
Lemma wp_fill_load s p x al a (Q : pci_device_t → dev_state → Prop) : Q x (filling s p x al a) → wp (pdev_load p) Q (filling s p x al a).
Proof. intros HQ. unfold wp, pdev_load. simpl. by rewrite lookup_insert_eq. Qed.
Lemma wp_fill_alloc s p x n al a (Q : Z → dev_state → Prop) : Q n (filling s p x al a) → wp kalloc Q (filling s p x (n :: al) a).
Proof. done. Qed.
Lemma wp_config s b sl f off (Q : Z → dev_state → Prop) : Q (cfg s b sl f off) (put_config_address (config_addr b sl f off) s) → wp (pci_read_config b sl f off) Q s.
Proof. done. Qed.
Lemma wp_fill_config s p x al a b sl f off (Q : Z → dev_state → Prop) :
  (∀ a', Q (cfg s b sl f off) (filling s p x al a')) → wp (pci_read_config b sl f off) Q (filling s p x al a).
Proof. intros HQ. apply wp_config. exact (HQ _). Qed.

Lemma wp_pci_vendor s b sl f (Q : Z → dev_state → Prop) : Q (cfg_vendor s b sl f) (put_config_address (config_addr b sl f 0) s) → wp (pci_vendor b sl f) Q s.
Proof. done. Qed.
Lemma wp_pci_header s b sl f (Q : Z → dev_state → Prop) : Q (cfg_header s b sl f) (put_config_address (config_addr b sl f 0x0C) s) → wp (pci_header_type b sl f) Q s.
Proof. done. Qed.
Section fill_regs.
Context (s : dev_state) (p : Z) (x : pci_device_t) (al : list Z) (a b sl f : Z) (Q : Z → dev_state → Prop).
Lemma wp_fill_device : (∀ a', Q (u16 (Z.shiftr (cfg s b sl f 0) 16)) (filling s p x al a')) → wp (pci_device b sl f) Q (filling s p x al a).
Proof. intros HQ. exact (HQ _). Qed.
Lemma wp_fill_class : (∀ a', Q (u8 (Z.shiftr (cfg s b sl f 8) 24)) (filling s p x al a')) → wp (pci_class b sl f) Q (filling s p x al a).
Proof. intros HQ. exact (HQ _). Qed.
Lemma wp_fill_subclass : (∀ a', Q (u8 (Z.shiftr (cfg s b sl f 8) 16)) (filling s p x al a')) → wp (pci_subclass b sl f) Q (filling s p x al a).
Proof. intros HQ. exact (HQ _). Qed.
Lemma wp_fill_progif : (∀ a', Q (u8 (Z.shiftr (cfg s b sl f 8) 8)) (filling s p x al a')) → wp (pci_progif b sl f) Q (filling s p x al a).
Proof. intros HQ. exact (HQ _). Qed.
Lemma wp_fill_header : (∀ a', Q (cfg_header s b sl f) (filling s p x al a')) → wp (pci_header_type b sl f) Q (filling s p x al a).
Proof. intros HQ. exact (HQ _). Qed.
End fill_regs.

Definition bar_step (v : Z) (i : nat) (x : pci_device_t) : pci_device_t :=
  pset_bar_is_io (<[i := bar_io v]> (bar_is_io x)) (pset_bar_addr (<[i := bar_address v]> (bar_addr x)) (pset_bar (<[i := v]> (bar x)) x)).
Lemma wp_bar_round s p x al a i (Q : unit → dev_state → Prop) :
  0 ≤ i < 6 → bar_addr x !! Z.to_nat i = Some 0 → bar_is_io x !! Z.to_nat i = Some false →
  (∀ a', Q tt (filling s p (bar_step (cfg_bar s (p_bus x) (p_slot x) (p_func x) i) (Z.to_nat i) x) al a')) →
  wp (bar_round p i) Q (filling s p x al a).
Proof.
  intros Hi Ha Hio HQ. apply wp_bind, wp_fill_load, wp_bind, wp_fill_config. intros a'. apply wp_bind, wp_fill.
  rewrite u8_id by lia. change (cfg s _ _ _ (0x10 + i * 4)) with (cfg_bar s (p_bus x) (p_slot x) (p_func x) i). set (v := cfg_bar _ _ _ _ i) in *.
  unfold bar_step, bar_address, bar_io in HQ. destruct (v =? 0); simpl in *.
  - apply wp_ret. specialize (HQ a'). rewrite (list_insert_id (bar_addr x)), (list_insert_id (bar_is_io x)) in HQ by done. by destruct x.
  - destruct (flag v 1); apply wp_fill; by destruct x.
Qed.
Lemma wp_read_bars s p b sl f w d c sb pi h l al a (Q : unit → dev_state → Prop) :
  (∀ a', Q tt (filling s p (mkPdev b sl f w d c sb pi h l (cfg_bar s b sl f <$> [0; 1; 2; 3; 4; 5])
    (bar_address <$> (cfg_bar s b sl f <$> [0; 1; 2; 3; 4; 5])) (bar_io <$> (cfg_bar s b sl f <$> [0; 1; 2; 3; 4; 5])) 0) al a')) →
  wp (pci_read_bars p) Q (filling s p (mkPdev b sl f w d c sb pi h l (replicate 6 0) (replicate 6 0) (replicate 6 false) 0) al a).
Proof.
  intros HQ. change (pci_read_bars p) with (for_n 0 6 (bar_round p)). unfold for_n.
  do 6 (apply wp_bind, wp_bar_round; [lia|done|done|]; intros ?). apply wp_ret. exact (HQ _).
Qed.

(** * One function *)

(** What the heap gives is new. *)
Definition pool s : Prop := NoDup (allocs s) ∧ ∀ a, a ∈ allocs s → a ≠ 0 ∧ devs s !! a = None ∧ pdevs s !! a = None ∧ irqns s !! a = None.
(** Device [d] is the function at a place, as configuration space describes it. *)
Definition described s0 s (loc : Z * Z * Z) (d : Z) : Prop :=
  let '(b, sl, f) := loc in
  ∃ x p, devs s !! d = Some x ∧ pdevs s !! p = Some (pset_p_dev d (pdev_of s0 b sl f)) ∧
    (name x, data x, (vendor_id x, device_id x), (class x, subclass x, prog_if x)) =
      (pci_name b sl f, p, (cfg_vendor s0 b sl f, u16 (Z.shiftr (cfg s0 b sl f 0) 16)),
       (u8 (Z.shiftr (cfg s0 b sl f 8) 24), u8 (Z.shiftr (cfg s0 b sl f 8) 16), u8 (Z.shiftr (cfg s0 b sl f 8) 8))) ∧
    if has_line s0 b sl f then (hwirq <$> irqns s !! irqs x) = Some (cfg_line s0 b sl f) ∧ ilinks s (irqs x) = Some 0 else irqs x = 0.

(** The state while the device [y] at [d] is made for it. *)
Definition built s (d : Z) (y : device_t) (im : gmap Z device_irq_t) (p : Z) (x : pci_device_t) (al : list Z) (a : Z) : dev_state :=
  put_devs (<[d := y]> (devs s)) (put_irqns im (filling s p x al a)).
Lemma wp_build s d y im p x al a g (Q : unit → dev_state → Prop) : Q tt (built s d (g y) im p x al a) → wp (dev_store d g) Q (built s d y im p x al a).
Proof. intros HQ. unfold wp, dev_store, built. cbn [devs put_devs]. rewrite lookup_insert_eq, insert_insert_eq. exact HQ. Qed.
Lemma wp_build_load s d y im p x al a (Q : device_t → dev_state → Prop) : Q y (built s d y im p x al a) → wp (dev_load d) Q (built s d y im p x al a).
Proof. intros HQ. eapply wp_dev_load; [apply lookup_insert_eq|done]. Qed.
Lemma wp_build_pdev s d y im p x al a (Q : pci_device_t → dev_state → Prop) : Q x (built s d y im p x al a) → wp (pdev_load p) Q (built s d y im p x al a).
Proof. intros HQ. unfold wp, pdev_load. cbn [built filling pdevs put_devs put_irqns put_config_address put_allocs put_pdevs]. by rewrite lookup_insert_eq. Qed.
Lemma wp_build_fill s d y im p x al a g (Q : unit → dev_state → Prop) : Q tt (built s d y im p (g x) al a) → wp (pdev_store p g) Q (built s d y im p x al a).
Proof.
  intros HQ. unfold wp, pdev_store. cbn [built filling pdevs put_devs put_irqns put_config_address put_allocs put_pdevs]. rewrite lookup_insert_eq, insert_insert_eq. exact HQ.
Qed.
Lemma wp_build_alloc s d y im p x n al a (Q : Z → dev_state → Prop) : Q n (built s d y im p x al a) → wp kalloc Q (built s d y im p x (n :: al) a).
Proof. done. Qed.
Lemma wp_build_irqs s d y im p x al a g (Q : unit → dev_state → Prop) : Q tt (built s d y (g im) p x al a) → wp (modify (λ s, put_irqns (g (irqns s)) s)) Q (built s d y im p x al a).
Proof. done. Qed.
Lemma wp_device_create s p x n al a nm (Q : Z → dev_state → Prop) :
  n ≠ 0 → Q n (built s n (dset_name nm zero_dev) (irqns s) p x al a) → wp (device_create nm) Q (filling s p x (n :: al) a).
Proof.
  intros Hn HQ. apply wp_bind, wp_fill_alloc. rewrite (proj2 (Z.eqb_neq _ _) Hn). apply wp_bind, wp_modify.
  change (put_devs _ _) with (built s n zero_dev (irqns s) p x al a). by apply wp_bind, wp_build, wp_ret.
Qed.

(** The state in which the new device is handed over. *)
Definition created s b sl f (p d i : Z) (al : list Z) (a : Z) : dev_state :=
  let x := pdev_of s b sl f in
  built s d (dev_of p x (pci_name b sl f) (if has_line s b sl f then i else 0))
    (if has_line s b sl f then <[i := mkIrqNode 0 (cfg_line s b sl f) false false 0]> (irqns s) else irqns s) p (pset_p_dev d x) al a.

(** The record of the function is read. *)
Lemma wp_pci_start s p al a (Q : unit → dev_state → Prop) :
  Q tt (filling s p zero_pdev al a) → wp (modify (λ s, put_pdevs (<[p := zero_pdev]> (pdevs s)) s)) Q (put_allocs al (put_config_address a s)).
Proof. done. Qed.
Lemma wp_pci_fill s p v al a b sl f (Q : Z → dev_state → Prop) :
  v = cfg_vendor s b sl f → (∀ a', Q (cfg_line s b sl f) (filling s p (pdev_of s b sl f) al a')) → wp (pci_fill p v b sl f) Q (filling s p zero_pdev al a).
Proof.
  intros -> HQ. apply wp_bind, wp_fill. apply wp_bind, wp_fill_device; intros ?. apply wp_bind, wp_fill. apply wp_bind, wp_fill_class; intros ?. apply wp_bind, wp_fill.
  apply wp_bind, wp_fill_subclass; intros ?. apply wp_bind, wp_fill. apply wp_bind, wp_fill_progif; intros ?. apply wp_bind, wp_fill.
  apply wp_bind, wp_fill_header; intros ?. apply wp_bind, wp_fill. apply wp_bind, wp_fill_config; intros ?. apply wp_bind, wp_fill.
  cbv [pset_irq_line pset_header_type pset_p_prog_if pset_p_subclass pset_class_code pset_p_device_id pset_p_vendor_id pset_p_func pset_p_slot pset_p_bus zero_pdev
    p_bus p_slot p_func p_vendor_id p_device_id class_code p_subclass p_prog_if header_type irq_line bar bar_addr bar_is_io p_dev].
  apply wp_bind, wp_read_bars. intros ?. apply wp_ret, HQ.
Qed.
Lemma wp_dev_kalloc s n al (Q : Z → dev_state → Prop) : allocs s = n :: al → Q n (put_allocs al s) → wp kalloc Q s.
Proof. unfold wp, kalloc. by intros ->. Qed.
Lemma wp_add_line s d y im p x i al a l (Q : unit → dev_state → Prop) :
  d ≠ 0 → i ≠ 0 →
  let c := negb (l =? 0xFF) && negb (l =? 0) in
  Q tt (built s d (if c then dset_irqs i y else y) (if c then <[i := mkIrqNode 0 l false false (irqs y)]> im else im) p x (if c then al else i :: al) a) →
  wp (when (negb (l =? 0xFF) && negb (l =? 0)) (device_add_irq d l)) Q (built s d y im p x (i :: al) a).
Proof.
  intros Hd Hi. cbv zeta. destruct (negb (l =? 0xFF) && negb (l =? 0)); cbn [when]; intros HQ; [|by apply wp_ret].
  unfold device_add_irq. rewrite (proj2 (Z.eqb_neq _ _) Hd). apply wp_bind, wp_build_alloc. rewrite (proj2 (Z.eqb_neq _ _) Hi).
  by apply wp_bind, wp_build_load, wp_bind, wp_build_irqs, wp_build.
Qed.
Lemma dev_of_line p x nm (c : bool) i :
  let y := dset_prog_if (p_prog_if x) (dset_subclass (p_subclass x) (dset_class (class_code x) (dset_device_id (p_device_id x) (dset_vendor_id (p_vendor_id x) (dset_name nm zero_dev))))) in
  dset_data p (if c then dset_irqs i y else y) = dev_of p x nm (if c then i else 0).
Proof. by destruct c. Qed.
Lemma wp_pci_create s b sl f p nm d i al (Q : unit → dev_state → Prop) :
  cfg_vendor s b sl f ≠ PCI_INVALID_VENDOR → allocs s = p :: nm :: d :: i :: al → p ≠ 0 → nm ≠ 0 → d ≠ 0 → i ≠ 0 →
  (∀ a, wp (bus_device_add d) Q (created s b sl f p d i (if has_line s b sl f then al else i :: al) a)) → wp (pci_create_device b sl f) Q s.
Proof.
  intros Hv Hal Hp Hnm Hd Hi HQ. apply wp_bind, wp_pci_vendor. rewrite (proj2 (Z.eqb_neq _ _) Hv). apply wp_bind. apply (wp_dev_kalloc _ p (nm :: d :: i :: al)); [exact Hal|].
  rewrite (proj2 (Z.eqb_neq _ _) Hp). apply wp_bind, wp_pci_start, wp_bind, wp_pci_fill; [done|]. intros a.
  apply wp_bind, wp_fill_alloc. rewrite (proj2 (Z.eqb_neq _ _) Hnm). apply wp_bind, wp_device_create; [done|].
  apply wp_bind, wp_build_pdev, wp_bind, wp_build, wp_bind, wp_add_line; [done|done|].
  apply wp_bind, wp_build, wp_bind, wp_build_fill. rewrite dev_of_line. exact (HQ a).
Qed.

Lemma cfg_config s s0 : config s = config s0 → ∀ b sl f off, cfg s b sl f off = cfg s0 b sl f off.
Proof. unfold cfg. by intros ->. Qed.
Lemma pdev_of_config s s0 b sl f : config s = config s0 →
  pdev_of s b sl f = pdev_of s0 b sl f ∧ cfg_vendor s b sl f = cfg_vendor s0 b sl f ∧ cfg_header s b sl f = cfg_header s0 b sl f ∧
  cfg_line s b sl f = cfg_line s0 b sl f ∧ has_line s b sl f = has_line s0 b sl f.
Proof.
  intros H. unfold pdev_of, has_line, cfg_vendor, cfg_header, cfg_line, cfg_bar, cfg. by rewrite H.
Qed.
Lemma dev_inv_live s ld lv d : dev_inv s ld lv → d ∈ lv → is_Some (devs s !! d).
Proof.
  intros Hinv Hd. destruct (chain_is_Some _ _ _ _ (di_devices _ _ _ Hinv) Hd) as [n Hn]. unfold dev_links in Hn. by destruct (devs s !! d).
Qed.
(** Objects that are not in the lists may come and go. *)
Lemma dev_inv_mono s s' ld lv :
  dev_inv s ld lv → drvs s' = drvs s → driver_list s' = driver_list s → global_device_list s' = global_device_list s →
  (∀ d, d ∈ lv → devs s' !! d = devs s !! d) → (∀ i n, ilinks s i = Some n → ilinks s' i = Some n) → dev_inv s' ld lv.
Proof.
  intros [Hld Hlv Htab Hli Hb Hc] Hdr Hl Hg Hd Hi. split.
  - unfold drivers_are, drv_links. by rewrite Hdr, Hl.
  - unfold devices_are. rewrite Hg. eapply chain_ext; [|done]. intros d Hin. unfold dev_links. by rewrite Hd.
  - by rewrite Hdr.
  - intros d x Hin. rewrite Hd by done. intros Hx. destruct (Hli d x Hin Hx) as [li Hc']. exists li. eapply chain_ext; [|done].
    intros a Ha. destruct (chain_is_Some _ _ _ _ Hc' Ha) as [n Hn]. rewrite Hn. by apply Hi.
  - intros d x Hin. rewrite Hd, Hdr by done. by apply Hb.
  - intros d x Hin. rewrite Hd, Hdr by done. by apply Hc.
Qed.
Lemma ilinks_None s i : irqns s !! i = None ↔ ilinks s i = None.
Proof. unfold ilinks. by destruct (irqns s !! i). Qed.

(** What one function adds: the state [s'] has one device more. *)
Definition adds s0 s s' ld lv (loc : Z * Z * Z) : Prop :=
  ∃ d, devs s !! d = None ∧ dev_inv s' ld (d :: lv) ∧ described s0 s' loc d ∧ config s' = config s ∧ pool s' ∧ (length (allocs s) ≤ length (allocs s') + 4)%nat ∧
    (∀ loc' d', described s0 s loc' d' → described s0 s' loc' d').

(** An object that was there is as it was. *)
Lemma described_mono s0 s s' loc d :
  (∀ a x, devs s !! a = Some x → devs s' !! a = Some x) → (∀ a x, pdevs s !! a = Some x → pdevs s' !! a = Some x) →
  (∀ i n, ilinks s i = Some n → ilinks s' i = Some n) → (∀ i n, (hwirq <$> irqns s !! i) = Some n → (hwirq <$> irqns s' !! i) = Some n) →
  described s0 s loc d → described s0 s' loc d.
Proof.
  intros Hd Hp Hl Hh. destruct loc as [[b sl] f]. intros (x & p & Hx & Hpx & Heq & Hline). exists x, p. split_and!; [by apply Hd|by apply Hp|done|].
  destruct (has_line s0 b sl f); [|done]. destruct Hline as [H1 H2]. split; [by apply Hh|by apply Hl].
Qed.
Lemma insert_fresh_mono {X} (m : gmap Z X) k v : m !! k = None → ∀ a x, m !! a = Some x → <[k := v]> m !! a = Some x.
Proof. intros Hk a x Ha. rewrite lookup_insert_ne; [done|]. intros ->. congruence. Qed.

(** The maps after [created]. *)
Lemma created_links s b sl f p d i al a : irqns s !! i = None →
  (∀ j n, ilinks s j = Some n → ilinks (created s b sl f p d i al a) j = Some n) ∧
  (∀ j n, (hwirq <$> irqns s !! j) = Some n → (hwirq <$> irqns (created s b sl f p d i al a) !! j) = Some n) ∧
  (∀ j, j ≠ i → irqns (created s b sl f p d i al a) !! j = irqns s !! j).
Proof.
  intros Hi. unfold ilinks. change (irqns (created s b sl f p d i al a)) with
    (if has_line s b sl f then <[i := mkIrqNode 0 (cfg_line s b sl f) false false 0]> (irqns s) else irqns s).
  destruct (has_line s b sl f); [|done]. split_and!.
  1,2: intros j n Hj; rewrite lookup_insert_ne; [done|]; intros <-; by rewrite Hi in Hj.
  intros j Hj. by apply lookup_insert_ne.
Qed.
Lemma created_inv s b sl f p d i al a ld lv : dev_inv s ld lv → devs s !! d = None → irqns s !! i = None → dev_inv (created s b sl f p d i al a) ld lv.
Proof.
  intros Hinv Hd Hi. destruct (created_links s b sl f p d i al a Hi) as (Hl & _ & _). eapply dev_inv_mono; [done..| |done].
  intros d' Hin. apply lookup_insert_ne. intros <-. destruct (dev_inv_live _ _ _ _ Hinv Hin). congruence.
Qed.
(** The part of the heap that is left is still new. *)
Lemma pool_after s s' b sl f p nm d i al x :
  pool s → allocs s = p :: nm :: d :: i :: al → allocs s' = (if has_line s b sl f then al else i :: al) →
  devs s' = <[d := x]> (devs s) → (∀ a, a ≠ p → pdevs s' !! a = pdevs s !! a) →
  (∀ a, a ≠ i ∨ has_line s b sl f = false → irqns s !! a = None → irqns s' !! a = None) → pool s'.
Proof.
  intros [Hnd Hnew] Hal Hal' Hd Hp Hi. rewrite Hal in Hnd, Hnew. apply NoDup_cons in Hnd as [Hnp Hnd]. apply NoDup_cons in Hnd as [_ Hnd].
  apply NoDup_cons in Hnd as [Hdn Hnd]. assert (∀ a, a ∈ allocs s' → a ∈ i :: al ∧ (a ≠ i ∨ has_line s b sl f = false)) as Hin.
  { intros a. rewrite Hal'. apply NoDup_cons in Hnd as [Hni _]. destruct (has_line s b sl f); [|by auto]. intros Ha. split; [set_solver|]. left. by intros ->. }
  split; [rewrite Hal'; destruct (has_line s b sl f); [by apply NoDup_cons in Hnd as []|done]|].
  intros a Ha. destruct (Hin a Ha) as [Ha' Hai]. destruct (Hnew a) as (H0 & H1 & H2 & H3); [set_solver|]. split_and!; [done| | |by apply Hi].
  - rewrite Hd, lookup_insert_ne; [done|]. intros ->. done.
  - rewrite Hp; [done|]. intros ->. apply Hnp. set_solver.
Qed.
Lemma wp_create_adds s0 s ld lv b sl f (Q : unit → dev_state → Prop) :
  config s = config s0 → dev_inv s ld lv → pool s → (4 ≤ length (allocs s))%nat → cfg_vendor s b sl f ≠ PCI_INVALID_VENDOR →
  (∀ s', adds s0 s s' ld lv (b, sl, f) → Q tt s') → wp (pci_create_device b sl f) Q s.
Proof.
  intros Hcfg Hinv Hpool Hlen Hv HQ. destruct (allocs s) as [|p [|nm [|d [|i al]]]] eqn:Hal; simpl in Hlen; try lia.
  assert (∀ a, a ∈ allocs s → a ≠ 0 ∧ devs s !! a = None ∧ pdevs s !! a = None ∧ irqns s !! a = None) as Hnew by apply Hpool. rewrite Hal in Hnew.
  destruct (Hnew p) as (Hp0 & _ & Hpn & _); [set_solver|]. destruct (Hnew nm) as (Hnm0 & _); [set_solver|]. destruct (Hnew d) as (Hd0 & Hdn & _); [set_solver|].
  destruct (Hnew i) as (Hi0 & _ & _ & Hin); [set_solver|]. apply (wp_pci_create s b sl f p nm d i al); [done..|]. intros a. set (al' := if has_line s b sl f then al else i :: al).
  destruct (created_links s b sl f p d i al' a Hin) as (Hl & Hh & Hne). set (y := dev_of p (pdev_of s b sl f) (pci_name b sl f) (if has_line s b sl f then i else 0)).
  assert (devs (created s b sl f p d i al' a) = <[d := y]> (devs s)) as Hdc by done. assert (irqns (created s b sl f p d i al' a) = if has_line s b sl f then <[i := mkIrqNode 0 (cfg_line s b sl f) false false 0]> (irqns s) else irqns s) as Hic by done.
  apply (wp_bus_device_add _ ld lv d y (if has_line s b sl f then [i] else [])).
  { by apply created_inv. } { intros Hin'. destruct (dev_inv_live _ _ _ _ Hinv Hin'). congruence. } { done. } { rewrite Hdc. apply lookup_insert_eq. } { done. }
  { unfold y. simpl. unfold ilinks. rewrite Hic. destruct (has_line s b sl f); [|done]. split_and!; [done|done|]. exists 0. by rewrite lookup_insert_eq. }
  intros s' Hf Hinv' Hd' _. apply HQ. exists d. rewrite Hdc, insert_insert_eq in Hd'. pose proof (bf_links _ _ Hf) as Hfl. pose proof (bf_hwirq _ _ Hf) as Hfh.
  change (∀ j, ilinks s' j = ilinks (created s b sl f p d i al' a) j) in Hfl. change (∀ j, (hwirq <$> irqns s' !! j) = (hwirq <$> irqns (created s b sl f p d i al' a) !! j)) in Hfh.
  pose proof (bf_pdevs _ _ Hf) as Hp'. change (pdevs s' = <[p := pset_p_dev d (pdev_of s b sl f)]> (pdevs s)) in Hp'.
  pose proof (bf_allocs _ _ Hf) as Hal'. change (allocs s' = al') in Hal'. pose proof (bf_config _ _ Hf) as Hc'. change (config s' = config s) in Hc'.
  destruct (pdev_of_config s s0 b sl f Hcfg) as (Hpd & Hcv & _ & Hcl & Hhl).
  split_and!; [done|done| |done| | |].
  - eexists _, p. rewrite Hd', Hp', !lookup_insert_eq, Hpd. split_and!; [done|done|unfold y; rewrite Hpd; done|]. simpl. unfold y. simpl. rewrite Hfh, Hfl. unfold ilinks. rewrite Hic, Hhl, Hcl.
    destruct (has_line s0 b sl f); [|done]. by rewrite lookup_insert_eq.
  - eapply (pool_after s s' b sl f p nm d i al); [done|done|done|exact Hd'| |].
    + intros j Hj. rewrite Hp'. by rewrite lookup_insert_ne.
    + intros j Hj Hn. apply ilinks_None. rewrite Hfl. apply ilinks_None. rewrite Hic. destruct Hj as [Hj| ->]; [|done]. destruct (has_line s b sl f); [by rewrite lookup_insert_ne|done].
  - rewrite Hal, Hal'. unfold al'. destruct (has_line s b sl f); simpl; lia.
  - intros loc' d'. apply described_mono.
    + rewrite Hd'. by apply insert_fresh_mono.
    + rewrite Hp'. by apply insert_fresh_mono.
    + intros j n Hj. rewrite Hfl. by apply Hl.
    + intros j n Hj. rewrite Hfh. by apply Hh.
Qed.

(** * The scan *)

(** The functions that the scan gets to: those of a slot whose function 0 is there,
    and others than 0 only when its header says that there are. *)
Definition visible s (loc : Z * Z * Z) : bool :=
  let '(b, sl, f) := loc in
  negb (cfg_vendor s b sl 0 =? PCI_INVALID_VENDOR) && ((f =? 0) || flag (cfg_header s b sl 0) 0x80) && negb (cfg_vendor s b sl f =? PCI_INVALID_VENDOR).
Definition slot_functions s b sl (n : Z) : list (Z * Z * Z) := seqZ 0 n ≫= λ f, filter (λ l, visible s l = true) [(b, sl, f)].
Definition bus_functions s b (n : Z) : list (Z * Z * Z) := seqZ 0 n ≫= λ sl, slot_functions s b sl 8.
Definition functions s (n : Z) : list (Z * Z * Z) := seqZ 0 n ≫= λ b, bus_functions s b 32.

Section collect.
Context {S X : Type} (Inv : list X → S → Prop) (g : Z → list X) (body : Z → M S unit) (tot L : list X).
(** A loop each of whose rounds adds its elements. *)
Lemma wp_collect (n : Z) (t : S) (Q : unit → S → Prop) :
  0 ≤ n → Inv L t → L ++ (seqZ 0 n ≫= g) `prefix_of` tot →
  (∀ i t' L', 0 ≤ i < n → Inv L' t' → L' ++ g i `prefix_of` tot → wp (body i) (λ _, Inv (L' ++ g i)) t') →
  (∀ t', Inv (L ++ (seqZ 0 n ≫= g)) t' → Q tt t') → wp (for_n 0 (Z.to_nat n) body) Q t.
Proof.
  intros Hn HI Hpre Hb HQ. assert (∀ i, 0 ≤ i → seqZ 0 (i + 1) ≫= g = (seqZ 0 i ≫= g) ++ g i) as Hstep.
  { intros i Hi. rewrite (seqZ_app 0 i 1) by lia. rewrite bind_app, Z.add_0_l. f_equal. simpl. by rewrite app_nil_r. }
  assert (∀ i, 0 ≤ i ≤ n → L ++ (seqZ 0 i ≫= g) `prefix_of` tot) as Hle.
  { intros i Hi. etrans; [|exact Hpre]. apply prefix_app. replace n with (i + (n - i)) by lia. rewrite seqZ_app, bind_app by lia. by apply prefix_app_r. }
  apply (wp_for_n (λ i t', Inv (L ++ (seqZ 0 i ≫= g)) t')).
  - by rewrite app_nil_r.
  - intros i t' Hi HI'. rewrite Z2Nat.id in Hi by lia. eapply wp_mono; [apply (Hb i t' _ ltac:(lia) HI')|].
    + rewrite <-app_assoc, <-Hstep by lia. apply Hle. lia.
    + intros [] t'' HI''. rewrite <-app_assoc, <-Hstep in HI'' by lia. done.
  - intros t'. rewrite Z.add_0_l, Z2Nat.id by lia. apply HQ.
Qed.
End collect.

(** After the functions [L]. *)
Record pci_inv s0 (ld lv : list Z) (tot : list (Z * Z * Z)) (L : list (Z * Z * Z)) s : Prop := {
  pi_config : config s = config s0;
  pi_pool : pool s;
  pi_enough : (4 * length tot ≤ 4 * length L + length (allocs s))%nat;
  pi_devs : ∃ l, dev_inv s ld (reverse l ++ lv) ∧ Forall2 (described s0 s) L l;
}.
Lemma pci_inv_addr s0 ld lv tot L s a : pci_inv s0 ld lv tot L s → pci_inv s0 ld lv tot L (put_config_address a s).
Proof.
  intros [Hc Hp He (l & Hi & Hd)]. split; [done..|]. exists l. split; [|done]. by eapply dev_inv_mono.
Qed.
Lemma pci_inv_adds s0 ld lv tot L s b sl f (Q : unit → dev_state → Prop) :
  pci_inv s0 ld lv tot L s → L ++ [(b, sl, f)] `prefix_of` tot → cfg_vendor s0 b sl f ≠ PCI_INVALID_VENDOR →
  (∀ s', pci_inv s0 ld lv tot (L ++ [(b, sl, f)]) s' → Q tt s') → wp (pci_create_device b sl f) Q s.
Proof.
  intros [Hc Hp He (l & Hi & Hd)] Hpre Hv HQ. apply prefix_length in Hpre. rewrite length_app in Hpre. simpl in Hpre. destruct (pdev_of_config s s0 b sl f Hc) as (_ & Hcv & _).
  apply (wp_create_adds s0 s ld (reverse l ++ lv)); [done|done|done|lia|by rewrite Hcv|]. intros s' (d & _ & Hi' & Hds & Hc' & Hp' & Hlen & Hmono). apply HQ. split.
  - by rewrite Hc'.
  - done.
  - rewrite length_app. simpl. lia.
  - exists (l ++ [d]). split; [by rewrite reverse_snoc|]. apply Forall2_app; [|by constructor]. eapply Forall2_impl; [done|]. intros. by apply Hmono.
Qed.
Lemma wp_scan_slot s0 ld lv tot L s b sl (Q : unit → dev_state → Prop) :
  pci_inv s0 ld lv tot L s → L ++ slot_functions s0 b sl 8 `prefix_of` tot →
  (∀ s', pci_inv s0 ld lv tot (L ++ slot_functions s0 b sl 8) s' → Q tt s') → wp (pci_scan_slot b sl) Q s.
Proof.
  intros Hinv Hpre HQ. assert (∀ s' L' f, pci_inv s0 ld lv tot L' s' → cfg_vendor s' b sl f = cfg_vendor s0 b sl f ∧ cfg_header s' b sl f = cfg_header s0 b sl f) as Hcf.
  { intros s' L' f H. by destruct (pdev_of_config s' s0 b sl f (pi_config _ _ _ _ _ _ H)) as (_ & ? & ? & _). }
  apply wp_bind, wp_pci_vendor. destruct (Hcf _ _ 0 Hinv) as [Hv Hh]. rewrite Hv. destruct (Z.eqb_spec (cfg_vendor s0 b sl 0) PCI_INVALID_VENDOR) as [He|He].
  { apply wp_ret, HQ. assert (slot_functions s0 b sl 8 = []) as ->; [|rewrite app_nil_r; by apply pci_inv_addr].
    unfold slot_functions. assert (∀ f, visible s0 (b, sl, f) = false) as Hno by (intros f; unfold visible; by rewrite He). simpl. rewrite !filter_cons, !Hno. done. }
  apply wp_bind, wp_pci_header. set (s1 := put_config_address _ s). apply (pci_inv_addr _ _ _ _ _ _ (config_addr b sl 0 0)) in Hinv. fold s1 in Hinv.
  rewrite (proj2 (Hcf _ _ 0 Hinv)).
  apply (wp_collect (pci_inv s0 ld lv tot) (λ f, filter (λ l, visible s0 l = true) [(b, sl, f)]) _ tot L 8); [lia|by apply pci_inv_addr|done| |done].
  intros f s' L' Hf Hinv' Hpre'. rewrite filter_cons in *. simpl in *. unfold visible in *. rewrite (proj2 (Z.eqb_neq _ _) He) in *. simpl in *.
  destruct ((f =? 0) || flag (cfg_header s0 b sl 0) 128); simpl in *; [|apply wp_ret; by rewrite app_nil_r].
  apply wp_bind, wp_pci_vendor. rewrite (proj1 (Hcf _ _ f Hinv')). destruct (Z.eqb_spec (cfg_vendor s0 b sl f) PCI_INVALID_VENDOR) as [Hf0|Hf0]; simpl in *.
  - apply wp_ret. rewrite app_nil_r. by apply pci_inv_addr.
  - eapply pci_inv_adds; [by apply pci_inv_addr|done|done|done].
Qed.
Lemma wp_scan_bus s0 ld lv tot L s b (Q : unit → dev_state → Prop) :
  pci_inv s0 ld lv tot L s → L ++ bus_functions s0 b 32 `prefix_of` tot →
  (∀ s', pci_inv s0 ld lv tot (L ++ bus_functions s0 b 32) s' → Q tt s') → wp (pci_scan_bus b) Q s.
Proof.
  intros Hinv Hpre HQ. apply (wp_collect (pci_inv s0 ld lv tot) (λ sl, slot_functions s0 b sl 8) _ tot L 32); [lia|done|done| |done].
  intros sl s' L' _ Hinv' Hpre'. by eapply wp_scan_slot.
Qed.

(** C37: the enumeration of PCI returns with one device for each function that the bus
    shows, in the order of buses, slots and functions, and no other: its record holds
    the identifiers, the addresses of the registers and the interrupt line that
    configuration space says, and the devices and the drivers are bound as ever. *)
Theorem pci_enumerate_spec s ld lv :
  dev_inv s ld lv → pool s → (4 * length (functions s 256) ≤ length (allocs s))%nat →
  wp pci_enumerate (λ _ s', ∃ l, dev_inv s' ld (reverse l ++ lv) ∧ Forall2 (described s s') (functions s 256) l) s.
Proof.
  intros Hinv Hp Hlen.
  apply (wp_collect (pci_inv s ld lv (functions s 256)) (λ b, bus_functions s b 32) _ (functions s 256) [] 256); [lia| |done| |].
  - split; [done|done|simpl; lia|]. by exists [].
  - intros b s' L' Hb Hinv' Hpre. rewrite u8_id by lia. by eapply wp_scan_bus.
  - intros s' H. exact (pi_devs _ _ _ _ _ _ H).
Qed.

(** The functions that are found are those that answer. *)
Lemma functions_spec s b sl f : (b, sl, f) ∈ functions s 256 ↔ 0 ≤ b < 256 ∧ 0 ≤ sl < 32 ∧ 0 ≤ f < 8 ∧ visible s (b, sl, f) = true.
Proof.
  unfold functions, bus_functions, slot_functions. rewrite list_elem_of_bind. setoid_rewrite list_elem_of_bind. setoid_rewrite list_elem_of_bind. setoid_rewrite list_elem_of_filter.
  setoid_rewrite elem_of_seqZ. setoid_rewrite list_elem_of_singleton. split.
  - intros (b' & (sl' & (f' & (Hv & [= -> -> ->]) & ?) & ?) & ?). repeat split; try lia; done.
  - intros (? & ? & ? & Hv). exists b. split; [|lia]. exists sl. split; [|lia]. exists f. split; [done|lia].
Qed.
(** The record of a function is used even when there is no memory for it. *)
Theorem pci_create_null s b sl f : cfg_vendor s b sl f ≠ PCI_INVALID_VENDOR → allocs s = [] → pci_create_device b sl f s = Fault.
Proof.
  intros Hv Ha. unfold pci_create_device, mbind, M_bind. change (pci_vendor b sl f s) with (Done (cfg_vendor s b sl f, put_config_address (config_addr b sl f 0) s)).
  cbv beta iota. rewrite (proj2 (Z.eqb_neq _ _) Hv). unfold kalloc. cbn [allocs put_config_address]. by rewrite Ha.
Qed.

(** A bridge and a network card with an interrupt; function 2 of the bridge answers and
    its header says that there are several functions. *)
Module PciDemo.
Definition space : gmap Z Z := {[
  config_addr 0 1 0 0 := 0x70008086; config_addr 0 1 0 8 := 0x06010000; config_addr 0 1 0 0x0C := 0x00800000;
  config_addr 0 1 2 0 := 0x70108086; config_addr 0 1 2 8 := 0x01018000;
  config_addr 3 4 0 0 := 0x100e8086; config_addr 3 4 0 8 := 0x02000003; config_addr 3 4 0 0x0C := 0;
  config_addr 3 4 0 0x10 := 0xfebc0000; config_addr 3 4 0 0x14 := 0xc001; config_addr 3 4 0 0x3C := 0x010b ]}.
Definition s0 : dev_state :=
  mkDs ∅ ∅ {[50 := DevDemo.any_net]} ∅ ∅ 0 50 0 [101; 102; 103; 104; 105; 106; 107; 108; 109; 110; 111; 112] [40] [] 0 space (λ _ _ v, v).
Lemma s0_functions : functions s0 256 = [(0, 1, 0); (0, 1, 2); (3, 4, 0)].
Proof. vm_compute. reflexivity. Qed.
Lemma pci_s0_inv : dev_inv s0 [50] [].
Proof.
  split; [|done| |set_solver..].
  - split_and!; [done|done|]. by exists 0.
  - intros a y ->%list_elem_of_singleton Hy. vm_compute in Hy. injection Hy as <-. done.
Qed.
Lemma s0_pool : pool s0.
Proof.
  split; [apply (bool_decide_unpack _); vm_compute; done|]. intros a Ha. simpl in Ha. split_and!; [|done..].
  intros ->. revert Ha. apply (bool_decide_unpack _). vm_compute. done.
Qed.
(** The card got its driver, and its interrupt the number 40. *)
Example pci_after : match pci_enumerate s0 with
  | Done (_, s) => (name <$> devs s !! 109, driver <$> devs s !! 109, irq <$> irqns s !! 110, bar_addr <$> pdevs s !! 107, events s)
  | _ => (None, None, None, None, []) end =
  (Some (pci_name 3 4 0), Some 50, Some 40, Some [0xfebc0000; 0xc000; 0xfffffffc; 0xfffffffc; 0xfffffffc; 0xfffffffc], [ev_init 50 109; ev_irq_request 11 900 109]).
Proof. vm_compute. reflexivity. Qed.
End PciDemo.

Theorem pci_enumerate_spec_witness :
  wp pci_enumerate (λ _ s', ∃ l, dev_inv s' [50] (reverse l ++ []) ∧ Forall2 (described PciDemo.s0 s') (functions PciDemo.s0 256) l) PciDemo.s0.
Proof.
  apply (pci_enumerate_spec PciDemo.s0 [50] []); [exact PciDemo.pci_s0_inv|exact PciDemo.s0_pool|]. rewrite PciDemo.s0_functions. simpl. lia.
Defined.
Theorem config_addr_inj_witness : config_addr 3 4 1 0x11 = config_addr 3 4 1 0x12 ∧ 3 = 3 ∧ 4 = 4 ∧ 1 = 1 ∧ Z.land 0x11 0xFC = Z.land 0x12 0xFC.
Proof. split; [reflexivity|]. apply (config_addr_inj 3 4 1 0x11 3 4 1 0x12); first [lia|reflexivity]. Defined.
