(* ===== verification/Npf.v ===== *)
(** Formatted output: [src/kernel/src/log/nanoprintf.h], in the configuration that
    [log.c] chooses: field width, precision, small, large and binary specifiers, no
    floating point, no write-back, and no alternate form, whose macro is not defined.

    A format is the list of its bytes, which a zero or the end of the list ends. An
    argument is the 64-bit word in which it is passed, and an argument that is not
    there is a fault. Strings are read byte by byte from the memory [mem]; a byte that
    is not there is a fault. Characters are unsigned bytes: the code only compares
    them with characters below 128. [int] wraps around where C leaves it undefined. *)
From S2P Require Import Prelude.

(** * Format specifiers *)

Inductive npf_opt := OPT_NONE | OPT_LITERAL | OPT_STAR.
Inductive npf_len_mod :=
  LEN_MOD_NONE | LEN_MOD_SHORT | LEN_MOD_CHAR | LEN_MOD_LONG | LEN_MOD_LONG_DOUBLE |
  LEN_MOD_LARGE_LONG_LONG | LEN_MOD_LARGE_INTMAX | LEN_MOD_LARGE_SIZET | LEN_MOD_LARGE_PTRDIFFT.
Inductive npf_conv :=
  CONV_NONE | CONV_PERCENT | CONV_CHAR | CONV_STRING | CONV_SIGNED_INT | CONV_BINARY |
  CONV_OCTAL | CONV_HEX_INT | CONV_UNSIGNED_INT | CONV_POINTER.
#[export] Instance npf_opt_eq_dec : EqDecision npf_opt.
Proof. solve_decision. Defined.
#[export] Instance npf_len_mod_eq_dec : EqDecision npf_len_mod.
Proof. solve_decision. Defined.
#[export] Instance npf_conv_eq_dec : EqDecision npf_conv.
Proof. solve_decision. Defined.

(** [npf_format_spec_t]; the flags that are characters or 0 and 1 are booleans. *)
Record npf_format_spec_t := mkSpec {
  field_width : Z;
  prec : Z;
  prec_opt : npf_opt;
  field_width_opt : npf_opt;
  left_justified : bool;
  leading_zero_pad : bool;
  prepend : Z;
  case_adjust : Z;
  length_modifier : npf_len_mod;
  conv_spec : npf_conv;
}.
Definition fset_field_width v s := mkSpec v (prec s) (prec_opt s) (field_width_opt s) (left_justified s) (leading_zero_pad s) (prepend s) (case_adjust s) (length_modifier s) (conv_spec s).
Definition fset_prec v s := mkSpec (field_width s) v (prec_opt s) (field_width_opt s) (left_justified s) (leading_zero_pad s) (prepend s) (case_adjust s) (length_modifier s) (conv_spec s).
Definition fset_prec_opt v s := mkSpec (field_width s) (prec s) v (field_width_opt s) (left_justified s) (leading_zero_pad s) (prepend s) (case_adjust s) (length_modifier s) (conv_spec s).
Definition fset_field_width_opt v s := mkSpec (field_width s) (prec s) (prec_opt s) v (left_justified s) (leading_zero_pad s) (prepend s) (case_adjust s) (length_modifier s) (conv_spec s).
Definition fset_left_justified v s := mkSpec (field_width s) (prec s) (prec_opt s) (field_width_opt s) v (leading_zero_pad s) (prepend s) (case_adjust s) (length_modifier s) (conv_spec s).
Definition fset_leading_zero_pad v s := mkSpec (field_width s) (prec s) (prec_opt s) (field_width_opt s) (left_justified s) v (prepend s) (case_adjust s) (length_modifier s) (conv_spec s).
Definition fset_prepend v s := mkSpec (field_width s) (prec s) (prec_opt s) (field_width_opt s) (left_justified s) (leading_zero_pad s) v (case_adjust s) (length_modifier s) (conv_spec s).
Definition fset_case_adjust v s := mkSpec (field_width s) (prec s) (prec_opt s) (field_width_opt s) (left_justified s) (leading_zero_pad s) (prepend s) v (length_modifier s) (conv_spec s).
Definition fset_length_modifier v s := mkSpec (field_width s) (prec s) (prec_opt s) (field_width_opt s) (left_justified s) (leading_zero_pad s) (prepend s) (case_adjust s) v (conv_spec s).
Definition fset_conv_spec v s := mkSpec (field_width s) (prec s) (prec_opt s) (field_width_opt s) (left_justified s) (leading_zero_pad s) (prepend s) (case_adjust s) (length_modifier s) v.

(** Characters. *)
Local Abbreviation c_percent := 37 (only parsing).
Local Abbreviation c_star := 42 (only parsing).
Local Abbreviation c_plus := 43 (only parsing).
Local Abbreviation c_minus := 45 (only parsing).
Local Abbreviation c_dot := 46 (only parsing).
Local Abbreviation c_zero := 48 (only parsing).
Local Abbreviation c_space := 32 (only parsing).
Definition is_digit (c : Z) : bool := (48 <=? c) && (c <=? 57).
(** The character at the cursor; past the end there is the terminating zero. *)
Definition peek (cur : list Z) : Z := default 0 (head cur).

(** The flags. *)
Fixpoint parse_flags (cur : list Z) (out_spec : npf_format_spec_t) : list Z * npf_format_spec_t :=
  match cur with
  | [] => (cur, out_spec)
  | c :: r =>
      if c =? c_minus then parse_flags r (fset_left_justified true out_spec) else
      if c =? c_zero then parse_flags r (fset_leading_zero_pad true out_spec) else
      if c =? c_plus then parse_flags r (fset_prepend c_plus out_spec) else
      if c =? c_space then parse_flags r (if prepend out_spec =? 0 then fset_prepend c_space out_spec else out_spec) else
      (cur, out_spec)
  end.
(** A number in decimal, 0 if there is none. *)
Fixpoint parse_digits (cur : list Z) (value : Z) : list Z * Z :=
  match cur with
  | [] => (cur, value)
  | c :: r => if is_digit c then parse_digits r (i32 (i32 (value * 10) + (c - 48))) else (cur, value)
  end.
Definition parse_width (cur : list Z) (out_spec : npf_format_spec_t) : list Z * npf_format_spec_t :=
  if peek cur =? c_star then (tail cur, fset_field_width_opt OPT_STAR (fset_field_width 0 out_spec)) else
  let '(cur', w) := parse_digits cur 0 in
  (cur', fset_field_width_opt (if is_digit (peek cur) then OPT_LITERAL else OPT_NONE) (fset_field_width w out_spec)).
Definition parse_prec (cur : list Z) (out_spec : npf_format_spec_t) : list Z * npf_format_spec_t :=
  let s := fset_prec_opt OPT_NONE (fset_prec 0 out_spec) in
  if negb (peek cur =? c_dot) then (cur, s) else
  let cur := tail cur in
  if peek cur =? c_star then (tail cur, fset_prec_opt OPT_STAR s) else
  let '(cur, s) := if peek cur =? c_minus then (tail cur, s) else (cur, fset_prec_opt OPT_LITERAL s) in
  let '(cur, p) := parse_digits cur 0 in
  (cur, fset_prec p s).
Definition parse_length (cur : list Z) (out_spec : npf_format_spec_t) : list Z * npf_format_spec_t :=
  let c := peek cur in
  if c =? 104 then (* h *)
    if peek (tail cur) =? 104 then (tail (tail cur), fset_length_modifier LEN_MOD_CHAR out_spec) else (tail cur, fset_length_modifier LEN_MOD_SHORT out_spec)
  else if c =? 108 then (* l *)
    if peek (tail cur) =? 108 then (tail (tail cur), fset_length_modifier LEN_MOD_LARGE_LONG_LONG out_spec) else (tail cur, fset_length_modifier LEN_MOD_LONG out_spec)
  else if c =? 106 then (* j *) (tail cur, fset_length_modifier LEN_MOD_LARGE_INTMAX out_spec)
  else if c =? 122 then (* z *) (tail cur, fset_length_modifier LEN_MOD_LARGE_SIZET out_spec)
  else if c =? 116 then (* t *) (tail cur, fset_length_modifier LEN_MOD_LARGE_PTRDIFFT out_spec)
  else (cur, fset_length_modifier LEN_MOD_NONE out_spec).
Definition parse_conv (cur : list Z) (out_spec : npf_format_spec_t) : option (npf_format_spec_t * list Z) :=
  let c := peek cur in
  let ok s := Some (s, tail cur) in
  if c =? c_percent then ok (fset_conv_spec CONV_PERCENT out_spec)
  else if c =? 99 then (* c *) ok (fset_conv_spec CONV_CHAR out_spec)
  else if c =? 115 then (* s *) ok (fset_conv_spec CONV_STRING out_spec)
  else if (c =? 105) || (c =? 100) then (* i d *) ok (fset_conv_spec CONV_SIGNED_INT out_spec)
  else if c =? 111 then (* o *) ok (fset_conv_spec CONV_OCTAL out_spec)
  else if c =? 117 then (* u *) ok (fset_conv_spec CONV_UNSIGNED_INT out_spec)
  else if c =? 88 then (* X *) ok (fset_conv_spec CONV_HEX_INT (fset_case_adjust 0 out_spec))
  else if c =? 120 then (* x *) ok (fset_conv_spec CONV_HEX_INT out_spec)
  else if c =? 112 then (* p *) ok (fset_conv_spec CONV_POINTER out_spec)
  else if c =? 66 then (* B *) ok (fset_conv_spec CONV_BINARY (fset_case_adjust 0 out_spec))
  else if c =? 98 then (* b *) ok (fset_conv_spec CONV_BINARY out_spec)
  else None.
(** [npf_parse_format_spec]: the format is at a percent sign; the specifier and what is behind it, or
    nothing when 0 is returned. *)
Definition npf_parse_format_spec (format : list Z) : option (npf_format_spec_t * list Z) :=
  let s := mkSpec 0 0 OPT_NONE OPT_NONE false false 0 (97 - 65) LEN_MOD_NONE CONV_NONE in
  let '(cur, s) := parse_flags (tail format) s in
  let '(cur, s) := parse_width cur s in
  let '(cur, s) := parse_prec cur s in
  let '(cur, s) := parse_length cur s in
  parse_conv cur s.

(** * Conversion *)

(** The digits, the last one first: what is written to the buffer. *)
Definition digit_char (case_adj d : Z) : Z := (if d <? 10 then 48 else 65 - 10 + case_adj) + d.
Definition utoa_round {S} (base case_adj : Z) (st : list Z * Z) : M S (list Z * Z + list Z) :=
  let '(buf, val) := st in
  let buf := buf ++ [digit_char case_adj (val `mod` base)] in
  let val := val / base in
  if val =? 0 then mret (inr buf) else mret (inl (buf, val)).
Definition npf_utoa_rev {S} (val base case_adj : Z) : M S (list Z) :=
  loop (Datatypes.S (Z.to_nat (Z.log2 val))) (utoa_round base case_adj) ([], val).
(** 64 less the number of leading zeros. *)
Definition npf_bin_len (u : Z) : Z := if u =? 0 then 1 else Z.log2 u + 1.

(** An integer as signed of some width. *)
Definition sint (w x : Z) : Z := (x + 2 ^ (w - 1)) mod 2 ^ w - 2 ^ (w - 1).
(** The state of the output, [n], the number of characters, and the arguments. *)
Record pp_state (C : Type) := mkPp { pp_ctx : C; pp_n : Z; pp_args : list Z }.
Arguments mkPp {C}. Arguments pp_ctx {C}. Arguments pp_n {C}. Arguments pp_args {C}.
(** The locals that a conversion sets: the buffer, or the string, or the number in
    binary; its length and its sign, and whether it is zero. *)
Record npf_cbuf := mkCbuf { cbuf_mem : list Z; cbuf_str : Z; binval : Z; cbuf_len : Z; sign_c : Z; zero : bool }.
Definition NANOPRINTF_CONVERSION_BUFFER_SIZE : Z := 23.

Section npf.
Context (mem : gmap Z Z) {C : Type} (pc : Z → M C unit).
Local Abbreviation St := (pp_state C).

Definition npf_putc_cnt (c : Z) : M St unit :=
  modify (λ s, mkPp (pp_ctx s) (i32 (pp_n s + 1)) (pp_args s)) ;;
  zoom pp_ctx (λ x s, mkPp x (pp_n s) (pp_args s)) (pc c).
Definition putc_times (n c : Z) : M St unit := for_n 0 (Z.to_nat n) (λ _, npf_putc_cnt c).
(** [va_arg] *)
Definition va_arg : M St Z := λ s,
  match pp_args s with [] => Fault | w :: l => Done (w, mkPp (pp_ctx s) (pp_n s) l) end.
Definition read_char (p : Z) : M St Z := match mem !! p with Some c => mret c | None => fault end.

Definition star_width (fs : npf_format_spec_t) : M St npf_format_spec_t :=
  if negb (bool_decide (field_width_opt fs = OPT_STAR)) then mret fs else
  w ← va_arg;
  let w := i32 w in
  mret (if w <? 0 then fset_left_justified true (fset_field_width (i32 (- w)) fs) else fset_field_width w fs).
Definition star_prec (fs : npf_format_spec_t) : M St npf_format_spec_t :=
  if negb (bool_decide (prec_opt fs = OPT_STAR)) then mret fs else
  p ← va_arg;
  let p := i32 p in
  mret (if p <? 0 then fset_prec_opt OPT_NONE (fset_prec 0 fs) else fset_prec p fs).
(** The precision of pointers, and the flag that a precision cancels. *)
Definition default_prec (fs : npf_format_spec_t) : npf_format_spec_t :=
  if bool_decide (prec_opt fs = OPT_NONE) && bool_decide (conv_spec fs = CONV_POINTER) then fset_prec ((8 * 8 + 3) / 4) fs else fs.
Definition cancel_zero_pad (fs : npf_format_spec_t) : npf_format_spec_t :=
  if bool_decide (prec_opt fs = OPT_NONE) then fs else
  match conv_spec fs with
  | CONV_SIGNED_INT | CONV_OCTAL | CONV_HEX_INT | CONV_UNSIGNED_INT => fset_leading_zero_pad false fs
  | _ => fs
  end.

(** A round of the loop that measures a string. *)
Definition strlen_round (fs : npf_format_spec_t) (cbuf len : Z) : M St (Z + Z) :=
  if (bool_decide (prec_opt fs = OPT_NONE) || (len <? prec fs)) && negb (cbuf =? 0) then
    c ← read_char (cbuf + len);
    mret (if c =? 0 then inr len else inl (len + 1))
  else mret (inr len).
Definition extract_signed (fs : npf_format_spec_t) : M St Z :=
  match length_modifier fs with
  | LEN_MOD_NONE => w ← va_arg; mret (i32 w)
  | LEN_MOD_SHORT => w ← va_arg; mret (sint 16 (i32 w))
  | LEN_MOD_CHAR => w ← va_arg; mret (sint 8 (i32 w))
  | LEN_MOD_LONG_DOUBLE => mret 0
  | _ => w ← va_arg; mret (sint 64 w)
  end.
Definition extract_unsigned (fs : npf_format_spec_t) : M St Z :=
  match length_modifier fs with
  | LEN_MOD_NONE => w ← va_arg; mret (u32 w)
  | LEN_MOD_SHORT => w ← va_arg; mret (u16 (u32 w))
  | LEN_MOD_CHAR => w ← va_arg; mret (u8 (u32 w))
  | LEN_MOD_LONG_DOUBLE => mret 0
  | _ => w ← va_arg; mret (u64 w)
  end.
(** Digits have to fit into the buffer. *)
Definition to_cbuf (val base : Z) (fs : npf_format_spec_t) (sign : Z) (z : bool) : M St npf_cbuf :=
  l ← npf_utoa_rev val base (case_adjust fs);
  if Z.of_nat (length l) <=? NANOPRINTF_CONVERSION_BUFFER_SIZE then mret (mkCbuf l 0 0 (Z.of_nat (length l)) sign z) else fault.
Definition convert_signed (fs : npf_format_spec_t) : M St npf_cbuf :=
  val ← extract_signed fs;
  let sign := if val <? 0 then c_minus else prepend fs in
  let z := val =? 0 in
  if (val =? 0) && negb (bool_decide (prec_opt fs = OPT_NONE)) && (prec fs =? 0) then mret (mkCbuf [] 0 0 0 sign z) else
  let uval := u64 val in
  to_cbuf (if val <? 0 then u64 (0 - uval) else uval) 10 fs sign z.
Definition convert_unsigned (fs : npf_format_spec_t) : M St npf_cbuf :=
  val ← (if bool_decide (conv_spec fs = CONV_POINTER) then w ← va_arg; mret (u64 w) else extract_unsigned fs);
  let z := val =? 0 in
  if (val =? 0) && negb (bool_decide (prec_opt fs = OPT_NONE)) && (prec fs =? 0) then mret (mkCbuf [] 0 0 0 0 z) else
  if bool_decide (conv_spec fs = CONV_BINARY) then mret (mkCbuf [] 0 val (npf_bin_len val) 0 z) else
  let base := if bool_decide (conv_spec fs = CONV_OCTAL) then 8 else if bool_decide (conv_spec fs = CONV_UNSIGNED_INT) then 10 else 16 in
  to_cbuf val base fs 0 z.
(** The argument becomes text. *)
Definition convert (fs : npf_format_spec_t) : M St npf_cbuf :=
  match conv_spec fs with
  | CONV_PERCENT => mret (mkCbuf [c_percent] 0 0 1 0 false)
  | CONV_CHAR => w ← va_arg; mret (mkCbuf [u8 (i32 w)] 0 0 1 0 false)
  | CONV_STRING =>
      cbuf ← va_arg;
      len ← loop (Datatypes.S (size mem)) (strlen_round fs cbuf) 0;
      mret (mkCbuf [] cbuf 0 len 0 false)
  | CONV_SIGNED_INT => convert_signed fs
  | CONV_NONE => mret (mkCbuf [] 0 0 0 0 false)
  | _ => convert_unsigned fs
  end.

(** The character that fills the field, or 0. *)
Definition pad_char (fs : npf_format_spec_t) (z : bool) : Z :=
  if bool_decide (field_width_opt fs = OPT_NONE) then 0 else
  if leading_zero_pad fs && negb (left_justified fs) then
    if negb (bool_decide (prec_opt fs = OPT_NONE)) && (prec fs =? 0) && z then c_space else c_zero
  else c_space.
Definition write_payload (fs : npf_format_spec_t) (cb : npf_cbuf) (sign prec_pad : Z) : M St unit :=
  let len := Z.to_nat (cbuf_len cb) in
  if bool_decide (conv_spec fs = CONV_STRING) then
    for_n 0 len (λ i, c ← read_char (cbuf_str cb + i); npf_putc_cnt c)
  else
    when (negb (sign =? 0)) (npf_putc_cnt sign) ;;
    putc_times prec_pad c_zero ;;
    if bool_decide (conv_spec fs = CONV_BINARY) then
      for_n 0 len (λ i, npf_putc_cnt (48 + Z.land (Z.shiftr (binval cb) (cbuf_len cb - 1 - i)) 1))
    else
      for_n 0 len (λ i, match cbuf_mem cb !! Z.to_nat (cbuf_len cb - 1 - i) with Some c => npf_putc_cnt c | None => fault end).
(** The text is written into its field. *)
Definition layout (fs : npf_format_spec_t) (cb : npf_cbuf) : M St unit :=
  let pad_c := pad_char fs (zero cb) in
  let prec_pad := if bool_decide (conv_spec fs = CONV_STRING) then 0 else Z.max 0 (prec fs - cbuf_len cb) in
  let field_pad := Z.max 0 (i32 (field_width fs - cbuf_len cb - (if sign_c cb =? 0 then 0 else 1) - prec_pad)) in
  sign ← (if negb (left_justified fs) && negb (pad_c =? 0) then
    sign ← (if (pad_c =? c_zero) && negb (sign_c cb =? 0) then npf_putc_cnt (sign_c cb) ;; mret 0 else mret (sign_c cb));
    putc_times field_pad pad_c ;;
    mret sign
  else mret (sign_c cb));
  write_payload fs cb sign prec_pad ;;
  when (left_justified fs && negb (pad_c =? 0)) (putc_times field_pad pad_c).

(** * The functions *)

Definition format_one (fs : npf_format_spec_t) : M St unit :=
  fs ← star_width fs;
  fs ← star_prec fs;
  let fs := cancel_zero_pad (default_prec fs) in
  cb ← convert fs;
  layout fs cb.
Definition pp_round (cur : list Z) : M St (list Z + Z) :=
  if peek cur =? 0 then n ← gets pp_n; mret (inr n) else
  match (if peek cur =? c_percent then npf_parse_format_spec cur else None) with
  | None => npf_putc_cnt (peek cur) ;; mret (inl (tail cur))
  | Some (fs, cur) => format_one fs ;; mret (inl cur)
  end.
Definition npf_vpprintf (format : list Z) (args : list Z) : M C Z := λ ctx,
  match loop (Datatypes.S (length format)) pp_round format (mkPp ctx 0 args) with
  | Done (n, s) => Done (n, pp_ctx s)
  | Fault => Fault
  | Hang => Hang
  end.
End npf.

(** [npf_bufputc_ctx_t]: the bytes at [dst] and how many of them may be used. *)
Record npf_bufputc_ctx_t := mkBuf { dst : list Z; len : Z; cur : Z }.
Definition npf_bufputc (c : Z) : M npf_bufputc_ctx_t unit := λ b,
  if cur b <? len b then
    if decide (Z.to_nat (cur b) < length (dst b))%nat then Done (tt, mkBuf (<[Z.to_nat (cur b) := c]> (dst b)) (len b) (cur b + 1)) else Fault
  else Done (tt, b).
Definition npf_bufputc_nop (c : Z) : M npf_bufputc_ctx_t unit := mret tt.
(** The value that is returned and what is in the buffer; the buffer may be null. *)
Definition npf_vsnprintf (mem : gmap Z Z) (buffer : option (list Z)) (bufsz : Z) (format args : list Z) : outcome (Z * option (list Z)) :=
  let ctx := mkBuf (default [] buffer) bufsz 0 in
  match npf_vpprintf mem (match buffer with Some _ => npf_bufputc | None => npf_bufputc_nop end) format args ctx with
  | Done (n, b) =>
      match buffer with
      | Some _ =>
          if bufsz =? 0 then Done (n, Some (dst b)) else
          let i := if n <? 0 then 0 else Z.min n (bufsz - 1) in
          if decide (Z.to_nat i < length (dst b))%nat then Done (n, Some (<[Z.to_nat i := 0]> (dst b))) else Fault
      | None => Done (n, None)
      end
  | Fault => Fault
  | Hang => Hang
  end.
