(* ===== verification/NpfSpec.v ===== *)
(** What formatted output means: directives and how they are written, numbers in a
    base, the field of a directive with its arguments. *)
From S2P Require Import Prelude Npf.

(** * Numbers *)

(** The digits of a number, the first one first. *)
Fixpoint digits_fuel (n : nat) (base v : Z) : list Z :=
  match n with
  | O => []
  | S n => if v <? base then [v] else digits_fuel n base (v / base) ++ [v mod base]
  end.
Definition digits (base v : Z) : list Z := digits_fuel (S (Z.to_nat (Z.log2 v))) base v.
(** The number that digits stand for. *)
Definition value (base : Z) (l : list Z) : Z := foldl (λ a d, a * base + d) 0 l.
Definition number (base case_adj v : Z) : list Z := digit_char case_adj <$> digits base v.

Lemma value_snoc base l d : value base (l ++ [d]) = value base l * base + d.
Proof. unfold value. by rewrite foldl_app. Qed.
Lemma log2_div base v : 2 ≤ base → base ≤ v → Z.log2 (v / base) < Z.log2 v.
Proof.
  intros Hb Hv. assert (v / base ≤ v / 2) as H2 by (apply Z.div_le_compat_l; lia). apply Z.log2_le_mono in H2.
  rewrite <-Z.div2_div, Z.div2_spec, Z.log2_shiftr in H2 by lia. assert (1 ≤ Z.log2 v) by (apply Z.log2_le_pow2; lia). lia.
Qed.
Lemma digits_fuel_spec n base v : 2 ≤ base → 0 ≤ v → (Z.to_nat (Z.log2 v) < n)%nat →
  value base (digits_fuel n base v) = v ∧ Forall (λ d, 0 ≤ d < base) (digits_fuel n base v) ∧
  digits_fuel n base v ≠ [] ∧ (0 < v → head (digits_fuel n base v) ≠ Some 0).
Proof.
  intros Hb. revert v. induction n as [|n IH]; intros v Hv Hn; [lia|]. simpl. destruct (Z.ltb_spec v base) as [Hlt|Hge].
  - split_and!; [unfold value; simpl; lia|constructor; [lia|constructor]|done|]. simpl. intros ? [=]. lia.
  - pose proof (log2_div base v Hb Hge). pose proof (Z.log2_nonneg (v / base)). assert (0 < v / base) as Hp by (apply Z.div_str_pos; lia).
    destruct (IH (v / base)) as (Hval & Hds & Hne & Hh); [lia|lia|]. split_and!.
    + rewrite value_snoc, Hval. rewrite (Z.mul_comm _ base). symmetry. apply Z.div_mod. lia.
    + apply Forall_app. split; [done|]. constructor; [apply Z.mod_pos_bound; lia|constructor].
    + by destruct (digits_fuel n base (v / base)).
    + intros _. specialize (Hh Hp). by destruct (digits_fuel n base (v / base)).
Qed.
Lemma numeral_value base v : 2 ≤ base → 0 ≤ v → value base (digits base v) = v.
Proof. intros Hb Hv. apply digits_fuel_spec; [done|done|lia]. Qed.
Lemma numeral_range base v : 2 ≤ base → 0 ≤ v → Forall (λ d, 0 ≤ d < base) (digits base v).
Proof. intros Hb Hv. apply digits_fuel_spec; [done|done|lia]. Qed.
Lemma digits_head base v : 2 ≤ base → 0 < v → head (digits base v) ≠ Some 0.
Proof. intros Hb Hv. apply digits_fuel_spec; [done|lia|lia|done]. Qed.
Lemma digits_nonempty base v : 2 ≤ base → 0 ≤ v → digits base v ≠ [].
Proof. intros Hb Hv. apply digits_fuel_spec; [done|done|lia]. Qed.
Lemma digits_fuel_length n base v k : 2 ≤ base → 0 ≤ v < base ^ Z.of_nat (S k) → (length (digits_fuel n base v) ≤ S k)%nat.
Proof.
  intros Hb. revert v k. induction n as [|n IH]; intros v k Hv; simpl; [lia|]. destruct (Z.ltb_spec v base) as [|Hge]; [simpl; lia|].
  rewrite length_app. simpl. destruct k as [|k].
  { rewrite Z.pow_1_r in Hv. lia. }
  enough (length (digits_fuel n base (v / base)) ≤ S k)%nat by lia. apply IH. split; [apply Z.div_pos; lia|].
  apply Z.div_lt_upper_bound; [lia|]. rewrite Nat2Z.inj_succ, Z.pow_succ_r in Hv by lia. lia.
Qed.
Lemma numeral_length base v k : 2 ≤ base → 0 ≤ v < base ^ Z.of_nat (S k) → (length (digits base v) ≤ S k)%nat.
Proof. apply digits_fuel_length. Qed.
(** Enough fuel is enough. *)
Lemma digits_fuel_enough n m base v : 2 ≤ base → 0 ≤ v → (Z.to_nat (Z.log2 v) < n)%nat → (Z.to_nat (Z.log2 v) < m)%nat → digits_fuel n base v = digits_fuel m base v.
Proof.
  intros Hb. revert m v. induction n as [|n IH]; intros [|m] v Hv Hn Hm; [lia..|]. simpl. destruct (Z.ltb_spec v base) as [|Hge]; [done|].
  pose proof (log2_div base v Hb Hge). pose proof (Z.log2_nonneg (v / base)). rewrite (IH m); [done|apply Z.div_pos; lia|lia|lia].
Qed.
Lemma digits_step base v : 2 ≤ base → 0 ≤ v → digits base v = if v <? base then [v] else digits base (v / base) ++ [v mod base].
Proof.
  intros Hb Hv. unfold digits. cbn [digits_fuel]. destruct (Z.ltb_spec v base) as [|Hge]; [done|]. f_equal.
  pose proof (log2_div base v Hb Hge). pose proof (Z.log2_nonneg (v / base)). change (if v / base <? base then _ else _) with (digits_fuel (S (Z.to_nat (Z.log2 (v / base)))) base (v / base)).
  apply digits_fuel_enough; [done|apply Z.div_pos; lia|lia|lia].
Qed.

(** * Directives *)

(** Nothing, a number, or the next argument. *)
Inductive amount := Absent | Lit (n : Z) | Star.
Inductive letter := l_percent | l_c | l_s | l_d | l_o | l_u | l_x | l_X | l_p | l_b | l_B.
#[export] Instance letter_eq_dec : EqDecision letter.
Proof. solve_decision. Defined.
Record directive := mkDir {
  f_minus : bool; f_zero : bool; f_plus : bool; f_space : bool;
  d_width : amount; d_prec : amount; d_len : npf_len_mod; d_letter : letter;
}.
Definition show_flag (b : bool) (c : Z) : list Z := if b then [c] else [].
Definition show_amount (a : amount) : list Z := match a with Absent => [] | Lit n => number 10 32 n | Star => [42] end.
Definition show_prec (a : amount) : list Z := match a with Absent => [] | _ => 46 :: show_amount a end.
Definition show_len (m : npf_len_mod) : list Z :=
  match m with
  | LEN_MOD_NONE => [] | LEN_MOD_SHORT => [104] | LEN_MOD_CHAR => [104; 104] | LEN_MOD_LONG => [108] | LEN_MOD_LONG_DOUBLE => [76]
  | LEN_MOD_LARGE_LONG_LONG => [108; 108] | LEN_MOD_LARGE_INTMAX => [106] | LEN_MOD_LARGE_SIZET => [122] | LEN_MOD_LARGE_PTRDIFFT => [116]
  end.
Definition show_letter (l : letter) : Z :=
  match l with
  | l_percent => 37 | l_c => 99 | l_s => 115 | l_d => 100 | l_o => 111 | l_u => 117 | l_x => 120 | l_X => 88 | l_p => 112 | l_b => 98 | l_B => 66
  end.
(** How a directive is written. *)
Definition show (d : directive) : list Z :=
  37 :: show_flag (f_minus d) 45 ++ show_flag (f_zero d) 48 ++ show_flag (f_plus d) 43 ++ show_flag (f_space d) 32 ++
  show_amount (d_width d) ++ show_prec (d_prec d) ++ show_len (d_len d) ++ [show_letter (d_letter d)].
(** What the code takes it for. *)
Definition conv_of (l : letter) : npf_conv :=
  match l with
  | l_percent => CONV_PERCENT | l_c => CONV_CHAR | l_s => CONV_STRING | l_d => CONV_SIGNED_INT | l_o => CONV_OCTAL | l_u => CONV_UNSIGNED_INT
  | l_x | l_X => CONV_HEX_INT | l_p => CONV_POINTER | l_b | l_B => CONV_BINARY
  end.
Definition upper (l : letter) : bool := match l with l_X | l_B => true | _ => false end.
Definition opt_of (a : amount) : npf_opt := match a with Absent => OPT_NONE | Lit _ => OPT_LITERAL | Star => OPT_STAR end.
Definition amount_value (a : amount) : Z := match a with Lit n => n | _ => 0 end.
Definition spec_of (d : directive) : npf_format_spec_t :=
  mkSpec (amount_value (d_width d)) (amount_value (d_prec d)) (opt_of (d_prec d)) (opt_of (d_width d)) (f_minus d) (f_zero d)
    (if f_plus d then 43 else if f_space d then 32 else 0) (if upper (d_letter d) then 0 else 32) (d_len d) (conv_of (d_letter d)).
(** A directive that can be written: a width that does not look like a flag, and no
    [L], which is for floating point. *)
Definition int_max : Z := 2 ^ 31 - 1.
Definition writable (d : directive) : Prop :=
  match d_width d with Lit n => 0 < n ≤ int_max | _ => True end ∧ match d_prec d with Lit n => 0 ≤ n ≤ int_max | _ => True end ∧ d_len d ≠ LEN_MOD_LONG_DOUBLE.

(** * Fields *)

Section field.
Context (mem : gmap Z Z).

(** At most [n] bytes of a string. *)
Fixpoint str_upto (n : nat) (p : Z) : option (list Z) :=
  match n with
  | O => Some []
  | S n => match mem !! p with
           | Some c => if c =? 0 then Some [] else cons c <$> str_upto n (p + 1)
           | None => None
           end
  end.
Definition c_string (prec : option Z) (p : Z) : option (list Z) :=
  if p =? 0 then Some [] else str_upto (match prec with None => S (size mem) | Some n => Z.to_nat n end) p.

(** The width, which may come with a minus, and the precision, which does not count
    when it is negative. The width that has no negation is not defined. *)
Definition width_of (d : directive) (args : list Z) : option (bool * option Z * list Z) :=
  match d_width d with
  | Absent => Some (f_minus d, None, args)
  | Lit n => Some (f_minus d, Some n, args)
  | Star => match args with
            | [] => None
            | w :: args => if i32 w =? - 2 ^ 31 then None else Some (f_minus d || (i32 w <? 0), Some (Z.abs (i32 w)), args)
            end
  end.
Definition prec_of (d : directive) (args : list Z) : option (option Z * list Z) :=
  match d_prec d with
  | Absent => Some (None, args)
  | Lit n => Some (Some n, args)
  | Star => match args with [] => None | p :: args => Some (if i32 p <? 0 then None else Some (i32 p), args) end
  end.
(** The argument of an integer conversion. *)
Definition signed_arg (m : npf_len_mod) (w : Z) : Z :=
  match m with LEN_MOD_NONE => i32 w | LEN_MOD_SHORT => sint 16 w | LEN_MOD_CHAR => sint 8 w | _ => sint 64 w end.
Definition unsigned_arg (m : npf_len_mod) (w : Z) : Z :=
  match m with LEN_MOD_NONE => u32 w | LEN_MOD_SHORT => u16 w | LEN_MOD_CHAR => u8 w | _ => u64 w end.
Definition base_of (l : letter) : Z := match l with l_o => 8 | l_d | l_u => 10 | l_b | l_B => 2 | _ => 16 end.

Definition pad (c n : Z) : list Z := replicate (Z.to_nat n) c.
Definition len (l : list Z) : Z := Z.of_nat (length l).
(** Digits with at least [prec] of them; zero with precision zero has none. *)
Definition int_text (l : letter) (prec : option Z) (v : Z) : list Z :=
  let ds := if (v =? 0) && bool_decide (prec = Some 0) then [] else number (base_of l) (if upper l then 0 else 32) v in
  pad 48 (default (match l with l_p => 16 | _ => 0 end) prec - len ds) ++ ds.
(** A field that spaces, or zeros behind the sign, fill. *)
Definition fill (minus zeros : bool) (width : option Z) (sign text : list Z) : list Z :=
  let n := default 0 width - len (sign ++ text) in
  if minus then sign ++ text ++ pad 32 n else if zeros then sign ++ pad 48 n ++ text else pad 32 n ++ sign ++ text.
Definition sign_of (d : directive) (v : Z) : list Z :=
  if v <? 0 then [45] else if f_plus d then [43] else if f_space d then [32] else [].

(** The output of a directive, and the arguments it leaves. *)
Definition field (d : directive) (args : list Z) : option (list Z * list Z) :=
  '(minus, width, args) ← width_of d args;
  '(prec, args) ← prec_of d args;
  let zeros := f_zero d && bool_decide (prec = None) in
  match d_letter d with
  | l_percent => Some (fill minus false width [] [37], args)
  | l_c => '(w, args) ← match args with [] => None | w :: args => Some (w, args) end; Some (fill minus false width [] [u8 w], args)
  | l_s =>
      '(p, args) ← match args with [] => None | p :: args => Some (p, args) end;
      l ← c_string prec p;
      Some (fill minus false width [] l, args)
  | l_d =>
      '(w, args) ← match args with [] => None | w :: args => Some (w, args) end;
      let v := signed_arg (d_len d) w in
      Some (fill minus zeros width (sign_of d v) (int_text l_d prec (Z.abs v)), args)
  | l =>
      '(w, args) ← match args with [] => None | w :: args => Some (w, args) end;
      let v := match l with l_p => u64 w | _ => unsigned_arg (d_len d) w end in
      Some (fill minus zeros width [] (int_text l prec v), args)
  end.
(** What C defines: no precision for characters, zeros for numbers only and not with a
    precision where that does not cancel them. *)
Definition sensible (d : directive) : Prop :=
  match d_letter d with
  | l_percent | l_c => f_zero d = false ∧ d_prec d = Absent
  | l_s => f_zero d = false
  | l_p | l_b | l_B => f_zero d = false ∨ d_prec d = Absent
  | _ => True
  end.

(** A format: text without percent signs, and directives. *)
Inductive piece := Text (l : list Z) | Dir (d : directive).
Definition show_piece (p : piece) : list Z := match p with Text l => l | Dir d => show d end.
Definition piece_ok (p : piece) : Prop := match p with Text l => Forall (λ c, c ≠ 0 ∧ c ≠ 37) l | Dir d => writable d ∧ sensible d end.
Fixpoint output (ps : list piece) (args : list Z) : option (list Z) :=
  match ps with
  | [] => Some []
  | Text l :: ps => app l <$> output ps args
  | Dir d :: ps => '(o, args) ← field d args; app o <$> output ps args
  end.
End field.

(** Directives are read back as they are written. *)
#[local] Arguments number : simpl never.

(** * Digits *)

Lemma peek_cons c r : peek (c :: r) = c.
Proof. done. Qed.
Lemma digit_char_decimal d : 0 ≤ d < 10 → digit_char 32 d = 48 + d.
Proof. intros Hd. unfold digit_char. by rewrite (proj2 (Z.ltb_lt d 10)) by lia. Qed.
Lemma is_digit_char d : 0 ≤ d < 10 → is_digit (digit_char 32 d) = true.
Proof. intros Hd. rewrite digit_char_decimal by done. unfold is_digit. rewrite andb_true_iff, !Z.leb_le. lia. Qed.
Lemma foldl_decimal_le l a : Forall (λ d, 0 ≤ d < 10) l → 0 ≤ a → a ≤ foldl (λ a d, a * 10 + d) a l.
Proof.
  intros Hl. revert a. induction Hl as [|d l Hd Hl IH]; intros a Ha; simpl; [done|]. specialize (IH (a * 10 + d)). lia.
Qed.
Lemma parse_digits_ok l a rest : Forall (λ d, 0 ≤ d < 10) l → 0 ≤ a → foldl (λ a d, a * 10 + d) a l ≤ int_max → is_digit (peek rest) = false →
  parse_digits ((digit_char 32 <$> l) ++ rest) a = (rest, foldl (λ a d, a * 10 + d) a l).
Proof.
  intros Hl. revert a. induction Hl as [|d l Hd Hl IH]; intros a Ha Hm Hr; cbn [fmap list_fmap app parse_digits foldl] in *.
  - destruct rest as [|c rest]; [done|]. rewrite peek_cons in Hr. cbn [parse_digits]. by rewrite Hr.
  - pose proof (foldl_decimal_le l (a * 10 + d) Hl ltac:(lia)) as Hle. unfold int_max in *. rewrite is_digit_char by done. rewrite digit_char_decimal by done.
    replace (48 + d - 48) with d by lia. rewrite !i32_id by (rewrite ?i32_id; lia). apply IH; [lia|done|done].
Qed.
Lemma parse_number n rest : 0 ≤ n ≤ int_max → is_digit (peek rest) = false → parse_digits (number 10 32 n ++ rest) 0 = (rest, n).
Proof.
  intros Hn Hr. pose proof (numeral_value 10 n ltac:(lia) ltac:(lia)) as Hv. unfold value in Hv. rewrite <-Hv at 2. unfold number. apply parse_digits_ok; [|lia| |done].
  - apply numeral_range; lia.
  - rewrite Hv. lia.
Qed.
(** A number begins with a digit, and with zero only when it is zero. *)
Lemma number_head n : 0 ≤ n → ∃ d l, number 10 32 n = 48 + d :: l ∧ 0 ≤ d < 10 ∧ (0 < n → d ≠ 0).
Proof.
  intros Hn. pose proof (numeral_range 10 n ltac:(lia) Hn) as Hr. pose proof (digits_nonempty 10 n ltac:(lia) Hn) as Hne. pose proof (digits_head 10 n) as Hh.
  unfold number. destruct (digits 10 n) as [|d l]; [done|]. apply Forall_cons in Hr as [Hd _]. exists d, (digit_char 32 <$> l). cbn [fmap list_fmap].
  rewrite digit_char_decimal by done. split_and!; [done|lia|lia|]. intros H0 ->. by apply Hh.
Qed.

(** * The parts *)

Definition flag_char (c : Z) : bool := (c =? 45) || (c =? 48) || (c =? 43) || (c =? 32).
Lemma parse_flags_end cur s : flag_char (peek cur) = false → parse_flags cur s = (cur, s).
Proof.
  destruct cur as [|c r]; [done|]. rewrite peek_cons. unfold flag_char. cbn [parse_flags]. intros H. destruct (c =? 45), (c =? 48), (c =? 43), (c =? 32); done.
Qed.
Lemma parse_flags_ok m z p sp rest s : flag_char (peek rest) = false → prepend s = 0 →
  parse_flags (show_flag m 45 ++ show_flag z 48 ++ show_flag p 43 ++ show_flag sp 32 ++ rest) s =
    (rest, fset_prepend (if p then 43 else if sp then 32 else 0) (fset_leading_zero_pad (z || leading_zero_pad s) (fset_left_justified (m || left_justified s) s))).
Proof.
  intros Hr Hp. destruct s as [w pr po wo lj lz pp ca lm cs]. cbn [prepend] in Hp. subst pp.
  destruct m, z, p, sp; cbn [show_flag app parse_flags]; cbn -[parse_flags]; rewrite parse_flags_end by done; done.
Qed.
Lemma parse_width_ok a rest s : match a with Lit n => 0 < n ≤ int_max | _ => True end → is_digit (peek rest) = false → peek rest ≠ 42 →
  parse_width (show_amount a ++ rest) s = (rest, fset_field_width_opt (opt_of a) (fset_field_width (amount_value a) s)).
Proof.
  intros Ha Hd Hs. unfold parse_width. destruct a as [|n|]; cbn [show_amount app amount_value opt_of].
  - rewrite (proj2 (Z.eqb_neq _ _) Hs), Hd. destruct rest as [|c rest]; [done|]. rewrite peek_cons in Hd. cbn [parse_digits]. by rewrite Hd.
  - rewrite parse_number by (lia || done). destruct (number_head n ltac:(lia)) as (d & l & Hn & Hd' & _). rewrite Hn. cbn [app]. rewrite ?peek_cons.
    rewrite (proj2 (Z.eqb_neq _ _)) by lia. assert (is_digit (48 + d) = true) as ->; [|done]. rewrite <-digit_char_decimal by done. by apply is_digit_char.
  - done.
Qed.
Lemma parse_prec_ok a rest s : match a with Lit n => 0 ≤ n ≤ int_max | _ => True end → is_digit (peek rest) = false → peek rest ≠ 46 →
  parse_prec (show_prec a ++ rest) s = (rest, fset_prec (amount_value a) (fset_prec_opt (opt_of a) s)).
Proof.
  intros Ha Hd Hs. unfold parse_prec. destruct a as [|n|]; cbn [show_prec show_amount app amount_value opt_of].
  - rewrite (proj2 (Z.eqb_neq _ _) Hs). done.
  - rewrite peek_cons. cbn [Z.eqb Pos.eqb negb tail]. destruct (number_head n ltac:(lia)) as (d & l & Hn & Hd' & _). rewrite Hn. cbn [app]. rewrite ?peek_cons.
    rewrite !(proj2 (Z.eqb_neq _ _)) by lia. change (48 + d :: l ++ rest) with ((48 + d :: l) ++ rest). rewrite <-Hn. by rewrite parse_number.
  - done.
Qed.
Lemma parse_conv_ok l rest s : parse_conv (show_letter l :: rest) s = Some (fset_conv_spec (conv_of l) (fset_case_adjust (if upper l then 0 else case_adjust s) s), rest).
Proof. destruct s. by destruct l. Qed.
Lemma parse_length_ok m l rest s : m ≠ LEN_MOD_LONG_DOUBLE →
  parse_length (show_len m ++ show_letter l :: rest) s = (show_letter l :: rest, fset_length_modifier m s).
Proof. intros Hm. destruct m; try done; by destruct l. Qed.

(** What comes behind the width: a dot, a length modifier or the letter. *)
Lemma show_tail_peek m l rest : m ≠ LEN_MOD_LONG_DOUBLE →
  is_digit (peek (show_len m ++ show_letter l :: rest)) = false ∧ peek (show_len m ++ show_letter l :: rest) ≠ 46 ∧ peek (show_len m ++ show_letter l :: rest) ≠ 42 ∧
  flag_char (peek (show_len m ++ show_letter l :: rest)) = false.
Proof. intros Hm. destruct m; try done; by destruct l. Qed.
Lemma show_prec_peek a m l rest : m ≠ LEN_MOD_LONG_DOUBLE →
  let cur := show_prec a ++ show_len m ++ show_letter l :: rest in
  is_digit (peek cur) = false ∧ peek cur ≠ 42 ∧ flag_char (peek cur) = false.
Proof. intros Hm. destruct (show_tail_peek m l rest Hm) as (? & ? & ? & ?). by destruct a. Qed.

Lemma parse_show d rest : writable d → npf_parse_format_spec (show d ++ rest) = Some (spec_of d, rest).
Proof.
  intros (Hw & Hp & Hl). unfold npf_parse_format_spec, show. cbn [app tail]. rewrite <-!app_assoc. cbn [app].
  destruct (show_prec_peek (d_prec d) (d_len d) (d_letter d) rest Hl) as (Hd1 & Hs1 & Hf1). destruct (show_tail_peek (d_len d) (d_letter d) rest Hl) as (Hd2 & Hs2 & _ & _).
  rewrite parse_flags_ok; [|destruct (d_width d) as [|n|]; [done| |done]|done].
  2:{ destruct (number_head n ltac:(lia)) as (c & l & Hn & Hc & Hc0). cbn [show_amount]. rewrite Hn. cbn [app]. rewrite ?peek_cons. unfold flag_char. rewrite !(proj2 (Z.eqb_neq _ _)) by lia. done. }
  rewrite parse_width_ok by done. rewrite parse_prec_ok by done. rewrite parse_length_ok by done. rewrite parse_conv_ok. unfold spec_of. cbn.
  by rewrite !orb_false_r.
Qed.

(** A directive that is written with any flags, width, precision, length modifier
    and letter is parsed back into exactly these, with the cursor behind it. *)
Theorem npf_parse_roundtrip d rest : writable d → npf_parse_format_spec (show d ++ rest) = Some (spec_of d, rest).
Proof. apply parse_show. Qed.
Lemma npf_parse_roundtrip_witness :
  let d := mkDir true false true false (Lit 12) Star LEN_MOD_LARGE_LONG_LONG l_X in
  npf_parse_format_spec (show d ++ [33]) = Some (spec_of d, [33]).
Proof. apply npf_parse_roundtrip. split_and!; done. Defined.

(** The steps of formatted output: what is put out, arguments, conversions and
    fields, against the definitions of [NpfSpec]. *)
#[local] Arguments loop : simpl never.
#[local] Arguments for_n : simpl never.
#[local] Arguments number : simpl never.
#[local] Arguments digits : simpl never.

Lemma i32_add a b : i32 (i32 a + b) = i32 (a + b).
Proof.
  unfold i32. f_equal. replace ((a + 2 ^ 31) mod 2 ^ 32 - 2 ^ 31 + b + 2 ^ 31) with ((a + 2 ^ 31) mod 2 ^ 32 + b) by lia.
  rewrite Z.add_mod_idemp_l by lia. f_equal. lia.
Qed.
Lemma i32_range x : - 2 ^ 31 ≤ i32 x < 2 ^ 31.
Proof. unfold i32. pose proof (Z.mod_pos_bound (x + 2 ^ 31) (2 ^ 32)). lia. Qed.

(** [pc] takes every character and does [f]. *)
Class Sink {C} (pc : Z → M C unit) (I : C → Prop) (f : C → Z → C) : Prop :=
  sink_step : ∀ x c, I x → pc c x = Done (tt, f x c) ∧ I (f x c).

Section emit.
Context (mem : gmap Z Z) {C : Type} (pc : Z → M C unit) (I : C → Prop) (f : C → Z → C) `{!Sink pc I f}.
Implicit Types (x : C) (k : Z) (a : list Z).

(** [k] characters are out. *)
Definition st x k a : pp_state C := mkPp x (i32 k) a.
(** The characters [l] more. *)
Definition put x k a (l : list Z) : pp_state C := st (foldl f x l) (k + len l) a.
Lemma sink_foldl x l : I x → I (foldl f x l).
Proof. revert x. induction l as [|c l IH]; intros x Hx; [done|]. simpl. apply IH. by destruct (sink_step x c Hx). Qed.
Lemma put_nil x k a : put x k a [] = st x k a.
Proof. unfold put, len. simpl. by rewrite Z.add_0_r. Qed.
Lemma put_app x k a l l' : put (foldl f x l) (k + len l) a l' = put x k a (l ++ l').
Proof. unfold put, len. by rewrite foldl_app, length_app, Nat2Z.inj_add, Z.add_assoc. Qed.

Lemma wp_putc x k a c (Q : unit → pp_state C → Prop) : I x → Q tt (put x k a [c]) → wp (npf_putc_cnt pc c) Q (st x k a).
Proof.
  intros Hx HQ. destruct (sink_step x c Hx) as [Hp _]. unfold npf_putc_cnt. apply wp_bind, wp_modify, wp_zoom. unfold wp. cbn [pp_ctx st]. rewrite Hp. cbn.
  rewrite i32_add. exact HQ.
Qed.
(** A counted loop that puts out [l]. *)
Lemma wp_emit_n l (body : Z → M (pp_state C) unit) n x k a (Q : unit → pp_state C → Prop) :
  n = length l → I x →
  (∀ i c x' k' (Q' : unit → pp_state C → Prop), l !! i = Some c → I x' → Q' tt (put x' k' a [c]) → wp (body (Z.of_nat i)) Q' (st x' k' a)) →
  Q tt (put x k a l) → wp (for_n 0 n body) Q (st x k a).
Proof.
  intros -> Hx Hb HQ. apply (wp_for_n (λ i s, s = put x k a (take (Z.to_nat i) l))).
  - by rewrite put_nil.
  - intros i s Hi ->. destruct (lookup_lt_is_Some_2 l (Z.to_nat i)) as [c Hc]; [lia|]. replace i with (Z.of_nat (Z.to_nat i)) at 1 by lia.
    eapply Hb; [exact Hc|by apply sink_foldl|]. rewrite put_app. replace (Z.to_nat (i + 1)) with (S (Z.to_nat i)) by lia. by rewrite (take_S_r _ _ _ Hc).
  - intros s ->. rewrite Z.add_0_l, Nat2Z.id, firstn_all. exact HQ.
Qed.
Lemma wp_putc_times n c x k a (Q : unit → pp_state C → Prop) : I x → Q tt (put x k a (pad c n)) → wp (putc_times pc n c) Q (st x k a).
Proof.
  intros Hx HQ. apply (wp_emit_n (pad c n)); [by unfold pad; rewrite length_replicate|done| |done].
  intros i c' x' k' Q' Hc Hx' HQ'. unfold pad in Hc. apply lookup_replicate in Hc as [-> _]. by apply wp_putc.
Qed.
Lemma wp_va_arg x k w a (Q : Z → pp_state C → Prop) : Q w (st x k a) → wp va_arg Q (st x k (w :: a)).
Proof. done. Qed.
Lemma wp_read_char p c s (Q : Z → pp_state C → Prop) : mem !! p = Some c → Q c s → wp (read_char mem p) Q s.
Proof. unfold read_char. intros ->. apply wp_ret. Qed.

(** * Digits *)

(** The digits come out backwards. *)
Lemma wp_utoa {S} (s : S) base adj v (Q : list Z → S → Prop) : 2 ≤ base → 0 ≤ v → Q (reverse (number base adj v)) s → wp (npf_utoa_rev v base adj) Q s.
Proof.
  intros Hb Hv HQ. unfold npf_utoa_rev. apply (wp_loop (λ n '(buf, val) s', s' = s ∧ 0 ≤ val ∧ n = Z.to_nat (Z.log2 val) ∧ buf ++ reverse (number base adj val) = reverse (number base adj v)) _ _ (Z.to_nat (Z.log2 v))).
  - lia.
  - done.
  - intros n [buf val] s' (-> & Hval & -> & Heq). unfold utoa_round. rewrite <-Heq in HQ. unfold number in *. rewrite (digits_step base val) in Heq, HQ by done.
    destruct (Z.ltb_spec val base) as [Hlt|Hge].
    + rewrite Z.div_small by lia. cbn [Z.eqb]. apply wp_ret. rewrite Z.mod_small by lia. exact HQ.
    + assert (0 < val / base) as Hp by (apply Z.div_str_pos; lia). rewrite (proj2 (Z.eqb_neq _ _)) by lia. apply wp_ret. exists (Z.to_nat (Z.log2 (val / base))).
      pose proof (log2_div base val Hb Hge). pose proof (Z.log2_nonneg (val / base)). split; [lia|]. split_and!; [done|lia|done|]. rewrite <-Heq.
      rewrite fmap_app, reverse_app. cbn [fmap list_fmap]. by rewrite <-app_assoc.
Qed.
Lemma number_length base adj v m : 2 ≤ base → 0 ≤ v < base ^ Z.of_nat (S m) → (length (number base adj v) ≤ S m)%nat.
Proof. intros Hb Hv. unfold number. rewrite length_fmap. by apply numeral_length. Qed.
(** Sixty-four bits fit into the buffer in base eight and above. *)
Lemma number_fits base adj v : 8 ≤ base → 0 ≤ v < 2 ^ 64 → (length (number base adj v) ≤ 22)%nat.
Proof.
  intros Hb Hv. apply (number_length base adj v 21); [lia|]. split; [lia|]. eapply Z.lt_le_trans; [apply Hv|]. transitivity (8 ^ 22); [done|]. apply Z.pow_le_mono_l. lia.
Qed.
Lemma wp_to_cbuf v base fs sign z s (Q : npf_cbuf → pp_state C → Prop) : 8 ≤ base → 0 ≤ v < 2 ^ 64 →
  (let l := number base (case_adjust fs) v in Q (mkCbuf (reverse l) 0 0 (len l) sign z) s) → wp (to_cbuf v base fs sign z) Q s.
Proof.
  intros Hb Hv HQ. apply wp_bind, wp_utoa; [lia|lia|]. pose proof (number_fits base (case_adjust fs) v Hb Hv). rewrite length_reverse.
  rewrite (proj2 (Z.leb_le _ _)) by (unfold NANOPRINTF_CONVERSION_BUFFER_SIZE; lia). by apply wp_ret.
Qed.

(** In base two the digits are the bits. *)
Lemma digits_binary v : 0 ≤ v → len (digits 2 v) = npf_bin_len v ∧ ∀ i d, digits 2 v !! i = Some d → d = Z.land (Z.shiftr v (npf_bin_len v - 1 - Z.of_nat i)) 1.
Proof.
  intros Hv. assert (∃ n, (Z.to_nat v < n)%nat) as [n Hn] by (by eexists; apply Nat.lt_succ_diag_r). revert v Hv Hn. induction n as [|n IH]; intros v Hv Hn; [lia|].
  rewrite digits_step by lia. destruct (Z.ltb_spec v 2) as [Hlt|Hge].
  { assert (v = 0 ∨ v = 1) as [-> | ->] by lia; (split; [done|]); intros [|i] d Hd; simplify_eq/=; done. }
  assert (v / 2 < v) by (apply Z.div_lt; lia). destruct (IH (v / 2)) as [Hlen Hds]; [apply Z.div_pos; lia|lia|].
  assert (1 ≤ Z.log2 v) as Hl by (apply Z.log2_le_pow2; lia). assert (Z.log2 (v / 2) = Z.log2 v - 1) as Hl2.
  { rewrite <-Z.div2_div, Z.div2_spec, Z.log2_shiftr by lia. lia. }
  assert (npf_bin_len v = Z.log2 v + 1) as Hb by (unfold npf_bin_len; by rewrite (proj2 (Z.eqb_neq v 0)) by lia).
  assert (npf_bin_len (v / 2) = Z.log2 v) as Hb2.
  { unfold npf_bin_len. assert (0 < v / 2) by (apply Z.div_str_pos; lia). rewrite (proj2 (Z.eqb_neq _ 0)) by lia. lia. }
  rewrite Hb2 in *. split; [unfold len in *; rewrite length_app; simpl; lia|]. intros i d. rewrite lookup_app_Some. intros [Hd|[Hi Hd]].
  - rewrite (Hds i d Hd), Hb. apply lookup_lt_Some in Hd. unfold len in Hlen. rewrite <-Z.div2_div, Z.div2_spec, Z.shiftr_shiftr by lia. do 2 f_equal. lia.
  - unfold len in Hlen. apply list_lookup_singleton_Some in Hd as [Hi' <-]. rewrite Hb. replace (Z.log2 v + 1 - 1 - Z.of_nat i) with 0 by lia.
    rewrite Z.shiftr_0_r. change 1 with (Z.ones 1). by rewrite Z.land_ones.
Qed.

(** * Fields *)

(** The characters [ds] are what a conversion has made. *)
Definition payload_is (fs : npf_format_spec_t) (cb : npf_cbuf) (ds : list Z) : Prop :=
  cbuf_len cb = len ds ∧
  match conv_spec fs with
  | CONV_STRING => ∀ i c, ds !! i = Some c → mem !! (cbuf_str cb + Z.of_nat i) = Some c
  | CONV_BINARY => ∀ i c, ds !! i = Some c → c = 48 + Z.land (Z.shiftr (binval cb) (len ds - 1 - Z.of_nat i)) 1
  | _ => cbuf_mem cb = reverse ds
  end.
Definition sign_chars (s : Z) : list Z := if s =? 0 then [] else [s].
Lemma wp_sign s x k a (Q : unit → pp_state C → Prop) : I x → Q tt (put x k a (sign_chars s)) → wp (when (negb (s =? 0)) (npf_putc_cnt pc s)) Q (st x k a).
Proof. intros Hx HQ. unfold sign_chars in HQ. destruct (s =? 0); [apply wp_ret; by rewrite put_nil in HQ|by apply wp_putc]. Qed.
(** Output by parts. *)
Lemma put_st x k a l (P : pp_state C → Prop) : P (st (foldl f x l) (k + len l) a) → P (put x k a l).
Proof. done. Qed.
Lemma wp_payload fs cb ds sign pp x k a (Q : unit → pp_state C → Prop) :
  payload_is fs cb ds → I x → (conv_spec fs = CONV_STRING → sign = 0 ∧ pp = 0) →
  Q tt (put x k a (sign_chars sign ++ pad 48 pp ++ ds)) → wp (write_payload mem pc fs cb sign pp) Q (st x k a).
Proof.
  intros [Hlen Hp] Hx Hs HQ. assert (Z.to_nat (cbuf_len cb) = length ds) as Hn by (rewrite Hlen; unfold len; lia).
  assert (conv_spec fs ≠ CONV_STRING → wp (when (negb (sign =? 0)) (npf_putc_cnt pc sign) ;; putc_times pc pp 48)
    (λ _ s', s' = put x k a (sign_chars sign ++ pad 48 pp)) (st x k a)) as Hpre.
  { intros _. apply wp_bind, wp_sign; [done|]. apply wp_putc_times; [by apply sink_foldl|]. by rewrite put_app. }
  unfold write_payload. rewrite Hn. destruct (decide (conv_spec fs = CONV_STRING)) as [Hc|Hc].
  - rewrite bool_decide_true by done. destruct (Hs Hc) as [-> ->]. rewrite Hc in Hp. apply (wp_emit_n ds); [done|done| |exact HQ].
    intros i c x' k' Q' Hi Hx' HQ'. apply wp_bind. eapply wp_read_char; [by apply Hp|]. by apply wp_putc.
  - rewrite bool_decide_false by done. apply wp_assoc, wp_bind. eapply wp_mono; [exact (Hpre Hc)|]. intros _ s' ->. apply put_st.
    rewrite app_assoc, <-put_app in HQ. assert (I (foldl f x (sign_chars sign ++ pad 48 pp))) as Hx' by by apply sink_foldl.
    destruct (decide (conv_spec fs = CONV_BINARY)) as [Hb|Hb].
    + rewrite bool_decide_true by done. rewrite Hb in Hp. apply (wp_emit_n ds); [done|done| |exact HQ].
      intros i c x' k' Q' Hi Hx'' HQ'. rewrite Hlen, <-(Hp i c Hi). by apply wp_putc.
    + rewrite bool_decide_false by done. assert (cbuf_mem cb = reverse ds) as Hm by (by destruct (conv_spec fs)). apply (wp_emit_n ds); [done|done| |exact HQ].
      intros i c x' k' Q' Hi Hx'' HQ'. pose proof (lookup_lt_Some _ _ _ Hi). rewrite Hm, reverse_lookup by (rewrite Hlen; unfold len; lia).
      replace (length ds - S (Z.to_nat (cbuf_len cb - 1 - Z.of_nat i)))%nat with i by (rewrite Hlen; unfold len; lia). rewrite Hi. by apply wp_putc.
Qed.
Lemma wp_layout fs cb ds width x k a (Q : unit → pp_state C → Prop) :
  payload_is fs cb ds → I x → field_width fs = default 0 width → (field_width_opt fs = OPT_NONE ↔ width = None) → 0 ≤ default 0 width < 2 ^ 31 →
  0 ≤ prec fs < 2 ^ 31 → len ds < 2 ^ 31 → (leading_zero_pad fs = true → prec_opt fs = OPT_NONE) → (conv_spec fs = CONV_STRING → sign_c cb = 0) →
  Q tt (put x k a (fill (left_justified fs) (leading_zero_pad fs) width (sign_chars (sign_c cb))
    (pad 48 (if bool_decide (conv_spec fs = CONV_STRING) then 0 else prec fs - len ds) ++ ds))) →
  wp (layout mem pc fs cb) Q (st x k a).
Proof.
  intros Hpl Hx Hw Hwo Hwr Hpr Hlr Hz Hs HQ. pose proof (proj1 Hpl) as Hlen. unfold layout. rewrite Hlen, Hw.
  set (pp := if bool_decide (conv_spec fs = CONV_STRING) then 0 else Z.max 0 (prec fs - len ds)). set (sg := sign_c cb) in *.
  assert (∀ m, pad 48 (Z.max 0 m) = pad 48 m) as Hmax by (intros; unfold pad; f_equal; lia).
  set (text := pad 48 (if bool_decide (conv_spec fs = CONV_STRING) then 0 else prec fs - len ds) ++ ds) in *.
  assert (text = pad 48 pp ++ ds) as Htext by (unfold text, pp; destruct (bool_decide _); [done|by rewrite Hmax]).
  assert (0 ≤ pp) as Hpp by (unfold pp; destruct (bool_decide _); lia).
  assert (len (sign_chars sg ++ text) = (if sg =? 0 then 0 else 1) + pp + len ds) as Hl.
  { rewrite Htext. unfold len, sign_chars, pad. rewrite !length_app, length_replicate. destruct (sg =? 0); simpl; lia. }
  assert (pp + len ds < 2 ^ 31) as Hpl' by (unfold pp; destruct (bool_decide _); lia). assert (0 ≤ len ds) by (unfold len; lia).
  set (n := default 0 width - len (sign_chars sg ++ text)). replace (default 0 width - len ds - (if sg =? 0 then 0 else 1) - pp) with n by lia.
  rewrite i32_id by (unfold n; destruct (sg =? 0); lia).
  assert (∀ c, pad c (Z.max 0 n) = pad c n) as Hmn by (intros; unfold pad; f_equal; lia). unfold fill in HQ. fold n in HQ.
  assert (conv_spec fs = CONV_STRING → sg = 0 ∧ pp = 0) as Hstr by (intros Hc; split; [by apply Hs|unfold pp; by rewrite bool_decide_true]).
  assert (pad_char fs (zero cb) = if bool_decide (width = None) then 0 else if leading_zero_pad fs && negb (left_justified fs) then 48 else 32) as Hpc.
  { unfold pad_char. rewrite (bool_decide_ext _ _ Hwo). destruct (bool_decide (width = None)); [done|]. destruct (leading_zero_pad fs && negb (left_justified fs)) eqn:Hzl; [|done].
    apply andb_true_iff in Hzl as [Hz' _]. by rewrite (bool_decide_true _ (Hz Hz')). }
  rewrite Hpc. destruct (left_justified fs) eqn:Hlj; cbn [negb andb].
  - rewrite andb_false_r. apply wp_bind, wp_ret, wp_bind. eapply wp_payload; [done|done|done|]. rewrite <-Htext. rewrite app_assoc, <-put_app in HQ.
    destruct (bool_decide_reflect (width = None)) as [Hn|Hn]; cbn [Z.eqb negb when].
    + apply wp_ret. assert (pad 32 n = []) as Hnil. { unfold pad. replace (Z.to_nat n) with 0%nat; [done|]. unfold n. rewrite Hn. simpl. rewrite Hl. destruct (sg =? 0); lia. }
      rewrite Hnil, put_nil in HQ. exact HQ.
    + apply put_st, wp_putc_times; [by apply sink_foldl|]. by rewrite Hmn.
  - rewrite andb_true_r. apply wp_bind. destruct (bool_decide_reflect (width = None)) as [Hn|Hn]; cbn [Z.eqb negb when].
    + apply wp_ret, wp_bind. eapply wp_payload; [done|done|done|]. apply wp_ret. rewrite <-Htext.
      assert (∀ c, pad c n = []) as Hnil. { intros c. unfold pad. replace (Z.to_nat n) with 0%nat; [done|]. unfold n. rewrite Hn. simpl. rewrite Hl. destruct (sg =? 0); lia. }
      destruct (leading_zero_pad fs); rewrite Hnil in HQ; exact HQ.
    + destruct (leading_zero_pad fs); cbn [Z.eqb Pos.eqb negb andb].
      * apply wp_bind. apply (wp_mono _ (λ r s', r = 0 ∧ s' = put x k a (sign_chars sg))).
        { unfold sign_chars. destruct (Z.eqb_spec sg 0) as [->|]; cbn [negb]; [apply wp_ret; by rewrite put_nil|]. apply wp_bind, wp_putc; [done|]. by apply wp_ret. }
        intros r s' [-> ->]. apply put_st, wp_bind, wp_putc_times; [by apply sink_foldl|]. apply wp_ret, wp_bind. rewrite Hmn, put_app. apply put_st.
        eapply wp_payload; [done|by apply sink_foldl|intros Hc; split; [done|by apply Hstr]|]. apply wp_ret. change (sign_chars 0) with (@nil Z). cbn [app]. rewrite <-Htext, put_app, <-app_assoc. exact HQ.
      * apply wp_bind, wp_ret, wp_bind, wp_putc_times; [done|]. rewrite Hmn. apply wp_ret, wp_bind, put_st. eapply wp_payload; [done|by apply sink_foldl|done|].
        apply wp_ret. rewrite <-Htext, put_app. exact HQ.
Qed.
End emit.
