(* ===== verification/NpfTheorems.v ===== *)
(** Formatted output is what its directives mean; into a buffer it never writes past
    the size that it is given. *)
From S2P Require Import Prelude Npf NpfSpec.

#[local] Arguments loop : simpl never.
#[local] Arguments for_n : simpl never.
#[local] Arguments number : simpl never.
#[local] Arguments digits : simpl never.

(** * Machine words *)

Lemma mod_i32 w n : 0 ≤ n ≤ 32 → i32 w `mod` 2 ^ n = w `mod` 2 ^ n.
Proof.
  intros Hn. unfold i32. replace (2 ^ 32) with (2 ^ (32 - n) * 2 ^ n) by (rewrite <-Z.pow_add_r by lia; f_equal; lia).
  assert (0 < 2 ^ n) by lia. assert (0 < 2 ^ (32 - n)) by lia. rewrite (Z.mod_eq (w + 2 ^ 31)) by lia.
  replace (w + 2 ^ 31 - 2 ^ (32 - n) * 2 ^ n * ((w + 2 ^ 31) / (2 ^ (32 - n) * 2 ^ n)) - 2 ^ 31)
    with (w + (- (2 ^ (32 - n) * ((w + 2 ^ 31) / (2 ^ (32 - n) * 2 ^ n)))) * 2 ^ n) by lia.
  by rewrite Z.mod_add by lia.
Qed.
Lemma u8_i32 w : u8 (i32 w) = u8 w.
Proof. by apply (mod_i32 w 8). Qed.
Lemma sint_i32 n w : 0 < n ≤ 32 → sint n (i32 w) = sint n w.
Proof. intros Hn. unfold sint. rewrite <-Z.add_mod_idemp_l, mod_i32, Z.add_mod_idemp_l by lia. done. Qed.
Lemma mod_u32 w n : 0 ≤ n ≤ 32 → u32 w `mod` 2 ^ n = w `mod` 2 ^ n.
Proof.
  intros Hn. unfold u32. symmetry. apply Znumtheory.Zmod_div_mod; [lia|lia|]. exists (2 ^ (32 - n)). rewrite <-Z.pow_add_r by lia. f_equal. lia.
Qed.
Lemma sint_range n w : 0 < n → - 2 ^ (n - 1) ≤ sint n w < 2 ^ (n - 1).
Proof.
  intros Hn. unfold sint. pose proof (Z.mod_pos_bound (w + 2 ^ (n - 1)) (2 ^ n)). assert (2 ^ n = 2 * 2 ^ (n - 1)) by (rewrite <-Z.pow_succ_r by lia; f_equal; lia). lia.
Qed.

Section theorems.
Context (mem : gmap Z Z) {C : Type} (pc : Z → M C unit) (I : C → Prop) (f : C → Z → C) `{!Sink pc I f}.
Implicit Types (x : C) (k : Z) (a : list Z).

Local Abbreviation stt := (st (C:=C)).

(** * Arguments *)

Lemma wp_extract_signed fs x k w a (Q : Z → pp_state C → Prop) : length_modifier fs ≠ LEN_MOD_LONG_DOUBLE →
  Q (signed_arg (length_modifier fs) w) (stt x k a) → wp (extract_signed fs) Q (stt x k (w :: a)).
Proof.
  intros Hl HQ. unfold extract_signed. destruct (length_modifier fs); try done; cbn [signed_arg] in HQ; apply wp_bind, wp_va_arg, wp_ret; rewrite ?sint_i32 by lia; exact HQ.
Qed.
Lemma wp_extract_unsigned fs x k w a (Q : Z → pp_state C → Prop) : length_modifier fs ≠ LEN_MOD_LONG_DOUBLE →
  Q (unsigned_arg (length_modifier fs) w) (stt x k a) → wp (extract_unsigned fs) Q (stt x k (w :: a)).
Proof.
  intros Hl HQ. unfold extract_unsigned. destruct (length_modifier fs); try done; cbn [unsigned_arg] in HQ; apply wp_bind, wp_va_arg, wp_ret;
    unfold u16, u8 in *; rewrite ?mod_u32 by lia; exact HQ.
Qed.
Lemma signed_arg_range m w : - 2 ^ 63 ≤ signed_arg m w < 2 ^ 63.
Proof.
  destruct m; cbn [signed_arg]; try apply (sint_range 64 w); try lia; [pose proof (i32_range w)|pose proof (sint_range 16 w)|pose proof (sint_range 8 w)]; lia.
Qed.
Lemma unsigned_arg_range m w : 0 ≤ unsigned_arg m w < 2 ^ 64.
Proof.
  destruct m; cbn [unsigned_arg]; try apply u64_range; [pose proof (u32_range w)|pose proof (u16_range w)|pose proof (u8_range w)]; lia.
Qed.

(** The specifier that the conversion sees. *)
Definition fin (d : directive) (minus : bool) (width prec : option Z) : npf_format_spec_t :=
  mkSpec (default 0 width) (default (match d_letter d with l_p => 16 | _ => 0 end) prec) (match prec with None => OPT_NONE | Some _ => opt_of (d_prec d) end)
    (opt_of (d_width d)) minus (f_zero d && bool_decide (prec = None)) (if f_plus d then 43 else if f_space d then 32 else 0)
    (if upper (d_letter d) then 0 else 32) (d_len d) (conv_of (d_letter d)).
Lemma wp_stars d x k a a1 a2 minus width prec (K : npf_format_spec_t → M (pp_state C) unit) (Q : unit → pp_state C → Prop) :
  sensible d → width_of d a = Some (minus, width, a1) → prec_of d a1 = Some (prec, a2) →
  wp (K (fin d minus width prec)) Q (stt x k a2) →
  wp (fs ← star_width (spec_of d); fs ← star_prec fs; K (cancel_zero_pad (default_prec fs))) Q (stt x k a).
Proof.
  intros Hs Hw Hp HQ.
  set (s1 := mkSpec (default 0 width) (amount_value (d_prec d)) (opt_of (d_prec d)) (opt_of (d_width d)) minus (f_zero d)
    (if f_plus d then 43 else if f_space d then 32 else 0) (if upper (d_letter d) then 0 else 32) (d_len d) (conv_of (d_letter d))).
  apply wp_bind. apply (wp_mono _ (λ fs s', fs = s1 ∧ s' = stt x k a1)).
  { unfold star_width, width_of in *. unfold spec_of. cbn [field_width_opt]. destruct (d_width d) as [|n|] eqn:Hdw; cbn [opt_of bool_decide] in *.
    - simplify_eq. rewrite bool_decide_false by done. apply wp_ret. unfold s1. by rewrite ?Hdw.
    - simplify_eq. rewrite bool_decide_false by done. apply wp_ret. unfold s1. by rewrite ?Hdw.
    - destruct a as [|w a]; [done|]. destruct (Z.eqb_spec (i32 w) (- 2 ^ 31)) as [|Hmin]; [done|]. simplify_eq. rewrite bool_decide_true by done. cbn [negb].
      apply wp_bind, wp_va_arg, wp_ret. split; [|done]. unfold s1. rewrite ?Hdw. pose proof (i32_range w). destruct (Z.ltb_spec (i32 w) 0).
      + unfold fset_left_justified, fset_field_width. cbn. rewrite orb_true_r, (i32_id (- i32 w)) by (clear - Hmin H H0; lia). f_equal. lia.
      + unfold fset_field_width. cbn. rewrite orb_false_r. f_equal. lia. }
  intros fs s' [-> ->]. apply wp_bind. apply (wp_mono _ (λ fs s', cancel_zero_pad (default_prec fs) = fin d minus width prec ∧ s' = stt x k a2)); [|by intros fs s' [-> ->]].
  unfold star_prec, prec_of in *. unfold s1. cbn [prec_opt]. unfold sensible in Hs.
  assert (∀ pv, cancel_zero_pad (default_prec (mkSpec (default 0 width) (default 0 pv) (match pv with None => OPT_NONE | Some _ => opt_of (d_prec d) end) (opt_of (d_width d)) minus (f_zero d)
    (if f_plus d then 43 else if f_space d then 32 else 0) (if upper (d_letter d) then 0 else 32) (d_len d) (conv_of (d_letter d)))) = fin d minus width pv ∨ (d_prec d = Absent ∧ pv ≠ None)) as Hfin.
  { intros [v|].
    - destruct (d_prec d) as [|n|] eqn:Hdp; [by right| |]; left; unfold fin, default_prec, cancel_zero_pad; rewrite Hdp; cbn; rewrite !bool_decide_false by done;
        cbn; rewrite andb_false_r; destruct (d_letter d); cbn; first [done | destruct Hs as [Hs|Hs]; [by rewrite Hs|congruence] | destruct Hs; congruence | by rewrite Hs].
    - left. unfold fin, default_prec, cancel_zero_pad. cbn. rewrite ?bool_decide_true by done. cbn. rewrite andb_true_r. destruct (d_letter d); cbn; rewrite ?bool_decide_true by done; done. }
  destruct (d_prec d) as [|n|] eqn:Hdp; cbn [opt_of] in *; simplify_eq.
  - rewrite bool_decide_false by done. apply wp_ret. split; [|done]. destruct (Hfin None) as [Hf|[_ ?]]; [exact Hf|done].
  - rewrite bool_decide_false by done. apply wp_ret. split; [|done]. destruct (Hfin (Some n)) as [Hf|[? _]]; [exact Hf|done].
  - destruct a1 as [|w a1]; [done|]. simplify_eq. rewrite bool_decide_true by done. cbn [negb]. apply wp_bind, wp_va_arg, wp_ret. split; [|done].
    destruct (Z.ltb_spec (i32 w) 0).
    + destruct (Hfin None) as [Hf|[_ ?]]; [exact Hf|done].
    + destruct (Hfin (Some (i32 w))) as [Hf|[? _]]; [exact Hf|done].
Qed.

(** * Conversions *)

(** The digits of an integer conversion. *)
Definition int_digits (fs : npf_format_spec_t) (base v : Z) : list Z :=
  if (v =? 0) && negb (bool_decide (prec_opt fs = OPT_NONE)) && (prec fs =? 0) then [] else number base (case_adjust fs) v.
Definition fs_base (fs : npf_format_spec_t) : Z :=
  match conv_spec fs with CONV_OCTAL => 8 | CONV_SIGNED_INT | CONV_UNSIGNED_INT => 10 | CONV_BINARY => 2 | _ => 16 end.
Lemma int_digits_zero fs base v : (v =? 0) && negb (bool_decide (prec_opt fs = OPT_NONE)) && (prec fs =? 0) = false → int_digits fs base v = number base (case_adjust fs) v.
Proof. unfold int_digits. by intros ->. Qed.
Lemma wp_convert_signed fs x k w a (Q : npf_cbuf → pp_state C → Prop) : conv_spec fs = CONV_SIGNED_INT → length_modifier fs ≠ LEN_MOD_LONG_DOUBLE →
  (let v := signed_arg (length_modifier fs) w in
   ∀ cb, payload_is mem fs cb (int_digits fs 10 (Z.abs v)) → sign_c cb = (if v <? 0 then 45 else prepend fs) → Q cb (stt x k a)) →
  wp (convert_signed fs) Q (stt x k (w :: a)).
Proof.
  intros Hc Hl HQ. apply wp_bind, wp_extract_signed; [done|]. set (v := signed_arg _ w) in *. pose proof (signed_arg_range (length_modifier fs) w) as Hr. fold v in Hr.
  destruct ((v =? 0) && negb (bool_decide (prec_opt fs = OPT_NONE)) && (prec fs =? 0)) eqn:Hz.
  - apply wp_ret. apply HQ; [|done]. unfold int_digits. apply andb_true_iff in Hz as [[Hv%Z.eqb_eq Hn]%andb_true_iff Hp]. rewrite Hv, Hn, Hp. split; [done|]. by rewrite Hc.
  - cbv zeta. assert ((if v <? 0 then u64 (0 - u64 v) else u64 v) = Z.abs v) as ->.
    { destruct (Z.ltb_spec v 0); [|rewrite u64_id; lia]. unfold u64. rewrite Zminus_mod_idemp_r, Z.mod_small; lia. }
    apply wp_to_cbuf; [lia|lia|]. cbv zeta. rewrite <-(int_digits_zero fs 10 (Z.abs v)).
    + apply HQ; [|done]. split; [done|]. by rewrite Hc.
    + rewrite <-Hz. do 2 f_equal. destruct (Z.eqb_spec v 0) as [->|]; [done|]. apply Z.eqb_neq. lia.
Qed.
Lemma wp_convert_unsigned fs x k w a (Q : npf_cbuf → pp_state C → Prop) :
  match conv_spec fs with CONV_OCTAL | CONV_UNSIGNED_INT | CONV_HEX_INT | CONV_POINTER | CONV_BINARY => True | _ => False end → length_modifier fs ≠ LEN_MOD_LONG_DOUBLE →
  (let v := if bool_decide (conv_spec fs = CONV_POINTER) then u64 w else unsigned_arg (length_modifier fs) w in
   ∀ cb, payload_is mem fs cb (int_digits fs (fs_base fs) v) → sign_c cb = 0 → Q cb (stt x k a)) →
  wp (convert_unsigned fs) Q (stt x k (w :: a)).
Proof.
  intros Hc Hl HQ. set (v := if bool_decide _ then _ else _) in HQ. cbv zeta in HQ. apply wp_bind. apply (wp_mono _ (λ r s', r = v ∧ s' = stt x k a)).
  { unfold v. destruct (bool_decide (conv_spec fs = CONV_POINTER)); [by apply wp_bind, wp_va_arg, wp_ret|by apply wp_extract_unsigned]. }
  intros r s' [-> ->]. assert (0 ≤ v < 2 ^ 64) as Hr by (unfold v; destruct (bool_decide _); [apply u64_range|apply unsigned_arg_range]). clearbody v.
  destruct ((v =? 0) && negb (bool_decide (prec_opt fs = OPT_NONE)) && (prec fs =? 0)) eqn:Hz.
  - apply wp_ret. apply HQ; [|done]. unfold int_digits. rewrite Hz. split; [done|]. by destruct (conv_spec fs).
  - pose proof (int_digits_zero fs (fs_base fs) v Hz) as Hd. rewrite Hd in HQ. destruct (decide (conv_spec fs = CONV_BINARY)) as [Hb|Hb].
    + rewrite bool_decide_true by done. apply wp_ret. apply HQ; [|done]. destruct (digits_binary v ltac:(lia)) as [Hlen Hds]. unfold fs_base. rewrite Hb.
      assert (len (number 2 (case_adjust fs) v) = npf_bin_len v) as Hln by (rewrite <-Hlen; unfold len, number; by rewrite length_fmap). split; [done|]. rewrite Hb, Hln.
      intros i c Hi. unfold number in Hi. apply list_lookup_fmap_Some in Hi as (d & -> & Hi). cbn [binval]. rewrite <-(Hds i d Hi).
      pose proof (numeral_range 2 v ltac:(lia) ltac:(lia)) as Hr2. rewrite Forall_lookup in Hr2. specialize (Hr2 i d Hi). unfold digit_char. rewrite (proj2 (Z.ltb_lt d 10)) by lia. done.
    + rewrite bool_decide_false by done. assert ((if bool_decide (conv_spec fs = CONV_OCTAL) then 8 else if bool_decide (conv_spec fs = CONV_UNSIGNED_INT) then 10 else 16) = fs_base fs) as ->.
      { unfold fs_base. by destruct (conv_spec fs). }
      apply wp_to_cbuf; [unfold fs_base; by destruct (conv_spec fs)|done|]. apply HQ; [|done]. split; [done|]. by destruct (conv_spec fs).
Qed.

(** A string is as long as it can be read. *)
Lemma str_upto_spec n p l : str_upto mem n p = Some l →
  (length l ≤ n)%nat ∧ (∀ i c, l !! i = Some c → mem !! (p + Z.of_nat i) = Some c ∧ c ≠ 0) ∧ ((length l < n)%nat → mem !! (p + Z.of_nat (length l)) = Some 0).
Proof.
  revert p l. induction n as [|n IH]; intros p l; simpl; [by intros [= <-]; split_and!; [|done|simpl; lia]|].
  destruct (mem !! p) as [c|] eqn:Hp; [|done]. destruct (Z.eqb_spec c 0) as [->|Hc].
  - intros [= <-]. split_and!; [simpl; lia|done|]. intros _. simpl. by rewrite Z.add_0_r.
  - destruct (str_upto mem n (p + 1)) as [l'|] eqn:Hl; [|done]. intros [= <-]. destruct (IH _ _ Hl) as (Hn & Hi & He). split_and!; [simpl; lia| |].
    + intros [|i] d Hd; simpl in Hd; [simplify_eq; by rewrite Z.add_0_r|]. replace (p + Z.of_nat (S i)) with (p + 1 + Z.of_nat i) by lia. by apply Hi.
    + intros Hlt. simpl in *. replace (p + Z.of_nat (S (length l'))) with (p + 1 + Z.of_nat (length l')) by lia. apply He. lia.
Qed.
Lemma mem_run_size p n : (∀ i, (i < n)%nat → is_Some (mem !! (p + Z.of_nat i))) → (n ≤ size mem)%nat.
Proof.
  intros H. rewrite <-size_dom. replace n with (length (seqZ p (Z.of_nat n))) at 1 by (rewrite length_seqZ; lia). rewrite <-(size_list_to_set (C:=gset Z)) by apply NoDup_seqZ. apply subseteq_size.
  intros q (Hq1 & Hq2)%elem_of_list_to_set%elem_of_seqZ. apply elem_of_dom. destruct (H (Z.to_nat (q - p))) as [c Hc]; [lia|]. exists c. rewrite <-Hc. f_equal. lia.
Qed.
Lemma wp_string_length fs p l x k a (Q : Z → pp_state C → Prop) pr :
  (prec_opt fs = OPT_NONE ↔ pr = None) → (∀ n, pr = Some n → prec fs = n ∧ 0 ≤ n) → c_string mem pr p = Some l →
  Q (len l) (stt x k a) → wp (loop (S (size mem)) (strlen_round mem fs p) 0) Q (stt x k a).
Proof.
  intros Ho Hp Hl HQ. unfold c_string in Hl. destruct (Z.eqb_spec p 0) as [->|Hp0].
  { simplify_eq. unfold loop. apply wp_bind. unfold strlen_round. cbn [Z.eqb negb]. rewrite andb_false_r. by apply wp_ret, wp_ret. }
  set (n := match pr with None => S (size mem) | Some n => Z.to_nat n end) in *. destruct (str_upto_spec n p l Hl) as (Hln & Hc & He).
  assert (length l ≤ size mem)%nat as Hsz by (apply (mem_run_size p); intros i Hi; destruct (lookup_lt_is_Some_2 l i Hi) as [c Hi']; destruct (Hc i c Hi'); eauto).
  apply (wp_loop (λ m i s', s' = stt x k a ∧ 0 ≤ i ≤ len l ∧ m = Z.to_nat (len l - i)) _ _ (length l)).
  - lia.
  - unfold len. split_and!; [done|lia|lia|lia].
  - intros m i s' (-> & Hi & ->). unfold strlen_round. rewrite (proj2 (Z.eqb_neq p 0)) by done. cbn [negb]. rewrite andb_true_r.
    assert ((bool_decide (prec_opt fs = OPT_NONE) || (i <? prec fs)) = bool_decide (Z.to_nat i < n)%nat) as ->.
    { unfold n. destruct pr as [q|].
      - destruct (Hp q) as [-> Hq]; [done|]. rewrite bool_decide_false by (intros H; by apply Ho in H). cbn [orb]. destruct (Z.ltb_spec i q); [rewrite bool_decide_true|rewrite bool_decide_false]; [done|lia|done|lia].
      - rewrite (bool_decide_true (prec_opt fs = OPT_NONE)) by (by apply Ho). rewrite bool_decide_true; [done|]. unfold len in Hi. lia. }
    destruct (decide (i = len l)) as [->|Hne].
    + destruct (bool_decide_reflect (Z.to_nat (len l) < n)%nat) as [Hlt|]; [|by apply wp_ret]. apply wp_bind. eapply wp_read_char; [unfold len in *; apply He; lia|]. by apply wp_ret.
    + destruct (lookup_lt_is_Some_2 l (Z.to_nat i)) as [c Hi']; [unfold len in *; lia|]. rewrite bool_decide_true by (unfold len in *; lia).
      destruct (Hc _ _ Hi') as [Hm Hc0]. rewrite Z2Nat.id in Hm by lia. apply wp_bind. eapply wp_read_char; [exact Hm|]. rewrite (proj2 (Z.eqb_neq _ _) Hc0).
      apply wp_ret. exists (Z.to_nat (len l - (i + 1))). split; [lia|]. split_and!; [done|lia|lia|lia].
Qed.

(** * Directives *)

Context (Hmem : Z.of_nat (size mem) < 2 ^ 31).

Lemma width_range d a minus width a1 : writable d → width_of d a = Some (minus, width, a1) → 0 ≤ default 0 width < 2 ^ 31 ∧ (opt_of (d_width d) = OPT_NONE ↔ width = None).
Proof.
  intros (Hw & _ & _). unfold width_of, int_max in *. destruct (d_width d) as [|n|]; simpl; intros H; simplify_eq; simpl; [by split; [lia|]|by split; [lia|]|].
  destruct a as [|w a]; [done|]. destruct (Z.eqb_spec (i32 w) (- 2 ^ 31)); [done|]. simplify_eq. simpl. pose proof (i32_range w). split; [lia|done].
Qed.
Lemma prec_range d a prec a1 : writable d → prec_of d a = Some (prec, a1) → 0 ≤ default 0 prec < 2 ^ 31.
Proof.
  intros (_ & Hp & _). unfold prec_of, int_max in *. destruct (d_prec d) as [|n|]; simpl; intros H; simplify_eq; simpl; [lia|lia|].
  destruct a as [|w a]; [done|]. simplify_eq. destruct (Z.ltb_spec (i32 w) 0); simpl; [lia|]. pose proof (i32_range w). lia.
Qed.
Lemma prec_None d a prec a1 : prec_of d a = Some (prec, a1) → d_prec d = Absent → prec = None ∧ a1 = a.
Proof. unfold prec_of. intros H Hd. rewrite Hd in H. by simplify_eq. Qed.
Lemma fin_prec_opt d a minus width prec a1 : prec_of d a = Some (prec, a1) → prec_opt (fin d minus width prec) = OPT_NONE ↔ prec = None.
Proof.
  intros H. cbn. destruct prec as [v|]; [|done]. split; [|done]. unfold prec_of in H. destruct (d_prec d); by simplify_eq/=.
Qed.
Lemma int_digits_text d a minus width prec a1 l v : prec_of d a = Some (prec, a1) → d_letter d = l → match l with l_percent | l_c | l_s => False | _ => True end →
  pad 48 (Npf.prec (fin d minus width prec) - len (int_digits (fin d minus width prec) (base_of l) v)) ++ int_digits (fin d minus width prec) (base_of l) v = int_text l prec v.
Proof.
  intros Hp Hl Hint. unfold int_text, int_digits. rewrite (bool_decide_ext _ _ (fin_prec_opt d a minus width prec a1 Hp)). cbn. rewrite Hl.
  destruct prec as [p|]; cbn; [|by rewrite !andb_false_r; destruct l]. rewrite andb_true_r. 
  assert ((p =? 0) = bool_decide (Some p = Some 0)) as ->; [|by destruct l]. destruct (Z.eqb_spec p 0) as [->|]; [by rewrite bool_decide_true|rewrite bool_decide_false; [done|congruence]].
Qed.
Lemma int_digits_short fs base v : 2 ≤ base → 0 ≤ v < 2 ^ 64 → len (int_digits fs base v) < 2 ^ 31.
Proof.
  intros Hb Hv. unfold int_digits, len. destruct (_ && _ && _); [simpl; lia|]. pose proof (number_length base (case_adjust fs) v 63 Hb) as H.
  enough (v < base ^ Z.of_nat 64) by (specialize (H ltac:(lia)); lia). eapply Z.lt_le_trans; [apply Hv|]. apply (Z.pow_le_mono_l 2 base 64). lia.
Qed.
Lemma wp_fin_layout d a a1 a2 a3 minus width prec cb ds x k (Q : unit → pp_state C → Prop) :
  writable d → width_of d a = Some (minus, width, a1) → prec_of d a1 = Some (prec, a2) → payload_is mem (fin d minus width prec) cb ds → I x → len ds < 2 ^ 31 →
  (d_letter d = l_s → sign_c cb = 0) →
  Q tt (put f x k a3 (fill minus (f_zero d && bool_decide (prec = None)) width (sign_chars (sign_c cb))
    (pad 48 (if bool_decide (d_letter d = l_s) then 0 else Npf.prec (fin d minus width prec) - len ds) ++ ds))) →
  wp (layout mem pc (fin d minus width prec) cb) Q (stt x k a3).
Proof.
  intros Hwr Hw Hp Hpl Hx Hlen Hs HQ. destruct (width_range _ _ _ _ _ Hwr Hw) as [Hr Ho]. pose proof (prec_range _ _ _ _ Hwr Hp) as Hpr.
  assert (conv_spec (fin d minus width prec) = CONV_STRING ↔ d_letter d = l_s) as Hcs by (cbn; by destruct (d_letter d)).
  eapply (wp_layout mem pc I f _ cb ds width); [done|done|done|done|done| |done| | |].
  - cbn. destruct prec; cbn in *; [lia|]. destruct (d_letter d); lia.
  - cbn. intros [_ Hn]%andb_true_iff. apply bool_decide_eq_true in Hn. by subst prec.
  - intros Hc. by apply Hs, Hcs.
  - rewrite (bool_decide_ext _ _ Hcs). exact HQ.
Qed.

Lemma wp_format_one d a o a' x k (Q : unit → pp_state C → Prop) :
  writable d → sensible d → field mem d a = Some (o, a') → I x → Q tt (put f x k a' o) → wp (format_one mem pc (spec_of d)) Q (stt x k a).
Proof.
  intros Hwr Hse Hf Hx HQ. unfold field in Hf. destruct (width_of d a) as [[[minus width] a1]|] eqn:Hw; [|done]. cbn [mbind option_bind] in Hf.
  destruct (prec_of d a1) as [[prec a2]|] eqn:Hp; [|done]. cbn [mbind option_bind] in Hf.
  apply (wp_stars d x k a a1 a2 minus width prec (λ fs, cb ← convert mem fs; layout mem pc fs cb)); [done..|]. apply wp_bind.
  pose proof Hwr as (_ & _ & Hll). pose proof (fin_prec_opt d a1 minus width prec a2 Hp) as Hpo.
  assert (∀ cb ds, payload_is mem (fin d minus width prec) cb ds → len ds < 2 ^ 31 → (d_letter d = l_s → sign_c cb = 0) →
    o = fill minus (f_zero d && bool_decide (prec = None)) width (sign_chars (sign_c cb)) (pad 48 (if bool_decide (d_letter d = l_s) then 0 else Npf.prec (fin d minus width prec) - len ds) ++ ds) →
    wp (layout mem pc (fin d minus width prec) cb) Q (stt x k a')) as Hlay.
  { intros cb ds Hpl Hlen Hs Ho. eapply wp_fin_layout; [done|exact Hw|exact Hp|done|done|done|done|]. by rewrite <-Ho. }
  assert (∀ l, d_letter d = l → match l with l_o | l_u | l_x | l_X | l_p | l_b | l_B => True | _ => False end →
    (let v w := match l with l_p => u64 w | _ => unsigned_arg (d_len d) w end in
     match a2 with [] => False | w :: a3 => a3 = a' ∧ o = fill minus (f_zero d && bool_decide (prec = None)) width [] (int_text l prec (v w)) end) →
    wp (convert_unsigned (fin d minus width prec)) (λ cb s', wp (layout mem pc (fin d minus width prec) cb) Q s') (stt x k a2)) as Hun.
  { intros l Hl Hlu Ho. destruct a2 as [|w a3]; [done|]. destruct Ho as [-> ->]. set (v := match l with l_p => u64 w | _ => unsigned_arg (d_len d) w end) in *.
    assert (0 ≤ v < 2 ^ 64) as Hv by (unfold v; destruct l; try apply unsigned_arg_range; apply u64_range).
    assert (fs_base (fin d minus width prec) = base_of l) as Hb by (unfold fs_base; cbn; rewrite Hl; by destruct l).
    apply wp_convert_unsigned; [cbn; rewrite Hl; by destruct l|done|]. cbv zeta. intros cb Hpl Hsg. rewrite Hb in Hpl.
    assert ((if bool_decide (conv_spec (fin d minus width prec) = CONV_POINTER) then u64 w else unsigned_arg (length_modifier (fin d minus width prec)) w) = v) as Hv' by (unfold v; cbn; rewrite Hl; by destruct l).
    rewrite Hv' in Hpl. apply (Hlay cb _ Hpl); [apply int_digits_short; [by destruct l|done]|by intros|]. rewrite Hsg, (bool_decide_false (d_letter d = l_s)) by (rewrite Hl; by destruct l).
    erewrite int_digits_text; [done|exact Hp|done|by destruct l]. }
  unfold convert. change (conv_spec (fin d minus width prec)) with (conv_of (d_letter d)). unfold sensible in Hse.
  destruct (d_letter d) eqn:Hl; cbn [conv_of].
  - destruct Hse as [Hz Hpa]. destruct (prec_None _ _ _ _ Hp Hpa) as [-> ->]. simplify_eq. apply wp_ret. apply (Hlay _ [37]); [split; [done|cbn; by rewrite Hl]|done|done|].
    rewrite Hz, (bool_decide_false (_ = l_s)) by done. cbn. by rewrite Hl.
  - destruct Hse as [Hz Hpa]. destruct (prec_None _ _ _ _ Hp Hpa) as [-> ->]. destruct a1 as [|w a1]; [done|]. cbn in Hf. simplify_eq. apply wp_bind, wp_va_arg, wp_ret.
    rewrite u8_i32. apply (Hlay _ [u8 w]); [split; [done|cbn; by rewrite Hl]|done|done|]. rewrite Hz, (bool_decide_false (_ = l_s)) by done. cbn. by rewrite Hl.
  - destruct a2 as [|p a2]; [done|]. cbn [mbind option_bind] in Hf. destruct (c_string mem prec p) as [l|] eqn:Hstr; [|done]. cbn [mbind option_bind] in Hf. simplify_eq.
    apply wp_bind, wp_va_arg, wp_bind. assert (∀ i c, l !! i = Some c → mem !! (p + Z.of_nat i) = Some c) as Hrd.
    { unfold c_string in Hstr. destruct (p =? 0); [by simplify_eq|]. intros i c Hi. by eapply str_upto_spec. }
    assert (len l < 2 ^ 31) as Hll' by (pose proof (mem_run_size p (length l)) as Hsz; unfold len; enough (length l ≤ size mem)%nat by lia; apply Hsz; intros i Hi; destruct (lookup_lt_is_Some_2 l i Hi) as [c Hc]; eauto).
    eapply wp_string_length; [exact Hpo| |exact Hstr|].
    { intros n ->. pose proof (prec_range _ _ _ _ Hwr Hp). split; [done|simpl in *; lia]. }
    apply wp_ret. apply (Hlay _ l); [split; [done|cbn; rewrite Hl; exact Hrd]|done|done|]. by rewrite Hse, (bool_decide_true (_ = l_s)).
  - destruct a2 as [|w a2]; [done|]. cbn [mbind option_bind] in Hf. simplify_eq. apply wp_convert_signed; [cbn; by rewrite Hl|done|]. cbv zeta. change (length_modifier (fin d minus width prec)) with (d_len d).
    set (v := signed_arg (d_len d) w). pose proof (signed_arg_range (d_len d) w) as Hr. fold v in Hr. intros cb Hpl Hsg. apply (Hlay cb _ Hpl); [apply int_digits_short; lia|done|].
    rewrite (bool_decide_false (_ = l_s)) by done. change 10 with (base_of l_d). erewrite int_digits_text; [|exact Hp|done|done]. f_equal. rewrite Hsg. unfold sign_of, sign_chars. cbn.
    fold v. destruct (v <? 0); [done|]. destruct (f_plus d); [done|]. by destruct (f_space d).
  - apply (Hun l_o); [done|done|]. destruct a2 as [|w a2]; [done|]. cbn in Hf. by simplify_eq.
  - apply (Hun l_u); [done|done|]. destruct a2 as [|w a2]; [done|]. cbn in Hf. by simplify_eq.
  - apply (Hun l_x); [done|done|]. destruct a2 as [|w a2]; [done|]. cbn in Hf. by simplify_eq.
  - apply (Hun l_X); [done|done|]. destruct a2 as [|w a2]; [done|]. cbn in Hf. by simplify_eq.
  - apply (Hun l_p); [done|done|]. destruct a2 as [|w a2]; [done|]. cbn in Hf. by simplify_eq.
  - apply (Hun l_b); [done|done|]. destruct a2 as [|w a2]; [done|]. cbn in Hf. by simplify_eq.
  - apply (Hun l_B); [done|done|]. destruct a2 as [|w a2]; [done|]. cbn in Hf. by simplify_eq.
Qed.

(** * Formats *)

Definition show_all (ps : list piece) : list Z := ps ≫= show_piece.
Lemma wp_pp_round ps x k a o fuel (Q : Z → pp_state C → Prop) :
  Forall piece_ok ps → output mem ps a = Some o → I x → (length (show_all ps) < fuel)%nat →
  (∀ a', Q (i32 (k + len o)) (put f x k a' o)) → wp (loop fuel (pp_round mem pc) (show_all ps)) Q (stt x k a).
Proof.
  intros Hok. revert x k a o fuel. induction Hok as [|p ps Hp Hok IH]; intros x k a o fuel Ho Hx Hf HQ.
  { destruct fuel as [|fuel]; [simpl in Hf; lia|]. simpl in Ho. simplify_eq. apply wp_bind, wp_bind, wp_gets, wp_ret, wp_ret. specialize (HQ a).
    rewrite put_nil in HQ. unfold len in HQ. simpl in HQ. by rewrite Z.add_0_r in HQ. }
  change (show_all (p :: ps)) with (show_piece p ++ show_all ps) in *. rewrite length_app in Hf. destruct p as [t|d]; cbn [show_piece output] in *.
  - destruct (output mem ps a) as [o'|] eqn:Ho'; [|done]. cbn in Ho. simplify_eq. revert x k fuel Hx Hf HQ.
    induction Hp as [|c t [Hc0 Hc] Ht IHt]; intros x k fuel Hx Hf HQ; cbn [app length] in *; [by eapply IH|].
    destruct fuel as [|fuel]; [lia|]. apply wp_bind. unfold pp_round at 1. rewrite peek_cons. rewrite (proj2 (Z.eqb_neq _ _) Hc0), (proj2 (Z.eqb_neq _ _) Hc).
    apply wp_bind, (wp_putc pc I f); [done|]. apply wp_ret. cbn [tail]. apply put_st, IHt; [by apply (sink_foldl pc)|lia|]. intros a'. specialize (HQ a').
    rewrite put_app. unfold len in *. cbn [length app] in *. by replace (k + Z.of_nat 1 + Z.of_nat (length (t ++ o'))) with (k + Z.of_nat (S (length (t ++ o')))) by lia.
  - destruct Hp as [Hwr Hse]. destruct (field mem d a) as [[o1 a1]|] eqn:Hfi; [|done]. cbn [mbind option_bind] in Ho. destruct (output mem ps a1) as [o2|] eqn:Ho2; [|done].
    cbn in Ho. simplify_eq. destruct fuel as [|fuel]; [lia|]. apply wp_bind. unfold pp_round at 1. rewrite parse_show by done.
    change (peek (show d ++ show_all ps)) with 37. cbn [Z.eqb Pos.eqb]. apply wp_bind. eapply wp_format_one; [done|done|done|done|]. apply wp_ret, put_st.
    eapply IH; [done|by apply (sink_foldl pc)| |].
    + unfold show in Hf. cbn [length] in Hf. lia.
    + intros a'. specialize (HQ a'). rewrite put_app. unfold len in *. rewrite length_app in HQ. by replace (k + Z.of_nat (length o1) + Z.of_nat (length o2)) with (k + Z.of_nat (length o1 + length o2)) by lia.
Qed.

Lemma vpprintf_output ps a o x :
  Forall piece_ok ps → output mem ps a = Some o → I x → npf_vpprintf mem pc (show_all ps) a x = Done (i32 (len o), foldl f x o).
Proof.
  intros Hok Ho Hx. unfold npf_vpprintf.
  assert (wp (loop (S (length (show_all ps))) (pp_round mem pc) (show_all ps)) (λ n s, n = i32 (len o) ∧ pp_ctx s = foldl f x o) (stt x 0 a)) as H.
  { eapply wp_pp_round; [done|done|done|lia|]. intros a'. by rewrite Z.add_0_l. }
  unfold wp in H. change (mkPp x 0 a) with (stt x 0 a). destruct (loop _ _ _ _) as [[n s]| |]; [|done..]. by destruct H as [-> ->].
Qed.

(** C38: a format of text and directives puts out, character by character and in
    order, what the directives mean, and counts the characters. *)
Theorem npf_vpprintf_spec ps a o x :
  Forall piece_ok ps → output mem ps a = Some o → I x → npf_vpprintf mem pc (show_all ps) a x = Done (i32 (len o), foldl f x o).
Proof. apply vpprintf_output. Qed.
End theorems.

(** * Buffers *)

Definition buf_inv (b : npf_bufputc_ctx_t) : Prop := 0 ≤ cur b ∧ Npf.len b ≤ Z.of_nat (length (dst b)).
Definition buf_step (b : npf_bufputc_ctx_t) (c : Z) : npf_bufputc_ctx_t :=
  if cur b <? Npf.len b then mkBuf (<[Z.to_nat (cur b) := c]> (dst b)) (Npf.len b) (cur b + 1) else b.
#[export] Instance bufputc_sink : Sink npf_bufputc buf_inv buf_step.
Proof.
  intros b c [H1 H2]. unfold npf_bufputc, buf_step. destruct (Z.ltb_spec (cur b) (Npf.len b)); [|done]. rewrite decide_True by lia. split; [done|].
  unfold buf_inv. simpl. rewrite length_insert. lia.
Qed.
#[export] Instance nop_sink : Sink npf_bufputc_nop (λ _, True) (λ b _, b).
Proof. done. Qed.
(** As many characters as fit are in the buffer. *)
Lemma buf_foldl l b : buf_inv b → cur b ≤ Npf.len b →
  foldl buf_step b l = mkBuf (take (Z.to_nat (cur b)) (dst b) ++ take (Z.to_nat (Npf.len b - cur b)) l ++ drop (Z.to_nat (cur b) + Nat.min (Z.to_nat (Npf.len b - cur b)) (length l)) (dst b))
    (Npf.len b) (cur b + Z.min (Npf.len b - cur b) (len l)).
Proof.
  revert b. induction l as [|c l IH]; intros b [Hc Hl] Hle; cbn [foldl].
  - rewrite take_nil, app_nil_l, Nat.min_0_r, Nat.add_0_r, take_drop. unfold len. simpl. destruct b as [d n q]. simpl in *. f_equal. lia.
  - unfold buf_step at 2. destruct (Z.ltb_spec (cur b) (Npf.len b)) as [Hlt|Hge].
    + rewrite IH; [|split; cbn; rewrite ?length_insert; lia|cbn; lia]. cbn [dst Npf.len cur]. f_equal; [|unfold len; cbn [length]; lia].
      set (m := Z.to_nat (cur b)) in *. replace (Z.to_nat (cur b + 1)) with (S m) by lia. replace (Z.to_nat (Npf.len b - cur b)) with (S (Z.to_nat (Npf.len b - (cur b + 1)))) by lia.
      set (r := Z.to_nat (Npf.len b - (cur b + 1))). assert (m < length (dst b))%nat as Hm by lia.
      rewrite (take_S_r _ _ c) by (by apply list_lookup_insert_eq). rewrite take_insert_ge by lia. rewrite <-app_assoc. cbn [take app length]. do 3 f_equal.
      rewrite drop_insert_lt by lia. f_equal. lia.
    + rewrite IH by done. f_equal; [|unfold len; cbn [length]; lia]. replace (Z.to_nat (Npf.len b - cur b)) with 0%nat by lia. done.
Qed.

Lemma vsnprintf_output mem ps a o buf n :
  Z.of_nat (size mem) < 2 ^ 31 → Forall piece_ok ps → output mem ps a = Some o → len o < 2 ^ 31 → 0 < n ≤ Z.of_nat (length buf) →
  npf_vsnprintf mem (Some buf) n (show_all ps) a =
    Done (len o, Some (take (Z.to_nat (n - 1)) o ++ 0 :: drop (S (Nat.min (Z.to_nat (n - 1)) (length o))) buf)).
Proof.
  intros Hm Hok Ho Hlen Hn. unfold npf_vsnprintf. change (default [] (Some buf)) with buf. cbv zeta.
  rewrite (vpprintf_output mem npf_bufputc buf_inv buf_step Hm ps a o (mkBuf buf n 0)); [|done|done|split; simpl; lia].
  rewrite i32_id by (unfold len in *; lia). rewrite (proj2 (Z.eqb_neq n 0)) by lia. rewrite (proj2 (Z.ltb_ge _ _)) by (unfold len; lia).
  rewrite buf_foldl by (try split; simpl; lia). cbn [dst Npf.len cur]. rewrite Z.sub_0_r. change (Z.to_nat 0) with 0%nat. cbn [Nat.add take app].
  set (m := Nat.min (Z.to_nat (n - 1)) (length o)). assert (Z.to_nat (Z.min (len o) (n - 1)) = m) as -> by (unfold m, len; lia).
  assert (length (take (Z.to_nat n) o ++ drop (Nat.min (Z.to_nat n) (length o)) buf) = length buf) as Hl by (rewrite length_app, length_take, length_drop; lia).
  change (take 0 buf) with (@nil Z). cbn [app]. rewrite Hl, decide_True by lia. do 3 f_equal. apply list_eq. intros i.
  destruct (Nat.lt_trichotomy i m) as [Hi|[->|Hi]].
  - rewrite list_lookup_insert_ne by lia. rewrite !lookup_app_l by (rewrite length_take; lia). by rewrite !lookup_take_lt by lia.
  - rewrite list_lookup_insert_eq by lia. rewrite lookup_app_r by (rewrite length_take; lia). rewrite length_take. by replace (m - Nat.min (Z.to_nat (n - 1)) (length o))%nat with 0%nat by lia.
  - rewrite list_lookup_insert_ne by lia. rewrite (lookup_app_r (take (Z.to_nat (n - 1)) o)) by (rewrite length_take; lia). rewrite length_take. fold m.
    rewrite lookup_cons_ne_0 by lia. rewrite lookup_drop. replace (S m + pred (i - m))%nat with i by lia.
    destruct (decide (i < length (take (Z.to_nat n) o))%nat) as [Hlt|Hge]; [rewrite length_take in Hlt; lia|].
    rewrite lookup_app_r by lia. rewrite lookup_drop, length_take in *. f_equal. lia.
Qed.

(** C28: whatever the arguments, a formatted string is cut to the size of the buffer and
    ended with a zero, no byte behind that is touched, and the length of the whole text
    is returned, so that a caller can see that it was cut. *)
Theorem npf_vsnprintf_spec mem ps a o buf n :
  Z.of_nat (size mem) < 2 ^ 31 → Forall piece_ok ps → output mem ps a = Some o → len o < 2 ^ 31 → 0 < n ≤ Z.of_nat (length buf) →
  npf_vsnprintf mem (Some buf) n (show_all ps) a =
    Done (len o, Some (take (Z.to_nat (n - 1)) o ++ 0 :: drop (S (Nat.min (Z.to_nat (n - 1)) (length o))) buf)).
Proof. apply vsnprintf_output. Qed.

(** The digits of a number fit into the conversion buffer, and they are the number. *)
Theorem npf_utoa_rev_spec {S} (s : S) base adj v : 8 ≤ base → 0 ≤ v < 2 ^ 64 →
  wp (npf_utoa_rev v base adj) (λ l s', s' = s ∧ (length l ≤ 22)%nat ∧ ∃ ds, l = reverse (digit_char adj <$> ds) ∧ value base ds = v ∧ Forall (λ d, 0 ≤ d < base) ds) s.
Proof.
  intros Hb Hv. apply wp_utoa; [lia|lia|]. split_and!; [done|rewrite length_reverse; by apply number_fits|]. exists (digits base v).
  split_and!; [done|apply numeral_value; lia|apply numeral_range; lia].
Qed.

(** A word and a number in several shapes. *)
Module NpfDemo.
Definition mem : gmap Z Z := {[100 := 104; 101 := 105; 102 := 0]}.
Definition list_pc (c : Z) (l : list Z) : outcome (unit * list Z) := Done (tt, l ++ [c]).
#[global] Instance list_sink : Sink list_pc (λ _, True) (λ l c, l ++ [c]).
Proof. done. Qed.
(** The format [%-*s|%+05d|%.2hhX%%]. *)
Definition pieces : list piece :=
  [Dir (mkDir true false false false Star Absent LEN_MOD_NONE l_s); Text [124]; Dir (mkDir false true true false (Lit 5) Absent LEN_MOD_NONE l_d); Text [124];
   Dir (mkDir false false false false Absent (Lit 2) LEN_MOD_CHAR l_X); Dir (mkDir false false false false Absent Absent LEN_MOD_NONE l_percent)].
Definition args : list Z := [4; 100; 42; 0x1fa].
Definition text : list Z := [104; 105; 32; 32; 124; 43; 48; 48; 52; 50; 124; 70; 65; 37].
Lemma pieces_ok : Forall piece_ok pieces.
Proof. repeat constructor; done. Qed.
Example format_text : show_all pieces = [37; 45; 42; 115; 124; 37; 48; 43; 53; 100; 124; 37; 46; 50; 104; 104; 88; 37; 37].
Proof. vm_compute. reflexivity. Qed.
(** The alternate form is not there: [%#018llx] is put out as it is, and the argument stays. *)
Example alternate_form : npf_vpprintf mem list_pc [37; 35; 48; 49; 56; 108; 108; 120] [4096] [] = Done (8, [37; 35; 48; 49; 56; 108; 108; 120]).
Proof. vm_compute. reflexivity. Qed.
(** A directive without an argument: the line of flags in [register_dump] has four and
    is given three. *)
Definition flags_line : list Z := [32; 32; 67; 70; 61; 37; 100; 32; 80; 70; 61; 37; 100; 32; 65; 70; 61; 37; 100; 32; 90; 70; 61; 37; 100; 10].
Example too_few : npf_vpprintf mem list_pc flags_line [0; 1; 0] [] = Fault.
Proof. vm_compute. reflexivity. Qed.
End NpfDemo.

Theorem npf_vpprintf_spec_witness :
  npf_vpprintf NpfDemo.mem NpfDemo.list_pc (show_all NpfDemo.pieces) NpfDemo.args [] = Done (i32 (len NpfDemo.text), foldl (λ l c, l ++ [c]) [] NpfDemo.text).
Proof.
  apply (npf_vpprintf_spec NpfDemo.mem NpfDemo.list_pc (λ _, True) (λ l c, l ++ [c])); [vm_compute; done|apply NpfDemo.pieces_ok|vm_compute; reflexivity|done].
Defined.
Theorem npf_vsnprintf_spec_witness :
  npf_vsnprintf NpfDemo.mem (Some (replicate 9 170)) 8 (show_all NpfDemo.pieces) NpfDemo.args = Done (14, Some [104; 105; 32; 32; 124; 43; 48; 0; 170]).
Proof.
  apply (npf_vsnprintf_spec NpfDemo.mem NpfDemo.pieces NpfDemo.args NpfDemo.text (replicate 9 170) 8); [vm_compute; done|apply NpfDemo.pieces_ok|vm_compute; reflexivity|vm_compute; done|vm_compute; done].
Defined.
