(* ===== verification/Log.v ===== *)
(** The log: [src/kernel/src/log/log.c], [log.h], [sink.c], [sink.h] and the sinks
    [sinks/e9.c], [sinks/uart16550.c] and [sinks/kterm.c].

    A sink is named by its address; its functions are constructors of [sink_write], and
    [flush] is there or not. What is written to ports is recorded in order; what the
    line status register of the serial port answers is the list [status], and when it
    ends the port never gets ready. The terminal is the model of [Kterm], the text of a
    message that of [Npf]. A pointer to characters is the list of the bytes that can be
    read from it: a byte behind it is a fault. *)
From S2P Require Import Prelude Sync Kterm Npf.

Definition LOG_LEVEL_DEBUG : Z := 0.
Definition LOG_LEVEL_INFO : Z := 1.
Definition LOG_LEVEL_WARN : Z := 2.
Definition LOG_LEVEL_ERROR : Z := 3.
Definition LOG_LEVEL_CRITICAL : Z := 4.
Definition UART_BASE : Z := 0x3f8.
Definition UART_THR : Z := 0.
Definition UART_DLL : Z := 0.
Definition UART_DLM : Z := 1.
Definition UART_IER : Z := 1.
Definition UART_FCR : Z := 2.
Definition UART_LCR : Z := 3.
Definition UART_LSR : Z := 5.
Definition UART_LSR_THRE : Z := 0x20.
Definition UART_LSR_TEMT : Z := 0x40.

(** The functions that write. *)
Inductive sink_write := e9_write | uart_write | kterm_write.
(** [log_sink_t]; [private], which nothing uses, is left out. *)
Record log_sink_t := mkSink {
  id : Z;
  level_mask : Z;
  sink_name : list Z;
  write : option sink_write;
  flush : bool;
  sink_next : Z;
}.
Definition sset_id v s := mkSink v (level_mask s) (sink_name s) (write s) (flush s) (sink_next s).
Definition sset_level_mask v s := mkSink (id s) v (sink_name s) (write s) (flush s) (sink_next s).
Definition sset_sink_name v s := mkSink (id s) (level_mask s) v (write s) (flush s) (sink_next s).
Definition sset_write v s := mkSink (id s) (level_mask s) (sink_name s) v (flush s) (sink_next s).
Definition sset_flush v s := mkSink (id s) (level_mask s) (sink_name s) (write s) v (sink_next s).
Definition sset_sink_next v s := mkSink (id s) (level_mask s) (sink_name s) (write s) (flush s) v.
(** The static variables, the flags register of the processor, the ports and the
    terminal. *)
Record log_state := mkLogState {
  sinks : gmap Z log_sink_t;
  sinks_head : Z;
  id_counter : Z;
  output_lock : spinlock_t;
  cpu_flags : Z;
  ports : list (Z * Z);
  status : list Z;
  term : term_state;
}.
Definition lput_sinks v s := mkLogState v (sinks_head s) (id_counter s) (output_lock s) (cpu_flags s) (ports s) (status s) (term s).
Definition lput_sinks_head v s := mkLogState (sinks s) v (id_counter s) (output_lock s) (cpu_flags s) (ports s) (status s) (term s).
Definition lput_id_counter v s := mkLogState (sinks s) (sinks_head s) v (output_lock s) (cpu_flags s) (ports s) (status s) (term s).
Definition lput_output_lock v s := mkLogState (sinks s) (sinks_head s) (id_counter s) v (cpu_flags s) (ports s) (status s) (term s).
Definition lput_cpu_flags v s := mkLogState (sinks s) (sinks_head s) (id_counter s) (output_lock s) v (ports s) (status s) (term s).
Definition lput_ports v s := mkLogState (sinks s) (sinks_head s) (id_counter s) (output_lock s) (cpu_flags s) v (status s) (term s).
Definition lput_status v s := mkLogState (sinks s) (sinks_head s) (id_counter s) (output_lock s) (cpu_flags s) (ports s) v (term s).
Definition lput_term v s := mkLogState (sinks s) (sinks_head s) (id_counter s) (output_lock s) (cpu_flags s) (ports s) (status s) v.

Local Abbreviation St := log_state.
Definition sink_load (p : Z) : M St log_sink_t := λ s, match sinks s !! p with Some x => Done (x, s) | None => Fault end.
Definition sink_store (p : Z) (f : log_sink_t → log_sink_t) : M St unit := λ s,
  match sinks s !! p with Some x => Done (tt, lput_sinks (<[p := f x]> (sinks s)) s) | None => Fault end.
Definition outb (port v : Z) : M St unit := modify (λ s, lput_ports (ports s ++ [(port, v)]) s).
(** [_inb(UART_BASE + UART_LSR)] *)
Definition inb_lsr : M St Z := λ s, match status s with [] => Hang | v :: r => Done (v, lput_status r s) end.
(** [data[i]] *)
Definition char_at (data : list Z) (i : Z) : M St Z := match data !! Z.to_nat i with Some c => mret c | None => fault end.

(** * The sinks *)

Definition e9_sink_write (data : list Z) (len : Z) : M St unit := for_n 0 (Z.to_nat len) (λ i, c ← char_at data i; outb 0xe9 c).

Definition wait_round (mask : Z) (_ : unit) : M St (unit + unit) :=
  v ← inb_lsr; mret (if flag v mask then inr tt else inl tt).
Definition uart_wait_for_status (mask : Z) : M St unit :=
  fuel ← gets (λ s, S (length (status s))); loop fuel (wait_round mask) tt.
Definition uart_putc (c : Z) : M St unit :=
  when (c =? 10) (uart_wait_for_status UART_LSR_THRE ;; outb (UART_BASE + UART_THR) 13) ;;
  uart_wait_for_status UART_LSR_THRE ;;
  outb (UART_BASE + UART_THR) c.
(** A negative [len] counts down past the end of any memory. *)
Definition uart_output_string (str : list Z) (len : Z) : M St unit :=
  if len <? 0 then fault else for_n 0 (Z.to_nat len) (λ i, c ← char_at str i; uart_putc c).
Definition uart_sink_write (data : list Z) (len : Z) : M St unit := uart_output_string data (i32 len).
Definition uart_sink_flush : M St unit := uart_wait_for_status (Z.lor UART_LSR_THRE UART_LSR_TEMT).

Section log.
Context (kfb : option limine_framebuffer) (me : Z).

Definition kterm_sink_write (data : list Z) (len : Z) : M St unit :=
  for_n 0 (Z.to_nat len) (λ i, c ← char_at data i; zoom term (λ t s, lput_term t s) (kterm_putc kfb c)).
Definition call_write (w : option sink_write) (data : list Z) (len : Z) : M St unit :=
  match w with
  | Some e9_write => e9_sink_write data len
  | Some uart_write => uart_sink_write data len
  | Some kterm_write => kterm_sink_write data len
  | None => fault
  end.

(** * [sink.c] *)

Definition register_round (sink curr : Z) : M St (Z + option Z) :=
  if curr =? 0 then mret (inr (Some 0)) else
  x ← sink_load curr;
  y ← sink_load sink;
  if id x =? id y then mret (inr None) else
  if sink_next x =? 0 then mret (inr (Some curr)) else
  mret (inl (sink_next x)).
Definition register_sink (sink : Z) : M St Z :=
  if sink =? 0 then mret (-1) else
  x ← sink_load sink;
  if negb (bool_decide (is_Some (write x))) || negb (flush x) then mret (-1) else
  n ← gets id_counter;
  modify (lput_id_counter (i32 (n + 1))) ;;
  sink_store sink (sset_id n) ;;
  sink_store sink (sset_sink_next 0) ;;
  h ← gets sinks_head;
  fuel ← gets (λ s, S (size (sinks s)));
  r ← loop fuel (register_round sink) h;
  match r with
  | None => mret (-1)
  | Some curr =>
      (if curr =? 0 then modify (lput_sinks_head sink) else sink_store curr (sset_sink_next sink)) ;;
      x ← sink_load sink;
      mret (id x)
  end.
Definition unregister_round (id_ : Z) (st : Z * Z) : M St (Z * Z + unit) :=
  let '(current, prev) := st in
  if current =? 0 then mret (inr tt) else
  x ← sink_load current;
  if id x =? id_ then
    (if prev =? 0 then modify (lput_sinks_head (sink_next x)) else sink_store prev (sset_sink_next (sink_next x))) ;;
    mret (inr tt)
  else mret (inl (sink_next x, current)).
Definition unregister_sink (id_ : Z) : M St unit :=
  h ← gets sinks_head;
  fuel ← gets (λ s, S (size (sinks s)));
  loop fuel (unregister_round id_) (h, 0).
Definition name_round (name_ : list Z) (current : Z) : M St (Z + Z) :=
  if current =? 0 then mret (inr (-1)) else
  x ← sink_load current;
  if bool_decide (sink_name x = name_) then mret (inr (id x)) else mret (inl (sink_next x)).
Definition get_id_by_name (name_ : list Z) : M St Z :=
  h ← gets sinks_head;
  fuel ← gets (λ s, S (size (sinks s)));
  loop fuel (name_round name_) h.

(** * Prefix, text and suffix *)

(** The escape sequences and words of the labels, each with the length that goes with
    it. *)
Definition esc_color (c : Z) : list Z := [27; 91; 49; 59; 51; c; 109].
Definition esc_reset : list Z := [27; 91; 48; 109].
Definition log_label_prefix (level : Z) : option (list Z * Z) :=
  if level =? LOG_LEVEL_DEBUG then Some (esc_color 53 ++ [100; 98; 103] ++ esc_reset ++ [58; 32; 32], 17) else
  if level =? LOG_LEVEL_INFO then Some (esc_color 52 ++ [105; 110; 102; 111] ++ esc_reset ++ [58; 32], 17) else
  if level =? LOG_LEVEL_WARN then Some (esc_color 51 ++ [119; 97; 114; 110] ++ esc_reset ++ [58; 32], 17) else
  if level =? LOG_LEVEL_ERROR then Some (esc_color 49 ++ [101; 114; 114] ++ esc_reset ++ [58; 32; 32], 17) else
  if level =? LOG_LEVEL_CRITICAL then Some (esc_color 49 ++ [99; 114; 105; 116; 58; 32; 32], 13) else
  None.
Definition log_label_suffix (level : Z) : option (list Z * Z) :=
  if level =? LOG_LEVEL_CRITICAL then Some (esc_reset, 4) else None.
Definition output_log_prefix (w : option sink_write) (level : Z) : M St unit :=
  match log_label_prefix level with Some (s, n) => call_write w (s ++ [0]) n | None => mret tt end.
Definition output_log_suffix (w : option sink_write) (level : Z) : M St unit :=
  match log_label_suffix level with Some (s, n) => call_write w (s ++ [0]) n | None => mret tt end.
Definition pretty_sink_write (sink : Z) (data : list Z) (len level : Z) : M St unit :=
  x ← sink_load sink; output_log_prefix (write x) level ;;
  x ← sink_load sink; call_write (write x) data len ;;
  x ← sink_load sink; output_log_suffix (write x) level.

Definition sink_round (data : list Z) (len level current : Z) : M St (Z + unit) :=
  if current =? 0 then mret (inr tt) else
  x ← sink_load current;
  when (flag (level_mask x) (i32 (Z.shiftl 1 level))) (pretty_sink_write current data len level) ;;
  x ← sink_load current;
  mret (inl (sink_next x)).
Definition log_to_sinks_unlocked (data : list Z) (len level : Z) : M St unit :=
  h ← gets sinks_head;
  fuel ← gets (λ s, S (size (sinks s)));
  loop fuel (sink_round data len level) h.
Definition with_lock (m : M (spinlock_t * Z) unit) : M St unit :=
  zoom (λ s, (output_lock s, cpu_flags s)) (λ p s, lput_cpu_flags p.2 (lput_output_lock p.1 s)) m.
Definition log_to_sinks (data : list Z) (len level : Z) : M St unit :=
  with_lock (spinlock_acquire me) ;;
  log_to_sinks_unlocked data len level ;;
  with_lock (spinlock_release me).

(** * [log] *)

(** [mem] is the memory that the arguments point to, [stack] what is in the buffer before. *)
Definition log (mem : gmap Z Z) (stack : list Z) (level : Z) (format args : list Z) : M St unit :=
  match npf_vsnprintf mem (Some stack) 1024 format args with
  | Done (len, Some buffer) =>
      if level =? LOG_LEVEL_CRITICAL then log_to_sinks_unlocked buffer (u64 len) level else log_to_sinks buffer (u64 len) level
  | Done (_, None) => fault
  | Fault => fault
  | Hang => hang
  end.

(** * Initialisation *)

Definition PRIMARY_EARLY_BOOT_SINK_LEVEL_MASK_FLAGS : Z := 31.
(** The sinks as they are declared. *)
Definition e9_sink : log_sink_t := mkSink (-1) PRIMARY_EARLY_BOOT_SINK_LEVEL_MASK_FLAGS [101; 57] (Some e9_write) true 0.
Definition uart_sink : log_sink_t := mkSink (-1) PRIMARY_EARLY_BOOT_SINK_LEVEL_MASK_FLAGS [117; 97; 114; 116; 49; 54; 53; 53; 48] (Some uart_write) true 0.
Definition kterm_sink : log_sink_t := mkSink (-1) 30 [107; 116; 101; 114; 109] (Some kterm_write) true 0.
(** Their addresses are the arguments. *)
Definition e9_sink_init (sink : Z) : M St Z := register_sink sink.
Definition kterm_sink_init (sink : Z) : M St Z := register_sink sink.
Definition uart_sink_init (sink : Z) : M St Z :=
  outb (UART_BASE + UART_IER) 0x00 ;;
  outb (UART_BASE + UART_LCR) 0x80 ;;
  outb (UART_BASE + UART_DLL) 0x01 ;;
  outb (UART_BASE + UART_DLM) 0x00 ;;
  outb (UART_BASE + UART_LCR) 0x03 ;;
  outb (UART_BASE + UART_FCR) 0x07 ;;
  register_sink sink.
End log.
