(* ===== verification/LogTheorems.v ===== *)
(** Sinks are registered once under their own number; a message gets to every sink that
    takes its level, labelled, whole and in order, unless it is too long. *)
From S2P Require Import Prelude SList Sync Kterm KtermTheorems Npf NpfSpec NpfTheorems Log.

#[local] Arguments loop : simpl never.
#[local] Arguments for_n : simpl never.

Implicit Types s : log_state.

(** * The list of sinks *)

Definition sink_links s (p : Z) : option Z := sink_next <$> sinks s !! p.
Definition sinks_are s (l : list Z) : Prop := chain (sink_links s) (sinks_head s) l.
Definition id_of s (p : Z) : option Z := id <$> sinks s !! p.
(** The sinks [l] are registered; their numbers are different, and were all given out. *)
Record log_inv s (l : list Z) : Prop := {
  li_sinks : sinks_are s l;
  li_ids : ∀ p q, p ∈ l → q ∈ l → id_of s p = id_of s q → p = q;
  li_below : ∀ p i, p ∈ l → id_of s p = Some i → i < id_counter s;
}.

Lemma wp_sink_load s p x (Q : log_sink_t → log_state → Prop) : sinks s !! p = Some x → Q x s → wp (sink_load p) Q s.
Proof. unfold wp, sink_load. by intros ->. Qed.
Lemma wp_sink_store s p x f (Q : unit → log_state → Prop) : sinks s !! p = Some x → Q tt (lput_sinks (<[p := f x]> (sinks s)) s) → wp (sink_store p f) Q s.
Proof. unfold wp, sink_store. by intros ->. Qed.
Lemma sinks_member s l p : sinks_are s l → p ∈ l → p ≠ 0 ∧ ∃ x, sinks s !! p = Some x.
Proof.
  intros Hl Hp. split; [by eapply chain_ne0|]. destruct (chain_is_Some _ _ _ _ Hl Hp) as [n Hn]. unfold sink_links in Hn. destruct (sinks s !! p) as [x|]; [by exists x|done].
Qed.
Lemma sinks_size s l : sinks_are s l → (length l < S (size (sinks s)))%nat.
Proof. intros Hl. apply Nat.lt_succ_r. by eapply (chain_size (sinks s) sink_next). Qed.

(** The walk to the end of the list. *)
Lemma wp_register_walk s l p y (Q : option Z → log_state → Prop) :
  sinks_are s l → sinks s !! p = Some y → (∀ q, q ∈ l → id_of s q ≠ Some (id y)) →
  Q (Some (default 0 (last l))) s → wp (loop (S (size (sinks s))) (register_round p) (sinks_head s)) Q s.
Proof.
  intros Hl Hy Hid HQ.
  apply (wp_loop (λ n c s', s' = s ∧ ∃ l1 l2, l = l1 ++ l2 ∧ n = length l2 ∧ chain (sink_links s) c l2 ∧ (l2 = [] → l = [])) _ _ (length l)); [by apply sinks_size| |].
  { split; [done|]. by exists [], l. }
  intros n c s' (-> & l1 & l2 & -> & -> & Hc & Hnil). unfold register_round. destruct l2 as [|a l2].
  - simpl in Hc. subst c. apply wp_ret. by rewrite (Hnil eq_refl) in HQ.
  - destruct Hc as (-> & Ha & m & Hm & Hc). rewrite (proj2 (Z.eqb_neq _ _) Ha). assert (a ∈ l1 ++ a :: l2) as Hin by set_solver.
    unfold sink_links in Hm. destruct (sinks s !! a) as [x|] eqn:Hx; [|done]. injection Hm as <-.
    apply wp_bind. eapply wp_sink_load; [done|]. apply wp_bind. eapply wp_sink_load; [done|].
    specialize (Hid a Hin). unfold id_of in Hid. rewrite Hx in Hid. rewrite (proj2 (Z.eqb_neq (id x) (id y))) by (intros E; apply Hid; cbn; by rewrite E).
    destruct l2 as [|b l2].
    + simpl in Hc. rewrite (proj2 (Z.eqb_eq _ _) Hc). apply wp_ret. by rewrite last_snoc in HQ.
    + pose proof Hc as (Hb & Hb0 & _). rewrite (proj2 (Z.eqb_neq _ _)) by congruence. apply wp_ret. exists (length (b :: l2)). split; [simpl; lia|]. split; [done|].
      exists (l1 ++ [a]), (b :: l2). rewrite <-app_assoc. by split_and!.
Qed.
(** Adding at the end of a chain. *)
Lemma sink_chain_snoc nx nx' h l p : chain nx h l → p ≠ 0 → nx' p = Some 0 → p ∉ l →
  (∀ a, a ∈ l → nx' a = if decide (last l = Some a) then Some p else nx a) → chain nx' (match l with [] => p | _ => h end) (l ++ [p]).
Proof.
  intros Hc Hp Hnp Hin Hx. pose proof (slist_nodup _ _ _ Hc) as Hnd. revert h Hc. induction l as [|a l IH]; intros h Hc; simpl.
  - split_and!; [done|done|]. by exists 0.
  - destruct Hc as (-> & Ha & n & Hn & Hc). split_and!; [done|done|]. apply NoDup_cons in Hnd as [Hna Hnd]. destruct l as [|b l].
    + exists p. split; [rewrite Hx by set_solver; by rewrite decide_True|]. simpl. split_and!; [done|done|]. by exists 0.
    + exists n. split.
      * rewrite Hx by set_solver. rewrite decide_False; [done|]. intros Hl. change (last (b :: l) = Some a) in Hl. apply last_Some_elem_of in Hl. done.
      * assert (n = b) as -> by (by destruct Hc as (-> & _)). apply IH; [set_solver|intros c Hcl; rewrite Hx by (by right); done|done|done].
Qed.

(** A sink that is not registered gets the next number and is at the end of the list,
    the other sinks stay as they are, and numbers stay different. *)
Theorem register_sink_spec s l p x :
  log_inv s l → p ∉ l → p ≠ 0 → sinks s !! p = Some x → is_Some (write x) → flush x = true → - 2 ^ 31 ≤ id_counter s < 2 ^ 31 - 1 →
  wp (register_sink p) (λ r s', r = id_counter s ∧ log_inv s' (l ++ [p]) ∧ id_of s' p = Some r ∧
    (∀ q y, q ≠ p → sinks s !! q = Some y → sinks s' !! q = Some (if decide (last l = Some q) then sset_sink_next p y else y))) s.
Proof.
  intros [Hl Hids Hbelow] Hp Hp0 Hx Hw Hf Hn. unfold register_sink. rewrite (proj2 (Z.eqb_neq _ _) Hp0). apply wp_bind. eapply wp_sink_load; [done|].
  rewrite (bool_decide_true _ Hw), Hf. cbn [negb orb]. apply wp_bind, wp_gets, wp_bind, wp_modify, wp_bind. eapply wp_sink_store; [exact Hx|]. apply wp_bind.
  eapply wp_sink_store; [apply lookup_insert_eq|]. set (y := sset_sink_next 0 (sset_id (id_counter s) x)). match goal with |- wp _ _ ?t => set (s1 := t) end.
  apply wp_bind, wp_gets, wp_bind, wp_gets.
  assert (sinks s1 = <[p := y]> (sinks s)) as Hs1 by (unfold s1; cbn; by rewrite insert_insert_eq). assert (sinks s1 !! p = Some y) as Hy by (rewrite Hs1; apply lookup_insert_eq).
  assert (∀ q, q ≠ p → sinks s1 !! q = sinks s !! q) as Hne by (intros q Hq; rewrite Hs1; by apply lookup_insert_ne).
  assert (∀ q, q ∈ l → q ≠ p) as Hlp by (intros q Hq ->; done).
  assert (sinks_are s1 l) as Hl1 by (eapply chain_ext; [|exact Hl]; intros a Ha; unfold sink_links; by rewrite Hne by auto).
  assert (sinks_head s1 = sinks_head s ∧ id_counter s1 = id_counter s + 1) as [Hh Hc] by (unfold s1; cbn; rewrite i32_id by lia; done).
  assert (∀ q, q ≠ p → id_of s1 q = id_of s q) as Hid1 by (intros q Hq; unfold id_of; by rewrite Hne).
  clearbody s1. apply wp_bind. eapply (wp_register_walk s1 l p y); [done|done| |].
  { intros q Hq. rewrite Hid1 by auto. intros E. specialize (Hbelow q _ Hq E). cbn in Hbelow. lia. }
  set (lst := default 0 (last l)). apply wp_bind.
  set (s2 := if lst =? 0 then lput_sinks_head p s1 else match sinks s1 !! lst with Some z => lput_sinks (<[lst := sset_sink_next p z]> (sinks s1)) s1 | None => s1 end).
  assert (l = [] ∧ lst = 0 ∨ lst ∈ l ∧ last l = Some lst ∧ lst ≠ 0) as Hlst.
  { unfold lst. destruct (last l) as [q|] eqn:Hq; [right|left; by apply last_None in Hq]. cbn. apply last_Some_elem_of in Hq as Hin. split_and!; [done|done|by eapply sinks_member]. }
  apply (wp_mono _ (λ _ s', s' = s2)).
  { unfold s2. destruct Hlst as [[_ ->]|(Hin & _ & H0)]; [by apply wp_modify|]. rewrite (proj2 (Z.eqb_neq _ _) H0). destruct (sinks_member _ _ _ Hl1 Hin) as [_ [z Hz]]. rewrite Hz. by eapply wp_sink_store. }
  intros [] s' ->.
  assert (∀ q, sinks s2 !! q = if decide (last l = Some q) then sset_sink_next p <$> sinks s1 !! q else sinks s1 !! q) as Hs2.
  { intros q. unfold s2. destruct Hlst as [[-> ->]|(Hin & -> & H0)]; [done|]. rewrite (proj2 (Z.eqb_neq _ _) H0). destruct (sinks_member _ _ _ Hl1 Hin) as [_ [z Hz]]. rewrite Hz. cbn [sinks lput_sinks].
    destruct (decide (Some lst = Some q)) as [[= <-]|Hq]; [by rewrite lookup_insert_eq, Hz|]. apply lookup_insert_ne. congruence. }
  assert (last l ≠ Some p) as Hlast by (intros E%last_Some_elem_of; done). assert (sinks s2 !! p = Some y) as Hy2 by (rewrite Hs2, decide_False by done; done).
  assert (∀ q, id_of s2 q = id_of s1 q) as Hid2 by (intros q; unfold id_of; rewrite Hs2; destruct (decide _); [|done]; by destruct (sinks s1 !! q)).
  assert (id_counter s2 = id_counter s1) as Hc2 by (unfold s2; destruct (lst =? 0); [done|]; by destruct (sinks s1 !! lst)).
  apply wp_bind. eapply wp_sink_load; [done|]. apply wp_ret. split_and!; [done| |unfold id_of; by rewrite Hy2|].
  - assert (id_of s2 p = Some (id_counter s)) as Hidp by (unfold id_of; by rewrite Hy2).
    assert (∀ q, q ∈ l → id_of s2 q = id_of s q) as Hidl by (intros q Hq; rewrite Hid2; auto). split.
    + assert (sinks_head s2 = match l with [] => p | _ => sinks_head s1 end) as Hh2.
      { unfold s2. destruct Hlst as [[-> ->]|(Hin & _ & H0)]; [done|]. rewrite (proj2 (Z.eqb_neq _ _) H0). destruct l; [set_solver|]. by destruct (sinks s1 !! lst). }
      unfold sinks_are. rewrite Hh2. apply (sink_chain_snoc (sink_links s1)); [done|done|unfold sink_links; by rewrite Hy2|done|].
      intros a Ha. unfold sink_links. rewrite Hs2. destruct (decide (last l = Some a)) as [E|]; [|done]. destruct (sinks_member _ _ _ Hl1 Ha) as [_ [z ->]]. done.
    + intros q q' [Hq| ->%list_elem_of_singleton]%elem_of_app [Hq'| ->%list_elem_of_singleton]%elem_of_app; [| | |done].
      * rewrite (Hidl q Hq), (Hidl q' Hq'). by apply Hids.
      * rewrite (Hidl q Hq), Hidp. intros E. specialize (Hbelow q _ Hq E). lia.
      * rewrite Hidp, (Hidl q' Hq'). intros E. symmetry in E. specialize (Hbelow q' _ Hq' E). lia.
    + rewrite Hc2, Hc. intros q i [Hq| ->%list_elem_of_singleton]%elem_of_app Hi; [rewrite Hidl in Hi by done; specialize (Hbelow q i Hq Hi); lia|].
      rewrite Hidp in Hi. injection Hi as <-. lia.
  - intros q z Hq Hz. rewrite Hs2, Hne, Hz by done. by destruct (decide _).
Qed.

Lemma filter_all {A} (P : A → Prop) `{∀ x, Decision (P x)} (l : list A) : (∀ x, x ∈ l → P x) → filter P l = l.
Proof. induction l as [|x l IH]; intros H'; [done|]. rewrite filter_cons_True by (apply H'; by left). rewrite IH; [done|]. intros y Hy. apply H'. by right. Qed.
(** A sink's number takes it out of the list, and nothing else. *)
Theorem unregister_sink_spec s l i : log_inv s l →
  wp (unregister_sink i) (λ _ s', log_inv s' (filter (λ p, id_of s p ≠ Some i) l) ∧ ∀ p, id_of s' p = id_of s p) s.
Proof.
  intros Hinv. pose proof Hinv as [Hl Hids Hbelow]. apply wp_bind, wp_gets, wp_bind, wp_gets.
  apply (wp_loop (λ n '(c, prev) s', s' = s ∧ ∃ l1 l2, l = l1 ++ l2 ∧ n = length l2 ∧ chain (sink_links s) c l2 ∧ prev = default 0 (last l1) ∧ Forall (λ p, id_of s p ≠ Some i) l1) _ _ (length l)).
  - by apply sinks_size.
  - split; [done|]. by exists [], l.
  - intros n [c prev] s' (-> & l1 & l2 & -> & -> & Hc & -> & Hl1). unfold unregister_round. destruct l2 as [|a l2].
    + simpl in Hc. subst c. apply wp_ret. rewrite app_nil_r in *. rewrite filter_all; [done|]. by rewrite Forall_forall in Hl1.
    + destruct Hc as (-> & Ha & m & Hm & Hc). rewrite (proj2 (Z.eqb_neq _ _) Ha). assert (a ∈ l1 ++ a :: l2) as Hin by set_solver.
      unfold sink_links in Hm. destruct (sinks s !! a) as [x|] eqn:Hx; [|done]. injection Hm as <-. apply wp_bind. eapply wp_sink_load; [done|].
      assert (id_of s a = Some (id x)) as Hida by (unfold id_of; by rewrite Hx). destruct (Z.eqb_spec (id x) i) as [Hi|Hi].
      2:{ apply wp_ret. exists (length l2). split; [simpl; lia|]. split; [done|]. exists (l1 ++ [a]), l2. rewrite <-app_assoc, last_snoc. split_and!; [done..|].
          apply Forall_app. split; [done|]. constructor; [|constructor]. rewrite Hida. congruence. }
      subst i. pose proof (slist_nodup _ _ _ Hl) as Hnd.
      assert (filter (λ p, id_of s p ≠ Some (id x)) (l1 ++ a :: l2) = l1 ++ l2) as Hfl.
      { rewrite filter_app, filter_cons_False by (rewrite Hida; tauto). rewrite !filter_all; [done| |by rewrite Forall_forall in Hl1].
        intros q Hq Hqi. rewrite <-Hida in Hqi. apply Hids in Hqi; [|set_solver|done]. subst q. apply NoDup_app in Hnd as (_ & _ & Hnd). by apply NoDup_cons in Hnd as [? _]. }
      rewrite Hfl. set (prev := default 0 (last l1)).
      set (s2 := if prev =? 0 then lput_sinks_head (sink_next x) s else match sinks s !! prev with Some z => lput_sinks (<[prev := sset_sink_next (sink_next x) z]> (sinks s)) s | None => s end).
      assert (l1 = [] ∧ prev = 0 ∨ prev ∈ l1 ∧ last l1 = Some prev ∧ prev ≠ 0) as Hprev.
      { unfold prev. destruct (last l1) as [q|] eqn:Hq; [right|left; by apply last_None in Hq]. cbn. apply last_Some_elem_of in Hq as Hq'. split_and!; [done|done|]. eapply sinks_member; [exact Hl|set_solver]. }
      apply wp_bind, (wp_mono _ (λ _ s', s' = s2)).
      { unfold s2. destruct Hprev as [[_ ->]|(Hp & _ & H0)]; [by apply wp_modify|]. rewrite (proj2 (Z.eqb_neq _ _) H0). destruct (sinks_member _ _ prev Hl) as [_ [z Hz]]; [set_solver|]. rewrite Hz. by eapply wp_sink_store. }
      intros [] s' ->. apply wp_ret.
      assert (∀ q, sinks s2 !! q = if decide (last l1 = Some q) then sset_sink_next (sink_next x) <$> sinks s !! q else sinks s !! q) as Hs2.
      { intros q. unfold s2. destruct Hprev as [[-> ->]|(Hp & -> & H0)]; [done|]. rewrite (proj2 (Z.eqb_neq _ _) H0). destruct (sinks_member _ _ prev Hl) as [_ [z Hz]]; [set_solver|]. rewrite Hz. cbn [sinks lput_sinks].
        destruct (decide (Some prev = Some q)) as [[= <-]|Hq]; [by rewrite lookup_insert_eq, Hz|]. apply lookup_insert_ne. congruence. }
      assert (∀ p, id_of s2 p = id_of s p) as Hid2 by (intros q; unfold id_of; rewrite Hs2; destruct (decide _); [|done]; by destruct (sinks s !! q)).
      split; [|done]. split.
      * assert (sinks_head s2 = match l1 with [] => sink_next x | _ => sinks_head s end) as Hh.
        { unfold s2. destruct Hprev as [[-> ->]|(Hp & _ & H0)]; [done|]. rewrite (proj2 (Z.eqb_neq _ _) H0). destruct l1; [set_solver|]. by destruct (sinks s !! prev). }
        unfold sinks_are. rewrite Hh. apply (chain_remove (sink_links s) _ _ l1 a l2 (sink_next x)); [done|unfold sink_links; by rewrite Hx| |].
        -- intros q Hq E. unfold sink_links. rewrite Hs2, decide_True by done. destruct (sinks_member _ _ q Hl) as [_ [z ->]]; [set_solver|done].
        -- intros q Hq E. unfold sink_links. by rewrite Hs2, decide_False.
      * intros p q Hp Hq. rewrite !Hid2. apply Hids; set_solver.
      * assert (id_counter s2 = id_counter s) as -> by (unfold s2; destruct (prev =? 0); [done|]; by destruct (sinks s !! prev)).
        intros p i Hp. rewrite Hid2. apply Hbelow. set_solver.
Qed.

(** * Delivery *)

(** [n] times the serial port is asked until it is ready. *)
Inductive waits : nat → list Z → list Z → Prop :=
  | waits_0 r : waits 0 r r
  | waits_busy n v a r : flag v UART_LSR_THRE = false → waits (S n) a r → waits (S n) (v :: a) r
  | waits_ready n v a r : flag v UART_LSR_THRE = true → waits n a r → waits (S n) (v :: a) r.
(** A line feed goes out as a carriage return and a line feed. *)
Definition uart_bytes (t : list Z) : list Z := t ≫= λ c, if c =? 10 then [13; 10] else [c].

Section delivery.
Context (kfb : option limine_framebuffer) (me : Z).

(** The text [t] has been given to a sink. *)
Definition deliver (w : sink_write) (t : list Z) s s' : Prop :=
  match w with
  | e9_write => s' = lput_ports (ports s ++ (pair 0xe9 <$> t)) s
  | uart_write => ∃ r, waits (length (uart_bytes t)) (status s) r ∧ s' = lput_status r (lput_ports (ports s ++ (pair 0x3f8 <$> uart_bytes t)) s)
  | kterm_write => ∃ tm, for_each t (kterm_putc kfb) (term s) = Done (tt, tm) ∧ s' = lput_term tm s
  end.
Lemma deliver_frame w t s s' : deliver w t s s' → sinks s' = sinks s ∧ sinks_head s' = sinks_head s ∧ output_lock s' = output_lock s ∧ cpu_flags s' = cpu_flags s.
Proof. destruct w; cbn; [by intros ->|by intros (r & _ & ->)|by intros (tm & _ & ->)]. Qed.
(** The lock does not matter to the sinks. *)
Lemma deliver_lock w t s s' a b : deliver w t s s' → deliver w t (lput_cpu_flags a (lput_output_lock b s)) (lput_cpu_flags a (lput_output_lock b s')).
Proof. destruct w; cbn; [by intros ->|intros (r & ? & ->); by exists r|intros (tm & ? & ->); by exists tm]. Qed.

(** A loop over the first characters of [data]. *)
Lemma wp_chars t rest (body : Z → M log_state unit) pre s (Q : unit → log_state → Prop) :
  wp (for_each t body) Q s → wp (for_n (Z.of_nat (length pre)) (length t) (λ i, c ← char_at (pre ++ t ++ rest) i; body c)) Q s.
Proof.
  revert pre s. induction t as [|c t IH]; intros pre s HQ; [exact HQ|]. cbn [for_each] in HQ. apply wp_bind_inv in HQ.
  unfold for_n. cbn [length]. fold (@for_n log_state). apply wp_bind, wp_bind. unfold char_at at 1. cbn [app]. rewrite Nat2Z.id, list_lookup_middle by done. apply wp_ret.
  eapply wp_mono; [exact HQ|]. intros [] s' Hs'. specialize (IH (pre ++ [c]) s' Hs'). rewrite length_app, <-app_assoc in IH. cbn [length app] in IH.
  by replace (Z.of_nat (length pre) + 1) with (Z.of_nat (length pre + 1)) by lia.
Qed.
Lemma wp_uart_wait n s r (Q : unit → log_state → Prop) : waits (S n) (status s) r →
  (∀ a, waits n a r → Q tt (lput_status a s)) → wp (uart_wait_for_status UART_LSR_THRE) Q s.
Proof.
  intros Hw HQ. apply wp_bind, wp_gets. remember (status s) as a eqn:Ha. assert (s = lput_status a s) as Hs by (subst a; by destruct s). rewrite Hs. clear Ha Hs.
  remember (S n) as m eqn:Hm. revert n Hm HQ. induction Hw as [r|m v a r Hv Hw IH|m v a r Hv Hw IH]; intros n Hm HQ; [done| |].
  - cbn [length]. unfold loop. fold (@loop log_state). apply wp_bind, wp_bind. unfold wp at 1, inb_lsr. cbn [status lput_status]. rewrite Hv. apply wp_ret. by eapply IH.
  - cbn [length]. unfold loop. fold (@loop log_state). apply wp_bind, wp_bind. unfold wp at 1, inb_lsr. cbn [status lput_status]. rewrite Hv. apply wp_ret, wp_ret. injection Hm as ->. by apply HQ.
Qed.
Lemma wp_uart_text t s r (Q : unit → log_state → Prop) :
  waits (length (uart_bytes t)) (status s) r → Q tt (lput_status r (lput_ports (ports s ++ (pair 0x3f8 <$> uart_bytes t)) s)) → wp (for_each t uart_putc) Q s.
Proof.
  revert s. induction t as [|c t IH]; intros s Hw HQ.
  - inversion Hw as [r' E1 E2|? ? ? ? ? ? E|? ? ? ? ? ? E]; subst. apply wp_ret. cbn in HQ. rewrite app_nil_r in HQ. by destruct s.
  - cbn [for_each]. change (uart_bytes (c :: t)) with ((if c =? 10 then [13; 10] else [c]) ++ uart_bytes t) in *. unfold uart_putc at 1. apply wp_bind, wp_bind.
    destruct (Z.eqb_spec c 10) as [->|]; cbn [when app length] in *.
    + apply wp_bind. eapply wp_uart_wait; [exact Hw|]. intros a Hw2. apply wp_modify, wp_bind. eapply wp_uart_wait; [exact Hw2|]. intros a' Hw3. apply wp_modify.
      apply IH; [exact Hw3|]. cbn [ports lput_ports lput_status] in *. rewrite <-!app_assoc. exact HQ.
    + apply wp_ret, wp_bind. eapply wp_uart_wait; [exact Hw|]. intros a Hw2. apply wp_modify. apply IH; [exact Hw2|]. cbn [ports lput_ports lput_status] in *. rewrite <-!app_assoc. exact HQ.
Qed.
Lemma wp_e9_text t s (Q : unit → log_state → Prop) : Q tt (lput_ports (ports s ++ (pair 0xe9 <$> t)) s) → wp (for_each t (outb 0xe9)) Q s.
Proof.
  revert s. induction t as [|c t IH]; intros s HQ; cbn [for_each].
  - apply wp_ret. cbn in HQ. rewrite app_nil_r in HQ. by destruct s.
  - apply wp_bind, wp_modify, IH. cbn [ports lput_ports]. rewrite <-app_assoc. exact HQ.
Qed.
Lemma wp_kterm_text t s tm (Q : unit → log_state → Prop) : for_each t (kterm_putc kfb) (term s) = Done (tt, tm) → Q tt (lput_term tm s) →
  wp (for_each t (λ c, zoom term (λ t s, lput_term t s) (kterm_putc kfb c))) Q s.
Proof.
  revert s. induction t as [|c t IH]; intros s Ht HQ; cbn [for_each] in *.
  - injection Ht as <-. apply wp_ret. by destruct s.
  - apply wp_bind. unfold mbind, M_bind in Ht. unfold wp, zoom. destruct (kterm_putc kfb c (term s)) as [[[] t1]| |]; [|done..]. apply (IH (lput_term t1 s)); [exact Ht|exact HQ].
Qed.
Lemma wp_call_write w t rest s s' (Q : unit → log_state → Prop) : deliver w t s s' → len t < 2 ^ 31 → Q tt s' → wp (call_write kfb (Some w) (t ++ rest) (len t)) Q s.
Proof.
  intros Hd Ht HQ. assert (Z.to_nat (len t) = length t) as Hlen by (unfold len; lia). assert (0 ≤ len t) by (unfold len; lia). destruct w; cbn [deliver call_write] in *.
  - unfold e9_sink_write. rewrite Hlen. apply (wp_chars t rest (outb 0xe9) []), wp_e9_text. by subst s'.
  - destruct Hd as (r & Hr & ->). unfold uart_sink_write, uart_output_string. rewrite i32_id, (proj2 (Z.ltb_ge _ _)), Hlen by lia. apply (wp_chars t rest uart_putc []). by eapply wp_uart_text.
  - destruct Hd as (tm & Htm & ->). unfold kterm_sink_write. rewrite Hlen. apply (wp_chars t rest _ []). by eapply wp_kterm_text.
Qed.
Lemma waits_app n m a r : waits (n + m) a r → ∃ b, waits n a b ∧ waits m b r.
Proof.
  remember (n + m)%nat as k eqn:Hk. intros Hw. revert n Hk. induction Hw as [r|k v a r Hv Hw IH|k v a r Hv Hw IH]; intros n Hk.
  - assert (n = 0%nat ∧ m = 0%nat) as [-> ->] by lia. exists r. by split; constructor.
  - destruct n as [|n]; [cbn in Hk; subst m; exists (v :: a); split; [constructor|by constructor]|]. destruct (IH (S n)) as (b & H1 & H2); [done|]. exists b. split; [by constructor|done].
  - destruct n as [|n]; [cbn in Hk; subst m; exists (v :: a); split; [constructor|by constructor]|]. destruct (IH n) as (b & H1 & H2); [lia|]. exists b. split; [by apply waits_ready|done].
Qed.
Lemma for_each_app_inv {A} (l1 l2 : list A) (body : A → M term_state unit) t t' : for_each (l1 ++ l2) body t = Done (tt, t') → ∃ t1, for_each l1 body t = Done (tt, t1) ∧ for_each l2 body t1 = Done (tt, t').
Proof.
  revert t. induction l1 as [|a l1 IH]; intros t H; cbn [for_each app] in *; [by exists t|]. unfold mbind, M_bind in *. destruct (body a t) as [[[] t1]| |]; [|done..]. by apply IH.
Qed.
(** Text may be given in parts. *)
Lemma deliver_app w t1 t2 s s' : deliver w (t1 ++ t2) s s' → ∃ s1, deliver w t1 s s1 ∧ deliver w t2 s1 s'.
Proof.
  destruct w; cbn [deliver].
  - intros ->. eexists. split; [done|]. rewrite fmap_app, app_assoc. done.
  - intros (r & Hr & ->). unfold uart_bytes in *. rewrite bind_app in *. rewrite length_app in Hr. apply waits_app in Hr as (b & H1 & H2).
    eexists. split; [by exists b|]. exists r. split; [done|]. cbn [ports lput_ports lput_status]. by rewrite fmap_app, app_assoc.
  - intros (tm & Ht & ->). apply for_each_app_inv in Ht as (t & H1 & H2). eexists. split; [by exists t|]. exists tm. by split.
Qed.

(** * Messages *)

Definition label_prefix (level : Z) : list Z := match log_label_prefix level with Some (p, n) => take (Z.to_nat n) p | None => [] end.
Definition label_suffix (level : Z) : list Z := match log_label_suffix level with Some (p, n) => take (Z.to_nat n) p | None => [] end.
(** What a sink gets of a message. *)
Definition labelled (level : Z) (o : list Z) : list Z := label_prefix level ++ o ++ label_suffix level.
(** The sinks [l] that take the level have got the message, one after the other. *)
Inductive delivered (level : Z) (o : list Z) : list Z → log_state → log_state → Prop :=
  | delivered_nil s : delivered level o [] s s
  | delivered_skip p l s s' x : sinks s !! p = Some x → flag (level_mask x) (i32 (Z.shiftl 1 level)) = false → delivered level o l s s' → delivered level o (p :: l) s s'
  | delivered_cons p l s s1 s' x w : sinks s !! p = Some x → flag (level_mask x) (i32 (Z.shiftl 1 level)) = true → write x = Some w →
      deliver w (labelled level o) s s1 → delivered level o l s1 s' → delivered level o (p :: l) s s'.

Lemma deliver_nil w s s' : deliver w [] s s' → s' = s.
Proof.
  destruct w; cbn.
  - intros ->. rewrite app_nil_r. by destruct s.
  - intros (r & Hr & ->). inversion Hr as [r' E1 E2|? ? ? ? ? ? E|? ? ? ? ? ? E]; subst. rewrite app_nil_r. by destruct s.
  - intros (tm & [= <-] & ->). by destruct s.
Qed.
Lemma prefix_write level w s s' (Q : unit → log_state → Prop) : deliver w (label_prefix level) s s' → Q tt s' → wp (output_log_prefix kfb (Some w) level) Q s.
Proof.
  unfold output_log_prefix, label_prefix, log_label_prefix. intros Hd HQ.
  destruct (level =? LOG_LEVEL_DEBUG); [exact (wp_call_write w _ [0] s s' Q Hd eq_refl HQ)|]. destruct (level =? LOG_LEVEL_INFO); [exact (wp_call_write w _ [0] s s' Q Hd eq_refl HQ)|].
  destruct (level =? LOG_LEVEL_WARN); [exact (wp_call_write w _ [0] s s' Q Hd eq_refl HQ)|]. destruct (level =? LOG_LEVEL_ERROR); [exact (wp_call_write w _ [0] s s' Q Hd eq_refl HQ)|].
  destruct (level =? LOG_LEVEL_CRITICAL); [exact (wp_call_write w _ [32; 0] s s' Q Hd eq_refl HQ)|]. apply deliver_nil in Hd as ->. by apply wp_ret.
Qed.
Lemma suffix_write level w s s' (Q : unit → log_state → Prop) : deliver w (label_suffix level) s s' → Q tt s' → wp (output_log_suffix kfb (Some w) level) Q s.
Proof.
  unfold output_log_suffix, label_suffix, log_label_suffix. intros Hd HQ.
  destruct (level =? LOG_LEVEL_CRITICAL); [exact (wp_call_write w _ [0] s s' Q Hd eq_refl HQ)|]. apply deliver_nil in Hd as ->. by apply wp_ret.
Qed.
Lemma wp_pretty p x w level o rest s s' (Q : unit → log_state → Prop) :
  sinks s !! p = Some x → write x = Some w → deliver w (labelled level o) s s' → len o < 2 ^ 31 → Q tt s' → wp (pretty_sink_write kfb p (o ++ rest) (len o) level) Q s.
Proof.
  intros Hx Hw Hd Hlen HQ. unfold labelled in Hd. apply deliver_app in Hd as (s1 & Hd1 & Hd). apply deliver_app in Hd as (s2 & Hd2 & Hd3).
  destruct (deliver_frame _ _ _ _ Hd1) as (E1 & _). destruct (deliver_frame _ _ _ _ Hd2) as (E2 & _).
  apply wp_bind. eapply wp_sink_load; [done|]. rewrite Hw. apply wp_bind. eapply prefix_write; [done|]. apply wp_bind. eapply wp_sink_load; [by rewrite E1|]. rewrite Hw.
  apply wp_bind. eapply wp_call_write; [done|done|]. apply wp_bind. eapply wp_sink_load; [by rewrite E2, E1|]. rewrite Hw. by eapply suffix_write.
Qed.
Lemma delivered_frame level o l s s' : delivered level o l s s' → sinks s' = sinks s ∧ sinks_head s' = sinks_head s ∧ output_lock s' = output_lock s ∧ cpu_flags s' = cpu_flags s.
Proof.
  induction 1 as [s|p l s s' x Hx Hm Hd IH|p l s s1 s' x w Hx Hm Hw Hd1 Hd IH]; [done|done|]. destruct (deliver_frame _ _ _ _ Hd1) as (? & ? & ? & ?). destruct IH as (? & ? & ? & ?). split_and!; congruence.
Qed.
Lemma delivered_lock level o l s s' a b : delivered level o l s s' → delivered level o l (lput_cpu_flags a (lput_output_lock b s)) (lput_cpu_flags a (lput_output_lock b s')).
Proof.
  induction 1 as [s|p l s s' x Hx Hm Hd IH|p l s s1 s' x w Hx Hm Hw Hd1 Hd IH].
  - constructor.
  - by eapply delivered_skip.
  - eapply delivered_cons; [done|done|done|by apply deliver_lock|done].
Qed.
Lemma wp_log_to_sinks_unlocked level o rest l s s' (Q : unit → log_state → Prop) :
  sinks_are s l → delivered level o l s s' → len o < 2 ^ 31 → Q tt s' → wp (log_to_sinks_unlocked kfb (o ++ rest) (len o) level) Q s.
Proof.
  intros Hl Hd Hlen HQ. apply wp_bind, wp_gets, wp_bind, wp_gets.
  apply (wp_loop (λ n c s1, sinks s1 = sinks s ∧ ∃ l2, n = length l2 ∧ chain (sink_links s) c l2 ∧ delivered level o l2 s1 s') _ _ (length l)); [by apply sinks_size| |].
  { split; [done|]. by exists l. }
  intros n c s1 (Es & l2 & -> & Hc & Hd2). unfold sink_round. destruct l2 as [|p l2].
  - simpl in Hc. subst c. apply wp_ret. inversion Hd2; subst. exact HQ.
  - destruct Hc as (-> & Hp & m & Hm & Hc). rewrite (proj2 (Z.eqb_neq _ _) Hp). unfold sink_links in Hm. 
    inversion Hd2 as [|? ? ? ? x Hx Hmask Hd3|? ? ? s2 ? x w Hx Hmask Hw Hd3 Hd4]; subst; rewrite Es in Hx; rewrite Hx in Hm; injection Hm as <-.
    + apply wp_bind. eapply wp_sink_load; [by rewrite Es|]. rewrite Hmask. cbn [when]. apply wp_bind, wp_ret, wp_bind. eapply wp_sink_load; [by rewrite Es|]. apply wp_ret.
      exists (length l2). split; [simpl; lia|]. split; [done|]. by exists l2.
    + apply wp_bind. eapply wp_sink_load; [by rewrite Es|]. rewrite Hmask. cbn [when]. apply wp_bind. eapply wp_pretty; [by rewrite Es|done|done|done|].
      destruct (deliver_frame _ _ _ _ Hd3) as (E2 & _). apply wp_bind. eapply wp_sink_load; [by rewrite E2, Es|]. apply wp_ret.
      exists (length l2). split; [simpl; lia|]. split; [congruence|]. by exists l2.
Qed.
End delivery.

(** C39: a message of at most 1023 characters gets to each registered sink that takes
    its level, in order, as the text that its format and arguments mean between the
    labels of the level; the lock is free again and interrupts are as before, and a
    critical message does not need the lock. *)
Theorem log_spec kfb me mem stack level ps args o l s s' :
  sinks_are s l → Z.of_nat (size mem) < 2 ^ 31 → Forall piece_ok ps → output mem ps args = Some o → len o < 1024 → length stack = 1024%nat →
  (level ≠ LOG_LEVEL_CRITICAL → locked (output_lock s) = 0 ∧ irq_lock (output_lock s) = 1) → delivered kfb level o l s s' →
  log kfb me mem stack level (show_all ps) args s =
    Done (tt, if level =? LOG_LEVEL_CRITICAL then s' else lput_output_lock (mkLock 0 (-1) 1 (cpu_flags s)) s').
Proof.
  intros Hl Hmem Hok Ho Hlen Hst Hlock Hd. unfold log. rewrite (vsnprintf_output mem ps args o stack 1024 Hmem Hok Ho) by lia.
  assert (take (Z.to_nat (1024 - 1)) o = o) as -> by (apply take_ge; unfold len in Hlen; lia). rewrite u64_id by (unfold len in *; lia). set (rest := 0 :: _).
  destruct (Z.eqb_spec level LOG_LEVEL_CRITICAL) as [Hcr|Hcr].
  - assert (wp (log_to_sinks_unlocked kfb (o ++ rest) (len o) level) (λ r s1, r = tt ∧ s1 = s') s) as H by (eapply wp_log_to_sinks_unlocked; [done|done|lia|done]).
    unfold wp in H. destruct (log_to_sinks_unlocked _ _ _ _ s) as [[r s1]| |]; [|done..]. by destruct H as [-> ->].
  - destruct (Hlock Hcr) as [Hlk Hirq]. assert (wp (log_to_sinks kfb me (o ++ rest) (len o) level) (λ r s1, r = tt ∧ s1 = lput_output_lock (mkLock 0 (-1) 1 (cpu_flags s)) s') s) as H.
    { unfold log_to_sinks, with_lock. apply wp_bind, wp_zoom. unfold spinlock_acquire. apply wp_bind, wp_gets. cbn [fst]. rewrite Hirq. cbn [Z.eqb]. apply wp_bind, wp_modify, wp_bind, wp_gets. cbn [fst locked].
      rewrite Hlk. cbn [Z.eqb]. apply wp_modify. cbn [fst snd irq_lock rflags]. rewrite Hirq.
      set (s1 := lput_cpu_flags _ _). assert (delivered kfb level o l s1 (lput_cpu_flags (cli (cpu_flags s)) (lput_output_lock (mkLock 1 me 1 (cpu_flags s)) s'))) as Hd1 by (by apply delivered_lock).
      apply wp_bind. eapply wp_log_to_sinks_unlocked; [exact Hl|exact Hd1|lia|]. apply wp_zoom. unfold spinlock_release. apply wp_bind, wp_modify, wp_bind, wp_gets.
      cbn [fst snd irq_lock rflags cpu_flags output_lock lput_cpu_flags lput_output_lock Z.eqb]. apply wp_modify. split; [done|]. cbn [fst snd irq_lock rflags cpu_flags output_lock lput_cpu_flags lput_output_lock].
      destruct (delivered_frame _ _ _ _ _ _ Hd) as (_ & _ & _ & <-). by destruct s'. }
    unfold wp in H. destruct (log_to_sinks _ _ _ _ _ s) as [[r s1]| |]; [|done..]. by destruct H as [-> ->].
Qed.

(** * What goes wrong *)

Lemma chars_overrun port data pre n s : (length data < n)%nat →
  for_n (Z.of_nat (length pre)) n (λ i, c ← char_at (pre ++ data) i; outb port c) s = Fault.
Proof.
  revert pre n s. induction data as [|c data IH]; intros pre [|n] s Hn; cbn [length] in Hn; [lia|..|lia|]; unfold for_n; fold (@for_n log_state).
  - unfold mbind, M_bind, char_at. rewrite Nat2Z.id, app_nil_r, lookup_ge_None_2 by lia. done.
  - apply fault_bind. apply wp_bind. unfold char_at at 1. rewrite Nat2Z.id, list_lookup_middle by done. apply wp_ret, wp_modify.
    specialize (IH (pre ++ [c]) n). rewrite length_app, <-app_assoc in IH. cbn [length app] in IH. replace (Z.of_nat (length pre) + 1) with (Z.of_nat (length pre + 1)) by lia. apply IH. lia.
Qed.
(** The length of the whole text is taken for that of the buffer: a message of more than
    1024 characters makes the sinks read behind the buffer of [log]. *)
Theorem log_overrun kfb me mem stack level ps args o p l x s :
  sinks_are s (p :: l) → sinks s !! p = Some x → flag (level_mask x) (i32 (Z.shiftl 1 level)) = true → write x = Some e9_write →
  Z.of_nat (size mem) < 2 ^ 31 → Forall piece_ok ps → output mem ps args = Some o → 1024 < len o < 2 ^ 31 → length stack = 1024%nat →
  (level ≠ LOG_LEVEL_CRITICAL → locked (output_lock s) = 0) → log kfb me mem stack level (show_all ps) args s = Fault.
Proof.
  intros Hl Hx Hm Hw Hmem Hok Ho Hlen Hst Hlock. unfold log. rewrite (vsnprintf_output mem ps args o stack 1024 Hmem Hok Ho) by lia. rewrite u64_id by (unfold len in *; lia).
  set (data := take _ o ++ _). assert (length data = 1024%nat) as Hdata.
  { unfold data. rewrite length_app, length_take. cbn [length]. rewrite length_drop. unfold len in *. lia. }
  assert (∀ s1, sinks s1 = sinks s → sinks_head s1 = sinks_head s → log_to_sinks_unlocked kfb data (len o) level s1 = Fault) as Hf.
  { intros s1 E1 E2. destruct Hl as (Hh & Hp & _). rewrite <-E2 in Hh. unfold log_to_sinks_unlocked. apply fault_bind, wp_gets, fault_bind, wp_gets. rewrite Hh.
    unfold loop. fold (@loop log_state). unfold mbind at 1, M_bind at 1. assert (sink_round kfb data (len o) level p s1 = Fault) as ->; [|done]. unfold sink_round. rewrite (proj2 (Z.eqb_neq _ _) Hp).
    apply fault_bind. eapply wp_sink_load; [by rewrite E1|]. rewrite Hm. cbn [when]. unfold mbind at 1, M_bind at 1.
    assert (pretty_sink_write kfb p data (len o) level s1 = Fault) as ->; [|done]. unfold pretty_sink_write. apply fault_bind. eapply wp_sink_load; [by rewrite E1|]. rewrite Hw.
    apply fault_bind. eapply (prefix_write kfb level e9_write); [done|]. apply fault_bind. eapply wp_sink_load; [by cbn; rewrite E1|]. rewrite Hw. unfold mbind at 1, M_bind at 1.
    cbn [call_write]. unfold e9_sink_write. rewrite (chars_overrun 0xe9 data []); [done|]. rewrite Hdata; lia. }
  destruct (Z.eqb_spec level LOG_LEVEL_CRITICAL) as [Hcr|Hcr]; [by apply Hf|]. unfold log_to_sinks. apply fault_bind, wp_zoom. unfold spinlock_acquire.
  apply wp_bind, wp_gets. cbn [fst]. apply wp_bind. apply (wp_mono _ (λ _ q, locked q.1 = 0)).
  { destruct (irq_lock (output_lock s) =? 0); [apply wp_ret; by apply Hlock|apply wp_modify; by apply Hlock]. }
  intros _ [lk fl] Hlk. apply wp_bind, wp_gets. cbn [fst] in *. rewrite Hlk. cbn [Z.eqb]. apply wp_modify. unfold mbind, M_bind. by rewrite Hf.
Qed.
(** The label of critical messages has fourteen characters, and thirteen are written. *)
Example critical_label_cut : option_map (λ '(p, n), (Z.of_nat (length p), n)) (log_label_prefix LOG_LEVEL_CRITICAL) = Some (14, 13).
Proof. reflexivity. Qed.
(** The others are whole. *)
Theorem labels_whole level p n : level ≠ LOG_LEVEL_CRITICAL → log_label_prefix level = Some (p, n) → Z.of_nat (length p) = n.
Proof.
  intros Hl Hp. unfold log_label_prefix in Hp. rewrite (proj2 (Z.eqb_neq _ _) Hl) in Hp. repeat (destruct (_ =? _) in Hp; [by injection Hp as <- <-|]). done.
Qed.
(** The flush of the serial port returns as soon as one of the two bits is set: while
    the last character is still being sent. *)
Example uart_flush_early s : uart_sink_flush (lput_status [UART_LSR_THRE] s) = Done (tt, lput_status [] s).
Proof. reflexivity. Qed.

(** The serial port, the debug port and the terminal. *)
Module LogDemo.
(** The port is busy now and then. *)
Definition answers : list Z := [0; 0x20; 0; 0] ++ replicate 30 0x60.
Definition st0 (tm : term_state) : log_state :=
  mkLogState {[1 := uart_sink; 2 := e9_sink; 3 := kterm_sink]} 0 0 SPINLOCK_IRQ_INIT 514 [] answers tm.
Definition st1 (tm : term_state) : log_state :=
  mkLogState {[1 := sset_sink_next 2 (sset_id 0 uart_sink); 2 := sset_sink_next 3 (sset_id 1 e9_sink); 3 := sset_id 2 kterm_sink]} 1 3 SPINLOCK_IRQ_INIT 514 [] answers tm.
Example registered tm : (register_sink 1 ;; register_sink 2 ;; register_sink 3) (st0 tm) = Done (2, st1 tm).
Proof. reflexivity. Qed.
(** Registering the first sink again forgets the others. *)
Example register_twice tm : match register_sink 1 (st1 tm) with Done (r, s) => (r, sinks_head s, sink_next <$> sinks s !! 1) | _ => (0, 0, None) end = (-1, 1, Some 0).
Proof. reflexivity. Qed.
Lemma st0_inv tm : log_inv (st0 tm) [].
Proof. split; [done|set_solver|set_solver]. Qed.
Lemma st1_sinks tm : sinks_are (st1 tm) [1; 2; 3].
Proof. split_and!; [done|done|]. exists 2. split; [done|]. split_and!; [done|done|]. exists 3. split; [done|]. split_and!; [done|done|]. by exists 0. Qed.
(** "x=%d" and a line feed. *)
Definition message : list piece := [Text [120; 61]; Dir (mkDir false false false false Absent Absent LEN_MOD_NONE l_d); Text [10]].
Definition text : list Z := [120; 61; 45; 53; 10].
Definition line : list Z := label_prefix LOG_LEVEL_DEBUG ++ text.
(** A debug message goes to the two ports. *)
Definition st2 (tm : term_state) : log_state :=
  lput_status (replicate 8 0x60) (lput_ports ((pair 0x3f8 <$> uart_bytes line) ++ (pair 0xe9 <$> line)) (st1 tm)).
Lemma sent tm : delivered None LOG_LEVEL_DEBUG text [1; 2; 3] (st1 tm) (st2 tm).
Proof.
  eapply (delivered_cons _ _ _ 1 [2; 3] _ (lput_status (replicate 8 0x60) (lput_ports (pair 0x3f8 <$> uart_bytes line) (st1 tm)))); [reflexivity|reflexivity|reflexivity| |].
  { exists (replicate 8 0x60). split; [|reflexivity]. vm_compute. repeat first [apply waits_ready; [reflexivity|]|apply waits_busy; [reflexivity|]]. constructor. }
  eapply delivered_cons; [reflexivity|reflexivity|reflexivity|reflexivity|]. eapply delivered_skip; [reflexivity|reflexivity|]. constructor.
Qed.
End LogDemo.

Theorem log_spec_witness :
  log None 0 ∅ (replicate 1024 170) LOG_LEVEL_DEBUG (show_all LogDemo.message) [2 ^ 64 - 5] (LogDemo.st1 KtermTheorems.TermDemo.at_boot) =
    Done (tt, lput_output_lock (mkLock 0 (-1) 1 514) (LogDemo.st2 KtermTheorems.TermDemo.at_boot)).
Proof.
  apply (log_spec None 0 ∅ (replicate 1024 170) LOG_LEVEL_DEBUG LogDemo.message [2 ^ 64 - 5] LogDemo.text [1; 2; 3] (LogDemo.st1 KtermTheorems.TermDemo.at_boot));
    [apply LogDemo.st1_sinks|done| |reflexivity|done|done|done|apply LogDemo.sent].
  repeat constructor; done.
Defined.
Theorem register_sink_spec_witness :
  wp (register_sink 1) (λ r s', r = 0 ∧ log_inv s' ([] ++ [1]) ∧ id_of s' 1 = Some r ∧
    (∀ q y, q ≠ 1 → sinks (LogDemo.st0 KtermTheorems.TermDemo.at_boot) !! q = Some y → sinks s' !! q = Some (if decide (last [] = Some q) then sset_sink_next 1 y else y))) (LogDemo.st0 KtermTheorems.TermDemo.at_boot).
Proof. apply (register_sink_spec (LogDemo.st0 KtermTheorems.TermDemo.at_boot) [] 1 uart_sink); [apply LogDemo.st0_inv|set_solver|done|done|by eexists|done|done]. Defined.
