(* ===== verification/Acpi.v ===== *)
(** What the kernel gives to the uACPI library:
    [src/kernel/src/acpi/uacpi_wrappers.c].

    The library is not part of the repository. Its handles are the addresses of
    blocks of the heap, of which each has the type it was made with; a block that is
    used as another type, and one that is not there, is a fault. The heap answers
    each allocation from the list [answers]: an address where there is no block, or
    0. Locks, semaphores, configuration space, interrupts, page tables and the log
    are those of the other parts. Messages other than those of the library are left
    out. *)
From S2P Require Import Prelude Sync Irq Pmm Paging Dev Log.

(** [uacpi_status], of which these are used, [uacpi_log_level] and the types of
    requests. *)
Inductive uacpi_status :=
  UACPI_STATUS_OK | UACPI_STATUS_NOT_FOUND | UACPI_STATUS_OUT_OF_MEMORY | UACPI_STATUS_INVALID_ARGUMENT |
  UACPI_STATUS_ALREADY_EXISTS | UACPI_STATUS_INTERNAL_ERROR | UACPI_STATUS_UNIMPLEMENTED.
Inductive uacpi_log_level := UACPI_LOG_DEBUG | UACPI_LOG_TRACE | UACPI_LOG_INFO | UACPI_LOG_WARN | UACPI_LOG_ERROR | other_log_level.
Inductive firmware_request := UACPI_FIRMWARE_REQUEST_TYPE_BREAKPOINT | UACPI_FIRMWARE_REQUEST_TYPE_FATAL | other_request.
#[export] Instance uacpi_status_eq_dec : EqDecision uacpi_status.
Proof. solve_decision. Defined.

(** * State *)

(** [uacpi_pci_address] *)
Record uacpi_pci_address := mkPciAddress { pa_segment : Z; pa_bus : Z; pa_device : Z; pa_function : Z }.
(** [io_t] and the four bytes that follow it. *)
Record io_t := mkIo { io_base : Z; max_offset : Z; io_behind : Z }.
Inductive block :=
  | b_pci (a : uacpi_pci_address)
  | b_io (io : io_t)
  | b_lock (l : spinlock_t)
  | b_sem (value : Z)
  | b_raw (size : Z).
(** [uacpi_irq_entry_t] *)
Record uacpi_irq_entry_t := mkEntry { e_handler : Z; e_ctx : Z; e_vector : Z }.
Definition zero_entry : uacpi_irq_entry_t := mkEntry 0 0 0.
(** An access to a port: how many bytes, the port, the value. *)
Inductive port_event := port_in (bytes port : Z) | port_out (bytes port value : Z).

Record acpi_state := mkAcpi {
  blocks : gmap Z block;
  answers : list Z;
  entries : list uacpi_irq_entry_t;
  cflags : Z;                      (* the flags register *)
  port_events : list port_event;
  called : list (Z * Z);           (* handlers of the library and their contexts *)
  of_irq : irq_state;
  of_paging : paging;
  of_dev : dev_state;
  of_log : log_state;
}.
Definition aput_blocks v s := mkAcpi v (answers s) (entries s) (cflags s) (port_events s) (called s) (of_irq s) (of_paging s) (of_dev s) (of_log s).
Definition aput_answers v s := mkAcpi (blocks s) v (entries s) (cflags s) (port_events s) (called s) (of_irq s) (of_paging s) (of_dev s) (of_log s).
Definition aput_entries v s := mkAcpi (blocks s) (answers s) v (cflags s) (port_events s) (called s) (of_irq s) (of_paging s) (of_dev s) (of_log s).
Definition aput_cflags v s := mkAcpi (blocks s) (answers s) (entries s) v (port_events s) (called s) (of_irq s) (of_paging s) (of_dev s) (of_log s).
Definition aput_port_events v s := mkAcpi (blocks s) (answers s) (entries s) (cflags s) v (called s) (of_irq s) (of_paging s) (of_dev s) (of_log s).
Definition aput_called v s := mkAcpi (blocks s) (answers s) (entries s) (cflags s) (port_events s) v (of_irq s) (of_paging s) (of_dev s) (of_log s).
Definition aput_of_irq v s := mkAcpi (blocks s) (answers s) (entries s) (cflags s) (port_events s) (called s) v (of_paging s) (of_dev s) (of_log s).
Definition aput_of_paging v s := mkAcpi (blocks s) (answers s) (entries s) (cflags s) (port_events s) (called s) (of_irq s) v (of_dev s) (of_log s).
Definition aput_of_dev v s := mkAcpi (blocks s) (answers s) (entries s) (cflags s) (port_events s) (called s) (of_irq s) (of_paging s) v (of_log s).
Definition aput_of_log v s := mkAcpi (blocks s) (answers s) (entries s) (cflags s) (port_events s) (called s) (of_irq s) (of_paging s) (of_dev s) v.
Local Abbreviation St := acpi_state.

Definition in_irq {A} (m : M irq_state A) : M St A := zoom of_irq aput_of_irq m.
Definition in_paging {A} (m : M paging A) : M St A := zoom of_paging aput_of_paging m.
Definition in_dev {A} (m : M dev_state A) : M St A := zoom of_dev aput_of_dev m.
Definition in_log {A} (m : M log_state A) : M St A := zoom of_log aput_of_log m.

(** ** The heap *)

Definition alloc (b : block) : M St Z := λ s,
  match answers s with
  | [] => Done (0, s)
  | p :: l => Done (p, if p =? 0 then aput_answers l s else aput_blocks (<[p := b]> (blocks s)) (aput_answers l s))
  end.
Definition block_at (p : Z) : M St block := λ s, match blocks s !! p with Some b => Done (b, s) | None => Fault end.
Definition put_block (p : Z) (b : block) : M St unit := λ s,
  match blocks s !! p with Some _ => Done (tt, aput_blocks (<[p := b]> (blocks s)) s) | None => Fault end.
(** [kfree(NULL)] returns at once. *)
Definition kfree (p : Z) : M St unit :=
  if p =? 0 then mret tt else
  block_at p ;; modify (λ s, aput_blocks (delete p (blocks s)) s).
Definition pci_at (p : Z) : M St uacpi_pci_address := b ← block_at p; match b with b_pci a => mret a | _ => fault end.
Definition io_at (p : Z) : M St io_t := b ← block_at p; match b with b_io a => mret a | _ => fault end.
(** The lock at [p], with the flags register; the semaphore at [p]. *)
Definition on_lock (p : Z) (m : M (spinlock_t * Z) unit) : M St unit :=
  b ← block_at p;
  match b with
  | b_lock l =>
      f ← gets cflags;
      match m (l, f) with
      | Done (_, (l, f)) => put_block p (b_lock l) ;; modify (aput_cflags f)
      | Fault => fault
      | Hang => hang
      end
  | _ => fault
  end.
Definition on_sem {A} (p : Z) (m : M Z A) : M St A :=
  b ← block_at p;
  match b with
  | b_sem v =>
      match m v with
      | Done (a, v) => put_block p (b_sem v) ;; mret a
      | Fault => fault
      | Hang => hang
      end
  | _ => fault
  end.

Section acpi.
(** The running CPU; [kernel_info.hhdm_offset] and [rsdp_addr]; the address of the
    table of handlers, and those of [uacpi_irq_dispatch] and of the names of the
    interrupts; what a port answers after some accesses, and what four bytes behind
    a new block are. *)
Context (me hhdm_offset rsdp_addr entries_addr dispatch_addr irq_name : Z).
Context (port_answer : list port_event → Z) (behind : Z → Z).

(** * Memory and messages *)

(** A status, and what is stored through the pointer. *)
Definition uacpi_kernel_get_rsdp : uacpi_status * option Z :=
  if rsdp_addr =? 0 then (UACPI_STATUS_NOT_FOUND, None) else (UACPI_STATUS_OK, Some (VIRT_TO_PHYS hhdm_offset rsdp_addr)).
(** [region] is what the heap answers [reg_kernel_mmio]. *)
Definition uacpi_kernel_map (region addr len : Z) : M St Z :=
  let aligned := ALIGN_DOWN addr PAGE_SIZE in
  let offset := u64 (addr - aligned) in
  let actual_len := u64 (len + offset) in
  let npages := ALIGN_UP actual_len PAGE_SIZE / PAGE_SIZE in
  let vaddr := PHYS_TO_VIRT hhdm_offset aligned in
  pt ← gets (λ s, kernel_pt (of_paging s));
  when (negb (pt =? 0)) (
    in_paging (map_mmio me hhdm_offset pt vaddr aligned npages) ;;
    in_paging (reg_kernel_mmio me region vaddr aligned npages)) ;;
  mret (u64 (vaddr + offset)).
Definition uacpi_kernel_unmap (addr len : Z) : M St unit := mret tt.
(** The message at [fmt] in [mem]; "acpi: %s". *)
Definition acpi_format : list Z := [97; 99; 112; 105; 58; 32; 37; 115].
Definition uacpi_kernel_log (kfb : option Kterm.limine_framebuffer) (mem : gmap Z Z) (stack : list Z) (log_level : uacpi_log_level) (fmt : Z) : M St unit :=
  match log_level with
  | UACPI_LOG_DEBUG | UACPI_LOG_TRACE => in_log (log kfb me mem stack LOG_LEVEL_DEBUG acpi_format [fmt])
  | UACPI_LOG_INFO => in_log (log kfb me mem stack LOG_LEVEL_INFO acpi_format [fmt])
  | UACPI_LOG_WARN => in_log (log kfb me mem stack LOG_LEVEL_WARN acpi_format [fmt])
  | UACPI_LOG_ERROR => in_log (log kfb me mem stack LOG_LEVEL_ERROR acpi_format [fmt])
  | other_log_level => mret tt
  end.
Definition uacpi_kernel_disable_interrupts : M St Z := state ← gets cflags; modify (aput_cflags (cli state)) ;; mret state.
Definition uacpi_kernel_restore_interrupts (state : Z) : M St unit := modify (aput_cflags state).
Definition uacpi_kernel_alloc (size : Z) : M St Z := alloc (b_raw size).
Definition uacpi_kernel_free (p : Z) : M St unit := if p =? 0 then mret tt else kfree p.

(** * Configuration space *)

Definition uacpi_kernel_pci_device_open (address : uacpi_pci_address) : M St (uacpi_status * option Z) :=
  addr ← alloc (b_pci address);
  mret (if addr =? 0 then (UACPI_STATUS_OUT_OF_MEMORY, None) else (UACPI_STATUS_OK, Some addr)).
Definition uacpi_kernel_pci_device_close (handle : Z) : M St unit := kfree handle.
Definition config_read (a : uacpi_pci_address) (offset : Z) : M St Z :=
  in_dev (pci_read_config (pa_bus a) (pa_device a) (pa_function a) (u8 offset)).
Definition config_write (a : uacpi_pci_address) (offset v : Z) : M St unit :=
  in_dev (pci_write_config (pa_bus a) (pa_device a) (pa_function a) (u8 offset) v).
Definition uacpi_kernel_pci_read8 (device offset : Z) : M St (uacpi_status * Z) :=
  addr ← pci_at device;
  val ← config_read addr (Z.land offset (not64 3));
  mret (UACPI_STATUS_OK, u8 (Z.shiftr val (Z.land offset 3 * 8))).
Definition uacpi_kernel_pci_read16 (device offset : Z) : M St (uacpi_status * Z) :=
  addr ← pci_at device;
  val ← config_read addr (Z.land offset (not64 3));
  mret (UACPI_STATUS_OK, u16 (Z.shiftr val (Z.land offset 2 * 8))).
Definition uacpi_kernel_pci_read32 (device offset : Z) : M St (uacpi_status * Z) :=
  addr ← pci_at device;
  val ← config_read addr offset;
  mret (UACPI_STATUS_OK, val).
Definition uacpi_kernel_pci_write8 (device offset value : Z) : M St uacpi_status :=
  addr ← pci_at device;
  val ← config_read addr (Z.land offset (not64 3));
  let shift := Z.land offset 3 * 8 in
  let val := Z.lor (Z.land val (not32 (u32 (Z.shiftl 0xFF shift)))) (u32 (Z.shiftl value shift)) in
  config_write addr (Z.land offset (not64 3)) val ;;
  mret UACPI_STATUS_OK.
Definition uacpi_kernel_pci_write16 (device offset value : Z) : M St uacpi_status :=
  addr ← pci_at device;
  val ← config_read addr (Z.land offset (not64 3));
  let shift := Z.land offset 2 * 8 in
  let val := Z.lor (Z.land val (not32 (u32 (Z.shiftl 0xFFFF shift)))) (u32 (Z.shiftl value shift)) in
  config_write addr (Z.land offset (not64 3)) val ;;
  mret UACPI_STATUS_OK.
Definition uacpi_kernel_pci_write32 (device offset value : Z) : M St uacpi_status :=
  addr ← pci_at device;
  config_write addr offset value ;;
  mret UACPI_STATUS_OK.

(** * Ports *)

Definition port_read (bytes port : Z) : M St Z :=
  modify (λ s, aput_port_events (port_events s ++ [port_in bytes port]) s) ;;
  v ← gets (λ s, port_answer (port_events s));
  mret (v `mod` 2 ^ (8 * bytes)).
Definition port_write (bytes port v : Z) : M St unit :=
  modify (λ s, aput_port_events (port_events s ++ [port_out bytes port v]) s).
Definition uacpi_kernel_io_map (base len : Z) : M St (uacpi_status * option Z) :=
  p ← gets (λ s, head (answers s));
  io ← alloc (b_io (mkIo (u16 base) (u16 len) (u32 (behind (default 0 p)))));
  mret (if io =? 0 then (UACPI_STATUS_OUT_OF_MEMORY, None) else (UACPI_STATUS_OK, Some io)).
(** The handle is taken for a pointer to a pointer: eight bytes are read from and
    written to the [io_t]. *)
Definition io_word (io : io_t) : Z := io_base io + 2 ^ 16 * max_offset io + 2 ^ 32 * io_behind io.
Definition uacpi_kernel_io_unmap (handle : Z) : M St unit :=
  io ← io_at handle;
  let to_free := io_word io in
  if to_free =? 0 then mret tt else
  kfree to_free ;;
  put_block handle (b_io (mkIo 0 0 0)).
Definition io_read (bytes range offset : Z) : M St (uacpi_status * option Z) :=
  if range =? 0 then mret (UACPI_STATUS_NOT_FOUND, None) else
  io ← io_at range;
  let port := u16 (io_base io + u16 offset) in
  v ← port_read bytes port;
  mret (UACPI_STATUS_OK, Some v).
Definition io_write (bytes range offset v : Z) : M St uacpi_status :=
  if range =? 0 then mret UACPI_STATUS_NOT_FOUND else
  io ← io_at range;
  let port := u16 (io_base io + u16 offset) in
  port_write bytes port v ;;
  mret UACPI_STATUS_OK.
Definition uacpi_kernel_io_read8 := io_read 1.
Definition uacpi_kernel_io_read16 := io_read 2.
Definition uacpi_kernel_io_read32 := io_read 4.
Definition uacpi_kernel_io_write8 := io_write 1.
Definition uacpi_kernel_io_write16 := io_write 2.
Definition uacpi_kernel_io_write32 := io_write 4.

(** * Time *)

Definition stall_round (usec i : Z) : M St (Z + unit) :=
  if i <? usec then mret (inl (u8 (i + 1))) else mret (inr tt).
Definition uacpi_kernel_stall (usec : Z) : M St unit := loop 256 (stall_round usec) 0.

(** * Locks and events *)

Definition uacpi_kernel_create_mutex : M St Z := alloc (b_lock SPINLOCK_INIT).
Definition uacpi_kernel_free_mutex (mutex : Z) : M St unit := if mutex =? 0 then mret tt else kfree mutex.
Definition uacpi_kernel_acquire_mutex (spinlock timeout : Z) : M St uacpi_status :=
  if spinlock =? 0 then mret UACPI_STATUS_NOT_FOUND else
  on_lock spinlock (spinlock_acquire me) ;;
  mret UACPI_STATUS_OK.
Definition uacpi_kernel_release_mutex (spinlock : Z) : M St unit := on_lock spinlock (spinlock_release me).
(** What [kmalloc] returns is not looked at. *)
Definition uacpi_kernel_create_event : M St Z :=
  semaphore ← alloc (b_sem 0);
  on_sem semaphore (Sem.semaphore_init 0) ;;
  mret semaphore.
Definition uacpi_kernel_free_event (semaphore : Z) : M St unit := if semaphore =? 0 then mret tt else kfree semaphore.
Definition uacpi_kernel_get_thread_id : Z := 0.
(** The round of the loop that ends: [timeout] counts down first. *)
Definition wait_event_round (sem timeout : Z) : M St (Z + bool) :=
  let timeout := u16 (timeout - 1) in
  if timeout >? 0 then
    r ← on_sem sem Sem.semaphore_try_wait;
    mret (if r : bool then inr true else inl timeout)
  else mret (inr false).
(** Nobody signals while a CPU runs on its own: without a permit the loop without a
    limit does not end. *)
Definition uacpi_kernel_wait_for_event (semaphore timeout : Z) : M St bool :=
  if timeout =? 0xFFFF then
    r ← on_sem semaphore Sem.semaphore_try_wait;
    if r : bool then mret true else hang
  else loop (S (Z.to_nat 65536)) (wait_event_round semaphore) timeout.
Definition uacpi_kernel_signal_event (semaphore : Z) : M St unit := if semaphore =? 0 then mret tt else on_sem semaphore Sem.semaphore_signal.
Definition uacpi_kernel_reset_event (semaphore : Z) : M St unit := if semaphore =? 0 then mret tt else on_sem semaphore (Sem.semaphore_init 0).
Definition uacpi_kernel_create_spinlock : M St Z := alloc (b_lock SPINLOCK_INIT).
Definition uacpi_kernel_free_spinlock (atomic : Z) : M St unit := if atomic =? 0 then mret tt else kfree atomic.
Definition uacpi_kernel_lock_spinlock (lock : Z) : M St Z :=
  fl ← gets cflags;
  if lock =? 0 then mret 0 else
  on_lock lock (spinlock_acquire me) ;;
  mret fl.
Definition uacpi_kernel_unlock_spinlock (lock fl : Z) : M St unit :=
  if lock =? 0 then mret tt else
  on_lock lock (spinlock_release me) ;;
  modify (aput_cflags fl).

(** * Requests of the firmware, interrupts, work *)

Definition uacpi_kernel_handle_firmware_request (type : firmware_request) : uacpi_status :=
  match type with
  | UACPI_FIRMWARE_REQUEST_TYPE_FATAL => UACPI_STATUS_INTERNAL_ERROR
  | _ => UACPI_STATUS_OK
  end.
(** The address of an entry of the table, and the entry at an address. *)
Definition entry_addr (irq : Z) : Z := entries_addr + 24 * irq.
Definition entry_at (p : Z) : M St uacpi_irq_entry_t := λ s,
  match entries s !! Z.to_nat ((p - entries_addr) / 24) with Some e => Done (e, s) | None => Fault end.
Definition set_entry (irq : Z) (f : uacpi_irq_entry_t → uacpi_irq_entry_t) : M St unit := λ s,
  match entries s !! Z.to_nat irq with Some e => Done (tt, aput_entries (<[Z.to_nat irq := f e]> (entries s)) s) | None => Fault end.
Definition uacpi_irq_dispatch (irq data : Z) : M St unit :=
  if data =? 0 then mret tt else
  entry ← entry_at data;
  if e_handler entry =? 0 then mret tt else
  modify (λ s, aput_called (called s ++ [(e_handler entry, e_ctx entry)]) s).
(** [out]: whether there is a place for the handle. *)
Definition uacpi_kernel_install_interrupt_handler (irq handler ctx : Z) (out : bool) : M St (uacpi_status * option Z) :=
  if (256 <=? irq) || negb out || (handler =? 0) then mret (UACPI_STATUS_INVALID_ARGUMENT, None) else
  entry ← entry_at (entry_addr irq);
  if negb (e_handler entry =? 0) then mret (UACPI_STATUS_ALREADY_EXISTS, None) else
  set_entry irq (λ e, mkEntry handler ctx (e_vector e)) ;;
  vector ← in_irq (Irq.irq_request me irq dispatch_addr (entry_addr irq) irq_name);
  if vector <? 0 then
    set_entry irq (λ e, mkEntry 0 0 (e_vector e)) ;;
    mret (UACPI_STATUS_OUT_OF_MEMORY, None)
  else
    set_entry irq (λ e, mkEntry (e_handler e) (e_ctx e) vector) ;;
    mret (UACPI_STATUS_OK, Some irq).
Definition uacpi_kernel_uninstall_interrupt_handler (handler irq_handle : Z) : M St uacpi_status :=
  if 256 <=? irq_handle then mret UACPI_STATUS_INVALID_ARGUMENT else
  entry ← entry_at (entry_addr irq_handle);
  if e_handler entry =? 0 then mret UACPI_STATUS_NOT_FOUND else
  in_irq (Irq.irq_free me (u32 (e_vector entry))) ;;
  set_entry irq_handle (λ _, mkEntry 0 0 0) ;;
  mret UACPI_STATUS_OK.
Definition uacpi_kernel_schedule_work : uacpi_status := UACPI_STATUS_UNIMPLEMENTED.
Definition uacpi_kernel_wait_for_work_completion : uacpi_status := UACPI_STATUS_UNIMPLEMENTED.
End acpi.
