(* ===== verification/AcpiTheorems.v ===== *)
(** What the glue to uACPI does: bytes of configuration space, handlers of interrupts,
    events, locks, mapped ranges, and ports that are never given back. *)
From S2P Require Import Pmm Paging PagingTheorems KtermTheorems LogTheorems Prelude Sync Irq IrqTheorems Dev DevTheorems Log Acpi.

#[local] Arguments loop : simpl never.
#[local] Arguments config_addr : simpl never.

(** Arithmetic with quotients and remainders. *)
Ltac dlia := Z.to_euclidean_division_equations; lia.

(** * Blocks *)

Lemma wp_block_at s p b (Q : block → acpi_state → Prop) : blocks s !! p = Some b → Q b s → wp (block_at p) Q s.
Proof. unfold wp, block_at. by intros ->. Qed.
Lemma wp_put_block s p b b' (Q : unit → acpi_state → Prop) :
  blocks s !! p = Some b → Q tt (aput_blocks (<[p := b']> (blocks s)) s) → wp (put_block p b') Q s.
Proof. unfold wp, put_block. by intros ->. Qed.
Lemma wp_pci_at s p a (Q : uacpi_pci_address → acpi_state → Prop) : blocks s !! p = Some (b_pci a) → Q a s → wp (pci_at p) Q s.
Proof. intros Hb HQ. apply wp_bind. eapply wp_block_at; [done|]. by apply wp_ret. Qed.
Lemma wp_io_at s p a (Q : io_t → acpi_state → Prop) : blocks s !! p = Some (b_io a) → Q a s → wp (io_at p) Q s.
Proof. intros Hb HQ. apply wp_bind. eapply wp_block_at; [done|]. by apply wp_ret. Qed.
Lemma on_sem_run {A} s p v (m : M Z A) a v' :
  blocks s !! p = Some (b_sem v) → m v = Done (a, v') → on_sem p m s = Done (a, aput_blocks (<[p := b_sem v']> (blocks s)) s).
Proof. intros Hb Hm. unfold on_sem, block_at, put_block, mbind, M_bind. by rewrite Hb, Hm, Hb. Qed.
Lemma wp_on_sem {A} s p v (m : M Z A) a v' (Q : A → acpi_state → Prop) :
  blocks s !! p = Some (b_sem v) → m v = Done (a, v') → Q a (aput_blocks (<[p := b_sem v']> (blocks s)) s) → wp (on_sem p m) Q s.
Proof. intros Hb Hm HQ. unfold wp. by erewrite on_sem_run by done. Qed.
Lemma wp_on_lock s p l (m : M (spinlock_t * Z) unit) l' fl (Q : unit → acpi_state → Prop) :
  blocks s !! p = Some (b_lock l) → m (l, cflags s) = Done (tt, (l', fl)) → Q tt (aput_cflags fl (aput_blocks (<[p := b_lock l']> (blocks s)) s)) → wp (on_lock p m) Q s.
Proof. intros Hb Hm HQ. apply wp_bind. eapply wp_block_at; [done|]. cbv beta iota. apply wp_bind, wp_gets. cbv beta. rewrite Hm. apply wp_bind. eapply wp_put_block; [done|]. by apply wp_modify. Qed.
Lemma aput_blocks_id s : aput_blocks (blocks s) s = s.
Proof. by destruct s. Qed.

(** * Bytes of configuration space *)

(** The word of a register of a device and its bytes. *)
Definition config_word (s : acpi_state) (a : uacpi_pci_address) (off : Z) : Z :=
  cfg (of_dev s) (pa_bus a) (pa_device a) (pa_function a) off.
Definition byte_of (w k : Z) : Z := u8 (Z.shiftr w (8 * k)).
Definition config_byte (s : acpi_state) (a : uacpi_pci_address) (off : Z) : Z := byte_of (config_word s a off) (off `mod` 4).
Definition address_ok (a : uacpi_pci_address) : Prop := 0 ≤ pa_bus a < 256 ∧ 0 ≤ pa_device a < 32 ∧ 0 ≤ pa_function a < 8.

Lemma cfg_aligned d b sl f off : 0 ≤ off < 256 → cfg d b sl f (u8 (Z.land off (not64 3))) = cfg d b sl f off.
Proof.
  intros Ho. unfold cfg, config_addr. do 3 f_equal. replace (u8 (Z.land off (not64 3))) with (Z.land off 0xFC).
  { by rewrite <-Z.land_assoc. }
  unfold u8. rewrite <-Z.land_ones by lia. rewrite <-Z.land_assoc. done.
Qed.
Lemma low_bits off : 0 ≤ off → Z.land off 3 = off `mod` 4.
Proof. intros. change 3 with (Z.ones 2). by rewrite Z.land_ones by lia. Qed.

Lemma bit_above v n i : 0 ≤ v < 2 ^ n → 0 ≤ n ≤ i → Z.testbit v i = false.
Proof. intros Hv Hn. rewrite <-(Z.mod_small v (2 ^ n)) by done. by apply Z.mod_pow2_bits_high. Qed.

(** A field of some bits in a word is replaced: its bytes, and those below and above. *)
Definition replaced (w mask v sh : Z) : Z := Z.lor (Z.land w (not32 (u32 (Z.shiftl mask sh)))) (u32 (Z.shiftl v sh)).
Lemma replaced_testbit w n v sh i : 0 ≤ n → 0 ≤ sh → 0 ≤ v < 2 ^ n → n + sh ≤ 32 → 0 ≤ i < 32 →
  Z.testbit (replaced w (Z.ones n) v sh) i = if (sh <=? i) && (i <? sh + n) then Z.testbit v (i - sh) else Z.testbit w i.
Proof.
  intros Hn Hs Hv Hns Hi. unfold replaced, not32. rewrite Z.lor_spec, Z.land_spec. unfold u32. rewrite !Z.mod_pow2_bits_low by lia.
  rewrite Z.lnot_spec by lia. rewrite !Z.mod_pow2_bits_low by lia. rewrite !Z.shiftl_spec by lia.
  destruct (Z.leb_spec sh i) as [Hle|Hlt].
  - destruct (Z.ltb_spec i (sh + n)).
    + rewrite Z.ones_spec_low by lia. simpl. by rewrite andb_false_r.
    + rewrite Z.ones_spec_high by lia. simpl. by rewrite andb_true_r, (bit_above v n), orb_false_r by lia.
  - rewrite (Z.testbit_neg_r (Z.ones n)), (Z.testbit_neg_r v) by lia. simpl. by rewrite andb_true_r, orb_false_r.
Qed.
Lemma replaced_range w mask v sh : 0 ≤ replaced w mask v sh < 2 ^ 32.
Proof.
  assert (replaced w mask v sh = u32 (replaced w mask v sh)) as ->; [|apply u32_range]. apply Z.bits_inj'. intros i Hi. unfold u32 at 1.
  destruct (Z.lt_ge_cases i 32); [by rewrite Z.mod_pow2_bits_low|]. rewrite Z.mod_pow2_bits_high by lia. unfold replaced. rewrite Z.lor_spec, Z.land_spec.
  rewrite (bit_above (not32 _) 32), (bit_above (u32 (Z.shiftl v sh)) 32) by (apply u32_range || lia). by rewrite andb_false_r.
Qed.
Lemma byte_testbit w k i : 0 ≤ i → Z.testbit (byte_of w k) i = (i <? 8) && Z.testbit w (8 * k + i).
Proof.
  intros. unfold byte_of, u8. destruct (Z.ltb_spec i 8).
  - rewrite Z.mod_pow2_bits_low, Z.shiftr_spec by lia. simpl. f_equal. lia.
  - by rewrite Z.mod_pow2_bits_high by lia.
Qed.
Lemma replaced_byte w m v j k : 0 ≤ m → 0 ≤ j → 0 ≤ v < 2 ^ (8 * m) → j + m ≤ 4 → 0 ≤ k < 4 →
  byte_of (replaced w (Z.ones (8 * m)) v (8 * j)) k = if (j <=? k) && (k <? j + m) then byte_of v (k - j) else byte_of w k.
Proof.
  intros. apply Z.bits_inj'. intros i Hi. rewrite byte_testbit by lia. destruct (Z.ltb_spec i 8) as [Hlt|Hge].
  - rewrite replaced_testbit by lia. destruct (Z.leb_spec j k).
    + rewrite (proj2 (Z.leb_le (8 * j) _)) by lia. destruct (Z.ltb_spec k (j + m)).
      * rewrite (proj2 (Z.ltb_lt _ (8 * j + 8 * m))) by lia. simpl. rewrite byte_testbit by lia. rewrite (proj2 (Z.ltb_lt i 8)) by lia. simpl. f_equal. lia.
      * rewrite (proj2 (Z.ltb_ge _ (8 * j + 8 * m))) by lia. simpl. rewrite byte_testbit by lia. by rewrite (proj2 (Z.ltb_lt i 8)) by lia.
    + rewrite (proj2 (Z.leb_gt (8 * j) _)) by lia. simpl. rewrite byte_testbit by lia. by rewrite (proj2 (Z.ltb_lt i 8)) by lia.
  - simpl. destruct (_ && _); rewrite byte_testbit by lia; by rewrite (proj2 (Z.ltb_ge i 8)) by lia.
Qed.

(** The steps through the device state. *)
Lemma wp_config_read s a off (Q : Z → acpi_state → Prop) :
  0 ≤ off < 256 → (∀ ca, Q (config_word s a off) (aput_of_dev (put_config_address ca (of_dev s)) s)) → wp (config_read a (Z.land off (not64 3))) Q s.
Proof. intros Ho HQ. apply wp_zoom, wp_config. rewrite cfg_aligned by done. apply HQ. Qed.
(** What the register at [off] of a device holds after [w] was written to it. *)
Definition written (s : acpi_state) (a : uacpi_pci_address) (off w : Z) : Z :=
  let addr := config_addr (pa_bus a) (pa_device a) (pa_function a) off in
  match config (of_dev s) !! addr with Some old => u32 (takes (of_dev s) addr old w) | None => 0xFFFFFFFF end.
(** Two offsets in the same register of the same device. *)
Definition same_register (a a' : uacpi_pci_address) (off off' : Z) : Prop :=
  pa_bus a' = pa_bus a ∧ pa_device a' = pa_device a ∧ pa_function a' = pa_function a ∧ off' `div` 4 = off `div` 4.
#[global] Instance same_register_dec a a' off off' : Decision (same_register a a' off off').
Proof. unfold same_register. apply _. Defined.
Definition config_set (s s' : acpi_state) (a : uacpi_pci_address) (off w : Z) : Prop :=
  blocks s' = blocks s ∧ ∀ a' off', address_ok a' → 0 ≤ off' < 256 →
    config_word s' a' off' = if decide (same_register a a' off off') then written s a off w else config_word s a' off'.
Lemma land_FC off : 0 ≤ off < 256 → Z.land off 0xFC = 4 * (off `div` 4).
Proof.
  intros. change 0xFC with (Z.land (Z.lnot 3) 255). rewrite Z.land_assoc, (Z.land_comm _ (Z.lnot 3)), <-Z.land_assoc. change 255 with (Z.ones 8). rewrite Z.land_ones, Z.mod_small by lia.
  rewrite Z.land_comm, <-Z.ldiff_land. change 3 with (Z.ones 2). rewrite Z.ldiff_ones_r, Z.shiftl_mul_pow2, Z.shiftr_div_pow2 by lia. change (2 ^ 2) with 4. lia.
Qed.
Lemma wp_config_write s a off w (Q : unit → acpi_state → Prop) :
  address_ok a → 0 ≤ off < 256 → (∀ s', config_set s s' a off w → Q tt s') → wp (config_write a (Z.land off (not64 3)) w) Q s.
Proof.
  intros (Hb & Hd & Hf) Ho HQ. apply wp_zoom. unfold pci_write_config. apply wp_bind, wp_modify, wp_modify. apply HQ. split; [done|]. intros a' off' (Hb' & Hd' & Hf') Ho'.
  unfold config_word, cfg, written. cbn [of_dev aput_of_dev config put_config put_config_address config_address takes].
  pose proof (land_FC off Ho) as E. pose proof (land_FC off' Ho') as E'. assert (0 ≤ u8 (Z.land off (not64 3)) < 256) as Hu by apply u8_range.
  assert (config_addr (pa_bus a) (pa_device a) (pa_function a) (u8 (Z.land off (not64 3))) = config_addr (pa_bus a) (pa_device a) (pa_function a) off) as ->.
  { unfold config_addr. f_equal. unfold u8. rewrite <-(Z.land_ones _ 8), <-!Z.land_assoc by lia. done. }
  destruct (decide _) as [(-> & -> & -> & Heq)|Hne].
  - assert (config_addr (pa_bus a) (pa_device a) (pa_function a) off' = config_addr (pa_bus a) (pa_device a) (pa_function a) off) as -> by (unfold config_addr; rewrite E, E', Heq; done).
    rewrite lookup_alter_eq. by destruct (config (of_dev s) !! _).
  - rewrite lookup_alter_ne; [done|]. intros Hc. apply Hne. apply config_addr_inj in Hc as (? & ? & ? & Hl); [|lia..]. rewrite E, E' in Hl. split_and!; [done..|lia].
Qed.
Lemma written_same s ca a off w : written (aput_of_dev (put_config_address ca (of_dev s)) s) a off w = written s a off w.
Proof. done. Qed.
(** What is read of a byte. *)
Lemma wp_pci_read8 s dev a off : blocks s !! dev = Some (b_pci a) → 0 ≤ off < 256 →
  wp (uacpi_kernel_pci_read8 dev off) (λ x _, x = (UACPI_STATUS_OK, config_byte s a off)) s.
Proof.
  intros Hb Ho. apply wp_bind. eapply wp_pci_at; [done|]. apply wp_bind, wp_config_read; [done|]. intros ca. apply wp_ret.
  rewrite low_bits by dlia. unfold config_byte, byte_of. by rewrite Z.mul_comm.
Qed.
Lemma land_2 off : 0 ≤ off → off `mod` 2 = 0 → Z.land off 2 = off `mod` 4.
Proof.
  intros Ho He. rewrite <-(low_bits off) by dlia. assert (Z.testbit off 0 = false) as Hb0 by (rewrite Z.bit0_odd, <-Z.negb_even; apply negb_false_iff, Z.even_spec; exists (off `div` 2); dlia).
  apply Z.bits_inj'. intros i Hi. rewrite !Z.land_spec. destruct (decide (i = 0)) as [->|]; [by rewrite Hb0|]. f_equal. destruct (decide (i = 1)) as [->|]; [done|]. rewrite !Z.bits_above_log2; simpl; dlia.
Qed.
(** Two bytes of a word. *)
Lemma two_bytes w j v : 0 ≤ j ≤ 2 → 0 ≤ v < 2 ^ 16 → byte_of w j = byte_of v 0 → byte_of w (j + 1) = byte_of v 1 → u16 (Z.shiftr w (j * 8)) = v.
Proof.
  intros Hj Hv H0 H1. apply Z.bits_inj'. intros i Hi. unfold u16. destruct (Z.lt_ge_cases i 16) as [Hlt|Hge].
  - rewrite Z.mod_pow2_bits_low, Z.shiftr_spec by lia. destruct (Z.lt_ge_cases i 8).
    + apply (f_equal (λ z, Z.testbit z i)) in H0. rewrite !byte_testbit in H0 by lia. rewrite (proj2 (Z.ltb_lt i 8)) in H0 by lia. cbn [andb] in H0.
      replace (i + j * 8) with (8 * j + i) by lia. rewrite H0. f_equal; lia.
    + apply (f_equal (λ z, Z.testbit z (i - 8))) in H1. rewrite !byte_testbit in H1 by lia. rewrite (proj2 (Z.ltb_lt (i - 8) 8)) in H1 by lia. cbn [andb] in H1.
      replace (i + j * 8) with (8 * (j + 1) + (i - 8)) by lia. rewrite H1. f_equal; lia.
  - rewrite Z.mod_pow2_bits_high by lia. symmetry. by apply (bit_above v 16).
Qed.

(** C30: writing one byte of configuration space, or two at an even offset, writes the
    register that holds them once, as a whole: with the new bytes in their places and the
    others as they were read. What that register holds then is up to the device
    ([written]: bits can be read-only or cleared by writing 1), and every other register
    of every device stays as it is. So of a register that keeps what is written the bytes
    are read back and the others are as before. *)
Theorem pci_bytes_spec s dev a off v :
  blocks s !! dev = Some (b_pci a) → address_ok a → 0 ≤ off < 256 →
  let after w s' := ∀ dev' a' off', blocks s !! dev' = Some (b_pci a') → address_ok a' → 0 ≤ off' < 256 →
    wp (uacpi_kernel_pci_read8 dev' off') (λ x _, x = (UACPI_STATUS_OK,
      byte_of (if decide (same_register a a' off off') then written s a off w else config_word s a' off') (off' `mod` 4))) s' in
  (0 ≤ v < 2 ^ 8 → wp (uacpi_kernel_pci_write8 dev off v) (λ r s', r = UACPI_STATUS_OK ∧ ∃ w, 0 ≤ w < 2 ^ 32 ∧
    (∀ k, 0 ≤ k < 4 → byte_of w k = if decide (k = off `mod` 4) then v else byte_of (config_word s a off) k) ∧ after w s') s) ∧
  (0 ≤ v < 2 ^ 16 → off `mod` 2 = 0 → wp (uacpi_kernel_pci_write16 dev off v) (λ r s', r = UACPI_STATUS_OK ∧ ∃ w, 0 ≤ w < 2 ^ 32 ∧
    (∀ k, 0 ≤ k < 4 → byte_of w k = if decide (k = off `mod` 4) then byte_of v 0 else if decide (k = off `mod` 4 + 1) then byte_of v 1 else byte_of (config_word s a off) k) ∧
    after w s' ∧ (written s a off w = w → wp (uacpi_kernel_pci_read16 dev off) (λ x _, x = (UACPI_STATUS_OK, v)) s')) s).
Proof.
  intros Hb Ha Ho after.
  assert (∀ w s', config_set s s' a off w → after w s') as Hafter.
  { intros w s' [Eb Hw] dev' a' off' Hb' Ha' Ho'. eapply wp_mono; [apply (wp_pci_read8 _ _ a'); [by rewrite Eb|done]|]. intros x _ ->. unfold config_byte. by rewrite Hw. }
  split; intros Hv; [|intros He].
  - apply wp_bind. eapply wp_pci_at; [done|]. apply wp_bind, wp_config_read; [done|]. intros ca. apply wp_bind, wp_config_write; [done|done|]. intros s' Hset. apply wp_ret. split; [done|].
    eexists. refine (conj _ (conj _ (Hafter _ _ Hset))); [apply replaced_range|]. intros k Hk. rewrite low_bits by dlia. rewrite (Z.mul_comm _ 8).
    pose proof (replaced_byte (config_word s a off) 1 v (off `mod` 4) k) as Hrep. unfold replaced in Hrep. change (8 * 1) with 8 in Hrep. change (Z.ones 8) with 0xFF in Hrep.
    rewrite Hrep by dlia. case_decide as Hd.
    + rewrite (proj2 (Z.leb_le _ _)), (proj2 (Z.ltb_lt _ _)) by dlia. cbn [andb]. rewrite Hd, Z.sub_diag. unfold byte_of. by apply u8_id.
    + destruct (Z.leb_spec (off `mod` 4) k), (Z.ltb_spec k (off `mod` 4 + 1)); [dlia|done..].
  - apply wp_bind. eapply wp_pci_at; [done|]. apply wp_bind, wp_config_read; [done|]. intros ca. apply wp_bind, wp_config_write; [done|done|]. intros s' Hset. apply wp_ret. split; [done|].
    rewrite (land_2 off), (Z.mul_comm _ 8) in Hset by dlia. set (w := Z.lor _ _) in Hset. exists w.
    assert (∀ k, 0 ≤ k < 4 → byte_of w k = if decide (k = off `mod` 4) then byte_of v 0 else if decide (k = off `mod` 4 + 1) then byte_of v 1 else byte_of (config_word s a off) k) as Hbytes.
    { intros k Hk. pose proof (replaced_byte (config_word s a off) 2 v (off `mod` 4) k) as Hrep. unfold replaced in Hrep. change (8 * 2) with 16 in Hrep. change (Z.ones 16) with 0xFFFF in Hrep.
      unfold w. rewrite Hrep by dlia. case_decide as Hd; [by rewrite (proj2 (Z.leb_le _ _)), (proj2 (Z.ltb_lt _ _)), Hd, Z.sub_diag by dlia|].
      case_decide as Hd'; [rewrite (proj2 (Z.leb_le _ _)), (proj2 (Z.ltb_lt _ _)) by dlia; cbn [andb]; f_equal; dlia|].
      destruct (Z.leb_spec (off `mod` 4) k), (Z.ltb_spec k (off `mod` 4 + 2)); [dlia|done..]. }
    split; [apply replaced_range|]. split; [exact Hbytes|]. split; [apply Hafter; exact Hset|]. intros Hkeep. destruct Hset as [Eb Hw].
    apply wp_bind. eapply wp_pci_at; [by rewrite Eb|]. apply wp_bind, wp_config_read; [done|]. intros ca'. apply wp_ret. f_equal.
    rewrite Hw, decide_True by done. change (written s a off w) with (written s a off w) in Hkeep. rewrite written_same, Hkeep, land_2 by dlia.
    apply two_bytes; [dlia|done|rewrite Hbytes, decide_True by dlia; done|rewrite Hbytes, decide_False, decide_True by dlia; done].
Qed.

(** * Handlers of interrupts *)

Section handlers.
Context (me entries_addr dispatch_addr irq_name : Z).
Hypothesis dispatch_there : dispatch_addr ≠ 0.
Hypothesis entries_there : 0 < entries_addr.
Local Abbreviation entry_addr := (Acpi.entry_addr entries_addr).
Local Abbreviation install := (uacpi_kernel_install_interrupt_handler me entries_addr dispatch_addr irq_name).
Local Abbreviation uninstall := (uacpi_kernel_uninstall_interrupt_handler me entries_addr).

(** The descriptor of a line with a handler of the library. *)
Definition acpi_desc (i v : Z) : irq_desc_t := mkDesc v i v dispatch_addr (entry_addr i) irq_name (Some IOAPIC) true.
(** An entry is free, or its vector has the descriptor of its line. *)
Definition entry_ok (s : acpi_state) (i : Z) (e : uacpi_irq_entry_t) : Prop :=
  e = zero_entry ∨ (e_handler e ≠ 0 ∧ device_vector (e_vector e) = true ∧
    irq_descs (of_irq s) !! Z.to_nat (e_vector e) = Some (acpi_desc i (e_vector e))).
Record handlers_inv (s : acpi_state) : Prop := {
  hi_irq : irq_inv (of_irq s);
  hi_len : length (entries s) = 256%nat;
  hi_ok i e : entries s !! i = Some e → entry_ok s (Z.of_nat i) e;
}.

Lemma entry_index i : 0 ≤ i → (entry_addr i - entries_addr) / 24 = i.
Proof. intros. unfold Acpi.entry_addr. replace (entries_addr + 24 * i - entries_addr) with (i * 24) by lia. by apply Z.div_mul. Qed.
Lemma wp_entry_at s i e (Q : uacpi_irq_entry_t → acpi_state → Prop) :
  0 ≤ i → entries s !! Z.to_nat i = Some e → Q e s → wp (entry_at entries_addr (entry_addr i)) Q s.
Proof. intros Hi He HQ. unfold wp, entry_at. by rewrite entry_index, He. Qed.
Lemma wp_set_entry s i e f (Q : unit → acpi_state → Prop) :
  entries s !! Z.to_nat i = Some e → Q tt (aput_entries (<[Z.to_nat i := f e]> (entries s)) s) → wp (set_entry i f) Q s.
Proof. unfold wp, set_entry. by intros ->. Qed.
(** The dispatch of a line calls the handler of its entry. *)
Lemma wp_dispatch s i e (Q : unit → acpi_state → Prop) :
  0 ≤ i → entries s !! Z.to_nat i = Some e → e_handler e ≠ 0 → Q tt (aput_called (called s ++ [(e_handler e, e_ctx e)]) s) →
  wp (uacpi_irq_dispatch entries_addr i (entry_addr i)) Q s.
Proof.
  intros Hi He Hh HQ. unfold uacpi_irq_dispatch. rewrite (proj2 (Z.eqb_neq _ _)) by (unfold Acpi.entry_addr; lia).
  apply wp_bind. eapply wp_entry_at; [done..|]. rewrite (proj2 (Z.eqb_neq _ _) Hh). by apply wp_modify.
Qed.
Lemma device_vector_range v : device_vector v = true → 32 ≤ v ≤ 239.
Proof. by rewrite device_vector_spec. Qed.

(** Other lines keep their descriptors when that of a vector is replaced. *)
Lemma handlers_inv_update s (q : irq_state) i e v d :
  handlers_inv s → irq_inv q → 0 ≤ i < 256 → irq_descs q = <[Z.to_nat v := d]> (irq_descs (of_irq s)) →
  (∀ j x, j ≠ i → irq_descs (of_irq s) !! Z.to_nat v = Some (acpi_desc j x) → False) → 0 ≤ v →
  entry_ok (aput_of_irq q s) i e →
  handlers_inv (aput_entries (<[Z.to_nat i := e]> (entries s)) (aput_of_irq q s)).
Proof.
  intros [Hq Hl Hok] Hq' Hi Hd Hno Hv He. split; [done|by cbn; rewrite length_insert|]. intros j y. cbn [entries aput_entries aput_of_irq].
  rewrite list_lookup_insert. destruct (decide _) as [[<- _]|Hne]; [intros [= <-]; by rewrite Z2Nat.id by lia|]. intros Hy.
  assert (Z.of_nat j ≠ i) as Hji by (intros <-; apply Hne; rewrite Nat2Z.id; split; [done|lia]).
  destruct (Hok j y Hy) as [->|(H1 & H2 & H3)]; [by left|]. right. split_and!; [done..|]. cbn. rewrite Hd. rewrite list_lookup_insert_ne; [done|].
  apply device_vector_range in H2. intros E. apply (Hno (Z.of_nat j) (e_vector y) Hji). by rewrite E.
Qed.

(** What is left of installing and uninstalling: the line is masked and leads to no
    vector, and the CPU has no entry for the vector. *)
Definition line_off (q q' : irq_state) (i v : Z) : irq_state :=
  set_regs (masked q' i) (set_isrs (<[Z.to_nat v := zero_isr]> (isrs q)) (put_line i 0 q)).
Lemma granted_given_back q i v h dat nm : irq_inv q → lowest_free q v →
  let q' := granted me q v i h dat nm in given_back q' v i = line_off q q' i v ∧ irq_descs q !! Z.to_nat v = Some zero_desc.
Proof.
  intros Hq Hlow q'. pose proof Hlow as (Hdv & Hu & _). pose proof (device_vector_range _ Hdv) as Hr.
  assert (irq_descs q !! Z.to_nat v = Some zero_desc) as Hz.
  { destruct (lookup_lt_is_Some_2 (irq_descs q) (Z.to_nat v)) as [d Hd]; [rewrite (inv_descs _ Hq); lia|].
    destruct (lookup_lt_is_Some_2 (isrs q) (Z.to_nat v)) as [x Hx]; [rewrite (inv_isrs _ Hq); lia|].
    pose proof (inv_vec _ Hq _ _ _ _ Hu Hd Hx) as Hvo. unfold vector_ok in Hvo. rewrite Z2Nat.id, Hdv in Hvo by lia. destruct Hvo as [[_ ->]|[? _]]; [done|lia]. }
  split; [|done]. unfold given_back, line_off, put_line. unfold q' at 2 3 4 5 6 7 8 9. simpl. rewrite !list_insert_insert_eq.
  rewrite (list_insert_id (irq_descs q)), (list_insert_id (vector_used q)) by done.
  assert ((λ m, <[Z.to_nat i := 0]> m) <$> ((λ m, <[Z.to_nat i := v]> m) <$> hwirq_to_irq (ioapic_domain q)) = (λ m, <[Z.to_nat i := 0]> m) <$> hwirq_to_irq (ioapic_domain q)) as Hmap.
  { destruct (hwirq_to_irq (ioapic_domain q)) as [m|]; simpl; [by rewrite list_insert_insert_eq|done]. }
  destruct q; simpl in *. by rewrite Hmap.
Qed.

(** C31: a handler for a free line gets the lowest free vector, whose interrupts call it
    with its context: the vector is in use and described, the line leads to it, the CPU
    dispatches it and the controller sends it ([granted]), and nothing else changes. When
    the handler is taken away again the line is masked at its controller and leads to no
    vector, the CPU has no entry for the vector, and everything else is as it was
    before the handler came. Without a free vector nothing changes, and a line that has a
    handler keeps it. *)
Theorem acpi_handler_spec s i h c : handlers_inv s → 0 ≤ i < 256 → h ≠ 0 →
  (entries s !! Z.to_nat i = Some zero_entry →
   wp (install i h c true) (λ r s', handlers_inv s' ∧
     ((r = (UACPI_STATUS_OUT_OF_MEMORY, None) ∧ no_free (of_irq s) ∧ s' = s) ∨
      (r = (UACPI_STATUS_OK, Some i) ∧ ∃ v, lowest_free (of_irq s) v ∧
        s' = aput_entries (<[Z.to_nat i := mkEntry h c v]> (entries s)) (aput_of_irq (granted me (of_irq s) v i dispatch_addr (entry_addr i) irq_name) s) ∧
        wp (uacpi_irq_dispatch entries_addr i (entry_addr i)) (λ _ s2, s2 = aput_called (called s' ++ [(h, c)]) s') s' ∧
        wp (uninstall h i) (λ r2 s2, r2 = UACPI_STATUS_OK ∧ handlers_inv s2 ∧ s2 = aput_of_irq (line_off (of_irq s) (of_irq s') i v) s) s'))) s) ∧
  (∀ e, entries s !! Z.to_nat i = Some e → e_handler e ≠ 0 → wp (install i h c true) (λ r s', r = (UACPI_STATUS_ALREADY_EXISTS, None) ∧ s' = s) s).
Proof.
  intros Hinv Hi Hh. assert ((256 <=? i) || negb true || (h =? 0) = false) as Hchk by (rewrite (proj2 (Z.leb_gt _ _)), (proj2 (Z.eqb_neq _ _) Hh) by lia; done).
  split; [|intros e He Hne; unfold uacpi_kernel_install_interrupt_handler; rewrite Hchk; apply wp_bind; eapply wp_entry_at; [lia|done|]; rewrite (proj2 (Z.eqb_neq _ _) Hne); by apply wp_ret].
  intros He. pose proof Hinv as [Hq Hl Hok]. unfold uacpi_kernel_install_interrupt_handler. rewrite Hchk. apply wp_bind. eapply wp_entry_at; [lia|done|]. cbn [e_handler zero_entry Z.eqb negb].
  apply wp_bind. eapply wp_set_entry; [done|]. cbn [e_vector zero_entry]. apply wp_bind, wp_zoom. assert (Z.to_nat i < length (entries s))%nat as Hlt by lia.
  apply (wp_irq_request_run me (of_irq s) i dispatch_addr (entry_addr i) irq_name); [done|done|lia|intros Hno|intros v Hlow].
  - cbn [Z.ltb Z.compare]. apply wp_bind. eapply wp_set_entry; [cbn [entries aput_entries aput_of_irq]; by apply list_lookup_insert_eq|]. apply wp_ret. cbn [entries aput_entries aput_of_irq e_vector].
    rewrite list_insert_insert_eq. change (mkEntry 0 0 0) with zero_entry. rewrite (list_insert_id (entries s)) by done.
    match goal with |- handlers_inv ?t ∧ _ => assert (t = s) as -> by (by destruct s) end. split; [done|]. by left.
  - pose proof Hlow as (Hdv & Hu & _). pose proof (device_vector_range _ Hdv) as Hr. rewrite (proj2 (Z.ltb_ge v 0)) by lia.
    destruct (granted_given_back (of_irq s) i v dispatch_addr (entry_addr i) irq_name Hq Hlow) as [Hback Hz].
    assert (irq_inv (granted me (of_irq s) v i dispatch_addr (entry_addr i) irq_name)) as Hq' by (by apply granted_inv). set (q := granted _ _ _ _ _ _ _) in *.
    apply wp_bind. eapply wp_set_entry; [cbn [entries aput_entries aput_of_irq]; by apply list_lookup_insert_eq|]. apply wp_ret. cbn [entries aput_entries aput_of_irq e_vector e_handler e_ctx].
    rewrite list_insert_insert_eq. set (e' := mkEntry h c v). match goal with |- handlers_inv ?t ∧ _ => assert (t = aput_entries (<[Z.to_nat i := e']> (entries s)) (aput_of_irq q s)) as -> by done end. set (s1 := aput_entries _ (aput_of_irq q s)).
    assert (irq_descs q !! Z.to_nat v = Some (acpi_desc i v)) as Hd by (unfold q; cbn; apply list_lookup_insert_eq; rewrite (inv_descs _ Hq); lia).
    assert (entries s1 !! Z.to_nat i = Some e') as He' by (by apply list_lookup_insert_eq).
    assert (handlers_inv s1) as Hinv1.
    { eapply (handlers_inv_update s q i e' v); [done|done|done|done| |lia|].
      - intros j x _. rewrite Hz. done.
      - right. by split_and!. }
    split; [done|]. right. split; [done|]. exists v. split_and!; [done|done|by eapply wp_dispatch; [lia|exact He'|done|]|].
    unfold uacpi_kernel_uninstall_interrupt_handler. rewrite (proj2 (Z.leb_gt _ _)) by lia. apply wp_bind. eapply wp_entry_at; [lia|exact He'|]. unfold e'. cbn [e_handler e_vector]. rewrite (proj2 (Z.eqb_neq _ _) Hh).
    apply wp_bind, wp_zoom. rewrite u32_id by lia. eapply (wp_irq_free_run me q v (acpi_desc i v)); [done|done|lia|cbn; lia|done|intros E; by destruct dispatch_there|]. intros _ _.
    apply wp_bind. eapply wp_set_entry; [exact He'|]. apply wp_ret. split; [done|].
    change (mkEntry 0 0 0) with zero_entry. cbn [entries aput_entries aput_of_irq s1 of_irq]. split.
    + apply (handlers_inv_update s1 (given_back q v i) i zero_entry v zero_desc Hinv1); [by apply given_back_inv|lia|done| |lia|by left].
      intros j x Hji. change (of_irq s1) with q. rewrite Hd. intros Hc. injection Hc. lia.
    + rewrite list_insert_insert_eq, list_insert_id by done. change (Irq.hwirq (acpi_desc i v)) with i. rewrite Hback. by destruct s.
Qed.
End handlers.

(** * Events and locks *)

(** The first round of a loop. *)
Lemma wp_loop_round {S X A} fuel (body : X → M S (X + A)) x (Q : A → S → Prop) s :
  wp (body x) (λ r s', match r with inl x' => wp (loop fuel body x') Q s' | inr a => Q a s' end) s → wp (loop (Datatypes.S fuel) body x) Q s.
Proof. intros H. unfold loop. fold (@loop S X A). apply wp_bind. eapply wp_mono; [exact H|]. by intros [x'|a] s'. Qed.

(** Without a permit the loop counts down and gives up. *)
Lemma wp_wait_without s p v n fuel (Q : bool → acpi_state → Prop) :
  blocks s !! p = Some (b_sem v) → v ≤ 0 → 0 < n < 2 ^ 16 → (Z.to_nat n < fuel)%nat → Q false s → wp (loop fuel (wait_event_round p) n) Q s.
Proof.
  intros Hb Hv Hn Hf HQ. apply (wp_loop (λ k m t, t = s ∧ 0 < m < 2 ^ 16 ∧ k = Z.to_nat m) _ _ (Z.to_nat n)); [done|by split; [|split]|].
  intros k m t (-> & Hm & ->). unfold wait_event_round. rewrite u16_id by lia. destruct (Z.gtb_spec (m - 1) 0).
  - apply wp_bind. eapply (wp_on_sem _ _ v _ false v); [done|unfold Sem.semaphore_try_wait, mbind, M_bind, gets; by rewrite Z.gtb_ltb, (proj2 (Z.ltb_ge 0 v)) by lia|].
    rewrite insert_id, aput_blocks_id by done. apply wp_ret. exists (Z.to_nat (m - 1)). split; [lia|]. split; [done|lia].
  - by apply wp_ret.
Qed.

(** Waiting for an event takes one permit if there is one and the time is not 1;
    without a permit it gives up and leaves everything as it is, and without a limit it
    does not return. A signal adds a permit, a reset takes all. *)
Theorem acpi_event_spec s p v t : blocks s !! p = Some (b_sem v) → p ≠ 0 → 0 ≤ v < 2 ^ 31 - 1 → 0 ≤ t < 2 ^ 16 →
  let with_value w := aput_blocks (<[p := b_sem w]> (blocks s)) s in
  (t ≠ 0xFFFF ∨ 0 < v → wp (uacpi_kernel_wait_for_event p t) (λ r s', if bool_decide (0 < v ∧ t ≠ 1) then r = true ∧ s' = with_value (v - 1) else r = false ∧ s' = s) s) ∧
  (t = 0xFFFF → v = 0 → uacpi_kernel_wait_for_event p t s = Hang) ∧
  uacpi_kernel_signal_event p s = Done (tt, with_value (v + 1)) ∧
  uacpi_kernel_reset_event p s = Done (tt, with_value 0).
Proof.
  intros Hb Hp Hv Ht with_value.
  assert (0 < v → Sem.semaphore_try_wait v = Done (true, v - 1)) as Htake by (intros; unfold Sem.semaphore_try_wait, mbind, M_bind, gets; rewrite Z.gtb_ltb, (proj2 (Z.ltb_lt 0 v)), i32_id by lia; done).
  split_and!.
  - intros Hor. unfold uacpi_kernel_wait_for_event. destruct (Z.eqb_spec t 0xFFFF) as [->|Hne].
    + destruct Hor; [done|]. apply wp_bind. eapply wp_on_sem; [done|by apply Htake|]. apply wp_ret. rewrite bool_decide_true by lia. done.
    + destruct (decide (t = 1)) as [->|H1].
      { rewrite bool_decide_false by lia. apply wp_loop_round. unfold wait_event_round. cbn. by apply wp_ret. }
      destruct (decide (0 < v)) as [Hpos|Hz].
      * rewrite bool_decide_true by done. assert (u16 (t - 1) >? 0 = true) as Hgt.
        { rewrite Z.gtb_ltb. apply Z.ltb_lt. destruct (decide (t = 0)) as [->|]; [done|]. rewrite u16_id by lia. lia. }
        apply wp_loop_round. unfold wait_event_round. rewrite Hgt. apply wp_bind. eapply wp_on_sem; [done|by apply Htake|]. by apply wp_ret.
      * rewrite bool_decide_false by lia. destruct (decide (t = 0)) as [->|H0]; [|eapply wp_wait_without; [done|lia|lia|lia|done]].
        apply wp_loop_round. unfold wait_event_round at 1. change (u16 (0 - 1)) with 65535. cbn [Z.gtb Z.compare]. apply wp_bind.
        eapply (wp_on_sem _ _ v _ false v); [done|unfold Sem.semaphore_try_wait, mbind, M_bind, gets; by rewrite Z.gtb_ltb, (proj2 (Z.ltb_ge 0 v)) by lia|].
        rewrite insert_id, aput_blocks_id by done. apply wp_ret. eapply wp_wait_without; [done|lia|lia|lia|done].
  - intros -> ->. unfold uacpi_kernel_wait_for_event, mbind, M_bind. cbn [Z.eqb Pos.eqb]. by rewrite (on_sem_run _ _ 0 _ false 0).
  - unfold uacpi_kernel_signal_event. rewrite (proj2 (Z.eqb_neq _ _) Hp). apply (on_sem_run _ _ v); [done|]. unfold Sem.semaphore_signal, modify. by rewrite i32_id by lia.
  - unfold uacpi_kernel_reset_event. rewrite (proj2 (Z.eqb_neq _ _) Hp). by apply (on_sem_run _ _ v).
Qed.
(** An event that has been signalled is missed when the time is 1, and the time 0 is the longest. *)
Example wait_one_tick s : uacpi_kernel_wait_for_event 8 1 (aput_blocks {[8 := b_sem 5]} s) = Done (false, aput_blocks {[8 := b_sem 5]} s).
Proof. reflexivity. Qed.

(** A spinlock of the library is taken and given back, and the flags are as before. The
    lock is not one of those that turn interrupts off, so they stay on in between. *)
Theorem acpi_spinlock_spec me s p fl : blocks s !! p = Some (b_lock SPINLOCK_INIT) → p ≠ 0 → fl = cflags s →
  wp (uacpi_kernel_lock_spinlock me p) (λ r s', r = fl ∧ s' = aput_blocks (<[p := b_lock (mkLock 1 me 0 0)]> (blocks s)) s ∧
    uacpi_kernel_lock_spinlock me p s' = Hang ∧ wp (uacpi_kernel_unlock_spinlock me p r) (λ _ s2, s2 = s) s') s.
Proof.
  intros Hb Hp ->. unfold uacpi_kernel_lock_spinlock at 1. apply wp_bind, wp_gets. rewrite (proj2 (Z.eqb_neq _ _) Hp). apply wp_bind. eapply wp_on_lock; [done|reflexivity|]. apply wp_ret.
  split; [done|]. split; [by destruct s|]. set (s1 := aput_cflags _ _). assert (blocks s1 !! p = Some (b_lock (mkLock 1 me 0 0))) as Hb1 by apply lookup_insert_eq. split.
  - unfold uacpi_kernel_lock_spinlock, mbind, M_bind, gets. rewrite (proj2 (Z.eqb_neq _ _) Hp). unfold on_lock, block_at, mbind, M_bind. rewrite Hb1. done.
  - unfold uacpi_kernel_unlock_spinlock. rewrite (proj2 (Z.eqb_neq _ _) Hp). apply wp_bind. eapply wp_on_lock; [done|reflexivity|]. apply wp_modify.
    assert (<[p := b_lock SPINLOCK_INIT]> (blocks s1) = blocks s) as E by (cbn [s1 blocks aput_blocks aput_cflags]; by rewrite insert_insert_eq, insert_id by exact Hb).
    unfold SPINLOCK_INIT in E. cbn [irq_lock rflags]. rewrite E. by destruct s.
Qed.

(** * Ranges of memory and of ports *)

(** The pages that are mapped for a range hold all of it and end less than a page behind it;
    the address that is returned is that of its first byte. *)
Theorem acpi_map_covers me hhdm region addr len' s : 0 ≤ addr → 0 < len' → addr + len' + 2 * PAGE_SIZE < 2 ^ 64 →
  ∃ first n, first ≤ addr ∧ addr + len' ≤ first + n * PAGE_SIZE < addr + len' + PAGE_SIZE ∧ first `mod` PAGE_SIZE = 0 ∧
    uacpi_kernel_map me hhdm region addr len' s =
      (pt ← gets (λ s, kernel_pt (of_paging s));
       when (negb (pt =? 0)) (in_paging (map_mmio me hhdm pt (PHYS_TO_VIRT hhdm first) first n) ;; in_paging (reg_kernel_mmio me region (PHYS_TO_VIRT hhdm first) first n)) ;;
       mret (u64 (PHYS_TO_VIRT hhdm first + (addr - first)))) s.
Proof.
  intros Ha Hl Hs. unfold PAGE_SIZE in Hs. assert (ALIGN_DOWN addr PAGE_SIZE = addr / 4096 * 4096) as Ed by (unfold ALIGN_DOWN, PAGE_SIZE; uint; dlia).
  assert (addr = 4096 * (addr / 4096) + addr `mod` 4096) as E by (apply Z.div_mod; lia). assert (0 ≤ addr `mod` 4096 < 4096) as Hm by (apply Z.mod_pos_bound; lia). assert (0 ≤ addr / 4096) as Hq by (apply Z.div_pos; lia).
  set (q := addr / 4096) in *. set (m := addr `mod` 4096) in *. clearbody q m. subst addr.
  exists (q * 4096), ((m + len' + 4095) / 4096). unfold PAGE_SIZE. split_and!; [lia|dlia|dlia|apply Z.mod_mul; lia|].
  unfold uacpi_kernel_map. rewrite Ed. rewrite (u64_id (4096 * q + m - q * 4096)) by lia. rewrite (u64_id (len' + _)) by lia.
  assert (ALIGN_UP (len' + (4096 * q + m - q * 4096)) PAGE_SIZE / PAGE_SIZE = (m + len' + 4095) / 4096) as ->; [|done].
  unfold ALIGN_UP, DIV_ROUND_UP, PAGE_SIZE. replace (len' + (4096 * q + m - q * 4096) + (4096 - 1)) with (m + len' + 4095) by lia. set (L := m + len' + 4095). assert (0 ≤ L < 2 ^ 64) as HL by lia. rewrite (u64_id L HL). rewrite u64_id by (clearbody L; clear -HL; dlia). by rewrite Z.div_mul by lia.
Qed.

(** A range of ports is accessed at its base and the offset; giving it back takes the
    range itself for a pointer: the block is never freed, and what its bytes spell is. *)
Theorem io_unmap_wrong s io x : blocks s !! io = Some (b_io x) →
  (io_word x ≠ 0 → blocks s !! io_word x = None → uacpi_kernel_io_unmap io s = Fault) ∧
  (∀ s', uacpi_kernel_io_unmap io s = Done (tt, s') → io_word x ≠ io → is_Some (blocks s' !! io)).
Proof.
  intros Hb. unfold uacpi_kernel_io_unmap, io_at, kfree, block_at, mbind, M_bind. rewrite Hb. cbn. split.
  - intros Hne Hno. rewrite (proj2 (Z.eqb_neq _ _) Hne). by rewrite Hno.
  - intros s'. destruct (Z.eqb_spec (io_word x) 0); [intros [= <-] _; by exists (b_io x)|]. destruct (blocks s !! io_word x); [|done]. cbn. unfold put_block. cbn [blocks aput_blocks].
    destruct (delete (io_word x) (blocks s) !! io); [|done]. intros [= <-] _. cbn. rewrite lookup_insert_eq. by eexists.
Qed.

(** A device on the bus, an event, a lock and a range of ports. *)
Module AcpiDemo.
Definition device : uacpi_pci_address := mkPciAddress 0 0 1 0.
(** Of its status register, the upper half of the word at 4, some bits are cleared by
    writing 1 to them and the others cannot be written. *)
Definition card_takes (a w v : Z) : Z :=
  if a =? config_addr 0 1 0 4 then Z.lor (Z.land v 0xFFFF) (Z.land (Z.land w 0xFFFF0000) (not32 (Z.land v 0xF9000000))) else v.
Definition card : dev_state :=
  mkDs ∅ ∅ ∅ ∅ ∅ 0 0 0 [] [] [] 0 (<[config_addr 0 1 0 4 := 0x22900007]> (<[config_addr 0 1 0 0x3C := 0x010b]> PciDemo.space)) card_takes.
Definition state : acpi_state :=
  mkAcpi {[1 := b_pci device; 8 := b_sem 2; 9 := b_lock SPINLOCK_INIT]} [16; 24] (replicate 256 zero_entry) 514 [] []
    demo_irq ex_paging card (LogDemo.st0 TermDemo.at_boot).
Lemma state_inv : handlers_inv 4096 7 5 state.
Proof.
  split; [apply demo_irq_inv|done|]. intros i e He. left. by apply lookup_replicate in He as [-> _].
Qed.
(** A range of four ports from 0xB2 on is mapped, written to and given back, which ends
    with the release of an address that is no block. *)
Example io_run : match (r ← uacpi_kernel_io_map (λ _, 0) 0xB2 4; uacpi_kernel_io_write8 (default 0 r.2) 1 0xF0 ;; mret (r.2)) state with
  | Done (h, s) => (h, port_events s, uacpi_kernel_io_unmap (default 0 h) s) | _ => (None, [], Hang) end = (Some 16, [port_out 1 0xB3 0xF0], Fault).
Proof. vm_compute. reflexivity. Qed.
End AcpiDemo.

(** Clearing a bit of the command register, two bytes at 4, clears the status bits that
    were set in the two bytes behind it. *)
Example status_cleared : match (b ← uacpi_kernel_pci_read16 1 6; uacpi_kernel_pci_write16 1 4 6 ;; c ← uacpi_kernel_pci_read16 1 4; a ← uacpi_kernel_pci_read16 1 6; mret (b, c, a)) AcpiDemo.state with
  | Done (r, _) => r | _ => ((UACPI_STATUS_OK, 0), (UACPI_STATUS_OK, 0), (UACPI_STATUS_OK, 0)) end =
  ((UACPI_STATUS_OK, 0x2290), (UACPI_STATUS_OK, 6), (UACPI_STATUS_OK, 0x0290)).
Proof. vm_compute. reflexivity. Qed.

Theorem pci_bytes_spec_witness :
  wp (uacpi_kernel_pci_write8 1 0x3C 0xA5) (λ r s', r = UACPI_STATUS_OK ∧
    wp (uacpi_kernel_pci_read8 1 0x3C) (λ x _, x = (UACPI_STATUS_OK, 0xA5)) s' ∧ wp (uacpi_kernel_pci_read8 1 6) (λ x _, x = (UACPI_STATUS_OK, 0x90)) s') AcpiDemo.state.
Proof.
  destruct (pci_bytes_spec AcpiDemo.state 1 AcpiDemo.device 0x3C 0xA5 eq_refl ltac:(split_and!; cbn; lia) ltac:(lia)) as [H _].
  eapply wp_mono; [apply H; lia|]. intros r s' (-> & w & Hw & Hk & Hafter). split; [done|]. split.
  - eapply wp_mono; [apply (Hafter 1 AcpiDemo.device 0x3C); [reflexivity|split_and!; cbn; lia|lia]|]. intros x _ ->. rewrite decide_True by (vm_compute; done).
    change (written _ _ _ w) with (u32 w). rewrite u32_id by lia. change (0x3C `mod` 4) with 0. rewrite Hk by lia. reflexivity.
  - eapply wp_mono; [apply (Hafter 1 AcpiDemo.device 6); [reflexivity|split_and!; cbn; lia|lia]|]. intros x _ ->. rewrite decide_False by (vm_compute; naive_solver). reflexivity.
Defined.
Theorem acpi_handler_spec_witness :
  wp (uacpi_kernel_install_interrupt_handler 0 4096 7 5 9 77 3 true) (λ r s', r.1 = UACPI_STATUS_OK ∨ no_free (of_irq AcpiDemo.state)) AcpiDemo.state.
Proof.
  destruct (acpi_handler_spec 0 4096 7 5 ltac:(lia) ltac:(lia) AcpiDemo.state 9 77 3 AcpiDemo.state_inv ltac:(lia) ltac:(lia)) as [H _].
  eapply wp_mono; [apply H; reflexivity|]. intros r s' [_ [(_ & Hno & _)|(-> & _)]]; [by right|by left].
Defined.
Theorem acpi_event_spec_witness :
  uacpi_kernel_signal_event 8 AcpiDemo.state = Done (tt, aput_blocks (<[8 := b_sem 3]> (blocks AcpiDemo.state)) AcpiDemo.state).
Proof. destruct (acpi_event_spec AcpiDemo.state 8 2 10 eq_refl ltac:(lia) ltac:(lia) ltac:(lia)) as (_ & _ & H & _). exact H. Defined.
