(* ===== verification/Apic.v ===== *)
(** Finding and starting the interrupt controllers: the rest of
    [src/kernel/src/arch/interrupts/apic.c], with [pit.c]; the table of gates and the
    entry from it, [idt.c].

    The tables of the firmware belong to the uACPI library: what is at an address of
    the MADT is a parameter, of which the code reads type, length and the fields
    below. The registers of the LAPIC other than its number are a log of writes. Its
    counter is a function of time, a parameter: a read gives what the counter shows at
    the instant of the read. The instants at which the interrupts of the timer come
    during calibration, and at which a sleeping processor looks at the counter, are
    arguments. *)
From S2P Require Import Prelude Sync Irq Pmm Paging.

Definition LAPIC_SIZE : Z := 0x1000.
Definition IA32_APIC_BASE_ENABLE : Z := 2 ^ 11.
Definition LAPIC_REG_SVR : Z := 0x0F0.
Definition LAPIC_REG_TPR : Z := 0x080.
Definition LAPIC_REG_DFR : Z := 0x0E0.
Definition LAPIC_REG_LDR : Z := 0x0D0.
Definition LAPIC_REG_LVT_TIMER : Z := 0x320.
Definition LAPIC_REG_LVT_THERMAL : Z := 0x330.
Definition LAPIC_REG_LVT_PMC : Z := 0x340.
Definition LAPIC_REG_LVT_LINT0 : Z := 0x350.
Definition LAPIC_REG_LVT_LINT1 : Z := 0x360.
Definition LAPIC_REG_LVT_ERROR : Z := 0x370.
Definition LAPIC_REG_TIMER_INITCNT : Z := 0x380.
Definition LAPIC_REG_TIMER_DIVIDE : Z := 0x3E0.
Definition APIC_LVT_PERIODIC : Z := 2 ^ 17.
Definition APIC_SVR_ENABLE : Z := 2 ^ 8.
Definition PIT_CMD : Z := 0x43.
Definition PIT_CH0 : Z := 0x40.
Definition PIT_FREQUENCY : Z := 1193182.

(** What an entry of the MADT says, as far as it is used. *)
Inductive madt_entry :=
  | madt_ioapic (io : ioapic_entry)
  | madt_iso (x : iso_entry)
  | madt_lapic_address (a : Z)
  | madt_other.
(** [struct acpi_madt]: its length and the address of the LAPIC; the address of its
    first entry. *)
Record acpi_madt := mkMadt { madt_first : Z; madt_end : Z; local_interrupt_controller_address : Z }.

(** The static variables, and the machine. *)
Record apic_state := mkApic {
  ap_irq : irq_state;
  ap_paging : paging;
  apic_base_msr : Z;
  lapic_writes : list (Z * Z);
  port_writes : list (Z * Z);
  counter : Z → Z;                   (* what the counter of the LAPIC shows at an instant *)
  now : Z;                           (* the instant *)
  if_flag : bool;
  lapic_start : Z;
  lapic_end : Z;
  lapic_done : bool;
  lapic_calib_count : Z;
  lapic_freq_hz : Z;
  tsc_freq : Z;
}.
Definition cput_irq v s := mkApic v (ap_paging s) (apic_base_msr s) (lapic_writes s) (port_writes s) (counter s) (now s) (if_flag s) (lapic_start s) (lapic_end s) (lapic_done s) (lapic_calib_count s) (lapic_freq_hz s) (tsc_freq s).
Definition cput_paging v s := mkApic (ap_irq s) v (apic_base_msr s) (lapic_writes s) (port_writes s) (counter s) (now s) (if_flag s) (lapic_start s) (lapic_end s) (lapic_done s) (lapic_calib_count s) (lapic_freq_hz s) (tsc_freq s).
Definition cput_msr v s := mkApic (ap_irq s) (ap_paging s) v (lapic_writes s) (port_writes s) (counter s) (now s) (if_flag s) (lapic_start s) (lapic_end s) (lapic_done s) (lapic_calib_count s) (lapic_freq_hz s) (tsc_freq s).
Definition cput_lapic_writes v s := mkApic (ap_irq s) (ap_paging s) (apic_base_msr s) v (port_writes s) (counter s) (now s) (if_flag s) (lapic_start s) (lapic_end s) (lapic_done s) (lapic_calib_count s) (lapic_freq_hz s) (tsc_freq s).
Definition cput_port_writes v s := mkApic (ap_irq s) (ap_paging s) (apic_base_msr s) (lapic_writes s) v (counter s) (now s) (if_flag s) (lapic_start s) (lapic_end s) (lapic_done s) (lapic_calib_count s) (lapic_freq_hz s) (tsc_freq s).
Definition cput_counter v s := mkApic (ap_irq s) (ap_paging s) (apic_base_msr s) (lapic_writes s) (port_writes s) v (now s) (if_flag s) (lapic_start s) (lapic_end s) (lapic_done s) (lapic_calib_count s) (lapic_freq_hz s) (tsc_freq s).
Definition cput_now v s := mkApic (ap_irq s) (ap_paging s) (apic_base_msr s) (lapic_writes s) (port_writes s) (counter s) v (if_flag s) (lapic_start s) (lapic_end s) (lapic_done s) (lapic_calib_count s) (lapic_freq_hz s) (tsc_freq s).
Definition cput_if v s := mkApic (ap_irq s) (ap_paging s) (apic_base_msr s) (lapic_writes s) (port_writes s) (counter s) (now s) v (lapic_start s) (lapic_end s) (lapic_done s) (lapic_calib_count s) (lapic_freq_hz s) (tsc_freq s).
Definition cput_start v s := mkApic (ap_irq s) (ap_paging s) (apic_base_msr s) (lapic_writes s) (port_writes s) (counter s) (now s) (if_flag s) v (lapic_end s) (lapic_done s) (lapic_calib_count s) (lapic_freq_hz s) (tsc_freq s).
Definition cput_end v s := mkApic (ap_irq s) (ap_paging s) (apic_base_msr s) (lapic_writes s) (port_writes s) (counter s) (now s) (if_flag s) (lapic_start s) v (lapic_done s) (lapic_calib_count s) (lapic_freq_hz s) (tsc_freq s).
Definition cput_done v s := mkApic (ap_irq s) (ap_paging s) (apic_base_msr s) (lapic_writes s) (port_writes s) (counter s) (now s) (if_flag s) (lapic_start s) (lapic_end s) v (lapic_calib_count s) (lapic_freq_hz s) (tsc_freq s).
Definition cput_count v s := mkApic (ap_irq s) (ap_paging s) (apic_base_msr s) (lapic_writes s) (port_writes s) (counter s) (now s) (if_flag s) (lapic_start s) (lapic_end s) (lapic_done s) v (lapic_freq_hz s) (tsc_freq s).
Definition cput_freq v s := mkApic (ap_irq s) (ap_paging s) (apic_base_msr s) (lapic_writes s) (port_writes s) (counter s) (now s) (if_flag s) (lapic_start s) (lapic_end s) (lapic_done s) (lapic_calib_count s) v (tsc_freq s).
Definition cput_tsc v s := mkApic (ap_irq s) (ap_paging s) (apic_base_msr s) (lapic_writes s) (port_writes s) (counter s) (now s) (if_flag s) (lapic_start s) (lapic_end s) (lapic_done s) (lapic_calib_count s) (lapic_freq_hz s) v.
Local Abbreviation St := apic_state.
Definition iput_ioapics v s := mkIrq (lk s) (irq_descs s) (vector_used s) (ioapic_domain s) (lapic_domain s) (isrs s) v (iso_table s) (regs s) (lapic_virt s) (lapic_id s) (eois s).
Definition iput_isos v s := mkIrq (lk s) (irq_descs s) (vector_used s) (ioapic_domain s) (lapic_domain s) (isrs s) (ioapics s) v (regs s) (lapic_virt s) (lapic_id s) (eois s).
Definition iput_lapic_virt v s := mkIrq (lk s) (irq_descs s) (vector_used s) (ioapic_domain s) (lapic_domain s) (isrs s) (ioapics s) (iso_table s) (regs s) v (lapic_id s) (eois s).

Definition of_irqs {A} (m : M irq_state A) : M St A := zoom ap_irq cput_irq m.
Definition of_pages {A} (m : M paging A) : M St A := zoom ap_paging cput_paging m.
Definition lapic_write (reg val : Z) : M St unit := modify (λ s, cput_lapic_writes (lapic_writes s ++ [(reg, u32 val)]) s).
(** [lapic_read(LAPIC_REG_TIMER_CURRCNT)] *)
Definition read_counter : M St Z := gets (λ s, counter s (now s)).
Definition port_out8 (port v : Z) : M St unit := modify (λ s, cput_port_writes (port_writes s ++ [(port, u8 v)]) s).

(** * [pit.c] *)

Definition pit_init (hz : Z) : M St unit :=
  let hz := if hz =? 0 then 100 else hz in
  let reload := u16 (PIT_FREQUENCY / hz) in
  port_out8 PIT_CMD 0x34 ;;
  port_out8 PIT_CH0 (Z.land reload 0xFF) ;;
  port_out8 PIT_CH0 (Z.shiftr reload 8).
Definition pit_stop : M St unit :=
  port_out8 PIT_CMD 0x30 ;;
  port_out8 PIT_CH0 0 ;;
  port_out8 PIT_CH0 0.

Section apic.
(** The running CPU and [kernel_info.hhdm_offset]; the addresses of the handlers. *)
Context (me hhdm_offset spurious_isr calibrate_isr : Z).

(** * [apic_init] *)

Definition apic_map_mmio (region phys size : Z) : M St unit :=
  if (phys =? 0) || (size =? 0) then mret tt else
  let vaddr := PHYS_TO_VIRT hhdm_offset phys in
  let npages := ALIGN_UP size PAGE_SIZE / PAGE_SIZE in
  pt ← gets (λ s, kernel_pt (ap_paging s));
  when (negb (pt =? 0)) (
    of_pages (map_mmio me hhdm_offset pt vaddr phys npages) ;;
    of_pages (reg_kernel_mmio me region vaddr phys npages)).
Definition lapic_enable (lapic_phys : Z) : M St unit :=
  apic_base ← gets apic_base_msr;
  let msr_base := Z.land apic_base 0xFFFFF000 in
  let apic_base := if negb (msr_base =? lapic_phys) then Z.lor (Z.land apic_base (not64 0xFFFFF000)) (Z.land lapic_phys 0xFFFFF000) else apic_base in
  modify (cput_msr (Z.lor apic_base IA32_APIC_BASE_ENABLE)) ;;
  of_irqs (modify (iput_lapic_virt (PHYS_TO_VIRT hhdm_offset lapic_phys))) ;;
  lapic_write LAPIC_REG_TPR 0 ;;
  lapic_write LAPIC_REG_DFR 0xFFFFFFFF ;;
  lapic_write LAPIC_REG_LDR 0x01000000 ;;
  lapic_write LAPIC_REG_LVT_TIMER APIC_LVT_MASKED ;;
  lapic_write LAPIC_REG_LVT_THERMAL APIC_LVT_MASKED ;;
  lapic_write LAPIC_REG_LVT_PMC APIC_LVT_MASKED ;;
  lapic_write LAPIC_REG_LVT_LINT0 APIC_LVT_MASKED ;;
  lapic_write LAPIC_REG_LVT_LINT1 APIC_LVT_MASKED ;;
  lapic_write LAPIC_REG_LVT_ERROR APIC_LVT_MASKED ;;
  of_irqs (register_interrupt me 0xFF spurious_isr 0) ;;
  lapic_write LAPIC_REG_SVR (Z.lor 0xFF APIC_SVR_ENABLE).
(** What is at an address of the table, and the length it says it has. *)
Context (entry_at : Z → madt_entry) (entry_length : Z → Z).
Definition record_entry (e : madt_entry) (lapic_phys : Z) : M St Z :=
  match e with
  | madt_ioapic io =>
      of_irqs (modify (λ s, if decide (length (ioapics s) < MAX_IOAPICS)%nat then iput_ioapics (ioapics s ++ [io]) s else s)) ;;
      mret lapic_phys
  | madt_iso x =>
      of_irqs (modify (λ s, if decide (length (iso_table s) < MAX_ISO)%nat then iput_isos (iso_table s ++ [x]) s else s)) ;;
      mret lapic_phys
  | madt_lapic_address a => mret a
  | madt_other => mret lapic_phys
  end.
Definition madt_round (end_ : Z) (st : Z * Z) : M St (Z * Z + Z) :=
  let '(ptr, lapic_phys) := st in
  if ptr <? end_ then
    lapic_phys ← record_entry (entry_at ptr) lapic_phys;
    mret (inl (ptr + entry_length ptr, lapic_phys))
  else mret (inr lapic_phys).
(** [madt]: what the library finds; [regions]: what the heap answers. The fuel is one
    round per byte: an entry of length 0 makes the loop go round for ever. *)
Definition apic_init (madt : option acpi_madt) (regions : Z → Z) : M St Z :=
  match madt with
  | None => mret (-1)
  | Some t =>
      of_irqs (modify (λ s, iput_isos [] (iput_ioapics [] s))) ;;
      lapic_phys ← loop (S (Z.to_nat (madt_end t - madt_first t))) (madt_round (madt_end t)) (madt_first t, local_interrupt_controller_address t);
      msr ← gets apic_base_msr;
      let lapic_phys := if lapic_phys =? 0 then Z.land msr 0xFFFFF000 else lapic_phys in
      apic_map_mmio (regions 0) lapic_phys LAPIC_SIZE ;;
      l ← gets (λ s, ioapics (ap_irq s));
      for_n 0 (length l) (λ i, match l !! Z.to_nat i with Some io => apic_map_mmio (regions (i + 1)) (phys_addr io) PAGE_SIZE | None => fault end) ;;
      lapic_enable lapic_phys ;;
      of_irqs ioapic_mask_all ;;
      mret 0
  end.
Definition is_apic_enabled : M St bool := msr ← gets apic_base_msr; mret (flag msr IA32_APIC_BASE_ENABLE).

(** * The timer *)

Definition pit_calibrate_irq : M St unit :=
  modify (λ s, cput_count (u64 (lapic_calib_count s + 1)) s) ;;
  n ← gets lapic_calib_count;
  when (n =? 1) (v ← read_counter; modify (cput_start v)) ;;
  n ← gets lapic_calib_count;
  when (n =? 100) (v ← read_counter; modify (cput_end v) ;; modify (cput_done true)) ;;
  of_irqs apic_eoi.
(** The timer interrupts at each of these instants. *)
Fixpoint pit_interrupts (at_ : list Z) : M St unit :=
  match at_ with
  | [] => mret tt
  | t :: l => modify (cput_now t) ;; pit_calibrate_irq ;; pit_interrupts l
  end.
(** The wait: before each look at [lapic_done] some interrupts of the timer have
    come, [ticks] says at which instants; when the list ends no more come, and the
    rounds that are left change nothing. *)
Fixpoint calibrate_wait (spins : Z) (ticks : list (list Z)) : M St unit :=
  match ticks with
  | [] => mret tt
  | at_ :: l =>
      pit_interrupts at_ ;;
      d ← gets lapic_done;
      if d : bool then mret tt else
      if spins + 1 >? 200000000 then mret tt else calibrate_wait (spins + 1) l
  end.
(** [start] and [end_] are what the time stamp counter reads. *)
Definition lapic_timer_init (vector start end_ : Z) (ticks : list (list Z)) : M St unit :=
  modify (cput_done false) ;;
  modify (cput_count 0) ;;
  of_irqs (register_interrupt me 0xFE calibrate_isr 0) ;;
  of_irqs (apic_route_irq 0 0xFE) ;;
  pit_init 100 ;;
  lapic_write LAPIC_REG_TIMER_DIVIDE 0x3 ;;
  lapic_write LAPIC_REG_LVT_TIMER vector ;;
  lapic_write LAPIC_REG_TIMER_INITCNT 0xFFFFFFFF ;;
  modify (cput_if true) ;;
  calibrate_wait 0 ticks ;;
  modify (cput_tsc (u64 (end_ - start))) ;;
  pit_stop ;;
  lapic_delta ← gets (λ s, u32 (lapic_start s - lapic_end s));
  if lapic_delta =? 0 then mret tt else
  let ticks_per_ms := lapic_delta / 100 in
  modify (cput_freq (u32 (ticks_per_ms * 1000))) ;;
  let reload := ticks_per_ms in
  lapic_write LAPIC_REG_TIMER_DIVIDE 0x3 ;;
  lapic_write LAPIC_REG_LVT_TIMER (Z.lor vector APIC_LVT_PERIODIC) ;;
  lapic_write LAPIC_REG_TIMER_INITCNT reload ;;
  of_irqs (unregister_interrupt 0xFE) ;;
  of_irqs (apic_mask_irq 0).
(** The processor looks at the counter at each of these instants until it
    is zero; a list that ends before that is a sleep without end. *)
Fixpoint sleep_wait (looks : list Z) : M St unit :=
  match looks with
  | [] => hang
  | t :: l => modify (cput_now t) ;; v ← read_counter; if negb (v =? 0) then sleep_wait l else mret tt
  end.
Definition lapic_timer_sleep_kernel (ms : Z) (looks : list Z) : M St unit :=
  f ← gets lapic_freq_hz;
  if f =? 0 then mret tt else
  let ticks := u64 (f * ms) / 1000 in
  lapic_write LAPIC_REG_TIMER_DIVIDE 0x3 ;;
  lapic_write LAPIC_REG_LVT_TIMER APIC_LVT_MASKED ;;
  lapic_write LAPIC_REG_TIMER_INITCNT ticks ;;
  sleep_wait looks.
End apic.

(** * [idt.c] *)

Record idt_entry_t := mkGate { offset_low : Z; selector : Z; ist : Z; gate_flags : Z; offset_mid : Z; offset_high : Z }.
(** [isr_table] and the address of the handler of vector 0x80. *)
Definition idt_gate (isr_table : Z → Z) (legacy_syscall_handler i : Z) : idt_entry_t :=
  let addr := isr_table i in
  if i =? 0x80 then
    mkGate (Z.land legacy_syscall_handler 0xFFFF) 0x8 0 0xEE (Z.land (Z.shiftr legacy_syscall_handler 16) 0xFFFF) (Z.land (Z.shiftr legacy_syscall_handler 32) 0xFFFFFFFF)
  else
    mkGate (Z.land addr 0xFFFF) 0x8 0 0x8E (Z.land (Z.shiftr addr 16) 0xFFFF) (Z.land (Z.shiftr addr 32) 0xFFFFFFFF).
Definition idt_setup (isr_table : Z → Z) (legacy_syscall_handler : Z) : list idt_entry_t :=
  (λ i, idt_gate isr_table legacy_syscall_handler (Z.of_nat i)) <$> seq 0 256.
Definition idt_reload (me exception_isr : Z) : M irq_state unit :=
  for_n 0 0x20 (λ i, register_interrupt me i exception_isr 0).
(** [handle] runs a handler with the number of its entry, [end_of_interrupt] an
    [eoi] function; a vector without a handler stops the processor. *)
Definition interrupt_isr (handle end_of_interrupt : Z → isr_t → M irq_state unit) (sched_check_resched : M irq_state unit) (vec : Z) : M irq_state unit :=
  isr ← arr_read isrs vec;
  if isr_handler isr =? 0 then hang else
  handle (isr_handler isr) isr ;;
  isr ← arr_read isrs vec;
  when (negb (isr_eoi isr =? 0)) (end_of_interrupt (isr_eoi isr) isr) ;;
  sched_check_resched.

(** * [gdt.c] *)

Definition gdt_template : list Z :=
  [0; 0x00af9b000000ffff; 0x00af93000000ffff; 0x00eff3000000ffff; 0x00affb000000ffff; 0x0020890000000000; 0x0000000000000000].
Definition SIZEOF_IST : Z := 104.
(** The descriptor of the task state at [base] takes the last two words of the table. *)
Definition gdt_set_tss (base : Z) (gdt : list Z) : list Z :=
  let low := Z.lor (Z.lor (Z.lor (u64 (Z.shiftl (Z.land base 0xff000000) 32)) (u64 (Z.shiftl (Z.land base 0xff0000) 16))) (u64 (Z.shiftl (Z.land base 0xffff) 16))) SIZEOF_IST in
  let gdt := match gdt !! 5%nat with Some x => <[5%nat := Z.lor x low]> gdt | None => gdt end in
  <[6%nat := Z.land (Z.shiftr base 32) 0xffffffff]> gdt.
(** The table that [gdt_reload] gives to the processor. *)
Definition gdt_reload (tss : Z) : list Z := gdt_set_tss tss gdt_template.
