(* ===== verification/ApicTheorems.v ===== *)
(** What the start of the interrupt controllers finds in the tables of the firmware, how
    the timer is calibrated, and what the gates and descriptors of the processor say. *)
From S2P Require Import Pmm Paging PagingSpec PagingTheorems Prelude Sync Irq IrqTheorems Apic.

#[local] Arguments loop : simpl never.
#[local] Arguments for_n : simpl never.

(** * The entries of the MADT *)

Section madt.
Context (entry_at : Z → madt_entry) (entry_length : Z → Z).
(** The entries from an address on: each has a length. *)
Inductive madt_list (end_ : Z) : Z → list madt_entry → Prop :=
  | madt_nil p : end_ ≤ p → madt_list end_ p []
  | madt_cons p es : p < end_ → 0 < entry_length p → madt_list end_ (p + entry_length p) es → madt_list end_ p (entry_at p :: es).

Lemma madt_list_exists end_ p : (∀ q, p ≤ q < end_ → 0 < entry_length q) → ∃ es, madt_list end_ p es.
Proof.
  intros H. remember (Z.to_nat (end_ - p)) as n eqn:Hn. revert p H Hn. induction n as [n IH] using lt_wf_ind. intros p H ->.
  destruct (decide (p < end_)) as [Hlt|Hge]; [|exists []; constructor; lia]. pose proof (H p ltac:(lia)) as Hl.
  destruct (IH (Z.to_nat (end_ - (p + entry_length p))) ltac:(lia) (p + entry_length p)) as [es Hes]; [intros q Hq; apply H; lia|done|]. eexists. by constructor.
Qed.

Definition with_tables (ios : list ioapic_entry) (xs : list iso_entry) (s : apic_state) : apic_state := cput_irq (iput_isos xs (iput_ioapics ios (ap_irq s))) s.
Lemma with_tables_twice a b c d s : with_tables c d (with_tables a b s) = with_tables c d s.
Proof. done. Qed.


(** An entry that says it has no length is walked over for ever. *)
Theorem madt_zero_length end_ p a s : p < end_ → entry_length p = 0 → ∀ fuel, loop fuel (madt_round entry_at entry_length end_) (p, a) s = Hang.
Proof.
  intros Hlt Hl fuel. revert a s. induction fuel as [|fuel IH]; intros a s; [done|]. unfold loop. fold (@loop apic_state (Z * Z) Z). unfold mbind at 1, M_bind at 1.
  unfold madt_round at 1. rewrite (proj2 (Z.ltb_lt _ _) Hlt). unfold mbind, M_bind.
  assert (∃ b t, record_entry (entry_at p) a s = Done (b, t)) as (b & t & ->) by (destruct (entry_at p); unfold record_entry, of_irqs, zoom, modify, mbind, M_bind; eauto). rewrite Hl, Z.add_0_r. apply IH.
Qed.

(** * Starting the controllers *)

Section start.
Context (me hhdm spurious : Z) (regions : Z → Z).
Local Abbreviation map_range := (apic_map_mmio me hhdm).






(** Only registers of the IOAPICs change. *)
Definition regs_only (q q' : irq_state) : Prop := q' = set_regs (regs q') q.
#[global] Instance regs_only_trans : Transitive regs_only.
Proof. intros x y z H1 H2. unfold regs_only in *. rewrite H2, H1. done. Qed.
Definition pin_masked (q : irq_state) (a pin : Z) : Prop := regs q !! (a, 0x10 + 2 * pin) = Some (Z.lor APIC_LVT_MASKED 0x20).
(** None of the versions of the IOAPICs changes, and a pin that is masked stays so. *)
Definition masks_only (q q' : irq_state) : Prop := regs_only q q' ∧
  (∀ a, regs q' !! (a, 1) = regs q !! (a, 1)) ∧ ∀ a pin, 0 ≤ pin ≤ 119 → pin_masked q a pin → pin_masked q' a pin.
#[local] Instance masks_only_trans : Transitive masks_only.
Proof. intros x y z (H1 & H2 & H3) (H4 & H5 & H6). split; [by etrans|]. split; [intros a; by rewrite H5|]. intros a pin Hp Hm. apply H6; [done|]. by apply H3. Qed.
Local Abbreviation mask_each l := (for_each l (λ io, ver ← ioapic_read io IOAPIC_REG_VER; let max_redir := Z.land (Z.shiftr ver 16) 0xFF in for_n 0 (Z.to_nat (max_redir + 1)) (mask_pin io))).


End start.
End madt.

(** * The timer *)

Section timer.
Context (me calibrate_isr : Z).

Lemma wp_search_only g l q (Q : option (ioapic_entry * Z) → irq_state → Prop) : (∀ r, Q r q) → wp (ioapic_search g l) Q q.
Proof. intros HQ. induction l as [|io l IH]; [by apply wp_ret|]. apply wp_bind, wp_gets. cbv zeta. destruct ((_ <=? g) && (g <=? _)); [by apply wp_ret|done]. Qed.
Lemma wp_route_only src vec q : wp (apic_route_irq src vec) (λ _ q', regs_only q q') q.
Proof.
  unfold apic_route_irq. apply wp_bind, wp_gets. destruct (iso_search _ _) as [g fl]. apply wp_bind, wp_bind, wp_gets, wp_search_only. intros [[io pin]|]; [|apply wp_ret; by destruct q].
  apply wp_bind, wp_gets, wp_bind, wp_modify, wp_modify. by destruct q.
Qed.
Lemma wp_mask_only src q : wp (apic_mask_irq src) (λ _ q', regs_only q q') q.
Proof.
  unfold apic_mask_irq. apply wp_bind, wp_gets. destruct (iso_search _ _) as [g fl]. apply wp_bind, wp_bind, wp_gets, wp_search_only. intros [[io pin]|]; [|apply wp_ret; by destruct q].
  apply wp_bind, wp_gets, wp_modify. by destruct q.
Qed.

(** The state after interrupts of the calibration at the instants [ts]: the counter was
    read at the first and at the hundredth. *)
Definition ticked (ts : list Z) (s : apic_state) : apic_state :=
  let k := Z.of_nat (length ts) in
  mkApic (set_eois (eois (ap_irq s) + if lapic_virt (ap_irq s) =? 0 then 0 else k) (ap_irq s)) (ap_paging s) (apic_base_msr s) (lapic_writes s) (port_writes s)
    (counter s) (default (now s) (last ts)) (if_flag s)
    (from_option (counter s) (lapic_start s) (ts !! 0%nat)) (from_option (counter s) (lapic_end s) (ts !! 99%nat))
    (if decide (100 ≤ length ts)%nat then true else lapic_done s) k (lapic_freq_hz s) (tsc_freq s).
Lemma ticked_nil s : lapic_calib_count s = 0 → ticked [] s = s.
Proof.
  intros H. unfold ticked. assert ((if lapic_virt (ap_irq s) =? 0 then 0 else Z.of_nat (length (@nil Z))) = 0) as -> by (by destruct (_ =? 0)). rewrite Z.add_0_r.
  destruct s as [q]. destruct q. cbn in *. by rewrite H.
Qed.
Lemma lookup_snoc_ne {A} (l : list A) x i : i ≠ length l → (l ++ [x]) !! i = l !! i.
Proof.
  intros Hi. destruct (decide (i < length l)%nat); [by rewrite lookup_app_l|]. rewrite lookup_app_r by lia. rewrite (lookup_ge_None_2 l) by lia. apply lookup_ge_None_2. simpl. lia.
Qed.
(** The end of an interrupt is announced to a LAPIC that is there. *)
Lemma wp_end_tick t (Q : unit → apic_state → Prop) : Q tt (cput_irq (set_eois (eois (ap_irq t) + if lapic_virt (ap_irq t) =? 0 then 0 else 1) (ap_irq t)) t) → wp (of_irqs apic_eoi) Q t.
Proof.
  intros HQ. apply wp_zoom, wp_bind, wp_gets. destruct (lapic_virt (ap_irq t) =? 0); [|by apply wp_modify]. apply wp_ret. rewrite Z.add_0_r in HQ. destruct (ap_irq t) eqn:E. exact HQ.
Qed.
Lemma wp_tick ts t s (Q : unit → apic_state → Prop) : Z.of_nat (length ts) < 2 ^ 64 - 1 →
  Q tt (ticked (ts ++ [t]) s) → wp (modify (cput_now t) ;; pit_calibrate_irq) Q (ticked ts s).
Proof.
  intros Hk HQ. apply wp_bind, wp_modify. unfold pit_calibrate_irq. apply wp_bind, wp_modify, wp_bind, wp_gets. cbn [lapic_calib_count cput_count cput_now ticked]. rewrite u64_id by lia.
  unfold ticked in *. rewrite last_snoc, length_app, Nat2Z.inj_add in HQ. cbn [default length] in HQ. change (Z.of_nat 1) with 1 in HQ. set (k := Z.of_nat (length ts)) in *.
  assert (∀ e, e + (if lapic_virt (ap_irq s) =? 0 then 0 else k) + (if lapic_virt (ap_irq s) =? 0 then 0 else 1) = e + if lapic_virt (ap_irq s) =? 0 then 0 else k + 1) as He by (intros e; destruct (_ =? 0); lia).
  destruct (Z.eqb_spec (k + 1) 1) as [E1|N1]; [|destruct (Z.eqb_spec (k + 1) 100) as [E2|N2]]; cbn [when].
  - assert (ts = []) as -> by (destruct ts; [done|simpl in k; lia]). apply wp_bind, wp_bind, wp_gets, wp_modify, wp_bind, wp_gets. apply wp_bind, wp_ret, wp_end_tick.
    cbn -[Z.add] in HQ |- *. rewrite He. exact HQ.
  - assert (length ts = 99%nat) as Hl by lia. apply wp_bind, wp_ret, wp_bind, wp_gets. cbn [lapic_calib_count cput_count]. rewrite E2, Z.eqb_refl. cbn [when].
    apply wp_bind, wp_bind, wp_gets, wp_bind, wp_modify, wp_modify, wp_end_tick. rewrite lookup_snoc_ne, (list_lookup_middle ts [] t 99) in HQ by lia. rewrite decide_True in HQ by lia.
    cbn -[Z.add lookup] in HQ |- *. rewrite He. rewrite E2 in *. exact HQ.
  - apply wp_bind, wp_ret, wp_bind, wp_gets. cbn [lapic_calib_count cput_count]. rewrite (proj2 (Z.eqb_neq _ _) N2). apply wp_bind, wp_ret, wp_end_tick. rewrite !lookup_snoc_ne in HQ by lia.
    assert ((if decide (100 ≤ length ts + 1)%nat then true else lapic_done s) = if decide (100 ≤ length ts)%nat then true else lapic_done s) as Hd by (do 2 case_decide; [done|lia..|done]).
    rewrite Hd in HQ. cbn -[Z.add lookup] in HQ |- *. rewrite He. exact HQ.
Qed.
Lemma wp_pit_interrupts l : ∀ ts s (Q : unit → apic_state → Prop), Z.of_nat (length (ts ++ l)) < 2 ^ 64 → Q tt (ticked (ts ++ l) s) → wp (pit_interrupts l) Q (ticked ts s).
Proof.
  induction l as [|t l IH]; intros ts s Q Hn HQ; [rewrite app_nil_r in HQ; by apply wp_ret|]. rewrite length_app in Hn. simpl in Hn. cbn [pit_interrupts].
  enough (wp (modify (cput_now t) ;; pit_calibrate_irq) (λ _, wp (pit_interrupts l) Q) (ticked ts s)) as H. { apply wp_bind_inv in H. apply wp_bind. eapply wp_mono; [exact H|]. intros [] s1 H1. by apply wp_bind. }
  apply wp_tick; [lia|]. apply IH; rewrite <-app_assoc; [rewrite length_app; simpl; lia|exact HQ].
Qed.
(** A hundred interrupts end the wait. *)
Lemma wp_calibrate_wait s (Q : unit → apic_state → Prop) : lapic_done s = false → 
  ∀ l ts spins, (length ts < 100)%nat → (100 ≤ length (ts ++ concat l))%nat → Z.of_nat (length (ts ++ concat l)) < 2 ^ 64 → spins + Z.of_nat (length l) ≤ 200000000 →
  (∀ us vs, ts ++ concat l = us ++ vs → (100 ≤ length us)%nat → Q tt (ticked us s)) → wp (calibrate_wait spins l) Q (ticked ts s).
Proof.
  intros Hd. induction l as [|n l IH]; intros ts spins Hk Hs Hb Hlen HQ; cbn [concat length] in *; [rewrite app_nil_r in Hs; lia|]. rewrite app_assoc in *. cbn [calibrate_wait].
  apply wp_bind, wp_pit_interrupts; [rewrite length_app in Hb; lia|]. apply wp_bind, wp_gets. cbn [lapic_done ticked]. destruct (decide (100 ≤ length (ts ++ n))%nat) as [Hge|Hlt].
  - by eapply wp_ret, HQ.
  - rewrite Hd, Z.gtb_ltb, (proj2 (Z.ltb_ge _ _)) by lia. apply IH; [lia|done|done|lia|done].
Qed.
Lemma wp_unregister vec q (Q : unit → irq_state → Prop) : (Z.to_nat vec < length (isrs q))%nat → Q tt (set_isrs (<[Z.to_nat vec := zero_isr]> (isrs q)) q) → wp (unregister_interrupt vec) Q q.
Proof. intros. by apply wp_arr_write. Qed.

(** What starts and stops the timer of the calibration, and what is written to the LAPIC
    before it. *)
Definition pit_start_writes : list (Z * Z) := [(PIT_CMD, 0x34); (PIT_CH0, 0x9B); (PIT_CH0, 0x2E)].
Definition pit_stop_writes : list (Z * Z) := [(PIT_CMD, 0x30); (PIT_CH0, 0); (PIT_CH0, 0)].
Definition timer_writes (lvt count : Z) : list (Z * Z) := [(LAPIC_REG_TIMER_DIVIDE, 3); (LAPIC_REG_LVT_TIMER, u32 lvt); (LAPIC_REG_TIMER_INITCNT, count)].

Lemma wp_pit_init s (Q : unit → apic_state → Prop) : Q tt (cput_port_writes (port_writes s ++ pit_start_writes) s) → wp (pit_init 100) Q s.
Proof. intros HQ. unfold pit_init. do 2 (apply wp_bind, wp_modify). apply wp_modify. cbn [port_writes cput_port_writes]. rewrite <-!app_assoc. exact HQ. Qed.
Lemma wp_pit_stop s (Q : unit → apic_state → Prop) : Q tt (cput_port_writes (port_writes s ++ pit_stop_writes) s) → wp pit_stop Q s.
Proof. intros HQ. unfold pit_stop. do 2 (apply wp_bind, wp_modify). apply wp_modify. cbn [port_writes cput_port_writes]. rewrite <-!app_assoc. exact HQ. Qed.
(** The three writes that start the timer of the LAPIC. *)
Lemma wp_timer_start lvt count (K : M apic_state unit) s (Q : unit → apic_state → Prop) : 0 ≤ count < 2 ^ 32 → wp K Q (cput_lapic_writes (lapic_writes s ++ timer_writes lvt count) s) →
  wp (lapic_write LAPIC_REG_TIMER_DIVIDE 0x3 ;; lapic_write LAPIC_REG_LVT_TIMER lvt ;; lapic_write LAPIC_REG_TIMER_INITCNT count ;; K) Q s.
Proof. intros Hc HQ. do 3 (apply wp_bind, wp_modify). cbn [lapic_writes cput_lapic_writes]. rewrite <-!app_assoc, (u32_id count) by done. exact HQ. Qed.

(** C32: the counter of the LAPIC is loaded with all ones and the PIT is started at 11931
    cycles, about a hundred interrupts a second. When at least a hundred interrupts come
    before the wait is given up, the counter is read at the instants of the first and of
    the hundredth of them, and the PIT is stopped. The hundredth part of what the counter
    fell between the two is what it is reloaded with for periodic interrupts, and the
    vector of the calibration is free again; a counter that did not fall leaves the timer
    and the vector as they are. These are all the writes to the PIT and the timer. *)
Theorem lapic_timer_init_spec vec start end_ ticks t1 t100 s :
  concat ticks !! 0%nat = Some t1 → concat ticks !! 99%nat = Some t100 → Z.of_nat (length (concat ticks)) < 2 ^ 64 → Z.of_nat (length ticks) ≤ 200000000 → length (isrs (ap_irq s)) = 256%nat →
  let d := u32 (counter s t1 - counter s t100) in
  wp (lapic_timer_init me calibrate_isr vec start end_ ticks) (λ _ s', tsc_freq s' = u64 (end_ - start) ∧ if_flag s' = true ∧
    port_writes s' = port_writes s ++ pit_start_writes ++ pit_stop_writes ∧
    if d =? 0 then lapic_freq_hz s' = lapic_freq_hz s ∧ lapic_writes s' = lapic_writes s ++ timer_writes vec 0xFFFFFFFF ∧
      isrs (ap_irq s') !! 254%nat = Some (mkIsr calibrate_isr 0 (Z.lor (Z.shiftl me 32) 0xFE))
    else lapic_freq_hz s' = u32 (d / 100 * 1000) ∧ isrs (ap_irq s') = <[254%nat := zero_isr]> (isrs (ap_irq s)) ∧
      lapic_writes s' = lapic_writes s ++ timer_writes vec 0xFFFFFFFF ++ timer_writes (Z.lor vec APIC_LVT_PERIODIC) (d / 100)) s.
Proof.
  intros H1 H100 Ht Hl Hi d. unfold lapic_timer_init. apply wp_bind, wp_modify, wp_bind, wp_modify, wp_bind, wp_zoom. eapply wp_arr_write; [cbn; rewrite Hi; vm_compute; lia|].
  apply wp_bind, wp_zoom. eapply wp_mono; [apply wp_route_only|]. intros [] q Hq. cbv beta in Hq. assert (isrs q = <[254%nat := mkIsr calibrate_isr 0 (Z.lor (Z.shiftl me 32) 0xFE)]> (isrs (ap_irq s))) as Hisr by (by rewrite Hq).
  apply wp_bind, wp_pit_init, wp_timer_start; [lia|]. apply wp_bind, wp_modify.
  match goal with |- wp _ _ ?t => set (s1 := t) end. apply wp_bind. rewrite <-(ticked_nil s1) by done. pose proof (lookup_lt_Some _ _ _ H100) as Hn.
  assert (ap_irq s1 = q ∧ counter s1 = counter s ∧ port_writes s1 = port_writes s ++ pit_start_writes ∧ lapic_writes s1 = lapic_writes s ++ timer_writes vec 0xFFFFFFFF ∧
    lapic_freq_hz s1 = lapic_freq_hz s ∧ if_flag s1 = true ∧ lapic_done s1 = false) as (Eq & Ec & Ep & El & Ef & Ei & Ed) by (by split_and!). clearbody s1.
  apply (wp_calibrate_wait s1); [done|simpl; lia|simpl; lia|simpl; lia|lia|]. intros us vs Hus Hk. cbn [app] in Hus. rewrite Hus in H1, H100. rewrite lookup_app_l in H1, H100 by lia.
  apply wp_bind, wp_modify, wp_bind, wp_pit_stop, wp_bind, wp_gets.
  cbn [lapic_start lapic_end cput_port_writes cput_tsc ticked]. rewrite H1, H100, Ec. cbn [from_option]. fold d. destruct (d =? 0).
  - apply wp_ret. split_and!; [done|done|by cbn; rewrite Ep, <-app_assoc|done|done|]. cbn. rewrite Eq, Hisr. apply list_lookup_insert_eq. lia.
  - pose proof (u32_range (counter s t1 - counter s t100)) as Hd. fold d in Hd. assert (0 ≤ d / 100 < 2 ^ 32) as Hr by (split; [apply Z.div_pos; lia|apply Z.div_lt_upper_bound; lia]).
    apply wp_bind, wp_modify, wp_timer_start; [done|]. apply wp_bind, wp_zoom.
    apply wp_unregister; [cbn; rewrite Eq, Hisr, length_insert, Hi; vm_compute; lia|]. apply wp_zoom. eapply wp_mono; [apply wp_mask_only|]. intros [] q' Hq'. cbv beta in Hq'.
    split_and!; [done|done|by cbn; rewrite Ep, <-app_assoc|done| |by cbn; rewrite El, <-app_assoc].
    cbn [ap_irq cput_irq]. assert (isrs q' = <[254%nat := zero_isr]> (isrs q)) as -> by (by rewrite Hq', <-Eq). by rewrite Hisr, list_insert_insert_eq.
Qed.
End timer.

(** The timer of the calibration runs at a hundred interrupts per second, so that the
    ninety-nine periods between the two reads are 990 ms. What the code takes for the
    ticks of a millisecond are nearly those of ten. *)
Theorem calibration_factor r a b : 0 < r → 990 * r < 2 ^ 32 → a - b = 990 * r → 9 * r ≤ u32 (a - b) / 100 ∧ 100 * (u32 (a - b) / 100) ≤ 990 * r ∧ u16 (PIT_FREQUENCY / 100) = PIT_FREQUENCY / 100.
Proof.
  intros Hr Hb ->. rewrite u32_id by lia. split_and!; [apply Z.div_le_lower_bound; lia|apply Z.mul_div_le; lia|done].
Qed.

(** Sleeping returns at the first look at the counter that finds zero, after the product
    of the frequency and the time was loaded; the timer stays masked, so that its periodic
    interrupts do not come any more. *)
Theorem lapic_sleep_spec ms s pre t rest : lapic_freq_hz s ≠ 0 → counter s t = 0 → Forall (λ u, counter s u ≠ 0) pre →
  wp (lapic_timer_sleep_kernel ms (pre ++ t :: rest)) (λ _ s', now s' = t ∧
    lapic_writes s' = lapic_writes s ++ timer_writes APIC_LVT_MASKED (u32 (u64 (lapic_freq_hz s * ms) / 1000))) s.
Proof.
  intros Hf Hc Hpre. unfold lapic_timer_sleep_kernel. apply wp_bind, wp_gets. rewrite (proj2 (Z.eqb_neq _ _) Hf). do 3 (apply wp_bind, wp_modify).
  match goal with |- wp _ _ ?x => set (s1 := x) end. assert (lapic_writes s ++ timer_writes APIC_LVT_MASKED (u32 (u64 (lapic_freq_hz s * ms) / 1000)) = lapic_writes s1) as -> by (cbn; by rewrite <-!app_assoc).
  change (counter s) with (counter s1) in *. clearbody s1. clear Hf. revert s1 Hc Hpre. induction pre as [|u l IH]; intros s1 Hc Hl; cbn [app sleep_wait]; apply wp_bind, wp_modify, wp_bind, wp_gets; cbn [counter now cput_now].
  - rewrite Hc. by apply wp_ret.
  - apply Forall_cons in Hl as [Hv Hl]. rewrite (proj2 (Z.eqb_neq _ _) Hv). by eapply (IH (cput_now u s1)).
Qed.

(** * Gates and descriptors *)

(** The address in a gate, and the base in the descriptor of a task state. *)
Definition gate_address (g : idt_entry_t) : Z := offset_low g + 2 ^ 16 * offset_mid g + 2 ^ 32 * offset_high g.
Definition tss_base (low high : Z) : Z := Z.lor (Z.lor (Z.land (Z.shiftr low 16) 0xFFFFFF) (Z.shiftl (Z.land (Z.shiftr low 56) 0xFF) 24)) (Z.shiftl (Z.land high 0xFFFFFFFF) 32).

Lemma land_low v n : 0 ≤ n → Z.land v (Z.ones n) = v `mod` 2 ^ n.
Proof. intros. by apply Z.land_ones. Qed.
(** Every gate holds the address of the code of its vector, spread over three
    fields; it is an interrupt gate to kernel code, and only that of the system call can
    be used from user mode. *)
Theorem gates_spec table legacy i : 0 ≤ i < 256 → (∀ j, 0 ≤ table j < 2 ^ 64) → 0 ≤ legacy < 2 ^ 64 →
  ∃ g, idt_setup table legacy !! Z.to_nat i = Some g ∧ gate_address g = (if i =? 0x80 then legacy else table i) ∧
    selector g = 0x8 ∧ Z.shiftr (Z.land (gate_flags g) 0x60) 5 = (if i =? 0x80 then 3 else 0) ∧ flag (gate_flags g) 0x80 = true.
Proof.
  intros Hi Ht Hl. exists (idt_gate table legacy i). split.
  { unfold idt_setup. rewrite list_lookup_fmap, lookup_seq_lt by lia. cbn. by rewrite Z2Nat.id by lia. }
  assert (∀ a, 0 ≤ a < 2 ^ 64 → Z.land a 0xFFFF + 2 ^ 16 * Z.land (Z.shiftr a 16) 0xFFFF + 2 ^ 32 * Z.land (Z.shiftr a 32) 0xFFFFFFFF = a) as Ha.
  { intros a Ha. change 0xFFFF with (Z.ones 16). change 0xFFFFFFFF with (Z.ones 32). rewrite !land_low, !Z.shiftr_div_pow2 by lia. Z.to_euclidean_division_equations. lia. }
  unfold idt_gate. destruct (i =? 0x80); unfold gate_address; cbn [offset_low offset_mid offset_high]; rewrite Ha by done; by split_and!.
Qed.
Lemma u64_testbit x n : 0 ≤ n < 64 → Z.testbit (u64 x) n = Z.testbit x n.
Proof. intros. unfold u64. apply Z.mod_pow2_bits_low. lia. Qed.
Lemma shiftl_bit a n i : 0 ≤ n → Z.testbit (Z.shiftl a n) i = Z.testbit a (i - n).
Proof. intros. destruct (Z.lt_ge_cases i 0); [by rewrite !Z.testbit_neg_r by lia|by apply Z.shiftl_spec]. Qed.
(** The bits of the first word of the descriptor that hold the base. *)
Definition tss_low (base : Z) : Z :=
  Z.lor (Z.shiftl 0x2089 40) (Z.lor (Z.lor (Z.lor (u64 (Z.shiftl (Z.land base (Z.shiftl (Z.ones 8) 24)) 32)) (u64 (Z.shiftl (Z.land base (Z.shiftl (Z.ones 8) 16)) 16))) (u64 (Z.shiftl (Z.land base (Z.ones 16)) 16))) 104).
Lemma tss_low_bit base i : 16 ≤ i < 40 ∨ 56 ≤ i < 64 → Z.testbit (tss_low base) i = Z.testbit base (if i <? 40 then i - 16 else i - 32).
Proof.
  intros Hi. assert (Z.testbit (Z.shiftl 0x2089 40) i = false) as E1.
  { rewrite Z.shiftl_spec by lia. destruct (Z.ltb_spec i 40); [apply Z.testbit_neg_r; lia|]. apply Z.bits_above_log2; [lia|]. simpl. lia. }
  assert (Z.testbit 104 i = false) as E2 by (apply Z.bits_above_log2; [lia|]; simpl; lia).
  unfold tss_low. rewrite !Z.lor_spec, E1, E2, !u64_testbit, !shiftl_bit, !Z.land_spec, !shiftl_bit by lia. rewrite !Z.testbit_ones by lia. rewrite orb_false_r. cbn [orb].
  destruct (Z.ltb_spec i 40).
  - rewrite (proj2 (Z.leb_gt 0 (i - 32 - 24))) by lia. rewrite (proj2 (Z.leb_le 0 (i - 16))), andb_false_r by lia. cbn [orb andb]. destruct (Z.ltb_spec (i - 16) 16).
    + rewrite (proj2 (Z.leb_gt 0 (i - 16 - 16))) by lia. by rewrite andb_false_r, andb_true_r.
    + rewrite (proj2 (Z.leb_le 0 (i - 16 - 16))), (proj2 (Z.ltb_lt (i - 16 - 16) 8)) by lia. by rewrite andb_false_r, andb_true_r, orb_false_r.
  - rewrite (proj2 (Z.leb_le 0 (i - 32 - 24))), (proj2 (Z.ltb_lt (i - 32 - 24) 8)), (proj2 (Z.ltb_ge (i - 16 - 16) 8)), (proj2 (Z.ltb_ge (i - 16) 16)) by lia.
    by rewrite !andb_false_r, andb_true_r, !orb_false_r.
Qed.
(** The descriptor of the task state holds its base, spread over four fields. *)
Theorem tss_descriptor base low high : 0 ≤ base < 2 ^ 64 → gdt_reload base !! 5%nat = Some low → gdt_reload base !! 6%nat = Some high → tss_base low high = base.
Proof.
  intros Hb H5 H6. assert (low = tss_low base) as -> by (injection H5 as <-; done). assert (high = Z.land (Z.shiftr base 32) (Z.ones 32)) as -> by (injection H6 as <-; done).
  unfold tss_base. change 0xFFFFFF with (Z.ones 24). change 0xFFFFFFFF with (Z.ones 32). change 0xFF with (Z.ones 8). apply Z.bits_inj'. intros n Hn.
  assert (n < 64 ∨ Z.testbit base n = false) as Hbn.
  { destruct (Z.lt_ge_cases n 64); [by left|right]. rewrite <-(Z.mod_small base (2 ^ 64)) by done. by apply Z.mod_pow2_bits_high. }
  rewrite !Z.lor_spec, !shiftl_bit, !Z.land_spec, Z.shiftr_spec, !Z.testbit_ones by lia.
  destruct (Z.ltb_spec n 24) as [H1|H1]; [|destruct (Z.ltb_spec n 32) as [H2|H2]].
  - rewrite tss_low_bit by lia. rewrite (proj2 (Z.ltb_lt (n + 16) 40)), (proj2 (Z.leb_le 0 n)), (proj2 (Z.leb_gt 0 (n - 24))), (proj2 (Z.leb_gt 0 (n - 32))) by lia.
    rewrite !andb_false_r, !orb_false_r, andb_true_r. f_equal. lia.
  - rewrite (proj2 (Z.leb_gt 0 (n - 32))), (proj2 (Z.leb_le 0 (n - 24))), (proj2 (Z.ltb_lt (n - 24) 8)) by lia. rewrite !andb_false_r, orb_false_r, andb_true_r. cbn [orb].
    rewrite Z.shiftr_spec, tss_low_bit by lia. rewrite (proj2 (Z.ltb_ge (n - 24 + 56) 40)) by lia. f_equal. lia.
  - rewrite (proj2 (Z.ltb_ge (n - 24) 8)), !andb_false_r by lia. cbn [orb]. rewrite (proj2 (Z.leb_le 0 (n - 32))) by lia. destruct (Z.ltb_spec (n - 32) 32).
    + rewrite !andb_true_r, Z.shiftr_spec by lia. f_equal. lia.
    + rewrite !andb_false_r. destruct Hbn as [?| ->]; [lia|done].
Qed.

(** A table with an IOAPIC, an override, and an address of the LAPIC. *)
Module ApicDemo.
Definition entries (p : Z) : madt_entry :=
  if p =? 44 then madt_ioapic (mkIoapic 2 0 0xFEC00000) else if p =? 56 then madt_iso (mkIso 0 2 0) else if p =? 66 then madt_lapic_address 0xFEE00000 else madt_other.
Definition lengths (p : Z) : Z := if p =? 44 then 12 else if p =? 56 then 10 else 12.
Definition table : acpi_madt := mkMadt 44 78 0xFEE01000.
Definition state : apic_state := mkApic demo_off ex_paging 0xFEE00000 [] [] (λ t, 4294967295 - 100 * t) 0 false 0 0 false 0 1000 0.
(** Two interrupts, ten milliseconds apart, before each look. *)
Definition arrivals : list (list Z) := (λ i, [20 * i + 10; 20 * i + 20]) <$> seqZ 0 50.
(** The same with page tables of the kernel. *)
Definition started : apic_state := cput_paging (put_kernel_pt 4096 ex_paging) state.
(** Three pages are enough for the tables of the LAPIC; for the IOAPIC none is left, and
    its registers are written although they are not mapped. *)
Example ioapic_unmapped : match apic_init 0 ex_hhdm 5 entries lengths (Some table) (λ _, 7) started with
  | Done (r, s) => (r, mmu ex_hhdm (ap_paging s) 4096 (ex_hhdm + 0xFEE00000), mmu ex_hhdm (ap_paging s) 4096 (ex_hhdm + 0xFEC00000)) | _ => (-1, None, None) end =
  (0, Some (Z.lor 0xFEE00000 PFLAG_MMIO), None).
Proof. vm_compute. reflexivity. Qed.
(** A hundred interrupts in fifty rounds; the counter falls by a hundred ticks per
    millisecond, and 990 are taken for a millisecond. *)
Example calibrated : match lapic_timer_init 0 9 32 0 1 arrivals state with Done (_, s) => (lapic_freq_hz s, last (lapic_writes s), now s) | _ => (0, None, 0) end =
  (990000, Some (LAPIC_REG_TIMER_INITCNT, 990), 1000).
Proof. vm_compute. reflexivity. Qed.
End ApicDemo.

Theorem lapic_timer_init_spec_witness :
  wp (lapic_timer_init 0 9 32 0 1 ApicDemo.arrivals) (λ _ s', lapic_freq_hz s' = 990000 ∧ port_writes s' = pit_start_writes ++ pit_stop_writes) ApicDemo.state.
Proof.
  eapply wp_mono; [apply (lapic_timer_init_spec 0 9 32 0 1 ApicDemo.arrivals 10 1000 ApicDemo.state); [vm_compute; reflexivity..|vm_compute; done|done]|].
  intros [] s' (_ & _ & Hp & H). destruct H as [H _]. split; [exact H|exact Hp].
Defined.
Theorem lapic_sleep_spec_witness :
  wp (lapic_timer_sleep_kernel 3 [1; 2; 3; 4]) (λ _ s', now s' = 3 ∧ last (lapic_writes s') = Some (LAPIC_REG_TIMER_INITCNT, 3)) (cput_counter (λ t, 3 - t) ApicDemo.state).
Proof.
  eapply wp_mono; [apply (lapic_sleep_spec 3 (cput_counter (λ t, 3 - t) ApicDemo.state) [1; 2] 3 [4]); [done|done|by repeat constructor]|]. intros [] s' (-> & ->). done.
Defined.
Theorem gates_spec_witness : ∃ g, idt_setup (λ j, 0xFFFFFFFF80000000 + 16 * (j `mod` 256)) 0xFFFFFFFF80100000 !! 128%nat = Some g ∧ gate_address g = 0xFFFFFFFF80100000.
Proof.
  destruct (gates_spec (λ j, 0xFFFFFFFF80000000 + 16 * (j `mod` 256)) 0xFFFFFFFF80100000 128 ltac:(lia)) as (g & H1 & H2 & _); [|lia|by exists g].
  intros j. pose proof (Z.mod_pos_bound j 256 ltac:(lia)). lia.
Defined.
