(* ===== verification/Extract.v ===== *)
(** Unpacking the initial file system: [cpio_archive_extract] of
    [src/kernel/src/fs/initrd/cpio.c], over the virtual file system.

    The entries are what the reader of the archive found, with names and contents
    read. The path that is put together in a buffer is its text and the size of the
    buffer; writing behind it is a fault, and so is the use of memory that the heap
    did not give, which the code does not look at. *)
From Stdlib Require Import Ascii.
From S2P Require Import Prelude Errno Sync Vfs Kfile Ramfs VfsSpec RamfsSpec RamfsOps VfsOps.

(** An entry, with its name and its contents. *)
Record file_entry := mkFile { f_name : string; f_namesize : Z; f_mode : Z; f_uid : Z; f_gid : Z; f_data : list Z }.
Record path_buf := mkPath { ptext : string; psize : Z }.

Section extract.
Context {D : Type} `{!VnodeOps D} (me : Z).
Local Abbreviation state := (vfs_state D).

(** ** The buffer of the path *)

Definition strcat (p : path_buf) (t : string) : M state path_buf :=
  if Vfs.strlen (ptext p) + Vfs.strlen t <? psize p then mret (mkPath (ptext p ++ t)%string (psize p)) else fault.
Definition resize (p : path_buf) (n : Z) : M state path_buf :=
  a ← kalloc; if a =? 0 then fault else mret (mkPath (ptext p) n).
Definition append_component (p : path_buf) (dir : string) : M state path_buf :=
  let n := Vfs.strlen (ptext p) + Vfs.strlen dir + 2 in
  p ← (if n >? psize p then resize p n else mret p);
  p ← strcat p "/";
  strcat p dir.
Definition normalize_dest (dest : string) : string := if bool_decide (dest = "/"%string) then ""%string else dest.
(** [strtok_r(.., "/", &save)]: the token and what is left, which is null when the
    token was the last text. *)
Definition next_token (save : option string) : option (string * option string) :=
  match save with
  | None => None
  | Some text => match skip_slashes text with EmptyString => None | text => Some (cut_slash text) end
  end.

(** ** One component *)

(** The body of the loop: 0 to go on, or what is returned. *)
Definition place (path : string) (is_dir : bool) (file : file_entry) : M state Z :=
  '(ret, v) ← vfs_lookup me path;
  if ret =? EOK then mret 0 else
  dup ← strdup path;
  dup ← str_of dup;
  if is_dir then
    vfs_mkdir me dup 0x1ed ;;
    '(ret, v) ← vfs_lookup me dup;
    if negb (ret =? EOK) then mret ENOENT else
    vn_store v (set_ids (f_uid file) (f_gid file)) ;; mret 0
  else
    ret ← vfs_create me dup (f_mode file);
    if negb (ret =? EOK) then mret 0 else
    '(ret, f) ← vfs_open me dup 0;
    when (ret =? EOK) (kwrite f (f_data file) (Z.of_nat (length (f_data file))) ;; kclose me f ;; mret tt) ;;
    '(ret, v) ← vfs_lookup me dup;
    if negb (ret =? EOK) then mret ENOENT else
    vn_store v (set_ids (f_uid file) (f_gid file)) ;; mret 0.
Definition component_loop (file : file_entry) (st : path_buf * option string) : M state (path_buf * option string + path_buf * Z) :=
  let '(p, save) := st in
  match next_token save with
  | None => mret (inr (p, 0))
  | Some (dir, save) =>
      p ← append_component p dir;
      let is_dir := match save with Some (String _ _) => true | _ => false end in
      r ← place (ptext p) is_dir file;
      mret (if r =? 0 then inl (p, save) else inr (p, r))
  end.

(** ** The archive *)

Definition extract_entry (base : string) (p : path_buf) (file : file_entry) : M state (path_buf * Z) :=
  p ← strcat (mkPath "" (psize p)) base;
  let fname := if starts_slash (f_name file) then default EmptyString (str_drop 1 (f_name file)) else f_name file in
  name_dup ← strdup fname;
  p ← (if f_namesize file + 1 >? psize p then resize p (f_namesize file + 1) else mret p);
  loop (S (String.length fname)) (component_loop file) (p, name_dup).
Fixpoint extract_entries (base : string) (p : path_buf) (l : list file_entry) : M state Z :=
  match l with
  | [] => mret 0
  | file :: l =>
      '(p, r) ← extract_entry base p file;
      if r =? 0 then extract_entries base p l else mret r
  end.
Definition cpio_archive_extract (entries : list file_entry) (dest_path : option string) : M state Z :=
  match dest_path with
  | None => mret (- EFAULT)
  | Some dest =>
      let base := normalize_dest dest in
      p ← resize (mkPath "" 0) 20;
      p ← (if Vfs.strlen dest + 1 >? 20 then resize p (Vfs.strlen dest + 1) else mret p);
      when (negb (bool_decide (dest = "/"%string))) (vfs_mkdir me dest 0x1ed ;; mret tt) ;;
      extract_entries base p entries
  end.

(** * The buffer is large enough *)

Lemma strlen_app a b : Vfs.strlen (a ++ b)%string = Vfs.strlen a + Vfs.strlen b.
Proof.
  unfold Vfs.strlen. induction a as [|c a IH]; [done|]. change (String c a ++ b)%string with (String c (a ++ b)). cbn [String.length]. lia.
Qed.
Lemma str_app_assoc a b c : ((a ++ b) ++ c)%string = (a ++ b ++ c)%string.
Proof. induction a as [|x a IH]; [done|]. change (String x ((a ++ b) ++ c)%string = String x (a ++ b ++ c)%string). by f_equal. Qed.
(** A component is added to the path, which still fits, whatever its length: the
    buffer grows when it has to. *)
Theorem append_component_spec (s : state) p dir a r : Vfs.strlen (ptext p) < psize p → allocs s = a :: r → a ≠ 0 →
  wp (append_component p dir) (λ p' s', ptext p' = (ptext p ++ "/" ++ dir)%string ∧ Vfs.strlen (ptext p') < psize p' ∧ psize p ≤ psize p' ∧ (s' = s ∨ s' = put_allocs r s)) s.
Proof.
  intros Hp Ha Hne. set (n := Vfs.strlen (ptext p) + Vfs.strlen dir + 2). unfold append_component. fold n. apply wp_bind.
  assert (0 ≤ Vfs.strlen dir) as Hd by (unfold Vfs.strlen; lia). assert (Vfs.strlen "/" = 1) as Hs by done.
  apply (wp_mono _ (λ p' s', ptext p' = ptext p ∧ n ≤ psize p' ∧ psize p ≤ psize p' ∧ (s' = s ∨ s' = put_allocs r s))).
  - rewrite Z.gtb_ltb. destruct (Z.ltb_spec (psize p) n).
    + unfold resize. apply wp_bind. unfold kalloc, wp. rewrite Ha. rewrite (proj2 (Z.eqb_neq _ _) Hne). cbn. split_and!; [done|lia|lia|by right].
    + apply wp_ret. split_and!; [done|lia|lia|by left].
  - intros p' s' (E & Hn & Hge & Hs'). apply wp_bind. unfold strcat at 1. rewrite E, Hs. unfold n in *. rewrite (proj2 (Z.ltb_lt _ _)) by lia. apply wp_ret.
    unfold strcat. cbn [ptext psize]. rewrite strlen_app, Hs. rewrite (proj2 (Z.ltb_lt _ _)) by lia. apply wp_ret. cbn [ptext psize].
    split_and!; [by rewrite str_app_assoc|rewrite !strlen_app, Hs; lia|done|done].
Qed.
End extract.

(** * Archives on a RAM file system *)

Module ExtractDemo.
#[local] Instance fs_ops : VnodeOps ramfs_data := ramfs_ops (λ _, 0) 1.
(** What a lookup gives, and the size of the node. *)
Definition probe (path : string) : M (vfs_state ramfs_data) (Z * option Z) :=
  '(r, v) ← vfs_lookup 0 path;
  if negb (r =? EOK) then mret (r, None) else
  x ← vn_load v; n ← gets (λ s, rsize <$> rnodes (fs s) !! node_data x); mret (r, n).
(** The small file system of [VfsOps], with more memory. *)
Definition start : vfs_state ramfs_data := put_allocs ((λ i, 100 + Z.of_nat i) <$> seq 0 300) demo.
Definition after (l : list file_entry) (path : string) : outcome (Z * (Z * option Z)) :=
  match (r ← cpio_archive_extract 0 l (Some "/"%string); p ← probe path; mret (r, p)) start with Done (x, _) => Done x | Fault => Fault | Hang => Hang end.
Definition script : file_entry := mkFile "bin/sh" 7 0x81ed 3 4 [1; 2; 3; 4; 5].
Definition bin_dir : file_entry := mkFile "bin" 4 0x41ed 0 0 [].
(** A file in a directory that is not there: the directory is made, and the file. *)
Example script_there : after [script] "/bin/sh" = Done (0, (0, Some 5)).
Proof. vm_compute. reflexivity. Qed.
(** The entry of a directory has no further component, so that it is made as an empty
    file; what the archive has in the directory is then lost, and 0 is returned. *)
Example directory_lost : after [bin_dir; script] "/bin" = Done (0, (0, Some 0)) ∧ after [bin_dir; script] "/bin/sh" = Done (0, (- ENOTDIR, None)).
Proof. split; vm_compute; reflexivity. Qed.
(** A component that is a dot is a name like any other. *)
Example dot_component : after [mkFile "./t" 4 0x81a4 0 0 [1; 2; 3]] "/t" = Done (0, (ENOENT, None)) ∧ after [mkFile "./t" 4 0x81a4 0 0 [1; 2; 3]] "/./t" = Done (0, (0, Some 3)).
Proof. split; vm_compute; reflexivity. Qed.
(** The lookups of an extraction leave their references behind: unpacking a file that
    is there changes nothing but the number of references. *)
Example reference_kept : match cpio_archive_extract 0 [mkFile "a" 2 0x81a4 0 0 []] (Some "/"%string) start with
  | Done (_, s) => (size (vnodes start), size (vnodes s)) | _ => (0%nat, 0%nat) end = (2%nat, 3%nat).
Proof. vm_compute. reflexivity. Qed.
End ExtractDemo.
