(* ===== verification/Smp.v ===== *)
(** The processors: [src/kernel/src/arch/smp.c] and the current processor of
    [arch/cpu.c].

    What the boot loader answers is the object [response]; a processor is started
    by a write to the [goto_address] of its entry there. The pointer to an element
    of [cpu_list] is its index and the one to [bsp_cpu_fallback] is [FALLBACK]; the
    base of the GS segment, through which a processor finds its [cpu_t], is [gs].
    What the processors that have been started count up is a list of what the
    loop that waits for them reads. *)
From S2P Require Import Prelude.

Definition FALLBACK : Z := -1.

(** [struct limine_mp_info] and [struct limine_mp_response], which the boot loader
    fills in. *)
Record mp_info := mkInfo {
  processor_id : Z;
  i_lapic_id : Z;
  extra_argument : Z;
  goto_address : Z;
}.
Record mp_response_t := mkResponse {
  bsp_lapic_id : Z;
  cpus : list mp_info;
}.

(** [cpu_t], the fields that are set here. *)
Record cpu_t := mkCpu {
  self : Z;
  id : Z;
  lapic_id : Z;
  sysret_user_rsp : Z;
  sysret_kernel_rsp : Z;
}.
Definition zero_cpu : cpu_t := mkCpu 0 0 0 0 0.

(** [mp_response] is whether the pointer is set. *)
Record smp_state := mkSmp {
  response : option mp_response_t;
  mp_response : bool;
  cpu_list : list cpu_t;
  bsp_cpu_fallback : cpu_t;
  bsp_cpu_ptr : Z;
  cpu_count : Z;
  cpu_started_count : Z;
  gs : Z;
}.
Definition put_response v s := mkSmp v (mp_response s) (cpu_list s) (bsp_cpu_fallback s) (bsp_cpu_ptr s) (cpu_count s) (cpu_started_count s) (gs s).
Definition put_mp_response v s := mkSmp (response s) v (cpu_list s) (bsp_cpu_fallback s) (bsp_cpu_ptr s) (cpu_count s) (cpu_started_count s) (gs s).
Definition put_cpu_list v s := mkSmp (response s) (mp_response s) v (bsp_cpu_fallback s) (bsp_cpu_ptr s) (cpu_count s) (cpu_started_count s) (gs s).
Definition put_fallback v s := mkSmp (response s) (mp_response s) (cpu_list s) v (bsp_cpu_ptr s) (cpu_count s) (cpu_started_count s) (gs s).
Definition put_bsp_cpu_ptr v s := mkSmp (response s) (mp_response s) (cpu_list s) (bsp_cpu_fallback s) v (cpu_count s) (cpu_started_count s) (gs s).
Definition put_cpu_count v s := mkSmp (response s) (mp_response s) (cpu_list s) (bsp_cpu_fallback s) (bsp_cpu_ptr s) v (cpu_started_count s) (gs s).
Definition put_started v s := mkSmp (response s) (mp_response s) (cpu_list s) (bsp_cpu_fallback s) (bsp_cpu_ptr s) (cpu_count s) v (gs s).
Definition put_gs v s := mkSmp (response s) (mp_response s) (cpu_list s) (bsp_cpu_fallback s) (bsp_cpu_ptr s) (cpu_count s) (cpu_started_count s) v.

Definition cpu_store (c : Z) (f : cpu_t → cpu_t) : M smp_state unit := λ s,
  if c =? FALLBACK then Done (tt, put_fallback (f (bsp_cpu_fallback s)) s) else
  match cpu_list s !! Z.to_nat c with
  | Some x => Done (tt, put_cpu_list (<[Z.to_nat c := f x]> (cpu_list s)) s)
  | None => Fault
  end.
Definition cpu_load (c : Z) : M smp_state cpu_t := λ s,
  if c =? FALLBACK then Done (bsp_cpu_fallback s, s) else
  match cpu_list s !! Z.to_nat c with Some x => Done (x, s) | None => Fault end.
(** [mp_response->...] *)
Definition response_load : M smp_state mp_response_t := λ s,
  match mp_response s, response s with true, Some r => Done (r, s) | _, _ => Fault end.
Definition info_load (i : Z) : M smp_state mp_info :=
  r ← response_load; match cpus r !! Z.to_nat i with Some x => mret x | None => fault end.
Definition info_store (i : Z) (f : mp_info → mp_info) : M smp_state unit :=
  x ← info_load i; r ← response_load;
  modify (put_response (Some (mkResponse (bsp_lapic_id r) (<[Z.to_nat i := f x]> (cpus r))))).

(** * The current processor *)

Definition cpu_set_current (c : Z) : M smp_state unit :=
  cpu_store c (λ x, mkCpu c (id x) (lapic_id x) (sysret_user_rsp x) (sysret_kernel_rsp x)) ;;
  modify (put_gs c).
Definition get_current_cpu : M smp_state Z := c ← gets gs; x ← cpu_load c; mret (self x).
Definition get_current_cpuid : M smp_state Z := c ← get_current_cpu; x ← cpu_load c; mret (id x).

(** * The processors *)

Definition bsp_round (i : Z) : M smp_state (Z + unit) :=
  n ← gets cpu_count;
  if negb (i <? n) then mret (inr tt) else
  x ← info_load i; r ← response_load;
  if i_lapic_id x =? bsp_lapic_id r then modify (put_bsp_cpu_ptr i) ;; mret (inr tt)
  else mret (inl (u32 (i + 1))).
Definition init_bsp_cpu : M smp_state unit :=
  modify (put_bsp_cpu_ptr 0) ;;
  n ← gets cpu_count;
  loop (S (Z.to_nat n)) bsp_round 0 ;;
  b ← gets bsp_cpu_ptr;
  cpu_store b (λ x, mkCpu (self x) (id x) (lapic_id x) (sysret_user_rsp x) 0) ;;
  cpu_store b (λ x, mkCpu (self x) (id x) (lapic_id x) 0 (sysret_kernel_rsp x)) ;;
  cpu_set_current b.

Definition prepare_round (i : Z) : M smp_state unit :=
  x ← info_load i;
  cpu_store i (λ _, mkCpu i (processor_id x) (i_lapic_id x) 0 0) ;;
  info_store i (λ x, mkInfo (processor_id x) (i_lapic_id x) i (goto_address x)).
Definition smp_prepare : M smp_state unit :=
  r ← gets response;
  match r with
  | Some (mkResponse _ (_ :: _) as r) =>
      modify (put_mp_response true) ;;
      modify (put_cpu_count (u32 (Z.of_nat (length (cpus r))))) ;;
      n ← gets cpu_count;
      when (n >? 256) (modify (put_cpu_count 256)) ;;
      n ← gets cpu_count;
      for_n 0 (Z.to_nat n) prepare_round ;;
      modify (put_started 1)
  | _ =>
      modify (put_bsp_cpu_ptr FALLBACK) ;;
      cpu_set_current FALLBACK ;;
      modify (put_cpu_count 1) ;;
      modify (put_started 1)
  end.

Section start.
(** The address of [ap_entry]. *)
Context (ap_entry : Z).

Definition start_round (i : Z) : M smp_state unit :=
  b ← gets bsp_cpu_ptr;
  if i =? b then mret tt else
  info_store i (λ x, mkInfo (processor_id x) (i_lapic_id x) (extra_argument x) ap_entry).
(** [seen]: what is read of [cpu_started_count], one read after the other. *)
Fixpoint wait_started (seen : list Z) : M smp_state unit :=
  match seen with
  | [] => hang
  | v :: seen => n ← gets cpu_count; if v <? n then wait_started seen else modify (put_started v)
  end.
Definition smp_start_aps (seen : list Z) : M smp_state unit :=
  set ← gets mp_response;
  if negb set then mret tt else
  n ← gets cpu_count;
  for_n 0 (Z.to_nat n) start_round ;;
  wait_started seen.

(** What a processor does when it is started, up to the descriptor tables. *)
Definition ap_enter (info : Z) : M smp_state unit := x ← info_load info; cpu_set_current (extra_argument x).
End start.

Definition smp_get_cpu_count : M smp_state Z := gets cpu_count.
Definition get_bsp : M smp_state Z := gets bsp_cpu_ptr.

(** * What they promise *)

Section theorems.
Context (ap_entry : Z).
Implicit Types s : smp_state.

Lemma wp_info_load s r i x (Q : mp_info → smp_state → Prop) :
  mp_response s = true → response s = Some r → cpus r !! Z.to_nat i = Some x → Q x s → wp (info_load i) Q s.
Proof. intros Hm Hr Hx HQ. unfold wp, info_load, response_load, mbind, M_bind. rewrite Hm, Hr, Hx. exact HQ. Qed.
Lemma wp_info_store s r i x f (Q : unit → smp_state → Prop) :
  mp_response s = true → response s = Some r → cpus r !! Z.to_nat i = Some x →
  Q tt (put_response (Some (mkResponse (bsp_lapic_id r) (<[Z.to_nat i := f x]> (cpus r)))) s) → wp (info_store i f) Q s.
Proof.
  intros Hm Hr Hx HQ. apply wp_bind. eapply wp_info_load; [done..|]. unfold wp, response_load, mbind, M_bind. rewrite Hm, Hr. exact HQ.
Qed.
Lemma wp_cpu_store s i x f (Q : unit → smp_state → Prop) :
  0 ≤ i → cpu_list s !! Z.to_nat i = Some x → Q tt (put_cpu_list (<[Z.to_nat i := f x]> (cpu_list s)) s) → wp (cpu_store i f) Q s.
Proof.
  intros Hi Hx HQ. unfold wp, cpu_store. rewrite (proj2 (Z.eqb_neq i FALLBACK)) by (unfold FALLBACK; lia). by rewrite Hx.
Qed.

(** The entry and the [cpu_t] of processor [i] after [smp_prepare]. *)
Definition given (i : Z) (x : mp_info) : mp_info := mkInfo (processor_id x) (i_lapic_id x) i (goto_address x).
Definition cpu_of (i : Z) (x : mp_info) : cpu_t := mkCpu i (processor_id x) (i_lapic_id x) 0 0.

(** The first [k] processors are prepared. *)
Definition prepared s (r : mp_response_t) (k : Z) s' : Prop :=
  ∃ l c, s' = put_cpu_list c (put_response (Some (mkResponse (bsp_lapic_id r) l)) s) ∧
  ∀ j, l !! j = (if decide (Z.of_nat j < k) then given (Z.of_nat j) else Datatypes.id) <$> cpus r !! j ∧
       c !! j = if decide (Z.of_nat j < k) then cpu_of (Z.of_nat j) <$> cpus r !! j else cpu_list s !! j.

Lemma wp_prepare_loop s r n (Q : unit → smp_state → Prop) :
  mp_response s = true → response s = Some r → (n ≤ length (cpus r))%nat → (n ≤ length (cpu_list s))%nat →
  (∀ s', prepared s r (Z.of_nat n) s' → Q tt s') → wp (for_n 0 n prepare_round) Q s.
Proof.
  intros Hm Hr Hn Hc HQ. apply (wp_for_n (prepared s r)); [| |exact HQ].
  { exists (cpus r), (cpu_list s). split; [destruct r, s; simpl in *; by subst|]. intros j. rewrite !decide_False by lia.
    by rewrite option_fmap_id. }
  intros i s' [Hi0 Hi] (l & c & -> & Hlc). destruct (Hlc (Z.to_nat i)) as [Hl Hcl]. rewrite decide_False in Hl by lia. rewrite decide_False in Hcl by lia.
  rewrite option_fmap_id in Hl.
  destruct (lookup_lt_is_Some_2 (cpus r) (Z.to_nat i)) as [x Hx]; [lia|]. rewrite Hx in Hl.
  destruct (lookup_lt_is_Some_2 (cpu_list s) (Z.to_nat i)) as [y Hy]; [lia|]. rewrite Hy in Hcl.
  unfold prepare_round. apply wp_bind. eapply wp_info_load; [done|reflexivity|exact Hl|].
  apply wp_bind. eapply wp_cpu_store; [done|exact Hcl|]. eapply wp_info_store; [done|reflexivity|exact Hl|].
  exists (<[Z.to_nat i := given i x]> l), (<[Z.to_nat i := cpu_of i x]> c). split; [done|].
  intros j. destruct (Hlc j) as [Hlj Hcj]. destruct (decide (j = Z.to_nat i)) as [->|Hne].
  - rewrite !list_lookup_insert_eq by (eapply lookup_lt_Some; eauto). rewrite !decide_True by lia. rewrite Hx. simpl.
    by rewrite Z2Nat.id.
  - rewrite !list_lookup_insert_ne by done. rewrite Hlj, Hcj. destruct (decide (Z.of_nat j < i)); [by rewrite !decide_True by lia|].
    by rewrite !decide_False by lia.
Qed.

(** [smp_prepare] gives each of the processors the boot loader knows, 256 at most,
    a [cpu_t] with its numbers and the pointer to it; none is started, and which
    processor runs does not change. *)
Lemma smp_prepared s r :
  response s = Some r → cpus r ≠ [] → Z.of_nat (length (cpus r)) < 2 ^ 32 → length (cpu_list s) = 256%nat →
  wp smp_prepare (λ _ s', let n := Z.of_nat (Nat.min (length (cpus r)) 256) in
    cpu_count s' = n ∧ mp_response s' = true ∧ cpu_started_count s' = 1 ∧ bsp_cpu_ptr s' = bsp_cpu_ptr s ∧ gs s' = gs s ∧
    ∃ l, response s' = Some (mkResponse (bsp_lapic_id r) l) ∧
      ∀ j, l !! j = (if decide (Z.of_nat j < n) then given (Z.of_nat j) else Datatypes.id) <$> cpus r !! j ∧
           cpu_list s' !! j = if decide (Z.of_nat j < n) then cpu_of (Z.of_nat j) <$> cpus r !! j else cpu_list s !! j) s.
Proof.
  intros Hr Hne Hlen Hcl. unfold smp_prepare. wp_pures. rewrite Hr. destruct r as [b l]. simpl in Hne, Hlen.
  destruct l as [|x0 l0] eqn:Hl; [done|]. rewrite <-Hl in *. wp_pures. simpl. rewrite u32_id by lia.
  apply (wp_mono _ (λ _ s', s' = put_cpu_count (Z.of_nat (Nat.min (length l) 256)) (put_mp_response true s))).
  { destruct (Z.gtb_spec (Z.of_nat (length l)) 256) as [H|H]; simpl; wp_pures; [by rewrite Nat.min_r by lia|by rewrite Nat.min_l by lia]. }
  intros [] s1 ->. wp_pures. simpl. rewrite Nat2Z.id.
  eapply (wp_prepare_loop _ (mkResponse b l)); [done|done|simpl; lia|simpl; lia|].
  intros s' (l' & c' & -> & Hlc). wp_pures. split_and!; [done..|]. exists l'. split; [done|]. exact Hlc.
Qed.

(** Without an answer of the boot loader the processor that runs becomes the
    [cpu_t] that no table has. *)
Theorem smp_prepare_alone s :
  response s = None ∨ (∃ b, response s = Some (mkResponse b [])) →
  wp smp_prepare (λ _ s', gs s' = FALLBACK ∧ bsp_cpu_ptr s' = FALLBACK ∧ cpu_count s' = 1 ∧ mp_response s' = mp_response s ∧
    cpu_list s' = cpu_list s) s.
Proof. intros [Hr|[b Hr]]; unfold smp_prepare, cpu_set_current; wp_pures; by rewrite Hr. Qed.

(** ** Starting the others *)

Definition started_at (x : mp_info) : mp_info := mkInfo (processor_id x) (i_lapic_id x) (extra_argument x) ap_entry.
(** Of the first [k] processors all but [b] are started. *)
Definition started s (r : mp_response_t) (b k : Z) s' : Prop :=
  ∃ l, s' = put_response (Some (mkResponse (bsp_lapic_id r) l)) s ∧
  ∀ j, l !! j = (if decide (Z.of_nat j < k ∧ Z.of_nat j ≠ b) then started_at else Datatypes.id) <$> cpus r !! j.

Lemma wp_start_loop s r n (Q : unit → smp_state → Prop) :
  mp_response s = true → response s = Some r → (n ≤ length (cpus r))%nat →
  (∀ s', started s r (bsp_cpu_ptr s) (Z.of_nat n) s' → Q tt s') → wp (for_n 0 n (start_round ap_entry)) Q s.
Proof.
  intros Hm Hr Hn HQ. apply (wp_for_n (started s r (bsp_cpu_ptr s))); [| |exact HQ].
  { exists (cpus r). split; [destruct r, s; simpl in *; by subst|]. intros j. rewrite decide_False by lia. by rewrite option_fmap_id. }
  intros i s' [Hi0 Hi] (l & -> & Hl). unfold start_round. wp_pures. simpl.
  destruct (lookup_lt_is_Some_2 (cpus r) (Z.to_nat i)) as [x Hx]; [lia|].
  destruct (Z.eqb_spec i (bsp_cpu_ptr s)) as [Hib|Hib].
  - apply wp_ret. exists l. split; [done|]. intros j. rewrite Hl.
    destruct (decide (Z.of_nat j < i ∧ Z.of_nat j ≠ bsp_cpu_ptr s)); [by rewrite decide_True by lia|by rewrite decide_False by lia].
  - pose proof (Hl (Z.to_nat i)) as Hli. rewrite decide_False, option_fmap_id, Hx in Hli by lia.
    eapply wp_info_store; [done|reflexivity|exact Hli|]. exists (<[Z.to_nat i := started_at x]> l). split; [done|].
    intros j. destruct (decide (j = Z.to_nat i)) as [->|Hne].
    + rewrite list_lookup_insert_eq by (by eapply lookup_lt_Some). by rewrite decide_True, Hx by lia.
    + rewrite list_lookup_insert_ne by done. rewrite Hl.
      destruct (decide (Z.of_nat j < i ∧ Z.of_nat j ≠ bsp_cpu_ptr s)); [by rewrite decide_True by lia|by rewrite decide_False by lia].
Qed.

Lemma wp_wait_started seen s (Q : unit → smp_state → Prop) :
  (∃ v, v ∈ seen ∧ cpu_count s ≤ v) → (∀ v, cpu_count s ≤ v → Q tt (put_started v s)) → wp (wait_started seen) Q s.
Proof.
  intros (v & Hv & Hle) HQ. induction seen as [|u seen IH]; [by apply not_elem_of_nil in Hv|]. simpl. wp_pures.
  destruct (Z.ltb_spec u (cpu_count s)); [|wp_pures; by apply HQ]. apply IH. apply elem_of_cons in Hv as [->|]; [lia|done].
Qed.

(** The processor that starts the others is the first whose number is the one the
    boot loader says. *)
Definition is_bsp (r : mp_response_t) (n b : Z) : Prop :=
  0 ≤ b < n ∧ (∀ j x, j < b → 0 ≤ j → cpus r !! Z.to_nat j = Some x → i_lapic_id x ≠ bsp_lapic_id r) ∧
  ∃ x, cpus r !! Z.to_nat b = Some x ∧ i_lapic_id x = bsp_lapic_id r.

Lemma wp_find_bsp s r b (Q : unit → smp_state → Prop) :
  mp_response s = true → response s = Some r → is_bsp r (cpu_count s) b → cpu_count s ≤ Z.of_nat (length (cpus r)) → cpu_count s < 2 ^ 32 →
  Q tt (put_bsp_cpu_ptr b s) → wp (loop (S (Z.to_nat (cpu_count s))) bsp_round 0) Q s.
Proof.
  intros Hm Hr (Hb & Hbefore & x & Hx & Hxl) Hn Hn32 HQ.
  apply (wp_loop (λ k i s', s' = s ∧ 0 ≤ i ≤ b ∧ k = Z.to_nat (cpu_count s - i)) _ _ (Z.to_nat (cpu_count s))); [lia|split_and!; [done|lia..]|].
  intros k i s' (-> & Hi & ->). unfold bsp_round. wp_pures. rewrite (proj2 (Z.ltb_lt _ _)) by lia. simpl.
  destruct (lookup_lt_is_Some_2 (cpus r) (Z.to_nat i)) as [y Hy]; [lia|].
  apply wp_bind. eapply wp_info_load; [done..|]. apply wp_bind. unfold wp at 1, response_load. rewrite Hm, Hr.
  destruct (Z.eqb_spec (i_lapic_id y) (bsp_lapic_id r)) as [He|He]; wp_pures.
  - destruct (decide (i = b)) as [->|]; [done|]. exfalso. eapply Hbefore; [| |exact Hy|exact He]; lia.
  - assert (i ≠ b) by (intros ->; congruence). rewrite u32_id by lia. exists (Z.to_nat (cpu_count s - (i + 1))). split; [lia|].
    split_and!; [done|lia..].
Qed.

(** Once the processors are prepared, the one that runs finds its own [cpu_t], and
    starts all the others and not itself; it waits until they have counted
    themselves. *)
Theorem smp_starts_all s r n b seen :
  mp_response s = true → response s = Some r → cpu_count s = n → n ≤ Z.of_nat (length (cpus r)) → n ≤ 256 → length (cpu_list s) = 256%nat →
  is_bsp r n b →
  (Exists (λ v, n ≤ v) seen →
    wp (init_bsp_cpu ;; smp_start_aps ap_entry seen) (λ _ s', bsp_cpu_ptr s' = b ∧ gs s' = b ∧ n ≤ cpu_started_count s' ∧
      ∃ l, response s' = Some (mkResponse (bsp_lapic_id r) l) ∧
        ∀ j, l !! j = (if decide (Z.of_nat j < n ∧ Z.of_nat j ≠ b) then started_at else Datatypes.id) <$> cpus r !! j) s) ∧
  (Forall (λ v, v < n) seen → (init_bsp_cpu ;; smp_start_aps ap_entry seen) s = Hang).
Proof.
  intros Hm Hr Hn Hlen Hn256 Hcl Hbsp. destruct Hbsp as (Hb & Hbsp). 
  assert (∀ Q : unit → smp_state → Prop, (∀ s', mp_response s' = true → response s' = Some r → cpu_count s' = n → bsp_cpu_ptr s' = b → gs s' = b → Q tt s') →
    wp init_bsp_cpu Q s) as Hinit.
  { intros Q HQ. unfold init_bsp_cpu, cpu_set_current. wp_pures. apply (wp_find_bsp (put_bsp_cpu_ptr 0 s) r b); simpl; [done|done| |lia|lia|].
    - rewrite Hn. by split.
    - wp_pures. simpl. destruct (lookup_lt_is_Some_2 (cpu_list s) (Z.to_nat b)) as [x Hx]; [lia|].
      eapply wp_cpu_store; [lia|exact Hx|]. wp_pures.
      eapply wp_cpu_store; [lia|simpl; apply list_lookup_insert_eq; lia|]. wp_pures.
      eapply wp_cpu_store; [lia|simpl; apply list_lookup_insert_eq; rewrite length_insert; lia|]. wp_pures. by apply HQ. }
  assert (∀ Q : unit → smp_state → Prop, (∀ s', cpu_count s' = n → bsp_cpu_ptr s' = b → gs s' = b →
    (∃ l, response s' = Some (mkResponse (bsp_lapic_id r) l) ∧
        ∀ j, l !! j = (if decide (Z.of_nat j < n ∧ Z.of_nat j ≠ b) then started_at else Datatypes.id) <$> cpus r !! j) →
    wp (wait_started seen) Q s') → wp (init_bsp_cpu ;; smp_start_aps ap_entry seen) Q s) as Hstart.
  { intros Q HQ. apply wp_bind, Hinit. intros s1 Hm1 Hr1 Hn1 Hb1 Hg1. unfold smp_start_aps. wp_pures. rewrite Hm1. simpl. wp_pures. rewrite Hn1.
    eapply (wp_start_loop _ r); [done|done|lia|]. intros s2 (l & -> & Hl). apply HQ; [done..|]. exists l. split; [done|].
    rewrite Hb1, Z2Nat.id in Hl by lia. exact Hl. }
  split.
  - intros (v & Hv & Hle)%Exists_exists. apply Hstart. intros s' Hn' Hb' Hg' (l & Hl & Hlj). apply wp_wait_started.
    + exists v. split; [done|]. by rewrite Hn'.
    + intros u Hu. split_and!; [done..|simpl; lia|]. exists l. done.
  - intros Hall. assert (∀ s', cpu_count s' = n → wait_started seen s' = Hang) as Hwait.
    { intros s' Hn'. clear Hstart. induction Hall as [|v seen Hv _ IH]; [done|]. simpl. unfold mbind, M_bind, gets.
      by rewrite Hn', (proj2 (Z.ltb_lt _ _) Hv). }
    destruct (proj1 (wp_done _ _ _) (Hinit (λ _ s1, mp_response s1 = true ∧ response s1 = Some r ∧ cpu_count s1 = n)
      ltac:(intros; done))) as ([] & s1 & Hrun & Hm1 & Hr1 & Hn1).
    destruct (proj1 (wp_done _ _ _) (wp_start_loop s1 r (Z.to_nat n) (λ _ s2, cpu_count s2 = n) Hm1 Hr1 ltac:(lia)
      ltac:(by intros ? (? & -> & _)))) as ([] & s2 & Hrun2 & Hn2).
    unfold mbind, M_bind. rewrite Hrun. unfold smp_start_aps, mbind, M_bind, gets. rewrite Hm1. cbn [negb]. rewrite Hn1, Hrun2. by apply Hwait.
Qed.

(** ** The order of [main.c] *)

(** The kernel finds its processor and starts the others before it looks at what
    the boot loader answered: no processor is ever started, and whichever
    processor runs takes the first [cpu_t]. *)
Theorem boot_starts_no_processor s r seen :
  mp_response s = false → cpu_count s = 0 → response s = Some r → cpus r ≠ [] → Z.of_nat (length (cpus r)) < 2 ^ 32 →
  length (cpu_list s) = 256%nat →
  wp (init_bsp_cpu ;; smp_start_aps ap_entry seen ;; smp_prepare) (λ _ s', gs s' = 0 ∧ bsp_cpu_ptr s' = 0 ∧
    ∃ l, response s' = Some (mkResponse (bsp_lapic_id r) l) ∧
      ∀ j : nat, goto_address <$> l !! j = goto_address <$> cpus r !! j) s.
Proof.
  intros Hm Hn Hr Hne Hlen Hcl. unfold init_bsp_cpu, smp_start_aps, cpu_set_current, bsp_round. wp_pures. simpl. rewrite Hn. simpl. wp_pures.
  simpl. rewrite Hn. simpl. wp_pures. destruct (lookup_lt_is_Some_2 (cpu_list s) 0) as [x Hx]; [lia|].
  eapply wp_cpu_store; [done|exact Hx|]. wp_pures.
  eapply wp_cpu_store; [done|simpl; apply list_lookup_insert_eq; lia|]. wp_pures.
  eapply wp_cpu_store; [done|simpl; apply list_lookup_insert_eq; rewrite length_insert; lia|]. wp_pures. simpl. rewrite Hm. simpl. wp_pures.
  eapply wp_mono; [apply (smp_prepared _ r); simpl; [done..|by rewrite !length_insert]|].
  intros [] s' (_ & _ & _ & Hb & Hg & l & Hl & Hlj). split_and!; [by rewrite Hg|by rewrite Hb|]. exists l. split; [done|].
  intros j. destruct (Hlj j) as [-> _]. case_decide; by destruct (cpus r !! j).
Qed.
End theorems.

(** * Three processors *)

(** The second of the three is the one that runs. *)
Definition demo_response : mp_response_t := mkResponse 5 [mkInfo 0 4 0 0; mkInfo 1 5 0 0; mkInfo 2 6 0 0].
Definition demo_smp : smp_state := mkSmp (Some demo_response) false (replicate 256 zero_cpu) zero_cpu FALLBACK 0 0 0.
Definition demo_prepared : smp_state := match smp_prepare demo_smp with Done (_, s) => s | _ => demo_smp end.

Lemma smp_starts_all_witness :
  wp (init_bsp_cpu ;; smp_start_aps 4096 [1; 2; 3]) (λ _ s', gs s' = 1 ∧
    (map goto_address ∘ cpus <$> response s') = Some [4096; 0; 4096]) demo_prepared.
Proof.
  destruct (smp_starts_all 4096 demo_prepared (mkResponse 5 [mkInfo 0 4 0 0; mkInfo 1 5 1 0; mkInfo 2 6 2 0]) 3 1 [1; 2; 3]) as [H _];
    [vm_compute; reflexivity..|vm_compute; done|lia|vm_compute; reflexivity| |].
  - split; [lia|]. split; [|eexists; split; vm_compute; reflexivity]. intros j x Hj Hj0. assert (j = 0) as -> by lia. by intros [= <-].
  - eapply wp_mono; [apply H; right; right; left; lia|]. intros [] s' (_ & Hg & _ & l & -> & Hl). split; [done|]. simpl. f_equal.
    destruct l as [|x0 [|x1 [|x2 [|x3 l]]]]; try (by specialize (Hl 0%nat)); try (by specialize (Hl 1%nat)); try (by specialize (Hl 2%nat)); [|by specialize (Hl 3%nat)].
    pose proof (Hl 0%nat) as [= ->]. pose proof (Hl 1%nat) as [= ->]. by pose proof (Hl 2%nat) as [= ->].
Defined.
Lemma boot_starts_no_processor_witness :
  wp (init_bsp_cpu ;; smp_start_aps 4096 [1] ;; smp_prepare) (λ _ s', gs s' = 0) demo_smp.
Proof.
  eapply wp_mono; [apply (boot_starts_no_processor 4096 demo_smp demo_response [1]); try done; vm_compute; reflexivity|]. by intros [] s' [? _].
Defined.
(** A processor that is started runs as the one it was started for. *)
Example ap_finds_itself :
  match (ap_enter 2 ;; get_current_cpuid) demo_prepared with Done (i, s) => Some (i, gs s) | _ => None end = Some (2, 2).
Proof. vm_compute. reflexivity. Qed.
